(* ===== verification/_CoqProject ===== *)
-Q . S2P
Prelude.v
PyFloat.v
FloatQuot.v
PyStr.v
PyInt.v
PyFmt.v
PyJson.v
PyTime.v
Regex.v
RegexTheory.v
PyText.v
UrlCodec.v
JsonText.v
PyNum.v
TextProc.v
Hashing.v
Drain.v
DrainStore.v
Signature.v
Pipeline.v
Emit.v
Dispatch.v
AmqpPool.v
Ingest.v
Sanitizer.v
Excerpt.v
Models.v
Features.v
Decision.v
Grouping.v
Scope.v
Trainer.v
MlEval.v
Artifacts.v
Gate.v
Retrain.v
Serving.v
Breaker.v
LlmQueue.v
LlmSchema.v
LlmEngine.v
Database.v
Retrieval.v
Knowledge.v
LabelLog.v
LlmStores.v
TestStats.v
HybridSearch.v
StoreOps.v
StoreInv.v
RouteHandlers.v
LlmEval.v
Nightly.v
LlmRoles.v
Grounding.v
Worker.v
Suggest.v
Analyze.v
Wiring.v
SeedModes.v
Seeds.v
SeedWiring.v
EarlyReplay.v
Migrate.v
Config.v
Bootstrap.v
Warmup.v
Client.v
TaskContext.v
Connect.v
Lifecycle.v
RpMigrate.v
FeaturesMeta.v
Inspector.v
InspectorViews.v
Shown.v
