(* ===== verification/Prelude.v ===== *)
(** * A verification library for the analyzer-ng service

    analyzer-ng receives launches of failed tests over AMQP, turns the logs of a
    failure into a signature, looks for similar failures a human has classified,
    decides a defect type, and learns from the corrections it gets back.  This
    library models the part of its Python code that decides something, and
    proves what those parts promise each other.  Paths below are relative to
    [src/src/analyzer_ng/], those of the inspector and of the tools to [src/].

    ** The program and the files that model it

    The order of the files is the order of the data through the service.

    - *Python itself.*  [PyFloat] (binary64 floats by [SpecFloat], with rounding,
      infinities and NaN), [FloatQuot] (quotients of counts), [PyFmt] ([round] and
      fixed-point formatting), [PyStr] (strings as characters or code points),
      [PyJson] (JSON trees and Python equality), [PyTime] (UTC datetimes),
      [Regex] and [RegexTheory] (the [re] module: parser, backtracking matcher,
      and the language of a pattern), [PyText] and [UrlCodec] ([str] methods,
      percent-encoding), [PyInt] ([int] of a text, negative indices), [JsonText]
      ([json.dumps]), [PyNum] ([float] of a value, iteration, [dict.get]).  They model the language and its standard library and
      map to no source line.
    - *From text to signature.*  [TextProc] is [preprocessing/text_processing.py];
      [Pipeline] composes its stages as [preprocessing/log_preparation.py],
      [prepared_log.py] and [pipeline.py] do; [Hashing] is [ml/hashing.py];
      [Drain] is the template miner of [ml/drain.py]; [DrainStore] the two tables
      of [db/repositories/drain3_state.py], written by concurrent processes and cleared
      by the deletion of a project; [Signature] is [ml/signature.py].
    - *Indexing.*  [Ingest] is [core/ingest.py]: request to rows, with the
      compare-and-set loop over [DrainStore] and one transaction per project.
    - *Deciding.*  [Models] (the candidate record), [Features]
      ([core/features.py]), [Decision] ([core/decision.py]), [Grouping]
      ([core/grouping.py]), [Scope] ([core/scope.py]).  [Analyze] and [Suggest]
      are [core/analysis.py]: the routes, their writes and jobs, and the replies; [Analyze]
      follows a reading of the store through a route ([Frame], [reaches]), so that its
      theorems speak of the evidence the store held when it was read.
    - *Learning.*  [Trainer] ([ml/trainer.py], [ml/calibration.py]), [MlEval]
      ([ml/eval.py]), [Artifacts] ([ml/artifacts.py]), [Gate] ([ml/gate.py]),
      [Retrain] ([ml/retrain.py]), [Serving] ([ml/serving.py]).
    - *The LLM sidecar.*  [Sanitizer], [Excerpt] (prompt hygiene), [Breaker],
      [LlmQueue], [LlmSchema], [LlmEngine], [LlmRoles] are the files of the same
      names under [llm/] (the roles with [llm/apply.py] and [llm/wiring.py], the
      cache with [db/repositories/llm_cache.py]).  [Grounding] is the explainer and
      extractor of [llm/roles/], as roles of [LlmEngine]; [Worker] is
      [llm/manager.py]: a job's facts, the engine over the tables of [LlmStores], and
      the row its answer updates; [Client] is [llm/client.py], both dialects of the
      model server with the probe; [Warmup] is [llm/warmup.py] with
      [tools/warm-extractor-cache/warm.py].
    - *Messages.*  [Dispatch] is [amqp/dispatcher.py]: the routing table, one message
      through adapter, handler and serializer, retries, replies, dead letters;
      [AmqpPool] the consumers, the bounded priority queue of the workers and the
      outbox ([amqp/consumer.py], [amqp/client.py]); [Connect] the connection of
      [amqp/client.py] with its back-off and topology and the life of a consumer's
      thread, which the broker may end by cancelling its subscription; [TaskContext] the
      context variables of a message, the worker's retry loop and the watchdog of each
      attempt ([core/observability.py], [core/cancellation.py], [amqp/dispatcher.py], the
      connection of [db/repositories/_common.py]); [RouteHandlers] is [core/handlers.py].
    - *The store.*  [Database] holds the tables of [db/migrations/] as finite maps;
      [Retrieval], [HybridSearch], [Knowledge], [LabelLog] and [TestStats] are the
      repositories of [db/repositories/] ([retrieval.py], [queries.py], [kb.py],
      [labels.py] with [suggestion_ops.py], [stats.py] with [ml/reporting.py]), a
      statement being a function on the tables.  [StoreOps] makes one transition
      system of all writes; [StoreInv] proves what every history of writes keeps.
    - *Wiring.*  [Wiring] is the composition of [core/handlers.py]: the engine over the
      repositories and the sidecar's queue.  [LlmStores] is the cache, the call log and the
      role switches of [db/repositories/llm_cache.py] and [llm_events.py]; [LlmEval] is
      [llm/eval.py], the nightly evaluation with its kill switch; [Nightly] is the
      nightly trigger of [service.py].
    - *Seed knowledge.*  [Seeds] is [seeds/catalog.py] and [seeds/loader.py]:
      loading and validation of the catalogue, the first-match classifier, and the
      copies of a project; [SeedModes] transcribes [seeds/seed_modes.yaml]; [SeedWiring]
      gives the loader to the engine of [Analyze] over the store of [Wiring].
    - *Early replay.*  [EarlyReplay] is [ml/early_replay.py] with the query of
      [tools/replay-early-aa/replay.py]: a logged decision, collapsed to a group of
      one and predicted again.
    - *Start-up.*  [Config] is [config.py] - validators, the derived DSN,
      [load_config] - with the URL functions of [amqp/client.py] and the redaction of
      [db/startup.py]; [Migrate] is [db/migrate.py]: discovery, the statement splitter,
      the ledger, a run, and several containers starting at once as a transition
      system; [Bootstrap] is [db/startup.py]: retries, creation of the database,
      checks of the server, exit codes; [Lifecycle] is the start and shutdown of
      [service.py], [run] of [main.py], and the health routes of [api/http.py].
    - *Inspector.*  [FeaturesMeta] is the table of features of
      [inspector/backend/features_meta.py]; [Inspector] the decision shown for an item and
      the explanation carried over to it, [InspectorViews] the other blocks of an item's
      journey and the views of a launch and a project ([inspector/backend/payloads.py],
      [reconstruct.py]); [Shown] sets what is shown against what [Decision] decided.
    - *Tools.*  [RpMigrate] is [tools/rp-migrate/migrate.py]: the
      copy of launches into another instance, over two servers - the item tree, pruning,
      defect types, the replay of a launch and of its defects.

    ** How state and operations correspond

    A Python object with fields is a [Record] with the same field names in a
    [Module] of the class's name; a method is the [Definition] of the method's
    name.  A method that mutates its object returns the new one.  An operation
    that runs under a lock is one transition; [LlmQueue], [Retrain] and
    [DrainStore] compose such transitions in arbitrary order and prove their
    invariants by induction over the steps.  A table is the list of its rows (or
    a map from its key), and a transaction that raises leaves it unchanged.
    Where a route reads and writes several stores, may raise half-way and the
    order of calls is part of its contract, it is a computation of the monad of
    [Emit]: state, exception and a trace of calls.  Exceptions are values of the
    sum [result].

    ** What is a parameter

    Code that is not in the repository is never given a definition.  It is an
    operation of a type class, with documented laws only where a theorem needs
    them, and each class has a concrete instance the witnesses run:
    [Libm] (C mathematics), [Numpy] (float32 vectors), [XXHash], [Unicode]
    (character tables beyond ASCII), [Tfidf], [TemplateMiner] (Drain3),
    [LightGBM] and [Isotonic], [Heapq] (with an implementation that meets its
    laws), [Env] of [LlmEngine] (the model server's answers, clock and digest),
    [PgVector] and [PgSearch] (vector
    distances and full-text ranks), [Wire] and [Payloads] (pydantic's models),
    [PyRepr] ([repr] of a float or container), [Server], [UrlTables] and [Digits] (the
    database server and connection library, and tables beyond ASCII), [ReplySink] and [Broker] (the broker),
    [Servers] (the two instances of a migration); the store interfaces of
    [Analyze] and [Ingest] state what the engine needs of the repositories.  Random values, clock
    readings, the model server's HTTP replies, the YAML loader, the digest of a file and the server's effect of a
    statement are arguments.

    ** What the theorems show

    - *Decision safety:* a Stage-A inheritance is backed by a recent, agreed
      human label; a decision is well-formed with its confidence in [0,1] and its
      band the one its thresholds give; an automatic label needs evidence above
      the automatic threshold; a gate-blocked hash is never promoted.
    - *Engine:* which writes and jobs each route makes, in which order, for every
      reply; the early pass never labels below its bar; every decision rests on
      labelled evidence of other items, inside the project and the launches of its request; replies are shaped as
      the wire contract says; the judge only promotes and the rubric never
      displaces.
    - *Text:* the sanitizer's output holds no control token; a document stays in
      its bound; identity hashes do not depend on the near-error context; the log
      filter keeps what it documents; template ids round-trip.
    - *Indexing:* projects commit independently; a save that the compare-and-set
      admits is of the state it was loaded from, unless the project was deleted meanwhile; the read path agrees with the write path and
      persists nothing.
    - *Grouping:* the groups partition the launch, whatever the order of input.
    - *Learning:* no evaluation event reaches the training side; a ship is atomic
      and never leaves the served model without its calibrators; shipped models
      keep their minimum distance; requests made during a run are not lost.
    - *LLM:* no job is lost or run twice without being counted; the breaker
      closes again; a run answers exactly what the cache, the schema and the role
      allow, and only validated answers write; the engine over the tables refines the
      engine as long as the database's clock stands still ([calm]); the sidecar annotates and never decides; what an explainer quotes is in
      the evidence; what an extractor's run cached is what the matcher looks up, until it expires; the client reads
      exactly the model's answer, without its think block, in either dialect; the warm-up
      lists exactly the template sets the feature lookup misses.
    - *Seeds:* the catalogue loads exactly when its entries are in order; each of the
      fifty packaged modes is the answer to some failure; a project gets one copy of a
      mode, and the engine's seed signal is the loader's.
    - *Replay:* the collapsed features are those the engine computes for a group of one.
    - *Start-up:* the splitter returns the statements between top-level semicolons;
      migrations run once, in order, and a failed one is where the next run starts;
      containers that start together converge, whatever the interleaving and the
      crashes; every lock of a start is given up and its exit code says why it failed;
      the password of the derived DSN is not in its redaction.
    - *Messages:* a worker ends every message once, with a reply or a dead letter,
      after at most the configured retries; a body the adapter rejects reaches no
      handler; the pool neither loses nor repeats a delivery; a task leaves nothing in
      its thread's context, each attempt has a flag and a deadline of its own; connecting
      ends, a consumer stopped while it consumes delivers nothing more, and one the broker
      cancelled does not come back.
    - *Tools:* a launch is replayed in order - items under their parents, children
      finished before their parents, each followed by its logs, the launch last; pruning keeps exactly the items
      with one not passed at or under them; the walk finds every item of the tree.
    - *Inspector:* an explanation is shown only with a decision that agrees with the row it
      came from in all that is compared; the clock alone does not lose one; the views of
      label conflicts agree on labels that are locators; the reconstruction reads with the
      matcher's search, with another query; where a shown method or stage departs from the
      decision is stated.
    - *Store:* a write about one project changes no row and no read of another one;
      identities, references and unique keys hold after any history of writes; only
      the reaper removes label events, and none before its grace; deleting a project
      forgets it except for its label log; a maintenance route, whatever call fails,
      leaves a store with a history; feedback does per item what it is for; evidence
      is never an unclassified item, and fusion respects both rankings; a training
      example is the newest label with the latest snapshot made before it; the daily
      report counts each suggestion once.
    - *Composition:* a deciding route over the real repositories only adds rows about
      the projects of its request; the kill switch only switches off what fails its
      criteria on enough suggestions, and never on; a night ends whatever fails, and
      leaves every item, signature, mode and suggestion alone.

    ** Fuel and bounds

    Structural recursion is used wherever the source iterates over data.  Fuel
    appears in these places, each with the theorem that says it is enough: the
    regular-expression matcher (a repetition that consumes nothing stops; the
    fuel is the length of the subject plus one), the shrinking loops of
    [Signature.document] and [Excerpt.middle_out] ([document_bounded],
    [middle_out_total]), the statement splitter of [Migrate] (one step per character
    at least: its fuel is the length of the script plus one, and
    [split_statements_exact] is about what it returns), and the compare-and-set retries of [Drain]
    (the source's own bounded attempts), and the connecting loop of [Connect]
    ([connects_or_gives_up]: the clock ends it, after eleven attempts with the default
    settings), and the paging, the walk of the item tree and the pruning of [RpMigrate]
    ([paged_ends], [tree_complete], [drop_passed_exact]).  The retry loop of the workers recurses
    on the retries left.

    ** Not modelled

    Columns no modelled statement reads, partitions and the connection pool ([db/]), the
    web server, metrics rendering, the settings library, ONNX inference
    ([ml/embedder.py]), prompt wording, the threads themselves, log handlers; the
    inspector's web application, its other listings, its projection to three dimensions
    and its links; demo data and benchmarks.
    They are I/O around the decisions above.

    ** Plan

    What is left is at the edges: the inspector's remaining listings, as functions of
    the tables.
*)

From stdpp Require Export base list strings sorting option numbers gmap.
From Stdlib Require Import Permutation ZArith.

(** ** Scope of the development's own notations *)

Declare Scope pyf_scope.
Delimit Scope pyf_scope with pyf.

(** ** Automation

    [destr_match] splits the innermost test of a goal or hypothesis; [simp]
    is the closing step most case analyses need. *)

Ltac destr_match :=
  match goal with
  | |- context [match ?x with _ => _ end] =>
      lazymatch x with
      | context [match _ with _ => _ end] => fail
      | _ => destruct x eqn:?
      end
  end.

Ltac destr_match_in H :=
  match type of H with
  | context [match ?x with _ => _ end] =>
      lazymatch x with
      | context [match _ with _ => _ end] => fail
      | _ => destruct x eqn:?
      end
  end.

Ltac simp := repeat (simplify_eq/= || case_match || destruct_and?); try done.

(** Existentials and conjunctions of the context, opened in place. *)
Ltac dex :=
  repeat match goal with
  | H : exists _, _ |- _ => destruct H
  | H : _ /\ _ |- _ => destruct H
  end.

(** Split a membership in a literal list into its elements. *)
Ltac elem_cases H :=
  repeat (apply elem_of_cons in H; destruct H as [->|H]); try by apply elem_of_nil in H.

(** Boolean conjunctions and disjunctions of the context as propositions. *)
Ltac bprop :=
  repeat match goal with
  | H : (_ && _) = true |- _ => apply andb_true_iff in H; destruct H
  | H : (_ || _) = false |- _ => apply orb_false_iff in H; destruct H
  | H : negb _ = true |- _ => apply negb_true_iff in H
  | H : negb _ = false |- _ => apply negb_false_iff in H
  | H : bool_decide _ = true |- _ => apply bool_decide_eq_true_1 in H
  | H : bool_decide _ = false |- _ => apply bool_decide_eq_false_1 in H
  end.

(** ** Python exceptions as values

    The exceptions the modelled code raises or lets through.  [result] is the
    value-or-exception type, with stdpp's monad notation. *)

Inductive pyexn :=
  | ZeroDivisionError
  | TypeError
  | ValueError
  | KeyError (key : string)
  | IndexError
  | AttributeError
  | OtherError (name : string).

#[export] Instance pyexn_eq_dec : EqDecision pyexn.
Proof. solve_decision. Defined.

Inductive result (A : Type) :=
  | Ok (a : A)
  | Raise (e : pyexn).
Arguments Ok {A} a.
Arguments Raise {A} e.

#[export] Instance Ok_inj {A} : Inj (=) (=) (@Ok A).
Proof. by intros x y [= ->]. Qed.

#[export] Instance result_ret : MRet result := fun A a => Ok a.
#[export] Instance result_bind : MBind result := fun A B f r =>
  match r with Ok a => f a | Raise e => Raise e end.
#[export] Instance result_fmap : FMap result := fun A B f r =>
  match r with Ok a => Ok (f a) | Raise e => Raise e end.

Lemma result_bind_Ok {A B} (r : result A) (f : A -> result B) b :
  r ≫= f = Ok b <-> exists a, r = Ok a /\ f a = Ok b.
Proof. destruct r; split; [eauto|..]; intros; dex; simp. Qed.

Lemma result_bind_Raise {A B} (r : result A) (f : A -> result B) e :
  r ≫= f = Raise e <-> r = Raise e \/ exists a, r = Ok a /\ f a = Raise e.
Proof.
  destruct r; split; simpl; intros H; [right; eauto | |left; congruence|].
  - by destruct H as [H|(? & [= ->] & H)].
  - destruct H as [[= ->]|(? & ? & ?)]; done.
Qed.

(** Run a fallible function over a list, left to right, stopping at the first
    exception: what a Python comprehension does. *)
Fixpoint rmapM {A B} (f : A -> result B) (l : list A) : result (list B) :=
  match l with
  | [] => Ok []
  | x :: l' => y ← f x; ys ← rmapM f l'; Ok (y :: ys)
  end.

Lemma rmapM_length {A B} (f : A -> result B) l ys :
  rmapM f l = Ok ys -> length ys = length l.
Proof.
  revert ys. induction l as [|x l IH]; simpl; intros ys H; [by simplify_eq|].
  apply result_bind_Ok in H as (y & Hy & H).
  apply result_bind_Ok in H as (ys' & Hys & H). simplify_eq/=. by rewrite (IH ys').
Qed.

Lemma rmapM_pure {A B} (g : A -> B) l : rmapM (fun x => Ok (g x)) l = Ok (g <$> l).
Proof. induction l as [|x l IH]; simpl; [done|]. by rewrite IH. Qed.

(** ** [max(xs, key=...)]: the first element no other element exceeds *)

Section PyMax.
Context {A : Type} (gtb : A -> A -> bool).

(** Python keeps the current maximum unless the new item is strictly greater. *)
Definition pymax_step (cur x : A) : A := if gtb x cur then x else cur.
Definition pymax (x : A) (l : list A) : A := fold_left pymax_step l x.
Definition pymax_list (l : list A) : option A :=
  match l with [] => None | x :: l' => Some (pymax x l') end.

Lemma pymax_in x l : pymax x l ∈ x :: l.
Proof.
  unfold pymax. revert x. induction l as [|y l IH]; intros x; simpl; [set_solver|].
  destruct (proj1 (elem_of_cons _ _ _) (IH (pymax_step x y))) as [->|Hin].
  - unfold pymax_step. destruct (gtb y x); rewrite !elem_of_cons; tauto.
  - rewrite !elem_of_cons. tauto.
Qed.

Lemma pymax_list_in l m : pymax_list l = Some m -> m ∈ l.
Proof. destruct l as [|x l]; [done|]. intros [= <-]. apply pymax_in. Qed.

Lemma pymax_list_None l : pymax_list l = None <-> l = [].
Proof. destruct l; naive_solver. Qed.

Context (gtb_irrefl : forall x, gtb x x = false).
Context (not_gtb_trans : forall x y z,
  gtb y x = false -> gtb z y = false -> gtb z x = false).
Context (gtb_asym : forall x y, gtb x y = true -> gtb y x = false).

Lemma pymax_ge x l y : y ∈ x :: l -> gtb y (pymax x l) = false.
Proof using gtb_irrefl not_gtb_trans gtb_asym.
  unfold pymax. revert x y. induction l as [|z l IH]; intros x y; simpl.
  - rewrite list_elem_of_singleton. intros ->. apply gtb_irrefl.
  - unfold pymax_step at 2. destruct (gtb z x) eqn:E; intros Hy.
    + apply elem_of_cons in Hy as [->|Hy]; [|by apply IH].
      apply not_gtb_trans with z; [apply IH; set_solver|by apply gtb_asym].
    + apply elem_of_cons in Hy as [->|Hy]; [apply IH; set_solver|].
      apply elem_of_cons in Hy as [->|Hy]; [|apply IH; set_solver].
      apply not_gtb_trans with x; [apply IH; set_solver|done].
Qed.
End PyMax.

(** ** [sorted(xs, key=...)]: a stable insertion sort

    [leb x y] says that [x]'s key is at most [y]'s. *)

Section PySorted.
Context {A : Type} (leb : A -> A -> bool).

Fixpoint sort_insert (x : A) (l : list A) : list A :=
  match l with
  | [] => [x]
  | y :: l' => if leb x y then x :: y :: l' else y :: sort_insert x l'
  end.

Fixpoint pysorted (l : list A) : list A :=
  match l with
  | [] => []
  | x :: l' => sort_insert x (pysorted l')
  end.

Lemma sort_insert_perm x l : sort_insert x l ≡ₚ x :: l.
Proof.
  induction l as [|y l IH]; simpl; [done|].
  destruct (leb x y); [done|]. rewrite IH. constructor.
Qed.

Lemma pysorted_perm l : pysorted l ≡ₚ l.
Proof. induction l as [|x l IH]; simpl; [done|]. by rewrite sort_insert_perm, IH. Qed.

Lemma elem_of_pysorted x l : x ∈ pysorted l <-> x ∈ l.
Proof. by rewrite pysorted_perm. Qed.

Lemma pysorted_length l : length (pysorted l) = length l.
Proof. apply Permutation_length, pysorted_perm. Qed.

(** Elements no two of which the order separates keep their order. *)
Lemma sort_insert_stable (P : A -> bool) x l : (forall a b, P a = true -> P b = true -> leb a b = true) ->
  List.filter P (sort_insert x l) = List.filter P (x :: l).
Proof.
  intros HP. induction l as [|y l IH]; simpl; [done|].
  destruct (leb x y) eqn:E; [done|]. simpl. rewrite IH. simpl.
  destruct (P x) eqn:Hx, (P y) eqn:Hy; try done. by rewrite (HP x y) in E.
Qed.

Lemma pysorted_stable (P : A -> bool) l : (forall a b, P a = true -> P b = true -> leb a b = true) ->
  List.filter P (pysorted l) = List.filter P l.
Proof.
  intros HP. induction l as [|x l IH]; [done|]. cbn [pysorted]. rewrite sort_insert_stable by done. simpl. by rewrite IH.
Qed.

Context (leb_total : forall x y, leb x y = false -> leb y x = true).
Context (leb_trans : forall x y z, leb x y = true -> leb y z = true -> leb x z = true).

Lemma sort_insert_sorted x l :
  StronglySorted (fun a b => leb a b = true) l ->
  StronglySorted (fun a b => leb a b = true) (sort_insert x l).
Proof using leb_total leb_trans.
  induction 1 as [|y l Hl IH Hy]; simpl; [repeat constructor|].
  destruct (leb x y) eqn:E.
  - constructor; [by constructor|]. constructor; [done|].
    eapply Forall_impl; [exact Hy|]. simpl. eauto.
  - constructor; [done|]. rewrite sort_insert_perm. constructor; auto.
Qed.

Lemma pysorted_sorted l : StronglySorted (fun a b => leb a b = true) (pysorted l).
Proof using leb_total leb_trans.
  induction l as [|x l IH]; simpl; [constructor|]. by apply sort_insert_sorted.
Qed.

(** The sort forgets the order of its input as soon as no two elements of the
  list tie. *)
Lemma pysorted_perm_unique l1 l2 :
  l1 ≡ₚ l2 ->
  (forall x y, x ∈ l1 -> y ∈ l1 -> leb x y = true -> leb y x = true -> x = y) ->
  pysorted l1 = pysorted l2.
Proof using leb_total leb_trans.
  intros Hp Hanti.
  apply (StronglySorted_unique_strong (fun a b => leb a b = true)).
  - intros x y Hx Hy. rewrite elem_of_pysorted in Hx, Hy.
    apply Hanti; [done|]. by rewrite Hp.
  - apply pysorted_sorted.
  - apply pysorted_sorted.
  - by rewrite !pysorted_perm.
Qed.
End PySorted.

(** ** Dictionaries in insertion order

    A Python dict whose iteration order matters is an association list: an
    update keeps the key's place, a new key goes last. *)

Section PyDict.
Context {K V : Type} `{EqDecision K}.

Fixpoint dget (k : K) (d : list (K * V)) : option V :=
  match d with
  | [] => None
  | (k', v) :: d' => if decide (k = k') then Some v else dget k d'
  end.

Fixpoint dset (k : K) (v : V) (d : list (K * V)) : list (K * V) :=
  match d with
  | [] => [(k, v)]
  | (k', v') :: d' => if decide (k = k') then (k', v) :: d' else (k', v') :: dset k v d'
  end.

Definition dgetd (k : K) (dflt : V) (d : list (K * V)) : V := default dflt (dget k d).

Lemma dget_dset_eq k v d : dget k (dset k v d) = Some v.
Proof. induction d as [|[k' v'] d IH]; simpl; repeat case_decide; simp. Qed.

Lemma dget_dset_ne k k' v d : k <> k' -> dget k' (dset k v d) = dget k' d.
Proof.
  intros Hne. induction d as [|[k'' v''] d IH]; simpl.
  - by rewrite decide_False by congruence.
  - destruct (decide (k = k'')); simpl; [by rewrite !decide_False by congruence|].
    destruct (decide (k' = k'')); done.
Qed.

Lemma dget_elem k v d : dget k d = Some v -> (k, v) ∈ d.
Proof.
  induction d as [|[k' v'] d IH]; simpl; [done|].
  case_decide; intros; simplify_eq; set_solver.
Qed.

Lemma elem_dget k v d : NoDup d.*1 -> (k, v) ∈ d -> dget k d = Some v.
Proof.
  induction d as [|[k' v'] d IH]; simpl; [by intros _ ?%elem_of_nil|]. intros [Hk Hd]%NoDup_cons [E|Hin]%elem_of_cons.
  - injection E as -> ->. by rewrite decide_True.
  - rewrite decide_False; [by apply IH|]. intros ->. apply Hk. apply list_elem_of_fmap. by exists (k', v).
Qed.

(** Setting a key changes a sum over the values by the difference. *)
Lemma sum_dset (f : V -> Z) z k v d : f z = 0%Z ->
  foldr (fun kv n => f kv.2 + n)%Z 0%Z (dset k v d) = (foldr (fun kv n => f kv.2 + n) 0 d - f (dgetd k z d) + f v)%Z.
Proof.
  intros Hz. unfold dgetd. induction d as [|[k' v'] d IH]; simpl; [lia|].
  case_decide; simpl; [lia|]. rewrite IH. lia.
Qed.

Lemma dget_is_Some k d : is_Some (dget k d) <-> k ∈ d.*1.
Proof.
  induction d as [|[k' v'] d IH]; simpl.
  - rewrite elem_of_nil. split; [by intros []|done].
  - rewrite elem_of_cons, <- IH. case_decide; [subst; split; eauto|].
    split; [tauto|]. intros [->|]; tauto.
Qed.

Lemma dset_keys k v d : k ∈ d.*1 -> (dset k v d).*1 = d.*1.
Proof.
  induction d as [|[k' v'] d IH]; simpl; [set_solver|].
  rewrite elem_of_cons. case_decide; simpl; [done|].
  intros [->|Hin]; [done|]. f_equal. by apply IH.
Qed.

Lemma dset_Forall (P : K * V -> Prop) k v d :
  P (k, v) -> Forall P d -> Forall P (dset k v d).
Proof.
  intros Hv. induction 1 as [|[k' v'] d Hx Hd IH]; simpl; [by constructor|].
  case_decide; subst; by constructor.
Qed.

Lemma dset_keys_new k v d : k ∉ d.*1 -> (dset k v d).*1 = d.*1 ++ [k].
Proof.
  induction d as [|[k' v'] d IH]; simpl; [done|].
  rewrite not_elem_of_cons. intros [Hne Hni].
  rewrite decide_False by done. simpl. f_equal. by apply IH.
Qed.

Lemma dset_NoDup k v d : NoDup d.*1 -> NoDup (dset k v d).*1.
Proof.
  intros H. destruct (decide (k ∈ d.*1)) as [Hin|Hni].
  - by rewrite (dset_keys _ _ _ Hin).
  - rewrite (dset_keys_new _ _ _ Hni). apply NoDup_app.
    split_and!; [done| |apply NoDup_singleton].
    intros x Hx. rewrite list_elem_of_singleton. by intros ->.
Qed.

Lemma elem_of_dset_keys k k' v d : k' ∈ (dset k v d).*1 <-> k' = k \/ k' ∈ d.*1.
Proof.
  destruct (decide (k ∈ d.*1)) as [Hin|Hni].
  - rewrite (dset_keys _ _ _ Hin). split; [tauto|]. by intros [->|?].
  - rewrite (dset_keys_new _ _ _ Hni), elem_of_app, list_elem_of_singleton. tauto.
Qed.
End PyDict.

(** [d.setdefault(k, []).append(x)] adds [x] to the dict's values and nothing
    else. *)
Lemma dset_append_perm {K A} `{EqDecision K} (k : K) (x : A) (d : list (K * list A)) :
  concat (dset k (dgetd k [] d ++ [x]) d).*2 ≡ₚ x :: concat d.*2.
Proof.
  unfold dgetd. induction d as [|[k' v'] d IH]; simpl; [done|].
  case_decide; simpl.
  - rewrite <- (assoc (++)). symmetry. apply Permutation_middle.
  - rewrite IH. symmetry. apply Permutation_middle.
Qed.

Create Rewrite HintDb pydict.
#[global] Hint Rewrite @dget_dset_eq : pydict.
#[global] Hint Rewrite @dget_dset_ne using done : pydict.

Lemma omap_none {A B} (f : A -> option B) l : Forall (fun x => f x = None) l -> omap f l = [].
Proof. induction 1 as [|x l Hx _ IH]; csimpl; [done|]. by rewrite Hx. Qed.

(** ** Lists *)

Lemma concat_fmap {A B} (f : A -> list B) l : concat (f <$> l) = l ≫= f.
Proof. induction l as [|x l IH]; csimpl; [done|]. by rewrite IH. Qed.

Lemma bind_single_fmap {A B} (f : A -> B) l : l ≫= (fun x => [f x]) = f <$> l.
Proof. induction l as [|x l IH]; csimpl; [done|]. by rewrite IH. Qed.

Lemma bind_fmap_bind {A B C D} (f : A -> B) (h : B -> list C) (ms : A -> list D) (k : D -> list C) l :
  (forall x, x ∈ l -> h (f x) = ms x ≫= k) -> (f <$> l) ≫= h = (l ≫= ms) ≫= k.
Proof.
  induction l as [|x l IH]; intros Hf; csimpl; [done|].
  rewrite bind_app, (Hf x) by (by left). f_equal. apply IH. intros y Hy. apply Hf. by right.
Qed.

Lemma NoDup_fmap_elem_inj {A B} (f : A -> B) (l : list A) x y :
  NoDup (f <$> l) -> x ∈ l -> y ∈ l -> f x = f y -> x = y.
Proof.
  intros Hnd [i Hi]%list_elem_of_lookup [j Hj]%list_elem_of_lookup E.
  assert (i = j) as -> by (apply (NoDup_lookup (f <$> l) i j (f x)); [done|by rewrite list_lookup_fmap, Hi|];
    by rewrite list_lookup_fmap, Hj, E).
  congruence.
Qed.

Lemma find_Some_elem {A} (f : A -> bool) (l : list A) x :
  List.find f l = Some x -> x ∈ l /\ f x = true.
Proof. intros H. apply find_some in H. rewrite list_elem_of_In. done. Qed.

Lemma filterb_elem {A} (f : A -> bool) (l : list A) x :
  x ∈ List.filter f l <-> x ∈ l /\ f x = true.
Proof. by rewrite !list_elem_of_In, filter_In. Qed.

Lemma filterb_perm {A} (f : A -> bool) (l1 l2 : list A) :
  l1 ≡ₚ l2 -> List.filter f l1 ≡ₚ List.filter f l2.
Proof.
  induction 1; simpl; repeat destruct (f _); try done; try by constructor.
  by etrans.
Qed.

Lemma omap_ext_in {A B} (f g : A -> option B) (l : list A) : (forall x, x ∈ l -> f x = g x) -> omap f l = omap g l.
Proof.
  induction l as [|x l IH]; intros E; [done|]. csimpl. rewrite (E x) by (by left).
  rewrite IH; [done|]. intros; apply E; by right.
Qed.

Lemma fmap_ext_in {A B} (f g : A -> B) (l : list A) : (forall x, x ∈ l -> f x = g x) -> f <$> l = g <$> l.
Proof.
  induction l as [|x l IH]; intros E; [done|]. csimpl. rewrite (E x) by (by left).
  rewrite IH; [done|]. intros; apply E; by right.
Qed.

Lemma StronglySorted_mono {A} (R S : A -> A -> Prop) l :
  (forall a b, R a b -> S a b) -> StronglySorted R l -> StronglySorted S l.
Proof.
  intros HS. induction 1 as [|a l _ IH Ha]; constructor; [done|]. eapply Forall_impl; [exact Ha|]. intros b. apply HS.
Qed.

Lemma pysorted_ext {A} (leb leb' : A -> A -> bool) (l : list A) :
  (forall a b, leb a b = leb' a b) -> pysorted leb l = pysorted leb' l.
Proof.
  intros E. induction l as [|x l IH]; [done|]. cbn [pysorted]. rewrite IH. clear IH.
  induction (pysorted leb' l) as [|y r IH]; [done|]. cbn [sort_insert]. by rewrite E, IH.
Qed.

Lemma omap_length_le {A B} (f : A -> option B) (l : list A) : (length (omap f l) <= length l)%nat.
Proof. induction l as [|x l IH]; csimpl; [done|]. destruct (f x); simpl; lia. Qed.

(** [xs[:k]] and [xs[k:]] with Python's negative indices. *)
Definition slice_at {A} (k : Z) (l : list A) : nat :=
  if (k <? 0)%Z then Z.to_nat (Z.of_nat (length l) + k)%Z else Z.to_nat k.

Definition slice_to {A} (k : Z) (l : list A) : list A := take (slice_at k l) l.

Lemma slice_to_length {A} k (l : list A) : (0 <= k)%Z -> (Z.of_nat (length (slice_to k l)) <= k)%Z.
Proof.
  intros Hk. unfold slice_to, slice_at. rewrite (proj2 (Z.ltb_ge _ _)) by done. rewrite length_take. lia.
Qed.

Lemma slice_to_sublist {A} k (l : list A) : slice_to k l `sublist_of` l.
Proof. apply sublist_take. Qed.
