(* ===== verification/PyFloat.v ===== *)
(** * Python floats

    A Python [float] is an IEEE-754 binary64 number.  The development uses the
    executable specification of binary64 that Rocq's own kernel floats are
    specified against ([SpecFloat] at precision 53 and exponent bound 1024), so
    every rounding, overflow, signed zero and NaN of the source happens in the
    model too.  This file adds Python's comparisons, [min]/[max], integer
    division and conversions, and the order lemmas the components share. *)

From S2P Require Import Prelude.
From Stdlib Require Import ZArith Lia.
From Stdlib Require Export Floats.SpecFloat.

Abbreviation pyfloat := spec_float.

(** ** Arithmetic *)

Definition fadd : pyfloat -> pyfloat -> pyfloat := SFadd 53 1024.
Definition fsub : pyfloat -> pyfloat -> pyfloat := SFsub 53 1024.
Definition fmul : pyfloat -> pyfloat -> pyfloat := SFmul 53 1024.
(** The IEEE quotient; Python's [/] agrees with it when the divisor is not zero. *)
Definition fquot : pyfloat -> pyfloat -> pyfloat := SFdiv 53 1024.
Definition fopp : pyfloat -> pyfloat := SFopp.
Definition fabs : pyfloat -> pyfloat := SFabs.
(** [math.sqrt] on a non-negative argument. *)
Definition fsqrt : pyfloat -> pyfloat := SFsqrt 53 1024.

Definition flt (x y : pyfloat) : bool := SFltb x y.
Definition fle (x y : pyfloat) : bool := SFleb x y.
Definition feq (x y : pyfloat) : bool := SFeqb x y.

Declare Scope pyfloat_scope.
Delimit Scope pyfloat_scope with F.
Bind Scope pyfloat_scope with spec_float.
Infix "+" := fadd : pyfloat_scope.
Infix "-" := fsub : pyfloat_scope.
Infix "*" := fmul : pyfloat_scope.
Infix "<?" := flt (at level 70) : pyfloat_scope.
Infix "<=?" := fle (at level 70) : pyfloat_scope.
Infix "=?" := feq (at level 70) : pyfloat_scope.

Definition f0 : pyfloat := S754_zero false.
Definition finf : pyfloat := S754_infinity false.
Definition fnan : pyfloat := S754_nan.

(** [float(z)] for an integer: the nearest double (the source converts counts
    and timestamps, far below the range where Python raises OverflowError). *)
Definition of_Z (z : Z) : pyfloat := binary_normalize 53 1024 z 0 false.

(** Python's [int / int]: the correctly rounded quotient of the exact integers,
    ZeroDivisionError on a zero divisor. *)
Definition int_quot (a b : Z) : pyfloat :=
  match a, b with
  | _, Z0 => fnan
  | Z0, Zneg _ => S754_zero true
  | Z0, Zpos _ => f0
  | Zpos m, Zpos n => SFdiv 53 1024 (S754_finite false m 0) (S754_finite false n 0)
  | Zneg m, Zpos n => SFdiv 53 1024 (S754_finite true m 0) (S754_finite false n 0)
  | Zpos m, Zneg n => SFdiv 53 1024 (S754_finite false m 0) (S754_finite true n 0)
  | Zneg m, Zneg n => SFdiv 53 1024 (S754_finite true m 0) (S754_finite true n 0)
  end.
Definition int_truediv (a b : Z) : result pyfloat :=
  if decide (b = 0)%Z then Raise ZeroDivisionError else Ok (int_quot a b).

(** Python's [float / float]. *)
Definition is_zero (x : pyfloat) : bool := feq x f0.
Definition py_fdiv (x y : pyfloat) : result pyfloat :=
  if is_zero y then Raise ZeroDivisionError else Ok (fquot x y).

(** A decimal literal: the double nearest to [n / d]. *)
Definition dec (n d : Z) : pyfloat := int_quot n d.

Definition f1 : pyfloat := Eval vm_compute in of_Z 1.

(** [max(a, b)] keeps [a] unless [b] is greater; [min(a, b)] keeps [a] unless
    [b] is smaller.  A NaN never compares, so the order of the arguments is
    what decides. *)
Definition pymax2 (a b : pyfloat) : pyfloat := if (a <? b)%F then b else a.
Definition pymin2 (a b : pyfloat) : pyfloat := if (b <? a)%F then b else a.

(** [max(0.0, min(1.0, x))], the clamp the decision layer uses. *)
Definition clamp01 (x : pyfloat) : pyfloat := pymax2 f0 (pymin2 f1 x).

(** [sum(xs)] of floats (the start value 0 is an exact int, added first). *)
Definition fsum (l : list pyfloat) : pyfloat := fold_left fadd l f0.

(** [int(x)] truncates toward zero; the source applies it to finite values. *)
Definition trunc (x : pyfloat) : Z :=
  match x with
  | S754_finite s m e =>
      let a := match e with
               | Z0 => Zpos m
               | Zpos p => Z.shiftl (Zpos m) (Zpos p)
               | Zneg p => Z.shiftr (Zpos m) (Zpos p)
               end in
      if s then (- a)%Z else a
  | _ => 0%Z
  end.

Definition is_nan (x : pyfloat) : bool := match x with S754_nan => true | _ => false end.
Definition is_finite (x : pyfloat) : bool :=
  match x with S754_zero _ | S754_finite _ _ _ => true | _ => false end.

#[export] Instance spec_float_eq_dec : EqDecision spec_float.
Proof. solve_decision. Defined.

(** ** The order

    [SFcompare] is the lexicographic comparison of a sort key, which makes the
    order laws linear arithmetic. *)

Definition fkey (x : pyfloat) : Z * Z * Z :=
  match x with
  | S754_nan => (3, 0, 0)
  | S754_zero _ => (0, 0, 0)
  | S754_infinity s => (if s then -2 else 2, 0, 0)
  | S754_finite false m e => (1, e, Zpos m)
  | S754_finite true m e => (-1, - e, - Zpos m)
  end%Z.

Definition klt (a b : Z * Z * Z) : Prop :=
  let '(a1, a2, a3) := a in let '(b1, b2, b3) := b in
  (a1 < b1 \/ (a1 = b1 /\ (a2 < b2 \/ (a2 = b2 /\ a3 < b3))))%Z.

Lemma SFcompare_spec x y :
  is_nan x = false -> is_nan y = false ->
  match SFcompare x y with
  | Some Lt => klt (fkey x) (fkey y)
  | Some Eq => fkey x = fkey y
  | Some Gt => klt (fkey y) (fkey x)
  | None => False
  end.
Proof.
  destruct x as [[]|[]| |[] m e], y as [[]|[]| |[] n f]; simpl;
    intros; try discriminate; try lia; try done.
  all: change (Pos.compare_cont Eq m n) with (m ?= n)%positive.
  all: destruct (Z.compare_spec e f), (Pos.compare_spec m n); subst; simpl; try lia; try done.
Qed.

Lemma SFcompare_nan x y :
  SFcompare x y = None <-> is_nan x = true \/ is_nan y = true.
Proof.
  destruct x as [[]|[]| |[] m e], y as [[]|[]| |[] n f]; simpl; intuition congruence.
Qed.

Lemma flt_spec x y :
  (x <? y)%F = true <-> is_nan x = false /\ is_nan y = false /\ klt (fkey x) (fkey y).
Proof.
  unfold flt, SFltb.
  destruct (is_nan x) eqn:Hx; [rewrite (proj2 (SFcompare_nan x y)); intuition congruence|].
  destruct (is_nan y) eqn:Hy; [rewrite (proj2 (SFcompare_nan x y)); intuition congruence|].
  pose proof (SFcompare_spec x y Hx Hy) as H.
  destruct (SFcompare x y) as [[]|]; [..|done]; (split; [try done; intros _|]).
  all: try (intros (_ & _ & Hk)); destruct (fkey x) as [[??]?], (fkey y) as [[??]?];
    simpl in *; simplify_eq; try lia; done.
Qed.

Lemma fle_spec x y :
  (x <=? y)%F = true <->
  is_nan x = false /\ is_nan y = false /\ (klt (fkey x) (fkey y) \/ fkey x = fkey y).
Proof.
  unfold fle, SFleb.
  destruct (is_nan x) eqn:Hx; [rewrite (proj2 (SFcompare_nan x y)); intuition congruence|].
  destruct (is_nan y) eqn:Hy; [rewrite (proj2 (SFcompare_nan x y)); intuition congruence|].
  pose proof (SFcompare_spec x y Hx Hy) as H.
  destruct (SFcompare x y) as [[]|]; [naive_solver..| |done].
  split; [done|]. intros (_ & _ & Hk).
  destruct (fkey x) as [[??]?], (fkey y) as [[??]?]; simpl in *.
  destruct Hk as [Hk|Hk]; simplify_eq; lia.
Qed.

Lemma feq_spec x y :
  (x =? y)%F = true <-> is_nan x = false /\ is_nan y = false /\ fkey x = fkey y.
Proof.
  unfold feq, SFeqb.
  destruct (is_nan x) eqn:Hx; [rewrite (proj2 (SFcompare_nan x y)); intuition congruence|].
  destruct (is_nan y) eqn:Hy; [rewrite (proj2 (SFcompare_nan x y)); intuition congruence|].
  pose proof (SFcompare_spec x y Hx Hy) as H.
  destruct (SFcompare x y) as [[]|]; [naive_solver|..|done]; (split; [done|]);
    intros (_ & _ & Hk); rewrite Hk in H; destruct (fkey y) as [[??]?]; simpl in H; lia.
Qed.

Lemma flt_irrefl x : (x <? x)%F = false.
Proof.
  destruct (x <? x)%F eqn:H; [|done]. apply flt_spec in H as (_ & _ & H).
  destruct (fkey x) as [[??]?]; simpl in H; lia.
Qed.

Lemma fle_refl x : is_nan x = false -> (x <=? x)%F = true.
Proof. intros. apply fle_spec; auto. Qed.

Lemma feq_fle x y : (x =? y)%F = true <-> (x <=? y)%F = true /\ (y <=? x)%F = true.
Proof.
  rewrite feq_spec, !fle_spec. split; [intros (? & ? & Hk); rewrite Hk; tauto|].
  intros [(Hx & Hy & Hxy) (_ & _ & Hyx)]. split_and!; [done..|].
  destruct Hxy as [Hxy|]; [|done]. destruct Hyx as [Hyx|]; [|done]. exfalso.
  destruct (fkey x) as [[??]?], (fkey y) as [[??]?]. simpl in *. lia.
Qed.

Lemma flt_fle x y : (x <? y)%F = true -> (x <=? y)%F = true.
Proof. rewrite flt_spec, fle_spec. tauto. Qed.

Lemma klt_trans a b c : klt a b -> klt b c -> klt a c.
Proof. destruct a as [[??]?], b as [[??]?], c as [[??]?]; simpl; lia. Qed.

Lemma klt_irrefl a : ~ klt a a.
Proof. destruct a as [[??]?]; simpl; lia. Qed.

Lemma klt_total a b : klt a b \/ a = b \/ klt b a.
Proof.
  destruct a as [[a b0] c], b as [[a' b'] c']; simpl.
  destruct (Z.lt_trichotomy a a') as [?|[->|?]]; [lia| |lia].
  destruct (Z.lt_trichotomy b0 b') as [?|[->|?]]; [lia| |lia].
  destruct (Z.lt_trichotomy c c') as [?|[->|?]]; [lia|auto|lia].
Qed.

Lemma fle_trans x y z : (x <=? y)%F = true -> (y <=? z)%F = true -> (x <=? z)%F = true.
Proof.
  rewrite !fle_spec. intros (?&?&[H1|H1]) (?&?&[H2|H2]); split_and!; try done.
  - left. by eapply klt_trans.
  - left. by rewrite <- H2.
  - left. by rewrite H1.
  - right. congruence.
Qed.

Lemma flt_le_trans x y z : (x <? y)%F = true -> (y <=? z)%F = true -> (x <? z)%F = true.
Proof.
  rewrite !flt_spec, fle_spec. intros (?&?&H1) (?&?&[H2|H2]); split_and!; try done.
  - by eapply klt_trans.
  - by rewrite <- H2.
Qed.

Lemma fle_lt_trans x y z : (x <=? y)%F = true -> (y <? z)%F = true -> (x <? z)%F = true.
Proof.
  rewrite !flt_spec, fle_spec. intros (?&?&[H1|H1]) (?&?&H2); split_and!; try done.
  - by eapply klt_trans.
  - by rewrite H1.
Qed.

Lemma flt_trans x y z : (x <? y)%F = true -> (y <? z)%F = true -> (x <? z)%F = true.
Proof. intros H1 H2. eapply flt_le_trans; [exact H1|by apply flt_fle]. Qed.

Lemma flt_not_fle x y : (x <? y)%F = true -> (y <=? x)%F = false.
Proof.
  intros H. destruct (y <=? x)%F eqn:E; [|done].
  pose proof (fle_lt_trans _ _ _ E H) as Hi. by rewrite flt_irrefl in Hi.
Qed.

Lemma fle_not_flt x y : (x <=? y)%F = true -> (y <? x)%F = false.
Proof.
  intros H. destruct (y <? x)%F eqn:E; [|done].
  pose proof (fle_lt_trans _ _ _ H E) as Hi. by rewrite flt_irrefl in Hi.
Qed.

Lemma not_flt_fle x y :
  is_nan x = false -> is_nan y = false -> (x <? y)%F = false -> (y <=? x)%F = true.
Proof.
  intros Hx Hy H. apply fle_spec. split_and!; try done.
  destruct (klt_total (fkey x) (fkey y)) as [Hk|[Hk|Hk]]; auto.
  rewrite (proj2 (flt_spec x y)) in H by done. done.
Qed.

Lemma flt_asym x y : (x <? y)%F = true -> (y <? x)%F = false.
Proof. intros H. by apply fle_not_flt, flt_fle. Qed.

Lemma fle_not_nan x y : (x <=? y)%F = true -> is_nan x = false /\ is_nan y = false.
Proof. rewrite fle_spec. tauto. Qed.

Lemma flt_not_nan x y : (x <? y)%F = true -> is_nan x = false /\ is_nan y = false.
Proof. rewrite flt_spec. tauto. Qed.

(** ** The unit interval *)

Definition in01 (x : pyfloat) : bool := (f0 <=? x)%F && (x <=? f1)%F.

Lemma pymin2_le_l a b : is_nan a = false -> (pymin2 a b <=? a)%F = true.
Proof.
  intros Ha. unfold pymin2. destruct (b <? a)%F eqn:E; [by apply flt_fle|by apply fle_refl].
Qed.

Lemma pymax2_ge_l a b : is_nan a = false -> (a <=? pymax2 a b)%F = true.
Proof.
  intros Ha. unfold pymax2. destruct (a <? b)%F eqn:E; [by apply flt_fle|by apply fle_refl].
Qed.

Lemma pymax2_le a b c :
  (a <=? c)%F = true -> (b <=? c)%F = true -> (pymax2 a b <=? c)%F = true.
Proof. unfold pymax2. by destruct (a <? b)%F. Qed.

Lemma clamp_between lo hi x :
  (lo <=? hi)%F = true ->
  (lo <=? pymax2 lo (pymin2 hi x))%F = true /\ (pymax2 lo (pymin2 hi x) <=? hi)%F = true.
Proof.
  intros H. destruct (fle_not_nan _ _ H) as [Hl Hh]. split; [by apply pymax2_ge_l|].
  apply pymax2_le; [done|]. by apply pymin2_le_l.
Qed.

(** Whatever goes in, NaN and infinities included, the clamp's result is a
    number between 0 and 1. *)
Lemma clamp01_in01 x : in01 (clamp01 x) = true.
Proof.
  unfold in01, clamp01. destruct (clamp_between f0 f1 x) as [-> ->]; done.
Qed.

Lemma in01_finite x : in01 x = true -> is_finite x = true.
Proof. destruct x as [[]|[]| |[] m e]; done. Qed.

Lemma in01_not_nan x : in01 x = true -> is_nan x = false.
Proof. by destruct x as [[]|[]| |[] m e]. Qed.

Lemma in01_clamp01 x : in01 x = true -> fkey (clamp01 x) = fkey x.
Proof.
  intros Hx. pose proof (in01_not_nan x Hx) as Hn. unfold in01 in Hx.
  apply andb_true_iff in Hx as [H0 H1]. unfold clamp01, pymax2, pymin2.
  destruct (x <? f1)%F eqn:E1.
  - destruct (f0 <? x)%F eqn:E0; [done|].
    pose proof (not_flt_fle f0 x eq_refl Hn E0) as Hle.
    apply fle_spec in Hle as (_ & _ & [Hk|Hk]); [|done].
    apply fle_spec in H0 as (_ & _ & [Hk'|Hk']); [|done].
    destruct (klt_irrefl _ (klt_trans _ _ _ Hk Hk')).
  - pose proof (not_flt_fle x f1 Hn eq_refl E1) as Hle.
    apply fle_spec in Hle as (_ & _ & [Hk|Hk]); [|done].
    apply fle_spec in H1 as (_ & _ & [Hk'|Hk']); [|done].
    destruct (klt_irrefl _ (klt_trans _ _ _ Hk Hk')).
Qed.

Create HintDb pyfloat.
#[export] Hint Resolve clamp01_in01 fle_refl flt_fle : pyfloat.

(** A positive divisor never raises. *)
Lemma py_fdiv_pos x y : (f0 <? y)%F = true -> py_fdiv x y = Ok (fquot x y).
Proof.
  intros H. unfold py_fdiv, is_zero, feq, SFeqb.
  destruct y as [[]|[]| |[] m e]; done.
Qed.

Lemma int_truediv_pos a b : (0 < b)%Z -> int_truediv a b = Ok (int_quot a b).
Proof. intros. unfold int_truediv. by rewrite decide_False by lia. Qed.

(** ** Time

    A timezone-aware [datetime] is modelled by its UTC instant in microseconds,
    a [timedelta] by microseconds; [total_seconds] is the quotient by 10^6. *)
Definition total_seconds (us : Z) : pyfloat := int_quot us 1000000.
