(* ===== verification/FloatQuot.v ===== *)
(** * Quotients of counts

    Ratios of counts ([tp / (tp + fp)], [len(a & b) / len(a | b)], rates) are
    Python's correctly rounded integer quotients.  This file shows that such a
    quotient of [0 <= a <= b] with [0 < b] is a number of [0,1]: the rounding of
    a value at most one never exceeds one. *)

From S2P Require Import Prelude PyFloat.
From Stdlib Require Import ZArith Lia Floats.SpecFloat.

#[local] Open Scope Z_scope.

Lemma iter_pos_nat {A} (f : A -> A) p x : SpecFloat.iter_pos f p x = Nat.iter (Pos.to_nat p) f x.
Proof.
  revert x. induction p as [p IH|p IH|]; intros x; cbn [SpecFloat.iter_pos]; [| |done].
  - rewrite !IH, Pos2Nat.inj_xI. rewrite <- Nat.iter_add.
    replace (S (2 * Pos.to_nat p)) with (Pos.to_nat p + Pos.to_nat p + 1)%nat by lia.
    by rewrite (Nat.iter_add _ 1).
  - rewrite !IH, Pos2Nat.inj_xO. rewrite <- Nat.iter_add. f_equal. lia.
Qed.

Lemma digits2_pos_bounds p :
  2 ^ (Zpos (digits2_pos p) - 1) <= Zpos p < 2 ^ Zpos (digits2_pos p).
Proof.
  induction p as [p IH|p IH|]; simpl; [| |lia].
  all: rewrite Pos2Z.inj_succ, Z.pow_succ_r by lia.
  all: replace (Z.succ (Zpos (digits2_pos p)) - 1) with (Z.succ (Zpos (digits2_pos p) - 1)) by lia.
  all: rewrite Z.pow_succ_r by lia; lia.
Qed.

(** The number of binary digits is the only exponent that brackets a number. *)
Lemma Zdigits2_unique m d : 0 <= d -> 2 ^ d <= m < 2 ^ (d + 1) -> Zdigits2 m = d + 1.
Proof.
  intros Hd Hm. destruct m as [|p|p]; simpl; [lia| |lia].
  pose proof (digits2_pos_bounds p) as [Hl Hu].
  assert (Zpos (digits2_pos p) - 1 < d + 1) by (apply (Z.pow_lt_mono_r_iff 2); lia).
  assert (d < Zpos (digits2_pos p)) by (apply (Z.pow_lt_mono_r_iff 2); lia). lia.
Qed.

Lemma Zdigits2_le m d : 0 <= m < 2 ^ d -> 0 <= d -> 0 <= Zdigits2 m <= d.
Proof.
  intros Hm Hd. destruct m as [|p|p]; simpl; [lia| |lia].
  pose proof (digits2_pos_bounds p) as [Hl _].
  assert (Zpos (digits2_pos p) - 1 < d) by (apply (Z.pow_lt_mono_r_iff 2); lia). lia.
Qed.

Lemma Zdigits2_lt m : 0 <= m -> m < 2 ^ Zdigits2 m.
Proof. intros Hm. destruct m as [|p|p]; simpl; [lia| |lia]. apply digits2_pos_bounds. Qed.

Lemma shr_1_m mrs : 0 <= shr_m mrs -> shr_m (shr_1 mrs) = shr_m mrs / 2.
Proof.
  destruct mrs as [[|[p|p|]|p] r s]; simpl; intros H; try done; try lia.
  - rewrite (Pos2Z.inj_xI p). replace (2 * Zpos p + 1) with (1 + Zpos p * 2) by lia.
    rewrite Z.div_add by lia. done.
  - rewrite (Pos2Z.inj_xO p), Z.mul_comm, Z.div_mul by lia. done.
Qed.

Lemma shr_iter_m n mrs :
  0 <= shr_m mrs ->
  shr_m (Nat.iter n shr_1 mrs) = shr_m mrs / 2 ^ Z.of_nat n.
Proof.
  intros H. induction n as [|n IH]; [by rewrite Z.div_1_r|].
  rewrite Nat.iter_succ, shr_1_m, IH by (rewrite IH; apply Z.div_pos; lia).
  rewrite Z.div_div by lia. f_equal.
  rewrite Nat2Z.inj_succ, Z.pow_succ_r by lia. lia.
Qed.

(** A power of two loses no bit until it is used up. *)
Lemma shr_iter_pow2 n k :
  Z.of_nat n <= k ->
  Nat.iter n shr_1 (Build_shr_record (2 ^ k) false false)
  = Build_shr_record (2 ^ (k - Z.of_nat n)) false false.
Proof.
  induction n as [|n IH]; intros Hn; [by rewrite Z.sub_0_r|].
  rewrite Nat.iter_succ, IH by lia.
  replace (k - Z.of_nat n) with (Z.succ (k - Z.of_nat (S n))) by lia.
  rewrite Z.pow_succ_r by lia.
  destruct (2 ^ (k - Z.of_nat (S n))) as [|p|p] eqn:E; [lia|done|lia].
Qed.

Lemma shr_record_of_loc_m m l : shr_m (shr_record_of_loc m l) = m.
Proof. by destruct l as [|[]]. Qed.

Lemma round_nearest_even_le m l : 0 <= m -> m <= round_nearest_even m l <= m + 1.
Proof. intros. destruct l as [|[]]; simpl; try case_match; lia. Qed.

(** What [shr_fexp] keeps of a mantissa of [d] digits whose exponent is not
    below the smallest subnormal's. *)
Lemma shr_fexp_spec m e l :
  0 <= m -> -1074 <= e ->
  let n := Z.max 0 (Zdigits2 m - 53) in
  exists r, shr_fexp 53 1024 m e l = (r, e + n) /\ shr_m r = m / 2 ^ n.
Proof.
  intros Hm He. cbv zeta. unfold shr_fexp, shr, fexp, emin.
  set (d := Zdigits2 m).
  replace (Z.max (d + e - 53) (3 - 1024 - 53) - e) with (Z.max (d - 53) (-1074 - e)) by lia.
  destruct (Z.max (d - 53) (-1074 - e)) as [|p|p] eqn:E.
  - replace (Z.max 0 (d - 53)) with 0 by lia. rewrite Z.add_0_r, Z.div_1_r.
    eexists; split; [done|apply shr_record_of_loc_m].
  - replace (Z.max 0 (d - 53)) with (Zpos p) by lia.
    eexists; split; [done|].
    rewrite iter_pos_nat, shr_iter_m, shr_record_of_loc_m by (by rewrite shr_record_of_loc_m).
    by rewrite positive_nat_Z.
  - replace (Z.max 0 (d - 53)) with 0 by lia. rewrite Z.add_0_r, Z.div_1_r.
    eexists; split; [done|apply shr_record_of_loc_m].
Qed.

Lemma below_2_53 m d : 0 <= m < 2 ^ d -> 0 <= d -> m / 2 ^ Z.max 0 (d - 53) < 2 ^ 53.
Proof.
  intros Hm Hd. apply Z.div_lt_upper_bound; [lia|].
  rewrite <- Z.pow_add_r by lia.
  apply Z.lt_le_trans with (2 ^ d); [lia|]. apply Z.pow_le_mono_r; lia.
Qed.

(** Rounding a value strictly below one gives at most one. *)
Lemma round_below_one q s l :
  53 <= s <= 1074 -> 0 <= q < 2 ^ s ->
  in01 (binary_round_aux 53 1024 false q (- s) l) = true.
Proof.
  intros Hs Hq. unfold binary_round_aux.
  destruct (shr_fexp_spec q (- s) l) as (r & -> & Hr); [lia..|].
  set (n := Z.max 0 (Zdigits2 q - 53)) in *.
  pose proof (Zdigits2_le q s Hq ltac:(lia)) as Hd.
  assert (shr_m r < 2 ^ 53) as Hr53.
  { rewrite Hr. apply below_2_53; [|lia]. split; [lia|]. apply Zdigits2_lt; lia. }
  assert (0 <= shr_m r) as Hr0 by (rewrite Hr; apply Z.div_pos; lia).
  set (m2 := round_nearest_even (shr_m r) (loc_of_shr_record r)).
  pose proof (round_nearest_even_le (shr_m r) (loc_of_shr_record r) Hr0) as Hm2. fold m2 in Hm2.
  destruct (shr_fexp_spec m2 (- s + n) loc_Exact) as (r' & -> & Hr'); [lia..|].
  assert (exists e3, - s + n + Z.max 0 (Zdigits2 m2 - 53) = e3 /\
          0 <= shr_m r' /\ (e3 < -52 \/ e3 = -52 /\ shr_m r' = 2 ^ 52)) as (e3 & -> & Hnn & He3).
  { eexists; split; [done|]. rewrite Hr'. destruct (Z.eq_dec m2 (2 ^ 53)) as [E|E].
    - rewrite E. change (Zdigits2 (2 ^ 53)) with 54. change (Z.max 0 (54 - 53)) with 1.
      change (2 ^ 53 / 2 ^ 1) with (2 ^ 52). lia.
    - pose proof (Zdigits2_le m2 53 ltac:(lia) ltac:(lia)).
      replace (Z.max 0 (Zdigits2 m2 - 53)) with 0 by lia.
      rewrite Z.div_1_r. lia. }
  destruct (shr_m r') as [|p|p]; [done| |lia].
  replace (e3 <=? 1024 - 53) with true by (symmetry; apply Z.leb_le; lia).
  unfold in01. apply andb_true_iff; split; [done|]. apply fle_spec. split_and!; [done..|].
  destruct He3 as [?|[-> Hp]]; [left|right]; simpl; [lia|].
  injection Hp as ->. done.
Qed.

Lemma round_one s :
  53 <= s <= 1074 ->
  binary_round_aux 53 1024 false (2 ^ s) (- s) loc_Exact = f1.
Proof.
  intros Hs. unfold binary_round_aux, shr_fexp at 1, shr, fexp, emin.
  rewrite (Zdigits2_unique (2 ^ s) s) by (rewrite ?Z.pow_add_r; lia).
  replace (Z.max (s + 1 + - s - 53) (3 - 1024 - 53) - - s) with (s - 52) by lia.
  destruct (s - 52) as [|p|p] eqn:E; [lia| |lia].
  rewrite iter_pos_nat. simpl shr_record_of_loc. rewrite shr_iter_pow2 by lia.
  rewrite positive_nat_Z, <- E. replace (s - (s - 52)) with 52 by lia.
  replace (- s + (s - 52)) with (-52) by lia. by vm_compute.
Qed.

Lemma int_quot_same n : int_quot (Zpos n) (Zpos n) = f1.
Proof.
  unfold int_quot, SFdiv, SFdiv_core_binary. set (e' := Z.min _ _).
  assert (exists s, e' = - s /\ 53 <= s <= 1074) as (s & He' & Hs).
  { exists (- e'). unfold e', fexp, emin. simpl Zdigits2. lia. }
  rewrite He'. replace (0 - 0 - - s) with s by lia.
  destruct s as [|s|s]; [lia| |lia]. rewrite Z.shiftl_mul_pow2 by lia.
  pose proof (Z_div_mod (Zpos n * 2 ^ Zpos s) (Zpos n) ltac:(lia)) as Hdm.
  destruct (Z.div_eucl _ _) as [q r]. destruct Hdm as [Hq Hr].
  assert (q = 2 ^ Zpos s) as -> by nia. assert (r = 0) as -> by lia.
  replace (new_location (Zpos n) 0) with loc_Exact
    by (unfold new_location; by destruct (Z.even _)).
  by rewrite round_one by lia.
Qed.

Lemma int_quot_in01 a b : 0 <= a <= b -> 0 < b -> in01 (int_quot a b) = true.
Proof.
  intros Hab Hb. destruct a as [|m|m]; [by destruct b|..|lia].
  destruct b as [|n|n]; [lia| |lia].
  destruct (Pos.eq_dec m n) as [->|Hne]; [by rewrite int_quot_same|].
  pose proof (digits2_pos_bounds m) as Hm. pose proof (digits2_pos_bounds n) as Hn.
  assert (Zpos (digits2_pos m) - 1 < Zpos (digits2_pos n))
    by (apply (Z.pow_lt_mono_r_iff 2); lia).
  unfold int_quot, SFdiv, SFdiv_core_binary. set (e' := Z.min _ _).
  assert (exists s, e' = - s /\ 53 <= s <= 1074) as (s & He' & Hs).
  { exists (- e'). unfold e', fexp, emin. simpl Zdigits2. lia. }
  rewrite He'. replace (0 - 0 - - s) with s by lia.
  destruct s as [|s|s]; [lia| |lia]. rewrite Z.shiftl_mul_pow2 by lia.
  pose proof (Z_div_mod (Zpos m * 2 ^ Zpos s) (Zpos n) ltac:(lia)) as Hdm.
  destruct (Z.div_eucl _ _) as [q r]. destruct Hdm as [Hq Hr].
  set (P := 2 ^ Zpos s) in *. assert (0 < P) by (subst P; lia).
  apply round_below_one; [lia|]. fold P. split; nia.
Qed.
