(* ===== verification/PyStr.v ===== *)
(** * Python strings

    Two models of [str].  Names, labels, locators and tokens are [string]s of
    ASCII characters, with the character classes Python gives ASCII.  Free text
    whose screening depends on non-ASCII punctuation is a list of code points,
    [ustr]. *)

From S2P Require Import Prelude.
From Stdlib Require Import ZArith Lia Ascii String.
From stdpp Require Export pretty.

#[local] Open Scope char_scope.

Definition code (c : ascii) : N := N_of_ascii c.
Definition in_range (lo hi : N) (c : ascii) : bool := (N.leb lo (code c) && N.leb (code c) hi)%N.

Definition is_upper (c : ascii) : bool := in_range 65 90 c.
Definition is_lower (c : ascii) : bool := in_range 97 122 c.
Definition isalpha (c : ascii) : bool := is_upper c || is_lower c.
Definition is_digit (c : ascii) : bool := in_range 48 57 c.
(** The ASCII characters [str.isspace] accepts. *)
Definition is_space (c : ascii) : bool := in_range 9 13 c || in_range 28 32 c.

Definition lower_char (c : ascii) : ascii :=
  if is_upper c then ascii_of_N (code c + 32) else c.
Definition upper_char (c : ascii) : ascii :=
  if is_lower c then ascii_of_N (code c - 32) else c.

Fixpoint smap (f : ascii -> ascii) (s : string) : string :=
  match s with EmptyString => EmptyString | String c s' => String (f c) (smap f s') end.
Definition str_lower : string -> string := smap lower_char.
Definition str_upper : string -> string := smap upper_char.

Fixpoint sfilter (p : ascii -> bool) (s : string) : string :=
  match s with
  | EmptyString => EmptyString
  | String c s' => if p c then String c (sfilter p s') else sfilter p s'
  end.

(** [s[:n]]. *)
Fixpoint stake (n : nat) (s : string) : string :=
  match n, s with
  | S n', String c s' => String c (stake n' s')
  | _, _ => EmptyString
  end.

(** [s[n:]]. *)
Fixpoint sdrop (n : nat) (s : string) : string :=
  match n, s with
  | S n', String _ s' => sdrop n' s'
  | _, _ => s
  end.

Fixpoint sany (p : ascii -> bool) (s : string) : bool :=
  match s with EmptyString => false | String c s' => p c || sany p s' end.

Fixpoint lstrip (p : ascii -> bool) (s : string) : string :=
  match s with
  | EmptyString => EmptyString
  | String c s' => if p c then lstrip p s' else s
  end.

Fixpoint rstrip (p : ascii -> bool) (s : string) : string :=
  match s with
  | EmptyString => EmptyString
  | String c s' =>
      match rstrip p s' with
      | EmptyString => if p c then EmptyString else String c EmptyString
      | r => String c r
      end
  end.

(** [s.strip()]. *)
Definition str_strip (s : string) : string := rstrip is_space (lstrip is_space s).

(** [s.split()]: the maximal runs of non-space characters. *)
Fixpoint split_ws_aux (cur : string) (s : string) : list string :=
  match s with
  | EmptyString => if decide (cur = EmptyString) then [] else [cur]
  | String c s' =>
      if is_space c then
        (if decide (cur = EmptyString) then [] else [cur]) ++ split_ws_aux EmptyString s'
      else split_ws_aux (cur +:+ String c EmptyString) s'
  end.
Definition split_ws (s : string) : list string := split_ws_aux EmptyString s.

(** [s.split(sep)] for a one-character separator. *)
Fixpoint split_char_aux (sep : ascii) (cur : string) (s : string) : list string :=
  match s with
  | EmptyString => [cur]
  | String c s' =>
      if decide (c = sep) then cur :: split_char_aux sep EmptyString s'
      else split_char_aux sep (cur +:+ String c EmptyString) s'
  end.
Definition split_char (sep : ascii) (s : string) : list string :=
  split_char_aux sep EmptyString s.

(** [sep.join(xs)]. *)
Fixpoint str_join (sep : string) (xs : list string) : string :=
  match xs with
  | [] => EmptyString
  | [x] => x
  | x :: xs' => x +:+ sep +:+ str_join sep xs'
  end.

(** [s.startswith(p)]. *)
Definition startswith (s p : string) : bool := String.prefix p s.

(** [str(z)]. *)
Definition str_of_Z (z : Z) : string := pretty z.

#[local] Open Scope string_scope.

Lemma str_lower_idem s : str_lower (str_lower s) = str_lower s.
Proof.
  induction s as [|c s IH]; [done|]. unfold str_lower in *. simpl. f_equal; [|done].
  by destruct c as [[] [] [] [] [] [] [] []].
Qed.

Lemma sapp_assoc (a b c : string) : (a +:+ b) +:+ c = a +:+ (b +:+ c).
Proof. induction a as [|x a IH]; [done|]. exact (f_equal (String x) IH). Qed.

Lemma sapp_nil_r (s : string) : s +:+ EmptyString = s.
Proof. induction s as [|c s IH]; [done|]. change (String c (s +:+ EmptyString) = String c s). by rewrite IH. Qed.

Lemma sany_app p a b : sany p (a +:+ b) = sany p a || sany p b.
Proof. induction a as [|c a IH]; [done|]. change (p c || sany p (a +:+ b) = (p c || sany p a) || sany p b). by rewrite IH, orb_assoc. Qed.

(** A word: non-empty, without white space.  Joining words with a space and
    splitting the result gives them back. *)
Definition word (s : string) : Prop := s <> EmptyString /\ sany is_space s = false.

Lemma split_ws_aux_word cur s rest : sany is_space s = false ->
  split_ws_aux cur (s +:+ rest) = split_ws_aux (cur +:+ s) rest.
Proof.
  revert cur. induction s as [|c s IH]; intros cur Hs; simpl in *; [by rewrite sapp_nil_r|].
  apply orb_false_iff in Hs as [Hc Hs]. rewrite Hc, IH by done. by rewrite sapp_assoc.
Qed.

Lemma split_join_words l : Forall word l -> split_ws (str_join " " l) = l.
Proof.
  unfold split_ws. induction 1 as [|x [|y l] [Hne Hx] Hl IH]; [done|..].
  - change (str_join " " [x]) with x. rewrite <- (sapp_nil_r x) at 1. rewrite split_ws_aux_word by done.
    simpl. by rewrite decide_False.
  - change (str_join " " (x :: y :: l)) with (x +:+ (" " +:+ str_join " " (y :: l))).
    rewrite split_ws_aux_word by done.
    change (split_ws_aux (EmptyString +:+ x) (" " +:+ str_join " " (y :: l)))
      with ((if decide (x = EmptyString) then [] else [x]) ++ split_ws_aux EmptyString (str_join " " (y :: l)))%list.
    by rewrite decide_False, IH.
Qed.

(** [str] of an integer writes digits and at most a sign. *)
Lemma sany_pretty_N p x s :
  (forall n, (n < 10)%N -> p (pretty_N_char n) = false) -> sany p (pretty_N_go x s) = sany p s.
Proof.
  intros Hp. revert s. induction (N.lt_wf_0 x) as [x _ IH]. intros s.
  destruct (decide (x = 0%N)) as [->|Hx]; [by rewrite pretty_N_go_0|].
  rewrite pretty_N_go_step by lia. rewrite IH by (apply N.div_lt; lia). simpl.
  by rewrite Hp by (by apply N.mod_lt).
Qed.

Lemma sany_str_of_Z p z :
  (forall n, (n < 10)%N -> p (pretty_N_char n) = false) -> p "-"%char = false -> sany p (str_of_Z z) = false.
Proof.
  intros Hp Hm. destruct z as [|x|x].
  - change (sany p (String (pretty_N_char 0) EmptyString) = false). cbn [sany].
    rewrite orb_false_r. exact (Hp 0%N eq_refl).
  - change (sany p (pretty_N_go (N.pos x) EmptyString) = false). by rewrite sany_pretty_N.
  - change (p "-"%char || sany p (pretty_N_go (N.pos x) EmptyString) = false). by rewrite Hm, sany_pretty_N.
Qed.

Example split_ws_ex : split_ws " ab  c
  d " = ["ab"; "c"; "d"].
Proof. reflexivity. Qed.
Example strip_ex : str_strip "  a b " = "a b".
Proof. reflexivity. Qed.
Example pretty_ex : str_of_Z (-12) = "-12".
Proof. reflexivity. Qed.

(** ** Code-point text *)

#[local] Open Scope list_scope.

Notation ustr := (list N).
Definition u (s : string) : ustr := code <$> String.list_ascii_of_string s.

(** The code points [str.rstrip()] removes that occur in the modelled text:
    ASCII white space, no-break space, and the ideographic space. *)
Definition uspace (c : N) : bool :=
  ((9 <=? c) && (c <=? 13) || (28 <=? c) && (c <=? 32) || (c =? 133) || (c =? 160)
   || (c =? 5760) || (8192 <=? c) && (c <=? 8202) || (c =? 8232) || (c =? 8233)
   || (c =? 8239) || (c =? 8287) || (c =? 12288))%N.

Definition urstrip (p : N -> bool) (s : ustr) : ustr :=
  foldr (fun c r => match r with [] => if p c then [] else [c] | _ => c :: r end) [] s.
Definition rstrip_ws (s : ustr) : ustr := urstrip uspace s.

Lemma urstrip_nil p : urstrip p [] = [].
Proof. done. Qed.

Lemma urstrip_snoc_keep p s c : p c = false -> urstrip p (s ++ [c]) = s ++ [c].
Proof.
  intros Hc. induction s as [|d s IH]; simpl; [by rewrite Hc|].
  rewrite IH. by destruct s.
Qed.

Lemma urstrip_snoc_drop p s c : p c = true -> urstrip p (s ++ [c]) = urstrip p s.
Proof. intros Hc. induction s as [|d s IH]; simpl; [by rewrite Hc|]. by rewrite IH. Qed.

Lemma urstrip_last p s c : last (urstrip p s) = Some c -> p c = false.
Proof.
  revert c. induction s as [|x s IH] using rev_ind; intros c; [done|].
  destruct (p x) eqn:E; [rewrite urstrip_snoc_drop by done; apply IH|].
  rewrite urstrip_snoc_keep, last_snoc by done. by intros [= <-].
Qed.

Lemma urstrip_prefix p s : exists t, s = urstrip p s ++ t /\ Forall (fun c => p c = true) t.
Proof.
  induction s as [|x s IH] using rev_ind; [by exists []|].
  destruct (p x) eqn:E.
  - rewrite urstrip_snoc_drop by done. destruct IH as (t & Hs & Ht).
    exists (t ++ [x]). split; [by rewrite (assoc (++)), <- Hs|].
    apply Forall_app; auto.
  - rewrite urstrip_snoc_keep by done. exists []. by rewrite app_nil_r.
Qed.

(** [s.rfind(c)] as an index, [None] for Python's -1. *)
Fixpoint urfind (c : N) (s : ustr) : option nat :=
  match s with
  | [] => None
  | x :: s' => match urfind c s' with
               | Some i => Some (S i)
               | None => if (x =? c)%N then Some 0 else None
               end
  end.

Lemma u_inj s t : u s = u t -> s = t.
Proof.
  unfold u. revert t. induction s as [|c s IH]; intros [|c' t]; simpl; intros E; try done.
  injection E as Hc Hs. f_equal; [|by apply IH].
  unfold code in Hc. rewrite <- (ascii_N_embedding c), Hc. apply ascii_N_embedding.
Qed.

Lemma u_app a b : u (a +:+ b) = u a ++ u b.
Proof. induction a as [|c a IH]; [done|]. change (u (String c a +:+ b)) with (code c :: u (a +:+ b)). by rewrite IH. Qed.
