(* ===== verification/PyInt.v ===== *)
(** * Integers and their text

    Python's [int(text)] on ASCII digits, that it reads back what [str] writes,
    and list indexing with an integer. *)

From S2P Require Import Prelude PyStr.
From Stdlib Require Import ZArith Lia.

#[local] Open Scope string_scope.
#[local] Open Scope list_scope.
#[local] Open Scope Z_scope.

(** [int(text)]: surrounding white space, a sign, decimal digits with single
    underscores between them.  (Python also reads the decimal digits of other
    scripts; the texts the service reads come from schemas and headers in ASCII.) *)
Definition digit_value (c : N) : option Z :=
  if ((48 <=? c) && (c <=? 57))%N then Some (Z.of_N c - 48) else None.

Fixpoint digits_from (acc : Z) (s : ustr) : option Z :=
  match s with
  | [] => Some acc
  | c :: s' =>
      match digit_value c with
      | Some v => digits_from (10 * acc + v) s'
      | None => match s' with
                | c' :: s'' =>
                    match digit_value c' with
                    | Some v => if (c =? 95)%N then digits_from (10 * acc + v) s'' else None
                    | None => None
                    end
                | [] => None
                end
      end
  end.

Definition digits (s : ustr) : option Z :=
  match s with
  | [] => None
  | c :: s' => v ← digit_value c; digits_from v s'
  end.

Definition int_text (s : ustr) : option Z :=
  let lstrip := fix go s := match s with c :: s' => if uspace c then go s' else s | [] => [] end in
  match rstrip_ws (lstrip s) with
  | 43%N :: s' => digits s'
  | 45%N :: s' => Z.opp <$> digits s'
  | s' => digits s'
  end.

(** [int] reads back what [str] wrote. *)

Lemma digit_value_char n : (n < 10)%N -> digit_value (code (pretty_N_char n)) = Some (Z.of_N n).
Proof. intros Hn. assert (n ∈ [0;1;2;3;4;5;6;7;8;9]%N) as Hin by (rewrite !elem_of_cons; lia). by elem_cases Hin. Qed.

Definition isdig (c : N) : Prop := (48 <= c <= 57)%N.

Lemma digit_value_isdig c v : digit_value c = Some v -> isdig c.
Proof. unfold digit_value, isdig. destruct (_ && _)%N eqn:E; [|done]. intros _.
  apply andb_true_iff in E as [?%N.leb_le ?%N.leb_le]. lia. Qed.

Lemma pretty_go_digits (x : N) s : exists ds,
  u (pretty_N_go x s) = ds ++ u s /\ Forall isdig ds /\
  (forall acc t, digits_from acc (ds ++ t) = digits_from (acc * 10 ^ Z.of_nat (length ds) + Z.of_N x) t) /\
  ((0 < x)%N -> ds <> []).
Proof.
  revert s. induction (N.lt_wf_0 x) as [x _ IH]. intros s.
  destruct (decide (x = 0%N)) as [->|Hx].
  { exists []. rewrite pretty_N_go_0. split_and!; [done|constructor| |lia]. intros acc t. simpl. by rewrite Z.mul_1_r, Z.add_0_r. }
  rewrite pretty_N_go_step by lia.
  destruct (IH (x / 10)%N) with (s := String (pretty_N_char (x mod 10)) s) as (ds & Hu & Hd & Hv & _).
  { apply N.div_lt; lia. }
  pose proof (digit_value_char (x mod 10) ltac:(by apply N.mod_lt)) as Hdig.
  exists (ds ++ [code (pretty_N_char (x mod 10))]). split_and!.
  - by rewrite Hu, <- (assoc (++)).
  - apply Forall_app. split; [done|]. repeat constructor. all: by apply digit_value_isdig in Hdig as [? ?].
  - intros acc t. rewrite <- (assoc (++)). rewrite Hv. simpl. rewrite Hdig. f_equal.
    rewrite length_app. simpl. rewrite Nat2Z.inj_add, Z.pow_add_r by lia. change (10 ^ Z.of_nat 1) with 10.
    rewrite (N.div_mod x 10) at 3 by lia. rewrite N2Z.inj_add, N2Z.inj_mul. simpl Z.of_N. lia.
  - intros _ E. by apply app_nil in E as [_ ?].
Qed.

Lemma isdig_not_space c : isdig c -> uspace c = false.
Proof.
  unfold isdig. intros Hc. assert (c ∈ [48;49;50;51;52;53;54;55;56;57]%N) as Hin by (rewrite !elem_of_cons; lia).
  by elem_cases Hin.
Qed.

(** A positive number is written with digits only, and reads back. *)
Lemma str_of_pos p : exists c ds, u (str_of_Z (Z.pos p)) = c :: ds /\ Forall isdig (c :: ds) /\
  digits (c :: ds) = Some (Z.pos p).
Proof.
  destruct (pretty_go_digits (N.pos p) "") as (ds & Hu & Hd & Hv & Hne).
  assert (u (str_of_Z (Z.pos p)) = ds) as E by (rewrite <- (app_nil_r ds); exact Hu).
  specialize (Hv 0 []). rewrite app_nil_r in Hv. specialize (Hne ltac:(lia)).
  destruct ds as [|c ds]; [done|]. exists c, ds. split_and!; [done|done|].
  assert (exists v, digit_value c = Some v) as [v Hcv].
  { apply Forall_cons_1 in Hd as [Hc _]. unfold digit_value, isdig in *.
    rewrite (proj2 (andb_true_iff _ _)); [eauto|]. split; apply N.leb_le; lia. }
  cbn [digits_from] in Hv. rewrite Hcv in Hv. unfold digits. rewrite Hcv. exact Hv.
Qed.

Lemma rstrip_digits c ds : Forall isdig (c :: ds) -> rstrip_ws (c :: ds) = c :: ds.
Proof.
  intros Hall. destruct (exists_last (l := c :: ds) ltac:(done)) as (l & x & E). rewrite E in Hall |- *.
  apply urstrip_snoc_keep, isdig_not_space.
  apply Forall_app in Hall as [_ Hx]. by apply Forall_inv in Hx.
Qed.

Lemma rstrip_minus c ds : Forall isdig (c :: ds) -> rstrip_ws (45%N :: c :: ds) = 45%N :: c :: ds.
Proof. intros Hall. unfold rstrip_ws, urstrip. cbn [foldr]. fold (urstrip uspace (c :: ds)).
  pose proof (rstrip_digits c ds Hall) as E. unfold rstrip_ws, urstrip in E. cbn [foldr] in E. by rewrite E. Qed.

(** [int(str(z)) == z]. *)
Lemma int_text_str_of_Z z : int_text (u (str_of_Z z)) = Some z.
Proof.
  destruct z as [|p|p]; [reflexivity|..]; destruct (str_of_pos p) as (c & ds & E & Hall & Hdig).
  - rewrite E. pose proof (rstrip_digits c ds Hall) as Hr.
    apply Forall_cons_1 in Hall as [Hc _]. unfold int_text. rewrite (isdig_not_space c Hc), Hr.
    unfold isdig in Hc. destruct c as [|c]; [lia|].
    repeat (destruct c as [c|c|]; try (exfalso; lia); try exact Hdig).
  - assert (u (str_of_Z (Z.neg p)) = 45%N :: c :: ds) as -> by (rewrite <- E; reflexivity).
    unfold int_text. replace (uspace 45) with false by reflexivity. cbv iota beta.
    rewrite rstrip_minus by done. by rewrite Hdig.
Qed.

(** [l[i]]: a negative index counts from the end. *)
Definition py_index {A} (l : list A) (i : Z) : result A :=
  let i := if i <? 0 then i + Z.of_nat (length l) else i in
  match (if i <? 0 then None else l !! Z.to_nat i) with Some x => Ok x | None => Raise IndexError end.

Lemma py_index_nat {A} (l : list A) i x : l !! i = Some x -> py_index l (Z.of_nat i) = Ok x.
Proof.
  intros Hx. unfold py_index. cbv zeta. assert (Z.of_nat i <? 0 = false) as E by (apply Z.ltb_ge; lia).
  rewrite E. cbv iota. rewrite E, Nat2Z.id, Hx. done.
Qed.
