(* ===== verification/PyFmt.v ===== *)
(** * Decimal rounding and formatting of floats

    Python's [round(x, n)] and fixed-point format [{x:.nf}] both start from the
    exact value of the double, round it to [n] decimals with ties to even, and
    differ in what they do with the result: a double, or its digits. *)

From S2P Require Import Prelude PyFloat PyStr.
From Stdlib Require Import ZArith Lia.

#[local] Open Scope string_scope.
#[local] Open Scope Z_scope.

(** The integer nearest to [a / b], ties to even. *)
Definition div_half_even (a b : Z) : Z :=
  let q := a / b in
  let r := a mod b in
  match 2 * r ?= b with
  | Lt => q
  | Gt => q + 1
  | Eq => if Z.even q then q else q + 1
  end.

(** [m * 2^e * 10^n] to the nearest integer. *)
Definition scaled (n : Z) (m : positive) (e : Z) : Z :=
  if 0 <=? e then Zpos m * 10 ^ n * 2 ^ e else div_half_even (Zpos m * 10 ^ n) (2 ^ (- e)).

Definition py_round (n : Z) (x : pyfloat) : pyfloat :=
  match x with
  | S754_finite s m e =>
      match scaled n m e with
      | 0 => S754_zero s
      | q => int_quot (if s then - q else q) (10 ^ n)
      end
  | _ => x
  end.

(** Left padding with zeros. *)
Fixpoint zeros (n : nat) : string := match n with O => "" | S n' => "0" +:+ zeros n' end.
Definition zpad (n : nat) (s : string) : string := zeros (n - String.length s) +:+ s.

Definition digits_fixed (n : nat) (q : Z) : string :=
  str_of_Z (q / 10 ^ Z.of_nat n) +:+ "." +:+ zpad n (str_of_Z (q mod 10 ^ Z.of_nat n)).

Definition fmt_sign (s : bool) : string := if s then "-" else "".

(** [f"{x:.nf}"] for a positive number of decimals. *)
Definition fmt_fixed (n : nat) (x : pyfloat) : string :=
  match x with
  | S754_nan => "nan"
  | S754_infinity s => fmt_sign s +:+ "inf"
  | S754_zero s => fmt_sign s +:+ digits_fixed n 0
  | S754_finite s m e => fmt_sign s +:+ digits_fixed n (scaled (Z.of_nat n) m e)
  end.

Example fmt_ex : fmt_fixed 4 (dec 65 100) = "0.6500" /\ fmt_fixed 6 f1 = "1.000000".
Proof. split; reflexivity. Qed.
Example round_ex : py_round 2 (dec 2675 1000) = dec 267 100 /\ py_round 2 (dec 98765 1000) = dec 9877 100.
Proof. split; reflexivity. Qed.

Lemma div_half_even_near a b : 0 < b -> 2 * Z.abs (b * div_half_even a b - a) <= b.
Proof.
  intros Hb. pose proof (Z.div_mod a b ltac:(lia)) as Hd. pose proof (Z.mod_pos_bound a b Hb) as Hr.
  unfold div_half_even. destruct (Z.compare_spec (2 * (a mod b)) b); [destruct (Z.even _)|..]; lia.
Qed.

Lemma div_half_even_nonneg a b : 0 <= a -> 0 < b -> 0 <= div_half_even a b.
Proof.
  intros Ha Hb. pose proof (Z.div_pos a b Ha Hb). unfold div_half_even.
  destruct (_ ?= _); [destruct (Z.even _)|..]; lia.
Qed.

Lemma scaled_nonneg n m e : 0 <= scaled n m e.
Proof.
  unfold scaled. destruct (Z.leb_spec 0 e).
  { apply Z.mul_nonneg_nonneg; [apply Z.mul_nonneg_nonneg|]; try lia; apply Z.pow_nonneg; lia. }
  apply div_half_even_nonneg; [|apply Z.pow_pos_nonneg; lia].
  apply Z.mul_nonneg_nonneg; [lia|]. apply Z.pow_nonneg. lia.
Qed.
