(* ===== verification/PyJson.v ===== *)
(** * JSON values and Python equality on them

    What [json.loads] returns and [json.dumps] takes, as a tree.  The codec
    between a tree and its text is the standard library's: a blob or a message
    body is modelled as the tree it carries.  Text is a list of code points,
    object keys are their UTF-8 bytes. *)

From S2P Require Import Prelude PyFloat PyStr.
From Stdlib Require Import ZArith Lia Ascii.

#[local] Open Scope Z_scope.

Inductive json :=
  | JNull
  | JBool (b : bool)
  | JInt (z : Z)
  | JFloat (f : pyfloat)
  | JStr (s : ustr)
  | JList (l : list json)
  | JObj (d : list (string * json)).

(** Induction with the hypotheses under lists and objects. *)
Section JsonInd.
Variable P : json -> Prop.
Hypothesis Hnull : P JNull.
Hypothesis Hbool : forall b, P (JBool b).
Hypothesis Hint : forall z, P (JInt z).
Hypothesis Hfloat : forall f, P (JFloat f).
Hypothesis Hstr : forall s, P (JStr s).
Hypothesis Hlist : forall l, Forall P l -> P (JList l).
Hypothesis Hobj : forall d, Forall (fun kv => P kv.2) d -> P (JObj d).

Fixpoint json_ind' (j : json) : P j :=
  match j with
  | JNull => Hnull
  | JBool b => Hbool b
  | JInt z => Hint z
  | JFloat f => Hfloat f
  | JStr s => Hstr s
  | JList l => Hlist l ((fix go l := match l return Forall P l with
                         | [] => Forall_nil_2 P
                         | x :: l' => Forall_cons_2 P x l' (json_ind' x) (go l')
                         end) l)
  | JObj d => Hobj d ((fix go d := match d return Forall (fun kv => P kv.2) d with
                         | [] => Forall_nil_2 _
                         | kv :: d' => Forall_cons_2 _ kv d' (json_ind' kv.2) (go d')
                         end) d)
  end.
End JsonInd.

(** Equality of the trees, not Python's. *)
#[export] Instance json_eq_dec : EqDecision json.
Proof.
  refine (fix go (x y : json) : Decision (x = y) :=
    let _ : EqDecision json := @go in
    match x, y with
    | JNull, JNull => left _
    | JBool a, JBool b => cast_if (decide (a = b))
    | JInt a, JInt b => cast_if (decide (a = b))
    | JFloat a, JFloat b => cast_if (decide (a = b))
    | JStr a, JStr b => cast_if (decide (a = b))
    | JList a, JList b => cast_if (decide (a = b))
    | JObj a, JObj b => cast_if (decide (a = b))
    | _, _ => right _
    end); abstract congruence.
Defined.

(** [float == int] compares the exact values. *)
Definition float_eq_Z (f : pyfloat) (z : Z) : bool :=
  match f with
  | S754_zero _ => z =? 0
  | S754_finite s m e =>
      let m' := if s then Zneg m else Zpos m in
      if 0 <=? e then m' * 2 ^ e =? z else m' =? z * 2 ^ (- e)
  | _ => false
  end.

(** [True == 1 == 1.0] in Python: booleans are integers. *)
Definition as_int (j : json) : option Z :=
  match j with JBool b => Some (Z.b2z b) | JInt z => Some z | _ => None end.

Fixpoint py_eq (a b : json) : bool :=
  match a with
  | JNull => match b with JNull => true | _ => false end
  | JBool _ | JInt _ =>
      match as_int a with
      | Some z => match as_int b, b with
                  | Some z', _ => z =? z'
                  | None, JFloat f => float_eq_Z f z
                  | _, _ => false
                  end
      | None => false
      end
  | JFloat f => match as_int b, b with
                | Some z, _ => float_eq_Z f z
                | None, JFloat g => feq f g
                | _, _ => false
                end
  | JStr s => match b with JStr t => bool_decide (s = t) | _ => false end
  | JList l =>
      match b with
      | JList l' =>
          (fix go l l' := match l, l' with
                          | [], [] => true
                          | x :: l, y :: l' => py_eq x y && go l l'
                          | _, _ => false
                          end) l l'
      | _ => false
      end
  | JObj d =>
      match b with
      | JObj d' =>
          Nat.eqb (length d) (length d') &&
          (fix go d := match d with
                       | [] => true
                       | (k, v) :: d => match dget k d' with
                                        | Some v' => py_eq v v'
                                        | None => false
                                        end && go d
                       end) d
      | _ => false
      end
  end.

(** [bool(x)]. *)
Definition truthy (j : json) : bool :=
  match j with
  | JNull => false
  | JBool b => b
  | JInt z => negb (z =? 0)
  | JFloat f => negb (is_zero f)
  | JStr s => match s with [] => false | _ => true end
  | JList l => match l with [] => false | _ => true end
  | JObj d => match d with [] => false | _ => true end
  end.

(** [d.get(k)] and [d[k]]. *)
Definition jget (k : string) (d : list (string * json)) : json := dgetd k JNull d.
Definition jindex (k : string) (d : list (string * json)) : result json :=
  match dget k d with Some v => Ok v | None => Raise (KeyError k) end.

(** A JSON string of an ASCII literal. *)
Definition jstr (s : string) : json := JStr (u s).

Lemma py_eq_jstr s t : py_eq (jstr s) (jstr t) = bool_decide (s = t).
Proof.
  simpl. apply bool_decide_ext. split; [apply u_inj|by intros ->].
Qed.

(** Reading back text the service wrote itself, which is ASCII. *)
Definition of_u (s : ustr) : string := String.string_of_list_ascii (ascii_of_N <$> s).

Lemma of_u_u s : of_u (u s) = s.
Proof.
  unfold of_u, u. induction s as [|c s IH]; [done|]. csimpl. rewrite IH. f_equal. apply ascii_N_embedding.
Qed.

Definition as_string (j : json) : result string :=
  match j with JStr s => Ok (of_u s) | _ => Raise TypeError end.
Definition as_strings (j : json) : result (list string) :=
  match j with JList l => rmapM as_string l | _ => Raise TypeError end.

Lemma as_strings_jstr l : as_strings (JList (jstr <$> l)) = Ok l.
Proof. simpl. induction l as [|s l IH]; csimpl; [done|]. by rewrite of_u_u, IH. Qed.
