(* ===== verification/PyTime.v ===== *)
(** * UTC datetimes

    A timezone-aware datetime is its distance from the Unix epoch in
    microseconds.  The calendar fields and the two text forms the service writes
    are computed from it. *)

From S2P Require Import Prelude PyStr.
From Stdlib Require Import ZArith Lia.

#[local] Open Scope string_scope.
#[local] Open Scope Z_scope.

Definition US_PER_SECOND : Z := 1000000.
Definition US_PER_DAY : Z := 86400 * US_PER_SECOND.

Definition minutes (n : Z) : Z := n * 60 * US_PER_SECOND.
Definition hours (n : Z) : Z := n * 3600 * US_PER_SECOND.

(** Midnight of the day, and the time since midnight. *)
Definition day_number (t : Z) : Z := t / US_PER_DAY.
Definition time_of_day (t : Z) : Z := t mod US_PER_DAY.

(** Proleptic Gregorian date of a day number (days since 1970-01-01): years
    start in March, 400-year eras of 146097 days. *)
Definition civil (d : Z) : Z * Z * Z :=
  let z := d + 719468 in
  let era := z / 146097 in
  let doe := z mod 146097 in
  let yoe := (doe - doe / 1460 + doe / 36524 - doe / 146096) / 365 in
  let doy := doe - (365 * yoe + yoe / 4 - yoe / 100) in
  let mp := (5 * doy + 2) / 153 in
  let day := doy - (153 * mp + 2) / 5 + 1 in
  let month := if mp <? 10 then mp + 3 else mp - 9 in
  let year := yoe + era * 400 + (if month <=? 2 then 1 else 0) in
  (year, month, day).

(** The day number of a date, the other way round. *)
Definition day_of_civil (ymd : Z * Z * Z) : Z :=
  let '(y0, m, d) := ymd in
  let y := if m <=? 2 then y0 - 1 else y0 in
  let era := y / 400 in
  let yoe := y mod 400 in
  let doy := (153 * (if 2 <? m then m - 3 else m + 9) + 2) / 5 + d - 1 in
  let doe := yoe * 365 + yoe / 4 - yoe / 100 + doy in
  era * 146097 + doe - 719468.

(** Zero-padded decimal. *)
Definition zpad (n : nat) (z : Z) : string :=
  let s := str_of_Z z in
  String.concat "" (repeat "0" (n - String.length s)) +:+ s.

(** [strftime("%Y%m%dT%H%M%SZ")]. *)
Definition compact_utc (t : Z) : string :=
  let '(y, m, d) := civil (day_number t) in
  let s := time_of_day t / US_PER_SECOND in
  zpad 4 y +:+ zpad 2 m +:+ zpad 2 d +:+ "T" +:+
  zpad 2 (s / 3600) +:+ zpad 2 (s / 60 mod 60) +:+ zpad 2 (s mod 60) +:+ "Z".

(** [isoformat()] of a UTC datetime. *)
Definition isoformat_utc (t : Z) : string :=
  let '(y, m, d) := civil (day_number t) in
  let s := time_of_day t / US_PER_SECOND in
  let us := t mod US_PER_SECOND in
  zpad 4 y +:+ "-" +:+ zpad 2 m +:+ "-" +:+ zpad 2 d +:+ "T" +:+
  zpad 2 (s / 3600) +:+ ":" +:+ zpad 2 (s / 60 mod 60) +:+ ":" +:+ zpad 2 (s mod 60) +:+
  (if us =? 0 then "" else "." +:+ zpad 6 us) +:+ "+00:00".

Example compact_epoch : compact_utc 0 = "19700101T000000Z".
Proof. vm_compute. reflexivity. Qed.
Example iso_leap : isoformat_utc (hours (24 * 19782) + 1500000) = "2024-02-29T00:00:01.500000+00:00".
Proof. vm_compute. reflexivity. Qed.

(** The two calendar functions are inverse on every day of 2020 to 2029. *)
Lemma civil_roundtrip_upto :
  forallb (fun d => day_of_civil (civil d) =? d) (seqZ 18262 3653) = true.
Proof. vm_compute. reflexivity. Qed.
