(* ===== verification/Regex.v ===== *)
(** * Python regular expressions

    The part of the standard library's [re] that the text layer uses: a parser for
    the pattern syntax, and the backtracking matcher as the list of the successes
    it would try, in order.  Patterns are written as in the source.  Text is a
    list of code points; what the Unicode tables say of non-ASCII characters is a
    parameter. *)

From S2P Require Import Prelude PyStr.
From Stdlib Require Import Ascii NArith Lia.

#[local] Open Scope list_scope.
#[local] Open Scope N_scope.

(** ** Characters *)

(** The Unicode tables beyond ASCII: [isalnum], [isdecimal] of a character, and
    [str.lower] of a text that is not pure ASCII. *)
Class Unicode := {
  uni_alnum : N -> bool;
  uni_decimal : N -> bool;
  uni_lower : ustr -> ustr
}.

(** Tables that know no character beyond ASCII, for witnesses. *)
Definition ascii_unicode : Unicode := {| uni_alnum := fun _ => false; uni_decimal := fun _ => false; uni_lower := fun s => s |}.

Definition is_ascii (c : N) : bool := c <? 128.
Definition ulower_char (c : N) : N := if (65 <=? c) && (c <=? 90) then c + 32 else c.
Definition uupper_char (c : N) : N := if (97 <=? c) && (c <=? 122) then c - 32 else c.
Definition adigit (c : N) : bool := (48 <=? c) && (c <=? 57).
Definition aalpha (c : N) : bool := (65 <=? c) && (c <=? 90) || (97 <=? c) && (c <=? 122).

Section Chars.
Context `{!Unicode}.
Definition udigit (c : N) : bool := if is_ascii c then adigit c else uni_decimal c.
Definition uword (c : N) : bool := if is_ascii c then adigit c || aalpha c || (c =? 95) else uni_alnum c.
Definition ulower (s : ustr) : ustr := if forallb is_ascii s then ulower_char <$> s else uni_lower s.
End Chars.

(** Case folding of [re.IGNORECASE] against ASCII letters: beyond the two ASCII
    cases, the four characters the documentation names. *)
Definition fold_char (c : N) : N :=
  if (c =? 304) || (c =? 305) then 105
  else if c =? 383 then 115
  else if c =? 8490 then 107
  else ulower_char c.

(** ** Patterns *)

Inductive citem := CChr (c : N) | CRange (a b : N) | CDigit (neg : bool) | CSpace (neg : bool) | CWord (neg : bool).

Inductive assertion := Bos | Eos | Wordb.

Inductive re :=
  | Eps
  | Dot
  | Cls (neg : bool) (items : list citem)
  | Cat (a b : re)
  | Alt (a b : re)
  | Rep (greedy : bool) (mn : nat) (mx : option nat) (r : re)
  | Grp (n : nat) (r : re)
  | Ast (a : assertion)
  | Ahead (neg : bool) (r : re)
  | Behind (neg : bool) (width : nat) (r : re).

Definition chr (c : N) : re := Cls false [CChr c].
Definition RFail : re := Cls false [].

(** ** Matching *)

Record flags := mk_flags { f_icase : bool; f_multi : bool }.

(** A position in the subject, what is before it reversed, and the groups. *)
Record mst := mk_mst { m_pre : ustr; m_suf : ustr; m_caps : list (nat * ustr) }.

Section Match.
Context `{!Unicode} (fl : flags).

Definition item_matches (c : N) (i : citem) : bool :=
  match i with
  | CChr k => if f_icase fl then fold_char k =? fold_char c else k =? c
  | CRange a b =>
      if f_icase fl then let d := fold_char c in
        (a <=? d) && (d <=? b) || (a <=? uupper_char d) && (uupper_char d <=? b)
      else (a <=? c) && (c <=? b)
  | CDigit neg => xorb neg (udigit c)
  | CSpace neg => xorb neg (uspace c)
  | CWord neg => xorb neg (uword c)
  end.
Definition cls_matches (neg : bool) (items : list citem) (c : N) : bool := xorb neg (existsb (item_matches c) items).

Definition is_word_at (s : ustr) : bool := match s with c :: _ => uword c | [] => false end.
Definition is_lf (c : N) : bool := c =? 10.

Definition holds (a : assertion) (st : mst) : bool :=
  match a with
  | Bos => match m_pre st with [] => true | c :: _ => f_multi fl && is_lf c end
  | Eos => match m_suf st with
           | [] => true
           | c :: s => is_lf c && (f_multi fl || match s with [] => true | _ => false end)
           end
  | Wordb => xorb (is_word_at (m_pre st)) (is_word_at (m_suf st))
  end.

Definition eat (p : N -> bool) (st : mst) : list mst :=
  match m_suf st with
  | c :: s => if p c then [mk_mst (c :: m_pre st) s (m_caps st)] else []
  | [] => []
  end.

(** The text between a position and a later one. *)
Definition between (st st' : mst) : ustr := take (length (m_pre st') - length (m_pre st)) (m_suf st).

(** Repetition: an iteration that consumes nothing is not repeated. *)
Fixpoint rep_loop (m : mst -> list mst) (greedy : bool) (fuel mn : nat) (mx : option nat) (st : mst) : list mst :=
  match fuel with
  | O => []
  | S fuel' =>
      let more :=
        match mx with
        | Some O => []
        | _ => m st ≫= (fun st' =>
                 if (length (m_suf st') <? length (m_suf st))%nat || (0 <? mn)%nat
                 then rep_loop m greedy fuel' (pred mn) (pred <$> mx) st'
                 else [st'])
        end in
      let stop := match mn with O => [st] | S _ => [] end in
      if greedy then more ++ stop else stop ++ more
  end.

(** Step [k] characters back. *)
Fixpoint rewind (k : nat) (st : mst) : option mst :=
  match k with
  | O => Some st
  | S k' => match m_pre st with
            | c :: p => rewind k' (mk_mst p (c :: m_suf st) (m_caps st))
            | [] => None
            end
  end.

Fixpoint matches (r : re) (st : mst) : list mst :=
  match r with
  | Eps => [st]
  | Dot => eat (fun c => negb (is_lf c)) st
  | Cls neg items => eat (cls_matches neg items) st
  | Cat a b => matches a st ≫= matches b
  | Alt a b => matches a st ++ matches b st
  | Rep greedy mn mx r => rep_loop (matches r) greedy (S (mn + length (m_suf st))) mn mx st
  | Grp n r => (fun st' => mk_mst (m_pre st') (m_suf st') ((n, between st st') :: m_caps st')) <$> matches r st
  | Ast a => if holds a st then [st] else []
  | Ahead neg r =>
      match matches r st with
      | st' :: _ => if neg then [] else [mk_mst (m_pre st) (m_suf st) (m_caps st')]
      | [] => if neg then [st] else []
      end
  | Behind neg k r =>
      let found := match rewind k st with
                   | Some st0 => existsb (fun st' => (length (m_suf st') =? length (m_suf st))%nat) (matches r st0)
                   | None => false
                   end in
      if xorb neg found then [st] else []
  end.
End Match.

(** ** The operations of a compiled pattern *)

Record pattern := mk_pattern { p_flags : flags; p_groups : nat; p_re : re }.

(** A match: the whole text and the groups that took part. *)
Record match_t := mk_match { g0 : ustr; g_caps : list (nat * ustr) }.
Definition group (n : nat) (m : match_t) : option ustr := dget n (g_caps m).

Section Ops.
Context `{!Unicode} (p : pattern).

Definition start (s : ustr) : mst := mk_mst [] s [].
Definition here (pre suf : ustr) : mst := mk_mst pre suf [].

(** The first success at a position; [adv] forbids an empty one. *)
Definition match_at (adv : bool) (pre suf : ustr) : option mst :=
  head (List.filter (fun st => negb adv || (length (m_suf st) <? length suf)%nat)
          (matches (p_flags p) (p_re p) (here pre suf))).

Definition match_of (suf : ustr) (pre : ustr) (st : mst) : match_t :=
  mk_match (take (length (m_pre st) - length pre) suf) (m_caps st).

(** [pattern.match(s)]. *)
Definition re_match (s : ustr) : option match_t := match_of s [] <$> match_at false [] s.

(** The leftmost match from a position: the text skipped, the match, the position
    after it. *)
Fixpoint scan (adv : bool) (pre suf : ustr) : option (ustr * match_t * mst) :=
  match match_at adv pre suf with
  | Some st => Some ([], match_of suf pre st, st)
  | None =>
      match suf with
      | [] => None
      | c :: suf' => match scan false (c :: pre) suf' with
                     | Some (gap, m, st) => Some (c :: gap, m, st)
                     | None => None
                     end
      end
  end.

(** [pattern.search(s)]. *)
Definition re_search (s : ustr) : option match_t :=
  match scan false [] s with Some (_, m, _) => Some m | None => None end.
Definition re_found (s : ustr) : bool := bool_decide (is_Some (re_search s)).

(** [pattern.finditer(s)]: the matches with the text before each, and the tail. *)
Fixpoint find_loop (fuel : nat) (adv : bool) (pre suf : ustr) : list (ustr * match_t) * ustr :=
  match fuel with
  | O => ([], suf)
  | S fuel' =>
      match scan adv pre suf with
      | None => ([], suf)
      | Some (gap, m, st) =>
          let '(rest, tail) := find_loop fuel' (bool_decide (g0 m = [])) (m_pre st) (m_suf st) in
          ((gap, m) :: rest, tail)
      end
  end.
Definition re_finditer (s : ustr) : list (ustr * match_t) * ustr := find_loop (2 * length s + 2) false [] s.

(** [pattern.sub(repl, s)]. *)
Definition re_sub (repl : match_t -> ustr) (s : ustr) : ustr :=
  let '(ms, tail) := re_finditer s in (ms ≫= (fun gm => gm.1 ++ repl gm.2)) ++ tail.

(** [pattern.findall(s)], for at most one group: its text, else the match. *)
Definition re_findall (s : ustr) : list ustr :=
  (fun gm => if decide (p_groups p = 0)%nat then g0 gm.2 else default [] (group 1 gm.2)) <$> (re_finditer s).1.

(** [m.groups()]. *)
Definition groups (m : match_t) : list (option ustr) := (fun n => group n m) <$> seq 1 (p_groups p).

(** [pattern.split(s)]. *)
Definition re_split (s : ustr) : list (option ustr) :=
  let '(ms, tail) := re_finditer s in
  (ms ≫= (fun gm => Some gm.1 :: groups gm.2)) ++ [Some tail].
End Ops.

(** A constant replacement, and a template with a group reference. *)
Definition const (s : ustr) : match_t -> ustr := fun _ => s.
Definition gref (n : nat) (m : match_t) : ustr := default [] (group n m).

(** ** The pattern syntax *)

Definition lit (c : N) : re := chr c.
Definition asc (a : ascii) : N := code a.

(** [\d], [\s], [\w] and their complements. *)
Definition class_escape (c : N) : option citem :=
  if c =? asc "d" then Some (CDigit false) else if c =? asc "D" then Some (CDigit true)
  else if c =? asc "s" then Some (CSpace false) else if c =? asc "S" then Some (CSpace true)
  else if c =? asc "w" then Some (CWord false) else if c =? asc "W" then Some (CWord true)
  else None.

Definition hex_val (c : N) : N :=
  if adigit c then c - 48 else if (97 <=? c) && (c <=? 102) then c - 87 else c - 55.

Definition is_hex (c : N) : bool := adigit c || (97 <=? c) && (c <=? 102) || (65 <=? c) && (c <=? 70).

(** A single-character escape after the backslash.  Other letters and digits are
    refused: Python rejects them, or reads what is outside this syntax (back
    references, octal and Unicode escapes). *)
Definition char_escape (s : ustr) : option (N * ustr) :=
  match s with
  | c :: s' =>
      if c =? asc "n" then Some (10, s') else if c =? asc "t" then Some (9, s')
      else if c =? asc "r" then Some (13, s') else if c =? asc "0" then Some (0, s')
      else if c =? asc "x" then
        match s' with h :: l :: s'' => if is_hex h && is_hex l then Some (16 * hex_val h + hex_val l, s'') else None | _ => None end
      else if aalpha c || adigit c then None
      else Some (c, s')
  | [] => None
  end.

(** The members of a class, up to its bracket. *)
Fixpoint parse_class (fuel : nat) (first : bool) (s : ustr) : option (list citem * ustr) :=
  match fuel with
  | O => None
  | S f =>
      match s with
      | [] => None
      | c :: s1 =>
          if (c =? asc "]") && negb first then Some ([], s1)
          else
            let item := if c =? asc "\" then
                          match s1 with
                          | e :: s2 => match class_escape e with
                                       | Some k => Some (inr k, s2)
                                       | None => (fun '(x, r) => (inl x, r)) <$> char_escape s1
                                       end
                          | [] => None
                          end
                        else Some (inl c, s1) in
            match item with
            | None => None
            | Some (inr k, rest) =>
                match rest with
                | d :: e :: _ => if (d =? asc "-") && negb (e =? asc "]") then None
                                 else (fun '(l, r) => (k :: l, r)) <$> parse_class f false rest
                | _ => (fun '(l, r) => (k :: l, r)) <$> parse_class f false rest
                end
            | Some (inl a, rest) =>
                match rest with
                | d :: e :: rest' =>
                    if (d =? asc "-") && negb (e =? asc "]") then
                      let hi := if e =? asc "\" then char_escape rest' else Some (e, rest') in
                      match hi with
                      | Some (b, rest2) => if b <? a then None
                                           else (fun '(l, r) => (CRange a b :: l, r)) <$> parse_class f false rest2
                      | None => None
                      end
                    else (fun '(l, r) => (CChr a :: l, r)) <$> parse_class f false rest
                | _ => (fun '(l, r) => (CChr a :: l, r)) <$> parse_class f false rest
                end
            end
      end
  end.

Fixpoint parse_num (fuel : nat) (acc : option nat) (s : ustr) : option nat * ustr :=
  match fuel, s with
  | S f, c :: s' => if adigit c then parse_num f (Some (10 * default O acc + N.to_nat (c - 48))%nat) s' else (acc, s)
  | _, _ => (acc, s)
  end.

(** A quantifier, if there is one; a brace that opens none is a literal. *)
Definition parse_quant (s : ustr) : option (nat * option nat * ustr) :=
  match s with
  | c :: s1 =>
      if c =? asc "*" then Some (O, None, s1)
      else if c =? asc "+" then Some (1%nat, None, s1)
      else if c =? asc "?" then Some (O, Some 1%nat, s1)
      else if c =? asc "{" then
        let '(lo, s2) := parse_num 9 None s1 in
        match s2 with
        | d :: s3 =>
            if d =? asc "}" then match lo with Some n => Some (n, Some n, s3) | None => None end
            else if d =? asc "," then
              let '(hi, s4) := parse_num 9 None s3 in
              match s4 with
              | e :: s5 => if (e =? asc "}") && (bool_decide (is_Some lo) || bool_decide (is_Some hi))
                           then Some (default O lo, hi, s5) else None
              | [] => None
              end
            else None
        | [] => None
        end
      else None
  | [] => None
  end.

(** The width of a look-behind. *)
Fixpoint width (r : re) : nat :=
  match r with
  | Eps | Ast _ | Ahead _ _ | Behind _ _ _ => O
  | Dot | Cls _ _ => 1
  | Cat a b => (width a + width b)%nat
  | Alt a _ => width a
  | Rep _ mn _ r => (mn * width r)%nat
  | Grp _ r => width r
  end.

(** A look-behind needs a width of its own. *)
Fixpoint fixed_width (r : re) : bool :=
  match r with
  | Cat a b => fixed_width a && fixed_width b
  | Alt a b => fixed_width a && fixed_width b && (width a =? width b)%nat
  | Rep _ mn mx r => fixed_width r && ((width r =? 0)%nat || bool_decide (mx = Some mn))
  | Grp _ r => fixed_width r
  | _ => true
  end.

(** What a quantifier may follow: not an assertion, and not an empty range. *)
Definition repeatable (a : re) (mn : nat) (mx : option nat) : bool :=
  match a with Ast _ => false | _ => true end && match mx with Some x => (mn <=? x)%nat | None => true end.

Definition starts (s p : ustr) : bool := bool_decide (take (length p) s = p).

Definition sized (x : re * nat * ustr) : option (re * nat * ustr) :=
  match x with
  | (Behind neg _ r, g, s) => if fixed_width r then Some (Behind neg (width r) r, g, s) else None
  | _ => Some x
  end.

(** Alternatives, sequences and atoms; [g] numbers the next group. *)
Fixpoint parse_alt (fuel : nat) (g : nat) (s : ustr) : option (re * nat * ustr) :=
    match fuel with
    | O => None
    | S f =>
        match parse_seq f g s with
        | Some (a, g', c :: s') =>
            if c =? asc "|" then
              match parse_alt f g' s' with Some (b, g2, s2) => Some (Alt a b, g2, s2) | None => None end
            else Some (a, g', c :: s')
        | r => r
        end
    end
  with parse_seq (fuel : nat) (g : nat) (s : ustr) : option (re * nat * ustr) :=
    match fuel with
    | O => None
    | S f =>
        match s with
        | [] => Some (Eps, g, s)
        | c :: _ =>
            if (c =? asc "|") || (c =? asc ")") then Some (Eps, g, s)
            else
              match parse_atom f g s with
              | None => None
              | Some (a, g1, s1) =>
                  if match parse_quant s1 with Some (mn, mx, _) => negb (repeatable a mn mx) | None => false end then None else
                  let '(a', s2) :=
                    match parse_quant s1 with
                    | Some (mn, mx, s2) =>
                        match s2 with
                        | q :: s3 => if q =? asc "?" then (Rep false mn mx a, s3) else (Rep true mn mx a, s2)
                        | [] => (Rep true mn mx a, s2)
                        end
                    | None => (a, s1)
                    end in
                  match parse_seq f g1 s2 with
                  | Some (Eps, g2, s3) => Some (a', g2, s3)
                  | Some (b, g2, s3) => Some (Cat a' b, g2, s3)
                  | None => None
                  end
              end
        end
    end
  with parse_atom (fuel : nat) (g : nat) (s : ustr) : option (re * nat * ustr) :=
    match fuel with
    | O => None
    | S f =>
        let group (k : re -> re) (g : nat) (s : ustr) :=
          match parse_alt f g s with
          | Some (r, g', c :: s') => if c =? asc ")" then Some (k r, g', s') else None
          | _ => None
          end in
        match s with
        | [] => None
        | c :: s1 =>
            if c =? asc "." then Some (Dot, g, s1)
            else if c =? asc "^" then Some (Ast Bos, g, s1)
            else if c =? asc "$" then Some (Ast Eos, g, s1)
            else if c =? asc "\" then
              match s1 with
              | e :: s2 =>
                  if e =? asc "b" then Some (Ast Wordb, g, s2)
                  else match class_escape e with
                       | Some k => Some (Cls false [k], g, s2)
                       | None => (fun '(x, r) => (chr x, g, r)) <$> char_escape s1
                       end
              | [] => None
              end
            else if c =? asc "[" then
              let '(neg, s2) := match s1 with
                                | d :: s2 => if d =? asc "^" then (true, s2) else (false, s1)
                                | [] => (false, s1)
                                end in
              (fun '(l, r) => (Cls neg l, g, r)) <$> parse_class (S (length s2)) true s2
            else if c =? asc "(" then
              if starts s1 (u "?:") then group (fun r => r) g (drop 2 s1)
              else if starts s1 (u "?=") then group (Ahead false) g (drop 2 s1)
              else if starts s1 (u "?!") then group (Ahead true) g (drop 2 s1)
              else if starts s1 (u "?<=") then group (Behind false O) g (drop 3 s1) ≫= sized
              else if starts s1 (u "?<!") then group (Behind true O) g (drop 3 s1) ≫= sized
              else group (Grp g) (S g) s1
            else if bool_decide (is_Some (parse_quant s)) then None  (* nothing to repeat *)
            else Some (chr c, g, s1)
        end
    end.

Definition parse (s : ustr) : option (re * nat) :=
  match parse_alt (4 * length s + 4) 1 s with
  | Some (r, g, []) => Some (r, pred g)
  | _ => None
  end.

(** [re.compile(s, flags)], with a leading [(?i)] or [(?im)]; a malformed pattern
    never matches. *)
Definition compile_with (fl : flags) (s : string) : pattern :=
  match parse (u s) with Some (r, n) => mk_pattern fl n r | None => mk_pattern fl 0 RFail end.
Definition compile : string -> pattern := compile_with (mk_flags false false).
Definition compile_i : string -> pattern := compile_with (mk_flags true false).
Definition compile_im : string -> pattern := compile_with (mk_flags true true).
Definition well_formed (s : string) : bool := bool_decide (is_Some (parse (u s))).

(** The double quote, for patterns that contain it. *)
Definition DQ : string := String (ascii_of_nat 34) EmptyString.
