(* ===== verification/RegexTheory.v ===== *)
(** * The matcher against the language of its pattern

    A success of the matcher consumes a word of the pattern's language; a pattern
    without assertions succeeds on every word of it; [finditer] cuts the subject
    into gaps and matches, and no gap holds a word of such a pattern. *)

From S2P Require Import Prelude PyStr Regex.
From Stdlib Require Import NArith Lia.

#[local] Open Scope list_scope.

Section Theory.
Context `{!Unicode} (fl : flags).

(** The words of a pattern; assertions are read as the empty word. *)
Inductive lang : re -> ustr -> Prop :=
  | L_eps : lang Eps []
  | L_dot c : is_lf c = false -> lang Dot [c]
  | L_cls neg items c : cls_matches fl neg items c = true -> lang (Cls neg items) [c]
  | L_cat a b v w : lang a v -> lang b w -> lang (Cat a b) (v ++ w)
  | L_altl a b w : lang a w -> lang (Alt a b) w
  | L_altr a b w : lang b w -> lang (Alt a b) w
  | L_stop g mx r : lang (Rep g 0 mx r) []
  | L_more g mn mx r v w : mx <> Some O -> lang r v -> lang (Rep g (pred mn) (pred <$> mx) r) w ->
      lang (Rep g mn mx r) (v ++ w)
  | L_grp n r w : lang r w -> lang (Grp n r) w
  | L_ast a : lang (Ast a) []
  | L_ahead neg r : lang (Ahead neg r) []
  | L_behind neg k r : lang (Behind neg k r) [].

(** [st'] is [st] after [w]. *)
Definition after (st st' : mst) (w : ustr) : Prop :=
  m_suf st = w ++ m_suf st' /\ m_pre st' = reverse w ++ m_pre st.

Lemma after_refl st : after st st [].
Proof. by split. Qed.

Lemma after_trans a b c v w : after a b v -> after b c w -> after a c (v ++ w).
Proof.
  intros [H1 H2] [H3 H4]. split; [by rewrite H1, H3, (assoc_L (++))|].
  by rewrite H4, H2, reverse_app, (assoc_L (++)).
Qed.

Lemma after_length st st' w : after st st' w -> length (m_suf st) = length w + length (m_suf st').
Proof. intros [E _]. by rewrite E, length_app. Qed.

Lemma after_between st st' w : after st st' w -> between st st' = w.
Proof.
  intros [H1 H2]. unfold between. rewrite H1, H2, length_app, length_reverse.
  rewrite Nat.add_sub. by rewrite take_app_length.
Qed.

(** ** Soundness *)

Lemma eat_sound p st st' : st' ∈ eat p st -> exists c, p c = true /\ after st st' [c].
Proof.
  unfold eat. destruct (m_suf st) as [|c s] eqn:E; [by intros ?%elem_of_nil|].
  destruct (p c) eqn:Hp; [|by intros ?%elem_of_nil]. intros ->%list_elem_of_singleton.
  exists c. split; [done|]. by split.
Qed.

Lemma eat_caps p st st' : st' ∈ eat p st -> m_caps st' = m_caps st.
Proof.
  unfold eat. destruct (m_suf st); [by intros ?%elem_of_nil|]. destruct (p _); [|by intros ?%elem_of_nil].
  by intros ->%list_elem_of_singleton.
Qed.

Lemma rep_sound m r g fuel : (forall st st', st' ∈ m st -> exists w, after st st' w /\ lang r w) ->
  forall mn mx st st', st' ∈ rep_loop m g fuel mn mx st -> exists w, after st st' w /\ lang (Rep g mn mx r) w.
Proof.
  intros Hm. induction fuel as [|fuel IH]; intros mn mx st st' Hin; [by apply elem_of_nil in Hin|].
  cbn [rep_loop] in Hin.
  match type of Hin with _ ∈ (if _ then ?more ++ ?stop else _) =>
    assert (st' ∈ more \/ st' ∈ stop) as [Hin'|Hin'] by (destruct g; apply elem_of_app in Hin; tauto) end.
  - assert (mx <> Some O) as Hmx by (by intros ->; apply elem_of_nil in Hin').
    assert (st' ∈ (m st ≫= fun st1 => if (length (m_suf st1) <? length (m_suf st))%nat || (0 <? mn)%nat
                 then rep_loop m g fuel (pred mn) (pred <$> mx) st1 else [st1])) as Hb
      by (destruct mx as [[|k]|]; done).
    apply list_elem_of_bind in Hb as (st1 & Hin1 & Hst1). destruct (Hm _ _ Hst1) as (v & Hv & Hlv).
    destruct (_ || _) eqn:Hp.
    + destruct (IH _ _ _ _ Hin1) as (w & Hw & Hlw). exists (v ++ w).
      split; [by eapply after_trans|by constructor].
    + apply list_elem_of_singleton in Hin1 as ->. apply orb_false_iff in Hp as [_ Hmn].
      apply Nat.ltb_ge in Hmn. exists v. split; [done|]. rewrite <- (app_nil_r v).
      assert (mn = 0) as -> by lia. constructor; [done|done|]. simpl. constructor.
  - destruct mn; [|by apply elem_of_nil in Hin']. apply list_elem_of_singleton in Hin' as ->.
    exists []. split; [apply after_refl|constructor].
Qed.

Lemma matches_sound r : forall st st', st' ∈ matches fl r st -> exists w, after st st' w /\ lang r w.
Proof.
  induction r as [| |neg items|a IHa b IHb|a IHa b IHb|g mn mx r IH|n r IH|a|neg r IH|neg k r IH]; intros st st' Hin;
    cbn [matches] in Hin.
  - apply list_elem_of_singleton in Hin as ->. exists []. split; [apply after_refl|constructor].
  - apply eat_sound in Hin as (c & Hc & Ha). exists [c]. split; [done|]. constructor. by apply negb_true_iff.
  - apply eat_sound in Hin as (c & Hc & Ha). exists [c]. split; [done|by constructor].
  - apply list_elem_of_bind in Hin as (st1 & H2 & H1). apply IHa in H1 as (v & Hv & Hlv).
    apply IHb in H2 as (w & Hw & Hlw). exists (v ++ w). split; [by eapply after_trans|by constructor].
  - apply elem_of_app in Hin as [Hin|Hin]; [apply IHa in Hin|apply IHb in Hin]; destruct Hin as (w & Hw & Hlw);
      exists w; (split; [done|]); [by apply L_altl|by apply L_altr].
  - by eapply rep_sound.
  - apply list_elem_of_fmap in Hin as (st1 & -> & Hst1). apply IH in Hst1 as (w & [Hs Hp] & Hlw).
    exists w. split; [by split|by constructor].
  - destruct (holds _ _ _); [|by apply elem_of_nil in Hin]. apply list_elem_of_singleton in Hin as ->.
    exists []. split; [apply after_refl|constructor].
  - exists []. split; [|constructor].
    destruct (matches fl r st) as [|s0 ss]; destruct neg; try (by apply elem_of_nil in Hin);
      apply list_elem_of_singleton in Hin as ->; by split.
  - exists []. split; [|constructor]. destruct (xorb _ _); [|by apply elem_of_nil in Hin].
    apply list_elem_of_singleton in Hin as ->. apply after_refl.
Qed.

(** ** Completeness, for patterns without assertions *)

Fixpoint pure (r : re) : bool :=
  match r with
  | Eps | Dot | Cls _ _ => true
  | Cat a b | Alt a b => pure a && pure b
  | Rep _ _ _ r | Grp _ r => pure r
  | Ast _ | Ahead _ _ | Behind _ _ _ => false
  end.

(** A derivation of a repetition whose optional iterations consume something. *)
Inductive reps (L : ustr -> Prop) : nat -> option nat -> ustr -> Prop :=
  | reps_stop mx : reps L 0 mx []
  | reps_more mn mx v w : mx <> Some O -> L v -> (v <> [] \/ mn <> 0) -> reps L (pred mn) (pred <$> mx) w ->
      reps L mn mx (v ++ w).

Lemma reps_widen L mn mx w : reps L mn (pred <$> mx) w -> mx <> Some O -> reps L mn mx w.
Proof.
  intros Hr. remember (pred <$> mx) as mx' eqn:E. revert mx E.
  induction Hr as [mx'|mn mx' v w Hmx Hv Hne _ IH]; intros mx -> Hne0; [constructor|].
  constructor; [done|done|done|]. apply IH; [done|]. destruct mx as [[|[|k]]|]; simpl in *; congruence.
Qed.

Lemma lang_reps g mn mx r w : lang (Rep g mn mx r) w -> reps (lang r) mn mx w.
Proof.
  intros Hl. remember (Rep g mn mx r) as R eqn:E. revert g mn mx r E.
  induction Hl as [| | | | | |g0 mx0 r0|g0 mn0 mx0 r0 v w Hmx Hv _ Hw IH| | | |]; intros ?g ?mn ?mx ?r [=]; subst.
  - constructor.
  - destruct (decide (v = [] /\ mn = 0)) as [[-> ->]|Hne].
    + simpl. apply reps_widen; [by eapply IH|done].
    + constructor; [done|done| |by eapply IH]. destruct (decide (v = [])); [right; naive_solver|by left].
Qed.

Lemma rep_complete m L g : (forall st w s, L w -> m_suf st = w ++ s -> exists st', st' ∈ m st /\ after st st' w) ->
  forall fuel mn mx st w s, reps L mn mx w -> m_suf st = w ++ s -> mn + length (m_suf st) < fuel ->
    exists st', st' ∈ rep_loop m g fuel mn mx st /\ after st st' w.
Proof.
  intros Hm. induction fuel as [|fuel IH]; intros mn mx st w s Hr Hs Hf; [lia|]. cbn [rep_loop].
  assert (forall A (x : A) more stop, x ∈ more \/ x ∈ stop -> x ∈ (if g then more ++ stop else stop ++ more)) as Hg
    by (intros A x more stop Hx; destruct g; apply elem_of_app; tauto).
  destruct Hr as [mx|mn mx v w Hmx Hv Hne Hr].
  - exists st. split; [|apply after_refl]. apply Hg. right. by left.
  - rewrite <- (assoc_L (++)) in Hs. destruct (Hm st v (w ++ s) Hv Hs) as (st1 & Hin & Ha).
    assert (m_suf st1 = w ++ s) as Hs1 by (destruct Ha as [Ha _]; rewrite Ha in Hs; by apply app_inv_head in Hs).
    pose proof (after_length _ _ _ Ha) as Hlen.
    destruct (IH (pred mn) (pred <$> mx) st1 w s Hr Hs1) as (st2 & Hin2 & Ha2).
    { destruct v; [|simpl in Hlen; lia]. destruct Hne; [done|lia]. }
    exists st2. split; [|by eapply after_trans]. apply Hg. left.
    assert (st2 ∈ (m st ≫= fun st' => if (length (m_suf st') <? length (m_suf st))%nat || (0 <? mn)%nat
                 then rep_loop m g fuel (pred mn) (pred <$> mx) st' else [st'])) as Hb.
    { apply list_elem_of_bind. exists st1. split; [|done].
      replace (_ || _) with true; [done|]. symmetry. apply orb_true_iff. rewrite !Nat.ltb_lt.
      destruct v; [right; destruct Hne; [done|lia]|left; simpl in Hlen; lia]. }
    destruct mx as [[|k]|]; done.
Qed.

Lemma matches_complete r : pure r = true -> forall st w s, lang r w -> m_suf st = w ++ s ->
  exists st', st' ∈ matches fl r st /\ after st st' w.
Proof.
  induction r as [| |neg items|a IHa b IHb|a IHa b IHb|g mn mx r IH|n r IH|a|neg r IH|neg k r IH];
    cbn [pure matches]; intros Hp st w s Hl Hs; try done.
  - inversion Hl; subst. exists st. split; [by left|apply after_refl].
  - inversion Hl as [|c Hc| | | | | | | | | |]; subst. unfold eat. rewrite Hs. simpl. rewrite Hc. simpl.
    eexists. split; [by left|]. by split.
  - inversion Hl as [| |? ? c Hc| | | | | | | | |]; subst. unfold eat. rewrite Hs. simpl. rewrite Hc.
    eexists. split; [by left|]. by split.
  - apply andb_true_iff in Hp as [Hpa Hpb]. inversion Hl as [| | |? ? v w' Hv Hw| | | | | | | |]; subst.
    rewrite <- (assoc_L (++)) in Hs. destruct (IHa Hpa st v (w' ++ s) Hv Hs) as (st1 & Hin & Ha).
    assert (m_suf st1 = w' ++ s) as Hs1 by (destruct Ha as [Ha _]; rewrite Ha in Hs; by apply app_inv_head in Hs).
    destruct (IHb Hpb st1 w' s Hw Hs1) as (st2 & Hin2 & Ha2). exists st2. split; [|by eapply after_trans].
    apply list_elem_of_bind. by exists st1.
  - apply andb_true_iff in Hp as [Hpa Hpb]. inversion Hl; subst.
    + destruct (IHa Hpa st w s) as (st1 & Hin & Ha); [done..|]. exists st1. split; [apply elem_of_app; by left|done].
    + destruct (IHb Hpb st w s) as (st1 & Hin & Ha); [done..|]. exists st1. split; [apply elem_of_app; by right|done].
  - apply lang_reps in Hl. eapply rep_complete; [intros; by eapply IH|done|done|lia].
  - inversion Hl; subst. destruct (IH Hp st w s) as (st1 & Hin & Ha); [done..|].
    eexists. split; [apply list_elem_of_fmap; by exists st1|]. by destruct Ha.
Qed.
End Theory.

(** ** Cutting a subject *)

Section Cut.
Context `{!Unicode} (p : pattern).
Abbreviation word_of := (lang (p_flags p) (p_re p)).

(** No non-empty word of the pattern occurs in [s]. *)
Definition wordfree (s : ustr) : Prop := forall a v b, s = a ++ v ++ b -> word_of v -> v = [].

(** Where a match comes from. *)
Definition genuine (m : match_t) : Prop :=
  word_of (g0 m) /\
  exists pre suf st, st ∈ matches (p_flags p) (p_re p) (here pre suf) /\ after (here pre suf) st (g0 m) /\ g_caps m = m_caps st.

Lemma match_at_some adv pre suf st : match_at p adv pre suf = Some st ->
  exists w, after (here pre suf) st w /\ word_of w /\ (adv = true -> w <> []) /\
    st ∈ matches (p_flags p) (p_re p) (here pre suf).
Proof.
  unfold match_at. intros Hh. assert (st ∈ List.filter (fun st => negb adv || (length (m_suf st) <? length suf)%nat)
          (matches (p_flags p) (p_re p) (here pre suf))) as Hin.
  { destruct (List.filter _ _); [done|]. injection Hh as ->. by left. }
  apply filterb_elem in Hin as [Hin Hf]. destruct (matches_sound _ _ _ _ Hin) as (w & Ha & Hl).
  exists w. split_and!; [done|done| |done]. intros ->. simpl in Hf. apply Nat.ltb_lt in Hf.
  apply after_length in Ha. simpl in Ha. intros ->. simpl in Ha. lia.
Qed.

Lemma match_at_none adv pre suf : pure (p_re p) = true -> match_at p adv pre suf = None ->
  forall w s, suf = w ++ s -> word_of w -> w = [].
Proof.
  intros Hpure Hh w s Hs Hw. destruct (decide (w = [])) as [|Hne]; [done|].
  destruct (matches_complete _ _ Hpure (here pre suf) w s Hw Hs) as (st & Hin & Ha).
  assert (st ∈ List.filter (fun st => negb adv || (length (m_suf st) <? length suf)%nat)
          (matches (p_flags p) (p_re p) (here pre suf))) as Hin'.
  { apply filterb_elem. split; [done|]. apply orb_true_iff. right. apply Nat.ltb_lt.
    apply after_length in Ha. simpl in Ha. destruct w; [done|]. simpl in Ha. lia. }
  unfold match_at in Hh. by destruct (List.filter _ _); [apply elem_of_nil in Hin'|].
Qed.

(** What a match found after [gap] amounts to. *)
Definition found_spec (adv : bool) (pre suf gap : ustr) (m : match_t) (st : mst) : Prop :=
  suf = gap ++ g0 m ++ m_suf st /\ m_pre st = reverse (gap ++ g0 m) ++ pre /\ genuine m /\
  (adv = true -> gap = [] -> g0 m <> []) /\ (pure (p_re p) = true -> wordfree gap).

Lemma match_of_spec adv pre suf st : match_at p adv pre suf = Some st ->
  found_spec adv pre suf [] (match_of suf pre st) st.
Proof.
  intros (w & Ha & Hw & Hadv & Hin)%match_at_some.
  assert (g0 (match_of suf pre st) = w) as Hg0 by exact (after_between _ _ _ Ha).
  unfold found_spec, genuine. rewrite Hg0. pose proof Ha as [Ha1 Ha2]. simpl in Ha1, Ha2. split_and!.
  - exact Ha1.
  - exact Ha2.
  - exact Hw.
  - by exists pre, suf, st.
  - auto.
  - intros _ a v b Hnil _. by destruct a, v.
Qed.

Lemma scan_spec adv pre suf gap m st : scan p adv pre suf = Some (gap, m, st) -> found_spec adv pre suf gap m st.
Proof.
  revert adv pre gap. induction suf as [|c suf IH]; intros adv pre gap; cbn [scan];
    (destruct (match_at p adv pre _) as [st0|] eqn:E; [intros [= <- <- <-]; by apply match_of_spec|]).
  { done. }
  destruct (scan p false (c :: pre) suf) as [[[gap' m'] st']|] eqn:Es; [|done]. intros [= <- <- <-].
  destruct (IH _ _ _ Es) as (Hs & Hp & Hg & _ & Hfree). unfold found_spec. split_and!.
  - simpl. by rewrite Hs at 1.
  - rewrite Hp. simpl. rewrite reverse_cons, <- (assoc_L (++)). done.
  - done.
  - done.
  - intros Hpure [|x a] v b Hv Hw.
    + simpl in Hv. eapply (match_at_none _ _ _ Hpure E v (b ++ g0 m' ++ m_suf st')); [|done].
      rewrite Hs at 1. change (c :: gap' ++ g0 m' ++ m_suf st') with ((c :: gap') ++ g0 m' ++ m_suf st').
      by rewrite Hv, <- (assoc_L (++)).
    + injection Hv as -> Hv. by eapply Hfree.
Qed.

Lemma scan_none adv pre suf : pure (p_re p) = true -> scan p adv pre suf = None -> wordfree suf.
Proof.
  intros Hpure. revert adv pre. induction suf as [|c suf IH]; intros adv pre; cbn [scan];
    destruct (match_at p adv pre _) as [st0|] eqn:E; try done.
  - intros _ a v b Hnil _. by destruct a, v.
  - destruct (scan p false (c :: pre) suf) as [[[? ?] ?]|] eqn:Es; [done|]. intros _ [|x a] v b Hv Hw.
    + by eapply (match_at_none _ _ _ Hpure E v b).
    + injection Hv as -> Hv. by eapply (IH _ _ Es).
Qed.

(** [finditer]: the subject is the gaps and the matches, in order. *)
Lemma find_loop_spec fuel : forall adv pre suf ms tail,
  find_loop p fuel adv pre suf = (ms, tail) -> 2 * length suf + (if adv then 0 else 1) < fuel ->
  suf = (ms ≫= (fun gm => gm.1 ++ g0 gm.2)) ++ tail /\ Forall (fun gm => genuine gm.2) ms /\
  (pure (p_re p) = true -> Forall (fun gm => wordfree gm.1) ms /\ wordfree tail).
Proof.
  induction fuel as [|fuel IH]; intros adv pre suf ms tail; [lia|]. cbn [find_loop].
  destruct (scan p adv pre suf) as [[[gap m] st]|] eqn:Es.
  - destruct (find_loop p fuel _ (m_pre st) (m_suf st)) as [rest tl] eqn:Ef. intros [= <- <-] Hf.
    destruct (scan_spec _ _ _ _ _ _ Es) as (Hs & _ & Hg & Hadv & Hfree).
    destruct (IH _ _ _ _ _ Ef) as (Hrest & Hall & Hpure).
    { rewrite Hs, !length_app in Hf. case_bool_decide as Hm; [|destruct (g0 m); [done|simpl in Hf; destruct adv; lia]].
      rewrite Hm in Hf. simpl in Hf. destruct gap; [|simpl in Hf; destruct adv; lia].
      destruct adv; [by destruct (Hadv eq_refl eq_refl)|simpl in Hf; lia]. }
    split_and!.
    + simpl. rewrite Hs at 1. by rewrite Hrest at 1; rewrite <- !(assoc_L (++)).
    + by constructor.
    + intros Hp. destruct (Hpure Hp). split; [|done]. constructor; auto.
  - intros [= <- <-] _. split_and!; [done|constructor|]. intros Hp. split; [constructor|]. by eapply scan_none.
Qed.

Lemma finditer_spec s ms tail : re_finditer p s = (ms, tail) ->
  s = (ms ≫= (fun gm => gm.1 ++ g0 gm.2)) ++ tail /\ Forall (fun gm => genuine gm.2) ms /\
  (pure (p_re p) = true -> Forall (fun gm => wordfree gm.1) ms /\ wordfree tail).
Proof. intros Hf. eapply find_loop_spec; [exact Hf|]. change (if false then 0 else 1) with 1. lia. Qed.

(** Replacing every match by itself changes nothing. *)
Lemma sub_id s : re_sub p g0 s = s.
Proof.
  unfold re_sub. destruct (re_finditer p s) as [ms tail] eqn:E. by destruct (finditer_spec _ _ _ E) as [<- _].
Qed.

(** Without a match, [sub] changes nothing. *)
Lemma sub_none repl s : re_found p s = false -> re_sub p repl s = s.
Proof.
  unfold re_found, re_sub, re_search, re_finditer. rewrite bool_decide_eq_false.
  destruct (scan p false [] s) as [[[gap m] st]|] eqn:E; [by intros []|]. intros _.
  replace (2 * length s + 2) with (S (2 * length s + 1)) by lia. cbn [find_loop]. by rewrite E.
Qed.

Lemma found_pure s : pure (p_re p) = true -> re_found p s = false -> wordfree s.
Proof.
  unfold re_found, re_search. rewrite bool_decide_eq_false. intros Hp.
  destruct (scan p false [] s) as [[[gap m] st]|] eqn:E; [by intros []|]. intros _. by eapply scan_none.
Qed.

Lemma wordfree_found s : (forall w, word_of w -> w <> []) -> wordfree s -> re_found p s = false.
Proof.
  intros Hne Hfree. unfold re_found, re_search. apply bool_decide_eq_false.
  destruct (scan p false [] s) as [[[gap m] st]|] eqn:E; [|by intros []].
  apply scan_spec in E as (Hs & _ & [Hw _] & _). intros _. by apply (Hne _ Hw), (Hfree gap (g0 m) (m_suf st)).
Qed.
End Cut.

(** ** Factors and separators *)

Definition factor (w s : ustr) : Prop := exists a b, s = a ++ w ++ b.

Lemma factor_refl w : factor w w.
Proof. exists [], []. by rewrite app_nil_r. Qed.

(** A factor that avoids a character lies on one side of it. *)
Lemma factor_sep w x c y : c ∉ w -> factor w (x ++ c :: y) -> factor w x \/ factor w y.
Proof.
  intros Hc (a & b & E). destruct (decide (length (a ++ w) <= length x)) as [Hl|Hl].
  - left. assert (x = a ++ w ++ drop (length (a ++ w)) x) as Hx.
    { apply (f_equal (take (length x))) in E. rewrite take_app_length in E.
      rewrite (assoc_L (++)). rewrite <- (take_drop (length (a ++ w)) x) at 1. f_equal.
      apply (f_equal (take (length (a ++ w)))) in E. rewrite take_take, Nat.min_l in E by lia. rewrite E.
      rewrite (assoc_L (++)). by rewrite take_app_length. }
    exists a, (drop (length (a ++ w)) x). done.
  - right. destruct (decide (length a <= length x)) as [Ha|Ha].
    + exfalso. apply Hc. rewrite length_app in Hl. apply (f_equal (fun l => l !! length x)) in E.
      rewrite lookup_app_r, Nat.sub_diag in E by done. simpl in E.
      rewrite lookup_app_r, lookup_app_l in E by lia. symmetry in E. by apply list_elem_of_lookup_2 in E.
    + exists (drop (length (x ++ [c])) a), b. apply (f_equal (drop (length (x ++ [c])))) in E.
      change (c :: y) with ([c] ++ y) in E. rewrite (assoc_L (++)), drop_app_length in E.
      rewrite E, drop_app_le; [done|]. rewrite length_app. simpl. lia.
Qed.

(** ** Replacing pieces by a separator *)

(** [s'] is [s] with some pieces replaced by [R]. *)
Inductive recut (R : ustr) : ustr -> ustr -> Prop :=
  | recut_nil : recut R [] []
  | recut_keep c s s' : recut R s s' -> recut R (c :: s) (c :: s')
  | recut_piece x s s' : recut R s s' -> recut R (x ++ s) (R ++ s').

Lemma recut_app R g s s' : recut R s s' -> recut R (g ++ s) (g ++ s').
Proof. intros Hr. induction g; simpl; [done|by constructor]. Qed.

Lemma recut_refl R s : recut R s s.
Proof. induction s; constructor; done. Qed.

(** A replacement that starts and ends with a character [w] avoids, and does not
    hold [w] itself. *)
Record separates (R w : ustr) : Prop := {
  sep_ne : w <> [];
  sep_shape : exists a mid b, R = a :: mid ++ [b] /\ a ∉ w /\ b ∉ w /\ ~ factor w mid
}.

Lemma recut_prefix R w s s' : separates R w -> recut R s s' -> forall v, (exists x, w = x ++ v) ->
  (exists b, s' = v ++ b) -> exists b, s = v ++ b.
Proof.
  intros [_ (a & mid & e & -> & Ha & _ & _)]. induction 1 as [|c s s' Hr IH|x s s' Hr IH]; intros v Hv [b Hb].
  - exists b. done.
  - destruct v as [|d v]; [by eexists|]. injection Hb as -> Hb.
    destruct (IH v) as [b' ->]; [destruct Hv as [y ->]; exists (y ++ [d]); by rewrite <- (assoc_L (++))|by exists b|by exists b'].
  - destruct v as [|d v]; [by eexists|]. injection Hb as -> Hb. exfalso. apply Ha. destruct Hv as [y ->].
    apply elem_of_app. right. by left.
Qed.

(** A factor the replacement cannot help to form was there before. *)
Lemma recut_factor R w s s' : separates R w -> recut R s s' -> factor w s' -> factor w s.
Proof.
  intros Hsep Hr. pose proof Hsep as [Hne (a & mid & e & HR & Ha & He & Hmid)].
  induction Hr as [|c s s' Hr IH|x s s' Hr IH]; intros Hf.
  - done.
  - destruct Hf as ([|d y] & b & Hb).
    + destruct w as [|d w]; [done|]. injection Hb as -> Hb.
      destruct (recut_prefix _ _ _ _ Hsep Hr w) as [b' ->]; [by exists [d]|by exists b|]. by exists [], b'.
    + injection Hb as -> Hb. destruct IH as (y' & b' & ->); [by exists y, b|]. by exists (d :: y'), b'.
  - rewrite HR in Hf. simpl in Hf. apply (factor_sep w [] a) in Hf as [Hf|Hf]; [|rewrite <- (assoc_L (++)) in Hf|done].
    { destruct Hf as (y & b & Hy). symmetry in Hy. apply app_nil in Hy as [_ Hy]. by apply app_nil in Hy as [-> _]. }
    apply (factor_sep w mid e) in Hf as [Hf|Hf]; [done| |done].
    destruct (IH Hf) as (y & b & ->). exists (x ++ y), b. by rewrite <- (assoc_L (++)).
Qed.

Lemma recut_Forall (P : N -> Prop) R s s' : Forall P R -> recut R s s' -> Forall P s -> Forall P s'.
Proof.
  intros HR. induction 1 as [|c s s' _ IH|x s s' _ IH]; intros Hs; [done|..].
  - apply Forall_cons in Hs as [? ?]. constructor; auto.
  - apply Forall_app in Hs as [_ ?]. apply Forall_app. auto.
Qed.

Section SubConst.
Context `{!Unicode} (p : pattern) (R : ustr).

Lemma sub_recut s : recut R s (re_sub p (const R) s).
Proof.
  unfold re_sub. destruct (re_finditer p s) as [ms tail] eqn:E. destruct (finditer_spec _ _ _ _ E) as [Hs _].
  rewrite Hs at 1. clear Hs E. induction ms as [|[gap m] ms IH]; csimpl; [apply recut_refl|].
  rewrite <- !(assoc_L (++)). apply recut_app. by constructor.
Qed.

(** After the substitution no word of an assertion-free pattern is left, when the
    replacement cannot help to form one. *)
Lemma sub_clean s : pure (p_re p) = true ->
  (forall w, lang (p_flags p) (p_re p) w -> w <> [] -> separates R w) -> wordfree p (re_sub p (const R) s).
Proof.
  intros Hp Hsep. unfold re_sub. destruct (re_finditer p s) as [ms tail] eqn:E.
  destruct (finditer_spec _ _ _ _ E) as (_ & _ & Hfree). destruct (Hfree Hp) as [Hms Htl]. clear E Hfree.
  intros a v b Hv Hw. destruct (decide (v = [])) as [|Hne]; [done|]. exfalso.
  assert (factor v ((ms ≫= fun gm => gm.1 ++ const R gm.2) ++ tail)) as Hf by (by exists a, b). clear Hv.
  destruct (Hsep v Hw Hne) as [_ (c & mid & e & HR & Hc & He & Hmid)].
  induction Hms as [|[gap m] ms Hg _ IH]; csimpl; csimpl in Hf.
  - destruct Hf as (y & z & ->). by apply Hne, (Htl y v z).
  - unfold const in Hf at 1. rewrite HR in Hf. rewrite <- !(assoc_L (++)) in Hf. simpl in Hf.
    apply (factor_sep v gap c) in Hf as [(y & z & ->)|Hf]; [by apply Hne, (Hg y v z)| |done].
    rewrite <- (assoc_L (++)) in Hf. apply (factor_sep v mid e) in Hf as [Hf|Hf]; [done|rewrite <- HR in Hf; by apply IH|done].
Qed.
End SubConst.

(** ** Reading off the words of concrete patterns *)

Section Words.
Context `{!Unicode} (fl : flags).

(** Every character a pattern can consume satisfies [P]. *)
Fixpoint over (P : N -> Prop) (r : re) : Prop :=
  match r with
  | Eps | Ast _ | Ahead _ _ | Behind _ _ _ => True
  | Dot => forall c, is_lf c = false -> P c
  | Cls neg items => forall c, cls_matches fl neg items c = true -> P c
  | Cat a b | Alt a b => over P a /\ over P b
  | Rep _ _ _ r | Grp _ r => over P r
  end.

Lemma lang_over P r w : over P r -> lang fl r w -> Forall P w.
Proof.
  intros Ho Hl. revert Ho. induction Hl; simpl; intros Ho; try (by constructor); try (constructor; [by apply Ho|constructor]);
    try (apply Forall_app; split; tauto); tauto.
Qed.

Lemma lang_cat a b w : lang fl (Cat a b) w -> exists v1 v2, w = v1 ++ v2 /\ lang fl a v1 /\ lang fl b v2.
Proof. intros Hl. inversion Hl; subst. eauto. Qed.

Lemma lang_cls neg items w : lang fl (Cls neg items) w -> exists c, w = [c] /\ cls_matches fl neg items c = true.
Proof. intros Hl. inversion Hl; subst. eauto. Qed.

Lemma lang_grp n r w : lang fl (Grp n r) w -> lang fl r w.
Proof. intros Hl. by inversion Hl. Qed.

Lemma lang_chr c w : f_icase fl = false -> lang fl (chr c) w -> w = [c].
Proof.
  intros Hi (d & -> & Hd)%lang_cls. unfold cls_matches in Hd. simpl in Hd. rewrite Hi in Hd.
  f_equal. destruct (N.eqb_spec c d); [done|]. by simpl in Hd.
Qed.

Lemma lang_chr_cat c r w : f_icase fl = false -> lang fl (Cat (chr c) r) w -> exists v, w = c :: v /\ lang fl r v.
Proof. intros Hi (v1 & v2 & -> & ->%lang_chr & H2)%lang_cat; [|done]. by exists v2. Qed.
End Words.

(** Membership in an ASCII class, as arithmetic. *)
Ltac nbool :=
  repeat (rewrite orb_false_r in * || rewrite orb_true_iff in * || rewrite andb_true_iff in * || rewrite negb_true_iff in *
          || rewrite orb_false_iff in * || rewrite N.leb_le in * || rewrite N.leb_gt in *
          || rewrite N.eqb_eq in * || rewrite N.eqb_neq in * || rewrite N.ltb_lt in * || rewrite N.ltb_ge in *).
Ltac ascii_class :=
  intros; unfold cls_matches, item_matches in *; cbn [existsb f_icase f_multi p_flags p_re xorb] in *; nbool; try lia.
