(* ===== verification/PyText.v ===== *)
(** * Python's string methods on code points

    [strip], [split], [join], [replace], slices and membership, on the lists of
    code points the text layer works with, and the lemmas about lines. *)

From S2P Require Import Prelude PyStr Regex RegexTheory.
From Stdlib Require Import NArith Lia.

#[local] Open Scope list_scope.

Definition LF_ : N := 10%N.

Fixpoint ulstrip (p : N -> bool) (s : ustr) : ustr :=
  match s with [] => [] | c :: s' => if p c then ulstrip p s' else s end.

(** [s.strip()] and [s.strip(chars)]. *)
Definition ustrip_by (p : N -> bool) (s : ustr) : ustr := urstrip p (ulstrip p s).
Definition ustrip : ustr -> ustr := ustrip_by uspace.
Definition blank (s : ustr) : bool := bool_decide (ustrip s = []).

(** [s.split(c)]. *)
Fixpoint usplit (c : N) (s : ustr) : list ustr :=
  match s with
  | [] => [[]]
  | x :: s' => if (x =? c)%N then [] :: usplit c s'
               else match usplit c s' with h :: t => (x :: h) :: t | [] => [[x]] end
  end.
Definition lines : ustr -> list ustr := usplit LF_.

(** [sep.join(xs)]. *)
Fixpoint ujoin (sep : ustr) (xs : list ustr) : ustr :=
  match xs with [] => [] | [x] => x | x :: xs' => x ++ sep ++ ujoin sep xs' end.
Definition unlines : list ustr -> ustr := ujoin [LF_].

(** [s.split()]. *)
Fixpoint uwords_aux (cur : ustr) (s : ustr) : list ustr :=
  match s with
  | [] => match cur with [] => [] | _ => [cur] end
  | c :: s' => if uspace c then (match cur with [] => [] | _ => [cur] end) ++ uwords_aux [] s'
               else uwords_aux (cur ++ [c]) s'
  end.
Definition uwords : ustr -> list ustr := uwords_aux [].

(** [s.replace(old, new)]. *)
Fixpoint replace_loop (fuel : nat) (old new s : ustr) : ustr :=
  match fuel, s with
  | O, _ => s
  | _, [] => []
  | S f, c :: s' => if starts s old then new ++ replace_loop f old new (drop (length old) s)
                    else c :: replace_loop f old new s'
  end.
Definition ureplace (old new s : ustr) : ustr :=
  match old with
  | [] => new ++ (s ≫= (fun c => c :: new))
  | _ => replace_loop (length s) old new s
  end.

(** [old in s]. *)
Fixpoint ucontains (w s : ustr) : bool :=
  starts s w || match s with [] => false | _ :: s' => ucontains w s' end.

(** [s[-k:]] of a list, for a count that may be zero or negative: [l[0:]] is the
    whole list. *)
Definition last_slice {A} (k : Z) (l : list A) : list A :=
  if (0 <? k)%Z then drop (length l - Z.to_nat k) l else drop (Z.to_nat (- k)) l.

(** ** Lines *)

Definition has_lf (s : ustr) : bool := existsb (fun c => (c =? LF_)%N) s.

Lemma usplit_nonempty c s : usplit c s <> [].
Proof. induction s as [|x s IH]; simpl; [done|]. destruct (x =? c)%N; [done|]. by destruct (usplit c s). Qed.

Lemma ujoin_cons sep x y xs : ujoin sep (x :: y :: xs) = x ++ sep ++ ujoin sep (y :: xs).
Proof. done. Qed.

(** Splitting and joining are inverse. *)
Lemma ujoin_usplit c s : ujoin [c] (usplit c s) = s.
Proof.
  induction s as [|x s IH]; simpl; [done|]. pose proof (usplit_nonempty c s) as Hne.
  destruct (N.eqb_spec x c) as [->|Hx].
  - destruct (usplit c s) as [|h t] eqn:E; [done|]. rewrite ujoin_cons, IH. done.
  - destruct (usplit c s) as [|h t] eqn:E; [done|]. destruct t as [|h' t]; [by rewrite <- IH|].
    rewrite ujoin_cons. rewrite <- IH, ujoin_cons. done.
Qed.

Lemma usplit_free c s l : l ∈ usplit c s -> c ∉ l.
Proof.
  revert l. induction s as [|x s IH]; intros l; simpl.
  - intros ->%list_elem_of_singleton. apply not_elem_of_nil.
  - destruct (N.eqb_spec x c) as [->|Hx].
    + intros [->|Hl]%elem_of_cons; [apply not_elem_of_nil|by apply IH].
    + pose proof (usplit_nonempty c s) as Hne. destruct (usplit c s) as [|h t]; [done|].
      intros [->|Hl]%elem_of_cons; [|apply IH; by right]. apply not_elem_of_cons. split; [done|]. apply IH. by left.
Qed.

Lemma usplit_app_sep c x s : c ∉ x -> usplit c (x ++ c :: s) = x :: usplit c s.
Proof.
  induction x as [|a x IH]; intros Hc; simpl; [by rewrite N.eqb_refl|].
  apply not_elem_of_cons in Hc as [Ha Hc]. rewrite IH by done. by destruct (N.eqb_spec a c) as [->|].
Qed.

Lemma usplit_single c x : c ∉ x -> usplit c x = [x].
Proof.
  induction x as [|a x IH]; intros Hc; simpl; [done|].
  apply not_elem_of_cons in Hc as [Ha Hc]. rewrite IH by done. by destruct (N.eqb_spec a c) as [->|].
Qed.

Lemma usplit_ujoin c xs : xs <> [] -> Forall (fun x => c ∉ x) xs -> usplit c (ujoin [c] xs) = xs.
Proof.
  induction xs as [|x [|y xs] IH]; intros Hne Hf; [done|..]; apply Forall_cons in Hf as [Hx Hf].
  - by apply usplit_single.
  - rewrite ujoin_cons. change (x ++ [c] ++ ?r) with (x ++ c :: r). rewrite usplit_app_sep by done. by rewrite IH.
Qed.

Lemma starts_spec s p : starts s p = true <-> exists r, s = p ++ r.
Proof.
  unfold starts. rewrite bool_decide_eq_true. split.
  - intros E. exists (drop (length p) s). by rewrite <- E at 1; rewrite take_drop.
  - intros [r ->]. by rewrite take_app_length.
Qed.

Lemma ucontains_spec w s : ucontains w s = true <-> factor w s.
Proof.
  induction s as [|c s IH]; simpl; rewrite orb_true_iff, starts_spec.
  - split; [intros [[r E]|]; [by exists [], r|done]|]. intros (a & b & E). left.
    symmetry in E. apply app_nil in E as [-> E]. by exists b.
  - rewrite IH. split.
    + intros [[r E]|(a & b & E)]; [by exists [], r|]. exists (c :: a), b. by rewrite E.
    + intros ([|x a] & b & E); [left; by exists b|]. right. injection E as -> E. by exists a, b.
Qed.

(** [replace] as a substitution: the occurrences are cut out, and none is left
    when the replacement cannot help to form one. *)
Lemma replace_loop_recut old new fuel s : recut new s (replace_loop fuel old new s).
Proof.
  revert s. induction fuel as [|fuel IH]; intros [|c s]; cbn [replace_loop]; try apply recut_refl.
  destruct (starts (c :: s) old) eqn:E; [|by constructor].
  apply starts_spec in E as [r Hr]. rewrite Hr at 1. rewrite Hr, drop_app_length. by constructor.
Qed.

Lemma ureplace_recut old new s : old <> [] -> recut new s (ureplace old new s).
Proof. destruct old; [done|]. intros _. apply replace_loop_recut. Qed.

Lemma replace_loop_clean old new fuel s : separates new old -> length s <= fuel ->
  ~ factor old (replace_loop fuel old new s).
Proof.
  intros Hsep. pose proof Hsep as [Hne (a & mid & e & HR & Ha & He & Hmid)].
  revert s. induction fuel as [|fuel IH]; intros [|c s] Hf; cbn [replace_loop]; simpl in Hf; try lia.
  1-2: intros (y & b & Hy); symmetry in Hy; apply app_nil in Hy as [_ Hy]; by apply app_nil in Hy as [-> _].
  destruct (starts (c :: s) old) eqn:E.
  - apply starts_spec in E as [r Hr]. rewrite Hr, drop_app_length. intros Hfac.
    apply (IH r).
    { apply (f_equal length) in Hr. rewrite length_app in Hr. simpl in Hr. destruct old; [done|]. simpl in Hr. lia. }
    rewrite HR in Hfac at 1. simpl in Hfac. apply (factor_sep old [] a) in Hfac as [Hfac|Hfac]; [| |done].
    { destruct Hfac as (y & b & Hy). symmetry in Hy. apply app_nil in Hy as [_ Hy]. by apply app_nil in Hy as [-> _]. }
    rewrite <- (assoc_L (++)) in Hfac. by apply (factor_sep old mid e) in Hfac as [Hfac|Hfac].
  - intros ([|d y] & b & Hb).
    + destruct old as [|o old]; [done|]. injection Hb as -> Hb.
      destruct (recut_prefix _ _ _ _ Hsep (replace_loop_recut (o :: old) new fuel s) old) as [b' Hb']; [by exists [o]|by exists b|].
      assert (starts (o :: s) (o :: old) = true) as Hst by (apply starts_spec; exists b'; by rewrite Hb').
      congruence.
    + injection Hb as -> Hb. apply (IH s); [lia|]. by exists y, b.
Qed.

Lemma ureplace_clean old new s : separates new old -> ~ factor old (ureplace old new s).
Proof. intros Hsep. unfold ureplace. destruct old eqn:E; [by destruct Hsep|]. by apply replace_loop_clean. Qed.

(** A character that is not in a string literal is not in its code points. *)
Lemma u_free c s : sany (fun a => (code a =? c)%N) s = false -> c ∉ u s.
Proof.
  unfold u. induction s as [|a s IH]; simpl; [intros _; apply not_elem_of_nil|].
  intros [Ha Hs]%orb_false_iff. apply not_elem_of_cons. split; [|by apply IH]. apply N.eqb_neq in Ha. congruence.
Qed.

(** ** Order *)

(** [a <= b] on texts: by code points. *)
Fixpoint text_leb (a b : ustr) : bool :=
  match a, b with
  | [], _ => true
  | _, [] => false
  | x :: a', y :: b' => if (x =? y)%N then text_leb a' b' else (x <? y)%N
  end.
