(* ===== verification/UrlCodec.v ===== *)
(** * Percent-encoding and UTF-8

    The standard library's [urllib.parse.unquote] and [quote] as the text layer
    uses them: UTF-8, undecodable bytes replaced by U+FFFD. *)

From S2P Require Import Prelude PyStr Regex.
From Stdlib Require Import NArith Lia.

#[local] Open Scope list_scope.
#[local] Open Scope N_scope.

(** ** UTF-8 *)

Definition utf8_char (c : N) : list N :=
  if c <? 128 then [c]
  else if c <? 2048 then [192 + c / 64; 128 + c mod 64]
  else if c <? 65536 then [224 + c / 4096; 128 + (c / 64) mod 64; 128 + c mod 64]
  else [240 + c / 262144; 128 + (c / 4096) mod 64; 128 + (c / 64) mod 64; 128 + c mod 64].
Definition surrogate (c : N) : bool := (55296 <=? c) && (c <=? 57343).
(** A code point that has a UTF-8 encoding. *)
Definition scalar (c : N) : bool := (c <? 1114112) && negb (surrogate c).

(** [s.encode('utf-8')]; [None] for the UnicodeEncodeError of a surrogate. *)
Definition utf8_encode (s : ustr) : option (list N) := if existsb surrogate s then None else Some (s ≫= utf8_char).

Definition REPLACEMENT : N := 65533.
Definition cont (lo hi : N) (b : N) : bool := (lo <=? b) && (b <=? hi).

(** What a lead byte announces: the range of the second byte, how many plain
    continuation bytes follow it, and the lead's own bits. *)
Definition lead (b : N) : option (N * N * nat * N) :=
  if cont 194 223 b then Some (128, 191, O, b - 192)
  else if b =? 224 then Some (160, 191, 1%nat, 0)
  else if b =? 237 then Some (128, 159, 1%nat, 13)
  else if cont 225 239 b then Some (128, 191, 1%nat, b - 224)
  else if b =? 240 then Some (144, 191, 2%nat, 0)
  else if cont 241 243 b then Some (128, 191, 2%nat, b - 240)
  else if b =? 244 then Some (128, 143, 2%nat, 4)
  else None.

(** The plain continuation bytes: the code point, or the rest after what was
    well-formed of a truncated sequence. *)
Fixpoint continue (k : nat) (acc : N) (bs : list N) : option N * list N :=
  match k with
  | O => (Some acc, bs)
  | S k' => match bs with
            | b :: bs' => if cont 128 191 b then continue k' (64 * acc + (b - 128)) bs' else (None, bs)
            | [] => (None, [])
            end
  end.

(** One character: its code point (or the replacement) and the remaining bytes. *)
Definition decode_char (b : N) (bs : list N) : N * list N :=
  if b <? 128 then (b, bs)
  else match lead b with
       | None => (REPLACEMENT, bs)
       | Some (lo, hi, k, bits) =>
           match bs with
           | b2 :: bs' => if cont lo hi b2
                          then let '(c, r) := continue k (64 * bits + (b2 - 128)) bs' in (default REPLACEMENT c, r)
                          else (REPLACEMENT, bs)
           | [] => (REPLACEMENT, [])
           end
       end.

(** [bytes.decode('utf-8', 'replace')]. *)
Fixpoint utf8_decode_loop (fuel : nat) (bs : list N) : ustr :=
  match fuel, bs with
  | S f, b :: bs' => let '(c, r) := decode_char b bs' in c :: utf8_decode_loop f r
  | _, _ => []
  end.
Definition utf8_decode (bs : list N) : ustr := utf8_decode_loop (length bs) bs.

(** ** Percent escapes *)

Definition hexdigit (c : N) : bool := adigit c || cont 65 70 c || cont 97 102 c.

Fixpoint percent_decode (s : list N) : list N :=
  match s with
  | c :: ((h :: ((l :: r) as _r1)) as s') =>
      if (c =? 37) && hexdigit h && hexdigit l then (16 * hex_val h + hex_val l) :: percent_decode r
      else c :: percent_decode s'
  | c :: s' => c :: percent_decode s'
  | [] => []
  end.

(** [unquote]: the ASCII runs are decoded, the rest is kept. *)
Fixpoint unquote_loop (run : list N) (s : ustr) : ustr :=
  match s with
  | [] => utf8_decode (percent_decode (rev run))
  | c :: s' => if is_ascii c then unquote_loop (c :: run) s'
               else utf8_decode (percent_decode (rev run)) ++ c :: unquote_loop [] s'
  end.
Definition unquote (s : ustr) : ustr := if existsb (fun c => c =? 37) s then unquote_loop [] s else s.

(** [quote] with its default safe character. *)
Definition unreserved (b : N) : bool := adigit b || aalpha b || bool_decide (b ∈ [95; 46; 45; 126; 47]).
Definition hex_upper (d : N) : N := if d <? 10 then 48 + d else 55 + d.
Definition quote_byte (b : N) : ustr := if unreserved b then [b] else [37; hex_upper (b / 16); hex_upper (b mod 16)].
Definition quote (s : ustr) : option ustr := (fun bs => bs ≫= quote_byte) <$> utf8_encode s.
