(* ===== verification/JsonText.v ===== *)
(** * Writing JSON

    The standard library's [json.dumps] with its defaults (ASCII output, [", "]
    and [": "] separators), and [str] of what [json.loads] returns.  The shortest
    decimal of a float and the [repr] of a container are arguments. *)

From S2P Require Import Prelude PyFloat PyStr PyInt PyJson UrlCodec.
From Stdlib Require Import ZArith NArith Lia.

#[local] Open Scope list_scope.
#[local] Open Scope N_scope.

(** [float.__repr__], and [repr] of lists and dicts. *)
Class PyRepr := { float_repr : pyfloat -> ustr; container_repr : json -> ustr }.

Definition hex_lower (d : N) : N := if d <? 10 then 48 + d else 87 + d.
(** [\uXXXX] of a code unit. *)
Definition u_escape (c : N) : ustr :=
  [92; 117; hex_lower (c / 4096); hex_lower (c / 256 mod 16); hex_lower (c / 16 mod 16); hex_lower (c mod 16)].

(** The short escapes of [ESCAPE_DCT]. *)
Definition short_escape (c : N) : option N :=
  dget c [(92, 92); (34, 34); (8, 98); (12, 102); (10, 110); (13, 114); (9, 116)].

Definition escape_char (c : N) : ustr :=
  match short_escape c with
  | Some e => [92; e]
  | None => if (32 <=? c) && (c <=? 126) then [c]
            else if c <? 65536 then u_escape c
            else u_escape (55296 + (c - 65536) / 1024) ++ u_escape (56320 + (c - 65536) mod 1024)
  end.

Definition quoted (s : ustr) : ustr := [34] ++ (s ≫= escape_char) ++ [34].

(** The text of a dict key, from its bytes. *)
Definition key_text (k : string) : ustr := utf8_decode (u k).

(** [sep.join(...)] *)
Fixpoint sep_join (sep : ustr) (xs : list ustr) : ustr :=
  match xs with
  | [] => []
  | x :: xs' => match xs' with [] => x | _ => x ++ sep ++ sep_join sep xs' end
  end.

Section Dumps.
Context `{PyRepr}.

Definition float_text (f : pyfloat) : ustr :=
  match f with
  | S754_nan => u "NaN"
  | S754_infinity false => u "Infinity"
  | S754_infinity true => u "-Infinity"
  | _ => float_repr f
  end.

Fixpoint dumps (j : json) : ustr :=
  match j with
  | JNull => u "null"
  | JBool true => u "true"
  | JBool false => u "false"
  | JInt z => u (str_of_Z z)
  | JFloat f => float_text f
  | JStr s => quoted s
  | JList l => u "[" ++ sep_join (u ", ") (dumps <$> l) ++ u "]"
  | JObj d => u "{" ++ sep_join (u ", ") ((fun kv => quoted (key_text kv.1) ++ u ": " ++ dumps kv.2) <$> d) ++ u "}"
  end.

(** [str(value)]. *)
Definition py_str (j : json) : ustr :=
  match j with
  | JNull => u "None"
  | JBool true => u "True"
  | JBool false => u "False"
  | JInt z => u (str_of_Z z)
  | JFloat f => match f with
                | S754_nan => u "nan"
                | S754_infinity false => u "inf"
                | S754_infinity true => u "-inf"
                | _ => float_repr f
                end
  | JStr s => s
  | JList _ | JObj _ => container_repr j
  end.

(** A list of objects prints as [[]] exactly when it is empty. *)
Lemma dumps_objects_empty l : dumps (JList (JObj <$> l)) = u "[]" <-> l = [].
Proof.
  split; [|by intros ->]. destruct l as [|d l]; [done|]. intros E. exfalso.
  cbn [dumps fmap list_fmap] in E. apply (f_equal (fun s => s !! 1%nat)) in E.
  destruct l as [|d' l]; cbn [fmap list_fmap sep_join] in E; by vm_compute in E.
Qed.

Lemma dumps_objects_nonempty l : dumps (JList (JObj <$> l)) <> [].
Proof. by destruct l. Qed.
End Dumps.

(** [int(value)] of what [json.loads] returns. *)
Definition OverflowError : pyexn := OtherError "OverflowError".

Definition py_int (j : json) : result Z :=
  match j with
  | JInt z => Ok z
  | JBool b => Ok (Z.b2z b)
  | JFloat S754_nan => Raise ValueError
  | JFloat (S754_infinity _) => Raise OverflowError
  | JFloat f => Ok (trunc f)
  | JStr s => match int_text s with Some z => Ok z | None => Raise ValueError end
  | JNull | JList _ | JObj _ => Raise TypeError
  end.

Lemma py_int_text z : py_int (jstr (str_of_Z z)) = Ok z.
Proof. simpl. by rewrite int_text_str_of_Z. Qed.
