(* ===== verification/PyNum.v ===== *)
(** * Floats from text and iteration of a tree

    Python's [float(value)], iteration, [.get] and hashability on the trees a JSON
    or YAML loader returns. *)

From S2P Require Import Prelude PyFloat PyStr PyInt PyJson Regex PyText JsonText.
From Stdlib Require Import ZArith NArith Lia.

#[local] Open Scope list_scope.
#[local] Open Scope N_scope.

(** [float(value)] of what [json.loads] or a YAML loader returns: a text is white space around a sign, a decimal
    with an optional exponent (rounded once), or a name of an infinity or NaN.
    Underscores, and digits of other scripts, are read by Python as well; no text
    the service converts has them. *)
Fixpoint take_digits (acc : Z) (n : nat) (s : ustr) : Z * nat * ustr :=
  match s with
  | c :: s' => match digit_value c with
               | Some v => take_digits (10 * acc + v)%Z (S n) s'
               | None => (acc, n, s)
               end
  | [] => (acc, n, s)
  end.

Definition exponent_of (s : ustr) : option Z :=
  match s with
  | [] => Some 0%Z
  | e :: s' => if (e =? 101) || (e =? 69) then
                 let '(neg, s'') := match s' with
                                    | 45 :: r => (true, r) | 43 :: r => (false, r) | _ => (false, s')
                                    end in
                 match take_digits 0 0 s'' with
                 | (x, S _, []) => Some (if neg then (- x)%Z else x)
                 | _ => None
                 end
               else None
  end.

(** The float nearest to [m * 10 ^ e]. *)
Definition scaled (m e : Z) : pyfloat := if (0 <=? e)%Z then of_Z (m * 10 ^ e) else int_quot m (10 ^ (- e)).

Definition decimal_text (s : ustr) : option pyfloat :=
  let '(ip, ni, s1) := take_digits 0 0 s in
  let '(m, nf, s2) := match s1 with 46 :: r => take_digits ip 0 r | _ => (ip, O, s1) end in
  if (ni + nf =? 0)%nat then None else (fun e => scaled m (e - Z.of_nat nf)) <$> exponent_of s2.

Definition float_magnitude (s : ustr) : option pyfloat :=
  let low := ulower_char <$> s in
  if decide (low = u "inf") then Some finf
  else if decide (low = u "infinity") then Some finf
  else if decide (low = u "nan") then Some fnan
  else decimal_text s.

Definition float_of_text (s : ustr) : option pyfloat :=
  match ustrip s with
  | 43 :: s' => float_magnitude s'
  | 45 :: s' => fopp <$> float_magnitude s'
  | s' => float_magnitude s'
  end.

Definition py_float (j : json) : result pyfloat :=
  match j with
  | JFloat f => Ok f
  | JInt z => if is_finite (of_Z z) then Ok (of_Z z) else Raise OverflowError
  | JBool b => Ok (of_Z (Z.b2z b))
  | JStr s => match float_of_text s with Some f => Ok f | None => Raise ValueError end
  | JNull | JList _ | JObj _ => Raise TypeError
  end.

Example float_texts :
  (float_of_text <$> [u " 0.85"; u "-1e-3"; u ".5"; u "1e400"; u "Inf"; u "5."; u "."; u "0x1"; u "-0"])
  = [Some (dec 85 100); Some (dec (-1) 1000); Some (dec 1 2); Some finf; Some finf; Some (of_Z 5); None; None;
     Some (S754_zero true)].
Proof. by vm_compute. Qed.

(** [for x in value]: a text gives its characters, a dict its keys. *)
Definition py_iter (j : json) : result (list json) :=
  match j with
  | JStr s => Ok ((fun c => JStr [c]) <$> s)
  | JList l => Ok l
  | JObj d => Ok ((fun kv => JStr (key_text kv.1)) <$> d)
  | JNull | JBool _ | JInt _ | JFloat _ => Raise TypeError
  end.

(** [value.get(key, default)]: only a dict has [get]. *)
Definition py_get (j : json) (key : string) (default : json) : result json :=
  match j with JObj d => Ok (dgetd key default d) | _ => Raise AttributeError end.

Definition hashable (j : json) : bool := match j with JList _ | JObj _ => false | _ => true end.

(** [xs.count(x)]. *)
Definition py_count (x : json) (xs : list json) : nat := length (List.filter (fun y => py_eq y x) xs).
