(* ===== verification/TextProc.v ===== *)
(** * Log text processing

    [preprocessing/text_processing.py]: the cleaning primitives, the stack-trace
    detector, and the extractors of exceptions, status codes, URLs and paths.
    Patterns are the source's; scikit-learn's TF-IDF similarity is a parameter. *)

From S2P Require Import Prelude PyFloat PyStr Regex PyText UrlCodec.
From Stdlib Require Import NArith ZArith Lia.

#[local] Open Scope string_scope.
#[local] Open Scope list_scope.
#[local] Open Scope nat_scope.

(** [cosine_similarity] of two rows of the TF-IDF matrix of the texts, with or
    without the inverse document frequency; [None] when the vectorizer raises
    [ValueError] (no token in any text). *)
Class Tfidf := { tfidf_cosine : bool -> list ustr -> option (nat -> nat -> pyfloat) }.

Module SimilarityResult.
Record t := mk { similarity : pyfloat; both_empty : bool }.
End SimilarityResult.

Definition STOPWORDS : list ustr := Eval vm_compute in u <$> [
    "a"; "about"; "above"; "after"; "again"; "against"; "ain"; "all"; "am"; "an"; "and"; "any"; "are"; "aren";
    "aren't"; "as"; "at"; "be"; "because"; "been"; "before"; "being"; "below"; "between"; "both"; "but"; "by";
    "can"; "couldn"; "couldn't"; "d"; "did"; "didn"; "didn't"; "do"; "does"; "doesn"; "doesn't"; "doing";
    "don"; "don't"; "down"; "during"; "each"; "few"; "for"; "from"; "further"; "had"; "hadn"; "hadn't"; "has";
    "hasn"; "hasn't"; "have"; "haven"; "haven't"; "having"; "he"; "he'd"; "he'll"; "her"; "here"; "hers";
    "herself"; "he's"; "him"; "himself"; "his"; "how"; "i"; "i'd"; "if"; "i'll"; "i'm"; "in"; "into"; "is";
    "isn"; "isn't"; "it"; "it'd"; "it'll"; "it's"; "its"; "itself"; "i've"; "just"; "ll"; "m"; "ma"; "me";
    "mightn"; "mightn't"; "more"; "most"; "mustn"; "mustn't"; "my"; "myself"; "needn"; "needn't"; "no"; "nor";
    "not"; "now"; "o"; "of"; "off"; "on"; "once"; "only"; "or"; "other"; "our"; "ours"; "ourselves"; "out";
    "over"; "own"; "re"; "s"; "same"; "shan"; "shan't"; "she"; "she'd"; "she'll"; "she's"; "should"; "shouldn";
    "shouldn't"; "should've"; "so"; "some"; "such"; "t"; "than"; "that"; "that'll"; "the"; "their"; "theirs";
    "them"; "themselves"; "then"; "there"; "these"; "they"; "they'd"; "they'll"; "they're"; "they've"; "this";
    "those"; "through"; "to"; "too"; "under"; "until"; "up"; "ve"; "very"; "was"; "wasn"; "wasn't"; "we";
    "we'd"; "we'll"; "we're"; "were"; "weren"; "weren't"; "we've"; "what"; "when"; "where"; "which"; "while";
    "who"; "whom"; "why"; "will"; "with"; "won"; "won't"; "wouldn"; "wouldn't"; "y"; "you"; "you'd"; "you'll";
    "your"; "you're"; "yours"; "yourself"; "yourselves"; "you've"
  ].

Definition FILE_EXTENSIONS : list string := ["java"; "php"; "cpp"; "cs"; "c"; "h"; "js"; "swift"; "rb"; "py"; "scala"].
Definition ext_join (sep : string) : string := str_join sep FILE_EXTENSIONS.

Definition PUNCTUATION : ustr := Eval vm_compute in
  u ("!" +:+ DQ +:+ "#$%&'()*+,-./:;<=>?@[\]^_`{|}~").
Definition punctuation (split_urls : bool) (c : N) : bool :=
  bool_decide (c ∈ PUNCTUATION) && negb (c =? 46)%N && (split_urls || negb ((c =? 47)%N || (c =? 92)%N)).

Section Text.
Context `{!Unicode}.

Definition replace_patterns (text : ustr) (patterns : list (pattern * (match_t -> ustr))) : ustr :=
  fold_left (fun t pr => re_sub pr.1 pr.2 t) patterns text.
Definition remove_patterns (text : ustr) (patterns : list pattern) : ustr :=
  replace_patterns text ((fun p => (p, const [])) <$> patterns).

(** ** The head of a log line *)

Definition EU_TIME : string := "\d+:\d+:\d+(?:[.,]\d+)?".
Definition EU_DATETIME : string := "\d+-\d+-\d+\s+" +:+ EU_TIME.
Definition US_DATETIME : string := "\d+/\d+/\d+\s+" +:+ EU_TIME.
Definition DELIM : string := "(?:\s*-\s*)|(?:\s*\|\s*)".
Definition delimited (s : string) : string := s +:+ "(?:" +:+ DELIM +:+ ")?".

Definition DATETIME_PATTERNS : list pattern := Eval vm_compute in
  [compile ("^" +:+ delimited EU_DATETIME +:+ "\s*"); compile ("^" +:+ delimited US_DATETIME +:+ "\s*");
   compile ("^" +:+ delimited EU_TIME +:+ "\s*"); compile ("^" +:+ delimited ("\[" +:+ EU_TIME +:+ "]") +:+ "\s*");
   compile ("^" +:+ delimited ("\[" +:+ EU_DATETIME +:+ "]") +:+ "\s*")].
Definition remove_starting_datetime (text : ustr) : ustr := remove_patterns text DATETIME_PATTERNS.

Definition LOG_LEVEL : string := "(?:TRACE|DEBUG|INFO|WARN|ERROR|FATAL)\s?".
Definition LOG_LEVEL_PATTERNS : list pattern := Eval vm_compute in
  [compile ("^" +:+ delimited LOG_LEVEL +:+ "\s+"); compile ("^" +:+ delimited ("\[" +:+ LOG_LEVEL +:+ "]") +:+ "\s+");
   compile ("^" +:+ delimited ("\(" +:+ LOG_LEVEL +:+ "\)") +:+ "\s+")].
Definition remove_starting_log_level (text : ustr) : ustr := remove_patterns text LOG_LEVEL_PATTERNS.

Definition THREAD_ID_PATTERNS : list pattern := Eval vm_compute in [compile ("^" +:+ delimited "\d+\s+-+\s*" +:+ "\s+")].
Definition remove_starting_thread_id (text : ustr) : ustr := remove_patterns text THREAD_ID_PATTERNS.

Definition THREAD_NAME_PATTERNS : list pattern := Eval vm_compute in [compile ("^" +:+ delimited "\[[^\]]*]" +:+ "\s+")].
Definition remove_starting_thread_name (text : ustr) : ustr := remove_patterns text THREAD_NAME_PATTERNS.

(** ** Lines *)

Definition filter_empty_lines (log_lines : list ustr) : list ustr := List.filter (fun l => negb (blank l)) log_lines.
Definition delete_empty_lines (log : ustr) : ustr := unlines (filter_empty_lines (lines log)).
Definition calculate_line_number (text : ustr) : nat := length (filter_empty_lines (lines text)).
Definition first_lines (log_str : ustr) (n_lines : Z) : ustr :=
  if (0 <=? n_lines)%Z then unlines (take (Z.to_nat n_lines) (lines log_str)) else log_str.

Definition line_seen (keep : ustr -> bool) (key : ustr -> ustr) (st : list ustr * list ustr) (line : ustr) : list ustr * list ustr :=
  if keep line && negb (bool_decide (key line ∈ st.1)) then (key line :: st.1, st.2 ++ [line]) else st.

(** "For documentation on this error please visit ..." *)
Definition documentation_line (line : ustr) : bool :=
  ucontains (u "documentation") (ulower line) && ucontains (u "error") (ulower line) && ucontains (u "visit") (ulower line).

Definition leave_only_unique_lines (message : ustr) : ustr :=
  unlines (fold_left (line_seen (fun l => negb (documentation_line l)) ustrip) (lines message) ([], [])).2.

(** ** Words and exceptions *)

Definition STOPWORDS_ALL : list ustr := STOPWORDS.
Definition is_dot (c : N) : bool := (c =? 46)%N.

Definition split_text_on_words (text : ustr) (min_word_length : nat) (only_unique : bool) : list ustr :=
  (fold_left (fun (st : list ustr * list ustr) w0 =>
     let w := ustrip_by is_dot (ustrip w0) in
     if negb (bool_decide (w = [])) && (min_word_length <=? length w) then
       if bool_decide (w ∈ STOPWORDS_ALL) then st
       else if only_unique then
         if bool_decide (w ∈ st.1) then st else (w :: st.1, st.2 ++ [w])
       else (st.1, st.2 ++ [w])
     else st) (uwords text) ([], [])).2.

Definition split_words (text : ustr) (min_word_length : nat) (only_unique split_urls to_lower : bool) : list ustr :=
  match text with
  | [] => []
  | _ =>
      let result := (fun c => if punctuation split_urls c then 32%N else c) <$> text in
      let result := ustrip (ustrip_by is_dot (ustrip result)) in
      let result := if to_lower then ulower result else result in
      split_text_on_words result min_word_length only_unique
  end.

Definition KEYWORD_PATTERNS : list pattern := Eval vm_compute in
  (fun k => compile ("\S{3,}" +:+ k +:+ "(\s|$)")) <$> ["error"; "exception"; "failure"].

Definition get_found_exceptions (text : ustr) (to_lower : bool) : list ustr :=
  (fold_left (line_seen (fun word => existsb (fun p => re_found p (ulower word)) KEYWORD_PATTERNS) (fun w => w))
     (split_words text 0 true true to_lower) ([], [])).2.

(** ** Description and stack trace *)

Definition PY_EXT_PATTERN : pattern := Eval vm_compute in compile ("\.(" +:+ ext_join "|" +:+ ")(?!\.)\b").
Definition is_python_log (log : ustr) : bool :=
  let found := re_findall PY_EXT_PATTERN log in
  negb (bool_decide (found = [])) && forallb (fun e => bool_decide (e = u "py")) found.

(** The alternation is not grouped: every extension but the last is an alternative
    of the whole pattern. *)
Definition STARTING_MESSAGE_PATTERN : pattern := Eval vm_compute in
  compile ("\w*\s*\(\s*.*\." +:+ ext_join "|" +:+ ":\d+\s*\)").
Definition is_starting_message_pattern (text : ustr) : bool :=
  match re_search STARTING_MESSAGE_PATTERN text with Some m => starts text (g0 m) | None => false end.

Definition STACK_IP : pattern := Eval vm_compute in compile "(\d{1,3}\.\d{1,3}\.\d{1,3}\.\d{1,3}):(\d+)".
Definition STACK_LINENO : pattern := Eval vm_compute in compile "(?<=[^\s\d]:)\d+(?=\)?]?(\n|$))".
Definition STACK_CSHARP : pattern := Eval vm_compute in compile_i "line\s*\d+\s*(?:(?=, in)|(?=,in)|(?=\n)|(?=$))".
Definition STACK_EXT : pattern := Eval vm_compute in
  compile_i (str_join "|" ((fun e => "\." +:+ e +:+ "(?!\.)\b") <$> FILE_EXTENSIONS)).
Definition STACK_JAVA : pattern := Eval vm_compute in compile "^\s*at\s[^(]*\([^)]*\)\s*$".
Definition STACK_CALL : pattern := Eval vm_compute in compile "^\s*\w+([./]\s*\w+)+\s*\(.*?\)\s*$".

Definition whole (p : pattern) (s : ustr) : bool :=
  match re_search p s with Some m => bool_decide (g0 m = s) | None => false end.

Definition is_line_from_stacktrace (text : ustr) : bool :=
  if is_starting_message_pattern text then false
  else
    let res := re_sub STACK_LINENO (const (u " ")) (re_sub STACK_IP (const []) text) in
    if negb (bool_decide (res = text)) then true
    else
      let res := re_sub STACK_CSHARP (const (u "line ")) res in
      if negb (bool_decide (res = text)) then true
      else
        let res := re_sub STACK_EXT (const (u " ")) res in
        if negb (bool_decide (res = text)) then true
        else whole STACK_JAVA res || whole STACK_CALL res.

Definition TRACE_KEYWORDS : list ustr := Eval vm_compute in
  u <$> ["stacktrace"; "stack trace"; "stack-trace"; "traceback"; "trace back"].

Record py_parts := mk_parts { detected : list ustr; trace_lines : list ustr; in_trace : bool; in_message : bool }.

Definition python_step (st : py_parts) (line : ustr) : py_parts :=
  let opens := existsb (fun k => ucontains k (ulower line)) TRACE_KEYWORDS in
  let exception := negb opens && negb (bool_decide (get_found_exceptions line false = [])) in
  let tb := if opens then true else if exception then false else in_trace st in
  let dm := if opens then false else if exception then true else in_message st in
  if tb then mk_parts (detected st) (trace_lines st ++ [line]) tb dm
  else if dm then mk_parts (detected st ++ [line]) (trace_lines st) tb dm
  else mk_parts (detected st) (trace_lines st) tb dm.

Definition detect_log_parts_python (message : ustr) (default_log_number : nat) : ustr * ustr :=
  let st := fold_left python_step (lines message) (mk_parts [] [] false true) in
  match detected st with
  | [] => let n := length (trace_lines st) in
          (unlines (drop (n - default_log_number) (trace_lines st)), unlines (take (n - default_log_number) (trace_lines st)))
  | d => (unlines d, unlines (trace_lines st))
  end.

Definition detect_log_description_and_stacktrace (message : ustr) : ustr * ustr :=
  if 2 <? calculate_line_number message then
    if is_python_log message then detect_log_parts_python message 1
    else
      let ls := lines message in
      let stack := List.filter is_line_from_stacktrace ls in
      match List.filter (fun l => negb (is_line_from_stacktrace l)) ls with
      | [] => (unlines (take 1 stack), unlines (drop 1 stack))
      | d => (unlines d, unlines stack)
      end
  else (message, []).

Definition BRCKTS_TXT : pattern := Eval vm_compute in compile "\[[^]]*]|\([^)]*\)|\{[^}]*}".
Definition clean_from_brackets (text : ustr) : ustr := re_sub BRCKTS_TXT (const []) text.

Definition SPECIAL_CHARACTER_PATTERN : pattern := Eval vm_compute in
  compile ("[/?&=#@:.*!$%^+~\\|,;<>\[\]{}()`" +:+ DQ +:+ "'_]").
Definition clean_special_chars (text : ustr) : ustr := re_sub SPECIAL_CHARACTER_PATTERN (const (u " ")) text.

(** ** Status codes and numbers *)

Definition HTTP_CODE : string := "[1-5]\d{2}".
Definition code_pair (pre : string) : string :=
  pre +:+ "[^\w.]+(" +:+ HTTP_CODE +:+ ")\D*(" +:+ HTTP_CODE +:+ ")?|" +:+ pre +:+ "[^\w.]+(" +:+ HTTP_CODE +:+ ")?$".
Definition QUOTES : string := "[" +:+ DQ +:+ "'`]".
Definition code_idiom (pre : string) : pattern :=
  compile_i (pre +:+ "[:=\s]*" +:+ QUOTES +:+ "?(" +:+ HTTP_CODE +:+ ")\b").

Definition STATUS_CODES_PATTERNS : list pattern := Eval vm_compute in
  [compile_i (code_pair "\bcode"); compile_i (code_pair "\w+_code");
   compile_i (code_pair "\bstatus"); compile_i (code_pair "\w+_status");
   compile_i ("\bcode\W+expected[:.\s-]+" +:+ QUOTES +:+ "?(" +:+ HTTP_CODE +:+ ")\D*(" +:+ HTTP_CODE +:+ ")?|"
              +:+ "\bcode\W+expected[:.\s-]+" +:+ QUOTES +:+ "?(" +:+ HTTP_CODE +:+ ")" +:+ QUOTES +:+ "?$");
   compile_i ("\" +:+ DQ +:+ "(?:statusCode|status_code|httpCode|http_code|responseCode|response_code)\" +:+ DQ +:+ ":\s*\"
              +:+ DQ +:+ "?(" +:+ HTTP_CODE +:+ ")\b");
   code_idiom "\bactual\b"; code_idiom "\bexpected\b"; code_idiom "\bstatuscode\b";
   compile_i ("\bhttp/\d(?:\.\d)?\s+(" +:+ HTTP_CODE +:+ ")\b");
   compile ("->\s*(" +:+ HTTP_CODE +:+ ")\b")].

Definition line_codes (line : ustr) : list ustr :=
  STATUS_CODES_PATTERNS ≫= (fun p =>
    match re_search p line with
    | Some m => List.filter (fun c => negb (bool_decide (c = []))) (omap (fun g => ustrip <$> g) (groups p m))
    | None => []
    end).
Definition get_potential_status_codes (text : ustr) : list ustr := lines text ≫= line_codes.

Definition get_unique_strings (strings : list ustr) : list ustr :=
  (fold_left (line_seen (fun _ => true) (fun s => s)) strings ([], [])).2.
Definition get_unique_potential_status_codes (text : ustr) : list ustr := get_unique_strings (get_potential_status_codes text).

Definition NUMBER_PATTERN : pattern := Eval vm_compute in compile "\b\d+\b".
Definition NUMBER_PART_PATTERN : pattern := Eval vm_compute in compile "\d+".
Definition NUMBER_TAG : ustr := Eval vm_compute in u "SPECIALNUMBER".
Definition remove_numbers (text : ustr) : ustr :=
  re_sub NUMBER_PART_PATTERN (const []) (re_sub NUMBER_PATTERN (const NUMBER_TAG) text).

(** ** HTML *)

Definition tag_attrs : string := "(?:\s+\S+\s*=\s*" +:+ DQ +:+ "[^" +:+ DQ +:+ "]*" +:+ DQ +:+ ")*\s*>".
Definition REGEX_STYLE_TAG : pattern := Eval vm_compute in compile ("<style" +:+ tag_attrs +:+ "[^<]*</style>").
Definition REGEX_SCRIPT_TAG : pattern := Eval vm_compute in compile ("<script" +:+ tag_attrs +:+ "[^<]*</script>").
Definition REGEX_HTML_TAGS : pattern := Eval vm_compute in
  compile ("</?\w+(?:\s+[^>\s]+\s*=\s*" +:+ DQ +:+ "[^" +:+ DQ +:+ "]*" +:+ DQ +:+ "\s?|\s+[^>\s]+\s*)*>"
           +:+ "|&([a-zA-Z0-9]+|#[0-9]{1,6}|#x[0-9a-fA-F]{1,6});").
Definition REGEX_HTML_OPEN : pattern := Eval vm_compute in compile ("<html" +:+ tag_attrs).

Definition clean_text_from_html_tags (message : ustr) : ustr :=
  replace_patterns message ((fun p => (p, const (u " "))) <$> [REGEX_STYLE_TAG; REGEX_SCRIPT_TAG; REGEX_HTML_TAGS]).

(** The lines outside a span, whether a span is open, and its lines. *)
Record html_state := mk_html { html_out : list ustr; html_open : bool; html_part : list ustr }.

Definition html_step (st : html_state) (line : ustr) : html_state :=
  let opens := re_found REGEX_HTML_OPEN line in
  let started := html_open st || opens in
  let part := if started then html_part st ++ [line] else html_part st in
  let out := if started then html_out st else html_out st ++ [line] in
  if ucontains (u "</html>") line
  then mk_html (out ++ [clean_text_from_html_tags (unlines part)]) false []
  else mk_html out started part.

Definition clean_html (message : ustr) : ustr :=
  let st := fold_left html_step (lines message) (mk_html [] false []) in
  delete_empty_lines (unlines (html_out st ++ html_part st)).

(** ** Test names *)

Definition ONLY_NUMBERS : pattern := Eval vm_compute in compile "[^\d ._]".
Definition find_only_numbers (s : ustr) : ustr :=
  ujoin (u " ") (split_words (re_sub ONLY_NUMBERS (const []) s) 0 false true true).

Definition dots (w : ustr) : list ustr := usplit 46%N w.
Definition method_leb (a b : ustr) : bool := length (dots a) <=? length (dots b).

(** [words[-i:]] for i = 2, 1. *)
Definition last_words (i : nat) (ws : list ustr) : list ustr := drop (length ws - i) ws.

Definition method_pattern (val : ustr) : pattern :=
  match parse (u "\b(?<!\.)" ++ val ++ u "(?!\.)\b") with
  | Some (r, n) => mk_pattern (mk_flags false false) n r
  | None => mk_pattern (mk_flags false false) 0 RFail
  end.

Definition enrich_line (line : ustr) : ustr :=
  let found := List.filter (fun w => (2 <? length (dots w)) && (3 <? length (default [] (last (dots w)))))
                 (split_words line 0 true true false) in
  fold_left (fun new_line val =>
    let full_path := val ++ u " " ++ ujoin (u ".") (last_words 2 (dots val))
                       ++ u " " ++ ujoin (u ".") (last_words 1 (dots val)) ++ u " " in
    re_sub (method_pattern val) (const full_path) new_line) (pysorted method_leb found) line.
Definition enrich_text_with_method_and_classes (text : ustr) : ustr := unlines (enrich_line <$> lines text).

Definition SPLIT_WORDS_PATTERN : pattern := Eval vm_compute in compile "([A-Z][^A-Z]+)".
Definition camel_parts (w : ustr) : list ustr :=
  List.filter (fun s => negb (bool_decide (s = []))) (omap (fun o => ustrip <$> o) (re_split SPLIT_WORDS_PATTERN w)).
Definition spaced_parts (s : ustr) : list ustr :=
  List.filter (fun s => negb (bool_decide (s = []))) (ustrip <$> usplit 32%N s).

Definition preprocess_test_item_name (text : ustr) : ustr :=
  let result := ureplace (u "_") (u " ") (ureplace (u "-") (u " ") text) in
  ujoin (u " ") (split_words result 0 false true false ≫= (fun w =>
    if existsb is_dot w
    then spaced_parts (enrich_text_with_method_and_classes w) ++ camel_parts (default [] (last (dots w)))
    else camel_parts w)).

(** [re.search(r"\b[^\s()/\\:]+(?:Test|Step)s?\.", residual)], again and again. *)
Definition METHOD_HEAD : pattern := Eval vm_compute in compile "\b[^\s()/\\:]+(?:Test|Step)s?\.".
Definition METHOD_TAIL : pattern := Eval vm_compute in compile "^[^\s()/\\:]+".

Fixpoint test_method_loop (fuel : nat) (residual : ustr) : list ustr :=
  match fuel with
  | O => []
  | S f =>
      match scan METHOD_HEAD false [] residual with
      | None => []
      | Some (_, m, st) =>
          match scan METHOD_TAIL false [] (m_suf st) with
          | Some (_, m2, st2) => (g0 m ++ g0 m2) :: test_method_loop f (m_suf st2)
          | None => g0 m :: test_method_loop f (m_suf st)
          end
      end
  end.

(** [re.findall] with one group gives the matched strings, of which the code takes
    the first and the second character. *)
Definition SPEC_FILE : pattern := Eval vm_compute in compile "(\b[^\s()/\\:]+\.(?:spec|cy)\.[jt]s\b)".
Definition spec_parts (m : ustr) : list ustr :=
  List.filter (fun s => negb (bool_decide (s = []))) ((fun c => ustrip [c]) <$> take 2 m).

(** The set, as the list of its elements in order of insertion. *)
Definition find_test_methods_in_text (text : ustr) : list ustr :=
  let test_methods := test_method_loop (S (length text)) text ++ (re_findall SPEC_FILE text ≫= spec_parts) in
  List.filter (fun m => bool_decide (get_found_exceptions m false = [])) (get_unique_strings test_methods).

(** Quoted parameters of a message. *)
Definition QUOTED_PARAM : pattern := Eval vm_compute in
  compile ("(^|\W)('.*'|" +:+ DQ +:+ ".*" +:+ DQ +:+ ")(\W|$)").
Definition UNQUOTED : pattern := Eval vm_compute in compile ("[^'" +:+ DQ +:+ "]+").
Definition message_param (m : match_t) : option ustr := (fun f => ustrip (g0 f)) <$> re_search UNQUOTED (ustrip (gref 2 m)).
Definition extract_message_params (text : ustr) : list ustr :=
  get_unique_strings (omap (fun gm => message_param gm.2) (re_finditer QUOTED_PARAM text).1).

(** ** Volatile tokens *)

Definition HEXC : string := "[0-9a-fA-F]".
Definition UUID : string :=
  HEXC +:+ "{8}-?" +:+ HEXC +:+ "{4}-?" +:+ HEXC +:+ "{4}-?" +:+ HEXC +:+ "{4}-?" +:+ HEXC +:+ "{12}".
Definition TRUNCATED_UUID : string := HEXC +:+ "{16,48}|" +:+ HEXC +:+ "{10,48}\.\.\.".
Definition NAMED_UUID : string :=
  HEXC +:+ "{8}-" +:+ HEXC +:+ "{4}-" +:+ HEXC +:+ "{4}-" +:+ HEXC +:+ "{4}-(\w+)".
Definition UUID_TAG : ustr := Eval vm_compute in u "SPECIALUUID".
Definition UUID_PATTERN : pattern := Eval vm_compute in compile ("\b" +:+ UUID +:+ "\b").
Definition TRUNCATED_UUID_PATTERN : pattern := Eval vm_compute in compile ("\b" +:+ TRUNCATED_UUID +:+ "\b").
Definition NAMED_UUID_PATTERN : pattern := Eval vm_compute in compile ("\b" +:+ NAMED_UUID +:+ "\b").
Definition remove_guid_uuids_from_text (text : ustr) : ustr :=
  replace_patterns text
    [(UUID_PATTERN, const UUID_TAG); (TRUNCATED_UUID_PATTERN, const UUID_TAG);
     (NAMED_UUID_PATTERN, fun m => UUID_TAG ++ u " " ++ gref 1 m)].

Definition HEX_TAG : ustr := Eval vm_compute in u "SPECIALHEX".
Definition HEX_PATTERN : pattern := Eval vm_compute in compile ("\b0x" +:+ HEXC +:+ "{12}\b").
Definition remove_hex_from_text (text : ustr) : ustr := replace_patterns text [(HEX_PATTERN, const HEX_TAG)].

Definition replace_tabs_for_newlines (message : ustr) : ustr := ureplace [9%N] [LF_] message.

(** The horizontal white space of the legacy analyzer. *)
Definition _HWS : list N :=
  [32; 9; 160; 5760; 6158; 8192; 8193; 8194; 8195; 8196; 8197; 8198; 8199; 8200; 8201; 8202; 8239; 8287; 12288]%N.
Definition HWS : re := Cls false (CChr <$> _HWS).
Definition plain (r : re) : pattern := mk_pattern (mk_flags false false) 0 r.
(** [[_HWS]*\r?\n] *)
Definition LINE_ENDING_PATTERN : pattern :=
  plain (Cat (Rep true 0 None HWS) (Cat (Rep true 0 (Some 1) (chr 13%N)) (chr 10%N))).
Definition unify_line_endings (message : ustr) : ustr := re_sub LINE_ENDING_PATTERN (const [LF_]) message.
(** [[_HWS]+] and [[_HWS]*\n[_HWS]*] *)
Definition SPACE_PATTERN : pattern := plain (Rep true 1 None HWS).
Definition NEWLINE_SPACE_PATTERN : pattern :=
  plain (Cat (Rep true 0 None HWS) (Cat (chr 10%N) (Rep true 0 None HWS))).
Definition unify_spaces (message : ustr) : ustr :=
  replace_patterns message [(SPACE_PATTERN, const (u " ")); (NEWLINE_SPACE_PATTERN, const [LF_])].

Definition URL_NOISE : pattern := Eval vm_compute in compile "[(){}#%]".
Definition fix_big_encoded_urls (message : ustr) : ustr :=
  let new_message := unquote message in
  if bool_decide (new_message = message) then message else re_sub URL_NOISE (const (u " ")) new_message.

Definition INNER_CLASS_EXTERNAL_PATTERN : pattern := Eval vm_compute in
  compile "\b((?:[a-zA-Z0-9_-]+/|\\)+)([a-zA-Z0-9_-]+)\$([a-zA-Z0-9_-]+\.class)\b".
Definition INNER_CLASS_INTERNAL_PATTERN : pattern := Eval vm_compute in
  compile "(?<=[.$])([a-zA-Z0-9_-]+)\$(?=[a-zA-Z0-9_-]+[.$(@])".
Definition GENERATED_LINE_PATTERN : pattern := Eval vm_compute in
  compile ("\s*(?:at\s*)?(?:[a-zA-Z0-9_-]+\.)+(?:[a-zA-Z0-9_-]+\$\$)+[0-9a-f]+\."
           +:+ "(?:[a-zA-Z0-9_-]+\$|\.)*[a-zA-Z0-9_-]+\(<generated>\).*").
Definition CLASS_NAME_WITH_MEMORY_REFERENCE_PATTERN : pattern := Eval vm_compute in
  compile "\b((?:[a-zA-Z0-9_-]+\.)+)([a-zA-Z0-9_-]+)@[0-9a-f]+\b".
Definition TRUNCATED_STACKTRACE_PATTERN : pattern := Eval vm_compute in compile "\s*\.\.\. \d+ more.*".
Definition STACKTRACE_PATTERNS : list (pattern * (match_t -> ustr)) :=
  [(GENERATED_LINE_PATTERN, const []);
   (INNER_CLASS_EXTERNAL_PATTERN, fun m => gref 1 m ++ gref 2 m ++ u "." ++ gref 3 m);
   (INNER_CLASS_INTERNAL_PATTERN, fun m => gref 1 m ++ u ".");
   (CLASS_NAME_WITH_MEMORY_REFERENCE_PATTERN, fun m => gref 1 m ++ gref 2 m);
   (TRUNCATED_STACKTRACE_PATTERN, const [])].
Definition remove_generated_parts (message : ustr) : ustr := replace_patterns message STACKTRACE_PATTERNS.

Definition clean_colon_stacking (text : ustr) : ustr := ureplace (u ":") (u " : ") text.
Definition clean_from_params (text : ustr) : ustr := clean_special_chars text.

(** ** URLs and paths *)

Definition URL_PATTERN : pattern := Eval vm_compute in compile_i "\b[\w+]+:/\S+\b".
Definition extract_urls (text : ustr) : list ustr := ustrip <$> re_findall URL_PATTERN text.

Definition boundary : string := "(?:^|\s|" +:+ DQ +:+ "|'|`)".
Definition PATH_REGEX : pattern := Eval vm_compute in
  compile (boundary +:+ "[A-Za-z]:\\(?:[^:\\\r\n]+\\)*[^\s\\:\r\n]+|"
           +:+ boundary +:+ "/(?:(?:\\.|[^/\s\r\n])+/)*(?:\\.|[^/\s\r\n])+").
Definition extract_paths (text_without_urls : ustr) : list ustr :=
  (fold_left (line_seen (fun p => negb (bool_decide (p = []))) (fun p => p))
     (ustrip <$> re_findall PATH_REGEX text_without_urls) ([], [])).2.

Definition URL_TAG : ustr := Eval vm_compute in u "SPECIALURL".
Definition longer (a b : ustr) : bool := length b <=? length a.
Definition remove_url (result url : ustr) : ustr :=
  let result := ureplace url URL_TAG result in
  match quote url with
  | Some encoded => if bool_decide (encoded = url) then result else ureplace encoded URL_TAG result
  | None => result
  end.
Definition remove_urls (message : ustr) (urls_list : list ustr) : ustr :=
  match message with [] => [] | _ => fold_left remove_url (pysorted longer urls_list) message end.
Definition replace_text_pieces (text : ustr) (text_pieces : list ustr) : ustr :=
  fold_left (fun t w => ureplace w (u " ") t) (pysorted longer text_pieces) text.

(** ** Tokens, separators, web-driver noise *)

Definition JSON_ACCESS_TOKEN : pattern := Eval vm_compute in
  compile_i ("(" +:+ DQ +:+ "(?:access|refresh|biometric|jwt)_?token" +:+ DQ +:+ "\s*:\s*" +:+ DQ +:+ ")[^" +:+ DQ +:+ "]+").
Definition HTTP_ACCESS_TOKEN : pattern := Eval vm_compute in
  compile_i ("(Authorization\s*:\s*(?:Bearer|Basic|Digest|HOBA|Mutual|Negotiate|NTLM|VAPID|SCRAM"
             +:+ "|AWS4-HMAC-SHA256)) .*").
Definition TOKEN_TAG : ustr := Eval vm_compute in u "SPECIALTOKEN".
Definition remove_access_tokens (text : ustr) : ustr :=
  replace_patterns text ((fun p => (p, fun m => gref 1 m ++ TOKEN_TAG)) <$> [JSON_ACCESS_TOKEN; HTTP_ACCESS_TOKEN]).

Definition MARKDOWN_MODE_PATTERN : pattern := Eval vm_compute in compile "!!!MARKDOWN_MODE!!!\s*".
Definition remove_markdown_mode (text : ustr) : ustr := replace_patterns text [(MARKDOWN_MODE_PATTERN, const [])].

Definition TEXT_SEPARATORS_PATTERN : string := "(?:-{3,}=+|={3,}-+|`{3}|-{3,}|={3,}|_{3,})".
Definition TEXTDELIMITER : ustr := Eval vm_compute in u "TEXTDELIMITER".
Definition sep_pattern (pre post : string) : pattern := compile (pre +:+ TEXT_SEPARATORS_PATTERN +:+ post).
Definition SEPARATOR_PATTERNS : list pattern := Eval vm_compute in
  [sep_pattern "\n" "\n"; sep_pattern "^" "\n"; sep_pattern "\s*" "\n"; sep_pattern "\n" "\s+";
   sep_pattern "\s+" "\s+"; sep_pattern "^" "\s*"; sep_pattern "\s+" "$"; sep_pattern "" "$"].
Definition SEPARATOR_REPLACEMENTS : list ustr :=
  [u " " ++ TEXTDELIMITER ++ [LF_]; u " " ++ TEXTDELIMITER ++ [LF_]; u " " ++ TEXTDELIMITER ++ [LF_];
   [LF_] ++ TEXTDELIMITER ++ u " "; u " " ++ TEXTDELIMITER ++ u " "; TEXTDELIMITER ++ u " ";
   u " " ++ TEXTDELIMITER; u " " ++ TEXTDELIMITER].
Definition replace_code_separators (text : ustr) : ustr :=
  replace_patterns text (zip SEPARATOR_PATTERNS (const <$> SEPARATOR_REPLACEMENTS)).

Definition WEBDRIVER_PATTERNS : list pattern := Eval vm_compute in
  [compile "(?:\s*-*>\s*)?Webdriver screenshot captured: [^/\0\n.]+\.\w+";
   compile "\s*Screenshot: file:/(?:[^/\0\n]+/)*[^/\0\n]+";
   compile "\s*Page source: file:/(?:[^/\0\n]+/)*[^/\0\n]+";
   compile "\s*Build info: version: '[^']+', revision: '[^']+'";
   compile "\s*Driver info: [\w.]+";
   compile "\s*System info: (?:[\w.]+: '[^']+', )+[\w.]+: '[^']+'";
   compile "\s*Capabilities {\w+: [^\n]+"].
Definition remove_webdriver_auxiliary_info (text : ustr) : ustr := remove_patterns text WEBDRIVER_PATTERNS.

(** ** Near-duplicate texts *)

Definition WORD_CHARS : pattern := Eval vm_compute in
  compile ("[.:/\\{}()\[\]\" +:+ DQ +:+ "',\-+=!@#$%^&*<>?|~`;_]").
Definition CAMEL_CASE_PATTERN : pattern := Eval vm_compute in compile "([a-z])([A-Z])".
Definition UPPER_LOWER_CASE_PATTERN : pattern := Eval vm_compute in compile "([A-Z])([A-Z][a-z])".
Definition SPACES : pattern := Eval vm_compute in compile "\s+".

Definition preprocess_text_for_similarity (text : ustr) : list ustr :=
  let result := re_sub WORD_CHARS (const (u " ")) text in
  let result := re_sub CAMEL_CASE_PATTERN (fun m => gref 1 m ++ u " " ++ gref 2 m) result in
  let result := re_sub UPPER_LOWER_CASE_PATTERN (fun m => gref 1 m ++ u " " ++ gref 2 m) result in
  let result := ustrip (re_sub SPACES (const (u " ")) (ulower result)) in
  List.filter (fun w => negb (bool_decide (w ∈ STOPWORDS_ALL))) (uwords result).

(** Each text is scored at once, or left to the vectorizer. *)
Definition quick_score (base_text processed_base other processed_other : ustr) : SimilarityResult.t + ustr :=
  let base_valid := negb (blank processed_base) in
  let other_valid := negb (blank processed_other) in
  if negb base_valid && negb other_valid then
    let both := blank base_text && blank other in
    inl (SimilarityResult.mk (if both then f0 else if bool_decide (base_text = other) then f1 else f0) both)
  else if negb base_valid || negb other_valid then inl (SimilarityResult.mk f0 false)
  else if bool_decide (processed_base = processed_other) then inl (SimilarityResult.mk f1 false)
  else inr processed_other.

(** The scores with the vectorizer's filled in, in order. *)
Fixpoint fill_scores (scores : list (SimilarityResult.t + ustr)) (sim : nat -> pyfloat) (i : nat) : list SimilarityResult.t :=
  match scores with
  | [] => []
  | inl r :: scores' => r :: fill_scores scores' sim i
  | inr _ :: scores' => SimilarityResult.mk (sim i) false :: fill_scores scores' sim (S i)
  end.

Definition calculate_text_similarity `{!Tfidf} (base_text : option ustr) (other_texts : list ustr) : result (list SimilarityResult.t) :=
  match base_text with
  | None => Ok []
  | Some base =>
      let words t := ujoin (u " ") (preprocess_text_for_similarity t) in
      let scores := (fun other => quick_score base (words base) other (words other)) <$> other_texts in
      match omap (fun s => match s with inr t => Some t | inl _ => None end) scores with
      | [] => Ok (fill_scores scores (fun _ => f0) 0)
      | valid_texts =>
          match tfidf_cosine false (words base :: valid_texts) with
          | None => Raise ValueError
          | Some sim => Ok (fill_scores scores (sim 0) 1)
          end
      end
  end.

(** The last index of the texts after [i] that is close to it, else [i]. *)
Definition last_similar (threshold : pyfloat) (sim : nat -> nat -> pyfloat) (n i : nat) : nat :=
  fold_left (fun use j => if (threshold <=? sim i j)%F then j else use) (seq (S i) (n - S i)) i.

Definition unique_step (threshold : pyfloat) (sim : nat -> nat -> pyfloat) (n : nat) (result : list nat) (i : nat) : list nat :=
  if bool_decide (i ∈ result) then result
  else let k := last_similar threshold sim n i in
       if bool_decide (k ∈ result) then result else result ++ [k].

Definition find_last_unique_texts `{!Tfidf} (threshold : pyfloat) (texts : list ustr) : result (list nat) :=
  match texts with
  | [] => Raise ValueError
  | _ =>
      match tfidf_cosine true texts with
      | None => Raise ValueError
      | Some sim =>
          let n := length texts in
          let found := fold_left (unique_step threshold sim n) (seq 0 (n - 1)) [] in
          let found := if bool_decide (n - 1 ∈ found) then found else found ++ [n - 1] in
          Ok (pysorted Nat.leb found)
      end
  end.
End Text.

(** ** The stack-trace detector *)

(** The extensions of the pattern are alternatives of the whole of it, so a frame
    of a package that starts with "c", "h", "py", ... is taken for a message: the
    one of "org." is a stack-trace line, the one of "com." is not. *)
Lemma com_frame_is_no_frame :
  let U := ascii_unicode in
  is_line_from_stacktrace (u "org.acme.App.run(App.java:12)") = true
  /\ is_starting_message_pattern (u "com.acme.App.run(App.java:12)") = true
  /\ is_line_from_stacktrace (u "com.acme.App.run(App.java:12)") = false.
Proof. vm_compute. split_and!; reflexivity. Qed.

(** Of a spec file's name only the first two characters are kept. *)
Lemma spec_name_lost :
  let U := ascii_unicode in find_test_methods_in_text (u "at login.spec.ts") = [u "l"; u "o"].
Proof. vm_compute. reflexivity. Qed.

(** ** The near-duplicate drop *)

Section LastUnique.
Context `{!Tfidf} (threshold : pyfloat) (sim : nat -> nat -> pyfloat) (n : nat).

Definition close (i j : nat) : Prop := i < j < n /\ (threshold <=? sim i j)%F = true.

Lemma last_similar_spec i : last_similar threshold sim n i = i \/ close i (last_similar threshold sim n i).
Proof.
  unfold last_similar. assert (Forall (fun j => i < j < n) (seq (S i) (n - S i))) as Hl
    by (apply Forall_seq; lia).
  induction (seq (S i) (n - S i)) as [|j l IH] using rev_ind; [by left|].
  apply Forall_app in Hl as [Hl Hj]. apply Forall_cons in Hj as [Hj _]. rewrite fold_left_app. simpl.
  destruct (threshold <=? sim i j)%F eqn:E; [right; by split|by apply IH].
Qed.

Definition represented (kept : list nat) (i : nat) : Prop := i ∈ kept \/ exists j, j ∈ kept /\ close i j.

Lemma represented_app kept ks i : represented kept i -> represented (kept ++ ks) i.
Proof. intros [Hi|(j & Hj & Hc)]; [left|right; exists j; split; [|done]]; apply elem_of_app; by left. Qed.

Lemma unique_step_spec kept i : i < n -> NoDup kept -> Forall (fun k => k < n) kept ->
  let kept' := unique_step threshold sim n kept i in
  NoDup kept' /\ Forall (fun k => k < n) kept' /\ represented kept' i /\ (exists ks, kept' = kept ++ ks).
Proof.
  intros Hi Hnd Hlt. cbv zeta. unfold unique_step.
  destruct (bool_decide (i ∈ kept)) eqn:E; bprop; [split_and!; [done..|by left|by exists []; rewrite app_nil_r]|].
  set (k := last_similar threshold sim n i). assert (k = i \/ close i k) as Hk by apply last_similar_spec.
  assert (k < n) as Hkn by (destruct Hk as [->|[? _]]; lia).
  destruct (bool_decide (k ∈ kept)) eqn:E'; bprop.
  - split_and!; [done..| |by exists []; rewrite app_nil_r]. right. exists k. split; [done|]. by destruct Hk as [->|].
  - split_and!; [|by apply Forall_app; split; [|constructor]| |by exists [k]].
    + apply NoDup_app. split_and!; [done| |apply NoDup_singleton]. by intros x Hx ->%list_elem_of_singleton.
    + destruct Hk as [->|Hk]; [left|right; exists k; split; [|done]]; apply elem_of_app; right; by left.
Qed.

Lemma unique_loop_spec ids kept : Forall (fun i => i < n) ids -> NoDup kept -> Forall (fun k => k < n) kept ->
  let kept' := fold_left (unique_step threshold sim n) ids kept in
  NoDup kept' /\ Forall (fun k => k < n) kept' /\ Forall (represented kept') ids /\ (exists ks, kept' = kept ++ ks).
Proof.
  cbv zeta. intros His. revert kept. induction His as [|i ids Hi His IH]; intros kept Hnd Hlt; simpl.
  - split_and!; [done..|constructor|by exists []; rewrite app_nil_r].
  - destruct (unique_step_spec kept i Hi Hnd Hlt) as (H1 & H2 & H3 & ks & H4).
    destruct (IH _ H1 H2) as (H5 & H6 & H7 & ks' & H8). split_and!; [done..| |].
    + constructor; [|done]. rewrite H8. by apply represented_app.
    + exists (ks ++ ks'). by rewrite H8, H4, (assoc_L (++)).
Qed.
End LastUnique.

(** The near-duplicate drop keeps the last text, keeps the order, and loses no
    text without a later one at least as similar as the threshold. *)
Lemma find_last_unique_texts_spec `{!Tfidf} threshold texts keep : find_last_unique_texts threshold texts = Ok keep ->
  exists sim, tfidf_cosine true texts = Some sim
  /\ StronglySorted lt keep /\ Forall (fun k => k < length texts) keep /\ last keep = Some (length texts - 1)
  /\ forall i, i < length texts -> represented threshold sim (length texts) keep i.
Proof.
  unfold find_last_unique_texts. destruct texts as [|t ts] eqn:Ets; [done|]. rewrite <- Ets.
  destruct (tfidf_cosine true texts) as [sim|] eqn:Esim; [|done]. intros [= <-]. exists sim. split; [done|].
  set (n := length texts). assert (0 < n) as Hn by (unfold n; subst; simpl; lia).
  destruct (unique_loop_spec threshold sim n (seq 0 (n - 1)) []) as (Hnd & Hlt & Hrep & _);
    [apply Forall_seq; lia|apply NoDup_nil_2|done|].
  set (found := fold_left _ _ _) in *.
  set (all := if bool_decide (n - 1 ∈ found) then found else found ++ [n - 1]).
  assert (NoDup all /\ Forall (fun k => k < n) all /\ n - 1 ∈ all /\ forall k, k ∈ found -> k ∈ all) as (A1 & A2 & A3 & A4).
  { unfold all. destruct (bool_decide (n - 1 ∈ found)) eqn:E; bprop; [done|]. split_and!.
    - apply NoDup_app. split_and!; [done| |apply NoDup_singleton]. by intros x Hx ->%list_elem_of_singleton.
    - apply Forall_app. split; [done|]. constructor; [lia|done].
    - apply elem_of_app. right. by left.
    - intros k Hk. apply elem_of_app. by left. }
  assert (StronglySorted lt (pysorted Nat.leb all)) as Hs.
  { pose proof (pysorted_sorted Nat.leb) as Hle.
    assert (StronglySorted (fun a b => Nat.leb a b = true) (pysorted Nat.leb all)) as Hsl
      by (apply Hle; [intros x y; rewrite Nat.leb_gt, Nat.leb_le|intros x y z; rewrite !Nat.leb_le]; lia).
    assert (NoDup (pysorted Nat.leb all)) as Hnd' by (by rewrite pysorted_perm).
    clear -Hsl Hnd'. induction Hsl as [|a l Hl IH Ha]; [constructor|]. apply NoDup_cons in Hnd' as [Hna Hnd'].
    constructor; [by apply IH|]. apply Forall_forall. intros x Hx. apply (proj1 (Forall_forall _ _) Ha) in Hx as Hax.
    apply Nat.leb_le in Hax. assert (a <> x) by (by intros ->). lia. }
  assert (forall x, x ∈ pysorted Nat.leb all <-> x ∈ all) as Hin by (intros; apply elem_of_pysorted).
  split_and!.
  - done.
  - apply Forall_forall. intros x Hx%Hin. by apply (proj1 (Forall_forall _ _) A2).
  - destruct (last (pysorted Nat.leb all)) as [m|] eqn:El.
    + f_equal. apply last_Some in El as [l' El]. pose proof (proj2 (Hin _) A3) as Hm. rewrite El in Hm, Hs.
      assert (m < n) by (apply (proj1 (Forall_forall _ _) A2), Hin; rewrite El; apply elem_of_app; right; by left).
      apply elem_of_app in Hm as [Hm|Hm%list_elem_of_singleton]; [|lia].
      pose proof (StronglySorted_app_1_elem_of _ _ _ _ _ Hs Hm (list_elem_of_here _ _)). lia.
    + apply last_None in El. pose proof (proj2 (Hin _) A3) as Hm. rewrite El in Hm. by apply elem_of_nil in Hm.
  - intros i Hi. destruct (decide (i = n - 1)) as [->|Hne]; [left; by apply Hin|].
    assert (represented threshold sim n found i) as Hr
      by (apply (proj1 (Forall_forall _ _) Hrep), elem_of_seq; lia).
    destruct Hr as [Hf|(j & Hj & Hc)]; [left|right; exists j; split; [|done]]; by apply Hin, A4.
Qed.

(** ** First occurrences *)

Section Seen.
Context (keep : ustr -> bool) (key : ustr -> ustr).

Definition first_seen (ls : list ustr) : list ustr := (fold_left (line_seen keep key) ls ([], [])).2.

(** What the loop has kept: in order, one per key, and every key that passed. *)
Record seen_inv (ls : list ustr) (st : list ustr * list ustr) : Prop := {
  seen_sublist : st.2 `sublist_of` ls;
  seen_keys : forall k, k ∈ st.1 <-> k ∈ key <$> st.2;
  seen_nodup : NoDup (key <$> st.2);
  seen_keep : Forall (fun l => keep l = true) st.2;
  seen_all : forall l, l ∈ ls -> keep l = true -> key l ∈ key <$> st.2
}.

Lemma line_seen_inv ls st l : seen_inv ls st -> seen_inv (ls ++ [l]) (line_seen keep key st l).
Proof.
  intros [H1 H2 H3 H4 H5]. unfold line_seen. destruct (keep l) eqn:Ek; simpl.
  - destruct (bool_decide (key l ∈ st.1)) eqn:Es; bprop; simpl.
    + constructor; [by apply sublist_inserts_r|done..|].
      intros x [Hx| ->%list_elem_of_singleton]%elem_of_app Hkx; [by apply H5|by apply H2].
    + constructor; simpl; rewrite ?fmap_app; simpl.
      * by apply sublist_app.
      * intros k. rewrite elem_of_cons, elem_of_app, H2, list_elem_of_singleton. tauto.
      * apply NoDup_app. split_and!; [done| |apply NoDup_singleton]. intros k Hk ->%list_elem_of_singleton. by apply Es, H2.
      * by apply Forall_app; split; [|constructor].
      * intros x [Hx| ->%list_elem_of_singleton]%elem_of_app Hkx; apply elem_of_app; [left; by apply H5|right; by left].
  - constructor; [by apply sublist_inserts_r|done..|].
    intros x [Hx| ->%list_elem_of_singleton]%elem_of_app Hkx; [by apply H5|congruence].
Qed.

Lemma first_seen_inv ls : seen_inv ls (fold_left (line_seen keep key) ls ([], [])).
Proof.
  induction ls as [|l ls IH] using rev_ind; [|rewrite fold_left_app; by apply line_seen_inv].
  constructor; simpl; [done..|apply NoDup_nil_2|constructor|]. by intros ? ?%elem_of_nil.
Qed.

Lemma first_seen_sublist ls : first_seen ls `sublist_of` ls.
Proof. apply first_seen_inv. Qed.
Lemma first_seen_nodup ls : NoDup (key <$> first_seen ls).
Proof. apply first_seen_inv. Qed.
Lemma first_seen_keep ls : Forall (fun l => keep l = true) (first_seen ls).
Proof. apply first_seen_inv. Qed.
Lemma first_seen_all ls l : l ∈ ls -> keep l = true -> key l ∈ key <$> first_seen ls.
Proof. apply first_seen_inv. Qed.

(** A list without repetitions that passes is kept as it is. *)
Lemma first_seen_id ls : NoDup (key <$> ls) -> Forall (fun l => keep l = true) ls -> first_seen ls = ls.
Proof.
  intros Hnd Hk. induction ls as [|l ls IH] using rev_ind; [done|].
  rewrite fmap_app in Hnd. apply NoDup_app in Hnd as (Hnd & Hdis & _). apply Forall_app in Hk as [Hk Hl].
  unfold first_seen in *. rewrite fold_left_app. simpl. pose proof (seen_keys _ _ (first_seen_inv ls)) as Hs.
  unfold line_seen at 1. apply Forall_cons in Hl as [-> _]. specialize (IH Hnd Hk). rewrite IH in Hs. rewrite IH.
  rewrite bool_decide_eq_false_2; [done|]. intros Hin%Hs. by apply (Hdis _ Hin); left.
Qed.
End Seen.

Section UniqueLines.
Context `{!Unicode}.

Lemma sublist_Forall {A} (P : A -> Prop) (l k : list A) : l `sublist_of` k -> Forall P k -> Forall P l.
Proof. induction 1; intros Hk; [done|apply Forall_cons in Hk as [? ?]; constructor; auto|apply Forall_cons in Hk as [? ?]; auto]. Qed.

Lemma lines_unlines ls : ls <> [] -> Forall (fun l => LF_ ∉ l) ls -> lines (unlines ls) = ls.
Proof. apply usplit_ujoin. Qed.

Lemma lines_free s : Forall (fun l => LF_ ∉ l) (lines s).
Proof. apply Forall_forall. intros l. apply usplit_free. Qed.

(** The lines that are left are lines of the message in their order, no two equal
    up to surrounding white space, and doing it again changes nothing. *)
Lemma leave_only_unique_lines_spec message : leave_only_unique_lines message <> [] ->
  lines (leave_only_unique_lines message) `sublist_of` lines message
  /\ NoDup (ustrip <$> lines (leave_only_unique_lines message))
  /\ leave_only_unique_lines (leave_only_unique_lines message) = leave_only_unique_lines message.
Proof.
  unfold leave_only_unique_lines at 1 2 3 5 6. set (out := (fold_left _ (lines message) _).2).
  change out with (first_seen (fun l => negb (documentation_line l)) ustrip (lines message)).
  intros Hne. pose proof (first_seen_sublist (fun l => negb (documentation_line l)) ustrip (lines message)) as Hsub.
  pose proof (first_seen_nodup (fun l => negb (documentation_line l)) ustrip (lines message)) as Hnd.
  pose proof (first_seen_keep (fun l => negb (documentation_line l)) ustrip (lines message)) as Hk.
  set (o := first_seen _ _ (lines message)) in *.
  assert (o <> []) as Ho by (intros E; by rewrite E in Hne).
  rewrite (lines_unlines o Ho (sublist_Forall _ _ _ Hsub (lines_free _))). split_and!; [done..|].
  unfold leave_only_unique_lines. rewrite (lines_unlines o Ho (sublist_Forall _ _ _ Hsub (lines_free _))).
  f_equal. by apply (first_seen_id (fun l => negb (documentation_line l)) ustrip).
Qed.
End UniqueLines.
