(* ===== verification/Hashing.v ===== *)
(** * 64-bit identity hashes

    [ml/hashing.py]: the fold of xxHash's unsigned 64-bit digest into the signed
    range of a [bigint] column.  The digest itself is the xxhash library's. *)

From S2P Require Import Prelude.
From Stdlib Require Import ZArith Lia.

#[local] Open Scope Z_scope.

(** [xxhash.xxh3_64_intdigest] of the UTF-8 bytes of a text. *)
Class XXHash := {
  xxh3_64_intdigest : string -> Z;
  xxh3_64_range : forall s, 0 <= xxh3_64_intdigest s < 2 ^ 64
}.

Definition _UINT64_SPAN : Z := Z.shiftl 1 64.
Definition _INT64_MAX : Z := Z.shiftl 1 63 - 1.

Definition to_signed64 (value : Z) : Z :=
  let value := Z.land value (_UINT64_SPAN - 1) in
  if _INT64_MAX <? value then value - _UINT64_SPAN else value.

Section Hash.
Context `{!XXHash}.
Definition xxh3_64_unsigned (text : string) : Z := xxh3_64_intdigest text.
Definition xxh3_64_signed (text : string) : Z := to_signed64 (xxh3_64_unsigned text).
End Hash.

Lemma to_signed64_mod v : to_signed64 v =
  (let m := v mod 2 ^ 64 in if 2 ^ 63 - 1 <? m then m - 2 ^ 64 else m).
Proof.
  unfold to_signed64, _UINT64_SPAN, _INT64_MAX.
  change (Z.shiftl 1 64 - 1) with (Z.ones 64). by rewrite Z.land_ones by lia.
Qed.

(** The fold keeps an identity: it lands in the signed 64-bit range, agrees
    with its argument modulo 2^64, is injective on unsigned 64-bit digests, and
    is the identity on values already in range - so two digests collide as
    bigints exactly when they collided as unsigned integers. *)
Theorem to_signed64_faithful (v : Z) :
  - 2 ^ 63 <= to_signed64 v < 2 ^ 63
  /\ to_signed64 v mod 2 ^ 64 = v mod 2 ^ 64
  /\ (- 2 ^ 63 <= v < 2 ^ 63 -> to_signed64 v = v)
  /\ (forall w, 0 <= v < 2 ^ 64 -> 0 <= w < 2 ^ 64 -> to_signed64 v = to_signed64 w -> v = w).
Proof.
  assert (forall x, to_signed64 x mod 2 ^ 64 = x mod 2 ^ 64) as Hmod.
  { intros x. rewrite to_signed64_mod. cbv zeta. destruct (_ <? _).
    - rewrite <- (Z.mod_add _ 1) by lia. rewrite Z.mul_1_l, Z.sub_add. apply Z.mod_mod. lia.
    - apply Z.mod_mod. lia. }
  split_and!.
  - rewrite to_signed64_mod. cbv zeta. pose proof (Z.mod_pos_bound v (2 ^ 64)).
    destruct (Z.ltb_spec (2 ^ 63 - 1) (v mod 2 ^ 64)); lia.
  - rewrite to_signed64_mod. cbv zeta. pose proof (Z.mod_pos_bound v (2 ^ 64)).
    destruct (Z.ltb_spec (2 ^ 63 - 1) (v mod 2 ^ 64)); lia.
  - apply Hmod.
  - intros Hv. rewrite to_signed64_mod. cbv zeta.
    destruct (Z.le_gt_cases 0 v).
    + rewrite Z.mod_small by lia. destruct (Z.ltb_spec (2 ^ 63 - 1) v); lia.
    + replace (v mod 2 ^ 64) with (v + 2 ^ 64) by
        (rewrite <- (Z.mod_add v 1), Z.mul_1_l by lia; symmetry; apply Z.mod_small; lia).
      destruct (Z.ltb_spec (2 ^ 63 - 1) (v + 2 ^ 64)); lia.
  - intros w Hv Hw Heq. rewrite <- (Z.mod_small v (2 ^ 64)), <- (Z.mod_small w (2 ^ 64)) by lia.
    by rewrite <- Hmod, Heq, Hmod.
Qed.
