(* ===== verification/Drain.v ===== *)
(** * Template mining

    [ml/drain.py]: the masking pipeline, the per-project miner with its identity
    hashes, and the load/save protocol against the state store of
    [db/repositories/drain3_state.py], modelled as its two tables.  The Drain3
    miner itself is a parameter. *)

From S2P Require Import Prelude PyFloat PyStr Regex RegexTheory PyText UrlCodec TextProc Hashing.
From Stdlib Require Import Ascii NArith ZArith Lia.

#[local] Open Scope string_scope.
#[local] Open Scope list_scope.
#[local] Open Scope Z_scope.

(** ** Masking *)

Definition MASKING_RULES : list (string * string) := [
    ("URL", "https?://[^\s\" +:+ DQ +:+ "'<>]+");
    ("IP", "\b(?:\d{1,3}\.){3}\d{1,3}(?::\d{1,5})?\b");
    ("UUID", "\b[0-9a-fA-F]{8}-[0-9a-fA-F]{4}-[0-9a-fA-F]{4}-[0-9a-fA-F]{4}-[0-9a-fA-F]{12}\b");
    ("HEX", "\b0[xX][0-9a-fA-F]+\b|\b[0-9a-fA-F]{16,}\b");
    ("PATH", "(?:[A-Za-z]:)?(?:[\\/][\w.\-]+){2,}");
    ("NUM", "(?<![\w.])[-+]?\d+(?:\.\d+)?(?![\w.])")
  ].
Definition _MASK_PIPELINE : list (pattern * ustr) := Eval vm_compute in
  (fun r => (compile r.2, u ("<" +:+ r.1 +:+ ">"))) <$> MASKING_RULES.

Example masking_rules_parse : forallb (fun r => well_formed r.2) MASKING_RULES = true.
Proof. vm_compute. reflexivity. Qed.

Definition DEFAULT_SIM_TH : pyfloat := Eval vm_compute in dec 4 10.
Definition DEFAULT_DEPTH : Z := 4.
Definition DEFAULT_MAX_CHILDREN : Z := 100.
Definition DEFAULT_MAX_CLUSTERS : Z := 4096.
Definition DEFAULT_EXTRA_DELIMITERS : list string := ["_"; "|"].
Definition DEFAULT_MAX_LINES : Z := 40.

Section Mask.
Context `{!Unicode}.
Definition mask_text (text : ustr) : ustr :=
  fold_left (fun result pr => re_sub pr.1 (const pr.2) result) _MASK_PIPELINE text.
End Mask.

(** ** Configuration *)

(** The fields of [TemplateMinerConfig] the code sets. *)
Module MinerConfig.
Record t := mk {
  sim_th : pyfloat; depth : Z; max_children : Z; max_clusters : Z; extra_delimiters : list string;
  snapshot_interval_minutes : Z; snapshot_compress_state : bool;
  masking_instructions : list (string * string)     (* pattern, mask *)
}.
End MinerConfig.

Definition build_config (sim_th : pyfloat) (depth max_children max_clusters : Z) (extra_delimiters : list string) : MinerConfig.t :=
  {| MinerConfig.sim_th := sim_th; MinerConfig.depth := depth; MinerConfig.max_children := max_children;
     MinerConfig.max_clusters := max_clusters; MinerConfig.extra_delimiters := extra_delimiters;
     MinerConfig.snapshot_interval_minutes := 1; MinerConfig.snapshot_compress_state := false;
     MinerConfig.masking_instructions := (fun r => (r.2, r.1)) <$> MASKING_RULES |}.
Definition default_config : MinerConfig.t :=
  build_config DEFAULT_SIM_TH DEFAULT_DEPTH DEFAULT_MAX_CHILDREN DEFAULT_MAX_CLUSTERS DEFAULT_EXTRA_DELIMITERS.

Module ConfigSummary.
Record t := mk { sim_th : pyfloat; depth : Z; max_children : Z; max_clusters : Z; extra_delimiters : list string; masking : list string }.
End ConfigSummary.

Definition config_summary (config : MinerConfig.t) : ConfigSummary.t :=
  {| ConfigSummary.sim_th := MinerConfig.sim_th config; ConfigSummary.depth := MinerConfig.depth config;
     ConfigSummary.max_children := MinerConfig.max_children config; ConfigSummary.max_clusters := MinerConfig.max_clusters config;
     ConfigSummary.extra_delimiters := MinerConfig.extra_delimiters config; ConfigSummary.masking := fst <$> MASKING_RULES |}.

(** ** The miner *)

Definition blob : Type := list N.

(** [drain3.TemplateMiner] over its in-memory persistence handler: feeding a line
    gives the cluster's id and mined template, matching gives the template of the
    cluster a line falls in without touching the tree, [clusters] are the live
    templates with their sizes; [restore] is [load_state], which may fail. *)
Class TemplateMiner := {
  miner : Type;
  new_miner : MinerConfig.t -> miner;
  add_log_message : miner -> ustr -> miner * (Z * ustr);
  match_line : miner -> ustr -> option ustr;
  clusters : miner -> list (ustr * Z);
  save_state : miner -> blob;
  restore : miner -> blob -> option miner
}.

(** ** Identity hashes of text *)

Definition UnicodeEncodeError : pyexn := OtherError "UnicodeEncodeError".

Definition string_of_bytes (bs : list N) : string := String.string_of_list_ascii (ascii_of_N <$> bs).

Definition hexdigit (d : Z) : N := Z.to_N (if d <? 10 then d + 48 else d + 87).

(** The [n] low hexadecimal digits of a number, most significant first. *)
Fixpoint hexdigits (n : nat) (v : Z) : ustr :=
  match n with O => [] | S n' => hexdigits n' (v / 16) ++ [hexdigit (v mod 16)] end.
(** [format(v, "016x")] of an unsigned 64-bit number. *)
Definition hex16 (v : Z) : ustr := hexdigits 16 v.

Definition hex_of_digit (c : N) : option Z :=
  if adigit c then Some (Z.of_N c - 48)
  else if (97 <=? Z.of_N c) && (Z.of_N c <=? 102) then Some (Z.of_N c - 87)
  else if (65 <=? Z.of_N c) && (Z.of_N c <=? 70) then Some (Z.of_N c - 55) else None.

(** [int(s, 16)] of a string of hexadecimal digits. *)
Definition int_hex (s : ustr) : result Z :=
  match s with
  | [] => Raise ValueError
  | _ => fold_left (fun acc c => match acc, hex_of_digit c with Ok a, Some d => Ok (16 * a + d) | _, _ => Raise ValueError end) s (Ok 0)
  end.

Section Identity.
Context `{!XXHash}.

Definition xxh3_64_unsigned_text (text : ustr) : result Z :=
  match utf8_encode text with
  | Some bs => Ok (xxh3_64_unsigned (string_of_bytes bs))
  | None => Raise UnicodeEncodeError
  end.
Definition xxh3_64_signed_text (text : ustr) : result Z := to_signed64 <$> xxh3_64_unsigned_text text.
Definition _template_hash_hex (template : ustr) : result ustr := hex16 <$> xxh3_64_unsigned_text template.
End Identity.

Definition _template_id (hash_hex : ustr) : result Z := to_signed64 <$> int_hex hash_hex.

Module TemplateHit.
Record t := mk { cluster_id : Z; template : ustr; token_count : nat; hash_signed : Z; hash_hex : ustr }.
End TemplateHit.

Module MirrorRow.
Record t := mk { template_id : Z; template_hash : Z; pattern : ustr; token_count : nat; example : option ustr; match_count : Z }.
End MirrorRow.

(** ** The manager *)

Module DrainManager.
Record t `{!TemplateMiner} := mk { config : MinerConfig.t; the_miner : miner; max_lines : Z }.
End DrainManager.
Abbreviation manager := DrainManager.t.

Section Manager.
Context `{!Unicode, !XXHash, !TemplateMiner}.

Definition new_manager (config : option MinerConfig.t) (max_lines : Z) : manager :=
  let config := default default_config config in DrainManager.mk _ config (new_miner config) max_lines.
Definition with_miner (mgr : manager) (mi : miner) : manager :=
  DrainManager.mk _ (DrainManager.config mgr) mi (DrainManager.max_lines mgr).

Definition serialize (mgr : manager) : blob := save_state (DrainManager.the_miner mgr).
Definition load_state (mgr : manager) (state : blob) : option manager := with_miner mgr <$> restore (DrainManager.the_miner mgr) state.

(** The miner with each non-blank stored template replayed, and their number. *)
Definition rebuild_from_templates (mgr : manager) (template_texts : list ustr) : manager * nat :=
  let texts := List.filter (fun t => negb (blank t)) template_texts in
  (with_miner mgr (fold_left (fun mi t => (add_log_message mi t).1) texts (DrainManager.the_miner mgr)), length texts).

Definition _minable_lines (mgr : manager) (cleaned_message : ustr) : list ustr :=
  List.filter (fun line => negb (blank line) && negb (is_line_from_stacktrace line))
    (slice_to (DrainManager.max_lines mgr) (lines cleaned_message)).

Definition hit_of (cluster_id : Z) (template : ustr) : result TemplateHit.t :=
  hs ← xxh3_64_signed_text template;
  hx ← _template_hash_hex template;
  Ok (TemplateHit.mk cluster_id template (length (uwords template)) hs hx).

Fixpoint mine_lines (mi : miner) (ls : list ustr) : result (miner * list TemplateHit.t) :=
  match ls with
  | [] => Ok (mi, [])
  | line :: ls' =>
      let '(mi', (cid, template)) := add_log_message mi line in
      hit ← hit_of cid template;
      '(mi'', hits) ← mine_lines mi' ls';
      Ok (mi'', hit :: hits)
  end.

Definition add_message (mgr : manager) (cleaned_message : ustr) : result (manager * list TemplateHit.t) :=
  '(mi, hits) ← mine_lines (DrainManager.the_miner mgr) (_minable_lines mgr cleaned_message);
  Ok (with_miner mgr mi, hits).

Definition match_message (mgr : manager) (cleaned_message : ustr) : result (list ustr) :=
  rmapM _template_hash_hex (omap (match_line (DrainManager.the_miner mgr)) (_minable_lines mgr cleaned_message)).

Definition mirror_row (cl : ustr * Z) : result MirrorRow.t :=
  h ← xxh3_64_signed_text cl.1;
  Ok (MirrorRow.mk h h cl.1 (length (uwords cl.1)) (Some cl.1) cl.2).
Definition cluster_mirror_rows (mgr : manager) : result (list MirrorRow.t) :=
  rmapM mirror_row (clusters (DrainManager.the_miner mgr)).
End Manager.

(** ** Hexadecimal identity *)

Lemma hexdigits_length n v : length (hexdigits n v) = n.
Proof. revert v. induction n as [|n IH]; intros v; simpl; [done|]. rewrite length_app, IH. simpl. lia. Qed.

Lemma hexdigit_inv d : 0 <= d < 16 -> hex_of_digit (hexdigit d) = Some d.
Proof.
  intros Hd. unfold hexdigit, hex_of_digit, adigit. destruct (Z.ltb_spec d 10);
  repeat match goal with |- context [if ?b then _ else _] => destruct b eqn:? end;
    rewrite ?andb_true_iff, ?andb_false_iff, ?N.leb_le, ?N.leb_gt, ?Z.leb_le, ?Z.leb_gt, ?Z.ltb_lt, ?Z.ltb_ge in *;
    first [f_equal; lia|lia].
Qed.

(** A digit of the text is a hexadecimal digit, never a separator. *)
Lemma hexdigits_char n v c : 0 <= v -> c ∈ hexdigits n v -> is_Some (hex_of_digit c).
Proof.
  revert v. induction n as [|n IH]; intros v Hv; simpl; [by intros ?%elem_of_nil|].
  intros [Hc| ->%list_elem_of_singleton]%elem_of_app; [apply (IH (v / 16)); [apply Z.div_pos; lia|done]|].
  rewrite hexdigit_inv; [done|apply Z.mod_pos_bound; lia].
Qed.

Definition hex_step (acc : result Z) (c : N) : result Z :=
  match acc, hex_of_digit c with Ok a, Some d => Ok (16 * a + d) | _, _ => Raise ValueError end.

Lemma hexdigits_fold n v a : 0 <= v < 16 ^ Z.of_nat n ->
  fold_left hex_step (hexdigits n v) (Ok a) = Ok (a * 16 ^ Z.of_nat n + v).
Proof.
  revert v. induction n as [|n IH]; intros v Hv; [simpl in *; f_equal; lia|].
  cbn [hexdigits]. rewrite fold_left_app, IH.
  - cbn [fold_left]. unfold hex_step. rewrite hexdigit_inv by (apply Z.mod_pos_bound; lia). f_equal.
    rewrite Nat2Z.inj_succ, Z.pow_succ_r by lia. pose proof (Z.div_mod v 16). lia.
  - rewrite Nat2Z.inj_succ, Z.pow_succ_r in Hv by lia.
    split; [apply Z.div_pos; lia|apply Z.div_lt_upper_bound; lia].
Qed.

Lemma int_hex16 v : 0 <= v < 2 ^ 64 -> int_hex (hex16 v) = Ok v.
Proof.
  intros Hv. pose proof (hexdigits_length 16 v) as Hl. unfold int_hex, hex16.
  destruct (hexdigits 16 v) eqn:E; [done|]. rewrite <- E. change (fold_left hex_step (hexdigits 16 v) (Ok 0) = Ok v).
  rewrite hexdigits_fold; [by rewrite Z.mul_0_l|]. change (16 ^ Z.of_nat 16) with (2 ^ 64). done.
Qed.

Section Roundtrip.
Context `{!Unicode, !XXHash, !TemplateMiner}.

Lemma xxh3_text_range text v : xxh3_64_unsigned_text text = Ok v -> 0 <= v < 2 ^ 64.
Proof. unfold xxh3_64_unsigned_text. destruct (utf8_encode text); [|done]. intros [= <-]. apply xxh3_64_range. Qed.

(** The identity of a template survives its two encodings: the hexadecimal text
    the signature document carries, read back and folded into a [bigint], is the
    signed hash under which the template's mirror row is stored - so an item's
    template ids always name the rows of the templates it was mined from. *)
Theorem template_id_roundtrip (template hash_hex : ustr) (Hhex : _template_hash_hex template = Ok hash_hex) :
  _template_id hash_hex = xxh3_64_signed_text template
  /\ length hash_hex = 16%nat
  /\ forall size, mirror_row (template, size) =
       (fun h => MirrorRow.mk h h template (length (uwords template)) (Some template) size) <$> _template_id hash_hex.
Proof.
  unfold _template_hash_hex in Hhex. destruct (xxh3_64_unsigned_text template) as [v|] eqn:Ev; [|done].
  injection Hhex as <-. pose proof (xxh3_text_range _ _ Ev) as Hv.
  assert (_template_id (hex16 v) = xxh3_64_signed_text template) as Hid.
  { unfold _template_id, xxh3_64_signed_text. by rewrite int_hex16, Ev. }
  split_and!; [done|apply hexdigits_length|]. intros size. rewrite Hid. unfold mirror_row. cbn [fst snd]. by destruct (xxh3_64_signed_text template).
Qed.

(** A mined hit carries the same identity twice. *)
Lemma hit_of_identity cid template hit : hit_of cid template = Ok hit ->
  _template_id (TemplateHit.hash_hex hit) = Ok (TemplateHit.hash_signed hit)
  /\ _template_hash_hex template = Ok (TemplateHit.hash_hex hit).
Proof.
  unfold hit_of, _template_hash_hex, xxh3_64_signed_text. destruct (xxh3_64_unsigned_text template) as [v|] eqn:Ev; [|done].
  simpl. intros [= <-]. simpl. split; [|done]. unfold _template_id. by rewrite int_hex16 by (by eapply xxh3_text_range).
Qed.

Lemma mine_lines_hits mi ls mi' hits : mine_lines mi ls = Ok (mi', hits) ->
  length hits = length ls
  /\ Forall (fun h => _template_id (TemplateHit.hash_hex h) = Ok (TemplateHit.hash_signed h)) hits.
Proof.
  revert mi mi' hits. induction ls as [|l ls IH]; intros mi mi' hits; simpl; [by intros [= _ <-]|].
  destruct (add_log_message mi l) as [mi1 [cid t]].
  destruct (hit_of cid t) as [hit|] eqn:Eh; [|done]. simpl.
  destruct (mine_lines mi1 ls) as [[mi2 hs]|] eqn:Em; [|done]. simpl. intros [= <- <-].
  destruct (IH _ _ _ Em) as [Hl Hf]. split; [simpl; by rewrite Hl|]. constructor; [|done]. by eapply hit_of_identity.
Qed.
End Roundtrip.

(** ** Witness *)

(** A digest for the witnesses: a rolling sum of the bytes. *)
Fixpoint rolling (acc : Z) (s : string) : Z :=
  match s with EmptyString => acc | String c s' => rolling ((31 * acc + Z.of_N (code c) + 1) mod 2 ^ 64) s' end.
Lemma rolling_range acc s : 0 <= acc < 2 ^ 64 -> 0 <= rolling acc s < 2 ^ 64.
Proof. revert acc. induction s as [|c s IH]; intros acc Ha; simpl; [done|]. apply IH, Z.mod_pos_bound. lia. Qed.
Lemma rolling0_range s : 0 <= rolling 0 s < 2 ^ 64.
Proof. apply rolling_range. lia. Qed.
Definition toy_hash : XXHash := {| xxh3_64_intdigest := rolling 0; xxh3_64_range := rolling0_range |}.

(** A miner for the witnesses: every distinct line is its own template. *)
Definition toy_add (m : list (ustr * Z)) (line : ustr) : list (ustr * Z) * (Z * ustr) :=
  (dset line (dgetd line 0 m + 1) m, (Z.of_nat (length m), line)).
Definition toy_miner : TemplateMiner := {|
  miner := list (ustr * Z); new_miner := fun _ => []; add_log_message := toy_add;
  match_line := fun m line => (fun _ => line) <$> dget line m; clusters := fun m => m;
  save_state := fun m => [N.of_nat (length m)]; restore := fun m b => match b with [0%N] => Some [] | _ => None end |}.

Lemma template_id_roundtrip_witness :
  let X := toy_hash in let M := toy_miner in
  _template_hash_hex (u "job <NUM> failed") = Ok (u "2bd6f756cc7e168c")
  /\ _template_id (u "2bd6f756cc7e168c") = xxh3_64_signed_text (u "job <NUM> failed").
Proof.
  intros X M. assert (_template_hash_hex (u "job <NUM> failed") = Ok (u "2bd6f756cc7e168c")) as E by (vm_compute; reflexivity).
  split; [exact E|]. exact (proj1 (template_id_roundtrip (H0 := X) (u "job <NUM> failed") (u "2bd6f756cc7e168c") E)).
Defined.
