(* ===== verification/DrainStore.v ===== *)
(** * The miner's state store

    [db/repositories/drain3_state.py] as transitions over its tables (one row of
    serialized state per project, guarded by a version; the mirror of the live
    templates), and the load/save protocol of [ml/drain.py] over them.  A call is
    one transaction; SQL text and connections are not modelled. *)

From S2P Require Import Prelude PyFloat PyStr Regex RegexTheory PyText UrlCodec TextProc Hashing Drain.
From Stdlib Require Import NArith ZArith Lia.

#[local] Open Scope list_scope.
#[local] Open Scope Z_scope.

Module StateRow.
Record t := mk { state : blob; state_version : Z; drain3_config : ConfigSummary.t }.
End StateRow.

Module TemplateRow.
Record t := mk { pattern : ustr; token_count : Z; example : option ustr; match_count : Z; last_seen : Z }.
End TemplateRow.

(** The tables: [analyzer.project], [analyzer.drain3_state], [analyzer.log_template]
    (keyed by project and template id). *)
Module Tables.
Record t := mk { project : gset Z; drain3_state : gmap Z StateRow.t; log_template : gmap (Z * Z) TemplateRow.t }.
End Tables.
Abbreviation tables := Tables.t.

Definition load (db : tables) (project_id : Z) : option (blob * Z) :=
  (fun r => (StateRow.state r, StateRow.state_version r)) <$> Tables.drain3_state db !! project_id.

(** The upsert writes a first row whatever the expected version is; a conflict
    updates only the row whose version is the expected one. *)
Definition save (project_id : Z) (state : blob) (expected_version : Z) (config : ConfigSummary.t) (db : tables) : tables * bool :=
  let db := Tables.mk ({[project_id]} ∪ Tables.project db) (Tables.drain3_state db) (Tables.log_template db) in
  let put version := Tables.mk (Tables.project db) (<[project_id := StateRow.mk state version config]> (Tables.drain3_state db))
                       (Tables.log_template db) in
  match Tables.drain3_state db !! project_id with
  | None => (put 1, true)
  | Some r => if StateRow.state_version r =? expected_version then (put (StateRow.state_version r + 1), true) else (db, false)
  end.

(** [ORDER BY match_count DESC, template_id]. *)
Definition template_leb (a b : Z * TemplateRow.t) : bool :=
  (TemplateRow.match_count b.2 <? TemplateRow.match_count a.2)
  || (TemplateRow.match_count a.2 =? TemplateRow.match_count b.2) && (a.1 <=? b.1).
Definition project_templates (db : tables) (project_id : Z) : list (Z * TemplateRow.t) :=
  (fun kr => (kr.1.2, kr.2)) <$> filter (fun kr => kr.1.1 = project_id) (map_to_list (Tables.log_template db)).
Definition load_template_texts (db : tables) (project_id : Z) : list ustr :=
  (fun r => TemplateRow.pattern r.2) <$> pysorted template_leb (project_templates db project_id).

Definition upsert_template (now project_id : Z) (m : gmap (Z * Z) TemplateRow.t) (r : MirrorRow.t) : gmap (Z * Z) TemplateRow.t :=
  let k := (project_id, MirrorRow.template_id r) in
  let row := match m !! k with
             | None => TemplateRow.mk (MirrorRow.pattern r) (Z.of_nat (MirrorRow.token_count r)) (MirrorRow.example r)
                         (MirrorRow.match_count r) now
             | Some old => TemplateRow.mk (MirrorRow.pattern r) (Z.of_nat (MirrorRow.token_count r))
                             (match MirrorRow.example r with Some e => Some e | None => TemplateRow.example old end)
                             (TemplateRow.match_count old + MirrorRow.match_count r) now
             end in
  <[k := row]> m.

Definition upsert_templates (now project_id : Z) (templates : list MirrorRow.t) (db : tables) : tables * nat :=
  match templates with
  | [] => (db, O)
  | _ => (Tables.mk ({[project_id]} ∪ Tables.project db) (Tables.drain3_state db)
            (fold_left (upsert_template now project_id) templates (Tables.log_template db)), length templates)
  end.

(** What [delete_project] of [retrieval.py] deletes of these tables, in its one
    transaction; it does not take the project's lock. *)
Definition delete_miner_rows (project_id : Z) (db : tables) : tables :=
  Tables.mk (Tables.project db ∖ {[project_id]}) (delete project_id (Tables.drain3_state db))
    (filter (fun kr => kr.1.1 <> project_id) (Tables.log_template db)).

Section Protocol.
Context `{!Unicode, !XXHash, !TemplateMiner}.

(** A manager for the project and the version to save it against. *)
Definition load_manager (db : tables) (project_id : Z) (config : option MinerConfig.t)
    (template_loader : option (Z -> list ustr)) (max_lines : Z) : manager * Z :=
  let fresh := new_manager config max_lines in
  let rebuilt := match template_loader with Some f => (rebuild_from_templates fresh (f project_id)).1 | None => fresh end in
  match load db project_id with
  | Some (state, version) => match load_state fresh state with Some mgr => (mgr, version) | None => (rebuilt, version) end
  | None => (rebuilt, 0)
  end.

Definition save_manager (now project_id : Z) (mgr : manager) (expected_version : Z) (db : tables) : tables * result bool :=
  let '(db, saved) := save project_id (serialize mgr) expected_version (config_summary (DrainManager.config mgr)) db in
  if saved then
    match cluster_mirror_rows mgr with
    | Ok rows => ((upsert_templates now project_id rows db).1, Ok true)
    | Raise e => (db, Raise e)
    end
  else (db, Ok false).
End Protocol.

(** ** The store's contract *)

(** What anybody may do to the tables, between two calls of this worker: save a
    project's state, mirror its templates, delete the project. *)
Inductive worker_step (db : tables) : tables -> Prop :=
  | step_save p state version config : worker_step db (save p state version config db).1
  | step_mirror now p rows : worker_step db (upsert_templates now p rows db).1
  | step_delete p : worker_step db (delete_miner_rows p db).

(** The steps that restart a project's history: its deletion, and the templates of a
    worker that saved before the deletion and mirrors after it. *)
Inductive restart (p : Z) (db : tables) : tables -> Prop :=
  | restart_delete : restart p db (delete_miner_rows p db)
  | restart_mirror now rows : Tables.drain3_state db !! p = None -> restart p db (upsert_templates now p rows db).1.

Definition restarted (p : Z) (db db' : tables) : Prop :=
  exists a b, rtc worker_step db a /\ restart p a b /\ rtc worker_step b db'.

Lemma save_other p q state version config db : p <> q ->
  Tables.drain3_state (save p state version config db).1 !! q = Tables.drain3_state db !! q.
Proof.
  intros Hpq. unfold save. simpl. destruct (Tables.drain3_state db !! p) as [r|]; [destruct (_ =? _)|]; simpl; [|done|];
    by rewrite lookup_insert_ne.
Qed.

Lemma save_templates p state version config db : Tables.log_template (save p state version config db).1 = Tables.log_template db.
Proof. unfold save. simpl. destruct (Tables.drain3_state db !! p) as [r|]; [destruct (_ =? _)|]; done. Qed.

(** A save replaces the row it was given the version of, or writes the first. *)
Definition saves (p version : Z) (db : tables) : bool :=
  match Tables.drain3_state db !! p with Some r => StateRow.state_version r =? version | None => true end.
Definition next_version (p : Z) (db : tables) : Z :=
  match Tables.drain3_state db !! p with Some r => StateRow.state_version r + 1 | None => 1 end.

Lemma save_outcome p state version config db :
  (save p state version config db).2 = saves p version db
  /\ Tables.drain3_state (save p state version config db).1 !! p =
     if saves p version db then Some (StateRow.mk state (next_version p db) config) else Tables.drain3_state db !! p.
Proof.
  unfold save, saves, next_version. simpl. destruct (Tables.drain3_state db !! p) as [r|] eqn:E; [destruct (_ =? _)|]; simpl;
    by rewrite ?lookup_insert_eq.
Qed.

Lemma upsert_state now p rows db : Tables.drain3_state (upsert_templates now p rows db).1 = Tables.drain3_state db.
Proof. by destruct rows. Qed.

Lemma upsert_other now p rows db q tid : p <> q ->
  Tables.log_template (upsert_templates now p rows db).1 !! (q, tid) = Tables.log_template db !! (q, tid).
Proof.
  intros Hpq. destruct rows as [|r0 rows]; [done|]. cbn [upsert_templates fst Tables.log_template].
  generalize (r0 :: rows) (Tables.log_template db). clear r0 rows. intros rows.
  induction rows as [|r rows IH]; intros m; [done|]. cbn [fold_left]. rewrite IH. unfold upsert_template.
  rewrite lookup_insert_ne; [done|]. congruence.
Qed.

(** How a project's row may have moved: not at all, or to a higher version; from
    nothing, to nothing with the same templates, or to a first version. *)
Definition moved (p : Z) (db db' : tables) : Prop :=
  match Tables.drain3_state db !! p with
  | Some r => exists r', Tables.drain3_state db' !! p = Some r' /\ (r' = r \/ StateRow.state_version r < StateRow.state_version r')
  | None => match Tables.drain3_state db' !! p with
            | Some r' => 1 <= StateRow.state_version r'
            | None => forall tid, Tables.log_template db' !! (p, tid) = Tables.log_template db !! (p, tid)
            end
  end.

Lemma moved_refl p db : moved p db db.
Proof. unfold moved. destruct (Tables.drain3_state db !! p); [eauto|done]. Qed.

Lemma moved_trans p a b c : moved p a b -> moved p b c -> moved p a c.
Proof.
  unfold moved. destruct (Tables.drain3_state a !! p) as [ra|].
  - intros (rb & -> & Hb) (rc & -> & Hc). exists rc. split; [done|]. destruct Hb as [->|], Hc as [->|]; auto; right; lia.
  - destruct (Tables.drain3_state b !! p) as [rb|].
    + intros Hb (rc & -> & [->|Hc]); lia.
    + intros Hb. destruct (Tables.drain3_state c !! p) as [rc|]; [done|]. intros Hc tid. by rewrite Hc.
Qed.

Lemma delete_other p q db : p <> q ->
  Tables.drain3_state (delete_miner_rows p db) !! q = Tables.drain3_state db !! q /\
  forall tid, Tables.log_template (delete_miner_rows p db) !! (q, tid) = Tables.log_template db !! (q, tid).
Proof.
  intros Hpq. split; [by apply lookup_delete_ne|]. intros tid. cbn.
  destruct (Tables.log_template db !! (q, tid)) as [r|] eqn:E.
  - apply map_lookup_filter_Some. by split; [|cbn].
  - apply map_lookup_filter_None. by left.
Qed.

(** A step moves a project's row, or restarts its history. *)
Lemma step_moved p db db' : worker_step db db' -> moved p db db' \/ restart p db db'.
Proof.
  destruct 1 as [q state version config|now q rows|q]; destruct (decide (q = p)) as [->|Hne].
  - left. destruct (save_outcome p state version config db) as [_ E]. unfold moved. rewrite E. unfold saves, next_version.
    destruct (Tables.drain3_state db !! p) as [r|]; [destruct (_ =? _)|]; eauto; simpl; [|lia].
    eexists. split; [done|]. right. simpl. lia.
  - left. unfold moved. rewrite (save_other q p) by done. rewrite save_templates. destruct (Tables.drain3_state db !! p); eauto.
  - destruct (Tables.drain3_state db !! p) eqn:E; [left|by right; constructor].
    unfold moved. rewrite upsert_state, E. eauto.
  - left. unfold moved. rewrite upsert_state. destruct (Tables.drain3_state db !! p); [eauto|]. intros tid. by apply upsert_other.
  - right. constructor.
  - left. unfold moved. destruct (delete_other q p db Hne) as [-> Ht]. destruct (Tables.drain3_state db !! p); [eauto|done].
Qed.

Lemma run_moved p db db' : rtc worker_step db db' -> moved p db db' \/ restarted p db db'.
Proof.
  induction 1 as [db|a b c Hab Hbc IH]; [left; apply moved_refl|].
  destruct (step_moved p a b Hab) as [Hm|Hr]; [|by right; exists a, b].
  destruct IH as [Hm'|(x & y & Hx & Hxy & Hy)]; [left; by eapply moved_trans|].
  right. exists x, y. split_and!; [by eapply rtc_l|done|done].
Qed.

(** ** The templates a rebuild reads *)

Lemma elem_of_project_templates db p tid r :
  (tid, r) ∈ project_templates db p <-> Tables.log_template db !! (p, tid) = Some r.
Proof.
  unfold project_templates. rewrite list_elem_of_fmap. split.
  - intros ([[q t] r'] & [= -> ->] & Hin). apply list_elem_of_filter in Hin as [Hq Hin]. simpl in Hq. subst q.
    by apply elem_of_map_to_list in Hin.
  - intros Hin. exists ((p, tid), r). split; [done|]. apply list_elem_of_filter. split; [done|]. by apply elem_of_map_to_list.
Qed.

Lemma project_templates_NoDup db p : NoDup (project_templates db p).
Proof.
  unfold project_templates. apply NoDup_fmap_2_strong.
  - intros [[q t] r] [[q' t'] r'] Hx Hy [= -> ->]. apply list_elem_of_filter in Hx as [Hx _], Hy as [Hy _].
    simpl in Hx, Hy. congruence.
  - apply NoDup_filter, NoDup_map_to_list.
Qed.

Lemma load_template_texts_ext db db' p :
  (forall tid, Tables.log_template db' !! (p, tid) = Tables.log_template db !! (p, tid)) ->
  load_template_texts db' p = load_template_texts db p.
Proof.
  intros Heq. unfold load_template_texts. f_equal. apply pysorted_perm_unique.
  - intros x y. unfold template_leb. rewrite !orb_false_iff, !orb_true_iff, !andb_true_iff, !andb_false_iff.
    rewrite !Z.ltb_ge, !Z.ltb_lt, !Z.eqb_eq, !Z.eqb_neq, !Z.leb_gt, !Z.leb_le. lia.
  - intros x y z. unfold template_leb. rewrite !orb_true_iff, !andb_true_iff, !Z.ltb_lt, !Z.eqb_eq, !Z.leb_le. lia.
  - apply NoDup_Permutation; [apply project_templates_NoDup..|]. intros [tid r]. by rewrite !elem_of_project_templates, Heq.
  - intros [t r] [t' r'] Hx Hy. rewrite elem_of_project_templates in Hx, Hy. unfold template_leb. simpl.
    rewrite !orb_true_iff, !andb_true_iff, !Z.ltb_lt, !Z.eqb_eq, !Z.leb_le. intros Ha Hb.
    assert (t = t') as -> by lia. congruence.
Qed.

Section Contract.
Context `{!Unicode, !XXHash, !TemplateMiner}.

(** The manager loaded from a snapshot of the tables. *)
Definition load_snapshot (db : tables) (p : Z) (config : option MinerConfig.t) (max_lines : Z) : manager * Z :=
  load_manager db p config (Some (load_template_texts db)) max_lines.

(** The stored state can be deserialized. *)
Definition readable (db : tables) (p : Z) (config : option MinerConfig.t) (max_lines : Z) : Prop :=
  forall state version, load db p = Some (state, version) -> is_Some (load_state (new_manager config max_lines) state).

Lemma load_snapshot_same db db' p config max_lines : readable db p config max_lines -> moved p db db' ->
  saves p (load_snapshot db p config max_lines).2 db' = true -> load_snapshot db' p config max_lines = load_snapshot db p config max_lines.
Proof.
  unfold readable, moved, saves, load_snapshot, load_manager, load. intros Hr Hm.
  destruct (Tables.drain3_state db !! p) as [r|] eqn:E; simpl in *.
  - destruct (Hr _ _ eq_refl) as [mgr Hmgr]. rewrite Hmgr. destruct Hm as (r' & -> & Hr'). simpl.
    intros Hv%Z.eqb_eq. destruct Hr' as [->|Hlt]; [by rewrite Hmgr|]. simpl in Hv. lia.
  - destruct (Tables.drain3_state db' !! p) as [r'|] eqn:E'; simpl; [intros Hv%Z.eqb_eq; simpl in Hv; lia|].
    intros _. by rewrite (load_template_texts_ext db db' p Hm).
Qed.

Lemma load_snapshot_version db p config max_lines :
  (load_snapshot db p config max_lines).2 = match Tables.drain3_state db !! p with Some r => StateRow.state_version r | None => 0 end.
Proof.
  unfold load_snapshot, load_manager, load. destruct (Tables.drain3_state db !! p) as [r|]; simpl; [|done].
  by destruct (load_state _ _).
Qed.

End Contract.

(** ** Witness, and the counts of the mirror *)

Definition no_tables : tables := Tables.mk ∅ ∅ ∅.
Definition other_saved : tables := (save 7 [0%N] 0 (config_summary default_config) no_tables).1.


(** A deletion lets a stale save through: a worker loads version 1, the project is
    deleted, a second worker starts it afresh, and the first worker's save replaces
    the new state with what it mined on the deleted one; the versions agree. *)
Lemma deletion_revives_state :
  let X := toy_hash in let M := toy_miner in
  let old := with_miner (new_manager None 40) [(u "job failed", 3)] in
  let db1 := (save_manager 0 7 old 0 no_tables).1 in
  let '(loaded, v) := load_snapshot db1 7 None 40 in
  let db2 := (save_manager 1 7 (new_manager None 40) 0 (delete_miner_rows 7 db1)).1 in
  v = 1 /\ (save_manager 2 7 loaded v (delete_miner_rows 7 db1)).2 = Ok true /\
  (save_manager 2 7 loaded v db2).2 = Ok true.
Proof. vm_compute. split_and!; reflexivity. Qed.

(** The mirror adds a cluster's size, which already counts every line it ever took,
    to the stored count: saving a manager that mined nothing new doubles it. *)
Lemma mirror_counts_twice :
  let X := toy_hash in let M := toy_miner in
  let mgr := with_miner (new_manager None 40) [(u "job failed", 3)] in
  let db1 := (save_manager 0 7 mgr 0 no_tables).1 in
  let db2 := (save_manager 1 7 mgr 1 db1).1 in
  let counts db := (fun r => TemplateRow.match_count r.2) <$> project_templates db 7 in
  counts db1 = [3] /\ counts db2 = [6].
Proof. vm_compute. split; reflexivity. Qed.
