(* ===== verification/Signature.v ===== *)
(** * Failure signatures

    [ml/signature.py]: the exception chain and in-app frames of a failure, the two
    identity hashes over them, the masked message with its near-error context,
    and the bounded signature document. *)

From S2P Require Import Prelude PyFloat PyStr Regex RegexTheory PyText UrlCodec TextProc Hashing Drain.
From Stdlib Require Import NArith ZArith Lia.

#[local] Open Scope string_scope.
#[local] Open Scope list_scope.
#[local] Open Scope nat_scope.

Definition MSG_FALLBACK : ustr := Eval vm_compute in u "<no message>".
Definition SIGNATURE_MAX_CHARS : nat := 2000.
Definition MSG_MAX_LINES : Z := 8.
Definition MAX_TEMPLATES : nat := 30.
Definition MAX_EXCEPTION_CLASSES : nat := 4.
Definition TOP_FRAMES : nat := 3.

Definition FRAMEWORK_DENYLIST : list ustr := Eval vm_compute in u <$> [
  "java."; "javax."; "jdk."; "org.springframework."; "org.apache."; "com.google."; "io.netty."; "okhttp3.";
  "requests."; "urllib3."; "selenium."; "org.openqa."; "node_modules"].
Definition FRAME_DROP_PREFIXES : list ustr := Eval vm_compute in u <$> [
  "jdk.internal."; "sun.reflect."; "java.lang.reflect."; "org.junit."; "org.testng."; "pytest"; "unittest"; "reflect."].

Definition _CLASS_SUFFIX_PATTERNS : list pattern := Eval vm_compute in
  [compile "\$\$Lambda.*"; compile "\$\$EnhancerBy\w+.*"; compile "\$Proxy\d+"; compile "\.\.EnhancerBySpring.*"; compile "\$\d+"].
Definition _CHAIN_MARKER : pattern := Eval vm_compute in
  compile_i ("caused by:|during handling of the above exception|" +:+ "the above exception was the direct cause").
Definition _ASSERTION_RE : pattern := Eval vm_compute in compile_i "expected.*(but was|received|actual)".
Definition _ASSERTION_VALUE_RE : pattern := Eval vm_compute in
  compile_i "\b(expected|but was|actual|received)\b\s*[:=]?\s*[^,\n]+".
Definition _JAVA_AT_FRAME : pattern := Eval vm_compute in compile "\bat\s+([\w$.]+)\s*\(".
Definition _JAVA_BARE_FRAME : pattern := Eval vm_compute in compile "^\s*([\w$.]+)\([^)]*\)\s*$".
Definition _PY_FRAME : pattern := Eval vm_compute in
  compile ("File\s+" +:+ DQ +:+ "([^" +:+ DQ +:+ "]+)" +:+ DQ +:+ ",\s*line\s+\d+,\s*in\s+(\S+)").
Definition PY_EXT_RE : pattern := Eval vm_compute in compile "\.\w+$".

(** What the builder consumes of one log. *)
Module ProcessedLog.
Record t := mk {
  msg : ustr; stack_raw : ustr; exceptions : list ustr; status_codes : list ustr;
  template_hashes : list ustr; has_stacktrace : bool
}.
End ProcessedLog.

(** [SignatureResult] over code points. *)
Module SigResult.
Record t := mk {
  signature_text : ustr; exception_fp : Z; error_hash : Z; exc_classes : list ustr; frames : list ustr;
  template_hashes : list ustr; status_codes : list ustr; msg_text : ustr;
  is_assertion : bool; has_stacktrace : bool; is_merged_small_logs : bool
}.
Definition empty : t := mk [] 0 0 [] [] [] [] [] false false false.
End SigResult.

Definition _dedupe (seq : list ustr) : list ustr :=
  (fold_left (line_seen (fun item => negb (bool_decide (item = []))) (fun item => item)) seq ([], [])).2.

Definition _is_dropped (frame : ustr) : bool := existsb (starts frame) FRAME_DROP_PREFIXES.
Definition denied (frame : ustr) : bool := existsb (starts frame) FRAMEWORK_DENYLIST.

Definition dot_prefix (n : nat) (frame : ustr) : ustr := ujoin (u ".") (take n (dots frame)).
Definition _is_in_app (frame : ustr) (in_app_prefixes : option (list ustr)) : bool :=
  if denied frame then false
  else match in_app_prefixes with
       | None => true
       | Some ps => bool_decide (dot_prefix 2 frame ∈ ps) || bool_decide (dot_prefix 3 frame ∈ ps)
       end.

Section Chain.
Context `{!Unicode}.

Definition normalize_class (name : ustr) : ustr := remove_patterns name _CLASS_SUFFIX_PATTERNS.

(** The last exception first, when the text says it is the cause. *)
Definition root_first (exceptions : list ustr) (chain_text : ustr) : list ustr :=
  match last exceptions with
  | Some root => if re_found _CHAIN_MARKER chain_text then root :: removelast exceptions else exceptions
  | None => exceptions
  end.
Definition extract_exception_chain (exceptions : list ustr) (chain_text : ustr) : list ustr :=
  take MAX_EXCEPTION_CLASSES (_dedupe (normalize_class <$> root_first exceptions chain_text)).

Definition _parse_frame (line : ustr) : option ustr :=
  match re_search _JAVA_AT_FRAME line with
  | Some m => Some (gref 1 m)
  | None =>
      match re_match _JAVA_BARE_FRAME line with
      | Some m => Some (gref 1 m)
      | None =>
          match re_search _PY_FRAME line with
          | Some m =>
              let file := default [] (last (usplit 47%N (ureplace (u "\") (u "/") (gref 1 m)))) in
              Some (re_sub PY_EXT_RE (const []) file ++ u "." ++ gref 2 m)
          | None => None
          end
      end
  end.

Definition frame_of (line : ustr) : option ustr :=
  if is_line_from_stacktrace line then
    frame ← _parse_frame line;
    let frame := normalize_class frame in
    if _is_dropped frame then None else Some frame
  else None.

Definition select_frames (stack_raw : ustr) (in_app_prefixes : option (list ustr)) : list ustr :=
  let parsed := _dedupe (omap frame_of (lines stack_raw)) in
  let in_app := List.filter (fun f => _is_in_app f in_app_prefixes) parsed in
  if TOP_FRAMES <=? length in_app then take TOP_FRAMES in_app
  else
    let padding := List.filter (fun f => negb (bool_decide (f ∈ in_app)) && negb (denied f)) parsed in
    take TOP_FRAMES (in_app ++ padding).

Definition _mask_msg (msg : ustr) (is_assertion : bool) : ustr :=
  let text := first_lines msg MSG_MAX_LINES in
  let text := if is_assertion then re_sub _ASSERTION_VALUE_RE (fun m => gref 1 m ++ u " <VAL>") text else text in
  ustrip (ujoin (u " ") (lines (mask_text text))).

Definition CONTEXT_MSG_MAX_LINES : Z := 5.
Definition CONTEXT_MARKER : ustr := Eval vm_compute in u "ctx".
Definition mask_context_lines (context_msgs : list ustr) : ustr :=
  let out := List.filter (fun m => negb (bool_decide (m = [])))
    ((fun raw => ustrip (ujoin (u " ") (uwords (mask_text (first_lines raw 1))))) <$> last_slice CONTEXT_MSG_MAX_LINES context_msgs) in
  match out with
  | [] => []
  | _ => CONTEXT_MARKER ++ u " " ++ ujoin (u " " ++ CONTEXT_MARKER ++ u " ") out
  end.
End Chain.

(** ** The document *)

Inductive section := TEST | EXC | MSG | FRAMES | TEMPLATES | CODES.
#[export] Instance section_eq_dec : EqDecision section.
Proof. solve_decision. Defined.
Definition section_name (k : section) : ustr :=
  u match k with TEST => "TEST" | EXC => "EXC" | MSG => "MSG" | FRAMES => "FRAMES" | TEMPLATES => "TEMPLATES" | CODES => "CODES" end.
Definition order : list section := [TEST; EXC; MSG; FRAMES; TEMPLATES; CODES].

Notation sections := (list (section * ustr)).
Definition ddel (k : section) (secs : sections) : sections := List.filter (fun kv => negb (bool_decide (kv.1 = k))) secs.

Definition render (secs : sections) : ustr :=
  unlines (omap (fun k => (fun v => section_name k ++ u ": " ++ v) <$> dget k secs) order).

Definition trim_step (key : section) (value : ustr) (overflow : nat) (secs : sections) : sections :=
  match urstrip uspace (take (length value - Nat.max overflow 1) value) with
  | [] => ddel key secs
  | trimmed => dset key trimmed secs
  end.

(** [while len(doc) > SIGNATURE_MAX_CHARS and sections.get(key)]; each turn
    shortens the value, so its length bounds the turns. *)
Fixpoint trim_loop (fuel : nat) (key : section) (secs : sections) (doc : ustr) : sections * ustr :=
  match fuel with
  | O => (secs, doc)
  | S f =>
      match dget key secs with
      | None | Some [] => (secs, doc)
      | Some value =>
          if SIGNATURE_MAX_CHARS <? length doc then
            let secs' := trim_step key value (length doc - SIGNATURE_MAX_CHARS) secs in
            trim_loop f key secs' (render secs')
          else (secs, doc)
      end
  end.
Definition trim (key : section) (st : sections * ustr) : sections * ustr :=
  trim_loop (S (length (default [] (dget key st.1)))) key st.1 st.2.

Definition _truncate_signature (secs : sections) : ustr :=
  let doc := render secs in
  if length doc <=? SIGNATURE_MAX_CHARS then doc
  else take SIGNATURE_MAX_CHARS (fold_left (fun st key => trim key st) [MSG; TEMPLATES; FRAMES] (secs, doc)).2.

Definition section_if (k : section) (v : ustr) : sections := match v with [] => [] | _ => [(k, v)] end.

Section Build.
Context `{!Unicode, !XXHash}.

Definition document_sections (test_item_name : ustr) (exc_classes : list ustr) (msg_text : ustr)
    (frames template_hashes status_codes : list ustr) : sections :=
  let test := match test_item_name with [] => [] | _ => preprocess_test_item_name test_item_name end in
  section_if TEST test
  ++ (match exc_classes with [] => [] | _ => [(EXC, ujoin (u " ") exc_classes)] end)
  ++ [(MSG, match msg_text with [] => MSG_FALLBACK | _ => msg_text end)]
  ++ (match frames with [] => [] | _ => [(FRAMES, ujoin (u " ") frames)] end)
  ++ (match template_hashes with [] => [] | _ => [(TEMPLATES, ujoin (u " ") (take MAX_TEMPLATES template_hashes))] end)
  ++ (match status_codes with [] => [] | _ => [(CODES, ujoin (u " ") ((fun c => u "HTTP_" ++ c) <$> status_codes))] end).

Definition build_signature_document (test_item_name : ustr) (exc_classes : list ustr) (msg_text : ustr)
    (frames template_hashes status_codes : list ustr) : ustr :=
  _truncate_signature (document_sections test_item_name exc_classes msg_text frames template_hashes status_codes).

(** ** Identity *)

Definition fingerprint_payload (exc_classes frames : list ustr) : ustr :=
  ujoin (u "|") exc_classes ++ u "#" ++ ujoin (u "|") frames.
Definition exception_fingerprint (exc_classes frames : list ustr) : result Z :=
  match exc_classes, frames with
  | [], [] => Ok 0%Z
  | _, _ => xxh3_64_signed_text (fingerprint_payload exc_classes frames)
  end.
Definition error_payload (exception_fp : Z) (template_hashes : list ustr) : ustr :=
  u (str_of_Z exception_fp) ++ u "#" ++ ujoin (u "|") template_hashes.
Definition error_hash (exception_fp : Z) (template_hashes : list ustr) : result Z :=
  xxh3_64_signed_text (error_payload exception_fp template_hashes).

(** ** The item's signature *)

Definition _select_primary (logs : list ProcessedLog.t) : option ProcessedLog.t :=
  match find ProcessedLog.has_stacktrace (rev logs) with Some log => Some log | None => last logs end.

Definition build_item_signature (test_item_name : ustr) (logs : list ProcessedLog.t)
    (in_app_prefixes : option (list ustr)) (context_msgs : list ustr) : result SigResult.t :=
  match _select_primary logs with
  | None => Ok SigResult.empty
  | Some primary =>
      let all_exceptions := logs ≫= ProcessedLog.exceptions in
      let chain_text := unlines ((fun log => ProcessedLog.msg log ++ [LF_] ++ ProcessedLog.stack_raw log) <$> logs) in
      let exc_classes := extract_exception_chain all_exceptions chain_text in
      let frames := if ProcessedLog.has_stacktrace primary then select_frames (ProcessedLog.stack_raw primary) in_app_prefixes else [] in
      let ordered_hashes := take MAX_TEMPLATES (_dedupe (logs ≫= ProcessedLog.template_hashes)) in
      let is_assertion := re_found _ASSERTION_RE (ProcessedLog.msg primary) in
      let msg_text := _mask_msg (ProcessedLog.msg primary) is_assertion in
      let status_codes := get_potential_status_codes (ProcessedLog.msg primary) in
      exc_fp ← exception_fingerprint exc_classes frames;
      err_hash ← error_hash exc_fp ordered_hashes;
      let msg_text := match mask_context_lines context_msgs with
                      | [] => msg_text
                      | context_text => match msg_text with [] => context_text | _ => ustrip (msg_text ++ u " " ++ context_text) end
                      end in
      Ok {| SigResult.signature_text := build_signature_document test_item_name exc_classes msg_text frames ordered_hashes status_codes;
            SigResult.exception_fp := exc_fp; SigResult.error_hash := err_hash; SigResult.exc_classes := exc_classes;
            SigResult.frames := frames; SigResult.template_hashes := ordered_hashes; SigResult.status_codes := status_codes;
            SigResult.msg_text := msg_text; SigResult.is_assertion := is_assertion;
            SigResult.has_stacktrace := ProcessedLog.has_stacktrace primary; SigResult.is_merged_small_logs := false |}
  end.
End Build.

(** ** The document: bounded, with its anchors *)

Lemma dget_ddel k (secs : sections) : dget k (ddel k secs) = None.
Proof.
  induction secs as [|[k' v] secs IH]; simpl; [done|]. destruct (bool_decide (k' = k)) eqn:E; bprop; simpl; [done|].
  by rewrite decide_False by congruence.
Qed.
Lemma dget_ddel_ne k k' (secs : sections) : k <> k' -> dget k' (ddel k secs) = dget k' secs.
Proof.
  intros Hne. induction secs as [|[k2 v] secs IH]; simpl; [done|].
  destruct (bool_decide (k2 = k)) eqn:E; bprop; simpl; case_decide; simp.
Qed.

Definition value (k : section) (secs : sections) : ustr := default [] (dget k secs).

(** One section cut down to a prefix, or dropped; the others as they were. *)
Record cut (key : section) (secs secs' : sections) : Prop := {
  cut_other : forall k, k <> key -> dget k secs' = dget k secs;
  cut_key : forall v', dget key secs' = Some v' -> exists v, dget key secs = Some v /\ v' `prefix_of` v;
  cut_empty : dget key secs' = Some [] <-> dget key secs = Some []
}.

Lemma cut_refl key secs : cut key secs secs.
Proof. constructor; [done| |done]. intros v' Hv. by exists v'. Qed.

Lemma cut_trans key a b c : cut key a b -> cut key b c -> cut key a c.
Proof.
  intros [H1 H2 E1] [H3 H4 E2]. constructor; [intros k Hk; by rewrite H3, H1| |by rewrite E2, E1].
  intros v' Hv. apply H4 in Hv as (v1 & Hv & Hp1). apply H2 in Hv as (v2 & Hv & Hp2). exists v2. split; [done|]. by trans v1.
Qed.

Lemma trim_step_cut key v n secs : dget key secs = Some v -> v <> [] ->
  cut key secs (trim_step key v n secs) /\ length (value key (trim_step key v n secs)) < length v.
Proof.
  intros Hv Hne. unfold trim_step, value.
  set (t := urstrip uspace (take (length v - Nat.max n 1) v)).
  assert (t `prefix_of` v) as Hp.
  { destruct (urstrip_prefix uspace (take (length v - Nat.max n 1) v)) as (r & Hr & _). fold t in Hr.
    trans (take (length v - Nat.max n 1) v); [by exists r|]. exists (drop (length v - Nat.max n 1) v). by rewrite take_drop. }
  assert (length t < length v) as Hlt.
  { destruct (urstrip_prefix uspace (take (length v - Nat.max n 1) v)) as (r & Hr & _). fold t in Hr.
    apply (f_equal length) in Hr. rewrite length_app, length_take in Hr. destruct v; [done|]. simpl in *. lia. }
  destruct t as [|c t0] eqn:Et.
  - rewrite dget_ddel. split; [|simpl; destruct v; [done|simpl; lia]]. constructor; [intros; by apply dget_ddel_ne|..].
    + by rewrite dget_ddel.
    + rewrite dget_ddel, Hv. split; congruence.
  - rewrite dget_dset_eq. split; [|done]. constructor; [intros; by apply dget_dset_ne|..].
    + intros v'. rewrite dget_dset_eq. intros [= <-]. by exists v.
    + rewrite dget_dset_eq, Hv. split; congruence.
Qed.

(** The loop reaches its exit: the section's length bounds its turns. *)
Lemma trim_loop_spec fuel key secs : length (value key secs) < fuel ->
  let '(secs', doc') := trim_loop fuel key secs (render secs) in
  cut key secs secs' /\ doc' = render secs' /\ (length doc' <= SIGNATURE_MAX_CHARS \/ value key secs' = []).
Proof.
  revert secs. induction fuel as [|f IH]; intros secs Hf; [lia|]. cbn [trim_loop].
  destruct (dget key secs) as [v|] eqn:Ev.
  2: { split_and!; [apply cut_refl|done|right; unfold value; by rewrite Ev]. }
  destruct v as [|c v]; [split_and!; [apply cut_refl|done|right; unfold value; by rewrite Ev]|].
  destruct (Nat.ltb_spec SIGNATURE_MAX_CHARS (length (render secs))) as [Hlt|Hge].
  - destruct (trim_step_cut key (c :: v) (length (render secs) - SIGNATURE_MAX_CHARS) secs Ev ltac:(done)) as [Hc Hl].
    specialize (IH (trim_step key (c :: v) (length (render secs) - SIGNATURE_MAX_CHARS) secs)).
    unfold value in Hf at 1. rewrite Ev in Hf. simpl in Hf, Hl.
    destruct (trim_loop f key _ _) as [secs' doc']. destruct IH as (H1 & H2 & H3); [lia|].
    split_and!; [by eapply cut_trans|done..].
  - split_and!; [apply cut_refl|done|by left].
Qed.

Lemma trim_spec key secs : let '(secs', doc') := trim key (secs, render secs) in
  cut key secs secs' /\ doc' = render secs' /\ (length doc' <= SIGNATURE_MAX_CHARS \/ value key secs' = []).
Proof. apply trim_loop_spec. unfold value. simpl. lia. Qed.

(** Nothing is cut from a document that fits. *)
Lemma trim_fits key secs : length (render secs) <= SIGNATURE_MAX_CHARS -> trim key (secs, render secs) = (secs, render secs).
Proof.
  intros Hle. unfold trim. cbn [fst snd trim_loop]. destruct (dget key secs) as [[|c v]|]; [done| |done].
  by destruct (Nat.ltb_spec SIGNATURE_MAX_CHARS (length (render secs))); [lia|].
Qed.

(** The anchors, and the other sections. *)
Definition anchor (k : section) : bool := bool_decide (k ∈ [TEST; EXC; CODES]).

(** What no truncation of sections can take away: the anchors, and what is empty. *)
Definition floor (secs : sections) : ustr :=
  unlines (omap (fun k => v ← dget k secs;
    if anchor k || bool_decide (v = []) then Some (section_name k ++ u ": " ++ v) else None) order).

(** What truncation makes of the sections: the anchors whole, the others cut in
    order of priority. *)
Record truncated (secs secs' : sections) : Prop := {
  anchors : forall k, k ∈ [TEST; EXC; CODES] -> dget k secs' = dget k secs;
  prefixes : forall k v', dget k secs' = Some v' -> exists v, dget k secs = Some v /\ v' `prefix_of` v;
  msg_first : dget TEMPLATES secs' <> dget TEMPLATES secs -> value MSG secs' = [];
  templates_next : dget FRAMES secs' <> dget FRAMES secs -> value MSG secs' = [] /\ value TEMPLATES secs' = [];
  exhausted : length (render secs') <= SIGNATURE_MAX_CHARS
              \/ (value MSG secs' = [] /\ value TEMPLATES secs' = [] /\ value FRAMES secs' = []);
  emptied : forall k, anchor k = false -> (dget k secs' = Some [] <-> dget k secs = Some [])
}.

(** Sections cut down to nothing leave the anchors alone. *)
Lemma truncated_floor secs secs' : truncated secs secs' -> SIGNATURE_MAX_CHARS < length (render secs') ->
  render secs' = floor secs.
Proof.
  intros [Ha Hp _ _ [Hx|(HM & HT & HF)] He] Hlt; [lia|]. unfold render, floor. f_equal.
  assert (forall k, anchor k = false -> value k secs' = []) as Hv by (by intros []).
  apply omap_ext_in. intros k _. destruct (anchor k) eqn:Ek.
  - apply bool_decide_eq_true in Ek. rewrite (Ha k Ek). by destruct (dget k secs).
  - specialize (He k Ek). specialize (Hv k Ek). specialize (Hp k). unfold value in Hv.
    destruct (dget k secs') as [v'|].
    + simpl in Hv. subst v'. by rewrite (proj1 He eq_refl).
    + destruct (dget k secs) as [v|]; [|done]. cbn. rewrite bool_decide_eq_false_2; [done|].
      intros ->. by pose proof (proj2 He eq_refl).
Qed.

Lemma truncate_spec secs : exists secs', truncated secs secs'
  /\ _truncate_signature secs = take SIGNATURE_MAX_CHARS (render secs')
  /\ (length (render secs) <= SIGNATURE_MAX_CHARS -> secs' = secs).
Proof.
  unfold _truncate_signature. destruct (Nat.leb_spec (length (render secs)) SIGNATURE_MAX_CHARS) as [Hle|Hgt].
  { exists secs. split_and!; [|by rewrite take_ge|done]. constructor; [done| |done|done|by left|done]. intros k v' Hv. by exists v'. }
  cbn [fold_left].
  destruct (trim MSG (secs, render secs)) as [s1 d1] eqn:E1. pose proof (trim_spec MSG secs) as T1. rewrite E1 in T1.
  destruct T1 as ([C1 P1 N1] & -> & X1).
  destruct (trim TEMPLATES (s1, render s1)) as [s2 d2] eqn:E2. pose proof (trim_spec TEMPLATES s1) as T2. rewrite E2 in T2.
  destruct T2 as ([C2 P2 N2] & -> & X2).
  destruct (trim FRAMES (s2, render s2)) as [s3 d3] eqn:E3. pose proof (trim_spec FRAMES s2) as T3. rewrite E3 in T3.
  destruct T3 as ([C3 P3 N3] & -> & X3).
  assert (forall k, k <> FRAMES -> value k s3 = value k s2) as V3 by (intros; unfold value; by rewrite C3).
  assert (forall k, k <> TEMPLATES -> value k s2 = value k s1) as V2 by (intros; unfold value; by rewrite C2).
  exists s3. split_and!; [|done|lia]. constructor.
  - intros k Hk. elem_cases Hk; by rewrite C3, C2, C1.
  - intros k v' Hv. destruct (decide (k = FRAMES)) as [->|HF].
    + apply P3 in Hv. by rewrite C2, C1 in Hv.
    + rewrite C3 in Hv by done. destruct (decide (k = TEMPLATES)) as [->|HT].
      * apply P2 in Hv. by rewrite C1 in Hv.
      * rewrite C2 in Hv by done. destruct (decide (k = MSG)) as [->|HM]; [by apply P1|].
        rewrite C1 in Hv by done. by exists v'.
  - rewrite C3 by done. intros Hne. rewrite V3, V2 by done. destruct X1 as [X1|X1]; [|done].
    rewrite (trim_fits TEMPLATES s1 X1) in E2. injection E2 as <-. by rewrite C1 in Hne.
  - intros Hne. assert (SIGNATURE_MAX_CHARS < length (render s2)) as Hbig.
    { destruct (Nat.le_gt_cases (length (render s2)) SIGNATURE_MAX_CHARS) as [Hle|]; [|done].
      rewrite (trim_fits FRAMES s2 Hle) in E3. injection E3 as <-. by rewrite C2, C1 in Hne. }
    destruct X2 as [X2|X2]; [lia|]. rewrite !V3, V2 by done. split; [|done].
    destruct X1 as [X1|X1]; [|done]. rewrite (trim_fits TEMPLATES s1 X1) in E2. injection E2 as <-. lia.
  - destruct X3 as [X3|X3]; [by left|].
    destruct (Nat.le_gt_cases (length (render s2)) SIGNATURE_MAX_CHARS) as [Hle|Hbig].
    { left. rewrite (trim_fits FRAMES s2 Hle) in E3. by injection E3 as <-. }
    right. destruct X2 as [X2|X2]; [lia|]. rewrite !V3, V2 by done. split_and!; [|done..].
    destruct X1 as [X1|X1]; [|done]. rewrite (trim_fits TEMPLATES s1 X1) in E2. injection E2 as <-. lia.
  - intros [] Hk; try done.
    + by rewrite C3, C2.
    + by rewrite N3, C2, C1.
    + by rewrite C3, N2, C1.
Qed.

Section Spec.
Context `{!Unicode, !XXHash}.

(** C11. The signature document always fits its cap of 2000 characters; to fit, MSG,
    TEMPLATES and FRAMES are cut to a prefix, TEMPLATES not before MSG is gone and
    FRAMES not before both are, and the anchors TEST, EXC and CODES are kept in full,
    unless they alone (with what was empty from the start) are longer than the cap:
    then the document is their first 2000 characters, and the last anchors are cut.
    The loop over a field always ends, and when it gives up the document fits or all
    three fields are empty.  A document that fits is left whole. *)
Theorem document_bounded (test_item_name : ustr) (exc_classes : list ustr) (msg_text : ustr)
    (frames template_hashes status_codes : list ustr) :
  let secs := document_sections test_item_name exc_classes msg_text frames template_hashes status_codes in
  let doc := build_signature_document test_item_name exc_classes msg_text frames template_hashes status_codes in
  length doc <= SIGNATURE_MAX_CHARS
  /\ exists secs', truncated secs secs'
     /\ (length (render secs) <= SIGNATURE_MAX_CHARS -> secs' = secs)
     /\ (doc = render secs'
         \/ SIGNATURE_MAX_CHARS < length (floor secs) /\ doc = take SIGNATURE_MAX_CHARS (floor secs)).
Proof.
  cbv zeta. unfold build_signature_document. set (secs := document_sections _ _ _ _ _ _).
  destruct (truncate_spec secs) as (secs' & Ht & Hd & Hf). split; [rewrite Hd, length_take; lia|].
  exists secs'. split_and!; [done..|]. rewrite Hd. destruct (Nat.le_gt_cases (length (render secs')) SIGNATURE_MAX_CHARS) as [Hle|Hgt].
  - left. by apply take_ge.
  - right. by rewrite <- (truncated_floor secs secs' Ht Hgt).
Qed.

(** Anchors are cut when they are long: here the exception fills the document and
    its status codes are lost. *)
Lemma long_anchors_cut :
  build_signature_document [] [replicate 2100 97%N] (u "boom") [] [] [u "500"] = u "EXC: " ++ replicate 1995 97%N.
Proof. vm_compute. reflexivity. Qed.

(** ** Frames and exceptions *)

Lemma dedupe_spec seq : NoDup (_dedupe seq) /\ _dedupe seq `sublist_of` seq /\ [] ∉ _dedupe seq
  /\ forall x, x ∈ seq -> x <> [] -> x ∈ _dedupe seq.
Proof.
  change (_dedupe seq) with (first_seen (fun item => negb (bool_decide (item = []))) (fun item : ustr => item) seq).
  pose proof (first_seen_nodup (fun item => negb (bool_decide (item = []))) (fun item : ustr => item) seq) as H1.
  pose proof (first_seen_keep (fun item => negb (bool_decide (item = []))) (fun item : ustr => item) seq) as H2.
  rewrite list_fmap_id in H1. split_and!; [done|apply first_seen_sublist| |].
  - intros Hin. apply (proj1 (Forall_forall _ _) H2) in Hin. done.
  - intros x Hx Hne. pose proof (first_seen_all (fun item => negb (bool_decide (item = []))) (fun item : ustr => item) seq x Hx) as H3.
    rewrite list_fmap_id in H3. apply H3. by rewrite bool_decide_eq_false_2.
Qed.

Lemma elem_of_filter_b {A} (p : A -> bool) x l : x ∈ List.filter p l <-> p x = true /\ x ∈ l.
Proof. rewrite !list_elem_of_In, filter_In. tauto. Qed.

Lemma NoDup_filter_b {A} (p : A -> bool) (l : list A) : NoDup l -> NoDup (List.filter p l).
Proof.
  induction 1 as [|x l Hx Hl IH]; simpl; [constructor|]. destruct (p x); [|done]. constructor; [|done].
  intros [_ Hin]%elem_of_filter_b. done.
Qed.

Lemma frame_of_kept line f : frame_of line = Some f -> _is_dropped f = false.
Proof.
  unfold frame_of. destruct (is_line_from_stacktrace line); [|done]. destruct (_parse_frame line) as [g|]; [|done].
  cbv beta iota delta [mbind option_bind option_fmap fmap option_map].
  destruct (_is_dropped (normalize_class g)) eqn:E; [done|]. by intros [= <-].
Qed.

(** The frames of a signature are at most three, without repetition, non-empty,
    parsed from the stack trace, none from a framework of the denylist and none of
    the generated prefixes that are dropped; the in-app ones come before the
    padding, in the order of the trace; and when there are fewer than three, no
    usable frame of the trace was left out. *)
Theorem select_frames_spec (stack_raw : ustr) (in_app_prefixes : option (list ustr)) :
  let frames := select_frames stack_raw in_app_prefixes in
  let parsed := _dedupe (omap frame_of (lines stack_raw)) in
  length frames <= TOP_FRAMES /\ NoDup frames
  /\ Forall (fun f => f <> [] /\ f ∈ parsed /\ denied f = false /\ _is_dropped f = false) frames
  /\ (exists a b, frames = a ++ b /\ a `prefix_of` List.filter (fun f => _is_in_app f in_app_prefixes) parsed
        /\ Forall (fun f => _is_in_app f in_app_prefixes = false) b)
  /\ (length frames < TOP_FRAMES -> forall f, f ∈ parsed -> denied f = false -> f ∈ frames).
Proof.
  cbv zeta. unfold select_frames. set (parsed := _dedupe (omap frame_of (lines stack_raw))).
  destruct (dedupe_spec (omap frame_of (lines stack_raw))) as (Hnd & Hsub & Hne & _). fold parsed in Hnd, Hsub, Hne.
  set (in_app := List.filter (fun f => _is_in_app f in_app_prefixes) parsed).
  assert (forall f, f ∈ in_app -> f ∈ parsed /\ denied f = false /\ _is_in_app f in_app_prefixes = true) as Hin.
  { intros f [Ha Hf]%elem_of_filter_b. split_and!; [done| |done]. unfold _is_in_app in Ha. by destruct (denied f). }
  assert (forall f, f ∈ parsed -> f <> [] /\ _is_dropped f = false) as Hp.
  { intros f Hf. split; [by intros ->|]. apply (fun h => elem_of_sublist _ _ _ h Hsub) in Hf.
    apply list_elem_of_omap in Hf as (line & _ & Hl). by eapply frame_of_kept. }
  destruct (Nat.leb_spec TOP_FRAMES (length in_app)) as [Hle|Hgt].
  - split_and!.
    + rewrite length_take. lia.
    + eapply sublist_NoDup; [by apply NoDup_filter_b|apply sublist_take].
    + apply Forall_take, Forall_forall. intros f Hf. destruct (Hin f Hf) as (H1 & H2 & _). by destruct (Hp f H1).
    + exists (take TOP_FRAMES in_app), []. split_and!; [by rewrite app_nil_r| |done]. exists (drop TOP_FRAMES in_app). by rewrite take_drop.
    + rewrite length_take. unfold TOP_FRAMES in *. lia.
  - set (padding := List.filter _ parsed).
    assert (forall f, f ∈ padding <-> f ∈ parsed /\ f ∉ in_app /\ denied f = false) as Hpad.
    { intros f. unfold padding. rewrite elem_of_filter_b, andb_true_iff, !negb_true_iff, bool_decide_eq_false. tauto. }
    assert (NoDup (in_app ++ padding)) as Hall.
    { apply NoDup_app. split_and!; [by apply NoDup_filter_b| |by apply NoDup_filter_b]. by intros f Hf (_ & ? & _)%Hpad. }
    split_and!.
    + rewrite length_take. lia.
    + eapply sublist_NoDup; [done|apply sublist_take].
    + apply Forall_take, Forall_forall. intros f [Hf|Hf]%elem_of_app.
      * destruct (Hin f Hf) as (H1 & H2 & _). by destruct (Hp f H1).
      * apply Hpad in Hf as (H1 & _ & H2). by destruct (Hp f H1).
    + exists in_app, (take (TOP_FRAMES - length in_app) padding). split_and!; [by rewrite take_app, take_ge by lia|done|].
      apply Forall_take, Forall_forall. intros f (H1 & H2 & _)%Hpad. apply not_true_iff_false. intros Ha. by apply H2, elem_of_filter_b.
    + rewrite length_take. intros Hlt f Hf Hd. rewrite take_ge by lia. apply elem_of_app.
      destruct (decide (f ∈ in_app)); [by left|right; by apply Hpad].
Qed.

(** The exception chain of a signature: at most four classes, distinct and
    non-empty, each the normalized name of an exception that was found; when the
    text says an exception was caused by another, the first class is the last
    exception's (the root cause), otherwise the first exception's. *)
Theorem exception_chain_spec (exceptions : list ustr) (chain_text : ustr) :
  let chain := extract_exception_chain exceptions chain_text in
  length chain <= MAX_EXCEPTION_CLASSES /\ NoDup chain
  /\ Forall (fun c => c <> [] /\ c ∈ normalize_class <$> exceptions) chain
  /\ (forall root, (if re_found _CHAIN_MARKER chain_text then last exceptions else head exceptions) = Some root ->
        normalize_class root <> [] -> head chain = Some (normalize_class root)).
Proof.
  cbv zeta. unfold extract_exception_chain.
  assert (forall c, c ∈ root_first exceptions chain_text <-> c ∈ exceptions) as Hel.
  { intros c. unfold root_first. destruct (last exceptions) as [r|] eqn:El; [|done]. destruct (re_found _ _); [|done].
    apply last_Some in El as [l ->]. rewrite removelast_last, elem_of_cons, elem_of_app, list_elem_of_singleton. tauto. }
  set (norm := normalize_class <$> root_first exceptions chain_text).
  destruct (dedupe_spec norm) as (Hnd & Hsub & Hne & _). split_and!.
  - rewrite length_take. lia.
  - eapply sublist_NoDup; [done|apply sublist_take].
  - apply Forall_take, Forall_forall. intros c Hc. split; [by intros ->|]. apply (fun h => elem_of_sublist _ _ _ h Hsub) in Hc.
    apply list_elem_of_fmap in Hc as (e & -> & He). apply list_elem_of_fmap. exists e. split; [done|]. by apply Hel.
  - intros root Hr Hroot.
    assert (exists rest, root_first exceptions chain_text = root :: rest) as [rest Hn].
    { unfold root_first. destruct (re_found _CHAIN_MARKER chain_text); [rewrite Hr; by eexists|].
      destruct exceptions as [|e es]; [done|]. injection Hr as ->. destruct (last (root :: es)); by eexists. }
    unfold norm. rewrite Hn, fmap_cons. generalize (normalize_class <$> rest). generalize dependent (normalize_class root).
    clear. intros c Hroot rest. assert (exists l, _dedupe (c :: rest) = c :: l) as [l ->]; [|done].
    unfold _dedupe. simpl. unfold line_seen at 2. simpl. rewrite (bool_decide_eq_false_2 (_ = [])) by done. simpl.
    generalize [c] at 1. intros seen.
    assert (forall acc, exists l, (fold_left (line_seen (fun item => negb (bool_decide (item = []))) (fun item : ustr => item)) rest
             (seen, c :: acc)).2 = c :: l) as Hf; [|apply (Hf [])].
    clear. revert seen. induction rest as [|x rest IH]; intros seen acc; simpl; [by exists acc|].
    unfold line_seen at 2. simpl. destruct (_ && _); [apply (IH _ (acc ++ [x]))|apply IH].
Qed.
End Spec.

(** ** Identity *)

Lemma str_of_Z_hash_free z : 35%N ∉ u (str_of_Z z).
Proof. apply u_free, sany_str_of_Z; [|done]. intros n _. unfold pretty_N_char. repeat case_match; done. Qed.

Lemma ujoin_char_free c sep xs : c ∉ sep -> Forall (fun x => c ∉ x) xs -> c ∉ ujoin sep xs.
Proof.
  intros Hs. induction 1 as [|x xs Hx Hxs IH]; [apply not_elem_of_nil|]. destruct xs as [|y ys]; [done|].
  rewrite ujoin_cons, !elem_of_app. intros [?|[?|?]]; done.
Qed.

Lemma ujoin_inj c xs ys : Forall (fun x => x <> [] /\ c ∉ x) xs -> Forall (fun x => x <> [] /\ c ∉ x) ys ->
  ujoin [c] xs = ujoin [c] ys -> xs = ys.
Proof.
  assert (forall l, Forall (fun x => x <> [] /\ c ∉ x) l -> Forall (fun x => c ∉ x) l) as Hf
    by (intros l Hl; eapply Forall_impl; [exact Hl|]; by intros x [_ ?]).
  assert (forall l, Forall (fun x => x <> [] /\ c ∉ x) l -> ujoin [c] l = [] -> l = []) as Hnil.
  { intros [|x [|y l]] Hl; [done|..]; apply Forall_cons in Hl as [[Hx _] _]; simpl; [done|].
    intros [? _]%app_nil. done. }
  intros Hx Hy E. destruct xs as [|x xs]; [symmetry; by apply Hnil|].
  destruct ys as [|y ys]; [by apply Hnil in E|].
  rewrite <- (usplit_ujoin c (x :: xs)), E by (try done; by apply Hf). by rewrite usplit_ujoin by (try done; by apply Hf).
Qed.

(** A template hash as the miner writes it. *)
Definition plain_hash (h : ustr) : Prop := h <> [] /\ Forall (fun c => is_Some (hex_of_digit c)) h.

Lemma plain_hash_free h : plain_hash h -> h <> [] /\ 124%N ∉ h /\ 35%N ∉ h.
Proof.
  intros [Hne Hf]. split; [done|]. split; intros Hin; apply (proj1 (Forall_forall _ _) Hf) in Hin as [v Hv]; done.
Qed.

Lemma hex16_plain v : (0 <= v)%Z -> plain_hash (hex16 v).
Proof.
  intros Hv. split; [intros E; by pose proof (hexdigits_length 16 v) as Hl; unfold hex16 in E; rewrite E in Hl|].
  apply Forall_forall. intros c. by apply hexdigits_char.
Qed.

(** The text behind an error hash determines the fingerprint and the sequence of
    templates, so two failures share it only when they agree on both. *)
Lemma error_payload_inj fp fp' hs hs' : Forall plain_hash hs -> Forall plain_hash hs' ->
  error_payload fp hs = error_payload fp' hs' -> fp = fp' /\ hs = hs'.
Proof.
  intros Hh Hh' E. unfold error_payload in E. change (u "#") with [35%N] in E. apply (f_equal (usplit 35%N)) in E.
  change (?a ++ [35%N] ++ ?b) with (a ++ 35%N :: b) in E. rewrite !usplit_app_sep in E by apply str_of_Z_hash_free.
  assert (forall l, Forall plain_hash l -> Forall (fun x => x <> [] /\ 124%N ∉ x) l /\ 35%N ∉ ujoin (u "|") l) as Hl.
  { intros l Hl. split.
    - eapply Forall_impl; [exact Hl|]. intros h (? & ? & _)%plain_hash_free. done.
    - apply ujoin_char_free; [by apply (bool_decide_eq_true_1 (_ ∉ _))|]. eapply Forall_impl; [exact Hl|].
      by intros h (_ & _ & ?)%plain_hash_free. }
  destruct (Hl _ Hh) as [H1 H2], (Hl _ Hh') as [H1' H2']. rewrite !usplit_single in E by done. injection E as Ef Ej. split.
  - apply u_inj in Ef. by apply (inj pretty) in Ef.
  - by apply (ujoin_inj 124%N).
Qed.

Section Context.
Context `{!Unicode, !XXHash}.

(** What a signature says besides its message and its document. *)
Definition identity_part (r : SigResult.t) : SigResult.t :=
  SigResult.mk [] (SigResult.exception_fp r) (SigResult.error_hash r) (SigResult.exc_classes r) (SigResult.frames r)
    (SigResult.template_hashes r) (SigResult.status_codes r) [] (SigResult.is_assertion r) (SigResult.has_stacktrace r)
    (SigResult.is_merged_small_logs r).

(** The near-error context enters the message and the document, never the identity. *)
Lemma context_no_identity name logs prefixes c c' :
  identity_part <$> build_item_signature name logs prefixes c = identity_part <$> build_item_signature name logs prefixes c'.
Proof.
  unfold build_item_signature. destruct (_select_primary logs) as [primary|]; [|done].
  destruct (exception_fingerprint _ _) as [fp|]; [|done]. cbn [mbind result_bind].
  destruct (error_hash _ _) as [eh|]; [|done]. done.
Qed.
End Context.
