(* ===== verification/Pipeline.v ===== *)
(** * From raw logs to a signature

    [preprocessing/log_preparation.py], [preprocessing/prepared_log.py] and
    [preprocessing/pipeline.py]: the ordered cleaning stages, the filter of an
    item's logs, its near-error context, and the item flow that feeds the miner
    and builds the signature. *)

From S2P Require Import Prelude PyFloat PyStr Regex RegexTheory PyText UrlCodec TextProc Hashing Drain Signature.
From Stdlib Require Import NArith ZArith Lia.

#[local] Open Scope string_scope.
#[local] Open Scope list_scope.
#[local] Open Scope Z_scope.

Section Prepare.
Context `{!Unicode}.

(** ** log_preparation.py *)

Definition basic_prepare (message : ustr) : ustr :=
  let m := ustrip message in
  let m := remove_starting_log_level m in
  let m := remove_starting_datetime m in
  let m := remove_starting_log_level m in
  let m := remove_starting_thread_id m in
  let m := remove_starting_thread_name m in
  let m := remove_starting_log_level m in
  let m := unify_line_endings m in
  let m := remove_markdown_mode m in
  delete_empty_lines m.

Definition clean_message (basic_message : ustr) : ustr :=
  let m := replace_code_separators basic_message in
  let m := remove_webdriver_auxiliary_info m in
  let m := replace_tabs_for_newlines m in
  let m := fix_big_encoded_urls m in
  let m := remove_generated_parts m in
  let m := remove_guid_uuids_from_text m in
  let m := remove_access_tokens m in
  let m := remove_hex_from_text m in
  let m := clean_html m in
  delete_empty_lines m.

Definition unify_message (basic_message : ustr) : ustr := leave_only_unique_lines (clean_message basic_message).

Definition prepare_exception_message_and_stacktrace (message : ustr) : ustr * ustr :=
  let '(exception_message, stacktrace) := detect_log_description_and_stacktrace message in
  (exception_message, remove_numbers (clean_from_brackets stacktrace)).
End Prepare.

(** ** prepared_log.py: the views of one message, each computed once *)

Module Prepared.
Section Views.
Context `{!Unicode}.
Variable original_message : ustr.
Definition basic_message : ustr := basic_prepare original_message.
Definition clean_message : ustr := unify_message basic_message.
Definition _split_exception : ustr * ustr := prepare_exception_message_and_stacktrace clean_message.
Definition exception_message : ustr := fst _split_exception.
Definition stacktrace : ustr := snd _split_exception.
Definition exception_message_urls_list : list ustr := extract_urls exception_message.
Definition exception_message_no_urls : ustr := remove_urls exception_message (get_unique_strings exception_message_urls_list).
Definition exception_message_paths : ustr := ujoin (u " ") (extract_paths exception_message_no_urls).
Definition exception_message_potential_status_codes : ustr := ujoin (u " ") (get_potential_status_codes exception_message).
Definition exception_found : ustr := ujoin (u " ") (get_found_exceptions (remove_numbers exception_message) false).
End Views.
End Prepared.

(** ** pipeline.py *)

Definition ERROR_LOGGING_LEVEL : Z := 40000.
Definition WARN_LOGGING_LEVEL : Z := 30000.
Definition CONTEXT_LOOKBACK_LINES : Z := 5.
Definition SIMILARITY_THRESHOLD_TO_DROP : pyfloat := Eval vm_compute in dec 95 100.
Definition NUMBER_OF_LOGS_TO_INDEX : Z := 20.
Definition SMALL_LOG_MAX_CHARS : nat := 100.

Module LogInput.
Record t := mk { message : ustr; log_level : Z }.
End LogInput.

Module CleanedLog.
Record t := mk {
  unified : ustr; msg : ustr; stack_raw : ustr; stack : ustr; exceptions : list ustr;
  status_codes : list ustr; urls : list ustr; paths : list ustr; has_stacktrace : bool
}.
End CleanedLog.

(** The gate of [filter_item_logs] and of the first-error scan. *)
Definition is_error (log : LogInput.t) : bool :=
  (ERROR_LOGGING_LEVEL <=? LogInput.log_level log) && negb (blank (LogInput.message log)).
Definition is_context (log : LogInput.t) : bool :=
  (WARN_LOGGING_LEVEL <=? LogInput.log_level log) && (LogInput.log_level log <? ERROR_LOGGING_LEVEL)
  && negb (blank (LogInput.message log)).

Section Filter.
Context `{!Unicode, !Tfidf}.

Definition drop_near_duplicates (messages : list ustr) : list ustr :=
  if (1 <? length messages)%nat then
    match find_last_unique_texts SIMILARITY_THRESHOLD_TO_DROP messages with
    | Ok keep => omap (fun i => messages !! i) keep
    | Raise _ => messages
    end
  else messages.

Definition filter_item_logs (logs : list LogInput.t) (max_logs : Z) : list ustr :=
  last_slice max_logs (drop_near_duplicates (LogInput.message <$> List.filter is_error logs)).

(** The logs before the first error; [None] when there is none. *)
Fixpoint before_error (logs : list LogInput.t) : option (list LogInput.t) :=
  match logs with
  | [] => None
  | log :: logs' => if is_error log then Some [] else cons log <$> before_error logs'
  end.

Definition extract_context_lines (logs : list LogInput.t) (lookback : Z) : list ustr :=
  match before_error logs with
  | None => []
  | Some pre => last_slice lookback (LogInput.message <$> List.filter is_context pre)
  end.
End Filter.

Section Clean.
Context `{!Unicode}.

Definition clean_log (raw_message : ustr) : CleanedLog.t :=
  let unified := unify_message (basic_prepare raw_message) in
  let '(msg, stack_raw) := detect_log_description_and_stacktrace unified in
  let urls := extract_urls msg in
  {| CleanedLog.unified := unified; CleanedLog.msg := msg; CleanedLog.stack_raw := stack_raw;
     CleanedLog.stack := remove_numbers (clean_from_brackets stack_raw);
     CleanedLog.exceptions := get_found_exceptions unified false;
     CleanedLog.status_codes := get_unique_potential_status_codes msg;
     CleanedLog.urls := urls; CleanedLog.paths := extract_paths (remove_urls msg urls);
     CleanedLog.has_stacktrace := negb (blank stack_raw) |}.

Definition is_small_log (m : ustr) : bool :=
  (length m <? SMALL_LOG_MAX_CHARS)%nat && negb (existsb is_line_from_stacktrace (lines m)).
Definition maybe_merge_small_logs (messages : list ustr) : list ustr * bool :=
  if (length messages <? 2)%nat then (messages, false)
  else if forallb is_small_log messages then ([unlines messages], true) else (messages, false).
End Clean.

Section Item.
Context `{!Unicode, !Tfidf, !XXHash, !TemplateMiner}.

Definition processed (cleaned : CleanedLog.t) (template_hashes : list ustr) : ProcessedLog.t :=
  {| ProcessedLog.msg := CleanedLog.msg cleaned; ProcessedLog.stack_raw := CleanedLog.stack_raw cleaned;
     ProcessedLog.exceptions := CleanedLog.exceptions cleaned; ProcessedLog.status_codes := CleanedLog.status_codes cleaned;
     ProcessedLog.template_hashes := template_hashes; ProcessedLog.has_stacktrace := CleanedLog.has_stacktrace cleaned |}.

Definition process_log (raw_message : ustr) (drain : manager) : result (manager * ProcessedLog.t) :=
  let cleaned := clean_log raw_message in
  '(drain, hits) ← add_message drain (CleanedLog.unified cleaned);
  Ok (drain, processed cleaned (TemplateHit.hash_hex <$> hits)).

Fixpoint process_logs (messages : list ustr) (drain : manager) : result (manager * list ProcessedLog.t) :=
  match messages with
  | [] => Ok (drain, [])
  | m :: ms =>
      '(drain, p) ← process_log m drain;
      '(drain, ps) ← process_logs ms drain;
      Ok (drain, p :: ps)
  end.

Definition merged_result (r : SigResult.t) : SigResult.t :=
  SigResult.mk (SigResult.signature_text r) (SigResult.exception_fp r) (SigResult.error_hash r) (SigResult.exc_classes r)
    (SigResult.frames r) (SigResult.template_hashes r) (SigResult.status_codes r) (SigResult.msg_text r)
    (SigResult.is_assertion r) (SigResult.has_stacktrace r) true.

(** The flow of one item; the miner as it is left. *)
Definition build_item_signature (test_item_name : ustr) (logs : list LogInput.t) (drain : manager)
    (in_app_prefixes : option (list ustr)) (merge_small_logs : bool) : result (manager * SigResult.t) :=
  match filter_item_logs logs NUMBER_OF_LOGS_TO_INDEX with
  | [] => Ok (drain, SigResult.empty)
  | kept =>
      let context_msgs := extract_context_lines logs CONTEXT_LOOKBACK_LINES in
      let '(kept, is_merged) := if merge_small_logs then maybe_merge_small_logs kept else (kept, false) in
      '(drain, ps) ← process_logs kept drain;
      r ← Signature.build_item_signature test_item_name ps in_app_prefixes context_msgs;
      Ok (drain, if is_merged then merged_result r else r)
  end.
End Item.

(** ** What is kept of an item's logs *)

(** Reading a list at increasing indices gives a sublist. *)
Lemma omap_lookup_sublist {A} (l : list A) is_ k : StronglySorted lt is_ -> Forall (fun i => k <= i)%nat is_ ->
  omap (fun i => l !! i) is_ `sublist_of` drop k l.
Proof.
  intros Hs. revert k. induction Hs as [|i is_ Hs IH Hi]; intros k Hk; [apply sublist_nil_l|].
  apply Forall_cons in Hk as [Hki Hk]. simpl.
  assert (drop i l `sublist_of` drop k l) as Hd.
  { replace i with (k + (i - k))%nat by lia. rewrite <- drop_drop. apply sublist_drop. }
  assert (omap (fun i => l !! i) is_ `sublist_of` drop (S i) l) as Ho.
  { apply IH. eapply Forall_impl; [exact Hi|]. simpl. lia. }
  destruct (l !! i) as [x|] eqn:Ex.
  - etransitivity; [|exact Hd]. rewrite (drop_S _ _ _ Ex). by constructor.
  - etransitivity; [exact Ho|]. etransitivity; [|exact Hd]. replace (S i) with (i + 1)%nat by lia. rewrite <- drop_drop. apply sublist_drop.
Qed.

Lemma last_omap_lookup {A} (l : list A) is_ i x : last is_ = Some i -> l !! i = Some x -> last (omap (fun i => l !! i) is_) = Some x.
Proof. intros [is' ->]%last_Some Hx. rewrite omap_app. simpl. rewrite Hx. by rewrite last_snoc. Qed.

(** A slice of the last [k] elements, [k] positive. *)
Lemma last_slice_spec {A} k (l : list A) : 0 < k ->
  last_slice k l `sublist_of` l /\ (length (last_slice k l) <= Z.to_nat k)%nat /\ last (last_slice k l) = last l.
Proof.
  intros Hk. unfold last_slice. rewrite (proj2 (Z.ltb_lt _ _)) by done. split_and!; [apply sublist_drop|rewrite length_drop; lia|].
  destruct l as [|x l' _] using rev_ind; [by rewrite drop_nil|]. rewrite drop_app_le by (rewrite length_app; simpl; lia).
  by rewrite !last_snoc.
Qed.

Section Kept.
Context `{!Unicode, !Tfidf}.

Definition error_messages (logs : list LogInput.t) : list ustr := LogInput.message <$> List.filter is_error logs.

Lemma error_messages_none logs : error_messages logs = [] <-> Forall (fun log => is_error log = false) logs.
Proof.
  unfold error_messages. induction logs as [|l ls IH]; simpl; [split; [constructor|done]|].
  destruct (is_error l) eqn:E; [split; [done|]; intros [? _]%Forall_cons; congruence|].
  rewrite IH, Forall_cons. tauto.
Qed.

Lemma drop_near_duplicates_spec messages :
  drop_near_duplicates messages `sublist_of` messages /\ last (drop_near_duplicates messages) = last messages.
Proof.
  unfold drop_near_duplicates. destruct (Nat.ltb_spec 1 (length messages)) as [Hlt|]; [|done].
  destruct (find_last_unique_texts _ messages) as [keep|e] eqn:E; [|done].
  apply find_last_unique_texts_spec in E as (sim & _ & Hs & _ & Hl & _). split.
  - pose proof (omap_lookup_sublist messages keep 0) as Ho. rewrite drop_0 in Ho. apply Ho; [done|]. apply Forall_forall. lia.
  - destruct (last messages) as [x|] eqn:Em; [|apply last_None in Em as ->; simpl in Hlt; lia].
    eapply last_omap_lookup; [exact Hl|]. rewrite last_lookup in Em. by replace (length messages - 1)%nat with (pred (length messages)) by lia.
Qed.

(** What is kept of an item's logs for its signature: messages of error logs
    only, in their order, at most the configured number of them, with the last
    error always among them (it is the last) - so an item with an error log always
    keeps one, and an item without keeps none. *)
Theorem filter_item_logs_spec (logs : list LogInput.t) (max_logs : Z) (Hmax : 0 < max_logs) :
  let kept := filter_item_logs logs max_logs in
  kept `sublist_of` error_messages logs
  /\ (length kept <= Z.to_nat max_logs)%nat
  /\ last kept = last (error_messages logs)
  /\ (kept = [] <-> Forall (fun log => is_error log = false) logs).
Proof.
  cbv zeta. unfold filter_item_logs. fold (error_messages logs).
  destruct (drop_near_duplicates_spec (error_messages logs)) as [Hs Hl].
  destruct (last_slice_spec max_logs (drop_near_duplicates (error_messages logs)) Hmax) as (Hs' & Hn & Hl').
  split_and!; [by etransitivity|done|congruence|].
  rewrite <- last_None, Hl', Hl, last_None. apply error_messages_none.
Qed.

(** The context of the first error: what precedes it, at warning level. *)
Lemma extract_context_lines_spec logs lookback : 0 < lookback ->
  (length (extract_context_lines logs lookback) <= Z.to_nat lookback)%nat
  /\ (Forall (fun log => is_error log = false) logs -> extract_context_lines logs lookback = [])
  /\ forall pre log post, logs = pre ++ log :: post -> Forall (fun l => is_error l = false) pre -> is_error log = true ->
       extract_context_lines logs lookback `sublist_of` LogInput.message <$> List.filter is_context pre.
Proof.
  intros Hlb. unfold extract_context_lines. split_and!.
  - destruct (before_error logs); [|simpl; lia]. by apply last_slice_spec.
  - intros Hf. assert (before_error logs = None) as ->; [|done]. induction Hf as [|l ls Hl _ IH]; simpl; [done|]. by rewrite Hl, IH.
  - intros pre log post -> Hpre Hlog. assert (before_error (pre ++ log :: post) = Some pre) as ->.
    { induction Hpre as [|l ls Hl _ IH]; simpl; [by rewrite Hlog|]. by rewrite Hl, IH. }
    by apply last_slice_spec.
Qed.
End Kept.

(** ** Identity does not depend on the logs below error level *)

Section Identity.
Context `{!Unicode, !Tfidf, !XXHash, !TemplateMiner}.

Definition identity_outcome (x : manager * SigResult.t) : manager * SigResult.t := (x.1, identity_part x.2).

Lemma result_fmap_bind {A B C} (f : B -> C) (r : result A) (k : A -> result B) : f <$> (r ≫= k) = r ≫= (fun a => f <$> k a).
Proof. by destruct r. Qed.

(** C10. A failure's identity is made of its error logs only. Two log lists of an item
    with the same error logs in the same order - whatever warnings, debug lines or
    blank messages come before, between or after them - have the same exception
    fingerprint, error hash, classes, frames, template hashes, status codes and
    flags, and leave the miner in the same state; at most the searchable message
    (where the near-error context goes) tells them apart. *)
Theorem identity_ignores_context (test_item_name : ustr) (logs logs' : list LogInput.t) (drain : manager)
    (in_app_prefixes : option (list ustr)) (merge_small_logs : bool)
    (Hsame : List.filter is_error logs = List.filter is_error logs') :
  identity_outcome <$> build_item_signature test_item_name logs drain in_app_prefixes merge_small_logs
  = identity_outcome <$> build_item_signature test_item_name logs' drain in_app_prefixes merge_small_logs.
Proof.
  unfold build_item_signature, filter_item_logs. rewrite Hsame.
  destruct (last_slice _ _) as [|m ms]; [done|].
  destruct (if merge_small_logs then maybe_merge_small_logs (m :: ms) else (m :: ms, false)) as [kept merged].
  rewrite !result_fmap_bind. destruct (process_logs kept drain) as [[drain' ps]|e]; [|done]. cbn [mbind result_bind].
  pose proof (context_no_identity test_item_name ps in_app_prefixes (extract_context_lines logs CONTEXT_LOOKBACK_LINES)
                (extract_context_lines logs' CONTEXT_LOOKBACK_LINES)) as Hc.
  destruct (Signature.build_item_signature test_item_name ps in_app_prefixes (extract_context_lines logs _)) as [r|],
    (Signature.build_item_signature test_item_name ps in_app_prefixes (extract_context_lines logs' _)) as [r'|];
    try done; simpl in *; [|by injection Hc as ->].
  unfold identity_outcome. destruct merged; unfold identity_part, merged_result in *; simpl in *; congruence.
Qed.

(** An item without an error log has the empty signature, and is not mined. *)
Lemma no_error_no_signature name logs drain prefixes merge : Forall (fun log => is_error log = false) logs ->
  build_item_signature name logs drain prefixes merge = Ok (drain, SigResult.empty).
Proof.
  intros Hf%error_messages_none. unfold build_item_signature, filter_item_logs. fold (error_messages logs). by rewrite Hf.
Qed.
End Identity.

(** ** Witnesses *)

(** A similarity for the witnesses: equal texts are similar, others are not. *)
Definition toy_tfidf : Tfidf := {| tfidf_cosine := fun _ texts => Some (fun i j => if bool_decide (texts !! i = texts !! j) then f1 else f0) |}.

Definition wlogs : list LogInput.t :=
  [LogInput.mk (u "SLOW QUERY took 900 ms") 30000; LogInput.mk (u "TimeoutException in checkout") 40000;
   LogInput.mk (u "cleanup") 20000; LogInput.mk (u "TimeoutException in checkout") 40000].

Lemma filter_item_logs_spec_witness :
  let T := toy_tfidf in
  filter_item_logs wlogs 20 = [u "TimeoutException in checkout"]
  /\ last (filter_item_logs wlogs 20) = last (error_messages wlogs).
Proof.
  intros T. split; [vm_compute; reflexivity|].
  exact (proj1 (proj2 (proj2 (filter_item_logs_spec (H0 := T) wlogs 20 eq_refl)))).
Defined.

Lemma identity_ignores_context_witness :
  let U := ascii_unicode in let T := toy_tfidf in let X := toy_hash in let M := toy_miner in
  let logs' := List.filter is_error wlogs in
  let drain := new_manager None 40 in
  extract_context_lines wlogs 5 = [u "SLOW QUERY took 900 ms"] /\ extract_context_lines logs' 5 = []
  /\ identity_outcome <$> build_item_signature (u "Checkout") wlogs drain None true
     = identity_outcome <$> build_item_signature (u "Checkout") logs' drain None true.
Proof.
  intros U T X M logs' drain. split; [vm_compute; reflexivity|]. split; [vm_compute; reflexivity|].
  apply (identity_ignores_context (H := U) (H0 := T) (H1 := X) (H2 := M) (u "Checkout") wlogs logs' drain None true). vm_compute. reflexivity.
Defined.
