(* ===== verification/Emit.v ===== *)
(** * Effectful code: state, exceptions and a call trace

    The routes read and write stores they share, may raise half-way, and call
    collaborators in an order that matters.  [M] is their monad: a state, a
    result-or-exception, and the trace of the calls made so far.  [emits m P]
    says what the calls and the result of [m] look like from any state; its rules
    follow the structure of the code. *)

From S2P Require Import Prelude.

Section Emit.
Context {St Ev : Type}.

Record world := mk_world { st : St; trace : list Ev }.
Definition M (A : Type) : Type := world -> world * result A.

#[export] Instance M_ret : MRet M := fun A a w => (w, Ok a).
#[export] Instance M_bind : MBind M := fun A B k m w =>
  let '(w', r) := m w in match r with Ok a => k a w' | Raise e => (w', Raise e) end.

Definition read {A} (f : St -> A) : M A := fun w => (w, Ok (f (st w))).
Definition tell (e : Ev) : M unit := fun w => (mk_world (st w) (trace w ++ [e]), Ok tt).
Definition raise {A} (e : pyexn) : M A := fun w => (w, Raise e).
Definition of_result {A} (r : result A) : M A := fun w => (w, r).

(** A call of a collaborator: recorded when it returns. *)
Definition call {A} (ev : Ev) (f : St -> St * result A) : M A := fun w =>
  let '(s', r) := f (st w) in
  match r with
  | Ok a => (mk_world s' (trace w ++ [ev]), Ok a)
  | Raise e => (mk_world s' (trace w), Raise e)
  end.

(** [try: m except Exception: log]. *)
Definition attempt {A} (m : M A) : M (option A) := fun w =>
  let '(w', r) := m w in match r with Ok a => (w', Ok (Some a)) | Raise _ => (w', Ok None) end.

(** [[f(x) for x in l]]. *)
Fixpoint forM {A B} (f : A -> M B) (l : list A) : M (list B) :=
  match l with
  | [] => mret []
  | x :: l' => b ← f x; bs ← forM f l'; mret (b :: bs)
  end.

Lemma bind_ok {A B} (m : M A) (k : A -> M B) w w' a : m w = (w', Ok a) -> (m ≫= k) w = k a w'.
Proof. unfold mbind, M_bind. by intros ->. Qed.

Lemma bind_ok_inv {A B} (m : M A) (k : A -> M B) w w' b : (m ≫= k) w = (w', Ok b) ->
  exists w1 a, m w = (w1, Ok a) /\ k a w1 = (w', Ok b).
Proof. unfold mbind, M_bind. destruct (m w) as [w1 [a|e]]; [eauto|done]. Qed.

Lemma bind_read {A B} (f : St -> A) (k : A -> M B) w : (read f ≫= k) w = k (f (st w)) w.
Proof. done. Qed.

(** A loop whose body neither writes nor raises is a map. *)
Lemma forM_pure {A B} (f : A -> M B) (g : A -> B) l w :
  (forall x, x ∈ l -> f x w = (w, Ok (g x))) -> forM f l w = (w, Ok (g <$> l)).
Proof.
  induction l as [|x l IH]; intros Hf; [done|]. cbn [forM]. unfold mbind, M_bind. rewrite (Hf x) by (by left).
  rewrite IH by (intros; apply Hf; by right). done.
Qed.

(** ** What a computation emits *)

Definition emits {A} (m : M A) (P : list Ev -> result A -> Prop) : Prop :=
  forall w, exists tr, trace (m w).1 = trace w ++ tr /\ P tr (m w).2.

Lemma emits_conseq {A} (m : M A) (P Q : list Ev -> result A -> Prop) :
  emits m P -> (forall tr r, P tr r -> Q tr r) -> emits m Q.
Proof. intros Hm HPQ w. destruct (Hm w) as (tr & Ht & HP). eauto. Qed.

Lemma emits_ret {A} (a : A) (P : list Ev -> result A -> Prop) : P [] (Ok a) -> emits (mret a) P.
Proof. intros HP w. exists []. split; [by rewrite app_nil_r|apply HP]. Qed.

Lemma emits_raise {A} e (P : list Ev -> result A -> Prop) : P [] (Raise e) -> emits (raise e) P.
Proof. intros HP w. exists []. split; [by rewrite app_nil_r|apply HP]. Qed.

Lemma emits_of_result {A} (r : result A) (P : list Ev -> result A -> Prop) : P [] r -> emits (of_result r) P.
Proof. intros HP w. exists []. split; [by rewrite app_nil_r|apply HP]. Qed.

Lemma emits_read {A} (f : St -> A) (P : list Ev -> result A -> Prop) :
  (forall s, P [] (Ok (f s))) -> emits (read f) P.
Proof. intros HP w. exists []. split; [by rewrite app_nil_r|apply HP]. Qed.

Lemma emits_tell e (P : list Ev -> result unit -> Prop) : P [e] (Ok tt) -> emits (tell e) P.
Proof. intros HP w. by exists [e]. Qed.

Lemma emits_call {A} ev (f : St -> St * result A) (P : list Ev -> result A -> Prop) :
  (forall a, P [ev] (Ok a)) -> (forall e, P [] (Raise e)) -> emits (call ev f) P.
Proof.
  intros HO HR w. unfold call. destruct (f (st w)) as [s' [a|e]]; simpl; [by exists [ev]|].
  exists []. split; [by rewrite app_nil_r|apply HR].
Qed.

Lemma emits_bind {A B} (m : M A) (k : A -> M B) P Q (R : list Ev -> result B -> Prop) :
  emits m P -> (forall a, emits (k a) (Q a)) ->
  (forall tr e, P tr (Raise e) -> R tr (Raise e)) ->
  (forall t1 a t2 r, P t1 (Ok a) -> Q a t2 r -> R (t1 ++ t2) r) ->
  emits (m ≫= k) R.
Proof.
  intros Hm Hk HR HQ w. destruct (Hm w) as (t1 & Ht & HP). unfold mbind, M_bind.
  destruct (m w) as [w1 [a|e]]; simpl in *; [|exists t1; auto].
  destruct (Hk a w1) as (t2 & Ht2 & HQ2). exists (t1 ++ t2). rewrite Ht2, Ht, (assoc_L (++)). eauto.
Qed.

Lemma emits_known {A B} (r : result A) (k : A -> M B) (P : list Ev -> result B -> Prop) :
  (forall a, r = Ok a -> emits (k a) P) -> (forall e, r = Raise e -> P [] (Raise e)) -> emits (of_result r ≫= k) P.
Proof.
  intros HO HR w. destruct r as [a|e]; [exact (HO a eq_refl w)|]. exists []. split; [by rewrite app_nil_r|by apply HR].
Qed.

Lemma emits_attempt {A} (m : M A) P (R : list Ev -> result (option A) -> Prop) :
  emits m P -> (forall tr a, P tr (Ok a) -> R tr (Ok (Some a))) ->
  (forall tr e, P tr (Raise e) -> R tr (Ok None)) -> emits (attempt m) R.
Proof.
  intros Hm HO HR w. destruct (Hm w) as (tr & Ht & HP). unfold attempt.
  destruct (m w) as [w1 [a|e]]; simpl in *; exists tr; split; eauto.
Qed.

Lemma emits_tell_then {A} e (m : M A) (R : list Ev -> result A -> Prop) :
  emits m (fun tr r => R (e :: tr) r) -> emits (_ ← tell e; m) R.
Proof.
  intros Hm w. unfold mbind, M_bind, tell. destruct (Hm (mk_world (st w) (trace w ++ [e]))) as (tr & Ht & HR).
  exists (e :: tr). split; [|done]. rewrite Ht. simpl. by rewrite <- (assoc_L (++)).
Qed.

(** [try: m except ... else ...], with what follows in each case. *)
Definition catching {A B} (m : M A) (handle : pyexn -> M B) (k : A -> M B) : M B := fun w =>
  let '(w', r) := m w in match r with Ok a => k a w' | Raise e => handle e w' end.

Lemma emits_catching {A B} (m : M A) (handle : pyexn -> M B) (k : A -> M B) P Q H (R : list Ev -> result B -> Prop) :
  emits m P -> (forall e, emits (handle e) (H e)) -> (forall a, emits (k a) (Q a)) ->
  (forall t1 e t2 r, P t1 (Raise e) -> H e t2 r -> R (t1 ++ t2) r) ->
  (forall t1 a t2 r, P t1 (Ok a) -> Q a t2 r -> R (t1 ++ t2) r) ->
  emits (catching m handle k) R.
Proof.
  intros Hm Hh Hk HR HQ w. destruct (Hm w) as (t1 & Ht & HP). unfold catching.
  destruct (m w) as [w1 [a|e]]; simpl in *;
    [destruct (Hk a w1) as (t2 & Ht2 & HP2)|destruct (Hh e w1) as (t2 & Ht2 & HP2)];
    exists (t1 ++ t2); rewrite Ht2, Ht, (assoc_L (++)); eauto.
Qed.

(** A call whose effect is on the state only. *)
Definition lift {A} (f : St -> St * result A) : M A := fun w =>
  let '(s', r) := f (st w) in (mk_world s' (trace w), r).

Lemma emits_lift {A} (f : St -> St * result A) (P : list Ev -> result A -> Prop) :
  (forall r, P [] r) -> emits (lift f) P.
Proof. intros HP w. exists []. unfold lift. destruct (f (st w)) as [s' r]. split; [by rewrite app_nil_r|apply HP]. Qed.

(** A loop, one body after the other until the first exception. *)
Inductive loops {A B} (P : A -> list Ev -> result B -> Prop) : list A -> list Ev -> result (list B) -> Prop :=
  | loops_nil : loops P [] [] (Ok [])
  | loops_raise x l tr e : P x tr (Raise e) -> loops P (x :: l) tr (Raise e)
  | loops_stop x l t1 b t2 e : P x t1 (Ok b) -> loops P l t2 (Raise e) -> loops P (x :: l) (t1 ++ t2) (Raise e)
  | loops_cons x l t1 b t2 bs : P x t1 (Ok b) -> loops P l t2 (Ok bs) -> loops P (x :: l) (t1 ++ t2) (Ok (b :: bs)).

Lemma emits_bind_ret {A B} (m : M A) (g : A -> B) P (R : list Ev -> result B -> Prop) :
  emits m P -> (forall tr r, P tr r -> R tr (g <$> r)) -> emits (a ← m; mret (g a)) R.
Proof.
  intros Hm HR w. destruct (Hm w) as (tr & Ht & HP). exists tr. unfold mbind, M_bind, mret, M_ret.
  apply HR in HP. destruct (m w) as [w1 [a|e]]; done.
Qed.

Lemma emits_forM {A B} (f : A -> M B) P l :
  (forall x, x ∈ l -> emits (f x) (P x)) -> emits (forM f l) (loops P l).
Proof.
  induction l as [|x l IH]; intros Hf; [apply emits_ret; constructor|]. cbn [forM].
  apply emits_bind with (P := P x) (Q := fun b tr r => exists r', loops P l tr r' /\ r = cons b <$> r').
  - apply Hf. by left.
  - intros b. eapply emits_bind_ret; [apply IH; intros; apply Hf; by right|]. simpl. eauto.
  - intros tr e Hx. by constructor.
  - intros t1 b t2 r Hx (r' & Hl & ->). destruct r' as [bs|e]; simpl; [by constructor|by eapply loops_stop].
Qed.

Lemma loops_mono {A B} (P Q : A -> list Ev -> result B -> Prop) l tr r :
  (forall x tr r, x ∈ l -> P x tr r -> Q x tr r) -> loops P l tr r -> loops Q l tr r.
Proof.
  intros HPQ Hl. induction Hl as [|x l tr e Hx|x l t1 b t2 e Hx _ IH|x l t1 b t2 bs Hx _ IH].
  - constructor.
  - constructor. apply HPQ; [by left|done].
  - eapply loops_stop; [apply HPQ; [by left|exact Hx]|]. apply IH. intros; apply HPQ; [by right|done].
  - constructor; [apply HPQ; [by left|done]|]. apply IH. intros; apply HPQ; [by right|done].
Qed.

(** A property of single calls holds of a loop when it holds of every body. *)
Lemma loops_Forall {A B} (P : A -> list Ev -> result B -> Prop) (S : Ev -> Prop) l tr r :
  (forall x tr r, x ∈ l -> P x tr r -> Forall S tr) -> loops P l tr r -> Forall S tr.
Proof.
  intros HS Hl. induction Hl as [|x l tr e Hx|x l t1 b t2 e Hx _ IH|x l t1 b t2 bs Hx _ IH].
  - constructor.
  - eapply HS; [by left|exact Hx].
  - apply Forall_app. split; [eapply HS; [by left|exact Hx]|]. apply IH. intros; eapply HS; [by right|done].
  - apply Forall_app. split; [eapply HS; [by left|exact Hx]|]. apply IH. intros; eapply HS; [by right|done].
Qed.

(** Collecting over a loop: a trace property closed under concatenation, and two
  readings of the trace of a successful run, follow from the bodies'. *)
Lemma loops_collect {A B X Y} (C : list Ev -> Prop) (f : Ev -> option X) (g : Ev -> option Y)
    (ks : A -> list X) (os : B -> list Y) (P : A -> list Ev -> result B -> Prop) l tr r :
  C [] -> (forall t1 t2, C t1 -> C t2 -> C (t1 ++ t2)) ->
  (forall x tr r, P x tr r -> C tr /\ forall b, r = Ok b -> omap f tr = ks x /\ omap g tr = os b) ->
  loops P l tr r -> C tr /\ forall bs, r = Ok bs -> omap f tr = l ≫= ks /\ omap g tr = bs ≫= os.
Proof.
  intros H0 Happ HP Hl.
  induction Hl as [|x l tr e Hx|x l t1 b t2 e Hx _ [IH _]|x l t1 b t2 bs Hx _ [IHc IH]].
  - split; [done|]. by intros bs [= <-].
  - apply HP in Hx as [Hc _]. by split.
  - apply HP in Hx as [Hc _]. split; [by apply Happ|done].
  - apply HP in Hx as [Hc Hr]. split; [by apply Happ|]. intros bs' [= <-].
    destruct (Hr b eq_refl) as [Hf Hg], (IH bs eq_refl) as [Hf' Hg']. csimpl.
    by rewrite !omap_app, Hf, Hg, Hf', Hg'.
Qed.

(** A successful loop: one chunk of the trace and one result per element. *)
Lemma loops_Ok {A B} (P : A -> list Ev -> result B -> Prop) l tr bs :
  loops P l tr (Ok bs) -> exists chunks, tr = concat chunks /\
    Forall2 (fun x cb => P x cb.1 (Ok cb.2)) l (zip chunks bs) /\
    length chunks = length l /\ length bs = length l.
Proof.
  intros Hl. remember (Ok bs) as r eqn:Hr. revert bs Hr.
  induction Hl as [|x l tr e Hx|x l t1 b t2 e Hx _ IH|x l t1 b t2 bs Hx _ IH]; intros bs0 [= <-].
  - exists []. by repeat constructor.
  - destruct (IH bs eq_refl) as (chunks & -> & Hf & Hc & Hb). exists (t1 :: chunks). simpl.
    split_and!; [done|by constructor|lia|lia].
Qed.

(** ** Calls of one kind, and what a result witnesses

  [delivers Q R m]: every call of [m] satisfies [Q], and a result [a] comes with
  a trace that satisfies [R a], a fact more calls do not undo. *)

Definition delivers {A} (Q : Ev -> Prop) (R : A -> list Ev -> Prop) (m : M A) : Prop :=
  emits m (fun tr r => Forall Q tr /\ forall a, r = Ok a -> R a tr).
Definition only {A} (Q : Ev -> Prop) (m : M A) : Prop := delivers Q (fun _ _ => True) m.

Definition grows {A} (R : A -> list Ev -> Prop) : Prop := forall a t1 t2, R a t2 -> R a (t1 ++ t2).

Lemma delivers_ret {A} Q R (a : A) : R a [] -> delivers Q R (mret a).
Proof. intros HR. apply emits_ret. split; [constructor|]. by intros ? [= <-]. Qed.

Lemma delivers_bind {A B} Q (R : B -> list Ev -> Prop) (m : M A) (k : A -> M B) :
  grows R -> only Q m -> (forall a, delivers Q R (k a)) -> delivers Q R (m ≫= k).
Proof.
  intros Hg Hm Hk.
  apply emits_bind with (P := fun tr _ => Forall Q tr)
    (Q := fun _ tr r => Forall Q tr /\ forall b, r = Ok b -> R b tr); [|exact Hk|..].
  - eapply emits_conseq; [exact Hm|]. by intros tr r [? _].
  - intros tr e Ht. by split.
  - intros t1 a t2 r H1 [H2 HR]. split; [by apply Forall_app|]. intros b Hb. by apply Hg, HR.
Qed.

(** The first part establishes a fact of its result. *)
Lemma delivers_bind_pure {A B} Q (F : A -> Prop) (R : B -> list Ev -> Prop) (m : M A) (k : A -> M B) :
  grows R -> delivers Q (fun a _ => F a) m -> (forall a, F a -> delivers Q R (k a)) -> delivers Q R (m ≫= k).
Proof.
  intros Hg Hm Hk w. destruct (Hm w) as (t1 & Ht & HQ & HF). unfold mbind, M_bind.
  destruct (m w) as [w1 [a|e]]; simpl in *; [|by exists t1].
  destruct (Hk a (HF a eq_refl) w1) as (t2 & Ht2 & HQ2 & HR). exists (t1 ++ t2).
  rewrite Ht2, Ht, (assoc_L (++)). split_and!; [done|by apply Forall_app|].
  intros b Hb. by apply Hg, HR.
Qed.

Lemma tell_delivers {A} (Q : Ev -> Prop) (R : A -> list Ev -> Prop) e a :
  Q e -> R a [e] -> delivers Q R (_ ← tell e; mret a).
Proof. intros HQ HR w. exists [e]. split_and!; [done|by repeat constructor|]. by intros ? [= <-]. Qed.

Lemma delivers_only {A} Q R (m : M A) : delivers Q R m -> only Q m.
Proof. intros Hm. eapply emits_conseq; [exact Hm|]. intros tr r [Ht _]. by split. Qed.

Lemma only_mono {A} (P Q : Ev -> Prop) (m : M A) : (forall e, P e -> Q e) -> only P m -> only Q m.
Proof.
  intros HPQ Hm. eapply emits_conseq; [exact Hm|]. intros tr r [Ht _]. split; [|done].
  by eapply Forall_impl.
Qed.

Lemma only_ret {A} Q (a : A) : only Q (mret a).
Proof. apply emits_ret. by split; [constructor|]. Qed.
Lemma only_read {A} Q (f : St -> A) : only Q (read f).
Proof. apply emits_read. intros s. by split; [constructor|]. Qed.
Lemma only_of_result {A} Q (r : result A) : only Q (of_result r).
Proof. apply emits_of_result. by split; [constructor|]. Qed.
Lemma only_tell (Q : Ev -> Prop) e : Q e -> only Q (tell e).
Proof. intros. apply emits_tell. split; [by constructor|done]. Qed.
Lemma only_call {A} (Q : Ev -> Prop) ev (f : St -> St * result A) : Q ev -> only Q (call ev f).
Proof. intros. apply emits_call; intros; (split; [|done]); [by constructor|constructor]. Qed.
Lemma only_bind {A B} Q (m : M A) (k : A -> M B) : only Q m -> (forall a, only Q (k a)) -> only Q (m ≫= k).
Proof. intros Hm Hk. apply delivers_bind; [done|exact Hm|exact Hk]. Qed.
Lemma only_attempt {A} Q (m : M A) : only Q m -> only Q (attempt m).
Proof. intros Hm. eapply emits_attempt; [exact Hm|..]; intros tr a [Ht _]; by split. Qed.
Lemma only_forM {A B} Q (f : A -> M B) l : (forall x, x ∈ l -> only Q (f x)) -> only Q (forM f l).
Proof.
  intros Hf. eapply emits_conseq; [apply emits_forM, Hf|]. intros tr r Hl. split; [|done].
  eapply loops_Forall; [|exact Hl]. by intros x tr' r' _ [? _].
Qed.

(** [attempt] itself never raises. *)
Lemma attempt_total {A} Q (m : M A) : only Q m -> emits (attempt m) (fun tr r => Forall Q tr /\ exists o, r = Ok o).
Proof. intros Hm. eapply emits_attempt; [exact Hm|..]; intros tr a [Ht _]; eauto. Qed.
(** ** Where a computation may leave the state

  [moves R m]: whatever [m] does, and wherever it raises, the state it leaves is
  in the preorder [R] above the one it found. *)

Definition moves {A} (R : St -> St -> Prop) (m : M A) : Prop := forall w, R (st w) (st (m w).1).

Section Moves.
Context (R : St -> St -> Prop) `{!PreOrder R}.

Lemma moves_ret {A} (a : A) : moves R (mret a).
Proof. intros w. reflexivity. Qed.
Lemma moves_read {A} (f : St -> A) : moves R (read f).
Proof. intros w. reflexivity. Qed.
Lemma moves_raise {A} e : moves R (@raise A e).
Proof. intros w. reflexivity. Qed.
Lemma moves_of_result {A} (r : result A) : moves R (of_result r).
Proof. intros w. reflexivity. Qed.
Lemma moves_tell e : moves R (tell e).
Proof. intros w. reflexivity. Qed.
Lemma moves_call {A} ev (f : St -> St * result A) : (forall s, R s (f s).1) -> moves R (call ev f).
Proof. intros Hf w. unfold call. specialize (Hf (st w)). by destruct (f (st w)) as [s' [a|e]]. Qed.
Lemma moves_lift {A} (f : St -> St * result A) : (forall s, R s (f s).1) -> moves R (lift f).
Proof. intros Hf w. unfold lift. specialize (Hf (st w)). by destruct (f (st w)). Qed.
Lemma moves_bind {A B} (m : M A) (k : A -> M B) : moves R m -> (forall a, moves R (k a)) -> moves R (m ≫= k).
Proof.
  intros Hm Hk w. specialize (Hm w). unfold mbind, M_bind. destruct (m w) as [w' [a|e]]; simpl in *; [|done].
  etrans; [exact Hm|apply Hk].
Qed.
Lemma moves_attempt {A} (m : M A) : moves R m -> moves R (attempt m).
Proof. intros Hm w. specialize (Hm w). unfold attempt. by destruct (m w) as [w' [a|e]]. Qed.
Lemma moves_forM {A B} (f : A -> M B) l : (forall x, x ∈ l -> moves R (f x)) -> moves R (forM f l).
Proof.
  induction l as [|x l IH]; intros Hf; [apply moves_ret|]. cbn [forM]. apply moves_bind; [apply Hf; by left|].
  intros b. apply moves_bind; [apply IH; intros; apply Hf; by right|]. intros bs. apply moves_ret.
Qed.
End Moves.

(** ** From some states, within some states

  [emits_on I m P]: from a state of [I] the computation stays in [I], wherever it
  raises, and its calls and result satisfy [P]. *)

Definition keeping (I : St -> Prop) : St -> St -> Prop := fun s s' => I s -> I s'.
#[export] Instance keeping_preorder I : PreOrder (keeping I).
Proof. split; [by intros s Hs|]. intros s1 s2 s3 H1 H2 H. by apply H2, H1. Qed.

Definition emits_on {A} (I : St -> Prop) (m : M A) (P : list Ev -> result A -> Prop) : Prop :=
  forall w, I (st w) -> I (st (m w).1) /\ exists tr, trace (m w).1 = trace w ++ tr /\ P tr (m w).2.

Lemma emits_keeping {A} I (m : M A) P : moves (keeping I) m -> emits m P -> emits_on I m P.
Proof. intros Hm He w Hw. split; [by apply Hm|apply He]. Qed.

Lemma emits_on_conseq {A} I (m : M A) (P Q : list Ev -> result A -> Prop) :
  emits_on I m P -> (forall tr r, P tr r -> Q tr r) -> emits_on I m Q.
Proof. intros Hm HPQ w Hw. destruct (Hm w Hw) as (Hi & tr & Ht & HP). eauto. Qed.

Lemma emits_on_bind {A B} I (m : M A) (k : A -> M B) P Q (R : list Ev -> result B -> Prop) :
  emits_on I m P -> (forall a, emits_on I (k a) (Q a)) ->
  (forall tr e, P tr (Raise e) -> R tr (Raise e)) ->
  (forall t1 a t2 r, P t1 (Ok a) -> Q a t2 r -> R (t1 ++ t2) r) ->
  emits_on I (m ≫= k) R.
Proof.
  intros Hm Hk HR HQ w Hw. destruct (Hm w Hw) as (Hi & t1 & Ht & HP). unfold mbind, M_bind.
  destruct (m w) as [w1 [a|e]]; simpl in *; [|split; [done|]; exists t1; auto].
  destruct (Hk a w1 Hi) as (Hi2 & t2 & Ht2 & HQ2). split; [done|].
  exists (t1 ++ t2). rewrite Ht2, Ht, (assoc_L (++)). eauto.
Qed.

Lemma emits_on_ret {A} I (a : A) (P : list Ev -> result A -> Prop) : P [] (Ok a) -> emits_on I (mret a) P.
Proof. intros HP. apply emits_keeping; [apply moves_ret, _|by apply emits_ret]. Qed.

Lemma emits_on_bind_ret {A B} I (m : M A) (g : A -> B) P (R : list Ev -> result B -> Prop) :
  emits_on I m P -> (forall tr r, P tr r -> R tr (g <$> r)) -> emits_on I (a ← m; mret (g a)) R.
Proof.
  intros Hm HR. apply emits_on_bind with (P := P) (Q := fun a tr r => tr = [] /\ r = Ok (g a)); [done| |..].
  - intros a. by apply emits_on_ret.
  - intros tr e HP. apply (HR tr (Raise e) HP).
  - intros t1 a t2 r HP [-> ->]. rewrite app_nil_r. apply (HR t1 (Ok a) HP).
Qed.

Lemma emits_on_forM {A B} I (f : A -> M B) P l :
  (forall x, x ∈ l -> emits_on I (f x) (P x)) -> emits_on I (forM f l) (loops P l).
Proof.
  induction l as [|x l IH]; intros Hf; [apply emits_on_ret; constructor|]. cbn [forM].
  apply emits_on_bind with (P := P x) (Q := fun b tr r => exists r', loops P l tr r' /\ r = cons b <$> r').
  - apply Hf. by left.
  - intros b. eapply emits_on_bind_ret; [apply IH; intros; apply Hf; by right|]. simpl. eauto.
  - intros tr e Hx. by constructor.
  - intros t1 b t2 r Hx (r' & Hl & ->). destruct r' as [bs|e]; simpl; [by constructor|by eapply loops_stop].
Qed.

(** ** Calls that rest on earlier calls

  [grounded B pre tr]: after the calls [pre], every call of [tr] is one that [B]
  allows after the calls made until then. *)

Fixpoint grounded (B : list Ev -> Ev -> Prop) (pre tr : list Ev) : Prop :=
  match tr with [] => True | e :: tr' => B pre e /\ grounded B (pre ++ [e]) tr' end.

Section Grounded.
Context (B : list Ev -> Ev -> Prop) (B_mono : forall t1 t2 e, t1 ⊆ t2 -> B t1 e -> B t2 e).

Lemma grounded_app pre t1 t2 : grounded B pre (t1 ++ t2) <-> grounded B pre t1 /\ grounded B (pre ++ t1) t2.
Proof.
  revert pre. induction t1 as [|e t1 IH]; intros pre; cbn [grounded app]; [rewrite app_nil_r; tauto|].
  rewrite IH, <- (assoc_L (++)). cbn. tauto.
Qed.

Lemma grounded_mono p1 p2 tr : p1 ⊆ p2 -> grounded B p1 tr -> grounded B p2 tr.
Proof using B_mono.
  revert p1 p2. induction tr as [|e tr IH]; intros p1 p2 Hs; [done|]. intros [He Ht]. split; [by eapply B_mono|].
  eapply IH, Ht. set_solver.
Qed.

(** Calls allowed whatever was called before. *)
Lemma grounded_free pre tr : Forall (fun e => B [] e) tr -> grounded B pre tr.
Proof using B_mono.
  intros Ht. apply (grounded_mono []); [set_solver|]. induction Ht as [|e tr He _ IH]; [done|]. split; [done|].
  by apply (grounded_mono []); [set_solver|].
Qed.

Lemma grounded_split pre t1 e t2 : grounded B pre (t1 ++ e :: t2) -> B (pre ++ t1) e.
Proof. intros Hg. apply grounded_app in Hg as [_ [He _]]. exact He. Qed.
End Grounded.
End Emit.
Arguments world : clear implicits.
Arguments M : clear implicits.

(** Follow the code: every step emits calls of the kind only. *)
Ltac solve_only :=
  repeat first
    [ apply only_ret | apply only_read | apply only_of_result
    | apply only_tell; solve [exact I | done]
    | apply only_call; solve [exact I | done]
    | apply only_attempt
    | apply only_bind; [|intros ?]
    | match goal with
      | |- only _ (match ?x with _ => _ end) => destruct x eqn:?
      | |- only _ (if ?x then _ else _) => destruct x eqn:?
      | |- only _ (let '_ := ?x in _) => destruct x eqn:?
      end ].

(** Follow the code down to the calls that write. *)
Create HintDb moving discriminated.
Ltac solve_moves :=
  repeat first
    [ solve [eauto with moving]
    | solve [first [apply moves_ret | apply moves_read | apply moves_raise | apply moves_of_result | apply moves_tell]; apply _]
    | apply moves_attempt
    | apply moves_forM; [apply _|intros ? ?]
    | apply moves_bind; [apply _| |intros ?]
    | match goal with
      | |- moves _ (match ?x with _ => _ end) => destruct x eqn:?
      | |- moves _ (if ?x then _ else _) => destruct x eqn:?
      | |- moves _ (let '_ := ?x in _) => destruct x eqn:?
      end ].
