(* ===== verification/Dispatch.v ===== *)
(** * Messages: routing, retries, replies

    [amqp/dispatcher.py] and [amqp/consumer.py]: the routing table, one message
    through adapter, handler and serializer, the retry and dead-letter policy of
    a worker, the consumer's acknowledgement, and the pool's bounded priority
    queue as a transition system; and the outbox of [amqp/client.py].  Pydantic,
    the handlers and the broker are interfaces; the watchdog and the stop flag
    are readings made at each attempt. *)

From S2P Require Import Prelude PyFloat PyStr PyInt PyJson JsonText Emit.
From Stdlib Require Import ZArith Lia.

#[local] Open Scope string_scope.
#[local] Open Scope list_scope.
#[local] Open Scope Z_scope.

Definition UnknownRoutingKey : pyexn := OtherError "UnknownRoutingKey".
Definition ValidationError : pyexn := OtherError "ValidationError".
Definition TaskTimeout : pyexn := OtherError "TaskTimeout".

(** Keyword arguments of a constructor call. *)
Abbreviation kwargs := (list (string * json)).

(** The wire models and what pydantic does with them: validate the arguments of
    a constructor, and dump or print a reply. *)
Class Wire := {
  Launch : Type; TestItemInfo : Type; LaunchInfoForClustering : Type; SearchLogs : Type;
  DeleteLogsRequest : Type; DeleteTestItemsRequest : Type; DeleteLaunchesRequest : Type;
  RemoveByDatesRequest : Type; DefectUpdate : Type; TrainInfo : Type;
  new_Launch : kwargs -> result Launch;
  new_TestItemInfo : kwargs -> result TestItemInfo;
  new_LaunchInfoForClustering : kwargs -> result LaunchInfoForClustering;
  new_SearchLogs : kwargs -> result SearchLogs;
  new_DeleteLogsRequest : kwargs -> result DeleteLogsRequest;
  new_DeleteTestItemsRequest : kwargs -> result DeleteTestItemsRequest;
  new_DeleteLaunchesRequest : kwargs -> result DeleteLaunchesRequest;
  new_RemoveByDatesRequest : kwargs -> result RemoveByDatesRequest;
  new_DefectUpdate : kwargs -> result DefectUpdate;
  new_TrainInfo : kwargs -> result TrainInfo;
  Model : Type;
  model_dump : Model -> kwargs;
  model_dump_json : Model -> ustr;
  model_str : Model -> ustr;
  models_str : list Model -> ustr
}.

(** What a handler returns: [None], a model, a list of models, a plain value. *)
Inductive response `{Wire} :=
  | RNone
  | RModel (m : Model)
  | RModels (l : list Model)
  | RValue (j : json).

(** ** Serializers *)

(** What [for x in body] visits: a string its characters, an object its keys. *)
Definition iterated (body : json) : result (list json) :=
  match body with
  | JList l => Ok l
  | JObj d => Ok ((fun kv => JStr (key_text kv.1)) <$> d)
  | JStr s => Ok ((fun c => JStr [c]) <$> s)
  | _ => Raise TypeError
  end.

Section Serializers.
Context `{PyRepr, Wire}.

(** [[model.model_dump() for model in results]]. *)
Definition serialize_model_list (results : response) : result ustr :=
  match results with
  | RModels l => Ok (dumps (JList (JObj <$> (model_dump <$> l))))
  | RModel _ => Raise AttributeError
  | RNone => Raise TypeError
  | RValue j => items ← iterated j;
                match items with [] => Ok (dumps (JList [])) | _ => Raise AttributeError end
  end.

Definition serialize_model (model : response) : result ustr :=
  match model with RModel m => Ok (model_dump_json m) | _ => Raise AttributeError end.

Definition serialize_scalar_str (value : response) : result ustr :=
  Ok (match value with
      | RNone => py_str JNull
      | RModel m => model_str m
      | RModels l => models_str l
      | RValue j => py_str j
      end).

Definition serialize_json (value : response) : result ustr :=
  match value with
  | RNone => Ok (dumps JNull)
  | RValue j => Ok (dumps j)
  | RModels [] => Ok (dumps (JList []))
  | RModel _ | RModels _ => Raise TypeError
  end.
End Serializers.

(** ** Adapters *)

(** [f( **body)]: only a mapping unpacks. *)
Definition unpacked {A} (new : kwargs -> result A) (body : json) : result A :=
  match body with JObj d => new d | _ => Raise TypeError end.

Definition _adapt_launches `{Wire} (body : json) : result (list Launch) :=
  launches ← iterated body; rmapM (unpacked new_Launch) launches.

Definition _identity (body : json) : result json := Ok body.

(** ** Routes *)

(** The [Handlers] protocol; a handler may change the state of the service and
    may raise. *)
Module Handlers.
Record t `{Wire} (St : Type) := mk {
  index : list Launch -> St -> St * result response;
  analyze : list Launch -> St -> St * result response;
  analyze_item_early : list Launch -> St -> St * result response;
  suggest : TestItemInfo -> St -> St * result response;
  cluster : LaunchInfoForClustering -> St -> St * result response;
  search : SearchLogs -> St -> St * result response;
  delete : Z -> St -> St * result response;
  clean : DeleteLogsRequest -> St -> St * result response;
  item_remove : DeleteTestItemsRequest -> St -> St * result response;
  launch_remove : DeleteLaunchesRequest -> St -> St * result response;
  remove_by_launch_start_time : RemoveByDatesRequest -> St -> St * result response;
  remove_by_log_time : RemoveByDatesRequest -> St -> St * result response;
  defect_update : DefectUpdate -> St -> St * result response;
  train_models : TrainInfo -> St -> St * result response;
  suggest_patterns : Z -> St -> St * result response;
  namespace_finder : list Launch -> St -> St * result response;
  index_suggest_info : json -> St -> St * result response;
  remove_suggest_info : Z -> St -> St * result response;
  update_suggest_info : json -> St -> St * result response;
  remove_models : json -> St -> St * result response;
  get_model_info : json -> St -> St * result response;
  noop_sleep : json -> St -> St * result response;
  noop_echo : json -> St -> St * result response;
  noop_fail : json -> St -> St * result response
}.
End Handlers.

Module RouteSpec.
Record t `{Wire} (St : Type) := mk {
  request : Type;
  adapt : json -> result request;
  handler : request -> St -> St * result response;
  serializer : option (response -> result ustr)
}.
Arguments mk {_ St request} _ _ _.
Arguments request {_ St} _.
Arguments adapt {_ St} _ _.
Arguments handler {_ St} _ _ _.
Arguments serializer {_ St} _.
End RouteSpec.

Section Routes.
Context `{PyRepr, Wire} {St : Type}.

(** [build_routes]. *)
Definition build_routes (handlers : Handlers.t St) : list (string * RouteSpec.t St) :=
  [("index", RouteSpec.mk _adapt_launches (Handlers.index _ handlers) (Some serialize_model));
   ("analyze", RouteSpec.mk _adapt_launches (Handlers.analyze _ handlers) (Some serialize_model_list));
   ("analyze_item_early",
    RouteSpec.mk _adapt_launches (Handlers.analyze_item_early _ handlers) (Some serialize_model_list));
   ("suggest", RouteSpec.mk (unpacked new_TestItemInfo) (Handlers.suggest _ handlers) (Some serialize_model_list));
   ("cluster",
    RouteSpec.mk (unpacked new_LaunchInfoForClustering) (Handlers.cluster _ handlers) (Some serialize_model));
   ("search", RouteSpec.mk (unpacked new_SearchLogs) (Handlers.search _ handlers) (Some serialize_model_list));
   ("delete", RouteSpec.mk py_int (Handlers.delete _ handlers) (Some serialize_scalar_str));
   ("clean", RouteSpec.mk (unpacked new_DeleteLogsRequest) (Handlers.clean _ handlers) (Some serialize_scalar_str));
   ("item_remove",
    RouteSpec.mk (unpacked new_DeleteTestItemsRequest) (Handlers.item_remove _ handlers) (Some serialize_scalar_str));
   ("launch_remove",
    RouteSpec.mk (unpacked new_DeleteLaunchesRequest) (Handlers.launch_remove _ handlers) (Some serialize_scalar_str));
   ("remove_by_launch_start_time",
    RouteSpec.mk (unpacked new_RemoveByDatesRequest) (Handlers.remove_by_launch_start_time _ handlers)
      (Some serialize_scalar_str));
   ("remove_by_log_time",
    RouteSpec.mk (unpacked new_RemoveByDatesRequest) (Handlers.remove_by_log_time _ handlers)
      (Some serialize_scalar_str));
   ("defect_update", RouteSpec.mk (unpacked new_DefectUpdate) (Handlers.defect_update _ handlers) (Some serialize_json));
   ("train_models", RouteSpec.mk (unpacked new_TrainInfo) (Handlers.train_models _ handlers) None);
   ("suggest_patterns", RouteSpec.mk py_int (Handlers.suggest_patterns _ handlers) (Some serialize_model));
   ("namespace_finder", RouteSpec.mk _adapt_launches (Handlers.namespace_finder _ handlers) None);
   ("index_suggest_info", RouteSpec.mk _identity (Handlers.index_suggest_info _ handlers) (Some serialize_json));
   ("remove_suggest_info", RouteSpec.mk py_int (Handlers.remove_suggest_info _ handlers) (Some serialize_scalar_str));
   ("update_suggest_info", RouteSpec.mk _identity (Handlers.update_suggest_info _ handlers) (Some serialize_json));
   ("remove_models", RouteSpec.mk _identity (Handlers.remove_models _ handlers) None);
   ("get_model_info", RouteSpec.mk _identity (Handlers.get_model_info _ handlers) None);
   ("noop_sleep", RouteSpec.mk _identity (Handlers.noop_sleep _ handlers) None);
   ("noop_echo", RouteSpec.mk _identity (Handlers.noop_echo _ handlers) (Some serialize_scalar_str));
   ("noop_fail", RouteSpec.mk _identity (Handlers.noop_fail _ handlers) None)].
End Routes.

(** ** One message *)

Module ProcessingItem.
Record t := mk {
  priority : Z;
  number : Z;
  routing_key : string;
  reply_to : option string;
  correlation_id : string;
  body : json;
  retries : Z;
  send_time : option pyfloat
}.
Definition with_retries (n : Z) (i : t) : t :=
  mk (priority i) (number i) (routing_key i) (reply_to i) (correlation_id i) (body i) n (send_time i).
Definition sent_at (now : pyfloat) (i : t) : t :=
  mk (priority i) (number i) (routing_key i) (reply_to i) (correlation_id i) (body i) (retries i) (Some now).
(** [dataclass(order=True)] over the two compared fields. *)
Definition lt (a b : t) : bool :=
  (priority a <? priority b) || (priority a =? priority b) && (number a <? number b).
End ProcessingItem.
Abbreviation item := ProcessingItem.t.
Import ProcessingItem (routing_key, reply_to, correlation_id, body, retries).

(** The dead-letter headers; [x-error] is the rendering of the exception. *)
Module Headers.
Record t := mk { x_error : pyexn; x_routing_key : string; x_retries : Z }.
End Headers.

(** What a worker does, as its collaborators see it. *)
Inductive event :=
  | Handled (rk : string)
  | Retrying (attempt : Z) (delay : pyfloat)
  | Replied (reply_to correlation_id : string) (body : ustr)
  | Published (exchange rk : string) (body : ustr) (analyzer_id : string)
  | DeadLettered (body : ustr) (headers : Headers.t)
  | Observed (rk outcome : string).

(** [ReplySink]. *)
Class ReplySink (St : Type) := {
  sink_reply : string -> string -> ustr -> St -> St * result unit;
  sink_publish_result : string -> string -> ustr -> string -> St -> St * result unit;
  sink_dead_letter : ustr -> Headers.t -> St -> St * result unit
}.

Definition RESULT_QUEUE_ROUTES : list string := ["analyze"; "analyze_item_early"].
Definition _NON_RETRYABLE : list pyexn := [ValidationError; UnknownRoutingKey; TaskTimeout].

Module WorkerPool.
Record config := mk_config {
  max_retries : Z;
  task_timeout : pyfloat;
  retry_delays : list pyfloat;
  result_exchange : string;
  result_routing_key : string;
  instance_name : string
}.
End WorkerPool.
Import WorkerPool (config, max_retries, task_timeout, retry_delays, result_exchange,
                   result_routing_key, instance_name).

Definition default_retry_delays : list pyfloat := Eval vm_compute in [of_Z 1; of_Z 2; of_Z 4].

(** What the worker reads at an attempt: had the watchdog fired when the handler
    returned, and was the stop flag set during the wait for the next attempt. *)
Record readings := mk_readings { overran : Z -> bool; stopping : Z -> bool }.

(** [task_watchdog] arms a timer. *)
Definition armed (timeout : pyfloat) : bool := negb (is_zero timeout || (timeout <=? f0)%F).

Definition truthy_text (o : option string) : option string :=
  match o with Some s => if decide (s = "") then None else Some s | None => None end.

Section Worker.
Context `{PyRepr, Wire} {St : Type} `{!ReplySink St}.
Abbreviation M := (M St event).
Abbreviation routes := (list (string * RouteSpec.t St)).

(** [Dispatcher.process]. *)
Definition process (table : routes) (rk : string) (b : json) : M (option ustr) :=
  match dget rk table with
  | None => raise UnknownRoutingKey
  | Some spec =>
      request ← of_result (RouteSpec.adapt spec b);
      _ ← tell (Handled rk);
      answer ← lift (RouteSpec.handler spec request);
      match answer, RouteSpec.serializer spec with
      | RNone, _ | _, None => mret None
      | _, Some serialize => text ← of_result (serialize answer); mret (Some text)
      end
  end.

Context (cfg : config).

Definition observe_request (it : item) (outcome : string) : M unit := tell (Observed (routing_key it) outcome).

(** [json.dumps(item.body).encode("utf-8")] is ASCII and does not raise. *)
Definition _dead_letter (it : item) (exc : pyexn) : M unit :=
  let headers := Headers.mk exc (routing_key it) (retries it) in
  let text := dumps (body it) in
  _ ← attempt (call (DeadLettered text headers) (sink_dead_letter text headers)); mret tt.

Definition _fail (it : item) (exc : pyexn) : M unit :=
  _ ← observe_request it "failed"; _dead_letter it exc.

Definition _publish_reply (it : item) (reply : option ustr) : M unit :=
  match reply with
  | None => mret tt
  | Some text =>
      match truthy_text (reply_to it) with
      | Some queue =>
          _ ← attempt (call (Replied queue (correlation_id it) text) (sink_reply queue (correlation_id it) text));
          mret tt
      | None =>
          if bool_decide (routing_key it ∈ RESULT_QUEUE_ROUTES) && negb (bool_decide (result_exchange cfg = ""))
             && negb (bool_decide (text = u "[]" \/ text = []))
          then
            _ ← attempt (call (Published (result_exchange cfg) (result_routing_key cfg) text (instance_name cfg))
                           (sink_publish_result (result_exchange cfg) (result_routing_key cfg) text
                              (instance_name cfg)));
            mret tt
          else mret tt
      end
  end.

(** The [with task_watchdog(...)] block: the handler's reply, unless it overran. *)
Definition guarded (table : routes) (rd : readings) (tries : Z) (it : item) : M (option ustr) :=
  reply ← process table (routing_key it) (body it);
  if armed (task_timeout cfg) && overran rd tries then raise TaskTimeout else mret reply.

(** [_process_bound]: [while True] with one more attempt per unit of fuel. *)
Definition OutOfFuel : pyexn := OtherError "OutOfFuel".

Fixpoint process_loop (fuel : nat) (table : routes) (rd : readings) (tries : Z) (it : item) : M unit :=
  match fuel with
  | O => raise OutOfFuel
  | S fuel' =>
      catching (guarded table rd tries it)
        (fun exc =>
           if decide (exc = UnknownRoutingKey) then observe_request it "unknown"
           else if decide (exc ∈ _NON_RETRYABLE) then _fail it exc
           else if max_retries cfg <=? tries then _fail it exc
           else
             delay ← of_result (py_index (retry_delays cfg)
                                  (Z.min tries (Z.of_nat (length (retry_delays cfg)) - 1)));
             _ ← tell (Retrying (tries + 1) delay);
             let it := ProcessingItem.with_retries (tries + 1) it in
             if stopping rd (tries + 1) then mret tt
             else process_loop fuel' table rd (tries + 1) it)
        (fun reply => _ ← _publish_reply it reply; observe_request it "success")
  end.

Definition _process_bound (table : routes) (rd : readings) (it : item) : M unit :=
  process_loop (S (Z.to_nat (max_retries cfg))) table rd 0 it.
End Worker.

(** ** What a worker emits *)

Section WorkerLaws.
Context `{PyRepr, Wire} {St : Type} `{!ReplySink St}.
Context (cfg : config).
Abbreviation routes := (list (string * RouteSpec.t St)).

(** The handler is entered at most once per attempt. *)
Definition entered (rk : string) (tr : list event) : Prop := tr = [] \/ tr = [Handled rk].

(** A reply goes to the queue the sender waits on, else to the result exchange. *)
Inductive replied (it : item) : list event -> Prop :=
  | replied_none : replied it []
  | replied_rpc q text : truthy_text (reply_to it) = Some q -> replied it [Replied q (correlation_id it) text]
  | replied_result text :
      truthy_text (reply_to it) = None -> routing_key it ∈ RESULT_QUEUE_ROUTES ->
      result_exchange cfg <> "" -> text <> u "[]" -> text <> [] ->
      replied it [Published (result_exchange cfg) (result_routing_key cfg) text (instance_name cfg)].

Inductive dead_lettered (it : item) (exc : pyexn) : list event -> Prop :=
  | dl_lost : dead_lettered it exc []
  | dl_sent : dead_lettered it exc [DeadLettered (dumps (body it)) (Headers.mk exc (routing_key it) (retries it))].

(** The attempts from the [tries]-th on, and the one ending. *)
Inductive worked (rd : readings) (it : item) (tries : Z) : list event -> Prop :=
  | worked_success h pub : entered (routing_key it) h -> replied it pub ->
      worked rd it tries (h ++ pub ++ [Observed (routing_key it) "success"])
  | worked_unknown h : entered (routing_key it) h ->
      worked rd it tries (h ++ [Observed (routing_key it) "unknown"])
  | worked_failed h exc dl : entered (routing_key it) h ->
      exc <> UnknownRoutingKey -> (exc ∈ _NON_RETRYABLE \/ max_retries cfg <= tries) ->
      dead_lettered it exc dl ->
      worked rd it tries (h ++ Observed (routing_key it) "failed" :: dl)
  | worked_stopped h d : entered (routing_key it) h -> tries < max_retries cfg ->
      stopping rd (tries + 1) = true ->
      worked rd it tries (h ++ [Retrying (tries + 1) d])
  | worked_retry h d tr : entered (routing_key it) h -> tries < max_retries cfg ->
      stopping rd (tries + 1) = false ->
      worked rd (ProcessingItem.with_retries (tries + 1) it) (tries + 1) tr ->
      worked rd it tries (h ++ Retrying (tries + 1) d :: tr).

Lemma process_entered (table : routes) rk b :
  emits (process table rk b) (fun tr r => entered rk tr /\ (dget rk table = None -> r = Raise UnknownRoutingKey /\ tr = [])).
Proof.
  unfold process. destruct (dget rk table) as [spec|] eqn:E.
  2:{ apply emits_raise. by split; [left|]. }
  apply emits_bind with (P := fun tr _ => tr = []) (Q := fun _ tr _ => entered rk tr).
  - by apply emits_of_result.
  - intros request. apply emits_bind with (P := fun tr _ => tr = [Handled rk]) (Q := fun _ tr _ => tr = []).
    + by apply emits_tell.
    + intros _. apply emits_bind with (P := fun tr _ => tr = []) (Q := fun _ tr _ => tr = []).
      * by apply emits_lift.
      * intros answer. destruct answer, (RouteSpec.serializer spec); try (by apply emits_ret);
          (eapply emits_bind_ret; [by apply emits_of_result with (P := fun tr _ => tr = [])|done]).
      * done.
      * by intros t1 a t2 r -> ->.
    + by intros tr e ->; right.
    + by intros t1 a t2 r -> ->; right.
  - by intros tr e ->; split; [left|].
  - by intros t1 a t2 r -> ?.
Qed.

Lemma guarded_entered (table : routes) rd tries it :
  emits (guarded cfg table rd tries it) (fun tr r => entered (routing_key it) tr).
Proof.
  apply emits_bind with (P := fun tr _ => entered (routing_key it) tr) (Q := fun _ tr _ => tr = []).
  - eapply emits_conseq; [apply process_entered|]. by intros tr r [? _].
  - intros reply. destruct (armed _ && _); [by apply emits_raise|by apply emits_ret].
  - done.
  - intros t1 a t2 r ? ->. by rewrite app_nil_r.
Qed.

(** A call whose failure is logged. *)
Lemma emits_best_effort (e : event) (f : St -> St * result unit) :
  emits (_ ← attempt (call e f); mret tt) (fun tr r => (tr = [] \/ tr = [e]) /\ r = Ok tt).
Proof.
  eapply emits_bind_ret.
  - apply (emits_attempt _ (fun tr r => match r with Ok _ => tr = [e] | Raise _ => tr = [] end))
      with (R := fun tr r => (tr = [] \/ tr = [e]) /\ exists o, r = Ok o); [by apply emits_call|..]; naive_solver.
  - simpl. naive_solver.
Qed.

Lemma publish_reply_replied it reply :
  emits (_publish_reply cfg it reply) (fun tr r => replied it tr /\ r = Ok tt).
Proof.
  unfold _publish_reply. destruct reply as [text|]; [|apply emits_ret; by split; [constructor|]].
  destruct (truthy_text (reply_to it)) as [q|] eqn:Eq.
  - eapply emits_conseq; [apply emits_best_effort|]. intros tr r [[->| ->] ->]; split; [constructor|done|by constructor|done].
  - destruct (bool_decide (_ ∈ _) && _ && _) eqn:E; [|apply emits_ret; by split; [constructor|]].
    apply andb_true_iff in E as [[E1%bool_decide_eq_true E2]%andb_true_iff E3].
    apply negb_true_iff, bool_decide_eq_false in E2, E3.
    eapply emits_conseq; [apply emits_best_effort|].
    intros tr r [[->| ->] ->]; (split; [|done]); constructor; naive_solver.
Qed.

Lemma fail_dead_letters it exc :
  emits (_fail it exc) (fun tr r =>
    exists dl, tr = Observed (routing_key it) "failed" :: dl /\ dead_lettered it exc dl /\ r = Ok tt).
Proof.
  unfold _fail. apply emits_tell_then. eapply emits_conseq; [apply emits_best_effort|].
  intros tr r [[->| ->] ->]; eexists; (split; [done|]); (split; [constructor|done]).
Qed.

Lemma py_index_retry {A} (l : list A) tries : l <> [] -> 0 <= tries ->
  exists x, py_index l (Z.min tries (Z.of_nat (length l) - 1)) = Ok x.
Proof.
  intros Hl Ht. assert (0 < length l)%nat as Hlen by (destruct l; simpl; [done|lia]).
  destruct (lookup_lt_is_Some_2 l (Z.to_nat (Z.min tries (Z.of_nat (length l) - 1)))) as [x Hx]; [lia|].
  exists x. rewrite <- (Z2Nat.id (Z.min _ _)) by lia. by apply py_index_nat.
Qed.

Lemma process_loop_worked (table : routes) rd fuel tries it :
  retry_delays cfg <> [] -> 0 <= tries -> (Z.to_nat (max_retries cfg - tries) < fuel)%nat ->
  emits (process_loop cfg fuel table rd tries it) (fun tr r => worked rd it tries tr /\ r = Ok tt).
Proof.
  intros Hd. revert tries it. induction fuel as [|fuel IH]; intros tries it Ht Hf; [lia|]. cbn [process_loop].
  eapply emits_catching with (P := fun tr _ => entered (routing_key it) tr)
    (H := fun e tr r => r = Ok tt /\ forall h, entered (routing_key it) h -> worked rd it tries (h ++ tr))
    (Q := fun _ tr r => r = Ok tt /\ forall h, entered (routing_key it) h -> worked rd it tries (h ++ tr)).
  - apply guarded_entered.
  - intros e. destruct (decide (e = UnknownRoutingKey)) as [->|Hu].
    { apply emits_tell. split; [done|]. intros h Hh. by apply worked_unknown. }
    assert (e ∈ _NON_RETRYABLE \/ max_retries cfg <= tries -> emits (_fail it e) (fun tr r =>
      r = Ok tt /\ forall h, entered (routing_key it) h -> worked rd it tries (h ++ tr))) as Hfail.
    { intros Hw. eapply emits_conseq; [apply fail_dead_letters|]. intros tr r (dl & -> & Hdl & ->).
      split; [done|]. intros h Hh. by eapply worked_failed. }
    destruct (decide (e ∈ _NON_RETRYABLE)) as [Hn|Hn]; [by apply Hfail; left|].
    destruct (Z.leb_spec (max_retries cfg) tries) as [Hm|Hm]; [by apply Hfail; right|].
    destruct (py_index_retry (retry_delays cfg) tries Hd Ht) as [d ->].
    change (of_result (Ok d) ≫= ?k) with (k d). cbv beta. apply emits_tell_then.
    destruct (stopping rd (tries + 1)) eqn:Es.
    + apply emits_ret. split; [done|]. intros h Hh. by apply worked_stopped.
    + eapply emits_conseq; [apply IH; lia|]. intros tr r [Hw ->]. split; [done|]. intros h Hh.
      by apply worked_retry.
  - intros reply. apply emits_bind with (P := fun tr r => replied it tr /\ r = Ok tt)
      (Q := fun _ tr r => tr = [Observed (routing_key it) "success"] /\ r = Ok tt).
    + apply publish_reply_replied.
    + intros _. by apply emits_tell.
    + by intros tr e [_ [=]].
    + intros t1 a t2 r [Hr _] [-> ->]. split; [done|]. intros h Hh. by apply worked_success.
  - intros t1 e t2 r Hh [-> Hw]. by split; [apply Hw|].
  - intros t1 e t2 r Hh [-> Hw]. by split; [apply Hw|].
Qed.

(** The item after [n] failed attempts. *)
Definition item_after (n : Z) (it : item) : item := if n =? 0 then it else ProcessingItem.with_retries n it.

(** How the work on an item ends. *)
Inductive ended (rd : readings) (it : item) : list event -> Prop :=
  | ended_answered pub : replied it pub -> ended rd it (pub ++ [Observed (routing_key it) "success"])
  | ended_unknown : ended rd it [Observed (routing_key it) "unknown"]
  | ended_failed exc dl n : exc <> UnknownRoutingKey -> 0 <= n <= Z.max 0 (max_retries cfg) ->
      (exc ∉ _NON_RETRYABLE -> max_retries cfg <= n) ->
      dead_lettered (item_after n it) exc dl ->
      ended rd it (Observed (routing_key it) "failed" :: dl)
  | ended_stopped k : 0 < k <= max_retries cfg -> stopping rd k = true -> ended rd it [].

Definition attempt_event (rk : string) (e : event) : Prop := e = Handled rk \/ exists k d, e = Retrying k d.
Definition handled_in (tr : list event) : nat :=
  length (filter (fun e => match e with Handled _ => true | _ => false end = true) tr).

Lemma handled_in_app t1 t2 : handled_in (t1 ++ t2) = (handled_in t1 + handled_in t2)%nat.
Proof. unfold handled_in. by rewrite filter_app, length_app. Qed.

Lemma entered_attempts rk h : entered rk h -> Forall (attempt_event rk) h /\ (handled_in h <= 1)%nat.
Proof. intros [->| ->]; (split; [|vm_compute; lia]); repeat constructor. Qed.

Lemma item_after_step n it : 0 <= n -> item_after (n + 1) it = ProcessingItem.with_retries (n + 1) (item_after n it).
Proof.
  intros Hn. unfold item_after. rewrite (proj2 (Z.eqb_neq (n + 1) 0)) by lia. by destruct (n =? 0).
Qed.
Lemma item_after_same n it :
  routing_key (item_after n it) = routing_key it /\ reply_to (item_after n it) = reply_to it /\
  correlation_id (item_after n it) = correlation_id it /\ body (item_after n it) = body it.
Proof. unfold item_after. by destruct (n =? 0). Qed.

Lemma replied_after n it pub : replied (item_after n it) pub -> replied it pub.
Proof.
  destruct (item_after_same n it) as (Erk & Erp & Eco & _). intros [|q text Hq|text Hq Hk].
  - constructor.
  - rewrite Eco. apply replied_rpc. by rewrite <- Erp.
  - apply replied_result; [by rewrite <- Erp|by rewrite <- Erk|done..].
Qed.

Lemma worked_ended rd it it' tries tr : worked rd it' tries tr ->
  it' = item_after tries it -> 0 <= tries <= Z.max 0 (max_retries cfg) ->
  exists attempts ending, tr = attempts ++ ending /\
    Forall (attempt_event (routing_key it)) attempts /\
    (Z.of_nat (handled_in attempts) <= 1 + Z.max 0 (max_retries cfg) - tries) /\
    ended rd it ending.
Proof.
  intros Hw. induction Hw as [it' tries h pub Hh Hp|it' tries h Hh|it' tries h exc dl Hh Hu Hn Hdl|it' tries h d Hh Hm Hs
    |it' tries h d tr Hh Hm Hs Hw IH]; intros -> Ht;
    destruct (entered_attempts _ _ Hh) as [Ha Hc]; destruct (item_after_same tries it) as (Erk & _); rewrite ?Erk in *.
  - exists h, (pub ++ [Observed (routing_key it) "success"]). split_and!; [done|done|lia|].
    constructor. by eapply replied_after.
  - exists h, [Observed (routing_key it) "unknown"]. split_and!; [done|done|lia|by constructor].
  - exists h, (Observed (routing_key it) "failed" :: dl). split_and!; [done|done|lia|].
    apply ended_failed with (exc := exc) (n := tries); [done|done| |done].
    intros Hx. destruct Hn as [Hn|Hn]; [by destruct Hx|done].
  - exists (h ++ [Retrying (tries + 1) d]), []. rewrite app_nil_r. split_and!; [done| | |].
    + apply Forall_app. split; [done|]. constructor; [right; eauto|constructor].
    + rewrite handled_in_app. change (handled_in [Retrying _ _]) with 0%nat. lia.
    + apply ended_stopped with (k := tries + 1); [lia|done].
  - destruct IH as (at' & en & -> & Hat & Hhn & Hen); [by rewrite item_after_step by lia|lia|].
    exists (h ++ Retrying (tries + 1) d :: at'), en. rewrite <- (assoc_L (++)). split_and!; [done| | |done].
    + apply Forall_app. split; [done|]. constructor; [right; eauto|done].
    + rewrite handled_in_app. change (handled_in (Retrying _ _ :: at')) with (handled_in at'). lia.
Qed.

(** C13. Work on a message terminates without an exception, enters the handler at
    most once more than the configured retries, and ends in exactly one way:
    answered (at most one reply, on the queue the sender waits on or else the
    result exchange, and never an empty result there), unknown key, failed (at
    most one dead letter carrying the message, and a retryable error only after
    the last retry), or abandoned because the pool is shutting down. *)
Theorem worker_ends_once (table : routes) rd it :
  retry_delays cfg <> [] ->
  emits (_process_bound cfg table rd it) (fun tr r =>
    r = Ok tt /\
    exists attempts ending, tr = attempts ++ ending /\
      Forall (attempt_event (routing_key it)) attempts /\
      Z.of_nat (handled_in attempts) <= 1 + Z.max 0 (max_retries cfg) /\
      ended rd it ending).
Proof.
  intros Hd. eapply emits_conseq; [apply process_loop_worked; [done|lia|lia]|].
  intros tr r [Hw ->]. split; [done|].
  destruct (worked_ended rd it it 0 tr Hw) as (at' & en & ? & ? & ? & ?); [done|lia|].
  exists at', en. split_and!; [done|done|lia|done].
Qed.

(** ** Bodies an adapter rejects *)

Lemma process_rejected (table : routes) rk spec b e w :
  dget rk table = Some spec -> RouteSpec.adapt spec b = Raise e -> process table rk b w = (w, Raise e).
Proof. intros Hs Ha. unfold process. rewrite Hs. by rewrite Ha. Qed.

Lemma guarded_rejected (table : routes) rd tries it spec e w :
  dget (routing_key it) table = Some spec -> RouteSpec.adapt spec (body it) = Raise e ->
  guarded cfg table rd tries it w = (w, Raise e).
Proof.
  intros Hs Ha. unfold guarded, mbind, M_bind. by rewrite (process_rejected _ _ spec _ e) by done.
Qed.

Lemma emits_eq {A} (m m' : M St event A) P : (forall w, m w = m' w) -> emits m' P -> emits m P.
Proof. intros E Hm w. rewrite E. apply Hm. Qed.

Definition is_retry (e : event) : Prop := exists k d, e = Retrying k d.

Lemma rejected_loop (table : routes) rd spec e fuel it0 tries :
  retry_delays cfg <> [] -> (forall k, stopping rd k = false) ->
  dget (routing_key it0) table = Some spec -> RouteSpec.adapt spec (body it0) = Raise e ->
  e ∉ _NON_RETRYABLE -> 0 <= tries <= Z.max 0 (max_retries cfg) -> (Z.to_nat (max_retries cfg - tries) < fuel)%nat ->
  emits (process_loop cfg fuel table rd tries (item_after tries it0)) (fun tr r => r = Ok tt /\
    exists pre dl, tr = pre ++ Observed (routing_key it0) "failed" :: dl /\ Forall is_retry pre /\
      Z.of_nat (length pre) = Z.max 0 (max_retries cfg) - tries /\
      dead_lettered (item_after (Z.max 0 (max_retries cfg)) it0) e dl).
Proof.
  intros Hd Hs Hsp Ha He. revert tries. induction fuel as [|fuel IH]; intros tries Ht Hf; [lia|].
  destruct (item_after_same tries it0) as (Erk & _ & _ & Eb).
  assert (e <> UnknownRoutingKey) as Hu by (intros ->; apply He; unfold _NON_RETRYABLE; rewrite !elem_of_cons; tauto).
  cbn [process_loop]. eapply emits_eq.
  { intros w. unfold catching. rewrite (guarded_rejected _ _ _ _ spec e) by (by rewrite ?Erk, ?Eb).
    rewrite decide_False, decide_False by done. reflexivity. }
  destruct (Z.leb_spec (max_retries cfg) tries) as [Hm|Hm].
  - assert (tries = Z.max 0 (max_retries cfg)) as -> by lia.
    eapply emits_conseq; [apply fail_dead_letters|]. intros tr r (dl & -> & Hdl & ->). rewrite Erk. split; [done|].
    exists [], dl. split_and!; [done|constructor|simpl; lia|done].
  - destruct (py_index_retry (retry_delays cfg) tries Hd ltac:(lia)) as [d ->].
    change (of_result (Ok d) ≫= ?k) with (k d). cbv beta. apply emits_tell_then. rewrite Hs.
    rewrite <- item_after_step by lia.
    eapply emits_conseq; [apply IH; lia|]. intros tr r (-> & pre & dl & -> & Hp & Hl & Hdl). split; [done|].
    exists (Retrying (tries + 1) d :: pre), dl. split_and!; [done| |simpl; lia|done].
    constructor; [by do 2 eexists|done].
Qed.

(** A message whose body the route's adapter rejects never reaches a handler
    and is never answered.  A [ValidationError] is reported and dead-lettered at
    once, without a retry; any other rejection goes through every configured
    retry first, although no retry can change it. *)
Theorem rejected_body_policy (table : routes) rd it spec e :
  retry_delays cfg <> [] -> (forall k, stopping rd k = false) ->
  dget (routing_key it) table = Some spec -> RouteSpec.adapt spec (body it) = Raise e ->
  e <> UnknownRoutingKey ->
  emits (_process_bound cfg table rd it) (fun tr r => r = Ok tt /\
    exists pre dl n, tr = pre ++ Observed (routing_key it) "failed" :: dl /\ Forall is_retry pre /\
      dead_lettered (item_after n it) e dl /\ Z.of_nat (length pre) = n /\
      n = if decide (e ∈ _NON_RETRYABLE) then 0 else Z.max 0 (max_retries cfg)).
Proof.
  intros Hd Hs Hsp Ha Hu. destruct (decide (e ∈ _NON_RETRYABLE)) as [Hn|Hn].
  - unfold _process_bound. cbn [process_loop]. eapply emits_eq.
    { intros w. unfold catching. rewrite (guarded_rejected _ _ _ _ spec e) by done.
      rewrite decide_False, decide_True by done. reflexivity. }
    eapply emits_conseq; [apply fail_dead_letters|]. intros tr r (dl & -> & Hdl & ->). split; [done|].
    exists [], dl, 0. by repeat (split; [done || constructor|]).
  - eapply emits_conseq; [apply (rejected_loop table rd spec e _ it 0); try done; lia|].
    intros tr r (-> & pre & dl & -> & Hp & Hl & Hdl). split; [done|].
    exists pre, dl, (Z.max 0 (max_retries cfg)). split_and!; [done|done|done|lia|done].
Qed.
End WorkerLaws.

(** ** A concrete instance *)

#[local] Definition required (ks : list string) (d : kwargs) : result kwargs :=
  if forallb (fun k => bool_decide (is_Some (dget k d))) ks then Ok d else Raise ValidationError.

Definition toy_wire : Wire := {|
  Launch := kwargs; TestItemInfo := kwargs; LaunchInfoForClustering := kwargs; SearchLogs := kwargs;
  DeleteLogsRequest := kwargs; DeleteTestItemsRequest := kwargs; DeleteLaunchesRequest := kwargs;
  RemoveByDatesRequest := kwargs; DefectUpdate := kwargs; TrainInfo := kwargs;
  new_Launch := required ["launchId"; "project"];
  new_TestItemInfo := required ["launchId"; "project"];
  new_LaunchInfoForClustering := required ["launch"; "project"; "numberOfLogLines"];
  new_SearchLogs := required ["launchId"; "itemId"; "projectId"];
  new_DeleteLogsRequest := required ["ids"; "project"];
  new_DeleteTestItemsRequest := required ["project"; "itemsToDelete"];
  new_DeleteLaunchesRequest := required ["project"; "launch_ids"];
  new_RemoveByDatesRequest := required ["project"; "interval_start_date"; "interval_end_date"];
  new_DefectUpdate := required ["project"; "itemsToUpdate"];
  new_TrainInfo := required ["model_type"; "project"];
  Model := kwargs;
  model_dump := id;
  model_dump_json _ := u "{}";
  model_str _ := [];
  models_str _ := []
|}.

Definition toy_repr : PyRepr := {| float_repr _ := u "0.5"; container_repr _ := u "[...]" |}.
Definition toy_sink : ReplySink (list ustr) := {|
  sink_reply _ _ b s := (s ++ [b], Ok tt);
  sink_publish_result _ _ b _ s := (s ++ [b], Ok tt);
  sink_dead_letter b _ s := (s ++ [b], Ok tt)
|}.

Section Toy.
#[local] Existing Instance toy_wire.
#[local] Existing Instance toy_repr.
#[local] Existing Instance toy_sink.

#[local] Definition returns {A} (r : response) (_ : A) (s : list ustr) : list ustr * result response := (s, Ok r).

(** Every project's item 7 is a product bug; [noop_fail] fails. *)
Definition toy_handlers : Handlers.t (list ustr) :=
  @Handlers.mk toy_wire (list ustr) (returns (RModel [])) (returns (RModels [[("testItem", JInt 7); ("issueType", jstr "pb001")]]))
    (returns (RModels [])) (returns (RModels [])) (returns (RModel [])) (returns (RModels []))
    (returns (RValue (JInt 0))) (returns (RValue (JInt 0))) (returns (RValue (JInt 0))) (returns (RValue (JInt 0)))
    (returns (RValue (JInt 0))) (returns (RValue (JInt 0))) (returns (RValue (JList []))) (returns RNone)
    (returns (RModel [])) (returns RNone) (returns (RValue (JObj []))) (returns (RValue (JInt 0)))
    (returns (RValue (JInt 1))) (returns RNone) (returns RNone) (returns RNone)
    (fun j s => (s, Ok (match j with JNull => RNone | _ => RValue j end)))
    (fun _ s => (s, Raise (OtherError "RuntimeError"))).

Definition toy_config : config :=
  WorkerPool.mk_config 3 (of_Z 600) default_retry_delays "analyzer-reply" "analysis.matches" "analyzer-ng".
Definition toy_item (rk : string) (reply_to : option string) (b : json) : item :=
  ProcessingItem.mk 1749029201296 1 rk reply_to "c-1" b 0 None.
Definition calm : readings := mk_readings (fun _ => false) (fun _ => false).
Definition toy_run (it : item) (rd : readings) : list event :=
  trace (_process_bound toy_config (build_routes toy_handlers) rd it (mk_world [] [])).1.
Definition one_launch : json := JList [JObj [("launchId", JInt 1); ("project", JInt 2)]].

Example rpc_reply :
  toy_run (toy_item "delete" (Some "amq.gen-1") (jstr "5")) calm =
  [Handled "delete"; Replied "amq.gen-1" "c-1" (u "0"); Observed "delete" "success"].
Proof. vm_compute. reflexivity. Qed.

Example result_published :
  toy_run (toy_item "analyze" None one_launch) calm =
  [Handled "analyze";
   Published "analyzer-reply" "analysis.matches"
     (dumps (JList [JObj [("testItem", JInt 7); ("issueType", jstr "pb001")]])) "analyzer-ng";
   Observed "analyze" "success"].
Proof. vm_compute. reflexivity. Qed.

Example empty_result_not_published :
  toy_run (toy_item "analyze_item_early" None one_launch) calm =
  [Handled "analyze_item_early"; Observed "analyze_item_early" "success"].
Proof. vm_compute. reflexivity. Qed.

(** A handler that overran is a failure even if it returned. *)
Example overrun_not_answered :
  toy_run (toy_item "delete" (Some "amq.gen-1") (jstr "5")) (mk_readings (fun _ => true) (fun _ => false)) =
  [Handled "delete"; Observed "delete" "failed"; DeadLettered (([34; 53; 34])%N) (Headers.mk TaskTimeout "delete" 0)].
Proof. vm_compute. reflexivity. Qed.

(** The documentation calls a bad payload a [ValidationError] that is never
    retried; a launch body that is no list raises [TypeError] and is. *)
Example launch_body_retried :
  toy_run (toy_item "analyze" None (JInt 5)) calm =
  [Retrying 1 (of_Z 1); Retrying 2 (of_Z 2); Retrying 3 (of_Z 4); Observed "analyze" "failed";
   DeadLettered (u "5") (Headers.mk TypeError "analyze" 3)].
Proof. vm_compute. reflexivity. Qed.

Lemma worker_ends_once_witness :
  retry_delays toy_config <> [] /\
  emits (_process_bound toy_config (build_routes toy_handlers) calm (toy_item "noop_fail" None JNull)) (fun tr r =>
    r = Ok tt /\
    exists attempts ending, tr = attempts ++ ending /\
      Forall (attempt_event "noop_fail") attempts /\
      Z.of_nat (handled_in attempts) <= 1 + Z.max 0 3 /\
      ended toy_config calm (toy_item "noop_fail" None JNull) ending).
Proof.
  assert (retry_delays toy_config <> []) as Hd by done.
  split; [done|]. exact (worker_ends_once toy_config (build_routes toy_handlers) calm
    (toy_item "noop_fail" None JNull) Hd).
Defined.

Lemma rejected_body_policy_witness :
  let it := toy_item "analyze" None (JInt 5) in
  emits (_process_bound toy_config (build_routes toy_handlers) calm it) (fun tr r => r = Ok tt /\
    exists pre dl n, tr = pre ++ Observed "analyze" "failed" :: dl /\ Forall is_retry pre /\
      dead_lettered (item_after n it) TypeError dl /\ Z.of_nat (length pre) = n /\ n = 3).
Proof.
  intros it.
  exact (rejected_body_policy toy_config (build_routes toy_handlers) calm it
    (RouteSpec.mk _adapt_launches (Handlers.analyze _ toy_handlers) (Some serialize_model_list)) TypeError
    ltac:(done) ltac:(done) ltac:(done) ltac:(done) ltac:(done)).
Defined.
End Toy.
