(* ===== verification/AmqpPool.v ===== *)
(** * Consumers, the worker queue and the outbox

    [amqp/consumer.py], the queue and threads of [WorkerPool]
    ([amqp/dispatcher.py]) and [ReplyPublisher] ([amqp/client.py]), as a
    transition system: a delivery is acknowledged and becomes an item, a consumer
    blocks while the queue is full, a worker takes the oldest item.  What a worker
    does with its item is [Dispatch].  Connections and reconnects are not
    modelled. *)

From S2P Require Import Prelude PyFloat PyStr PyInt PyJson JsonText Emit Dispatch.
From Stdlib Require Import ZArith Lia.

#[local] Open Scope string_scope.
#[local] Open Scope list_scope.
#[local] Open Scope Z_scope.

Import ProcessingItem (priority, number, routing_key, body, retries).

(** ** The outbox *)

Module Outbound.
Inductive t :=
  | Reply (reply_to correlation_id : string) (body : ustr)
  | ResultPublish (exchange routing_key : string) (body : ustr) (analyzer_id : string)
  | DeadLetter (body : ustr) (headers : Headers.t).
End Outbound.
Abbreviation outbound := Outbound.t.

(** [ReplyPublisher._outbox]: [None] is the shutdown sentinel. *)
Abbreviation outbox := (list (option outbound)).

(** The producer side is a [ReplySink]: putting on an unbounded queue. *)
Definition outbox_ops : ReplySink outbox := {|
  sink_reply q c b o := (o ++ [Some (Outbound.Reply q c b)], Ok tt);
  sink_publish_result x rk b i o := (o ++ [Some (Outbound.ResultPublish x rk b i)], Ok tt);
  sink_dead_letter b h o := (o ++ [Some (Outbound.DeadLetter b h)], Ok tt)
|}.
#[export] Existing Instance outbox_ops.

(** How one attempt to publish went: did the broker get the message, and what
    the attempt raised. *)
Record attempt_result := mk_attempt_result { reached : bool; raised : option pyexn }.
Definition AMQPConnectionError : pyexn := OtherError "AMQPConnectionError".
Definition ChannelClosedByBroker : pyexn := OtherError "ChannelClosedByBroker".
Definition transient (e : pyexn) : bool := bool_decide (e ∈ [AMQPConnectionError; ChannelClosedByBroker]).

(** [_publish]: the copies the broker got, and the exception that leaves. *)
Definition _publish (message : outbound) (first second : attempt_result) : list outbound * result unit :=
  let copy a := if reached a then [message] else [] in
  match raised first with
  | None => (copy first, Ok tt)
  | Some e =>
      if transient e then
        (copy first ++ copy second, match raised second with None => Ok tt | Some e' => Raise e' end)
      else (copy first, Raise e)
  end.

(** [_run] after [shutdown] has set the stop flag: what reaches the broker.  An
    empty outbox ends the loop; so does the sentinel, if nothing is behind it. *)
Fixpoint drain (env : nat -> attempt_result * attempt_result) (n : nat) (o : outbox) : list outbound :=
  match o with
  | [] => []
  | None :: o' => match o' with [] => [] | _ => drain env n o' end
  | Some m :: o' => (_publish m (env n).1 (env n).2).1 ++ drain env (S n) o'
  end.

(** ** A delivery *)

Module Delivery.
Record t := mk {
  tag : Z;
  routing_key : option string;
  headers : list (string * json);
  reply_to : option string;
  correlation_id : option string;
  raw : ustr
}.
End Delivery.
Abbreviation delivery := Delivery.t.

(** [raw.endswith("L")], [raw[:-1]]. *)
Definition strip_L (raw : ustr) : ustr :=
  match last raw with Some 76%N => removelast raw | _ => raw end.

Section Intake.
Context `{PyRepr}.

Definition get_priority (now_ms : Z) (headers : list (string * json)) : Z :=
  match dget "timestamp_in_ms" headers with
  | None => now_ms
  | Some v => default now_ms (int_text (strip_L (py_str v)))
  end.

(** What the consumers share: the arrival counter, the outbox, and the
    acknowledgements made so far. *)
Record intake := mk_intake { seq : Z; out : outbox; acks : list Z; nacks : list Z }.

Definition JSONDecodeError : pyexn := OtherError "JSONDecodeError".

(** [_on_message], up to the call of [submit]. *)
Definition _on_message (loads : ustr -> result json) (route_filter : string -> bool) (now_ms : Z)
    (d : delivery) (s : intake) : intake * option item :=
  let rk := default "" (Delivery.routing_key d) in
  match loads (Delivery.raw d) with
  | Raise exc =>
      (mk_intake (seq s)
         (sink_dead_letter (Delivery.raw d) (Headers.mk JSONDecodeError rk 0) (out s)).1
         (acks s) (nacks s ++ [Delivery.tag d]), None)
  | Ok message =>
      let acked := acks s ++ [Delivery.tag d] in
      if negb (route_filter rk) then (mk_intake (seq s) (out s) acked (nacks s), None)
      else
        (mk_intake (seq s + 1) (out s) acked (nacks s),
         Some (ProcessingItem.mk (get_priority now_ms (Delivery.headers d)) (seq s) rk
                 (Delivery.reply_to d) (default "" (Delivery.correlation_id d)) message 0 None))
  end.
End Intake.

(** The two consumers of the service. *)
Definition consumers : list (string * (string -> bool)) :=
  [("all", fun rk => negb (bool_decide (rk = "train_models")));
   ("train", fun rk => bool_decide (rk = "train_models"))].

(** ** The pool *)

Record pool := mk_pool {
  inp : intake;
  blocked : list (string * item);      (* consumers inside [submit], and their item *)
  queue : list item;
  polling : list Z;                    (* workers inside [get], past the test of the stop flag *)
  running : list (Z * item);           (* worker id, item *)
  finished : list item;
  stopped : bool;
  delivered : list Z;                  (* every tag handed to a consumer *)
  accepted : list item                 (* every item built, in order *)
}.

Definition pool_init : pool := mk_pool (mk_intake 1 [] [] []) [] [] [] [] [] false [] [].

Section Pool.
Context `{PyRepr}.
Variable loads : ustr -> result json.
Variables (maxsize workers : Z).

(** [PriorityQueue(maxsize)] has room. *)
Definition has_room (q : list item) : Prop := maxsize <= 0 \/ Z.of_nat (length q) < maxsize.
Definition oldest (i : item) (q : list item) : Prop := forall y, y ∈ q -> ProcessingItem.lt y i = false.

Inductive pool_step : pool -> pool -> Prop :=
  | step_deliver p name flt now_ms d s' :
      (name, flt) ∈ consumers -> name ∉ (blocked p).*1 ->
      _on_message loads flt now_ms d (inp p) = (s', None) ->
      pool_step p (mk_pool s' (blocked p) (queue p) (polling p) (running p) (finished p) (stopped p)
                     (delivered p ++ [Delivery.tag d]) (accepted p))
  | step_submit p name flt now_ms d s' i :
      (name, flt) ∈ consumers -> name ∉ (blocked p).*1 ->
      _on_message loads flt now_ms d (inp p) = (s', Some i) ->
      pool_step p (mk_pool s' ((name, i) :: blocked p) (queue p) (polling p) (running p) (finished p) (stopped p)
                     (delivered p ++ [Delivery.tag d]) (accepted p ++ [i]))
  | step_put p name i rest :
      blocked p ≡ₚ (name, i) :: rest -> has_room (queue p) ->
      pool_step p (mk_pool (inp p) rest (i :: queue p) (polling p) (running p) (finished p) (stopped p)
                     (delivered p) (accepted p))
  | step_poll p w :
      stopped p = false -> 0 <= w < workers -> w ∉ polling p -> w ∉ (running p).*1 ->
      pool_step p (mk_pool (inp p) (blocked p) (queue p) (w :: polling p) (running p) (finished p) (stopped p)
                     (delivered p) (accepted p))
  | step_empty p w others :
      polling p ≡ₚ w :: others ->
      pool_step p (mk_pool (inp p) (blocked p) (queue p) others (running p) (finished p) (stopped p)
                     (delivered p) (accepted p))
  | step_take p w others i rest now :
      polling p ≡ₚ w :: others -> queue p ≡ₚ i :: rest -> oldest i (queue p) ->
      pool_step p (mk_pool (inp p) (blocked p) rest others ((w, ProcessingItem.sent_at now i) :: running p)
                     (finished p) (stopped p) (delivered p) (accepted p))
  | step_finish p w i rest :
      running p ≡ₚ (w, i) :: rest ->
      pool_step p (mk_pool (inp p) (blocked p) (queue p) (polling p) rest (finished p ++ [i]) (stopped p)
                     (delivered p) (accepted p))
  | step_stop p :
      pool_step p (mk_pool (inp p) (blocked p) (queue p) (polling p) (running p) (finished p) true
                     (delivered p) (accepted p)).

Definition reachable (p : pool) : Prop := rtc pool_step pool_init p.
End Pool.

(** Every item somewhere in the pool. *)
Definition items (p : pool) : list item := (blocked p).*2 ++ queue p ++ (running p).*2 ++ finished p.

(** ** Laws *)

Lemma drain_in_order env n o :
  (forall k, raised (env k).1 = None /\ reached (env k).1 = true) -> drain env n o = omap id o.
Proof.
  intros He. revert n. induction o as [|[m|] o IH]; intros n; [done|..]; cbn [drain omap list_omap id].
  - destruct (He n) as [Hr Hd]. unfold _publish. rewrite Hr, Hd, IH. done.
  - destruct o; [done|]. apply IH.
Qed.

(** A message is published at most twice, and the second copy follows a
    connection that broke after the first. *)
Lemma publish_at_most_twice m a b : Forall (eq m) (_publish m a b).1 /\ (length (_publish m a b).1 <= 2)%nat /\
  (raised a = None -> (length (_publish m a b).1 <= 1)%nat).
Proof. unfold _publish. destruct a as [[] [e|]], b as [[] [e'|]]; simpl; try destruct (transient e); simpl; split_and!; (lia || done || by repeat constructor). Qed.

Section PoolLaws.
Context `{PyRepr}.
Variable loads : ustr -> result json.
Variables (maxsize workers : Z).
Abbreviation step := (pool_step loads maxsize workers).

Lemma on_message_spec flt now d s s' o : _on_message loads flt now d s = (s', o) ->
  acks s' ++ nacks s' ≡ₚ Delivery.tag d :: acks s ++ nacks s /\
  match o with
  | Some i => seq s' = seq s + 1 /\ number i = seq s /\ flt (routing_key i) = true /\
              loads (Delivery.raw d) = Ok (body i) /\ retries i = 0 /\ out s' = out s
  | None => seq s' = seq s
  end.
Proof.
  unfold _on_message. destruct (loads (Delivery.raw d)) as [m|e] eqn:E; [destruct (flt _) eqn:Ef|]; cbn [negb];
    intros [= <- <-]; cbn [acks nacks seq]; (split; [|try done]).
  - rewrite <- (assoc_L (++)). symmetry. apply Permutation_middle.
  - rewrite <- (assoc_L (++)). symmetry. apply Permutation_middle.
  - rewrite (assoc_L (++)), Permutation_app_comm. done.
Qed.

Record pool_inv (p : pool) : Prop := {
  inv_kept : number <$> items p ≡ₚ number <$> accepted p;
  inv_fresh : NoDup (number <$> accepted p);
  inv_seq : Forall (fun i => number i < seq (inp p)) (accepted p);
  inv_acked : acks (inp p) ++ nacks (inp p) ≡ₚ delivered p;
  inv_room : 0 < maxsize -> Z.of_nat (length (queue p)) <= maxsize;
  inv_workers : NoDup (polling p ++ (running p).*1) /\ Forall (fun w => 0 <= w < workers) (polling p ++ (running p).*1);
  inv_blocked : NoDup (blocked p).*1 /\ (blocked p).*1 ⊆ consumers.*1
}.

Lemma pool_inv_init : pool_inv pool_init.
Proof.
  split; cbn; [done|constructor|constructor|done|lia|split; constructor|].
  split; [constructor|set_solver].
Qed.

Lemma items_perm p : items p ≡ₚ (blocked p).*2 ++ (running p).*2 ++ finished p ++ queue p.
Proof. unfold items. rewrite (Permutation_app_comm (queue p)), <- (assoc_L (++)). done. Qed.

Lemma pool_inv_step p p' : pool_inv p -> step p p' -> pool_inv p'.
Proof.
  intros [Hk Hf Hs Ha Hr Hw Hb] Hst. unfold items in Hk.
  destruct Hst as [p name flt now d s' Hn Hnb Hm|p name flt now d s' i Hn Hnb Hm|p name i rest Hp Hroom
    |p w Hst Hwk Hwp Hwn|p w others Hq|p w others i rest now Hq Hp Ho|p w i rest Hp|p];
    try (apply on_message_spec in Hm as [Hacks Hm]);
    split; unfold items; cbn [inp blocked queue polling running finished stopped delivered accepted]; try done.
  - by rewrite Hm.
  - rewrite Hacks, Ha. apply Permutation_cons_append.
  - destruct Hm as (Hsq & Hnum & _). csimpl. rewrite Hk, fmap_app. apply Permutation_cons_append.
  - destruct Hm as (Hsq & Hnum & _). rewrite fmap_app. apply NoDup_app. split_and!; [done| |apply NoDup_singleton].
    intros n (j & En & Hj)%list_elem_of_fmap Hi%list_elem_of_singleton.
    rewrite Forall_forall in Hs. specialize (Hs j Hj). simpl in Hs, Hi. lia.
  - destruct Hm as (Hsq & Hnum & _). apply Forall_app. split.
    + eapply Forall_impl; [exact Hs|]. simpl. lia.
    + constructor; [lia|constructor].
  - rewrite Hacks, Ha. apply Permutation_cons_append.
  - destruct Hb as [Hb1 Hb2]. csimpl. split; [by constructor|].
    assert (name ∈ consumers.*1) by (apply list_elem_of_fmap; by exists (name, flt)). set_solver.
  - rewrite <- Hk, Hp. csimpl. rewrite !fmap_app. csimpl. by rewrite !fmap_app, <- Permutation_middle.
  - simpl. intros Hms. destruct Hroom; lia.
  - destruct Hb as [Hb1 Hb2]. rewrite Hp in Hb1, Hb2. csimpl. csimpl in Hb1. csimpl in Hb2.
    apply NoDup_cons in Hb1 as [_ Hb1]. split; [done|set_solver].
  - destruct Hw as [Hw1 Hw2]. split; constructor; [|done..]. by rewrite elem_of_app; intros [?|?].
  - destruct Hw as [Hw1 Hw2]. rewrite Hq in Hw1, Hw2. apply NoDup_cons in Hw1 as [_ Hw1].
    by apply Forall_cons in Hw2 as [_ Hw2].
  - rewrite <- Hk, Hp. csimpl. rewrite !fmap_app. csimpl. rewrite !fmap_app. solve_Permutation.
  - simpl. intros Hms. specialize (Hr Hms). rewrite Hp in Hr. simpl in Hr. lia.
  - destruct Hw as [Hw1 Hw2]. rewrite Hq in Hw1, Hw2. csimpl.
    split; [by rewrite <- Permutation_middle|by rewrite <- Permutation_middle].
  - rewrite <- Hk, Hp. csimpl. rewrite !fmap_app. csimpl. rewrite !fmap_app. csimpl. solve_Permutation.
  - destruct Hw as [Hw1 Hw2]. rewrite Hp in Hw1, Hw2. csimpl in Hw1. csimpl in Hw2.
    rewrite <- Permutation_middle in Hw1, Hw2.
    apply NoDup_cons in Hw1 as [_ Hw1]. apply Forall_cons in Hw2 as [_ Hw2]. done.
Qed.

Lemma reachable_inv p : reachable loads maxsize workers p -> pool_inv p.
Proof.
  intros Hr. apply (rtc_ind_r (R := step) (fun p => pool_inv p) pool_init); [exact pool_inv_init| |exact Hr].
  intros y z _ Hst Hi. by eapply pool_inv_step.
Qed.

(** [(priority, number)] is a strict total order on distinct numbers. *)
Lemma lt_trans a b c : ProcessingItem.lt a b = true -> ProcessingItem.lt b c = true -> ProcessingItem.lt a c = true.
Proof. unfold ProcessingItem.lt. rewrite !orb_true_iff, !andb_true_iff, !Z.ltb_lt, !Z.eqb_eq. lia. Qed.
Lemma lt_irrefl a : ProcessingItem.lt a a = false.
Proof. unfold ProcessingItem.lt. by rewrite !Z.ltb_irrefl, andb_false_r. Qed.
Lemma lt_total a b : number a <> number b -> ProcessingItem.lt a b = false -> ProcessingItem.lt b a = true.
Proof.
  unfold ProcessingItem.lt. rewrite orb_false_iff, andb_false_iff, orb_true_iff, andb_true_iff.
  rewrite !Z.ltb_ge, !Z.ltb_lt, Z.eqb_neq, Z.eqb_eq. lia.
Qed.

Lemma queue_numbers p : pool_inv p -> NoDup (number <$> queue p).
Proof.
  intros Hi. pose proof (inv_fresh _ Hi) as Hf. rewrite <- (inv_kept _ Hi) in Hf. unfold items in Hf.
  rewrite !fmap_app, !NoDup_app in Hf. by destruct Hf as (_ & _ & ? & _).
Qed.

(** C14. The pool loses and duplicates nothing: in every reachable state each
    message a consumer accepted is in exactly one place (its blocked submit, the
    queue, a worker, or finished) and was accepted once; every delivery was
    acknowledged or rejected exactly once, before any work on it; the queue stays
    in its bound and no worker runs two items.  What a worker takes next is
    strictly older, by send time and then arrival, than everything it leaves. *)
Theorem pool_conserves p :
  reachable loads maxsize workers p ->
  number <$> items p ≡ₚ number <$> accepted p /\
  NoDup (number <$> accepted p) /\
  acks (inp p) ++ nacks (inp p) ≡ₚ delivered p /\
  (0 < maxsize -> Z.of_nat (length (queue p)) <= maxsize) /\
  NoDup (running p).*1 /\ Forall (fun w => 0 <= w < workers) (running p).*1 /\
  (forall p' w i, step p p' -> running p' = (w, i) :: running p ->
     forall j, j ∈ queue p' -> ProcessingItem.lt i j = true).
Proof.
  intros Hr%reachable_inv. pose proof Hr as [Hk Hf Hs Ha Hm [Hw1 Hw2] Hb].
  apply NoDup_app in Hw1 as (_ & _ & Hw1). apply Forall_app in Hw2 as [_ Hw2]. split_and!; [done..|].
  intros p' w i Hst Hrun j Hj. pose proof (queue_numbers p Hr) as Hnd.
  destruct Hst as [p|p|p|p|p|p w' others i' rest now Hq Hp Ho|p w' i' rest Hp|p]; cbn [running queue] in *;
    try (apply (f_equal length) in Hrun; simpl in Hrun; lia).
  - injection Hrun as -> <-. rewrite Hp in Hnd. csimpl in Hnd. apply NoDup_cons in Hnd as [Hni _].
    assert (number i' <> number j) as Hne.
    { intros E. apply Hni, list_elem_of_fmap. by exists j. }
    destruct (ProcessingItem.lt i' j) eqn:El; [done|].
    apply (lt_total i' j Hne) in El. rewrite Ho in El; [done|]. rewrite Hp. by right.
  - apply Permutation_length in Hp. rewrite Hrun in Hp. simpl in Hp. apply (f_equal length) in Hrun.
    simpl in *. lia.
Qed.

Lemma oldest_exists q : q <> [] -> exists i rest, q ≡ₚ i :: rest /\ oldest i q.
Proof.
  induction q as [|x q IH]; intros Hne; [done|]. destruct (decide (q = [])) as [->|Hq].
  { exists x, []. split; [done|]. intros y ->%list_elem_of_singleton. apply lt_irrefl. }
  destruct (IH Hq) as (i & rest & Hp & Ho). destruct (ProcessingItem.lt x i) eqn:E.
  - exists x, q. split; [done|]. intros y [->|Hy]%elem_of_cons; [apply lt_irrefl|].
    destruct (ProcessingItem.lt y x) eqn:Ey; [|done]. rewrite <- (Ho y Hy). symmetry. by eapply lt_trans.
  - exists i, (x :: rest). split; [rewrite Hp; constructor|]. intros y [->|Hy]%elem_of_cons; [done|by apply Ho].
Qed.

Definition idle (p : pool) : Prop := blocked p = [] /\ queue p = [] /\ running p = [].
Definition backlog (p : pool) : nat := 3 * length (blocked p) + 2 * length (queue p) + length (running p).

(** The pool is never stuck: from every reachable state in which it is not
    shut down, finishing the running items and taking the queued ones leads, with
    no new delivery, to a state where nothing waits, and then every accepted
    message is finished. *)
Theorem pool_drains p :
  0 < workers -> reachable loads maxsize workers p -> stopped p = false ->
  exists p', rtc step p p' /\ idle p' /\ accepted p' = accepted p /\
    number <$> finished p' ≡ₚ number <$> accepted p.
Proof.
  intros Hwk Hr Hs.
  assert (exists p', rtc step p p' /\ idle p' /\ accepted p' = accepted p) as (p' & Hst & Hidle & Ha).
  - clear Hr. remember (backlog p) as n eqn:Hn. revert p Hn Hs.
    induction (lt_wf n) as [n _ IH]. intros p -> Hs.
    assert (forall q, rtc step p q -> stopped q = false -> accepted q = accepted p -> (backlog q < backlog p)%nat ->
      exists p', rtc step p p' /\ idle p' /\ accepted p' = accepted p) as Hgo.
    { intros q Hq Hsq Haq Hlt. destruct (IH _ Hlt q eq_refl Hsq) as (p' & ? & ? & ?).
      exists p'. split_and!; [by etrans|done|congruence]. }
    destruct (running p) as [|[w i] rest] eqn:Erun.
    2:{ eapply Hgo; [eapply rtc_once, step_finish; by rewrite Erun|done|done|].
        unfold backlog. cbn [blocked queue running]. rewrite Erun. simpl. lia. }
    destruct (decide (queue p = [])) as [Eq|Eq].
    2:{ destruct (oldest_exists (queue p) Eq) as (i & rest & Hp & Ho).
        destruct (polling p) as [|w others] eqn:Ew.
        - eapply Hgo; [eapply rtc_l; [apply (step_poll _ _ _ p 0); [done|lia|rewrite Ew|rewrite Erun];
                         apply not_elem_of_nil|apply rtc_once, (step_take _ _ _ _ 0 [] i rest fnan); [|done..]]
                      |done|done|].
          + cbn [polling]. by rewrite Ew.
          + apply Permutation_length in Hp. unfold backlog. cbn [blocked queue running]. rewrite Erun, Hp.
            simpl. lia.
        - eapply Hgo; [apply rtc_once, (step_take _ _ _ p w others i rest fnan); [by rewrite Ew|done..]|done|done|].
          apply Permutation_length in Hp. unfold backlog. cbn [blocked queue running]. rewrite Erun, Hp.
          simpl. lia. }
    destruct (blocked p) as [|[name i] rest] eqn:Eb; [by exists p|].
    eapply Hgo; [eapply rtc_once, step_put; [by rewrite Eb|rewrite Eq; unfold has_room; simpl; lia]|done|done|].
    unfold backlog. cbn [blocked queue running]. rewrite Eb, Eq, Erun. simpl. lia.
  - exists p'. split_and!; [done|done|done|]. rewrite <- Ha.
    assert (reachable loads maxsize workers p') as Hr' by (unfold reachable in *; by etrans).
    pose proof (inv_kept _ (reachable_inv p' Hr')) as Hk. unfold items in Hk.
    destruct Hidle as (Eb & Eq & Er). rewrite Eb, Eq, Er in Hk. exact Hk.
Qed.
End PoolLaws.

(** ** A concrete run *)

Section ToyPool.
#[local] Existing Instance toy_repr.

(** Every body but the empty one is the text of the string it is. *)
Definition toy_loads (b : ustr) : result json :=
  match b with [] => Raise JSONDecodeError | _ => Ok (JStr b) end.
Definition toy_delivery (n : Z) (rk : string) (stamp : string) : delivery :=
  Delivery.mk n (Some rk) [("timestamp_in_ms", jstr stamp)] None None (u "x").

Example priority_of_header :
  get_priority 5 [("timestamp_in_ms", jstr "1749029201296L")] = 1749029201296 /\
  get_priority 5 [("timestamp_in_ms", JInt 12)] = 12 /\
  get_priority 5 [("timestamp_in_ms", jstr "soon")] = 5 /\ get_priority 5 [] = 5.
Proof. vm_compute. done. Qed.

Definition after (flt : string -> bool) (d : delivery) (s : intake) : intake * option item :=
  _on_message toy_loads flt 0 d s.

(** A message for each consumer, and a malformed one: rejected, dead-lettered. *)
Example malformed_rejected :
  after (fun _ => true) (Delivery.mk 3 (Some "index") [] None None []) (mk_intake 1 [] [] []) =
  (mk_intake 1 [Some (Outbound.DeadLetter [] (Headers.mk JSONDecodeError "index" 0))] [] [3], None).
Proof. vm_compute. reflexivity. Qed.

Definition first_item : item := ProcessingItem.mk 20 1 "index" None "" (jstr "x") 0 None.
Definition second_item : item := ProcessingItem.mk 10 2 "train_models" None "" (jstr "x") 0 None.
Definition busy_pool : pool :=
  mk_pool (mk_intake 3 [] [1; 2] []) [] [second_item; first_item] [0] [] [] false [1; 2] [first_item; second_item].

Lemma busy_pool_reachable : reachable toy_loads 2 2 busy_pool.
Proof.
  eapply rtc_l; [eapply (step_submit _ _ _ _ "all" _ 0 (toy_delivery 1 "index" "20")); [by left|set_solver|reflexivity]|].
  eapply rtc_l; [eapply (step_put _ _ _ _ "all" first_item []); [done|by right]|].
  eapply rtc_l; [eapply (step_submit _ _ _ _ "train" _ 0 (toy_delivery 2 "train_models" "10"));
                 [by right; left|set_solver|reflexivity]|].
  eapply rtc_l; [eapply (step_put _ _ _ _ "train" second_item []); [done|by right]|].
  eapply rtc_l; [apply (step_poll _ _ _ _ 0); [done|lia|set_solver|set_solver]|].
  apply rtc_refl.
Qed.

Lemma pool_conserves_witness :
  number <$> items busy_pool ≡ₚ number <$> accepted busy_pool /\
  exists p', pool_step toy_loads 2 2 busy_pool p' /\ running p' = [(0, ProcessingItem.sent_at fnan second_item)] /\
    forall j, j ∈ queue p' -> ProcessingItem.lt second_item j = true.
Proof.
  destruct (pool_conserves toy_loads 2 2 busy_pool busy_pool_reachable) as (Hk & _ & _ & _ & _ & _ & Ho).
  split; [exact Hk|].
  assert (pool_step toy_loads 2 2 busy_pool
    (mk_pool (inp busy_pool) [] [first_item] [] [(0, ProcessingItem.sent_at fnan second_item)] [] false [1; 2]
       [first_item; second_item])) as Hst.
  { apply (step_take _ _ _ busy_pool 0 [] second_item [first_item] fnan); [done|done|].
    intros y [->|[->|Hy%elem_of_nil]%elem_of_cons]%elem_of_cons; done. }
  eexists. split; [exact Hst|]. split; [reflexivity|]. exact (Ho _ 0 (ProcessingItem.sent_at fnan second_item) Hst eq_refl).
Defined.

Lemma pool_drains_witness :
  exists p', rtc (pool_step toy_loads 2 2) busy_pool p' /\ idle p' /\ accepted p' = [first_item; second_item] /\
    number <$> finished p' ≡ₚ [1; 2].
Proof. exact (pool_drains toy_loads 2 2 busy_pool eq_refl busy_pool_reachable eq_refl). Defined.
End ToyPool.
