(* ===== verification/Ingest.v ===== *)
(** * The index pipeline

    [core/ingest.py]: an index request becomes rows - logs put in order of time,
    signatures mined under the compare-and-set contract of the miner's state,
    items, signatures and history committed in one transaction per project - and
    the read-only variant the analysis routes use.  The tables of the miner's
    state are those of [DrainStore]; the item tables are an interface. *)

From S2P Require Import Prelude PyFloat PyStr PyTime Regex RegexTheory PyText UrlCodec TextProc Hashing Drain DrainStore Signature Pipeline Emit.
From Stdlib Require Import NArith ZArith Lia.

#[local] Open Scope list_scope.
#[local] Open Scope Z_scope.

Definition DRAIN_CAS_RETRIES : nat := 5.

(** ** Wire data *)

(** A [timestamp7] is the list of its seven numbers. *)
Module Log.
Record t := mk { logId : Z; logLevel : Z; logTime : list Z; message : ustr }.
End Log.

Module TestItem.
Record t := mk {
  testItemId : Z; isAutoAnalyzed : bool; uniqueId : ustr; issueType : ustr; startTime : list Z;
  testCaseHash : Z; testItemName : ustr; logs : list Log.t
}.
End TestItem.

Module IndexLaunch.
Record t := mk { launchId : Z; project : Z; launchName : ustr; launchNumber : Z; testItems : list TestItem.t }.
End IndexLaunch.

Module TestItemIn.
Record t := mk {
  item_id : Z; project_id : Z; launch_id : Z; launch_name : ustr; launch_number : Z; test_case_hash : option Z;
  unique_id : option ustr; item_name : ustr; start_time : option Z; is_auto_analyzed : bool;
  issue_type : option ustr; log_count : nat; log_time_max : option Z
}.
End TestItemIn.

(** The fields of [SignatureIn] the pipeline fills. *)
Module SigIn.
Record t := mk {
  project_id : Z; item_id : Z; exception_fp : Z; error_hash : Z; top_frames : list ustr; template_ids : list Z;
  exc_text : ustr; msg_text : ustr; frames_text : ustr; tmpl_text : ustr; status_codes : list ustr;
  emb : option (list pyfloat); emb_model_ver : Z; error_log_id : option Z
}.
Definition with_tmpl_text (s : t) (text : ustr) : t :=
  mk (project_id s) (item_id s) (exception_fp s) (error_hash s) (top_frames s) (template_ids s) (exc_text s) (msg_text s)
    (frames_text s) text (status_codes s) (emb s) (emb_model_ver s) (error_log_id s).
End SigIn.

(** [ItemAnalysis] of the read path. *)
Module Built.
Record t := mk {
  launch : IndexLaunch.t; item : TestItem.t; signature : SigResult.t; emb : option (list pyfloat);
  emb_model_ver : Z; log_count : nat; start_time : option Z; clean_msg : ustr
}.
End Built.

Module LogExceptionResult.
Record t := mk { logId : Z; foundExceptions : list ustr }.
End LogExceptionResult.

Module BulkResponse.
Record t := mk { errors : bool; logResults : list LogExceptionResult.t }.
End BulkResponse.

(** ** Pure helpers *)

(** The order of Python's tuples. *)
Fixpoint lex_leb (a b : list Z) : bool :=
  match a, b with
  | [], _ => true
  | _ :: _, [] => false
  | x :: a', y :: b' => if x =? y then lex_leb a' b' else x <? y
  end.
Definition time_leb (a b : Log.t) : bool := lex_leb (Log.logTime a) (Log.logTime b).
Definition _time_ordered_logs (logs : list Log.t) : list Log.t := pysorted time_leb logs.

Definition leap (y : Z) : bool := (y mod 4 =? 0) && negb (y mod 100 =? 0) || (y mod 400 =? 0).
Definition days_in_month (y m : Z) : Z :=
  if m =? 2 then (if leap y then 29 else 28)
  else if bool_decide (m ∈ [4; 6; 9; 11]) then 30 else 31.
Definition valid_datetime (y m d h mi s : Z) : bool :=
  (1 <=? y) && (y <=? 9999) && (1 <=? m) && (m <=? 12) && (1 <=? d) && (d <=? days_in_month y m)
  && (0 <=? h) && (h <=? 23) && (0 <=? mi) && (mi <=? 59) && (0 <=? s) && (s <=? 59).
Definition c_int (x : Z) : bool := (- 2 ^ 31 <=? x) && (x <? 2 ^ 31).
Definition OverflowError : pyexn := OtherError "OverflowError".

(** An invalid date is dropped; a number that does not fit a C int raises, which
    the code does not catch. *)
Definition _ts7_to_datetime (ts : list Z) : result (option Z) :=
  match ts with
  | y :: m :: d :: h :: mi :: s :: _ =>
      if forallb c_int [y; m; d; h; mi; s] then
        Ok (if valid_datetime y m d h mi s
            then Some (day_of_civil (y, m, d) * US_PER_DAY + (h * 3600 + mi * 60 + s) * US_PER_SECOND)
            else None)
      else Raise OverflowError
  | _ => Ok None
  end.

Definition is_error_log (log : Log.t) : bool := (ERROR_LOGGING_LEVEL <=? Log.logLevel log) && negb (blank (Log.message log)).
Definition log_input (log : Log.t) : LogInput.t := LogInput.mk (Log.message log) (Log.logLevel log).
Definition or_none (s : ustr) : option ustr := match s with [] => None | _ => Some s end.

Section Build.
Context `{!Unicode, !Tfidf, !XXHash, !TemplateMiner}.

(** The pipeline's settings; the embedder may be absent and may raise. *)
Record config := mk_config {
  embedder : option (ustr -> result (list pyfloat)); the_emb_ver : Z; max_logs : Z; drain_max_lines : Z; cas_retries : nat
}.
Variable cfg : config.

Definition embed_text (text : ustr) : result (option (list pyfloat) * Z) :=
  match embedder cfg, text with
  | Some embed, _ :: _ => v ← embed text; Ok (Some v, the_emb_ver cfg)
  | _, _ => Ok (None, 0)
  end.

(** What one item becomes, with the time of its failure observation. *)
Definition _process_item (now : Z) (mgr : manager) (launch : IndexLaunch.t) (item : TestItem.t)
    : result (manager * (TestItemIn.t * SigIn.t * Z)) :=
  let ordered_logs := _time_ordered_logs (TestItem.logs item) in
  let logs := log_input <$> ordered_logs in
  let kept := filter_item_logs logs (max_logs cfg) in
  '(mgr, result) ← Pipeline.build_item_signature (TestItem.testItemName item) logs mgr None true;
  let issue_type := or_none (ulower (ustrip (TestItem.issueType item))) in
  let test_case_hash := if TestItem.testCaseHash item =? 0 then None else Some (TestItem.testCaseHash item) in
  let error_log_id := Log.logId <$> find is_error_log ordered_logs in
  start_time ← _ts7_to_datetime (TestItem.startTime item);
  times ← rmapM (fun log => _ts7_to_datetime (Log.logTime log)) (TestItem.logs item);
  let log_time_max := pymax_list Z.gtb (omap (fun t => t) times) in
  '(emb, emb_ver) ← embed_text (SigResult.signature_text result);
  template_ids ← rmapM _template_id (SigResult.template_hashes result);
  let item_in := {|
    TestItemIn.item_id := TestItem.testItemId item; TestItemIn.project_id := IndexLaunch.project launch;
    TestItemIn.launch_id := IndexLaunch.launchId launch; TestItemIn.launch_name := IndexLaunch.launchName launch;
    TestItemIn.launch_number := IndexLaunch.launchNumber launch; TestItemIn.test_case_hash := test_case_hash;
    TestItemIn.unique_id := or_none (TestItem.uniqueId item); TestItemIn.item_name := TestItem.testItemName item;
    TestItemIn.start_time := start_time; TestItemIn.is_auto_analyzed := TestItem.isAutoAnalyzed item;
    TestItemIn.issue_type := issue_type; TestItemIn.log_count := length kept; TestItemIn.log_time_max := log_time_max |} in
  let sig_in := {|
    SigIn.project_id := IndexLaunch.project launch; SigIn.item_id := TestItem.testItemId item;
    SigIn.exception_fp := SigResult.exception_fp result; SigIn.error_hash := SigResult.error_hash result;
    SigIn.top_frames := SigResult.frames result; SigIn.template_ids := template_ids;
    SigIn.exc_text := ujoin (u " ") (SigResult.exc_classes result); SigIn.msg_text := SigResult.msg_text result;
    SigIn.frames_text := ujoin (u " ") (SigResult.frames result); SigIn.tmpl_text := [];
    SigIn.status_codes := SigResult.status_codes result; SigIn.emb := emb; SigIn.emb_model_ver := emb_ver;
    SigIn.error_log_id := error_log_id |} in
  let ts := match log_time_max with Some t => t | None => default now start_time end in
  Ok (mgr, (item_in, sig_in, ts)).

Definition _build_one (mgr : manager) (launch : IndexLaunch.t) (item : TestItem.t) : result (manager * Built.t) :=
  let ordered_logs := _time_ordered_logs (TestItem.logs item) in
  let logs := log_input <$> ordered_logs in
  let kept := filter_item_logs logs (max_logs cfg) in
  '(mgr, result) ← Pipeline.build_item_signature (TestItem.testItemName item) logs mgr None true;
  let clean_msg := unlines ((fun m => CleanedLog.msg (clean_log m)) <$> List.filter (fun m => negb (blank m)) kept) in
  '(emb, emb_ver) ← embed_text (SigResult.signature_text result);
  start_time ← _ts7_to_datetime (TestItem.startTime item);
  Ok (mgr, Built.mk launch item result emb emb_ver (length kept) start_time clean_msg).

(** [hash_to_pattern.get(t, "")] over the live templates, blanks dropped. *)
Definition tmpl_text_of (rows : list MirrorRow.t) (template_ids : list Z) : ustr :=
  let hash_to_pattern := fold_left (fun d r => dset (MirrorRow.template_id r) (MirrorRow.pattern r) d) rows [] in
  ujoin (u " ") (List.filter (fun p => negb (bool_decide (p = []))) ((fun t => dgetd t [] hash_to_pattern) <$> template_ids)).
End Build.

Section Embed.
Context `{!Unicode}.
(** [foundExceptions] of each error log of a project's entries. *)
Definition log_results_of (entries : list (IndexLaunch.t * TestItem.t)) : list LogExceptionResult.t :=
  entries ≫= (fun e => (fun log => LogExceptionResult.mk (Log.logId log) (CleanedLog.exceptions (clean_log (Log.message log))))
                         <$> List.filter is_error_log (TestItem.logs e.2)).
End Embed.

(** The request's items per project, in order of first appearance. *)
Definition by_project (launches : list IndexLaunch.t) : list (Z * list (IndexLaunch.t * TestItem.t)) :=
  fold_left (fun d launch =>
    fold_left (fun d item => dset (IndexLaunch.project launch) (dgetd (IndexLaunch.project launch) [] d ++ [(launch, item)]) d)
      (IndexLaunch.testItems launch) d) launches [].

(** ** The stores and the calls *)

(** The calls that leave a mark, in order. *)
Inductive ix_event :=
  | ELock (project : Z)
  | EUnlock (project : Z)
  | ESave (project version : Z)
  | EItems (items : list TestItemIn.t)
  | ESignatures (sigs : list SigIn.t)
  | EHistory (project test_case_hash : Z) (failed : bool) (ts : Z).

(** [meanwhile] is what the other workers did before this worker's next call. *)
Class IndexStores (St : Type) := {
  drain_tables : St -> tables;
  put_tables : tables -> St -> St;
  meanwhile : St -> St;
  wall_clock : St -> Z;
  timed_out : St -> bool;
  upsert_items : list TestItemIn.t -> St -> St * result unit;
  upsert_signatures : list SigIn.t -> St -> St * result unit;
  bump_test_history : Z -> Z -> bool -> Z -> St -> St * result unit
}.

Definition TaskTimeout : pyexn := OtherError "TaskTimeout".
Definition RuntimeError : pyexn := OtherError "RuntimeError".

Section Index.
Context `{!Unicode, !Tfidf, !XXHash, !TemplateMiner} {St : Type} `{!IndexStores St}.
Variable cfg : config.
Abbreviation M := (Emit.M St ix_event).

Definition raise_if_cancelled : M unit := late ← read timed_out; if late : bool then raise TaskTimeout else mret tt.
Definition others_run : M unit := fun w => (mk_world (meanwhile (st w)) (trace w), Ok tt).

(** [with lock: body]: released whatever the body does. *)
Definition with_lock {A} (project_id : Z) (body : M A) : M A := fun w =>
  let '(w1, r) := body (mk_world (st w) (trace w ++ [ELock project_id])) in
  (mk_world (st w1) (trace w1 ++ [EUnlock project_id]), r).

(** [with transaction(): body]: nothing of a body that raises is committed. *)
Definition transaction {A} (body : M A) : M A := fun w =>
  match body w with (w', Ok a) => (w', Ok a) | (_, Raise e) => (w, Raise e) end.

Definition load_call (project_id : Z) : M (manager * Z) :=
  read (fun s => load_manager (drain_tables s) project_id None (Some (load_template_texts (drain_tables s))) (drain_max_lines cfg)).
Definition save_call (project_id : Z) (mgr : manager) (version : Z) : M bool := fun w =>
  let '(db, r) := save_manager (wall_clock (st w)) project_id mgr version (drain_tables (st w)) in
  (mk_world (put_tables db (st w)) (trace w ++ match r with Ok true => [ESave project_id version] | _ => [] end), r).

Notation entries := (list (IndexLaunch.t * TestItem.t)).

Fixpoint process_entries (mgr : manager) (es : entries) : M (manager * list (TestItemIn.t * SigIn.t * Z)) :=
  match es with
  | [] => mret (mgr, [])
  | (launch, item) :: es' =>
      raise_if_cancelled;;
      now ← read wall_clock;
      '(mgr, row) ← of_result (_process_item cfg now mgr launch item);
      '(mgr, rows) ← process_entries mgr es';
      mret (mgr, row :: rows)
  end.

(** The history bumps of the rows whose item has a test case. *)
Definition stats_bumps (rows : list (TestItemIn.t * SigIn.t * Z)) : list (Z * Z) :=
  omap (fun row => (fun h => (h, row.2)) <$> TestItemIn.test_case_hash row.1.1) rows.
Definition built : Type := list TestItemIn.t * list SigIn.t * list (Z * Z).

(** One turn of the retry loop; [None] when the compare-and-set is lost. *)
Definition mining_attempt (project_id : Z) (es : entries) : M (option built) :=
  others_run;;
  '(mgr, version) ← load_call project_id;
  '(mgr, rows) ← process_entries mgr es;
  mirror ← of_result (cluster_mirror_rows mgr);
  let sigs := (fun row => SigIn.with_tmpl_text row.1.2 (tmpl_text_of mirror (SigIn.template_ids row.1.2))) <$> rows in
  others_run;;
  saved ← save_call project_id mgr version;
  mret (if saved : bool then Some ((fun row => row.1.1) <$> rows, sigs, stats_bumps rows) else None).

Fixpoint mine_retry (retries : nat) (project_id : Z) (es : entries) : M built :=
  match retries with
  | O => raise RuntimeError
  | S n => b ← mining_attempt project_id es; match b with Some b => mret b | None => mine_retry n project_id es end
  end.
Definition _mine_and_build (project_id : Z) (es : entries) : M built := mine_retry (cas_retries cfg) project_id es.

Definition write_rows (project_id : Z) (b : built) : M unit :=
  let '(items, sigs, bumps) := b in
  call (EItems items) (upsert_items items);;
  call (ESignatures sigs) (upsert_signatures sigs);;
  forM (fun ht => call (EHistory project_id ht.1 true ht.2) (bump_test_history project_id ht.1 true ht.2)) bumps;;
  mret tt.

Definition _index_project (project_id : Z) (es : entries) : M (list LogExceptionResult.t) :=
  b ← with_lock project_id (_mine_and_build project_id es);
  transaction (write_rows project_id b);;
  mret (log_results_of es).

(** One project of the request: its failure is an outcome. *)
Definition index_one (pe : Z * entries) : M (option (list LogExceptionResult.t)) :=
  raise_if_cancelled;; attempt (_index_project pe.1 pe.2).

Definition index_launches (launches : list IndexLaunch.t) : M BulkResponse.t :=
  outcomes ← forM index_one (by_project launches);
  mret (BulkResponse.mk (existsb (fun o => bool_decide (o = None)) outcomes) (concat (omap (fun o => o) outcomes))).

(** ** The read path: nothing is saved *)

Fixpoint build_entries (mgr : manager) (es : entries) : M (list Built.t) :=
  match es with
  | [] => mret []
  | (launch, item) :: es' =>
      raise_if_cancelled;;
      '(mgr, b) ← of_result (_build_one cfg mgr launch item);
      bs ← build_entries mgr es';
      mret (b :: bs)
  end.
Definition build_item_analyses (project_id : Z) (es : entries) : M (list Built.t) :=
  '(mgr, _) ← load_call project_id; build_entries mgr es.
End Index.

(** ** Time order *)

Lemma lex_total a b : lex_leb a b = false -> lex_leb b a = true.
Proof.
  revert b. induction a as [|x a IH]; intros [|y b]; simpl; try done. rewrite (Z.eqb_sym y x).
  destruct (Z.eqb_spec x y) as [->|Hne]; [apply IH|]. rewrite Z.ltb_ge, Z.ltb_lt. lia.
Qed.

Lemma lex_trans a b c : lex_leb a b = true -> lex_leb b c = true -> lex_leb a c = true.
Proof.
  revert b c. induction a as [|x a IH]; intros [|y b] [|z c]; simpl; try done.
  destruct (Z.eqb_spec x y) as [->|Hxy], (Z.eqb_spec y z) as [->|Hyz]; rewrite ?Z.eqb_refl.
  - apply IH.
  - by destruct (Z.eqb_spec y z).
  - by destruct (Z.eqb_spec x z).
  - rewrite !Z.ltb_lt. intros H1 H2. destruct (Z.eqb_spec x z); [lia|]. apply Z.ltb_lt. lia.
Qed.

Lemma lex_refl a : lex_leb a a = true.
Proof. induction a as [|x a IH]; simpl; [done|]. by rewrite Z.eqb_refl. Qed.

(** The pipeline re-establishes the order of an item's logs: the logs it processes
    are the wire's logs rearranged by time, and those of one instant keep the
    order of the wire. *)
Theorem time_ordered_logs_spec (logs : list Log.t) :
  _time_ordered_logs logs ≡ₚ logs
  /\ StronglySorted (fun a b => lex_leb (Log.logTime a) (Log.logTime b) = true) (_time_ordered_logs logs)
  /\ forall t, List.filter (fun l => bool_decide (Log.logTime l = t)) (_time_ordered_logs logs)
               = List.filter (fun l => bool_decide (Log.logTime l = t)) logs.
Proof.
  unfold _time_ordered_logs. split_and!.
  - apply pysorted_perm.
  - apply pysorted_sorted; unfold time_leb; intros *; [apply lex_total|apply lex_trans].
  - intros t. apply pysorted_stable. intros a b Ha Hb. bprop. unfold time_leb. rewrite Ha, Hb. apply lex_refl.
Qed.

(** ** One project per entry list *)

Lemma entries_by_project launches :
  NoDup (by_project launches).*1
  /\ Forall (fun pe => Forall (fun e => IndexLaunch.project e.1 = pe.1) pe.2) (by_project launches)
  /\ concat (by_project launches).*2 ≡ₚ launches ≫= (fun l => pair l <$> IndexLaunch.testItems l).
Proof.
  unfold by_project.
  set (add := fun (launch : IndexLaunch.t) (d : list (Z * list (IndexLaunch.t * TestItem.t))) item =>
    dset (IndexLaunch.project launch) (dgetd (IndexLaunch.project launch) [] d ++ [(launch, item)]) d).
  set (good := fun d : list (Z * list (IndexLaunch.t * TestItem.t)) =>
    NoDup d.*1 /\ Forall (fun pe => Forall (fun e => IndexLaunch.project e.1 = pe.1) pe.2) d).
  assert (forall launch d item, good d -> good (add launch d item) /\ concat (add launch d item).*2 ≡ₚ (launch, item) :: concat d.*2) as Hadd.
  { intros launch d item [H1 H2]. split; [|apply dset_append_perm]. split; [by apply dset_NoDup|].
    apply dset_Forall; [|done]. simpl. apply Forall_app. split; [|by constructor].
    unfold dgetd. destruct (dget _ d) as [es|] eqn:E; [|constructor].
    apply dget_elem in E. by apply (proj1 (Forall_forall _ _) H2) in E. }
  assert (forall launch items d, good d -> good (fold_left (add launch) items d)
    /\ concat (fold_left (add launch) items d).*2 ≡ₚ (pair launch <$> items) ++ concat d.*2) as Hitems.
  { intros launch items. induction items as [|i items IH]; intros d Hd; [done|]. cbn [fold_left].
    destruct (Hadd launch d i Hd) as [H1 H2]. destruct (IH _ H1) as [H3 H4]. split; [done|].
    rewrite H4, H2. csimpl. symmetry. apply Permutation_middle. }
  assert (forall ls d, good d ->
    good (fold_left (fun d launch => fold_left (add launch) (IndexLaunch.testItems launch) d) ls d)
    /\ concat (fold_left (fun d launch => fold_left (add launch) (IndexLaunch.testItems launch) d) ls d).*2
       ≡ₚ (ls ≫= (fun l => pair l <$> IndexLaunch.testItems l)) ++ concat d.*2) as Hall.
  { intros ls. induction ls as [|l ls IH]; intros d Hd; [done|]. cbn [fold_left].
    destruct (Hitems l (IndexLaunch.testItems l) d Hd) as [H1 H2]. destruct (IH _ H1) as [H3 H4]. split; [done|].
    rewrite H4, H2. csimpl. rewrite !(assoc_L (++)). by rewrite (Permutation_app_comm (pair l <$> _)). }
  destruct (Hall launches []) as [[H1 H2] H3]; [split; [apply NoDup_nil_2|constructor]|]. split_and!; [done..|].
  simpl in H3. by rewrite app_nil_r in H3.
Qed.

(** ** What an index request commits *)

Section Commit.
Context `{!Unicode, !Tfidf, !XXHash, !TemplateMiner} {St : Type} `{!IndexStores St}.
Variable cfg : config.
Abbreviation M := (Emit.M St ix_event).
Notation entries := (list (IndexLaunch.t * TestItem.t)).

(** A computation that neither writes nor calls. *)
Definition silent {A} (m : M A) : Prop := forall w, (m w).1 = w.

Lemma silent_bind {A B} (m : M A) (k : A -> M B) : silent m -> (forall a, silent (k a)) -> silent (m ≫= k).
Proof.
  intros Hm Hk w. specialize (Hm w). unfold mbind, M_bind. destruct (m w) as [w' [a|e]]; simpl in *; subst; [apply Hk|done].
Qed.
Lemma silent_ret {A} (a : A) : silent (mret a).
Proof. done. Qed.
Lemma silent_read {A} (f : St -> A) : silent (read f).
Proof. done. Qed.
Lemma silent_of_result {A} (r : result A) : silent (of_result r).
Proof. done. Qed.
Lemma silent_check : silent raise_if_cancelled.
Proof. apply silent_bind; [apply silent_read|]. by intros []. Qed.
#[local] Hint Resolve silent_ret silent_read silent_of_result silent_check : core.

Lemma silent_process_entries mgr es : silent (process_entries cfg mgr es).
Proof.
  revert mgr. induction es as [|[l i] es IH]; intros mgr; [done|]. cbn [process_entries].
  apply silent_bind; [done|intros _]. apply silent_bind; [done|intros now].
  apply silent_bind; [done|intros [mgr' row]]. apply silent_bind; [apply IH|]. by intros [mgr'' rows].
Qed.

(** A computation that calls nothing, followed by one that does. *)
Definition quiet {A} (m : M A) : Prop := forall w, trace (m w).1 = trace w.
Lemma silent_quiet {A} (m : M A) : silent m -> quiet m.
Proof. intros Hm w. by rewrite Hm. Qed.

Lemma emits_after {A B} (m : M A) (k : A -> M B) (R : list ix_event -> result B -> Prop) :
  quiet m -> (forall w a, (m w).2 = Ok a -> emits (k a) R) -> (forall e, R [] (Raise e)) -> emits (m ≫= k) R.
Proof.
  intros Hm Hk HR w. specialize (Hm w). specialize (Hk w). unfold mbind, M_bind.
  destruct (m w) as [w' [a|e]]; simpl in *; [|exists []; by rewrite app_nil_r]. rewrite <- Hm. by apply (Hk a).
Qed.

(** A row carries the identity of its entry. *)
Definition entry_key (e : IndexLaunch.t * TestItem.t) : Z * Z := (IndexLaunch.project e.1, TestItem.testItemId e.2).
Definition row_of (e : IndexLaunch.t * TestItem.t) (row : TestItemIn.t * SigIn.t * Z) : Prop :=
  (TestItemIn.project_id row.1.1, TestItemIn.item_id row.1.1) = entry_key e
  /\ (SigIn.project_id row.1.2, SigIn.item_id row.1.2) = entry_key e.

Lemma process_item_row now mgr l i mgr' row : _process_item cfg now mgr l i = Ok (mgr', row) -> row_of (l, i) row.
Proof.
  unfold _process_item. intros Hp. apply result_bind_Ok in Hp as ([m1 r] & _ & Hp).
  apply result_bind_Ok in Hp as (st & _ & Hp). apply result_bind_Ok in Hp as (ts & _ & Hp).
  apply result_bind_Ok in Hp as ([emb ver] & _ & Hp). apply result_bind_Ok in Hp as (ids & _ & Hp). by injection Hp as _ <-.
Qed.

Lemma process_entries_rows mgr es w mgr' rows :
  (process_entries cfg mgr es w).2 = Ok (mgr', rows) -> Forall2 row_of es rows.
Proof.
  revert mgr mgr' rows w. induction es as [|[l i] es IH]; intros mgr mgr' rows w; [by intros [= _ <-]|].
  cbn [process_entries]. unfold mbind, M_bind. pose proof (silent_check w) as Hc.
  destruct (raise_if_cancelled w) as [w1 [[]|e]]; [|done]. simpl in Hc. subst w1.
  unfold read at 1, of_result at 1. destruct (_process_item cfg (wall_clock (st w)) mgr l i) as [[m1 row]|e] eqn:Ep; [|done].
  specialize (IH m1). pose proof (silent_process_entries m1 es w) as Hs. specialize (fun a b => IH a b w).
  destruct (process_entries cfg m1 es w) as [w2 [[m2 rs]|e]]; [|done]. intros [= _ <-].
  constructor; [by eapply process_item_row|]. by apply (IH m2 rs).
Qed.

(** What is built for the entries: an item and a signature for each, in order, and
    a history bump for each item with a test case. *)
Record aligned (es : entries) (b : built) : Prop := {
  aligned_items : (fun i => (TestItemIn.project_id i, TestItemIn.item_id i)) <$> b.1.1 = entry_key <$> es;
  aligned_sigs : (fun s => (SigIn.project_id s, SigIn.item_id s)) <$> b.1.2 = entry_key <$> es;
  aligned_bumps : b.2.*1 = omap TestItemIn.test_case_hash b.1.1
}.

Lemma rows_aligned es rows mirror : Forall2 row_of es rows ->
  aligned es ((fun row => row.1.1) <$> rows,
              (fun row => SigIn.with_tmpl_text row.1.2 (tmpl_text_of mirror (SigIn.template_ids row.1.2))) <$> rows,
              stats_bumps rows).
Proof.
  intros Hf. constructor; simpl.
  - induction Hf as [|e row es rows [Hk1 _] _ IH]; csimpl; [done|]. by rewrite Hk1, IH.
  - induction Hf as [|e row es rows [_ Hk2] _ IH]; csimpl; [done|]. by rewrite Hk2, IH.
  - clear Hf. unfold stats_bumps. induction rows as [|row rows IH]; [done|]. csimpl.
    destruct (TestItemIn.test_case_hash row.1.1); csimpl; by rewrite IH.
Qed.

(** ** The mining section *)

Definition mined (project_id : Z) (es : entries) (tr : list ix_event) (r : result (option built)) : Prop :=
  match r with
  | Ok (Some b) => (exists v, tr = [ESave project_id v]) /\ aligned es b
  | _ => tr = []
  end.

Lemma save_call_emits p mgr v :
  emits (save_call p mgr v) (fun tr r => tr = match r with Ok true => [ESave p v] | _ => [] end).
Proof.
  intros w. unfold save_call. destruct (save_manager _ _ _ _ _) as [db r]. by eexists.
Qed.

Lemma attempt_mined p es : emits (mining_attempt cfg p es) (mined p es).
Proof.
  apply emits_after; [done|intros _ [] _|done].
  apply emits_after; [done|intros _ [mgr v] _|done].
  apply emits_after; [apply silent_quiet, silent_process_entries|intros w [mgr' rows] Hrows%process_entries_rows|done].
  apply emits_after; [done|intros _ mirror _|done].
  apply emits_after; [done|intros _ [] _|done].
  eapply emits_bind_ret; [apply save_call_emits|]. intros tr [[]|e] ->; [|done..].
  split; [by exists v|]. by apply rows_aligned.
Qed.

Lemma retry_mined n p es :
  emits (mine_retry cfg n p es) (fun tr r => match r with Ok b => (exists v, tr = [ESave p v]) /\ aligned es b | Raise _ => tr = [] end).
Proof.
  induction n as [|n IH]; [by apply emits_raise|]. cbn [mine_retry]. apply emits_bind with (P := mined p es)
    (Q := fun b tr r => match b with
                        | Some b => tr = [] /\ r = Ok b
                        | None => match r with Ok b => (exists v, tr = [ESave p v]) /\ aligned es b | Raise _ => tr = [] end
                        end).
  - apply attempt_mined.
  - intros [b|]; [by apply emits_ret|exact IH].
  - done.
  - intros t1 [b|] t2 r Hk1 Hk2.
    + destruct Hk2 as [-> ->]. by rewrite app_nil_r.
    + simpl in Hk1. by subst t1.
Qed.

(** ** The transaction *)

Lemma with_lock_emits {A} p (m : M A) (P : list ix_event -> result A -> Prop) :
  emits m P -> emits (with_lock p m) (fun tr r => exists t, tr = ELock p :: t ++ [EUnlock p] /\ P t r).
Proof.
  intros Hm w. unfold with_lock. destruct (Hm (mk_world (st w) (trace w ++ [ELock p]))) as (t & Ht & HP).
  destruct (m _) as [w1 r]; simpl in *. exists (ELock p :: t ++ [EUnlock p]). rewrite Ht. split; [|eauto].
  by rewrite <- !(assoc_L (++)).
Qed.

Lemma transaction_emits {A} (m : M A) (P : list ix_event -> result A -> Prop) :
  emits m P -> emits (transaction m) (fun tr r => match r with Ok _ => P tr r | Raise _ => tr = [] end).
Proof.
  intros Hm w. unfold transaction. destruct (Hm w) as (t & Ht & HP). destruct (m w) as [w1 [a|e]]; simpl in *; [eauto|].
  exists []. by rewrite app_nil_r.
Qed.

(** The rows a project commits: items, then signatures, then history. *)
Definition rows_written (p : Z) (b : built) : list ix_event :=
  EItems b.1.1 :: ESignatures b.1.2 :: ((fun ht => EHistory p ht.1 true ht.2) <$> b.2).

Lemma write_rows_emits p b : emits (write_rows p b) (fun tr r => match r with Ok _ => tr = rows_written p b | Raise _ => True end).
Proof.
  destruct b as [[items sigs] bumps]. unfold write_rows, rows_written. simpl.
  eapply emits_bind with (P := fun tr r => match r with Ok _ => tr = [EItems items] | Raise _ => True end)
    (Q := fun _ tr r => match r with Ok _ => tr = ESignatures sigs :: ((fun ht => EHistory p ht.1 true ht.2) <$> bumps) | Raise _ => True end);
    [by apply emits_call; [intros []|]|intros _|done|intros t1 [] t2 [[]|e] -> Ht2; [by rewrite Ht2|done]].
  eapply emits_bind with (P := fun tr r => match r with Ok _ => tr = [ESignatures sigs] | Raise _ => True end)
    (Q := fun _ tr r => match r with Ok _ => tr = (fun ht => EHistory p ht.1 true ht.2) <$> bumps | Raise _ => True end);
    [by apply emits_call; [intros []|]|intros _|done|intros t1 [] t2 [[]|e] -> Ht2; [by rewrite Ht2|done]].
  eapply emits_bind_ret; [apply emits_forM with (P := fun (ht : Z * Z) tr r => match r with Ok tt => tr = [EHistory p ht.1 true ht.2] | Raise _ => True end)|].
  - intros ht _. by apply emits_call; [intros []|].
  - intros tr [bs|e] Hl; [|done]. simpl. remember (Ok bs) as r eqn:Hr. revert bs Hr.
    induction Hl as [|x l tr e Hx|x l t1 [] t2 e Hx _ IH|x l t1 [] t2 bs Hx _ IH]; intros bs0 [= <-]; [done|].
    rewrite Hx. csimpl. by rewrite (IH bs).
Qed.

(** How the indexing of one project ends: all its rows committed, one for each of
    its entries, or none. *)
Inductive project_outcome (pe : Z * entries) : list ix_event -> option (list LogExceptionResult.t) -> Prop :=
  | committed v b : aligned pe.2 b ->
      project_outcome pe (ELock pe.1 :: ESave pe.1 v :: EUnlock pe.1 :: rows_written pe.1 b) (Some (log_results_of pe.2))
  | not_mined : project_outcome pe [ELock pe.1; EUnlock pe.1] None
  | rolled_back v : project_outcome pe [ELock pe.1; ESave pe.1 v; EUnlock pe.1] None.

Lemma index_project_emits pe :
  emits (_index_project cfg pe.1 pe.2) (fun tr r => project_outcome pe tr (match r with Ok lr => Some lr | Raise _ => None end)).
Proof.
  destruct pe as [p es]. unfold _index_project. simpl.
  eapply emits_bind with (P := fun tr r => exists t, tr = ELock p :: t ++ [EUnlock p] /\
       match r with Ok b => (exists v, t = [ESave p v]) /\ aligned es b | Raise _ => t = [] end)
    (Q := fun b tr r => match r with Ok lr => tr = rows_written p b /\ lr = log_results_of es | Raise _ => tr = [] end).
  - apply with_lock_emits, retry_mined.
  - intros b. eapply emits_bind_ret; [apply transaction_emits, write_rows_emits|]. by intros tr [[]|e].
  - intros tr e (t & -> & ->). apply (not_mined (p, es)).
  - intros t1 b t2 r (t & -> & (v & ->) & Hb). destruct r as [lr|e].
    + intros [-> ->]. simpl. by apply (committed (p, es)).
    + intros ->. rewrite app_nil_r. apply (rolled_back (p, es)).
Qed.

Lemma index_one_emits pe :
  emits (index_one cfg pe) (fun tr r => match r with Ok o => project_outcome pe tr o | Raise e => e = TaskTimeout /\ tr = [] end).
Proof.
  intros w. unfold index_one.
  assert (raise_if_cancelled w = (w, Ok tt) \/ raise_if_cancelled w = (w, Raise TaskTimeout)) as [E|E].
  { unfold raise_if_cancelled, mbind, M_bind, read. destruct (timed_out (st w)); [by right|by left]. }
  - rewrite (bind_ok _ _ _ _ _ E). revert w E. intros w _.
    assert (emits (attempt (_index_project cfg pe.1 pe.2))
      (fun tr r => match r with Ok o => project_outcome pe tr o | Raise e => e = TaskTimeout /\ tr = [] end)) as Ha; [|apply Ha].
    by eapply emits_attempt; [apply index_project_emits|..].
  - unfold mbind, M_bind. rewrite E. exists []. by rewrite app_nil_r.
Qed.

(** C8. An index request is a sequence of independent project transactions. Projects
    are taken one after the other; each either commits all of its rows - one item
    and one signature per entry, in the order of the request, and a history
    observation for each item with a test case, after its miner state was saved
    under the project's lock - or commits none of them; the failure of one neither
    stops nor alters the others. The reply flags an error exactly when a project
    failed, and lists the exceptions of the error logs of those that committed.
    Only the watchdog's timeout, seen between two projects, ends the request
    early. *)
Theorem index_projects_isolated (launches : list IndexLaunch.t) :
  emits (index_launches cfg launches) (fun tr r =>
    match r with
    | Raise e => e = TaskTimeout
    | Ok resp =>
        exists chunks outcomes, tr = concat chunks
        /\ Forall2 (fun pe co => project_outcome pe co.1 co.2) (by_project launches) (zip chunks outcomes)
        /\ length chunks = length (by_project launches) /\ length outcomes = length (by_project launches)
        /\ (BulkResponse.errors resp = true <-> None ∈ outcomes)
        /\ BulkResponse.logResults resp = concat (omap (fun o => o) outcomes)
    end).
Proof.
  unfold index_launches. eapply emits_bind_ret; [apply emits_forM; intros pe _; apply index_one_emits|].
  intros tr [outcomes|e] Hl; simpl.
  - destruct (loops_Ok _ _ _ _ Hl) as (chunks & -> & Hf & Hc & Ho). exists chunks, outcomes. split_and!; [done..| |done].
    rewrite existsb_exists. split.
    + intros (o & Hin & Hb). bprop. subst. by apply list_elem_of_In.
    + intros Hin. exists None. split; [by apply list_elem_of_In|done].
  - remember (Raise e) as r eqn:Hr. revert e Hr.
    induction Hl as [|x l tr e Hx|x l t1 b t2 e Hx _ IH|x l t1 b t2 bs Hx _ IH]; intros e0 [= <-]; [by destruct Hx|by apply IH].
Qed.

(** ** Under the project's lock *)

Lemma bind_inv {A B} (m : M A) (k : A -> M B) w w2 b : (m ≫= k) w = (w2, Ok b) ->
  exists a w1, m w = (w1, Ok a) /\ k a w1 = (w2, Ok b).
Proof. unfold mbind, M_bind. destruct (m w) as [w1 [a|e]]; [eauto|done]. Qed.

(** The lock makes the compare-and-set unlosable: when no other worker moves the
    project's miner row while this one mines (what the project's lock is for), the
    first attempt is never refused - it saves or raises - so the retry loop ends
    with its outcome, whatever the number of retries. *)
Theorem locked_mining_never_retries (project_id : Z) (es : entries) (retries : nat) (w : Emit.world St ix_event)
    (Hlocked : forall s, Tables.drain3_state (drain_tables (meanwhile s)) !! project_id
                         = Tables.drain3_state (drain_tables s) !! project_id) :
  let '(w', r) := mining_attempt cfg project_id es w in
  match r with
  | Ok (Some b) => mine_retry cfg (S retries) project_id es w = (w', Ok b)
  | Ok None => False
  | Raise e => mine_retry cfg (S retries) project_id es w = (w', Raise e)
  end.
Proof.
  destruct (mining_attempt cfg project_id es w) as [w' [[b|]|e]] eqn:E.
  1,3: cbn [mine_retry]; unfold mbind, M_bind; by rewrite E.
  unfold mining_attempt in E.
  apply bind_inv in E as ([] & w1 & Ew1 & E). apply bind_inv in E as ([mgr v] & w2 & Ew2 & E).
  apply bind_inv in E as ([mgr' rows] & w3 & Ew3 & E). apply bind_inv in E as (mirror & w4 & Ew4 & E).
  apply bind_inv in E as ([] & w5 & Ew5 & E). apply bind_inv in E as (saved & w6 & Ew6 & E).
  destruct saved; [by injection E|].
  pose proof (silent_process_entries mgr es w2) as Hs. rewrite Ew3 in Hs. simpl in Hs. subst w3.
  unfold load_call, read in Ew2. injection Ew2 as <- Hload. unfold of_result in Ew4. injection Ew4 as <- _.
  unfold others_run in Ew5. injection Ew5 as <-. unfold save_call in Ew6. simpl in Ew6.
  change (load_snapshot (drain_tables (st w1)) project_id None (drain_max_lines cfg) = (mgr, v)) in Hload.
  pose proof (load_snapshot_version (drain_tables (st w1)) project_id None (drain_max_lines cfg)) as Hv. rewrite Hload in Hv. simpl in Hv.
  unfold save_manager in Ew6. destruct (save _ _ _ _ _) as [db ok] eqn:Esave.
  destruct (save_outcome project_id (serialize mgr') v (config_summary (DrainManager.config mgr')) (drain_tables (meanwhile (st w1)))) as [Hok _].
  rewrite Esave in Hok. simpl in Hok. unfold saves in Hok. rewrite Hlocked in Hok.
  assert (ok = true) as ->.
  { rewrite Hok, Hv. destruct (Tables.drain3_state (drain_tables (st w1)) !! project_id); [apply Z.eqb_refl|done]. }
  by destruct (cluster_mirror_rows mgr').
Qed.

(** ** The read path *)

Lemma silent_build_entries mgr es : silent (build_entries cfg mgr es).
Proof.
  revert mgr. induction es as [|[l i] es IH]; intros mgr; [done|]. cbn [build_entries].
  apply silent_bind; [done|intros _]. apply silent_bind; [done|intros [mgr' b]]. by apply silent_bind; [apply IH|].
Qed.

(** Building the analyses of a batch persists nothing: neither the miner's tables
    nor any other store changes, and no call is made, whatever the outcome. *)
Theorem read_path_persists_nothing (project_id : Z) (es : entries) (w : Emit.world St ix_event) :
  (build_item_analyses cfg project_id es w).1 = w.
Proof. apply silent_bind; [done|]. intros [mgr v]. apply silent_build_entries. Qed.

(** The read path sees what the index path stores: from the same miner state, the
    analysis built for an item and the signature row indexed for it have the same
    fingerprint, error hash, frames, template ids, status codes, message and
    embedding, and leave the miner in the same state. *)
Theorem read_path_agrees (now : Z) (mgr mgr1 mgr2 : manager) (launch : IndexLaunch.t) (item : TestItem.t)
    (row : TestItemIn.t * SigIn.t * Z) (b : Built.t)
    (Hindex : _process_item cfg now mgr launch item = Ok (mgr1, row)) (Hread : _build_one cfg mgr launch item = Ok (mgr2, b)) :
  let r := Built.signature b in
  let s := row.1.2 in
  mgr1 = mgr2
  /\ SigIn.exception_fp s = SigResult.exception_fp r /\ SigIn.error_hash s = SigResult.error_hash r
  /\ SigIn.top_frames s = SigResult.frames r /\ rmapM _template_id (SigResult.template_hashes r) = Ok (SigIn.template_ids s)
  /\ SigIn.status_codes s = SigResult.status_codes r /\ SigIn.msg_text s = SigResult.msg_text r
  /\ SigIn.emb s = Built.emb b /\ SigIn.emb_model_ver s = Built.emb_model_ver b
  /\ TestItemIn.log_count row.1.1 = Built.log_count b /\ TestItemIn.start_time row.1.1 = Built.start_time b.
Proof.
  unfold _process_item in Hindex. unfold _build_one in Hread.
  apply result_bind_Ok in Hindex as ([m1 r1] & Er1 & Hindex). apply result_bind_Ok in Hread as ([m2 r2] & Er2 & Hread).
  rewrite Er1 in Er2. injection Er2 as <- <-.
  apply result_bind_Ok in Hindex as (st1 & Est1 & Hindex). apply result_bind_Ok in Hindex as (ts & _ & Hindex).
  apply result_bind_Ok in Hindex as ([emb1 v1] & Eemb1 & Hindex). apply result_bind_Ok in Hindex as (ids & Eids & Hindex).
  apply result_bind_Ok in Hread as ([emb2 v2] & Eemb2 & Hread). apply result_bind_Ok in Hread as (st2 & Est2 & Hread).
  rewrite Eemb1 in Eemb2. injection Eemb2 as <- <-. rewrite Est1 in Est2. injection Est2 as <-.
  apply (inj Ok), pair_eq in Hindex as [<- <-]. apply (inj Ok), pair_eq in Hread as [<- <-].
  cbn [fst snd Built.signature Built.emb Built.emb_model_ver Built.log_count Built.start_time SigIn.exception_fp SigIn.error_hash
    SigIn.top_frames SigIn.template_ids SigIn.status_codes SigIn.msg_text SigIn.emb SigIn.emb_model_ver TestItemIn.log_count TestItemIn.start_time].
  split_and!; first [exact Eids|reflexivity].
Qed.
End Commit.

(** ** Witnesses *)

(** The miner's tables alone, and nobody else at work. *)
Definition toy_stores : IndexStores tables := {|
  drain_tables := fun s => s; put_tables := fun t _ => t; meanwhile := fun s => s; wall_clock := fun _ => 0; timed_out := fun _ => false;
  upsert_items := fun _ s => (s, Ok tt); upsert_signatures := fun _ s => (s, Ok tt); bump_test_history := fun _ _ _ _ s => (s, Ok tt) |}.
Definition wcfg : config := mk_config None 0 20 40 5.
Definition witem : TestItem.t := TestItem.mk 11 false [] (u "ti001") [2024; 5; 6; 7; 8; 9; 1] 77 (u "Checkout")
  [Log.mk 2 40000 [2024; 5; 6; 7; 8; 11; 1] (u "TimeoutException in checkout"); Log.mk 1 30000 [2024; 5; 6; 7; 8; 10; 1] (u "SLOW QUERY")].
Definition wlaunch : IndexLaunch.t := IndexLaunch.mk 5 7 (u "nightly") 1 [witem].

Lemma locked_mining_never_retries_witness :
  let U := ascii_unicode in let T := toy_tfidf in let X := toy_hash in let M := toy_miner in let S := toy_stores in
  let w := mk_world no_tables [] in
  match mining_attempt wcfg 7 [(wlaunch, witem)] w with
  | (w', Ok (Some b)) => mine_retry wcfg 5 7 [(wlaunch, witem)] w = (w', Ok b) /\ trace w' = [ESave 7 0]
  | _ => False
  end.
Proof.
  intros U T X M S w.
  pose proof (locked_mining_never_retries (H := U) (H0 := T) (H1 := X) (H2 := M) (IndexStores0 := S) wcfg 7 [(wlaunch, witem)] 4 w
                (fun s => eq_refl)) as Hthm.
  destruct (mining_attempt wcfg 7 [(wlaunch, witem)] w) as [w' [[b|]|e]] eqn:E.
  - split; [exact Hthm|]. assert (trace (mining_attempt wcfg 7 [(wlaunch, witem)] w).1 = [ESave 7 0]) as Ht by (vm_compute; reflexivity).
    rewrite E in Ht. exact Ht.
  - exact Hthm.
  - assert (match (mining_attempt wcfg 7 [(wlaunch, witem)] w).2 with Raise _ => False | _ => True end) as Ht by (vm_compute; exact I).
    rewrite E in Ht. exact Ht.
Defined.

Lemma read_path_agrees_witness :
  let U := ascii_unicode in let T := toy_tfidf in let X := toy_hash in let M := toy_miner in
  let mgr := new_manager None 40 in
  match _process_item wcfg 0 mgr wlaunch witem, _build_one wcfg mgr wlaunch witem with
  | Ok (mgr1, row), Ok (mgr2, b) => mgr1 = mgr2 /\ SigIn.error_hash row.1.2 = SigResult.error_hash (Built.signature b)
  | _, _ => False
  end.
Proof.
  intros U T X M mgr.
  destruct (_process_item wcfg 0 mgr wlaunch witem) as [[mgr1 row]|e] eqn:E1.
  2: { assert (match _process_item wcfg 0 mgr wlaunch witem with Raise _ => False | _ => True end) as Ht by (vm_compute; exact I).
       rewrite E1 in Ht. exact Ht. }
  destruct (_build_one wcfg mgr wlaunch witem) as [[mgr2 b]|e] eqn:E2.
  2: { assert (match _build_one wcfg mgr wlaunch witem with Raise _ => False | _ => True end) as Ht by (vm_compute; exact I).
       rewrite E2 in Ht. exact Ht. }
  pose proof (read_path_agrees (H := U) (H0 := T) (H1 := X) (H2 := M) wcfg 0 mgr mgr1 mgr2 wlaunch witem row b E1 E2) as Hthm.
  split; [exact (proj1 Hthm)|exact (proj1 (proj2 (proj2 Hthm)))].
Defined.
