(* ===== verification/Excerpt.v ===== *)
(** * Log excerpts that fit a token budget

    [llm/excerpt.py]: the head window, the root exception block and the tail
    window of a log, shrunk until the excerpt fits. *)

From S2P Require Import Prelude PyStr Regex RegexTheory PyText.
From Stdlib Require Import NArith ZArith Lia.

#[local] Open Scope string_scope.
#[local] Open Scope list_scope.
#[local] Open Scope nat_scope.

Definition HEAD_LINES : nat := 15.
Definition TAIL_LINES : nat := 10.
Definition ROOT_MAX_LINES : nat := 40.

Definition _CAUSED_BY_RE : pattern := Eval vm_compute in compile_i "^\s*Caused by:".
Definition _EXCEPTION_RE : pattern := Eval vm_compute in
  compile "^\s*(?:[A-Za-z_][\w$]*\.)*[A-Za-z_][\w$]*(?:Exception|Error|Throwable)\b".

(** [math.ceil(len(text) * 11 / 40)]; the float quotient is exact enough for its
    ceiling to be the integer one below 2^50 characters. *)
Definition estimate_tokens (text : ustr) : Z := ((Z.of_nat (length text) * 11 + 39) / 40)%Z.

Section Excerpt.
Context `{!Unicode}.

Definition caused_by (line : ustr) : bool := bool_decide (is_Some (re_match _CAUSED_BY_RE line)).
Definition exception_header (line : ustr) : bool := bool_decide (is_Some (re_match _EXCEPTION_RE line)).

(** The last index that satisfies [p], and the first one. *)
Fixpoint last_index (p : ustr -> bool) (i : nat) (l : list ustr) : option nat :=
  match l with
  | [] => None
  | x :: l' => match last_index p (S i) l' with
               | Some k => Some k
               | None => if p x then Some i else None
               end
  end.
Fixpoint first_index (p : ustr -> bool) (i : nat) (l : list ustr) : option nat :=
  match l with [] => None | x :: l' => if p x then Some i else first_index p (S i) l' end.

(** [while end < limit and lines[end].strip() != "": end += 1]. *)
Fixpoint block_end (k limit : nat) (rest : list ustr) : nat :=
  match rest with
  | [] => k
  | x :: rest' => if (k <? limit) && negb (blank x) then block_end (S k) limit rest' else k
  end.

(** The bounds of the root block, when there is one. *)
Definition _root_block_bounds (ls : list ustr) : option (nat * nat) :=
  let anchor := match last_index caused_by 0 ls with
                | Some a => Some a
                | None => first_index exception_header 0 ls
                end in
  (fun a => (a, block_end (S a) (Nat.min (a + ROOT_MAX_LINES) (length ls)) (drop (S a) ls))) <$> anchor.

Definition elision (n : nat) : ustr := u "... [" ++ u (str_of_Z (Z.of_nat n)) ++ u " lines elided by analyzer] ...".

(** The kept lines in order, with a marker for every gap between two of them. *)
Fixpoint render_from (keep : nat -> bool) (prev : option nat) (i : nat) (ls : list ustr) : list ustr :=
  match ls with
  | [] => []
  | x :: ls' =>
      if keep i then
        (match prev with
         | Some p => if S p <? i then [elision (i - p - 1)] else []
         | None => []
         end) ++ x :: render_from keep (Some i) (S i) ls'
      else render_from keep prev (S i) ls'
  end.
Definition _render (ls : list ustr) (keep : nat -> bool) : ustr := unlines (render_from keep None 0 ls).

(** The windows: lines of the head, of the tail, of the root block. *)
Record windows := mk_windows { w_head : nat; w_tail : nat; w_root : nat }.

Definition kept (n : nat) (rs : option nat) (w : windows) (i : nat) : bool :=
  (i <? Nat.min (w_head w) n)
  || ((0 <? w_tail w) && (n - w_tail w <=? i) && (i <? n))
  || match rs with Some a => (a <=? i) && (i <? a + w_root w) | None => false end.

(** The next windows: the tail shrinks first, then the head, then the block. *)
Definition shrink (w : windows) : option windows :=
  match w_tail w with
  | S t => Some (mk_windows (w_head w) t (w_root w))
  | O => match w_head w with
         | S h => Some (mk_windows h 0 (w_root w))
         | O => match w_root w with
                | S (S r) => Some (mk_windows 0 0 (S r))
                | _ => None
                end
         end
  end.

(** [while True]; every round shrinks a window. *)
Fixpoint shrink_loop (fuel : nat) (ls : list ustr) (rs : option nat) (max_tokens : Z) (w : windows) : option ustr :=
  match fuel with
  | O => None
  | S fuel' =>
      let rendered := _render ls (kept (length ls) rs w) in
      if (estimate_tokens rendered <=? max_tokens)%Z then Some rendered
      else match shrink w with
           | Some w' => shrink_loop fuel' ls rs max_tokens w'
           | None => Some rendered
           end
  end.

Definition measure (w : windows) : nat := w_tail w + w_head w + w_root w.

Definition first_windows (bounds : option (nat * nat)) : windows :=
  mk_windows HEAD_LINES TAIL_LINES (match bounds with Some (a, e) => e - a | None => 0 end).

Definition middle_out (text : ustr) (max_tokens : Z) : option ustr :=
  if (estimate_tokens text <=? max_tokens)%Z then Some text
  else
    let ls := lines text in
    let bounds := _root_block_bounds ls in
    let w := first_windows bounds in
    shrink_loop (S (measure w)) ls (fst <$> bounds) max_tokens w.
End Excerpt.

(** ** Termination, and what is returned *)

(** The windows tried, in order: the tail from full to empty, then the head, then
    the block down to its first line. *)
Fixpoint attempts (fuel : nat) (w : windows) : list windows :=
  match fuel with
  | O => [w]
  | S f => w :: match shrink w with Some w' => attempts f w' | None => [] end
  end.

Lemma shrink_measure w w' : shrink w = Some w' -> measure w' < measure w.
Proof.
  unfold shrink, measure. destruct w as [[|h] [|t] [|[|r]]]; simpl; intros [= <-]; simpl; lia.
Qed.

Lemma attempts_enough n m w : measure w <= n -> measure w <= m -> attempts n w = attempts m w.
Proof.
  revert m w. induction n as [|n IH]; intros [|m] w Hn Hm; simpl; try done.
  - destruct (shrink w) eqn:E; [apply shrink_measure in E; lia|done].
  - destruct (shrink w) eqn:E; [apply shrink_measure in E; lia|done].
  - destruct (shrink w) as [w'|] eqn:E; [|done]. apply shrink_measure in E. f_equal. apply IH; lia.
Qed.

Section Laws.
Context `{!Unicode}.

(** Whether the excerpt with windows [w] fits. *)
Definition fits (ls : list ustr) (rs : option nat) (max_tokens : Z) (w : windows) : bool :=
  (estimate_tokens (_render ls (kept (length ls) rs w)) <=? max_tokens)%Z.

Lemma shrink_loop_total fuel ls rs mt w : measure w < fuel ->
  exists w', shrink_loop fuel ls rs mt w = Some (_render ls (kept (length ls) rs w')) /\
    (fits ls rs mt w' = true \/ shrink w' = None) /\
    exists before rest, attempts (measure w) w = before ++ w' :: rest /\ Forall (fun v => fits ls rs mt v = false) before.
Proof.
  revert w. induction fuel as [|fuel IH]; intros w Hf; [lia|]. cbn [shrink_loop].
  fold (fits ls rs mt w). destruct (fits ls rs mt w) eqn:E.
  - exists w. split; [done|]. split; [by left|]. destruct (measure w); simpl; by eexists [], _.
  - destruct (shrink w) as [w1|] eqn:Es.
    + pose proof (shrink_measure _ _ Es) as Hm. destruct (IH w1) as (w' & Hr & Hfit & before & rest & Ha & Hb); [lia|].
      exists w'. split; [done|]. split; [done|].
      exists (w :: before), rest. destruct (measure w) as [|k] eqn:Ek; [lia|]. simpl. rewrite Es.
      rewrite (attempts_enough k (measure w1)), Ha by lia. split; [done|by constructor].
    + exists w. split; [done|]. split; [by right|]. destruct (measure w); simpl; rewrite ?Es; by eexists [], _.
Qed.

(** ** The anchor line is never dropped *)

Lemma last_index_bound p i l k : last_index p i l = Some k -> i <= k < i + length l.
Proof.
  revert i. induction l as [|x l IH]; intros i; simpl; [done|].
  destruct (last_index p (S i) l) eqn:E; [intros [= <-]; apply IH in E; lia|].
  destruct (p x); [|done]. intros [= <-]. lia.
Qed.
Lemma first_index_bound p i l k : first_index p i l = Some k -> i <= k < i + length l.
Proof.
  revert i. induction l as [|x l IH]; intros i; simpl; [done|]. destruct (p x); [intros [= <-]; lia|].
  intros E%IH. lia.
Qed.
Lemma block_end_ge k limit rest : k <= block_end k limit rest.
Proof.
  revert k. induction rest as [|x rest IH]; intros k; simpl; [done|]. destruct (_ && _); [|done].
  specialize (IH (S k)). lia.
Qed.

Lemma root_block_spec ls a e : _root_block_bounds ls = Some (a, e) -> a < length ls /\ a < e.
Proof.
  unfold _root_block_bounds. destruct (last_index caused_by 0 ls) as [k|] eqn:E1.
  - intros [= <- <-]. apply last_index_bound in E1. pose proof (block_end_ge (S k)). split; [lia|].
    eapply Nat.lt_le_trans; [|apply block_end_ge]. lia.
  - destruct (first_index exception_header 0 ls) as [k|] eqn:E2; [|done]. intros [= <- <-].
    apply first_index_bound in E2. split; [lia|]. eapply Nat.lt_le_trans; [|apply block_end_ge]. lia.
Qed.

(** No attempt gives up the first line of the block. *)
Lemma attempts_root n w v : v ∈ attempts n w -> 0 < w_root w -> 0 < w_root v.
Proof.
  revert w. induction n as [|n IH]; intros w; simpl.
  - by intros ->%list_elem_of_singleton.
  - intros [->|Hv]%elem_of_cons Hw; [done|]. destruct (shrink w) as [w'|] eqn:E; [|by apply elem_of_nil in Hv].
    apply (IH w' Hv). clear -E Hw. destruct w as [[|h] [|t] [|[|r]]]; unfold shrink in E; cbn in *; try lia; try done;
      injection E as <-; cbn; lia.
Qed.

Lemma render_keeps keep prev i ls k x : ls !! k = Some x -> keep (i + k) = true -> x ∈ render_from keep prev i ls.
Proof.
  revert prev i k. induction ls as [|y ls IH]; intros prev i k Hk Hkeep; [done|]. simpl.
  destruct k as [|k]; simpl in Hk.
  - injection Hk as ->. rewrite Nat.add_0_r in Hkeep. rewrite Hkeep. apply elem_of_app. right. by left.
  - rewrite <- Nat.add_succ_comm in Hkeep. destruct (keep i); [apply elem_of_app; right; right|]; by eapply IH.
Qed.

Lemma elision_line n : LF_ ∉ elision n.
Proof.
  unfold elision. rewrite !not_elem_of_app. split_and!; apply u_free; try reflexivity.
  apply sany_str_of_Z; [|reflexivity]. intros k Hk.
  assert (k ∈ [0; 1; 2; 3; 4; 5; 6; 7; 8; 9]%N) as Hin by (rewrite !elem_of_cons; lia). by elem_cases Hin.
Qed.

Lemma render_lines keep prev i ls : Forall (fun x => LF_ ∉ x) ls -> Forall (fun x => LF_ ∉ x) (render_from keep prev i ls).
Proof.
  revert prev i. induction ls as [|x ls IH]; intros prev i Hf; [constructor|]. apply Forall_cons in Hf as [Hx Hf]. simpl.
  destruct (keep i); [|by apply IH]. apply Forall_app. split; [|constructor; [done|by apply IH]].
  destruct prev; [|constructor]. destruct (_ <? _); [|constructor]. constructor; [apply elision_line|constructor].
Qed.

(** Excerpts are cut by a loop that ends and never cuts what matters.  The
    call always returns: the text itself when it fits; otherwise the excerpt of
    the first windows, in the order tail, head, block, that fits the budget, or
    of the smallest windows when none does.  When the log has a root exception
    block, its first line is a line of the excerpt. *)
Theorem middle_out_total (text : ustr) (max_tokens : Z) :
  exists out, middle_out text max_tokens = Some out /\
    ((estimate_tokens text <= max_tokens)%Z -> out = text) /\
    ((max_tokens < estimate_tokens text)%Z ->
     let ls := lines text in
     let bounds := _root_block_bounds ls in
     exists before w rest,
       attempts (measure (first_windows bounds)) (first_windows bounds) = before ++ w :: rest /\
       out = _render ls (kept (length ls) (fst <$> bounds) w) /\
       Forall (fun v => fits ls (fst <$> bounds) max_tokens v = false) before /\
       ((estimate_tokens out <= max_tokens)%Z \/ shrink w = None) /\
       forall a e, bounds = Some (a, e) -> exists line, ls !! a = Some line /\ line ∈ lines out).
Proof.
  unfold middle_out. destruct (Z.leb_spec (estimate_tokens text) max_tokens) as [Hle|Hlt].
  { exists text. split_and!; [done|done|lia]. }
  set (ls := lines text). set (bounds := _root_block_bounds ls).
  destruct (shrink_loop_total (S (measure (first_windows bounds))) ls (fst <$> bounds) max_tokens (first_windows bounds))
    as (w & Hr & Hfit & before & rest & Ha & Hb); [lia|].
  eexists. split; [exact Hr|]. split; [lia|]. intros _. exists before, w, rest. split_and!; try done.
  { destruct Hfit as [Hfit|Hs]; [left; by apply Z.leb_le|by right]. }
  intros a e Hbounds. destruct (root_block_spec _ _ _ Hbounds) as [Hlt' He].
  destruct (lookup_lt_is_Some_2 ls a Hlt') as [line Hline]. exists line. split; [done|].
  assert (0 < w_root w) as Hroot.
  { eapply attempts_root; [rewrite Ha; apply elem_of_app; right; by left|]. rewrite Hbounds. simpl. lia. }
  unfold _render, unlines, lines. assert (line ∈ render_from (kept (length ls) (fst <$> bounds) w) None 0 ls) as Hin.
  { eapply render_keeps; [exact Hline|]. rewrite Hbounds. unfold kept. simpl. rewrite !orb_true_iff. right.
    rewrite andb_true_iff, Nat.leb_le, Nat.ltb_lt. lia. }
  rewrite usplit_ujoin; [done|by intros E; rewrite E in Hin; apply elem_of_nil in Hin|].
  apply render_lines, Forall_forall. intros x Hx. by eapply usplit_free.
Qed.
End Laws.
