(* ===== verification/Models.v ===== *)
(** * The retrieval candidate

    [db/repositories/models.py]: the record the retrieval layer hands to the
    feature extractor and the decision layer.  Instants are microseconds UTC. *)

From S2P Require Import Prelude PyFloat.
From Stdlib Require Import ZArith.

Module Candidate.
Record t := mk {
  item_id : option Z;              (* None for mode-only candidates *)
  mode_id : option Z;
  dense_rank : option Z;
  sparse_rank : option Z;
  rrf_score : pyfloat;
  cosine : option pyfloat;
  lex_score : option pyfloat;
  jaccard_templates : pyfloat;
  issue_type : option string;
  label_source : option string;    (* "seed" | "human" | "ai_suggested" | "rp" *)
  label_ts : option Z;
  same_test_case : bool;
  same_error_hash : bool;
  same_exception_fp : bool;
  msg_text : string;
  exc_text : string;
  launch_distance : option Z;
  launch_id : option Z;
  launch_name : option string;
  mode_status : option string;
  mode_purity : option pyfloat;
  mode_support : option Z;
  matched_by : option string;      (* "hash" | "vector" | "lexical" | "human" *)
  relevant_log_id : option Z
}.

(** The field defaults of the class, for the two required identities. *)
Definition default (item mode : option Z) : t := {|
  item_id := item; mode_id := mode; dense_rank := None; sparse_rank := None;
  rrf_score := f0; cosine := None; lex_score := None; jaccard_templates := f0;
  issue_type := None; label_source := None; label_ts := None;
  same_test_case := false; same_error_hash := false; same_exception_fp := false;
  msg_text := ""; exc_text := ""; launch_distance := None; launch_id := None;
  launch_name := None; mode_status := None; mode_purity := None;
  mode_support := None; matched_by := None; relevant_log_id := None |}.
End Candidate.
