(* ===== verification/Features.v ===== *)
(** * The feature extractor

    [core/features.py]: the ordered feature registry, the identifier-token
    Jaccard shared with the Stage-A gate, and the extraction of the feature
    snapshot.  [math.exp], [math.log], [math.log1p] and [**] on floats come from
    the platform's C library and are the operations of the class [Libm]. *)

From S2P Require Import Prelude PyFloat FloatQuot PyStr Models.
From Stdlib Require Import ZArith Lia Ascii.

#[local] Open Scope string_scope.
#[local] Open Scope list_scope.
#[local] Open Scope Z_scope.

Class Libm := {
  math_exp : pyfloat -> pyfloat;
  math_log : pyfloat -> pyfloat;
  math_log1p : pyfloat -> pyfloat;
  float_pow : pyfloat -> pyfloat -> pyfloat
}.

(** ** The registry *)

Definition FEATURE_SCHEMA_VER : Z := 6.
Definition LLM_UNKNOWN : string := "unknown".

Definition FAILING_LAYER_LEVELS : list string :=
  [LLM_UNKNOWN; "test_code"; "app_code"; "infrastructure"; "environment"].
Definition ERROR_CLASS_LEVELS : list string :=
  [LLM_UNKNOWN; "assertion"; "timeout"; "connection"; "http_4xx"; "http_5xx";
   "null_reference"; "not_found"; "permission"; "data_format";
   "resource_exhausted"; "config"; "concurrency"; "other"].

Module FeatureDef.
Record t := mk { name : string; default : pyfloat }.
End FeatureDef.
Notation FD := FeatureDef.mk.

Definition onehot_name (prefix lvl : string) : string := prefix +:+ "_" +:+ lvl.

Definition _onehot_defs (prefix : string) (levels : list string) : list FeatureDef.t :=
  (fun lvl => FD (onehot_name prefix lvl) (if decide (lvl = LLM_UNKNOWN) then f1 else f0))
    <$> levels.

Definition _set_onehot (values : list (string * pyfloat)) (prefix : string)
    (levels : list string) (value : string) : list (string * pyfloat) :=
  let active := if decide (value ∈ levels) then value else LLM_UNKNOWN in
  fold_left (fun vs lvl =>
    dset (onehot_name prefix lvl) (if decide (lvl = active) then f1 else f0) vs)
    levels values.

Definition BASE_LABELS : list string := ["pb"; "ab"; "si"; "nd"].
Definition half : pyfloat := Eval vm_compute in dec 5 10.
Definition SI_PRIOR_MAX : pyfloat := Eval vm_compute in dec 9 10.

Definition FEATURES : list FeatureDef.t :=
  [ FD "top1_cosine" f0; FD "top1_rrf" f0; FD "top1_jaccard" f0; FD "margin_cos" f0;
    FD "mean_top5_cosine" f0; FD "n_candidates" f0; FD "label_hist_entropy" f1;
    FD "top1_label_frac" f0; FD "same_test_case_top1" f0; FD "same_error_hash_top1" f0;
    FD "same_exception_fp_top1" f0; FD "recency_top1" f0; FD "src_weight_top1" f0;
    FD "hist_pb" f0; FD "hist_ab" f0; FD "hist_si" f0; FD "hist_nd" f0;
    FD "kb_top1_score" f0; FD "kb_purity" f0; FD "kb_support" f0; FD "kb_same_fp" f0;
    FD "kb_prior_conf" f0; FD "seed_pb" f0; FD "seed_ab" f0; FD "seed_si" f0;
    FD "seed_nd" f0; FD "flakiness_score" half; FD "test_fail_rate_30d" half;
    FD "flips_30d" f0; FD "co_failure_group_size" f0; FD "group_dominance" f0;
    FD "launch_fail_fraction" f0; FD "si_prior" f0; FD "test_age_days" f0;
    FD "item_log_count" f0; FD "has_stacktrace" f0; FD "is_assertion" f0;
    FD "is_merged_small_logs" f0; FD "exception_count" f0;
    FD "status_codes_present" f0; FD "status_codes_match_top1" f0;
    FD "identifier_jaccard_top1" f0; FD "hash_gate_blocked" f0;
    FD "identifiers_present" f0; FD "ident_jaccard_source" f0 ]
  ++ _onehot_defs "llm_failing_layer" FAILING_LAYER_LEVELS
  ++ _onehot_defs "llm_error_class" ERROR_CLASS_LEVELS.

Definition FEATURE_DEFAULTS : list (string * pyfloat) :=
  (fun f => (FeatureDef.name f, FeatureDef.default f)) <$> FEATURES.

(** ** Identifier-token Jaccard *)

(** [re.compile(r"\.|::|[a-z][A-Z]").search(t)]: a dot, a double colon, or a
    lower-case letter followed by an upper-case one. *)
Fixpoint is_identifier_token (s : string) : bool :=
  match s with
  | EmptyString => false
  | String c s' =>
      bool_decide (c = "."%char)
      || match s' with
         | String d _ =>
             bool_decide (c = ":"%char /\ d = ":"%char) || (is_lower c && is_upper d)
         | EmptyString => false
         end
      || is_identifier_token s'
  end.

(** [len(s)] of a set of tokens, as an int. *)
Definition zsize (s : gset string) : Z := Z.of_nat (size s).

Definition jaccard (a b : gset string) : pyfloat :=
  if bool_decide (a = ∅) && bool_decide (b = ∅) then f1
  else
    let union := a ∪ b in
    if bool_decide (union = ∅) then f1
    else int_quot (zsize (a ∩ b)) (zsize union).

Definition identifier_tokens (tokens : gset string) : gset string :=
  filter (fun t => is_identifier_token t = true) tokens.

Definition identifier_jaccard (query mtch : gset string) : pyfloat :=
  let qi := identifier_tokens query in
  let mi := identifier_tokens mtch in
  if negb (bool_decide (qi = ∅)) || negb (bool_decide (mi = ∅)) then jaccard qi mi
  else jaccard query mtch.

(** ** Scalar helpers *)

Definition _SRC_WEIGHT : list (string * pyfloat) := Eval vm_compute in
  [("rp", f1); ("human", dec 9 10); ("ai_suggested", dec 3 10); ("seed", dec 6 10)].
Definition _SRC_WEIGHT_DEFAULT : pyfloat := Eval vm_compute in dec 3 10.

Definition src_weight (label_source : option string) : pyfloat :=
  dgetd (default "" label_source) _SRC_WEIGHT_DEFAULT _SRC_WEIGHT.

Definition base_group (issue_type : option string) : option string :=
  match issue_type with
  | None => None
  | Some s =>
      if decide (s = "") then None
      else
        let prefix := str_lower (sfilter isalpha (stake 2 s)) in
        if decide (prefix ∈ BASE_LABELS) then Some prefix else None
  end.

(** [sum(xs)] over floats in CPython 3.12: the integer start 0 is added to the
    first item, the rest is Neumaier's compensated summation, and a non-zero
    finite compensation is added at the end. *)
Definition neumaier_step (st : pyfloat * pyfloat) (x : pyfloat) : pyfloat * pyfloat :=
  let '(s, c) := st in
  let t := (s + x)%F in
  let c' := if (fabs x <=? fabs s)%F then (c + ((s - t) + x))%F else (c + ((x - t) + s))%F in
  (t, c').

Definition py_sum (l : list pyfloat) : pyfloat :=
  match l with
  | [] => f0
  | x :: l' =>
      let '(s, c) := fold_left neumaier_step l' ((f0 + x)%F, f0) in
      if negb (is_zero c) && is_finite c then (s + c)%F else s
  end.

Definition _clamp01 (value : pyfloat) : pyfloat :=
  match value with
  | S754_nan | S754_infinity _ => f0
  | _ => pymax2 f0 (pymin2 f1 value)
  end.

Definition _cos (c : Candidate.t) : pyfloat := default f0 (Candidate.cosine c).

Definition b2f (b : bool) : pyfloat := if b then f1 else f0.
Definition ilen {A} (l : list A) : Z := Z.of_nat (length l).

(** ** The extractor's inputs *)

Module KBMatch.
Record t := mk {
  mode_id : Z; score_mode : pyfloat; purity : pyfloat; support : Z;
  same_exception_fp : bool; status : string
}.
End KBMatch.

Module SeedSignal.
Record t := mk { label : string; confidence : pyfloat }.
End SeedSignal.

Module FeatureContext.
Record t := mk {
  candidates : list Candidate.t;
  candidate_ages_days : list pyfloat;
  kb_best : option KBMatch.t;
  seed : option SeedSignal.t;
  flakiness_score : option pyfloat;
  window_runs : Z;
  window_failures : Z;
  window_flips : Z;
  test_age_days : option pyfloat;
  group_size : Z;
  launch_failures : Z;
  launch_items : Z;
  si_prior : pyfloat;
  item_log_count : Z;
  has_stacktrace : bool;
  is_assertion : bool;
  is_merged_small_logs : bool;
  exception_count : Z;
  llm_failing_layer : string;
  llm_error_class : string;
  query_status_codes : list string;
  query_msg_tokens : gset string;
  top1_status_codes : list string;
  top1_msg_tokens : gset string;
  has_hash_top1 : bool;
  hash_gate_blocked : bool;
  time_decay_per_day : pyfloat
}.
End FeatureContext.


(** ** Extraction

    [extract_features] fills the dictionary of defaults in the order of the
    source; each block below is one stretch of its body. *)

Section Extract.
Context `{!Libm}.

Definition _LN2 : pyfloat := math_log (of_Z 2).
Definition _LN4 : pyfloat := math_log (of_Z 4).
(** [2.0 ** (-1.0 / 90.0)]. *)
Definition TIME_DECAY_PER_DAY : pyfloat :=
  float_pow (of_Z 2) (fquot (fopp f1) (of_Z 90)).

Definition decay (days per_day : pyfloat) : pyfloat :=
  if (days <=? f0)%F then f1
  else if (per_day =? TIME_DECAY_PER_DAY)%F then
    math_exp (fquot (fopp _LN2 * days)%F (of_Z 90))
  else float_pow per_day days.

(** The [FeatureContext()] of a caller that passes nothing. *)
Definition empty_context : FeatureContext.t := {|
  FeatureContext.candidates := []; FeatureContext.candidate_ages_days := [];
  FeatureContext.kb_best := None; FeatureContext.seed := None;
  FeatureContext.flakiness_score := None; FeatureContext.window_runs := 0;
  FeatureContext.window_failures := 0; FeatureContext.window_flips := 0;
  FeatureContext.test_age_days := None; FeatureContext.group_size := 1;
  FeatureContext.launch_failures := 0; FeatureContext.launch_items := 0;
  FeatureContext.si_prior := f0; FeatureContext.item_log_count := 0;
  FeatureContext.has_stacktrace := false; FeatureContext.is_assertion := false;
  FeatureContext.is_merged_small_logs := false; FeatureContext.exception_count := 0;
  FeatureContext.llm_failing_layer := LLM_UNKNOWN;
  FeatureContext.llm_error_class := LLM_UNKNOWN;
  FeatureContext.query_status_codes := []; FeatureContext.query_msg_tokens := ∅;
  FeatureContext.top1_status_codes := []; FeatureContext.top1_msg_tokens := ∅;
  FeatureContext.has_hash_top1 := false; FeatureContext.hash_gate_blocked := false;
  FeatureContext.time_decay_per_day := TIME_DECAY_PER_DAY |}.

Definition hist_step (hist : list (string * Z)) (c : Candidate.t) : list (string * Z) :=
  match base_group (Candidate.issue_type c) with
  | Some b => dset b (dgetd b 0 hist + 1) hist
  | None => hist
  end.
Definition label_hist (cands : list Candidate.t) : list (string * Z) :=
  fold_left hist_step cands [].
Definition hist_total (hist : list (string * Z)) : Z := foldr Z.add 0 hist.*2.

(** [-sum(p * math.log(p) for p in probs if p > 0)]. *)
Definition entropy (hist : list (string * Z)) (labeled : Z) : pyfloat :=
  let probs := (fun n => int_quot n labeled) <$> hist.*2 in
  fopp (py_sum ((fun p => (p * math_log p)%F) <$> List.filter (fun p => f0 <? p)%F probs)).

(** One round of the weighted-history loop, over [enumerate(cands)]. *)
Definition mass_step (ctx : FeatureContext.t)
    (st : list (string * pyfloat) * pyfloat) (ic : nat * Candidate.t)
    : list (string * pyfloat) * pyfloat :=
  let '(mass, total_mass) := st in
  let '(i, c) := ic in
  let age := default f0 (FeatureContext.candidate_ages_days ctx !! i) in
  let w := (pymax2 f0 (_cos c) * decay age (FeatureContext.time_decay_per_day ctx)
            * src_weight (Candidate.label_source c))%F in
  let total_mass := (total_mass + w)%F in
  match base_group (Candidate.issue_type c) with
  | Some b => (dset b (dgetd b f0 mass + w)%F mass, total_mass)
  | None => (mass, total_mass)
  end.

Definition history_mass (ctx : FeatureContext.t) (cands : list Candidate.t)
    : list (string * pyfloat) * pyfloat :=
  fold_left (mass_step ctx) (imap pair cands) ((fun b => (b, f0)) <$> BASE_LABELS, f0).

Definition label_features (cands : list Candidate.t) (top1 : Candidate.t)
    (values : list (string * pyfloat)) : list (string * pyfloat) :=
  let hist := label_hist cands in
  let labeled := hist_total hist in
  let values := dset "label_hist_entropy"
    (if decide (labeled = 0) then f1
     else _clamp01 (fquot (entropy hist labeled) _LN4)) values in
  match base_group (Candidate.issue_type top1) with
  | Some b =>
      if decide (labeled = 0) then values
      else dset "top1_label_frac" (_clamp01 (int_quot (dgetd b 0 hist) labeled)) values
  | None => values
  end.

Definition mass_features (ctx : FeatureContext.t) (cands : list Candidate.t)
    (values : list (string * pyfloat)) : list (string * pyfloat) :=
  let '(mass, total_mass) := history_mass ctx cands in
  if (f0 <? total_mass)%F then
    fold_left (fun vs b =>
      dset ("hist_" +:+ b) (_clamp01 (fquot (dgetd b f0 mass) total_mass)) vs)
      BASE_LABELS values
  else values.

Definition candidate_features (ctx : FeatureContext.t)
    (values : list (string * pyfloat)) : list (string * pyfloat) :=
  match FeatureContext.candidates ctx with
  | [] => values
  | (top1 :: rest) as cands =>
      let top2_cos := match rest with c2 :: _ => _cos c2 | [] => f0 end in
      let top5 := take 5 cands in
      let top1_age := default f0 (head (FeatureContext.candidate_ages_days ctx)) in
      let values := dset "top1_cosine" (_clamp01 (_cos top1)) values in
      let values := dset "top1_rrf" (pymax2 f0 (Candidate.rrf_score top1)) values in
      let values := dset "top1_jaccard" (_clamp01 (Candidate.jaccard_templates top1)) values in
      let values := dset "margin_cos" (_clamp01 (_cos top1 - top2_cos)%F) values in
      let values := dset "mean_top5_cosine"
        (_clamp01 (fquot (py_sum (_cos <$> top5)) (of_Z (ilen top5)))) values in
      let values := dset "n_candidates" (_clamp01 (fquot (of_Z (ilen cands)) (of_Z 20))) values in
      let values := label_features cands top1 values in
      let values := dset "same_test_case_top1" (b2f (Candidate.same_test_case top1)) values in
      let values := dset "same_error_hash_top1" (b2f (Candidate.same_error_hash top1)) values in
      let values := dset "same_exception_fp_top1" (b2f (Candidate.same_exception_fp top1)) values in
      let values := dset "recency_top1"
        (_clamp01 (decay top1_age (FeatureContext.time_decay_per_day ctx))) values in
      let values := dset "src_weight_top1" (src_weight (Candidate.label_source top1)) values in
      mass_features ctx cands values
  end.

Definition kb_features (ctx : FeatureContext.t)
    (values : list (string * pyfloat)) : list (string * pyfloat) :=
  match FeatureContext.kb_best ctx with
  | None => values
  | Some kb =>
      let values := dset "kb_top1_score" (_clamp01 (KBMatch.score_mode kb)) values in
      let values := dset "kb_purity" (_clamp01 (KBMatch.purity kb)) values in
      let values := dset "kb_support"
        (_clamp01 (fquot (math_log1p (of_Z (Z.max 0 (KBMatch.support kb))))
                         (math_log1p (of_Z 1000)))) values in
      dset "kb_same_fp" (b2f (KBMatch.same_exception_fp kb)) values
  end.

Definition seed_features (ctx : FeatureContext.t)
    (values : list (string * pyfloat)) : list (string * pyfloat) :=
  match FeatureContext.seed ctx with
  | None => values
  | Some s =>
      let values := dset "kb_prior_conf" (_clamp01 (SeedSignal.confidence s)) values in
      match base_group (Some (SeedSignal.label s)) with
      | Some b => dset ("seed_" +:+ b) f1 values
      | None => values
      end
  end.

Definition context_features (ctx : FeatureContext.t)
    (values : list (string * pyfloat)) : list (string * pyfloat) :=
  let values := match FeatureContext.flakiness_score ctx with
    | Some s => dset "flakiness_score" (_clamp01 s) values | None => values end in
  let values := if decide (0 < FeatureContext.window_runs ctx) then
      dset "test_fail_rate_30d"
        (_clamp01 (int_quot (FeatureContext.window_failures ctx) (FeatureContext.window_runs ctx)))
        values
    else values in
  let values := dset "flips_30d"
    (_clamp01 (fquot (math_log1p (of_Z (Z.max 0 (FeatureContext.window_flips ctx))))
                     (math_log1p (of_Z 20)))) values in
  let values := dset "co_failure_group_size"
    (_clamp01 (fquot (math_log1p (of_Z (Z.max 0 (FeatureContext.group_size ctx))))
                     (math_log1p (of_Z 200)))) values in
  let values := if decide (0 < FeatureContext.launch_failures ctx) then
      dset "group_dominance"
        (_clamp01 (int_quot (FeatureContext.group_size ctx) (FeatureContext.launch_failures ctx)))
        values
    else values in
  let values := if decide (0 < FeatureContext.launch_items ctx) then
      dset "launch_fail_fraction"
        (_clamp01 (int_quot (FeatureContext.launch_failures ctx) (FeatureContext.launch_items ctx)))
        values
    else values in
  dset "si_prior" (pymax2 f0 (pymin2 SI_PRIOR_MAX (FeatureContext.si_prior ctx))) values.

Definition item_features (ctx : FeatureContext.t)
    (values : list (string * pyfloat)) : list (string * pyfloat) :=
  let values := match FeatureContext.test_age_days ctx with
    | Some d =>
        let capped := pymin2 (pymax2 f0 d) (of_Z 365) in
        dset "test_age_days"
          (_clamp01 (fquot (math_log1p capped) (math_log1p (of_Z 365)))) values
    | None => values
    end in
  let values := dset "item_log_count"
    (_clamp01 (fquot (of_Z (FeatureContext.item_log_count ctx)) (of_Z 20))) values in
  let values := dset "has_stacktrace" (b2f (FeatureContext.has_stacktrace ctx)) values in
  let values := dset "is_assertion" (b2f (FeatureContext.is_assertion ctx)) values in
  let values := dset "is_merged_small_logs" (b2f (FeatureContext.is_merged_small_logs ctx)) values in
  dset "exception_count"
    (_clamp01 (fquot (of_Z (Z.min (FeatureContext.exception_count ctx) 5)) (of_Z 5))) values.

(** The neighbour the identifier Jaccard is measured against, with its
  provenance value. *)
Definition best_neighbour (ctx : FeatureContext.t) : option (gset string * pyfloat) :=
  if FeatureContext.has_hash_top1 ctx then
    Some (FeatureContext.top1_msg_tokens ctx, f1)
  else match FeatureContext.candidates ctx with
       | c :: _ => Some (list_to_set (split_ws (Candidate.msg_text c)), half)
       | [] => None
       end.

Definition discriminant_features (ctx : FeatureContext.t)
    (values : list (string * pyfloat)) : list (string * pyfloat) :=
  let query_ids := identifier_tokens (FeatureContext.query_msg_tokens ctx) in
  let codes := FeatureContext.query_status_codes ctx in
  let values := dset "status_codes_present" (b2f (negb (bool_decide (codes = [])))) values in
  let values := dset "identifiers_present" (b2f (negb (bool_decide (query_ids = ∅)))) values in
  let values := if FeatureContext.has_hash_top1 ctx then
      dset "status_codes_match_top1"
        (b2f (negb (bool_decide (codes = []))
              && bool_decide ((list_to_set codes : gset string)
                              = list_to_set (FeatureContext.top1_status_codes ctx)))) values
    else values in
  let values := match best_neighbour ctx with
    | None => values
    | Some (neighbour_tokens, source) =>
        let values := dset "ident_jaccard_source" source values in
        let neighbour_ids := identifier_tokens neighbour_tokens in
        dset "identifier_jaccard_top1"
          (if negb (bool_decide (query_ids = ∅)) || negb (bool_decide (neighbour_ids = ∅))
           then _clamp01 (jaccard query_ids neighbour_ids) else f0) values
    end in
  dset "hash_gate_blocked" (b2f (FeatureContext.hash_gate_blocked ctx)) values.

Definition extract_features (ctx : FeatureContext.t) : list (string * pyfloat) :=
  let values := FEATURE_DEFAULTS in
  let values := candidate_features ctx values in
  let values := kb_features ctx values in
  let values := seed_features ctx values in
  let values := context_features ctx values in
  let values := item_features ctx values in
  let values := _set_onehot values "llm_failing_layer" FAILING_LAYER_LEVELS
                  (FeatureContext.llm_failing_layer ctx) in
  let values := _set_onehot values "llm_error_class" ERROR_CLASS_LEVELS
                  (FeatureContext.llm_error_class ctx) in
  discriminant_features ctx values.
End Extract.

(** ** Vector assembly *)

Definition to_vector (values : list (string * pyfloat)) : list pyfloat :=
  (fun f => dgetd (FeatureDef.name f) (FeatureDef.default f) values) <$> FEATURES.

Definition to_vector_for (values : list (string * pyfloat)) (names : list string) : list pyfloat :=
  (fun n => dgetd n (dgetd n f0 FEATURE_DEFAULTS) values) <$> names.

Definition feature_names : list string := FeatureDef.name <$> FEATURES.

(** ** Lemmas on the helpers *)

Lemma _clamp01_in01 x : in01 (_clamp01 x) = true.
Proof. destruct x; try done; apply (clamp01_in01 _). Qed.

Lemma b2f_in01 b : in01 (b2f b) = true.
Proof. by destruct b. Qed.

Lemma src_weight_in01 o : in01 (src_weight o) = true.
Proof.
  unfold src_weight, dgetd. destruct (dget _ _) as [w|] eqn:E; [|done].
  apply dget_elem in E. simpl.
  assert (Forall (fun kv : string * pyfloat => in01 kv.2 = true) _SRC_WEIGHT) as Hall
    by (repeat constructor).
  by apply (proj1 (Forall_forall _ _) Hall _ E).
Qed.

Lemma si_prior_clamp x : in01 (pymax2 f0 (pymin2 SI_PRIOR_MAX x)) = true.
Proof.
  destruct (clamp_between f0 SI_PRIOR_MAX x eq_refl) as [Hl Hh].
  unfold in01. rewrite Hl. simpl. by apply (fle_trans _ SI_PRIOR_MAX).
Qed.

Lemma in01_if (b : bool) x y : in01 x = true -> in01 y = true -> in01 (if b then x else y) = true.
Proof. by destruct b. Qed.

Lemma in01_dec {P : Prop} (d : Decision P) x y :
  in01 x = true -> in01 y = true -> in01 (if d then x else y) = true.
Proof. by destruct d. Qed.

#[export] Hint Resolve _clamp01_in01 b2f_in01 src_weight_in01 si_prior_clamp
  in01_if in01_dec : pyfloat.

(** A custom locator folds to one of the four base labels or to nothing. *)
Lemma base_group_label o b : base_group o = Some b -> b ∈ BASE_LABELS.
Proof. unfold base_group. intros H. simp. Qed.

Lemma base_group_idem b : b ∈ BASE_LABELS -> base_group (Some b) = Some b.
Proof. intros Hb. by elem_cases Hb. Qed.

(** ** The snapshot's invariant

    [feat_ok]: a value is a number of [0,1], except the unclamped fused rank
    score, which is only known to be a non-negative number. *)

Definition feat_ok (kv : string * pyfloat) : Prop :=
  if decide (kv.1 = "top1_rrf") then (f0 <=? kv.2)%F = true else in01 kv.2 = true.

Definition feat_inv (values : list (string * pyfloat)) : Prop :=
  values.*1 = feature_names /\ Forall feat_ok values.

Lemma feat_ok_in01 k v : in01 v = true -> feat_ok (k, v).
Proof. unfold feat_ok, in01. intros H. case_decide; [|done]. by apply andb_true_iff in H as []. Qed.

Lemma feat_inv_dset k v values :
  bool_decide (k ∈ feature_names) = true -> feat_ok (k, v) ->
  feat_inv values -> feat_inv (dset k v values).
Proof.
  intros Hk%bool_decide_eq_true_1 Hv [Hkeys Hall].
  split; [|by apply dset_Forall].
  rewrite <- Hkeys in Hk. by rewrite (dset_keys _ _ _ Hk).
Qed.

Lemma feat_inv_defaults : feat_inv FEATURE_DEFAULTS.
Proof. split; [by vm_compute|]. repeat constructor. Qed.

(** One step of the extractor: an update of a registered column by a value
    [0,1] is known to hold. *)
Ltac feat_step :=
  first [ assumption
        | apply feat_inv_dset; [by vm_compute|by apply feat_ok_in01; auto with pyfloat|]
        | progress cbv zeta
        | case_decide | case_match ].

Lemma onehot_inv values prefix levels value :
  (forall lvl, lvl ∈ levels -> onehot_name prefix lvl ∈ feature_names) ->
  feat_inv values -> feat_inv (_set_onehot values prefix levels value).
Proof.
  unfold _set_onehot. generalize (if decide (value ∈ levels) then value else LLM_UNKNOWN).
  intros active. revert values. induction levels as [|l levels IH]; intros values Hin Hinv; [done|].
  simpl. apply IH; [set_solver|]. apply feat_inv_dset; [|by apply feat_ok_in01; auto with pyfloat|done].
  apply bool_decide_eq_true_2, Hin. set_solver.
Qed.

Section ExtractInv.
Context `{!Libm}.

Lemma base_label_column prefix b :
  b ∈ BASE_LABELS -> prefix ∈ ["hist_"; "seed_"] ->
  bool_decide ((prefix +:+ b) ∈ feature_names) = true.
Proof.
  intros Hb Hp. by elem_cases Hp; elem_cases Hb; vm_compute.
Qed.

Lemma label_features_inv cands top1 values :
  feat_inv values -> feat_inv (label_features cands top1 values).
Proof. intros Hinv. unfold label_features. repeat feat_step. Qed.

Lemma mass_features_inv ctx cands values :
  feat_inv values -> feat_inv (mass_features ctx cands values).
Proof.
  intros Hinv. unfold mass_features. destruct (history_mass ctx cands) as [mass total].
  destruct (f0 <? total)%F; [|done].
  assert (forall l, (forall b, b ∈ l -> b ∈ BASE_LABELS) -> forall vs, feat_inv vs ->
    feat_inv (fold_left (fun vs b =>
      dset ("hist_" +:+ b) (_clamp01 (fquot (dgetd b f0 mass) total)) vs) l vs)) as Hl.
  { intros l. induction l as [|b l IH]; intros Hsub vs Hvs; [done|]. simpl.
    apply IH; [set_solver|]. apply feat_inv_dset; [|by apply feat_ok_in01; auto with pyfloat|done].
    apply base_label_column; [apply Hsub|]; set_solver. }
  by apply Hl.
Qed.

Lemma candidate_features_inv ctx values :
  feat_inv values -> feat_inv (candidate_features ctx values).
Proof.
  intros Hinv. unfold candidate_features.
  destruct (FeatureContext.candidates ctx) as [|top1 rest]; [done|]. cbv zeta.
  apply mass_features_inv. do 5 feat_step. apply label_features_inv. do 4 feat_step.
  apply feat_inv_dset; [by vm_compute| |repeat feat_step].
  unfold feat_ok. simpl. by apply pymax2_ge_l.
Qed.

Lemma kb_features_inv ctx values : feat_inv values -> feat_inv (kb_features ctx values).
Proof. intros Hinv. unfold kb_features. repeat feat_step. Qed.

Lemma seed_features_inv ctx values : feat_inv values -> feat_inv (seed_features ctx values).
Proof.
  intros Hinv. unfold seed_features. destruct (FeatureContext.seed ctx) as [s|]; [|done]. cbv zeta.
  destruct (base_group _) as [b|] eqn:E; [|by repeat feat_step].
  apply feat_inv_dset; [|by apply feat_ok_in01|by repeat feat_step].
  apply base_label_column; [by eapply base_group_label|set_solver].
Qed.

Lemma context_features_inv ctx values : feat_inv values -> feat_inv (context_features ctx values).
Proof. intros Hinv. unfold context_features. repeat feat_step. Qed.

Lemma item_features_inv ctx values : feat_inv values -> feat_inv (item_features ctx values).
Proof. intros Hinv. unfold item_features. repeat feat_step. Qed.

Lemma discriminant_features_inv ctx values :
  feat_inv values -> feat_inv (discriminant_features ctx values).
Proof.
  intros Hinv. unfold discriminant_features, best_neighbour. cbv zeta.
  destruct (FeatureContext.has_hash_top1 ctx), (FeatureContext.candidates ctx);
    repeat feat_step.
Qed.

Lemma extract_features_inv ctx : feat_inv (extract_features ctx).
Proof.
  unfold extract_features. cbv zeta. apply discriminant_features_inv.
  apply onehot_inv; [intros lvl Hl; by elem_cases Hl; apply (bool_decide_eq_true_1 (_ ∈ feature_names)); vm_compute|].
  apply onehot_inv; [intros lvl Hl; by elem_cases Hl; apply (bool_decide_eq_true_1 (_ ∈ feature_names)); vm_compute|].
  by apply item_features_inv, context_features_inv, seed_features_inv, kb_features_inv,
    candidate_features_inv, feat_inv_defaults.
Qed.
End ExtractInv.

(** ** Reading columns back *)

Lemma map_dgetd (d : list (string * pyfloat)) (dflt : string -> pyfloat) :
  NoDup d.*1 -> (fun n => dgetd n (dflt n) d) <$> d.*1 = d.*2.
Proof.
  induction d as [|[k v] d IH]; [done|]. cbn [fmap list_fmap fst snd].
  intros [Hk Hnd]%NoDup_cons. f_equal; [by unfold dgetd; simpl; rewrite decide_True|].
  rewrite <- IH by done. apply list_fmap_ext. intros i n Hn.
  unfold dgetd. simpl. rewrite decide_False; [done|].
  intros ->. by apply Hk, list_elem_of_lookup_2 with i.
Qed.

Lemma feature_names_NoDup : NoDup feature_names.
Proof. apply (bool_decide_eq_true_1 (NoDup feature_names)). by vm_compute. Qed.

Lemma set_onehot_frame values prefix levels value k :
  (forall lvl, lvl ∈ levels -> k <> onehot_name prefix lvl) ->
  dget k (_set_onehot values prefix levels value) = dget k values.
Proof.
  unfold _set_onehot. generalize (if decide (value ∈ levels) then value else LLM_UNKNOWN).
  intros active. revert values. induction levels as [|l levels IH]; intros values Hk; [done|].
  simpl. rewrite IH by set_solver. apply dget_dset_ne. intros <-. by apply (Hk l); [set_solver|].
Qed.

Lemma onehot_name_inj prefix l1 l2 : onehot_name prefix l1 = onehot_name prefix l2 -> l1 = l2.
Proof. unfold onehot_name. intros H%(inj _). by simplify_eq/=. Qed.

Lemma set_onehot_lookup values prefix levels value lvl :
  NoDup levels -> lvl ∈ levels ->
  dget (onehot_name prefix lvl) (_set_onehot values prefix levels value)
  = Some (if decide (lvl = if decide (value ∈ levels) then value else LLM_UNKNOWN) then f1 else f0).
Proof.
  unfold _set_onehot. generalize (if decide (value ∈ levels) then value else LLM_UNKNOWN).
  intros active. revert values. induction levels as [|l levels IH]; intros values Hnd Hl;
    [by apply elem_of_nil in Hl|]. apply NoDup_cons in Hnd as [Hni Hnd]. simpl.
  apply elem_of_cons in Hl as [->|Hl]; [|by apply IH].
  assert (forall ls vs, l ∉ ls -> dget (onehot_name prefix l)
    (fold_left (fun vs lvl => dset (onehot_name prefix lvl) (if decide (lvl = active) then f1 else f0) vs) ls vs)
    = dget (onehot_name prefix l) vs) as Hframe.
  { intros ls. induction ls as [|m ls IHl]; intros vs Hm; [done|]. simpl.
    rewrite IHl by set_solver. apply dget_dset_ne. intros ->%onehot_name_inj. set_solver. }
  rewrite Hframe by done. apply dget_dset_eq.
Qed.

Section ExtractProps.
Context `{!Libm}.

Lemma discriminant_features_frame ctx values k :
  k ∉ ["status_codes_present"; "identifiers_present"; "status_codes_match_top1";
       "ident_jaccard_source"; "identifier_jaccard_top1"; "hash_gate_blocked"] ->
  dget k (discriminant_features ctx values) = dget k values.
Proof.
  rewrite !not_elem_of_cons. intros (?&?&?&?&?&?&_). unfold discriminant_features.
  repeat (cbv zeta || (rewrite dget_dset_ne by congruence) || case_match); done.
Qed.

(** C4. Whatever the context holds, NaN and infinite inputs included, and
  whatever the C library's transcendental functions return, the extractor
  yields exactly the 64 registered columns in registry order, every one a
  finite number of [0,1] - except the fused rank score, which is only ever a
  non-negative number. *)
Theorem extract_features_safe (ctx : FeatureContext.t) :
  (extract_features ctx).*1 = feature_names
  /\ length (extract_features ctx) = 64%nat
  /\ forall k v, (k, v) ∈ extract_features ctx ->
       (k = "top1_rrf" /\ (f0 <=? v)%F = true)
       \/ (k <> "top1_rrf" /\ (f0 <=? v)%F = true /\ (v <=? f1)%F = true /\ is_finite v = true).
Proof.
  destruct (extract_features_inv ctx) as [Hk Hall]. split; [done|]. split.
  { rewrite <- (length_fmap fst), Hk. by vm_compute. }
  intros k v Hin. apply (proj1 (Forall_forall _ _) Hall) in Hin. unfold feat_ok in Hin.
  simpl in Hin. case_decide; [by left|]. right. split_and!; try done.
  - by apply andb_true_iff in Hin as [].
  - by apply andb_true_iff in Hin as [].
  - by apply in01_finite.
Qed.

(** The training vector of a fresh snapshot is the snapshot itself, column
  by column, and assembling it for the registry's own name list (what a
  model trained on this registry asks for) gives the same vector. *)
Theorem to_vector_snapshot (ctx : FeatureContext.t) :
  to_vector (extract_features ctx) = (extract_features ctx).*2
  /\ to_vector_for (extract_features ctx) feature_names = to_vector (extract_features ctx)
  /\ length (to_vector (extract_features ctx)) = 64%nat.
Proof.
  destruct (extract_features_inv ctx) as [Hk _].
  assert (forall dflt, (fun n => dgetd n (dflt n) (extract_features ctx)) <$> feature_names
          = (extract_features ctx).*2) as Hd.
  { intros dflt. rewrite <- Hk. apply map_dgetd. rewrite Hk. apply feature_names_NoDup. }
  assert (to_vector_for (extract_features ctx) feature_names = (extract_features ctx).*2) as Hf
    by apply (Hd (fun n => dgetd n f0 FEATURE_DEFAULTS)).
  assert (to_vector (extract_features ctx) = (extract_features ctx).*2) as Ht.
  { rewrite <- Hf. unfold to_vector, to_vector_for, feature_names.
    rewrite <- list_fmap_compose. apply Forall_fmap_ext_1.
    by repeat (constructor; [reflexivity|]). }
  split_and!; [done|congruence|]. unfold to_vector. by rewrite length_fmap.
Qed.
End ExtractProps.

Section OneHot.
Context `{!Libm}.

Definition active_level (levels : list string) (value : string) : string :=
  if decide (value ∈ levels) then value else LLM_UNKNOWN.

(** The two LLM categoricals are one-hot with an explicit unknown level: in
  every snapshot the column of the active level is 1.0 and every other
  column of its group 0.0, and a value outside the vocabulary (a cold cache,
  the sidecar off) lands on [unknown], never on a real class. *)
Theorem llm_onehot_exclusive (ctx : FeatureContext.t) :
  (forall lvl, lvl ∈ FAILING_LAYER_LEVELS ->
     dget (onehot_name "llm_failing_layer" lvl) (extract_features ctx)
     = Some (if decide (lvl = active_level FAILING_LAYER_LEVELS
                                (FeatureContext.llm_failing_layer ctx)) then f1 else f0))
  /\ (forall lvl, lvl ∈ ERROR_CLASS_LEVELS ->
     dget (onehot_name "llm_error_class" lvl) (extract_features ctx)
     = Some (if decide (lvl = active_level ERROR_CLASS_LEVELS
                                (FeatureContext.llm_error_class ctx)) then f1 else f0))
  /\ active_level FAILING_LAYER_LEVELS (FeatureContext.llm_failing_layer ctx) ∈ FAILING_LAYER_LEVELS
  /\ active_level ERROR_CLASS_LEVELS (FeatureContext.llm_error_class ctx) ∈ ERROR_CLASS_LEVELS.
Proof.
  unfold extract_features. cbv zeta. split_and!.
  - intros lvl Hl. rewrite discriminant_features_frame
      by (by elem_cases Hl; apply (bool_decide_eq_true_1 (_ ∉ _)); vm_compute).
    rewrite set_onehot_frame by (by intros l' Hl'; elem_cases Hl; elem_cases Hl'; discriminate).
    apply set_onehot_lookup; [|done].
    apply (bool_decide_eq_true_1 (NoDup FAILING_LAYER_LEVELS)). by vm_compute.
  - intros lvl Hl. rewrite discriminant_features_frame
      by (by elem_cases Hl; apply (bool_decide_eq_true_1 (_ ∉ _)); vm_compute).
    apply set_onehot_lookup; [|done].
    apply (bool_decide_eq_true_1 (NoDup ERROR_CLASS_LEVELS)). by vm_compute.
  - unfold active_level. case_decide; [done|]. set_solver.
  - unfold active_level. case_decide; [done|]. set_solver.
Qed.
End OneHot.

(** ** The Jaccard gate *)

Lemma jaccard_comm a b : jaccard a b = jaccard b a.
Proof.
  unfold jaccard. rewrite (andb_comm (bool_decide (a = ∅))).
  by rewrite (union_comm_L a b), (intersection_comm_L a b).
Qed.

Lemma zsize_le a b : a ⊆ b -> (zsize a <= zsize b)%Z.
Proof. intros. unfold zsize. by apply inj_le, subseteq_size. Qed.

Lemma zsize_pos a : a <> ∅ -> (0 < zsize a)%Z.
Proof.
  intros Hne. unfold zsize. destruct (size a) eqn:E; [|lia].
  apply size_empty_inv, leibniz_equiv in E. done.
Qed.

Lemma jaccard_in01 a b : in01 (jaccard a b) = true.
Proof.
  unfold jaccard. case_match; [done|]. case_match; [done|]. bprop.
  apply int_quot_in01; [|by apply zsize_pos].
  split; [unfold zsize; lia|]. apply zsize_le. set_solver.
Qed.

(** The Stage-A message similarity is a symmetric number of [0,1]; it is 1.0
    for two messages with the same tokens; and as soon as one side carries an
    identifier the shared boilerplate cannot contribute: the score is the
    Jaccard of the identifier tokens alone, so disjoint identifiers score 0.0
    however many other tokens the two messages share. *)
Theorem identifier_jaccard_laws (q m : gset string) :
  in01 (identifier_jaccard q m) = true
  /\ identifier_jaccard q m = identifier_jaccard m q
  /\ fkey (identifier_jaccard q q) = fkey f1
  /\ (identifier_tokens q ∪ identifier_tokens m <> ∅ ->
      identifier_tokens q ∩ identifier_tokens m = ∅ ->
      identifier_jaccard q m = f0).
Proof.
  assert (forall x y, in01 (identifier_jaccard x y) = true) as H01.
  { intros x y. unfold identifier_jaccard. case_match; apply jaccard_in01. }
  assert (forall s, fkey (jaccard s s) = fkey f1) as Hself.
  { intros s. unfold jaccard. rewrite union_idemp_L, intersection_idemp_L.
    destruct (bool_decide (s = ∅)) eqn:E; [done|]. simpl. bprop.
    pose proof (zsize_pos s E) as Hp. destruct (zsize s) as [|n|n] eqn:En; [lia| |lia].
    by rewrite int_quot_same. }
  split_and!; [done| | |].
  - unfold identifier_jaccard. rewrite orb_comm.
    case_match; apply jaccard_comm.
  - unfold identifier_jaccard. case_match; apply Hself.
  - intros Hne Hdisj. unfold identifier_jaccard.
    replace (negb (bool_decide (identifier_tokens q = ∅)) || negb (bool_decide (identifier_tokens m = ∅)))
      with true.
    + unfold jaccard. rewrite (bool_decide_eq_false_2 (_ ∪ _ = ∅)) by done.
      rewrite Hdisj.
      replace (bool_decide (identifier_tokens q = ∅) && bool_decide (identifier_tokens m = ∅)) with false.
      * pose proof (zsize_pos _ Hne). unfold zsize at 1. rewrite size_empty. simpl.
        by destruct (zsize (identifier_tokens q ∪ identifier_tokens m)) eqn:E; try lia.
      * symmetry. apply andb_false_iff. rewrite !bool_decide_eq_false.
        destruct (decide (identifier_tokens q = ∅)) as [Hq|]; [right|by left].
        intros Hm. apply Hne. by rewrite Hq, Hm, union_empty_l_L.
    + symmetry. apply orb_true_iff. rewrite !negb_true_iff, !bool_decide_eq_false.
      destruct (decide (identifier_tokens q = ∅)) as [Hq|]; [right|by left].
      intros Hm. apply Hne. by rewrite Hq, Hm, union_empty_l_L.
Qed.

Definition npe_session : gset string := {["cannot"; "invoke"; "because"; "null"; "Session.userId"]}.
Definition npe_region : gset string := {["cannot"; "invoke"; "because"; "null"; "Region.rate"]}.

Lemma identifier_jaccard_laws_witness :
  identifier_tokens npe_session ∪ identifier_tokens npe_region <> ∅
  /\ identifier_tokens npe_session ∩ identifier_tokens npe_region = ∅
  /\ identifier_jaccard npe_session npe_region = f0.
Proof.
  assert (identifier_tokens npe_session ∪ identifier_tokens npe_region <> ∅) as H1
    by (by apply (bool_decide_eq_true_1 (_ <> _)); vm_compute).
  assert (identifier_tokens npe_session ∩ identifier_tokens npe_region = ∅) as H2
    by (by apply (bool_decide_eq_true_1 (_ = _)); vm_compute).
  split; [exact H1|]. split; [exact H2|].
  apply (identifier_jaccard_laws npe_session npe_region); [exact H1|exact H2].
Defined.
