(* ===== verification/Decision.v ===== *)
(** * Matching stages, the decision and the policy bands

    [core/decision.py]: the Stage-A exact-hash inherit with its discriminant
    gate, the KB-mode score and short circuit, the turn of a calibrated GBM
    prediction into a banded decision, and [decide], which composes them. *)

From S2P Require Import Prelude PyFloat FloatQuot PyStr Models Features.
From Stdlib Require Import ZArith Lia.

#[local] Open Scope string_scope.
#[local] Open Scope list_scope.
#[local] Open Scope Z_scope.

(** ** Constants *)

Definition TAU_AUTO : pyfloat := Eval vm_compute in dec 75 100.
Definition TAU_SUGGEST : pyfloat := Eval vm_compute in dec 45 100.
Definition STAGE_A_CONFIDENCE : pyfloat := Eval vm_compute in dec 95 100.
Definition STAGE_A_MAX_AGE_DAYS : Z := 180.
Definition STAGE_A_MSG_JACCARD : pyfloat := Eval vm_compute in dec 5 10.
Definition KB_STRONG_PURITY : pyfloat := Eval vm_compute in dec 95 100.
Definition KB_STRONG_SUPPORT : Z := 10.
Definition KB_STRONG_SCORE : pyfloat := Eval vm_compute in dec 85 100.
Definition KB_CONFIDENCE_CAP : pyfloat := Eval vm_compute in dec 93 100.
Definition SEED_PRIOR_MIN_CONF : pyfloat := Eval vm_compute in dec 7 10.
Definition KB_W_COS : pyfloat := Eval vm_compute in dec 6 10.
Definition KB_W_JACCARD : pyfloat := Eval vm_compute in dec 25 100.
Definition KB_W_FP : pyfloat := Eval vm_compute in dec 15 100.
Definition STAGE_A_HUMAN_MIN_CONF : pyfloat := Eval vm_compute in dec 9 10.

Inductive method_t := METHOD_HASH | METHOD_KB | METHOD_GBM | METHOD_RULE_COLD.
Inductive action_t := ACTION_AUTO | ACTION_SUGGEST | ACTION_ABSTAIN.

#[export] Instance method_eq_dec : EqDecision method_t.
Proof. solve_decision. Defined.
#[export] Instance action_eq_dec : EqDecision action_t.
Proof. solve_decision. Defined.

Definition DEFAULT_LOCATOR : list (string * string) :=
  [("pb", "pb001"); ("ab", "ab001"); ("si", "si001"); ("nd", "nd001"); ("ti", "ti001")].
Definition default_locator (base : string) : string := dgetd base base DEFAULT_LOCATOR.

(** ** Data *)

Module HashMatch.
Record t := mk {
  item_id : Z;
  issue_type : string;
  issue_type_group : string;
  label_source : option string;
  label_ts : option Z;                 (* microseconds UTC *)
  confidence : pyfloat;
  is_auto_analyzed : bool;
  exception_fp : Z;
  status_codes : list string;
  msg_tokens : gset string
}.
End HashMatch.

Module DecisionResult.
Record t := mk {
  label : string;
  issue_type : string;
  confidence : pyfloat;
  method : method_t;
  action : action_t;
  abstain_reason : option string;
  relevant_item_id : option Z;
  matched_mode_id : option Z;
  features : list (string * pyfloat);
  probs : list (string * pyfloat);
  model_version : option string;
  stage_c : list Candidate.t;
  relevant_label_source : option string;
  relevant_is_auto_analyzed : bool;
  calibrated_max_prob : option pyfloat
}.
End DecisionResult.

Module GbmDecision.
Record t := mk {
  label : string; max_prob : pyfloat; probs : list (string * pyfloat); model_version : string
}.
End GbmDecision.

Module DecisionInputs.
Record t := mk {
  exception_fp : Z;
  hash_matches : list HashMatch.t;
  query_status_codes : list string;
  query_msg_tokens : gset string;
  kb_candidates : list Candidate.t;
  seed : option SeedSignal.t;
  stage_c : list Candidate.t;
  stage_c_ages_days : list pyfloat;
  feature_ctx : option FeatureContext.t;
  gbm_predict : option (list (string * pyfloat) -> option GbmDecision.t)
}.
End DecisionInputs.

(** ** The calibrated probability of one group *)

(** [max(probs.values())] and [max(probs, key=...)]: the first maximum in
    insertion order. *)
Definition float_gtb (x y : pyfloat) : bool := (y <? x)%F.
Definition max_value (probs : list (string * pyfloat)) : option pyfloat :=
  pymax_list float_gtb probs.*2.
Definition argmax_key (probs : list (string * pyfloat)) : option string :=
  fst <$> pymax_list (fun a b => float_gtb a.2 b.2) probs.

Definition calibrated_label_prob (decision : DecisionResult.t) (group : string) : option pyfloat :=
  match DecisionResult.calibrated_max_prob decision with
  | None => None
  | Some cal =>
      let probs := DecisionResult.probs decision in
      match dget group probs, max_value probs with
      | Some p, Some raw_max =>
          if (raw_max <=? f0)%F then None
          else
            let p_star := clamp01 cal in
            if decide (Some group = argmax_key probs) then Some p_star
            else
              let raw_rest := (f1 - raw_max)%F in
              if (raw_rest <=? f0)%F then Some f0
              else Some (clamp01 (fquot (p * (f1 - p_star))%F raw_rest))
      | _, _ => None
      end
  end.

(** ** Stage A *)

Definition _base (issue_type : option string) : string := default "" (base_group issue_type).

Definition _age_days (ts : option Z) (now : Z) : pyfloat :=
  match ts with
  | None => f0
  | Some t => pymax2 f0 (fquot (total_seconds (now - t)) (of_Z 86400))
  end.

Definition codes_set (codes : list string) : gset string := list_to_set codes.

Definition agrees (query_status_codes : list string) (query_msg_tokens : gset string)
    (m : HashMatch.t) : bool :=
  bool_decide (codes_set (HashMatch.status_codes m) = codes_set query_status_codes)
  && (STAGE_A_MSG_JACCARD <=? identifier_jaccard query_msg_tokens (HashMatch.msg_tokens m))%F.

Definition _discriminant_filter (matches : list HashMatch.t)
    (query_status_codes : list string) (query_msg_tokens : gset string) : list HashMatch.t :=
  List.filter (agrees query_status_codes query_msg_tokens) matches.

Definition discriminant_gate_blocked (exception_fp : Z) (matches : list HashMatch.t)
    (query_status_codes : list string) (query_msg_tokens : gset string) : bool :=
  if decide (exception_fp = 0 \/ matches = []) then false
  else bool_decide (_discriminant_filter matches query_status_codes query_msg_tokens = []).

(** [datetime.min] in UTC, the key of a match with no label timestamp. *)
Definition DATETIME_MIN : Z := -62135596800 * 1000000.
Definition label_key (m : HashMatch.t) : Z := default DATETIME_MIN (HashMatch.label_ts m).
Definition newer (m cur : HashMatch.t) : bool := bool_decide (label_key cur < label_key m).

Definition human_source (s : option string) : bool :=
  bool_decide (s = Some "rp" \/ s = Some "human").

Definition unanimous (matches : list HashMatch.t) : bool :=
  bool_decide (size (list_to_set (HashMatch.issue_type <$> matches) : gset string) = 1%nat).

Definition stage_a_inherit (exception_fp : Z) (matches : list HashMatch.t)
    (query_status_codes : list string) (query_msg_tokens : gset string) (now : Z)
    : option HashMatch.t :=
  if decide (exception_fp = 0 \/ matches = []) then None
  else
    let matches := _discriminant_filter matches query_status_codes query_msg_tokens in
    match pymax_list newer matches with
    | None => None
    | Some newest =>
        if (of_Z STAGE_A_MAX_AGE_DAYS <? _age_days (HashMatch.label_ts newest) now)%F then None
        else
          let single_human :=
            bool_decide (length matches = 1%nat)
            && human_source (HashMatch.label_source newest)
            && (STAGE_A_HUMAN_MIN_CONF <=? HashMatch.confidence newest)%F in
          if negb ((bool_decide (2 <= length matches)%nat && unanimous matches) || single_human)
          then None
          else
            let base := _base (Some (HashMatch.issue_type newest)) in
            if decide (base = "") then None
            else if decide (base = "nd" /\ HashMatch.label_source newest = Some "ai_suggested")
            then None
            else Some newest
    end.

(** ** Stage B *)

Definition score_kb_candidate (cand : Candidate.t) : KBMatch.t :=
  let cos := default f0 (Candidate.cosine cand) in
  let fp_overlap := if Candidate.same_exception_fp cand then f1 else f0 in
  let score := (KB_W_COS * cos + KB_W_JACCARD * Candidate.jaccard_templates cand
                + KB_W_FP * fp_overlap)%F in
  {| KBMatch.mode_id := default 0 (Candidate.mode_id cand);
     KBMatch.score_mode := score;
     KBMatch.purity := default f0 (Candidate.mode_purity cand);
     KBMatch.support := default 0 (Candidate.mode_support cand);
     KBMatch.same_exception_fp := Candidate.same_exception_fp cand;
     KBMatch.status := match Candidate.mode_status cand with
                       | Some s => if decide (s = "") then "candidate" else s
                       | None => "candidate"
                       end |}.

(** Tuples [(score_mode, -mode_id)] compare lexicographically. *)
Definition kb_gtb (a b : KBMatch.t * Candidate.t) : bool :=
  if (KBMatch.score_mode a.1 =? KBMatch.score_mode b.1)%F
  then bool_decide (KBMatch.mode_id a.1 < KBMatch.mode_id b.1)
  else (KBMatch.score_mode b.1 <? KBMatch.score_mode a.1)%F.

Definition best_kb_match (candidates : list Candidate.t) : option (KBMatch.t * Candidate.t) :=
  pymax_list kb_gtb
    ((fun c => (score_kb_candidate c, c))
       <$> List.filter (fun c => bool_decide (is_Some (Candidate.mode_id c))) candidates).

Definition kb_short_circuit (kb : KBMatch.t) : bool :=
  bool_decide (KBMatch.status kb = "confirmed")
  && (KB_STRONG_PURITY <=? KBMatch.purity kb)%F
  && bool_decide (KB_STRONG_SUPPORT <= KBMatch.support kb)
  && (KB_STRONG_SCORE <=? KBMatch.score_mode kb)%F.

(** ** The bands *)

Definition _band_action (confidence : pyfloat) (short_circuit : bool) (tau_auto : pyfloat) : action_t :=
  if short_circuit || (tau_auto <=? confidence)%F then ACTION_AUTO
  else if (TAU_SUGGEST <=? confidence)%F then ACTION_SUGGEST
  else ACTION_ABSTAIN.

(** What the [result] closure of [decide] captures. *)
Record result_env := {
  env_features : list (string * pyfloat);
  env_stage_c : list Candidate.t;
  env_tau_auto : pyfloat
}.

(** The keyword arguments of the closure, with their defaults. *)
Record result_kw := {
  kw_short_circuit : bool;
  kw_relevant_item_id : option Z;
  kw_matched_mode_id : option Z;
  kw_abstain_reason : option string;
  kw_probs : option (list (string * pyfloat));
  kw_model_version : option string;
  kw_relevant_label_source : option string;
  kw_relevant_is_auto_analyzed : bool;
  kw_calibrated_max_prob : option pyfloat
}.
Definition kw_default : result_kw := {|
  kw_short_circuit := false; kw_relevant_item_id := None; kw_matched_mode_id := None;
  kw_abstain_reason := None; kw_probs := None; kw_model_version := None;
  kw_relevant_label_source := None; kw_relevant_is_auto_analyzed := false;
  kw_calibrated_max_prob := None |}.

Definition mk_result (env : result_env) (label issue_type : string) (confidence : pyfloat)
    (meth : method_t) (kw : result_kw) : DecisionResult.t :=
  let act := if decide (label = "ti") then ACTION_ABSTAIN
             else _band_action confidence (kw_short_circuit kw) (env_tau_auto env) in
  let default_probs := if decide (label = "ti") then [] else [(label, confidence)] in
  {| DecisionResult.label := label;
     DecisionResult.issue_type := issue_type;
     DecisionResult.confidence := confidence;
     DecisionResult.method := meth;
     DecisionResult.action := act;
     DecisionResult.abstain_reason :=
       if decide (act = ACTION_ABSTAIN) then kw_abstain_reason kw else None;
     DecisionResult.relevant_item_id := kw_relevant_item_id kw;
     DecisionResult.matched_mode_id := kw_matched_mode_id kw;
     DecisionResult.features := env_features env;
     DecisionResult.probs := default default_probs (kw_probs kw);
     DecisionResult.model_version := kw_model_version kw;
     DecisionResult.stage_c := env_stage_c env;
     DecisionResult.relevant_label_source := kw_relevant_label_source kw;
     DecisionResult.relevant_is_auto_analyzed := kw_relevant_is_auto_analyzed kw;
     DecisionResult.calibrated_max_prob := kw_calibrated_max_prob kw |}.

(** ** The GBM path *)

Definition _pick_relevant (stage_c : list Candidate.t) (base : string) : option Candidate.t :=
  List.find (fun c => bool_decide (is_Some (Candidate.item_id c))
                      && bool_decide (_base (Candidate.issue_type c) = base)) stage_c.

Definition top1_tokens (top1 : Candidate.t) : gset string :=
  list_to_set (split_ws (Candidate.msg_text top1)).

Definition _human_confirmed_hash_floor (stage_c : list Candidate.t)
    (features : list (string * pyfloat)) (query_msg_tokens : gset string) : option Candidate.t :=
  match stage_c with
  | [] => None
  | top1 :: _ =>
      if negb (Candidate.same_error_hash top1) || negb (human_source (Candidate.label_source top1))
      then None
      else if negb (dgetd "hash_gate_blocked" f0 features =? f0)%F then None
      else if (dgetd "status_codes_present" f0 features =? f1)%F
              && negb (dgetd "status_codes_match_top1" f0 features =? f1)%F then None
      else if (identifier_jaccard query_msg_tokens (top1_tokens top1) <? STAGE_A_MSG_JACCARD)%F
      then None
      else if decide (_base (Candidate.issue_type top1) ∈ BASE_LABELS) then Some top1
      else None
  end.

Definition _boilerplate_only_top1 (top1 : Candidate.t) (query_msg_tokens : gset string) : bool :=
  if Candidate.same_exception_fp top1 || Candidate.same_error_hash top1
     || (f0 <? Candidate.jaccard_templates top1)%F then false
  else (identifier_jaccard query_msg_tokens (top1_tokens top1) <? STAGE_A_MSG_JACCARD)%F.

(** [x or y] on an optional string: the empty string counts as missing. *)
Definition str_or (x : option string) (y : string) : string :=
  match x with
  | Some s => if decide (s = "") then y else s
  | None => y
  end.

Definition gbm_kw (probs : list (string * pyfloat)) (version : option string) (p : pyfloat) : result_kw := {|
  kw_short_circuit := false; kw_relevant_item_id := None; kw_matched_mode_id := None;
  kw_abstain_reason := None; kw_probs := Some probs; kw_model_version := version;
  kw_relevant_label_source := None; kw_relevant_is_auto_analyzed := false;
  kw_calibrated_max_prob := Some p |}.
Definition with_reason (r : string) (kw : result_kw) : result_kw := {|
  kw_short_circuit := kw_short_circuit kw; kw_relevant_item_id := kw_relevant_item_id kw;
  kw_matched_mode_id := kw_matched_mode_id kw; kw_abstain_reason := Some r;
  kw_probs := kw_probs kw; kw_model_version := kw_model_version kw;
  kw_relevant_label_source := kw_relevant_label_source kw;
  kw_relevant_is_auto_analyzed := kw_relevant_is_auto_analyzed kw;
  kw_calibrated_max_prob := kw_calibrated_max_prob kw |}.
Definition with_relevant (item : option Z) (src : option string) (kw : result_kw) : result_kw := {|
  kw_short_circuit := kw_short_circuit kw; kw_relevant_item_id := item;
  kw_matched_mode_id := kw_matched_mode_id kw; kw_abstain_reason := kw_abstain_reason kw;
  kw_probs := kw_probs kw; kw_model_version := kw_model_version kw;
  kw_relevant_label_source := src;
  kw_relevant_is_auto_analyzed := kw_relevant_is_auto_analyzed kw;
  kw_calibrated_max_prob := kw_calibrated_max_prob kw |}.

Definition _gbm_result (gbm : GbmDecision.t) (env : result_env)
    (query_msg_tokens : gset string) : DecisionResult.t :=
  let stage_c := env_stage_c env in
  let p := clamp01 (GbmDecision.max_prob gbm) in
  let label := if decide (GbmDecision.label gbm ∈ BASE_LABELS) then GbmDecision.label gbm else "ti" in
  let probs := (fun b => (b, dgetd b f0 (GbmDecision.probs gbm))) <$> BASE_LABELS in
  let version := if decide (GbmDecision.model_version gbm = "") then None
                 else Some (GbmDecision.model_version gbm) in
  let kw := gbm_kw probs version p in
  if bool_decide (label = "ti") || (p <? TAU_SUGGEST)%F then
    match _human_confirmed_hash_floor stage_c (env_features env) query_msg_tokens with
    | Some floor =>
        let flabel := _base (Candidate.issue_type floor) in
        let locator := str_or (Candidate.issue_type floor) (default_locator flabel) in
        mk_result env flabel locator TAU_SUGGEST METHOD_GBM
          (with_relevant (Candidate.item_id floor) (Candidate.label_source floor) kw)
    | None => mk_result env "ti" "ti" p METHOD_GBM (with_reason "gbm_below_suggest" kw)
    end
  else if (p <? env_tau_auto env)%F
          && match stage_c with
             | top1 :: _ => _boilerplate_only_top1 top1 query_msg_tokens
             | [] => false
             end
  then mk_result env "ti" "ti" p METHOD_GBM (with_reason "gbm_boilerplate_only_neighbor" kw)
  else
    let cand := _pick_relevant stage_c label in
    let locator := str_or (cand ≫= Candidate.issue_type) (default_locator label) in
    mk_result env label locator p METHOD_GBM
      (with_relevant (cand ≫= Candidate.item_id) (cand ≫= Candidate.label_source) kw).

(** ** The decision *)

Definition _with_candidates (ctx : FeatureContext.t) (inputs : DecisionInputs.t)
    (kb_best : option KBMatch.t) : FeatureContext.t :=
  let hm := DecisionInputs.hash_matches inputs in
  let top1 := head hm in
  {| FeatureContext.candidates := DecisionInputs.stage_c inputs;
     FeatureContext.candidate_ages_days := DecisionInputs.stage_c_ages_days inputs;
     FeatureContext.kb_best := kb_best;
     FeatureContext.seed := DecisionInputs.seed inputs;
     FeatureContext.flakiness_score := FeatureContext.flakiness_score ctx;
     FeatureContext.window_runs := FeatureContext.window_runs ctx;
     FeatureContext.window_failures := FeatureContext.window_failures ctx;
     FeatureContext.window_flips := FeatureContext.window_flips ctx;
     FeatureContext.test_age_days := FeatureContext.test_age_days ctx;
     FeatureContext.group_size := FeatureContext.group_size ctx;
     FeatureContext.launch_failures := FeatureContext.launch_failures ctx;
     FeatureContext.launch_items := FeatureContext.launch_items ctx;
     FeatureContext.si_prior := FeatureContext.si_prior ctx;
     FeatureContext.item_log_count := FeatureContext.item_log_count ctx;
     FeatureContext.has_stacktrace := FeatureContext.has_stacktrace ctx;
     FeatureContext.is_assertion := FeatureContext.is_assertion ctx;
     FeatureContext.is_merged_small_logs := FeatureContext.is_merged_small_logs ctx;
     FeatureContext.exception_count := FeatureContext.exception_count ctx;
     FeatureContext.llm_failing_layer := FeatureContext.llm_failing_layer ctx;
     FeatureContext.llm_error_class := FeatureContext.llm_error_class ctx;
     FeatureContext.query_status_codes := DecisionInputs.query_status_codes inputs;
     FeatureContext.query_msg_tokens := DecisionInputs.query_msg_tokens inputs;
     FeatureContext.top1_status_codes := default [] (HashMatch.status_codes <$> top1);
     FeatureContext.top1_msg_tokens := default ∅ (HashMatch.msg_tokens <$> top1);
     FeatureContext.has_hash_top1 := bool_decide (is_Some top1);
     FeatureContext.hash_gate_blocked :=
       discriminant_gate_blocked (DecisionInputs.exception_fp inputs) hm
         (DecisionInputs.query_status_codes inputs) (DecisionInputs.query_msg_tokens inputs);
     FeatureContext.time_decay_per_day := FeatureContext.time_decay_per_day ctx |}.

Section Decide.
Context `{!Libm}.

Definition decide_env (inputs : DecisionInputs.t) (tau_auto : pyfloat) : result_env :=
  let kb_best := fst <$> best_kb_match (DecisionInputs.kb_candidates inputs) in
  let ctx := default empty_context (DecisionInputs.feature_ctx inputs) in
  {| env_features := extract_features (_with_candidates ctx inputs kb_best);
     env_stage_c := DecisionInputs.stage_c inputs;
     env_tau_auto := tau_auto |}.

Definition hash_result (env : result_env) (inherit : HashMatch.t) : DecisionResult.t :=
  mk_result env (_base (Some (HashMatch.issue_type inherit))) (HashMatch.issue_type inherit)
    STAGE_A_CONFIDENCE METHOD_HASH
    {| kw_short_circuit := true; kw_relevant_item_id := Some (HashMatch.item_id inherit);
       kw_matched_mode_id := None; kw_abstain_reason := None; kw_probs := None;
       kw_model_version := None; kw_relevant_label_source := HashMatch.label_source inherit;
       kw_relevant_is_auto_analyzed := HashMatch.is_auto_analyzed inherit;
       kw_calibrated_max_prob := None |}.

Definition kb_result (env : result_env) (kb : KBMatch.t) (cand : Candidate.t) : DecisionResult.t :=
  let base := _base (Candidate.issue_type cand) in
  mk_result env base (str_or (Candidate.issue_type cand) base)
    (pymin2 KB_CONFIDENCE_CAP (KBMatch.purity kb * KBMatch.score_mode kb)%F) METHOD_KB
    {| kw_short_circuit := true; kw_relevant_item_id := None;
       kw_matched_mode_id := Some (KBMatch.mode_id kb); kw_abstain_reason := None;
       kw_probs := None; kw_model_version := None; kw_relevant_label_source := None;
       kw_relevant_is_auto_analyzed := false; kw_calibrated_max_prob := None |}.

Definition cold_result (env : result_env) (seed : option SeedSignal.t) : DecisionResult.t :=
  match seed with
  | Some s =>
      if (SEED_PRIOR_MIN_CONF <=? SeedSignal.confidence s)%F then
        let base := _base (Some (SeedSignal.label s)) in
        mk_result env base (default_locator base) (SeedSignal.confidence s) METHOD_RULE_COLD kw_default
      else mk_result env "ti" "ti" f0 METHOD_RULE_COLD (with_reason "no_confident_rule" kw_default)
  | None => mk_result env "ti" "ti" f0 METHOD_RULE_COLD (with_reason "no_confident_rule" kw_default)
  end.

Definition decide_inputs (inputs : DecisionInputs.t) (now : Z) (tau_auto : pyfloat)
    : DecisionResult.t :=
  let kb_pair := best_kb_match (DecisionInputs.kb_candidates inputs) in
  let env := decide_env inputs tau_auto in
  let model_or_cold :=
    match DecisionInputs.gbm_predict inputs ≫= (fun predict => predict (env_features env)) with
    | Some gbm => _gbm_result gbm env (DecisionInputs.query_msg_tokens inputs)
    | None => cold_result env (DecisionInputs.seed inputs)
    end in
  match stage_a_inherit (DecisionInputs.exception_fp inputs) (DecisionInputs.hash_matches inputs)
          (DecisionInputs.query_status_codes inputs) (DecisionInputs.query_msg_tokens inputs) now with
  | Some inherit => hash_result env inherit
  | None =>
      match kb_pair with
      | Some (kb, cand) => if kb_short_circuit kb then kb_result env kb cand else model_or_cold
      | None => model_or_cold
      end
  end.
End Decide.

(** ** Lemmas on the stages *)

Lemma _base_Some o : _base o <> "" <-> is_Some (base_group o).
Proof.
  unfold _base. destruct (base_group o) as [b|] eqn:E; simpl; [|by split; [|intros []]].
  split; [by eauto|]. intros _. apply base_group_label in E. by elem_cases E.
Qed.

Lemma _base_label o : _base o <> "" -> _base o ∈ BASE_LABELS.
Proof.
  rewrite _base_Some. intros [b Hb]. unfold _base. rewrite Hb. by eapply base_group_label.
Qed.

Lemma label_not_ti l : l ∈ BASE_LABELS -> l <> "ti".
Proof. intros Hl. by elem_cases Hl. Qed.

Lemma newest_max matches newest m :
  pymax_list newer matches = Some newest -> m ∈ matches -> label_key m <= label_key newest.
Proof.
  destruct matches as [|x l]; [done|]. intros [= <-] Hm.
  assert (newer m (pymax newer x l) = false) as Hn.
  { apply pymax_ge; [..|done]; unfold newer; intros.
    - apply bool_decide_eq_false. lia.
    - bprop. apply bool_decide_eq_false. lia.
    - bprop. apply bool_decide_eq_false. lia. }
  unfold newer at 1 in Hn. bprop. lia.
Qed.

Lemma unanimous_spec matches m m' :
  unanimous matches = true -> m ∈ matches -> m' ∈ matches ->
  HashMatch.issue_type m = HashMatch.issue_type m'.
Proof.
  unfold unanimous. intros H Hm Hm'. bprop.
  apply size_1_elem_of in H as [x Hx].
  assert (forall y, y ∈ matches -> HashMatch.issue_type y = x) as Hall.
  { intros y Hy. assert (HashMatch.issue_type y ∈ ({[x]} : gset string)) as Hin.
    { rewrite <- Hx. apply elem_of_list_to_set, list_elem_of_fmap. eauto. }
    by apply elem_of_singleton in Hin. }
  by rewrite (Hall m), (Hall m').
Qed.

Lemma mk_result_action env l it c me kw :
  DecisionResult.action (mk_result env l it c me kw)
  = if stdpp.base.decide (l = "ti") then ACTION_ABSTAIN
    else _band_action c (kw_short_circuit kw) (env_tau_auto env).
Proof. done. Qed.

Lemma band_auto c sc tau : _band_action c sc tau = ACTION_AUTO <-> sc = true \/ (tau <=? c)%F = true.
Proof.
  unfold _band_action. destruct sc; simpl; [tauto|].
  destruct (tau <=? c)%F; [tauto|]. destruct (TAU_SUGGEST <=? c)%F; intuition congruence.
Qed.

(** ** Stage A: what an inherit guarantees *)

(** The evidence the spec asks of an inherit, for the matches that agree with the
    query on the un-masked discriminants. *)
Record inheritable (exception_fp : Z) (matches : list HashMatch.t)
    (codes : list string) (tokens : gset string) (now : Z) (m : HashMatch.t) : Prop := {
  inh_fp : exception_fp <> 0;
  inh_in : m ∈ matches;
  inh_agrees : agrees codes tokens m = true;
  inh_newest : forall m', m' ∈ matches -> agrees codes tokens m' = true ->
    label_key m' <= label_key m;
  inh_age : (of_Z STAGE_A_MAX_AGE_DAYS <? _age_days (HashMatch.label_ts m) now)%F = false;
  inh_label : exists b, base_group (Some (HashMatch.issue_type m)) = Some b /\ b ∈ BASE_LABELS;
  inh_not_ai_nd : ~ (base_group (Some (HashMatch.issue_type m)) = Some "nd"
                     /\ HashMatch.label_source m = Some "ai_suggested");
  inh_evidence :
    let agreeing := List.filter (agrees codes tokens) matches in
    (2 <= length agreeing)%nat
      /\ (forall m', m' ∈ agreeing -> HashMatch.issue_type m' = HashMatch.issue_type m)
    \/ agreeing = [m] /\ human_source (HashMatch.label_source m) = true
         /\ (STAGE_A_HUMAN_MIN_CONF <=? HashMatch.confidence m)%F = true
}.

(** C1. Stage A inherits a label only on evidence: the chosen match is one of the
    exact-hash matches, agrees with the query on the un-masked status codes and
    message identifiers, is the newest of those that agree and not older than
    180 days, carries one of the four base groups (never [ti], never an
    auto-suggested [nd]), and is backed either by at least two agreeing matches
    that all carry its label or by being the single agreeing match, labelled by
    a human with confidence at least 0.9. *)
Theorem stage_a_inherit_sound fp matches codes tokens now m
    (H : stage_a_inherit fp matches codes tokens now = Some m) :
  inheritable fp matches codes tokens now m.
Proof.
  unfold stage_a_inherit in H. case_decide as Hguard; [done|].
  destruct (pymax_list newer _) as [newest|] eqn:Hmax; [|done].
  destruct (_ <? _)%F eqn:Hage; [done|].
  destruct (negb _) eqn:Hev; [done|]. case_decide as Hb; [done|].
  case_decide as Hnd; [done|]. simplify_eq.
  pose proof (pymax_list_in _ _ _ Hmax) as Hin. unfold _discriminant_filter in *.
  pose proof Hin as [Hin1 Hin2]%filterb_elem.
  destruct (proj1 (_base_Some _) Hb) as [b Hgb]. bprop.
  split; try done.
  - tauto.
  - intros m' Hm' Hag. eapply newest_max; [exact Hmax|]. by apply filterb_elem.
  - exists b. split; [done|]. by eapply base_group_label.
  - intros [Hn Hs]. apply Hnd. split; [|done]. unfold _base. by rewrite Hn.
  - apply orb_true_iff in Hev as [Hc|Hs]; bprop.
    + left. split; [done|]. intros m' Hm'. by eapply unanimous_spec.
    + right. destruct (List.filter _ matches) as [|x [|y l]]; try done.
      by apply list_elem_of_singleton in Hin as ->.
Qed.

(** Only agreeing evidence counts: exact-hash matches that the discriminant
    gate rejects (another HTTP status, another application area), however many
    there are and wherever they stand in the list, neither create, change nor
    veto a Stage-A inherit. *)
Theorem stage_a_ignores_disagreeing fp ms1 bad ms2 codes tokens now
    (Hbad : Forall (fun m => agrees codes tokens m = false) bad) :
  stage_a_inherit fp (ms1 ++ bad ++ ms2) codes tokens now
  = stage_a_inherit fp (ms1 ++ ms2) codes tokens now.
Proof.
  assert (List.filter (agrees codes tokens) bad = []) as Hnil.
  { induction Hbad as [|m l Hm Hl IH]; simpl; [done|]. by rewrite Hm. }
  assert (_discriminant_filter (ms1 ++ bad ++ ms2) codes tokens
          = _discriminant_filter (ms1 ++ ms2) codes tokens) as Hf.
  { unfold _discriminant_filter. by rewrite !List.filter_app, Hnil. }
  unfold stage_a_inherit. rewrite Hf. case_decide as H1; case_decide as H2; try done.
  - destruct H1 as [->|H1]; [tauto|].
    apply app_eq_nil in H1 as [-> [-> ->]%app_eq_nil]. tauto.
  - destruct H2 as [->|H2]; [tauto|]. by rewrite H2.
Qed.

Lemma gate_blocked_filter fp ms codes tokens :
  discriminant_gate_blocked fp ms codes tokens = true ->
  _discriminant_filter ms codes tokens = [].
Proof. unfold discriminant_gate_blocked. intros H. case_decide; [done|]. by bprop. Qed.

Lemma gate_blocked_no_inherit fp ms codes tokens now :
  discriminant_gate_blocked fp ms codes tokens = true ->
  stage_a_inherit fp ms codes tokens now = None.
Proof.
  intros H%gate_blocked_filter. unfold stage_a_inherit. rewrite H. by case_decide.
Qed.

(** ** Concrete inputs *)

Definition demo_match : HashMatch.t := {|
  HashMatch.item_id := 7; HashMatch.issue_type := "pb001"; HashMatch.issue_type_group := "pb";
  HashMatch.label_source := Some "rp"; HashMatch.label_ts := Some 1000000;
  HashMatch.confidence := f1; HashMatch.is_auto_analyzed := false;
  HashMatch.exception_fp := 42; HashMatch.status_codes := ["500"];
  HashMatch.msg_tokens := {["Session.userId"; "null"]} |}.

(** The same hash reached through another status code. *)
Definition demo_503 : HashMatch.t := {|
  HashMatch.item_id := 8; HashMatch.issue_type := "si001"; HashMatch.issue_type_group := "si";
  HashMatch.label_source := Some "rp"; HashMatch.label_ts := Some 2000000;
  HashMatch.confidence := f1; HashMatch.is_auto_analyzed := false;
  HashMatch.exception_fp := 42; HashMatch.status_codes := ["503"];
  HashMatch.msg_tokens := {["Session.userId"; "null"]} |}.

Lemma stage_a_inherit_sound_witness :
  stage_a_inherit 42 [demo_503; demo_match] ["500"] {["Session.userId"; "null"]} 86400000000
    = Some demo_match
  /\ inheritable 42 [demo_503; demo_match] ["500"] {["Session.userId"; "null"]} 86400000000 demo_match.
Proof.
  assert (stage_a_inherit 42 [demo_503; demo_match] ["500"] {["Session.userId"; "null"]} 86400000000
          = Some demo_match) as H by (vm_compute; reflexivity).
  split; [exact H|]. exact (stage_a_inherit_sound _ _ _ _ _ _ H).
Defined.

Lemma stage_a_ignores_disagreeing_witness :
  stage_a_inherit 42 ([demo_match] ++ [demo_503; demo_503] ++ []) ["500"]
    {["Session.userId"; "null"]} 86400000000
  = stage_a_inherit 42 ([demo_match] ++ []) ["500"] {["Session.userId"; "null"]} 86400000000.
Proof.
  apply (stage_a_ignores_disagreeing 42 [demo_match] [demo_503; demo_503] [] ["500"]).
  repeat constructor; vm_compute; reflexivity.
Defined.

(** ** What each path of the decision builds *)

Lemma floor_label stage_c feats tokens c :
  _human_confirmed_hash_floor stage_c feats tokens = Some c ->
  _base (Candidate.issue_type c) ∈ BASE_LABELS.
Proof. unfold _human_confirmed_hash_floor. destruct stage_c as [|top1 l]; [done|]. intros H. simp. Qed.

Lemma gbm_result_shape gbm env tokens :
  exists l it c kw,
    _gbm_result gbm env tokens = mk_result env l it c METHOD_GBM kw
    /\ kw_short_circuit kw = false
    /\ (l = "ti" \/ l ∈ BASE_LABELS)
    /\ in01 c = true
    /\ kw_calibrated_max_prob kw = Some (clamp01 (GbmDecision.max_prob gbm)).
Proof.
  unfold _gbm_result. cbv zeta. set (p := clamp01 _).
  assert (in01 p = true) as Hp by apply clamp01_in01.
  set (label := if stdpp.base.decide (GbmDecision.label gbm ∈ BASE_LABELS) then _ else _).
  assert (label = "ti" \/ label ∈ BASE_LABELS) as Hl by (subst label; case_decide; auto).
  destruct (bool_decide (label = "ti") || _).
  - destruct (_human_confirmed_hash_floor _ _ _) as [c|] eqn:E; do 4 eexists;
      split_and!; try reflexivity; auto. right. by eapply floor_label.
  - destruct (_ && _); do 4 eexists; split_and!; try reflexivity; auto.
Qed.

Lemma cold_result_shape env seed :
  exists l it c kw,
    cold_result env seed = mk_result env l it c METHOD_RULE_COLD kw
    /\ kw_short_circuit kw = false
    /\ (l = "ti" \/ exists s, seed = Some s /\ l = _base (Some (SeedSignal.label s)))
    /\ kw_calibrated_max_prob kw = None.
Proof.
  unfold cold_result. destruct seed as [s|]; [destruct (_ <=? _)%F|];
    do 4 eexists; split_and!; try reflexivity; eauto.
Qed.

Section DecideProps.
Context `{!Libm}.

Lemma decide_shape inputs now tau :
  let env := decide_env inputs tau in
  exists l it c me kw,
    decide_inputs inputs now tau = mk_result env l it c me kw
    /\ (kw_short_circuit kw = true -> me = METHOD_HASH \/ me = METHOD_KB)
    /\ (kw_calibrated_max_prob kw <> None <-> me = METHOD_GBM)
    /\ (l = "ti" \/ l ∈ BASE_LABELS
        \/ (exists c, c ∈ DecisionInputs.kb_candidates inputs /\ l = _base (Candidate.issue_type c))
        \/ (exists s, DecisionInputs.seed inputs = Some s /\ l = _base (Some (SeedSignal.label s)))).
Proof.
  cbv zeta. unfold decide_inputs.
  destruct (stage_a_inherit _ _ _ _ _) as [m|] eqn:EA.
  { apply stage_a_inherit_sound in EA as []. dex.
    do 5 eexists. split_and!; [reflexivity|tauto|done|].
    right; left. apply _base_label, _base_Some. eauto. }
  assert (forall P : DecisionResult.t -> Prop,
    (forall gbm, P (_gbm_result gbm (decide_env inputs tau) (DecisionInputs.query_msg_tokens inputs))) ->
    P (cold_result (decide_env inputs tau) (DecisionInputs.seed inputs)) ->
    P (match DecisionInputs.gbm_predict inputs ≫=
             (fun predict => predict (env_features (decide_env inputs tau))) with
       | Some gbm => _gbm_result gbm (decide_env inputs tau) (DecisionInputs.query_msg_tokens inputs)
       | None => cold_result (decide_env inputs tau) (DecisionInputs.seed inputs) end)) as Hmc
    by (intros P Hg Hc; destruct (_ ≫= _); auto).
  destruct (best_kb_match _) as [[kb cand]|] eqn:EK; [destruct (kb_short_circuit kb)|].
  { unfold best_kb_match in EK. apply pymax_list_in, list_elem_of_fmap in EK as (c & Heq & Hin).
    simplify_eq. apply filterb_elem in Hin as [Hin _].
    do 5 eexists. split_and!; [reflexivity|tauto|done|]. right; right; left. eauto. }
  all: apply Hmc.
  1,3: intros gbm; destruct (gbm_result_shape gbm (decide_env inputs tau)
         (DecisionInputs.query_msg_tokens inputs)) as (l & it & c & kw & -> & Hs & Hl & _ & Hc).
  3,4: destruct (cold_result_shape (decide_env inputs tau) (DecisionInputs.seed inputs))
         as (l & it & c & kw & -> & Hs & Hl & Hc).
  all: do 5 eexists; split_and!; [reflexivity|congruence|by rewrite Hc|tauto].
Qed.

(** C2. Every decision is well formed: it carries the feature snapshot of its
  own inputs and the Stage-C list; [ti] is only ever an abstention and an
  abstain reason only ever accompanies one; outside the two short circuits
  an automatic label needs confidence at least tau_auto and a suggestion
  confidence in [0.45, tau_auto); and a calibrated probability is reported
  exactly by the GBM path. *)
Theorem decide_wellformed (inputs : DecisionInputs.t) (now : Z) (tau : pyfloat) :
  let r := decide_inputs inputs now tau in
  DecisionResult.features r = env_features (decide_env inputs tau)
  /\ DecisionResult.stage_c r = DecisionInputs.stage_c inputs
  /\ (DecisionResult.label r = "ti" -> DecisionResult.action r = ACTION_ABSTAIN)
  /\ (DecisionResult.abstain_reason r <> None -> DecisionResult.action r = ACTION_ABSTAIN)
  /\ (DecisionResult.action r = ACTION_AUTO ->
      DecisionResult.method r = METHOD_HASH \/ DecisionResult.method r = METHOD_KB
      \/ (tau <=? DecisionResult.confidence r)%F = true)
  /\ (DecisionResult.action r = ACTION_SUGGEST ->
      (TAU_SUGGEST <=? DecisionResult.confidence r)%F = true
      /\ (tau <=? DecisionResult.confidence r)%F = false)
  /\ (DecisionResult.calibrated_max_prob r <> None <-> DecisionResult.method r = METHOD_GBM).
Proof.
  cbv zeta. destruct (decide_shape inputs now tau) as (l & it & c & me & kw & -> & Hs & Hc & _).
  assert (forall P : Prop, (DecisionResult.action (mk_result (decide_env inputs tau) l it c me kw) = ACTION_AUTO -> P) <->
    (l <> "ti" -> kw_short_circuit kw = true \/ (tau <=? c)%F = true -> P)) as Hauto.
  { intros P. rewrite mk_result_action. case_decide; [intuition congruence|].
    rewrite band_auto. tauto. }
  split_and!; try done.
  - intros Hl. rewrite mk_result_action. by rewrite decide_True.
  - simpl. by case_decide.
  - apply Hauto. simpl. intros _ [H1|H1]; [|auto]. destruct (Hs H1); auto.
  - rewrite mk_result_action. case_decide; [done|]. unfold _band_action. simpl.
    destruct (kw_short_circuit kw), (tau <=? c)%F, (TAU_SUGGEST <=? c)%F; done.
Qed.

(** C3. An automatic label is one of the four base groups, for a knowledge base
  and a seed catalogue whose labels are (the locators of) base groups. *)
Theorem decide_auto_label (inputs : DecisionInputs.t) (now : Z) (tau : pyfloat)
    (Hkb : forall c, c ∈ DecisionInputs.kb_candidates inputs ->
           is_Some (base_group (Candidate.issue_type c)))
    (Hseed : forall s, DecisionInputs.seed inputs = Some s ->
           is_Some (base_group (Some (SeedSignal.label s))))
    (Hauto : DecisionResult.action (decide_inputs inputs now tau) = ACTION_AUTO) :
  DecisionResult.label (decide_inputs inputs now tau) ∈ BASE_LABELS.
Proof.
  destruct (decide_shape inputs now tau) as (l & it & c & me & kw & Heq & _ & _ & Hl).
  rewrite Heq in *. rewrite mk_result_action in Hauto. case_decide; [done|]. simpl.
  destruct Hl as [?|[?|[(c' & Hc & ->)|(s & Hs & ->)]]]; [done|done|..];
    apply _base_label, _base_Some; eauto.
Qed.

(** A hash the discriminant gate distrusted is never resurrected: when exact
  matches existed and the gate rejected every one of them, Stage A inherits
  nothing, and the human-confirmed floor cannot promote the decision either,
  because the snapshot's [hash_gate_blocked] column tells it so. *)
Theorem blocked_hash_never_promoted (inputs : DecisionInputs.t) (now : Z) (tau : pyfloat)
    (Hblocked : discriminant_gate_blocked (DecisionInputs.exception_fp inputs)
       (DecisionInputs.hash_matches inputs) (DecisionInputs.query_status_codes inputs)
       (DecisionInputs.query_msg_tokens inputs) = true) :
  stage_a_inherit (DecisionInputs.exception_fp inputs) (DecisionInputs.hash_matches inputs)
    (DecisionInputs.query_status_codes inputs) (DecisionInputs.query_msg_tokens inputs) now = None
  /\ _human_confirmed_hash_floor (DecisionInputs.stage_c inputs)
       (env_features (decide_env inputs tau)) (DecisionInputs.query_msg_tokens inputs) = None
  /\ DecisionResult.method (decide_inputs inputs now tau) <> METHOD_HASH.
Proof.
  pose proof (gate_blocked_no_inherit _ _ _ _ now Hblocked) as HA.
  assert (dgetd "hash_gate_blocked" f0 (env_features (decide_env inputs tau)) = f1) as Hf.
  { unfold decide_env, extract_features. cbn [env_features]. cbv zeta.
    unfold discriminant_features, dgetd. cbv zeta. rewrite dget_dset_eq. simpl.
    by rewrite Hblocked. }
  split_and!; [done| |].
  - unfold _human_confirmed_hash_floor. rewrite Hf.
    destruct (DecisionInputs.stage_c inputs); [done|]. by destruct (_ || _).
  - unfold decide_inputs. rewrite HA.
    destruct (best_kb_match _) as [[kb cand]|]; [destruct (kb_short_circuit kb); [done|]|];
      destruct (_ ≫= _) as [gbm|].
    1,3: destruct (gbm_result_shape gbm (decide_env inputs tau) (DecisionInputs.query_msg_tokens inputs))
           as (?&?&?&?& -> &_); done.
    all: destruct (cold_result_shape (decide_env inputs tau) (DecisionInputs.seed inputs))
           as (?&?&?&?& -> &_); done.
Qed.
End DecideProps.

(** ** The GBM bands *)

(** With tau_auto above the suggest floor, the GBM path auto-labels only on
    the model's own calibrated confidence: an automatic label is the predicted
    base group, its confidence is the clamped calibrated probability and that is
    at least tau_auto.  In particular the human-confirmed hash floor, which
    replaces the confidence by 0.45, never reaches the automatic band. *)
Theorem gbm_auto_only_above_tau gbm env tokens
    (Htau : (TAU_SUGGEST <? env_tau_auto env)%F = true)
    (Hauto : DecisionResult.action (_gbm_result gbm env tokens) = ACTION_AUTO) :
  let p := clamp01 (GbmDecision.max_prob gbm) in
  GbmDecision.label gbm ∈ BASE_LABELS
  /\ DecisionResult.label (_gbm_result gbm env tokens) = GbmDecision.label gbm
  /\ DecisionResult.confidence (_gbm_result gbm env tokens) = p
  /\ (env_tau_auto env <=? p)%F = true.
Proof.
  cbv zeta. unfold _gbm_result in *. cbv zeta in *.
  set (p := clamp01 _) in *.
  destruct (stdpp.base.decide (GbmDecision.label gbm ∈ BASE_LABELS)) as [Hl|Hl].
  - destruct (bool_decide _ || _) eqn:Hlow.
    + destruct (_human_confirmed_hash_floor _ _ _) as [c|]; [|done].
      rewrite mk_result_action in Hauto. case_decide; [done|].
      apply band_auto in Hauto as [?|Ht]; [done|].
      pose proof (fle_lt_trans _ _ _ Ht Htau) as Hx. by rewrite flt_irrefl in Hx.
    + destruct (_ && _); [done|].
      rewrite mk_result_action in Hauto. case_decide; [done|].
      apply band_auto in Hauto as [?|Ht]; done.
  - simpl in Hauto. destruct (_human_confirmed_hash_floor _ _ _) as [c|]; [|done].
    rewrite mk_result_action in Hauto. case_decide; [done|].
    apply band_auto in Hauto as [?|Ht]; [done|].
    pose proof (fle_lt_trans _ _ _ Ht Htau) as Hx. by rewrite flt_irrefl in Hx.
Qed.

Definition demo_env : result_env :=
  {| env_features := []; env_stage_c := []; env_tau_auto := TAU_AUTO |}.
Definition demo_gbm : GbmDecision.t :=
  {| GbmDecision.label := "si"; GbmDecision.max_prob := KB_STRONG_SCORE;
     GbmDecision.probs := [("si", KB_STRONG_SCORE)]; GbmDecision.model_version := "gbm-1" |}.

Lemma gbm_auto_only_above_tau_witness :
  (TAU_SUGGEST <? env_tau_auto demo_env)%F = true
  /\ DecisionResult.action (_gbm_result demo_gbm demo_env ∅) = ACTION_AUTO
  /\ (env_tau_auto demo_env <=? clamp01 (GbmDecision.max_prob demo_gbm))%F = true.
Proof.
  assert ((TAU_SUGGEST <? env_tau_auto demo_env)%F = true) as H1 by (vm_compute; reflexivity).
  assert (DecisionResult.action (_gbm_result demo_gbm demo_env ∅) = ACTION_AUTO) as H2
    by (vm_compute; reflexivity).
  split; [exact H1|]. split; [exact H2|].
  exact (proj2 (proj2 (proj2 (gbm_auto_only_above_tau demo_gbm demo_env ∅ H1 H2)))).
Defined.

(** A human-confirmed exact-hash neighbour of the demo query. *)
Definition demo_neighbour : Candidate.t := {|
  Candidate.item_id := Some 7; Candidate.mode_id := None; Candidate.dense_rank := None;
  Candidate.sparse_rank := None; Candidate.rrf_score := f0; Candidate.cosine := None;
  Candidate.lex_score := None; Candidate.jaccard_templates := f0;
  Candidate.issue_type := Some "pb001"; Candidate.label_source := Some "rp";
  Candidate.label_ts := None; Candidate.same_test_case := false;
  Candidate.same_error_hash := true; Candidate.same_exception_fp := true;
  Candidate.msg_text := "Session.userId null"; Candidate.exc_text := "";
  Candidate.launch_distance := None; Candidate.launch_id := None; Candidate.launch_name := None;
  Candidate.mode_status := None; Candidate.mode_purity := None; Candidate.mode_support := None;
  Candidate.matched_by := None; Candidate.relevant_log_id := None |}.

(** The configuration admits any tau_auto of [0,1]; at 0.4 the floor the source
    calls "never auto" is an automatic label. *)
Theorem hash_floor_auto_at_low_tau :
  let env := {| env_features := []; env_stage_c := [demo_neighbour];
                env_tau_auto := dec 4 10 |} in
  let gbm := {| GbmDecision.label := "si"; GbmDecision.max_prob := dec 1 10;
                GbmDecision.probs := []; GbmDecision.model_version := "gbm-1" |} in
  DecisionResult.action (_gbm_result gbm env {["Session.userId"; "null"]}) = ACTION_AUTO
  /\ DecisionResult.label (_gbm_result gbm env {["Session.userId"; "null"]}) = "pb".
Proof. vm_compute. split; reflexivity. Qed.

(** [min(1.0, nan)] is 1.0 in Python, so a NaN probability is clamped to full
    confidence and auto-labels. *)
Theorem gbm_nan_auto_labels :
  let gbm := {| GbmDecision.label := "si"; GbmDecision.max_prob := fnan;
                GbmDecision.probs := []; GbmDecision.model_version := "gbm-1" |} in
  DecisionResult.action (_gbm_result gbm demo_env ∅) = ACTION_AUTO
  /\ DecisionResult.confidence (_gbm_result gbm demo_env ∅) = f1.
Proof. vm_compute. split; reflexivity. Qed.

(** The KB short circuit has no guard on the mode's label: a strong confirmed
    mode labelled [ti001] auto-labels with the empty base group. *)
Theorem kb_result_unguarded_label :
  let env := {| env_features := []; env_stage_c := []; env_tau_auto := TAU_AUTO |} in
  let cand := {|
    Candidate.item_id := None; Candidate.mode_id := Some 3; Candidate.dense_rank := None;
    Candidate.sparse_rank := None; Candidate.rrf_score := f0; Candidate.cosine := Some f1;
    Candidate.lex_score := None; Candidate.jaccard_templates := f1;
    Candidate.issue_type := Some "ti001"; Candidate.label_source := Some "human";
    Candidate.label_ts := None; Candidate.same_test_case := false;
    Candidate.same_error_hash := false; Candidate.same_exception_fp := true;
    Candidate.msg_text := ""; Candidate.exc_text := ""; Candidate.launch_distance := None;
    Candidate.launch_id := None; Candidate.launch_name := None;
    Candidate.mode_status := Some "confirmed"; Candidate.mode_purity := Some f1;
    Candidate.mode_support := Some 12; Candidate.matched_by := None;
    Candidate.relevant_log_id := None |} in
  let kb := score_kb_candidate cand in
  kb_short_circuit kb = true
  /\ DecisionResult.action (kb_result env kb cand) = ACTION_AUTO
  /\ DecisionResult.label (kb_result env kb cand) = "".
Proof. vm_compute. split_and!; reflexivity. Qed.

(** ** Calibrated per-label probabilities *)

(** A per-label calibrated probability is always a number of [0,1]; it is the
    clamped calibrated maximum itself for the raw argmax group; and it is absent
    whenever the decision carries no calibrated distribution. *)
Theorem calibrated_label_prob_sound (d : DecisionResult.t) (g : string) :
  (forall v, calibrated_label_prob d g = Some v -> in01 v = true
     /\ exists c p, DecisionResult.calibrated_max_prob d = Some c
                    /\ dget g (DecisionResult.probs d) = Some p
                    /\ (argmax_key (DecisionResult.probs d) = Some g -> v = clamp01 c))
  /\ (DecisionResult.calibrated_max_prob d = None -> calibrated_label_prob d g = None).
Proof.
  unfold calibrated_label_prob.
  destruct (DecisionResult.calibrated_max_prob d) as [c|]; [|done]. split; [|done].
  intros v. destruct (dget g _) as [p|]; [|done].
  destruct (max_value _) as [rm|]; [|done]. destruct (rm <=? f0)%F; [done|].
  case_decide as Harg; intros Hv.
  - simplify_eq. split; [apply clamp01_in01|]. eauto 10.
  - split; [destruct (_ <=? f0)%F; simplify_eq; [done|apply clamp01_in01]|].
    exists c, p. by split_and!.
Qed.

(** ** Witnesses for the decision *)

#[local] Instance demo_libm : Libm := {|
  math_exp := fun _ => f1; math_log := fun x => x; math_log1p := fun x => (x + f1)%F;
  float_pow := fun _ _ => f1 |}.

Definition demo_inputs (matches : list HashMatch.t) (gbm : option GbmDecision.t) : DecisionInputs.t := {|
  DecisionInputs.exception_fp := 42; DecisionInputs.hash_matches := matches;
  DecisionInputs.query_status_codes := ["500"];
  DecisionInputs.query_msg_tokens := {["Session.userId"; "null"]};
  DecisionInputs.kb_candidates := []; DecisionInputs.seed := None;
  DecisionInputs.stage_c := [demo_neighbour]; DecisionInputs.stage_c_ages_days := [f1];
  DecisionInputs.feature_ctx := None;
  DecisionInputs.gbm_predict := (fun g _ => Some g) <$> gbm |}.

Lemma decide_auto_label_witness :
  DecisionResult.action (decide_inputs (demo_inputs [demo_match] None) 86400000000 TAU_AUTO) = ACTION_AUTO
  /\ DecisionResult.label (decide_inputs (demo_inputs [demo_match] None) 86400000000 TAU_AUTO)
     ∈ BASE_LABELS.
Proof.
  assert (DecisionResult.action (decide_inputs (demo_inputs [demo_match] None) 86400000000 TAU_AUTO)
          = ACTION_AUTO) as H by (vm_compute; reflexivity).
  split; [exact H|].
  refine (decide_auto_label (demo_inputs [demo_match] None) 86400000000 TAU_AUTO _ _ H).
  - intros c Hc. destruct (proj1 (elem_of_nil c) Hc).
  - intros s Hs. discriminate Hs.
Defined.

Lemma blocked_hash_never_promoted_witness :
  discriminant_gate_blocked 42 [demo_503] ["500"] {["Session.userId"; "null"]} = true
  /\ _human_confirmed_hash_floor [demo_neighbour]
       (env_features (decide_env (demo_inputs [demo_503] None) TAU_AUTO))
       {["Session.userId"; "null"]} = None.
Proof.
  assert (discriminant_gate_blocked 42 [demo_503] ["500"] {["Session.userId"; "null"]} = true) as H
    by (vm_compute; reflexivity).
  split; [exact H|].
  exact (proj1 (proj2 (blocked_hash_never_promoted (demo_inputs [demo_503] None) 0 TAU_AUTO H))).
Defined.
