(* ===== verification/Grouping.v ===== *)
(** * Launch grouping

    [core/grouping.py]: the three deterministic passes that group the failures
    of one launch, the representative and the burst prior.  The float32 vector
    arithmetic is numpy's and comes in through the class [Numpy]; a group's
    mutable object is an entry of the list of groups, updated in place. *)

From S2P Require Import Prelude PyFloat.
From Stdlib Require Import ZArith Lia.

#[local] Open Scope Z_scope.

(** The numpy operations the source calls, on float32 vectors. *)
Class Numpy (vec : Type) := {
  np_asarray : list pyfloat -> vec;            (* np.asarray(emb, dtype=float32) *)
  np_norm : vec -> pyfloat;                    (* float(np.linalg.norm(v)) *)
  np_quot : vec -> pyfloat -> vec;             (* (v / x).astype(float32) *)
  np_mean : list vec -> vec;                   (* np.mean(np.stack(vs), axis=0) *)
  np_running : vec -> Z -> vec -> vec;         (* (centroid * n + v) / (n + 1) *)
  np_dot : vec -> vec -> pyfloat               (* float(np.dot(a, b)) *)
}.

Definition THETA_GROUP : pyfloat := Eval vm_compute in dec 83 100.
Definition BURST_X : pyfloat := Eval vm_compute in dec 40 100.
Definition BURST_N : Z := 5.
Definition JACCARD_MIN : pyfloat := Eval vm_compute in dec 5 10.
Definition SI_PRIOR_CAP : pyfloat := Eval vm_compute in dec 9 10.
Definition SI_PRIOR_BASE : pyfloat := Eval vm_compute in dec 5 10.
Definition NORM_EPS : pyfloat := Eval vm_compute in dec 1 1000000000000.

Module GroupItem.
Record t := mk {
  item_id : Z;
  exception_fp : Z;
  error_hash : Z;
  emb : option (list pyfloat);
  has_stacktrace : bool;
  log_count : Z;
  template_ids : list Z
}.
End GroupItem.

Module LaunchGroup.
Record t (vec : Type) := mk {
  members : list GroupItem.t;
  centroid : option vec;
  template_ids : gset Z;
  representative : option GroupItem.t;
  si_prior : pyfloat
}.
Arguments mk {vec}. Arguments members {vec}. Arguments centroid {vec}.
Arguments template_ids {vec}. Arguments representative {vec}. Arguments si_prior {vec}.
End LaunchGroup.

(** [group.fingerprint]. *)
Definition fingerprint {vec} (g : LaunchGroup.t vec) : Z :=
  match LaunchGroup.representative g with Some r => GroupItem.error_hash r | None => 0 end.

Section Grouping.
Context {vec : Type} `{!Numpy vec}.
Abbreviation group := (LaunchGroup.t vec).

Definition _normalize (v : vec) : vec :=
  if (np_norm v <? NORM_EPS)%F then v else np_quot v (np_norm v).

Definition _emb_array (i : GroupItem.t) : option vec := np_asarray <$> GroupItem.emb i.

Definition templates_of (members : list GroupItem.t) : gset Z :=
  list_to_set (members ≫= GroupItem.template_ids).

Definition _new_group (members : list GroupItem.t) : group :=
  let vecs := omap _emb_array members in
  {| LaunchGroup.members := members;
     LaunchGroup.centroid := match vecs with [] => None | _ => Some (_normalize (np_mean vecs)) end;
     LaunchGroup.template_ids := templates_of members;
     LaunchGroup.representative := None;
     LaunchGroup.si_prior := f0 |}.

Definition n_embedded (members : list GroupItem.t) : Z :=
  Z.of_nat (length (omap GroupItem.emb members)).

Definition _add_member (g : group) (i : GroupItem.t) : group :=
  let centroid :=
    match _emb_array i with
    | None => LaunchGroup.centroid g
    | Some v =>
        let n := n_embedded (LaunchGroup.members g) in
        match LaunchGroup.centroid g with
        | Some c => if decide (n = 0) then Some (_normalize v)
                    else Some (_normalize (np_running c n v))
        | None => Some (_normalize v)
        end
    end in
  {| LaunchGroup.members := LaunchGroup.members g ++ [i];
     LaunchGroup.centroid := centroid;
     LaunchGroup.template_ids := LaunchGroup.template_ids g ∪ list_to_set (GroupItem.template_ids i);
     LaunchGroup.representative := LaunchGroup.representative g;
     LaunchGroup.si_prior := LaunchGroup.si_prior g |}.

Definition _cosine (a b : option vec) : pyfloat :=
  match a, b with Some x, Some y => np_dot x y | _, _ => fopp f1 end.

Definition _jaccard (a b : gset Z) : pyfloat :=
  if bool_decide (a = ∅) && bool_decide (b = ∅) then f0
  else int_quot (Z.of_nat (size (a ∩ b))) (Z.of_nat (size (a ∪ b))).

(** ** Pass 3 *)

Definition close_groups (theta jaccard_min : pyfloat) (group existing : group) : bool :=
  (theta <=? _cosine (LaunchGroup.centroid existing) (LaunchGroup.centroid group))%F
  && (jaccard_min <=? _jaccard (LaunchGroup.template_ids existing)
                               (LaunchGroup.template_ids group))%F.

(** Attach to the first close group of [merged], else append. *)
Fixpoint merge_into (close : group -> bool) (g : group) (merged : list group) : list group :=
  match merged with
  | [] => [g]
  | e :: merged' =>
      if close e then fold_left _add_member (LaunchGroup.members g) e :: merged'
      else e :: merge_into close g merged'
  end.

Definition _merge_close (groups : list group) (theta jaccard_min : pyfloat) : list group :=
  fold_left (fun merged g => merge_into (close_groups theta jaccard_min g) g merged) groups [].

(** ** Representative: max by (has_stacktrace, log_count, -item_id) *)

Definition rep_key (i : GroupItem.t) : Z * Z * Z :=
  (if GroupItem.has_stacktrace i then 1 else 0, GroupItem.log_count i, - GroupItem.item_id i).
Definition klt3 (a b : Z * Z * Z) : bool :=
  let '(a1, a2, a3) := a in let '(b1, b2, b3) := b in
  (a1 <? b1) || (a1 =? b1) && ((a2 <? b2) || (a2 =? b2) && (a3 <? b3)).
Definition rep_gtb (x cur : GroupItem.t) : bool := klt3 (rep_key cur) (rep_key x).
Definition _representative (members : list GroupItem.t) : option GroupItem.t :=
  pymax_list rep_gtb members.

(** ** Pass 1 *)

Definition fp_step (st : list (Z * list GroupItem.t) * list GroupItem.t) (i : GroupItem.t)
    : list (Z * list GroupItem.t) * list GroupItem.t :=
  let '(by_fp, leftovers) := st in
  let fp := GroupItem.exception_fp i in
  if decide (fp = 0) then (by_fp, leftovers ++ [i])
  else (dset fp (dgetd fp [] by_fp ++ [i]) by_fp, leftovers).
Definition split_by_fp (items : list GroupItem.t) : list (Z * list GroupItem.t) * list GroupItem.t :=
  fold_left fp_step items ([], []).

Definition id_leb (x y : GroupItem.t) : bool := GroupItem.item_id x <=? GroupItem.item_id y.

Definition fp_groups (by_fp : list (Z * list GroupItem.t)) : list group :=
  (fun fp => _new_group (pysorted id_leb (dgetd fp [] by_fp))) <$> pysorted Z.leb by_fp.*1.

(** ** Pass 2 *)

(** The loop over groups: keep the last group at least as similar as the best
  so far. *)
Definition best_step (v : vec) (st : option nat * pyfloat) (kg : nat * group) : option nat * pyfloat :=
  let '(best, best_sim) := st in
  let sim := _cosine (Some v) (LaunchGroup.centroid kg.2) in
  if (best_sim <=? sim)%F then (Some kg.1, sim) else (best, best_sim).
Definition best_group (theta : pyfloat) (v : vec) (groups : list group) : option nat :=
  fst (fold_left (best_step v) (imap pair groups) (None, theta)).

Definition attach_leftover (theta : pyfloat) (groups : list group) (i : GroupItem.t) : list group :=
  match _emb_array i ≫= (fun v => best_group theta v groups) with
  | Some k => alter (fun g => _add_member g i) k groups
  | None => groups ++ [_new_group [i]]
  end.

(** ** The burst prior *)

Definition finish_group (total : Z) (burst_x : pyfloat) (burst_n : Z) (is_new : Z -> bool)
    (g : group) : group :=
  let n := Z.of_nat (length (LaunchGroup.members g)) in
  let rep := _representative (LaunchGroup.members g) in
  let burst :=
    match rep with
    | Some r => bool_decide (0 < total) && is_new (GroupItem.error_hash r)
                && bool_decide (burst_n <= n) && (burst_x <? int_quot n total)%F
    | None => false
    end in
  {| LaunchGroup.members := LaunchGroup.members g;
     LaunchGroup.centroid := LaunchGroup.centroid g;
     LaunchGroup.template_ids := LaunchGroup.template_ids g;
     LaunchGroup.representative := rep;
     LaunchGroup.si_prior :=
       if burst then pymin2 SI_PRIOR_CAP (SI_PRIOR_BASE + int_quot n total)%F else f0 |}.

Definition group_launch (items : list GroupItem.t) (theta burst_x : pyfloat) (burst_n : Z)
    (is_error_hash_new : option (Z -> bool)) : list group :=
  let is_new := default (fun _ => true) is_error_hash_new in
  let '(by_fp, leftovers) := split_by_fp items in
  let groups := fp_groups by_fp in
  let groups := fold_left (attach_leftover theta) (pysorted id_leb leftovers) groups in
  let groups := _merge_close groups theta JACCARD_MIN in
  finish_group (Z.of_nat (length items)) burst_x burst_n is_new <$> groups.
End Grouping.

(** ** Pass 1: the buckets *)

Definition has_fp (fp : Z) (i : GroupItem.t) : bool := GroupItem.exception_fp i =? fp.

Lemma split_by_fp_spec items :
  let '(by_fp, leftovers) := split_by_fp items in
  NoDup by_fp.*1
  /\ (forall fp, dgetd fp [] by_fp = if decide (fp = 0) then [] else List.filter (has_fp fp) items)
  /\ (forall fp, fp ∈ by_fp.*1 <-> fp <> 0 /\ exists i, i ∈ items /\ GroupItem.exception_fp i = fp)
  /\ leftovers = List.filter (has_fp 0) items.
Proof.
  induction items as [|i items IH] using rev_ind.
  { split_and!; [constructor| | |done].
    - intros fp. by case_decide.
    - intros fp. simpl. rewrite elem_of_nil. split; [done|]. intros (_ & i & Hi & _).
      by apply elem_of_nil in Hi. }
  unfold split_by_fp in *. rewrite fold_left_app. simpl.
  destruct (fold_left fp_step items ([], [])) as [by_fp left]. simpl.
  destruct IH as (Hnd & Hget & Hkeys & ->).
  assert (forall fp, (exists j, j ∈ items ++ [i] /\ GroupItem.exception_fp j = fp) <->
          (exists j, j ∈ items /\ GroupItem.exception_fp j = fp) \/ GroupItem.exception_fp i = fp) as Hex.
  { intros fp. split.
    - intros (j & [Hj|Hj]%elem_of_app & Hfp); [eauto|].
      apply list_elem_of_singleton in Hj as ->. auto.
    - intros [(j & Hj & Hfp)|Hfp]; [exists j|exists i]; rewrite elem_of_app, list_elem_of_singleton; auto. }
  case_decide as Hz; split_and!.
  - done.
  - intros fp. rewrite Hget, List.filter_app. simpl. unfold has_fp at 3. rewrite Hz.
    case_decide; [done|]. by rewrite (proj2 (Z.eqb_neq 0 fp)), app_nil_r by done.
  - intros fp. rewrite Hkeys, Hex. split; [tauto|]. intros [? [?|?]]; [tauto|congruence].
  - rewrite List.filter_app. simpl. unfold has_fp at 3. by rewrite (proj2 (Z.eqb_eq _ 0) Hz).
  - by apply dset_NoDup.
  - intros fp. rewrite List.filter_app. simpl. unfold has_fp at 2.
    destruct (decide (GroupItem.exception_fp i = fp)) as [<-|Hne].
    + unfold dgetd at 1. rewrite dget_dset_eq, Hget. simpl.
      case_decide; [done|]. by rewrite Z.eqb_refl.
    + unfold dgetd. rewrite dget_dset_ne by done. fold (dgetd fp [] by_fp). rewrite Hget.
      by rewrite (proj2 (Z.eqb_neq _ fp)), app_nil_r by done.
  - intros fp. rewrite elem_of_dset_keys, Hkeys, Hex. split.
    + intros [->|[? ?]]; auto.
    + intros [? [?|<-]]; auto.
  - rewrite List.filter_app. simpl. unfold has_fp at 3.
    by rewrite (proj2 (Z.eqb_neq _ 0) Hz), app_nil_r.
Qed.

(** The buckets together with the leftovers are the items. *)
Lemma split_by_fp_perm items :
  concat (split_by_fp items).1.*2 ++ (split_by_fp items).2 ≡ₚ items.
Proof.
  induction items as [|i items IH] using rev_ind; [done|].
  unfold split_by_fp in *. rewrite fold_left_app. simpl.
  destruct (fold_left fp_step items ([], [])) as [by_fp left]. simpl in *.
  case_decide; simpl.
  - by rewrite (assoc (++)), IH.
  - rewrite dset_append_perm, <- IH. simpl. rewrite <- Permutation_cons_append. done.
Qed.

(** Reading a dict back through its own keys gives its values. *)
Lemma dgetd_keys_concat {A} (d : list (Z * list A)) :
  NoDup d.*1 -> (fun k => dgetd k [] d) <$> d.*1 = d.*2.
Proof.
  induction d as [|[k v] d IH]; [done|]. cbn [fmap list_fmap fst snd].
  intros [Hk Hnd]%NoDup_cons. f_equal; [by unfold dgetd; simpl; rewrite decide_True|].
  rewrite <- IH by done. apply list_fmap_ext. intros j n Hn.
  unfold dgetd. simpl. rewrite decide_False; [done|].
  intros ->. by apply Hk, list_elem_of_lookup_2 with j.
Qed.

Section Invariants.
Context {vec : Type} `{!Numpy vec}.

(** All items of all groups, in order. *)
Definition all_members (groups : list (LaunchGroup.t vec)) : list GroupItem.t :=
  groups ≫= LaunchGroup.members.

Lemma all_members_app g1 g2 : all_members (g1 ++ g2) = all_members g1 ++ all_members g2.
Proof. apply bind_app. Qed.

Lemma bucket_members (by_fp : list (Z * list GroupItem.t)) keys :
  all_members ((fun fp => _new_group (pysorted id_leb (dgetd fp [] by_fp))) <$> keys)
  ≡ₚ concat ((fun fp => dgetd fp [] by_fp) <$> keys).
Proof.
  induction keys as [|k keys IH]; simpl; [done|]. by rewrite (pysorted_perm id_leb), IH.
Qed.

Lemma fp_groups_members (by_fp : list (Z * list GroupItem.t)) :
  NoDup by_fp.*1 -> all_members (fp_groups by_fp) ≡ₚ concat by_fp.*2.
Proof.
  intros Hnd. unfold fp_groups. rewrite bucket_members.
  rewrite <- (dgetd_keys_concat by_fp Hnd), (pysorted_perm Z.leb by_fp.*1). done.
Qed.

Lemma add_members l (g : LaunchGroup.t vec) :
  LaunchGroup.members (fold_left _add_member l g) = LaunchGroup.members g ++ l.
Proof.
  revert g. induction l as [|i l IH]; intros g; simpl; [by rewrite app_nil_r|].
  rewrite IH. simpl. by rewrite <- (assoc (++)).
Qed.

Lemma alter_member_perm i k (groups : list (LaunchGroup.t vec)) :
  (k < length groups)%nat ->
  all_members (alter (fun g => _add_member g i) k groups) ≡ₚ i :: all_members groups.
Proof.
  revert k. induction groups as [|g groups IH]; intros [|k] Hk; simpl in Hk; try lia.
  - unfold all_members. simpl. rewrite <- (assoc (++)). symmetry. apply Permutation_middle.
  - change (alter ?f (S k) (g :: groups)) with (g :: alter f k groups).
    unfold all_members in *. rewrite !bind_cons, IH by lia. symmetry. apply Permutation_middle.
Qed.

(** The best group of the similarity scan is an index of the list. *)
Lemma best_group_bound theta v (groups : list (LaunchGroup.t vec)) k :
  best_group theta v groups = Some k -> (k < length groups)%nat.
Proof.
  unfold best_group.
  assert (forall l st n, (forall j, st.1 = Some j -> (j < n)%nat) ->
    (forall kg, kg ∈ l -> (kg.1 < n)%nat) ->
    forall j, (fold_left (best_step v) l st).1 = Some j -> (j < n)%nat) as Hfold.
  { intros l. induction l as [|kg l IHl]; intros st n Hst Hl; simpl; [done|].
    apply IHl; [|set_solver]. destruct st as [b s]. simpl in *.
    destruct (_ <=? _)%F; simpl; [|done]. intros j [= <-]. apply Hl. set_solver. }
  apply Hfold; [done|]. intros [j g] Hin. apply elem_of_lookup_imap in Hin as (j' & g' & ? & Hl).
  simplify_eq/=. by apply lookup_lt_Some in Hl.
Qed.

Lemma attach_leftover_members theta (groups : list (LaunchGroup.t vec)) i :
  all_members (attach_leftover theta groups i) ≡ₚ i :: all_members groups.
Proof.
  unfold attach_leftover. destruct (_ ≫= _) as [k|] eqn:E.
  - apply alter_member_perm. apply bind_Some in E as (v & _ & E). by eapply best_group_bound.
  - rewrite all_members_app. simpl. symmetry. apply Permutation_cons_append.
Qed.

Lemma attach_all_members theta l (groups : list (LaunchGroup.t vec)) :
  all_members (fold_left (attach_leftover theta) l groups) ≡ₚ all_members groups ++ l.
Proof.
  revert groups. induction l as [|i l IH]; intros groups; simpl; [by rewrite app_nil_r|].
  rewrite IH, attach_leftover_members. simpl. apply Permutation_middle.
Qed.

Lemma merge_into_members close g (merged : list (LaunchGroup.t vec)) :
  all_members (merge_into close g merged) ≡ₚ all_members merged ++ LaunchGroup.members g.
Proof.
  induction merged as [|e merged IH]; simpl; [by rewrite app_nil_r|].
  unfold all_members in *. destruct (close e); simpl.
  - rewrite add_members, <- !(assoc (++)). f_equiv. apply Permutation_app_comm.
  - by rewrite IH, (assoc (++)).
Qed.

Lemma merge_close_members (groups : list (LaunchGroup.t vec)) theta jmin :
  all_members (_merge_close groups theta jmin) ≡ₚ all_members groups.
Proof.
  unfold _merge_close. rewrite <- (app_nil_l (all_members groups)) at 1.
  change (@nil GroupItem.t) with (all_members ([] : list (LaunchGroup.t vec))).
  generalize ([] : list (LaunchGroup.t vec)) as merged.
  induction groups as [|g groups IH]; intros merged; simpl; [by rewrite app_nil_r|].
  rewrite IH, merge_into_members. unfold all_members. simpl. by rewrite <- (assoc (++)).
Qed.

(** ** Groups are non-empty and closed under a shared fingerprint *)

Definition closed (items : list GroupItem.t) (g : LaunchGroup.t vec) : Prop :=
  LaunchGroup.members g <> [] /\
  forall i j, i ∈ items -> j ∈ items ->
    GroupItem.exception_fp i = GroupItem.exception_fp j -> GroupItem.exception_fp i <> 0 ->
    i ∈ LaunchGroup.members g -> j ∈ LaunchGroup.members g.

Lemma closed_fp_groups items :
  Forall (closed items) (fp_groups (split_by_fp items).1).
Proof.
  pose proof (split_by_fp_spec items) as Hspec.
  destruct (split_by_fp items) as [by_fp left]. destruct Hspec as (_ & Hget & Hkeys & _).
  simpl. apply Forall_forall. intros g Hg. unfold fp_groups in Hg.
  apply list_elem_of_fmap in Hg as (fp & -> & Hfp). rewrite elem_of_pysorted in Hfp.
  apply Hkeys in Hfp as (Hne & i & Hi & Hif).
  assert (forall x, x ∈ pysorted id_leb (dgetd fp [] by_fp) <->
            x ∈ items /\ GroupItem.exception_fp x = fp) as Hmem.
  { intros x. rewrite elem_of_pysorted, Hget, decide_False, filterb_elem by done.
    unfold has_fp. by rewrite Z.eqb_eq. }
  split; simpl.
  - intros Hnil. assert (i ∈ pysorted id_leb (dgetd fp [] by_fp)) as Hx by (by apply Hmem).
    rewrite Hnil in Hx. by apply elem_of_nil in Hx.
  - intros x y Hx Hy Hxy _ [_ Hxf]%Hmem. apply Hmem. split; congruence.
Qed.

Lemma closed_leftover items theta groups i :
  GroupItem.exception_fp i = 0 ->
  Forall (closed items) groups -> Forall (closed items) (attach_leftover theta groups i).
Proof.
  intros Hi Hall. unfold attach_leftover. destruct (_ ≫= _) as [k|].
  - apply Forall_alter; [done|]. intros g _ [Hne Hcl]. split; simpl.
    + by destruct (LaunchGroup.members g).
    + intros x y Hx Hy Hxy Hx0 [Hin|Heq%list_elem_of_singleton]%elem_of_app; [|congruence].
      apply elem_of_app. left. by apply (Hcl x).
  - apply Forall_app. split; [done|]. apply Forall_singleton. split; simpl; [done|].
    intros x y _ _ _ Hx0 ->%list_elem_of_singleton. done.
Qed.

Lemma closed_attach_all items theta l groups :
  Forall (fun i => GroupItem.exception_fp i = 0) l ->
  Forall (closed items) groups ->
  Forall (closed items) (fold_left (attach_leftover theta) l groups).
Proof.
  intros Hl. revert groups. induction Hl as [|i l Hi Hl IH]; intros groups Hg; simpl; [done|].
  by apply IH, closed_leftover.
Qed.

Lemma closed_merge_into items close g (merged : list (LaunchGroup.t vec)) :
  closed items g -> Forall (closed items) merged -> Forall (closed items) (merge_into close g merged).
Proof.
  intros Hg. induction 1 as [|e merged He Hm IH]; simpl; [by apply Forall_singleton|].
  destruct (close e); apply Forall_cons; split; try done.
  destruct He as [Hne Hcl], Hg as [_ Hclg]. split; rewrite add_members.
  - by destruct (LaunchGroup.members e).
  - intros x y Hx Hy Hxy Hx0 Hin. apply elem_of_app in Hin as [Hin|Hin]; apply elem_of_app;
      [left; by apply (Hcl x)|right; by apply (Hclg x)].
Qed.

Lemma closed_merge_close items groups theta jmin :
  Forall (closed items) groups -> Forall (closed items) (_merge_close groups theta jmin).
Proof.
  intros Hg. unfold _merge_close.
  assert (Forall (closed items) ([] : list (LaunchGroup.t vec))) as Hm by constructor.
  revert Hm. generalize ([] : list (LaunchGroup.t vec)) as merged.
  induction Hg as [|g groups H1 Hg IH]; intros merged Hm; simpl; [done|].
  by apply IH, closed_merge_into.
Qed.

Lemma leftovers_fp items : Forall (fun i => GroupItem.exception_fp i = 0)
  (pysorted id_leb (split_by_fp items).2).
Proof.
  pose proof (split_by_fp_spec items) as Hspec.
  destruct (split_by_fp items) as [by_fp left]. destruct Hspec as (_ & _ & _ & ->). simpl.
  apply Forall_forall. intros i Hi. apply elem_of_pysorted, filterb_elem in Hi as [_ Hi].
  by apply Z.eqb_eq in Hi.
Qed.

(** The groups before representatives and priors are filled in. *)
Definition formed (items : list GroupItem.t) (theta : pyfloat) : list (LaunchGroup.t vec) :=
  _merge_close (fold_left (attach_leftover theta) (pysorted id_leb (split_by_fp items).2)
                 (fp_groups (split_by_fp items).1)) theta JACCARD_MIN.

Lemma group_launch_formed items theta bx bn new :
  group_launch items theta bx bn new
  = finish_group (Z.of_nat (length items)) bx bn (default (fun _ => true) new)
      <$> formed items theta.
Proof. unfold group_launch, formed. by destruct (split_by_fp items). Qed.

Lemma formed_closed items theta : Forall (closed items) (formed items theta).
Proof.
  apply closed_merge_close, closed_attach_all; [apply leftovers_fp|apply closed_fp_groups].
Qed.

Lemma formed_members items theta : all_members (formed items theta) ≡ₚ items.
Proof.
  unfold formed. rewrite merge_close_members, attach_all_members, (pysorted_perm id_leb).
  pose proof (split_by_fp_spec items) as Hspec. pose proof (split_by_fp_perm items) as Hperm.
  destruct (split_by_fp items) as [by_fp left]. simpl in *. destruct Hspec as (Hnd & _).
  by rewrite fp_groups_members.
Qed.

Lemma rep_gtb_irrefl x : rep_gtb x x = false.
Proof. unfold rep_gtb, klt3. destruct (rep_key x) as [[a b] c]. lia. Qed.
Lemma rep_gtb_asym x y : rep_gtb x y = true -> rep_gtb y x = false.
Proof. unfold rep_gtb, klt3. destruct (rep_key x) as [[??]?], (rep_key y) as [[??]?]. lia. Qed.
Lemma rep_gtb_trans x y z : rep_gtb y x = false -> rep_gtb z y = false -> rep_gtb z x = false.
Proof.
  unfold rep_gtb, klt3.
  destruct (rep_key x) as [[??]?], (rep_key y) as [[??]?], (rep_key z) as [[??]?]. lia.
Qed.

Lemma representative_spec (members : list GroupItem.t) :
  members <> [] ->
  exists r, _representative members = Some r /\ r ∈ members
            /\ forall m, m ∈ members -> rep_gtb m r = false.
Proof.
  destruct members as [|x l]; [done|]. intros _. exists (pymax rep_gtb x l).
  split_and!; [done|apply pymax_in|]. intros m Hm.
  apply pymax_ge; [apply rep_gtb_irrefl|apply rep_gtb_trans|apply rep_gtb_asym|done].
Qed.

Lemma group_launch_represented items theta bx bn new g :
  g ∈ group_launch items theta bx bn new ->
  exists r, LaunchGroup.representative g = Some r /\ r ∈ LaunchGroup.members g.
Proof.
  rewrite group_launch_formed. intros (g0 & -> & Hg0)%list_elem_of_fmap.
  destruct (proj1 (Forall_forall _ _) (formed_closed items theta) _ Hg0) as [Hne _].
  destruct (representative_spec _ Hne) as (r & Hr & Hin & _). by exists r.
Qed.

Lemma group_launch_members items theta bx bn new :
  all_members (group_launch items theta bx bn new) ≡ₚ items.
Proof.
  rewrite group_launch_formed. etrans; [|apply (formed_members items theta)].
  unfold all_members. generalize (formed items theta) as gs.
  intros gs. induction gs as [|g gs IH]; simpl; [done|]. by rewrite IH.
Qed.

(** C25. Grouping neither loses nor duplicates a failure: the members of all
  groups together are a permutation of the launch's items. *)
Theorem group_launch_partition items theta bx bn new :
  all_members (group_launch items theta bx bn new) ≡ₚ items.
Proof. apply group_launch_members. Qed.

(** Every group of a launch has a representative: a member no other member
  beats on (has a stack trace, more logs, smaller id).  A group never splits
  an exact fingerprint: it holds all items of the launch that share a
  non-zero [exception_fp] with one of its members.  A non-zero burst prior
  is at most 0.9 and is only given to a group of at least [burst_n] items
  that make up more than the burst share of the launch and whose failure is
  new. *)
Theorem group_launch_groups items theta bx bn new g
    (Hg : g ∈ group_launch items theta bx bn new) :
  (exists r, LaunchGroup.representative g = Some r /\ r ∈ LaunchGroup.members g
     /\ (forall m, m ∈ LaunchGroup.members g -> rep_gtb m r = false)
     /\ (LaunchGroup.si_prior g <> f0 ->
         bn <= Z.of_nat (length (LaunchGroup.members g))
         /\ (bx <? int_quot (Z.of_nat (length (LaunchGroup.members g)))
                           (Z.of_nat (length items)))%F = true
         /\ default (fun _ => true) new (GroupItem.error_hash r) = true
         /\ (LaunchGroup.si_prior g <=? SI_PRIOR_CAP)%F = true))
  /\ forall i j, i ∈ items -> j ∈ items ->
       GroupItem.exception_fp i = GroupItem.exception_fp j -> GroupItem.exception_fp i <> 0 ->
       i ∈ LaunchGroup.members g -> j ∈ LaunchGroup.members g.
Proof.
  rewrite group_launch_formed in Hg. apply list_elem_of_fmap in Hg as (g0 & -> & Hg0).
  destruct (proj1 (Forall_forall _ _) (formed_closed items theta) _ Hg0) as [Hne Hcl].
  split; [|exact Hcl].
  destruct (representative_spec _ Hne) as (r & Hr & Hin & Hmax).
  exists r. unfold finish_group. cbn [LaunchGroup.members LaunchGroup.representative LaunchGroup.si_prior].
  split_and!; [done..|]. rewrite Hr.
  destruct (_ && _) eqn:E; [|done]. bprop. intros _. split_and!; try done.
  by apply pymin2_le_l.
Qed.

Lemma id_leb_total x y : id_leb x y = false -> id_leb y x = true.
Proof. unfold id_leb. lia. Qed.
Lemma id_leb_trans x y z : id_leb x y = true -> id_leb y z = true -> id_leb x z = true.
Proof. unfold id_leb. lia. Qed.

Lemma sort_ids_unique l1 l2 items :
  NoDup (GroupItem.item_id <$> items) -> (forall i, i ∈ l1 -> i ∈ items) ->
  l1 ≡ₚ l2 -> pysorted id_leb l1 = pysorted id_leb l2.
Proof.
  intros Hnd Hsub Hp. apply pysorted_perm_unique; [apply id_leb_total|apply id_leb_trans|done|].
  intros x y Hx%Hsub Hy%Hsub H1 H2.
  assert (GroupItem.item_id x = GroupItem.item_id y) as Heq by (unfold id_leb in *; lia).
  by eapply NoDup_fmap_elem_inj.
Qed.

(** Grouping is deterministic under any reordering of its input: for a
  launch whose item ids are distinct, every permutation of the items gives
  the identical list of groups, representatives and priors - whatever the
  floating-point vector arithmetic computes. *)
Theorem group_launch_order_independent items1 items2 theta bx bn new
    (Hids : NoDup (GroupItem.item_id <$> items1)) (Hperm : items1 ≡ₚ items2) :
  group_launch items1 theta bx bn new = group_launch items2 theta bx bn new.
Proof.
  rewrite !group_launch_formed, (Permutation_length Hperm). f_equal. unfold formed.
  pose proof (split_by_fp_spec items1) as H1. pose proof (split_by_fp_spec items2) as H2.
  destruct (split_by_fp items1) as [b1 l1], (split_by_fp items2) as [b2 l2].
  destruct H1 as (Hnd1 & Hget1 & Hk1 & ->), H2 as (Hnd2 & Hget2 & Hk2 & ->). cbn [fst snd].
  assert (forall fp, pysorted id_leb (List.filter (has_fp fp) items1)
                   = pysorted id_leb (List.filter (has_fp fp) items2)) as Hsort.
  { intros fp. eapply sort_ids_unique; [exact Hids|..].
    - intros i Hi. by apply filterb_elem in Hi as [].
    - by apply filterb_perm. }
  rewrite Hsort. f_equal. f_equal. unfold fp_groups.
  assert (pysorted Z.leb b1.*1 = pysorted Z.leb b2.*1) as ->.
  { apply pysorted_perm_unique; [intros; lia|intros; lia| |intros; lia].
    apply NoDup_Permutation; [done..|]. intros fp. rewrite Hk1, Hk2. by setoid_rewrite Hperm. }
  apply list_fmap_ext. intros k fp _. f_equal. rewrite Hget1, Hget2. by case_decide.
Qed.
End Invariants.

(** ** Witnesses *)

(** One-dimensional vectors: enough to run the passes. *)
#[local] Instance demo_numpy : Numpy pyfloat := {|
  np_asarray := fun l => default f0 (head l); np_norm := fabs; np_quot := fquot;
  np_mean := fun vs => fquot (fsum vs) (of_Z (Z.of_nat (length vs)));
  np_running := fun c n v => fquot (c * of_Z n + v)%F (of_Z (n + 1));
  np_dot := fmul |}.
Definition demo_item (id fp : Z) (e : option (list pyfloat)) : GroupItem.t :=
  GroupItem.mk id fp fp e false id [fp].
Definition demo_items : list GroupItem.t :=
  [demo_item 5 0 (Some [f1]); demo_item 3 9 (Some [f1]); demo_item 4 9 None; demo_item 1 9 (Some [f1]);
   demo_item 2 9 (Some [f1]); demo_item 6 8 (Some [fopp f1])].

Lemma group_launch_groups_witness :
  exists g : LaunchGroup.t pyfloat, g ∈ group_launch demo_items THETA_GROUP BURST_X BURST_N None
  /\ (LaunchGroup.si_prior g <> f0
        /\ BURST_N <= Z.of_nat (length (LaunchGroup.members g))
        /\ (LaunchGroup.si_prior g <=? SI_PRIOR_CAP)%F = true).
Proof.
  destruct (group_launch demo_items THETA_GROUP BURST_X BURST_N None) as [|a [|b [|c l]]] eqn:E;
    [vm_compute in E; discriminate E|vm_compute in E; discriminate E| |vm_compute in E; discriminate E].
  assert (b ∈ group_launch demo_items THETA_GROUP BURST_X BURST_N None) as Hb
    by (rewrite E; right; left).
  assert (LaunchGroup.si_prior b <> f0) as Hsi
    by (vm_compute in E; injection E as _ <-; discriminate).
  exists b. split; [rewrite <- E; exact Hb|]. split; [exact Hsi|].
  destruct (group_launch_groups _ _ _ _ _ b Hb) as [(r & _ & _ & _ & Hsp) _].
  destruct (Hsp Hsi) as (H1 & _ & _ & H4). split; [exact H1|exact H4].
Defined.

Lemma group_launch_order_independent_witness :
  group_launch demo_items THETA_GROUP BURST_X BURST_N None
  = group_launch (reverse demo_items) THETA_GROUP BURST_X BURST_N None.
Proof.
  apply group_launch_order_independent.
  - apply (bool_decide_eq_true_1 (NoDup _)). vm_compute. reflexivity.
  - symmetry. apply reverse_Permutation.
Defined.
