(* ===== verification/Scope.v ===== *)
(** * analyzerMode scopes

    [core/scope.py]: the hard filter of the [analyze] route and the soft boosts
    of both routes, keyed on the launch and its name. *)

From S2P Require Import Prelude PyFloat PyStr.
From Stdlib Require Import ZArith Lia.

#[local] Open Scope string_scope.
#[local] Open Scope Z_scope.

Definition LAUNCH_BOOST : pyfloat := Eval vm_compute in dec 11 10.

Inductive mode_t := LAUNCH_NAME | CURRENT_AND_THE_SAME_NAME | CURRENT_LAUNCH | PREVIOUS_LAUNCH | ALL.

#[export] Instance mode_eq_dec : EqDecision mode_t.
Proof. solve_decision. Defined.

Definition mode_name (m : mode_t) : string :=
  match m with
  | LAUNCH_NAME => "LAUNCH_NAME"
  | CURRENT_AND_THE_SAME_NAME => "CURRENT_AND_THE_SAME_NAME"
  | CURRENT_LAUNCH => "CURRENT_LAUNCH"
  | PREVIOUS_LAUNCH => "PREVIOUS_LAUNCH"
  | ALL => "ALL"
  end.
Definition _KNOWN_MODES : list mode_t :=
  [LAUNCH_NAME; CURRENT_AND_THE_SAME_NAME; CURRENT_LAUNCH; PREVIOUS_LAUNCH; ALL].

Module ScopeQuery.
Record t := mk {
  project_id : Z; launch_id : Z; launch_name : string; previous_launch_id : Z
}.
End ScopeQuery.

Module ScopeCandidate.
Record t := mk {
  launch_id : Z; launch_name : string; issue_type_group : option string; is_labeled : bool
}.
End ScopeCandidate.

Definition _mode (analyzer_mode : option string) : option mode_t :=
  match analyzer_mode with
  | None => None
  | Some s =>
      let token := str_upper (str_strip s) in
      List.find (fun m => bool_decide (mode_name m = token)) _KNOWN_MODES
  end.

Definition passes_base (cand : ScopeCandidate.t) : bool :=
  ScopeCandidate.is_labeled cand
  && negb (bool_decide (ScopeCandidate.issue_type_group cand = None
                        \/ ScopeCandidate.issue_type_group cand = Some "ti")).

Definition in_analyze_scope (analyzer_mode : option string) (q : ScopeQuery.t)
    (cand : ScopeCandidate.t) : bool :=
  if negb (passes_base cand) then false
  else
    let same_name := bool_decide (ScopeCandidate.launch_name cand = ScopeQuery.launch_name q) in
    let same_launch := ScopeCandidate.launch_id cand =? ScopeQuery.launch_id q in
    match _mode analyzer_mode with
    | Some LAUNCH_NAME => same_name && negb same_launch
    | Some CURRENT_AND_THE_SAME_NAME => same_name
    | Some CURRENT_LAUNCH => same_launch
    | Some PREVIOUS_LAUNCH =>
        ScopeCandidate.launch_id cand =? ScopeQuery.previous_launch_id q
    | Some ALL => negb same_launch
    | None => true
    end.

(** [bool(q.launch_name) and cand.launch_name == q.launch_name]. *)
Definition same_name (q : ScopeQuery.t) (cand : ScopeCandidate.t) : bool :=
  negb (bool_decide (ScopeQuery.launch_name q = ""))
  && bool_decide (ScopeCandidate.launch_name cand = ScopeQuery.launch_name q).
Definition same_launch (q : ScopeQuery.t) (cand : ScopeCandidate.t) : bool :=
  ScopeCandidate.launch_id cand =? ScopeQuery.launch_id q.

(** [if cond: boost *= factor]. *)
Definition boost_if (cond : bool) (factor boost : pyfloat) : pyfloat :=
  if cond then (boost * factor)%F else boost.
Definition unboost_if (cond : bool) (factor boost : pyfloat) : pyfloat :=
  if cond then fquot boost factor else boost.

Definition analyze_boost (analyzer_mode : option string) (q : ScopeQuery.t)
    (cand : ScopeCandidate.t) (launch_boost : pyfloat) : pyfloat :=
  match _mode analyzer_mode with
  | Some CURRENT_AND_THE_SAME_NAME => if same_launch q cand then launch_boost else f1
  | None =>
      boost_if (same_launch q cand) launch_boost (boost_if (same_name q cand) launch_boost f1)
  | Some _ => f1
  end.

Definition suggest_boost (analyzer_mode : option string) (q : ScopeQuery.t)
    (cand : ScopeCandidate.t) (launch_boost : pyfloat) : pyfloat :=
  match _mode analyzer_mode with
  | Some LAUNCH_NAME | Some ALL =>
      unboost_if (same_launch q cand) launch_boost (boost_if (same_name q cand) launch_boost f1)
  | Some PREVIOUS_LAUNCH =>
      boost_if (negb (ScopeQuery.previous_launch_id q =? 0)
                && (ScopeCandidate.launch_id cand =? ScopeQuery.previous_launch_id q))
        launch_boost f1
  | _ =>
      boost_if (same_launch q cand) launch_boost (boost_if (same_name q cand) launch_boost f1)
  end.

(** ** Properties *)

(** The mode is read case-insensitively and round-trips through its name. *)
Lemma mode_roundtrip m : _mode (Some (mode_name m)) = Some m /\
  _mode (Some (str_lower (mode_name m))) = Some m.
Proof. by destruct m. Qed.

(** The analyze filter's table: evidence is always labelled and never [ti];
    [LAUNCH_NAME] and [ALL] never let the item's own launch vouch for itself,
    [LAUNCH_NAME] and [CURRENT_AND_THE_SAME_NAME] stay within the launch name,
    [CURRENT_LAUNCH] within the launch, [PREVIOUS_LAUNCH] within the previous
    one, and a missing or unknown mode filters nothing more. *)
Theorem in_analyze_scope_table (mode : option string) (q : ScopeQuery.t) (c : ScopeCandidate.t) :
  in_analyze_scope mode q c = true <->
  ScopeCandidate.is_labeled c = true
  /\ (exists g, ScopeCandidate.issue_type_group c = Some g /\ g <> "ti")
  /\ match _mode mode with
     | Some LAUNCH_NAME => ScopeCandidate.launch_name c = ScopeQuery.launch_name q
                           /\ ScopeCandidate.launch_id c <> ScopeQuery.launch_id q
     | Some CURRENT_AND_THE_SAME_NAME => ScopeCandidate.launch_name c = ScopeQuery.launch_name q
     | Some CURRENT_LAUNCH => ScopeCandidate.launch_id c = ScopeQuery.launch_id q
     | Some PREVIOUS_LAUNCH => ScopeCandidate.launch_id c = ScopeQuery.previous_launch_id q
     | Some ALL => ScopeCandidate.launch_id c <> ScopeQuery.launch_id q
     | None => True
     end.
Proof.
  assert (passes_base c = true <-> ScopeCandidate.is_labeled c = true
          /\ exists g, ScopeCandidate.issue_type_group c = Some g /\ g <> "ti") as Hbase.
  { unfold passes_base. rewrite andb_true_iff, negb_true_iff, bool_decide_eq_false.
    destruct (ScopeCandidate.issue_type_group c) as [g|].
    - split; intros [? Hg]; split; try done; [exists g; split; [done|]; intros ->; tauto|].
      destruct Hg as (g' & [= ->] & Hg). intros [?|[= ->]]; done.
    - split; intros [? Hg]; split; try done; [tauto|]. by destruct Hg as (? & ? & _). }
  unfold in_analyze_scope. destruct (passes_base c); simpl.
  - destruct (proj1 Hbase eq_refl) as [H1 H2]. destruct (_mode mode) as [[]|];
      rewrite ?andb_true_iff, ?negb_true_iff, ?bool_decide_eq_true, ?Z.eqb_eq, ?Z.eqb_neq; tauto.
  - split; [done|]. intros (H1 & H2 & _). by apply Hbase.
Qed.
