(* ===== verification/Trainer.v ===== *)
(** * Training and calibration

    [ml/trainer.py] and [ml/calibration.py]: training-frame rows, deduplication,
    the feature matrix, the label of a prediction, out-of-fold scores and the
    per-project calibrators.  LightGBM, scikit-learn's isotonic regression and
    [numpy.interp] are parameters ([LightGBM], [Isotonic]). *)

From S2P Require Import Prelude PyFloat FloatQuot PyStr PyJson Features.
From Stdlib Require Import ZArith Lia.

#[local] Open Scope string_scope.
#[local] Open Scope list_scope.
#[local] Open Scope Z_scope.

(** One row of the training frame.  An absent snapshot and an absent label are
    [None]; an absent timestamp too. *)
Module Row.
Record t := mk {
  project_id : Z;
  item_id : Z;
  features : option (list (string * pyfloat));
  new_label : option string;
  ts : option Z
}.
Definition key (r : t) : Z * Z := (project_id r, item_id r).
End Row.
Abbreviation row := Row.t.

#[export] Instance row_eq_dec : EqDecision row.
Proof. solve_decision. Defined.

(** A usable snapshot: [if not features] refuses None and the empty dict. *)
Definition snapshot (r : row) : option (list (string * pyfloat)) :=
  match Row.features r with Some ((_ :: _) as f) => Some f | _ => None end.

Definition base_label (locator : option string) : option string := base_group locator.

Definition CALIB_MIN_EVENTS : Z := 300.
Definition GBM_MIN_EVENTS : Z := 50.
Definition CALIB_FOLDS : Z := 5.

Definition TrainingError : pyexn := OtherError "TrainingError".

(** ** External numerics *)

Class LightGBM := {
  (** [LGBMClassifier.fit]: the booster's text and the class order. *)
  lgb_fit : list (list pyfloat) -> list string -> string * list string;
  (** [Booster.predict] on one vector: a probability per class. *)
  lgb_predict : string -> list pyfloat -> list pyfloat
}.

(** What LightGBM and scikit-learn document of a fitted classifier: the classes
    are the distinct labels, a prediction is a probability per class. *)
Class LightGBMSpec `{LightGBM} := {
  lgb_classes : forall x y c, c ∈ (lgb_fit x y).2 <-> c ∈ y;
  lgb_probs : forall t v, Forall (fun p => in01 p = true) (lgb_predict t v)
}.

Class Isotonic := {
  (** [IsotonicRegression(...).fit]: [X_thresholds_] and [y_thresholds_]. *)
  iso_fit : list pyfloat -> list Z -> list pyfloat * list pyfloat;
  (** [numpy.interp]. *)
  np_interp : pyfloat -> list pyfloat -> list pyfloat -> pyfloat
}.

(** ** Calibration *)

Module IsotonicCalibrator.
Record t := mk { x : list pyfloat; y : list pyfloat }.

Section Ops.
Context `{Isotonic}.

Definition fit (raw : list pyfloat) (correct : list Z) : result t :=
  if Nat.eqb (length raw) (length correct) then
  let '(xs, ys) := iso_fit raw correct in Ok (mk xs ys)
  else Raise ValueError.

Definition predict (c : t) (raw : pyfloat) : pyfloat :=
  match x c with
  | [] => raw
  | _ => clamp01 (np_interp raw (x c) (y c))
  end.
End Ops.

Definition to_bytes (c : t) : json :=
  JObj [("x", JList (JFloat <$> x c)); ("y", JList (JFloat <$> y c))].

(** [tuple(data["x"])]; the knots a fit stored are floats. *)
Definition floats (j : json) : result (list pyfloat) :=
  match j with
  | JList l => rmapM (fun v => match v with JFloat f => Ok f | _ => Raise TypeError end) l
  | _ => Raise TypeError
  end.

Definition from_bytes (blob : json) : result t :=
  match blob with
  | JObj data =>
      xs ← jindex "x" data ≫= floats;
      ys ← jindex "y" data ≫= floats;
      Ok (mk xs ys)
  | _ => Raise TypeError
  end.
End IsotonicCalibrator.
Abbreviation calibrator := IsotonicCalibrator.t.

(** ** Rows to a training set *)

Fixpoint dedup_aux (seen : list (Z * Z)) (rows : list row) : list row :=
  match rows with
  | [] => []
  | r :: rows' =>
      if decide (Row.key r ∈ seen) then dedup_aux seen rows'
      else r :: dedup_aux (Row.key r :: seen) rows'
  end.

Definition _dedup_latest (rows : list row) : list row := dedup_aux [] rows.

(** One example of the training set: its vector, its class and its project. *)
Record example := mk_example { ex_x : list pyfloat; ex_y : string; ex_project : Z }.

Definition example_of (r : row) : option example :=
  match snapshot r with
  | None => None
  | Some features =>
      match base_label (Row.new_label r) with
      | None => None
      | Some label => Some (mk_example (to_vector features) label (Row.project_id r))
      end
  end.

(** [(X, y, projects)], kept as one list of triples: the three lists the code
    appends to in step. *)
Definition build_xy (rows : list row) : list example := omap example_of (_dedup_latest rows).

(** ** The model *)

Module GbmModel.
Record t := mk {
  booster_text : string;
  classes : list string;
  feature_schema_ver : Z;
  model_features : list string
}.

Section Ops.
Context `{LightGBM}.

Definition set_probs (probs : list (string * pyfloat)) (cp : string * pyfloat) :=
  dset cp.1 cp.2 probs.

Definition class_probs (m : t) (vector : list pyfloat) : list (string * pyfloat) :=
  fold_left set_probs (combine (classes m) (lgb_predict (booster_text m) vector))
  ((fun b => (b, f0)) <$> BASE_LABELS).

(** [max(BASE_LABELS, key=probs.get)]: the first label of the largest value. *)
Definition argmax (probs : list (string * pyfloat)) : string :=
  default "" (pymax_list (fun a b => (dgetd b f0 probs <? dgetd a f0 probs)%F) BASE_LABELS).

Definition predict_label (m : t) (vector : list pyfloat)
  : string * pyfloat * list (string * pyfloat) :=
  let probs := class_probs m vector in
  let label := argmax probs in
  (label, dgetd label f0 probs, probs).
End Ops.

Definition strings (l : list string) : json := JList (jstr <$> l).

Definition to_bytes (m : t) : json :=
  JObj [("booster", jstr (booster_text m));
        ("classes", strings (classes m));
        ("feature_schema_ver", JInt (feature_schema_ver m));
        ("feature_names", strings (model_features m))].

(** A blob without feature names was trained on the registry of its schema. *)
Definition from_bytes (blob : json) : result t :=
  match blob with
  | JObj data =>
      text ← jindex "booster" data ≫= as_string;
      cls ← jindex "classes" data ≫= as_strings;
      ver ← jindex "feature_schema_ver" data;
      match ver with
      | JInt v =>
          let names := jget "feature_names" data in
          fs ← (if truthy names then as_strings names else Ok feature_names);
          Ok (mk text cls v fs)
      | _ => Raise TypeError
      end
  | _ => Raise TypeError
  end.
End GbmModel.
Abbreviation gbm := GbmModel.t.

Section Train.
Context `{LightGBM, Isotonic}.

Definition _fit_booster (xs : list (list pyfloat)) (y : list string) : gbm :=
  let '(text, cls) := lgb_fit xs y in
  GbmModel.mk text cls FEATURE_SCHEMA_VER feature_names.

Definition distinct (y : list string) : Z := Z.of_nat (length (remove_dups y)).

Definition train_gbm (rows : list row) : result gbm :=
  let ex := build_xy rows in
  let y := ex_y <$> ex in
  if Z.of_nat (length y) <? GBM_MIN_EVENTS then Raise TrainingError
  else if distinct y <? 2 then Raise TrainingError
  else Ok (_fit_booster (ex_x <$> ex) y).

(** [[i for i in range(n) if i % k == f]] selects the examples of fold [f]. *)
Definition fold_rows (keep : bool) (k f : Z) (ex : list example) : list example :=
  snd <$> List.filter (fun ie => Bool.eqb keep (Z.of_nat ie.1 mod k =? f)) (imap pair ex).

Record oof := mk_oof { oof_raw : pyfloat; oof_correct : Z; oof_project : Z }.

Definition score_example (m : gbm) (e : example) : oof :=
  let '(label, raw, _) := GbmModel.predict_label m (ex_x e) in
  mk_oof raw (if decide (label = ex_y e) then 1 else 0) (ex_project e).

Definition oof_fold (k f : Z) (ex : list example) : list oof :=
  let train := fold_rows false k f ex in
  let test := fold_rows true k f ex in
  match test with
  | [] => []
  | _ =>
      if distinct (ex_y <$> train) <? 2 then []
      else let m := _fit_booster (ex_x <$> train) (ex_y <$> train) in
           score_example m <$> test
  end.

Definition oof_k (k n : Z) : Z := Z.max 2 (Z.min k n).

Definition _oof_scores (k : Z) (rows : list row) : list oof :=
  let ex := build_xy rows in
  match ex with
  | [] => []
  | _ =>
      let k := oof_k k (Z.of_nat (length ex)) in
      flat_map (fun f => oof_fold k f ex) (seqZ 0 k)
  end.

Definition bucket_step (d : list (Z * list oof)) (s : oof) : list (Z * list oof) :=
  dset (oof_project s) (dgetd (oof_project s) [] d ++ [s]) d.

Definition by_project (scores : list oof) : list (Z * list oof) := fold_left bucket_step scores [].

Definition fit_scores (ss : list oof) : result calibrator :=
  IsotonicCalibrator.fit (oof_raw <$> ss) (oof_correct <$> ss).

Fixpoint fit_projects (d : list (Z * list oof)) (out : list (option Z * calibrator))
    : result (list (option Z * calibrator)) :=
  match d with
  | [] => Ok out
  | (pr, ss) :: d' =>
      if CALIB_MIN_EVENTS <=? Z.of_nat (length ss) then
        c ← fit_scores ss; fit_projects d' (dset (Some pr) c out)
      else fit_projects d' out
  end.

(** Keyed by project; [None] is the install-wide calibrator. *)
Definition fit_calibrators (rows : list row) : result (list (option Z * calibrator)) :=
  let scores := _oof_scores CALIB_FOLDS rows in
  match scores with
  | [] => Ok []
  | _ =>
      out ← (if CALIB_MIN_EVENTS <=? Z.of_nat (length scores) then
               c ← fit_scores scores; Ok [(None, c)]
             else Ok []);
      fit_projects (by_project scores) out
  end.
End Train.

(** ** Deduplication keeps the first row of every item *)

Definition same_item (r r' : row) : bool := bool_decide (Row.key r' = Row.key r).

Lemma elem_of_dedup_aux seen rows r :
  r ∈ dedup_aux seen rows <->
  Row.key r ∉ seen /\ List.find (same_item r) rows = Some r.
Proof.
  revert seen. induction rows as [|x rows IH]; intros seen; simpl.
  { rewrite elem_of_nil. split; [done|by intros [_ ?]]. }
  unfold same_item at 1. case_decide as Hseen.
  - rewrite IH. case_bool_decide as Hk; [|done].
    rewrite Hk in Hseen. split; [by intros [? _]|]. by intros [? _].
  - rewrite elem_of_cons, IH, not_elem_of_cons. case_bool_decide as Hk.
    + rewrite <- Hk. split; [intros [->|[[] _]]; done|].
      intros [_ [= ->]]. by left.
    + split; [intros [->|[[? ?] ?]]; done|]. intros [? ?]. right. by split_and!.
Qed.

Lemma dedup_aux_NoDup seen rows :
  NoDup (Row.key <$> dedup_aux seen rows) /\ forall k, k ∈ Row.key <$> dedup_aux seen rows -> k ∉ seen.
Proof.
  split.
  - revert seen. induction rows as [|x rows IH]; intros seen; simpl; [constructor|].
    case_decide as Hseen; [done|]. simpl. constructor; [|done].
    rewrite list_elem_of_fmap. intros (r & Hr & [Hk _]%elem_of_dedup_aux).
    rewrite Hr in Hk. set_solver.
  - intros k (r & -> & [Hk _]%elem_of_dedup_aux)%list_elem_of_fmap. done.
Qed.

(** Deduplication keeps exactly one row per item, the first of the frame: so
    on the newest-first frame the store returns, the item's latest label, and no
    superseded one. *)
Theorem dedup_latest_exact (rows : list row) (r : row) :
  NoDup (Row.key <$> _dedup_latest rows) /\
  (r ∈ _dedup_latest rows <-> List.find (same_item r) rows = Some r) /\
  (StronglySorted (fun a b => default 0 (Row.ts b) <= default 0 (Row.ts a)) rows ->
   r ∈ _dedup_latest rows ->
   forall r', r' ∈ rows -> Row.key r' = Row.key r -> default 0 (Row.ts r') <= default 0 (Row.ts r)).
Proof.
  assert (forall x, x ∈ _dedup_latest rows <-> List.find (same_item x) rows = Some x) as Hiff.
  { intros x. unfold _dedup_latest. rewrite elem_of_dedup_aux. set_solver. }
  split_and!; [apply dedup_aux_NoDup|apply Hiff|].
  rewrite Hiff. clear Hiff. induction 1 as [|x rows Hs IH Hx]; simpl; [done|].
  unfold same_item at 1. case_bool_decide as Hk; intros Hf r' Hr' Hkey.
  - simplify_eq. apply elem_of_cons in Hr' as [->|Hr']; [done|].
    by apply (proj1 (Forall_forall _ _) Hx).
  - apply elem_of_cons in Hr' as [->|Hr']; [done|]. by apply IH.
Qed.

(** ** The training set *)

Lemma example_of_spec r e :
  example_of r = Some e ->
  ex_y e ∈ BASE_LABELS /\ length (ex_x e) = length FEATURES /\ ex_project e = Row.project_id r.
Proof.
  unfold example_of. destruct (snapshot r) as [f|]; [|done].
  destruct (base_label (Row.new_label r)) as [l|] eqn:El; [|done]. intros [= <-]. simpl.
  split_and!; [|done|done].
  by eapply base_group_label.
Qed.

Lemma elem_of_build_xy rows e :
  e ∈ build_xy rows <-> exists r, List.find (same_item r) rows = Some r /\ example_of r = Some e.
Proof.
  unfold build_xy. rewrite list_elem_of_omap. unfold _dedup_latest.
  setoid_rewrite elem_of_dedup_aux. split.
  - intros (r & [_ Hr] & He). eauto.
  - intros (r & Hr & He). exists r. split_and!; [set_solver|done..].
Qed.

Lemma build_xy_labels rows : Forall (fun e => ex_y e ∈ BASE_LABELS) (build_xy rows).
Proof.
  apply Forall_forall. intros e (r & _ & He)%elem_of_build_xy. by apply example_of_spec in He as [? _].
Qed.

(** Every training example comes from the latest row of one item: its label
    is one of the four base groups (never [ti]), its vector has the registry's 64
    columns, and a row without a snapshot or without a base label contributes
    nothing. *)
Theorem build_xy_sound (rows : list row) :
  Forall (fun e => ex_y e ∈ BASE_LABELS /\ length (ex_x e) = 64%nat) (build_xy rows) /\
  (length (build_xy rows) <= length (_dedup_latest rows))%nat /\
  forall e, e ∈ build_xy rows <->
    exists r f l, List.find (same_item r) rows = Some r /\ snapshot r = Some f /\
      base_label (Row.new_label r) = Some l /\ e = mk_example (to_vector f) l (Row.project_id r).
Proof.
  split_and!.
  - apply Forall_forall. intros e (r & _ & He)%elem_of_build_xy.
    apply example_of_spec in He as (? & Hl & _). by rewrite Hl.
  - apply omap_length_le.
  - intros e. rewrite elem_of_build_xy. unfold example_of. split.
    + intros (r & Hr & He). exists r. destruct (snapshot r) as [f|]; [|done].
      destruct (base_label _) as [l|] eqn:El; [|done]. exists f, l. by simplify_eq.
    + intros (r & f & l & Hr & Hf & Hl & ->). exists r. by rewrite Hf, Hl.
Qed.

(** ** The label of a prediction *)

Section Predict.
Context `{LightGBM}.

Lemma set_probs_keys cps probs :
  Forall (fun cp => cp.1 ∈ probs.*1) cps ->
  (fold_left GbmModel.set_probs cps probs).*1 = probs.*1.
Proof.
  revert probs. induction cps as [|[c p] cps IH]; intros probs Hc; simpl; [done|].
  apply Forall_cons in Hc as [Hc Hcs]. simpl in Hc.
  rewrite IH; unfold GbmModel.set_probs; simpl; [by apply dset_keys|].
  by rewrite (dset_keys _ _ _ Hc).
Qed.

Lemma set_probs_Forall (P : pyfloat -> Prop) cps probs :
  Forall (fun cp => P cp.2) cps -> Forall (fun bp => P bp.2) probs ->
  Forall (fun bp => P bp.2) (fold_left GbmModel.set_probs cps probs).
Proof.
  revert probs. induction cps as [|[c p] cps IH]; intros probs Hc Hp; simpl; [done|].
  apply Forall_cons in Hc as [Hc Hcs]. apply IH; [done|]. by apply dset_Forall.
Qed.

Lemma class_probs_Forall (P : pyfloat -> Prop) m v :
  P f0 -> Forall P (lgb_predict (GbmModel.booster_text m) v) ->
  Forall (fun bp => P bp.2) (GbmModel.class_probs m v).
Proof.
  intros H0 Hall. apply set_probs_Forall.
  - apply Forall_forall. intros [c p] Hcp. simpl.
    apply list_elem_of_In, in_combine_r, list_elem_of_In in Hcp.
    by apply (proj1 (Forall_forall _ _) Hall).
  - repeat constructor; done.
Qed.

Lemma dgetd_Forall (P : pyfloat -> Prop) b (d : list (string * pyfloat)) :
  P f0 -> Forall (fun bp => P bp.2) d -> P (dgetd b f0 d).
Proof.
  intros H0 Hd. unfold dgetd. destruct (dget b d) as [p|] eqn:E; [|done].
  apply dget_elem in E. by apply (proj1 (Forall_forall _ _) Hd) in E.
Qed.

Lemma argmax_in probs : GbmModel.argmax probs ∈ BASE_LABELS.
Proof.
  unfold GbmModel.argmax. destruct (pymax_list _ BASE_LABELS) as [b|] eqn:E; [|done].
  by apply pymax_list_in in E.
Qed.

Lemma argmax_ge probs b :
  Forall (fun bp => is_nan bp.2 = false) probs -> b ∈ BASE_LABELS ->
  (dgetd b f0 probs <=? dgetd (GbmModel.argmax probs) f0 probs)%F = true.
Proof.
  intros Hnan Hb.
  assert (forall x, is_nan (dgetd x f0 probs) = false) as Hn
    by (intros x; by apply (dgetd_Forall (fun p => is_nan p = false))).
  apply not_flt_fle; [apply Hn..|].
  apply (pymax_ge (fun a b => (dgetd b f0 probs <? dgetd a f0 probs)%F)); [| | |exact Hb].
  - intros x. apply flt_irrefl.
  - intros x y z Hxy Hyz. apply fle_not_flt.
    eapply fle_trans; apply not_flt_fle; try apply Hn; eassumption.
  - intros x y. apply flt_asym.
Qed.
End Predict.

Lemma predict_label_spec `{LightGBMSpec} (m : gbm) (v : list pyfloat)
    (Hclasses : Forall (fun c => c ∈ BASE_LABELS) (GbmModel.classes m)) :
  let '(label, raw, probs) := GbmModel.predict_label m v in
  label ∈ BASE_LABELS /\ probs.*1 = BASE_LABELS /\ raw = dgetd label f0 probs /\
  in01 raw = true /\ Forall (fun b => (dgetd b f0 probs <=? raw)%F = true) BASE_LABELS.
Proof.
  unfold GbmModel.predict_label. set (probs := GbmModel.class_probs m v).
  assert (Forall (fun bp => in01 bp.2 = true) probs) as H01.
  { apply (class_probs_Forall (fun p => in01 p = true)); [done|apply lgb_probs]. }
  split_and!; [apply argmax_in| |done| |].
  - unfold probs, GbmModel.class_probs. rewrite set_probs_keys; [done|].
    apply Forall_forall. intros [c p] Hcp. simpl.
    apply list_elem_of_In, in_combine_l, list_elem_of_In in Hcp.
    by apply (proj1 (Forall_forall _ _) Hclasses) in Hcp.
  - by apply (dgetd_Forall (fun p => in01 p = true)).
  - apply Forall_forall. intros b Hb. apply argmax_ge; [|done].
    eapply Forall_impl; [exact H01|]. intros bp. apply in01_not_nan.
Qed.

(** A prediction is a full distribution over the four base labels, whatever
    subset the booster was trained on; the reported label is one of them and no
    other label has a larger probability; and the reported confidence is that
    label's probability, in [0,1]. *)
Theorem predict_label_argmax `{LightGBMSpec} (m : gbm) (v : list pyfloat)
    (Hclasses : Forall (fun c => c ∈ BASE_LABELS) (GbmModel.classes m)) :
  let '(label, raw, probs) := GbmModel.predict_label m v in
  label ∈ BASE_LABELS /\ probs.*1 = BASE_LABELS /\ raw = dgetd label f0 probs /\
  in01 raw = true /\ Forall (fun b => (dgetd b f0 probs <=? raw)%F = true) BASE_LABELS.
Proof. by apply predict_label_spec. Qed.

(** A booster that knows two classes and is sure of the second. *)
#[local] Instance toy_lgb : LightGBM := {|
  lgb_fit := fun _ y => ("toy", remove_dups y);
  lgb_predict := fun _ _ => [f0; f1] |}.

#[local] Program Instance toy_lgb_spec : LightGBMSpec.
Next Obligation. intros x y c. simpl. apply elem_of_remove_dups. Qed.
Next Obligation. intros t v. repeat constructor. Qed.

Definition toy_model : gbm := GbmModel.mk "toy" ["ab"; "pb"] FEATURE_SCHEMA_VER feature_names.

Lemma predict_label_argmax_witness :
  GbmModel.predict_label toy_model [] = ("pb", f1, [("pb", f1); ("ab", f0); ("si", f0); ("nd", f0)]) /\
  let '(label, raw, probs) := GbmModel.predict_label toy_model [] in
  label ∈ BASE_LABELS /\ probs.*1 = BASE_LABELS /\ raw = dgetd label f0 probs /\
  in01 raw = true /\ Forall (fun b => (dgetd b f0 probs <=? raw)%F = true) BASE_LABELS.
Proof.
  split; [vm_compute; reflexivity|].
  refine (predict_label_argmax toy_model [] _).
  exact (bool_decide_eq_true_1 (Forall (fun c => c ∈ BASE_LABELS) (GbmModel.classes toy_model)) eq_refl).
Defined.

(** ** Out-of-fold scoring *)

Lemma fold_split (P : nat * example -> bool) (l : list (nat * example)) :
  (snd <$> List.filter (fun ie => Bool.eqb true (P ie)) l) ++
  (snd <$> List.filter (fun ie => Bool.eqb false (P ie)) l) ≡ₚ snd <$> l.
Proof.
  induction l as [|ie l IH]; simpl; [done|]. destruct (P ie); simpl.
  - by constructor.
  - rewrite <- Permutation_middle. by constructor.
Qed.

Lemma imap_snd (ex : list example) : snd <$> imap pair ex = ex.
Proof.
  rewrite fmap_imap. apply list_eq. intros i. rewrite list_lookup_imap.
  by destruct (ex !! i).
Qed.

Lemma fold_rows_complement k f ex : fold_rows true k f ex ++ fold_rows false k f ex ≡ₚ ex.
Proof.
  unfold fold_rows. etrans; [apply (fold_split (fun ie => Z.of_nat ie.1 mod k =? f))|].
  by rewrite imap_snd.
Qed.

(** A row lands in exactly the fold of its index. *)
Lemma flat_map_select {A B} (g : A -> Z) (h : A -> B) (fs : list Z) (l : list A) :
  NoDup fs -> Forall (fun x => g x ∈ fs) l ->
  flat_map (fun f => h <$> List.filter (fun x => Bool.eqb true (g x =? f)) l) fs ≡ₚ h <$> l.
Proof.
  intros Hnd. induction l as [|x l IH]; intros Hl.
  { clear. induction fs; done. }
  apply Forall_cons in Hl as [Hx Hl]. specialize (IH Hl). simpl.
  rewrite <- IH. clear IH Hl.
  induction fs as [|f fs IHf]; [by apply elem_of_nil in Hx|].
  apply NoDup_cons in Hnd as [Hf Hnd]. simpl.
  destruct (g x =? f) eqn:E; simpl.
  - constructor. apply Permutation_app_head.
    assert (forall fs', f ∉ fs' ->
      flat_map (fun f => h <$> List.filter (fun x => Bool.eqb true (g x =? f)) (x :: l)) fs'
      = flat_map (fun f => h <$> List.filter (fun x => Bool.eqb true (g x =? f)) l) fs') as Hrest.
    { induction fs' as [|f' fs' IH']; intros Hf'; [done|]. simpl.
      apply not_elem_of_cons in Hf' as [Hne Hf'].
      replace (g x =? f') with false by lia. simpl. f_equal. by apply IH'. }
    simpl in Hrest. by rewrite Hrest.
  - apply elem_of_cons in Hx as [Heq|Hx]; [by rewrite Heq, Z.eqb_refl in E|].
    rewrite (IHf Hnd Hx). symmetry. apply Permutation_middle.
Qed.

Lemma folds_partition k ex :
  0 < k -> flat_map (fun f => fold_rows true k f ex) (seqZ 0 k) ≡ₚ ex.
Proof.
  intros Hk. etrans.
  - apply (flat_map_select (fun ie => Z.of_nat ie.1 mod k) snd); [apply NoDup_seqZ|].
    apply Forall_forall. intros ie _. apply elem_of_seqZ.
    pose proof (Z.mod_pos_bound (Z.of_nat ie.1) k Hk). lia.
  - by rewrite imap_snd.
Qed.

Section Folds.
Context `{LightGBM}.

Lemma oof_fold_spec k f ex s :
  s ∈ oof_fold k f ex ->
  exists e, e ∈ fold_rows true k f ex /\
    s = score_example (_fit_booster (ex_x <$> fold_rows false k f ex)
                         (ex_y <$> fold_rows false k f ex)) e.
Proof.
  unfold oof_fold. destruct (fold_rows true k f ex) as [|e0 test] eqn:E; [by intros ?%elem_of_nil|].
  destruct (_ <? 2); [by intros ?%elem_of_nil|].
  intros (e & -> & He)%list_elem_of_fmap. eauto.
Qed.

Lemma oof_fold_length k f ex : (length (oof_fold k f ex) <= length (fold_rows true k f ex))%nat.
Proof.
  unfold oof_fold. destruct (fold_rows true k f ex); [done|].
  destruct (_ <? 2); simpl; [lia|]. by rewrite length_fmap.
Qed.

Lemma oof_scores_folds k rows :
  _oof_scores k rows =
  flat_map (fun f => oof_fold (oof_k k (Z.of_nat (length (build_xy rows)))) f (build_xy rows))
    (seqZ 0 (oof_k k (Z.of_nat (length (build_xy rows))))).
Proof.
  unfold _oof_scores. destruct (build_xy rows); [|done].
  symmetry. induction (seqZ 0 _) as [|f fs IH]; [done|]. exact IH.
Qed.

Lemma flat_map_length_le {A B C} (f : A -> list B) (g : A -> list C) l :
  (forall x, length (f x) <= length (g x))%nat ->
  (length (flat_map f l) <= length (flat_map g l))%nat.
Proof. intros Hfg. induction l as [|x l IH]; simpl; [done|]. rewrite !length_app. specialize (Hfg x). lia. Qed.
End Folds.

(** Calibration scores are out of sample: the folds' test rows are exactly
    the training examples, each once; a fold's training rows are exactly the
    examples it does not test; every score of a row comes from a booster fitted on
    the rows of the other folds only; and no row is scored twice. *)
Theorem oof_scores_out_of_fold `{LightGBM} (rows : list row) :
  let ex := build_xy rows in
  let k := oof_k CALIB_FOLDS (Z.of_nat (length ex)) in
  flat_map (fun f => fold_rows true k f ex) (seqZ 0 k) ≡ₚ ex /\
  (forall f, fold_rows true k f ex ++ fold_rows false k f ex ≡ₚ ex) /\
  (length (_oof_scores CALIB_FOLDS rows) <= length ex)%nat /\
  forall s, s ∈ _oof_scores CALIB_FOLDS rows ->
    exists f e, 0 <= f < k /\ e ∈ fold_rows true k f ex /\
      s = score_example (_fit_booster (ex_x <$> fold_rows false k f ex)
                           (ex_y <$> fold_rows false k f ex)) e.
Proof.
  intros ex k. assert (0 < k) as Hk by (unfold k, oof_k; lia).
  split_and!; [by apply folds_partition|intros f; apply fold_rows_complement| |].
  - rewrite oof_scores_folds. fold ex k.
    etrans; [apply (flat_map_length_le _ (fun f => fold_rows true k f ex)); intros f; apply oof_fold_length|].
    by apply Nat.eq_le_incl, Permutation_length, folds_partition.
  - intros s. rewrite oof_scores_folds. fold ex k.
    intros (f & Hf & Hs)%list_elem_of_In%in_flat_map.
    apply list_elem_of_In, elem_of_seqZ in Hf. apply list_elem_of_In, oof_fold_spec in Hs as (e & He & Hs).
    exists f, e. split_and!; [lia|lia|done|done].
Qed.

(** ** Calibrators *)

Definition of_project (p : Z) (ss : list oof) : list oof :=
  List.filter (fun s => oof_project s =? p) ss.

Lemma bucket_fold_dgetd p ss d :
  dgetd p [] (fold_left bucket_step ss d) = dgetd p [] d ++ of_project p ss.
Proof.
  revert d. induction ss as [|s ss IH]; intros d; simpl; [by rewrite app_nil_r|].
  rewrite IH. unfold bucket_step at 1. unfold dgetd at 1.
  destruct (oof_project s =? p) eqn:E.
  - apply Z.eqb_eq in E as <-. rewrite dget_dset_eq. simpl. by rewrite <- (assoc (++)).
  - apply Z.eqb_neq in E. by rewrite dget_dset_ne by done.
Qed.

Lemma bucket_fold_NoDup ss d : NoDup d.*1 -> NoDup (fold_left bucket_step ss d).*1.
Proof.
  revert d. induction ss as [|s ss IH]; intros d Hd; simpl; [done|]. apply IH. by apply dset_NoDup.
Qed.

Lemma by_project_spec ss p :
  dgetd p [] (by_project ss) = of_project p ss /\ NoDup (by_project ss).*1.
Proof.
  split; [apply (bucket_fold_dgetd p ss [])|apply bucket_fold_NoDup; constructor].
Qed.

Section Calib.
Context `{LightGBM, Isotonic}.

Lemma fit_scores_ok ss : exists c, fit_scores ss = Ok c.
Proof.
  unfold fit_scores, IsotonicCalibrator.fit. rewrite !length_fmap, Nat.eqb_refl.
  destruct (iso_fit _ _). eauto.
Qed.

(** The fitted projects are those with enough scores; other keys are kept. *)
Lemma fit_projects_ok d out :
  NoDup d.*1 ->
  exists out', fit_projects d out = Ok out' /\
    forall k, is_Some (dget k out') <->
      is_Some (dget k out) \/
      exists pr ss, k = Some pr /\ dget pr d = Some ss /\ CALIB_MIN_EVENTS <= Z.of_nat (length ss).
Proof.
  revert out. induction d as [|[pr ss] d IH]; intros out Hnd; simpl.
  { exists out. split; [done|]. intros k. split; [by left|]. by intros [?|(? & ? & ? & ? & ?)]. }
  apply NoDup_cons in Hnd as [Hpr Hnd].
  assert (dget pr d = None) as Hnone.
  { destruct (dget pr d) eqn:E; [|done]. destruct Hpr. apply (proj1 (dget_is_Some pr d)). by rewrite E. }
  destruct (CALIB_MIN_EVENTS <=? Z.of_nat (length ss)) eqn:E.
  - destruct (fit_scores_ok ss) as [c ->]. simpl.
    destruct (IH (dset (Some pr) c out) Hnd) as (out' & -> & Hk). exists out'. split; [done|].
    intros k. rewrite Hk. destruct (decide (k = Some pr)) as [->|Hne].
    + rewrite dget_dset_eq. split; [|by left; eauto]. intros _. right. exists pr, ss.
      rewrite decide_True by done. split_and!; [done|done|lia].
    + rewrite dget_dset_ne by done. apply or_iff_compat_l. split.
      * intros (pr' & ss' & -> & Hd & Hl). exists pr', ss'.
        rewrite decide_False by congruence. done.
      * intros (pr' & ss' & -> & Hd & Hl). rewrite decide_False in Hd by congruence. eauto.
  - destruct (IH out Hnd) as (out' & -> & Hk). exists out'. split; [done|].
    intros k. rewrite Hk. apply or_iff_compat_l. split.
    + intros (pr' & ss' & -> & Hd & Hl). exists pr', ss'.
      rewrite decide_False; [done|]. intros ->. by rewrite Hnone in Hd.
    + intros (pr' & ss' & -> & Hd & Hl). case_decide; simplify_eq; [lia|]. eauto.
Qed.

Lemma of_project_length p ss : (length (of_project p ss) <= length ss)%nat.
Proof. apply filter_length_le. Qed.
End Calib.

Lemma fit_calibrators_spec `{LightGBM, Isotonic} (rows : list row) :
  let scores := _oof_scores CALIB_FOLDS rows in
  exists out, fit_calibrators rows = Ok out /\
    (is_Some (dget None out) <-> 300 <= Z.of_nat (length scores)) /\
    (forall p, is_Some (dget (Some p) out) <-> 300 <= Z.of_nat (length (of_project p scores))) /\
    (forall p, is_Some (dget (Some p) out) -> is_Some (dget None out)).
Proof.
  intros scores.
  enough (exists out, fit_calibrators rows = Ok out /\
    (is_Some (dget None out) <-> 300 <= Z.of_nat (length scores)) /\
    (forall p, is_Some (dget (Some p) out) <-> 300 <= Z.of_nat (length (of_project p scores))))
    as (out & Ho & Hn & Hp).
  { exists out. split_and!; [done..|]. intros p Hs%Hp. apply Hn.
    pose proof (of_project_length p scores). lia. }
  unfold fit_calibrators. fold scores. destruct scores as [|s0 ss] eqn:E.
  { exists []. split_and!; [done|..]; [|intros p]; split; simpl; try lia; by intros []. }
  rewrite <- E. clear E. set (base := if _ <=? _ then _ else _).
  assert (exists out0, base = Ok out0 /\ (is_Some (dget None out0) <-> 300 <= Z.of_nat (length scores))
                       /\ forall p, dget (Some p) out0 = None) as (out0 & -> & Hn0 & Hp0).
  { unfold base, CALIB_MIN_EVENTS. destruct (300 <=? _) eqn:El.
    - destruct (fit_scores_ok scores) as [c ->]. simpl. eexists. split_and!; [done| |done].
      split; [lia|]. intros _. simpl. eauto.
    - exists []. split_and!; [done| |done]. split; [by intros []|lia]. }
  simpl. destruct (fit_projects_ok (by_project scores) out0) as (out & -> & Hk).
  { apply (by_project_spec scores 0). }
  exists out. split; [done|]. split; [|intros p]; rewrite Hk.
  - rewrite Hn0. split; [|by left]. intros [?|(? & ? & ? & _)]; done.
  - rewrite Hp0. destruct (by_project_spec scores p) as [Hs _]. unfold dgetd in Hs.
    split.
    + intros [[]|(pr & ss' & [= <-] & Hd & Hl)]; [done|]. rewrite Hd in Hs. simpl in Hs. by rewrite <- Hs.
    + intros Hl. right. rewrite <- Hs in Hl. destruct (dget p (by_project scores)) as [ss'|] eqn:Ed.
      * exists p, ss'. done.
      * simpl in Hl. lia.
Qed.

Lemma fit_projects_NoDup `{LightGBM, Isotonic} d out out' :
  fit_projects d out = Ok out' -> NoDup out.*1 -> NoDup out'.*1.
Proof.
  revert out. induction d as [|[pr ss] d IH]; intros out; simpl; [by intros [= <-]|].
  destruct (_ <=? _); [|apply IH]. intros (c & _ & Hf)%result_bind_Ok Hn.
  eapply IH; [exact Hf|]. by apply dset_NoDup.
Qed.

Lemma fit_calibrators_NoDup `{LightGBM, Isotonic} rows out :
  fit_calibrators rows = Ok out -> NoDup out.*1.
Proof.
  unfold fit_calibrators. destruct (_oof_scores CALIB_FOLDS rows) as [|s ss]; [intros [= <-]; constructor|].
  intros (out0 & Hb & Hf)%result_bind_Ok. eapply fit_projects_NoDup; [exact Hf|].
  destruct (_ <=? _); [|injection Hb as <-; constructor].
  apply result_bind_Ok in Hb as (c & _ & [= <-]). apply NoDup_singleton.
Qed.

(** A project calibrator belongs to a project of the frame. *)
Lemma fit_calibrators_project `{LightGBM, Isotonic} rows out p :
  fit_calibrators rows = Ok out -> Some p ∈ out.*1 -> exists r, r ∈ rows /\ Row.project_id r = p.
Proof.
  intros Hout Hp. destruct (fit_calibrators_spec rows) as (out' & Ho & _ & Hproj & _).
  rewrite Hout in Ho. injection Ho as <-. apply dget_is_Some, Hproj in Hp.
  destruct (of_project p (_oof_scores CALIB_FOLDS rows)) as [|s ss] eqn:E; [simpl in Hp; lia|].
  assert (s ∈ of_project p (_oof_scores CALIB_FOLDS rows)) as Hs by (rewrite E; set_solver).
  apply filterb_elem in Hs as [Hs Hsp]. rewrite oof_scores_folds in Hs.
  apply list_elem_of_In, in_flat_map in Hs as (f & _ & Hs).
  apply list_elem_of_In, oof_fold_spec in Hs as (e & He & ->).
  set (k := oof_k _ _) in *.
  assert (e ∈ build_xy rows) as Hin.
  { rewrite <- (fold_rows_complement k f (build_xy rows)). apply elem_of_app. by left. }
  apply elem_of_build_xy in Hin as (r & Hr & Hex). apply find_Some_elem in Hr as [Hr _].
  exists r. split; [done|]. apply example_of_spec in Hex as (_ & _ & Hpr). rewrite <- Hpr.
  unfold score_example in Hsp. destruct (GbmModel.predict_label _ _) as [[? ?] ?]. simpl in Hsp. lia.
Qed.

(** Fitting calibrators never fails; a project gets its own calibrator
    exactly when at least 300 of its events were scored, and the install-wide one
    exists exactly when at least 300 events were scored in all: so a project
    calibrator never exists without the install-wide fallback. *)
Theorem fit_calibrators_thresholds `{LightGBM, Isotonic} (rows : list row) :
  let scores := _oof_scores CALIB_FOLDS rows in
  exists out, fit_calibrators rows = Ok out /\
    (is_Some (dget None out) <-> 300 <= Z.of_nat (length scores)) /\
    (forall p, is_Some (dget (Some p) out) <-> 300 <= Z.of_nat (length (of_project p scores))) /\
    (forall p, is_Some (dget (Some p) out) -> is_Some (dget None out)).
Proof. apply fit_calibrators_spec. Qed.

Lemma model_from_fields a b v c :
  GbmModel.from_bytes (JObj [("booster", a); ("classes", b); ("feature_schema_ver", JInt v);
                             ("feature_names", c)]) =
  (text ← as_string a; cls ← as_strings b;
   fs ← (if truthy c then as_strings c else Ok feature_names);
   Ok (GbmModel.mk text cls v fs)).
Proof. reflexivity. Qed.

Lemma calibrator_blob c : IsotonicCalibrator.from_bytes (IsotonicCalibrator.to_bytes c) = Ok c.
Proof.
  assert (forall l : list pyfloat, IsotonicCalibrator.floats (JList (JFloat <$> l)) = Ok l) as Hrm.
  { intros l. simpl. induction l as [|f l IH]; csimpl; [done|by rewrite IH]. }
  destruct c as [x y].
  change ((xs ← IsotonicCalibrator.floats (JList (JFloat <$> x));
           ys ← IsotonicCalibrator.floats (JList (JFloat <$> y));
           Ok (IsotonicCalibrator.mk xs ys)) = Ok (IsotonicCalibrator.mk x y)).
  by rewrite !Hrm.
Qed.

Lemma model_blob m :
  GbmModel.from_bytes (GbmModel.to_bytes m) =
    Ok (GbmModel.mk (GbmModel.booster_text m) (GbmModel.classes m) (GbmModel.feature_schema_ver m)
          (match GbmModel.model_features m with [] => feature_names | fs => fs end)).
Proof.
  destruct m as [text cls ver fs].
  unfold GbmModel.to_bytes, GbmModel.strings. rewrite model_from_fields, !as_strings_jstr.
  unfold as_string, jstr. rewrite of_u_u. by destruct fs.
Qed.

(** A fitted calibrator is safe to act on: whatever the interpolation
    returns, the calibrated value is a probability; with no knots the raw score is
    served unchanged; a calibrator and a model read back from their stored blobs
    are the ones that were stored (a model stored without feature names gets the
    registry's). *)
Theorem calibrator_predict_safe `{Isotonic} (c : calibrator) (m : gbm) (raw : pyfloat) :
  (IsotonicCalibrator.x c <> [] -> in01 (IsotonicCalibrator.predict c raw) = true) /\
  (IsotonicCalibrator.x c = [] -> IsotonicCalibrator.predict c raw = raw) /\
  IsotonicCalibrator.from_bytes (IsotonicCalibrator.to_bytes c) = Ok c /\
  GbmModel.from_bytes (GbmModel.to_bytes m) =
    Ok (GbmModel.mk (GbmModel.booster_text m) (GbmModel.classes m) (GbmModel.feature_schema_ver m)
          (match GbmModel.model_features m with [] => feature_names | fs => fs end)).
Proof.
  unfold IsotonicCalibrator.predict. split_and!; [| |apply calibrator_blob|apply model_blob].
  - destruct (IsotonicCalibrator.x c); [done|]. intros _. apply clamp01_in01.
  - by intros ->.
Qed.
