(* ===== verification/MlEval.v ===== *)
(** * Offline replay evaluation

    [ml/eval.py]: the replay-usable events in chronological order, the positional
    train/eval split, scoring from stored snapshots, and the metrics of a report.
    [numpy.mean] is a parameter. *)

From S2P Require Import Prelude PyFloat FloatQuot PyStr PyJson Features Decision Trainer.
From Stdlib Require Import ZArith Lia.

#[local] Open Scope string_scope.
#[local] Open Scope list_scope.
#[local] Open Scope Z_scope.

Class NpMean := { np_mean : list pyfloat -> pyfloat }.

Definition ECE_BINS : Z := 10.

(** ** Event selection and the split *)

Definition _is_usable (r : row) : bool :=
  match snapshot r, base_group (Row.new_label r) with Some _, Some _ => true | _, _ => false end.

(** [_ts_key]: an absent timestamp is the integer 0, which Python refuses to
    order against a datetime. *)
Definition _ts_key (r : row) : option Z := Row.ts r.

Definition ts_ge (a b : option Z) : result bool :=
  match a, b with
  | Some x, Some y => Ok (y <=? x)
  | None, None => Ok true
  | _, _ => Raise TypeError
  end.

Definition latest_step (latest : list ((Z * Z) * row)) (r : row) : result (list ((Z * Z) * row)) :=
  if _is_usable r then
    match dget (Row.key r) latest with
    | None => Ok (dset (Row.key r) r latest)
    | Some cur =>
        newer ← ts_ge (_ts_key r) (_ts_key cur);
        Ok (if newer : bool then dset (Row.key r) r latest else latest)
    end
  else Ok latest.

Fixpoint latest_loop (rows : list row) (latest : list ((Z * Z) * row)) :=
  match rows with
  | [] => Ok latest
  | r :: rows' => latest' ← latest_step latest r; latest_loop rows' latest'
  end.

(** The sort key [(ts, item_id)]. *)
Definition event_leb (a b : row) : bool :=
  let ta := default 0 (_ts_key a) in let tb := default 0 (_ts_key b) in
  (ta <? tb) || ((ta =? tb) && (Row.item_id a <=? Row.item_id b)).

(** Sorting rows with and without a timestamp together raises: some comparison
    of the sort meets one of each. *)
Definition mixed_ts (l : list row) : bool :=
  existsb (fun r => bool_decide (is_Some (_ts_key r))) l &&
  existsb (fun r => bool_decide (_ts_key r = None)) l.

Definition usable_events (rows : list row) : result (list row) :=
  latest ← latest_loop rows [];
  if mixed_ts latest.*2 then Raise TypeError else Ok (pysorted event_leb latest.*2).

(** [int(x)]: NaN and the infinities raise. *)
Definition py_int (x : pyfloat) : result Z :=
  match x with
  | S754_nan => Raise ValueError
  | S754_infinity _ => Raise (OtherError "OverflowError")
  | _ => Ok (trunc x)
  end.

Definition chronological_split (events : list row) (train_frac : pyfloat)
    : result (list row * list row) :=
  split ← py_int (of_Z (Z.of_nat (length events)) * train_frac)%F;
  Ok (take (slice_at split events) events, drop (slice_at split events) events).

Definition TRAIN_FRAC : pyfloat := Eval vm_compute in dec 8 10.

(** ** Scoring *)

Module Prediction.
Record t := mk { true : string; pred : string; p_star : pyfloat }.
Definition correct (p : t) : bool := bool_decide (true p = pred p).
End Prediction.
Abbreviation prediction := Prediction.t.

Section Score.
Context `{LightGBM, Isotonic}.

Definition score_event (m : gbm) (cal : option calibrator) (e : row) : result prediction :=
  match Row.features e with
  | None => Raise (KeyError "features")
  | Some f =>
      let '(label, raw, _) := GbmModel.predict_label m (to_vector f) in
      let p := match cal with Some c => IsotonicCalibrator.predict c raw | None => raw end in
      Ok (Prediction.mk (default "" (base_group (Row.new_label e))) label p)
  end.

Definition score_events (m : gbm) (events : list row) (cal : option calibrator)
  : result (list prediction) := rmapM (score_event m cal) events.
End Score.

(** ** Metrics *)

Module LabelPRF.
Record t := mk { precision : pyfloat; recall : pyfloat; f1 : pyfloat; support : Z }.
End LabelPRF.

Module EvalReport.
Record t := mk {
  n_eval : Z;
  per_label : list (string * LabelPRF.t);
  macro_f1 : pyfloat;
  abstain_rate : pyfloat;
  acceptance_rate : pyfloat;
  auto_band_precision : option pyfloat;
  auto_band_support : Z;
  ece : pyfloat
}.

Definition opt_float (o : option pyfloat) : json :=
  match o with Some f => JFloat f | None => JNull end.

Definition to_dict (r : t) : json :=
  JObj [("n_eval", JInt (n_eval r));
        ("macro_f1", JFloat (macro_f1 r));
        ("abstain_rate", JFloat (abstain_rate r));
        ("acceptance_rate", JFloat (acceptance_rate r));
        ("auto_band_precision", opt_float (auto_band_precision r));
        ("auto_band_support", JInt (auto_band_support r));
        ("ece", JFloat (ece r));
        ("per_label", JObj ((fun lp => (lp.1, JObj [
           ("precision", JFloat (LabelPRF.precision lp.2));
           ("recall", JFloat (LabelPRF.recall lp.2));
           ("f1", JFloat (LabelPRF.f1 lp.2));
           ("support", JInt (LabelPRF.support lp.2))])) <$> per_label r))].
End EvalReport.
Abbreviation report := EvalReport.t.

Definition count {A} (f : A -> bool) (l : list A) : Z := Z.of_nat (length (List.filter f l)).

(** [a / b if b else 0.0] on counts. *)
Definition ratio (a b : Z) : pyfloat := if b =? 0 then f0 else int_quot a b.

Definition is_label (l s : string) : bool := bool_decide (s = l).

Definition _prf (preds : list prediction) (label : string) : LabelPRF.t :=
  let tp := count (fun p => is_label label (Prediction.pred p) && is_label label (Prediction.true p)) preds in
  let fp := count (fun p => is_label label (Prediction.pred p) && negb (is_label label (Prediction.true p))) preds in
  let fn := count (fun p => negb (is_label label (Prediction.pred p)) && is_label label (Prediction.true p)) preds in
  let prec := ratio tp (tp + fp) in
  let rec := ratio tp (tp + fn) in
  let f1 := if is_zero (prec + rec)%F then f0
            else fquot (of_Z 2 * prec * rec)%F (prec + rec)%F in
  LabelPRF.mk prec rec f1 (tp + fn).

Definition in_bin (bins b : Z) (p : prediction) : bool :=
  let lo := int_quot b bins in
  let hi := int_quot (b + 1) bins in
  let s := Prediction.p_star p in
  ((lo <=? s)%F && (s <? hi)%F) || ((b =? bins - 1) && (s =? hi)%F).

Definition ece_step (preds : list prediction) (bins : Z) (total : pyfloat) (b : Z) : pyfloat :=
  match List.filter (in_bin bins b) preds with
  | [] => total
  | inb =>
      let n := Z.of_nat (length inb) in
      let conf := fquot (py_sum (Prediction.p_star <$> inb)) (of_Z n) in
      let acc := int_quot (count Prediction.correct inb) n in
      (total + int_quot n (Z.of_nat (length preds)) * fabs (acc - conf))%F
  end.

Definition _ece (preds : list prediction) (bins : Z) : pyfloat :=
  match preds with
  | [] => f0
  | _ => fold_left (ece_step preds bins) (seqZ 0 bins) f0
  end.

Definition abstained (p : prediction) : bool := (Prediction.p_star p <? TAU_SUGGEST)%F.
Definition non_abstained (p : prediction) : bool := (TAU_SUGGEST <=? Prediction.p_star p)%F.
Definition auto_band (p : prediction) : bool := (TAU_AUTO <=? Prediction.p_star p)%F.

Section Report.
Context `{NpMean}.

Definition report_from_predictions (preds : list prediction) : report :=
  let n := Z.of_nat (length preds) in
  let per_label := (fun l => (l, _prf preds l)) <$> BASE_LABELS in
  let non := List.filter non_abstained preds in
  let auto := List.filter auto_band preds in
  {| EvalReport.n_eval := n;
     EvalReport.per_label := per_label;
     EvalReport.macro_f1 := if n =? 0 then f0
                            else np_mean ((fun lp => LabelPRF.f1 lp.2) <$> per_label);
     EvalReport.abstain_rate := ratio (count abstained preds) n;
     EvalReport.acceptance_rate := ratio (count Prediction.correct non) (Z.of_nat (length non));
     EvalReport.auto_band_precision :=
       match auto with
       | [] => None
       | _ => Some (int_quot (count Prediction.correct auto) (Z.of_nat (length auto)))
       end;
     EvalReport.auto_band_support := Z.of_nat (length auto);
     EvalReport.ece := _ece preds ECE_BINS |}.

Definition evaluate `{LightGBM, Isotonic} (m : gbm) (events : list row) (cal : option calibrator)
    : result report :=
  preds ← score_events m events cal; Ok (report_from_predictions preds).
End Report.

(** ** The latest usable event of every item *)

Definition has_ts (r : row) : Prop := is_Some (Row.ts r).
Definition ts_of (r : row) : Z := default 0 (Row.ts r).

(** What [latest] holds after the rows [seen]: usable rows of [seen], at most one
    per item, none older than a usable row of the same item. *)
Record latest_inv (seen : list row) (latest : list ((Z * Z) * row)) : Prop := {
  li_keys : NoDup latest.*1;
  li_from : forall k r, (k, r) ∈ latest -> k = Row.key r /\ r ∈ seen /\ _is_usable r = true;
  li_latest : forall r, r ∈ seen -> _is_usable r = true ->
    exists e, dget (Row.key r) latest = Some e /\ ts_of r <= ts_of e
}.

Lemma ts_ge_ok a b : has_ts a -> has_ts b -> ts_ge (_ts_key a) (_ts_key b) = Ok (ts_of b <=? ts_of a).
Proof. unfold has_ts, _ts_key, ts_of. by intros [x ->] [y ->]. Qed.

Lemma dset_elem_inv {K V} `{EqDecision K} (k : K) (v : V) d k' v' :
  (k', v') ∈ dset k v d -> (k' = k /\ v' = v) \/ (k', v') ∈ d.
Proof.
  induction d as [|[k0 v0] d IH]; simpl.
  - rewrite list_elem_of_singleton. intros [= -> ->]. by left.
  - case_decide; subst; rewrite !elem_of_cons; [intros [[= -> ->]|?]; tauto|].
    intros [?|[?|?]%IH]; tauto.
Qed.

Lemma latest_dset seen latest r :
  latest_inv seen latest -> _is_usable r = true ->
  (forall e, dget (Row.key r) latest = Some e -> ts_of e <= ts_of r) ->
  latest_inv (seen ++ [r]) (dset (Row.key r) r latest).
Proof.
  intros [Hk Hf Hl] Hu Hnew. split.
  - by apply dset_NoDup.
  - intros k x [[-> ->]|Hx]%dset_elem_inv; [set_solver|]. apply Hf in Hx as (? & ? & ?). set_solver.
  - intros x [Hx|Hx%list_elem_of_singleton]%elem_of_app Hux; [|subst x].
    + destruct (Hl x Hx Hux) as (e & He & Hle). destruct (decide (Row.key r = Row.key x)) as [E|E].
      * rewrite <- E, dget_dset_eq. exists r. split; [done|]. rewrite <- E in He.
        specialize (Hnew _ He). lia.
      * rewrite dget_dset_ne by done. eauto.
    + rewrite dget_dset_eq. by exists r.
Qed.

Lemma latest_keep seen latest r :
  latest_inv seen latest ->
  (_is_usable r = true -> exists e, dget (Row.key r) latest = Some e /\ ts_of r <= ts_of e) ->
  latest_inv (seen ++ [r]) latest.
Proof.
  intros [Hk Hf Hl] Hr. split; [done| |].
  - intros k x Hx. apply Hf in Hx as (? & ? & ?). set_solver.
  - intros x [Hx|Hx%list_elem_of_singleton]%elem_of_app Hux; [|subst x]; auto.
Qed.

Lemma latest_step_ok seen latest r :
  Forall has_ts (seen ++ [r]) -> latest_inv seen latest ->
  exists latest', latest_step latest r = Ok latest' /\ latest_inv (seen ++ [r]) latest'.
Proof.
  intros [Hseen [Hr _]%Forall_cons]%Forall_app Hinv. unfold latest_step.
  destruct (_is_usable r) eqn:Hu; [|eexists; split; [done|by apply latest_keep; [|rewrite Hu]]].
  destruct (dget (Row.key r) latest) as [cur|] eqn:Ec.
  - assert (has_ts cur) as Hcur.
    { apply dget_elem, (li_from _ _ Hinv) in Ec as (_ & Hin & _).
      by apply (proj1 (Forall_forall _ _) Hseen). }
    rewrite ts_ge_ok by done. simpl. eexists. split; [done|].
    destruct (ts_of cur <=? ts_of r) eqn:E.
    + apply latest_dset; [done..|]. intros e He. simplify_eq. lia.
    + apply latest_keep; [done|]. intros _. exists cur. split; [done|lia].
  - eexists. split; [done|]. apply latest_dset; [done..|]. intros e He. by rewrite Ec in He.
Qed.

Lemma latest_loop_ok seen rows latest :
  Forall has_ts (seen ++ rows) -> latest_inv seen latest ->
  exists latest', latest_loop rows latest = Ok latest' /\ latest_inv (seen ++ rows) latest'.
Proof.
  revert seen latest. induction rows as [|r rows IH]; intros seen latest Hts Hinv.
  - rewrite app_nil_r. by exists latest.
  - replace (seen ++ r :: rows) with ((seen ++ [r]) ++ rows) in * by (by rewrite <- (assoc (++))).
    simpl.
    destruct (latest_step_ok seen latest r) as (l1 & -> & Hinv1); [by apply Forall_app in Hts as [? _]|done|].
    simpl. by apply IH.
Qed.

Lemma event_leb_total a b : event_leb a b = false -> event_leb b a = true.
Proof. unfold event_leb. lia. Qed.
Lemma event_leb_trans a b c : event_leb a b = true -> event_leb b c = true -> event_leb a c = true.
Proof. unfold event_leb. lia. Qed.

Lemma mixed_ts_false l : Forall has_ts l -> mixed_ts l = false.
Proof.
  intros Hl. unfold mixed_ts. apply andb_false_iff. right. apply not_true_is_false.
  rewrite existsb_exists. intros (r & Hr & Hn). bprop.
  apply list_elem_of_In, (proj1 (Forall_forall _ _) Hl) in Hr. unfold has_ts, _ts_key in *.
  rewrite Hn in Hr. by destruct Hr.
Qed.

Lemma usable_events_ok rows :
  Forall has_ts rows ->
  exists latest, usable_events rows = Ok (pysorted event_leb latest.*2) /\ latest_inv rows latest.
Proof.
  intros Hts. destruct (latest_loop_ok [] rows []) as (latest & Hl & Hinv); [done| |].
  { split; [constructor|by intros ? ? ?%elem_of_nil|by intros ? ?%elem_of_nil]. }
  exists latest. split; [|done]. unfold usable_events. rewrite Hl. simpl.
  rewrite mixed_ts_false; [done|]. apply Forall_forall.
  intros r ([k x] & -> & Hx)%list_elem_of_fmap. apply (li_from _ _ Hinv) in Hx as (_ & Hin & _).
  by apply (proj1 (Forall_forall _ _) Hts).
Qed.

Lemma latest_keys seen latest : latest_inv seen latest -> Row.key <$> latest.*2 = latest.*1.
Proof.
  intros [_ Hf _]. induction latest as [|[k r] l IH]; [done|]. csimpl. f_equal.
  - symmetry. apply (Hf k r). by left.
  - apply IH. intros k' r' Hin. apply Hf. by right.
Qed.

Lemma ts_sorted l : StronglySorted (fun a b => event_leb a b = true) l ->
  StronglySorted (fun a b => ts_of a <= ts_of b) l.
Proof.
  induction 1 as [|x l Hs IH Hx]; constructor; [done|].
  eapply Forall_impl; [exact Hx|]. simpl. unfold event_leb, ts_of, _ts_key. lia.
Qed.

Lemma StronglySorted_app_le {A} (R : A -> A -> Prop) l1 l2 :
  StronglySorted R (l1 ++ l2) -> forall a b, a ∈ l1 -> b ∈ l2 -> R a b.
Proof.
  induction l1 as [|x l1 IH]; simpl; intros Hs a b Ha Hb; [by apply elem_of_nil in Ha|].
  inversion Hs as [|? ? Hs' Hall]; subst. apply elem_of_cons in Ha as [->|Ha]; [|by apply IH].
  apply (proj1 (Forall_forall _ _) Hall). set_solver.
Qed.

(** On rows that carry timestamps the replay events are exactly one usable
    event per item, none older than any usable event of its item, in
    chronological order; and the positional split cuts them without loss, so
    that no training event is later than an evaluation event and no item is on
    both sides. *)
Theorem replay_split_chronological (rows : list row) (frac : pyfloat)
    (Hts : Forall has_ts rows) :
  exists events, usable_events rows = Ok events /\
    NoDup (Row.key <$> events) /\
    Forall (fun e => e ∈ rows /\ _is_usable e = true) events /\
    (forall r, r ∈ rows -> _is_usable r = true ->
       exists e, e ∈ events /\ Row.key e = Row.key r /\ ts_of r <= ts_of e) /\
    (forall train eval, chronological_split events frac = Ok (train, eval) ->
       train ++ eval = events /\
       (forall a b, a ∈ train -> b ∈ eval -> ts_of a <= ts_of b /\ Row.key a <> Row.key b)).
Proof.
  destruct (usable_events_ok rows Hts) as (latest & -> & Hinv). eexists. split; [done|].
  assert (NoDup (Row.key <$> pysorted event_leb latest.*2)) as Hnd.
  { rewrite pysorted_perm, (latest_keys _ _ Hinv). apply (li_keys _ _ Hinv). }
  split_and!; [done| | |].
  - apply Forall_forall. intros e He. rewrite elem_of_pysorted in He.
    apply list_elem_of_fmap in He as ([k x] & -> & Hx). by apply (li_from _ _ Hinv) in Hx as [_ ?].
  - intros r Hr Hu. destruct (li_latest _ _ Hinv r Hr Hu) as (e & He & Hle).
    apply dget_elem in He. exists e. split_and!; [|by apply (li_from _ _ Hinv) in He as [<- _]|done].
    apply elem_of_pysorted, list_elem_of_fmap. by exists (Row.key r, e).
  - intros train eval. unfold chronological_split. intros (z & _ & [= <- <-])%result_bind_Ok.
    split; [apply take_drop|]. intros a b Ha Hb.
    rewrite <- (take_drop (slice_at z (pysorted event_leb latest.*2)) (pysorted event_leb latest.*2)) in Hnd.
    split.
    + refine (StronglySorted_app_le (fun a b => ts_of a <= ts_of b) _ _ _ a b Ha Hb). rewrite take_drop.
      apply ts_sorted, pysorted_sorted; [apply event_leb_total|apply event_leb_trans].
    + rewrite fmap_app in Hnd. apply NoDup_app in Hnd as (_ & Hd & _). intros E.
      apply (Hd (Row.key a)); [by apply list_elem_of_fmap_2|]. rewrite E. by apply list_elem_of_fmap_2.
Qed.

Definition wrow (item ts : Z) (label : string) : row :=
  Row.mk 7 item (Some [("top1_cos", f1)]) (Some label) (Some ts).

Lemma replay_split_chronological_witness :
  usable_events [wrow 2 30 "ab001"; wrow 1 10 "pb001"; wrow 1 20 "si001"]
    = Ok [wrow 1 20 "si001"; wrow 2 30 "ab001"] /\
  chronological_split [wrow 1 20 "si001"; wrow 2 30 "ab001"] TRAIN_FRAC
    = Ok ([wrow 1 20 "si001"], [wrow 2 30 "ab001"]) /\
  exists events, usable_events [wrow 2 30 "ab001"; wrow 1 10 "pb001"; wrow 1 20 "si001"] = Ok events /\
    NoDup (Row.key <$> events) /\
    Forall (fun e => e ∈ [wrow 2 30 "ab001"; wrow 1 10 "pb001"; wrow 1 20 "si001"]
                     /\ _is_usable e = true) events /\
    (forall r, r ∈ [wrow 2 30 "ab001"; wrow 1 10 "pb001"; wrow 1 20 "si001"] -> _is_usable r = true ->
       exists e, e ∈ events /\ Row.key e = Row.key r /\ ts_of r <= ts_of e) /\
    (forall train eval, chronological_split events TRAIN_FRAC = Ok (train, eval) ->
       train ++ eval = events /\
       (forall a b, a ∈ train -> b ∈ eval -> ts_of a <= ts_of b /\ Row.key a <> Row.key b)).
Proof.
  split; [vm_compute; reflexivity|]. split; [vm_compute; reflexivity|].
  refine (replay_split_chronological [wrow 2 30 "ab001"; wrow 1 10 "pb001"; wrow 1 20 "si001"]
            TRAIN_FRAC _).
  repeat (apply Forall_cons_2; [eexists; reflexivity|]). apply Forall_nil_2.
Defined.

(** The default split is total and cuts at four fifths, for every slice up to
    4,096 events. *)
Definition split_exact (n : Z) : bool :=
  match py_int (of_Z n * TRAIN_FRAC)%F with Ok k => k =? 4 * n / 5 | Raise _ => false end.

Lemma split_exact_upto : forallb split_exact (seqZ 0 4097) = true.
Proof. vm_compute. reflexivity. Qed.

(** An item whose label was corrected to [ti]: the trainer drops it, the replay
    slice keeps its superseded label. *)
Lemma replay_keeps_superseded_label :
  let newest_first := [wrow 1 20 "ti001"; wrow 1 10 "pb001"] in
  usable_events newest_first = Ok [wrow 1 10 "pb001"] /\ build_xy newest_first = [].
Proof. split; vm_compute; reflexivity. Qed.

(** ** Metrics *)

Lemma count_le {A} (f g : A -> bool) l :
  (forall x, f x = true -> g x = true) -> 0 <= count f l <= count g l.
Proof.
  intros Hfg. unfold count. split; [lia|]. induction l as [|x l IH]; simpl; [lia|].
  specialize (Hfg x). destruct (f x), (g x); simpl; lia.
Qed.

Lemma count_filter {A} (f g : A -> bool) l :
  count f (List.filter g l) = count (fun x => f x && g x) l.
Proof.
  unfold count. f_equal. induction l as [|x l IH]; simpl; [done|].
  destruct (g x); simpl; [destruct (f x)|rewrite andb_false_r]; simpl; by rewrite ?IH.
Qed.

Lemma count_all {A} (l : list A) : count (fun _ => true) l = Z.of_nat (length l).
Proof. unfold count. f_equal. induction l as [|x l IH]; simpl; [done|by rewrite IH]. Qed.

Lemma ratio_in01 a b : 0 <= a <= b -> in01 (ratio a b) = true.
Proof.
  intros Hab. unfold ratio. destruct (b =? 0) eqn:E; [done|]. apply int_quot_in01; lia.
Qed.

Lemma count_split {A} (f g h : A -> bool) l :
  (forall x, f x = xorb (g x) (h x)) -> (forall x, g x && h x = false) ->
  count f l = count g l + count h l.
Proof.
  intros Hx Hd. unfold count. induction l as [|x l IH]; simpl; [done|].
  rewrite (Hx x). specialize (Hd x). destruct (g x), (h x); simpl in *; try done; lia.
Qed.

(** ** The calibration bins *)

Lemma bin_edge_mono (a b : Z) : 0 <= a <= b -> b <= 10 ->
  (int_quot a 10 <=? int_quot b 10)%F = true.
Proof.
  intros Ha Hb.
  assert (forallb (fun a => forallb (fun b => (b <? a) || (int_quot a 10 <=? int_quot b 10)%F) (seqZ 0 11))
            (seqZ 0 11) = true) as Hall by (vm_compute; reflexivity).
  rewrite forallb_forall in Hall. specialize (Hall a ltac:(apply list_elem_of_In, elem_of_seqZ; lia)).
  rewrite forallb_forall in Hall. specialize (Hall b ltac:(apply list_elem_of_In, elem_of_seqZ; lia)).
  apply orb_true_iff in Hall as [?|?]; [lia|done].
Qed.

(** Membership in a bin, as bounds on the score. *)
Lemma in_bin_bounds b p : 0 <= b < 10 -> in_bin 10 b p = true ->
  (int_quot b 10 <=? Prediction.p_star p)%F = true /\
  ((Prediction.p_star p <? int_quot (b + 1) 10)%F = true \/ b = 9).
Proof.
  intros Hb. unfold in_bin. rewrite orb_true_iff, !andb_true_iff.
  intros [[? ?]|[E Hs]]; [tauto|]. assert (b = 9) as -> by lia. split; [|by right].
  apply feq_fle in Hs as [_ Hs]. eapply fle_trans; [|exact Hs]. by apply bin_edge_mono.
Qed.

(** The ten calibration bins cut the unit interval without gap or overlap:
    every calibrated probability, the end points included, falls into exactly one
    bin. *)
Theorem ece_bins_partition (p : prediction) (Hp : in01 (Prediction.p_star p) = true) :
  exists b, 0 <= b < ECE_BINS /\ in_bin ECE_BINS b p = true /\
    forall b', 0 <= b' < ECE_BINS -> in_bin ECE_BINS b' p = true -> b' = b.
Proof.
  set (s := Prediction.p_star p) in *. unfold ECE_BINS.
  assert (is_nan s = false) as Hnan by by apply in01_not_nan.
  assert (forall k : nat, (k <= 10)%nat ->
    (exists b, 0 <= b < Z.of_nat k /\ (int_quot b 10 <=? s)%F = true /\ (s <? int_quot (b + 1) 10)%F = true)
    \/ (int_quot (Z.of_nat k) 10 <=? s)%F = true) as Hscan.
  { induction k as [|k IH]; intros Hk; [right; by apply andb_true_iff in Hp as [? _]|].
    destruct IH as [(b & ? & ? & ?)|Hlo]; [lia|left; exists b; split_and!; try done; lia|].
    destruct (s <? int_quot (Z.of_nat (S k)) 10)%F eqn:E.
    - left. exists (Z.of_nat k). split_and!; [lia|lia|done|].
      by replace (Z.of_nat k + 1) with (Z.of_nat (S k)) by lia.
    - right. apply not_flt_fle; [done| |done].
      assert (0 <= Z.of_nat (S k) <= 10) as Hr by lia.
      apply in01_not_nan, int_quot_in01; lia. }
  assert (forall b b', 0 <= b < 10 -> 0 <= b' < 10 -> in_bin 10 b p = true -> in_bin 10 b' p = true -> b' <= b) as Hle.
  { intros b b' Hb Hb' [_ Hhi]%in_bin_bounds [Hlo _]%in_bin_bounds; [|lia..].
    destruct Hhi as [Hhi| ->]; [|lia]. destruct (Z.le_gt_cases b' b) as [|Hgt]; [done|]. exfalso.
    assert (int_quot (b + 1) 10 <=? int_quot b' 10 = true)%F as Hm by (apply bin_edge_mono; lia).
    pose proof (fle_trans _ _ _ Hm Hlo) as Ht. by rewrite (flt_not_fle _ _ Hhi) in Ht. }
  assert (exists b, 0 <= b < 10 /\ in_bin 10 b p = true) as (b & Hb & Hin).
  { destruct (Hscan 10%nat) as [(b & Hb & Hlo & Hhi)|Htop]; [lia| |].
    - exists b. split; [lia|]. unfold in_bin. fold s. by rewrite Hlo, Hhi.
    - exists 9. split; [lia|]. unfold in_bin. fold s. apply orb_true_iff. right.
      apply andb_true_iff. split; [done|]. change (int_quot (9 + 1) 10) with f1.
      change (int_quot (Z.of_nat 10) 10) with f1 in Htop. apply andb_true_iff in Hp as [_ Hhi].
      by apply feq_fle. }
  exists b. split_and!; [lia|lia|done|]. intros b' Hb' Hin'.
  apply Z.le_antisymm; by apply Hle.
Qed.

Lemma ece_bins_partition_witness :
  in_bin ECE_BINS 7 (Prediction.mk "pb" "pb" (dec 75 100)) = true /\
  exists b, 0 <= b < ECE_BINS /\ in_bin ECE_BINS b (Prediction.mk "pb" "pb" (dec 75 100)) = true /\
    forall b', 0 <= b' < ECE_BINS ->
      in_bin ECE_BINS b' (Prediction.mk "pb" "pb" (dec 75 100)) = true -> b' = b.
Proof.
  split; [vm_compute; reflexivity|].
  exact (ece_bins_partition (Prediction.mk "pb" "pb" (dec 75 100)) eq_refl).
Defined.

(** ** The report *)

Lemma auto_band_suggests p : auto_band p = true -> non_abstained p = true.
Proof. unfold auto_band, non_abstained. intros Hp. by eapply fle_trans; [|exact Hp]. Qed.

Lemma prf_support preds l : LabelPRF.support (_prf preds l) = count (fun p => is_label l (Prediction.true p)) preds.
Proof.
  unfold _prf. simpl. symmetry. apply count_split; intros x;
    by destruct (is_label l (Prediction.pred x)), (is_label l (Prediction.true x)).
Qed.

Lemma prf_bounds preds l :
  in01 (LabelPRF.precision (_prf preds l)) = true /\ in01 (LabelPRF.recall (_prf preds l)) = true.
Proof. unfold _prf. simpl. split; apply ratio_in01; unfold count; lia. Qed.

Lemma count_filter_le {A} (f g : A -> bool) l :
  0 <= count f (List.filter g l) <= Z.of_nat (length (List.filter g l)).
Proof. rewrite <- (count_all (List.filter g l)). by apply count_le. Qed.

(** Whatever the predictions, a report is well formed: a line per base label
    with precision and recall in [0,1] and the true support; abstain and
    acceptance rates in [0,1]; an auto-band precision exactly when the auto band
    is non-empty, in [0,1]; the auto band inside the non-abstained predictions;
    and abstained and non-abstained predictions add up when no score is NaN. *)
Theorem report_well_formed `{NpMean} (preds : list prediction) :
  let r := report_from_predictions preds in
  EvalReport.n_eval r = Z.of_nat (length preds) /\
  (EvalReport.per_label r).*1 = BASE_LABELS /\
  Forall (fun lp => in01 (LabelPRF.precision lp.2) = true /\ in01 (LabelPRF.recall lp.2) = true /\
            LabelPRF.support lp.2 = count (fun p => is_label lp.1 (Prediction.true p)) preds)
    (EvalReport.per_label r) /\
  in01 (EvalReport.abstain_rate r) = true /\ in01 (EvalReport.acceptance_rate r) = true /\
  (EvalReport.auto_band_precision r = None <-> EvalReport.auto_band_support r = 0) /\
  (forall x, EvalReport.auto_band_precision r = Some x -> in01 x = true) /\
  0 <= EvalReport.auto_band_support r <= count non_abstained preds /\
  (Forall (fun p => is_nan (Prediction.p_star p) = false) preds ->
     count abstained preds + count non_abstained preds = EvalReport.n_eval r).
Proof.
  intros r. split_and!.
  - done.
  - done.
  - apply Forall_forall. intros lp (l & -> & Hl)%list_elem_of_fmap. simpl fst. simpl snd.
    split_and!; [apply prf_bounds..|apply prf_support].
  - apply ratio_in01. rewrite <- count_all. by apply count_le.
  - apply ratio_in01. apply count_filter_le.
  - unfold r. simpl. destruct (List.filter auto_band preds); simpl; [done|split; [done|lia]].
  - unfold r. simpl. intros x. pose proof (count_filter_le Prediction.correct auto_band preds) as Hc.
    destruct (List.filter auto_band preds) as [|p l]; [done|]. intros [= <-].
    apply int_quot_in01; simpl in *; lia.
  - apply (count_le auto_band non_abstained preds). intros p. apply auto_band_suggests.
  - apply (count_le auto_band non_abstained preds). intros p. apply auto_band_suggests.
  - intros Hnan. unfold r. simpl. rewrite <- count_all. unfold count.
    induction preds as [|p preds IH]; [done|]. apply Forall_cons in Hnan as [Hp Hnan].
    specialize (IH Hnan). simpl. unfold abstained, non_abstained in *.
    destruct (Prediction.p_star p <? TAU_SUGGEST)%F eqn:E.
    + rewrite (flt_not_fle _ _ E). simpl. lia.
    + rewrite (not_flt_fle (Prediction.p_star p) TAU_SUGGEST) by done. simpl. lia.
Qed.

(** *** Predictions that are all correct *)

Lemma filter_nil_existsb {A} (f : A -> bool) l : List.filter f l = [] <-> existsb f l = false.
Proof. induction l as [|p l IH]; simpl; [done|]. destruct (f p); simpl; done. Qed.

Lemma count_ext {A} (f g : A -> bool) l : (forall x, x ∈ l -> f x = g x) -> count f l = count g l.
Proof.
  intros Hfg. unfold count. do 2 f_equal. induction l as [|x l IH]; simpl; [done|].
  rewrite Hfg by set_solver. rewrite IH by (intros; apply Hfg; set_solver). done.
Qed.

Lemma count_none {A} (l : list A) : count (fun _ => false) l = 0.
Proof. unfold count. by induction l. Qed.

Lemma ratio_same (n : nat) : ratio (Z.of_nat n) (Z.of_nat n) = if Z.of_nat n =? 0 then f0 else f1.
Proof.
  destruct n as [|n]; [done|]. unfold ratio. rewrite (proj2 (Z.eqb_neq _ _)) by lia.
  apply (int_quot_same (Pos.of_succ_nat n)).
Qed.

Section Perfect.
Context (preds : list prediction) (Hok : Forall (fun p => Prediction.correct p = true) preds).

Lemma count_correct_filter f :
  count Prediction.correct (List.filter f preds) = Z.of_nat (length (List.filter f preds)).
Proof using Hok.
  rewrite <- count_all. apply count_ext. intros p [Hp _]%filterb_elem.
  by apply (proj1 (Forall_forall _ _) Hok).
Qed.

Lemma same_label l p : p ∈ preds -> is_label l (Prediction.pred p) = is_label l (Prediction.true p).
Proof using Hok.
  intros Hp. apply (proj1 (Forall_forall _ _) Hok) in Hp. unfold Prediction.correct in Hp. bprop.
  unfold is_label. by rewrite Hp.
Qed.

Lemma prf_perfect l :
  let n := count (fun p => is_label l (Prediction.true p)) preds in
  _prf preds l = if n =? 0 then LabelPRF.mk f0 f0 f0 0 else LabelPRF.mk f1 f1 f1 n.
Proof using Hok.
  intros n. unfold _prf.
  rewrite (count_ext (fun p => is_label l (Prediction.pred p) && is_label l (Prediction.true p))
             (fun p => is_label l (Prediction.true p)))
    by (intros p Hp; rewrite same_label by done; by destruct (is_label l _)).
  rewrite (count_ext (fun p => is_label l (Prediction.pred p) && negb (is_label l (Prediction.true p)))
             (fun _ => false))
    by (intros p Hp; rewrite same_label by done; by destruct (is_label l _)).
  rewrite (count_ext (fun p => negb (is_label l (Prediction.pred p)) && is_label l (Prediction.true p))
             (fun _ => false))
    by (intros p Hp; rewrite same_label by done; by destruct (is_label l _)).
  rewrite count_none, Z.add_0_r. fold n. unfold n, count. rewrite ratio_same.
  destruct (Z.of_nat _ =? 0) eqn:E; [|done]. apply Z.eqb_eq in E. by rewrite E.
Qed.
End Perfect.

(** A model that is always right is reported as such: for every label that
    occurs, precision, recall and F1 are exactly 1.0; for the others they are 0.0;
    and the acceptance rate and auto-band precision are 1.0 wherever defined. *)
Theorem perfect_predictions_report `{NpMean} (preds : list prediction)
    (Hok : Forall (fun p => Prediction.correct p = true) preds) :
  let r := report_from_predictions preds in
  EvalReport.per_label r = (fun l =>
    let n := count (fun p => is_label l (Prediction.true p)) preds in
    (l, if n =? 0 then LabelPRF.mk f0 f0 f0 0 else LabelPRF.mk f1 f1 f1 n)) <$> BASE_LABELS /\
  EvalReport.acceptance_rate r = (if existsb non_abstained preds then f1 else f0) /\
  EvalReport.auto_band_precision r = (if existsb auto_band preds then Some f1 else None).
Proof.
  intros r. split_and!.
  - unfold r. simpl. by rewrite !(prf_perfect preds Hok).
  - unfold r. simpl. rewrite (count_correct_filter preds Hok), ratio_same.
    destruct (existsb non_abstained preds) eqn:E.
    + destruct (List.filter non_abstained preds) eqn:El; [|done].
      apply filter_nil_existsb in El. congruence.
    + apply filter_nil_existsb in E. by rewrite E.
  - unfold r. simpl. rewrite (count_correct_filter preds Hok).
    destruct (existsb auto_band preds) eqn:E.
    + destruct (List.filter auto_band preds) as [|p l] eqn:El.
      * apply filter_nil_existsb in El. congruence.
      * f_equal. apply (int_quot_same (Pos.of_succ_nat (length l))).
    + apply filter_nil_existsb in E. by rewrite E.
Qed.

#[local] Instance toy_mean : NpMean := {| np_mean := fun l => hd f0 l |}.

Lemma perfect_predictions_report_witness :
  let preds := [Prediction.mk "pb" "pb" (dec 8 10); Prediction.mk "ab" "ab" (dec 1 10)] in
  let r := report_from_predictions preds in
  EvalReport.per_label r = (fun l =>
    let n := count (fun p => is_label l (Prediction.true p)) preds in
    (l, if n =? 0 then LabelPRF.mk f0 f0 f0 0 else LabelPRF.mk f1 f1 f1 n)) <$> BASE_LABELS /\
  EvalReport.acceptance_rate r = (if existsb non_abstained preds then f1 else f0) /\
  EvalReport.auto_band_precision r = (if existsb auto_band preds then Some f1 else None).
Proof.
  refine (perfect_predictions_report
    [Prediction.mk "pb" "pb" (dec 8 10); Prediction.mk "ab" "ab" (dec 1 10)] _).
  repeat (apply Forall_cons_2; [vm_compute; reflexivity|]). apply Forall_nil_2.
Defined.
