(* ===== verification/Artifacts.v ===== *)
(** * The model-artifact store

    [ml/artifacts.py]: the [model_artifact] table as a list of rows in insertion
    order, with the statements of [PgModelStore] as operations on it.  A
    transaction that raises leaves the table as it was.  The table's constraints
    (migration 0003) are part of an insert: the kind check and the partial unique
    index on the active rows. *)

From S2P Require Import Prelude PyFloat PyStr PyJson.
From Stdlib Require Import ZArith Lia.

#[local] Open Scope string_scope.
#[local] Open Scope list_scope.
#[local] Open Scope Z_scope.

Definition KIND_GBM : string := "gbm".
Definition KIND_CALIB : string := "calib".

Module ArtifactSpec.
Record t := mk {
  kind : string;
  project_id : option Z;
  version : string;
  feature_schema_ver : Z;
  blob : json;
  n_events : Z;
  metrics : list (string * json)
}.
End ArtifactSpec.
Abbreviation spec := ArtifactSpec.t.

Module ArtifactRecord.
Record t := mk { model_id : Z; body : ArtifactSpec.t; is_active : bool; trained_at : Z }.
End ArtifactRecord.
Abbreviation record := ArtifactRecord.t.
Import ArtifactRecord (model_id, body, is_active, trained_at).

(** The table and its identity sequence. *)
Record table := mk_table { trows : list record; next_id : Z }.
Definition empty_table : table := mk_table [] 1.

Definition UniqueViolation : pyexn := OtherError "UniqueViolation".
Definition CheckViolation : pyexn := OtherError "CheckViolation".

(** The expression of the unique index: [(kind, COALESCE(project_id, -1))]. *)
Definition index_key (s : spec) : string * Z :=
  (ArtifactSpec.kind s, default (-1) (ArtifactSpec.project_id s)).

Definition conflicts (s : spec) (r : record) : bool :=
  is_active r && bool_decide (index_key (body r) = index_key s).

(** [_insert]; [now] is the column default [now()] of the transaction. *)
Definition _insert (t : table) (now : Z) (s : spec) (active : bool) : result (table * Z) :=
  if bool_decide (ArtifactSpec.kind s = KIND_GBM \/ ArtifactSpec.kind s = KIND_CALIB) then
    if active && existsb (conflicts s) (trows t) then Raise UniqueViolation
    else Ok (mk_table (trows t ++ [ArtifactRecord.mk (next_id t) s active now]) (next_id t + 1), next_id t)
  else Raise CheckViolation.

(** [UPDATE ... SET is_active = false WHERE is_active AND p]. *)
Definition deactivate (p : record -> bool) (t : table) : table :=
  mk_table ((fun r => if is_active r && p r
                      then ArtifactRecord.mk (model_id r) (body r) false (trained_at r) else r) <$> trows t)
    (next_id t).

Definition kind_of (r : record) : string := ArtifactSpec.kind (body r).
Definition project_of (r : record) : option Z := ArtifactSpec.project_id (body r).

Fixpoint insert_all (t : table) (now : Z) (specs : list spec) : result table :=
  match specs with
  | [] => Ok t
  | s :: specs' => '(t', _) ← _insert t now s true; insert_all t' now specs'
  end.

(** [ship]: one transaction. *)
Definition ship (t : table) (now : Z) (gbm : spec) (calibrators : list spec) : result (table * Z) :=
  let t0 := deactivate (fun r => bool_decide (kind_of r = KIND_GBM \/ kind_of r = KIND_CALIB)) t in
  '(t1, gbm_id) ← _insert t0 now gbm true;
  t2 ← insert_all t1 now calibrators;
  Ok (t2, gbm_id).

(** [save(spec, activate=...)]. *)
Definition save (t : table) (now : Z) (s : spec) (activate : bool) : result (table * Z) :=
  let t0 := if activate
            then deactivate (fun r => bool_decide (index_key (body r) = index_key s)) t else t in
  _insert t0 now s activate.

Definition active_gbm (r : record) : bool :=
  bool_decide (kind_of r = KIND_GBM) && bool_decide (project_of r = None) && is_active r.

Definition load_active_gbm (t : table) : option record := List.find active_gbm (trows t).

Definition active_gbm_version (t : table) : option (Z * string) :=
  (fun r => (model_id r, ArtifactSpec.version (body r))) <$> load_active_gbm t.

Definition load_active_calibrators (t : table) : list record :=
  List.filter (fun r => bool_decide (kind_of r = KIND_CALIB) && is_active r) (trows t).

(** SQL [max]: NULL on no row. *)
Definition sql_max (l : list Z) : option Z :=
  match l with [] => None | x :: l' => Some (fold_left Z.max l' x) end.

Definition last_trained_at (t : table) (kind : string) : option Z :=
  sql_max (trained_at <$> List.filter (fun r => bool_decide (kind_of r = kind)) (trows t)).

(** [(metrics ->> 'rejected') IS DISTINCT FROM 'true']: a JSON true and the string
    ["true"] both read as the text [true]. *)
Definition not_rejected (r : record) : bool :=
  match jget "rejected" (ArtifactSpec.metrics (body r)) with
  | JBool b => negb b
  | JStr s => negb (bool_decide (s = u "true"))
  | _ => true
  end.

Definition last_shipped_at (t : table) (kind : string) : option Z :=
  sql_max (trained_at <$> List.filter (fun r => bool_decide (kind_of r = kind) && not_rejected r) (trows t)).

(** ** Invariant: the unique index and the identity column *)

Record table_inv (t : table) : Prop := {
  ti_unique : NoDup ((fun r => index_key (body r)) <$> List.filter is_active (trows t));
  ti_ids : NoDup (model_id <$> trows t);
  ti_next : Forall (fun r => model_id r < next_id t) (trows t);
  ti_kind : Forall (fun r => kind_of r = KIND_GBM \/ kind_of r = KIND_CALIB) (trows t)
}.

Lemma empty_inv : table_inv empty_table.
Proof. split; constructor. Qed.

Lemma insert_inv t now s active t' i :
  table_inv t -> _insert t now s active = Ok (t', i) -> table_inv t'.
Proof.
  intros [Hu Hi Hn Hk]. unfold _insert. case_bool_decide; [|done].
  destruct (active && existsb (conflicts s) (trows t)) eqn:E; [done|]. intros [= <- <-].
  split; simpl.
  - rewrite List.filter_app, fmap_app. simpl. destruct active; simpl; [|by rewrite app_nil_r].
    apply NoDup_app. split_and!; [done| |apply NoDup_singleton].
    intros k (r & -> & [Hr Ha]%filterb_elem)%list_elem_of_fmap Hkk%list_elem_of_singleton.
    apply not_true_iff_false in E. destruct E. apply existsb_exists. exists r.
    split; [by apply list_elem_of_In|]. unfold conflicts. rewrite Ha, Hkk. by rewrite bool_decide_eq_true_2.
  - rewrite fmap_app. apply NoDup_app. split_and!; [done| |apply NoDup_singleton].
    intros k (r & -> & Hr)%list_elem_of_fmap Hkk%list_elem_of_singleton.
    apply (proj1 (Forall_forall _ _) Hn) in Hr. simpl in *. lia.
  - apply Forall_app. split; [|repeat constructor; simpl; lia].
    eapply Forall_impl; [exact Hn|]. intros; simpl in *; lia.
  - apply Forall_app. split; [done|]. by apply Forall_singleton.
Qed.

Lemma deactivate_active p t :
  List.filter is_active (trows (deactivate p t)) =
  List.filter (fun r => is_active r && negb (p r)) (trows t).
Proof.
  unfold deactivate. simpl. induction (trows t) as [|r l IH]; csimpl; [done|].
  destruct (is_active r) eqn:Ea; simpl; [|by rewrite Ea, IH].
  destruct (p r); simpl; [done|]. by rewrite Ea, IH.
Qed.

Lemma filter_and {A} (f g : A -> bool) l :
  List.filter (fun x => f x && g x) l = List.filter g (List.filter f l).
Proof. induction l as [|x l IH]; simpl; [done|]. destruct (f x); simpl; [|done]. destruct (g x); by rewrite IH. Qed.

Lemma filter_fmap_sublist {A B} (h : A -> B) (f : A -> bool) l : h <$> List.filter f l `sublist_of` h <$> l.
Proof. induction l as [|x l IH]; csimpl; [done|]. destruct (f x); csimpl; by constructor. Qed.

Lemma deactivate_ids p t : model_id <$> trows (deactivate p t) = model_id <$> trows t.
Proof.
  unfold deactivate. simpl. rewrite <- list_fmap_compose. apply list_fmap_ext.
  intros i r _. simpl. by destruct (is_active r && p r).
Qed.

Lemma deactivate_inv p t : table_inv t -> table_inv (deactivate p t).
Proof.
  intros [Hu Hi Hn Hk]. split.
  - rewrite deactivate_active, filter_and. eapply sublist_NoDup; [exact Hu|]. apply filter_fmap_sublist.
  - by rewrite deactivate_ids.
  - apply Forall_forall. intros r Hr. assert (model_id r ∈ model_id <$> trows t) as Hid.
    { rewrite <- (deactivate_ids p). by apply list_elem_of_fmap_2. }
    apply list_elem_of_fmap in Hid as (r' & -> & Hr'). by apply (proj1 (Forall_forall _ _) Hn) in Hr'.
  - unfold deactivate. simpl. apply Forall_fmap. eapply Forall_impl; [exact Hk|].
    intros r Hr. simpl. by destruct (is_active r && p r).
Qed.

Lemma insert_all_inv t now specs t' : table_inv t -> insert_all t now specs = Ok t' -> table_inv t'.
Proof.
  revert t. induction specs as [|s specs IH]; intros t Hi; simpl; [by intros [= <-]|].
  intros ([t1 i] & H1 & H2)%result_bind_Ok. eapply IH; [|exact H2]. by eapply insert_inv.
Qed.

(** ** The transaction *)

Definition new_rows (now id0 : Z) (specs : list spec) : list record :=
  imap (fun i s => ArtifactRecord.mk (id0 + Z.of_nat i) s true now) specs.

Lemma new_rows_cons now id0 s specs :
  new_rows now id0 (s :: specs) = ArtifactRecord.mk id0 s true now :: new_rows now (id0 + 1) specs.
Proof.
  unfold new_rows. simpl. rewrite Z.add_0_r. f_equal. apply imap_ext. intros i x _. simpl. f_equal. lia.
Qed.

Lemma insert_ok t now s :
  ArtifactSpec.kind s = KIND_GBM \/ ArtifactSpec.kind s = KIND_CALIB ->
  index_key s ∉ (fun r => index_key (body r)) <$> List.filter is_active (trows t) ->
  _insert t now s true =
    Ok (mk_table (trows t ++ [ArtifactRecord.mk (next_id t) s true now]) (next_id t + 1), next_id t).
Proof.
  intros Hk Hn. unfold _insert. rewrite bool_decide_eq_true_2 by done.
  replace (existsb (conflicts s) (trows t)) with false; [done|]. symmetry. apply not_true_iff_false.
  rewrite existsb_exists. intros (r & Hr & Hc). unfold conflicts in Hc. bprop. apply Hn.
  apply list_elem_of_fmap. exists r. split; [done|]. apply filterb_elem. by rewrite list_elem_of_In.
Qed.

Lemma insert_all_ok t now specs :
  Forall (fun s => ArtifactSpec.kind s = KIND_GBM \/ ArtifactSpec.kind s = KIND_CALIB) specs ->
  NoDup (((fun r => index_key (body r)) <$> List.filter is_active (trows t)) ++ (index_key <$> specs)) ->
  insert_all t now specs =
    Ok (mk_table (trows t ++ new_rows now (next_id t) specs) (next_id t + Z.of_nat (length specs))).
Proof.
  revert t. induction specs as [|s specs IH]; intros t Hk Hnd.
  { simpl. unfold new_rows. simpl. rewrite app_nil_r, Z.add_0_r. by destruct t. }
  apply Forall_cons in Hk as [Hs Hk]. rewrite fmap_cons in Hnd. cbn [insert_all].
  rewrite insert_ok; [|done|].
  2: { apply NoDup_app in Hnd as (_ & Hd & _). intros Hin. apply (Hd _ Hin). by left. }
  cbn [mbind result_bind]. rewrite IH; [|done|].
  - rewrite new_rows_cons. cbn [trows next_id]. rewrite <- (assoc (++)). do 2 f_equal. simpl. lia.
  - simpl. rewrite List.filter_app, fmap_app. simpl. rewrite <- (assoc (++)). done.
Qed.

Lemma ship_deactivates t :
  table_inv t ->
  List.filter is_active (trows (deactivate
    (fun r => bool_decide (kind_of r = KIND_GBM \/ kind_of r = KIND_CALIB)) t)) = [].
Proof.
  intros [_ _ _ Hk]. rewrite deactivate_active. induction Hk as [|r l Hr Hl IH]; simpl; [done|].
  rewrite bool_decide_eq_true_2 by done. by rewrite andb_false_r.
Qed.

Lemma find_inactive (f : record -> bool) l1 l2 :
  (forall r, f r = true -> is_active r = true) -> List.filter is_active l1 = [] ->
  List.find f (l1 ++ l2) = List.find f l2.
Proof.
  intros Hf. induction l1 as [|r l1 IH]; simpl; [done|]. destruct (is_active r) eqn:E; [done|].
  intros Hl. destruct (f r) eqn:Er; [by rewrite (Hf r Er) in E|]. by apply IH.
Qed.

Lemma filter_inactive (f : record -> bool) l :
  (forall r, f r = true -> is_active r = true) -> List.filter is_active l = [] -> List.filter f l = [].
Proof.
  intros Hf. induction l as [|r l IH]; simpl; [done|]. destruct (is_active r) eqn:E; [done|].
  intros Hl. destruct (f r) eqn:Er; [by rewrite (Hf r Er) in E|]. by apply IH.
Qed.

Lemma new_calibrators now id0 specs :
  Forall (fun s => ArtifactSpec.kind s = KIND_CALIB) specs ->
  body <$> List.filter (fun r => bool_decide (kind_of r = KIND_CALIB) && is_active r)
             (new_rows now id0 specs) = specs.
Proof.
  revert id0. induction specs as [|s specs IH]; intros id0 Hs; [done|].
  apply Forall_cons in Hs as [Hk Hs]. rewrite new_rows_cons. simpl.
  rewrite bool_decide_eq_true_2 by done. csimpl. f_equal. by apply IH.
Qed.

(** The rows of a table after the shipped rows were appended to a table without
    active rows. *)
Lemma shipped_active (t0 t' : table) now id0 g cs :
  List.filter is_active (trows t0) = [] ->
  trows t' = trows t0 ++ new_rows now id0 (g :: cs) ->
  ArtifactSpec.kind g = KIND_GBM -> ArtifactSpec.project_id g = None ->
  Forall (fun s => ArtifactSpec.kind s = KIND_CALIB) cs ->
  load_active_gbm t' = Some (ArtifactRecord.mk id0 g true now) /\
  body <$> load_active_calibrators t' = cs /\
  (forall r, r ∈ trows t' -> is_active r = true -> id0 <= model_id r).
Proof.
  intros Hoff Hr Hg Hp Hcs. split_and!.
  - unfold load_active_gbm. rewrite Hr, find_inactive; [|unfold active_gbm; intros; by bprop|done].
    rewrite new_rows_cons. simpl. unfold active_gbm, kind_of, project_of.
    by rewrite !bool_decide_eq_true_2.
  - unfold load_active_calibrators. rewrite Hr, List.filter_app.
    rewrite (filter_inactive _ (trows t0)); [|intros; by bprop|done].
    rewrite app_nil_l, new_rows_cons. simpl.
    rewrite bool_decide_eq_false_2 by (unfold kind_of; simpl; by rewrite Hg).
    by apply new_calibrators.
  - intros r. rewrite Hr. intros [Hin|Hin]%elem_of_app Ha.
    + exfalso. assert (r ∈ List.filter is_active (trows t0)) as Hin' by by apply filterb_elem.
      rewrite Hoff in Hin'. by apply elem_of_nil in Hin'.
    + apply list_elem_of_lookup in Hin as [j Hj]. unfold new_rows in Hj.
      rewrite list_lookup_imap in Hj. apply fmap_Some in Hj as (x & _ & ->). simpl. lia.
Qed.

Lemma deactivate_bodies p t : body <$> trows (deactivate p t) = body <$> trows t.
Proof.
  unfold deactivate. simpl. rewrite <- list_fmap_compose.
  apply list_fmap_ext. intros j r _. simpl. by destruct (is_active r && p r).
Qed.

Lemma ship_spec (t : table) (now : Z) (g : spec) (cs : list spec)
    (Hinv : table_inv t)
    (Hg : ArtifactSpec.kind g = KIND_GBM /\ ArtifactSpec.project_id g = None)
    (Hcs : Forall (fun s => ArtifactSpec.kind s = KIND_CALIB) cs)
    (Hproj : NoDup (index_key <$> cs)) :
  exists t', ship t now g cs = Ok (t', next_id t) /\ table_inv t' /\
    load_active_gbm t' = Some (ArtifactRecord.mk (next_id t) g true now) /\
    body <$> load_active_calibrators t' = cs /\
    (forall r, r ∈ trows t' -> is_active r = true -> next_id t <= model_id r) /\
    (body <$> take (length (trows t)) (trows t')) = body <$> trows t.
Proof.
  destruct Hg as [Hg Hp]. unfold ship. pose proof (ship_deactivates t Hinv) as Hoff.
  set (p := fun r : record => bool_decide (kind_of r = KIND_GBM \/ kind_of r = KIND_CALIB)) in *.
  pose proof (deactivate_inv p t Hinv) as Hinv0.
  set (t0 := deactivate p t) in *. change (next_id t) with (next_id t0).
  assert (insert_all t0 now (g :: cs) =
    Ok (mk_table (trows t0 ++ new_rows now (next_id t0) (g :: cs))
          (next_id t0 + Z.of_nat (length (g :: cs))))) as Hall.
  { apply insert_all_ok.
    - constructor; [by left|]. eapply Forall_impl; [exact Hcs|]. by right.
    - rewrite Hoff. simpl. constructor; [|done].
      intros (s & Hs & Hin)%list_elem_of_fmap. apply (proj1 (Forall_forall _ _) Hcs) in Hin.
      unfold index_key in Hs. rewrite Hg, Hin in Hs. done. }
  pose proof (insert_all_inv _ _ _ _ Hinv0 Hall) as Hinv'.
  cbn [insert_all] in Hall. apply result_bind_Ok in Hall as ([t1 i] & Hi & Hall).
  rewrite Hi. cbn [mbind result_bind]. rewrite Hall. cbn [mbind result_bind].
  rewrite insert_ok in Hi; [|by left|rewrite Hoff; apply not_elem_of_nil]. injection Hi as _ <-.
  destruct (shipped_active t0 (mk_table (trows t0 ++ new_rows now (next_id t0) (g :: cs))
    (next_id t0 + Z.of_nat (length (g :: cs)))) now (next_id t0) g cs) as (? & ? & ?); try done.
  eexists. split_and!; try done. cbn [trows].
  assert (length (trows t) = length (trows t0)) as -> by (unfold t0, deactivate; simpl; by rewrite length_fmap).
  rewrite take_app_length. apply deactivate_bodies.
Qed.

(** Shipping is an atomic swap: on a well-formed table, a model and its
    calibrators (one per project) are installed together, and afterwards the
    active model is exactly the shipped one, the active calibrators are exactly
    the shipped set in order, nothing older is active, no row is lost, and the
    table is well formed again. *)
Theorem ship_atomic (t : table) (now : Z) (g : spec) (cs : list spec)
    (Hinv : table_inv t)
    (Hg : ArtifactSpec.kind g = KIND_GBM /\ ArtifactSpec.project_id g = None)
    (Hcs : Forall (fun s => ArtifactSpec.kind s = KIND_CALIB) cs)
    (Hproj : NoDup (index_key <$> cs)) :
  exists t', ship t now g cs = Ok (t', next_id t) /\ table_inv t' /\
    load_active_gbm t' = Some (ArtifactRecord.mk (next_id t) g true now) /\
    body <$> load_active_calibrators t' = cs /\
    (forall r, r ∈ trows t' -> is_active r = true -> next_id t <= model_id r) /\
    (body <$> take (length (trows t)) (trows t')) = body <$> trows t.
Proof. by apply ship_spec. Qed.

Definition wgbm (v : string) : spec := ArtifactSpec.mk KIND_GBM None v 6 JNull 100 [].
Definition wcal (p : option Z) (v : string) : spec := ArtifactSpec.mk KIND_CALIB p v 6 JNull 100 [].

(** One shipped model with an install-wide and a project calibrator. *)
Definition wtable : table := mk_table
  [ArtifactRecord.mk 1 (wgbm "a") true 10; ArtifactRecord.mk 2 (wcal None "a") true 10;
   ArtifactRecord.mk 3 (wcal (Some 7) "a") true 10] 4.

Lemma wtable_inv : table_inv wtable.
Proof.
  split.
  - exact (bool_decide_eq_true_1
      (NoDup ((fun r => index_key (body r)) <$> List.filter is_active (trows wtable))) eq_refl).
  - exact (bool_decide_eq_true_1 (NoDup (model_id <$> trows wtable)) eq_refl).
  - repeat (apply Forall_cons_2; [simpl; lia|]). apply Forall_nil_2.
  - apply Forall_cons_2; [by left|]. repeat (apply Forall_cons_2; [by right|]). apply Forall_nil_2.
Qed.

Lemma ship_atomic_witness :
  exists t', ship wtable 20 (wgbm "b") [wcal None "b"] = Ok (t', 4) /\ table_inv t' /\
    load_active_gbm t' = Some (ArtifactRecord.mk 4 (wgbm "b") true 20) /\
    body <$> load_active_calibrators t' = [wcal None "b"] /\
    (forall r, r ∈ trows t' -> is_active r = true -> 4 <= model_id r) /\
    (body <$> take 3 (trows t')) = body <$> trows wtable.
Proof.
  refine (ship_atomic wtable 20 (wgbm "b") [wcal None "b"] wtable_inv (conj eq_refl eq_refl) _ _).
  - apply Forall_cons_2; [reflexivity|apply Forall_nil_2].
  - exact (bool_decide_eq_true_1 (NoDup (index_key <$> [wcal None "b"])) eq_refl).
Defined.

(** ** The debounce anchor *)

Lemma fold_max_acc l a b : fold_left Z.max l (Z.max a b) = Z.max a (fold_left Z.max l b).
Proof. revert b. induction l as [|x l IH]; intros b; simpl; [done|]. by rewrite <- Z.max_assoc, IH. Qed.

Lemma sql_max_snoc l x : sql_max (l ++ [x]) = Some (match sql_max l with Some m => Z.max m x | None => x end).
Proof. destruct l as [|y l]; simpl; [done|]. by rewrite fold_left_app. Qed.

(** What an inactive insert leaves alone. *)
Lemma save_inactive t now s t' i :
  save t now s false = Ok (t', i) ->
  trows t' = trows t ++ [ArtifactRecord.mk (next_id t) s false now] /\
  load_active_gbm t' = load_active_gbm t /\
  load_active_calibrators t' = load_active_calibrators t /\
  (not_rejected (ArtifactRecord.mk (next_id t) s false now) = false ->
     forall k, last_shipped_at t' k = last_shipped_at t k).
Proof.
  unfold save, _insert. case_bool_decide as Hk; [|done]. simpl. intros [= <- <-].
  unfold load_active_gbm, load_active_calibrators, last_shipped_at. cbn [trows]. split_and!; [done|..].
  - induction (trows t) as [|r l IH]; simpl; [|by rewrite IH].
    unfold active_gbm. simpl. by rewrite !andb_false_r.
  - rewrite List.filter_app. simpl. by rewrite andb_false_r, app_nil_r.
  - intros Hr k. rewrite List.filter_app. simpl. by rewrite Hr, andb_false_r, app_nil_r.
Qed.

(** What any accepted ship did to the rows. *)
Lemma insert_Ok t now s active t' i :
  _insert t now s active = Ok (t', i) ->
  trows t' = trows t ++ [ArtifactRecord.mk (next_id t) s active now] /\ next_id t' = next_id t + 1.
Proof. unfold _insert. case_bool_decide; [|done]. case_match; [done|]. by intros [= <- <-]. Qed.

Lemma insert_all_Ok t now specs t' :
  insert_all t now specs = Ok t' -> trows t' = trows t ++ new_rows now (next_id t) specs.
Proof.
  revert t. induction specs as [|s specs IH]; intros t; simpl.
  - intros [= <-]. by rewrite app_nil_r.
  - intros ([t1 i] & H1 & H2)%result_bind_Ok. apply insert_Ok in H1 as [Hr Hn].
    rewrite (IH _ H2), Hr, Hn, new_rows_cons. by rewrite <- (assoc (++)).
Qed.

Lemma ship_Ok t now g cs t' i :
  ship t now g cs = Ok (t', i) ->
  exists p, trows t' = trows (deactivate p t) ++ new_rows now (next_id t) (g :: cs).
Proof.
  unfold ship. intros ([t1 i1] & H1 & H2)%result_bind_Ok.
  apply result_bind_Ok in H2 as (t2 & H2 & [= <- <-]).
  apply insert_Ok in H1 as [Hr Hn]. apply insert_all_Ok in H2.
  eexists. rewrite H2, Hr, Hn, new_rows_cons, <- (assoc (++)). done.
Qed.

Lemma sql_max_app_le l1 l2 n :
  Forall (fun x => x = n) l2 -> l2 <> [] ->
  sql_max (l1 ++ l2) = Some (match sql_max l1 with Some m => Z.max m n | None => n end).
Proof.
  induction l2 as [|x l2 IH] using rev_ind; [done|]. intros [Hl Hx]%Forall_app _.
  apply Forall_singleton in Hx as ->. rewrite (assoc (++)), sql_max_snoc.
  destruct (decide (l2 = [])) as [->|Hne]; [by rewrite app_nil_r|].
  rewrite IH by done. destruct (sql_max l1); f_equal; lia.
Qed.

Lemma deactivate_shipped p t k :
  trained_at <$> List.filter (fun r => bool_decide (kind_of r = k) && not_rejected r) (trows (deactivate p t)) =
  trained_at <$> List.filter (fun r => bool_decide (kind_of r = k) && not_rejected r) (trows t).
Proof.
  unfold deactivate. simpl. induction (trows t) as [|r l IH]; csimpl; [done|].
  destruct (is_active r && p r); simpl.
  - unfold kind_of at 1, not_rejected at 1. simpl. fold (kind_of r). fold (not_rejected r).
    destruct (bool_decide (kind_of r = k) && not_rejected r); csimpl; by rewrite IH.
  - destruct (bool_decide (kind_of r = k) && not_rejected r); csimpl; by rewrite IH.
Qed.

(** An accepted ship moves the anchor to the ship's time (or keeps a later one). *)
Lemma ship_anchor t now g cs t' i :
  ship t now g cs = Ok (t', i) ->
  ArtifactSpec.kind g = KIND_GBM -> jget "rejected" (ArtifactSpec.metrics g) = JNull ->
  last_shipped_at t' KIND_GBM =
    Some (match last_shipped_at t KIND_GBM with Some m => Z.max m now | None => now end).
Proof.
  intros (p & Hr)%ship_Ok Hg Hm. unfold last_shipped_at. rewrite Hr, List.filter_app, fmap_app, deactivate_shipped.
  apply sql_max_app_le.
  - apply Forall_fmap, Forall_forall. intros r [Hin _]%filterb_elem. simpl.
    apply list_elem_of_lookup in Hin as [j Hj]. unfold new_rows in Hj.
    rewrite list_lookup_imap in Hj. by apply fmap_Some in Hj as (x & _ & ->).
  - rewrite new_rows_cons. simpl. rewrite bool_decide_eq_true_2 by done.
    unfold not_rejected at 1. cbn [body]. by rewrite Hm.
Qed.

(** The debounce anchor moves with shipped models only: persisting a rejected
    candidate as an inactive audit row, as the ship gate does, changes neither
    the anchor nor the active model nor the active calibrators, while an accepted
    row advances the anchor to at least its own time. *)
Theorem audit_row_keeps_anchor (t : table) (now : Z) (s : spec) (t' : table) (i : Z)
    (Hsave : save t now s false = Ok (t', i)) :
  load_active_gbm t' = load_active_gbm t /\
  load_active_calibrators t' = load_active_calibrators t /\
  (jget "rejected" (ArtifactSpec.metrics s) = JBool true ->
     last_shipped_at t' KIND_GBM = last_shipped_at t KIND_GBM) /\
  (ArtifactSpec.kind s = KIND_GBM -> jget "rejected" (ArtifactSpec.metrics s) = JNull ->
     last_shipped_at t' KIND_GBM =
       Some (match last_shipped_at t KIND_GBM with Some m => Z.max m now | None => now end)).
Proof.
  apply save_inactive in Hsave as (Hrows & ? & ? & Hlast). split_and!; [done..| |].
  - intros Hr. apply Hlast. unfold not_rejected. cbn [body]. by rewrite Hr.
  - intros Hg Hr. unfold last_shipped_at. rewrite Hrows, List.filter_app. simpl.
    unfold not_rejected at 2. cbn [body]. rewrite Hr.
    rewrite bool_decide_eq_true_2 by done. simpl. rewrite fmap_app. apply sql_max_snoc.
Qed.

Definition waudit : spec :=
  ArtifactSpec.mk KIND_GBM None "r" 6 JNull 0 [("rejected", JBool true)].

Lemma audit_row_keeps_anchor_witness :
  let t' := mk_table (trows wtable ++ [ArtifactRecord.mk 4 waudit false 99]) 5 in
  last_shipped_at t' KIND_GBM = Some 10 /\
  (load_active_gbm t' = load_active_gbm wtable /\
   load_active_calibrators t' = load_active_calibrators wtable /\
   (jget "rejected" (ArtifactSpec.metrics waudit) = JBool true ->
     last_shipped_at t' KIND_GBM = last_shipped_at wtable KIND_GBM) /\
   (ArtifactSpec.kind waudit = KIND_GBM -> jget "rejected" (ArtifactSpec.metrics waudit) = JNull ->
     last_shipped_at t' KIND_GBM =
       Some (match last_shipped_at wtable KIND_GBM with Some m => Z.max m 99 | None => 99 end))).
Proof.
  split; [vm_compute; reflexivity|].
  exact (audit_row_keeps_anchor wtable 99 waudit
           (mk_table (trows wtable ++ [ArtifactRecord.mk 4 waudit false 99]) 5) 4 eq_refl).
Defined.
