(* ===== verification/Gate.v ===== *)
(** * The ship gate

    [ml/gate.py]: the three conditions a retrained model must meet, the
    leakage-free replay that produces the reports they compare, and the gate
    bound to the artifact store.  The training function is an argument, as in the
    code. *)

From S2P Require Import Prelude PyFloat PyStr PyJson PyTime Features Trainer MlEval Artifacts.
From Stdlib Require Import ZArith Lia.

#[local] Open Scope string_scope.
#[local] Open Scope list_scope.
#[local] Open Scope Z_scope.

Definition GATE_MACRO_F1_SLACK : pyfloat := Eval vm_compute in dec 5 1000.
Definition AUTO_BAND_TARGET : pyfloat := Eval vm_compute in dec 95 100.
Definition AUTO_BAND_FLOOR : pyfloat := Eval vm_compute in (dec 9 10 * AUTO_BAND_TARGET)%F.
Definition GATE_ABSTAIN_SLACK : pyfloat := Eval vm_compute in dec 5 100.
Definition GATE_CALIB_MIN : Z := 50.
Definition GATE_ECE_DEGENERATE : pyfloat := Eval vm_compute in dec 15 100.
Definition GATE_ECE_IMPROVEMENT : pyfloat := Eval vm_compute in dec 5 100.
Definition GATE_MACRO_F1_SLACK_DEGRADED_ACTIVE : pyfloat := Eval vm_compute in dec 5 100.

Module GateResult.
Record t := mk {
  ship : bool;
  reasons : list string;
  candidate : option report;
  active : option report;
  degraded : option bool   (* extra["active_calibration_degraded"] *)
}.
End GateResult.
Abbreviation gate_result := GateResult.t.

Definition _active_calibration_degraded (candidate active : report) : bool :=
  (GATE_ECE_DEGENERATE <? EvalReport.ece active)%F &&
  (EvalReport.ece candidate <=? EvalReport.ece active - GATE_ECE_IMPROVEMENT)%F.

Definition f1_slack (candidate active : report) : pyfloat :=
  if _active_calibration_degraded candidate active then GATE_MACRO_F1_SLACK_DEGRADED_ACTIVE
  else GATE_MACRO_F1_SLACK.

Definition auto_target (active : report) : pyfloat :=
  match EvalReport.auto_band_precision active with
  | None => AUTO_BAND_FLOOR
  | Some ap => pymax2 ap AUTO_BAND_FLOOR
  end.

Definition gate_reasons (candidate active : report) : list string :=
  (if (EvalReport.macro_f1 candidate <? EvalReport.macro_f1 active - f1_slack candidate active)%F
   then ["macro_f1"] else []) ++
  (match EvalReport.auto_band_precision candidate with
   | Some p => if (p <? auto_target active)%F then ["auto_band_precision"] else []
   | None => []
   end) ++
  (if (EvalReport.abstain_rate active + GATE_ABSTAIN_SLACK <? EvalReport.abstain_rate candidate)%F
   then ["abstain_rate"] else []).

Definition passes_gate (candidate : report) (active : option report) : gate_result :=
  match active with
  | None => GateResult.mk true [] (Some candidate) None None
  | Some active =>
      let reasons := gate_reasons candidate active in
      GateResult.mk (match reasons with [] => true | _ => false end) reasons
        (Some candidate) (Some active) (Some (_active_calibration_degraded candidate active))
  end.

(** Which calibrator the active model is scored with: a fresh fit on the train
    slice (the sentinel), or the shipped one (or none). *)
Inductive active_cal :=
  | Refit
  | AsShipped (c : option calibrator).

Section Gate.
Context `{LightGBM, Isotonic, NpMean}.

Definition _fit_scoring_calibrator (m : gbm) (train_events : list row) : result (option calibrator) :=
  if Z.of_nat (length train_events) <? GATE_CALIB_MIN then Ok None
  else
    preds ← score_events m train_events None;
    let raw := Prediction.p_star <$> preds in
    let correct := (fun p => if Prediction.correct p then 1 else 0) <$> preds in
    if Z.of_nat (length (remove_dups correct)) <? 2 then Ok None
    else c ← IsotonicCalibrator.fit raw correct; Ok (Some c).

Definition bootstrap (active : option gbm) (reason : string) : gate_result :=
  match active with
  | None => GateResult.mk true [] None None None
  | Some _ => GateResult.mk false [reason] None None None
  end.

Definition run_gate (train_fn : list row -> result gbm) (rows : list row) (active : option gbm)
    (train_frac : pyfloat) (active_calibrator : active_cal) : result gate_result :=
  events ← usable_events rows;
  '(train_events, eval_events) ← chronological_split events train_frac;
  if bool_decide (eval_events = []) || (Z.of_nat (length train_events) <? GBM_MIN_EVENTS)
  then Ok (bootstrap active "no_eval_data")
  else
    match train_fn train_events with
    | Raise e => if decide (e = TrainingError) then Ok (bootstrap active "candidate_cold") else Raise e
    | Ok candidate =>
        cand_cal ← _fit_scoring_calibrator candidate train_events;
        cand_report ← evaluate candidate eval_events cand_cal;
        match active with
        | None => Ok (GateResult.mk true [] (Some cand_report) None None)
        | Some active =>
            act_cal ← match active_calibrator with
                      | Refit => _fit_scoring_calibrator active train_events
                      | AsShipped c => Ok c
                      end;
            act_report ← evaluate active eval_events act_cal;
            Ok (passes_gate cand_report (Some act_report))
        end
    end.

(** ** The gate bound to the store *)

Definition _load_active_model (store : table) : result (option gbm) :=
  match load_active_gbm store with
  | None => Ok None
  | Some rec =>
      if negb (ArtifactSpec.feature_schema_ver (ArtifactRecord.body rec) =? FEATURE_SCHEMA_VER)
      then Ok None
      else m ← GbmModel.from_bytes (ArtifactSpec.blob (ArtifactRecord.body rec)); Ok (Some m)
  end.

Definition install_wide (r : record) : bool :=
  bool_decide (project_of r = None) &&
  (ArtifactSpec.feature_schema_ver (ArtifactRecord.body r) =? FEATURE_SCHEMA_VER).

Definition _load_active_install_calibrator (store : table) : result (option calibrator) :=
  match List.find install_wide (load_active_calibrators store) with
  | None => Ok None
  | Some rec => c ← IsotonicCalibrator.from_bytes (ArtifactSpec.blob (ArtifactRecord.body rec)); Ok (Some c)
  end.

Definition report_json (r : option report) : json :=
  match r with Some r => EvalReport.to_dict r | None => JObj [] end.

Definition rejected_spec (candidate : gbm) (r : gate_result) (now : Z) : spec :=
  ArtifactSpec.mk KIND_GBM None ("gbm-rejected-" +:+ compact_utc now) FEATURE_SCHEMA_VER
    (GbmModel.to_bytes candidate) 0
    [("rejected", JBool true);
     ("reasons", JList (jstr <$> GateResult.reasons r));
     ("eval", report_json (GateResult.candidate r));
     ("active_eval", report_json (GateResult.active r));
     ("evaluated_at", jstr (isoformat_utc now))].

(** [_persist_rejected]: any failure to save is logged and swallowed. *)
Definition _persist_rejected (store : table) (candidate : gbm) (r : gate_result) (now : Z) : table :=
  match save store now (rejected_spec candidate r now) false with
  | Ok (store', _) => store'
  | Raise _ => store
  end.

(** [make_ship_gate(store)(candidate, rows)]. *)
Definition ship_gate (train_fn : list row -> result gbm) (train_frac : pyfloat)
    (store : table) (now : Z) (candidate : gbm) (rows : list row) : result (bool * table) :=
  active ← _load_active_model store;
  cal ← (match active with
         | None => Ok Refit
         | Some _ =>
             shipped ← _load_active_install_calibrator store;
             Ok (match shipped with Some c => AsShipped (Some c) | None => Refit end)
         end);
  r ← run_gate train_fn rows active train_frac cal;
  if GateResult.ship r then Ok (true, store)
  else Ok (false, _persist_rejected store candidate r now).
End Gate.

(** ** The conditions *)

Lemma auto_target_iff active p :
  (forall ap, EvalReport.auto_band_precision active = Some ap -> is_nan ap = false) ->
  ((p <? auto_target active)%F = false <->
   (p <? AUTO_BAND_FLOOR)%F = false /\
   (forall ap, EvalReport.auto_band_precision active = Some ap -> (p <? ap)%F = false)).
Proof.
  intros Hnan. unfold auto_target. destruct (EvalReport.auto_band_precision active) as [ap|]; [|naive_solver].
  specialize (Hnan ap eq_refl). unfold pymax2. destruct (ap <? AUTO_BAND_FLOOR)%F eqn:E.
  - split; [|tauto]. intros Hp. split; [done|]. intros ap' [= <-].
    destruct (p <? ap)%F eqn:Ep; [|done]. by rewrite (flt_trans _ _ _ Ep E) in Hp.
  - split; [|intros [_ Hp]; by apply Hp]. intros Hp. split; [|by intros ap' [= <-]].
    destruct (p <? AUTO_BAND_FLOOR)%F eqn:Ep; [|done].
    assert (AUTO_BAND_FLOOR <=? ap = true)%F as Hle by by apply not_flt_fle.
    by rewrite (flt_le_trans _ _ _ Ep Hle) in Hp.
Qed.

(** The gate's verdict is exactly the three documented conditions: a
    candidate replaces the active model iff its macro-F1 is not below the
    active's minus the slack (the wider one only against a degenerate active),
    its auto-band precision, if it has one, is below neither the absolute floor
    of 0.855 nor the active's, and it does not abstain materially more; the floor
    binds whatever the slack; and a shipping verdict names no failed condition. *)
Theorem passes_gate_iff (candidate active : report)
    (Hnan : forall ap, EvalReport.auto_band_precision active = Some ap -> is_nan ap = false) :
  let r := passes_gate candidate (Some active) in
  let slack := if _active_calibration_degraded candidate active
               then GATE_MACRO_F1_SLACK_DEGRADED_ACTIVE else GATE_MACRO_F1_SLACK in
  (GateResult.ship r = true <-> GateResult.reasons r = []) /\
  (GateResult.ship r = true <->
    (EvalReport.macro_f1 candidate <? EvalReport.macro_f1 active - slack)%F = false /\
    (forall p, EvalReport.auto_band_precision candidate = Some p ->
       (p <? AUTO_BAND_FLOOR)%F = false /\
       (forall ap, EvalReport.auto_band_precision active = Some ap -> (p <? ap)%F = false)) /\
    (EvalReport.abstain_rate active + GATE_ABSTAIN_SLACK <? EvalReport.abstain_rate candidate)%F = false).
Proof.
  intros r slack. split; [unfold r; simpl; by destruct (gate_reasons candidate active)|].
  unfold r. simpl. unfold gate_reasons, f1_slack. fold slack.
  destruct (EvalReport.macro_f1 candidate <? _)%F; [naive_solver|].
  destruct (EvalReport.auto_band_precision candidate) as [p|]; simpl.
  - pose proof (auto_target_iff active p Hnan) as Ht.
    destruct (p <? auto_target active)%F; simpl.
    + split; [done|]. intros (_ & Hp & _). specialize (Hp p eq_refl). by apply Ht in Hp.
    + destruct (EvalReport.abstain_rate active + _ <? _)%F; [naive_solver|].
      split; [|done]. intros _. split_and!; [done| |done].
      intros p' [= <-]. by apply Ht.
  - destruct (EvalReport.abstain_rate active + _ <? _)%F; naive_solver.
Qed.

Definition wreport (f1 ap abstain ece : pyfloat) : report :=
  EvalReport.mk 100 [] f1 abstain f0 (Some ap) 10 ece.

Lemma passes_gate_iff_witness :
  let candidate := wreport (dec 80 100) (dec 95 100) (dec 20 100) (dec 5 100) in
  let active := wreport (dec 81 100) (dec 90 100) (dec 19 100) (dec 5 100) in
  GateResult.reasons (passes_gate candidate (Some active)) = ["macro_f1"] /\
  let r := passes_gate candidate (Some active) in
  let slack := if _active_calibration_degraded candidate active
               then GATE_MACRO_F1_SLACK_DEGRADED_ACTIVE else GATE_MACRO_F1_SLACK in
  (GateResult.ship r = true <-> GateResult.reasons r = []) /\
  (GateResult.ship r = true <->
    (EvalReport.macro_f1 candidate <? EvalReport.macro_f1 active - slack)%F = false /\
    (forall p, EvalReport.auto_band_precision candidate = Some p ->
       (p <? AUTO_BAND_FLOOR)%F = false /\
       (forall ap, EvalReport.auto_band_precision active = Some ap -> (p <? ap)%F = false)) /\
    (EvalReport.abstain_rate active + GATE_ABSTAIN_SLACK <? EvalReport.abstain_rate candidate)%F = false).
Proof.
  split; [vm_compute; reflexivity|].
  refine (passes_gate_iff (wreport (dec 80 100) (dec 95 100) (dec 20 100) (dec 5 100))
            (wreport (dec 81 100) (dec 90 100) (dec 19 100) (dec 5 100)) _).
  intros ap [= <-]. reflexivity.
Defined.

(** ** The replay *)

Section Replay.
Context `{LightGBM, Isotonic, NpMean}.

Lemma score_events_usable m events cal :
  Forall (fun e => _is_usable e = true) events -> exists ps, score_events m events cal = Ok ps.
Proof.
  intros He. unfold score_events. induction He as [|e l He Hl IH]; simpl; [eauto|].
  assert (exists p, score_event m cal e = Ok p) as [p ->].
  { unfold score_event. unfold _is_usable, snapshot in He.
    destruct (Row.features e) as [f|]; [|done]. destruct (GbmModel.predict_label _ _) as [[? ?] ?]. eauto. }
  destruct IH as [ps ->]. simpl. eauto.
Qed.

Lemma fit_scoring_usable m events :
  Forall (fun e => _is_usable e = true) events -> exists c, _fit_scoring_calibrator m events = Ok c.
Proof.
  intros He. unfold _fit_scoring_calibrator. destruct (_ <? _); [eauto|].
  destruct (score_events_usable m events None He) as [ps ->]. simpl. destruct (_ <? _); [eauto|].
  unfold IsotonicCalibrator.fit. rewrite !length_fmap, Nat.eqb_refl. destruct (iso_fit _ _). simpl. eauto.
Qed.

Lemma evaluate_usable m events cal :
  Forall (fun e => _is_usable e = true) events -> exists r, evaluate m events cal = Ok r.
Proof. intros He. unfold evaluate. destruct (score_events_usable m events cal He) as [ps ->]. simpl. eauto. Qed.
End Replay.

(** C26. The replay is total and leakage free: on timestamped rows whose split
    succeeds, the gate always reaches a verdict if the trainer only fails with a
    training error; the evaluated candidate depends on the trainer's answer on
    the train slice alone, so no trainer can profit from the evaluation slice;
    and a cold store (no active model) always ships. *)
Theorem run_gate_leakage_free `{LightGBM, Isotonic, NpMean}
    (train_fn train_fn' : list row -> result gbm) (rows : list row) (active : option gbm)
    (frac : pyfloat) (cal : active_cal) (events train eval : list row)
    (Hts : Forall has_ts rows)
    (Hevents : usable_events rows = Ok events)
    (Hsplit : chronological_split events frac = Ok (train, eval))
    (Htrain : forall e, train_fn train = Raise e -> e = TrainingError)
    (Hagree : train_fn train = train_fn' train) :
  run_gate train_fn rows active frac cal = run_gate train_fn' rows active frac cal /\
  exists r, run_gate train_fn rows active frac cal = Ok r /\
    (active = None -> GateResult.ship r = true).
Proof.
  destruct (usable_events_ok rows Hts) as (latest & Hl & Hinv).
  assert (Forall (fun e => _is_usable e = true) (train ++ eval)) as Hu.
  { unfold chronological_split in Hsplit. apply result_bind_Ok in Hsplit as (z & _ & [= <- <-]).
    rewrite take_drop. rewrite Hl in Hevents. injection Hevents as <-. apply Forall_forall.
    intros e (kx & -> & Hx)%elem_of_pysorted%list_elem_of_fmap. destruct kx as [k x].
    by apply (li_from _ _ Hinv) in Hx as (_ & _ & ?). }
  apply Forall_app in Hu as [Hut Hue].
  unfold run_gate. rewrite Hevents. cbn [mbind result_bind]. rewrite Hsplit. cbn [mbind result_bind].
  rewrite <- Hagree. split; [done|].
  destruct (bool_decide (eval = []) || _) eqn:Eb; [eexists; split; [done|by intros ->]|].
  destruct (train_fn train) as [m|e] eqn:Et.
  2: { rewrite decide_True by (by apply Htrain). eexists. split; [done|by intros ->]. }
  destruct (fit_scoring_usable m train Hut) as [cc ->]. cbn [mbind result_bind].
  destruct (evaluate_usable m eval cc Hue) as [cr ->]. cbn [mbind result_bind].
  destruct active as [am|]; [|eexists; split; done].
  destruct cal as [|c].
  - destruct (fit_scoring_usable am train Hut) as [ac ->]. cbn [mbind result_bind].
    destruct (evaluate_usable am eval ac Hue) as [ar ->]. eexists; split; done.
  - cbn [mbind result_bind]. destruct (evaluate_usable am eval c Hue) as [ar ->]. eexists; split; done.
Qed.

(** Seventy items, alternately labelled; the toy booster of [Trainer]. *)
Definition wrows : list row :=
  (fun i => wrow i (10 * i) (if Z.even i then "pb001" else "ab001")) <$> seqZ 1 70.
Definition wsplit : list row * list row := (take 56 wrows, drop 56 wrows).

#[local] Instance toy_iso : Isotonic := {|
  iso_fit := fun _ _ => ([f0; f1], [f0; f1]); np_interp := fun x _ _ => x |}.
#[local] Instance toy_mean : NpMean := {| np_mean := fun l => hd f0 l |}.

Lemma wrows_ts : Forall has_ts wrows.
Proof. unfold wrows. apply Forall_fmap, Forall_forall. intros i _. by eexists. Qed.

Lemma wrows_split : chronological_split wrows TRAIN_FRAC = Ok (wsplit.1, wsplit.2).
Proof. vm_compute. reflexivity. Qed.

Lemma run_gate_leakage_free_witness :
  let toy := toy_lgb in
  run_gate train_gbm wrows (Some toy_model) TRAIN_FRAC Refit
    = run_gate (fun r => if decide (length r = 56%nat) then train_gbm r else Raise ValueError)
        wrows (Some toy_model) TRAIN_FRAC Refit /\
  exists r, run_gate train_gbm wrows (Some toy_model) TRAIN_FRAC Refit = Ok r /\
    (Some toy_model = None -> GateResult.ship r = true).
Proof.
  intros toy.
  refine (run_gate_leakage_free train_gbm
    (fun r => if decide (length r = 56%nat) then train_gbm r else Raise ValueError)
    wrows (Some toy_model) TRAIN_FRAC Refit wrows wsplit.1 wsplit.2 wrows_ts _ wrows_split _ _).
  - vm_compute. reflexivity.
  - intros e. vm_compute. discriminate.
  - vm_compute. reflexivity.
Defined.

(** The gate never touches what is being served: whatever its verdict, the
    active model, the active calibrators and the debounce anchor are unchanged;
    an accepted candidate leaves the store as it was, a rejected one adds at most
    one inactive row that says so. *)
Theorem ship_gate_preserves_serving `{LightGBM, Isotonic, NpMean}
    (train_fn : list row -> result gbm) (frac : pyfloat) (store store' : table) (now : Z)
    (candidate : gbm) (rows : list row) (verdict : bool)
    (Hgate : ship_gate train_fn frac store now candidate rows = Ok (verdict, store')) :
  load_active_gbm store' = load_active_gbm store /\
  load_active_calibrators store' = load_active_calibrators store /\
  last_shipped_at store' KIND_GBM = last_shipped_at store KIND_GBM /\
  (verdict = true -> store' = store) /\
  (verdict = false -> exists s,
     trows store' = trows store ++ [ArtifactRecord.mk (next_id store) s false now] /\
     jget "rejected" (ArtifactSpec.metrics s) = JBool true).
Proof.
  unfold ship_gate in Hgate. apply result_bind_Ok in Hgate as (act & _ & Hgate).
  apply result_bind_Ok in Hgate as (cal & _ & Hgate).
  apply result_bind_Ok in Hgate as (r & _ & Hgate).
  destruct (GateResult.ship r); injection Hgate as <- <-; [by split_and!|].
  unfold _persist_rejected. destruct (save store now (rejected_spec candidate r now) false)
    as [[store' i]|e] eqn:E.
  - apply save_inactive in E as (Hrows & ? & ? & Hlast). split_and!; [done|done|by apply Hlast|done|].
    intros _. by eexists.
  - unfold save, _insert in E. rewrite bool_decide_eq_true_2 in E by (by left). done.
Qed.

(** A store serving the toy model, and a gate call without data: rejected. *)
Definition wstore : table := mk_table [ArtifactRecord.mk 1
  (ArtifactSpec.mk KIND_GBM None "a" FEATURE_SCHEMA_VER (GbmModel.to_bytes toy_model) 100 []) true 10] 2.
Definition wstore' : table := mk_table (trows wstore ++ [ArtifactRecord.mk 2
  (rejected_spec toy_model (bootstrap (Some toy_model) "no_eval_data") 0) false 0]) 3.

Lemma ship_gate_preserves_serving_witness :
  load_active_gbm wstore' = load_active_gbm wstore /\
  load_active_calibrators wstore' = load_active_calibrators wstore /\
  last_shipped_at wstore' KIND_GBM = last_shipped_at wstore KIND_GBM /\
  (false = true -> wstore' = wstore) /\
  (false = false -> exists s,
     trows wstore' = trows wstore ++ [ArtifactRecord.mk 2 s false 0] /\
     jget "rejected" (ArtifactSpec.metrics s) = JBool true).
Proof.
  refine (let toy := toy_lgb in
    ship_gate_preserves_serving (H := toy) train_gbm TRAIN_FRAC wstore wstore' 0 toy_model [] false _).
  vm_compute. reflexivity.
Defined.
