(* ===== verification/Retrain.v ===== *)
(** * Retraining

    [ml/retrain.py]: when a retrain fires (event counter, debounce, cooldown),
    what it ships, the single-flight scheduler that runs it off the request
    thread, and the nightly timer.  The label store is an interface ([Labels]);
    the artifact store is the table of [Artifacts]; the ship gate is an argument,
    as in the code. *)

From S2P Require Import Prelude PyFloat PyStr PyJson PyTime Features Trainer MlEval Artifacts Gate.
From Stdlib Require Import ZArith Lia.

#[local] Open Scope string_scope.
#[local] Open Scope list_scope.
#[local] Open Scope Z_scope.

Definition RETRAIN_EVENT_THRESHOLD : Z := 100.
Definition MIN_RETRAIN_INTERVAL : Z := hours 1.
Definition FAILED_ATTEMPT_COOLDOWN : Z := minutes 5.
Definition NIGHTLY_HOUR_UTC : Z := 2.

Definition REASON_EVENTS : string := "events".
Definition REASON_NIGHTLY : string := "nightly".
Definition REASON_ROUTE : string := "route".
Definition STATUS_SHIPPED : string := "shipped".
Definition STATUS_SKIPPED : string := "skipped".

(** [_LabelSource]. *)
Module Labels.
Record t := mk { count_events_since : Z -> Z; fetch_training_frame : list row }.
End Labels.

Module RetrainOutcome.
Record t := mk {
  status : string;
  reason : string;
  version : option string;
  n_events : Z;
  class_counts : list (string * Z)
}.
Definition shipped (o : t) : bool := bool_decide (status o = STATUS_SHIPPED).
Definition skipped (reason : string) : t := mk STATUS_SKIPPED reason None 0 [].
End RetrainOutcome.
Abbreviation outcome := RetrainOutcome.t.

Module Retrainer.
Record config := mk_config { threshold : Z; min_interval : Z; failed_cooldown : Z }.
(** The last attempt that did not ship, and whether it was a cold skip. *)
Record t := mk { last_failed_attempt_at : option Z; last_failed_was_cold : bool }.
End Retrainer.
Import Retrainer (config, threshold, min_interval, failed_cooldown,
                  last_failed_attempt_at, last_failed_was_cold).

Definition default_config : config :=
  Retrainer.mk_config RETRAIN_EVENT_THRESHOLD MIN_RETRAIN_INTERVAL FAILED_ATTEMPT_COOLDOWN.
Definition retrainer_init : Retrainer.t := Retrainer.mk None false.

(** [gate(model, rows)], with the store it may write an audit row to. *)
Abbreviation gate_fn := (table -> Z -> gbm -> list row -> result (bool * table)).

(** [dict(Counter(y))]. *)
Definition counter (ys : list string) : list (string * Z) :=
  fold_left (fun d y => dset y (dgetd y 0 d + 1) d) ys [].

Definition _version (now : Z) : string := "gbm-" +:+ compact_utc now.

Section Retrain.
Context `{LightGBM, Isotonic}.

Definition gbm_spec (reason : string) (now : Z) (m : gbm) (ex : list example) : spec :=
  ArtifactSpec.mk KIND_GBM None (_version now) FEATURE_SCHEMA_VER (GbmModel.to_bytes m)
    (Z.of_nat (length ex))
    [("reason", jstr reason); ("trained_at", jstr (isoformat_utc now));
     ("classes", JObj ((fun cn => (cn.1, JInt cn.2)) <$> counter (ex_y <$> ex)))].

Definition calib_spec (now : Z) (n_events : Z) (pc : option Z * calibrator) : spec :=
  ArtifactSpec.mk KIND_CALIB pc.1 (_version now) FEATURE_SCHEMA_VER
    (IsotonicCalibrator.to_bytes pc.2) n_events
    [("scope", jstr (match pc.1 with None => "install" | Some _ => "project" end))].

(** [_retrain]: the outcome and the store it left; an exception leaves the
  store as the gate left it, and the gate only writes when it rejects. *)
Definition _retrain (labels : Labels.t) (gate : option gate_fn) (store : table)
    (reason : string) (now : Z) : result (outcome * table) :=
  let rows := Labels.fetch_training_frame labels in
  m ← train_gbm rows;
  let ex := build_xy rows in
  let n_events := Z.of_nat (length ex) in
  '(ok, store) ← (match gate with
                  | None => Ok (true, store)
                  | Some g => g store now m rows
                  end);
  if ok : bool then
    calibrators ← fit_calibrators rows;
    '(store', _) ← ship store now (gbm_spec reason now m ex) (calib_spec now n_events <$> calibrators);
    Ok (RetrainOutcome.mk STATUS_SHIPPED reason (Some (_version now)) n_events (counter (ex_y <$> ex)),
        store')
  else Ok (RetrainOutcome.mk STATUS_SKIPPED "gate_rejected" None n_events [], store).

(** What one call did: whether it reached [_retrain], its value or exception,
  and the two states after it. *)
Record attempt := mk_attempt {
  attempted : bool;
  outcome_of : result outcome;
  state_after : Retrainer.t;
  store_after : table
}.

Definition in_cooldown (c : config) (st : Retrainer.t) (now : Z) : bool :=
  match last_failed_attempt_at st with
  | Some t => now - t <? failed_cooldown c
  | None => false
  end.

Definition debounced (c : config) (shipped_at : option Z) (now : Z) : bool :=
  match shipped_at with Some t => now - t <? min_interval c | None => false end.

Definition maybe_retrain (c : config) (labels : Labels.t) (gate : option gate_fn)
    (st : Retrainer.t) (store : table) (reason : string) (now : Z) : attempt :=
  let skip why := mk_attempt false (Ok (RetrainOutcome.skipped why)) st store in
  let shipped_at := last_shipped_at store KIND_GBM in
  if debounced c shipped_at now then skip "debounced"
  else if in_cooldown c st now &&
          negb (last_failed_was_cold st && negb (bool_decide (reason = REASON_EVENTS)))
  then skip "debounced"
  else if bool_decide (reason = REASON_EVENTS) &&
          match shipped_at with
          | Some t => Labels.count_events_since labels t <? threshold c
          | None => false
          end
  then skip "below_threshold"
  else
    match _retrain labels gate store reason now with
    | Raise e =>
        if decide (e = TrainingError)
        then mk_attempt true (Ok (RetrainOutcome.skipped "cold")) (Retrainer.mk (Some now) true) store
        else mk_attempt true (Raise e) st store
    | Ok (o, store') =>
        mk_attempt true (Ok o)
          (if RetrainOutcome.shipped o then Retrainer.mk None (last_failed_was_cold st)
           else Retrainer.mk (Some now) false)
          store'
    end.

(** [retrain]: a forced run, past debounce, cooldown and threshold. *)
Definition retrain (labels : Labels.t) (gate : option gate_fn) (store : table)
    (reason : string) (now : Z) : result (outcome * table) :=
  match _retrain labels gate store reason now with
  | Raise e => if decide (e = TrainingError) then Ok (RetrainOutcome.skipped "cold", store) else Raise e
  | Ok r => Ok r
  end.
End Retrain.

(** ** The single-flight scheduler *)

Definition _REASON_RANK : list (string * Z) :=
  [(REASON_EVENTS, 0); (REASON_NIGHTLY, 1); (REASON_ROUTE, 2)].
Definition rank (r : string) : Z := dgetd r 0 _REASON_RANK.

Module Scheduler.
Record t := mk {
  pending : option string;
  running : option string;   (* the reason of the run in progress *)
  stopping : bool;
  exited : bool;             (* the worker returned *)
  outcomes : list outcome    (* a deque of at most 100 *)
}.
Definition init : t := mk None None false false [].

Definition request (s : t) (reason : string) : t :=
  mk (match pending s with
      | None => Some reason
      | Some p => if rank p <? rank reason then Some reason else Some p
      end) (running s) (stopping s) (exited s) (outcomes s).

Definition stop (s : t) : t := mk (pending s) (running s) true (exited s) (outcomes s).

(** [deque(maxlen=100).append]. *)
Definition push (o : outcome) (l : list outcome) : list outcome :=
  let l' := l ++ [o] in drop (length l' - 100) l'.

(** The worker between runs: [None] while it would wait. *)
Definition take_pending (s : t) : option t :=
  if stopping s then Some (mk (pending s) None true true (outcomes s))
  else match pending s with
       | None => None
       | Some r => Some (mk None (Some r) false (exited s) (outcomes s))
       end.

(** The end of a run: its outcome, or nothing when it raised. *)
Definition finish (s : t) (o : option outcome) : t :=
  mk (pending s) None (stopping s) (exited s)
    (match o with Some o => push o (outcomes s) | None => outcomes s end).

Definition wait_idle_ready (s : t) : bool :=
  bool_decide (pending s = None) && bool_decide (running s = None).
End Scheduler.

(** Producers and the worker interleaved; [open] is the ghost list of requests no
    run has been started for, and the label carries the reason of a started run. *)
Inductive sched_step : Scheduler.t * list string -> option string -> Scheduler.t * list string -> Prop :=
  | sched_request s opn r : sched_step (s, opn) None (Scheduler.request s r, opn ++ [r])
  | sched_stop s opn : sched_step (s, opn) None (Scheduler.stop s, opn)
  | sched_take s opn s' r :
      Scheduler.exited s = false -> Scheduler.running s = None ->
      Scheduler.take_pending s = Some s' -> Scheduler.running s' = Some r ->
      sched_step (s, opn) (Some r) (s', [])
  | sched_exit s opn s' :
      Scheduler.exited s = false -> Scheduler.running s = None ->
      Scheduler.take_pending s = Some s' -> Scheduler.running s' = None ->
      sched_step (s, opn) None (s', opn)
  | sched_finish s opn r o :
      Scheduler.running s = Some r -> sched_step (s, opn) None (Scheduler.finish s o, opn).

Inductive sched_reach : Scheduler.t * list string -> Prop :=
  | sched_init : sched_reach (Scheduler.init, [])
  | sched_next st l st' : sched_reach st -> sched_step st l st' -> sched_reach st'.

(** ** The nightly timer *)

(** The next [hour:00:00] UTC strictly after [now]; [hour] outside 0..23 is the
    error [datetime.replace] raises. *)
Definition next_run (hour now : Z) : result Z :=
  if (0 <=? hour) && (hour <=? 23) then
    let target := day_number now * US_PER_DAY + hours hour in
    Ok (if target <=? now then target + US_PER_DAY else target)
  else Raise ValueError.

Definition seconds_until_next_run (hour now : Z) : result pyfloat :=
  target ← next_run hour now; Ok (total_seconds (target - now)).

(** ** The gate's contract

    What the retrainer relies on of the gate it is given: it keeps the store well
    formed, never moves the debounce anchor, and leaves the store alone when it
    accepts.  The real gate of [Gate] meets it. *)
Class GateContract (g : gate_fn) := {
  gate_anchor : forall store now m rows b store',
    g store now m rows = Ok (b, store') -> last_shipped_at store' KIND_GBM = last_shipped_at store KIND_GBM;
  gate_wf : forall store now m rows b store',
    g store now m rows = Ok (b, store') -> table_inv store -> table_inv store';
  gate_accept : forall store now m rows store',
    g store now m rows = Ok (true, store') -> store' = store
}.

#[export] Instance ship_gate_contract `{LightGBM, Isotonic, NpMean} train_fn frac :
  GateContract (fun store now m rows => ship_gate train_fn frac store now m rows).
Proof.
  assert (forall store now m rows b store',
    ship_gate train_fn frac store now m rows = Ok (b, store') ->
    (store' = store) \/ (b = false /\ exists s i, save store now s false = Ok (store', i) /\
      not_rejected (ArtifactRecord.mk (next_id store) s false now) = false)) as Hcase.
  { intros store now m rows b store' Hg. unfold ship_gate in Hg.
    apply result_bind_Ok in Hg as (act & _ & Hg). apply result_bind_Ok in Hg as (cal & _ & Hg).
    apply result_bind_Ok in Hg as (r & _ & Hg).
    destruct (GateResult.ship r); injection Hg as <- <-; [by left|]. unfold _persist_rejected.
    destruct (save _ _ _ _) as [[store' i]|e] eqn:E; [right|by left].
    split; [done|]. eexists _, i. split; [exact E|done]. }
  split.
  - intros store now m rows b store' [->|(_ & s & i & Hs & Hr)]%Hcase; [done|].
    by apply save_inactive in Hs as (_ & _ & _ & Hl); apply Hl.
  - intros store now m rows b store' [->|(_ & s & i & Hs & _)]%Hcase; [done|]. intros Hi.
    by eapply insert_inv.
  - intros store now m rows store' [->|(? & _)]%Hcase; done.
Qed.

Definition gate_ok (gate : option gate_fn) : Prop :=
  match gate with Some g => GateContract g | None => True end.

(** ** What a run does to the store *)

Section Runs.
Context `{LightGBM, Isotonic}.

Lemma retrain_store labels gate store reason now o store' :
  gate_ok gate -> _retrain labels gate store reason now = Ok (o, store') ->
  (RetrainOutcome.shipped o = true /\
   last_shipped_at store' KIND_GBM =
     Some (match last_shipped_at store KIND_GBM with Some m => Z.max m now | None => now end)) \/
  (RetrainOutcome.shipped o = false /\ last_shipped_at store' KIND_GBM = last_shipped_at store KIND_GBM).
Proof.
  intros Hg. unfold _retrain. intros (m & _ & Hr)%result_bind_Ok.
  apply result_bind_Ok in Hr as ([ok store1] & Hgate & Hr).
  assert (last_shipped_at store1 KIND_GBM = last_shipped_at store KIND_GBM) as Ha.
  { destruct gate as [g|]; [|by injection Hgate as <- <-]. exact (@gate_anchor g Hg _ _ _ _ _ _ Hgate). }
  destruct ok.
  - left. apply result_bind_Ok in Hr as (cals & _ & Hr).
    apply result_bind_Ok in Hr as ([store2 i] & Hship & [= <- <-]).
    split; [done|]. rewrite <- Ha. by eapply ship_anchor.
  - right. by injection Hr as <- <-.
Qed.

Lemma skip_same c labels gate st store reason now :
  let a := maybe_retrain c labels gate st store reason now in
  attempted a = false ->
  state_after a = st /\ store_after a = store /\
  exists why, outcome_of a = Ok (RetrainOutcome.skipped why) /\ why ∈ ["debounced"; "below_threshold"].
Proof.
  unfold maybe_retrain. repeat case_match; simpl; intros; simplify_eq; split_and!; try done;
    eexists; (split; [done|set_solver]).
Qed.

(** What an attempt that did not crash leaves behind. *)
Lemma attempt_leaves c labels gate st store reason now o :
  gate_ok gate ->
  let a := maybe_retrain c labels gate st store reason now in
  attempted a = true -> outcome_of a = Ok o ->
  debounced c (last_shipped_at store KIND_GBM) now = false /\
  if RetrainOutcome.shipped o then
    last_shipped_at (store_after a) KIND_GBM =
      Some (match last_shipped_at store KIND_GBM with Some m => Z.max m now | None => now end) /\
    last_failed_attempt_at (state_after a) = None
  else
    last_shipped_at (store_after a) KIND_GBM = last_shipped_at store KIND_GBM /\
    last_failed_attempt_at (state_after a) = Some now /\
    last_failed_was_cold (state_after a) = bool_decide (RetrainOutcome.reason o = "cold").
Proof.
  intros Hg. unfold maybe_retrain. destruct (debounced c _ now) eqn:Ed; [done|].
  destruct (in_cooldown c st now && _); [done|]. destruct (bool_decide _ && _); [done|].
  destruct (_retrain labels gate store reason now) as [[o' store']|e] eqn:Er.
  - cbn [attempted outcome_of state_after store_after]. intros _ [= <-]. split; [done|].
    destruct (retrain_store _ _ _ _ _ _ _ Hg Er) as [[-> Hl]|[Hs Hl]]; [done|].
    rewrite Hs. split_and!; [done..|]. simpl. symmetry. apply bool_decide_eq_false_2.
    unfold _retrain in Er. apply result_bind_Ok in Er as (m & _ & Er).
    apply result_bind_Ok in Er as ([ok s1] & _ & Er). destruct ok; [|by injection Er as <- <-].
    apply result_bind_Ok in Er as (? & _ & Er). apply result_bind_Ok in Er as ([? ?] & _ & [= <- <-]).
    done.
  - destruct (decide (e = TrainingError)); [|done]. cbn [attempted outcome_of state_after store_after]. intros _ [= <-]. done.
Qed.

(** ** A run of triggers

  Any sequence of [maybe_retrain] calls with non-decreasing clock readings;
  [ships] collects the times of the shipped ones, newest first.  The database
  clock that stamps [trained_at] is the caller's. *)
Definition add_ship (a : attempt) (now : Z) (ships : list Z) : list Z :=
  match outcome_of a with
  | Ok o => if RetrainOutcome.shipped o then now :: ships else ships
  | Raise _ => ships
  end.

Inductive rreach (c : config) : Retrainer.t -> table -> list Z -> Z -> Prop :=
  | rreach_init t0 : rreach c retrainer_init empty_table [] t0
  | rreach_call st store ships t labels gate reason now :
    rreach c st store ships t -> t <= now -> gate_ok gate ->
    let a := maybe_retrain c labels gate st store reason now in
    rreach c (state_after a) (store_after a)
      (add_ship a now ships) now.

Lemma rreach_spaced c st store ships t :
  0 <= min_interval c -> rreach c st store ships t ->
  last_shipped_at store KIND_GBM = head ships /\ Forall (fun x => x <= t) ships /\
  (forall i a b, ships !! i = Some a -> ships !! S i = Some b -> min_interval c <= a - b).
Proof.
  intros Hc. induction 1 as [t0|st store ships t labels gate reason now Hr (IHl & IHle & IHs) Hle Hg a].
  { split_and!; [done|constructor|done]. }
  unfold add_ship.
  assert (Forall (fun x => x <= now) ships) as Hle' by (eapply Forall_impl; [exact IHle|]; simpl; lia).
  destruct (attempted a) eqn:Ea.
  2: { apply skip_same in Ea as (_ & Hs & why & Ho & _). fold a in Hs, Ho. by rewrite Hs, Ho. }
  destruct (outcome_of a) as [o|e] eqn:Eo.
  2: { replace (store_after a) with store; [done|].
       revert Ea Eo. unfold a, maybe_retrain. repeat case_match; simpl; intros; by simplify_eq. }
  pose proof (attempt_leaves c labels gate st store reason now o Hg Ea Eo) as [Hd Hl]. fold a in Hl.
  destruct (RetrainOutcome.shipped o).
  2: { destruct Hl as [-> _]. by split_and!. }
  destruct Hl as [Hl _]. rewrite IHl in Hl, Hd. split_and!; [|by constructor|].
  - rewrite Hl. destruct ships as [|x ships]; [done|]. simpl.
    apply Forall_cons in Hle' as [? _]. f_equal. lia.
  - intros [|i] x y; simpl; [|apply IHs]. intros [= <-] Hy. destruct ships as [|z ships]; [done|].
    simpl in *. simplify_eq. unfold debounced in Hd. lia.
Qed.
End Runs.

(** ** Properties *)

(** Debounce: over any sequence of triggers (any reasons, any label frames,
    any gate that meets its contract, crashes included), two shipped models are
    never closer than the debounce window, and the store's anchor is always the
    time of the newest shipped model. *)
Theorem shipped_models_spaced `{LightGBM, Isotonic} (c : config) (st : Retrainer.t)
    (store : table) (ships : list Z) (t : Z)
    (Hc : 0 <= min_interval c) (Hreach : rreach c st store ships t) :
  last_shipped_at store KIND_GBM = head ships /\
  forall i a b, ships !! i = Some a -> ships !! S i = Some b -> min_interval c <= a - b.
Proof. destruct (rreach_spaced c st store ships t Hc Hreach) as (? & _ & ?). done. Qed.

(** Throttling of failures: after an attempt that did not crash, no
    automatic (event-counted) trigger trains again within the cooldown and the
    debounce window, whatever arrived meanwhile; after a gate rejection no trigger
    of any kind does within the cooldown; but after a cold skip an explicit or
    nightly trigger is not held back by the cooldown. *)
Theorem attempt_throttles `{LightGBM, Isotonic} (c : config)
    (labels labels' : Labels.t) (gate gate' : option gate_fn)
    (st : Retrainer.t) (store : table) (reason reason' : string) (now now' : Z) (o : outcome)
    (Hgate : gate_ok gate)
    (Hatt : attempted (maybe_retrain c labels gate st store reason now) = true)
    (Hout : outcome_of (maybe_retrain c labels gate st store reason now) = Ok o)
    (Hnow : now <= now') :
  let a := maybe_retrain c labels gate st store reason now in
  let a' := maybe_retrain c labels' gate' (state_after a) (store_after a) reason' now' in
  (reason' = REASON_EVENTS -> now' - now < min_interval c -> now' - now < failed_cooldown c ->
     attempted a' = false) /\
  (RetrainOutcome.shipped o = false -> RetrainOutcome.reason o <> "cold" ->
     now' - now < failed_cooldown c -> attempted a' = false) /\
  (RetrainOutcome.shipped o = false -> RetrainOutcome.reason o = "cold" ->
     reason' <> REASON_EVENTS -> debounced c (last_shipped_at store KIND_GBM) now' = false ->
     attempted a' = true).
Proof.
  intros a a'. pose proof (attempt_leaves c labels gate st store reason now o Hgate Hatt Hout) as [_ Hl].
  fold a in Hl. destruct (RetrainOutcome.shipped o).
  - destruct Hl as [Hl _]. split_and!; [|done|done]. intros _ Hw _. unfold a', maybe_retrain.
    rewrite Hl. unfold debounced. rewrite (proj2 (Z.ltb_lt _ _)); [done|]. destruct (last_shipped_at store _); lia.
  - destruct Hl as (Hl & Hf & Hcold).
    assert (in_cooldown c (state_after a) now' = (now' - now <? failed_cooldown c)) as Hin
      by (unfold in_cooldown; by rewrite Hf).
    split_and!.
    + intros -> _ Hw. unfold a', maybe_retrain. rewrite Hin, (proj2 (Z.ltb_lt _ _)) by done.
      destruct (debounced _ _ _); [done|]. rewrite bool_decide_eq_true_2 by done. simpl.
      by rewrite andb_false_r.
    + intros _ Hr Hw. unfold a', maybe_retrain. rewrite Hin, (proj2 (Z.ltb_lt _ _)) by done.
      destruct (debounced _ _ _); [done|]. rewrite Hcold, bool_decide_eq_false_2 by done. done.
    + intros _ Hr Hne Hd. unfold a', maybe_retrain. rewrite Hl, Hd, Hcold, !Hr.
      rewrite (bool_decide_eq_true_2 ("cold" = "cold")) by done.
      rewrite (bool_decide_eq_false_2 (reason' = REASON_EVENTS)) by done.
      rewrite andb_false_r. simpl. destruct (_retrain _ _ _ _ _) as [[? ?]|e]; [done|].
      by destruct (decide (e = TrainingError)).
Qed.

Lemma retrain_ships_spec `{LightGBM, Isotonic} (labels : Labels.t) (gate : option gate_fn)
    (store : table) (reason : string) (now : Z) (m : gbm)
    (Hinv : table_inv store)
    (Hm : train_gbm (Labels.fetch_training_frame labels) = Ok m)
    (Hgate : match gate with
             | None => True
             | Some g => g store now m (Labels.fetch_training_frame labels) = Ok (true, store)
             end)
    (Hproj : Forall (fun r => Row.project_id r <> -1) (Labels.fetch_training_frame labels)) :
  let rows := Labels.fetch_training_frame labels in
  exists o store' cals, _retrain labels gate store reason now = Ok (o, store') /\
    RetrainOutcome.shipped o = true /\ 50 <= RetrainOutcome.n_events o /\
    fit_calibrators rows = Ok cals /\ table_inv store' /\
    load_active_gbm store' =
      Some (ArtifactRecord.mk (next_id store) (gbm_spec reason now m (build_xy rows)) true now) /\
    ArtifactRecord.body <$> load_active_calibrators store' =
      calib_spec now (RetrainOutcome.n_events o) <$> cals.
Proof.
  intros rows. destruct (fit_calibrators_spec rows) as (cals & Hcals & _).
  destruct (ship_spec store now (gbm_spec reason now m (build_xy rows))
              (calib_spec now (Z.of_nat (length (build_xy rows))) <$> cals))
    as (store' & Hship & Hinv' & Hgbm & Hact & _); [done|done| | |].
  { apply Forall_fmap, Forall_forall. done. }
  { rewrite <- list_fmap_compose.
    assert (NoDup (index_key ∘ calib_spec now (Z.of_nat (length (build_xy rows))) <$> cals)) as Hnd; [|exact Hnd].
    assert (index_key ∘ calib_spec now (Z.of_nat (length (build_xy rows))) <$> cals =
            (fun k => (KIND_CALIB, default (-1) k)) <$> cals.*1) as -> by (by rewrite <- list_fmap_compose).
    apply NoDup_fmap_2_strong; [|by eapply fit_calibrators_NoDup].
    intros x y Hp Hq [= E]. destruct x as [p|], y as [q|]; simpl in E; subst; try done.
    - destruct (fit_calibrators_project rows cals (-1) Hcals Hp) as (r & Hr & E).
      by apply (proj1 (Forall_forall _ _) Hproj) in Hr.
    - destruct (fit_calibrators_project rows cals (-1) Hcals Hq) as (r & Hr & E).
      by apply (proj1 (Forall_forall _ _) Hproj) in Hr. }
  assert (50 <= Z.of_nat (length (build_xy rows))) as Hn.
  { unfold train_gbm in Hm. rewrite length_fmap in Hm. fold rows in Hm. unfold GBM_MIN_EVENTS in Hm.
    destruct (_ <? 50) eqn:E; [done|lia]. }
  exists (RetrainOutcome.mk STATUS_SHIPPED reason (Some (_version now)) (Z.of_nat (length (build_xy rows)))
            (counter (ex_y <$> build_xy rows))), store', cals.
  split_and!; try done. unfold _retrain. rewrite Hm. fold rows. cbn [mbind result_bind].
  assert (match gate with None => Ok (true, store) | Some g => g store now m rows end = Ok (true, store))
    as -> by (by destruct gate).
  cbn [mbind result_bind]. rewrite Hcals. cbn [mbind result_bind]. by rewrite Hship.
Qed.

(** A retrain that may ship does, completely: with at least 50 usable events
    of two classes, a gate that is absent or accepts, a well-formed store and no
    project numbered -1, the run never fails; it ships the model trained on the
    frame together with exactly the calibrators fitted on it; both are active
    afterwards, nothing older is, and the store is well formed. *)
Theorem retrain_ships `{LightGBM, Isotonic} (labels : Labels.t) (gate : option gate_fn)
    (store : table) (reason : string) (now : Z) (m : gbm)
    (Hinv : table_inv store)
    (Hm : train_gbm (Labels.fetch_training_frame labels) = Ok m)
    (Hgate : match gate with
             | None => True
             | Some g => g store now m (Labels.fetch_training_frame labels) = Ok (true, store)
             end)
    (Hproj : Forall (fun r => Row.project_id r <> -1) (Labels.fetch_training_frame labels)) :
  let rows := Labels.fetch_training_frame labels in
  exists o store' cals, _retrain labels gate store reason now = Ok (o, store') /\
    RetrainOutcome.shipped o = true /\ 50 <= RetrainOutcome.n_events o /\
    fit_calibrators rows = Ok cals /\ table_inv store' /\
    load_active_gbm store' =
      Some (ArtifactRecord.mk (next_id store) (gbm_spec reason now m (build_xy rows)) true now) /\
    ArtifactRecord.body <$> load_active_calibrators store' =
      calib_spec now (RetrainOutcome.n_events o) <$> cals.
Proof. by apply retrain_ships_spec. Qed.

(** An unexpected exception (not a training error) leaves the cooldown unarmed:
    the next trigger trains again at once. *)
Lemma crash_not_throttled `{LightGBM, Isotonic} c labels gate st store reason now e :
  outcome_of (maybe_retrain c labels gate st store reason now) = Raise e ->
  let a := maybe_retrain c labels gate st store reason now in
  maybe_retrain c labels gate (state_after a) (store_after a) reason now = a /\ attempted a = true.
Proof.
  intros Ho a. assert (state_after a = st /\ store_after a = store /\ attempted a = true) as (-> & -> & ?).
  { revert Ho. unfold a, maybe_retrain. repeat case_match; simpl; intros; by simplify_eq. }
  done.
Qed.

(** ** Scheduler properties *)

Record sched_inv (st : Scheduler.t * list string) : Prop := {
  sv_pending : match Scheduler.pending st.1 with
               | None => st.2 = []
               | Some p => p ∈ st.2 /\ Forall (fun r => rank r <= rank p) st.2
               end;
  sv_bound : (length (Scheduler.outcomes st.1) <= 100)%nat;
  sv_stop : Scheduler.exited st.1 = true -> Scheduler.stopping st.1 = true
}.

Lemma sched_push_bound o l : (length (Scheduler.push o l) <= 100)%nat.
Proof. unfold Scheduler.push. rewrite length_drop. lia. Qed.

Lemma sched_step_inv st l st' : sched_inv st -> sched_step st l st' -> sched_inv st'.
Proof.
  intros [Hp Hb Hs] Hstep. destruct Hstep as [s opn r|s opn|s opn s' r He Hr Ht Hrun|s opn s' He Hr Ht Hrun|s opn r o Hr];
    simpl in *.
  - split; simpl; [|done|done]. destruct (Scheduler.pending s) as [p|].
    + destruct Hp as [Hin Hall]. destruct (rank p <? rank r) eqn:E; (split; [set_solver|]);
        apply Forall_app; (split; [|apply Forall_singleton; lia]); [|done].
      eapply Forall_impl; [exact Hall|]. simpl. lia.
    + subst opn. split; [set_solver|]. by apply Forall_singleton.
  - by split.
  - unfold Scheduler.take_pending in Ht. destruct (Scheduler.stopping s); [by simplify_eq/=|].
    destruct (Scheduler.pending s); simplify_eq/=. split; simpl; [done|done|]. by rewrite He.
  - unfold Scheduler.take_pending in Ht. destruct (Scheduler.stopping s); [|destruct (Scheduler.pending s)];
      simplify_eq/=. by split.
  - split; simpl; [done| |done]. destruct o; [apply sched_push_bound|done].
Qed.

Lemma sched_reach_inv st : sched_reach st -> sched_inv st.
Proof.
  induction 1 as [|st l st' _ IH Hstep]; [split; simpl; [done|lia|done]|]. by eapply sched_step_inv.
Qed.

(** The background scheduler loses no trigger and demotes none: when the
    worker starts a run, the run's reason is one of the requests made since the
    previous start and no such request outranks it; runs never overlap; while
    requests are open and the worker is idle and not stopped, a run can start;
    and the outcome history stays bounded. *)
Theorem scheduler_coalesces (st st' : Scheduler.t * list string) (r : string)
    (Hreach : sched_reach st) (Hstep : sched_step st (Some r) st') :
  r ∈ st.2 /\ Forall (fun q => rank q <= rank r) st.2 /\ st'.2 = [] /\
  Scheduler.running st.1 = None /\ Scheduler.running st'.1 = Some r /\
  (length (Scheduler.outcomes st'.1) <= 100)%nat /\
  (forall s2 opn2, sched_reach (s2, opn2) -> opn2 <> [] -> Scheduler.running s2 = None ->
     Scheduler.stopping s2 = false -> exists q s3, sched_step (s2, opn2) (Some q) (s3, [])).
Proof.
  pose proof (sched_reach_inv st Hreach) as [Hp Hb Hs].
  inversion Hstep as [| |s opn s' r' He Hr Ht Hrun| |]; subst. simpl in *.
  unfold Scheduler.take_pending in Ht. destruct (Scheduler.stopping s); [by simplify_eq/=|].
  destruct (Scheduler.pending s) as [p|]; simplify_eq/=. destruct Hp as [Hin Hall].
  split_and!; try done.
  intros s2 opn2 [Hp2 _ Hs2]%sched_reach_inv Hne Hrun2 Hstop. simpl in *.
  destruct (Scheduler.pending s2) as [q|] eqn:Eq; [|done].
  exists q, (Scheduler.mk None (Some q) false (Scheduler.exited s2) (Scheduler.outcomes s2)).
  apply sched_take; [by destruct (Scheduler.exited s2) eqn:Ee; [rewrite Hs2 in Hstop|]|done| |done].
  unfold Scheduler.take_pending. by rewrite Hstop, Eq.
Qed.

Lemma scheduler_coalesces_witness :
  let s0 := (Scheduler.request (Scheduler.request Scheduler.init "events") "route", ["events"; "route"]) in
  let s1 := (Scheduler.mk None (Some "route") false false [], @nil string) in
  "route" ∈ s0.2 /\ Forall (fun q => rank q <= rank "route") s0.2 /\ s1.2 = [] /\
  Scheduler.running s0.1 = None /\ Scheduler.running s1.1 = Some "route" /\
  (length (Scheduler.outcomes s1.1) <= 100)%nat /\
  (forall s2 opn2, sched_reach (s2, opn2) -> opn2 <> [] -> Scheduler.running s2 = None ->
     Scheduler.stopping s2 = false -> exists q s3, sched_step (s2, opn2) (Some q) (s3, [])).
Proof.
  intros s0 s1. refine (scheduler_coalesces s0 s1 "route" _ _).
  - refine (sched_next _ None _ (sched_next _ None _ sched_init _) _).
    + exact (sched_request Scheduler.init [] "events").
    + exact (sched_request (Scheduler.request Scheduler.init "events") ["events"] "route").
  - refine (sched_take s0.1 s0.2 s1.1 "route" _ _ _ _); reflexivity.
Defined.

(** The nightly timer aims at the next boundary: for a valid hour the wait is
    positive and at most a day, it ends exactly at [hour:00:00] UTC, and no earlier
    boundary lies after now; an invalid hour is an error. *)
Theorem nightly_next_boundary (hour now : Z) :
  match next_run hour now with
  | Ok t => 0 <= hour <= 23 /\ now < t <= now + US_PER_DAY /\ time_of_day t = hours hour /\
            (forall t', now < t' -> time_of_day t' = hours hour -> t <= t')
  | Raise e => e = ValueError /\ ~ (0 <= hour <= 23)
  end.
Proof.
  unfold next_run. destruct ((0 <=? hour) && (hour <=? 23)) eqn:Eh; [|split; [done|lia]].
  assert (0 <= hour <= 23) as Hh by lia. unfold day_number, time_of_day.
  assert (US_PER_DAY = 86400000000) as -> by done.
  assert (hours hour = hour * 3600000000) as -> by (unfold hours, US_PER_SECOND; ring).
  pose proof (Z.div_mod now 86400000000 ltac:(lia)). pose proof (Z.mod_pos_bound now 86400000000 ltac:(lia)).
  set (d := now / 86400000000) in *. set (m := now mod 86400000000) in *.
  assert (forall k, (k * 86400000000 + hour * 3600000000) mod 86400000000 = hour * 3600000000) as Hmod.
  { intros k. rewrite Z.add_comm, Z_mod_plus_full. apply Z.mod_small. lia. }
  assert (forall t', now < t' -> t' mod 86400000000 = hour * 3600000000 ->
    exists k, t' = k * 86400000000 + hour * 3600000000) as Hshape.
  { intros t' _ Ht'. exists (t' / 86400000000). pose proof (Z.div_mod t' 86400000000 ltac:(lia)). lia. }
  destruct (d * 86400000000 + hour * 3600000000 <=? now) eqn:E; split_and!; try lia.
  - etrans; [|apply (Hmod (d + 1))]. f_equal. lia.
  - intros t' Hn Ht'. destruct (Hshape t' Hn Ht') as [k ->]. assert (d < k) by nia. nia.
  - apply Hmod.
  - intros t' Hn Ht'. destruct (Hshape t' Hn Ht') as [k ->]. assert (d <= k) by nia. nia.
Qed.

(** ** Witnesses: the toy booster of [Trainer] on the seventy rows of [Gate] *)

Definition wlabels : Labels.t := Labels.mk (fun _ => 200) wrows.

Definition wa1 : attempt :=
  maybe_retrain (H := toy_lgb) (H0 := toy_iso) default_config wlabels None retrainer_init empty_table
    REASON_EVENTS 0.
Definition wa2 : attempt :=
  maybe_retrain (H := toy_lgb) (H0 := toy_iso) default_config wlabels None (state_after wa1)
    (store_after wa1) REASON_EVENTS (hours 2).

Lemma wa2_reached :
  rreach (H := toy_lgb) (H0 := toy_iso) default_config (state_after wa2) (store_after wa2)
    (add_ship wa2 (hours 2) (add_ship wa1 0 [])) (hours 2).
Proof.
  pose proof (rreach_call (H := toy_lgb) (H0 := toy_iso) default_config _ _ _ 0 wlabels None REASON_EVENTS 0
           (rreach_init (H := toy_lgb) (H0 := toy_iso) default_config 0) ltac:(lia) I) as H1.
  cbv zeta in H1. fold wa1 in H1.
  pose proof (rreach_call (H := toy_lgb) (H0 := toy_iso) default_config _ _ _ 0 wlabels None REASON_EVENTS
           (hours 2) H1 ltac:(unfold hours, US_PER_SECOND; lia) I) as H2.
  cbv zeta in H2. fold wa2 in H2. exact H2.
Qed.

Lemma shipped_models_spaced_witness :
  add_ship wa2 (hours 2) (add_ship wa1 0 []) = [hours 2; 0] /\
  last_shipped_at (store_after wa2) KIND_GBM = head (add_ship wa2 (hours 2) (add_ship wa1 0 [])) /\
  forall i a b, add_ship wa2 (hours 2) (add_ship wa1 0 []) !! i = Some a ->
    add_ship wa2 (hours 2) (add_ship wa1 0 []) !! S i = Some b -> MIN_RETRAIN_INTERVAL <= a - b.
Proof.
  split; [vm_compute; reflexivity|].
  refine (shipped_models_spaced (H := toy_lgb) (H0 := toy_iso) default_config _ _ _ _ _ wa2_reached).
  discriminate.
Defined.

(** A gate rejection at time 0, then an explicit request four minutes later. *)
Definition reject_all : gate_fn := fun store _ _ _ => Ok (false, store).
#[local] Instance reject_all_contract : GateContract reject_all.
Proof.
  split; intros store now m rows.
  - by intros b store' [= _ <-].
  - by intros b store' [= _ <-].
  - done.
Qed.

Definition wr1 : attempt :=
  maybe_retrain (H := toy_lgb) (H0 := toy_iso) default_config wlabels (Some reject_all) retrainer_init
    empty_table REASON_EVENTS 0.
Definition wr2 : attempt :=
  maybe_retrain (H := toy_lgb) (H0 := toy_iso) default_config wlabels None (state_after wr1)
    (store_after wr1) REASON_ROUTE (minutes 4).
Definition wrejected : outcome := RetrainOutcome.mk STATUS_SKIPPED "gate_rejected" None 70 [].

Lemma attempt_throttles_witness :
  attempted wr2 = false /\
  ((REASON_ROUTE = REASON_EVENTS -> minutes 4 - 0 < MIN_RETRAIN_INTERVAL ->
      minutes 4 - 0 < FAILED_ATTEMPT_COOLDOWN -> attempted wr2 = false) /\
   (RetrainOutcome.shipped wrejected = false -> RetrainOutcome.reason wrejected <> "cold" ->
      minutes 4 - 0 < FAILED_ATTEMPT_COOLDOWN -> attempted wr2 = false) /\
   (RetrainOutcome.shipped wrejected = false -> RetrainOutcome.reason wrejected = "cold" ->
      REASON_ROUTE <> REASON_EVENTS ->
      debounced default_config (last_shipped_at empty_table KIND_GBM) (minutes 4) = false ->
      attempted wr2 = true)).
Proof.
  split; [vm_compute; reflexivity|].
  pose proof (attempt_throttles (H := toy_lgb) (H0 := toy_iso) default_config wlabels wlabels
    (Some reject_all) None retrainer_init empty_table REASON_EVENTS REASON_ROUTE 0 (minutes 4) wrejected
    reject_all_contract) as Hw.
  cbv zeta in Hw. fold wr1 in Hw. fold wr2 in Hw. refine (Hw _ _ _).
  - vm_compute. reflexivity.
  - vm_compute. reflexivity.
  - unfold minutes, US_PER_SECOND. lia.
Defined.

Definition wmodel : gbm := toy_model.

Lemma wmodel_trained : train_gbm (H := toy_lgb) wrows = Ok wmodel.
Proof. vm_compute. reflexivity. Qed.

Lemma wrows_projects : Forall (fun r => Row.project_id r <> -1) wrows.
Proof. unfold wrows. apply Forall_fmap, Forall_forall. intros i _. discriminate. Qed.

Lemma retrain_ships_witness :
  exists o store' cals,
    _retrain (H := toy_lgb) (H0 := toy_iso) wlabels None wtable REASON_ROUTE 50 = Ok (o, store') /\
    RetrainOutcome.shipped o = true /\ 50 <= RetrainOutcome.n_events o /\
    fit_calibrators (H := toy_lgb) (H0 := toy_iso) wrows = Ok cals /\ table_inv store' /\
    load_active_gbm store' =
      Some (ArtifactRecord.mk 4 (gbm_spec REASON_ROUTE 50 wmodel (build_xy wrows)) true 50) /\
    ArtifactRecord.body <$> load_active_calibrators store' =
      calib_spec 50 (RetrainOutcome.n_events o) <$> cals.
Proof.
  exact (retrain_ships (H := toy_lgb) (H0 := toy_iso) wlabels None wtable REASON_ROUTE 50 wmodel
           wtable_inv wmodel_trained I wrows_projects).
Defined.
