(* ===== verification/Serving.v ===== *)
(** * Serving the shipped model

    [ml/serving.py]: the predictor's immutable snapshot of the active model and
    calibrators, its refresh, and calibrated predictions.  Every store query of a
    refresh is its own statement, so each sees the store as it is then: the three
    snapshots are separate arguments. *)

From S2P Require Import Prelude PyFloat PyStr PyJson Features Trainer MlEval Artifacts Gate Retrain.
From Stdlib Require Import ZArith Lia.

#[local] Open Scope string_scope.
#[local] Open Scope list_scope.
#[local] Open Scope Z_scope.

Definition DEFAULT_REFRESH_INTERVAL_S : pyfloat := Eval vm_compute in of_Z 30.

Module GbmPrediction.
Record t := mk {
  label : string;
  max_prob : pyfloat;
  raw_max_prob : pyfloat;
  probs : list (string * pyfloat);
  model_version : string;
  calibrated : bool
}.
End GbmPrediction.
Abbreviation gbm_prediction := GbmPrediction.t.

Module ServingState.
Record t := mk {
  model : option gbm;
  version : option string;
  serving_id : option Z;
  calibrators : list (option Z * calibrator)
}.
End ServingState.
Abbreviation serving := ServingState.t.

Definition _EMPTY : serving := ServingState.mk None None None [].

(** The predictor: its snapshot and when it last checked the store. *)
Record predictor := mk_predictor {
  current : serving;
  last_check : pyfloat;
  checked : bool
}.
Definition predictor_init : predictor := mk_predictor _EMPTY f0 false.

Definition add_calibrator (acc : list (option Z * calibrator)) (r : record)
    : result (list (option Z * calibrator)) :=
  let s := ArtifactRecord.body r in
  if negb (ArtifactSpec.feature_schema_ver s =? FEATURE_SCHEMA_VER) then Ok acc
  else c ← IsotonicCalibrator.from_bytes (ArtifactSpec.blob s);
       Ok (dset (ArtifactSpec.project_id s) c acc).

Fixpoint load_calibrators (acc : list (option Z * calibrator)) (rs : list record)
    : result (list (option Z * calibrator)) :=
  match rs with
  | [] => Ok acc
  | r :: rs' => acc' ← add_calibrator acc r; load_calibrators acc' rs'
  end.

(** [_build_state]: one query for the model, a later one for the calibrators. *)
Definition _build_state (at_gbm at_calib : table) : result serving :=
  match load_active_gbm at_gbm with
  | None => Ok _EMPTY
  | Some rec =>
      let s := ArtifactRecord.body rec in
      if negb (ArtifactSpec.feature_schema_ver s =? FEATURE_SCHEMA_VER) then Ok _EMPTY
      else
        m ← GbmModel.from_bytes (ArtifactSpec.blob s);
        cals ← load_calibrators [] (load_active_calibrators at_calib);
        Ok (ServingState.mk (Some m) (Some (ArtifactSpec.version s))
              (Some (ArtifactRecord.model_id rec)) cals)
  end.

Definition fresh (interval : pyfloat) (p : predictor) (now : pyfloat) : bool :=
  checked p && (now - last_check p <? interval)%F.

(** [_ensure_current]: the clock is read outside and again inside the lock. *)
Definition _ensure_current (interval : pyfloat) (p : predictor) (now1 now2 : pyfloat)
    (at_version at_gbm at_calib : table) : predictor * result unit :=
  if fresh interval p now1 then (p, Ok tt)
  else if fresh interval p now2 then (p, Ok tt)
  else
    let p' st := mk_predictor st now2 true in
    match active_gbm_version at_version with
    | None => (p' (match ServingState.model (current p) with Some _ => _EMPTY | None => current p end), Ok tt)
    | Some (model_id, _) =>
        if bool_decide (ServingState.serving_id (current p) = Some model_id)
        then (p' (current p), Ok tt)
        else match _build_state at_gbm at_calib with
             | Ok st => (p' st, Ok tt)
             | Raise e => (p' (current p), Raise e)
             end
    end.

Definition refresh (interval : pyfloat) (p : predictor) (now1 now2 : pyfloat)
    (at_version at_gbm at_calib : table) : predictor * result unit :=
  _ensure_current interval (mk_predictor (current p) f0 false) now1 now2 at_version at_gbm at_calib.

Section Predict.
Context `{LightGBM, Isotonic}.

(** [calibrators.get(project_id) or calibrators.get(None)]. *)
Definition pick_calibrator (cals : list (option Z * calibrator)) (project_id : Z) : option calibrator :=
  match dget (Some project_id) cals with Some c => Some c | None => dget None cals end.

(** [predict] on the snapshot it reads. *)
Definition predict_state (st : serving) (features : list (string * pyfloat)) (project_id : Z)
    : option gbm_prediction :=
  match ServingState.model st with
  | None => None
  | Some m =>
      let vector := to_vector_for features (GbmModel.model_features m) in
      let '(label, raw, probs) := GbmModel.predict_label m vector in
      let cal := pick_calibrator (ServingState.calibrators st) project_id in
      Some (GbmPrediction.mk label
        (match cal with Some c => IsotonicCalibrator.predict c raw | None => raw end)
        raw probs (default "" (ServingState.version st)) (match cal with Some _ => true | None => false end))
  end.

Definition predict (interval : pyfloat) (p : predictor) (now1 now2 : pyfloat)
    (at_version at_gbm at_calib : table) (features : list (string * pyfloat)) (project_id : Z)
    : predictor * result (option gbm_prediction) :=
  let '(p', r) := _ensure_current interval p now1 now2 at_version at_gbm at_calib in
  (p', match r with Ok _ => Ok (predict_state (current p') features project_id) | Raise e => Raise e end).
End Predict.

Definition active_version (p : predictor) : option string := ServingState.version (current p).
Definition has_model (p : predictor) : bool :=
  match ServingState.model (current p) with Some _ => true | None => false end.

(** ** Predictions *)

(** A served prediction is always actionable: the label is a base group, the
    calibrated confidence and the raw one are probabilities, the raw one is the
    label's own, the project's calibrator is preferred to the install-wide one,
    and no prediction is made exactly when no model is loaded. *)
Theorem predict_state_sound `{LightGBMSpec, Isotonic} (st : serving)
    (features : list (string * pyfloat)) (project_id : Z)
    (Hcl : forall m, ServingState.model st = Some m ->
             Forall (fun c => c ∈ BASE_LABELS) (GbmModel.classes m)) :
  match predict_state st features project_id with
  | None => ServingState.model st = None
  | Some p =>
      GbmPrediction.label p ∈ BASE_LABELS /\ in01 (GbmPrediction.max_prob p) = true /\
      in01 (GbmPrediction.raw_max_prob p) = true /\
      GbmPrediction.raw_max_prob p = dgetd (GbmPrediction.label p) f0 (GbmPrediction.probs p) /\
      GbmPrediction.calibrated p =
        match pick_calibrator (ServingState.calibrators st) project_id with Some _ => true | None => false end /\
      (GbmPrediction.calibrated p = false -> GbmPrediction.max_prob p = GbmPrediction.raw_max_prob p)
  end.
Proof.
  unfold predict_state. destruct (ServingState.model st) as [m|]; [|done].
  pose proof (predict_label_spec m (to_vector_for features (GbmModel.model_features m)) (Hcl m eq_refl)) as Hp.
  destruct (GbmModel.predict_label _ _) as [[label raw] probs].
  destruct Hp as (Hl & _ & Hr & H01 & _).
  destruct (pick_calibrator _ _) as [c|]; cbn; split_and!; try done.
  unfold IsotonicCalibrator.predict. destruct (IsotonicCalibrator.x c); [done|apply clamp01_in01].
Qed.

Lemma predict_state_sound_witness :
  let st := ServingState.mk (Some toy_model) (Some "gbm-1") (Some 1) [] in
  match predict_state (H := toy_lgb) (H0 := toy_iso) st [] 7 with
  | None => ServingState.model st = None
  | Some p =>
      GbmPrediction.label p ∈ BASE_LABELS /\ in01 (GbmPrediction.max_prob p) = true /\
      in01 (GbmPrediction.raw_max_prob p) = true /\
      GbmPrediction.raw_max_prob p = dgetd (GbmPrediction.label p) f0 (GbmPrediction.probs p) /\
      GbmPrediction.calibrated p =
        match pick_calibrator (ServingState.calibrators st) 7 with Some _ => true | None => false end /\
      (GbmPrediction.calibrated p = false -> GbmPrediction.max_prob p = GbmPrediction.raw_max_prob p)
  end.
Proof.
  refine (predict_state_sound (H := toy_lgb) (H0 := toy_lgb_spec) (H1 := toy_iso)
    (ServingState.mk (Some toy_model) (Some "gbm-1") (Some 1) []) [] 7 _).
  intros m [= <-].
  exact (bool_decide_eq_true_1 (Forall (fun c => c ∈ BASE_LABELS) (GbmModel.classes toy_model)) eq_refl).
Defined.

(** ** From a ship to what is served *)

Lemma dset_append_new {K V} `{EqDecision K} (k : K) (v : V) d : k ∉ d.*1 -> dset k v d = d ++ [(k, v)].
Proof.
  induction d as [|[k' v'] d IH]; simpl; [done|]. rewrite not_elem_of_cons. intros [Hne Hni].
  rewrite decide_False by done. f_equal. by apply IH.
Qed.

Lemma load_calibrators_spec now n cals rs acc :
  ArtifactRecord.body <$> rs = calib_spec now n <$> cals -> NoDup (acc.*1 ++ cals.*1) ->
  load_calibrators acc rs = Ok (acc ++ cals).
Proof.
  revert rs acc. induction cals as [|[p c] cals IH]; intros rs acc Hb Hnd.
  { destruct rs; [|done]. simpl. by rewrite app_nil_r. }
  destruct rs as [|r rs]; [done|]. rewrite !fmap_cons in Hb. injection Hb as Hr Hb. rewrite fmap_cons in Hnd.
  cbn [load_calibrators]. unfold add_calibrator. rewrite Hr. cbn [ArtifactSpec.feature_schema_ver calib_spec].
  rewrite Z.eqb_refl. cbn [negb ArtifactSpec.blob ArtifactSpec.project_id fst snd calib_spec].
  rewrite calibrator_blob. cbn [mbind result_bind]. rewrite dset_append_new.
  - rewrite (IH rs) by (try done; rewrite fmap_app; by rewrite <- (assoc (++))). by rewrite <- (assoc (++)).
  - apply NoDup_app in Hnd as (_ & Hd & _). intros Hin. apply (Hd _ Hin). by left.
Qed.

(** What is shipped is what is served: after a retrain that ships, a refresh
    of any predictor that was serving something older makes it serve exactly the
    model trained on the frame, under the new version, with exactly the
    calibrators fitted on the frame. *)
Theorem shipped_model_is_served `{LightGBM, Isotonic} (labels : Labels.t) (gate : option gate_fn)
    (store : table) (reason : string) (now : Z) (m : gbm)
    (interval now1 now2 : pyfloat) (p : predictor)
    (Hinv : table_inv store)
    (Hm : train_gbm (Labels.fetch_training_frame labels) = Ok m)
    (Hgate : match gate with
             | None => True
             | Some g => g store now m (Labels.fetch_training_frame labels) = Ok (true, store)
             end)
    (Hproj : Forall (fun r => Row.project_id r <> -1) (Labels.fetch_training_frame labels))
    (Holder : forall i, ServingState.serving_id (current p) = Some i -> i < next_id store) :
  exists o store' cals p', _retrain labels gate store reason now = Ok (o, store') /\
    fit_calibrators (Labels.fetch_training_frame labels) = Ok cals /\
    refresh interval p now1 now2 store' store' store' = (p', Ok tt) /\
    current p' = ServingState.mk (Some m) (Some (_version now)) (Some (next_id store)) cals.
Proof.
  destruct (retrain_ships_spec labels gate store reason now m Hinv Hm Hgate Hproj)
    as (o & store' & cals & Hr & Hs & _ & Hc & Hinv' & Hgbm & Hcals).
  exists o, store', cals, (mk_predictor (ServingState.mk (Some m) (Some (_version now))
                             (Some (next_id store)) cals) now2 true).
  split_and!; [done|done| |done].
  unfold refresh, _ensure_current, fresh. cbn [checked andb current].
  unfold active_gbm_version. rewrite Hgbm. cbn [fmap option_fmap option_map].
  rewrite bool_decide_eq_false_2.
  2: { simpl. intros Hi. specialize (Holder _ Hi). lia. }
  unfold _build_state. rewrite Hgbm. cbn [ArtifactRecord.body ArtifactSpec.feature_schema_ver gbm_spec].
  rewrite Z.eqb_refl. cbn [negb ArtifactSpec.blob gbm_spec]. rewrite model_blob. cbn [mbind result_bind].
  rewrite (load_calibrators_spec now (RetrainOutcome.n_events o) cals) by
    (try done; by eapply fit_calibrators_NoDup).
  cbn [mbind result_bind app]. do 4 f_equal.
  unfold train_gbm in Hm. destruct (_ <? _); [done|]. destruct (_ <? _); [done|]. injection Hm as <-.
  unfold _fit_booster. destruct (lgb_fit _ _). done.
Qed.

Lemma shipped_model_is_served_witness :
  exists o store' cals p',
    _retrain (H := toy_lgb) (H0 := toy_iso) wlabels None wtable REASON_ROUTE 50 = Ok (o, store') /\
    fit_calibrators (H := toy_lgb) (H0 := toy_iso) wrows = Ok cals /\
    refresh DEFAULT_REFRESH_INTERVAL_S predictor_init f0 f0 store' store' store' = (p', Ok tt) /\
    current p' = ServingState.mk (Some wmodel) (Some (_version 50)) (Some 4) cals.
Proof.
  refine (shipped_model_is_served (H := toy_lgb) (H0 := toy_iso) wlabels None wtable REASON_ROUTE 50 wmodel
           DEFAULT_REFRESH_INTERVAL_S f0 f0 predictor_init wtable_inv wmodel_trained I wrows_projects _).
  discriminate.
Defined.

(** A ship between the two queries of a refresh: the old model is served with the
    new model's calibrators until the next check. *)
Definition old_model_spec : spec :=
  ArtifactSpec.mk KIND_GBM None "old" FEATURE_SCHEMA_VER (GbmModel.to_bytes toy_model) 60 [].
Definition new_model_spec : spec :=
  ArtifactSpec.mk KIND_GBM None "new" FEATURE_SCHEMA_VER (GbmModel.to_bytes toy_model) 90 [].
Definition new_calibrator : calibrator := IsotonicCalibrator.mk [f0] [f1].
Definition new_calib_spec : spec :=
  ArtifactSpec.mk KIND_CALIB None "new" FEATURE_SCHEMA_VER (IsotonicCalibrator.to_bytes new_calibrator) 90 [].

Lemma torn_refresh :
  exists before after_ship p',
    ship empty_table 0 old_model_spec [] = Ok (before, 1) /\
    ship before 10 new_model_spec [new_calib_spec] = Ok (after_ship, 2) /\
    refresh DEFAULT_REFRESH_INTERVAL_S predictor_init f0 f0 before before after_ship = (p', Ok tt) /\
    ServingState.version (current p') = Some "old" /\
    ServingState.calibrators (current p') = [(None, new_calibrator)].
Proof.
  eexists _, _, _. split; [vm_compute; reflexivity|]. split; [vm_compute; reflexivity|].
  split; [vm_compute; reflexivity|]. split; reflexivity.
Qed.
