(* ===== verification/Breaker.v ===== *)
(** * The circuit breaker

    [llm/breaker.py]: the state machine that wraps every Ollama call.  Each
    operation runs under the breaker's lock, so it is one atomic step; the clock
    reading it makes is an argument, and the state-change callback's calls are
    part of the result. *)

From S2P Require Import Prelude PyFloat.
From Stdlib Require Import ZArith Lia.

#[local] Open Scope Z_scope.

Inductive BreakerState := CLOSED | OPEN | HALF_OPEN.

#[export] Instance BreakerState_eq_dec : EqDecision BreakerState.
Proof. solve_decision. Defined.

(** [BreakerState.value], what the gauge and [GET /health] report. *)
Definition state_value (s : BreakerState) : string :=
  match s with CLOSED => "closed" | OPEN => "open" | HALF_OPEN => "half_open" end.

Module CircuitBreaker.
Record params := mk_params {
  fail_threshold : Z;
  base_cooldown : pyfloat;
  max_cooldown : pyfloat
}.
Record t := mk {
  state : BreakerState;
  consecutive_failures : Z;
  cooldown : pyfloat;
  opened_at : pyfloat
}.
End CircuitBreaker.
Import CircuitBreaker (params, fail_threshold, base_cooldown, max_cooldown,
                       state, consecutive_failures, cooldown, opened_at).
Abbreviation breaker := CircuitBreaker.t.

Definition default_params : params := CircuitBreaker.mk_params 3 (of_Z 60) (of_Z 900).

Definition initial (p : params) : breaker := {|
  state := CLOSED; consecutive_failures := 0; cooldown := base_cooldown p; opened_at := f0 |}.

(** The callback arguments [(old, new)] a step produces. *)
Abbreviation changes := (list (BreakerState * BreakerState)).

Definition _transition (b : breaker) (new : BreakerState) : breaker * changes :=
  if decide (state b = new) then (b, [])
  else ({| state := new; consecutive_failures := consecutive_failures b;
           cooldown := cooldown b; opened_at := opened_at b |}, [(state b, new)]).

Definition allow (b : breaker) (now : pyfloat) : breaker * bool * changes :=
  match state b with
  | OPEN =>
      if (cooldown b <=? now - opened_at b)%F then
        let '(b', ch) := _transition b HALF_OPEN in (b', true, ch)
      else (b, false, [])
  | CLOSED | HALF_OPEN => (b, true, [])
  end.

Definition record_success (p : params) (b : breaker) : breaker * changes :=
  _transition {| state := state b; consecutive_failures := 0;
                 cooldown := base_cooldown p; opened_at := opened_at b |} CLOSED.

Definition record_response (p : params) (b : breaker) : breaker * changes := record_success p b.

Definition record_failure (p : params) (b : breaker) (now : pyfloat) : breaker * changes :=
  match state b with
  | HALF_OPEN =>
      _transition {| state := HALF_OPEN; consecutive_failures := consecutive_failures b;
                     cooldown := pymin2 (cooldown b * of_Z 2)%F (max_cooldown p);
                     opened_at := now |} OPEN
  | s =>
      let failures := consecutive_failures b + 1 in
      if bool_decide (s = CLOSED) && (fail_threshold p <=? failures) then
        _transition {| state := s; consecutive_failures := failures;
                       cooldown := base_cooldown p; opened_at := now |} OPEN
      else ({| state := s; consecutive_failures := failures;
               cooldown := cooldown b; opened_at := opened_at b |}, [])
  end.

(** ** The machine *)

Inductive event :=
  | EAllow (now : pyfloat)
  | ESuccess
  | EResponse
  | EFailure (now : pyfloat).

Definition step (p : params) (b : breaker) (e : event) : breaker * changes :=
  match e with
  | EAllow now => let '(b', _, ch) := allow b now in (b', ch)
  | ESuccess => record_success p b
  | EResponse => record_response p b
  | EFailure now => record_failure p b now
  end.

Fixpoint run (p : params) (b : breaker) (es : list event) : breaker * changes :=
  match es with
  | [] => (b, [])
  | e :: es' => let '(b1, c1) := step p b e in let '(b2, c2) := run p b1 es' in (b2, c1 ++ c2)
  end.

Inductive reachable (p : params) : breaker -> Prop :=
  | reach_init : reachable p (initial p)
  | reach_step b e : reachable p b -> reachable p (step p b e).1.

Lemma run_app p b es1 es2 :
  run p b (es1 ++ es2) =
  let '(b1, c1) := run p b es1 in let '(b2, c2) := run p b1 es2 in (b2, c1 ++ c2).
Proof.
  revert b. induction es1 as [|e es1 IH]; intros b; simpl; [by destruct (run p b es2)|].
  destruct (step p b e) as [b1 c1]. rewrite IH.
  destruct (run p b1 es1) as [b2 c2]. destruct (run p b2 es2) as [b3 c3].
  by rewrite (assoc (++)).
Qed.

Lemma reachable_run p es : reachable p (run p (initial p) es).1.
Proof.
  induction es as [|e es IH] using rev_ind; [constructor|].
  rewrite run_app. destruct (run p (initial p) es) as [b c]. simpl.
  pose proof (reach_step p b e IH) as Hr. by destruct (step p b e).
Qed.

(** ** Invariants *)

(** The back-off sequence: the cooldown after [k] failed probes in a row. *)
Definition backoff (p : params) (k : nat) : pyfloat :=
  Nat.iter k (fun c => pymin2 (c * of_Z 2)%F (max_cooldown p)) (base_cooldown p).

Record breaker_inv (p : params) (b : breaker) : Prop := {
  inv_closed : state b = CLOSED <-> consecutive_failures b < fail_threshold p;
  inv_nonneg : 0 <= consecutive_failures b;
  inv_cooldown : exists k, cooldown b = backoff p k /\ (state b = CLOSED -> k = O)
}.

Lemma breaker_inv_initial p : 1 <= fail_threshold p -> breaker_inv p (initial p).
Proof.
  intros Hp. split; simpl; [split; [lia|done]|lia|]. exists O. done.
Qed.

Lemma breaker_inv_step p b e :
  1 <= fail_threshold p -> breaker_inv p b -> breaker_inv p (step p b e).1.
Proof.
  intros Hp [Hc Hn (k & Hk & Hk0)]. destruct e as [now| | |now]; simpl.
  - unfold allow. destruct (state b) eqn:E; simpl.
    + split; [by rewrite E|done|]. exists k. by rewrite E.
    + destruct (_ <=? _)%F; simpl; [|split; [by rewrite E|done|exists k; by rewrite E]].
      unfold _transition. rewrite E. simpl. split; simpl; [|done|exists k; done].
      split; [done|]. intros H. by apply Hc in H.
    + split; [by rewrite E|done|]. exists k. by rewrite E.
  - unfold record_success, _transition. case_decide; simpl in *;
      (split; simpl; [split; [lia|done]|lia|exists O; done]).
  - unfold record_response, record_success, _transition. case_decide; simpl in *;
      (split; simpl; [split; [lia|done]|lia|exists O; done]).
  - unfold record_failure. destruct (state b) eqn:E; simpl.
    + destruct (Z.leb_spec (fail_threshold p) (consecutive_failures b + 1)); simpl.
      * split; simpl; [split; [done|lia]|lia|]. exists O. done.
      * split; simpl; [split; [lia|done]|lia|]. exists k. auto.
    + split; simpl; [|lia|by exists k]. split; [done|]. intros.
      assert (OPEN = CLOSED) by (apply Hc; lia). done.
    + split; simpl; [|done|].
      * split; [done|]. intros H. by apply Hc in H.
      * exists (S k). simpl. by rewrite Hk.
Qed.

(** In every state the breaker can reach it is closed exactly when fewer than
    [fail_threshold] transport failures have accumulated since the last healthy
    response, and its cooldown is a value of the capped doubling sequence, the
    base one while closed. *)
Theorem breaker_reachable_inv (p : params) (b : breaker)
    (Hp : 1 <= fail_threshold p) (Hr : reachable p b) : breaker_inv p b.
Proof.
  induction Hr as [|b e Hr IH]; [by apply breaker_inv_initial|by apply breaker_inv_step].
Qed.

Lemma breaker_reachable_inv_witness :
  1 <= fail_threshold default_params
  /\ breaker_inv default_params
       (run default_params (initial default_params)
          [EFailure f1; EFailure f1; EFailure f1; EAllow (of_Z 61); EFailure (of_Z 62)]).1.
Proof.
  split; [vm_compute; discriminate|].
  apply (breaker_reachable_inv default_params); [vm_compute; discriminate|apply reachable_run].
Defined.

(** With the service's own parameters the back-off is 60, 120, 240, 480 and then
    900 seconds for ever. *)
Lemma default_backoff k :
  backoff default_params k ∈ [of_Z 60; of_Z 120; of_Z 240; of_Z 480; of_Z 900]
  /\ (5 <= k -> backoff default_params k = of_Z 900)%nat.
Proof.
  assert (forall j, backoff default_params (4 + j) = of_Z 900) as H900.
  { induction j as [|j IH]; [by vm_compute|].
    replace (4 + S j)%nat with (S (4 + j)) by lia. unfold backoff in *.
    rewrite Nat.iter_succ, IH. by vm_compute. }
  split.
  - destruct k as [|[|[|[|k]]]]; [by vm_compute; left|by vm_compute; right; left|
      by vm_compute; right; right; left|by vm_compute; right; right; right; left|].
    change (S (S (S (S k)))) with (4 + k)%nat. rewrite H900. by do 4 right; left.
  - intros Hk. replace k with (4 + (k - 4))%nat by lia. apply H900.
Qed.

(** ** Liveness and safety of the gate *)

(** A run of [allow] calls, with their answers. *)
Fixpoint allows (b : breaker) (times : list pyfloat) : breaker * list bool :=
  match times with
  | [] => (b, [])
  | t :: ts => let '(b1, r, _) := allow b t in let '(b2, rs) := allows b1 ts in (b2, r :: rs)
  end.

(** Opening protects the sidecar for the whole cooldown and then lets one
    probe decide: at the failure that reaches the threshold the breaker opens;
    every call asked for before the cooldown has elapsed is refused and changes
    nothing; the first call after it is let through and makes the breaker
    half-open; that probe's success closes it with the counters reset, its
    failure re-opens it with the cooldown doubled up to the cap. *)
Theorem breaker_open_cycle (p : params) (b : breaker) (t t1 t2 : pyfloat) (early : list pyfloat)
    (Hclosed : state b = CLOSED)
    (Hthr : fail_threshold p <= consecutive_failures b + 1)
    (Hearly : Forall (fun x => (base_cooldown p <=? x - t)%F = false) early)
    (Hlate : (base_cooldown p <=? t1 - t)%F = true) :
  let bo := (record_failure p b t).1 in
  let bh := (allow bo t1).1.1 in
  state bo = OPEN
  /\ allows bo early = (bo, (fun _ => false) <$> early)
  /\ (allow bo t1).1.2 = true /\ state bh = HALF_OPEN
  /\ state (record_success p bh).1 = CLOSED
  /\ consecutive_failures (record_success p bh).1 = 0
  /\ cooldown (record_success p bh).1 = base_cooldown p
  /\ state (record_failure p bh t2).1 = OPEN
  /\ opened_at (record_failure p bh t2).1 = t2
  /\ cooldown (record_failure p bh t2).1 = pymin2 (base_cooldown p * of_Z 2)%F (max_cooldown p).
Proof.
  cbv zeta. unfold record_failure. rewrite Hclosed. simpl.
  rewrite (proj2 (Z.leb_le _ _) Hthr). unfold _transition. simpl.
  set (bo := {| state := OPEN; consecutive_failures := _; cooldown := _; opened_at := _ |}).
  assert (forall x, (base_cooldown p <=? x - t)%F = false -> allow bo x = (bo, false, [])) as Hno.
  { intros x Hx. unfold allow. simpl. by rewrite Hx. }
  split; [done|]. split.
  { induction Hearly as [|x l Hx Hl IH]; simpl; [done|]. rewrite (Hno x Hx).
    change (allows bo l) with (allows bo l). by rewrite IH. }
  unfold allow. simpl. rewrite Hlate. simpl. done.
Qed.

Lemma breaker_open_cycle_witness :
  let b := {| state := CLOSED; consecutive_failures := 2; cooldown := of_Z 60; opened_at := f0 |} in
  let bo := (record_failure default_params b (of_Z 100)).1 in
  allows bo [of_Z 101; of_Z 159] = (bo, [false; false])
  /\ (allow bo (of_Z 160)).1.2 = true.
Proof.
  destruct (breaker_open_cycle default_params
    {| state := CLOSED; consecutive_failures := 2; cooldown := of_Z 60; opened_at := f0 |}
    (of_Z 100) (of_Z 160) (of_Z 161) [of_Z 101; of_Z 159]) as (_ & H1 & H2 & _).
  - reflexivity.
  - vm_compute. discriminate.
  - repeat constructor; vm_compute; reflexivity.
  - vm_compute. reflexivity.
  - split; [exact H1|exact H2].
Defined.

(** The callback tells the whole story: over any run of operations the
    reported transitions form a chain from the initial to the final state, each
    one a real change along an edge of the machine (closed to open, open to
    half-open, half-open to open, anything back to closed). *)
Theorem breaker_changes_chain (p : params) (b : breaker) (es : list event) :
  let '(b', ch) := run p b es in
  (forall o n, (o, n) ∈ ch -> o <> n /\
     (n = CLOSED \/ (o, n) = (CLOSED, OPEN) \/ (o, n) = (OPEN, HALF_OPEN) \/ (o, n) = (HALF_OPEN, OPEN)))
  /\ (fix chain (s : BreakerState) (l : changes) : Prop :=
        match l with
        | [] => s = state b'
        | (o, n) :: l' => o = s /\ chain n l'
        end) (state b) ch.
Proof.
  revert b. induction es as [|e es IH]; intros b; simpl; [split; [|done]; intros o n H; by apply elem_of_nil in H|].
  assert ((step p b e).2 = [] /\ state (step p b e).1 = state b
    \/ exists n, (step p b e).2 = [(state b, n)] /\ state (step p b e).1 = n /\ state b <> n
         /\ (n = CLOSED \/ (state b, n) = (CLOSED, OPEN) \/ (state b, n) = (OPEN, HALF_OPEN)
             \/ (state b, n) = (HALF_OPEN, OPEN))) as Hstep.
  { destruct e as [now| | |now]; simpl;
      unfold allow, record_failure, record_response, record_success, _transition;
      destruct (state b) eqn:E; simpl; try (destruct (_ <=? _)%F); try (destruct (_ <=? _));
      simpl; rewrite ?E; simpl; eauto 10; right; eexists; split_and!; eauto; done. }
  destruct (step p b e) as [b1 c1]. specialize (IH b1). destruct (run p b1 es) as [b2 c2].
  simpl in Hstep. destruct IH as [IH1 IH2].
  destruct Hstep as [[-> Hs]|(n & -> & Hs & Hne & Hedge)]; simpl.
  - rewrite <- Hs. split; [exact IH1|exact IH2].
  - split; [|split; [done|]; rewrite <- Hs; exact IH2].
    intros o m [Heq|Hin]%elem_of_cons; [|by apply IH1]. simplify_eq. auto.
Qed.
