(* ===== verification/LlmQueue.v ===== *)
(** * The bounded LLM job queue

    [llm/queue.py]: a priority queue drained by one worker.  Every operation
    runs under the queue's lock and is one atomic step on the state; the worker
    loop and the producers interleave as steps of a transition relation.  The
    heap primitives are Python's [heapq]; the class [Heapq] states what that
    module documents of them, and a sorted list implements it. *)

From S2P Require Import Prelude PyJson.
From Stdlib Require Import ZArith Lia.

#[local] Open Scope string_scope.
#[local] Open Scope list_scope.
#[local] Open Scope Z_scope.

Definition ROLE_PRIORITY : list (string * Z) :=
  [("judge", 0); ("extractor", 1); ("coldstart", 1); ("explainer", 2); ("abstain_explainer", 2)].

Module LLMJob.
Record t := mk { role : string; project_id : Z; item_id : Z; payload : list (string * json) }.
(** [ROLE_PRIORITY[self.role]]. *)
Definition priority (j : t) : result Z :=
  match dget (role j) ROLE_PRIORITY with
  | Some p => Ok p
  | None => Raise (KeyError (role j))
  end.
End LLMJob.

(** A heap tuple [(priority, seq, job)]; sequence numbers are unique, so the
    comparison never reaches the job. *)
Record entry := mk_entry { prio : Z; seqno : Z; ejob : LLMJob.t }.

#[export] Instance job_eq_dec : EqDecision LLMJob.t.
Proof. solve_decision. Defined.
#[export] Instance entry_eq_dec : EqDecision entry.
Proof. solve_decision. Defined.

Definition entry_leb (a b : entry) : bool :=
  (prio a <? prio b) || ((prio a =? prio b) && (seqno a <=? seqno b)).

Lemma entry_leb_total a b : entry_leb a b = false -> entry_leb b a = true.
Proof. unfold entry_leb. lia. Qed.
Lemma entry_leb_trans a b c : entry_leb a b = true -> entry_leb b c = true -> entry_leb a c = true.
Proof. unfold entry_leb. lia. Qed.

(** What [heapq] documents: the operations permute, keep the heap invariant, and
    [heappop] takes a smallest element. *)
Class Heapq := {
  is_heap : list entry -> Prop;
  heappush : list entry -> entry -> list entry;
  heappop : list entry -> option (entry * list entry);
  heapify : list entry -> list entry;
  heap_nil : is_heap [];
  heappush_spec : forall h x, is_heap h -> is_heap (heappush h x) /\ heappush h x ≡ₚ x :: h;
  heappop_nil : heappop [] = None;
  heappop_spec : forall h, is_heap h -> h <> [] ->
    exists m h', heappop h = Some (m, h') /\ h ≡ₚ m :: h' /\ is_heap h'
                 /\ forall x, x ∈ h -> entry_leb m x = true;
  heapify_spec : forall h, is_heap (heapify h) /\ heapify h ≡ₚ h
}.

(** The sorted list is a heap. *)
Definition sorted_heap (h : list entry) : Prop := StronglySorted (fun a b => entry_leb a b = true) h.

#[export] Program Instance sorted_heapq : Heapq := {|
  is_heap := sorted_heap;
  heappush := fun h x => sort_insert entry_leb x h;
  heappop := fun h => match h with [] => None | m :: h' => Some (m, h') end;
  heapify := pysorted entry_leb |}.
Next Obligation. constructor. Qed.
Next Obligation.
  intros h x Hh. split; [|apply sort_insert_perm].
  by apply sort_insert_sorted; [apply entry_leb_total|apply entry_leb_trans|].
Qed.
Next Obligation. done. Qed.
Next Obligation.
  intros [|m h] Hh Hne; [done|]. exists m, h. inversion Hh as [|? ? Hs Hall]; subst.
  split_and!; try done. intros x [->|Hx]%elem_of_cons; [unfold entry_leb; lia|].
  by apply (proj1 (Forall_forall _ _) Hall).
Qed.
Next Obligation.
  intros h. split; [|apply pysorted_perm].
  apply pysorted_sorted; [apply entry_leb_total|apply entry_leb_trans].
Qed.

Module LlmQueue.
Record t := mk { heap : list entry; seq : Z; stopping : bool }.
End LlmQueue.
Import LlmQueue (heap, seq, stopping).
Abbreviation queue := LlmQueue.t.

Definition empty_queue : queue := LlmQueue.mk [] 0 false.

(** What an operation did: the state it left, the [on_drop] calls it made, and
    its value or the exception that ended it. *)
Record outcome (A : Type) := mk_outcome { after : queue; drops : list string; value : result A }.
Arguments mk_outcome {A}. Arguments after {A}. Arguments drops {A}. Arguments value {A}.

(** [max(entry[0] for entry in heap)]. *)
Definition worst_priority (h : list entry) : option Z :=
  pymax_list (fun a b => b <? a) (prio <$> h).

(** The index of the smallest sequence number among the least urgent entries. *)
Definition oldest_worst (h : list entry) (worst : Z) : option (nat * entry) :=
  pymax_list (fun a b => seqno a.2 <? seqno b.2)
    (List.filter (fun ie => prio ie.2 =? worst) (imap pair h)).

(** [heap[idx] = heap[-1]; heap.pop()]. *)
Definition swap_remove (idx : nat) (h : list entry) : list entry :=
  match last h with
  | Some e => take (length h - 1) (<[idx := e]> h)
  | None => h
  end.

Section Queue.
Context `{!Heapq}.

Definition _reject_or_evict_locked (q : queue) (incoming : LLMJob.t) : outcome bool :=
  match worst_priority (heap q) with
  | None => mk_outcome q [] (Raise ValueError)
  | Some worst =>
      match oldest_worst (heap q) worst with
      | None => mk_outcome q [] (Raise ValueError)
      | Some (idx, _) =>
          match LLMJob.priority incoming with
          | Raise e => mk_outcome q ["queue_full"] (Raise e)
          | Ok p =>
              if worst <? p then mk_outcome q ["queue_full"] (Ok true)
              else mk_outcome
                     (LlmQueue.mk (heapify (swap_remove idx (heap q))) (seq q) (stopping q))
                     ["queue_full"] (Ok false)
          end
      end
  end.

Definition push_locked (q : queue) (job : LLMJob.t) (ds : list string) : outcome unit :=
  match LLMJob.priority job with
  | Raise e => mk_outcome q ds (Raise e)
  | Ok p =>
      mk_outcome (LlmQueue.mk (heappush (heap q) (mk_entry p (seq q) job)) (seq q + 1) (stopping q))
        ds (Ok tt)
  end.

Definition enqueue (maxsize : Z) (q : queue) (job : LLMJob.t) : outcome unit :=
  if maxsize <=? Z.of_nat (length (heap q)) then
    let o := _reject_or_evict_locked q job in
    match value o with
    | Raise e => mk_outcome (after o) (drops o) (Raise e)
    | Ok true => mk_outcome (after o) (drops o) (Ok tt)
    | Ok false => push_locked (after o) job (drops o)
    end
  else push_locked q job [].

Definition qsize (q : queue) : Z := Z.of_nat (length (heap q)).

(** [_pop_blocking]: [None] while it would wait, [Some None] when it returns
  None (stopping), [Some (Some job)] when it pops. *)
Definition _pop_blocking (q : queue) : option (queue * option LLMJob.t) :=
  if stopping q then Some (q, None)
  else match heappop (heap q) with
       | None => None
       | Some (e, h) => Some (LlmQueue.mk h (seq q) (stopping q), Some (ejob e))
       end.

(** [drain_once]: the job to process, or None when the queue is empty. *)
Definition drain_once (q : queue) : queue * option LLMJob.t :=
  match heappop (heap q) with
  | None => (q, None)
  | Some (e, h) => (LlmQueue.mk h (seq q) (stopping q), Some (ejob e))
  end.

Definition stop (q : queue) : queue := LlmQueue.mk (heap q) (seq q) true.

(** ** The queue as a system of steps

  Producers enqueue, the worker pops and processes ([_run] with
  [_safe_process]: a crash of the role is logged and swallowed, so a popped
  job is done either way), and anyone may stop the queue. *)
Record system := mk_system {
  sq : queue;
  accepted : list LLMJob.t;    (* every job handed to enqueue *)
  processed : list LLMJob.t;   (* in the order the worker took them *)
  dropped : nat;               (* on_drop calls *)
  worker_done : bool           (* _run returned *)
}.
Definition system_init : system := mk_system empty_queue [] [] 0 false.

Inductive qstep (maxsize : Z) : system -> system -> Prop :=
  | step_enqueue s job :
    value (enqueue maxsize (sq s) job) = Ok tt ->
    qstep maxsize s (mk_system (after (enqueue maxsize (sq s) job)) (accepted s ++ [job])
      (processed s) (dropped s + length (drops (enqueue maxsize (sq s) job))) (worker_done s))
  | step_work s q' job :
    worker_done s = false -> _pop_blocking (sq s) = Some (q', Some job) ->
    qstep maxsize s (mk_system q' (accepted s) (processed s ++ [job]) (dropped s) (worker_done s))
  | step_exit s q' :
    worker_done s = false -> _pop_blocking (sq s) = Some (q', None) ->
    qstep maxsize s (mk_system q' (accepted s) (processed s) (dropped s) true)
  | step_stop s :
    qstep maxsize s (mk_system (stop (sq s)) (accepted s) (processed s) (dropped s) (worker_done s)).

Inductive qreach (maxsize : Z) : system -> Prop :=
  | qreach_init : qreach maxsize system_init
  | qreach_step s s' : qreach maxsize s -> qstep maxsize s s' -> qreach maxsize s'.
End Queue.

(** ** Removing an element by index *)

Lemma swap_remove_perm idx h e : h !! idx = Some e -> h ≡ₚ e :: swap_remove idx h.
Proof.
  destruct h as [|l h _] using rev_ind; [done|]. intros Hi. unfold swap_remove.
  rewrite last_snoc, length_app. simpl. replace (length h + 1 - 1)%nat with (length h) by lia.
  destruct (decide (idx < length h)%nat) as [Hlt|Hge].
  - rewrite lookup_app_l in Hi by done. rewrite insert_app_l by done.
    rewrite take_app_length' by (by rewrite length_insert).
    rewrite insert_take_drop by done. rewrite <- (take_drop_middle h idx e Hi) at 1.
    rewrite <- (assoc (++)). simpl. rewrite <- Permutation_middle. constructor.
    apply Permutation_app_head. rewrite <- Permutation_cons_append. done.
  - apply lookup_lt_Some in Hi as Hi'. rewrite length_app in Hi'. simpl in Hi'.
    assert (idx = length h) as -> by lia.
    rewrite lookup_app_r, Nat.sub_diag in Hi by done. simplify_eq/=.
    rewrite insert_app_r_alt, Nat.sub_diag by lia. simpl.
    rewrite take_app_length. by rewrite <- Permutation_cons_append.
Qed.

(** ** The eviction candidate *)

Lemma worst_priority_spec h w :
  worst_priority h = Some w -> (exists e, e ∈ h /\ prio e = w) /\ forall e, e ∈ h -> prio e <= w.
Proof.
  unfold worst_priority. intros Hw. split.
  - apply pymax_list_in in Hw. apply list_elem_of_fmap in Hw as (e & -> & He). eauto.
  - intros e He. destruct h as [|e0 h]; [by apply elem_of_nil in He|]. injection Hw as <-.
    apply Z.ltb_ge. apply (pymax_ge (fun a b => b <? a)); try (intros; simpl in *; lia).
    exact (list_elem_of_fmap_2 prio (e0 :: h) e He).
Qed.

Lemma worst_priority_None h : worst_priority h = None <-> h = [].
Proof. unfold worst_priority. rewrite pymax_list_None. destruct h; done. Qed.

Lemma oldest_worst_spec h w i e :
  oldest_worst h w = Some (i, e) ->
  h !! i = Some e /\ prio e = w /\ forall e', e' ∈ h -> prio e' = w -> seqno e <= seqno e'.
Proof.
  unfold oldest_worst. intros Hm. set (l := List.filter _ _) in Hm.
  assert (Hin : forall j x, (j, x) ∈ l <-> h !! j = Some x /\ prio x = w).
  { intros j x. unfold l. rewrite filterb_elem. simpl. rewrite elem_of_lookup_imap.
    split; [intros ((j' & x' & [= -> ->] & ?) & ?)|intros [? ?]]; split; try done; [lia|eauto|lia]. }
  apply pymax_list_in in Hm as Hi. apply Hin in Hi as [Hi Hp]. split_and!; [done..|].
  intros e' He' Hw. apply list_elem_of_lookup in He' as [j Hj].
  assert ((j, e') ∈ l) as Hj' by by apply Hin.
  destruct l as [|x l']; [done|]. simpl in Hm. injection Hm as Hm.
  pose proof (pymax_ge (fun a b : nat * entry => seqno a.2 <? seqno b.2)) as Hge.
  specialize (Hge ltac:(intros; simpl; lia) ltac:(intros; simpl in *; lia) ltac:(intros; simpl in *; lia) x l' _ Hj').
  rewrite Hm in Hge. simpl in Hge. lia.
Qed.

Lemma oldest_worst_exists h w : worst_priority h = Some w -> exists ie, oldest_worst h w = Some ie.
Proof.
  intros (Hw & _)%worst_priority_spec. destruct Hw as (e & He & Hp).
  destruct (oldest_worst h w) as [ie|] eqn:E; [eauto|]. exfalso.
  unfold oldest_worst in E. apply pymax_list_None in E.
  apply list_elem_of_lookup in He as [i Hi].
  assert ((i, e) ∈ List.filter (fun ie => prio ie.2 =? w) (imap pair h)) as Hin.
  { apply filterb_elem. split; [apply elem_of_lookup_imap; eauto|simpl; lia]. }
  rewrite E in Hin. by apply elem_of_nil in Hin.
Qed.

(** ** The operations, by case *)

Section Laws.
Context `{!Heapq}.

Definition push_entry (q : queue) (h : list entry) (p : Z) (job : LLMJob.t) : queue :=
  LlmQueue.mk (heappush h (mk_entry p (seq q) job)) (seq q + 1) (stopping q).

Lemma enqueue_room maxsize q job p :
  LLMJob.priority job = Ok p -> Z.of_nat (length (heap q)) < maxsize ->
  enqueue maxsize q job = mk_outcome (push_entry q (heap q) p job) [] (Ok tt).
Proof.
  intros Hp Hl. unfold enqueue. rewrite (proj2 (Z.leb_gt _ _)) by done.
  unfold push_locked. by rewrite Hp.
Qed.

Lemma enqueue_full maxsize q job p :
  LLMJob.priority job = Ok p -> maxsize <= Z.of_nat (length (heap q)) -> heap q <> [] ->
  exists i e, (heap q !! i = Some e /\ (forall x, x ∈ heap q -> prio x <= prio e)
               /\ forall x, x ∈ heap q -> prio x = prio e -> seqno e <= seqno x) /\
  enqueue maxsize q job =
    if prio e <? p then mk_outcome q ["queue_full"] (Ok tt)
    else mk_outcome (push_entry q (heapify (swap_remove i (heap q))) p job) ["queue_full"] (Ok tt).
Proof.
  intros Hp Hl Hne. unfold enqueue. rewrite (proj2 (Z.leb_le _ _)) by done.
  unfold _reject_or_evict_locked.
  destruct (worst_priority (heap q)) as [w|] eqn:Ew; [|by apply worst_priority_None in Ew].
  destruct (oldest_worst_exists _ _ Ew) as [[i e] Eo]. rewrite Eo, Hp.
  apply oldest_worst_spec in Eo as (Hi & He & Hold).
  apply worst_priority_spec in Ew as (_ & Hw). exists i, e. subst w. split; [by split_and!|].
  destruct (prio e <? p); simpl; [done|]. unfold push_locked. by rewrite Hp.
Qed.

Lemma enqueue_role maxsize q job :
  value (enqueue maxsize q job) = Ok tt -> 1 <= maxsize -> exists p, LLMJob.priority job = Ok p.
Proof.
  intros Hv Hm. destruct (LLMJob.priority job) as [p|e] eqn:Ep; [eauto|]. exfalso. revert Hv.
  unfold enqueue, push_locked, _reject_or_evict_locked. rewrite Ep.
  destruct (maxsize <=? _); simpl; [|done].
  destruct (worst_priority _); simpl; [|done]. by destruct (oldest_worst _ _) as [[? ?]|].
Qed.

Lemma pop_spec q e h : is_heap (heap q) -> heappop (heap q) = Some (e, h) ->
  heap q ≡ₚ e :: h /\ is_heap h /\ forall x, x ∈ heap q -> entry_leb e x = true.
Proof.
  intros Hh Hp. destruct (decide (heap q = [])) as [E|Hne].
  - by rewrite E, heappop_nil in Hp.
  - destruct (heappop_spec _ Hh Hne) as (m & h' & Hp' & Hperm & Hh' & Hmin).
    rewrite Hp in Hp'. by simplify_eq.
Qed.

(** ** The invariant *)

Record queue_inv (maxsize : Z) (q : queue) : Prop := {
  qi_heap : is_heap (heap q);
  qi_bound : Z.of_nat (length (heap q)) <= maxsize;
  qi_seq : Forall (fun e => seqno e < seq q) (heap q);
  qi_unique : NoDup (seqno <$> heap q);
  qi_prio : Forall (fun e => LLMJob.priority (ejob e) = Ok (prio e)) (heap q)
}.

Lemma queue_inv_sub maxsize q h :
  queue_inv maxsize q -> is_heap h -> (exists l, heap q ≡ₚ l ++ h) ->
  queue_inv maxsize (LlmQueue.mk h (seq q) (stopping q)).
Proof.
  intros [Hh Hb Hs Hu Hp] Hh' [l Hperm].
  rewrite Hperm in Hs, Hu, Hp. rewrite fmap_app in Hu.
  apply Permutation_length in Hperm. rewrite length_app in Hperm.
  apply Forall_app in Hs as [_ Hs], Hp as [_ Hp]. apply NoDup_app in Hu as (_ & _ & Hu).
  split; simpl; try done. lia.
Qed.

Lemma queue_inv_push maxsize q p job :
  queue_inv maxsize q -> LLMJob.priority job = Ok p -> Z.of_nat (length (heap q)) < maxsize ->
  queue_inv maxsize (push_entry q (heap q) p job).
Proof.
  intros [Hh Hb Hs Hu Hp] Hj Hl. unfold push_entry.
  destruct (heappush_spec (heap q) (mk_entry p (seq q) job) Hh) as [Hh' Hperm].
  split; simpl; rewrite ?Hperm; simpl.
  - done.
  - lia.
  - constructor; simpl; [lia|]. eapply Forall_impl; [exact Hs|]. intros; simpl in *; lia.
  - constructor; [|done]. rewrite list_elem_of_fmap. intros (x & Hx & Hin).
    rewrite Forall_forall in Hs. apply Hs in Hin. simpl in Hx. lia.
  - by constructor.
Qed.

Lemma enqueue_inv maxsize q job :
  1 <= maxsize -> queue_inv maxsize q -> value (enqueue maxsize q job) = Ok tt ->
  queue_inv maxsize (after (enqueue maxsize q job)) /\
  exists lost, job :: (ejob <$> heap q) ≡ₚ (ejob <$> heap (after (enqueue maxsize q job))) ++ lost
               /\ length lost = length (drops (enqueue maxsize q job)).
Proof.
  intros Hm Hi Hv. destruct (enqueue_role _ _ _ Hv Hm) as [p Hp].
  destruct (Z.lt_ge_cases (Z.of_nat (length (heap q))) maxsize) as [Hl|Hl].
  - rewrite (enqueue_room _ _ _ p) by done. simpl. split; [by apply queue_inv_push|].
    exists []. split; [|done]. rewrite app_nil_r.
    by rewrite (proj2 (heappush_spec (heap q) _ (qi_heap _ _ Hi))).
  - destruct (enqueue_full _ _ _ p Hp Hl) as (i & e & (Hie & _) & ->).
    { intros E. rewrite E in Hl. simpl in Hl. lia. }
    destruct (prio e <? p); simpl.
    + split; [done|]. exists [job]. split; [|done]. apply Permutation_cons_append.
    + apply swap_remove_perm in Hie. destruct (heapify_spec (swap_remove i (heap q))) as [Hh Hperm].
      assert (heap q ≡ₚ [e] ++ heapify (swap_remove i (heap q))) as Hq.
      { etrans; [exact Hie|]. simpl. by rewrite Hperm. }
      split.
      * apply (queue_inv_push maxsize (LlmQueue.mk _ (seq q) (stopping q))); [|done|].
        -- eapply queue_inv_sub; eauto.
        -- apply Permutation_length in Hq. rewrite length_app in Hq. simpl in Hq.
           pose proof (qi_bound _ _ Hi). change (Z.of_nat (length (heapify (swap_remove i (heap q)))) < maxsize). lia.
      * exists [ejob e]. split; [|done].
        rewrite (proj2 (heappush_spec _ _ Hh)). simpl. constructor.
        etrans; [apply (fmap_Permutation ejob), Hq|]. apply Permutation_cons_append.
Qed.

(** Every state the system reaches: the bound holds, and the jobs handed in are
  the jobs processed, waiting and lost, one lost per drop. *)
Record system_inv (maxsize : Z) (s : system) : Prop := {
  si_queue : queue_inv maxsize (sq s);
  si_conserve : exists lost,
    accepted s ≡ₚ processed s ++ (ejob <$> heap (sq s)) ++ lost /\ length lost = dropped s;
  si_done : worker_done s = true -> stopping (sq s) = true
}.

Lemma enqueue_stopping maxsize q job :
  stopping (after (enqueue maxsize q job)) = stopping q.
Proof.
  unfold enqueue, push_locked, _reject_or_evict_locked. repeat (case_match; simplify_eq/=; try done).
Qed.

Lemma pop_blocking_job q q' job :
  queue_inv (Z.of_nat (length (heap q))) q -> _pop_blocking q = Some (q', Some job) ->
  exists e, job = ejob e /\ heap q ≡ₚ e :: heap q' /\ is_heap (heap q') /\
            (forall x, x ∈ heap q -> entry_leb e x = true) /\
            q' = LlmQueue.mk (heap q') (seq q) (stopping q).
Proof.
  intros Hi. unfold _pop_blocking. destruct (stopping q) eqn:Es; [done|].
  destruct (heappop (heap q)) as [[e h]|] eqn:Ep; [|done]. intros [= <- <-].
  apply pop_spec in Ep as (Hq & Hh & Hm); [|apply (qi_heap _ _ Hi)]. exists e. by split_and!.
Qed.

Lemma queue_inv_len maxsize q : queue_inv maxsize q -> queue_inv (Z.of_nat (length (heap q))) q.
Proof. intros [????]. split; try done; lia. Qed.

Lemma qstep_inv maxsize s s' :
  1 <= maxsize -> system_inv maxsize s -> qstep maxsize s s' -> system_inv maxsize s'.
Proof.
  intros Hm [Hq (lost & Hc & Hl) Hd] Hs.
  destruct Hs as [s job Hv|s q' job Hw Hp|s q' Hw Hp|s]; simpl in *.
  - destruct (enqueue_inv _ _ _ Hm Hq Hv) as [Hq' (lost' & Hc' & Hl')].
    split; simpl; [done| |by rewrite enqueue_stopping].
    exists (lost' ++ lost). split; [|rewrite length_app; lia].
    rewrite Hc, <- Permutation_cons_append, Permutation_middle.
    apply Permutation_app_head. rewrite app_comm_cons, Hc'. by rewrite <- (assoc (++)).
  - destruct (pop_blocking_job _ _ _ (queue_inv_len _ _ Hq) Hp) as (e & -> & Hperm & Hh & _ & Hq').
    split; simpl.
    + rewrite Hq'. apply queue_inv_sub; [done..|]. by exists [e].
    + exists lost. split; [|done]. rewrite Hc, (fmap_Permutation ejob _ _ Hperm). simpl.
      by rewrite <- !(assoc (++)).
    + rewrite Hq'. by rewrite Hw.
  - unfold _pop_blocking in Hp. destruct (stopping (sq s)) eqn:Es; simplify_eq.
    + split; simpl; eauto.
    + destruct (heappop _) as [[? ?]|]; simplify_eq.
  - split; simpl; [|eauto|done]. destruct Hq. by split.
Qed.

Lemma system_inv_init maxsize : 1 <= maxsize -> system_inv maxsize system_init.
Proof.
  intros Hm. split; simpl; [|exists []; done|done].
  split; simpl; try (by constructor || lia); apply heap_nil.
Qed.

Lemma qreach_inv maxsize s : 1 <= maxsize -> qreach maxsize s -> system_inv maxsize s.
Proof.
  intros Hm. induction 1; [by apply system_inv_init|]. by eapply qstep_inv.
Qed.

(** ** Draining *)

(** [drain_once] until it reports an empty queue, at most [n] times. *)
Fixpoint drain (n : nat) (q : queue) : list LLMJob.t :=
  match n with
  | O => []
  | S n' => match drain_once q with
            | (_, None) => []
            | (q', Some job) => job :: drain n' q'
            end
  end.
End Laws.

Lemma entry_leb_antisym_on h :
  NoDup (seqno <$> h) ->
  forall x y, x ∈ h -> y ∈ h -> entry_leb x y = true -> entry_leb y x = true -> x = y.
Proof.
  intros Hn x y (i & Hi)%list_elem_of_lookup (j & Hj)%list_elem_of_lookup H1 H2.
  assert (seqno x = seqno y) as E by (revert H1 H2; unfold entry_leb; lia).
  enough (i = j) by (subst; simplify_eq; done).
  eapply NoDup_lookup; [exact Hn|..]; rewrite list_lookup_fmap, ?Hi, ?Hj; simpl; [done|]. by rewrite E.
Qed.

Lemma sort_insert_min e h :
  (forall x, x ∈ h -> entry_leb e x = true) -> sort_insert entry_leb e h = e :: h.
Proof. destruct h as [|y h]; intros Hx; simpl; [done|]. by rewrite Hx by set_solver. Qed.

Lemma drain_sorted `{!Heapq} n q :
  is_heap (heap q) -> NoDup (seqno <$> heap q) -> length (heap q) = n ->
  drain n q = ejob <$> pysorted entry_leb (heap q).
Proof.
  revert q. induction n as [|n IH]; intros q Hh Hn Hl.
  - by apply nil_length_inv in Hl as ->.
  - simpl. unfold drain_once.
    destruct (decide (heap q = [])) as [E|Hne]; [by rewrite E in Hl|].
    destruct (heappop_spec _ Hh Hne) as (m & h' & -> & Hperm & Hh' & Hmin).
    assert (NoDup (seqno <$> h')) as Hn'.
    { rewrite Hperm in Hn. by inversion Hn. }
    rewrite IH; simpl; try done.
    + rewrite (pysorted_perm_unique entry_leb entry_leb_total entry_leb_trans (heap q) (m :: h') Hperm)
        by (by apply entry_leb_antisym_on).
      simpl. rewrite sort_insert_min; [done|]. intros x Hx%elem_of_pysorted.
      apply Hmin. rewrite Hperm. set_solver.
    + apply Permutation_length in Hperm. simpl in Hperm. lia.
Qed.

(** ** Properties *)

(** However producers, the worker and [stop] interleave, the queue never
    holds more than its bound, and every accepted job is accounted for exactly
    once: taken by the worker, still waiting, or lost to an overflow that
    reported exactly one drop. *)
Theorem llm_queue_conserves `{!Heapq} (maxsize : Z) (s : system)
    (Hmax : 1 <= maxsize) (Hreach : qreach maxsize s) :
  qsize (sq s) <= maxsize /\ is_heap (heap (sq s)) /\
  exists lost, accepted s ≡ₚ processed s ++ (ejob <$> heap (sq s)) ++ lost
               /\ length lost = dropped s.
Proof.
  destruct (qreach_inv _ _ Hmax Hreach) as [Hq Hc _].
  split_and!; [apply (qi_bound _ _ Hq)|apply (qi_heap _ _ Hq)|done].
Qed.

Definition wjob (r : string) (i : Z) : LLMJob.t := LLMJob.mk r 1 i [].

(** Two judges and an explainer into a queue of one, then the worker. *)
Definition ws1 : system := mk_system (LlmQueue.mk [mk_entry 0 0 (wjob "judge" 1)] 1 false)
  [wjob "judge" 1] [] 0 false.
Definition ws2 : system := mk_system (LlmQueue.mk [mk_entry 0 0 (wjob "judge" 1)] 1 false)
  [wjob "judge" 1; wjob "explainer" 2] [] 1 false.
Definition ws3 : system := mk_system (LlmQueue.mk [mk_entry 0 1 (wjob "judge" 3)] 2 false)
  [wjob "judge" 1; wjob "explainer" 2; wjob "judge" 3] [] 2 false.
Definition ws4 : system := mk_system (LlmQueue.mk [] 2 false)
  [wjob "judge" 1; wjob "explainer" 2; wjob "judge" 3] [wjob "judge" 3] 2 false.

Lemma qreach_enqueue `{!Heapq} maxsize s job s' :
  qreach maxsize s -> value (enqueue maxsize (sq s) job) = Ok tt ->
  s' = mk_system (after (enqueue maxsize (sq s) job)) (accepted s ++ [job])
        (processed s) (dropped s + length (drops (enqueue maxsize (sq s) job))) (worker_done s) ->
  qreach maxsize s'.
Proof. intros Hs Hv ->. eapply qreach_step; [exact Hs|]. by apply step_enqueue. Qed.

Lemma ws4_reached : qreach 1 ws4.
Proof.
  apply (qreach_step 1 ws3); [|by apply (step_work 1 ws3 (LlmQueue.mk [] 2 false) (wjob "judge" 3))].
  apply (qreach_enqueue 1 ws2 (wjob "judge" 3)); [|by vm_compute|by vm_compute].
  apply (qreach_enqueue 1 ws1 (wjob "explainer" 2)); [|by vm_compute|by vm_compute].
  apply (qreach_enqueue 1 system_init (wjob "judge" 1)); [constructor|by vm_compute|by vm_compute].
Qed.

Lemma llm_queue_conserves_witness :
  qsize (sq ws4) <= 1 /\ sorted_heap (heap (sq ws4)) /\
  exists lost, accepted ws4 ≡ₚ processed ws4 ++ (ejob <$> heap (sq ws4)) ++ lost
               /\ length lost = dropped ws4.
Proof. exact (llm_queue_conserves 1 ws4 ltac:(lia) ws4_reached). Defined.

(** On a full queue the overflow policy is exact: one drop is reported; the
    eviction candidate is the oldest job of the least urgent band; a strictly
    less urgent newcomer is turned away and the queue is untouched; any other
    newcomer, an equally urgent one included, replaces the candidate. *)
Theorem enqueue_overflow_policy `{!Heapq} (maxsize p : Z) (q : queue) (job : LLMJob.t)
    (Hmax : 1 <= maxsize) (Hinv : queue_inv maxsize q)
    (Hfull : qsize q = maxsize) (Hp : LLMJob.priority job = Ok p) :
  let o := enqueue maxsize q job in
  value o = Ok tt /\ drops o = ["queue_full"] /\
  exists victim, victim ∈ heap q /\
    (forall x, x ∈ heap q -> prio x <= prio victim) /\
    (forall x, x ∈ heap q -> prio x = prio victim -> seqno victim <= seqno x) /\
    (prio victim < p -> after o = q) /\
    (p <= prio victim ->
       victim :: heap (after o) ≡ₚ mk_entry p (seq q) job :: heap q /\ seq (after o) = seq q + 1).
Proof.
  unfold qsize in Hfull.
  destruct (enqueue_full maxsize q job p Hp) as (i & e & (Hi & Hw & Ho) & E); [lia| |].
  { intros En. rewrite En in Hfull. simpl in Hfull. lia. }
  intros o. subst o. rewrite E. destruct (prio e <? p) eqn:Ecmp; simpl; split_and!; try done;
    exists e; split_and!; try done; try (by eapply list_elem_of_lookup_2); try lia.
  intros _. split; [|done]. destruct (heapify_spec (swap_remove i (heap q))) as [Hh Hperm].
  change (e :: heappush (heapify (swap_remove i (heap q))) (mk_entry p (seq q) job)
          ≡ₚ mk_entry p (seq q) job :: heap q).
  rewrite (proj2 (heappush_spec _ _ Hh)), Hperm.
  etrans; [apply Permutation_swap|]. constructor. symmetry. by apply swap_remove_perm.
Qed.

Lemma ws1_inv : queue_inv 1 (sq ws1).
Proof. split; simpl; try lia; repeat constructor; set_solver. Qed.

Lemma enqueue_overflow_policy_witness :
  let o := enqueue 1 (sq ws1) (wjob "judge" 3) in
  value o = Ok tt /\ drops o = ["queue_full"] /\
  exists victim, victim ∈ heap (sq ws1) /\
    (forall x, x ∈ heap (sq ws1) -> prio x <= prio victim) /\
    (forall x, x ∈ heap (sq ws1) -> prio x = prio victim -> seqno victim <= seqno x) /\
    (prio victim < 0 -> after o = sq ws1) /\
    (0 <= prio victim ->
       victim :: heap (after o) ≡ₚ mk_entry 0 1 (wjob "judge" 3) :: heap (sq ws1)
       /\ seq (after o) = 1 + 1).
Proof.
  exact (enqueue_overflow_policy 1 0 (sq ws1) (wjob "judge" 3) ltac:(lia) ws1_inv eq_refl eq_refl).
Defined.

(** Draining the queue runs its jobs most urgent first, and in arrival order
    within a priority: exactly the waiting jobs sorted by (priority, sequence
    number), whatever the heap's internal layout.  Once [stop] is called the
    worker takes nothing more and the backlog stays where it is. *)
Theorem llm_queue_drain_order `{!Heapq} (maxsize : Z) (s : system)
    (Hmax : 1 <= maxsize) (Hreach : qreach maxsize s) :
  drain (length (heap (sq s))) (sq s) = ejob <$> pysorted entry_leb (heap (sq s)) /\
  _pop_blocking (stop (sq s)) = Some (stop (sq s), None) /\
  heap (stop (sq s)) = heap (sq s).
Proof.
  destruct (qreach_inv _ _ Hmax Hreach) as [Hq _ _].
  split_and!; [|done..]. apply drain_sorted; [apply (qi_heap _ _ Hq)|apply (qi_unique _ _ Hq)|done].
Qed.

Definition ws_mixed : system :=
  mk_system (LlmQueue.mk [mk_entry 0 1 (wjob "judge" 2); mk_entry 2 0 (wjob "explainer" 1)] 2 false)
    [wjob "explainer" 1; wjob "judge" 2] [] 0 false.

Lemma ws_mixed_reached : qreach 3 ws_mixed.
Proof.
  set (s1 := mk_system (LlmQueue.mk [mk_entry 2 0 (wjob "explainer" 1)] 1 false)
               [wjob "explainer" 1] [] 0 false).
  apply (qreach_enqueue 3 s1 (wjob "judge" 2)); [|by vm_compute|by vm_compute].
  apply (qreach_enqueue 3 system_init (wjob "explainer" 1)); [constructor|by vm_compute|by vm_compute].
Qed.

Lemma llm_queue_drain_order_witness :
  drain (length (heap (sq ws_mixed))) (sq ws_mixed) = ejob <$> pysorted entry_leb (heap (sq ws_mixed)) /\
  _pop_blocking (stop (sq ws_mixed)) = Some (stop (sq ws_mixed), None) /\
  heap (stop (sq ws_mixed)) = heap (sq ws_mixed).
Proof. exact (llm_queue_drain_order 3 ws_mixed ltac:(lia) ws_mixed_reached). Defined.

(** An equally urgent newcomer is admitted at the expense of the oldest queued
    job, while the docstring of [_reject_or_evict_locked] says it is dropped. *)
Lemma enqueue_equal_priority_evicts :
  let o := enqueue 1 (sq ws1) (wjob "judge" 3) in
  (ejob <$> heap (after o)) = [wjob "judge" 3] /\ drops o = ["queue_full"].
Proof. split; vm_compute; reflexivity. Qed.

(** With a bound of zero every enqueue raises: [max()] of an empty heap. *)
Lemma enqueue_zero_bound_raises `{!Heapq} (job : LLMJob.t) :
  value (enqueue 0 empty_queue job) = Raise ValueError.
Proof. reflexivity. Qed.
