(* ===== verification/LlmSchema.v ===== *)
(** * The JSON-Schema subset

    [llm/schema.py]: the closed subset of draft-07 the role schemas use, its
    validator, and a declarative specification the validator decides. *)

From S2P Require Import Prelude PyFloat PyStr PyJson.
From Stdlib Require Import ZArith Lia.

#[local] Open Scope string_scope.
#[local] Open Scope list_scope.
#[local] Open Scope Z_scope.

(** The keys of [_TYPE_MAP]. *)
Inductive type_name := TObject | TArray | TString | TInteger | TNumber | TBoolean | TNull.

(** [isinstance] against the mapped Python type, with booleans kept apart from
    the numbers. *)
Definition has_type (v : json) (t : type_name) : bool :=
  match t, v with
  | TObject, JObj _ => true
  | TArray, JList _ => true
  | TString, JStr _ => true
  | TInteger, JInt _ => true
  | TNumber, (JInt _ | JFloat _) => true
  | TBoolean, JBool _ => true
  | TNull, JNull => true
  | _, _ => false
  end.

Definition SchemaError : pyexn := OtherError "SchemaError".

(** [type_spec] is one name or a list of names. *)
Definition _check_type (value : json) (types : list type_name) : result unit :=
  if existsb (has_type value) types then Ok tt else Raise SchemaError.

(** A schema: each keyword present or absent. *)
Inductive schema := mk_schema {
  enum : option (list json);
  type_spec : option (list type_name);
  maxLength : option Z;
  maxItems : option Z;
  items : option schema;
  properties : list (string * schema);
  required : list string;
  additionalProperties : bool
}.

Definition any_schema : schema := mk_schema None None None None None [] [] true.
Definition str_schema (n : Z) : schema := mk_schema None (Some [TString]) (Some n) None None [] [] true.
Definition enum_schema (vs : list json) : schema := mk_schema (Some vs) None None None None [] [] true.
Definition obj_schema (props : list (string * schema)) (req : list string) : schema :=
  mk_schema None (Some [TObject]) None None None props req false.

(** Induction with the hypotheses under [items] and [properties]. *)
Section SchemaInd.
Variable P : schema -> Prop.
Hypothesis Hschema : forall e t ml mi it ps rq ap,
  (forall s, it = Some s -> P s) -> Forall (fun ks => P ks.2) ps ->
  P (mk_schema e t ml mi it ps rq ap).

Fixpoint schema_ind' (s : schema) : P s :=
  match s with
  | mk_schema e t ml mi it ps rq ap =>
      Hschema e t ml mi it ps rq ap
        (match it return forall s, it = Some s -> P s with
         | None => fun s H => False_ind _ (eq_ind None (fun o => match o with None => True | Some _ => False end)
                                I (Some s) H)
         | Some s0 => fun s H => eq_ind s0 P (schema_ind' s0) s
              (f_equal (fun o => match o with Some x => x | None => s0 end) H)
         end)
        ((fix go ps := match ps return Forall (fun ks => P ks.2) ps with
                       | [] => Forall_nil_2 _
                       | ks :: ps' => Forall_cons_2 _ ks ps' (schema_ind' ks.2) (go ps')
                       end) ps)
  end.
End SchemaInd.

Definition guard (b : bool) : result unit := if b then Ok tt else Raise SchemaError.

(** [for x in xs: f(x)], stopping at the first exception. *)
Fixpoint rall {A} (f : A -> result unit) (l : list A) : result unit :=
  match l with [] => Ok tt | x :: l' => _ ← f x; rall f l' end.

Definition opt_le (n : Z) (bound : option Z) : bool :=
  match bound with Some b => n <=? b | None => true end.

Fixpoint validate (s : schema) (v : json) {struct s} : result unit :=
  match s with
  | mk_schema e t ml mi it ps rq ap =>
      match e with
      | Some members => guard (existsb (py_eq v) members)
      | None =>
          _ ← (match t with Some ts => _check_type v ts | None => Ok tt end);
          match v with
          | JStr text => guard (opt_le (Z.of_nat (length text)) ml)
          | JList l =>
              _ ← guard (opt_le (Z.of_nat (length l)) mi);
              match it with Some item => rall (validate item) l | None => Ok tt end
          | JObj d =>
              _ ← rall (fun k => guard (bool_decide (k ∈ d.*1))) rq;
              _ ← guard (ap || forallb (fun k => bool_decide (k ∈ ps.*1)) d.*1);
              (fix go ps := match ps with
                            | [] => Ok tt
                            | (k, sub) :: ps' =>
                                _ ← (match dget k d with Some x => validate sub x | None => Ok tt end);
                                go ps'
                            end) ps
          | _ => Ok tt
          end
      end
  end.

Definition is_valid (instance : json) (s : schema) : bool :=
  match validate s instance with Ok _ => true | Raise _ => false end.

(** ** What conformance means *)

Fixpoint conforms (s : schema) (v : json) {struct s} : Prop :=
  match s with
  | mk_schema e t ml mi it ps rq ap =>
      match e with
      | Some members => exists m, m ∈ members /\ py_eq v m = true
      | None =>
          match t with Some ts => exists n, n ∈ ts /\ has_type v n = true | None => True end /\
          match v with
          | JStr text => forall n, ml = Some n -> Z.of_nat (length text) <= n
          | JList l =>
              (forall n, mi = Some n -> Z.of_nat (length l) <= n) /\
              match it with Some item => forall x, x ∈ l -> conforms item x | None => True end
          | JObj d =>
              (forall k, k ∈ rq -> is_Some (dget k d)) /\
              (ap = false -> forall k, k ∈ d.*1 -> k ∈ ps.*1) /\
              (fix go ps := match ps with
                            | [] => True
                            | (k, sub) :: ps' => (forall x, dget k d = Some x -> conforms sub x) /\ go ps'
                            end) ps
          | _ => True
          end
      end
  end.

Lemma guard_iff b : guard b = Ok tt <-> b = true.
Proof. by destruct b. Qed.

Lemma seq_Ok (r : result unit) (k : result unit) : (_ ← r; k) = Ok tt <-> r = Ok tt /\ k = Ok tt.
Proof. destruct r as [[]|e]; simpl; [tauto|]. split; [done|by intros []]. Qed.

Lemma rall_Ok {A} (f : A -> result unit) l : rall f l = Ok tt <-> forall x, x ∈ l -> f x = Ok tt.
Proof.
  induction l as [|x l IH]; simpl; [split; [by intros _ ? ?%elem_of_nil|done]|].
  rewrite seq_Ok, IH. setoid_rewrite elem_of_cons. split.
  - intros [Hx Hl] y [->|Hy]; auto.
  - intros Hall. split; [apply Hall; by left|]. intros y Hy. apply Hall. by right.
Qed.

Lemma opt_le_iff n b : opt_le n b = true <-> forall m, b = Some m -> n <= m.
Proof.
  destruct b as [m|]; simpl; [|by split]. split; [intros ? ? [= <-]; lia|]. intros Hm.
  specialize (Hm m eq_refl). lia.
Qed.

Lemma existsb_iff {A} (f : A -> bool) l : existsb f l = true <-> exists x, x ∈ l /\ f x = true.
Proof. rewrite existsb_exists. by setoid_rewrite list_elem_of_In. Qed.

Lemma check_type_iff v ts : _check_type v ts = Ok tt <-> exists n, n ∈ ts /\ has_type v n = true.
Proof. unfold _check_type. rewrite <- existsb_iff. by destruct (existsb _ _). Qed.

Lemma extra_iff (d : list (string * json)) (ps : list (string * schema)) :
  forallb (fun k => bool_decide (k ∈ ps.*1)) d.*1 = true <-> forall k, k ∈ d.*1 -> k ∈ ps.*1.
Proof.
  rewrite forallb_forall. split.
  - intros Hall k Hk. by apply list_elem_of_In, Hall, bool_decide_eq_true_1 in Hk.
  - intros Hall k Hk%list_elem_of_In. apply bool_decide_eq_true_2. auto.
Qed.

Lemma validate_conforms s : forall v, validate s v = Ok tt <-> conforms s v.
Proof.
  induction s as [e t ml mi it ps rq ap IHit IHps] using schema_ind'. intros v. simpl.
  destruct e as [members|]; [rewrite guard_iff; apply existsb_iff|].
  rewrite seq_Ok. apply Morphisms_Prop.and_iff_morphism.
  { destruct t as [ts|]; [apply check_type_iff|done]. }
  destruct v as [|b|z|f|text|l|d]; try done.
  - by rewrite guard_iff, opt_le_iff.
  - rewrite seq_Ok, guard_iff, opt_le_iff. apply Morphisms_Prop.and_iff_morphism; [done|].
    destruct it as [item|]; [|done]. rewrite rall_Ok.
    split; intros Hall x Hx; by apply (IHit item eq_refl), Hall.
  - rewrite !seq_Ok, guard_iff, rall_Ok, orb_true_iff, extra_iff.
    apply Morphisms_Prop.and_iff_morphism; [|apply Morphisms_Prop.and_iff_morphism].
    + split; intros Hall k Hk; specialize (Hall k Hk); rewrite guard_iff, bool_decide_eq_true, <- dget_is_Some in *; done.
    + destruct ap; naive_solver.
    + clear IHit. induction IHps as [|[k sub] ps Hsub Hps IH]; [done|]. rewrite seq_Ok, IH.
      apply Morphisms_Prop.and_iff_morphism; [|done]. simpl in Hsub.
      destruct (dget k d) as [x|]; [|naive_solver]. rewrite Hsub. naive_solver.
Qed.

Lemma rall_raise {A} (f : A -> result unit) l e :
  (forall x e', f x = Raise e' -> e' = SchemaError) -> rall f l = Raise e -> e = SchemaError.
Proof.
  intros Hf. induction l as [|x l IH]; simpl; [done|].
  intros [Hx|([] & _ & Hl)]%result_bind_Raise; [by eapply Hf|by apply IH].
Qed.

Lemma guard_raise b e : guard b = Raise e -> e = SchemaError.
Proof. destruct b; simpl; congruence. Qed.

Lemma check_type_raise v ts e : _check_type v ts = Raise e -> e = SchemaError.
Proof. unfold _check_type. destruct (existsb _ _); congruence. Qed.

Lemma validate_raise s : forall v e, validate s v = Raise e -> e = SchemaError.
Proof.
  induction s as [en t ml mi it ps rq ap IHit IHps] using schema_ind'. intros v e. simpl.
  destruct en as [members|]; [apply guard_raise|].
  intros [Ht|([] & _ & Hv)]%result_bind_Raise.
  { destruct t as [ts|]; [by eapply check_type_raise|done]. }
  destruct v as [|b|z|f|text|l|d]; try done; [by eapply guard_raise|..].
  - apply result_bind_Raise in Hv as [Hv|([] & _ & Hv)]; [by eapply guard_raise|].
    destruct it as [item|]; [|done]. eapply rall_raise; [|exact Hv]. by apply IHit.
  - apply result_bind_Raise in Hv as [Hv|([] & _ & Hv)].
    { eapply rall_raise; [|exact Hv]. intros k e'. apply guard_raise. }
    apply result_bind_Raise in Hv as [Hv|([] & _ & Hv)]; [by eapply guard_raise|].
    clear IHit. induction IHps as [|[k sub] ps Hsub Hps IH]; [done|].
    apply result_bind_Raise in Hv as [Hv|([] & _ & Hv)]; [|by apply IH].
    destruct (dget k d); [by eapply Hsub|done].
Qed.

Lemma is_valid_iff v s : is_valid v s = true <-> conforms s v.
Proof. rewrite <- validate_conforms. unfold is_valid. destruct (validate s v) as [[]|]; naive_solver. Qed.

(** What a client learns from an accepted object, enumeration or text. *)
Lemma obj_valid v props req :
  is_valid v (obj_schema props req) = true ->
  exists d, v = JObj d /\ (forall k, k ∈ req -> k ∈ d.*1) /\ (forall k, k ∈ d.*1 -> k ∈ props.*1) /\
    forall k sub x, (k, sub) ∈ props -> dget k d = Some x -> is_valid x sub = true.
Proof.
  rewrite is_valid_iff. intros [(n & Hn & Ht) Hobj].
  apply list_elem_of_singleton in Hn as ->.
  destruct v as [| | | | | |d]; try done. exists d. destruct Hobj as (Hreq & Hadd & Hprops). split_and!; [done| | |].
  - intros k Hk. apply dget_is_Some. by apply Hreq.
  - by apply Hadd.
  - intros k sub x Hin Hx. apply is_valid_iff. clear Hadd. induction props as [|[k' sub'] props IH].
    { by apply elem_of_nil in Hin. }
    destruct Hprops as [H1 H2]. apply elem_of_cons in Hin as [[= -> ->]|Hin]; [by apply H1|by apply IH].
Qed.

Lemma enum_valid v l : is_valid v (enum_schema (jstr <$> l)) = true -> exists s, s ∈ l /\ v = jstr s.
Proof.
  rewrite is_valid_iff. intros (m & (s & -> & Hs)%list_elem_of_fmap & Heq). exists s. split; [done|].
  destruct v as [|b|z|f|t|l'|d]; try done. simpl in Heq. by apply bool_decide_eq_true_1 in Heq as ->.
Qed.

Lemma str_valid v n : is_valid v (str_schema n) = true -> exists t, v = JStr t /\ Z.of_nat (length t) <= n.
Proof.
  rewrite is_valid_iff. intros [(k & Hk & Ht) Hv]. apply list_elem_of_singleton in Hk as ->.
  destruct v as [| | | |t| |]; try done. exists t. split; [done|]. by apply Hv.
Qed.

(** The validator decides the declarative specification: an instance is
    accepted iff it conforms, and the only way it fails is the schema error.  In
    particular an object accepted by a closed role schema has every required key,
    no undeclared key, and a conforming value under each declared key. *)
Theorem validate_decides (s : schema) (v : json) :
  (validate s v = Ok tt <-> conforms s v) /\
  (is_valid v s = true <-> conforms s v) /\
  (forall e, validate s v = Raise e -> e = SchemaError) /\
  (forall props req, s = obj_schema props req -> is_valid v s = true ->
     exists d, v = JObj d /\ (forall k, k ∈ req -> k ∈ d.*1) /\ (forall k, k ∈ d.*1 -> k ∈ props.*1) /\
       forall k sub x, (k, sub) ∈ props -> dget k d = Some x -> is_valid x sub = true).
Proof.
  split_and!; [apply validate_conforms|apply is_valid_iff|apply validate_raise|].
  intros props req ->. apply obj_valid.
Qed.
