(* ===== verification/LlmEngine.v ===== *)
(** * Running an LLM role

    [llm/engine.py]: cache lookup with a negative cache, breaker, two constrained
    attempts, the masked-truncation screen, cache upsert and event record; and
    the cache store ([db/repositories/llm_cache.py]) it reads and writes.  The
    model server's answers, the clock and SHA-256 are inputs ([Env]); a role is an
    interface ([Role]), as the abstract class is. *)

From S2P Require Import Prelude PyFloat PyStr PyJson PyTime Breaker LlmSchema.
From Stdlib Require Import ZArith Lia.

#[local] Open Scope string_scope.
#[local] Open Scope list_scope.
#[local] Open Scope Z_scope.

Abbreviation dict := (list (string * json)).

(** ** Interfaces *)

Module Role.
Record t := mk {
  name : string;
  ttl_days : Z;
  num_predict : Z;
  negative_ttl_days : option Z;
  free_text_fields : list string;
  schema_for : dict -> schema;
  content_key : dict -> string;
  (* the prompts, and the input as preparing them left it *)
  build_prompt : dict -> string -> (string * string) * dict;
  (* None: rejected; otherwise the body, which a role may amend in place *)
  post_validate : json -> dict -> option json;
  template_hash : dict -> option Z
}.
End Role.
Abbreviation role := Role.t.

(** One chat turn: what is sent and what comes back.  The body is the JSON tree
    of the text, [None] when the text is not JSON. *)
Module Chat.
Record request := mk_request {
  system : string; user : string; req_schema : schema; req_num_predict : Z; seed : Z }.
Record response := mk_response {
  content : option json; tool_calls : bool; latency_ms : Z; finish_reason : option string }.
Inductive reply := Transport | Response (r : response).
End Chat.
Import CircuitBreaker (params, state).
Import Chat (reply, Transport, Response, content, tool_calls, latency_ms, finish_reason).

(** The world around one run: the n-th answer of the server to a request, the
    clock, the nonces, the hash. *)
Module Env.
Record t := mk {
  chat : nat -> Chat.request -> reply;
  clock : nat -> pyfloat;       (* time.monotonic at the n-th reading *)
  now : Z;                      (* the database clock *)
  nonce : nat -> string;
  sha256_hex : string -> string;
  model : string
}.
End Env.
Abbreviation env := Env.t.

(** ** The cache store *)

Module CacheRow.
Record t := mk {
  c_role : string; c_model : string; c_template : option Z;
  c_output : json; c_created : Z; c_hits : Z }.
End CacheRow.
Abbreviation cache := (list ((Z * string) * CacheRow.t)).

Definition days (n : Z) : Z := n * US_PER_DAY.

(** [get_fresh]: the row if it is younger than the window, its hits bumped. *)
Definition get_fresh (c : cache) (now project_id : Z) (key : string) (ttl_days : Z) : cache * option json :=
  match dget (project_id, key) c with
  | Some r =>
      if now - days ttl_days <=? CacheRow.c_created r then
        (dset (project_id, key) (CacheRow.mk (CacheRow.c_role r) (CacheRow.c_model r) (CacheRow.c_template r)
           (CacheRow.c_output r) (CacheRow.c_created r) (CacheRow.c_hits r + 1)) c,
         Some (CacheRow.c_output r))
      else (c, None)
  | None => (c, None)
  end.

(** [put]: insert, or rewrite the row and restart its freshness clock. *)
Definition put (c : cache) (now project_id : Z) (key role model : string) (output : json)
    (template_hash : option Z) : cache :=
  let hits := match dget (project_id, key) c with Some r => CacheRow.c_hits r | None => 0 end in
  dset (project_id, key) (CacheRow.mk role model template_hash output now hits) c.

(** ** Outcomes *)

Inductive outcome_t := OOk | OSchemaFail | OValidationFail | OTimeout | OBreakerOpen.

#[export] Instance outcome_t_eq_dec : EqDecision outcome_t.
Proof. solve_decision. Defined.

Definition outcome_name (o : outcome_t) : string :=
  match o with
  | OOk => "ok" | OSchemaFail => "schema_fail" | OValidationFail => "validation_fail"
  | OTimeout => "timeout" | OBreakerOpen => "breaker_open"
  end.

Module RoleResult.
Record t := mk { outcome : outcome_t; output : option json; cache_hit : bool; prompt_hash : string }.
End RoleResult.
Abbreviation role_result := RoleResult.t.

(** An [llm_event] row; the metrics observation carries the same three fields. *)
Module Event.
Record t := mk {
  e_project : Z; e_item : Z; e_role : string; e_hash : string; e_hit : bool;
  e_outcome : outcome_t; e_output : option json; e_latency : option Z }.
End Event.

(** The engine's mutable surroundings. *)
Record world := mk_world {
  w_breaker : breaker;
  w_cache : cache;
  w_events : list Event.t;
  w_calls : nat;      (* chat turns made *)
  w_ticks : nat       (* clock readings made *)
}.

(** What the sidecar keeps between jobs: whether the last probe found the model, why
    not, the circuit, and how far the world has been read. *)
Module LlmState.
Record t := mk { available : bool; reason : option string; circuit : breaker; turns : nat; readings : nat }.
Definition starting : t := mk false (Some "starting") (initial default_params) 0 0.
End LlmState.

Definition _NEGATIVE_MARKER : string := "negative".
Definition _CACHEABLE_FAILURES : list outcome_t := [OValidationFail].

Definition negative_payload (o : outcome_t) : json :=
  JObj [(_NEGATIVE_MARKER, JBool true); ("outcome", jstr (outcome_name o))].

Definition is_negative (output : option json) : bool :=
  match output with
  | Some (JObj d) => match dget _NEGATIVE_MARKER d with Some (JBool true) => true | _ => false end
  | _ => false
  end.

(** ** The masked-truncation screen *)

Definition _TERMINAL_CHARS : ustr := u ".!?" ++ [8230; 12290; 65281; 65311]%N.
Definition _TRAILING_CLOSERS : ustr :=
  [34; 39; 8221; 8217; 12301; 12303; 65289; 41; 93; 125]%N.
Definition _HARD_INCOMPLETE : ustr := u "{[(<:,;=/\-" ++ [8211; 8212]%N.
Definition _TRUNCATION_MARKER : ustr := [32; 8230]%N.

Definition mem (s : ustr) (c : N) : bool := bool_decide (c ∈ s).

Definition _ends_complete (text : ustr) : bool :=
  match rstrip_ws text with
  | [] => true
  | stripped => match last (urstrip (mem _TRAILING_CLOSERS) stripped) with
                | None => true
                | Some c => mem _TERMINAL_CHARS c
                end
  end.

Definition _ends_hard_incomplete (text : ustr) : bool :=
  match last (urstrip (mem _TRAILING_CLOSERS) (rstrip_ws text)) with
  | None => false
  | Some c => mem _HARD_INCOMPLETE c
  end.

Definition _looks_truncated (text : ustr) (finish_reason : option string) : bool :=
  if _ends_hard_incomplete text then true
  else if negb (bool_decide (finish_reason = Some "length")) then false
  else negb (_ends_complete text).

(** [max(stripped.rfind(c) for c in terminals)]: the last terminal's index. *)
Definition last_terminal (s : ustr) : option nat :=
  fold_left (fun acc c => match urfind c s, acc with
                          | Some i, Some j => Some (Nat.max i j)
                          | Some i, None => Some i
                          | None, _ => acc
                          end) _TERMINAL_CHARS None.

Definition _clip_to_clean_end (text : ustr) : ustr :=
  let stripped := rstrip_ws text in
  match last_terminal stripped with
  | Some idx => take (S idx) stripped
  | None =>
      let trimmed := urstrip (mem (_HARD_INCOMPLETE ++ [32; 9]%N)) stripped in
      rstrip_ws (match urfind 32%N trimmed with
                 | Some (S i) => take (S i) trimmed
                 | _ => trimmed
                 end)
  end.

(** Role schemas describe objects; a body of another shape has no fields. *)
Definition fields_of (output : json) : dict := match output with JObj d => d | _ => [] end.

Definition _truncated_fields (r : role) (output : json) (finish : option string) : list string :=
  List.filter (fun name => match dget name (fields_of output) with
                           | Some (JStr value) => _looks_truncated value finish
                           | _ => false
                           end) (Role.free_text_fields r).

Definition marked_text (value : ustr) : ustr :=
  let base := if _ends_hard_incomplete value then
                match _clip_to_clean_end value with [] => rstrip_ws value | clipped => clipped end
              else rstrip_ws value in
  base ++ _TRUNCATION_MARKER.

Definition mark_field (d : dict) (name : string) : dict :=
  match dget name d with Some (JStr value) => dset name (JStr (marked_text value)) d | _ => d end.

Definition _mark_truncated (output : json) (fields : list string) : json :=
  JObj (dset "truncated" (JBool true) (fold_left mark_field fields (fields_of output))).

(** ** The engine *)

Section Engine.
Context (bp : params) (e : env).

Record attempt_result := mk_attempt {
  at_outcome : outcome_t; at_output : option json; at_latency : option Z; at_finish : option string }.

Definition tick (w : world) : pyfloat * world :=
  (Env.clock e (w_ticks w),
   mk_world (w_breaker w) (w_cache w) (w_events w) (w_calls w) (S (w_ticks w))).

Definition set_breaker (w : world) (b : breaker) : world :=
  mk_world b (w_cache w) (w_events w) (w_calls w) (w_ticks w).
Definition set_cache (w : world) (c : cache) : world :=
  mk_world (w_breaker w) c (w_events w) (w_calls w) (w_ticks w).

(** One attempt.  The input dict is shared with the caller: what the prompt
  builder adds to it is there afterwards. *)
Definition _attempt (r : role) (inp : dict) (s : schema) (seed num_predict : Z) (w : world)
    : attempt_result * dict * world :=
  let '(system, user, inp) := Role.build_prompt r inp (Env.nonce e (w_calls w)) in
  let answer := Env.chat e (w_calls w) (Chat.mk_request system user s num_predict seed) in
  let w := mk_world (w_breaker w) (w_cache w) (w_events w) (S (w_calls w)) (w_ticks w) in
  match answer with
  | Transport =>
      let '(now, w) := tick w in
      (mk_attempt OTimeout None None None, inp, set_breaker w (record_failure bp (w_breaker w) now).1)
  | Response resp =>
      let w := set_breaker w (record_response bp (w_breaker w)).1 in
      let out o body := mk_attempt o body (Some (latency_ms resp)) (finish_reason resp) in
      if tool_calls resp then (out OSchemaFail None, inp, w)
      else match content resp with
           | None => (out OSchemaFail None, inp, w)
           | Some parsed =>
               if negb (is_valid parsed s) then (out OSchemaFail None, inp, w)
               else match Role.post_validate r parsed inp with
                    | None => (out OValidationFail None, inp, w)
                    | Some parsed => (out OOk (Some parsed), inp, w)
                    end
           end
  end.

Definition _resolve_truncation (r : role) (inp : dict) (s : schema) (output : json)
    (finish : option string) (w : world) : json * dict * world :=
  match _truncated_fields r output finish with
  | [] => (output, inp, w)
  | fields =>
      let '(a, inp, w) := _attempt r inp s 7 (Role.num_predict r * 2) w in
      match at_outcome a, at_output a with
      | OOk, Some r_output =>
          match _truncated_fields r r_output (at_finish a) with
          | [] => (r_output, inp, w)
          | r_fields => (_mark_truncated r_output r_fields, inp, w)
          end
      | _, _ => (_mark_truncated output fields, inp, w)
      end
  end.

Definition _finish (r : role) (project_id item_id : Z) (hash : string) (o : outcome_t)
    (output : option json) (hit : bool) (latency : option Z) (w : world) : role_result * world :=
  (RoleResult.mk o output hit hash,
   mk_world (w_breaker w) (w_cache w)
     (w_events w ++ [Event.mk project_id item_id (Role.name r) hash hit o
        (if decide (o = OOk) then output else None) latency])
     (w_calls w) (w_ticks w)).

Definition _fresh_negative_outcome (r : role) (project_id : Z) (key : string) (w : world)
    : option outcome_t * world :=
  match Role.negative_ttl_days r with
  | None => (None, w)
  | Some ttl =>
      let '(c, row) := get_fresh (w_cache w) (Env.now e) project_id key ttl in
      (* an outcome outside the cacheable ones is reported as validation_fail,
         which is the only cacheable one *)
      (if is_negative row then Some OValidationFail else None, set_cache w c)
  end.

Definition prompt_hash_of (r : role) (inp : dict) : string := Env.sha256_hex e (Role.content_key r inp).
Definition cache_key_of (r : role) (inp : dict) : string :=
  Env.sha256_hex e (Env.model e +:+ "|" +:+ Role.name r +:+ "|" +:+ prompt_hash_of r inp).

(** Past the cache: breaker, attempts, truncation, cache upsert. *)
Definition generate (r : role) (project_id item_id : Z) (inp : dict) (w : world) : role_result * world :=
  let hash := prompt_hash_of r inp in
  let key := cache_key_of r inp in
  (* [allow] reads the clock only when the circuit is open *)
  let '(now, w) := if decide (state (w_breaker w) = OPEN) then tick w else (f0, w) in
  let '(b, allowed, _) := allow (w_breaker w) now in
  let w := set_breaker w b in
  if negb allowed then _finish r project_id item_id hash OBreakerOpen None false None w
  else
    let s := Role.schema_for r inp in
    let '(a, inp, w) := _attempt r inp s 7 (Role.num_predict r) w in
    let '(a, inp, w) := if bool_decide (at_outcome a ∈ [OSchemaFail; OValidationFail])
                        then _attempt r inp s 8 (Role.num_predict r) w else (a, inp, w) in
    match at_outcome a, at_output a with
    | OOk, Some output =>
        let '(output, inp, w) := _resolve_truncation r inp s output (at_finish a) w in
        let w := set_cache w (put (w_cache w) (Env.now e) project_id key (Role.name r) (Env.model e)
                                output (Role.template_hash r inp)) in
        _finish r project_id item_id hash OOk (Some output) false (at_latency a) w
    | o, output =>
        let w := if bool_decide (o ∈ _CACHEABLE_FAILURES) && bool_decide (is_Some (Role.negative_ttl_days r))
                 then set_cache w (put (w_cache w) (Env.now e) project_id key (Role.name r) (Env.model e)
                                     (negative_payload o) None)
                 else w in
        _finish r project_id item_id hash o output false (at_latency a) w
    end.

Definition run (r : role) (project_id item_id : Z) (inp : dict) (w : world) : role_result * world :=
  let hash := prompt_hash_of r inp in
  let key := cache_key_of r inp in
  let '(c, cached) := get_fresh (w_cache w) (Env.now e) project_id key (Role.ttl_days r) in
  let w := set_cache w c in
  if is_negative cached then
    let '(o, w) := _fresh_negative_outcome r project_id key w in
    match o with
    | Some o => _finish r project_id item_id hash o None true (Some 0) w
    | None => generate r project_id item_id inp w
    end
  else match cached with
       | Some output => _finish r project_id item_id hash OOk (Some output) true (Some 0) w
       | None => generate r project_id item_id inp w
       end.
End Engine.

(** ** The cache store *)

(** What a row says, its hit counter aside. *)
Definition content_of (r : CacheRow.t) : string * string * option Z * json * Z :=
  (CacheRow.c_role r, CacheRow.c_model r, CacheRow.c_template r, CacheRow.c_output r, CacheRow.c_created r).

Definition same_rows (c c' : cache) : Prop :=
  forall k, content_of <$> dget k c' = content_of <$> dget k c.

#[export] Instance same_rows_equiv : Equivalence same_rows.
Proof.
  split; [by intros c k|intros c c' Hc k; by rewrite Hc|intros c1 c2 c3 H12 H23 k; by rewrite H23, H12].
Qed.

Lemma get_fresh_rows c now p k ttl : same_rows c (get_fresh c now p k ttl).1.
Proof.
  unfold get_fresh. destruct (dget (p, k) c) as [r|] eqn:E; [|done].
  destruct (_ <=? _); [|done]. simpl. intros k'. destruct (decide (k' = (p, k))) as [->|Hne].
  - by rewrite dget_dset_eq, E.
  - by rewrite dget_dset_ne.
Qed.

(** Read [n] times more: the row's counter, and nothing else of the cache. *)
Definition read_more (n : Z) (r : CacheRow.t) : CacheRow.t :=
  CacheRow.mk (CacheRow.c_role r) (CacheRow.c_model r) (CacheRow.c_template r) (CacheRow.c_output r)
    (CacheRow.c_created r) (CacheRow.c_hits r + n).
Definition counted (c c' : cache) (k : Z * string) (n : Z) : Prop :=
  forall k', dget k' c' = if decide (k' = k) then read_more n <$> dget k c else dget k' c.

Lemma get_fresh_counted c now p k ttl v : (get_fresh c now p k ttl).2 = Some v -> counted c (get_fresh c now p k ttl).1 (p, k) 1.
Proof.
  unfold get_fresh. destruct (dget (p, k) c) as [r|] eqn:E; [|done]. destruct (_ <=? _); [|done]. intros _ k'. simpl.
  case_decide as Hk; [subst k'; by rewrite dget_dset_eq, E|by apply dget_dset_ne].
Qed.

Lemma counted_add c1 c2 c3 k m n : counted c1 c2 k m -> counted c2 c3 k n -> counted c1 c3 k (m + n).
Proof.
  intros H12 H23 k'. rewrite H23, !H12. case_decide; [|done]. rewrite decide_True by done.
  destruct (dget k c1) as [r|]; [|done]. simpl. unfold read_more. simpl. by rewrite <- Z.add_assoc.
Qed.

Lemma counted_rows c c' k n : counted c c' k n -> same_rows c c'.
Proof. intros Hc k'. rewrite Hc. case_decide as Hk; [subst k'|done]. by destruct (dget k c). Qed.

Definition fresh_at (now ttl : Z) (r : CacheRow.t) : bool := now - days ttl <=? CacheRow.c_created r.

Lemma get_fresh_value c now p k ttl :
  (get_fresh c now p k ttl).2 =
  match dget (p, k) c with
  | Some r => if fresh_at now ttl r then Some (CacheRow.c_output r) else None
  | None => None
  end.
Proof. unfold get_fresh, fresh_at. destruct (dget (p, k) c) as [r|]; [|done]. by destruct (_ <=? _). Qed.

Lemma get_fresh_same c c' now p k ttl :
  same_rows c c' -> (get_fresh c' now p k ttl).2 = (get_fresh c now p k ttl).2.
Proof.
  intros Hs. rewrite !get_fresh_value. specialize (Hs (p, k)).
  destruct (dget (p, k) c) as [r|], (dget (p, k) c') as [r'|]; simpl in Hs; try done.
  injection Hs as _ _ _ Ho Hc. unfold fresh_at. by rewrite Ho, Hc.
Qed.

(** ** One attempt *)

Section EngineLaws.
Context (bp : params) (e : env).

(** The parts of the world an attempt does not touch. *)
Definition same_store (w w' : world) : Prop := w_cache w' = w_cache w /\ w_events w' = w_events w.

(** The input as any number of preparations left it. *)
Inductive prepared (r : role) (inp : dict) : dict -> Prop :=
  | prepared_refl : prepared r inp inp
  | prepared_step inp' nonce : prepared r inp inp' -> prepared r inp (Role.build_prompt r inp' nonce).2.

Lemma prepared_trans r inp1 inp2 inp3 : prepared r inp1 inp2 -> prepared r inp2 inp3 -> prepared r inp1 inp3.
Proof. intros H12 H23. induction H23; [done|by constructor]. Qed.

(** A body that passed the schema, and the role's own checks against the input of
    the run as a prompt was made of it. *)
Definition checked (r : role) (s : schema) (inp : dict) (v : json) : Prop :=
  exists parsed inp' nonce, prepared r inp inp' /\ is_valid parsed s = true /\
    Role.post_validate r parsed (Role.build_prompt r inp' nonce).2 = Some v.

Lemma checked_prepared r s inp inp' v : prepared r inp inp' -> checked r s inp' v -> checked r s inp v.
Proof.
  intros Hp (parsed & inp1 & nonce & Hp1 & Hv & Hpv). exists parsed, inp1, nonce. split_and!; [|done..].
  by eapply prepared_trans.
Qed.

(** The input as preparing the [k]th call leaves it. *)
Definition prep (r : role) (inp : dict) (k : nat) : dict := (Role.build_prompt r inp (Env.nonce e k)).2.

(** The [k]th call of the model, asked about the input, gives a body that conforms to
    the schema and passes the role's checks: [v], ended for the reason [fin]. *)
Definition accepted (r : role) (s : schema) (seed num_predict : Z) (k : nat) (inp : dict) (v : json)
    (fin : option string) : Prop :=
  let '((system, user), inp') := Role.build_prompt r inp (Env.nonce e k) in
  exists resp parsed, Env.chat e k (Chat.mk_request system user s num_predict seed) = Response resp /\
    tool_calls resp = false /\ content resp = Some parsed /\ is_valid parsed s = true /\
    Role.post_validate r parsed inp' = Some v /\ finish_reason resp = fin.
Definition refused (r : role) (s : schema) (seed num_predict : Z) (k : nat) (inp : dict) : Prop :=
  forall v fin, ~ accepted r s seed num_predict k inp v fin.

Lemma prep_prepared r inp k : prepared r inp (prep r inp k).
Proof. constructor. constructor. Qed.

Lemma accepted_checked r s seed n k inp v fin : accepted r s seed n k inp v fin -> checked r s inp v.
Proof.
  unfold accepted. destruct (Role.build_prompt r inp (Env.nonce e k)) as [[sys usr] inp'] eqn:E.
  intros (resp & parsed & _ & _ & _ & Hv & Hp & _). exists parsed, inp, (Env.nonce e k). rewrite E.
  by split_and!; [constructor|..].
Qed.

Lemma attempt_spec r inp s seed n w a inp' w' :
  _attempt bp e r inp s seed n w = (a, inp', w') ->
  same_store w w' /\ w_calls w' = S (w_calls w) /\ at_outcome a <> OBreakerOpen /\ inp' = prep r inp (w_calls w) /\
  match at_outcome a with
  | OOk => exists v, at_output a = Some v /\ accepted r s seed n (w_calls w) inp v (at_finish a)
  | _ => at_output a = None /\ refused r s seed n (w_calls w) inp
  end.
Proof.
  unfold _attempt, same_store, refused, accepted, prep.
  destruct (Role.build_prompt r inp _) as [[sys usr] inp1].
  destruct (Env.chat e _ _) as [|resp]; simpl.
  { intros [= <- <- <-]. simpl. split_and!; try done. by intros v fin (resp & ? & [=] & _). }
  destruct (tool_calls resp) eqn:Ht; [|destruct (content resp) as [parsed|] eqn:Hc;
    [destruct (is_valid parsed s) eqn:Hv; [destruct (Role.post_validate r parsed inp1) as [v|] eqn:Hp|]|]];
    simpl; intros [= <- <- <-]; simpl; split_and!; try done;
    try (intros v fin (resp' & parsed' & [= <-] & ? & ? & ? & ? & _); congruence).
  exists v. split; [done|]. exists resp, parsed. by split_and!.
Qed.

(** ** The truncation screen *)

Lemma truncated_fields_nil r v fin :
  _truncated_fields r v fin = [] ->
  forall name text, name ∈ Role.free_text_fields r -> dget name (fields_of v) = Some (JStr text) ->
    _looks_truncated text fin = false.
Proof.
  intros Hnil name text Hn Hd. destruct (_looks_truncated text fin) eqn:E; [|done].
  assert (name ∈ _truncated_fields r v fin) as Hin.
  { apply filterb_elem. by rewrite Hd. }
  rewrite Hnil in Hin. by apply elem_of_nil in Hin.
Qed.

Lemma marked_text_marker v : exists base, marked_text v = base ++ _TRUNCATION_MARKER.
Proof. unfold marked_text. eauto. Qed.

Lemma mark_field_other d f name : name <> f -> dget name (mark_field d f) = dget name d.
Proof.
  intros Hne. unfold mark_field. destruct (dget f d) as [[]|]; try done. by rewrite dget_dset_ne by congruence.
Qed.

Lemma mark_fields_text fields d name v :
  name ∈ fields -> dget name d = Some (JStr v) ->
  exists base, dget name (fold_left mark_field fields d) = Some (JStr (base ++ _TRUNCATION_MARKER)).
Proof.
  assert (forall l d0 base, dget name d0 = Some (JStr (base ++ _TRUNCATION_MARKER)) ->
    exists base', dget name (fold_left mark_field l d0) = Some (JStr (base' ++ _TRUNCATION_MARKER))) as Hkeep.
  { clear. induction l as [|f l IH]; intros d0 base Hd; simpl; [eauto|].
    destruct (decide (name = f)) as [<-|Hne].
    - unfold mark_field at 2. rewrite Hd. destruct (marked_text_marker (base ++ _TRUNCATION_MARKER)) as [b Hb].
      rewrite Hb. eapply IH. apply dget_dset_eq.
    - eapply IH. rewrite mark_field_other by done. exact Hd. }
  revert d. induction fields as [|f fs IH]; intros d Hin Hd; [by apply elem_of_nil in Hin|]. simpl.
  destruct (decide (name = f)) as [<-|Hne].
  - unfold mark_field at 2. rewrite Hd. destruct (marked_text_marker v) as [b Hb]. rewrite Hb.
    eapply Hkeep. apply dget_dset_eq.
  - apply elem_of_cons in Hin as [->|Hin]; [done|]. apply IH; [done|]. by rewrite mark_field_other.
Qed.

Lemma mark_fields_unmarked fields d name :
  name ∉ fields -> dget name (fold_left mark_field fields d) = dget name d.
Proof.
  revert d. induction fields as [|f fs IH]; intros d Hni; [done|]. simpl.
  apply not_elem_of_cons in Hni as [Hne Hni]. rewrite IH by done. by apply mark_field_other.
Qed.

(** The text of a persisted field is either not a cut (for the finish reason of
  the attempt it came from) or carries the marker in a flagged payload. *)
Definition honest (r : role) (fin : option string) (v : json) : Prop :=
  forall name text, name ∈ Role.free_text_fields r -> name <> "truncated" ->
    dget name (fields_of v) = Some (JStr text) ->
    _looks_truncated text fin = false \/
    (dget "truncated" (fields_of v) = Some (JBool true) /\ exists base, text = base ++ _TRUNCATION_MARKER).

Lemma mark_truncated_honest r fin v : honest r fin (_mark_truncated v (_truncated_fields r v fin)).
Proof.
  intros name text Hn Hne. simpl. rewrite dget_dset_ne by congruence. rewrite dget_dset_eq.
  destruct (decide (name ∈ _truncated_fields r v fin)) as [Hin|Hni].
  - pose proof Hin as Hin'. apply filterb_elem in Hin' as [_ Ht].
    destruct (dget name (fields_of v)) as [[| | | |t| |]|] eqn:Ed; try done.
    destruct (mark_fields_text _ _ _ _ Hin Ed) as [base ->]. intros [= <-]. right. eauto.
  - rewrite mark_fields_unmarked by done. intros Hd. left.
    destruct (_looks_truncated text fin) eqn:E; [|done].
    destruct Hni. apply filterb_elem. by rewrite Hd.
Qed.

(** A body as it is answered: with its cuts marked, if it has any. *)
Definition screened (r : role) (v : json) (fin : option string) : json :=
  match _truncated_fields r v fin with [] => v | fields => _mark_truncated v fields end.

Lemma screened_honest r v fin : honest r fin (screened r v fin).
Proof.
  unfold screened. destruct (_truncated_fields r v fin) as [|f fs] eqn:E.
  - intros name text Hn _ Hd. left. by eapply truncated_fields_nil.
  - rewrite <- E. apply mark_truncated_honest.
Qed.

(** After a body [v] of the [k]th call ended for [fin]: it stands when nothing in it
    looks cut; otherwise the model is asked once more with twice the budget, and the
    new body stands if it is accepted, and the old one if it is not. *)
Inductive settled (r : role) (s : schema) (k : nat) (inp : dict) (v : json) (fin : option string) :
    json -> option string -> dict -> Prop :=
  | settled_whole : _truncated_fields r v fin = [] -> settled r s k inp v fin v fin inp
  | settled_again v' fin' : _truncated_fields r v fin <> [] ->
      accepted r s 7 (Role.num_predict r * 2) (S k) inp v' fin' -> settled r s k inp v fin v' fin' (prep r inp (S k))
  | settled_kept : _truncated_fields r v fin <> [] ->
      refused r s 7 (Role.num_predict r * 2) (S k) inp -> settled r s k inp v fin v fin (prep r inp (S k)).

Lemma resolve_spec r inp s v fin k w v' inp' w' :
  _resolve_truncation bp e r inp s v fin w = (v', inp', w') -> w_calls w = S k ->
  same_store w w' /\ (w_calls w <= w_calls w' <= S (w_calls w))%nat /\
  exists v0 fin0, settled r s k inp v fin v0 fin0 inp' /\ v' = screened r v0 fin0.
Proof.
  unfold _resolve_truncation. intros Hres Hk.
  destruct (_truncated_fields r v fin) as [|f fs] eqn:Ef.
  { injection Hres as <- <- <-. split_and!; [done|lia|lia|]. exists v, fin. unfold screened. rewrite Ef.
    split; [by constructor|done]. }
  rewrite <- Ef in Hres. assert (_truncated_fields r v fin <> []) as Hne by (by rewrite Ef).
  assert (_mark_truncated v (_truncated_fields r v fin) = screened r v fin) as Hmark by (unfold screened; by rewrite Ef).
  destruct (_attempt bp e r inp s 7 _ w) as [[a inp1] w1] eqn:Ea.
  apply attempt_spec in Ea as (Hst & Hc & _ & -> & Hout). rewrite Hk in *.
  destruct (at_outcome a);
    try (destruct Hout as [_ Href]; injection Hres as <- <- <-; split_and!; [done|lia|lia|];
         exists v, fin; by split; [apply settled_kept|]).
  destruct Hout as (v1 & Hv1 & Hval). rewrite Hv1 in Hres.
  split_and!; [by destruct (_truncated_fields r v1 _); injection Hres as <- <- <-
              |destruct (_truncated_fields r v1 _); injection Hres as <- <- <-; lia..|].
  exists v1, (at_finish a). unfold screened.
  destruct (_truncated_fields r v1 (at_finish a)); injection Hres as <- <- <-; by split; [apply settled_again|].
Qed.

(** ** One run *)

Definition after_put (c c' : cache) (k0 : Z * string)
    (row : string * string * option Z * json * Z) : Prop :=
  forall k, content_of <$> dget k c' = if decide (k = k0) then Some row else content_of <$> dget k c.

Lemma put_rows c c0 now p key role model out th :
  same_rows c c0 -> after_put c (put c0 now p key role model out th) (p, key) (role, model, th, out, now).
Proof.
  intros Hs k. unfold put. case_decide as Hk.
  - subst k. by rewrite dget_dset_eq.
  - rewrite dget_dset_ne by congruence. apply Hs.
Qed.

(** The one event of a run repeats its result. *)
Definition one_event (r : role) (p i : Z) (w w' : world) (res : role_result) : Prop :=
  exists latency, w_events w' = w_events w ++ [Event.mk p i (Role.name r) (RoleResult.prompt_hash res)
    (RoleResult.cache_hit res) (RoleResult.outcome res)
    (if decide (RoleResult.outcome res = OOk) then RoleResult.output res else None) latency].

(** A fresh answer: valid for the role, and honest about a cut. *)
Definition answer_ok (r : role) (inp : dict) (v : json) : Prop :=
  exists v0 fin, (v = v0 \/ v = _mark_truncated v0 (_truncated_fields r v0 fin)) /\
    checked r (Role.schema_for r inp) inp v0 /\ honest r fin v.

(** The first accepted body of a run whose first call is the [k]th: the first
    attempt's, or the second's, on another seed, when the first is refused; with the
    call it came from and the input as its prompt left it. *)
Inductive first_body (r : role) (inp : dict) (k : nat) : nat -> dict -> json -> option string -> Prop :=
  | first_attempt v fin : accepted r (Role.schema_for r inp) 7 (Role.num_predict r) k inp v fin ->
      first_body r inp k k (prep r inp k) v fin
  | second_attempt v fin : refused r (Role.schema_for r inp) 7 (Role.num_predict r) k inp ->
      accepted r (Role.schema_for r inp) 8 (Role.num_predict r) (S k) (prep r inp k) v fin ->
      first_body r inp k (S k) (prep r (prep r inp k) (S k)) v fin.

(** The answer of a run whose first call is the [k]th, and the input it leaves: the
    body that stands, with the cuts marked that the finish reason of its own attempt
    tells of. *)
Definition answered (r : role) (inp : dict) (k : nat) (v : json) (inp' : dict) : Prop :=
  exists k1 inp1 v1 fin1 v0 fin0, first_body r inp k k1 inp1 v1 fin1 /\
    settled r (Role.schema_for r inp) k1 inp1 v1 fin1 v0 fin0 inp' /\
    v = screened r v0 fin0 /\ honest r fin0 v.

Lemma first_body_checked r inp k k1 inp1 v fin : first_body r inp k k1 inp1 v fin ->
  checked r (Role.schema_for r inp) inp v /\ prepared r inp inp1.
Proof.
  intros [v' fin' Ha|v' fin' _ Ha]; apply accepted_checked in Ha; (split; [|]); auto using prep_prepared.
  - eapply checked_prepared, Ha. apply prep_prepared.
  - eapply prepared_trans; apply prep_prepared.
Qed.

Lemma answered_checked r inp k v inp' : answered r inp k v inp' ->
  exists v0 fin, v = screened r v0 fin /\ checked r (Role.schema_for r inp) inp v0.
Proof.
  intros (k1 & inp1 & v1 & fin1 & v0 & fin0 & [Hc1 Hp1]%first_body_checked & Hs & -> & Hh). exists v0, fin0. split; [done|].
  destruct Hs as [_|v' fin' _ Ha|_]; [done| |done]. apply accepted_checked in Ha. by eapply checked_prepared.
Qed.

Lemma answered_prepared r inp k v inp' : answered r inp k v inp' -> prepared r inp inp'.
Proof.
  intros (k1 & inp1 & v1 & fin1 & v0 & fin0 & [_ Hp1]%first_body_checked & Hs & _).
  destruct Hs; [done|eapply prepared_trans; [done|apply prep_prepared]..].
Qed.

Lemma answered_ok r inp k v inp' : answered r inp k v inp' -> answer_ok r inp v.
Proof.
  intros (k1 & inp1 & v1 & fin1 & v0 & fin0 & [Hc1 Hp1]%first_body_checked & Hs & -> & Hh). exists v0, fin0.
  split; [unfold screened; destruct (_truncated_fields r v0 fin0); [by left|by right]|]. split; [|done].
  destruct Hs as [_|v' fin' _ Ha|_]; [done| |done]. apply accepted_checked in Ha. by eapply checked_prepared.
Qed.

(** What a generation leaves in the cache and returns, by outcome. *)
Definition generated (r : role) (p : Z) (inp : dict) (w w' : world) (res : role_result) : Prop :=
  match RoleResult.outcome res with
  | OOk => exists v inp', RoleResult.output res = Some v /\ answered r inp (w_calls w) v inp' /\
      after_put (w_cache w) (w_cache w') (p, cache_key_of e r inp)
        (Role.name r, Env.model e, Role.template_hash r inp', v, Env.now e)
  | OValidationFail => RoleResult.output res = None /\
      match Role.negative_ttl_days r with
      | Some _ => after_put (w_cache w) (w_cache w') (p, cache_key_of e r inp)
          (Role.name r, Env.model e, None, negative_payload OValidationFail, Env.now e)
      | None => same_rows (w_cache w) (w_cache w')
      end
  | _ => RoleResult.output res = None /\ same_rows (w_cache w) (w_cache w')
  end.

Lemma generate_spec r p i inp w res w' :
  generate bp e r p i inp w = (res, w') ->
  one_event r p i w w' res /\ RoleResult.cache_hit res = false /\
  RoleResult.prompt_hash res = prompt_hash_of e r inp /\
  (w_calls w' <= w_calls w + 3)%nat /\
  (RoleResult.outcome res = OBreakerOpen <-> w_calls w' = w_calls w) /\
  generated r p inp w w' res.
Proof.
  unfold generate.
  destruct (if decide (state (w_breaker w) = OPEN) then tick e w else (f0, w)) as [now w1] eqn:Etick.
  assert (same_store w w1 /\ w_calls w1 = w_calls w) as [[Hc1 He1] Hn1].
  { destruct (decide _); [unfold tick in Etick|]; by injection Etick as <- <-. }
  destruct (allow (w_breaker w1) now) as [[b allowed] ch].
  destruct allowed; cbn [negb].
  2: { unfold _finish. intros [= <- <-]. cbn. unfold one_event. cbn. split_and!; try done; [|lia|].
       - eexists. by rewrite He1.
       - unfold generated. cbn. by rewrite Hc1. }
  set (s := Role.schema_for r inp).
  destruct (_attempt bp e r inp s 7 _ _) as [[a1 inp1] w2] eqn:Ea1.
  apply attempt_spec in Ea1 as ([Hc2 He2] & Hn2 & Hb1 & -> & Ho1). cbn in Hc2, He2, Hn2, Ho1. cbn [set_breaker w_calls].
  rewrite Hn1 in Hn2, Ho1 |- *.
  destruct (if bool_decide (at_outcome a1 ∈ _) then _ else _) as [[a inp2] w3] eqn:Ea.
  assert (same_store w2 w3 /\ at_outcome a <> OBreakerOpen /\ exists k1, w_calls w3 = S k1 /\
    (k1 = w_calls w \/ k1 = S (w_calls w)) /\ match at_outcome a with
      | OOk => exists v, at_output a = Some v /\ first_body r inp (w_calls w) k1 inp2 v (at_finish a)
      | _ => at_output a = None end) as ([Hc3 He3] & Hb & k1 & Hk1 & Hn3 & Ho).
  { destruct (bool_decide _) eqn:Er.
    - apply bool_decide_eq_true in Er. assert (refused r s 7 (Role.num_predict r) (w_calls w) inp) as Href.
      { rewrite !elem_of_cons, elem_of_nil in Er. destruct Er as [Er|[Er|[]]]; rewrite Er in Ho1; by destruct Ho1. }
      apply attempt_spec in Ea as ([? ?] & Hc & ? & -> & Hout). rewrite Hn2 in *. unfold same_store.
      split_and!; try done. exists (S (w_calls w)). split_and!; [done|by right|].
      destruct (at_outcome a); try (by destruct Hout). destruct Hout as (v & ? & ?). exists v. split; [done|].
      by apply second_attempt.
    - injection Ea as <- <- <-. unfold same_store. split_and!; try done. exists (w_calls w). split_and!; [done|by left|].
      destruct (at_outcome a1); try (by destruct Ho1). destruct Ho1 as (v & ? & ?). exists v. split; [done|].
      by apply first_attempt. }
  clear Ea Ho1. destruct (at_outcome a) eqn:Eo; try done.
  - destruct Ho as (v & Hv & Hval). rewrite Hv.
    destruct (_resolve_truncation bp e r inp2 _ v _ w3) as [[v' inp3] w4] eqn:Er.
    apply (resolve_spec _ _ _ _ _ k1) in Er as ([Hc4 He4] & Hn4 & v0 & fin & Hset & ->); [|done].
    unfold _finish. intros [= <- <-]. cbn. unfold one_event. cbn. split_and!; try done; [|lia|split; [done|lia]|].
    + eexists. by rewrite He4, He3, He2, He1.
    + unfold generated. cbn. eexists _, inp3. split_and!; [done| |].
      * exists k1, inp2, v, (at_finish a), v0, fin. split_and!; [done..|apply screened_honest].
      * apply put_rows. by rewrite Hc4, Hc3, Hc2, Hc1.
  - rewrite Ho. unfold _finish. intros [= <- <-]. cbn. unfold one_event. cbn.
    split_and!; try done; [|lia|split; [done|lia]|].
    + eexists. by rewrite He3, He2, He1.
    + unfold generated. cbn. by rewrite Hc3, Hc2, Hc1.
  - rewrite Ho. unfold _finish. intros [= <- <-]. cbn. unfold one_event. cbn.
    destruct (Role.negative_ttl_days r) as [ttl|] eqn:Ettl.
    + rewrite bool_decide_eq_true_2 by eauto. cbn. split_and!; try done; [|lia|split; [done|lia]|].
      * eexists. by rewrite He3, He2, He1.
      * apply put_rows. by rewrite Hc3, Hc2, Hc1.
    + cbn. split_and!; try done; [|lia|split; [done|lia]|].
      * eexists. by rewrite He3, He2, He1.
      * by rewrite Hc3, Hc2, Hc1.
  - rewrite Ho. unfold _finish. intros [= <- <-]. cbn. unfold one_event. cbn.
    split_and!; try done; [|lia|split; [done|lia]|].
    + eexists. by rewrite He3, He2, He1.
    + unfold generated. cbn. by rewrite Hc3, Hc2, Hc1.
Qed.

Lemma same_rows_after_put c0 c c' k row : same_rows c0 c -> after_put c c' k row -> after_put c0 c' k row.
Proof. intros Hs Ha k'. rewrite Ha. case_decide; [done|apply Hs]. Qed.

Lemma generated_from r p inp w0 w w' res : same_rows (w_cache w0) (w_cache w) -> w_calls w0 = w_calls w ->
  generated r p inp w w' res -> generated r p inp w0 w' res.
Proof.
  intros Hs Hc. unfold generated. rewrite Hc. destruct (RoleResult.outcome res).
  - intros (v & inp' & ? & ? & Ha). exists v, inp'. split_and!; [done..|]. by eapply same_rows_after_put.
  - intros [? ?]. split; [done|]. by etrans.
  - intros [? Ha]. split; [done|]. destruct (Role.negative_ttl_days r); [by eapply same_rows_after_put|by etrans].
  - intros [? ?]. split; [done|]. by etrans.
  - intros [? ?]. split; [done|]. by etrans.
Qed.

(** The cache's answer for a run: a stored body inside the role's window, or a
  negative mark inside the shorter one. *)
Definition lookup (r : role) (p : Z) (inp : dict) (w : world) : option CacheRow.t :=
  dget (p, cache_key_of e r inp) (w_cache w).

Inductive cache_answer (r : role) (p : Z) (inp : dict) (w : world) : option (outcome_t * option json) -> Prop :=
  | answer_body row :
    lookup r p inp w = Some row -> fresh_at (Env.now e) (Role.ttl_days r) row = true ->
    is_negative (Some (CacheRow.c_output row)) = false ->
    cache_answer r p inp w (Some (OOk, Some (CacheRow.c_output row)))
  | answer_negative row ttl :
    lookup r p inp w = Some row -> fresh_at (Env.now e) (Role.ttl_days r) row = true ->
    is_negative (Some (CacheRow.c_output row)) = true ->
    Role.negative_ttl_days r = Some ttl -> fresh_at (Env.now e) ttl row = true ->
    cache_answer r p inp w (Some (OValidationFail, None))
  | answer_none :
    (forall row, lookup r p inp w = Some row -> fresh_at (Env.now e) (Role.ttl_days r) row = true ->
       is_negative (Some (CacheRow.c_output row)) = true /\
       forall ttl, Role.negative_ttl_days r = Some ttl -> fresh_at (Env.now e) ttl row = false) ->
    cache_answer r p inp w None.

Lemma run_cases r p i inp w :
  (exists o out w', cache_answer r p inp w (Some (o, out)) /\
     counted (w_cache w) (w_cache w') (p, cache_key_of e r inp) (if decide (o = OOk) then 1 else 2) /\
     w_breaker w' = w_breaker w /\ w_events w' = w_events w /\ w_calls w' = w_calls w /\
     run bp e r p i inp w = _finish r p i (prompt_hash_of e r inp) o out true (Some 0) w') \/
  (exists w', cache_answer r p inp w None /\ same_rows (w_cache w) (w_cache w') /\
     w_breaker w' = w_breaker w /\ w_events w' = w_events w /\ w_calls w' = w_calls w /\
     run bp e r p i inp w = generate bp e r p i inp w').
Proof.
  unfold run.
  pose proof (get_fresh_counted (w_cache w) (Env.now e) p (cache_key_of e r inp) (Role.ttl_days r)) as Hn1.
  pose proof (get_fresh_rows (w_cache w) (Env.now e) p (cache_key_of e r inp) (Role.ttl_days r)) as Hr1.
  pose proof (get_fresh_value (w_cache w) (Env.now e) p (cache_key_of e r inp) (Role.ttl_days r)) as Hv1.
  destruct (get_fresh _ _ p _ _) as [c1 cached]. cbn in Hr1, Hv1, Hn1.
  destruct (is_negative cached) eqn:Eneg.
  - assert (exists row, lookup r p inp w = Some row /\ fresh_at (Env.now e) (Role.ttl_days r) row = true /\
      cached = Some (CacheRow.c_output row)) as (row & Hrow & Hfr & ->).
    { unfold lookup. destruct (dget _ (w_cache w)) as [row|]; [|by rewrite Hv1 in Eneg].
      destruct (fresh_at _ _ row) eqn:Ef; [eauto|by rewrite Hv1 in Eneg]. }
    unfold _fresh_negative_outcome. destruct (Role.negative_ttl_days r) as [ttl|] eqn:Ettl.
    + cbn [w_cache set_cache].
      pose proof (get_fresh_rows c1 (Env.now e) p (cache_key_of e r inp) ttl) as Hr2.
      pose proof (get_fresh_same (w_cache w) c1 (Env.now e) p (cache_key_of e r inp) ttl Hr1) as Hv2.
      pose proof (get_fresh_counted c1 (Env.now e) p (cache_key_of e r inp) ttl) as Hn2.
      rewrite (get_fresh_value (w_cache w)) in Hv2. unfold lookup in Hrow. rewrite Hrow in Hv2.
      destruct (get_fresh c1 _ p _ ttl) as [c2 row2]. cbn in Hr2, Hv2, Hn2.
      destruct (fresh_at (Env.now e) ttl row) eqn:Ef2; subst row2.
      * rewrite Eneg. left. eexists _, _, (set_cache (set_cache w c1) c2).
        split; [by eapply answer_negative|]. split; [|by split_and!]. cbn.
        exact (counted_add _ _ _ _ 1 1 (Hn1 _ eq_refl) (Hn2 _ eq_refl)).
      * right. exists (set_cache (set_cache w c1) c2). split; [|split; [|by split_and!]]; [|cbn; by etrans].
        apply answer_none. intros row' Hrow' _. unfold lookup in Hrow'. rewrite Hrow in Hrow'.
        injection Hrow' as <-. split; [done|]. intros ttl' Ht. congruence.
    + right. exists (set_cache w c1). split; [|split; [|by split_and!]]; [|done].
      apply answer_none. intros row' Hrow' _. rewrite Hrow in Hrow'. injection Hrow' as <-.
      split; [done|]. by rewrite Ettl.
  - destruct cached as [output|].
    + left. assert (exists row, lookup r p inp w = Some row /\ fresh_at (Env.now e) (Role.ttl_days r) row = true /\
        output = CacheRow.c_output row) as (row & Hrow & Hfr & ->).
      { unfold lookup. destruct (dget _ (w_cache w)) as [row|]; [|done].
        destruct (fresh_at _ _ row) eqn:Ef; [|done]. injection Hv1 as ->. eauto. }
      eexists _, _, (set_cache w c1). split; [by eapply answer_body|]. split; [exact (Hn1 _ eq_refl)|by split_and!].
    + right. exists (set_cache w c1). split; [|split; [|by split_and!]]; [|done].
      apply answer_none. intros row Hrow Hf. unfold lookup in Hrow. rewrite Hrow, Hf in Hv1. done.
Qed.

(** An answer that is not the cache's was generated and checked. *)
Lemma fresh_answer r p i inp w res w' :
  run bp e r p i inp w = (res, w') -> RoleResult.outcome res = OOk -> RoleResult.cache_hit res = false ->
  exists v, RoleResult.output res = Some v /\ answer_ok r inp v.
Proof.
  intros Hrun Ho Hhit. destruct (run_cases r p i inp w) as [(o & out & w1 & _ & _ & _ & _ & _ & Hf)|(w1 & _ & _ & _ & _ & _ & Hg)].
  - rewrite Hrun in Hf. injection Hf as -> _. done.
  - rewrite Hrun in Hg. symmetry in Hg. apply generate_spec in Hg as (_ & _ & _ & _ & _ & Hg).
    unfold generated in Hg. rewrite Ho in Hg. destruct Hg as (v & inp' & ? & Ha & _). eauto using answered_ok.
Qed.
End EngineLaws.

(** ** Properties *)

(** Every run is accounted for and bounded: it appends exactly one event,
    which repeats its result (and carries an output only when the outcome is ok);
    it makes at most three model calls; a cache hit makes none and leaves the
    breaker and every cached row as they were; an open circuit makes none. *)
Theorem run_accounted (bp : params) (e : env) (r : role) (p i : Z) (inp : dict) (w : world) :
  let '(res, w') := run bp e r p i inp w in
  one_event r p i w w' res /\ (w_calls w' <= w_calls w + 3)%nat /\
  (RoleResult.cache_hit res = true -> w_calls w' = w_calls w /\ w_breaker w' = w_breaker w /\
     same_rows (w_cache w) (w_cache w')) /\
  (RoleResult.outcome res = OBreakerOpen -> w_calls w' = w_calls w) /\
  (RoleResult.cache_hit res = false -> w_calls w' = w_calls w -> RoleResult.outcome res = OBreakerOpen).
Proof.
  destruct (run_cases bp e r p i inp w)
    as [(o & out & w1 & Ha & Hr & Hb & He & Hc & ->)|(w1 & Ha & Hr & Hb & He & Hc & ->)].
  - unfold _finish. cbn. unfold one_event. cbn. split_and!; try done; [|lia|intros _; split_and!; try done; by eapply counted_rows].
    eexists. by rewrite He.
  - destruct (generate bp e r p i inp w1) as [res w'] eqn:Eg.
    apply generate_spec in Eg as ((lat & Hev) & Hhit & _ & Hn & Hbo & _).
    unfold one_event. rewrite Hev, He, Hhit. split_and!; try done; [by eexists|lia|..].
    + intros H. apply Hbo in H. lia.
    + intros _ H. apply Hbo. lia.
Qed.


(** The same engine at a later time. *)
Definition at_time (e : env) (now : Z) : env :=
  Env.mk (Env.chat e) (Env.clock e) now (Env.nonce e) (Env.sha256_hex e) (Env.model e).

Lemma lookup_later e now r p inp w : lookup (at_time e now) r p inp w = lookup e r p inp w.
Proof. done. Qed.

(** A later run that finds the row [row] under its key. *)
Lemma later_run bp e r p i inp w row now' :
  content_of <$> lookup e r p inp w = Some (content_of row) ->
  let '(res, w') := run bp (at_time e now') r p i inp w in
  (is_negative (Some (CacheRow.c_output row)) = false -> fresh_at now' (Role.ttl_days r) row = true ->
     RoleResult.outcome res = OOk /\ RoleResult.output res = Some (CacheRow.c_output row) /\
     RoleResult.cache_hit res = true /\ w_calls w' = w_calls w) /\
  (forall ttl, is_negative (Some (CacheRow.c_output row)) = true -> Role.negative_ttl_days r = Some ttl ->
     (fresh_at now' (Role.ttl_days r) row && fresh_at now' ttl row = true ->
        RoleResult.outcome res = OValidationFail /\ RoleResult.cache_hit res = true /\ w_calls w' = w_calls w) /\
     (fresh_at now' ttl row = false -> RoleResult.cache_hit res = false)).
Proof.
  intros Hrow. destruct (lookup e r p inp w) as [row0|] eqn:El; [|done]. simpl in Hrow.
  injection Hrow as _ _ _ Ho Hcr.
  assert (forall ttl, fresh_at now' ttl row0 = fresh_at now' ttl row) as Hfr
    by (intros; unfold fresh_at; by rewrite Hcr).
  destruct (run_cases bp (at_time e now') r p i inp w)
    as [(o & out & w1 & Ha & Hr & Hb & He & Hc & ->)|(w1 & Ha & Hr & Hb & He & Hc & ->)].
  - unfold _finish. cbn -[is_negative]. inversion Ha as [row1 Hl Hf Hn|row1 ttl1 Hl Hf Hn Ht Hf2|]; subst;
      rewrite lookup_later, El in Hl; injection Hl as <-; rewrite Ho in *; rewrite Hfr in Hf.
    + split; [intros _ _; by split_and!|]. intros ttl Hneg. by rewrite Hneg in Hn.
    + rewrite Hfr in Hf2. split; [intros Hneg; by rewrite Hneg in Hn|].
      intros ttl _ Ht'. split; [intros _; by split_and!|]. rewrite Ht in Ht'. injection Ht' as <-.
      intros Hf3. cbn in Hf2. by rewrite Hf3 in Hf2.
  - destruct (generate bp (at_time e now') r p i inp w1) as [res w'] eqn:Eg.
    apply generate_spec in Eg as (_ & Hhit & _ & _ & _ & _).
    inversion Ha as [| |Hnone]; subst. specialize (Hnone row0). rewrite lookup_later, El in Hnone.
    cbn -[is_negative] in Hnone. rewrite !Hfr, Ho in Hnone. split.
    + intros Hn Hf. destruct (Hnone eq_refl Hf) as [Hneg _]. by rewrite Hneg in Hn.
    + intros ttl Hn Ht. split; [|done]. intros [Hf Hf2]%andb_true_iff.
      destruct (Hnone eq_refl Hf) as [_ Hneg]. specialize (Hneg _ Ht).
      cbn in Hneg, Hf2. rewrite Hfr in Hneg. by rewrite Hf2 in Hneg.
Qed.

(** The cache saves the model's time and nothing else: after a run that
    generated an ok answer (which no role schema lets look like a negative mark),
    the same question inside the role's window is answered with the same body and
    no model call; after a grounded failure of a role that opted in, it is refused
    without a call inside the short window, and asked again once that window has
    passed. *)
Theorem repeat_run_cached (bp : params) (e : env) (r : role) (p i : Z) (inp : dict) (w : world)
    (now' : Z)
    (Hmiss : RoleResult.cache_hit (run bp e r p i inp w).1 = false)
    (Hbody : forall v, RoleResult.output (run bp e r p i inp w).1 = Some v -> is_negative (Some v) = false) :
  let '(res, w1) := run bp e r p i inp w in
  let '(res2, w2) := run bp (at_time e now') r p i inp w1 in
  (RoleResult.outcome res = OOk -> now' <= Env.now e + days (Role.ttl_days r) ->
     RoleResult.outcome res2 = OOk /\ RoleResult.output res2 = RoleResult.output res /\
     RoleResult.cache_hit res2 = true /\ w_calls w2 = w_calls w1) /\
  (forall ttl, RoleResult.outcome res = OValidationFail -> Role.negative_ttl_days r = Some ttl ->
     (now' <= Env.now e + days ttl -> now' <= Env.now e + days (Role.ttl_days r) ->
        RoleResult.outcome res2 = OValidationFail /\ RoleResult.cache_hit res2 = true /\ w_calls w2 = w_calls w1) /\
     (Env.now e + days ttl < now' -> RoleResult.cache_hit res2 = false)).
Proof.
  destruct (run bp e r p i inp w) as [res w1] eqn:Er. cbn [fst] in Hmiss, Hbody.
  assert (generated e r p inp w w1 res) as Hg.
  { destruct (run_cases bp e r p i inp w)
      as [(o & out & w' & _ & _ & _ & _ & _ & E)|(w' & _ & Hr & _ & _ & Hc & E)]; rewrite Er in E.
    - unfold _finish in E. injection E as -> _. done.
    - symmetry in E. apply generate_spec in E as (_ & _ & _ & _ & _ & Hg). by eapply generated_from. }
  assert (forall row, after_put (w_cache w) (w_cache w1) (p, cache_key_of e r inp) (content_of row) ->
    content_of <$> lookup e r p inp w1 = Some (content_of row)) as Hput.
  { intros row Ha. unfold lookup. rewrite Ha. by rewrite decide_True. }
  destruct (run bp (at_time e now') r p i inp w1) as [res2 w2] eqn:Er2.
  unfold generated in Hg. split.
  - intros Ho Hnow. rewrite Ho in Hg. destruct Hg as (v & inp' & Hv & _ & Ha).
    set (row := CacheRow.mk (Role.name r) (Env.model e) (Role.template_hash r inp') v (Env.now e) 0).
    pose proof (later_run bp e r p i inp w1 row now' (Hput row Ha)) as Hl. rewrite Er2 in Hl. destruct Hl as [Hl _].
    rewrite Hv. apply Hl; [by apply Hbody|]. unfold fresh_at. simpl. lia.
  - intros ttl Ho Hneg. rewrite Ho, Hneg in Hg. destruct Hg as [_ Ha].
    set (row := CacheRow.mk (Role.name r) (Env.model e) None (negative_payload OValidationFail) (Env.now e) 0).
    pose proof (later_run bp e r p i inp w1 row now' (Hput row Ha)) as Hl.
    rewrite Er2 in Hl. destruct Hl as [_ Hl]. specialize (Hl ttl eq_refl Hneg) as [Hl1 Hl2].
    unfold fresh_at in Hl1, Hl2. simpl in Hl1, Hl2. split; intros; [apply Hl1|apply Hl2]; lia.
Qed.

(** ** The marker *)

Lemma rstrip_prefix s : exists t, s = rstrip_ws s ++ t.
Proof. destruct (urstrip_prefix uspace s) as (t & Ht & _). eauto. Qed.

Lemma clip_prefix s : exists t, s = _clip_to_clean_end s ++ t.
Proof.
  unfold _clip_to_clean_end. destruct (rstrip_prefix s) as [t Ht].
  destruct (last_terminal (rstrip_ws s)) as [idx|].
  - exists (drop (S idx) (rstrip_ws s) ++ t). by rewrite (assoc (++)), take_drop.
  - set (trimmed := urstrip _ (rstrip_ws s)).
    destruct (urstrip_prefix (mem (_HARD_INCOMPLETE ++ [32; 9]%N)) (rstrip_ws s)) as (t2 & Ht2 & _).
    fold trimmed in Ht2.
    assert (exists t3, trimmed = (match urfind 32%N trimmed with Some (S i) => take (S i) trimmed | _ => trimmed end) ++ t3)
      as [t3 Ht3].
    { destruct (urfind 32%N trimmed) as [[|i]|]; [by exists []; rewrite app_nil_r| |by exists []; rewrite app_nil_r].
      exists (drop (S i) trimmed). by rewrite take_drop. }
    set (cut := match urfind 32%N trimmed with Some (S i) => _ | _ => _ end) in *.
    destruct (rstrip_prefix cut) as [t4 Ht4]. exists (t4 ++ t3 ++ t2 ++ t).
    by rewrite !(assoc (++)), <- Ht4, <- Ht3, <- Ht2.
Qed.

(** Marking a cut is honest: the marked text is a prefix of what the model
    wrote followed by the marker, so no word is invented; a text that does not end
    on a dangling token loses only trailing white space; and a field is marked only
    if it ends on such a token, or the token budget was hit and the text does not
    end like a sentence. *)
Theorem truncation_marker_honest (v : ustr) (finish : option string) :
  (exists base rest, marked_text v = base ++ _TRUNCATION_MARKER /\ v = base ++ rest) /\
  (_ends_hard_incomplete v = false -> marked_text v = rstrip_ws v ++ _TRUNCATION_MARKER) /\
  (_looks_truncated v finish = true <->
     _ends_hard_incomplete v = true \/ (finish = Some "length" /\ _ends_complete v = false)).
Proof.
  split_and!.
  - unfold marked_text. destruct (_ends_hard_incomplete v).
    + destruct (_clip_to_clean_end v) as [|c l] eqn:E.
      * destruct (rstrip_prefix v) as [t Ht]. eauto.
      * rewrite <- E. destruct (clip_prefix v) as [t Ht]. eauto.
    + destruct (rstrip_prefix v) as [t Ht]. eauto.
  - intros Hh. unfold marked_text. by rewrite Hh.
  - unfold _looks_truncated. destruct (_ends_hard_incomplete v); [naive_solver|].
    case_bool_decide; simpl; [|naive_solver]. rewrite negb_true_iff. naive_solver.
Qed.

(** ** A small role *)

Definition wrole : role := Role.mk "explainer" 90 512 (Some 7) ["reason"]
  (fun _ => obj_schema [("reason", str_schema 300)] ["reason"])
  (fun _ => "key") (fun inp n => ("system", n, inp))
  (fun v _ => match dget "reason" (fields_of v) with Some (JStr (_ :: _)) => Some v | _ => None end)
  (fun _ => None).

Definition wanswer (s : string) : reply :=
  Response (Chat.mk_response (Some (JObj [("reason", jstr s)])) false 12 (Some "stop")).

(** The model answers, then (asked with seed 8) returns an empty reason. *)
Definition wenv (answers : nat -> reply) : env :=
  Env.mk (fun n _ => answers n) (fun _ => f0) 1000 (fun _ => "nonce") (fun s => s) "m".
Definition wworld : world := mk_world (initial default_params) [] [] 0 0.

Lemma repeat_run_cached_witness :
  let e := wenv (fun _ => wanswer "The service was down.") in
  let '(res, w1) := run default_params e wrole 1 2 [] wworld in
  let '(res2, w2) := run default_params (at_time e 2000) wrole 1 2 [] w1 in
  (RoleResult.outcome res = OOk -> 2000 <= Env.now e + days (Role.ttl_days wrole) ->
     RoleResult.outcome res2 = OOk /\ RoleResult.output res2 = RoleResult.output res /\
     RoleResult.cache_hit res2 = true /\ w_calls w2 = w_calls w1) /\
  (forall ttl, RoleResult.outcome res = OValidationFail -> Role.negative_ttl_days wrole = Some ttl ->
     (2000 <= Env.now e + days ttl -> 2000 <= Env.now e + days (Role.ttl_days wrole) ->
        RoleResult.outcome res2 = OValidationFail /\ RoleResult.cache_hit res2 = true /\ w_calls w2 = w_calls w1) /\
     (Env.now e + days ttl < 2000 -> RoleResult.cache_hit res2 = false)).
Proof.
  refine (repeat_run_cached default_params (wenv (fun _ => wanswer "The service was down.")) wrole 1 2 []
            wworld 2000 _ _).
  - vm_compute. reflexivity.
  - intros v. vm_compute. by intros [= <-].
Defined.

(** A body that is not JSON on the first seed and ungrounded on the second is
    remembered as a deterministic failure, although the first failure was not
    one. *)
Lemma mixed_failures_cached :
  let answers n := match n with O => Response (Chat.mk_response None false 5 None) | _ => wanswer "" end in
  let '(res, w) := run default_params (wenv answers) wrole 1 2 [] wworld in
  RoleResult.outcome res = OValidationFail /\ w_calls w = 2%nat /\
  (CacheRow.c_output <$> (snd <$> w_cache w)) = [negative_payload OValidationFail].
Proof. vm_compute. split_and!; reflexivity. Qed.
