(* ===== verification/Database.v ===== *)
(** * The relational store

    The tables of [db/migrations/], as finite maps from primary key to row, and
    the conventions the repositories share.  A repository method is a function
    on the whole store: one transaction.  A sequence is the next value it will
    give.  The state tables of the template miner are [DrainStore]'s.

    Columns no modelled statement reads ([only_numbers], [urls], [paths],
    [updated_at], ...) are left out. *)

From S2P Require Import Prelude PyFloat PyStr PyJson PyTime DrainStore Ingest LlmEngine.
From Stdlib Require Import ZArith Lia.
From Stdlib.Floats Require Import SpecFloat.

#[local] Open Scope string_scope.
#[local] Open Scope list_scope.
#[local] Open Scope Z_scope.

(** ** Columns *)

(** A [real] column keeps a double rounded to single precision, and gives it back
    as a double. *)
Definition rounded (prec emax : Z) (x : pyfloat) : pyfloat :=
  match x with
  | S754_finite s m e => binary_normalize prec emax (cond_Zopp s (Zpos m)) e s
  | _ => x
  end.
Definition to_real (x : pyfloat) : pyfloat := rounded 53 1024 (rounded 24 128 x).

(** [substring(label from '^[a-z]+')]: [issue_type_group]. *)
Fixpoint leading_az (s : ustr) : ustr :=
  match s with
  | c :: s' => if ((97 <=? c) && (c <=? 122))%N then c :: leading_az s' else []
  | [] => []
  end.
Definition issue_type_group (label : ustr) : option ustr :=
  match leading_az label with [] => None | g => Some g end.

(** [ti.issue_type IS NOT NULL AND ti.issue_type_group <> 'ti']: a NULL group
    compares to NULL, which is not true. *)
Definition labelled (issue_type : option ustr) : bool :=
  match issue_type ≫= issue_type_group with
  | Some g => negb (bool_decide (g = u "ti"))
  | None => false
  end.

Module ItemRow.
Record t := mk { data : TestItemIn.t; indexed_at : Z }.
Definition issue_type (r : t) : option ustr := TestItemIn.issue_type (data r).
Definition launch_id (r : t) : Z := TestItemIn.launch_id (data r).
Definition relabel (issue_type : option ustr) (is_auto : bool) (r : t) : t :=
  let d := data r in
  mk (TestItemIn.mk (TestItemIn.item_id d) (TestItemIn.project_id d) (TestItemIn.launch_id d)
        (TestItemIn.launch_name d) (TestItemIn.launch_number d) (TestItemIn.test_case_hash d)
        (TestItemIn.unique_id d) (TestItemIn.item_name d) (TestItemIn.start_time d) is_auto issue_type
        (TestItemIn.log_count d) (TestItemIn.log_time_max d)) (indexed_at r).
End ItemRow.

Module SigRow.
Record t := mk { data : SigIn.t; error_log_id : option Z }.
End SigRow.

Module ModeRow.
Record t := mk {
  status : string; label : option ustr; label_source : option string; title : option ustr; summary : option ustr;
  purity : pyfloat; support : Z; centroid : option (list pyfloat); emb_model_ver : option Z;
  representative_template_ids : list Z; exception_fps : list Z; ewma_alpha : pyfloat; seed_key : option string
}.
End ModeRow.

Module MemberRow.
Record t := mk { match_score : pyfloat; matched_by : string; created_at : Z }.
End MemberRow.

Module EventRow.
Record t := mk {
  project_id : Z; item_id : Z; old_label : option ustr; new_label : ustr; source : string;
  suggestion_id : option Z; ts : Z
}.
End EventRow.

Module SugRow.
Record t := mk {
  project_id : Z; item_id : Z; launch_id : Z; group_id : option Z; predicted_label : ustr; confidence : pyfloat;
  matched_mode_id : option Z; matched_item_id : option Z; features : list (string * json); model_ver : ustr;
  llm_used : bool; explanation : option ustr; method : option string; abstain_reason : option string;
  source : option string; outcome : string; outcome_ts : option Z; created_at : Z
}.
End SugRow.

Module GroupRow.
Record t := mk { launch_id : Z; fingerprint : Z; member_count : Z; dominant : bool; si_prior : pyfloat }.
End GroupRow.

Module HistRow.
Record t := mk {
  window_runs : Z; window_failures : Z; window_flips : Z; last_status : string; last_failure_ts : option Z;
  flakiness_score : pyfloat
}.
End HistRow.

(** The rollup row; [day] counts days from the epoch. *)
Module DailyMetrics.
Record t := mk {
  project_id : Z; day : Z; suggestions : Z; accepted : Z; corrected : Z; ignored : Z; abstained : Z;
  auto_labeled : Z; auto_corrected : Z; per_label : list (string * (Z * Z * Z)); model_ver : option ustr;
  emb_model_ver : option ustr
}.
End DailyMetrics.

(** A call of the language model, and the runtime switch of a role. *)
Module AuditRow.
Record t := mk {
  project_id : Z; item_id : Z; role : string; model : string; prompt_hash : string; cache_hit : bool;
  outcome : string; output : option json; latency_ms : option Z; created_at : Z
}.
End AuditRow.

Module RoleStateRow.
Record t := mk { enabled : bool; reason : option string; stats : list (string * json); decided_at : Z }.
End RoleStateRow.

(** ** The store *)

Module Db.
Record t := mk {
  drain : tables;
  test_item : gmap (Z * Z) ItemRow.t;   (* project, item *)
  failure_signature : gmap (Z * Z) SigRow.t;
  failure_mode : gmap (Z * Z) ModeRow.t;   (* project, mode *)
  mode_membership : gmap (Z * Z * Z) MemberRow.t;   (* project, mode, item *)
  label_event : gmap Z EventRow.t;
  label_event_orphan : gmap (Z * Z) Z;   (* first_orphaned_at *)
  suggestion : gmap Z SugRow.t;
  launch_group : gmap (Z * Z) GroupRow.t;   (* project, group *)
  test_history_stats : gmap (Z * Z) HistRow.t;   (* project, test case *)
  llm_cache : gmap (Z * string) CacheRow.t;   (* project, cache key *)
  llm_event : gmap Z AuditRow.t;
  llm_role_state : gmap (Z * string) RoleStateRow.t;   (* project, role *)
  metrics_daily : gmap (Z * Z) DailyMetrics.t;   (* project, day *)
  next_event : Z;
  next_suggestion : Z;
  next_mode : Z;
  next_group : Z;
  next_audit : Z
}.

Definition with_drain (v : tables) (d : t) : t :=
  mk v (test_item d) (failure_signature d) (failure_mode d) (mode_membership d) (label_event d)
    (label_event_orphan d) (suggestion d) (launch_group d) (test_history_stats d) (llm_cache d) (llm_event d)
    (llm_role_state d) (metrics_daily d) (next_event d) (next_suggestion d) (next_mode d) (next_group d)
    (next_audit d).
Definition with_test_item (v : gmap (Z * Z) ItemRow.t) (d : t) : t :=
  mk (drain d) v (failure_signature d) (failure_mode d) (mode_membership d) (label_event d)
    (label_event_orphan d) (suggestion d) (launch_group d) (test_history_stats d) (llm_cache d) (llm_event d)
    (llm_role_state d) (metrics_daily d) (next_event d) (next_suggestion d) (next_mode d) (next_group d)
    (next_audit d).
Definition with_failure_signature (v : gmap (Z * Z) SigRow.t) (d : t) : t :=
  mk (drain d) (test_item d) v (failure_mode d) (mode_membership d) (label_event d) (label_event_orphan d)
    (suggestion d) (launch_group d) (test_history_stats d) (llm_cache d) (llm_event d) (llm_role_state d)
    (metrics_daily d) (next_event d) (next_suggestion d) (next_mode d) (next_group d) (next_audit d).
Definition with_failure_mode (v : gmap (Z * Z) ModeRow.t) (d : t) : t :=
  mk (drain d) (test_item d) (failure_signature d) v (mode_membership d) (label_event d) (label_event_orphan d)
    (suggestion d) (launch_group d) (test_history_stats d) (llm_cache d) (llm_event d) (llm_role_state d)
    (metrics_daily d) (next_event d) (next_suggestion d) (next_mode d) (next_group d) (next_audit d).
Definition with_mode_membership (v : gmap (Z * Z * Z) MemberRow.t) (d : t) : t :=
  mk (drain d) (test_item d) (failure_signature d) (failure_mode d) v (label_event d) (label_event_orphan d)
    (suggestion d) (launch_group d) (test_history_stats d) (llm_cache d) (llm_event d) (llm_role_state d)
    (metrics_daily d) (next_event d) (next_suggestion d) (next_mode d) (next_group d) (next_audit d).
Definition with_label_event (v : gmap Z EventRow.t) (d : t) : t :=
  mk (drain d) (test_item d) (failure_signature d) (failure_mode d) (mode_membership d) v (label_event_orphan d)
    (suggestion d) (launch_group d) (test_history_stats d) (llm_cache d) (llm_event d) (llm_role_state d)
    (metrics_daily d) (next_event d) (next_suggestion d) (next_mode d) (next_group d) (next_audit d).
Definition with_label_event_orphan (v : gmap (Z * Z) Z) (d : t) : t :=
  mk (drain d) (test_item d) (failure_signature d) (failure_mode d) (mode_membership d) (label_event d) v
    (suggestion d) (launch_group d) (test_history_stats d) (llm_cache d) (llm_event d) (llm_role_state d)
    (metrics_daily d) (next_event d) (next_suggestion d) (next_mode d) (next_group d) (next_audit d).
Definition with_suggestion (v : gmap Z SugRow.t) (d : t) : t :=
  mk (drain d) (test_item d) (failure_signature d) (failure_mode d) (mode_membership d) (label_event d)
    (label_event_orphan d) v (launch_group d) (test_history_stats d) (llm_cache d) (llm_event d)
    (llm_role_state d) (metrics_daily d) (next_event d) (next_suggestion d) (next_mode d) (next_group d)
    (next_audit d).
Definition with_launch_group (v : gmap (Z * Z) GroupRow.t) (d : t) : t :=
  mk (drain d) (test_item d) (failure_signature d) (failure_mode d) (mode_membership d) (label_event d)
    (label_event_orphan d) (suggestion d) v (test_history_stats d) (llm_cache d) (llm_event d)
    (llm_role_state d) (metrics_daily d) (next_event d) (next_suggestion d) (next_mode d) (next_group d)
    (next_audit d).
Definition with_test_history_stats (v : gmap (Z * Z) HistRow.t) (d : t) : t :=
  mk (drain d) (test_item d) (failure_signature d) (failure_mode d) (mode_membership d) (label_event d)
    (label_event_orphan d) (suggestion d) (launch_group d) v (llm_cache d) (llm_event d) (llm_role_state d)
    (metrics_daily d) (next_event d) (next_suggestion d) (next_mode d) (next_group d) (next_audit d).
Definition with_llm_cache (v : gmap (Z * string) CacheRow.t) (d : t) : t :=
  mk (drain d) (test_item d) (failure_signature d) (failure_mode d) (mode_membership d) (label_event d)
    (label_event_orphan d) (suggestion d) (launch_group d) (test_history_stats d) v (llm_event d)
    (llm_role_state d) (metrics_daily d) (next_event d) (next_suggestion d) (next_mode d) (next_group d)
    (next_audit d).
Definition with_llm_event (v : gmap Z AuditRow.t) (d : t) : t :=
  mk (drain d) (test_item d) (failure_signature d) (failure_mode d) (mode_membership d) (label_event d)
    (label_event_orphan d) (suggestion d) (launch_group d) (test_history_stats d) (llm_cache d) v
    (llm_role_state d) (metrics_daily d) (next_event d) (next_suggestion d) (next_mode d) (next_group d)
    (next_audit d).
Definition with_llm_role_state (v : gmap (Z * string) RoleStateRow.t) (d : t) : t :=
  mk (drain d) (test_item d) (failure_signature d) (failure_mode d) (mode_membership d) (label_event d)
    (label_event_orphan d) (suggestion d) (launch_group d) (test_history_stats d) (llm_cache d) (llm_event d) v
    (metrics_daily d) (next_event d) (next_suggestion d) (next_mode d) (next_group d) (next_audit d).
Definition with_metrics_daily (v : gmap (Z * Z) DailyMetrics.t) (d : t) : t :=
  mk (drain d) (test_item d) (failure_signature d) (failure_mode d) (mode_membership d) (label_event d)
    (label_event_orphan d) (suggestion d) (launch_group d) (test_history_stats d) (llm_cache d) (llm_event d)
    (llm_role_state d) v (next_event d) (next_suggestion d) (next_mode d) (next_group d) (next_audit d).
Definition with_next_event (v : Z) (d : t) : t :=
  mk (drain d) (test_item d) (failure_signature d) (failure_mode d) (mode_membership d) (label_event d)
    (label_event_orphan d) (suggestion d) (launch_group d) (test_history_stats d) (llm_cache d) (llm_event d)
    (llm_role_state d) (metrics_daily d) v (next_suggestion d) (next_mode d) (next_group d) (next_audit d).
Definition with_next_suggestion (v : Z) (d : t) : t :=
  mk (drain d) (test_item d) (failure_signature d) (failure_mode d) (mode_membership d) (label_event d)
    (label_event_orphan d) (suggestion d) (launch_group d) (test_history_stats d) (llm_cache d) (llm_event d)
    (llm_role_state d) (metrics_daily d) (next_event d) v (next_mode d) (next_group d) (next_audit d).
Definition with_next_mode (v : Z) (d : t) : t :=
  mk (drain d) (test_item d) (failure_signature d) (failure_mode d) (mode_membership d) (label_event d)
    (label_event_orphan d) (suggestion d) (launch_group d) (test_history_stats d) (llm_cache d) (llm_event d)
    (llm_role_state d) (metrics_daily d) (next_event d) (next_suggestion d) v (next_group d) (next_audit d).
Definition with_next_group (v : Z) (d : t) : t :=
  mk (drain d) (test_item d) (failure_signature d) (failure_mode d) (mode_membership d) (label_event d)
    (label_event_orphan d) (suggestion d) (launch_group d) (test_history_stats d) (llm_cache d) (llm_event d)
    (llm_role_state d) (metrics_daily d) (next_event d) (next_suggestion d) (next_mode d) v (next_audit d).
Definition with_next_audit (v : Z) (d : t) : t :=
  mk (drain d) (test_item d) (failure_signature d) (failure_mode d) (mode_membership d) (label_event d)
    (label_event_orphan d) (suggestion d) (launch_group d) (test_history_stats d) (llm_cache d) (llm_event d)
    (llm_role_state d) (metrics_daily d) (next_event d) (next_suggestion d) (next_mode d) (next_group d) v.
End Db.
Abbreviation db := Db.t.
Import Db (drain, test_item, failure_signature, failure_mode, mode_membership, label_event, label_event_orphan, suggestion,
           launch_group, test_history_stats, llm_cache, llm_event, llm_role_state, metrics_daily, next_event,
           next_suggestion, next_mode, next_group, next_audit, with_drain, with_test_item,
           with_failure_signature, with_failure_mode, with_mode_membership, with_label_event,
           with_label_event_orphan, with_suggestion, with_launch_group, with_test_history_stats, with_llm_cache,
           with_llm_event, with_llm_role_state, with_metrics_daily, with_next_event, with_next_suggestion,
           with_next_mode, with_next_group, with_next_audit).

Definition projects (d : db) : gset Z := Tables.project (drain d).

(** [INSERT INTO project ... ON CONFLICT DO NOTHING]. *)
Definition add_projects (ps : list Z) (d : db) : db :=
  with_drain (Tables.mk (list_to_set ps ∪ projects d) (Tables.drain3_state (drain d)) (Tables.log_template (drain d))) d.

Definition empty_db : db := Db.mk (Tables.mk ∅ ∅ ∅) ∅ ∅ ∅ ∅ ∅ ∅ ∅ ∅ ∅ ∅ ∅ ∅ ∅ 1 1 1 1 1.
