(* ===== verification/Retrieval.v ===== *)
(** * The retrieval store

    [db/repositories/retrieval.py] but for its hybrid queries ([HybridSearch]):
    upserts, deletes, the orphan reaper, feedback outcomes, and the reads of the
    analysis engine; with the reads of [suggestion_ops.py] over the same tables.
    Where an [ORDER BY] leaves ties open, the model takes the order of the primary
    keys. *)

From S2P Require Import Prelude PyFloat PyStr Regex PyText PyJson PyTime Drain DrainStore Ingest LlmEngine Models Database.
From Stdlib Require Import ZArith Lia.

#[local] Open Scope string_scope.
#[local] Open Scope list_scope.
#[local] Open Scope Z_scope.

Import Db (drain, test_item, failure_signature, failure_mode, mode_membership, label_event, label_event_orphan, suggestion,
           launch_group, test_history_stats, llm_cache, llm_event, llm_role_state, metrics_daily, next_event,
           next_suggestion, next_mode, next_group, next_audit, with_drain, with_test_item,
           with_failure_signature, with_failure_mode, with_mode_membership, with_label_event,
           with_label_event_orphan, with_suggestion, with_launch_group, with_test_history_stats, with_llm_cache,
           with_llm_event, with_llm_role_state, with_metrics_daily, with_next_event, with_next_suggestion,
           with_next_mode, with_next_group, with_next_audit).

(** The keys of the project's rows that satisfy a predicate, and their removal. *)
Definition keep {K A} `{Countable K} (P : K -> A -> bool) (m : gmap K A) : gmap K A :=
  filter (fun kv => P kv.1 kv.2 = true) m.
Definition drop {K A} `{Countable K} (P : K -> A -> bool) (m : gmap K A) : gmap K A :=
  keep (fun k v => negb (P k v)) m.
(** [cur.rowcount] of a [DELETE] or a [count( * )]. *)
Definition count {K A} `{Countable K} (P : K -> A -> bool) (m : gmap K A) : Z := Z.of_nat (size (keep P m)).

(** ** Writes *)

Definition upsert_item (now : Z) (m : gmap (Z * Z) ItemRow.t) (it : TestItemIn.t) : gmap (Z * Z) ItemRow.t :=
  <[(TestItemIn.project_id it, TestItemIn.item_id it) := ItemRow.mk it now]> m.

Definition upsert_items (now : Z) (items : list TestItemIn.t) (d : db) : db :=
  match items with
  | [] => d
  | _ => with_test_item (fold_left (upsert_item now) items (test_item d))
           (add_projects (TestItemIn.project_id <$> items) d)
  end.

Definition upsert_signature (m : gmap (Z * Z) SigRow.t) (s : SigIn.t) : gmap (Z * Z) SigRow.t :=
  let k := (SigIn.project_id s, SigIn.item_id s) in
  let kept := match SigIn.error_log_id s with Some i => Some i | None => m !! k ≫= SigRow.error_log_id end in
  <[k := SigRow.mk s kept]> m.

Definition upsert_signatures (sigs : list SigIn.t) (d : db) : db :=
  with_failure_signature (fold_left upsert_signature sigs (failure_signature d)) d.

Definition update_issue_type (p i : Z) (issue_type : option ustr) (is_auto : bool) (d : db) : db * bool :=
  match test_item d !! (p, i) with
  | Some r => (with_test_item (<[(p, i) := ItemRow.relabel issue_type is_auto r]> (test_item d)) d, true)
  | None => (d, false)
  end.

(** [write_suggestion]: the row [created_at] now, pending. *)
Module SuggestionRow.
Record t := mk {
  project_id : Z; item_id : Z; launch_id : Z; group_id : option Z; predicted_label : ustr; confidence : pyfloat;
  matched_mode_id : option Z; matched_item_id : option Z; features : list (string * json); model_ver : ustr;
  llm_used : bool; explanation : option ustr; method : option string; abstain_reason : option string;
  source : option string
}.
End SuggestionRow.

Definition pending (now : Z) (s : SuggestionRow.t) : SugRow.t :=
  SugRow.mk (SuggestionRow.project_id s) (SuggestionRow.item_id s) (SuggestionRow.launch_id s)
    (SuggestionRow.group_id s) (SuggestionRow.predicted_label s) (to_real (SuggestionRow.confidence s))
    (SuggestionRow.matched_mode_id s) (SuggestionRow.matched_item_id s) (SuggestionRow.features s)
    (SuggestionRow.model_ver s) (SuggestionRow.llm_used s) (SuggestionRow.explanation s) (SuggestionRow.method s)
    (SuggestionRow.abstain_reason s) (SuggestionRow.source s) "pending" None now.

Definition write_suggestion (now : Z) (s : SuggestionRow.t) (d : db) : db * Z :=
  let id := next_suggestion d in
  (with_next_suggestion (id + 1) (with_suggestion (<[id := pending now s]> (suggestion d)) d), id).

(** The sequence advances whether the insert conflicts or not. *)
Definition upsert_launch_group (p launch fingerprint member_count : Z) (si_prior : pyfloat) (dominant : bool)
    (d : db) : db * Z :=
  let same k (r : GroupRow.t) :=
    (k.1 =? p) && (GroupRow.launch_id r =? launch) && (GroupRow.fingerprint r =? fingerprint) in
  let row := GroupRow.mk launch fingerprint member_count dominant (to_real si_prior) in
  let id := match map_to_list (keep same (launch_group d)) with
            | (k, _) :: _ => k.2
            | [] => next_group d
            end in
  (with_next_group (next_group d + 1) (with_launch_group (<[(p, id) := row]> (launch_group d)) d), id).

(** ** Deletes *)

(** [_purge_items]: membership, signature and suggestion rows of the items. *)
Definition _purge_items (p : Z) (sel : Z -> bool) (d : db) : db :=
  with_mode_membership (drop (fun k _ => (k.1.1 =? p) && sel k.2) (mode_membership d))
    (with_failure_signature (drop (fun k _ => (k.1 =? p) && sel k.2) (failure_signature d))
       (with_suggestion (drop (fun _ s => (SugRow.project_id s =? p) && sel (SugRow.item_id s)) (suggestion d)) d)).

(** The deletion of the project's items that satisfy [where_], with their rows:
    [item_id IN (SELECT item_id FROM test_item WHERE ...)]. *)
Definition selected (p : Z) (where_ : ItemRow.t -> bool) (d : db) (i : Z) : bool :=
  match test_item d !! (p, i) with Some r => where_ r | None => false end.
Definition delete_where (p : Z) (where_ : ItemRow.t -> bool) (d : db) : db * Z :=
  let cond (k : Z * Z) r := (k.1 =? p) && where_ r in
  (with_test_item (drop cond (test_item d)) (_purge_items p (selected p where_ d) d), count cond (test_item d)).

Definition delete_items (p : Z) (ids : list Z) (d : db) : db * Z :=
  match ids with
  | [] => (d, 0)
  | _ =>
      let cond (k : Z * Z) (_ : ItemRow.t) := (k.1 =? p) && bool_decide (k.2 ∈ ids) in
      (with_test_item (drop cond (test_item d)) (_purge_items p (fun i => bool_decide (i ∈ ids)) d),
       count cond (test_item d))
  end.

Definition delete_launches (p : Z) (ids : list Z) (d : db) : db * Z :=
  match ids with
  | [] => (d, 0)
  | _ =>
      let '(d', n) := delete_where p (fun r => bool_decide (ItemRow.launch_id r ∈ ids)) d in
      (with_suggestion (drop (fun _ s => (SugRow.project_id s =? p) && bool_decide (SugRow.launch_id s ∈ ids))
                          (suggestion d')) d', n)
  end.

Inductive time_field := StartTime | LogTime.

(** [column IS NOT NULL AND column < before AND column >= after]. *)
Definition in_range (field : time_field) (before : Z) (after : option Z) (r : ItemRow.t) : bool :=
  match (match field with
         | StartTime => TestItemIn.start_time (ItemRow.data r)
         | LogTime => TestItemIn.log_time_max (ItemRow.data r)
         end) with
  | Some t => (t <? before) && match after with Some a => a <=? t | None => true end
  | None => false
  end.

Definition delete_by_time_range (p : Z) (field : time_field) (before : Z) (after : option Z) (d : db) : db * Z :=
  delete_where p (in_range field before after) d.

Definition delete_project (p : Z) (d : db) : db * Z :=
  let mine {A} (m : gmap (Z * Z) A) := drop (fun k _ => k.1 =? p) m in
  let n := count (fun k _ => k.1 =? p) (test_item d) in
  let tables := drain d in
  (Db.mk (Tables.mk (projects d ∖ {[p]}) (delete p (Tables.drain3_state tables)) (mine (Tables.log_template tables)))
     (mine (test_item d)) (mine (failure_signature d)) (mine (failure_mode d))
     (drop (fun k _ => k.1.1 =? p) (mode_membership d)) (label_event d) (label_event_orphan d)
     (drop (fun _ s => SugRow.project_id s =? p) (suggestion d)) (mine (launch_group d))
     (mine (test_history_stats d)) (drop (fun k _ => k.1 =? p) (llm_cache d)) (llm_event d)
     (llm_role_state d) (mine (metrics_daily d))
     (next_event d) (next_suggestion d) (next_mode d) (next_group d) (next_audit d), n).

(** ** The orphan reaper *)

Definition event_key (e : EventRow.t) : Z * Z := (EventRow.project_id e, EventRow.item_id e).
Definition orphan (d : db) (k : Z * Z) : bool := bool_decide (test_item d !! k = None).
Definition orphan_keys (d : db) : gset (Z * Z) :=
  list_to_set (filter (fun k => orphan d k = true) ((fun ke => event_key ke.2) <$> map_to_list (label_event d))).

Definition mark (now : Z) (d : db) : db :=
  with_label_event_orphan (label_event_orphan d ∪ gset_to_gmap now (orphan_keys d)) d.
Definition unmark (d : db) : db := with_label_event_orphan (keep (fun k _ => orphan d k) (label_event_orphan d)) d.
(** Orphaned past the grace, and still without an item. *)
Definition overdue (now grace_days : Z) (d : db) (k : Z * Z) : bool :=
  match label_event_orphan d !! k with
  | Some t => (t <? now - grace_days * US_PER_DAY) && orphan d k
  | None => false
  end.
Definition sweep (now grace_days : Z) (d : db) : db * Z :=
  (with_label_event_orphan (drop (fun k _ => overdue now grace_days d k) (label_event_orphan d))
     (with_label_event (drop (fun _ e => overdue now grace_days d (event_key e)) (label_event d)) d),
   count (fun _ e => overdue now grace_days d (event_key e)) (label_event d)).

Definition reap_orphan_label_events (now grace_days : Z) (d : db) : db * Z :=
  let d := unmark (mark now d) in
  if grace_days <=? 0 then (d, 0) else sweep now grace_days d.

(** ** Feedback *)

Definition get_items_labels (p : Z) (ids : list Z) (d : db) : gmap Z (option ustr) :=
  foldr (fun i m => match test_item d !! (p, i) with
                    | Some r => <[i := ItemRow.issue_type r]> m
                    | None => m
                    end) ∅ ids.

(** [CASE WHEN group(predicted) = group(new) THEN 'accepted' ELSE 'corrected']. *)
Definition outcome_of (predicted new_label : ustr) : string :=
  match issue_type_group predicted, issue_type_group new_label with
  | Some a, Some b => if decide (a = b) then "accepted" else "corrected"
  | _, _ => "corrected"
  end.

Definition resolve (now : Z) (new_label : ustr) (s : SugRow.t) : SugRow.t :=
  SugRow.mk (SugRow.project_id s) (SugRow.item_id s) (SugRow.launch_id s) (SugRow.group_id s)
    (SugRow.predicted_label s) (SugRow.confidence s) (SugRow.matched_mode_id s) (SugRow.matched_item_id s)
    (SugRow.features s) (SugRow.model_ver s) (SugRow.llm_used s) (SugRow.explanation s) (SugRow.method s)
    (SugRow.abstain_reason s) (SugRow.source s) (outcome_of (SugRow.predicted_label s) new_label) (Some now)
    (SugRow.created_at s).

Definition is_pending (p i : Z) (s : SugRow.t) : bool :=
  (SugRow.project_id s =? p) && (SugRow.item_id s =? i) && bool_decide (SugRow.outcome s = "pending").

Definition record_feedback_outcome (now p i : Z) (new_label : ustr) (d : db) : db * Z :=
  (with_suggestion ((fun s => if is_pending p i s then resolve now new_label s else s) <$> suggestion d) d,
   count (fun _ s => is_pending p i s) (suggestion d)).

(** ** Reads *)

(** Lexicographic composition of "comes before" keys. *)
Definition desc (a b : Z) : comparison := b ?= a.
Definition desc_nulls_last (a b : option Z) : comparison :=
  match a, b with
  | Some x, Some y => desc x y
  | Some _, None => Lt
  | None, Some _ => Gt
  | None, None => Eq
  end.
Definition then_by (c1 c2 : comparison) : comparison := match c1 with Eq => c2 | _ => c1 end.
Definition leb_of (c : comparison) : bool := match c with Gt => false | _ => true end.

(** [ORDER BY ... LIMIT]. *)
Definition limited {A} (leb : A -> A -> bool) (limit : Z) (l : list A) : list A := take (Z.to_nat limit) (pysorted leb l).

Definition rows_of {K A} `{Countable K} (P : K -> A -> bool) (m : gmap K A) : list (K * A) := map_to_list (keep P m).

(** The most recent label event of an item. *)
Definition event_leb (a b : Z * EventRow.t) : bool := leb_of (desc (EventRow.ts a.2) (EventRow.ts b.2)).
Definition events_of (p i : Z) (d : db) : list (Z * EventRow.t) :=
  rows_of (fun _ e => (EventRow.project_id e =? p) && (EventRow.item_id e =? i)) (label_event d).
Definition latest_event (p i : Z) (d : db) : option EventRow.t := snd <$> head (pysorted event_leb (events_of p i d)).

(** Signature and item rows of the project, joined, under a condition. *)
Definition joined (p : Z) (P : Z -> SigRow.t -> ItemRow.t -> bool) (d : db) : list (Z * SigRow.t * ItemRow.t) :=
  omap (fun ks => match test_item d !! ks.1 with
                  | Some r => if P ks.1.2 ks.2 r then Some (ks.1.2, ks.2, r) else None
                  | None => None
                  end)
    (rows_of (fun k _ => k.1 =? p) (failure_signature d)).

Definition hash_of (s : SigRow.t) : Z := SigIn.error_hash (SigRow.data s).
Definition same_hash_labelled (h : Z) (s : SigRow.t) (r : ItemRow.t) : bool :=
  (hash_of s =? h) && labelled (ItemRow.issue_type r).

(** Candidate rows carry their text as the decision layer reads it. *)
Definition find_by_error_hash (p h limit : Z) (d : db) : list Candidate.t :=
  let leb (a b : Z * SigRow.t * ItemRow.t) :=
    leb_of (then_by (desc (ItemRow.indexed_at a.2) (ItemRow.indexed_at b.2)) (desc a.1.1 b.1.1)) in
  (fun isr => let '(i, _, r) := isr in
     let c := Candidate.default (Some i) None in
     Candidate.mk (Some i) None (Candidate.dense_rank c) (Candidate.sparse_rank c) (Candidate.rrf_score c)
       (Candidate.cosine c) (Candidate.lex_score c) (Candidate.jaccard_templates c)
       (of_u <$> ItemRow.issue_type r) (Candidate.label_source c) (Candidate.label_ts c)
       (Candidate.same_test_case c) true (Candidate.same_exception_fp c) (Candidate.msg_text c)
       (Candidate.exc_text c) (Candidate.launch_distance c) (Candidate.launch_id c) (Candidate.launch_name c)
       (Candidate.mode_status c) (Candidate.mode_purity c) (Candidate.mode_support c) (Some "hash")
       (Candidate.relevant_log_id c))
  <$> limited leb limit (joined p (fun _ s r => same_hash_labelled h s r) d).

Definition _LABEL_SOURCE_MAP : list (string * string) :=
  [("rp_defect_update", "rp"); ("human_ui", "human"); ("analyzer_suggestion_accepted", "ai_suggested")].
Definition label_source (e : option EventRow.t) : option string := e ≫= fun e => dget (EventRow.source e) _LABEL_SOURCE_MAP.

Module HashMatchRow.
Record t := mk {
  item_id : Z; issue_type : option ustr; group : option ustr; is_auto_analyzed : bool; launch_id : Z;
  launch_name : ustr; exception_fp : Z; status_codes : list ustr; msg_text : ustr; label_source : option string;
  label_ts : option Z
}.
End HashMatchRow.

Definition find_hash_matches (p h limit : Z) (d : db) : list HashMatchRow.t :=
  let label_ts (x : Z * SigRow.t * ItemRow.t) := EventRow.ts <$> latest_event p x.1.1 d in
  let leb (a b : Z * SigRow.t * ItemRow.t) :=
    leb_of (then_by (desc_nulls_last (label_ts a) (label_ts b))
              (then_by (desc (ItemRow.indexed_at a.2) (ItemRow.indexed_at b.2)) (desc a.1.1 b.1.1))) in
  (fun isr => let '(i, s, r) := isr in
     HashMatchRow.mk i (ItemRow.issue_type r) (ItemRow.issue_type r ≫= issue_type_group)
       (TestItemIn.is_auto_analyzed (ItemRow.data r)) (ItemRow.launch_id r) (TestItemIn.launch_name (ItemRow.data r))
       (SigIn.exception_fp (SigRow.data s)) (SigIn.status_codes (SigRow.data s)) (SigIn.msg_text (SigRow.data s))
       (label_source (latest_event p i d)) (label_ts isr))
  <$> limited leb limit (joined p (fun _ s r => same_hash_labelled h s r) d).

(** [PgLlmFacts.hash_pool]. *)
Definition hash_pool (p h exclude limit : Z) (d : db) : list (option ustr * option ustr * option string) :=
  let label_ts (x : Z * SigRow.t * ItemRow.t) := EventRow.ts <$> latest_event p x.1.1 d in
  let leb (a b : Z * SigRow.t * ItemRow.t) :=
    leb_of (then_by (desc_nulls_last (label_ts a) (label_ts b)) (desc a.1.1 b.1.1)) in
  (fun isr => (ItemRow.issue_type isr.2, ItemRow.issue_type isr.2 ≫= issue_type_group,
               EventRow.source <$> latest_event p isr.1.1 d))
  <$> limited leb limit (joined p (fun i s r => same_hash_labelled h s r && negb (i =? exclude)) d).

Definition get_signatures (p : Z) (ids : list Z) (d : db) : gmap Z SigIn.t :=
  foldr (fun i m => match failure_signature d !! (p, i) with
                    | Some s => <[i := SigRow.data s]> m
                    | None => m
                    end) ∅ ids.

Definition test_case_first_seen (p tch : Z) (d : db) : option Z :=
  let seen (r : ItemRow.t) := default (ItemRow.indexed_at r) (TestItemIn.start_time (ItemRow.data r)) in
  let rows := rows_of (fun k r => (k.1 =? p) && bool_decide (TestItemIn.test_case_hash (ItemRow.data r) = Some tch))
                (test_item d) in
  match (fun kr => seen kr.2) <$> rows with
  | [] => None
  | t :: ts => Some (fold_left Z.min ts t)
  end.

Definition item_launch_names (p : Z) (ids : list Z) (d : db) : gmap Z ustr :=
  foldr (fun i m => match test_item d !! (p, i) with
                    | Some r => <[i := TestItemIn.launch_name (ItemRow.data r)]> m
                    | None => m
                    end) ∅ ids.

Definition error_hash_seen (p h exclude_launch : Z) (d : db) : bool :=
  match joined p (fun _ s r => (hash_of s =? h) && negb (ItemRow.launch_id r =? exclude_launch)) d with
  | [] => false
  | _ => true
  end.

(** [ORDER BY created_at DESC, suggestion_id DESC]. *)
Definition sug_leb (a b : Z * SugRow.t) : bool :=
  leb_of (then_by (desc (SugRow.created_at a.2) (SugRow.created_at b.2)) (desc a.1 b.1)).
Definition suggestions_of (p i : Z) (P : SugRow.t -> bool) (d : db) : list (Z * SugRow.t) :=
  rows_of (fun _ s => (SugRow.project_id s =? p) && (SugRow.item_id s =? i) && P s) (suggestion d).
Definition latest_where (p i : Z) (P : SugRow.t -> bool) (d : db) : option (Z * SugRow.t) :=
  head (pysorted sug_leb (suggestions_of p i P d)).

(** [DISTINCT ON (item_id) ... ORDER BY item_id, created_at DESC] per item. *)
Definition latest_suggestions (p : Z) (ids : list Z) (d : db) : gmap Z SugRow.t :=
  foldr (fun i m => match latest_where p i (fun _ => true) d with Some (_, s) => <[i := s]> m | None => m end) ∅ ids.

Definition latest_suggestion (p i : Z) (d : db) : option (Z * SugRow.t) := latest_where p i (fun _ => true) d.

Definition is_rubric (s : SugRow.t) : bool := starts (SugRow.model_ver s) (u "rubric+").

Definition latest_rubric_provisional (p i : Z) (d : db) : option SugRow.t :=
  match latest_where p i (fun s => negb (bool_decide (SugRow.predicted_label s = u "ti") && negb (is_rubric s))) d with
  | None => None
  | Some (_, s) => if negb (is_rubric s) || blank (default [] (SugRow.explanation s)) then None else Some s
  end.

Definition JUDGE_TTL_DAYS : Z := 14.

(** [features -> 'judge']: a JSON null reads as no verdict. *)
Definition latest_judge (now p i : Z) (d : db) : option json :=
  match latest_where p i (fun s => bool_decide (is_Some (dget "judge" (SugRow.features s))) &&
                                   (now - JUDGE_TTL_DAYS * US_PER_DAY <=? SugRow.created_at s)) d with
  | None => None
  | Some (_, s) => match dget "judge" (SugRow.features s) with
                   | Some JNull | None => None
                   | Some v => Some v
                   end
  end.

(** ** Filtered maps *)

Section Keep.
Context {K A : Type} `{Countable K}.
Implicit Types (P Q : K -> A -> bool) (m : gmap K A).

Lemma lookup_keep P m k x : keep P m !! k = Some x <-> m !! k = Some x /\ P k x = true.
Proof. unfold keep. by rewrite map_lookup_filter_Some. Qed.

Lemma lookup_drop P m k x : drop P m !! k = Some x <-> m !! k = Some x /\ P k x = false.
Proof. unfold drop. rewrite lookup_keep. by rewrite negb_true_iff. Qed.

Lemma keep_ext P m1 m2 :
  (forall k x, P k x = true -> m1 !! k = Some x <-> m2 !! k = Some x) -> keep P m1 = keep P m2.
Proof.
  intros E. apply map_eq. intros k. apply option_eq. intros x. rewrite !lookup_keep. naive_solver.
Qed.

Lemma keep_insert_other P m k x :
  P k x = false -> (forall y, m !! k = Some y -> P k y = false) -> keep P (<[k := x]> m) = keep P m.
Proof.
  intros Hx Hy. apply keep_ext. intros j y HP. destruct (decide (k = j)) as [->|Hne].
  - rewrite lookup_insert_eq. split; [intros [= ->]; congruence|intros E; apply Hy in E; congruence].
  - by rewrite lookup_insert_ne.
Qed.

Lemma keep_alter_other P m k f :
  (forall y, m !! k = Some y -> P k y = false /\ P k (f y) = false) -> keep P (alter f k m) = keep P m.
Proof.
  intros Hy. apply keep_ext. intros j y HP. destruct (decide (k = j)) as [->|Hne].
  - rewrite lookup_alter_eq. destruct (m !! j) as [x|] eqn:E; simpl; [|done].
    destruct (Hy x eq_refl). split; intros [= <-]; congruence.
  - by rewrite lookup_alter_ne.
Qed.

Lemma keep_alter_inert P m k f :
  (forall y, P k (f y) = P k y) -> (forall y, P k y = true -> f y = y) -> keep P (alter f k m) = keep P m.
Proof.
  intros Hp Hf. apply keep_ext. intros j y HP. destruct (decide (k = j)) as [->|Hne].
  - rewrite lookup_alter_eq. destruct (m !! j) as [x|]; simpl; [|done].
    destruct (P j x) eqn:E; [by rewrite (Hf x)|]. split; intros [= <-]; rewrite ?Hp in HP; congruence.
  - by rewrite lookup_alter_ne.
Qed.

Lemma keep_drop_other P Q m : (forall k x, Q k x = true -> P k x = false) -> keep P (drop Q m) = keep P m.
Proof.
  intros HQ. apply keep_ext. intros k x HP. rewrite lookup_drop. split; [tauto|]. intros E. split; [done|].
  destruct (Q k x) eqn:EQ; [|done]. apply HQ in EQ. congruence.
Qed.

Lemma keep_fmap_other P m (f : A -> A) :
  (forall k x, P k (f x) = P k x) -> (forall k x, P k x = true -> f x = x) -> keep P (f <$> m) = keep P m.
Proof.
  intros Hp Hf. apply keep_ext. intros k x HP. rewrite lookup_fmap. destruct (m !! k) as [y|]; simpl; [|done].
  destruct (P k y) eqn:E; [by rewrite (Hf k)|]. split; intros [= <-]; rewrite ?Hp in HP; congruence.
Qed.

Lemma keep_fold {B} P (f : gmap K A -> B -> gmap K A) (l : list B) m :
  (forall x m, x ∈ l -> keep P (f m x) = keep P m) -> keep P (fold_left f l m) = keep P m.
Proof.
  revert m. induction l as [|x l IH]; intros m Hf; [done|]. cbn [fold_left].
  rewrite IH by (intros; apply Hf; by right). apply Hf. by left.
Qed.

(** A narrower condition sees what the wider one kept. *)
Lemma rows_of_keep P Q m1 m2 : (forall k x, Q k x = true -> P k x = true) -> keep P m1 = keep P m2 ->
  rows_of Q m1 = rows_of Q m2.
Proof.
  intros HQ E. unfold rows_of. f_equal. apply keep_ext. intros k x Hq. specialize (HQ k x Hq).
  split; intros Hk; [assert (keep P m1 !! k = Some x) as Hk' by (by rewrite lookup_keep)
                    |assert (keep P m2 !! k = Some x) as Hk' by (by rewrite lookup_keep)].
  - rewrite E, lookup_keep in Hk'. tauto.
  - rewrite <- E, lookup_keep in Hk'. tauto.
Qed.
End Keep.

Lemma elem_of_rows {K A} `{Countable K} (P : K -> A -> bool) (m : gmap K A) k x :
  (k, x) ∈ rows_of P m <-> m !! k = Some x /\ P k x = true.
Proof. unfold rows_of. by rewrite elem_of_map_to_list, lookup_keep. Qed.

Lemma leb_desc x y : leb_of (desc x y) = (y <=? x).
Proof. done. Qed.

Lemma latest_where_in q i P d id s : latest_where q i P d = Some (id, s) ->
  suggestion d !! id = Some s /\ SugRow.project_id s = q /\ SugRow.item_id s = i /\ P s = true.
Proof.
  unfold latest_where. intros Hh. apply head_Some_elem_of, elem_of_pysorted in Hh.
  unfold suggestions_of, rows_of in Hh. apply elem_of_map_to_list, lookup_keep in Hh as [Hl HP].
  rewrite !andb_true_iff, !Z.eqb_eq in HP. tauto.
Qed.

Lemma rows_of_nil {K A} `{Countable K} (P : K -> A -> bool) (m : gmap K A) :
  rows_of P m = [] -> forall k x, m !! k = Some x -> P k x = false.
Proof.
  unfold rows_of. intros E k x Hx. destruct (P k x) eqn:EP; [|done].
  assert ((k, x) ∈ map_to_list (keep P m)) as Hin by (by apply elem_of_map_to_list, lookup_keep).
  rewrite E in Hin. by apply elem_of_nil in Hin.
Qed.

Lemma rows_of_head {K A} `{Countable K} (P : K -> A -> bool) (m : gmap K A) k x r :
  rows_of P m = (k, x) :: r -> m !! k = Some x /\ P k x = true.
Proof.
  unfold rows_of. intros E. apply lookup_keep, elem_of_map_to_list. rewrite E. by left.
Qed.

(** ** Newest first *)

Section Recency.
Context {A : Type} (f g : A -> Z).

Definition newer (a b : A) : bool := leb_of (then_by (desc (f a) (f b)) (desc (g a) (g b))).

Lemma newer_spec a b : newer a b = true <-> f b < f a \/ f a = f b /\ g b <= g a.
Proof.
  unfold newer, leb_of, then_by, desc. destruct (Z.compare_spec (f b) (f a)); [destruct (Z.compare_spec (g b) (g a))|..];
    split; intros; try done; lia.
Qed.

Lemma newer_total a b : newer a b = false -> newer b a = true.
Proof. rewrite <- not_true_iff_false, !newer_spec. lia. Qed.
Lemma newer_transitive a b c : newer a b = true -> newer b c = true -> newer a c = true.
Proof. rewrite !newer_spec. lia. Qed.

Lemma newest_sorted (l : list A) : StronglySorted (fun a b => f b <= f a) (pysorted newer l).
Proof.
  pose proof (pysorted_sorted newer newer_total newer_transitive l) as Hs.
  eapply StronglySorted_mono; [|exact Hs]. intros a b Hab%newer_spec. lia.
Qed.

(** The head of the order is the newest. *)
Lemma newest_head (l : list A) a b : head (pysorted newer l) = Some a -> b ∈ l -> f b <= f a.
Proof.
  intros Hh Hb. pose proof (newest_sorted l) as Hs. apply (elem_of_pysorted newer) in Hb.
  destruct (pysorted newer l) as [|x r]; [done|]. injection Hh as ->. apply elem_of_cons in Hb as [->|Hb]; [lia|].
  apply StronglySorted_inv in Hs as [_ Hx]. rewrite Forall_forall in Hx. by apply Hx.
Qed.
End Recency.

(** The latest row: no other match is newer; without one nothing matches. *)
Lemma latest_where_latest q i P d id s : latest_where q i P d = Some (id, s) ->
  forall j s', suggestion d !! j = Some s' -> SugRow.project_id s' = q -> SugRow.item_id s' = i -> P s' = true ->
  SugRow.created_at s' <= SugRow.created_at s.
Proof.
  intros Hh j s' Hj Hq Hi HP.
  apply (newest_head (fun a : Z * SugRow.t => SugRow.created_at a.2) fst _ _ (j, s') Hh).
  apply elem_of_map_to_list, lookup_keep. split; [done|]. by rewrite Hq, Hi, !Z.eqb_refl, HP.
Qed.

Lemma latest_where_none q i P d : latest_where q i P d = None ->
  forall j s', suggestion d !! j = Some s' -> SugRow.project_id s' = q -> SugRow.item_id s' = i -> P s' = false.
Proof.
  unfold latest_where, suggestions_of. intros Hh j s' Hj Hq Hi.
  assert (rows_of (fun _ s => (SugRow.project_id s =? q) && (SugRow.item_id s =? i) && P s) (suggestion d) = []) as E.
  { apply Permutation_nil_r. rewrite <- (pysorted_perm sug_leb). by destruct (pysorted sug_leb _). }
  pose proof (rows_of_nil _ _ E j s' Hj) as Hf. cbn in Hf. by rewrite Hq, Hi, !Z.eqb_refl in Hf.
Qed.
