(* ===== verification/Knowledge.v ===== *)
(** * The knowledge base

    [db/repositories/kb.py]: matching a signature against the project's failure
    modes, membership, purity, and the life cycle of a mode.  Vector arithmetic of
    the database ([halfvec] rounding, averages, the cosine distance) and the
    client's reading of a [real] are the operations of [PgVector]. *)

From S2P Require Import Prelude PyFloat FloatQuot PyStr PyJson Ingest LlmEngine Models Database Retrieval.
From Stdlib Require Import ZArith Lia.
From Stdlib.Floats Require Import SpecFloat.

#[local] Open Scope string_scope.
#[local] Open Scope list_scope.
#[local] Open Scope Z_scope.

Import Db (test_item, failure_signature, failure_mode, mode_membership, next_mode, with_failure_mode,
           with_mode_membership, with_next_mode).

Class PgVector := {
  to_half : list pyfloat -> list pyfloat;                (* what a halfvec column keeps *)
  avg_vec : list (list pyfloat) -> list pyfloat;         (* avg(emb), of at least one vector *)
  vec_distance : list pyfloat -> list pyfloat -> pyfloat; (* the operator <=> *)
  read_real : pyfloat -> pyfloat                         (* a real column, as the client reads it *)
}.

Definition _DIMS : nat := 384.
Definition _ZERO_VEC : list pyfloat := repeat f0 _DIMS.
Definition _MODE_LABEL_SOURCES : list string := ["seed"; "human"; "ai_suggested"; "rp"].

(** The [CHECK] constraints of the two tables. *)
Definition STATUSES : list string := ["seed"; "candidate"; "confirmed"; "retired"].
Definition LABEL_SOURCES : list string := ["seed"; "human"; "ai_suggested"].
Definition MATCHED_BY : list string := ["hash"; "vector"; "lexical"; "human"].
Definition CheckViolation : pyexn := OtherError "CheckViolation".
Definition ForeignKeyViolation : pyexn := OtherError "ForeignKeyViolation".
Definition RuntimeError : pyexn := OtherError "RuntimeError".
Definition check_mode (status : string) (label_source : option string) : bool :=
  bool_decide (status ∈ STATUSES) &&
  match label_source with Some s => bool_decide (s ∈ LABEL_SOURCES) | None => true end.

Module ModeIn.
Record t := mk {
  project_id : Z; status : string; label : option ustr; label_source : option string; centroid : option (list pyfloat);
  emb_model_ver : option Z; representative_template_ids : list Z; exception_fps : list Z; title : option ustr;
  summary : option ustr
}.
End ModeIn.

(** The columns' defaults: no purity, no support, [ewma_alpha] 0.1. *)
Definition EWMA_ALPHA : pyfloat := Eval vm_compute in dec 1 10.

(** The fields of [QuerySignature] the store reads. *)
Module Query.
Record t := mk {
  exception_fp : Z; error_hash : Z; template_ids : list Z; salient_terms : list ustr; exception_names : list ustr;
  emb : option (list pyfloat); emb_model_ver : Z; test_case_hash : option Z; launch_number : option Z
}.
End Query.

(** The database's order on floats: NaN is the greatest. *)
Definition pg_compare (a b : pyfloat) : comparison :=
  match is_nan a, is_nan b with
  | true, true => Eq
  | true, false => Gt
  | false, true => Lt
  | false, false => if (a <? b)%F then Lt else if (b <? a)%F then Gt else Eq
  end.

Section Kb.
Context `{PgVector}.

Definition fresh_mode (m : ModeIn.t) (seed_key : option string) : ModeRow.t :=
  ModeRow.mk (ModeIn.status m) (ModeIn.label m) (ModeIn.label_source m) (ModeIn.title m) (ModeIn.summary m)
    f0 0 (to_half <$> ModeIn.centroid m) (ModeIn.emb_model_ver m) (ModeIn.representative_template_ids m)
    (ModeIn.exception_fps m) EWMA_ALPHA seed_key.

Definition insert_mode (p : Z) (row : ModeRow.t) (d : db) : db * Z :=
  let id := next_mode d in
  (with_next_mode (id + 1) (with_failure_mode (<[(p, id) := row]> (failure_mode d)) d), id).

(** [INSERT ... 1.0, 'human' ... ON CONFLICT DO NOTHING]. *)
Definition add_human (now p m : Z) (mem : gmap (Z * Z * Z) MemberRow.t) (i : Z) : gmap (Z * Z * Z) MemberRow.t :=
  match mem !! (p, m, i) with
  | Some _ => mem
  | None => <[(p, m, i) := MemberRow.mk f1 "human" now]> mem
  end.
Definition add_humans (now p m : Z) (items : list Z) (d : db) : db :=
  with_mode_membership (fold_left (add_human now p m) items (mode_membership d)) d.

Definition spawn_candidate_mode (now : Z) (mode : ModeIn.t) (seed_items : list Z) (d : db) : result (db * Z) :=
  if check_mode (ModeIn.status mode) (ModeIn.label_source mode) then
    let p := ModeIn.project_id mode in
    let '(d, id) := insert_mode p (fresh_mode mode None) (add_projects [p] d) in
    Ok (add_humans now p id seed_items d, id)
  else Raise CheckViolation.

Definition seeded (p : Z) (key : string) (d : db) : option Z :=
  match rows_of (fun k m => (k.1 =? p) && bool_decide (ModeRow.seed_key m = Some key)) (failure_mode d) with
  | (k, _) :: _ => Some k.2
  | [] => None
  end.

(** A conflicting insert still takes a value of the sequence. *)
Definition ensure_seed_mode (p : Z) (key : string) (mode : ModeIn.t) (d : db) : result (db * Z) :=
  if check_mode (ModeIn.status mode) (ModeIn.label_source mode) then
    let d := add_projects [p] d in
    match seeded p key d with
    | Some id => Ok (with_next_mode (next_mode d + 1) d, id)
    | None => Ok (insert_mode p (fresh_mode mode (Some key)) d)
    end
  else Raise CheckViolation.

(** ** Members *)

Definition put_member (now p m : Z) (mem : gmap (Z * Z * Z) MemberRow.t) (x : Z * pyfloat * string)
    : gmap (Z * Z * Z) MemberRow.t :=
  let '(i, score, by_) := x in
  let created := match mem !! (p, m, i) with Some r => MemberRow.created_at r | None => now end in
  <[(p, m, i) := MemberRow.mk (to_real score) by_ created]> mem.

Definition stamp_version (ver : Z) (m : ModeRow.t) : ModeRow.t :=
  ModeRow.mk (ModeRow.status m) (ModeRow.label m) (ModeRow.label_source m) (ModeRow.title m) (ModeRow.summary m)
    (ModeRow.purity m) (ModeRow.support m) (ModeRow.centroid m)
    (match ModeRow.emb_model_ver m with Some v => Some v | None => Some ver end)
    (ModeRow.representative_template_ids m) (ModeRow.exception_fps m) (ModeRow.ewma_alpha m) (ModeRow.seed_key m).

Definition add_members (now p m : Z) (members : list (Z * pyfloat * string)) (emb_ver : option Z) (d : db)
    : result (db * Z) :=
  match members with
  | [] => Ok (d, 0)
  | _ =>
      if forallb (fun x => bool_decide (x.2 ∈ MATCHED_BY)) members then
        match failure_mode d !! (p, m) with
        | None => Raise ForeignKeyViolation
        | Some row =>
            let d := with_mode_membership (fold_left (put_member now p m) members (mode_membership d)) d in
            let d := match emb_ver with
                     | Some v => with_failure_mode (<[(p, m) := stamp_version v row]> (failure_mode d)) d
                     | None => d
                     end in
            Ok (d, Z.of_nat (length members))
        end
      else Raise CheckViolation
  end.

Definition members_of (p m : Z) (d : db) : list (Z * MemberRow.t) :=
  (fun kr => (kr.1.2, kr.2)) <$> rows_of (fun k _ => (k.1.1 =? p) && (k.1.2 =? m)) (mode_membership d).

(** [ORDER BY match_score DESC LIMIT 1]. *)
Definition score_leb (a b : Z * Z * Z * MemberRow.t) : bool :=
  leb_of (pg_compare (MemberRow.match_score b.2) (MemberRow.match_score a.2)).
Definition member_mode_id (p i : Z) (d : db) : option Z :=
  (fun kr => kr.1.1.2) <$>
    head (pysorted score_leb (rows_of (fun k _ => (k.1.1 =? p) && (k.2 =? i)) (mode_membership d))).

(** ** Purity *)

(** The labels of the members that have one. *)
Definition member_labels (p m : Z) (d : db) : list ustr :=
  omap (fun ir => test_item d !! (p, ir.1) ≫= ItemRow.issue_type) (members_of p m d).
Definition occurrences (l : ustr) (ls : list ustr) : Z := Z.of_nat (length (filter (fun x => x = l) ls)).
Definition max_count (ls : list ustr) : Z := foldr (fun l m => Z.max (occurrences l ls) m) 0 ls.

Definition zip_strict (f : pyfloat -> pyfloat -> pyfloat) (xs ys : list pyfloat) : result (list pyfloat) :=
  if Nat.eqb (length xs) (length ys) then Ok (zip_with f xs ys) else Raise ValueError.

Definition _ewma_centroid (p m : Z) (row : ModeRow.t) (d : db) : result (option (list pyfloat)) :=
  match ModeRow.emb_model_ver row with
  | None => Ok (ModeRow.centroid row)
  | Some ver =>
      let embs := omap (fun ir => match failure_signature d !! (p, ir.1) with
                                  | Some s => if SigIn.emb_model_ver (SigRow.data s) =? ver
                                              then SigIn.emb (SigRow.data s) else None
                                  | None => None
                                  end) (members_of p m d) in
      match embs with
      | [] => Ok (ModeRow.centroid row)
      | _ =>
          let mean := avg_vec embs in
          match ModeRow.centroid row with
          | None => Ok (Some (to_half mean))
          | Some old =>
              let a := ModeRow.ewma_alpha row in
              v ← zip_strict (fun o x => fadd (fmul (fsub f1 a) o) (fmul a x)) old mean;
              Ok (Some (to_half v))
          end
      end
  end.

Definition with_purity (purity : pyfloat) (support : Z) (centroid : option (list pyfloat)) (m : ModeRow.t) : ModeRow.t :=
  ModeRow.mk (ModeRow.status m) (ModeRow.label m) (ModeRow.label_source m) (ModeRow.title m) (ModeRow.summary m)
    purity support centroid (ModeRow.emb_model_ver m) (ModeRow.representative_template_ids m)
    (ModeRow.exception_fps m) (ModeRow.ewma_alpha m) (ModeRow.seed_key m).

Definition update_purity (p m : Z) (d : db) : result (db * pyfloat) :=
  let labels := member_labels p m d in
  let total := Z.of_nat (length labels) in
  let purity := if total =? 0 then f0 else int_quot (max_count labels) total in
  match failure_mode d !! (p, m) with
  | None => Raise RuntimeError
  | Some row =>
      c ← _ewma_centroid p m row d;
      Ok (with_failure_mode (<[(p, m) := with_purity (to_real purity) total c row]> (failure_mode d)) d, purity)
  end.

(** ** Life cycle *)

Definition with_status (status : string) (label : option ustr) (label_source : option string) (m : ModeRow.t) : ModeRow.t :=
  ModeRow.mk status (match label with Some l => Some l | None => ModeRow.label m end)
    (match label_source with Some s => Some s | None => ModeRow.label_source m end)
    (ModeRow.title m) (ModeRow.summary m) (ModeRow.purity m) (ModeRow.support m) (ModeRow.centroid m)
    (ModeRow.emb_model_ver m) (ModeRow.representative_template_ids m) (ModeRow.exception_fps m)
    (ModeRow.ewma_alpha m) (ModeRow.seed_key m).

Definition alter_mode (p m : Z) (f : ModeRow.t -> ModeRow.t) (d : db) : db :=
  with_failure_mode (alter f (p, m) (failure_mode d)) d.

(** An update of no row checks nothing. *)
Definition set_status (p m : Z) (status : string) (label : option ustr) (label_source : option string) (d : db)
    : result db :=
  match failure_mode d !! (p, m) with
  | None => Ok d
  | Some _ => if check_mode status label_source then Ok (alter_mode p m (with_status status label label_source) d)
              else Raise CheckViolation
  end.

Definition _retire (p m : Z) (d : db) : db := alter_mode p m (with_status "retired" None None) d.

Definition _merged_centroid (dst_c : option (list pyfloat)) (dst_support : Z) (dst_ver : option Z)
    (src_c : option (list pyfloat)) (src_support : Z) (src_ver : option Z)
    : result (option (list pyfloat) * option Z) :=
  match dst_c, src_c with
  | None, None => Ok (None, dst_ver)
  | None, Some s => Ok (Some (to_half s), src_ver)
  | Some t, None => Ok (Some (to_half t), dst_ver)
  | Some t, Some s =>
      if bool_decide (dst_ver = src_ver) then
        let wd := Z.max dst_support 0 in
        let ws := Z.max src_support 0 in
        let '(wd, ws) := if wd + ws =? 0 then (1, 1) else (wd, ws) in
        v ← zip_strict (fun x y => fquot (fadd (fmul x (of_Z wd)) (fmul y (of_Z ws))) (of_Z (wd + ws))) t s;
        Ok (Some (to_half v), dst_ver)
      else Ok (Some (to_half t), dst_ver)
  end.

(** [GREATEST]. *)
Definition fmax (a b : pyfloat) : pyfloat := match pg_compare a b with Lt => b | _ => a end.

(** A source member joins the destination, or raises the score it has there. *)
Definition merge_member (p dst : Z) (mem : gmap (Z * Z * Z) MemberRow.t) (x : Z * MemberRow.t)
    : gmap (Z * Z * Z) MemberRow.t :=
  let row := match mem !! (p, dst, x.1) with
             | Some old => MemberRow.mk (fmax (MemberRow.match_score old) (MemberRow.match_score x.2))
                             (MemberRow.matched_by old) (MemberRow.created_at old)
             | None => x.2
             end in
  <[(p, dst, x.1) := row]> mem.

Definition absorb (centroid : option (list pyfloat)) (ver : option Z) (src dst : ModeRow.t) : ModeRow.t :=
  ModeRow.mk (ModeRow.status dst) (ModeRow.label dst) (ModeRow.label_source dst) (ModeRow.title dst)
    (ModeRow.summary dst) (ModeRow.purity dst) (ModeRow.support dst + ModeRow.support src) centroid ver
    (remove_dups (ModeRow.representative_template_ids dst ++ ModeRow.representative_template_ids src))
    (remove_dups (ModeRow.exception_fps dst ++ ModeRow.exception_fps src)) (ModeRow.ewma_alpha dst)
    (ModeRow.seed_key dst).

Definition merge_modes (p src dst : Z) (d : db) : result db :=
  match failure_mode d !! (p, dst), failure_mode d !! (p, src) with
  | Some drow, Some srow =>
      '(c, ver) ← _merged_centroid (ModeRow.centroid drow) (ModeRow.support drow) (ModeRow.emb_model_ver drow)
                    (ModeRow.centroid srow) (ModeRow.support srow) (ModeRow.emb_model_ver srow);
      let mem := fold_left (merge_member p dst) (members_of p src d) (mode_membership d) in
      let d := with_mode_membership (drop (fun k _ => (k.1.1 =? p) && (k.1.2 =? src)) mem) d in
      Ok (_retire p src (alter_mode p dst (absorb c ver srow) d))
  | _, _ => Raise RuntimeError
  end.

(** One new mode per part, in the order of its number; the old one is retired
    and keeps its members. *)
Fixpoint split_parts (now p : Z) (row : ModeRow.t) (parts : list (Z * list Z)) (d : db) : db * list Z :=
  match parts with
  | [] => (d, [])
  | (_, items) :: parts' =>
      let part := ModeRow.mk "candidate" (ModeRow.label row) (ModeRow.label_source row) None None f0 0
                    (ModeRow.centroid row) (ModeRow.emb_model_ver row) (ModeRow.representative_template_ids row)
                    (ModeRow.exception_fps row) EWMA_ALPHA None in
      let '(d, id) := insert_mode p part d in
      let '(d, ids) := split_parts now p row parts' (add_humans now p id items d) in
      (d, id :: ids)
  end.

Definition split_mode (now p m : Z) (partition : list (Z * list Z)) (d : db) : result (db * list Z) :=
  match failure_mode d !! (p, m) with
  | None => Raise RuntimeError
  | Some row =>
      let '(d, ids) := split_parts now p row (pysorted (fun a b => a.1 <=? b.1) partition) d in
      Ok (_retire p m d, ids)
  end.

Definition list_modes (p : Z) (statuses : option (list string)) (d : db) : list (Z * ModeRow.t) :=
  let wanted m := match statuses with
                  | Some ((_ :: _) as ss) => bool_decide (ModeRow.status m ∈ ss)
                  | _ => true
                  end in
  pysorted (fun a b => a.1 <=? b.1)
    ((fun kr => (kr.1.2, kr.2)) <$> rows_of (fun k m => (k.1 =? p) && wanted m) (failure_mode d)).

(** ** Matching *)

Definition python_jaccard (a b : list Z) : pyfloat :=
  let sa : gset Z := list_to_set a in
  let sb : gset Z := list_to_set b in
  if bool_decide (sa = ∅) && bool_decide (sb = ∅) then f0
  else int_quot (Z.of_nat (size (sa ∩ sb))) (Z.of_nat (size (sa ∪ sb))).

Definition query_vec (q : Query.t) : list pyfloat := default _ZERO_VEC (Query.emb q).

Definition fp_hit (q : Query.t) (m : ModeRow.t) : bool := bool_decide (Query.exception_fp q ∈ ModeRow.exception_fps m).
Definition distance (q : Query.t) (m : ModeRow.t) : option pyfloat :=
  (fun c => vec_distance c (query_vec q)) <$> ModeRow.centroid m.

(** [status IN (...) AND ((centroid IS NOT NULL AND emb_model_ver = $2) OR fps && $4)]. *)
Definition matchable (q : Query.t) (m : ModeRow.t) : bool :=
  bool_decide (ModeRow.status m ∈ ["seed"; "candidate"; "confirmed"]) &&
  (match ModeRow.centroid m with
   | Some _ => bool_decide (ModeRow.emb_model_ver m = Some (Query.emb_model_ver q))
   | None => false
   end || fp_hit q m).

(** [ORDER BY ... NULLS LAST]. *)
Definition asc_nulls_last (a b : option pyfloat) : comparison :=
  match a, b with
  | Some x, Some y => pg_compare x y
  | Some _, None => Lt
  | None, Some _ => Gt
  | None, None => Eq
  end.
Definition bool_desc (a b : bool) : comparison := match a, b with true, false => Lt | false, true => Gt | _, _ => Eq end.

Definition mode_leb (q : Query.t) (a b : Z * ModeRow.t) : bool :=
  leb_of (then_by (bool_desc (fp_hit q a.2) (fp_hit q b.2))
            (then_by (asc_nulls_last (distance q a.2) (distance q b.2)) (desc a.1 b.1))).

Definition mode_candidate (q : Query.t) (km : Z * ModeRow.t) : Candidate.t :=
  let m := km.2 in
  let c := Candidate.default None (Some km.1) in
  Candidate.mk None (Some km.1) (Candidate.dense_rank c) (Candidate.sparse_rank c) (Candidate.rrf_score c)
    (fsub f1 <$> distance q m) (Candidate.lex_score c)
    (python_jaccard (ModeRow.representative_template_ids m) (Query.template_ids q))
    (of_u <$> ModeRow.label m)
    (match ModeRow.label_source m with
     | Some s => if bool_decide (s ∈ _MODE_LABEL_SOURCES) then Some s else None
     | None => None
     end)
    (Candidate.label_ts c) (Candidate.same_test_case c) (Candidate.same_error_hash c) (fp_hit q m)
    (Candidate.msg_text c) (Candidate.exc_text c) (Candidate.launch_distance c) (Candidate.launch_id c)
    (Candidate.launch_name c) (Some (ModeRow.status m)) (Some (read_real (ModeRow.purity m)))
    (Some (ModeRow.support m)) (Some (if fp_hit q m then "hash" else "vector")) (Candidate.relevant_log_id c).

Definition match_modes (p : Z) (q : Query.t) (k : Z) (d : db) : list Candidate.t :=
  let rows := (fun km => (km.1.2, km.2)) <$> rows_of (fun k m => (k.1 =? p) && matchable q m) (failure_mode d) in
  mode_candidate q <$> take (Z.to_nat k) (limited (mode_leb q) 10 rows).
End Kb.

(** ** Purity *)

Lemma occurrences_bounds l ls : 0 <= occurrences l ls <= Z.of_nat (length ls).
Proof. unfold occurrences. pose proof (length_filter (fun x => x = l) ls). lia. Qed.

Lemma occurrences_absent l ls : l ∉ ls -> occurrences l ls = 0.
Proof.
  unfold occurrences. induction ls as [|x ls IH]; [done|]. intros [Hx Hl]%not_elem_of_cons.
  rewrite filter_cons_False by done. by apply IH.
Qed.
Lemma occurrences_all l ls : Forall (fun x => x = l) ls -> occurrences l ls = Z.of_nat (length ls).
Proof.
  unfold occurrences. induction 1 as [|x ls -> _ IH]; [done|]. rewrite filter_cons_True by done. cbn [length]. lia.
Qed.

Lemma max_over_bounds (ls all : list ustr) :
  0 <= foldr (fun l m => Z.max (occurrences l all) m) 0 ls <= Z.of_nat (length all).
Proof. induction ls as [|l ls IH]; cbn [foldr]; [lia|]. pose proof (occurrences_bounds l all). lia. Qed.

Lemma max_count_bounds ls : 0 <= max_count ls <= Z.of_nat (length ls).
Proof. apply max_over_bounds. Qed.

Lemma max_over_ge (ls all : list ustr) l : l ∈ ls -> occurrences l all <= foldr (fun l m => Z.max (occurrences l all) m) 0 ls.
Proof. induction 1 as [l ls|l x ls Hl IH]; cbn [foldr]; lia. Qed.

(** The count is that of a label no other label outnumbers. *)
Lemma max_count_majority ls : ls <> [] -> exists l, l ∈ ls /\ max_count ls = occurrences l ls /\
  forall l', occurrences l' ls <= occurrences l ls.
Proof.
  intros Hne. assert (exists l, l ∈ ls /\ max_count ls = occurrences l ls) as (l & Hl & E).
  { unfold max_count. assert (forall all xs, xs <> [] -> exists l, l ∈ xs /\
      foldr (fun l m => Z.max (occurrences l all) m) 0 xs = occurrences l all) as Hx; [|by apply Hx].
    intros all xs. induction xs as [|x xs IH]; intros Hxs; [done|]. cbn [foldr].
    pose proof (occurrences_bounds x all) as Hb. destruct xs as [|y ys]; [exists x; split; [by left|cbn [foldr]; lia]|].
    destruct IH as (l & Hl & ->); [done|].
    destruct (Z.max_spec (occurrences x all) (occurrences l all)) as [[_ ->]|[_ ->]].
    - exists l. split; [by right|done].
    - exists x. split; [by left|done]. }
  exists l. split_and!; [done..|]. intros l'. rewrite <- E. destruct (decide (l' ∈ ls)) as [Hin|Hni].
  - by apply max_over_ge.
  - rewrite occurrences_absent by done. apply max_count_bounds.
Qed.

(** Purity is the share of the majority label among the labelled members: a
    number between 0 and 1, 0 without labelled members and exactly 1 when they all
    agree; the stored support is their number, and nothing but that mode's row is
    written.  An unknown mode is an error. *)
Theorem update_purity_spec `{PgVector} (p m : Z) (d : db) :
  match update_purity p m d with
  | Ok (d', x) =>
      in01 x = true /\
      (member_labels p m d = [] -> x = f0) /\
      (forall l, member_labels p m d <> [] -> Forall (fun l' => l' = l) (member_labels p m d) -> x = f1) /\
      (member_labels p m d <> [] -> exists l, l ∈ member_labels p m d /\
         (forall l', occurrences l' (member_labels p m d) <= occurrences l (member_labels p m d)) /\
         x = int_quot (occurrences l (member_labels p m d)) (Z.of_nat (length (member_labels p m d)))) /\
      exists row c, failure_mode d !! (p, m) = Some row /\
        d' = with_failure_mode (<[(p, m) := with_purity (to_real x) (Z.of_nat (length (member_labels p m d))) c row]>
                                  (failure_mode d)) d
  | Raise e => failure_mode d !! (p, m) = None /\ e = RuntimeError \/
               exists row, failure_mode d !! (p, m) = Some row /\ _ewma_centroid p m row d = Raise e
  end.
Proof.
  unfold update_purity. set (ls := member_labels p m d). destruct (failure_mode d !! (p, m)) as [row|] eqn:Em; [|by left].
  destruct (_ewma_centroid p m row d) as [c|e] eqn:Ec; cbn [mbind result_bind]; [|right; by exists row].
  assert (ls <> [] -> Z.of_nat (length ls) =? 0 = false) as Hpos.
  { intros Hne. apply Z.eqb_neq. destruct ls; [done|]. cbn [length]. lia. }
  split_and!.
  - destruct ls as [|l0 ls0] eqn:El; [done|]. rewrite Hpos by done. apply int_quot_in01; [apply max_count_bounds|].
    cbn [length]. lia.
  - by intros ->.
  - intros l Hne Hall. rewrite Hpos by done. assert (max_count ls = Z.of_nat (length ls)) as ->.
    { destruct (max_count_majority ls Hne) as (l1 & Hl1 & -> & _). rewrite Forall_forall in Hall.
      apply occurrences_all, Forall_forall. intros x Hx. by rewrite (Hall x Hx), (Hall l1 Hl1). }
    destruct ls as [|l0 ls0]; [done|]. cbn [length]. apply int_quot_same.
  - intros Hne. rewrite Hpos by done. destruct (max_count_majority ls Hne) as (l & Hl & -> & Hmax). by exists l.
  - by exists row, c.
Qed.

(** ** Merging *)

(** The row of an item that is in one of the modes, or in both. *)
Definition merged (old new : option MemberRow.t) : option MemberRow.t :=
  match old, new with
  | Some o, Some n => Some (MemberRow.mk (fmax (MemberRow.match_score o) (MemberRow.match_score n))
                              (MemberRow.matched_by o) (MemberRow.created_at o))
  | Some o, None => Some o
  | None, n => n
  end.

Lemma fold_merge_lookup p dst l mem i : NoDup l.*1 ->
  fold_left (merge_member p dst) l mem !! (p, dst, i) = merged (mem !! (p, dst, i)) (dget i l).
Proof.
  revert mem. induction l as [|[j r] l IH]; intros mem; cbn [fold_left fmap list_fmap].
  - intros _. cbn. by destruct (mem !! _).
  - intros [Hj Hl]%NoDup_cons. rewrite IH by done. clear IH. unfold merge_member. cbn [fst snd].
    assert (dget i ((j, r) :: l) = if decide (i = j) then Some r else dget i l) as -> by reflexivity.
    destruct (decide (i = j)) as [->|Hne].
    + rewrite lookup_insert_eq. assert (dget j l = None) as ->.
      { destruct (dget j l) eqn:E; [|done]. destruct Hj. apply (dget_is_Some j). by rewrite E. }
      by destruct (mem !! (p, dst, j)).
    + rewrite lookup_insert_ne; [done|]. intros [=]. done.
Qed.

Lemma fold_merge_other p dst l mem k : k.1 <> (p, dst) -> fold_left (merge_member p dst) l mem !! k = mem !! k.
Proof.
  intros Hk. revert mem. induction l as [|[j r] l IH]; intros mem; [done|]. cbn [fold_left]. rewrite IH.
  unfold merge_member. apply lookup_insert_ne. by intros <-.
Qed.

Lemma members_of_dict p m d : NoDup (members_of p m d).*1 /\
  forall i, dget i (members_of p m d) = mode_membership d !! (p, m, i).
Proof.
  assert (forall i r, (i, r) ∈ members_of p m d <-> mode_membership d !! (p, m, i) = Some r) as Hin.
  { intros i r. unfold members_of, rows_of. rewrite list_elem_of_fmap. split.
    - intros ([[[q a] j] x] & [= -> ->] & Hk). apply elem_of_map_to_list, lookup_keep in Hk as [Hk HP]. cbn in HP.
      apply andb_true_iff in HP as [->%Z.eqb_eq ->%Z.eqb_eq]. done.
    - intros Hk. exists (p, m, i, r). split; [done|]. apply elem_of_map_to_list, lookup_keep.
      cbn. by rewrite !Z.eqb_refl. }
  assert (NoDup (members_of p m d).*1) as Hnd.
  { unfold members_of, rows_of. rewrite <- list_fmap_compose. apply NoDup_fmap_2_strong.
    - intros [[[q a] i] r] [[[q' a'] i'] r'] [Hx Px]%elem_of_map_to_list%lookup_keep
        [Hy Py]%elem_of_map_to_list%lookup_keep. cbn in *. intros ->.
      apply andb_true_iff in Px as [->%Z.eqb_eq ->%Z.eqb_eq]. apply andb_true_iff in Py as [->%Z.eqb_eq ->%Z.eqb_eq].
      congruence.
    - apply NoDup_map_to_list. }
  split; [done|]. intros i. apply option_eq. intros r. rewrite <- Hin. split; [apply dget_elem|by apply elem_dget].
Qed.

(** Merging a mode into another one moves its members: every member of either
    is a member of the destination, with the higher of its two scores, and the
    source is left without members and retired; members, and all other modes, are
    otherwise as they were.  The supports add up, whatever members the two shared. *)
Theorem merge_modes_moves_members `{PgVector} (p src dst : Z) (d d' : db) :
  src <> dst -> merge_modes p src dst d = Ok d' ->
  (forall i, mode_membership d' !! (p, dst, i) = merged (mode_membership d !! (p, dst, i)) (mode_membership d !! (p, src, i)) /\
             mode_membership d' !! (p, src, i) = None) /\
  (forall k, k.1 <> (p, src) -> k.1 <> (p, dst) -> mode_membership d' !! k = mode_membership d !! k) /\
  (forall k, k <> (p, src) -> k <> (p, dst) -> failure_mode d' !! k = failure_mode d !! k) /\
  exists srow drow c ver, failure_mode d !! (p, src) = Some srow /\ failure_mode d !! (p, dst) = Some drow /\
    failure_mode d' !! (p, src) = Some (with_status "retired" None None srow) /\
    failure_mode d' !! (p, dst) = Some (absorb c ver srow drow).
Proof.
  intros Hne. unfold merge_modes. destruct (failure_mode d !! (p, dst)) as [drow|] eqn:Ed; [|done].
  destruct (failure_mode d !! (p, src)) as [srow|] eqn:Es; [|done].
  destruct (_merged_centroid _ _ _ _ _ _) as [[c ver]|e]; cbn [mbind result_bind]; [|done]. intros [= <-].
  unfold _retire, alter_mode. cbn [failure_mode mode_membership Db.with_failure_mode Db.with_mode_membership
    Db.failure_mode Db.mode_membership]. destruct (members_of_dict p src d) as [Hnd Hget]. split_and!.
  - intros i. split.
    + apply option_eq. intros r. rewrite lookup_drop. cbn [fst snd].
      rewrite fold_merge_lookup, Hget, (proj2 (Z.eqb_neq dst src)), andb_false_r by congruence. tauto.
    + destruct (drop _ _ !! _) as [r|] eqn:E; [|done]. apply lookup_drop in E as [_ E]. cbn in E.
      by rewrite !Z.eqb_refl in E.
  - intros k Hs Hd. apply option_eq. intros r. rewrite lookup_drop, fold_merge_other by done.
    assert ((k.1.1 =? p) && (k.1.2 =? src) = false) as ->; [|tauto].
    destruct k as [[q a] i]. cbn in Hs |- *. destruct (Z.eqb_spec q p), (Z.eqb_spec a src); try done. congruence.
  - intros k Hs Hd. by rewrite !lookup_alter_ne by congruence.
  - exists srow, drow, c, ver. split_and!; [done..| |].
    + rewrite lookup_alter_eq, lookup_alter_ne by congruence. by rewrite Es.
    + rewrite lookup_alter_ne, lookup_alter_eq by congruence. by rewrite Ed.
Qed.

(** ** A vector extension for concrete runs *)

Definition half_of (x : pyfloat) : pyfloat := rounded 53 1024 (rounded 11 16 x).
Definition squared_distance (a b : list pyfloat) : pyfloat :=
  fold_left fadd (zip_with (fun x y => fmul (fsub x y) (fsub x y)) a b) f0.
Definition mean_of (vs : list (list pyfloat)) : list pyfloat :=
  match vs with
  | [] => []
  | v :: vs' => (fun x => fquot x (of_Z (Z.of_nat (length vs)))) <$> fold_left (zip_with fadd) vs' v
  end.
Definition toy_vectors : PgVector :=
  {| to_half := fmap half_of; avg_vec := mean_of; vec_distance := squared_distance; read_real := id |}.

Section Example.
#[local] Existing Instance toy_vectors.

Definition blank_mode (support : Z) : ModeRow.t :=
  ModeRow.mk "confirmed" (Some (u "pb001")) (Some "human") None None f1 support None None [] [] EWMA_ALPHA None.

(** Two modes that share item 7; the second one also has item 8. *)
Definition shared_item : db :=
  with_mode_membership (<[(1, 1, 7) := MemberRow.mk f1 "hash" 5]> (<[(1, 2, 7) := MemberRow.mk f1 "human" 6]>
      (<[(1, 2, 8) := MemberRow.mk f1 "human" 6]> ∅)))
    (with_failure_mode (<[(1, 1) := blank_mode 1]> (<[(1, 2) := blank_mode 2]> ∅)) empty_db).

Definition merged_into (dst : Z) : db := match merge_modes 1 1 dst shared_item with Ok d => d | Raise _ => empty_db end.

Lemma merge_modes_moves_members_witness :
  (exists srow drow c ver, failure_mode shared_item !! (1, 1) = Some srow /\ failure_mode shared_item !! (1, 2) = Some drow /\
    failure_mode (merged_into 2) !! (1, 1) = Some (with_status "retired" None None srow) /\
    failure_mode (merged_into 2) !! (1, 2) = Some (absorb c ver srow drow)).
Proof. apply (merge_modes_moves_members 1 1 2 shared_item (merged_into 2)); [lia|vm_compute; reflexivity]. Defined.

(** The shared item is counted in both supports, so the merged mode claims three
    members and has two. *)
Example merge_counts_shared_twice :
  ModeRow.support <$> failure_mode (merged_into 2) !! (1, 2) = Some 3 /\ length (members_of 1 2 (merged_into 2)) = 2%nat.
Proof. split; vm_compute; reflexivity. Qed.

(** A mode merged into itself loses its members and is retired. *)
Example self_merge_empties :
  ModeRow.status <$> failure_mode (merged_into 1) !! (1, 1) = Some "retired" /\ members_of 1 1 (merged_into 1) = [].
Proof. split; vm_compute; reflexivity. Qed.
End Example.
