(* ===== verification/LabelLog.v ===== *)
(** * The label log and the training frame

    [db/repositories/labels.py]: the append-only log of label events, the retrain
    counter, and the frame the trainer reads; [db/repositories/suggestion_ops.py]:
    the row updates of the sidecar. *)

From S2P Require Import Prelude PyFloat PyStr PyJson Features Ingest LlmEngine Trainer Models Database Retrieval Knowledge.
From Stdlib Require Import ZArith Lia.

#[local] Open Scope string_scope.
#[local] Open Scope list_scope.
#[local] Open Scope Z_scope.

Import Db (test_item, failure_signature, failure_mode, mode_membership, label_event, suggestion, test_history_stats,
           next_event, next_suggestion, with_label_event, with_suggestion, with_next_event, with_next_suggestion).

Module LabelEventIn.
Record t := mk {
  project_id : Z; item_id : Z; old_label : option ustr; new_label : ustr; source : string; suggestion_id : option Z
}.
End LabelEventIn.

Definition SOURCES : list string := ["rp_defect_update"; "analyzer_suggestion_accepted"; "human_ui"].

Definition append_event (now : Z) (ev : LabelEventIn.t) (d : db) : result (db * Z) :=
  if bool_decide (LabelEventIn.source ev ∈ SOURCES) then
    let id := next_event d in
    let row := EventRow.mk (LabelEventIn.project_id ev) (LabelEventIn.item_id ev) (LabelEventIn.old_label ev)
                 (LabelEventIn.new_label ev) (LabelEventIn.source ev) (LabelEventIn.suggestion_id ev) now in
    Ok (with_next_event (id + 1) (with_label_event (<[id := row]> (label_event d)) d), id)
  else Raise CheckViolation.

Definition count_events_since (since : option Z) (project_id : option Z) (d : db) : Z :=
  count (fun _ e => match since with Some t => t <? EventRow.ts e | None => true end &&
                    match project_id with Some p => EventRow.project_id e =? p | None => true end) (label_event d).

(** ** The training frame *)

Module FrameRow.
Record t := mk {
  event_id : Z; event : EventRow.t; item : option ItemRow.t; sg : option SugRow.t; ths : option HistRow.t;
  fm : option (pyfloat * Z)          (* purity and support of the best-matching mode *)
}.
End FrameRow.

(** The item's most recent suggestion at the time of the label, early ones
    excluded. *)
Definition frame_suggestion (e : EventRow.t) (d : db) : option SugRow.t :=
  snd <$> latest_where (EventRow.project_id e) (EventRow.item_id e)
            (fun s => (SugRow.created_at s <=? EventRow.ts e) && negb (bool_decide (SugRow.source s = Some "early"))) d.

(** [ORDER BY mm.match_score DESC, mm.mode_id DESC]. *)
Definition member_leb (a b : Z * Z * Z * MemberRow.t) : bool :=
  leb_of (then_by (pg_compare (MemberRow.match_score b.2) (MemberRow.match_score a.2)) (desc a.1.1.2 b.1.1.2)).
Definition frame_mode (e : EventRow.t) (d : db) : option (pyfloat * Z) :=
  let rows := rows_of (fun k _ => (k.1.1 =? EventRow.project_id e) && (k.2 =? EventRow.item_id e) &&
                                  bool_decide (is_Some (failure_mode d !! (k.1.1, k.1.2)))) (mode_membership d) in
  match pysorted member_leb rows with
  | (k, _) :: _ => (fun m => (ModeRow.purity m, ModeRow.support m)) <$> failure_mode d !! (k.1.1, k.1.2)
  | [] => None
  end.

Definition frame_row (d : db) (ke : Z * EventRow.t) : FrameRow.t :=
  let e := ke.2 in
  let ti := test_item d !! event_key e in
  FrameRow.mk ke.1 e ti (frame_suggestion e d)
    (match ti ≫= fun r => TestItemIn.test_case_hash (ItemRow.data r) with
     | Some tch => test_history_stats d !! (EventRow.project_id e, tch)
     | None => None
     end)
    (frame_mode e d).

(** [ORDER BY le.ts DESC, le.event_id DESC]. *)
Definition frame_leb (a b : Z * EventRow.t) : bool :=
  leb_of (then_by (desc (EventRow.ts a.2) (EventRow.ts b.2)) (desc a.1 b.1)).

Definition fetch_training_frame (project_id since : option Z) (limit : Z) (d : db) : list FrameRow.t :=
  frame_row d <$> limited frame_leb limit
    (rows_of (fun _ e => match project_id with Some p => EventRow.project_id e =? p | None => true end &&
                         match since with Some t => t <=? EventRow.ts e | None => true end) (label_event d)).

(** What the trainer reads of a row: the numbers of the snapshot, and the label.
    A nested entry is under no feature name; it keeps the snapshot from being
    empty. *)
Definition numeric (kv : string * json) : string * pyfloat :=
  (kv.1, match kv.2 with JFloat f => f | JInt z => of_Z z | _ => fnan end).
Definition training_row (r : FrameRow.t) : row :=
  let e := FrameRow.event r in
  Row.mk (EventRow.project_id e) (EventRow.item_id e)
    ((fun s => numeric <$> SugRow.features s) <$> FrameRow.sg r) (Some (of_u (EventRow.new_label e))) (Some (EventRow.ts e)).

(** ** Row updates of the sidecar *)

Definition explained (text : ustr) (s : SugRow.t) : SugRow.t :=
  SugRow.mk (SugRow.project_id s) (SugRow.item_id s) (SugRow.launch_id s) (SugRow.group_id s)
    (SugRow.predicted_label s) (SugRow.confidence s) (SugRow.matched_mode_id s) (SugRow.matched_item_id s)
    (SugRow.features s) (SugRow.model_ver s) true (Some text) (SugRow.method s) (SugRow.abstain_reason s)
    (SugRow.source s) (SugRow.outcome s) (SugRow.outcome_ts s) (SugRow.created_at s).

Definition set_explanation (p suggestion_id : Z) (text : ustr) (d : db) : db :=
  with_suggestion (alter (fun s => if SugRow.project_id s =? p then explained text s else s) suggestion_id (suggestion d)) d.

(** [features || patch]: the patch's keys win. *)
Definition patched (patch : list (string * json)) (s : SugRow.t) : SugRow.t :=
  SugRow.mk (SugRow.project_id s) (SugRow.item_id s) (SugRow.launch_id s) (SugRow.group_id s)
    (SugRow.predicted_label s) (SugRow.confidence s) (SugRow.matched_mode_id s) (SugRow.matched_item_id s)
    (fold_left (fun f kv => dset kv.1 kv.2 f) patch (SugRow.features s)) (SugRow.model_ver s) true
    (SugRow.explanation s) (SugRow.method s) (SugRow.abstain_reason s) (SugRow.source s) (SugRow.outcome s)
    (SugRow.outcome_ts s) (SugRow.created_at s).

Definition annotate_judge (p i : Z) (patch : list (string * json)) (d : db) : db :=
  match latest_suggestion p i d with
  | Some (id, _) => with_suggestion (alter (patched patch) id (suggestion d)) d
  | None => d
  end.

Definition insert_coldstart (now p i launch : Z) (label : ustr) (confidence : pyfloat) (model_ver : ustr)
    (features : list (string * json)) (d : db) : db * Z :=
  write_suggestion now
    (SuggestionRow.mk p i launch None label confidence None None features model_ver true None (Some "coldstart") None None) d.

(** ** What the frame holds *)

Definition in_window (project_id since : option Z) (e : EventRow.t) : bool :=
  match project_id with Some p => EventRow.project_id e =? p | None => true end &&
  match since with Some t => t <=? EventRow.ts e | None => true end.

(** The snapshots a label may be trained on. *)
Definition eligible (e : EventRow.t) (s : SugRow.t) : Prop :=
  SugRow.project_id s = EventRow.project_id e /\ SugRow.item_id s = EventRow.item_id e /\
  SugRow.created_at s <= EventRow.ts e /\ SugRow.source s <> Some "early".

Lemma frame_suggestion_spec e d :
  match frame_suggestion e d with
  | Some s => (exists id, suggestion d !! id = Some s) /\ eligible e s /\
      forall id s', suggestion d !! id = Some s' -> eligible e s' -> SugRow.created_at s' <= SugRow.created_at s
  | None => forall id s', suggestion d !! id = Some s' -> ~ eligible e s'
  end.
Proof.
  unfold frame_suggestion. set (P s := (SugRow.created_at s <=? EventRow.ts e) && _).
  assert (forall s, P s = true <-> SugRow.created_at s <= EventRow.ts e /\ SugRow.source s <> Some "early") as HP.
  { intros s. unfold P. by rewrite andb_true_iff, negb_true_iff, bool_decide_eq_false, Z.leb_le. }
  destruct (latest_where _ _ P d) as [[id s]|] eqn:E; cbn.
  - pose proof (latest_where_in _ _ _ _ _ _ E) as (Hs & Hp & Hi & Hc%HP). split_and!; [by exists id|by split_and!; tauto|].
    intros j s' Hj (Hp' & Hi' & Hc'%HP). by eapply (latest_where_latest _ _ _ _ _ _ E j).
  - intros j s' Hj (Hp' & Hi' & Hc'%HP).
    pose proof (latest_where_none _ _ _ _ E j s' Hj Hp' Hi') as Hf. congruence.
Qed.

(** The frame's rows: events of the window, newest first. *)
Definition frame_events (project_id since : option Z) (limit : Z) (d : db) : list (Z * EventRow.t) :=
  limited frame_leb limit (rows_of (fun _ e => in_window project_id since e) (label_event d)).

Lemma fetch_training_frame_rows project_id since limit d :
  fetch_training_frame project_id since limit d = frame_row d <$> frame_events project_id since limit d.
Proof. done. Qed.

Lemma frame_events_in project_id since limit d id e : (id, e) ∈ frame_events project_id since limit d ->
  label_event d !! id = Some e /\ in_window project_id since e = true.
Proof.
  unfold frame_events, limited. intros Hin. apply elem_of_take in Hin as (i & Hi%list_elem_of_lookup_2 & _).
  apply elem_of_pysorted in Hi. by apply elem_of_map_to_list, lookup_keep in Hi.
Qed.

Lemma frame_events_sorted project_id since limit d :
  StronglySorted (fun a b => EventRow.ts b.2 <= EventRow.ts a.2) (frame_events project_id since limit d).
Proof.
  unfold frame_events, limited.
  pose proof (newest_sorted (fun a : Z * EventRow.t => EventRow.ts a.2) fst
                (rows_of (fun _ e => in_window project_id since e) (label_event d))) as Hs.
  rewrite <- (take_drop (Z.to_nat limit) (pysorted _ _)) in Hs. by apply StronglySorted_app_1_l in Hs.
Qed.

(** What the limit cuts off is no newer than what it keeps. *)
Lemma frame_events_cut project_id since limit d id e :
  label_event d !! id = Some e -> in_window project_id since e = true ->
  (id, e) ∈ frame_events project_id since limit d \/
  forall x, x ∈ frame_events project_id since limit d -> EventRow.ts e <= EventRow.ts x.2.
Proof.
  intros Hid Hw. unfold frame_events, limited.
  set (rows := rows_of (fun _ e => in_window project_id since e) (label_event d)).
  assert ((id, e) ∈ pysorted (newer (fun a : Z * EventRow.t => EventRow.ts a.2) fst) rows) as Hin
    by (by apply elem_of_pysorted, elem_of_map_to_list, lookup_keep).
  pose proof (newest_sorted (fun a : Z * EventRow.t => EventRow.ts a.2) fst rows) as Hs.
  rewrite <- (take_drop (Z.to_nat limit) (pysorted _ _)) in Hs, Hin.
  apply elem_of_app in Hin as [?|Hd]; [by left|right]. intros x Hx.
  by apply (StronglySorted_app_1_elem_of _ _ _ x (id, e) Hs Hx).
Qed.

Lemma training_row_key d ke : Row.key (training_row (frame_row d ke)) = event_key ke.2.
Proof. done. Qed.

Lemma training_snapshot d ke f : snapshot (training_row (frame_row d ke)) = Some f ->
  exists s, frame_suggestion ke.2 d = Some s /\ SugRow.features s <> [] /\ f = numeric <$> SugRow.features s.
Proof.
  unfold snapshot, training_row, frame_row. cbn [FrameRow.sg FrameRow.event Row.features].
  destruct (frame_suggestion ke.2 d) as [s|]; cbn [fmap option_fmap option_map]; [|done]. intros E. exists s.
  destruct (SugRow.features s) as [|kv fs]; [done|]. split_and!; [done|done|]. by injection E as <-.
Qed.

(** C24. Where a training example comes from: it is the newest label of an item in
    the window of the frame, folded to a base group, with the item's most recent
    snapshot made no later than that label and not by the early pass.  So the
    trainer never sees a superseded label, nothing computed after the label was
    given, and no early snapshot. *)
Theorem training_example_provenance project_id since limit d ex :
  ex ∈ build_xy (training_row <$> fetch_training_frame project_id since limit d) ->
  exists id e sid s l,
    label_event d !! id = Some e /\ in_window project_id since e = true /\
    (forall id' e', label_event d !! id' = Some e' -> in_window project_id since e' = true ->
       event_key e' = event_key e -> EventRow.ts e' <= EventRow.ts e) /\
    suggestion d !! sid = Some s /\ eligible e s /\
    (forall sid' s', suggestion d !! sid' = Some s' -> eligible e s' -> SugRow.created_at s' <= SugRow.created_at s) /\
    SugRow.features s <> [] /\ base_label (Some (of_u (EventRow.new_label e))) = Some l /\
    ex = mk_example (to_vector (numeric <$> SugRow.features s)) l (EventRow.project_id e).
Proof.
  intros Hex. apply build_xy_sound in Hex as (r & f & l & Hf & Hsnap & El & ->).
  rewrite fetch_training_frame_rows in Hf. pose proof (find_some _ _ Hf) as [Hin _]. apply list_elem_of_In in Hin.
  apply list_elem_of_fmap in Hin as (fr & -> & Hin). apply list_elem_of_fmap in Hin as ([id e] & -> & Hin).
  pose proof (frame_events_in _ _ _ _ _ _ Hin) as [Hid Hw]. pose proof (frame_suggestion_spec e d) as Hs.
  apply training_snapshot in Hsnap as (s & Es & Hne & ->). cbn [snd] in Es; rewrite Es in Hs. destruct Hs as ((sid & Hsid) & Hel & Hlast).
  exists id, e, sid, s, l. split_and!; try done.
  intros id' e' Hid' Hw' Hk. destruct (frame_events_cut project_id since limit d id' e' Hid' Hw') as [Hin'|Hcut];
    [|by apply (Hcut (id, e))].
  set (rows := training_row <$> _) in Hf.
  assert (StronglySorted (fun a b => default 0 (Row.ts b) <= default 0 (Row.ts a)) rows) as Hsort.
  { unfold rows. rewrite <- list_fmap_compose. eapply StronglySorted_fmap; [|apply frame_events_sorted].
    intros a b Hab. exact Hab. }
  pose proof (dedup_latest_exact rows (training_row (frame_row d (id, e)))) as (_ & Hiff & Hnewest).
  apply Hiff in Hf. apply (Hnewest Hsort Hf (training_row (frame_row d (id', e')))); [|exact Hk].
  unfold rows. by apply list_elem_of_fmap_2, list_elem_of_fmap_2.
Qed.

(** ** A labelled item *)

Definition labelled_item (coldstart : bool) : db :=
  let d := (write_suggestion 1 (SuggestionRow.mk 1 10 3 None (u "ab001") f1 None None [("top1_cosine", JFloat f1)]
              (u "gbm-7") false None (Some "gbm") None None) empty_db).1 in
  let d := if coldstart then (insert_coldstart 2 1 10 3 (u "pb001") f1 (u "rubric+m")
              [("coldstart", JObj [("rule", JStr (u "R6"))])] d).1 else d in
  match append_event 3 (LabelEventIn.mk 1 10 None (u "pb001") "human_ui" None) d with
  | Ok (d', _) => d'
  | Raise _ => d
  end.

Lemma training_example_provenance_witness :
  exists id e sid s l,
    label_event (labelled_item false) !! id = Some e /\ suggestion (labelled_item false) !! sid = Some s /\
    mk_example (to_vector [("top1_cosine", f1)]) "pb" 1 =
    mk_example (to_vector (numeric <$> SugRow.features s)) l (EventRow.project_id e).
Proof.
  destruct (training_example_provenance None None 10 (labelled_item false)
              (mk_example (to_vector [("top1_cosine", f1)]) "pb" 1)) as (id & e & sid & s & l & He & _ & _ & Hs & Hr).
  - assert (build_xy (training_row <$> fetch_training_frame None None 10 (labelled_item false)) =
            [mk_example (to_vector [("top1_cosine", f1)]) "pb" 1]) as -> by (vm_compute; reflexivity).
    by left.
  - exists id, e, sid, s, l. split_and!; [exact He|exact Hs|apply Hr].
Defined.

(** A cold-start answer is a suggestion like any other, with no feature in its
    snapshot: once it is the item's latest, the label trains the model on the
    default of every column, not on what the engine saw. *)
Example coldstart_snapshot_trains_on_defaults :
  build_xy (training_row <$> fetch_training_frame None None 10 (labelled_item true)) =
    [mk_example (to_vector []) "pb" 1] /\
  build_xy (training_row <$> fetch_training_frame None None 10 (labelled_item false)) =
    [mk_example (to_vector [("top1_cosine", f1)]) "pb" 1] /\
  to_vector [] <> to_vector [("top1_cosine", f1)].
Proof. split_and!; [vm_compute; reflexivity..|]. intros E. vm_compute in E. discriminate E. Qed.
