(* ===== verification/LlmStores.v ===== *)
(** * The language model's stores

    [db/repositories/llm_cache.py] and [llm_events.py] over the tables: the output
    cache, the audit log of calls, the runtime switch of a role.  The cache of the
    engine ([LlmEngine]) is an association list; [cache_of_store] relates the two. *)

From S2P Require Import Prelude PyFloat PyStr PyJson PyTime LlmEngine Database Retrieval Knowledge.
From Stdlib Require Import ZArith Lia.

#[local] Open Scope string_scope.
#[local] Open Scope list_scope.
#[local] Open Scope Z_scope.

Import Db (llm_cache, llm_event, llm_role_state, next_audit, with_llm_cache, with_llm_event, with_llm_role_state, with_next_audit).

(** ** The cache *)

Definition hit (r : CacheRow.t) : CacheRow.t :=
  CacheRow.mk (CacheRow.c_role r) (CacheRow.c_model r) (CacheRow.c_template r) (CacheRow.c_output r)
    (CacheRow.c_created r) (CacheRow.c_hits r + 1).

(** [UPDATE ... SET hits = hits + 1 ... RETURNING output]. *)
Definition bump_hits (p : Z) (key : string) (P : CacheRow.t -> bool) (d : db) : db * option json :=
  match llm_cache d !! (p, key) with
  | Some r => if P r then (with_llm_cache (<[(p, key) := hit r]> (llm_cache d)) d, Some (CacheRow.c_output r)) else (d, None)
  | None => (d, None)
  end.

Definition get (p : Z) (key : string) (d : db) : db * option json := bump_hits p key (fun _ => true) d.
Definition get_fresh (now p : Z) (key : string) (ttl_days : Z) (d : db) : db * option json :=
  bump_hits p key (fun r => now - days ttl_days <=? CacheRow.c_created r) d.

Definition created_leb (a b : Z * string * CacheRow.t) : bool :=
  leb_of (desc (CacheRow.c_created a.2) (CacheRow.c_created b.2)).
Definition is_extractor_of (p template_hash : Z) (k : Z * string) (r : CacheRow.t) : bool :=
  (k.1 =? p) && bool_decide (CacheRow.c_role r = "extractor") && bool_decide (CacheRow.c_template r = Some template_hash).
Definition get_extractor_by_template (now p template_hash ttl_days : Z) (d : db) : option json :=
  (fun kr => CacheRow.c_output kr.2) <$>
  head (pysorted created_leb
          (rows_of (fun k r => is_extractor_of p template_hash k r && (now - days ttl_days <=? CacheRow.c_created r))
             (llm_cache d))).

Definition put (now p : Z) (key role model : string) (output : json) (template_hash : option Z) (d : db) : db :=
  let hits := match llm_cache d !! (p, key) with Some r => CacheRow.c_hits r | None => 0 end in
  with_llm_cache (<[(p, key) := CacheRow.mk role model template_hash output now hits]> (llm_cache d)) d.

(** ** The audit log *)

Definition AUDIT_ROLES : list string := ["explainer"; "extractor"; "judge"; "coldstart"].
Definition AUDIT_OUTCOMES : list string := ["ok"; "schema_fail"; "validation_fail"; "timeout"; "breaker_open"; "dropped"].

Module AuditIn.
Record t := mk {
  project_id : Z; item_id : Z; role : string; model : string; prompt_hash : string; cache_hit : bool;
  outcome : string; output : option json; latency_ms : option Z
}.
End AuditIn.

Definition audit_row (now : Z) (a : AuditIn.t) : AuditRow.t :=
  AuditRow.mk (AuditIn.project_id a) (AuditIn.item_id a) (AuditIn.role a) (AuditIn.model a) (AuditIn.prompt_hash a)
    (AuditIn.cache_hit a) (AuditIn.outcome a) (AuditIn.output a) (AuditIn.latency_ms a) now.

Definition record (now : Z) (a : AuditIn.t) (d : db) : result (db * Z) :=
  if bool_decide (AuditIn.role a ∈ AUDIT_ROLES) && bool_decide (AuditIn.outcome a ∈ AUDIT_OUTCOMES) then
    let id := next_audit d in
    Ok (with_next_audit (id + 1) (with_llm_event (<[id := audit_row now a]> (llm_event d)) d), id)
  else Raise CheckViolation.

Definition audit_leb (a b : Z * AuditRow.t) : bool :=
  leb_of (then_by (desc (AuditRow.created_at a.2) (AuditRow.created_at b.2)) (desc a.1 b.1)).
Definition recent (p : Z) (role : string) (limit : Z) (d : db) : list (Z * AuditRow.t) :=
  limited audit_leb limit
    (rows_of (fun _ a => (AuditRow.project_id a =? p) && bool_decide (AuditRow.role a = role)) (llm_event d)).

(** ** The runtime switch *)

(** A role is on unless a row says otherwise. *)
Definition is_enabled (p : Z) (role : string) (d : db) : bool :=
  match llm_role_state d !! (p, role) with None => true | Some r => RoleStateRow.enabled r end.

Definition set_state (now p : Z) (role : string) (enabled : bool) (reason : option string)
    (stats : option (list (string * json))) (d : db) : db :=
  with_llm_role_state (<[(p, role) := RoleStateRow.mk enabled reason (default [] stats) now]> (llm_role_state d)) d.

Definition role_leb (a b : string * RoleStateRow.t) : bool := String.leb a.1 b.1.
Definition list_states (p : Z) (d : db) : list (string * RoleStateRow.t) :=
  pysorted role_leb ((fun kr => (kr.1.2, kr.2)) <$> rows_of (fun k _ => k.1 =? p) (llm_role_state d)).

(** ** The engine's view *)

(** The rows of the table are those of the engine's list. *)
Definition cache_of_store (d : db) (c : cache) : Prop := forall k, dget k c = llm_cache d !! k.

Lemma cache_lookup d c k r : cache_of_store d c -> dget k c = Some r -> llm_cache d !! k = Some r.
Proof. intros Hc <-. symmetry. apply Hc. Qed.

Lemma cache_insert d c k r : cache_of_store d c -> cache_of_store (with_llm_cache (<[k := r]> (llm_cache d)) d) (dset k r c).
Proof.
  intros Hc j. cbn. destruct (decide (j = k)) as [->|Hne].
  - by rewrite dget_dset_eq, lookup_insert_eq.
  - rewrite dget_dset_ne, lookup_insert_ne by congruence. apply Hc.
Qed.

(** Reading and writing the table is reading and writing the engine's cache. *)
Lemma get_fresh_refines now p key ttl d c :
  cache_of_store d c ->
  cache_of_store (get_fresh now p key ttl d).1 (LlmEngine.get_fresh c now p key ttl).1 /\
  (get_fresh now p key ttl d).2 = (LlmEngine.get_fresh c now p key ttl).2.
Proof.
  intros Hc. unfold get_fresh, bump_hits, LlmEngine.get_fresh. rewrite <- Hc.
  destruct (dget (p, key) c) as [r|]; [|done]. destruct (_ <=? _); cbn; [|done]. split; [|done]. by apply cache_insert.
Qed.

Lemma put_refines now p key role model output th d c :
  cache_of_store d c ->
  cache_of_store (put now p key role model output th d) (LlmEngine.put c now p key role model output th).
Proof. intros Hc. unfold put, LlmEngine.put. rewrite <- Hc. by apply cache_insert. Qed.
