(* ===== verification/TestStats.v ===== *)
(** * Test history and daily metrics

    [db/repositories/stats.py] and [ml/reporting.py]: the per-test counters an
    index write bumps, the nightly rollup of suggestion outcomes, and its store. *)

From S2P Require Import Prelude PyFloat PyStr Regex PyJson PyTime Features Decision Ingest LlmEngine Database Retrieval Knowledge.
From Stdlib Require Import ZArith Lia.

#[local] Open Scope string_scope.
#[local] Open Scope list_scope.
#[local] Open Scope Z_scope.

Import Db (suggestion, test_history_stats, metrics_daily, with_test_history_stats, with_metrics_daily).

(** ** Test history *)

Definition W09 : pyfloat := Eval vm_compute in dec 9 10.
Definition W01 : pyfloat := Eval vm_compute in dec 1 10.

(** [_bump]: the first observation, or the update of the row. *)
Definition _bump (p tch : Z) (failed : bool) (ts : Z) (d : db) : db :=
  let current := if failed then "failed" else "passed" in
  let opposite := if failed then "passed" else "failed" in
  let failure_inc := if failed then 1 else 0 in
  let row := match test_history_stats d !! (p, tch) with
             | None => HistRow.mk 1 failure_inc 0 current (if failed then Some ts else None) f0
             | Some s =>
                 let flip := if decide (HistRow.last_status s = opposite) then 1 else 0 in
                 HistRow.mk (HistRow.window_runs s + 1) (HistRow.window_failures s + failure_inc)
                   (HistRow.window_flips s + flip) current (if failed then Some ts else HistRow.last_failure_ts s)
                   (to_real (fadd (fmul (HistRow.flakiness_score s) W09) (fmul W01 (of_Z flip))))
             end in
  with_test_history_stats (<[(p, tch) := row]> (test_history_stats d)) d.

Definition bump_test_history (p tch : Z) (failed : bool) (ts : Z) (d : db) : db := _bump p tch failed ts d.

Definition get_test_history (p : Z) (hashes : list Z) (d : db) : gmap Z HistRow.t :=
  foldr (fun h m => match test_history_stats d !! (p, h) with Some r => <[h := r]> m | None => m end) ∅ hashes.

(** ** The rollup *)

(** [_base]: the first two characters that are letters, lower-cased.  A letter
    beyond ASCII is in no base label. *)
Definition _base (locator : ustr) : option string :=
  match locator with
  | [] => None
  | _ => let prefix := of_u (ulower_char <$> filter (fun c => aalpha c = true) (take 2 locator)) in
         if bool_decide (prefix ∈ BASE_LABELS) then Some prefix else None
  end.

(** The accumulator; [per_label] holds suggested, accepted, corrected. *)
Module Acc.
Record t := mk {
  suggestions : Z; accepted : Z; corrected : Z; ignored : Z; abstained : Z; auto_labeled : Z; auto_corrected : Z;
  per_label : list (string * (Z * Z * Z)); model_ver : option ustr
}.
End Acc.
Definition acc0 : Acc.t := Acc.mk 0 0 0 0 0 0 0 [] None.

Definition bump_bucket (outcome : string) (b : Z * Z * Z) : Z * Z * Z :=
  let '(s, a, c) := b in
  (s + 1, a + (if decide (outcome = "accepted") then 1 else 0), c + (if decide (outcome = "corrected") then 1 else 0)).

Definition one (b : bool) : Z := if b then 1 else 0.

Section Rollup.
Context `{PgVector}.

Definition accumulate (tau_auto : pyfloat) (a : Acc.t) (s : SugRow.t) : Acc.t :=
  let outcome := SugRow.outcome s in
  let base := _base (SugRow.predicted_label s) in
  let is_auto := bool_decide (is_Some base) && (tau_auto <=? read_real (SugRow.confidence s))%F in
  Acc.mk (Acc.suggestions a + 1)
    (Acc.accepted a + one (bool_decide (outcome = "accepted")))
    (Acc.corrected a + one (bool_decide (outcome = "corrected")))
    (Acc.ignored a + one (bool_decide (outcome = "ignored")))
    (Acc.abstained a + one (bool_decide (base = None)))
    (Acc.auto_labeled a + one is_auto)
    (Acc.auto_corrected a + one (is_auto && bool_decide (outcome = "corrected")))
    (match base with
     | Some b => dset b (bump_bucket outcome (dgetd b (0, 0, 0) (Acc.per_label a))) (Acc.per_label a)
     | None => Acc.per_label a
     end)
    (match SugRow.model_ver s with [] => Acc.model_ver a | v => Some v end).

Definition metrics_key (s : SugRow.t) : Z * Z := (SugRow.project_id s, day_number (SugRow.created_at s)).

Definition metrics_leb (a b : DailyMetrics.t) : bool :=
  (DailyMetrics.project_id a <? DailyMetrics.project_id b) ||
  (DailyMetrics.project_id a =? DailyMetrics.project_id b) && (DailyMetrics.day a <=? DailyMetrics.day b).

Definition of_acc (emb_model_ver : option ustr) (ka : Z * Z * Acc.t) : DailyMetrics.t :=
  let '(k, a) := ka in
  DailyMetrics.mk k.1 k.2 (Acc.suggestions a) (Acc.accepted a) (Acc.corrected a) (Acc.ignored a) (Acc.abstained a)
    (Acc.auto_labeled a) (Acc.auto_corrected a) (Acc.per_label a) (Acc.model_ver a) emb_model_ver.

Definition accumulators (tau_auto : pyfloat) (suggestions : list SugRow.t) : list (Z * Z * Acc.t) :=
  fold_left (fun accs s => dset (metrics_key s) (accumulate tau_auto (dgetd (metrics_key s) acc0 accs) s) accs)
    suggestions [].

Definition aggregate_daily (tau_auto : pyfloat) (emb_model_ver : option ustr) (suggestions : list SugRow.t)
    : list DailyMetrics.t :=
  pysorted metrics_leb (of_acc emb_model_ver <$> accumulators tau_auto suggestions).

End Rollup.

(** ** The rollup's store *)

(** [created_at >= day AND created_at < day + 1]. *)
Definition fetch_suggestions_for_day (day : Z) (d : db) : list SugRow.t :=
  snd <$> rows_of (fun _ s => (day * US_PER_DAY <=? SugRow.created_at s) && (SugRow.created_at s <? (day + 1) * US_PER_DAY))
            (suggestion d).

Definition upsert_daily_metrics (m : DailyMetrics.t) (d : db) : db :=
  with_metrics_daily (<[(DailyMetrics.project_id m, DailyMetrics.day m) := m]> (metrics_daily d)) d.

(** [ORDER BY day] between two days. *)
Definition get_metrics (p frm to : Z) (d : db) : list DailyMetrics.t :=
  pysorted (fun a b => DailyMetrics.day a <=? DailyMetrics.day b)
    (snd <$> rows_of (fun k _ => (k.1 =? p) && (frm <=? k.2) && (k.2 <=? to)) (metrics_daily d)).

Definition sum_of (f : DailyMetrics.t -> Z) (ms : list DailyMetrics.t) : Z := foldr (fun m s => f m + s) 0 ms.

(** [metrics_summary]: the totals since a day, and the last day with a row. *)
Definition metrics_summary (since : Z) (d : db) : list (string * Z) * option Z :=
  let ms := snd <$> rows_of (fun k _ => since <=? k.2) (metrics_daily d) in
  ([("suggestions", sum_of DailyMetrics.suggestions ms); ("accepted", sum_of DailyMetrics.accepted ms);
    ("corrected", sum_of DailyMetrics.corrected ms); ("ignored", sum_of DailyMetrics.ignored ms);
    ("abstained", sum_of DailyMetrics.abstained ms); ("auto_labeled", sum_of DailyMetrics.auto_labeled ms);
    ("auto_corrected", sum_of DailyMetrics.auto_corrected ms)],
   match DailyMetrics.day <$> ms with [] => None | x :: xs => Some (fold_left Z.max xs x) end).

(** [MetricsDailyJob.run]. *)
Definition run_metrics `{PgVector} (emb_model_ver : option ustr) (day : Z) (d : db) : db * list DailyMetrics.t :=
  let metrics := aggregate_daily TAU_AUTO emb_model_ver (fetch_suggestions_for_day day d) in
  (fold_left (fun d m => upsert_daily_metrics m d) metrics d, metrics).

(** ** The rollup against the rows it counts *)

Definition tally (P : SugRow.t -> bool) (rows : list SugRow.t) : Z := foldr (fun s n => one (P s) + n) 0 rows.

Definition has_outcome (o : string) (s : SugRow.t) : bool := bool_decide (SugRow.outcome s = o).
Definition has_base (b : option string) (s : SugRow.t) : bool := bool_decide (_base (SugRow.predicted_label s) = b).

Lemma tally_bounds P rows : 0 <= tally P rows <= Z.of_nat (length rows).
Proof. induction rows as [|s rows IH]; cbn [tally foldr length]; [lia|]. unfold tally in IH. destruct (P s); cbn [one]; lia. Qed.

(** Conditions that exclude each other count no more than the rows. *)
Lemma tally_le P Q rows : (forall s, P s = true -> Q s = true) -> tally P rows <= tally Q rows.
Proof.
  intros HPQ. induction rows as [|s rows IH]; cbn [tally foldr]; [lia|]. unfold tally in IH.
  destruct (P s) eqn:E; [rewrite (HPQ s E)|destruct (Q s)]; cbn [one]; lia.
Qed.
Lemma tally_orb P Q rows : (forall s, P s && Q s = false) -> tally (fun s => P s || Q s) rows = tally P rows + tally Q rows.
Proof.
  intros HPQ. induction rows as [|s rows IH]; cbn [tally foldr]; [lia|]. unfold tally in IH. specialize (HPQ s).
  destruct (P s), (Q s); cbn [one orb andb] in *; try done; lia.
Qed.

Lemma _base_labels l b : _base l = Some b -> b ∈ BASE_LABELS.
Proof. unfold _base. destruct l; [done|]. case_bool_decide; [|done]. by intros [= <-]. Qed.

Lemma one_decide s o : (if decide (SugRow.outcome s = o) then 1 else 0) = one (has_outcome o s).
Proof. unfold one, has_outcome. by case_decide; case_bool_decide. Qed.

Section RollupSpec.
Context `{PgVector}.
Variables (tau : pyfloat) (ver : option ustr).

Definition is_auto (s : SugRow.t) : bool :=
  bool_decide (is_Some (_base (SugRow.predicted_label s))) && (tau <=? read_real (SugRow.confidence s))%F.

(** What a day's report says of the day's rows. *)
Record reports (rows : list SugRow.t) (a : Acc.t) : Prop := {
  rep_suggestions : Acc.suggestions a = Z.of_nat (length rows);
  rep_accepted : Acc.accepted a = tally (has_outcome "accepted") rows;
  rep_corrected : Acc.corrected a = tally (has_outcome "corrected") rows;
  rep_ignored : Acc.ignored a = tally (has_outcome "ignored") rows;
  rep_abstained : Acc.abstained a = tally (has_base None) rows;
  rep_auto : Acc.auto_labeled a = tally is_auto rows;
  rep_auto_corrected : Acc.auto_corrected a = tally (fun s => is_auto s && has_outcome "corrected" s) rows;
  rep_label : forall b, dgetd b (0, 0, 0) (Acc.per_label a) =
    (tally (has_base (Some b)) rows, tally (fun s => has_base (Some b) s && has_outcome "accepted" s) rows,
     tally (fun s => has_base (Some b) s && has_outcome "corrected" s) rows);
  rep_version : Acc.model_ver a = last (filter (fun v => v <> []) (SugRow.model_ver <$> rows))
}.

Lemma tally_snoc P rows s : tally P (rows ++ [s]) = tally P rows + one (P s).
Proof. unfold tally. induction rows as [|x rows IH]; cbn [app foldr]; [lia|]. rewrite IH. lia. Qed.

Lemma reports_snoc rows a s : reports rows a -> reports (rows ++ [s]) (accumulate tau a s).
Proof.
  intros [E1 E2 E3 E4 E5 E6 E7 E8 E9]. split; cbn [accumulate Acc.suggestions Acc.accepted Acc.corrected Acc.ignored
    Acc.abstained Acc.auto_labeled Acc.auto_corrected Acc.per_label Acc.model_ver].
  2-4: rewrite tally_snoc, ?E2, ?E3, ?E4; reflexivity.
  2: rewrite tally_snoc, E5; do 2 f_equal; by apply bool_decide_ext.
  2-3: rewrite tally_snoc, ?E6, ?E7; reflexivity.
  - rewrite E1, length_app. cbn. lia.
  - intros b. rewrite !tally_snoc. destruct (_base (SugRow.predicted_label s)) as [b'|] eqn:Eb.
    + unfold dgetd. destruct (decide (b' = b)) as [->|Hne].
      * assert (has_base (Some b) s = true) as -> by (by apply bool_decide_eq_true_2).
        rewrite dget_dset_eq. cbn [default]. fold (dgetd b (0, 0, 0) (Acc.per_label a)). rewrite E8. cbn [bump_bucket andb].
        by rewrite !one_decide.
      * assert (has_base (Some b) s = false) as -> by (apply bool_decide_eq_false_2; congruence).
        rewrite dget_dset_ne by done. fold (dgetd b (0, 0, 0) (Acc.per_label a)). rewrite E8.
        cbn [one andb]. by rewrite !Z.add_0_r.
    + assert (has_base (Some b) s = false) as -> by (apply bool_decide_eq_false_2; congruence).
      cbn [one andb]. rewrite E8. by rewrite !Z.add_0_r.
  - rewrite fmap_app, filter_app. cbn [fmap list_fmap]. destruct (SugRow.model_ver s) as [|c v] eqn:Ev.
    + rewrite filter_cons_False by (by intros []). by rewrite app_nil_r.
    + rewrite filter_cons_True, filter_nil, last_snoc by done. done.
Qed.

Lemma reports_all rows : reports rows (fold_left (accumulate tau) rows acc0).
Proof.
  induction rows as [|s rows IH] using rev_ind; [by split|]. rewrite fold_left_app. by apply reports_snoc.
Qed.

(** Accumulating per key is accumulating each key's rows. *)
Definition rows_at (k : Z * Z) (ss : list SugRow.t) : list SugRow.t := filter (fun s => metrics_key s = k) ss.

Lemma accumulators_from k ss accs :
  dget k (fold_left (fun accs s => dset (metrics_key s) (accumulate tau (dgetd (metrics_key s) acc0 accs) s) accs) ss accs) =
  match rows_at k ss with
  | [] => dget k accs
  | rows => Some (fold_left (accumulate tau) rows (dgetd k acc0 accs))
  end.
Proof.
  unfold rows_at. revert accs. induction ss as [|s ss IH]; intros accs; [done|]. cbn [fold_left]. rewrite IH. clear IH.
  destruct (decide (metrics_key s = k)) as [<-|Hk].
  - rewrite filter_cons_True by done. unfold dgetd. rewrite !dget_dset_eq. cbn [default]. by destruct (filter _ ss).
  - rewrite filter_cons_False by done. unfold dgetd. by rewrite dget_dset_ne.
Qed.

Lemma accumulators_at k ss :
  dget k (accumulators tau ss) =
  match rows_at k ss with [] => None | rows => Some (fold_left (accumulate tau) rows acc0) end.
Proof. apply accumulators_from. Qed.

Lemma accumulators_step ss s :
  accumulators tau (ss ++ [s]) =
  dset (metrics_key s) (accumulate tau (dgetd (metrics_key s) acc0 (accumulators tau ss)) s) (accumulators tau ss).
Proof. unfold accumulators. by rewrite fold_left_app. Qed.

Lemma accumulators_NoDup ss : NoDup (accumulators tau ss).*1.
Proof.
  induction ss as [|s ss IH] using rev_ind; [constructor|]. rewrite accumulators_step. by apply dset_NoDup.
Qed.

Lemma accumulators_total ss :
  foldr (fun ka n => Acc.suggestions ka.2 + n) 0 (accumulators tau ss) = Z.of_nat (length ss).
Proof.
  induction ss as [|s ss IH] using rev_ind; [done|]. rewrite accumulators_step, length_app.
  rewrite (sum_dset Acc.suggestions acc0) by done. rewrite IH. cbn [accumulate Acc.suggestions length]. lia.
Qed.

Lemma metrics_leb_total a b : metrics_leb a b = false -> metrics_leb b a = true.
Proof.
  unfold metrics_leb. rewrite orb_false_iff, orb_true_iff, andb_true_iff, andb_false_iff.
  rewrite !Z.ltb_lt, !Z.ltb_ge, !Z.eqb_eq, !Z.eqb_neq, !Z.leb_le, !Z.leb_gt. lia.
Qed.
Lemma metrics_leb_transitive a b c : metrics_leb a b = true -> metrics_leb b c = true -> metrics_leb a c = true.
Proof. unfold metrics_leb. rewrite !orb_true_iff, !andb_true_iff, !Z.ltb_lt, !Z.eqb_eq, !Z.leb_le. lia. Qed.

Definition report_key (m : DailyMetrics.t) : Z * Z := (DailyMetrics.project_id m, DailyMetrics.day m).

Lemma elem_of_aggregate m ss :
  m ∈ aggregate_daily tau ver ss <->
  rows_at (report_key m) ss <> [] /\ m = of_acc ver (report_key m, fold_left (accumulate tau) (rows_at (report_key m) ss) acc0).
Proof.
  unfold aggregate_daily. rewrite elem_of_pysorted, list_elem_of_fmap. split.
  - intros ([k a] & -> & Hin). pose proof (elem_dget _ _ _ (accumulators_NoDup ss) Hin) as Hk.
    rewrite accumulators_at in Hk. change (report_key (of_acc ver (k, a))) with (k.1, k.2). rewrite <- surjective_pairing.
    destruct (rows_at k ss); [done|]. injection Hk as <-. done.
  - intros [Hr Hm]. eexists. split; [exact Hm|]. apply dget_elem. rewrite accumulators_at. by destruct (rows_at _ ss).
Qed.

Lemma report_key_of_acc ka : report_key (of_acc ver ka) = ka.1.
Proof. by destruct ka as [[p d] a]. Qed.

Lemma aggregate_NoDup ss : NoDup (report_key <$> aggregate_daily tau ver ss).
Proof.
  unfold aggregate_daily. rewrite (pysorted_perm metrics_leb), <- list_fmap_compose.
  erewrite fmap_ext_in; [apply (accumulators_NoDup ss)|]. intros ka _. apply report_key_of_acc.
Qed.

Lemma sum_of_perm f l1 l2 : l1 ≡ₚ l2 -> sum_of f l1 = sum_of f l2.
Proof. unfold sum_of. induction 1; cbn [foldr]; lia. Qed.

Lemma aggregate_total ss : sum_of DailyMetrics.suggestions (aggregate_daily tau ver ss) = Z.of_nat (length ss).
Proof.
  unfold aggregate_daily. rewrite (sum_of_perm _ _ _ (pysorted_perm metrics_leb _)), <- accumulators_total. unfold sum_of.
  induction (accumulators tau ss) as [|[k a] l IH]; [done|]. cbn [fmap list_fmap foldr]. by rewrite IH.
Qed.
End RollupSpec.

(** The daily report counts each suggestion once and under its own day: one
    report per project and day, in order; a report's counters are the tallies of
    that day's rows (outcomes, abstentions, automatic labels, per base label); the
    reports together count every row; and no counter exceeds what it is a part of
    -- in particular the corrected automatic labels, the safety metric, are among
    the automatic labels and among the corrections. *)
Theorem daily_report_exact `{PgVector} (tau : pyfloat) (ver : option ustr) (ss : list SugRow.t) :
  let ms := aggregate_daily tau ver ss in
  StronglySorted (fun a b => metrics_leb a b = true) ms /\ NoDup (report_key <$> ms) /\
  sum_of DailyMetrics.suggestions ms = Z.of_nat (length ss) /\
  (forall s, s ∈ ss -> metrics_key s ∈ report_key <$> ms) /\
  forall m, m ∈ ms ->
    (exists a, reports tau (rows_at (report_key m) ss) a /\ m = of_acc ver (report_key m, a)) /\
    DailyMetrics.accepted m + DailyMetrics.corrected m + DailyMetrics.ignored m <= DailyMetrics.suggestions m /\
    DailyMetrics.auto_labeled m + DailyMetrics.abstained m <= DailyMetrics.suggestions m /\
    DailyMetrics.auto_corrected m <= Z.min (DailyMetrics.auto_labeled m) (DailyMetrics.corrected m).
Proof.
  split_and!.
  - apply pysorted_sorted; [apply metrics_leb_total|apply metrics_leb_transitive].
  - apply aggregate_NoDup.
  - apply aggregate_total.
  - intros s Hs. apply list_elem_of_fmap. set (k := metrics_key s).
    exists (of_acc ver (k, fold_left (accumulate tau) (rows_at k ss) acc0)). rewrite report_key_of_acc. split; [done|].
    apply elem_of_aggregate. rewrite report_key_of_acc. split; [|done]. cbn [fst].
    intros E. apply (not_elem_of_nil s). rewrite <- E. by apply list_elem_of_filter.
  - intros m [_ Hm]%elem_of_aggregate. set (rows := rows_at (report_key m) ss) in *.
    pose proof (reports_all tau rows) as Hr. split; [by eexists|]. rewrite Hm. destruct Hr as [E1 E2 E3 E4 E5 E6 E7 _ _].
    cbn [of_acc DailyMetrics.accepted DailyMetrics.corrected DailyMetrics.ignored DailyMetrics.suggestions
         DailyMetrics.auto_labeled DailyMetrics.abstained DailyMetrics.auto_corrected].
    rewrite E1, E2, E3, E4, E5, E6, E7. split_and!.
    + rewrite <- !tally_orb; [apply tally_bounds|..]; intros s; unfold has_outcome;
        repeat case_bool_decide; try done; congruence.
    + rewrite <- tally_orb; [apply tally_bounds|]. intros s. unfold is_auto, has_base.
      destruct (_base (SugRow.predicted_label s)); [by rewrite andb_false_r|done].
    + apply Z.min_glb; apply tally_le; intros s; by intros [? ?]%andb_true_iff.
Qed.

(** ** The daily job *)

Lemma stored_all ms d k :
  NoDup (report_key <$> ms) ->
  metrics_daily (fold_left (fun d m => upsert_daily_metrics m d) ms d) !! k =
  match list_find (fun m => report_key m = k) ms with Some (_, m) => Some m | None => metrics_daily d !! k end.
Proof.
  revert d. induction ms as [|m ms IH]; intros d Hnd; [done|]. cbn [fold_left fmap list_fmap] in *.
  apply NoDup_cons in Hnd as [Hm Hnd]. rewrite IH by done. cbn [list_find].
  destruct (decide (report_key m = k)) as [<-|Hk].
  - destruct (list_find _ ms) as [[i m']|] eqn:E; cbn.
    + apply list_find_Some in E as (Hi & Hk & _). destruct Hm. rewrite <- Hk.
      by apply list_elem_of_fmap_2, list_elem_of_lookup_2 with i.
    + by rewrite lookup_insert_eq.
  - destruct (list_find _ ms) as [[i m']|]; cbn; [done|]. by rewrite lookup_insert_ne.
Qed.

Lemma suggestions_kept ms d : suggestion (fold_left (fun d m => upsert_daily_metrics m d) ms d) = suggestion d.
Proof. revert d. induction ms as [|m ms IH]; intros d; [done|]. cbn [fold_left]. by rewrite IH. Qed.

Lemma fetched_day day d s : s ∈ fetch_suggestions_for_day day d -> (metrics_key s).2 = day.
Proof.
  unfold fetch_suggestions_for_day. intros ([id x] & -> & [_ HP]%elem_of_map_to_list%lookup_keep)%list_elem_of_fmap.
  cbn in HP |- *. apply andb_true_iff in HP as [H1%Z.leb_le H2%Z.ltb_lt]. unfold day_number.
  symmetry. apply (Z.div_unique _ _ _ (SugRow.created_at x - day * US_PER_DAY)); [|lia].
  left. unfold US_PER_DAY, US_PER_SECOND in *. lia.
Qed.

Lemma insert_all_again ms d : NoDup (report_key <$> ms) ->
  (forall m, m ∈ ms -> metrics_daily d !! report_key m = Some m) -> fold_left (fun d m => upsert_daily_metrics m d) ms d = d.
Proof.
  intros Hnd Hd. induction ms as [|m ms IH]; [done|]. cbn [fold_left fmap list_fmap] in *.
  assert (upsert_daily_metrics m d = d) as ->.
  { unfold upsert_daily_metrics. change (DailyMetrics.project_id m, DailyMetrics.day m) with (report_key m).
    rewrite insert_id by (apply Hd; by left). by destruct d. }
  apply NoDup_cons in Hnd as [_ Hnd]. apply IH; [done|]. intros x Hx. apply Hd. by right.
Qed.

(** The nightly job may run again: the second run stores the same rows and changes
    nothing; and it writes only the rows of its own day. *)
Theorem metrics_job_idempotent `{PgVector} (ver : option ustr) (day : Z) (d : db) :
  let d' := (run_metrics ver day d).1 in
  run_metrics ver day d' = run_metrics ver day d /\
  forall p day', day' <> day -> metrics_daily d' !! (p, day') = metrics_daily d !! (p, day').
Proof.
  cbv zeta. unfold run_metrics. cbn [fst]. set (ss := fetch_suggestions_for_day day d).
  set (ms := aggregate_daily TAU_AUTO ver ss). set (d' := fold_left _ ms d).
  assert (fetch_suggestions_for_day day d' = ss) as -> by (unfold fetch_suggestions_for_day, d'; by rewrite suggestions_kept).
  fold ms. pose proof (aggregate_NoDup TAU_AUTO ver ss : NoDup (report_key <$> ms)) as Hnd. split.
  - enough (fold_left (fun d m => upsert_daily_metrics m d) ms d' = d') as -> by done.
    apply insert_all_again; [done|]. intros m Hm.
    unfold d'. rewrite stored_all by done. destruct (list_find _ ms) as [[i x]|] eqn:E.
    + apply list_find_Some in E as (Hi%list_elem_of_lookup_2 & Hk & _). f_equal. by eapply (NoDup_fmap_elem_inj report_key).
    + apply list_find_None in E. rewrite Forall_forall in E. by destruct (E m Hm).
  - intros p day' Hne. unfold d'. rewrite stored_all by done. destruct (list_find _ ms) as [[i x]|] eqn:E; [|done].
    apply list_find_Some in E as (Hi%list_elem_of_lookup_2 & Hk & _). apply elem_of_aggregate in Hi as [Hr _].
    rewrite Hk in Hr. destruct (rows_at (p, day') ss) as [|s rows] eqn:Er; [done|].
    assert (s ∈ rows_at (p, day') ss) as Hs by (rewrite Er; by left).
    apply list_elem_of_filter in Hs as [Hs Hin]. apply fetched_day in Hin. rewrite Hs in Hin. done.
Qed.
