(* ===== verification/HybridSearch.v ===== *)
(** * Hybrid retrieval

    The queries of [db/repositories/queries.py] and the methods of
    [db/repositories/retrieval.py] that run them: a lexical and a dense ranking of
    at most fifty items each, fused by reciprocal ranks, filtered and rendered as
    candidates.  Full-text ranks and trigram similarity are the database's, the
    class [PgSearch]; the vector index is taken as exact. *)

From S2P Require Import Prelude PyFloat FloatQuot PyStr Regex PyText PyJson Ingest LlmEngine Models Database Retrieval Knowledge.
From Stdlib Require Import ZArith Lia.

#[local] Open Scope string_scope.
#[local] Open Scope list_scope.
#[local] Open Scope Z_scope.

Import Db (test_item, failure_signature, failure_mode).

Class PgSearch := {
  ts_rank : SigIn.t -> ustr -> option pyfloat;    (* of a row that matches the query text *)
  trgm_match : ustr -> ustr -> bool;              (* the operator % *)
  similarity : ustr -> ustr -> pyfloat
}.

Definition LIST_LIMIT : Z := 50.
Definition RRF_K : Z := 60.
(** The scale of [1.0 / n] for the divisors that occur: twenty decimals. *)
Definition RRF_UNITS : Z := Eval vm_compute in 10 ^ 20.

(** The 1-based rank of each row. *)
Fixpoint ranked_from {A} (n : Z) (l : list A) : list (A * Z) :=
  match l with [] => [] | x :: l' => (x, n) :: ranked_from (n + 1) l' end.
Definition ranked {A} (l : list A) : list (A * Z) := ranked_from 1 l.

(** [ORDER BY score DESC, item_id DESC]. *)
Definition score_desc (a b : Z * pyfloat) : bool := leb_of (then_by (pg_compare b.2 a.2) (desc a.1 b.1)).
(** [ORDER BY distance, item_id DESC]. *)
Definition distance_asc (a b : Z * pyfloat) : bool := leb_of (then_by (pg_compare a.2 b.2) (desc a.1 b.1)).

(** [1.0 / (60 + rank)], rounded to its scale, in units; 0 without a rank. *)
Definition rrf_term (rank : option Z) : Z :=
  match rank with Some r => (2 * RRF_UNITS + (RRF_K + r)) / (2 * (RRF_K + r)) | None => 0 end.

Module Hit.
Record t := mk {
  item_id : Z; sparse_rank : option Z; dense_rank : option Z; lex_score : option pyfloat; cosine : option pyfloat;
  rrf : Z                          (* in units of the twentieth decimal *)
}.
End Hit.

Definition hit_leb (a b : Hit.t) : bool := newer Hit.rrf Hit.item_id a b.

(** [sparse FULL OUTER JOIN dense USING (item_id)]. *)
Definition fuse (sparse dense : list (Z * pyfloat * Z)) : list Hit.t :=
  let in_dense i := List.find (fun d : Z * pyfloat * Z => d.1.1 =? i) dense in
  let in_sparse i := List.find (fun s : Z * pyfloat * Z => s.1.1 =? i) sparse in
  let hit i (s d : option (Z * pyfloat * Z)) :=
    let l_rank := snd <$> s in
    let d_rank := snd <$> d in
    Hit.mk i l_rank d_rank ((fun x => x.1.2) <$> s) ((fun x => fsub f1 x.1.2) <$> d) (rrf_term l_rank + rrf_term d_rank) in
  ((fun s => hit s.1.1 (Some s) (in_dense s.1.1)) <$> sparse) ++
  omap (fun d => match in_sparse d.1.1 with Some _ => None | None => Some (hit d.1.1 None (Some d)) end) dense.

Module Filters.
Record t := mk {
  exclude_item_ids : list Z; exclude_launch_ids : list Z; min_label_ts : option Z; issue_type_groups : list string
}.
End Filters.

Section Search.
Context `{PgVector, PgSearch}.

(** The three rankings of the project's joined rows under a condition. *)
Definition top (leb : Z * pyfloat -> Z * pyfloat -> bool) (l : list (Z * pyfloat)) : list (Z * pyfloat * Z) :=
  ranked (limited leb LIST_LIMIT l).

Definition lex (rows : list (Z * SigRow.t * ItemRow.t)) (terms : ustr) : list (Z * pyfloat * Z) :=
  top score_desc (omap (fun r => (fun x => (r.1.1, x)) <$> ts_rank (SigRow.data r.1.2) terms) rows).
Definition lex_trgm (rows : list (Z * SigRow.t * ItemRow.t)) (names : ustr) : list (Z * pyfloat * Z) :=
  top score_desc (omap (fun r => let text := SigIn.exc_text (SigRow.data r.1.2) in
    if negb (bool_decide (names = [])) && trgm_match text names then Some (r.1.1, similarity text names) else None) rows).
Definition sparse (rows : list (Z * SigRow.t * ItemRow.t)) (q : Query.t) : list (Z * pyfloat * Z) :=
  match lex rows (ujoin [32%N] (Query.salient_terms q)) with
  | [] => lex_trgm rows (ujoin [32%N] (Query.exception_names q))
  | l => l
  end.
Definition dense (rows : list (Z * SigRow.t * ItemRow.t)) (q : Query.t) : list (Z * pyfloat * Z) :=
  top distance_asc (omap (fun r => let s := SigRow.data r.1.2 in
    if SigIn.emb_model_ver s =? Query.emb_model_ver q then
      (fun e => (r.1.1, vec_distance e (query_vec q))) <$> SigIn.emb s
    else None) rows).

(** [ORDER BY rrf_score DESC, item_id DESC LIMIT k]. *)
Definition hits (rows : list (Z * SigRow.t * ItemRow.t)) (q : Query.t) (k : Z) : list Hit.t :=
  limited hit_leb k (fuse (sparse rows q) (dense rows q)).

(** [float(rrf_score)]. *)
Definition rrf_float (h : Hit.t) : pyfloat := int_quot (Hit.rrf h) RRF_UNITS.

(** [array_jaccard]. *)
Definition array_jaccard (a b : list Z) : pyfloat := to_real (python_jaccard a b).

Definition launch_distance (q : Query.t) (r : ItemRow.t) : option Z :=
  (fun n => Z.abs (n - TestItemIn.launch_number (ItemRow.data r))) <$> Query.launch_number q.

Definition _row_to_candidate (p : Z) (q : Query.t) (d : db) (h : Hit.t) (s : SigIn.t) (r : ItemRow.t) : Candidate.t :=
  let i := Hit.item_id h in
  let event := latest_event p i d in
  let c := Candidate.default (Some i) (member_mode_id p i d) in
  Candidate.mk (Some i) (Candidate.mode_id c) (Hit.dense_rank h) (Hit.sparse_rank h) (rrf_float h) (Hit.cosine h)
    (read_real <$> Hit.lex_score h) (read_real (array_jaccard (SigIn.template_ids s) (Query.template_ids q)))
    (of_u <$> ItemRow.issue_type r) (label_source event) (EventRow.ts <$> event)
    (bool_decide (is_Some (Query.test_case_hash q) /\ Query.test_case_hash q = TestItemIn.test_case_hash (ItemRow.data r)))
    (SigIn.error_hash s =? Query.error_hash q) (SigIn.exception_fp s =? Query.exception_fp q)
    (of_u (SigIn.msg_text s)) (of_u (SigIn.exc_text s)) (launch_distance q r) (Some (ItemRow.launch_id r))
    (Candidate.launch_name c) (Candidate.mode_status c) (Candidate.mode_purity c) (Candidate.mode_support c)
    (Candidate.matched_by c) (Candidate.relevant_log_id c).

Definition listed (x : option Z) (l : list Z) : bool := match x with Some i => bool_decide (i ∈ l) | None => false end.

(** The loop of [_stage_b]: what the filters let through. *)
Definition admitted (f : Filters.t) (c : Candidate.t) : bool :=
  negb (listed (Candidate.item_id c) (Filters.exclude_item_ids f)) &&
  negb (listed (Candidate.launch_id c) (Filters.exclude_launch_ids f)) &&
  match Filters.min_label_ts f with
  | Some t => match Candidate.label_ts c with Some ts => t <=? ts | None => false end
  | None => true
  end &&
  match Filters.issue_type_groups f with
  | [] => true
  | groups => bool_decide (stake 2 (default "" (Candidate.issue_type c)) ∈ groups)
  end.

(** The rows of the decision path: labelled, and not to be investigated. *)
Definition evidence_rows (p : Z) (d : db) : list (Z * SigRow.t * ItemRow.t) :=
  joined p (fun _ _ r => labelled (ItemRow.issue_type r)) d.

Definition candidate_of_hit (p : Z) (q : Query.t) (d : db) (h : Hit.t) : option Candidate.t :=
  match failure_signature d !! (p, Hit.item_id h), test_item d !! (p, Hit.item_id h) with
  | Some s, Some r => Some (_row_to_candidate p q d h (SigRow.data s) r)
  | _, _ => None
  end.

Definition _stage_b (p : Z) (q : Query.t) (k : Z) (f : Filters.t) (d : db) : list Candidate.t :=
  List.filter (admitted f) (omap (candidate_of_hit p q d) (hits (evidence_rows p d) q k)).

(** The modes first, then the items: [(stage_a + stage_b)[: k + 10]]. *)
Definition find_candidates (p : Z) (q : Query.t) (k : Z) (f : Filters.t) (d : db) : list Candidate.t :=
  slice_to (k + 10) (match_modes p q 10 d ++ _stage_b p q k f d).

(** The rows of the search route: still to be investigated, in the given launches,
    without the item itself. *)
Definition is_ti (r : ItemRow.t) : bool := bool_decide (ItemRow.issue_type r ≫= issue_type_group = Some (u "ti")).
Definition ti_rows (p : Z) (launches : list Z) (self : Z) (d : db) : list (Z * SigRow.t * ItemRow.t) :=
  joined p (fun i _ r => is_ti r && negb (i =? self) &&
                         (bool_decide (launches = []) || bool_decide (ItemRow.launch_id r ∈ launches))) d.

Definition search_candidate (p : Z) (q : Query.t) (d : db) (h : Hit.t) : option Candidate.t :=
  let i := Hit.item_id h in
  match failure_signature d !! (p, i), test_item d !! (p, i) with
  | Some s, Some r =>
      let c := Candidate.default (Some i) None in
      Some (Candidate.mk (Some i) None (Hit.dense_rank h) (Hit.sparse_rank h) (rrf_float h) (Hit.cosine h)
        (read_real <$> Hit.lex_score h) (Candidate.jaccard_templates c) (Candidate.issue_type c) (Candidate.label_source c)
        (Candidate.label_ts c) (Candidate.same_test_case c) (Candidate.same_error_hash c) (Candidate.same_exception_fp c)
        (Candidate.msg_text c) (Candidate.exc_text c) (launch_distance q r) (Some (ItemRow.launch_id r))
        (Candidate.launch_name c) (Candidate.mode_status c) (Candidate.mode_purity c) (Candidate.mode_support c)
        (Candidate.matched_by c) (SigRow.error_log_id s))
  | _, _ => None
  end.

Definition search_ti_candidates (p : Z) (q : Query.t) (k : Z) (launches : list Z) (self : Z) (d : db) : list Candidate.t :=
  omap (search_candidate p q d) (hits (ti_rows p launches self d) q k).

(** ** What the rankings hold *)

Lemma joined_in p P d i s r :
  (i, s, r) ∈ joined p P d <->
  failure_signature d !! (p, i) = Some s /\ test_item d !! (p, i) = Some r /\ P i s r = true.
Proof.
  unfold joined. rewrite list_elem_of_omap. split.
  - intros ([[q j] x] & Hk & E). apply elem_of_map_to_list, lookup_keep in Hk as [Hk Hq]. cbn in Hq, E.
    apply Z.eqb_eq in Hq as ->. destruct (test_item d !! (p, j)) as [y|] eqn:Ey; [|done].
    destruct (P j x y) eqn:HP; [|done]. by injection E as <- <- <-.
  - intros (Hs & Hi & HP). exists ((p, i), s). split.
    + apply elem_of_map_to_list, lookup_keep. cbn. by rewrite Z.eqb_refl.
    + cbn. by rewrite Hi, HP.
Qed.

Lemma joined_NoDup p P d : NoDup ((fun x => x.1.1) <$> joined p P d).
Proof.
  unfold joined, rows_of.
  assert (forall l : list (Z * Z * SigRow.t), NoDup l.*1 -> Forall (fun kx => kx.1.1 = p) l ->
    NoDup ((fun x : Z * SigRow.t * ItemRow.t => x.1.1) <$> omap (fun ks =>
      match test_item d !! ks.1 with Some r => if P ks.1.2 ks.2 r then Some (ks.1.2, ks.2, r) else None | None => None end) l)) as Hl.
  { intros l. induction l as [|[[q i] s] l IH]; [constructor|]. intros [Hi Hnd]%NoDup_cons [Hq Hall]%Forall_cons.
    cbn in Hq. subst q. specialize (IH Hnd Hall). csimpl. destruct (test_item d !! (p, i)) as [r|] eqn:E; [|done].
    destruct (P i s r); [|done]. csimpl. constructor; [|done]. intros ([[j s'] r'] & Ej & Hin)%list_elem_of_fmap.
    cbn in Ej. subst j. apply list_elem_of_omap in Hin as ([[q j] x] & Hin & E').
    rewrite Forall_forall in Hall. pose proof (Hall _ Hin) as Hq. cbn in Hq, E'. subst q.
    destruct (test_item d !! (p, j)); [|done]. destruct (P j x t); [|done]. injection E' as -> _ _.
    apply Hi. by apply (list_elem_of_fmap_2 fst _ _ Hin). }
  apply Hl; [apply NoDup_fst_map_to_list|]. apply Forall_forall.
  intros [k x] Hin. apply elem_of_map_to_list, lookup_keep in Hin as [_ Hq]. by apply Z.eqb_eq.
Qed.

Lemma ranked_from_fst {A} n (l : list A) : (ranked_from n l).*1 = l.
Proof. revert n. induction l as [|x l IH]; intros n; [done|]. cbn. by rewrite IH. Qed.
Lemma ranked_from_bounds {A} n (l : list A) x r : (x, r) ∈ ranked_from n l -> x ∈ l /\ n <= r < n + Z.of_nat (length l).
Proof.
  revert n. induction l as [|y l IH]; intros n; cbn [ranked_from length]; [by intros ?%elem_of_nil|].
  intros [[= -> ->]|[Hx Hr]%IH]%elem_of_cons; (split; [|lia]); [by left|by right].
Qed.

(** The keys of a ranking. *)
Definition keys (l : list (Z * pyfloat * Z)) : list Z := (fun x => x.1.1) <$> l.

Lemma top_in leb l x r : (x, r) ∈ top leb l -> x ∈ l /\ 1 <= r <= LIST_LIMIT.
Proof.
  unfold top, ranked, limited. intros [Hx Hr]%ranked_from_bounds. split.
  - apply elem_of_take in Hx as (n & Hn%list_elem_of_lookup_2 & _). by apply elem_of_pysorted in Hn.
  - rewrite length_take in Hr. unfold LIST_LIMIT in *. lia.
Qed.
Lemma top_NoDup leb l : NoDup l.*1 -> NoDup (keys (top leb l)).
Proof.
  unfold keys, top, ranked, limited. intros Hl.
  set (l' := ranked_from 1 _). assert ((fun x : Z * pyfloat * Z => x.1.1) <$> l' = (l'.*1).*1) as ->
    by (by rewrite <- list_fmap_compose). unfold l'. rewrite ranked_from_fst.
  apply (sublist_NoDup _ ((pysorted leb l).*1)).
  - by rewrite (pysorted_perm leb).
  - rewrite fmap_take. apply sublist_take.
Qed.

Lemma keyed_NoDup {A} (key : A -> Z) (f : A -> option (Z * pyfloat)) (rows : list A) :
  (forall a x, f a = Some x -> x.1 = key a) -> NoDup (key <$> rows) -> NoDup (omap f rows).*1.
Proof.
  intros Hf Hnd. apply (sublist_NoDup _ (key <$> rows)); [done|]. clear Hnd.
  induction rows as [|a rows IH]; [constructor|]. csimpl. destruct (f a) as [x|] eqn:E; csimpl; [|by constructor].
  rewrite (Hf a x E). by constructor.
Qed.

(** What the three rankings rank: rows, each once. *)
Definition ranks (rows : list (Z * SigRow.t * ItemRow.t)) (l : list (Z * pyfloat * Z)) : Prop :=
  NoDup (keys l) /\ forall i x n, (i, x, n) ∈ l -> i ∈ ((fun r => r.1.1) <$> rows) /\ 1 <= n <= LIST_LIMIT.

Lemma top_ranks rows leb f : (forall r x, f r = Some x -> x.1 = r.1.1) ->
  NoDup ((fun r : Z * SigRow.t * ItemRow.t => r.1.1) <$> rows) -> ranks rows (top leb (omap f rows)).
Proof.
  intros Hf Hnd. split.
  - apply top_NoDup. apply (keyed_NoDup (fun r => r.1.1)); [exact Hf|exact Hnd].
  - intros i x n [Hin Hn]%top_in. split; [|done]. apply list_elem_of_omap in Hin as (r & Hr & E).
    apply list_elem_of_fmap. exists r. split; [|done]. by apply Hf in E.
Qed.

Lemma lex_ranks rows terms : NoDup ((fun r => r.1.1) <$> rows) -> ranks rows (lex rows terms).
Proof. apply top_ranks. intros r x. destruct (ts_rank _ _); [|done]. by intros [= <-]. Qed.
Lemma lex_trgm_ranks rows names : NoDup ((fun r => r.1.1) <$> rows) -> ranks rows (lex_trgm rows names).
Proof. apply top_ranks. intros r x. cbv zeta. destruct (_ && _); [|done]. by intros [= <-]. Qed.
Lemma sparse_ranks rows q : NoDup ((fun r => r.1.1) <$> rows) -> ranks rows (sparse rows q).
Proof.
  intros Hnd. unfold sparse. pose proof (lex_ranks rows (ujoin [32%N] (Query.salient_terms q)) Hnd) as Hl.
  destruct (lex rows _); [by apply lex_trgm_ranks|done].
Qed.
Lemma dense_ranks rows q : NoDup ((fun r => r.1.1) <$> rows) -> ranks rows (dense rows q).
Proof.
  apply top_ranks. intros r x. cbv zeta. destruct (_ =? _); [|done]. destruct (SigIn.emb _); [|done]. by intros [= <-].
Qed.

(** ** Fusion *)

Lemma find_key (l : list (Z * pyfloat * Z)) i :
  match List.find (fun d : Z * pyfloat * Z => d.1.1 =? i) l with
  | Some d => d ∈ l /\ d.1.1 = i
  | None => i ∉ keys l
  end.
Proof.
  destruct (List.find _ l) as [d|] eqn:E.
  - apply find_some in E as [Hin%list_elem_of_In Hi%Z.eqb_eq]. done.
  - intros (d & -> & Hd%list_elem_of_In)%list_elem_of_fmap. pose proof (find_none _ _ E d Hd) as Hn. cbn in Hn.
    by rewrite Z.eqb_refl in Hn.
Qed.

(** A fused row: its item is ranked by one list or both, and its score is the sum
    of the two terms. *)
Definition fused (sp de : list (Z * pyfloat * Z)) (h : Hit.t) : Prop :=
  let i := Hit.item_id h in
  match Hit.sparse_rank h with Some r => exists x, (i, x, r) ∈ sp | None => i ∉ keys sp end /\
  match Hit.dense_rank h with Some r => exists x, (i, x, r) ∈ de | None => i ∉ keys de end /\
  (is_Some (Hit.sparse_rank h) \/ is_Some (Hit.dense_rank h)) /\
  Hit.rrf h = rrf_term (Hit.sparse_rank h) + rrf_term (Hit.dense_rank h).

Lemma fuse_fused sp de h : h ∈ fuse sp de -> fused sp de h.
Proof.
  unfold fuse. intros [Hin|Hin]%elem_of_app.
  - apply list_elem_of_fmap in Hin as ([[i x] r] & -> & Hin). cbn. pose proof (find_key de i) as Hd.
    unfold fused. cbn. split_and!; [by exists x| |left; by eexists|done].
    destruct (List.find _ de) as [[[j y] n]|]; cbn; [|done]. destruct Hd as [Hd Hj]. cbn in Hj. subst j. by exists y.
  - apply list_elem_of_omap in Hin as ([[i x] r] & Hin & E). cbn in E. pose proof (find_key sp i) as Hs.
    destruct (List.find _ sp); [done|]. injection E as <-. unfold fused. cbn.
    split_and!; [done|by exists x|right; by eexists|done].
Qed.

Lemma fuse_NoDup sp de : NoDup (keys sp) -> NoDup (keys de) -> NoDup (Hit.item_id <$> fuse sp de).
Proof.
  intros Hs Hd. unfold fuse. rewrite fmap_app. apply NoDup_app. split_and!.
  - rewrite <- list_fmap_compose. exact Hs.
  - intros i Hi (h & -> & Hh)%list_elem_of_fmap. rewrite <- list_fmap_compose in Hi.
    apply list_elem_of_omap in Hh as ([[j x] r] & Hin & E). cbn in E. pose proof (find_key sp j) as Hk.
    destruct (List.find _ sp); [done|]. injection E as <-. cbn in Hi. by apply Hk.
  - apply (sublist_NoDup _ (keys de)); [done|]. clear Hd. induction de as [|[[j x] r] de IH]; [constructor|].
    csimpl. destruct (List.find _ sp); csimpl; [by constructor|]. by constructor.
Qed.

(** No worse a rank; unranked is worst. *)
Definition no_worse (a b : option Z) : Prop :=
  match a, b with Some x, Some y => x <= y | _, None => True | None, Some _ => False end.
Definition in_list (r : option Z) : Prop := match r with Some n => 1 <= n <= LIST_LIMIT | None => True end.

Lemma rrf_term_pos r : 1 <= r <= LIST_LIMIT -> 0 < rrf_term (Some r).
Proof. unfold rrf_term, LIST_LIMIT, RRF_K, RRF_UNITS. intros Hr. apply Z.div_str_pos. lia. Qed.
Lemma rrf_term_nonneg r : in_list r -> 0 <= rrf_term r.
Proof. destruct r as [n|]; [|done]. intros Hn%rrf_term_pos. lia. Qed.

Lemma rounded_div_antitone u a b : 0 < a <= b -> b <= u -> (2 * u + b) / (2 * b) <= (2 * u + a) / (2 * a).
Proof.
  intros Hab Hu. apply Z.div_le_lower_bound; [lia|]. set (x := (2 * u + b) / (2 * b)).
  assert (2 * b * x <= 2 * u + b) as Hx by (apply Z.mul_div_le; lia).
  assert (1 <= x) as H1 by (apply Z.div_le_lower_bound; lia). nia.
Qed.

Lemma rrf_term_antitone a b : in_list a -> in_list b -> no_worse a b -> rrf_term b <= rrf_term a.
Proof.
  destruct a as [a|], b as [b|]; cbn [in_list no_worse]; intros Ha Hb Hw; [|by apply (rrf_term_nonneg (Some a))|done|done].
  unfold rrf_term. apply rounded_div_antitone; unfold RRF_K, RRF_UNITS, LIST_LIMIT in *; lia.
Qed.

Lemma fused_ranks rows sp de h : ranks rows sp -> ranks rows de -> fused sp de h ->
  in_list (Hit.sparse_rank h) /\ in_list (Hit.dense_rank h) /\ Hit.item_id h ∈ ((fun r => r.1.1) <$> rows).
Proof.
  intros [_ Hs] [_ Hd] (H1 & H2 & H3 & _).
  destruct (Hit.sparse_rank h) as [a|], (Hit.dense_rank h) as [b|]; cbn; dex; destruct_and?.
  - pose proof (Hs _ _ _ H1) as [? ?]. by pose proof (Hd _ _ _ H2) as [? ?].
  - by pose proof (Hs _ _ _ H1) as [? ?].
  - by pose proof (Hd _ _ _ H2) as [? ?].
  - by destruct H3 as [[]|[]].
Qed.

Lemma hits_in rows q k h : h ∈ hits rows q k -> h ∈ fuse (sparse rows q) (dense rows q).
Proof. unfold hits, limited. intros (n & Hn%list_elem_of_lookup_2 & _)%elem_of_take. by apply elem_of_pysorted in Hn. Qed.

Lemma hits_NoDup rows q k : NoDup ((fun r => r.1.1) <$> rows) -> NoDup (Hit.item_id <$> hits rows q k).
Proof.
  intros Hnd. unfold hits, limited. apply (sublist_NoDup _ (Hit.item_id <$> pysorted hit_leb (fuse (sparse rows q) (dense rows q)))).
  - rewrite (pysorted_perm hit_leb). apply fuse_NoDup; [by apply sparse_ranks|by apply dense_ranks].
  - rewrite fmap_take. apply sublist_take.
Qed.

(** Reciprocal rank fusion: the query's rows are distinct items, best score
    first and at most [k]; each is ranked by the lexical or the dense list, its
    score is the positive sum of its two terms, and what the limit cuts off scores no
    better.  An item ranked no worse than another one in both lists scores no
    worse. *)
Theorem fusion_exact rows q k :
  NoDup ((fun r : Z * SigRow.t * ItemRow.t => r.1.1) <$> rows) ->
  let hs := hits rows q k in
  let all := fuse (sparse rows q) (dense rows q) in
  NoDup (Hit.item_id <$> hs) /\ (length hs <= Z.to_nat k)%nat /\
  StronglySorted (fun a b => Hit.rrf b <= Hit.rrf a) hs /\
  (forall h, h ∈ hs -> h ∈ all) /\
  (forall h, h ∈ all -> h ∈ hs \/ forall h', h' ∈ hs -> Hit.rrf h <= Hit.rrf h') /\
  (forall h, h ∈ all -> fused (sparse rows q) (dense rows q) h /\ Hit.item_id h ∈ ((fun r => r.1.1) <$> rows) /\
     0 < Hit.rrf h) /\
  (forall h h', h ∈ all -> h' ∈ all -> no_worse (Hit.sparse_rank h) (Hit.sparse_rank h') ->
     no_worse (Hit.dense_rank h) (Hit.dense_rank h') -> Hit.rrf h' <= Hit.rrf h).
Proof.
  intros Hnd. cbv zeta. pose proof (sparse_ranks rows q Hnd) as Hs. pose proof (dense_ranks rows q Hnd) as Hd.
  assert (forall h, h ∈ fuse (sparse rows q) (dense rows q) -> fused (sparse rows q) (dense rows q) h /\
    in_list (Hit.sparse_rank h) /\ in_list (Hit.dense_rank h) /\ Hit.item_id h ∈ ((fun r => r.1.1) <$> rows)) as Hall.
  { intros h Hf%fuse_fused. split; [done|]. exact (fused_ranks rows _ _ h Hs Hd Hf). }
  pose proof (newest_sorted Hit.rrf Hit.item_id (fuse (sparse rows q) (dense rows q))) as Hsort. split_and!.
  - by apply hits_NoDup.
  - unfold hits, limited. rewrite length_take. lia.
  - unfold hits, limited. rewrite <- (take_drop (Z.to_nat k) (pysorted _ _)) in Hsort. by apply StronglySorted_app_1_l in Hsort.
  - intros h. apply hits_in.
  - intros h Hh. rewrite <- (elem_of_pysorted hit_leb), <- (take_drop (Z.to_nat k) (pysorted hit_leb _)) in Hh.
    rewrite <- (take_drop (Z.to_nat k) (pysorted _ _)) in Hsort.
    apply elem_of_app in Hh as [?|Hh]; [by left|right]. intros h' Hh'.
    by apply (StronglySorted_app_1_elem_of _ _ _ h' h Hsort).
  - intros h Hh. destruct (Hall h Hh) as (Hf & H1 & H2 & Hi). split_and!; [done|done|].
    destruct Hf as (_ & _ & Hr & ->). pose proof (rrf_term_nonneg _ H1). pose proof (rrf_term_nonneg _ H2).
    destruct Hr as [[n E]|[n E]]; rewrite E in *; [pose proof (rrf_term_pos n H1)|pose proof (rrf_term_pos n H2)]; lia.
  - intros h h' Hh Hh' Hw1 Hw2. destruct (Hall h Hh) as ((_ & _ & _ & ->) & H1 & H2 & _).
    destruct (Hall h' Hh') as ((_ & _ & _ & ->) & H1' & H2' & _).
    pose proof (rrf_term_antitone _ _ H1 H1' Hw1). pose proof (rrf_term_antitone _ _ H2 H2' Hw2). lia.
Qed.

(** ** The candidates *)

Lemma candidate_of_hit_spec p q d h c : candidate_of_hit p q d h = Some c ->
  exists s r, failure_signature d !! (p, Hit.item_id h) = Some s /\ test_item d !! (p, Hit.item_id h) = Some r /\
    c = _row_to_candidate p q d h (SigRow.data s) r.
Proof.
  unfold candidate_of_hit. destruct (failure_signature d !! _) as [s|]; [|done]. destruct (test_item d !! _) as [r|]; [|done].
  intros [= <-]. by exists s, r.
Qed.

(** The item of a hit over the rows under a condition satisfies it. *)
Lemma hit_of_rows p P q k d h : h ∈ hits (joined p P d) q k ->
  exists s r, failure_signature d !! (p, Hit.item_id h) = Some s /\ test_item d !! (p, Hit.item_id h) = Some r /\
    P (Hit.item_id h) s r = true.
Proof.
  intros Hh%hits_in%fuse_fused. pose proof (joined_NoDup p P d) as Hnd.
  eapply fused_ranks in Hh as (_ & _ & Hi); [|by apply sparse_ranks|by apply dense_ranks].
  apply list_elem_of_fmap in Hi as ([[i s] r] & E & Hin). cbn in E. rewrite E.
  apply joined_in in Hin. by exists s, r.
Qed.

Lemma match_modes_in p q k d c : c ∈ match_modes p q k d ->
  exists m row, failure_mode d !! (p, m) = Some row /\ matchable q row = true /\ c = mode_candidate q (m, row).
Proof.
  unfold match_modes, limited. intros ([m row] & -> & Hin)%list_elem_of_fmap.
  apply elem_of_take in Hin as (n & Hin%list_elem_of_lookup_2 & _). apply elem_of_take in Hin as (n' & Hin%list_elem_of_lookup_2 & _).
  apply elem_of_pysorted in Hin. apply list_elem_of_fmap in Hin as ([[q' m'] row'] & [= -> ->] & Hin).
  apply elem_of_map_to_list, lookup_keep in Hin as [Hk HP]. cbn in HP. apply andb_true_iff in HP as [->%Z.eqb_eq HP].
  by exists m', row'.
Qed.

(** What the filters say of an item they let through. *)
Definition passes (f : Filters.t) (i launch : Z) (label : option string) (ts : option Z) : Prop :=
  i ∉ Filters.exclude_item_ids f /\ launch ∉ Filters.exclude_launch_ids f /\
  (forall t, Filters.min_label_ts f = Some t -> exists x, ts = Some x /\ t <= x) /\
  (Filters.issue_type_groups f = [] \/ stake 2 (default "" label) ∈ Filters.issue_type_groups f).

Lemma admitted_passes f c i launch : Candidate.item_id c = Some i -> Candidate.launch_id c = Some launch ->
  admitted f c = true -> passes f i launch (Candidate.issue_type c) (Candidate.label_ts c).
Proof.
  intros Hi Hl. unfold admitted. rewrite Hi, Hl, !andb_true_iff, !negb_true_iff. cbn.
  intros [[[H1%bool_decide_eq_false H2%bool_decide_eq_false] H3] H4]. split_and!; [done..| |].
  - intros t Ht. rewrite Ht in H3. destruct (Candidate.label_ts c) as [x|]; [|done]. exists x. split; [done|by apply Z.leb_le].
  - destruct (Filters.issue_type_groups f); [by left|right]. by apply bool_decide_eq_true in H4.
Qed.

(** A candidate of the engine is a mode or an item of the rows it may use. *)
Lemma find_candidates_in p q k f d c : c ∈ find_candidates p q k f d ->
  c ∈ match_modes p q 10 d \/
  exists h s r, c = _row_to_candidate p q d h (SigRow.data s) r /\
    failure_signature d !! (p, Hit.item_id h) = Some s /\ test_item d !! (p, Hit.item_id h) = Some r /\
    labelled (ItemRow.issue_type r) = true /\ admitted f c = true.
Proof.
  intros Hc. unfold find_candidates in Hc.
  assert (c ∈ match_modes p q 10 d ++ _stage_b p q k f d) as Hin
    by (eapply elem_of_submseteq; [exact Hc|by apply sublist_submseteq, slice_to_sublist]).
  apply elem_of_app in Hin as [Hm|Hb]; [by left|right].
  unfold _stage_b in Hb. apply list_elem_of_In, filter_In in Hb as [Hb Ha]. apply list_elem_of_In in Hb.
  apply list_elem_of_omap in Hb as (h & Hh & E). apply hit_of_rows in Hh as (s & r & Hs & Hr & HP).
  apply candidate_of_hit_spec in E as (s' & r' & Es & Er & ->). rewrite Hs in Es. rewrite Hr in Er.
  injection Es as <-. injection Er as <-. by exists h, s, r.
Qed.

(** The items among them are labelled, and none that is left out. *)
Lemma find_candidates_item p q k f d c i : c ∈ find_candidates p q k f d -> Candidate.item_id c = Some i ->
  (exists r, test_item d !! (p, i) = Some r /\ labelled (ItemRow.issue_type r) = true) /\ i ∉ Filters.exclude_item_ids f.
Proof.
  intros [(m & row & _ & _ & ->)%match_modes_in|(h & s & r & -> & _ & Hr & Hl & Ha)]%find_candidates_in; [done|].
  cbn. intros [= <-]. split; [by exists r|]. by eapply admitted_passes in Ha as [? _].
Qed.

(** C23. What the engine is given as evidence: a mode of the project that is not
    retired and shares a fingerprint or the embedding version, or a stored item of
    the project with a signature and a label that is not "to investigate", with its own
    label, the source and time of its latest label event, and its best mode.  The
    filters let every such item through: neither the item nor its launch is left out,
    its label is no older than asked for, and its label group is among those asked
    for.  There are at most [k + 10] of them. *)
Theorem evidence_sound p q k f d :
  0 <= k -> Z.of_nat (length (find_candidates p q k f d)) <= k + 10 /\
  forall c, c ∈ find_candidates p q k f d ->
  match Candidate.item_id c with
  | None => exists m row, Candidate.mode_id c = Some m /\ failure_mode d !! (p, m) = Some row /\
              ModeRow.status row <> "retired" /\ matchable q row = true
  | Some i => exists s r, failure_signature d !! (p, i) = Some s /\ test_item d !! (p, i) = Some r /\
      labelled (ItemRow.issue_type r) = true /\ Candidate.issue_type c = of_u <$> ItemRow.issue_type r /\
      Candidate.label_source c = label_source (latest_event p i d) /\
      Candidate.label_ts c = EventRow.ts <$> latest_event p i d /\ Candidate.mode_id c = member_mode_id p i d /\
      passes f i (ItemRow.launch_id r) (Candidate.issue_type c) (Candidate.label_ts c)
  end.
Proof.
  intros Hk. split; [unfold find_candidates; apply slice_to_length; lia|].
  intros c [(m & row & Hr & HP & ->)%match_modes_in|(h & s & r & -> & Hs & Hr & Hl & Ha)]%find_candidates_in.
  - cbn. exists m, row. split_and!; try done.
    intros E. unfold matchable in HP. rewrite E in HP. by vm_compute in HP.
  - cbn. exists s, r. split_and!; try done; by eapply admitted_passes in Ha as (? & ? & ? & ?).
Qed.

(** The search route finds what is still to be investigated: every row is a
    stored item of the project with a "to investigate" label, in one of the launches
    asked for when there are any, never the item itself, and carries its own error
    log. *)
Theorem search_sound p q k launches self d c :
  c ∈ search_ti_candidates p q k launches self d ->
  exists i s r, Candidate.item_id c = Some i /\ failure_signature d !! (p, i) = Some s /\ test_item d !! (p, i) = Some r /\
    is_ti r = true /\ i <> self /\ (launches = [] \/ ItemRow.launch_id r ∈ launches) /\
    Candidate.relevant_log_id c = SigRow.error_log_id s /\ Candidate.launch_id c = Some (ItemRow.launch_id r).
Proof.
  unfold search_ti_candidates. intros (h & Hh & E)%list_elem_of_omap. apply hit_of_rows in Hh as (s & r & Hs & Hr & HP).
  unfold search_candidate in E. cbv zeta in E. rewrite Hs, Hr in E. injection E as <-.
  rewrite !andb_true_iff, negb_true_iff, Z.eqb_neq, orb_true_iff, !bool_decide_eq_true in HP.
  destruct HP as [[Ht Hi] Hl]. exists (Hit.item_id h), s, r. by split_and!.
Qed.
End Search.

(** ** A concrete store *)

Section Example.
#[local] Existing Instance toy_vectors.

(** A row matches when its text is the query. *)
Definition toy_search : PgSearch := {|
  ts_rank s terms := if bool_decide (SigIn.exc_text s = terms) then Some f1 else None;
  trgm_match a b := bool_decide (a = b);
  similarity _ _ := f1
|}.
#[local] Existing Instance toy_search.

Definition stored_item (i launch : Z) (label : string) : TestItemIn.t :=
  TestItemIn.mk i 1 launch (u "nightly") 4 (Some 77) None (u "test") None false (Some (u label)) 1 None.
Definition stored_sig (i : Z) (text : string) (e : pyfloat) : SigIn.t :=
  SigIn.mk 1 i 5 6 [] [11] (u text) [] [] [] [] (Some [e]) 2 (Some (100 + i)).

(** Item 1 is near in words and in the embedding, item 2 in the embedding only,
    item 3 is still to be investigated. *)
Definition three_items : db :=
  upsert_signatures [stored_sig 1 "NPE" f1; stored_sig 2 "OOM" f1; stored_sig 3 "NPE" f1]
    (upsert_items 8 [stored_item 1 30 "pb001"; stored_item 2 31 "ab001"; stored_item 3 32 "ti001"] empty_db).
Definition npe_query : Query.t := Query.mk 5 6 [11] [u "NPE"] [] (Some [f1]) 2 None (Some 7).
Definition no_filters : Filters.t := Filters.mk [] [] None [].

Example both_lists_win :
  (fun c => (Candidate.item_id c, Candidate.sparse_rank c, Candidate.dense_rank c, Candidate.launch_distance c)) <$>
    find_candidates 1 npe_query 20 no_filters three_items =
  [(Some 1, Some 1, Some 2, Some 3); (Some 2, None, Some 1, Some 3)].
Proof. vm_compute. reflexivity. Qed.

Lemma fusion_exact_witness : NoDup (Hit.item_id <$> hits (evidence_rows 1 three_items) npe_query 20).
Proof. apply (fusion_exact (evidence_rows 1 three_items) npe_query 20). apply joined_NoDup. Defined.

Lemma evidence_sound_witness : Z.of_nat (length (find_candidates 1 npe_query 20 no_filters three_items)) <= 30.
Proof. apply (evidence_sound 1 npe_query 20 no_filters three_items). lia. Defined.

Lemma search_sound_witness : exists s r, failure_signature three_items !! (1, 3) = Some s /\
  test_item three_items !! (1, 3) = Some r /\ is_ti r = true.
Proof.
  destruct (search_ti_candidates 1 npe_query 20 [32] 1 three_items) as [|c l] eqn:E; [by vm_compute in E|].
  destruct (search_sound 1 npe_query 20 [32] 1 three_items c) as (i & s & r & Hi & Hs & Hr & Ht & _).
  - rewrite E. by left.
  - assert (Candidate.item_id c = Some 3) as Hc.
    { assert (Candidate.item_id <$> search_ti_candidates 1 npe_query 20 [32] 1 three_items = [Some 3]) as El
        by (vm_compute; reflexivity). rewrite E in El. by injection El. }
    rewrite Hc in Hi. injection Hi as <-. by exists s, r.
Defined.
End Example.
