(* ===== verification/StoreOps.v ===== *)
(** * The store as a transition system

    Every write of the repositories as one transition [exec] of the whole store.
    Two laws hold of all of them: a write leaves the rows of every other project as
    they are, so no read of another project changes; and only the orphan reaper
    ever removes a label event. *)

From S2P Require Import Prelude PyFloat PyStr PyJson PyTime Drain DrainStore Ingest LlmEngine Models Database.
From S2P Require Import Retrieval Knowledge LabelLog LlmStores TestStats HybridSearch.
From Stdlib Require Import ZArith Lia.

#[local] Open Scope string_scope.
#[local] Open Scope list_scope.
#[local] Open Scope Z_scope.

Import Db.

Section Ops.
Context `{PgVector}.

Inductive op :=
  | UpsertItems (now : Z) (items : list TestItemIn.t)
  | UpsertSignatures (sigs : list SigIn.t)
  | UpdateIssueType (p i : Z) (issue_type : option ustr) (is_auto : bool)
  | DeleteItems (p : Z) (ids : list Z)
  | DeleteLaunches (p : Z) (ids : list Z)
  | DeleteByTimeRange (p : Z) (field : time_field) (before : Z) (after : option Z)
  | DeleteProject (p : Z)
  | Reap (now grace_days : Z)
  | RecordFeedback (now p i : Z) (new_label : ustr)
  | WriteSuggestion (now : Z) (s : SuggestionRow.t)
  | UpsertLaunchGroup (p launch fingerprint member_count : Z) (si_prior : pyfloat) (dominant : bool)
  | AppendEvent (now : Z) (ev : LabelEventIn.t)
  | SpawnMode (now : Z) (mode : ModeIn.t) (seed_items : list Z)
  | EnsureSeedMode (p : Z) (key : string) (mode : ModeIn.t)
  | AddMembers (now p m : Z) (members : list (Z * pyfloat * string)) (emb_ver : option Z)
  | UpdatePurity (p m : Z)
  | MergeModes (p src dst : Z)
  | SplitMode (now p m : Z) (partition : list (Z * list Z))
  | SetStatus (p m : Z) (status : string) (label : option ustr) (label_source : option string)
  | SetExplanation (p suggestion_id : Z) (text : ustr)
  | AnnotateJudge (p i : Z) (patch : list (string * json))
  | InsertColdstart (now p i launch : Z) (label : ustr) (confidence : pyfloat) (model_ver : ustr)
      (features : list (string * json))
  | BumpTestHistory (p tch : Z) (failed : bool) (ts : Z)
  | UpsertDailyMetrics (m : DailyMetrics.t)
  | SaveDrain (p : Z) (state : blob) (expected_version : Z) (config : ConfigSummary.t)
  | MirrorTemplates (now p : Z) (rows : list MirrorRow.t)
  | CacheHit (now p : Z) (key : string) (ttl_days : Z)
  | CachePut (now p : Z) (key role model : string) (output : json) (template_hash : option Z)
  | RecordCall (now : Z) (a : AuditIn.t)
  | SetRoleState (now p : Z) (role : string) (enabled : bool) (reason : option string)
      (stats : option (list (string * json))).

(** A transaction that raises leaves the store as it was. *)
Definition committed {A} (f : A -> db) (d : db) (r : result A) : db := match r with Ok a => f a | Raise _ => d end.

Definition exec (o : op) (d : db) : db :=
  match o with
  | UpsertItems now items => upsert_items now items d
  | UpsertSignatures sigs => upsert_signatures sigs d
  | UpdateIssueType p i l auto => (update_issue_type p i l auto d).1
  | DeleteItems p ids => (delete_items p ids d).1
  | DeleteLaunches p ids => (delete_launches p ids d).1
  | DeleteByTimeRange p field before after => (delete_by_time_range p field before after d).1
  | DeleteProject p => (delete_project p d).1
  | Reap now grace => (reap_orphan_label_events now grace d).1
  | RecordFeedback now p i l => (record_feedback_outcome now p i l d).1
  | WriteSuggestion now s => (write_suggestion now s d).1
  | UpsertLaunchGroup p launch fp n prior dom => (upsert_launch_group p launch fp n prior dom d).1
  | AppendEvent now ev => committed fst d (append_event now ev d)
  | SpawnMode now mode items => committed fst d (spawn_candidate_mode now mode items d)
  | EnsureSeedMode p key mode => committed fst d (ensure_seed_mode p key mode d)
  | AddMembers now p m members ver => committed fst d (add_members now p m members ver d)
  | UpdatePurity p m => committed fst d (update_purity p m d)
  | MergeModes p src dst => committed id d (merge_modes p src dst d)
  | SplitMode now p m partition => committed fst d (split_mode now p m partition d)
  | SetStatus p m status l src => committed id d (set_status p m status l src d)
  | SetExplanation p sid text => set_explanation p sid text d
  | AnnotateJudge p i patch => annotate_judge p i patch d
  | InsertColdstart now p i launch l c ver fs => (insert_coldstart now p i launch l c ver fs d).1
  | BumpTestHistory p tch failed ts => bump_test_history p tch failed ts d
  | UpsertDailyMetrics m => upsert_daily_metrics m d
  | SaveDrain p state v config => with_drain (save p state v config (drain d)).1 d
  | MirrorTemplates now p rows => with_drain (upsert_templates now p rows (drain d)).1 d
  | CacheHit now p key ttl => (get_fresh now p key ttl d).1
  | CachePut now p key role model output th => put now p key role model output th d
  | RecordCall now a => committed fst d (record now a d)
  | SetRoleState now p role on reason stats => set_state now p role on reason stats d
  end.

(** The projects a write is about; the reaper is about all of them. *)
Definition touches (o : op) (p : Z) : Prop :=
  match o with
  | UpsertItems _ items => p ∈ TestItemIn.project_id <$> items
  | UpsertSignatures sigs => p ∈ SigIn.project_id <$> sigs
  | UpdateIssueType q _ _ _ | DeleteItems q _ | DeleteLaunches q _ | DeleteByTimeRange q _ _ _ | DeleteProject q
  | RecordFeedback _ q _ _ | UpsertLaunchGroup q _ _ _ _ _ | EnsureSeedMode q _ _ | AddMembers _ q _ _ _
  | UpdatePurity q _ | MergeModes q _ _ | SplitMode _ q _ _ | SetStatus q _ _ _ _ | SetExplanation q _ _
  | AnnotateJudge q _ _ | InsertColdstart _ q _ _ _ _ _ _ | BumpTestHistory q _ _ _ | SaveDrain q _ _ _
  | MirrorTemplates _ q _ | CacheHit _ q _ _ | CachePut _ q _ _ _ _ _ | SetRoleState _ q _ _ _ _ => p = q
  | Reap _ _ => True
  | WriteSuggestion _ s => p = SuggestionRow.project_id s
  | AppendEvent _ ev => p = LabelEventIn.project_id ev
  | SpawnMode _ mode _ => p = ModeIn.project_id mode
  | UpsertDailyMetrics m => p = DailyMetrics.project_id m
  | RecordCall _ a => p = AuditIn.project_id a
  end.

End Ops.

(** ** What a project sees *)

Definition mine {A} (p : Z) (m : gmap (Z * Z) A) : gmap (Z * Z) A := keep (fun k _ => k.1 =? p) m.

Module View.
Record t := mk {
  registered : bool;
  state : option StateRow.t;
  templates : gmap (Z * Z) TemplateRow.t;
  items : gmap (Z * Z) ItemRow.t;
  signatures : gmap (Z * Z) SigRow.t;
  modes : gmap (Z * Z) ModeRow.t;
  members : gmap (Z * Z * Z) MemberRow.t;
  events : gmap Z EventRow.t;
  orphans : gmap (Z * Z) Z;
  suggestions : gmap Z SugRow.t;
  groups : gmap (Z * Z) GroupRow.t;
  history : gmap (Z * Z) HistRow.t;
  cache : gmap (Z * string) CacheRow.t;
  calls : gmap Z AuditRow.t;
  switches : gmap (Z * string) RoleStateRow.t;
  daily : gmap (Z * Z) DailyMetrics.t
}.
End View.

Definition view (p : Z) (d : db) : View.t :=
  View.mk (bool_decide (p ∈ projects d)) (Tables.drain3_state (drain d) !! p) (mine p (Tables.log_template (drain d)))
    (mine p (test_item d)) (mine p (failure_signature d)) (mine p (failure_mode d))
    (keep (fun k _ => k.1.1 =? p) (mode_membership d))
    (keep (fun _ e => EventRow.project_id e =? p) (label_event d)) (mine p (label_event_orphan d))
    (keep (fun _ s => SugRow.project_id s =? p) (suggestion d)) (mine p (launch_group d))
    (mine p (test_history_stats d)) (keep (fun k _ => k.1 =? p) (llm_cache d))
    (keep (fun _ a => AuditRow.project_id a =? p) (llm_event d)) (keep (fun k _ => k.1 =? p) (llm_role_state d))
    (mine p (metrics_daily d)).

(** A sequence has given every identity in use. *)
Record sequences (d : db) : Prop := {
  seq_events : forall id, is_Some (label_event d !! id) -> id < next_event d;
  seq_suggestions : forall id, is_Some (suggestion d !! id) -> id < next_suggestion d;
  seq_modes : forall p id, is_Some (failure_mode d !! (p, id)) -> id < next_mode d;
  seq_groups : forall p id, is_Some (launch_group d !! (p, id)) -> id < next_group d;
  seq_audit : forall id, is_Some (llm_event d !! id) -> id < next_audit d
}.

(** ** Isolation *)

(** Filtering at [p] what only rows of [q] change. *)
#[local] Ltac other := intros; cbn in *; rewrite ?andb_true_iff, ?andb_false_iff, ?Z.eqb_eq, ?Z.eqb_neq in *; naive_solver.

Section Isolation.
Context `{PgVector}.
Variable p : Z.

Lemma view_add_projects qs d : p ∉ qs -> view p (add_projects qs d) = view p d.
Proof.
  intros Hp. unfold view. cbn. f_equal. apply bool_decide_ext. rewrite elem_of_union, elem_of_list_to_set. tauto.
Qed.

Lemma view_with_items v d : mine p v = mine p (test_item d) -> view p (with_test_item v d) = view p d.
Proof. intros E. unfold view. cbn. by rewrite E. Qed.
Lemma view_with_signatures v d : mine p v = mine p (failure_signature d) -> view p (with_failure_signature v d) = view p d.
Proof. intros E. unfold view. cbn. by rewrite E. Qed.
Lemma view_with_modes v d : mine p v = mine p (failure_mode d) -> view p (with_failure_mode v d) = view p d.
Proof. intros E. unfold view. cbn. by rewrite E. Qed.
Lemma view_with_members v d :
  keep (fun k _ => k.1.1 =? p) v = keep (fun k _ => k.1.1 =? p) (mode_membership d) ->
  view p (with_mode_membership v d) = view p d.
Proof. intros E. unfold view. cbn. by rewrite E. Qed.
Lemma view_with_events v d :
  keep (fun _ e => EventRow.project_id e =? p) v = keep (fun _ e => EventRow.project_id e =? p) (label_event d) ->
  view p (with_label_event v d) = view p d.
Proof. intros E. unfold view. cbn. by rewrite E. Qed.
Lemma view_with_suggestions v d :
  keep (fun _ s => SugRow.project_id s =? p) v = keep (fun _ s => SugRow.project_id s =? p) (suggestion d) ->
  view p (with_suggestion v d) = view p d.
Proof. intros E. unfold view. cbn. by rewrite E. Qed.
Lemma view_with_groups v d : mine p v = mine p (launch_group d) -> view p (with_launch_group v d) = view p d.
Proof. intros E. unfold view. cbn. by rewrite E. Qed.
Lemma view_with_history v d : mine p v = mine p (test_history_stats d) -> view p (with_test_history_stats v d) = view p d.
Proof. intros E. unfold view. cbn. by rewrite E. Qed.
Lemma view_with_daily v d : mine p v = mine p (metrics_daily d) -> view p (with_metrics_daily v d) = view p d.
Proof. intros E. unfold view. cbn. by rewrite E. Qed.
Lemma view_with_drain v d :
  (p ∈ Tables.project v <-> p ∈ projects d) -> Tables.drain3_state v !! p = Tables.drain3_state (drain d) !! p ->
  mine p (Tables.log_template v) = mine p (Tables.log_template (drain d)) -> view p (with_drain v d) = view p d.
Proof. intros Hp Hs Ht. unfold view. cbn. rewrite Hs, Ht. f_equal. by apply bool_decide_ext. Qed.
Lemma view_with_cache v d :
  keep (fun k _ => k.1 =? p) v = keep (fun k _ => k.1 =? p) (llm_cache d) -> view p (with_llm_cache v d) = view p d.
Proof. intros E. unfold view. cbn. by rewrite E. Qed.
Lemma view_with_calls v d :
  keep (fun _ a => AuditRow.project_id a =? p) v = keep (fun _ a => AuditRow.project_id a =? p) (llm_event d) ->
  view p (with_llm_event v d) = view p d.
Proof. intros E. unfold view. cbn. by rewrite E. Qed.
Lemma view_with_switches v d :
  keep (fun k _ => k.1 =? p) v = keep (fun k _ => k.1 =? p) (llm_role_state d) -> view p (with_llm_role_state v d) = view p d.
Proof. intros E. unfold view. cbn. by rewrite E. Qed.
Lemma view_with_next v d : view p (with_next_event v d) = view p d /\ view p (with_next_suggestion v d) = view p d /\
  view p (with_next_mode v d) = view p d /\ view p (with_next_group v d) = view p d.
Proof. done. Qed.

Lemma mine_insert {A} (m : gmap (Z * Z) A) q i x : p <> q -> mine p (<[(q, i) := x]> m) = mine p m.
Proof. intros Hp. unfold mine. apply keep_insert_other; other. Qed.
Lemma mine_alter {A} (m : gmap (Z * Z) A) q i f : p <> q -> mine p (alter f (q, i) m) = mine p m.
Proof. intros Hp. unfold mine. apply keep_alter_other; other. Qed.
Lemma mine_drop {A} (m : gmap (Z * Z) A) q (P : Z * Z -> A -> bool) :
  p <> q -> mine p (drop (fun k x => (k.1 =? q) && P k x) m) = mine p m.
Proof. intros Hp. unfold mine. apply keep_drop_other; other. Qed.
Lemma members_insert (m : gmap (Z * Z * Z) MemberRow.t) q a i x : p <> q ->
  keep (fun k _ => k.1.1 =? p) (<[(q, a, i) := x]> m) = keep (fun k _ => k.1.1 =? p) m.
Proof. intros Hp. apply keep_insert_other; other. Qed.

Lemma view_purge q sel d : p <> q -> view p (_purge_items q sel d) = view p d.
Proof.
  intros Hp. unfold _purge_items. rewrite view_with_members, view_with_signatures, view_with_suggestions; cbn; [done|..].
  - apply keep_drop_other; other.
  - by apply mine_drop.
  - apply keep_drop_other; other.
Qed.

Lemma view_delete_where q w d : p <> q -> view p (delete_where q w d).1 = view p d.
Proof.
  intros Hp. unfold delete_where. cbn [fst]. rewrite view_with_items; [by apply view_purge|]. by apply mine_drop.
Qed.

Lemma view_insert_mode q row d : p <> q -> view p (insert_mode q row d).1 = view p d.
Proof. intros Hp. unfold insert_mode. cbn [fst]. change (view p (with_next_mode ?n ?x)) with (view p x).
  apply view_with_modes. by apply mine_insert. Qed.

Lemma view_add_humans now q m items d : p <> q -> view p (add_humans now q m items d) = view p d.
Proof.
  intros Hp. apply view_with_members. apply keep_fold. intros i mem _. unfold add_human.
  destruct (mem !! (q, m, i)); [done|by apply members_insert].
Qed.

Lemma view_alter_mode q m f d : p <> q -> view p (alter_mode q m f d) = view p d.
Proof. intros Hp. by apply view_with_modes, mine_alter. Qed.

Lemma view_write_suggestion now s d : sequences d -> p <> SuggestionRow.project_id s ->
  view p (write_suggestion now s d).1 = view p d.
Proof.
  intros Hs Hp. unfold write_suggestion. cbn [fst]. change (view p (with_next_suggestion ?n ?x)) with (view p x).
  apply view_with_suggestions, keep_insert_other; [other|]. intros y Hy.
  assert (next_suggestion d < next_suggestion d) by (apply (seq_suggestions d Hs); by eexists). lia.
Qed.

Lemma view_split_parts now q row parts d : p <> q -> view p (split_parts now q row parts d).1 = view p d.
Proof.
  intros Hp. revert d. induction parts as [|[n items] parts IH]; intros d; [done|]. cbn [split_parts].
  destruct (insert_mode q _ d) as [d1 id] eqn:E1.
  destruct (split_parts now q row parts (add_humans now q id items d1)) as [d2 ids] eqn:E2.
  cbn [fst]. change d2 with (d2, ids).1. rewrite <- E2, IH, view_add_humans by done.
  change d1 with (d1, id).1. rewrite <- E1. by apply view_insert_mode.
Qed.

Lemma view_delete_project q d : p <> q -> view p (delete_project q d).1 = view p d.
Proof.
  intros Hp. unfold view, delete_project. cbn. f_equal.
  1: apply bool_decide_ext; unfold projects; cbn; rewrite elem_of_difference, not_elem_of_singleton; naive_solver.
  1: by rewrite lookup_delete_ne.
  all: unfold mine; apply keep_drop_other; other.
Qed.

(** The miner's state of another project. *)
Lemma view_save q state v config d : p <> q -> view p (with_drain (save q state v config (drain d)).1 d) = view p d.
Proof.
  intros Hp. apply view_with_drain; [|by apply save_other|by rewrite save_templates].
  unfold save, projects. cbn. destruct (Tables.drain3_state (drain d) !! q) as [r|]; [destruct (_ =? _)|]; cbn; set_solver.
Qed.
Lemma view_mirror now q rows d : p <> q -> view p (with_drain (upsert_templates now q rows (drain d)).1 d) = view p d.
Proof.
  intros Hp. apply view_with_drain; [|by rewrite upsert_state|].
  - unfold projects. destruct rows; cbn; [done|set_solver].
  - destruct rows as [|r rows]; [done|]. cbn [upsert_templates fst Tables.log_template]. apply keep_fold.
    intros x m _. unfold upsert_template. by apply mine_insert.
Qed.

Lemma write_isolation o d : sequences d -> ~ touches o p -> view p (exec o d) = view p d.
Proof.
  intros Hs Ht. destruct o as [now items|sigs|q i l auto|q ids|q ids|q field before after|q|now grace|now q i l|now s
    |q launch fp n prior dom|now ev|now mode items|q key mode|now q m members ver|q m|q src dst|now q m parts
    |q m status l src|q sid text|q i patch|now q i launch l c ver fs|q tch failed ts|m|q state v config|now q rows
    |now q key ttl|now q key role model output th|now a|now q role on reason stats]; cbn [touches] in Ht; cbn [exec].
  - unfold upsert_items. destruct items as [|it items]; [done|]. rewrite view_with_items; [by apply view_add_projects|].
    change (test_item (add_projects ?ps d)) with (test_item d). apply keep_fold. intros x m Hx. unfold upsert_item.
    apply mine_insert. intros ->. apply Ht, list_elem_of_fmap. by exists x.
  - apply view_with_signatures, keep_fold. intros x m Hx. unfold upsert_signature.
    apply mine_insert. intros ->. apply Ht, list_elem_of_fmap. by exists x.
  - unfold update_issue_type. destruct (test_item d !! (q, i)); [|done]. by apply view_with_items, mine_insert.
  - unfold delete_items. destruct ids as [|x ids]; [done|]. cbn [fst].
    rewrite view_with_items; [by apply view_purge|by apply mine_drop].
  - unfold delete_launches. destruct ids as [|x ids]; [done|].
    destruct (delete_where q _ d) as [d' n] eqn:E. cbn [fst]. rewrite view_with_suggestions.
    + change d' with (d', n).1. rewrite <- E. by apply view_delete_where.
    + apply keep_drop_other; other.
  - by apply view_delete_where.
  - by apply view_delete_project.
  - done.
  - apply view_with_suggestions, keep_fmap_other; intros k x; unfold is_pending.
    + by destruct (_ && _ && _).
    + intros E%Z.eqb_eq. rewrite E, (proj2 (Z.eqb_neq p q)) by done. done.
  - by apply view_write_suggestion.
  - unfold upsert_launch_group. cbn [fst]. change (view p (with_next_group ?n ?x)) with (view p x).
    by apply view_with_groups, mine_insert.
  - unfold append_event. destruct (bool_decide _); cbn [committed]; [|done]. cbn [fst].
    change (view p (with_next_event ?n ?x)) with (view p x). apply view_with_events, keep_insert_other; [other|].
    intros y Hy. assert (next_event d < next_event d) by (apply (seq_events d Hs); by eexists). lia.
  - unfold spawn_candidate_mode. destruct (check_mode _ _); [|done].
    destruct (insert_mode _ _ _) as [d' id] eqn:E. cbn [committed fst]. rewrite view_add_humans by done.
    change d' with (d', id).1. rewrite <- E, view_insert_mode by done. apply view_add_projects.
    by intros ->%list_elem_of_singleton.
  - unfold ensure_seed_mode. destruct (check_mode _ _); [|done].
    assert (view p (add_projects [q] d) = view p d) as Ha by (apply view_add_projects; by intros ->%list_elem_of_singleton).
    destruct (seeded _ _ _); cbn [committed fst]; [exact Ha|]. by rewrite view_insert_mode.
  - unfold add_members. destruct members as [|x members]; [done|]. destruct (forallb _ _); [|done].
    destruct (failure_mode d !! (q, m)) as [row|]; [|done]. cbn [committed fst].
    assert (forall f, keep (fun k _ => k.1.1 =? p) (fold_left (put_member now q m) (x :: members) f) =
                      keep (fun k _ => k.1.1 =? p) f) as Hf.
    { intros f. apply keep_fold. intros [[i sc] by_] mem _. unfold put_member. by apply members_insert. }
    destruct ver; [rewrite view_with_modes by (by apply mine_insert)|]; by apply view_with_members.
  - unfold update_purity. destruct (failure_mode d !! (q, m)) as [row|]; [|done].
    destruct (_ewma_centroid q m row d) as [c|e]; cbn; [|done]. by apply view_with_modes, mine_insert.
  - unfold merge_modes. destruct (failure_mode d !! (q, dst)) as [drow|]; [|done].
    destruct (failure_mode d !! (q, src)) as [srow|]; [|done].
    destruct (_merged_centroid _ _ _ _ _ _) as [[c ver]|e]; cbn; [|done].
    unfold _retire. rewrite !view_alter_mode by done. apply view_with_members.
    rewrite keep_drop_other by other. apply keep_fold. intros x mem _. unfold merge_member. by apply members_insert.
  - unfold split_mode. destruct (failure_mode d !! (q, m)) as [row|]; [|done].
    destruct (split_parts _ _ _ _ _) as [d' ids] eqn:E. cbn [committed fst]. unfold _retire.
    rewrite view_alter_mode by done. change d' with (d', ids).1. rewrite <- E. by apply view_split_parts.
  - unfold set_status. destruct (failure_mode d !! (q, m)); [|done]. destruct (check_mode _ _); [|done].
    by apply view_alter_mode.
  - apply view_with_suggestions, keep_alter_inert; intros y.
    + by destruct (SugRow.project_id y =? q).
    + intros E%Z.eqb_eq. rewrite E, (proj2 (Z.eqb_neq p q)) by done. done.
  - unfold annotate_judge. destruct (latest_suggestion q i d) as [[id s]|] eqn:E; [|done].
    apply latest_where_in in E as (El & Eq & _). apply view_with_suggestions, keep_alter_other.
    intros y Hy. assert (y = s) as -> by congruence. cbn. split; by apply Z.eqb_neq; congruence.
  - by apply view_write_suggestion.
  - by apply view_with_history, mine_insert.
  - by apply view_with_daily, mine_insert.
  - by apply view_save.
  - by apply view_mirror.
  - unfold get_fresh, bump_hits. destruct (llm_cache d !! (q, key)) as [r|]; [|done]. destruct (_ <=? _); [|done].
    apply view_with_cache, keep_insert_other; other.
  - apply view_with_cache, keep_insert_other; other.
  - unfold record. destruct (_ && _); cbn [committed fst]; [|done]. change (view p (with_next_audit ?n ?x)) with (view p x).
    apply view_with_calls, keep_insert_other; [other|]. intros y Hy.
    assert (next_audit d < next_audit d) by (apply (seq_audit d Hs); by eexists). lia.
  - apply view_with_switches, keep_insert_other; other.
Qed.
End Isolation.

(** ** Deleting a project *)

(** A project the store knows nothing of but its label log, and the language
    model's audit log and switches. *)
Definition forgotten (v : View.t) : View.t :=
  View.mk false None ∅ ∅ ∅ ∅ ∅ (View.events v) (View.orphans v) ∅ ∅ ∅ ∅ (View.calls v) (View.switches v) ∅.

Lemma keep_dropped {K A} `{Countable K} (P : K -> A -> bool) (m : gmap K A) : keep P (drop P m) = ∅.
Proof.
  apply map_eq. intros k. rewrite lookup_empty. destruct (keep P (drop P m) !! k) as [x|] eqn:E; [|done].
  apply lookup_keep in E as [[_ E]%lookup_drop E']. congruence.
Qed.

(** Deleting a project forgets it: no row of it is left in any table but the
    label log, which keeps every event, and the audit log and switches of the
    language model; the reply counts its items, and no other project changes. *)
Theorem delete_project_forgets (p : Z) (d : db) :
  let '(d', n) := delete_project p d in
  view p d' = forgotten (view p d) /\ n = Z.of_nat (size (mine p (test_item d))) /\
  label_event d' = label_event d /\ forall q, q <> p -> view q d' = view q d.
Proof.
  pose proof (fun q Hq => view_delete_project q p d Hq) as Hv. unfold delete_project in *. cbn [fst] in Hv.
  split_and!; [|done|done|exact Hv]. unfold view, forgotten. cbn. unfold mine. rewrite !keep_dropped. f_equal.
  - apply bool_decide_eq_false_2. unfold projects. cbn. set_solver.
  - apply lookup_delete_eq.
Qed.

(** ** Reads *)

Section Reads.
Context `{PgVector}.
Variables (p : Z) (d d' : db).
Hypothesis Hv : view p d = view p d'.

Lemma mine_lookup {A} (m m' : gmap (Z * Z) A) i : mine p m = mine p m' -> m !! (p, i) = m' !! (p, i).
Proof.
  intros E. apply option_eq. intros x.
  assert (forall m, mine p m !! (p, i) = Some x <-> m !! (p, i) = Some x) as Hk.
  { intros n. unfold mine. rewrite lookup_keep. cbn. rewrite Z.eqb_refl. tauto. }
  by rewrite <- Hk, E, Hk.
Qed.

Lemma view_item i : test_item d !! (p, i) = test_item d' !! (p, i).
Proof. apply mine_lookup. exact (f_equal View.items Hv). Qed.
Lemma view_signature i : failure_signature d !! (p, i) = failure_signature d' !! (p, i).
Proof. apply mine_lookup. exact (f_equal View.signatures Hv). Qed.
Lemma view_mode i : failure_mode d !! (p, i) = failure_mode d' !! (p, i).
Proof. apply mine_lookup. exact (f_equal View.modes Hv). Qed.
Lemma view_hist i : test_history_stats d !! (p, i) = test_history_stats d' !! (p, i).
Proof. apply mine_lookup. exact (f_equal View.history Hv). Qed.

Lemma foldr_same {A B} (f g : A -> B -> B) (z : B) l : (forall x y, f x y = g x y) -> foldr f z l = foldr g z l.
Proof. intros E. induction l as [|x l IH]; [done|]. simpl. by rewrite IH, E. Qed.

Lemma read_labels ids : get_items_labels p ids d = get_items_labels p ids d'.
Proof. apply foldr_same. intros i m. by rewrite view_item. Qed.

Lemma read_events i : events_of p i d = events_of p i d'.
Proof.
  apply (rows_of_keep (fun _ e => EventRow.project_id e =? p)).
  - intros k e. by intros [? _]%andb_true_iff.
  - exact (f_equal View.events Hv).
Qed.
Lemma read_latest_event i : latest_event p i d = latest_event p i d'.
Proof. unfold latest_event. by rewrite read_events. Qed.

Lemma read_joined P P' : (forall i s r, P i s r = P' i s r) -> joined p P d = joined p P' d'.
Proof.
  intros HP. unfold joined.
  rewrite (rows_of_keep (fun k _ => k.1 =? p) _ _ (failure_signature d') (fun _ _ x => x)
             (f_equal View.signatures Hv)).
  apply omap_ext_in. intros [[q i] s] [_ Hq]%elem_of_map_to_list%lookup_keep. cbn in Hq |- *.
  apply Z.eqb_eq in Hq as ->. rewrite view_item. destruct (test_item d' !! (p, i)); [|done]. by rewrite HP.
Qed.

Lemma read_hash_matches h limit : find_hash_matches p h limit d = find_hash_matches p h limit d'.
Proof.
  unfold find_hash_matches, limited. rewrite (read_joined _ _ (fun _ _ _ => eq_refl)).
  erewrite pysorted_ext.
  - apply fmap_ext_in. intros [[i s] r] _. cbn. by rewrite read_latest_event.
  - intros a b. cbn. by rewrite !read_latest_event.
Qed.

Lemma read_by_error_hash h limit : find_by_error_hash p h limit d = find_by_error_hash p h limit d'.
Proof. unfold find_by_error_hash. by rewrite (read_joined _ _ (fun _ _ _ => eq_refl)). Qed.

Lemma read_hash_seen h launch : error_hash_seen p h launch d = error_hash_seen p h launch d'.
Proof. unfold error_hash_seen. by rewrite (read_joined _ _ (fun _ _ _ => eq_refl)). Qed.

Lemma read_latest_where i P : latest_where p i P d = latest_where p i P d'.
Proof.
  unfold latest_where, suggestions_of. do 2 f_equal.
  apply (rows_of_keep (fun _ s => SugRow.project_id s =? p)).
  - intros k s. by intros [[? _]%andb_true_iff _]%andb_true_iff.
  - exact (f_equal View.suggestions Hv).
Qed.

Lemma read_modes q k : match_modes p q k d = match_modes p q k d'.
Proof.
  unfold match_modes. do 4 f_equal. apply (rows_of_keep (fun k _ => k.1 =? p)).
  - intros ? m. by intros [? _]%andb_true_iff.
  - exact (f_equal View.modes Hv).
Qed.

Lemma read_member_mode i : member_mode_id p i d = member_mode_id p i d'.
Proof.
  unfold member_mode_id. do 3 f_equal. apply (rows_of_keep (fun k _ => k.1.1 =? p)).
  - intros ? m. by intros [? _]%andb_true_iff.
  - exact (f_equal View.members Hv).
Qed.

Lemma read_first_seen tch : test_case_first_seen p tch d = test_case_first_seen p tch d'.
Proof.
  unfold test_case_first_seen. cbv zeta. erewrite (rows_of_keep (fun k _ => k.1 =? p)); [done| |].
  - intros k r. by intros [? _]%andb_true_iff.
  - exact (f_equal View.items Hv).
Qed.

Lemma view_cache key : llm_cache d !! (p, key) = llm_cache d' !! (p, key).
Proof.
  apply option_eq. intros x.
  assert (forall e, keep (fun k _ => k.1 =? p) (llm_cache e) !! (p, key) = Some x <-> llm_cache e !! (p, key) = Some x)
    as Hk by (intros e; rewrite lookup_keep; cbn; rewrite Z.eqb_refl; tauto).
  pose proof (f_equal View.cache Hv) as Hc. cbn in Hc. by rewrite <- !Hk, Hc.
Qed.

Lemma read_extraction now th ttl : get_extractor_by_template now p th ttl d = get_extractor_by_template now p th ttl d'.
Proof.
  unfold get_extractor_by_template. do 3 f_equal. apply (rows_of_keep (fun k _ => k.1 =? p)).
  - intros k r. by intros [[[? _]%andb_true_iff _]%andb_true_iff _]%andb_true_iff.
  - exact (f_equal View.cache Hv).
Qed.

Lemma read_answer now key ttl : (get_fresh now p key ttl d).2 = (get_fresh now p key ttl d').2.
Proof.
  unfold get_fresh, bump_hits. rewrite view_cache. destruct (llm_cache d' !! (p, key)); [|done]. by destruct (_ <=? _).
Qed.

Context `{PgSearch}.

Lemma read_row_to_candidate q h s r : _row_to_candidate p q d h s r = _row_to_candidate p q d' h s r.
Proof. unfold _row_to_candidate. by rewrite read_latest_event, read_member_mode. Qed.

Lemma read_candidates q k f : find_candidates p q k f d = find_candidates p q k f d'.
Proof.
  unfold find_candidates, _stage_b, evidence_rows. rewrite read_modes, (read_joined _ _ (fun _ _ _ => eq_refl)).
  do 3 f_equal. apply omap_ext_in. intros h _. unfold candidate_of_hit. rewrite view_signature, view_item.
  destruct (failure_signature d' !! _); [|done]. destruct (test_item d' !! _); [|done]. by rewrite read_row_to_candidate.
Qed.

Lemma read_search q k launches self :
  search_ti_candidates p q k launches self d = search_ti_candidates p q k launches self d'.
Proof.
  unfold search_ti_candidates, ti_rows. rewrite (read_joined _ _ (fun _ _ _ => eq_refl)).
  apply omap_ext_in. intros h _. unfold search_candidate. by rewrite view_signature, view_item.
Qed.
End Reads.

(** What the analysis engine and the search route read of a project, with the cached
    answers of the language model. *)
Record same_reads `{PgVector, PgSearch} (p : Z) (d d' : db) : Prop := {
  same_candidates : forall q k f, find_candidates p q k f d = find_candidates p q k f d';
  same_search : forall q k launches self,
    search_ti_candidates p q k launches self d = search_ti_candidates p q k launches self d';
  same_first_seen : forall tch, test_case_first_seen p tch d = test_case_first_seen p tch d';
  same_extraction : forall now th ttl, get_extractor_by_template now p th ttl d = get_extractor_by_template now p th ttl d';
  same_answer : forall now key ttl, (get_fresh now p key ttl d).2 = (get_fresh now p key ttl d').2;
  same_signatures : forall ids, get_signatures p ids d = get_signatures p ids d';
  same_hash_matches : forall h limit, find_hash_matches p h limit d = find_hash_matches p h limit d';
  same_by_error_hash : forall h limit, find_by_error_hash p h limit d = find_by_error_hash p h limit d';
  same_hash_seen : forall h launch, error_hash_seen p h launch d = error_hash_seen p h launch d';
  same_modes : forall q k, match_modes p q k d = match_modes p q k d';
  same_member_mode : forall i, member_mode_id p i d = member_mode_id p i d';
  same_labels : forall ids, get_items_labels p ids d = get_items_labels p ids d';
  same_launch_names : forall ids, item_launch_names p ids d = item_launch_names p ids d';
  same_history : forall hashes, get_test_history p hashes d = get_test_history p hashes d';
  same_rubric : forall i, latest_rubric_provisional p i d = latest_rubric_provisional p i d';
  same_judge : forall now i, latest_judge now p i d = latest_judge now p i d';
  same_switch : forall role, is_enabled p role d = is_enabled p role d'
}.

Lemma view_same_reads `{PgVector, PgSearch} p d d' : view p d = view p d' -> same_reads p d d'.
Proof.
  intros Hv. split; intros.
  - by apply read_candidates.
  - by apply read_search.
  - by apply read_first_seen.
  - by apply read_extraction.
  - by apply read_answer.
  - apply foldr_same. intros i m. by rewrite (view_signature p d d' Hv).
  - by apply read_hash_matches.
  - by apply read_by_error_hash.
  - by apply read_hash_seen.
  - by apply read_modes.
  - by apply read_member_mode.
  - by apply read_labels.
  - apply foldr_same. intros i m. by rewrite (view_item p d d' Hv).
  - apply foldr_same. intros i m. by rewrite (view_hist p d d' Hv).
  - unfold latest_rubric_provisional. by rewrite (read_latest_where p d d' Hv).
  - unfold latest_judge. by rewrite (read_latest_where p d d' Hv).
  - unfold is_enabled.
    assert (llm_role_state d !! (p, role) = llm_role_state d' !! (p, role)) as ->; [|done]. apply option_eq. intros x.
    assert (forall e, keep (fun k _ => k.1 =? p) (llm_role_state e) !! (p, role) = Some x <-> llm_role_state e !! (p, role) = Some x)
      as Hk by (intros e; rewrite lookup_keep; cbn; rewrite Z.eqb_refl; tauto).
    pose proof (f_equal View.switches Hv) as Hsw. cbn in Hsw. by rewrite <- !Hk, Hsw.
Qed.
