(* ===== verification/StoreInv.v ===== *)
(** * Invariants of the store

    What every sequence of repository writes keeps: the sequences stay ahead of
    the identities in use, memberships refer to modes, a launch has one group per
    fingerprint and a project one copy of a seed mode; the label log only grows,
    except for what the orphan reaper takes, and the reaper takes nothing that was
    not orphaned at every one of its passes for the whole grace period. *)

From S2P Require Import Prelude PyFloat PyStr PyJson PyTime DrainStore Ingest LlmEngine Models Database.
From S2P Require Import Retrieval Knowledge LabelLog LlmStores TestStats HybridSearch StoreOps.
From Stdlib Require Import ZArith Lia.

#[local] Open Scope string_scope.
#[local] Open Scope list_scope.
#[local] Open Scope Z_scope.

Import Db.

Section Invariants.
Context `{PgVector}.

(** ** Which tables a write leaves alone *)

(** The label log and its tombstones change only in these writes. *)
Definition log_of (d : db) : gmap Z EventRow.t * gmap (Z * Z) Z := (label_event d, label_event_orphan d).

Lemma log_exec o d :
  log_of (exec o d) =
  match o with
  | AppendEvent now ev => log_of (committed fst d (append_event now ev d))
  | Reap now grace => log_of (reap_orphan_label_events now grace d).1
  | _ => log_of d
  end.
Proof.
  destruct o; cbn [exec]; try done.
  - by destruct items.
  - unfold update_issue_type. by destruct (test_item d !! _).
  - by destruct ids.
  - unfold delete_launches. by destruct ids.
  - unfold spawn_candidate_mode. by destruct (check_mode _ _).
  - unfold ensure_seed_mode. destruct (check_mode _ _); [|done]. by destruct (seeded _ _ _).
  - unfold add_members. destruct members; [done|]. destruct (forallb _ _); [|done].
    destruct (failure_mode d !! _); [|done]. by destruct emb_ver.
  - unfold update_purity. destruct (failure_mode d !! _); [|done]. by destruct (_ewma_centroid _ _ _ _).
  - unfold merge_modes. destruct (failure_mode d !! _); [|done]. destruct (failure_mode d !! _); [|done].
    by destruct (_merged_centroid _ _ _ _ _ _) as [[]|].
  - unfold split_mode. destruct (failure_mode d !! _) as [row|]; [|done].
    destruct (split_parts _ _ _ _ _) as [d' ids] eqn:E. cbn [committed fst]. change d' with (d', ids).1. rewrite <- E.
    change (log_of (_retire p m ?x)) with (log_of x). clear E.
    generalize (pysorted (fun a b : Z * list Z => a.1 <=? b.1) partition) as parts. intros parts. revert d.
    induction parts as [|[n items] parts IH]; intros d; [done|]. cbn [split_parts].
    destruct (insert_mode p _ d) as [d1 id] eqn:E1.
    destruct (split_parts now p row parts (add_humans now p id items d1)) as [d2 ids2] eqn:E2. cbn [fst].
    specialize (IH (add_humans now p id items d1)). rewrite E2 in IH. cbn [fst] in IH. rewrite IH.
    change (log_of d1 = log_of d). change d1 with (d1, id).1. by rewrite <- E1.
  - unfold set_status. destruct (failure_mode d !! _); [|done]. by destruct (check_mode _ _).
  - unfold annotate_judge. by destruct (latest_suggestion _ _ _) as [[]|].
  - unfold get_fresh, bump_hits. destruct (llm_cache d !! _); [|done]. by destruct (_ <=? _).
  - unfold record. by destruct (_ && _).
Qed.

Lemma events_exec o d :
  label_event (exec o d) =
  match o with
  | AppendEvent now ev => label_event (committed fst d (append_event now ev d))
  | Reap now grace => label_event (reap_orphan_label_events now grace d).1
  | _ => label_event d
  end.
Proof. pose proof (f_equal fst (log_exec o d)) as E. cbn [log_of fst] in E. rewrite E. by destruct o. Qed.

Lemma orphans_exec o d : (forall now grace, o <> Reap now grace) -> label_event_orphan (exec o d) = label_event_orphan d.
Proof.
  intros Ho. pose proof (f_equal snd (log_exec o d)) as E. cbn [log_of snd] in E. rewrite E. destruct o; try done.
  - by destruct (Ho now grace_days).
  - unfold append_event. by destruct (bool_decide _).
Qed.

(** ** Elementary updates

    Every write is a sequence of these. *)

Inductive prim (d : db) : db -> Prop :=
  | prim_drain v : prim d (with_drain v d)
  | prim_items v : prim d (with_test_item v d)
  | prim_signatures v : prim d (with_failure_signature v d)
  | prim_members_drop Q : prim d (with_mode_membership (drop Q (mode_membership d)) d)
  | prim_member p m i row : is_Some (failure_mode d !! (p, m)) ->
      prim d (with_mode_membership (<[(p, m, i) := row]> (mode_membership d)) d)
  | prim_mode_new p row :
      (forall k, ModeRow.seed_key row = Some k -> seeded p k d = None) -> prim d (insert_mode p row d).1
  | prim_mode_alter p m f : (forall r, ModeRow.seed_key (f r) = ModeRow.seed_key r) -> prim d (alter_mode p m f d)
  | prim_mode_taken : prim d (with_next_mode (next_mode d + 1) d)
  | prim_suggestion_new now s : prim d (write_suggestion now s d).1
  | prim_suggestions v : (forall id, is_Some (v !! id) -> is_Some (suggestion d !! id)) -> prim d (with_suggestion v d)
  | prim_event now ev : prim d (committed fst d (append_event now ev d))
  | prim_group p launch fp n prior dom : prim d (upsert_launch_group p launch fp n prior dom d).1
  | prim_history v : prim d (with_test_history_stats v d)
  | prim_daily v : prim d (with_metrics_daily v d)
  | prim_cache v : prim d (with_llm_cache v d)
  | prim_switches v : prim d (with_llm_role_state v d)
  | prim_call now c : prim d (committed fst d (record now c d))
  | prim_delete_project p : prim d (delete_project p d).1
  | prim_reap now grace : prim d (reap_orphan_label_events now grace d).1.

Abbreviation prims := (rtc prim).

Lemma prims_once d d' : prim d d' -> prims d d'.
Proof. apply rtc_once. Qed.

Lemma prims_projects qs d : prims d (add_projects qs d).
Proof. apply prims_once, prim_drain. Qed.

Lemma dropped_in {K A} `{Countable K} (P : K -> A -> bool) (m : gmap K A) k : is_Some (drop P m !! k) -> is_Some (m !! k).
Proof. intros [x [Hx _]%lookup_drop]. by eexists. Qed.

Lemma prims_purge p sel d : prims d (_purge_items p sel d).
Proof.
  unfold _purge_items. set (d1 := with_suggestion (drop _ (suggestion d)) d).
  set (d2 := with_failure_signature (drop _ _) d1).
  apply (rtc_l _ _ d1); [apply prim_suggestions; intros id; apply dropped_in|].
  apply (rtc_l _ _ d2); [apply prim_signatures|]. apply prims_once, (prim_members_drop d2).
Qed.

Lemma prims_delete_where p w d : prims d (delete_where p w d).1.
Proof. eapply rtc_r; [apply prims_purge|apply prim_items]. Qed.

Lemma prims_fold_members {B} (p m : Z) (f : gmap (Z * Z * Z) MemberRow.t -> B -> gmap (Z * Z * Z) MemberRow.t) l d :
  is_Some (failure_mode d !! (p, m)) ->
  (forall mem x, f mem x = mem \/ exists i row, f mem x = <[(p, m, i) := row]> mem) ->
  prims d (with_mode_membership (fold_left f l (mode_membership d)) d).
Proof.
  intros Hm Hf. revert d Hm. induction l as [|x l IH]; intros d Hm; cbn [fold_left].
  - by destruct d.
  - destruct (Hf (mode_membership d) x) as [->|(i & row & ->)]; [by apply IH|].
    apply (rtc_l _ _ (with_mode_membership (<[(p, m, i) := row]> (mode_membership d)) d)); [by apply prim_member|].
    pose proof (IH (with_mode_membership (<[(p, m, i) := row]> (mode_membership d)) d) Hm) as IH'. exact IH'.
Qed.

Lemma prims_add_humans now p m items d : is_Some (failure_mode d !! (p, m)) -> prims d (add_humans now p m items d).
Proof.
  intros Hm. apply (prims_fold_members p m); [done|]. intros mem i. unfold add_human.
  destruct (mem !! (p, m, i)); [by left|right; by eexists _, _].
Qed.

Lemma insert_mode_has p row d : is_Some (failure_mode (insert_mode p row d).1 !! (p, (insert_mode p row d).2)).
Proof. unfold insert_mode. cbn. rewrite lookup_insert_eq. by eexists. Qed.

Lemma prims_split now p row parts d : prims d (split_parts now p row parts d).1.
Proof.
  revert d. induction parts as [|[n items] parts IH]; intros d; [done|]. cbn [split_parts].
  destruct (insert_mode p _ d) as [d1 id] eqn:E1.
  destruct (split_parts now p row parts (add_humans now p id items d1)) as [d2 ids2] eqn:E2. cbn [fst].
  specialize (IH (add_humans now p id items d1)). rewrite E2 in IH. cbn [fst] in IH.
  match type of E1 with insert_mode p ?r d = _ =>
    pose proof (insert_mode_has p r d) as Hh; pose proof (prim_mode_new d p r) as Hn end.
  rewrite E1 in Hh, Hn. cbn [fst snd] in Hh, Hn.
  eapply rtc_l; [by apply Hn|]. etrans; [by apply (prims_add_humans now p id items d1)|exact IH].
Qed.

(** An identity in the map is rewritten in place. *)
Lemma alter_as_insert p m row f d : failure_mode d !! (p, m) = Some row ->
  with_failure_mode (<[(p, m) := f row]> (failure_mode d)) d = alter_mode p m f d.
Proof.
  intros E. unfold alter_mode. f_equal. apply map_eq. intros k. destruct (decide (k = (p, m))) as [->|Hk].
  - by rewrite lookup_insert_eq, lookup_alter_eq, E.
  - by rewrite lookup_insert_ne, lookup_alter_ne.
Qed.

Lemma exec_prims o d : prims d (exec o d).
Proof.
  destruct o as [now items|sigs|q i l auto|q ids|q ids|q field before after|q|now grace|now q i l|now s
    |q launch fp n prior dom|now ev|now mode items|q key mode|now q m members ver|q m|q src dst|now q m parts
    |q m status l src|q sid text|q i patch|now q i launch l c ver fs|q tch failed ts|m|q state v config|now q rows
    |now q key ttl|now q key role model output th|now a|now q role on reason stats]; cbn [exec].
  - unfold upsert_items. destruct items as [|it items]; [done|].
    eapply rtc_l; [apply prim_drain|apply prims_once, prim_items].
  - apply prims_once, prim_signatures.
  - unfold update_issue_type. destruct (test_item d !! _); [apply prims_once, prim_items|done].
  - unfold delete_items. destruct ids as [|x ids]; [done|]. eapply rtc_r; [apply prims_purge|apply prim_items].
  - unfold delete_launches. destruct ids as [|x ids]; [done|].
    destruct (delete_where q _ d) as [d' n] eqn:E. cbn [fst]. eapply rtc_r.
    + pose proof (prims_delete_where q (fun r => bool_decide (ItemRow.launch_id r ∈ x :: ids)) d) as Hp.
      rewrite E in Hp. exact Hp.
    + eapply prim_suggestions. intros id. apply dropped_in.
  - apply prims_delete_where.
  - apply prims_once, prim_delete_project.
  - apply prims_once, prim_reap.
  - apply prims_once, prim_suggestions. intros id. by rewrite lookup_fmap, fmap_is_Some.
  - apply prims_once, prim_suggestion_new.
  - apply prims_once, prim_group.
  - apply prims_once, prim_event.
  - unfold spawn_candidate_mode. destruct (check_mode _ _); [|done]. set (p := ModeIn.project_id mode).
    destruct (insert_mode p _ _) as [d' id] eqn:E. cbn [committed fst].
    etrans; [apply (prims_projects [p])|].
    pose proof (insert_mode_has p (fresh_mode mode None) (add_projects [p] d)) as Hh.
    pose proof (prim_mode_new (add_projects [p] d) p (fresh_mode mode None)) as Hn.
    rewrite E in Hh, Hn. cbn [fst snd] in Hh, Hn. eapply rtc_l; [by apply Hn|]. by apply prims_add_humans.
  - unfold ensure_seed_mode. destruct (check_mode _ _); [|done].
    destruct (seeded q key (add_projects [q] d)) as [id|] eqn:E; cbn [committed fst].
    + etrans; [apply (prims_projects [q])|apply prims_once, (prim_mode_taken (add_projects [q] d))].
    + etrans; [apply (prims_projects [q])|apply prims_once, prim_mode_new]. by intros k [= <-].
  - unfold add_members. destruct members as [|x members]; [done|]. destruct (forallb _ _); [|done].
    destruct (failure_mode d !! (q, m)) as [row|] eqn:E; [|done]. cbn [committed fst].
    assert (prims d (with_mode_membership (fold_left (put_member now q m) (x :: members) (mode_membership d)) d)) as Hm.
    { apply (prims_fold_members q m); [by rewrite E|]. intros mem [[i sc] by_]. right. by eexists _, _. }
    destruct ver as [v|]; [|done]. eapply rtc_r; [exact Hm|].
    rewrite (alter_as_insert q m row (stamp_version v)) by done. by apply prim_mode_alter.
  - unfold update_purity. destruct (failure_mode d !! (q, m)) as [row|] eqn:E; [|done].
    destruct (_ewma_centroid q m row d) as [c|e]; cbn; [|done].
    rewrite (alter_as_insert q m row (with_purity _ _ c)) by done. by apply prims_once, prim_mode_alter.
  - unfold merge_modes. destruct (failure_mode d !! (q, dst)) as [drow|] eqn:Ed; [|done].
    destruct (failure_mode d !! (q, src)) as [srow|] eqn:Es; [|done].
    destruct (_merged_centroid _ _ _ _ _ _) as [[c ver]|e]; cbn; [|done].
    etrans; [apply (prims_fold_members q dst (merge_member q dst) (members_of q src d) d)|].
    + by rewrite Ed.
    + intros mem x. right. by eexists _, _.
    + eapply rtc_l; [apply (prim_members_drop (with_mode_membership _ d))|].
      eapply rtc_l; [|apply prims_once, prim_mode_alter; done].
      by apply (prim_mode_alter (with_mode_membership _ (with_mode_membership _ d))).
  - unfold split_mode. destruct (failure_mode d !! (q, m)) as [row|]; [|done].
    destruct (split_parts _ _ _ _ _) as [d' ids] eqn:E. cbn [committed fst].
    eapply rtc_r; [|by apply prim_mode_alter]. change d' with (d', ids).1. rewrite <- E. apply prims_split.
  - unfold set_status. destruct (failure_mode d !! (q, m)); [|done]. destruct (check_mode _ _); [|done].
    by apply prims_once, prim_mode_alter.
  - apply prims_once, prim_suggestions. intros id. by rewrite lookup_alter_is_Some.
  - unfold annotate_judge. destruct (latest_suggestion q i d) as [[id s]|]; [|done].
    apply prims_once, prim_suggestions. intros j. by rewrite lookup_alter_is_Some.
  - apply prims_once, prim_suggestion_new.
  - apply prims_once, prim_history.
  - apply prims_once, prim_daily.
  - apply prims_once, prim_drain.
  - apply prims_once, prim_drain.
  - unfold get_fresh, bump_hits. destruct (llm_cache d !! (q, key)) as [r|]; [|done]. destruct (_ <=? _); [|done].
    apply prims_once, prim_cache.
  - apply prims_once, prim_cache.
  - apply prims_once, prim_call.
  - apply prims_once, prim_switches.
Qed.

(** ** Integrity *)

Record integrity (d : db) : Prop := {
  int_sequences : sequences d;
  int_members : forall p m i, is_Some (mode_membership d !! (p, m, i)) -> is_Some (failure_mode d !! (p, m));
  int_groups : forall p a b ra rb, launch_group d !! (p, a) = Some ra -> launch_group d !! (p, b) = Some rb ->
    GroupRow.launch_id ra = GroupRow.launch_id rb -> GroupRow.fingerprint ra = GroupRow.fingerprint rb -> a = b;
  int_seeds : forall p a b ra rb k, failure_mode d !! (p, a) = Some ra -> failure_mode d !! (p, b) = Some rb ->
    ModeRow.seed_key ra = Some k -> ModeRow.seed_key rb = Some k -> a = b
}.

Lemma integrity_empty : integrity empty_db.
Proof. repeat split; simpl; intros; try (by destruct H0 as [? ?]); by rewrite ?lookup_empty in *. Qed.

Lemma seeded_None p k d a r : seeded p k d = None -> failure_mode d !! (p, a) = Some r -> ModeRow.seed_key r <> Some k.
Proof.
  unfold seeded. intros E Ha Hk. destruct (rows_of _ _) as [|[x y] l] eqn:Er; [|done].
  pose proof (rows_of_nil _ _ Er _ _ Ha) as Hf. cbn in Hf. by rewrite Z.eqb_refl, bool_decide_eq_true_2 in Hf.
Qed.

Lemma sequences_mono d d' :
  (forall id, is_Some (label_event d' !! id) -> is_Some (label_event d !! id) \/ id < next_event d') ->
  (forall id, is_Some (suggestion d' !! id) -> is_Some (suggestion d !! id) \/ id < next_suggestion d') ->
  (forall p id, is_Some (failure_mode d' !! (p, id)) -> is_Some (failure_mode d !! (p, id)) \/ id < next_mode d') ->
  (forall p id, is_Some (launch_group d' !! (p, id)) -> is_Some (launch_group d !! (p, id)) \/ id < next_group d') ->
  next_event d <= next_event d' -> next_suggestion d <= next_suggestion d' -> next_mode d <= next_mode d' ->
  next_group d <= next_group d' ->
  (forall id, is_Some (llm_event d' !! id) -> is_Some (llm_event d !! id) \/ id < next_audit d') ->
  next_audit d <= next_audit d' -> sequences d -> sequences d'.
Proof.
  intros He Hs Hm Hg Le Ls Lm Lg Ha La [Se Ss Sm Sg Sa]. split.
  - intros id Hi. destruct (He id Hi) as [Ho|]; [|done]. apply Se in Ho. lia.
  - intros id Hi. destruct (Hs id Hi) as [Ho|]; [|done]. apply Ss in Ho. lia.
  - intros p id Hi. destruct (Hm p id Hi) as [Ho|]; [|done]. apply Sm in Ho. lia.
  - intros p id Hi. destruct (Hg p id Hi) as [Ho|]; [|done]. apply Sg in Ho. lia.
  - intros id Hi. destruct (Ha id Hi) as [Ho|]; [|done]. apply Sa in Ho. lia.
Qed.

Lemma inserted {K A} `{Countable K} (m : gmap K A) k x j :
  is_Some (<[k := x]> m !! j) -> is_Some (m !! j) \/ j = k.
Proof. destruct (decide (k = j)) as [->|Hne]; [by right|]. rewrite lookup_insert_ne by done. by left. Qed.

(** The row an upsert of a launch group writes to: the one of its fingerprint,
    or a new one. *)
Lemma group_row p launch fp n prior dom d : sequences d ->
  let id := (upsert_launch_group p launch fp n prior dom d).2 in
  launch_group (upsert_launch_group p launch fp n prior dom d).1 =
    <[(p, id) := GroupRow.mk launch fp n dom (to_real prior)]> (launch_group d) /\
  id <= next_group d /\
  (forall a r, launch_group d !! (p, a) = Some r -> GroupRow.launch_id r = launch -> GroupRow.fingerprint r = fp ->
     exists b r', launch_group d !! (p, b) = Some r' /\ GroupRow.launch_id r' = launch /\
                  GroupRow.fingerprint r' = fp /\ id = b).
Proof.
  intros Hs. unfold upsert_launch_group. cbn [fst snd].
  destruct (map_to_list (keep _ (launch_group d))) as [|[k r] l] eqn:E.
  - split_and!; [done|lia|]. intros a r Ha Hl Hf. exfalso.
    pose proof (rows_of_nil _ _ E _ _ Ha) as Hn. cbn in Hn. rewrite Z.eqb_refl in Hn.
    rewrite Hl, Hf, !Z.eqb_refl in Hn. done.
  - pose proof (rows_of_head _ _ _ _ _ E) as [Hk HP]. rewrite !andb_true_iff, !Z.eqb_eq in HP.
    destruct HP as [[Hp Hl] Hf]. destruct k as [q b]. cbn in Hp. subst q. cbn [snd]. split_and!; [done| |].
    + assert (b < next_group d) by (apply (seq_groups d Hs p); by eexists). lia.
    + intros a ra _ _ _. by exists b, r.
Qed.

Lemma sequences_prim d d' : prim d d' -> sequences d -> sequences d'.
Proof.
  intros Hp Hs. revert Hs. destruct Hp; intros Hs; (apply (sequences_mono d); [..|exact Hs]); cbn;
    try (by intros; left); try lia; try done;
    try (unfold reap_orphan_label_events; destruct (grace <=? 0); cbn;
         solve [by intros; left|lia|intros id Hi; left; by apply dropped_in in Hi]);
    try (unfold append_event; destruct (bool_decide _); cbn; solve [by intros; left|lia]);
    try (unfold record; destruct (_ && _); cbn; solve [by intros; left|lia]).
  - intros q id Hi. apply inserted in Hi as [?|[= -> ->]]; [by left|right; lia].
  - intros q id. rewrite lookup_alter_is_Some. by left.
  - intros id Hi. apply inserted in Hi as [?| ->]; [by left|right; lia].
  - intros id Hi. left. auto.
  - unfold append_event. destruct (bool_decide _); cbn; [|by left]. intros id Hi.
    apply inserted in Hi as [?| ->]; [by left|right; lia].
  - intros q id Hi. pose proof (group_row p launch fp n prior dom d Hs) as (_ & Hle & _).
    apply inserted in Hi as [?|[= -> ->]]; [by left|right]. unfold upsert_launch_group in Hle. cbn in Hle. lia.
  - unfold record. destruct (_ && _); cbn; [|by left]. intros id Hi.
    apply inserted in Hi as [?| ->]; [by left|right; lia].
  - intros id Hi. left. by apply dropped_in in Hi.
  - intros q id Hi. left. by apply dropped_in in Hi.
  - intros q id Hi. left. by apply dropped_in in Hi.
Qed.

Lemma members_prim d d' : prim d d' ->
  (forall p m i, is_Some (mode_membership d !! (p, m, i)) -> is_Some (failure_mode d !! (p, m))) ->
  forall p m i, is_Some (mode_membership d' !! (p, m, i)) -> is_Some (failure_mode d' !! (p, m)).
Proof.
  intros Hp Hfk. destruct Hp; intros q a j; cbn; try (by apply Hfk);
    try (unfold record; destruct (_ && _); cbn; by apply Hfk).
  - intros Hj%dropped_in. by eapply Hfk.
  - intros [Hj|[= -> -> ->]]%inserted; [by eapply Hfk|done].
  - intros Hj. unfold insert_mode. cbn. rewrite lookup_insert_is_Some'. right. by eapply Hfk.
  - intros Hj. rewrite lookup_alter_is_Some. by eapply Hfk.
  - unfold append_event. destruct (bool_decide _); cbn; apply Hfk.
  - intros [x [Hx Hq]%lookup_drop]. destruct (Hfk q a j ltac:(by eexists)) as [y Hy]. exists y.
    by apply lookup_drop.
  - unfold reap_orphan_label_events. destruct (grace <=? 0); cbn; apply Hfk.
Qed.

Lemma groups_prim d d' : prim d d' -> sequences d ->
  (forall p a b ra rb, launch_group d !! (p, a) = Some ra -> launch_group d !! (p, b) = Some rb ->
    GroupRow.launch_id ra = GroupRow.launch_id rb -> GroupRow.fingerprint ra = GroupRow.fingerprint rb -> a = b) ->
  forall p a b ra rb, launch_group d' !! (p, a) = Some ra -> launch_group d' !! (p, b) = Some rb ->
    GroupRow.launch_id ra = GroupRow.launch_id rb -> GroupRow.fingerprint ra = GroupRow.fingerprint rb -> a = b.
Proof.
  intros Hp Hs Hu. destruct Hp; intros q a b ra rb; cbn; try (by apply Hu);
    try (unfold record; destruct (_ && _); cbn; by apply Hu).
  - unfold append_event. destruct (bool_decide _); cbn; apply Hu.
  - pose proof (group_row p launch fp n prior dom d Hs) as (_ & _ & Hg). unfold upsert_launch_group in Hg |- *.
    cbn in Hg |- *. set (id := match _ with [] => _ | _ => _ end) in *.
    assert (forall a ra, <[(p, id) := GroupRow.mk launch fp n dom (to_real prior)]> (launch_group d) !! (q, a) = Some ra ->
      GroupRow.launch_id ra = launch -> GroupRow.fingerprint ra = fp -> q = p -> a = id) as Hone.
    { intros c rc Hc Hl Hf ->. destruct (decide (c = id)) as [|Hne]; [done|].
      rewrite lookup_insert_ne in Hc by congruence.
      destruct (Hg c rc Hc Hl Hf) as (b' & r' & Hb & Hl' & Hf' & ->).
      by apply (Hu p c b' rc r'); [..|congruence|congruence]. }
    intros Ha Hb Hl Hf. destruct (decide ((q, a) = (p, id))) as [[= -> ->]|Hna].
    + rewrite lookup_insert_eq in Ha. injection Ha as <-. symmetry. by apply (Hone b rb).
    + destruct (decide ((q, b) = (p, id))) as [[= -> ->]|Hnb].
      * rewrite lookup_insert_eq in Hb. injection Hb as <-. by apply (Hone a ra).
      * rewrite lookup_insert_ne in Ha by congruence. rewrite lookup_insert_ne in Hb by congruence. by eapply Hu.
  - intros [Ha _]%lookup_drop [Hb _]%lookup_drop. by apply (Hu q).
  - unfold reap_orphan_label_events. destruct (grace <=? 0); cbn; apply Hu.
Qed.

Lemma seeds_prim d d' : prim d d' -> sequences d ->
  (forall p a b ra rb k, failure_mode d !! (p, a) = Some ra -> failure_mode d !! (p, b) = Some rb ->
    ModeRow.seed_key ra = Some k -> ModeRow.seed_key rb = Some k -> a = b) ->
  forall p a b ra rb k, failure_mode d' !! (p, a) = Some ra -> failure_mode d' !! (p, b) = Some rb ->
    ModeRow.seed_key ra = Some k -> ModeRow.seed_key rb = Some k -> a = b.
Proof.
  intros Hp Hs Hu. destruct Hp as [| | | | |p row Hfresh|p m f Hf| | | |now ev| | | | | |now c|p|now grace];
    intros q a b ra rb k; cbn; try (by apply Hu);
    try (unfold record; destruct (_ && _); cbn; by apply Hu).
  - intros Ha Hb Ka Kb.
    destruct (decide ((q, a) = (p, next_mode d))) as [Ea|Hna], (decide ((q, b) = (p, next_mode d))) as [Eb|Hnb].
    + congruence.
    + injection Ea as -> ->. rewrite lookup_insert_eq in Ha. injection Ha as <-.
      rewrite lookup_insert_ne in Hb by congruence. by destruct (seeded_None p k d b rb (Hfresh k Ka) Hb).
    + injection Eb as -> ->. rewrite lookup_insert_eq in Hb. injection Hb as <-.
      rewrite lookup_insert_ne in Ha by congruence. by destruct (seeded_None p k d a ra (Hfresh k Kb) Ha).
    + rewrite lookup_insert_ne in Ha by congruence. rewrite lookup_insert_ne in Hb by congruence. by eapply Hu.
  - assert (forall c rc, alter f (p, m) (failure_mode d) !! (q, c) = Some rc ->
      exists rc', failure_mode d !! (q, c) = Some rc' /\ ModeRow.seed_key rc = ModeRow.seed_key rc') as Hold.
    { intros c rc Hc. apply lookup_alter_Some in Hc as [(_ & x & Hx & ->)|[_ Hx]]; eexists; (split; [exact Hx|]);
        [apply Hf|done]. }
    intros Ha Hb Ka Kb. destruct (Hold a ra Ha) as (ra' & Ha' & Ea), (Hold b rb Hb) as (rb' & Hb' & Eb).
    apply (Hu q a b ra' rb' k); congruence.
  - unfold append_event. destruct (bool_decide _); cbn; apply Hu.
  - intros [Ha _]%lookup_drop [Hb _]%lookup_drop. by apply (Hu q).
  - unfold reap_orphan_label_events. destruct (grace <=? 0); cbn; apply Hu.
Qed.

Lemma integrity_exec o d : integrity d -> integrity (exec o d).
Proof.
  intros Hi. pose proof (exec_prims o d) as Hp. revert Hi. induction Hp as [|x y z Hxy _ IH]; [done|].
  intros [Hs Hm Hg Hk]. apply IH. split.
  - by eapply sequences_prim.
  - by eapply members_prim.
  - by eapply groups_prim.
  - by eapply seeds_prim.
Qed.

(** ** Histories *)

(** The writes made since the store was created, each with the store it found. *)
Inductive history : list (op * db) -> db -> Prop :=
  | history_nil : history [] empty_db
  | history_write l d o : history l d -> history (l ++ [(o, d)]) (exec o d).

(** A sequence of writes, each with the store it finds. *)
Fixpoint replay (d : db) (os : list op) : list (op * db) * db :=
  match os with
  | [] => ([], d)
  | o :: os' => let '(l, d') := replay (exec o d) os' in ((o, d) :: l, d')
  end.

Lemma replay_history l d os : history l d -> history (l ++ (replay d os).1) (replay d os).2.
Proof.
  revert l d. induction os as [|o os IH]; intros l d Hh; cbn; [by rewrite app_nil_r|].
  specialize (IH (l ++ [(o, d)]) (exec o d) (history_write _ _ _ Hh)). destruct (replay (exec o d) os) as [l' d'].
  by rewrite <- app_assoc in IH.
Qed.

Lemma replay_store d os : (replay d os).2 = fold_left (fun d o => exec o d) os d.
Proof. revert d. induction os as [|o os IH]; intros d; [done|]. cbn. rewrite <- IH. by destruct (replay (exec o d) os). Qed.
Lemma replay_ops d os : (replay d os).1.*1 = os.
Proof.
  revert d. induction os as [|o os IH]; intros d; [done|]. cbn. specialize (IH (exec o d)).
  destruct (replay (exec o d) os). cbn in *. by rewrite IH.
Qed.

Lemma history_integrity l d : history l d -> integrity d.
Proof. induction 1 as [|l d o _ IH]; [exact integrity_empty|by apply integrity_exec]. Qed.

(** ** The label log *)

Lemma reap_labels now grace d :
  label_event (reap_orphan_label_events now grace d).1 =
  if grace <=? 0 then label_event d
  else drop (fun _ e => overdue now grace (unmark (mark now d)) (event_key e)) (label_event d).
Proof. unfold reap_orphan_label_events. by destruct (grace <=? 0). Qed.

Lemma log_grows o d : sequences d -> (forall now grace, o <> Reap now grace) -> label_event d ⊆ label_event (exec o d).
Proof.
  intros Hs Ho. rewrite events_exec. destruct o; try done.
  - by destruct (Ho now grace_days).
  - unfold append_event. destruct (bool_decide _); cbn; [|done]. apply insert_subseteq.
    destruct (label_event d !! next_event d) eqn:E; [|done].
    assert (next_event d < next_event d) by (apply (seq_events d Hs); by eexists). lia.
Qed.

(** ** The orphan reaper *)

(** Every pass of the reaper among these writes found no item under the key. *)
Definition orphan_throughout (k : Z * Z) (l : list (op * db)) : Prop :=
  forall now grace d, (Reap now grace, d) ∈ l -> orphan d k = true.

(** The pass that first found the key without an item; so did every one since. *)
Definition orphaned_since (k : Z * Z) (t : Z) (l : list (op * db)) : Prop :=
  exists l1 g d0 l2, l = l1 ++ (Reap t g, d0) :: l2 /\ orphan_throughout k ((Reap t g, d0) :: l2).

Lemma orphaned_since_snoc k t l o d :
  orphaned_since k t l -> (forall now grace, o = Reap now grace -> orphan d k = true) -> orphaned_since k t (l ++ [(o, d)]).
Proof.
  intros (l1 & g & d0 & l2 & -> & Hl) Ho. exists l1, g, d0, (l2 ++ [(o, d)]). rewrite <- app_assoc. split; [done|].
  intros now grace x [Hx|Hx]%(elem_of_app ((_, _) :: l2)); [by eapply Hl|].
  apply list_elem_of_singleton in Hx as [= <- <-]. by eapply Ho.
Qed.

(** A marked key: marked before, or without an item now. *)
Lemma marked now d k t : label_event_orphan (unmark (mark now d)) !! k = Some t ->
  orphan d k = true /\ (label_event_orphan d !! k = Some t \/ t = now).
Proof.
  unfold unmark, mark. cbn. intros [Hk Ho]%lookup_keep. split; [exact Ho|].
  apply lookup_union_Some_raw in Hk as [?|[_ Hk]]; [by left|right].
  apply lookup_gset_to_gmap_Some in Hk as [_ ->]. done.
Qed.

Lemma tombstones l d : history l d -> forall k t, label_event_orphan d !! k = Some t -> orphaned_since k t l.
Proof.
  induction 1 as [|l d o _ IH]; intros k t Hk; [done|].
  assert ((exists now grace, o = Reap now grace) \/ forall now grace, o <> Reap now grace) as [(now & grace & ->)|Hr]
    by (destruct o; try (by right); left; by eexists _, _).
  - assert (label_event_orphan (unmark (mark now d)) !! k = Some t) as Hm.
    { cbn [exec] in Hk. unfold reap_orphan_label_events in Hk. destruct (grace <=? 0); [done|].
      by apply lookup_drop in Hk as [? _]. }
    apply marked in Hm as [Ho [Hold| ->]].
    + by apply orphaned_since_snoc; [apply IH|].
    + exists l, grace, d, []. split; [done|]. intros n g x [= -> -> ->]%list_elem_of_singleton. done.
  - rewrite orphans_exec in Hk by done. apply orphaned_since_snoc; [by apply IH|]. intros n g E. by destruct (Hr n g).
Qed.
(** ** What a history guarantees *)

(** C15. Tenants are isolated: whatever was written before, a repository write
    about some projects leaves every row of any other project, in every table, as
    it was, so no read the analysis engine or the search route makes for the other
    project gives a different answer: its signatures, hash matches, candidates, modes,
    launches, histories, verdicts and cached extractions are the same.  (The orphan
    reaper is the one write about all projects.) *)
Theorem tenant_isolation `{PgSearch} l d o (p : Z) :
  history l d -> ~ touches o p -> view p (exec o d) = view p d /\ same_reads p (exec o d) d.
Proof.
  intros Hh Ht. pose proof (write_isolation p o d (int_sequences d (history_integrity l d Hh)) Ht) as Hv.
  split; [done|]. by apply view_same_reads.
Qed.

(** C16. The store keeps its integrity: after any sequence of repository writes the
    sequences are ahead of every identity in use, a membership names an existing
    mode of its project, a launch has one group row per fingerprint, a project has
    one copy of each seed mode, and a write other than the reaper's only adds to
    the label log. *)
Theorem store_integrity l d :
  history l d ->
  sequences d /\
  (forall p m i, is_Some (mode_membership d !! (p, m, i)) -> is_Some (failure_mode d !! (p, m))) /\
  (forall p a b ra rb, launch_group d !! (p, a) = Some ra -> launch_group d !! (p, b) = Some rb ->
    GroupRow.launch_id ra = GroupRow.launch_id rb -> GroupRow.fingerprint ra = GroupRow.fingerprint rb -> a = b) /\
  (forall p a b ra rb k, failure_mode d !! (p, a) = Some ra -> failure_mode d !! (p, b) = Some rb ->
    ModeRow.seed_key ra = Some k -> ModeRow.seed_key rb = Some k -> a = b) /\
  (forall o, (forall now grace, o <> Reap now grace) -> label_event d ⊆ label_event (exec o d)).
Proof.
  intros Hh. pose proof (history_integrity l d Hh) as [Hs Hm Hg Hk]. split_and!; [done..|].
  intros o Ho. by apply log_grows.
Qed.

(** C17. The reaper is the only way a label event is lost, and it respects the
    grace: an event leaves the log only in a pass with a positive grace, whose item
    is not stored, was not stored at an earlier pass more than the grace ago, and
    was not stored at any pass since. *)
Theorem reaper_respects_grace l d o id e :
  history l d -> label_event d !! id = Some e -> label_event (exec o d) !! id = None ->
  exists now grace t, o = Reap now grace /\ 0 < grace /\ t < now - grace * US_PER_DAY /\
    test_item d !! event_key e = None /\ orphaned_since (event_key e) t l.
Proof.
  intros Hh He Hn. pose proof (int_sequences d (history_integrity l d Hh)) as Hs.
  assert ((exists now grace, o = Reap now grace) \/ forall now grace, o <> Reap now grace) as [(now & grace & ->)|Hr]
    by (destruct o; try (by right); left; by eexists _, _).
  2: { pose proof (log_grows o d Hs Hr) as Hg. rewrite map_subseteq_spec in Hg. apply Hg in He. congruence. }
  cbn [exec] in Hn. rewrite reap_labels in Hn. destruct (Z.leb_spec grace 0) as [|Hp]; [congruence|].
  destruct (overdue now grace (unmark (mark now d)) (event_key e)) eqn:Ho.
  2: { assert (drop (fun _ e => overdue now grace (unmark (mark now d)) (event_key e)) (label_event d) !! id = Some e)
         as Hd by (by apply lookup_drop). congruence. }
  unfold overdue in Ho. destruct (label_event_orphan _ !! _) as [t|] eqn:Et; [|done].
  apply andb_true_iff in Ho as [Hlt _]. apply Z.ltb_lt in Hlt. apply marked in Et as [Horph [Hold| ->]].
  - exists now, grace, t. split_and!; [done..| |by eapply tombstones]. unfold orphan in Horph.
    by apply bool_decide_eq_true_1 in Horph.
  - unfold US_PER_DAY, US_PER_SECOND in Hlt. lia.
Qed.
End Invariants.

(** ** A concrete history *)

Section Example.
#[local] Existing Instances toy_vectors toy_search.

(** Two tenants; the item of the first one's label is never stored. *)
Definition two_tenants : list op :=
  [AppendEvent 5 (LabelEventIn.mk 1 10 None (u "pb001") "human_ui" None);
   AppendEvent 6 (LabelEventIn.mk 2 20 None (u "ab001") "human_ui" None);
   EnsureSeedMode 2 "npe" (ModeIn.mk 2 "seed" (Some (u "pb001")) (Some "seed") None None [] [7] None None);
   UpsertItems 8 [TestItemIn.mk 20 2 3 (u "nightly") 1 (Some 77) (Some (u "t")) (u "test") None false (Some (u "ab001")) 0 None];
   BumpTestHistory 2 77 true 9; UpsertLaunchGroup 2 3 99 4 f1 true;
   Reap 10 30].

Lemma two_tenants_history : history (replay empty_db two_tenants).1 (replay empty_db two_tenants).2.
Proof. apply (replay_history [] empty_db). constructor. Qed.

Lemma tenant_isolation_witness :
  let d := (replay empty_db two_tenants).2 in
  view 2 (exec (DeleteProject 1) d) = view 2 d /\ same_reads 2 (exec (DeleteProject 1) d) d.
Proof. apply (tenant_isolation _ _ (DeleteProject 1) 2 two_tenants_history). cbn. lia. Defined.

Lemma store_integrity_witness : sequences (replay empty_db two_tenants).2.
Proof. exact (proj1 (store_integrity _ _ two_tenants_history)). Defined.

Lemma reaper_respects_grace_witness :
  exists now grace t, Reap (31 * US_PER_DAY) 30 = Reap now grace /\ 0 < grace /\ t < now - grace * US_PER_DAY /\
    test_item (replay empty_db two_tenants).2 !! (1, 10) = None /\ orphaned_since (1, 10) t (replay empty_db two_tenants).1.
Proof.
  apply (reaper_respects_grace _ _ (Reap (31 * US_PER_DAY) 30) 1 (EventRow.mk 1 10 None (u "pb001") "human_ui" None 5)
           two_tenants_history); vm_compute; reflexivity.
Defined.
End Example.
