(* ===== verification/RouteHandlers.v ===== *)
(** * The route handlers

    [core/handlers.py]: the stub replies of an unbound service, and the handlers
    over the stores: deletions, the feedback sink, the retrain triggers.  The
    state is the store, the clock its transactions read, and the retrain
    scheduler; a call of the store may fail, and then it has no effect.  The
    trace holds the writes, as the transitions of [StoreOps], and the retrain
    requests.  The index pipeline
    and the analysis engine are given, and so are the wire models. *)

From S2P Require Import Prelude PyFloat PyStr Regex PyText PyInt PyJson JsonText PyTime LlmQueue Retrain Ingest.
From S2P Require Import LlmEngine Models Database Retrieval Knowledge LabelLog TestStats StoreOps StoreInv Emit.
From S2P Require Import Dispatch.
From Stdlib Require Import ZArith Lia.

#[local] Open Scope string_scope.
#[local] Open Scope list_scope.
#[local] Open Scope Z_scope.

Import Db (test_item).

(** ** Requests *)

(** [int | str] and [str | ItemUpdate]. *)
Inductive ident := IdInt (z : Z) | IdText (s : ustr).
Definition int_of (i : ident) : result Z := py_int (match i with IdInt z => JInt z | IdText s => JStr s end).

Inductive item_update := Locator (s : ustr) | Update (issueType : ustr).

(** The fields the handlers read of a request, the replies they construct, and
    what they use of the standard library. *)
Class Payloads `{Wire} := {
  clustering_ids : LaunchInfoForClustering -> Z * Z;      (* project, launch.launchId *)
  clean_ids : DeleteLogsRequest -> list Z;
  items_to_delete : DeleteTestItemsRequest -> ident * list ident;
  launches_to_delete : DeleteLaunchesRequest -> ident * list ident;
  interval : RemoveByDatesRequest -> ident * ustr * ustr; (* project, start, end *)
  items_to_update : DefectUpdate -> ident * list (ident * item_update);
  bulk_response : Z -> bool -> Model;
  cluster_result : Z -> Z -> Model;                       (* without clusters *)
  suggest_pattern : Model;
  fromisoformat : ustr -> result (Z * option Z);          (* the fields, and the offset from UTC *)
  py_float : json -> result pyfloat;
  time_sleep : pyfloat -> result unit
}.

(** [_parse_iso]: a naive time is UTC. *)
Definition _parse_iso `{Payloads} (value : ustr) : result Z :=
  '(t, offset) ← fromisoformat (ureplace (u "Z") (u "+00:00") (ustrip value)); Ok (t - default 0 offset).

(** The index pipeline and the analysis engine. *)
Module Engine.
Record t `{Wire} (St : Type) := mk {
  index_launches : list Launch -> St -> St * result response;
  analyze : list Launch -> St -> St * result response;
  analyze_item_early : list Launch -> St -> St * result response;
  suggest : TestItemInfo -> St -> St * result response;
  cluster : LaunchInfoForClustering -> St -> St * result response;
  search : SearchLogs -> St -> St * result response
}.
End Engine.

(** ** The service *)

Module Service.
Record t := mk {
  store : db; clock : Z; calls : nat; bound : bool; scheduler : option Scheduler.t;
  jobs : queue; dropped : list string;     (* the sidecar's queue, and its [on_drop] calls *)
  llm : LlmState.t
}.
Definition with_store (d : db) (s : t) : t :=
  mk d (clock s) (calls s) (bound s) (scheduler s) (jobs s) (dropped s) (llm s).
(** A store call was made, and its transaction has the time. *)
Definition called (now : Z) (s : t) : t :=
  mk (store s) now (S (calls s)) (bound s) (scheduler s) (jobs s) (dropped s) (llm s).
Definition with_scheduler (sc : option Scheduler.t) (s : t) : t :=
  mk (store s) (clock s) (calls s) (bound s) sc (jobs s) (dropped s) (llm s).
Definition with_bound (s : t) : t :=
  mk (store s) (clock s) (calls s) true (scheduler s) (jobs s) (dropped s) (llm s).
Definition with_jobs (q : queue) (ds : list string) (s : t) : t :=
  mk (store s) (clock s) (calls s) (bound s) (scheduler s) q (dropped s ++ ds) (llm s).
Definition with_llm (l : LlmState.t) (s : t) : t :=
  mk (store s) (clock s) (calls s) (bound s) (scheduler s) (jobs s) (dropped s) l.
End Service.
Abbreviation service := Service.t.

(** What a handler did: a committed write, a retrain request. *)
Inductive effect := Wrote (o : op) | Requested (reason : string).
Definition wrote (e : effect) : option op := match e with Wrote o => Some o | Requested _ => None end.
Definition requested (e : effect) : option string := match e with Requested r => Some r | Wrote _ => None end.

Section Handlers.
Context `{PgVector, Unicode, Payloads}.
(** The clock at the next transaction, and the calls the database refuses. *)
Context (tick : Z -> Z) (outage : nat -> option pyexn).

Abbreviation M := (M service effect).

(** ** Calls of the store *)

Definition reached {A} (k : Z -> M A) : M A := fun w =>
  let s := st w in
  let now := tick (Service.clock s) in
  let w := mk_world (Service.called now s) (trace w) in
  match outage (Service.calls s) with Some e => (w, Raise e) | None => k now w end.

Definition query {A} (f : db -> A) : M A := reached (fun _ => read (fun s => f (Service.store s))).

Definition write {A} (o : Z -> op) (run : Z -> db -> result (db * A)) : M A := reached (fun now w =>
  match run now (Service.store (st w)) with
  | Ok (d, a) => (mk_world (Service.with_store d (st w)) (trace w ++ [Wrote (o now)]), Ok a)
  | Raise e => (w, Raise e)
  end).

Definition is_bound : M bool := read Service.bound.

(** ** Deletions *)

Definition count_reply (n : Z) : response := RValue (JInt n).

Definition delete (project : Z) : M response :=
  b ← is_bound;
  if b : bool then
    n ← write (fun _ => DeleteProject project) (fun _ d => Ok (delete_project project d)); mret (count_reply n)
  else mret (count_reply 0).

(** No row is kept per log. *)
Definition clean (_ : DeleteLogsRequest) : M response := mret (count_reply 0).

(** An empty list of ids reaches no store. *)
Definition item_remove (request : DeleteTestItemsRequest) : M response :=
  let '(project, ids) := items_to_delete request in
  b ← is_bound;
  if b : bool then
    p ← of_result (int_of project);
    ids ← of_result (rmapM int_of ids);
    match ids with
    | [] => mret (count_reply 0)
    | _ => n ← write (fun _ => DeleteItems p ids) (fun _ d => Ok (delete_items p ids d)); mret (count_reply n)
    end
  else mret (count_reply 0).

Definition launch_remove (request : DeleteLaunchesRequest) : M response :=
  let '(project, ids) := launches_to_delete request in
  b ← is_bound;
  if b : bool then
    p ← of_result (int_of project);
    ids ← of_result (rmapM int_of ids);
    match ids with
    | [] => mret (count_reply 0)
    | _ => n ← write (fun _ => DeleteLaunches p ids) (fun _ d => Ok (delete_launches p ids d)); mret (count_reply n)
    end
  else mret (count_reply 0).

Definition _remove_by_dates (request : RemoveByDatesRequest) (field : time_field) : M response :=
  let '(project, start, end_) := interval request in
  b ← is_bound;
  if b : bool then
    p ← of_result (int_of project);
    start ← of_result (_parse_iso start);
    end_ ← of_result (_parse_iso end_);
    n ← write (fun _ => DeleteByTimeRange p field end_ (Some start))
          (fun _ d => Ok (delete_by_time_range p field end_ (Some start) d));
    mret (count_reply n)
  else mret (count_reply 0).

Definition remove_by_launch_start_time (request : RemoveByDatesRequest) : M response := _remove_by_dates request StartTime.
Definition remove_by_log_time (request : RemoveByDatesRequest) : M response := _remove_by_dates request LogTime.

(** ** Feedback *)

Definition request_retrain (reason : string) : M unit := call (Requested reason) (fun s =>
  (Service.with_scheduler ((fun sc => Scheduler.request sc reason) <$> Service.scheduler s) s, Ok tt)).

Definition normalize (x : ident * item_update) : result (Z * ustr) :=
  let issue_type := ulower (ustrip (match x.2 with Locator s | Update s => s end)) in
  i ← int_of x.1; Ok (i, issue_type).

Definition label_change (p i : Z) (old : option ustr) (issue_type : ustr) : LabelEventIn.t :=
  LabelEventIn.mk p i old issue_type "rp_defect_update" None.

(** One entry: the id when it is unknown; else four transactions. *)
Definition feedback (p : Z) (existing : gmap Z (option ustr)) (x : Z * ustr) : M (list Z) :=
  let '(i, issue_type) := x in
  match existing !! i with
  | None => mret [i]
  | Some old =>
      _ ← write (fun _ => UpdateIssueType p i (Some issue_type) false)
            (fun _ d => Ok (update_issue_type p i (Some issue_type) false d));
      _ ← write (fun now => AppendEvent now (label_change p i old issue_type))
            (fun now d => append_event now (label_change p i old issue_type) d);
      mode ← query (member_mode_id p i);
      _ ← match mode with
          | Some m => _ ← write (fun _ => UpdatePurity p m) (fun _ d => update_purity p m d); mret tt
          | None => mret tt
          end;
      _ ← write (fun now => RecordFeedback now p i issue_type)
            (fun now d => Ok (record_feedback_outcome now p i issue_type d));
      mret []
  end.

(** [get_items_labels] of no ids does not reach the store. *)
Definition existing_labels (p : Z) (ids : list Z) : M (gmap Z (option ustr)) :=
  match ids with [] => mret ∅ | _ => query (get_items_labels p ids) end.

Definition ids_reply (ids : list Z) : response := RValue (JList (JInt <$> ids)).

Definition defect_update (request : DefectUpdate) : M response :=
  let '(project, items) := items_to_update request in
  b ← is_bound;
  if b : bool then
    p ← of_result (int_of project);
    normalized ← of_result (rmapM normalize items);
    existing ← existing_labels p normalized.*1;
    not_updated ← forM (feedback p existing) normalized;
    _ ← request_retrain REASON_EVENTS;
    mret (ids_reply (concat not_updated))
  else ids ← of_result (rmapM int_of items.*1); mret (ids_reply ids).

Definition train_models (_ : TrainInfo) : M response := _ ← request_retrain REASON_ROUTE; mret RNone.

(** ** The other routes *)

Context (engine : Engine.t service).

(** The bound handler, or the stub's empty reply. *)
Definition or_stub (run : service -> service * result response) (stub : response) : M response :=
  b ← is_bound; if b : bool then lift run else mret stub.

Definition index (launches : list Launch) : M response :=
  or_stub (Engine.index_launches _ engine launches) (RModel (bulk_response 0 false)).
Definition analyze (launches : list Launch) : M response := or_stub (Engine.analyze _ engine launches) (RModels []).
Definition analyze_item_early (launches : list Launch) : M response :=
  or_stub (Engine.analyze_item_early _ engine launches) (RModels []).
Definition suggest (info : TestItemInfo) : M response := or_stub (Engine.suggest _ engine info) (RModels []).
Definition cluster (info : LaunchInfoForClustering) : M response :=
  let '(project, launch) := clustering_ids info in
  or_stub (Engine.cluster _ engine info) (RModel (cluster_result project launch)).
Definition search (request : SearchLogs) : M response := or_stub (Engine.search _ engine request) (RModels []).

Definition suggest_patterns (_ : Z) : M response := mret (RModel suggest_pattern).
Definition namespace_finder (_ : list Launch) : M response := mret RNone.
Definition index_suggest_info (_ : json) : M response := mret (RValue (JObj [])).
Definition remove_suggest_info (value : Z) : M response := mret (RValue (JInt value)).
Definition update_suggest_info (_ : json) : M response := mret (RValue (JInt 1)).
Definition remove_models (_ : json) : M response := mret RNone.
Definition get_model_info (_ : json) : M response := mret RNone.
Definition noop_sleep (seconds : json) : M response :=
  f ← of_result (py_float seconds); _ ← of_result (time_sleep f); mret RNone.
Definition noop_echo (payload : json) : M response :=
  mret (match payload with JNull => RNone | _ => RValue payload end).
Definition noop_fail (_ : json) : M response := raise RuntimeError.

Definition run_in (m : M response) (s : service) : service * result response :=
  let '(w, r) := m (mk_world s []) in (st w, r).

Definition PipelineHandlers : Handlers.t service := @Handlers.mk _ service
  (fun x => run_in (index x)) (fun x => run_in (analyze x)) (fun x => run_in (analyze_item_early x))
  (fun x => run_in (suggest x)) (fun x => run_in (cluster x)) (fun x => run_in (search x))
  (fun x => run_in (delete x)) (fun x => run_in (clean x)) (fun x => run_in (item_remove x))
  (fun x => run_in (launch_remove x)) (fun x => run_in (remove_by_launch_start_time x))
  (fun x => run_in (remove_by_log_time x)) (fun x => run_in (defect_update x)) (fun x => run_in (train_models x))
  (fun x => run_in (suggest_patterns x)) (fun x => run_in (namespace_finder x))
  (fun x => run_in (index_suggest_info x)) (fun x => run_in (remove_suggest_info x))
  (fun x => run_in (update_suggest_info x)) (fun x => run_in (remove_models x)) (fun x => run_in (get_model_info x))
  (fun x => run_in (noop_sleep x)) (fun x => run_in (noop_echo x)) (fun x => run_in (noop_fail x)).

(** [bind] and [shutdown]: binding again replaces the scheduler by a new one. *)
Definition bind (s : service) : service := Service.with_scheduler (Some Scheduler.init) (Service.with_bound s).
Definition shutdown (s : service) : service := Service.with_scheduler (Scheduler.stop <$> Service.scheduler s) s.

(** ** Handlers write through the repositories *)

Definition wanted (Q : op -> Prop) (e : effect) : Prop := match e with Wrote o => Q o | Requested _ => True end.
Definition replayed (tr : list effect) (d : db) : db := fold_left (fun d o => exec o d) (omap wrote tr) d.
Definition asked (tr : list effect) (sc : option Scheduler.t) : option Scheduler.t :=
  fold_left Scheduler.request (omap requested tr) <$> sc.

(** The state after is the state before, with the trace replayed; every write is of
    the kind. *)
Definition replays {A} (Q : op -> Prop) (m : M A) : Prop := forall w, exists tr,
  trace (m w).1 = trace w ++ tr /\
  Service.store (st (m w).1) = replayed tr (Service.store (st w)) /\
  Service.scheduler (st (m w).1) = asked tr (Service.scheduler (st w)) /\ Forall (wanted Q) tr.

Lemma asked_nil sc : asked [] sc = sc.
Proof. by destruct sc. Qed.
Lemma asked_app t1 t2 sc : asked (t1 ++ t2) sc = asked t2 (asked t1 sc).
Proof. unfold asked. rewrite omap_app. destruct sc; cbn; [|done]. by rewrite fold_left_app. Qed.

(** No effect at all. *)
Lemma replays_silent {A} Q (m : M A) :
  (forall w, trace (m w).1 = trace w /\ Service.store (st (m w).1) = Service.store (st w) /\
             Service.scheduler (st (m w).1) = Service.scheduler (st w)) -> replays Q m.
Proof.
  intros Hm w. destruct (Hm w) as (Ht & Hs & Hc). exists []. rewrite Ht, Hs, Hc, asked_nil, app_nil_r.
  by split_and!.
Qed.

Lemma replays_ret {A} Q (a : A) : replays Q (mret a).
Proof. by apply replays_silent. Qed.
Lemma replays_of_result {A} Q (r : result A) : replays Q (of_result r).
Proof. by apply replays_silent. Qed.
Lemma replays_read {A} Q (f : service -> A) : replays Q (read f).
Proof. by apply replays_silent. Qed.
Lemma replays_query {A} Q (f : db -> A) : replays Q (query f).
Proof. apply replays_silent. intros w. unfold query, reached. by destruct (outage _). Qed.
Lemma replays_bind {A B} Q (m : M A) (k : A -> M B) : replays Q m -> (forall a, replays Q (k a)) -> replays Q (m ≫= k).
Proof.
  intros Hm Hk w. destruct (Hm w) as (t1 & Ht & Hs & Hc & HQ). unfold mbind, M_bind.
  destruct (m w) as [w1 [a|e]]; cbn in *; [|by exists t1].
  destruct (Hk a w1) as (t2 & Ht2 & Hs2 & Hc2 & HQ2). exists (t1 ++ t2).
  rewrite Ht2, Ht, Hs2, Hs, Hc2, Hc, (assoc_L (++)). unfold replayed. rewrite omap_app, fold_left_app.
  split_and!; [done|done|by rewrite asked_app|by apply Forall_app].
Qed.
Lemma replays_write {A} Q (o : Z -> op) (run : Z -> db -> result (db * A)) :
  (forall now d, exec (o now) d = committed fst d (run now d)) -> (forall now, Q (o now)) -> replays Q (write o run).
Proof.
  intros Hrun HQ w. unfold write, reached. destruct (outage _); cbn; [by exists []; rewrite app_nil_r, asked_nil|].
  destruct (run _ _) as [[d a]|e] eqn:E; cbn; [|by exists []; rewrite app_nil_r, asked_nil].
  exists [Wrote (o (tick (Service.clock (st w))))].
  split_and!; [done| |unfold asked; cbn; by destruct (Service.scheduler (st w))|constructor; [apply HQ|constructor]].
  unfold replayed. cbn. by rewrite Hrun, E.
Qed.
Lemma replays_forM {A B} Q (f : A -> M B) l : (forall x, replays Q (f x)) -> replays Q (forM f l).
Proof.
  intros Hf. induction l as [|x l IH]; [apply replays_ret|]. cbn [forM].
  apply replays_bind; [apply Hf|]. intros b. apply replays_bind; [done|]. intros bs. apply replays_ret.
Qed.
Lemma replays_retrain Q reason : replays Q (request_retrain reason).
Proof.
  intros w. exists [Requested reason].
  split_and!; [done|done|unfold asked; cbn; by destruct (Service.scheduler (st w))|constructor; [exact I|constructor]].
Qed.

(** A computation that replays its writes leaves a store with a history. *)
Lemma wanted_writes (Q : op -> Prop) tr : Forall (wanted Q) tr -> Forall Q (omap wrote tr).
Proof.
  intros HQ. apply Forall_forall. intros o ([o'|r] & He & E)%list_elem_of_omap; [|done]. injection E as ->.
  exact (proj1 (Forall_forall _ _) HQ _ He).
Qed.

Lemma replays_history {A} Q (m : M A) w l : replays Q m -> history l (Service.store (st w)) ->
  let d' := Service.store (st (m w).1) in
  exists l', history (l ++ l') d' /\ Forall Q l'.*1 /\ integrity d' /\
    d' = fold_left (fun d o => exec o d) l'.*1 (Service.store (st w)).
Proof.
  intros Hm Hh. destruct (Hm w) as (tr & _ & Hs & _ & HQ). cbv zeta. unfold replayed in Hs.
  pose proof (replay_history l _ (omap wrote tr) Hh) as Hr. rewrite replay_store, <- Hs in Hr.
  exists (replay (Service.store (st w)) (omap wrote tr)).1. rewrite replay_ops.
  split_and!; [done|by apply wanted_writes|by eapply history_integrity|done].
Qed.

(** ** Maintenance *)

(** The routes that delete or give feedback, and the project each is about. *)
Inductive maintains (p : Z) : M response -> Prop :=
  | m_delete : maintains p (delete p)
  | m_item_remove r : int_of (items_to_delete r).1 = Ok p -> maintains p (item_remove r)
  | m_launch_remove r : int_of (launches_to_delete r).1 = Ok p -> maintains p (launch_remove r)
  | m_start_time r : int_of (interval r).1.1 = Ok p -> maintains p (remove_by_launch_start_time r)
  | m_log_time r : int_of (interval r).1.1 = Ok p -> maintains p (remove_by_log_time r)
  | m_defect_update r : int_of (items_to_update r).1 = Ok p -> maintains p (defect_update r).

Definition about (p : Z) (o : op) : Prop := (forall q, touches o q -> q = p) /\ forall now grace, o <> Reap now grace.

#[local] Ltac follow :=
  repeat first
    [ apply replays_ret | apply replays_read | apply replays_of_result | apply replays_query | apply replays_retrain
    | apply replays_write; [done|intros now; split; [by intros|done]]
    | apply replays_forM; intros ?
    | apply replays_bind; [|intros ?]
    | match goal with
      | |- replays _ (match ?x with _ => _ end) => destruct x eqn:?
      | |- replays _ (if ?x then _ else _) => destruct x eqn:?
      end ].

Lemma replays_feedback p existing x : replays (about p) (feedback p existing x).
Proof. destruct x as [i l]. unfold feedback. follow. Qed.

(** The project of the request is known from here on. *)
Lemma replays_known {A} Q (p : Z) (k : Z -> M A) : replays Q (k p) -> replays Q (of_result (Ok p) ≫= k).
Proof. done. Qed.

Lemma maintains_replays p m : maintains p m -> replays (about p) m.
Proof.
  destruct 1 as [|r Hp|r Hp|r Hp|r Hp|r Hp];
    unfold delete, item_remove, launch_remove, remove_by_launch_start_time, remove_by_log_time, _remove_by_dates,
      defect_update, existing_labels.
  - follow.
  - destruct (items_to_delete r) as [project ids]. cbn [fst] in Hp. rewrite Hp.
    apply replays_bind; [follow|intros []]; [apply replays_known|]; follow.
  - destruct (launches_to_delete r) as [project ids]. cbn [fst] in Hp. rewrite Hp.
    apply replays_bind; [follow|intros []]; [apply replays_known|]; follow.
  - destruct (interval r) as [[project start] end_]. cbn [fst] in Hp. rewrite Hp.
    apply replays_bind; [follow|intros []]; [apply replays_known|]; follow.
  - destruct (interval r) as [[project start] end_]. cbn [fst] in Hp. rewrite Hp.
    apply replays_bind; [follow|intros []]; [apply replays_known|]; follow.
  - destruct (items_to_update r) as [project items]. cbn [fst] in Hp. rewrite Hp.
    apply replays_bind; [follow|intros []]; [apply replays_known|]; follow. apply replays_feedback.
Qed.

Lemma isolated_run q p l d ops : history l d -> Forall (about p) ops -> q <> p ->
  view q (fold_left (fun d o => exec o d) ops d) = view q d.
Proof.
  intros Hh Hf Hq. revert l d Hh. induction Hf as [|o ops [Ho _] _ IH]; intros l d Hh; [done|]. cbn [fold_left].
  rewrite (IH _ _ (history_write _ _ o Hh)). apply write_isolation; [by eapply history_integrity|].
  by intros Hq'%Ho.
Qed.

(** C18. A maintenance route writes through the repositories and about its own
    project: whatever store calls fail on the way, the store it leaves is the one it
    found with a sequence of repository writes made to it, all about the request's
    project -- so it still has a history, with the integrity that follows -- and the
    other projects' rows are as they were. *)
Theorem maintenance_writes_history p m w l :
  maintains p m -> history l (Service.store (st w)) ->
  let w' := (m w).1 in
  exists tr l', trace w' = trace w ++ tr /\ l'.*1 = omap wrote tr /\ history (l ++ l') (Service.store (st w')) /\
    Forall (about p) (omap wrote tr) /\ integrity (Service.store (st w')) /\
    forall q, q <> p -> view q (Service.store (st w')) = view q (Service.store (st w)).
Proof.
  intros Hm Hh. cbv zeta. destruct (maintains_replays p m Hm w) as (tr & Ht & Hs & _ & HQ). unfold replayed in Hs.
  set (d := Service.store (st w)) in *. pose proof (replay_history l d (omap wrote tr) Hh) as Hr.
  rewrite replay_store, <- Hs in Hr.
  apply wanted_writes in HQ.
  exists tr, (replay d (omap wrote tr)).1.
  split_and!; [done|apply replay_ops|done|done|by eapply history_integrity|].
  intros q Hq. rewrite Hs. by eapply isolated_run.
Qed.

(** ** The feedback of one request *)

Definition known (existing : gmap Z (option ustr)) (x : Z * ustr) : bool := bool_decide (is_Some (existing !! x.1)).

(** The writes of one entry, reached with the store [d]: none for an unknown item; the
    relabelling, the event with the label the item had, the purity of the mode the
    item is in then, if it is in one, and the outcome of its pending suggestions. *)
Inductive fed (p : Z) (existing : gmap Z (option ustr)) (d : db) : Z * ustr -> list effect -> Prop :=
  | fed_unknown x : existing !! x.1 = None -> fed p existing d x []
  | fed_known i l old now now' : existing !! i = Some old ->
      let relabelled := [Wrote (UpdateIssueType p i (Some l) false); Wrote (AppendEvent now (label_change p i old l))] in
      fed p existing d (i, l)
        (relabelled ++
         (match member_mode_id p i (replayed relabelled d) with Some m => [Wrote (UpdatePurity p m)] | None => [] end) ++
         [Wrote (RecordFeedback now' p i l)]).

(** The entries one after the other, each reached with the store the last one left. *)
Inductive fed_all (p : Z) (existing : gmap Z (option ustr)) (d : db) : list (Z * ustr) -> list (list effect) -> Prop :=
  | fed_none : fed_all p existing d [] []
  | fed_next x xs tr chunks : fed p existing d x tr -> fed_all p existing (replayed tr d) xs chunks ->
      fed_all p existing d (x :: xs) (tr :: chunks).

Lemma replayed_app t1 t2 d : replayed (t1 ++ t2) d = replayed t2 (replayed t1 d).
Proof. unfold replayed. by rewrite omap_app, fold_left_app. Qed.

(** From the store [d], the writes and the result satisfy [P], and the store is [d]
    with the writes made. *)
Definition runs {A} (d : db) (m : M A) (P : list effect -> result A -> Prop) : Prop :=
  forall w, Service.store (st w) = d -> exists tr, trace (m w).1 = trace w ++ tr /\
    Service.store (st (m w).1) = replayed tr d /\ P tr (m w).2.

Lemma runs_conseq {A} d (m : M A) (P Q : list effect -> result A -> Prop) :
  runs d m P -> (forall tr r, P tr r -> Q tr r) -> runs d m Q.
Proof. intros Hm HPQ w Hw. destruct (Hm w Hw) as (tr & Ht & Hs & HP). eauto. Qed.

Lemma runs_ret {A} d (a : A) (P : list effect -> result A -> Prop) : P [] (Ok a) -> runs d (mret a) P.
Proof. intros HP w Hw. exists []. by rewrite app_nil_r. Qed.

Lemma runs_bind {A B} d (m : M A) (k : A -> M B) P (R : list effect -> result B -> Prop) :
  runs d m P -> (forall tr e, P tr (Raise e) -> R tr (Raise e)) ->
  (forall t1 a, P t1 (Ok a) -> runs (replayed t1 d) (k a) (fun t2 r => R (t1 ++ t2) r)) -> runs d (m ≫= k) R.
Proof.
  intros Hm HR Hk w Hw. destruct (Hm w Hw) as (t1 & Ht & Hs & HP). unfold mbind, M_bind.
  destruct (m w) as [w1 [a|e]]; cbn in *; [|exists t1; split_and!; auto].
  destruct (Hk t1 a HP w1 Hs) as (t2 & Ht2 & Hs2 & HQ). exists (t1 ++ t2).
  by rewrite Ht2, Ht, Hs2, replayed_app, (assoc_L (++)).
Qed.

(** A write, and what follows it. *)
Lemma runs_write {A} d (o : Z -> op) (run : Z -> db -> result (db * A)) :
  (forall now, exec (o now) d = committed fst d (run now d)) ->
  runs d (write o run) (fun tr r => tr = [] /\ (exists e, r = Raise e) \/ exists now a, tr = [Wrote (o now)] /\ r = Ok a).
Proof.
  intros Hrun w Hw. unfold write, reached. destruct (outage _) as [e|]; cbn.
  { exists []. rewrite app_nil_r. split_and!; [done..|left; eauto]. }
  specialize (Hrun (tick (Service.clock (st w)))). rewrite Hw. destruct (run _ _) as [[d' a]|e]; cbn.
  - eexists. split_and!; [done| |right; eauto]. unfold replayed. cbn. by rewrite Hrun.
  - exists []. rewrite app_nil_r. split_and!; [done..|left; eauto].
Qed.

Lemma runs_write_then {A B} d (o : Z -> op) (run : Z -> db -> result (db * A)) (k : A -> M B)
    (P : list effect -> result B -> Prop) :
  (forall now, exec (o now) d = committed fst d (run now d)) ->
  (forall e, P [] (Raise e)) -> (forall now a, runs (exec (o now) d) (k a) (fun tr r => P (Wrote (o now) :: tr) r)) ->
  runs d (write o run ≫= k) P.
Proof.
  intros Hrun HR Hk. eapply runs_bind; [by apply runs_write| |].
  - intros tr e [[-> _]|(now & a & _ & [=])]. apply HR.
  - intros t1 a [[_ [e [=]]]|(now & a' & -> & _)]. apply Hk.
Qed.

Lemma runs_query_then {A B} d (f : db -> A) (k : A -> M B) (P : list effect -> result B -> Prop) :
  (forall e, P [] (Raise e)) -> runs d (k (f d)) P -> runs d (query f ≫= k) P.
Proof.
  intros HR Hk. apply runs_bind with (P := fun tr r => tr = [] /\ forall a, r = Ok a -> a = f d).
  - intros w Hw. unfold query, reached. destruct (outage _); cbn; exists []; rewrite app_nil_r; split_and!; try done.
    by intros a [= <-]; rewrite Hw.
  - by intros tr e [-> _].
  - intros t1 a [-> Ha]. rewrite (Ha a eq_refl). exact Hk.
Qed.

Definition feedback_spec (p : Z) (existing : gmap Z (option ustr)) (d : db) (x : Z * ustr) (tr : list effect)
    (r : result (list Z)) : Prop :=
  match r with
  | Ok ids => fed p existing d x tr /\ ids = (if known existing x then [] else [x.1])
  | Raise _ => exists rest, fed p existing d x (tr ++ rest)
  end.

Lemma runs_feedback p existing d x : runs d (feedback p existing x) (feedback_spec p existing d x).
Proof.
  destruct x as [i l]. unfold feedback. destruct (existing !! i) as [old|] eqn:E.
  2: { apply runs_ret. cbn. unfold known. rewrite bool_decide_eq_false_2 by (cbn; rewrite E; by intros [? ?]).
       split; [by constructor|done]. }
  assert (known existing (i, l) = true) as Hk by (apply bool_decide_eq_true_2; cbn; rewrite E; by eexists).
  pose proof (fun now now' => fed_known p existing d i l old now now' E) as Hfed. cbv zeta in Hfed.
  apply runs_write_then; [done|intros e; eexists; exact (Hfed 0 0)|]. intros _ _.
  apply runs_write_then; [done|intros e; eexists; exact (Hfed 0 0)|]. intros now _.
  apply runs_query_then; [intros e; eexists; exact (Hfed now 0)|].
  set (d' := exec (AppendEvent _ _) _).
  specialize (Hfed now). change (replayed _ d) with d' in Hfed.
  destruct (member_mode_id p i d') as [m|].
  - apply runs_bind with (P := fun tr r => tr = [] /\ (exists e, r = Raise e) \/ tr = [Wrote (UpdatePurity p m)] /\ r = Ok tt).
    + eapply runs_bind; [by apply runs_write| |].
      * intros tr e [[-> ?]|(? & ? & _ & [=])]. left; eauto.
      * intros t1 a [[_ [e [=]]]|(? & ? & -> & _)]. apply runs_ret. right. done.
    + intros tr e [[-> _]|[_ [=]]]. eexists. exact (Hfed 0).
    + intros t1 [] [[_ [e [=]]]|[-> _]]. apply runs_write_then; [done|intros e; eexists; exact (Hfed 0)|].
      intros now' _. apply runs_ret. cbn. rewrite Hk. split; [exact (Hfed now')|done].
  - apply runs_bind with (P := fun tr r => tr = [] /\ r = Ok tt); [by apply runs_ret|by intros tr e [_ [=]]|].
    intros t1 [] [-> _]. apply runs_write_then; [done|intros e; eexists; exact (Hfed 0)|].
    intros now' _. apply runs_ret. cbn. rewrite Hk. split; [exact (Hfed now')|done].
Qed.

Lemma fed_all_exists p existing d xs : exists chunks, fed_all p existing d xs chunks.
Proof.
  revert d. induction xs as [|[i l] xs IH]; intros d; [exists []; constructor|].
  assert (exists tr, fed p existing d (i, l) tr) as [tr Htr].
  { destruct (existing !! i) as [old|] eqn:E; [|exists []; by constructor]. eexists. exact (fed_known p existing d i l old 0 0 E). }
  destruct (IH (replayed tr d)) as [chunks Hc]. exists (tr :: chunks). by constructor.
Qed.

(** The loop over the entries: all of them, or a prefix when a call fails. *)
Definition fed_loop (p : Z) (existing : gmap Z (option ustr)) (d : db) (xs : list (Z * ustr)) (tr : list effect)
    (r : result (list (list Z))) : Prop :=
  match r with
  | Ok outs => (exists chunks, tr = concat chunks /\ fed_all p existing d xs chunks) /\
      concat outs = (filter (fun x => known existing x = false) xs).*1
  | Raise _ => exists rest chunks, tr ++ rest = concat chunks /\ fed_all p existing d xs chunks
  end.

Lemma runs_feedbacks p existing d xs : runs d (forM (feedback p existing) xs) (fed_loop p existing d xs).
Proof.
  revert d. induction xs as [|x xs IH]; intros d; cbn [forM].
  { apply runs_ret. split; [|done]. exists []. by split; [|constructor]. }
  apply runs_bind with (P := feedback_spec p existing d x); [apply runs_feedback| |].
  - intros tr e (rest & Hx). destruct (fed_all_exists p existing (replayed (tr ++ rest) d) xs) as (chunks & Hc).
    exists (rest ++ concat chunks), ((tr ++ rest) :: chunks). cbn. rewrite (assoc_L (++)). split; [done|by constructor].
  - intros t1 b [Hx ->]. apply runs_bind with (P := fed_loop p existing (replayed t1 d) xs); [apply IH| |].
    + intros t2 e (rest & chunks & E & Hl). exists rest, (t1 :: chunks). cbn.
      rewrite <- (assoc_L (++)), E. split; [done|by constructor].
    + intros t2 bs [(chunks & -> & Hl) E]. apply runs_ret. rewrite app_nil_r. split.
      * exists (t1 :: chunks). split; [done|by constructor].
      * cbn [concat]. rewrite E. destruct (known existing x) eqn:Hk.
        -- by rewrite filter_cons_False by congruence.
        -- by rewrite filter_cons_True by done.
Qed.

Lemma items_labels_lookup p ids (d : db) i :
  get_items_labels p ids d !! i = if bool_decide (i ∈ ids) then ItemRow.issue_type <$> test_item d !! (p, i) else None.
Proof.
  unfold get_items_labels. induction ids as [|j ids IH]; cbn [foldr].
  { rewrite bool_decide_eq_false_2 by (apply not_elem_of_nil). apply lookup_empty. }
  destruct (decide (j = i)) as [->|Hne].
  - rewrite bool_decide_eq_true_2 by (by left). destruct (test_item d !! (p, i)) as [r|] eqn:E; cbn.
    + by rewrite lookup_insert_eq.
    + rewrite IH. cbn. by case_bool_decide.
  - rewrite (bool_decide_ext (i ∈ j :: ids) (i ∈ ids)) by (rewrite elem_of_cons; naive_solver).
    destruct (test_item d !! (p, j)); [|done]. by rewrite lookup_insert_ne.
Qed.

Lemma existing_labels_silent p ids w : trace (existing_labels p ids w).1 = trace w.
Proof. destruct ids as [|i ids]; [done|]. cbn. unfold query, reached. by destruct (outage _). Qed.

Lemma existing_labels_reads p ids w w' existing : existing_labels p ids w = (w', Ok existing) ->
  existing = get_items_labels p ids (Service.store (st w)) /\ Service.store (st w') = Service.store (st w) /\ trace w' = trace w.
Proof.
  unfold existing_labels. destruct ids as [|i ids]; [by intros [= <- <-]|]. unfold query, reached.
  destruct (outage _); [done|]. by intros [= <- <-].
Qed.

(** The unknown entries are those of the items that are not stored. *)
Lemma unknown_ids p ids (d : db) (xs : list (Z * ustr)) : (forall x, x ∈ xs -> x.1 ∈ ids) ->
  (filter (fun x => known (get_items_labels p ids d) x = false) xs).*1 =
  filter (fun i => test_item d !! (p, i) = None) xs.*1.
Proof.
  induction xs as [|x xs IH]; intros Hin; [done|]. rewrite fmap_cons.
  assert (known (get_items_labels p ids d) x = bool_decide (is_Some (test_item d !! (p, x.1)))) as Hk.
  { unfold known. apply bool_decide_ext. rewrite items_labels_lookup, bool_decide_eq_true_2 by (apply Hin; by left).
    by rewrite fmap_is_Some. }
  specialize (IH (fun y Hy => Hin y (list_elem_of_further _ _ _ Hy))).
  destruct (test_item d !! (p, x.1)) as [row|] eqn:E.
  - rewrite filter_cons_False by (rewrite Hk; by rewrite bool_decide_eq_true_2 by (by eexists)).
    rewrite filter_cons_False by (by rewrite E). exact IH.
  - rewrite filter_cons_True by (rewrite Hk; by apply bool_decide_eq_false_2; intros [? ?]).
    rewrite filter_cons_True by done. rewrite fmap_cons. by f_equal.
Qed.

Definition feed_all (p : Z) (normalized : list (Z * ustr)) : M response :=
  existing ← existing_labels p normalized.*1;
  not_updated ← forM (feedback p existing) normalized;
  _ ← request_retrain REASON_EVENTS;
  mret (ids_reply (concat not_updated)).

Lemma feed_all_spec p normalized w :
  let '(w', r) := feed_all p normalized w in
  let d := Service.store (st w) in
  let existing := get_items_labels p normalized.*1 d in
  exists tr, trace w' = trace w ++ tr /\
  match r with
  | Ok reply =>
      reply = ids_reply (filter (fun i => test_item d !! (p, i) = None) normalized.*1) /\
      exists chunks, tr = concat chunks ++ [Requested REASON_EVENTS] /\ fed_all p existing d normalized chunks
  | Raise _ => exists rest chunks, tr ++ rest = concat chunks /\ fed_all p existing d normalized chunks
  end.
Proof.
  unfold feed_all. unfold mbind at 1, M_bind at 1. set (d := Service.store (st w)).
  destruct (existing_labels p normalized.*1 w) as [w1 [existing|e]] eqn:E1.
  2: { pose proof (existing_labels_silent p normalized.*1 w) as Ht. rewrite E1 in Ht.
       destruct (fed_all_exists p (get_items_labels p normalized.*1 d) d normalized) as (chunks & Hc).
       exists []. rewrite app_nil_r. split; [done|]. by exists (concat chunks), chunks. }
  apply existing_labels_reads in E1 as (-> & Hs & Ht1). fold d in Hs. fold d. set (existing := get_items_labels _ _ _).
  unfold mbind at 1, M_bind at 1.
  destruct (runs_feedbacks p existing d normalized w1 Hs) as (tr & Ht & _ & Hl).
  destruct (forM (feedback p existing) normalized w1) as [w2 [outs|e]]; cbn [fst snd fed_loop] in *.
  - destruct Hl as [(chunks & -> & Hc) E]. exists (concat chunks ++ [Requested REASON_EVENTS]). cbn.
    rewrite Ht, Ht1, (assoc_L (++)). split_and!; [done| |by exists chunks]. f_equal. rewrite E. apply unknown_ids.
    intros x Hx. by apply list_elem_of_fmap_2.
  - exists tr. by rewrite Ht, Ht1.
Qed.

Lemma defect_update_bound request project items w :
  items_to_update request = (project, items) -> Service.bound (st w) = true ->
  defect_update request w =
  match (p ← int_of project; normalized ← rmapM normalize items; Ok (p, normalized)) with
  | Raise e => (w, Raise e)
  | Ok (p, normalized) => feed_all p normalized w
  end.
Proof.
  intros Hreq Hb. unfold defect_update. rewrite Hreq.
  assert (is_bound w = (w, Ok true)) as Hbound by (unfold is_bound, read; by rewrite Hb). rewrite (bind_ok _ _ _ _ _ Hbound).
  destruct (int_of project) as [p|e]; cbn [mbind result_bind]; [|done].
  by destruct (rmapM normalize items).
Qed.

(** C19. The feedback route does what it is for, entry by entry and in order: each
    item that is stored gets its label overwritten as a manual one, one event with
    the label it had when the request arrived, the purity of the mode it is in at that
    moment recomputed, if it is in one, and its pending suggestions resolved; the reply
    lists the ids that are not stored; the retrain trigger is asked once, at the end.  When a call fails, what was done is
    a prefix of that, and no retrain was asked.  A project or an id that is no
    number refuses the request before anything is read or written. *)
Theorem defect_update_exact request project items w :
  items_to_update request = (project, items) -> Service.bound (st w) = true ->
  match (p ← int_of project; normalized ← rmapM normalize items; Ok (p, normalized)) with
  | Raise e => defect_update request w = (w, Raise e)
  | Ok (p, normalized) =>
      let '(w', r) := defect_update request w in
      let d := Service.store (st w) in
      let existing := get_items_labels p normalized.*1 d in
      exists tr, trace w' = trace w ++ tr /\ Service.store (st w') = replayed tr d /\
      match r with
      | Ok reply =>
          reply = ids_reply (filter (fun i => test_item d !! (p, i) = None) normalized.*1) /\
          exists chunks, tr = concat chunks ++ [Requested REASON_EVENTS] /\ fed_all p existing d normalized chunks
      | Raise _ => exists rest chunks, tr ++ rest = concat chunks /\ fed_all p existing d normalized chunks
      end
  end.
Proof.
  intros Hreq Hb. pose proof (defect_update_bound request project items w Hreq Hb) as E.
  destruct (int_of project) as [p|e] eqn:Ep; cbn [mbind result_bind] in *; [|done].
  destruct (rmapM normalize items) as [normalized|e] eqn:En; cbn [mbind result_bind] in *; [|done].
  pose proof (feed_all_spec p normalized w) as Hspec. rewrite <- E in Hspec.
  destruct (maintains_replays p _ (m_defect_update p request ltac:(by rewrite Hreq)) w) as (tr' & Ht' & Hs' & _).
  destruct (defect_update request w) as [w' r]. destruct Hspec as (tr & Ht & Hr). cbn in Ht', Hs'.
  rewrite Ht in Ht'. apply app_inv_head in Ht' as ->. by exists tr'.
Qed.
End Handlers.

(** ** A concrete service *)

Section Toy.
#[local] Existing Instances toy_vectors toy_wire toy_repr ascii_unicode.

Definition ident_of (d : kwargs) (k : string) : ident :=
  match dget k d with Some (JInt z) => IdInt z | Some (JStr s) => IdText s | _ => IdText [] end.
Definition idents_of (d : kwargs) (k : string) : list ident :=
  match dget k d with
  | Some (JList l) => (fun j => match j with JInt z => IdInt z | JStr s => IdText s | _ => IdText [] end) <$> l
  | _ => []
  end.
Definition text_of (d : kwargs) (k : string) : ustr := match dget k d with Some (JStr s) => s | _ => [] end.

Definition toy_payloads : Payloads := {|
  clustering_ids _ := (0, 0);
  clean_ids _ := [];
  items_to_delete d := (ident_of d "project", idents_of d "itemsToDelete");
  launches_to_delete d := (ident_of d "project", idents_of d "launch_ids");
  interval d := (ident_of d "project", text_of d "interval_start_date", text_of d "interval_end_date");
  items_to_update d :=
    (ident_of d "project",
     match dget "itemsToUpdate" d with
     | Some (JObj l) => (fun kv => (IdText (key_text kv.1),
                          match kv.2 with JStr s => Locator s | JObj o => Update (text_of o "issueType") | _ => Locator [] end)) <$> l
     | _ => []
     end);
  bulk_response _ _ := [];
  cluster_result _ _ := [];
  suggest_pattern := [];
  fromisoformat s := match int_text s with Some z => Ok (z, None) | None => Raise ValueError end;
  py_float _ := Raise TypeError;
  time_sleep _ := Ok tt
|}.
#[local] Existing Instance toy_payloads.

Definition toy_engine : Engine.t service :=
  let silent {A} (_ : A) (s : service) := (s, Ok (RModels [])) in
  @Engine.mk toy_wire service silent silent silent silent silent silent.

Definition quiet_sink : ReplySink service := {|
  sink_reply _ _ _ s := (s, Ok tt); sink_publish_result _ _ _ _ s := (s, Ok tt); sink_dead_letter _ _ s := (s, Ok tt)
|}.
#[local] Existing Instance quiet_sink.

(** Item 10 of project 1 is stored as an automation bug. *)
Definition one_item : list op :=
  [UpsertItems 8 [TestItemIn.mk 10 1 3 (u "nightly") 1 (Some 77) (Some (u "t")) (u "test") None true (Some (u "ab001")) 0 None]].
Definition ready : service := bind (Service.mk (replay empty_db one_item).2 100 0 false None empty_queue [] LlmState.starting).

Definition toy_feedback : kwargs :=
  [("project", jstr "1"); ("itemsToUpdate", JObj [("10", jstr " PB001"); ("99", jstr "ab001")])].

Definition up (_ : nat) : option pyexn := None.
(** The database refuses the [k]th call. *)
Definition down_at (k n : nat) : option pyexn := if Nat.eqb n k then Some (OtherError "OperationalError") else None.

(** The message through a worker, with the service it leaves. *)
Definition deliver (outage : nat -> option pyexn) : world service event :=
  (_process_bound toy_config (build_routes (PipelineHandlers Z.succ outage toy_engine)) calm
     (toy_item "defect_update" (Some "amq.gen-1") (JObj toy_feedback)) (mk_world ready [])).1.
Definition events (w : world service event) : list (option ustr * ustr) :=
  (fun ke => (EventRow.old_label ke.2, EventRow.new_label ke.2)) <$>
    pysorted (fun a b => a.1 <=? b.1) (map_to_list (Db.label_event (Service.store (st w)))).

Example feedback_delivered :
  trace (deliver up) = [Handled "defect_update"; Replied "amq.gen-1" "c-1" (u "[99]"); Observed "defect_update" "success"] /\
  events (deliver up) = [(Some (u "ab001"), u "pb001")] /\
  Scheduler.pending <$> Service.scheduler (st (deliver up)) = Some (Some REASON_EVENTS).
Proof. vm_compute. done. Qed.

(** The feedback is said to converge when it is delivered again after a partial
    failure.  The log does not: the worker's own retry appends a second event for
    the one change, from the new label to itself, and the retrain trigger counts
    both. *)
Example retried_feedback_logged_twice :
  trace (deliver (down_at 4)) =
    [Handled "defect_update"; Retrying 1 (of_Z 1); Handled "defect_update"; Replied "amq.gen-1" "c-1" (u "[99]");
     Observed "defect_update" "success"] /\
  events (deliver (down_at 4)) = [(Some (u "ab001"), u "pb001"); (Some (u "pb001"), u "pb001")] /\
  count_events_since None None (Service.store (st (deliver (down_at 4)))) = 2.
Proof. vm_compute. done. Qed.

Definition toy_update (outage : nat -> option pyexn) : M service effect response :=
  @defect_update toy_vectors ascii_unicode toy_wire toy_payloads Z.succ outage toy_feedback.

Lemma maintenance_writes_history_witness :
  integrity (Service.store (st (toy_update (down_at 4) (mk_world ready [])).1)).
Proof.
  destruct (maintenance_writes_history Z.succ (down_at 4) 1 (toy_update (down_at 4))
              (mk_world ready []) (replay empty_db one_item).1) as (tr & l' & _ & _ & _ & _ & Hi & _).
  - unfold toy_update. eapply m_defect_update. vm_compute. reflexivity.
  - exact (replay_history [] empty_db one_item history_nil).
  - exact Hi.
Defined.

Lemma defect_update_exact_witness :
  let '(w', r) := toy_update up (mk_world ready []) in
  let existing := get_items_labels 1 [10; 99] (Service.store ready) in
  exists tr, trace w' = [] ++ tr /\ Service.store (st w') = replayed tr (Service.store ready) /\
  match r with
  | Ok reply =>
      reply = ids_reply (filter (fun i => test_item (Service.store ready) !! (1, i) = None) [10; 99]) /\
      exists chunks, tr = concat chunks ++ [Requested REASON_EVENTS] /\
        fed_all 1 existing (Service.store ready) [(10, u "pb001"); (99, u "ab001")] chunks
  | Raise _ => exists rest chunks, tr ++ rest = concat chunks /\
        fed_all 1 existing (Service.store ready) [(10, u "pb001"); (99, u "ab001")] chunks
  end.
Proof.
  exact (@defect_update_exact toy_vectors ascii_unicode toy_wire toy_payloads Z.succ up toy_feedback (IdText (u "1"))
    [(IdText (u "10"), Locator (u " PB001")); (IdText (u "99"), Locator (u "ab001"))] (mk_world ready []) eq_refl eq_refl).
Defined.
End Toy.
