(* ===== verification/LlmEval.v ===== *)
(** * The nightly evaluation of the language model

    [llm/eval.py] and [db/repositories/llm_eval.py]: the Wilson arithmetic, the
    criteria of the kill switch, the comparison of the resolved suggestions of the
    window, and the job that switches roles off.  The job is a computation of the
    service: any of its store calls may fail. *)

From S2P Require Import Prelude PyFloat FloatQuot PyStr PyJson PyTime Regex PyText Features LlmQueue Retrain Ingest LlmEngine Database.
From S2P Require Import Retrieval Knowledge LabelLog LlmStores TestStats StoreOps StoreInv Emit RouteHandlers.
From Stdlib Require Import ZArith Lia.

#[local] Open Scope string_scope.
#[local] Open Scope list_scope.
#[local] Open Scope Z_scope.

Import Db (suggestion, llm_role_state).

(** ** Thresholds *)

Definition AUTO_DISABLE_MIN_N : Z := 50.
Definition AUTO_DISABLE_GAP : pyfloat := Eval vm_compute in dec 2 100.
Definition AUTO_DISABLE_MIN_CLASSICAL_N : Z := 50.
Definition AUTO_DISABLE_PRECISION_FLOOR : pyfloat := Eval vm_compute in dec 95 100.
Definition AUTO_DISABLE_MIN_LLM_N : Z := 50.
Definition AUTO_DISABLE_ABSOLUTE_FLOOR : pyfloat := Eval vm_compute in dec 80 100.
Definition WILSON_Z : pyfloat := Eval vm_compute in dec 196 100.
Definition EVAL_WINDOW_DAYS : Z := 30.
Definition AUTO_DISABLE_REASON : string := "auto_disabled_precision".
Definition ABSOLUTE_DISABLE_REASON : string := "llm_below_absolute_floor".
Definition ALL_ROLES : list string := ["explainer"; "extractor"; "judge"; "coldstart"].

(** ** The criteria *)

Module RoleComparison.
Record t := mk { n : Z; s_llm : Z; n_llm : Z; s_classical : Z; n_classical : Z }.
End RoleComparison.

Module RoleEval.
Record t := mk {
  project_id : Z; role : string; n : Z; precision_llm : pyfloat; precision_classical : pyfloat; diff_lower : pyfloat;
  disabled : bool; reason : string
}.
Definition stats (e : t) : list (string * json) :=
  [("n", JInt (n e)); ("precision_llm", JFloat (precision_llm e)); ("precision_classical", JFloat (precision_classical e));
   ("diff_lower", JFloat (diff_lower e)); ("gap", JFloat (precision_llm e - precision_classical e)%F)].
End RoleEval.

(** ** The intervals *)

Section Eval.
Context `{!Libm}.

Definition wilson_interval (successes n : Z) (z : pyfloat) : pyfloat * pyfloat :=
  if n <=? 0 then (f0, f0)
  else
    let p := int_quot successes n in
    let z2 := (z * z)%F in
    let denom := (f1 + fquot z2 (of_Z n))%F in
    let center := fquot (p + fquot z2 (of_Z (2 * n)))%F denom in
    let spread := fquot (p * (f1 - p) + fquot z2 (of_Z (4 * n)))%F (of_Z n) in
    let margin := fquot (z * fsqrt spread)%F denom in
    (pymax2 f0 (center - margin)%F, pymin2 f1 (center + margin)%F).

(** [s / n if n > 0 else 0.0]. *)
Definition precision (s n : Z) : pyfloat := if 0 <? n then int_quot s n else f0.

Definition mover_difference_lower (s_llm n_llm s_classical n_classical : Z) (z : pyfloat) : pyfloat :=
  let p1 := precision s_llm n_llm in
  let p2 := precision s_classical n_classical in
  let l1 := (wilson_interval s_llm n_llm z).1 in
  let u2 := (wilson_interval s_classical n_classical z).2 in
  ((p1 - p2) - fsqrt (float_pow (p1 - l1) (of_Z 2) + float_pow (u2 - p2) (of_Z 2)))%F.

Definition evaluate_role (project_id : Z) (role : string) (c : RoleComparison.t) : RoleEval.t :=
  let p_llm := precision (RoleComparison.s_llm c) (RoleComparison.n_llm c) in
  let p_classical := precision (RoleComparison.s_classical c) (RoleComparison.n_classical c) in
  let diff_lower := mover_difference_lower (RoleComparison.s_llm c) (RoleComparison.n_llm c)
                      (RoleComparison.s_classical c) (RoleComparison.n_classical c) WILSON_Z in
  let llm_upper := (wilson_interval (RoleComparison.s_llm c) (RoleComparison.n_llm c) WILSON_Z).2 in
  let '(disabled, reason) :=
    if (AUTO_DISABLE_MIN_LLM_N <=? RoleComparison.n_llm c) && (llm_upper <? AUTO_DISABLE_ABSOLUTE_FLOOR)%F
    then (true, ABSOLUTE_DISABLE_REASON)
    else if RoleComparison.n c <? AUTO_DISABLE_MIN_N then (false, "n_below_min")
    else if RoleComparison.n_classical c <? AUTO_DISABLE_MIN_CLASSICAL_N then (false, "classical_arm_below_min")
    else if (AUTO_DISABLE_PRECISION_FLOOR <=? p_llm)%F then (false, "llm_above_precision_floor")
    else if negb (p_llm <? p_classical - AUTO_DISABLE_GAP)%F then (false, "gap_within_tolerance")
    else if negb (diff_lower <? f0)%F then (false, "wilson_bound_nonnegative")
    else (true, AUTO_DISABLE_REASON) in
  RoleEval.mk project_id role (RoleComparison.n c) p_llm p_classical diff_lower disabled reason.

(** ** The comparisons *)

(** [model_ver LIKE 'rubric+%'] with an outcome of the list. *)
Definition counted (prefix : string) (outcomes : list string) (s : SugRow.t) : bool :=
  starts (SugRow.model_ver s) (u prefix) && bool_decide (SugRow.outcome s ∈ outcomes).
Definition count_where (P : SugRow.t -> bool) (rows : list SugRow.t) : Z := Z.of_nat (length (List.filter P rows)).

Definition in_window (since : Z) (d : db) : list SugRow.t :=
  snd <$> rows_of (fun _ s => since <=? SugRow.created_at s) (suggestion d).
Definition of_project (p : Z) (rows : list SugRow.t) : list SugRow.t := List.filter (fun s => SugRow.project_id s =? p) rows.

Definition RESOLVED : list string := ["accepted"; "corrected"].
Definition comparison_of (rows : list SugRow.t) : RoleComparison.t :=
  let cs_n := count_where (counted "rubric+" RESOLVED) rows in
  RoleComparison.mk cs_n (count_where (counted "rubric+" ["accepted"]) rows) cs_n
    (count_where (counted "rule_cold" ["accepted"]) rows) (count_where (counted "rule_cold" RESOLVED) rows).

(** One group per project; one without a resolved rubric suggestion is left out. *)
Definition _coldstart_comparisons (since : Z) (d : db) : list (Z * string * RoleComparison.t) :=
  let rows := in_window since d in
  omap (fun p => let c := comparison_of (of_project p rows) in
                 if RoleComparison.n c =? 0 then None else Some ((p, "coldstart"), c))
    (remove_dups (SugRow.project_id <$> rows)).
Definition role_comparisons (since : Z) (d : db) : list (Z * string * RoleComparison.t) := _coldstart_comparisons since d.

(** [sorted(comparisons.items())]: the keys differ, so comparisons are not compared. *)
Definition comparison_leb (a b : Z * string * RoleComparison.t) : bool :=
  if a.1.1 =? b.1.1 then String.leb a.1.2 b.1.2 else a.1.1 <? b.1.1.

(** ** The job *)

Section Job.
Context `{PgVector} (tick : Z -> Z) (outage : nat -> option pyexn).
Abbreviation M := (M service effect).

Definition switch_off (now : Z) (e : RoleEval.t) : op :=
  SetRoleState now (RoleEval.project_id e) (RoleEval.role e) false (Some (RoleEval.reason e)) (Some (RoleEval.stats e)).

Definition evaluate_one (x : Z * string * RoleComparison.t) : M RoleEval.t :=
  let e := evaluate_role x.1.1 x.1.2 x.2 in
  if RoleEval.disabled e then
    on ← query tick outage (is_enabled x.1.1 x.1.2);
    if on : bool then
      write tick outage (fun now => switch_off now e) (fun now d => Ok (exec (switch_off now e) d, tt));; mret e
    else mret e
  else mret e.

(** The gauge: the projects a role was found to fail in tonight. *)
Definition disabled_counts (results : list RoleEval.t) : list (string * Z) :=
  (fun role => (role, Z.of_nat (length (List.filter (fun e => RoleEval.disabled e && bool_decide (RoleEval.role e = role)) results))))
  <$> ALL_ROLES.

(** [LlmEvalJob.run]: the evaluations, and the gauge. *)
Definition run : M (list RoleEval.t * list (string * Z)) :=
  now ← read Service.clock;
  comparisons ← query tick outage (role_comparisons (now - EVAL_WINDOW_DAYS * US_PER_DAY));
  results ← forM evaluate_one (pysorted comparison_leb comparisons);
  mret (results, disabled_counts results).

(** ** What the job does *)

Definition evaluated (x : Z * string * RoleComparison.t) : RoleEval.t := evaluate_role x.1.1 x.1.2 x.2.

(** The write of one evaluation that fails the criteria of a role that is on. *)
Definition switched (d : db) (x : Z * string * RoleComparison.t) (e : effect) : Prop :=
  exists now, e = Wrote (switch_off now (evaluated x)) /\ RoleEval.disabled (evaluated x) = true /\
              is_enabled x.1.1 x.1.2 d = true.

(** Switches only go off. *)
Definition no_re_enable (d d' : db) : Prop := forall p role, is_enabled p role d' = true -> is_enabled p role d = true.

Lemma evaluated_key x : (RoleEval.project_id (evaluated x), RoleEval.role (evaluated x)) = x.1.
Proof.
  unfold evaluated, evaluate_role. match goal with |- context [let '(_, _) := ?y in _] => destruct y end.
  by destruct x as [[p role] c].
Qed.

#[export] Instance no_re_enable_refl : Reflexive no_re_enable.
Proof. by intros d p role. Qed.

Lemma is_enabled_off now e d p role :
  is_enabled p role (exec (switch_off now e) d) =
  is_enabled p role d && negb (bool_decide ((p, role) = (RoleEval.project_id e, RoleEval.role e))).
Proof.
  unfold is_enabled. cbn. destruct (decide ((p, role) = (RoleEval.project_id e, RoleEval.role e))) as [E|Hne].
  - rewrite <- E, lookup_insert_eq, bool_decide_eq_true_2 by done. cbn. by rewrite andb_false_r.
  - rewrite lookup_insert_ne, bool_decide_eq_false_2 by congruence. by rewrite andb_true_r.
Qed.

Lemma evaluate_one_spec x w :
  let '(w', r) := evaluate_one x w in
  exists tr, trace w' = trace w ++ tr /\ Service.store (st w') = replayed tr (Service.store (st w)) /\
    Forall (switched (Service.store (st w)) x) tr /\ no_re_enable (Service.store (st w)) (Service.store (st w')) /\
    match r with
    | Ok e => e = evaluated x /\ (RoleEval.disabled e = true -> is_enabled x.1.1 x.1.2 (Service.store (st w')) = false)
    | Raise _ => True
    end.
Proof.
  unfold evaluate_one. fold (evaluated x). cbv zeta. destruct (RoleEval.disabled (evaluated x)) eqn:Ed.
  2: { cbn. exists []. rewrite app_nil_r. split_and!; try done. by rewrite Ed. }
  unfold query, write, reached, mbind, M_bind, read, mret, M_ret. destruct (outage _); cbn.
  { exists []. by rewrite app_nil_r. }
  destruct (is_enabled x.1.1 x.1.2 (Service.store (st w))) eqn:Ee; cbn.
  2: { exists []. rewrite app_nil_r. by split_and!. }
  destruct (outage _); cbn; [exists []; by rewrite app_nil_r|].
  set (now := tick (tick (Service.clock (st w)))).
  pose proof (is_enabled_off now (evaluated x) (Service.store (st w))) as Hoff. cbn [exec switch_off] in Hoff.
  exists [Wrote (switch_off now (evaluated x))]. split_and!; [done|done| | |done|].
  - constructor; [by exists now|constructor].
  - intros p role. cbn. rewrite Hoff. by intros [? _]%andb_true_iff.
  - intros _. rewrite Hoff, evaluated_key, bool_decide_eq_true_2 by (by destruct x as [[p role] c]). by rewrite andb_false_r.
Qed.

Lemma evaluate_all_spec l w :
  let '(w', r) := forM evaluate_one l w in
  exists tr, trace w' = trace w ++ tr /\ Service.store (st w') = replayed tr (Service.store (st w)) /\
    Forall (fun e => exists x, x ∈ l /\ switched (Service.store (st w)) x e) tr /\
    no_re_enable (Service.store (st w)) (Service.store (st w')) /\
    match r with
    | Ok es => es = evaluated <$> l /\
               forall x, x ∈ l -> RoleEval.disabled (evaluated x) = true -> is_enabled x.1.1 x.1.2 (Service.store (st w')) = false
    | Raise _ => True
    end.
Proof.
  revert w. induction l as [|x l IH]; intros w.
  { cbn. exists []. rewrite app_nil_r. split_and!; try done. intros x Hx. by apply elem_of_nil in Hx. }
  cbn [forM]. unfold mbind at 1, M_bind at 1. pose proof (evaluate_one_spec x w) as Hx.
  destruct (evaluate_one x w) as [w1 r1]. destruct Hx as (t1 & Ht1 & Hs1 & Hf1 & Hn1 & Hr1).
  assert (Forall (fun e => exists y, y ∈ x :: l /\ switched (Service.store (st w)) y e) t1) as Hf1'.
  { eapply Forall_impl; [exact Hf1|]. intros e He. exists x. split; [by left|done]. }
  destruct r1 as [e1|err]; [|by exists t1]. destruct Hr1 as [-> Hoff].
  unfold mbind, M_bind. specialize (IH w1). destruct (forM evaluate_one l w1) as [w2 r2].
  destruct IH as (t2 & Ht2 & Hs2 & Hf2 & Hn2 & Hr2).
  assert (Forall (fun e => exists y, y ∈ x :: l /\ switched (Service.store (st w)) y e) t2) as Hf2'.
  { eapply Forall_impl; [exact Hf2|]. intros e (y & Hy & now & -> & Hd & He). exists y. split; [by right|].
    exists now. split_and!; [done|done|by apply Hn1]. }
  assert (no_re_enable (Service.store (st w)) (Service.store (st w2))) as Hn by (intros p role Hp; by apply Hn1, Hn2).
  assert (trace w2 = trace w ++ t1 ++ t2) as Ht by (by rewrite Ht2, Ht1, (assoc_L (++))).
  assert (Service.store (st w2) = replayed (t1 ++ t2) (Service.store (st w))) as Hs
    by (rewrite Hs2, Hs1; unfold replayed; by rewrite omap_app, fold_left_app).
  destruct r2 as [es|err]; exists (t1 ++ t2); (split_and!; [done|done|by apply Forall_app|done|..]); [| |done].
  - cbn. by destruct Hr2 as [-> _].
  - destruct Hr2 as [_ Hr2]. intros y [->|Hy]%elem_of_cons Hd; [|by apply Hr2].
    apply not_true_iff_false. intros Hon%Hn2. by rewrite Hoff in Hon.
Qed.

(** ** The night's verdicts *)

Definition verdict (since : Z) (d : db) (p : Z) : RoleEval.t :=
  evaluate_role p "coldstart" (comparison_of (of_project p (in_window since d))).

(** A project's resolved rubric suggestions of the window. *)
Definition resolved_rubric (since : Z) (d : db) (p : Z) : list SugRow.t :=
  List.filter (counted "rubric+" RESOLVED) (of_project p (in_window since d)).

Lemma elem_of_comparisons since d x :
  x ∈ role_comparisons since d <->
  x = (x.1.1, "coldstart", comparison_of (of_project x.1.1 (in_window since d))) /\ resolved_rubric since d x.1.1 <> [].
Proof.
  unfold role_comparisons, _coldstart_comparisons. rewrite list_elem_of_omap. split.
  - intros (p & Hp & E). cbn zeta in E. destruct (Z.eqb_spec (RoleComparison.n (comparison_of (of_project p (in_window since d)))) 0)
      as [|Hn]; [done|]. injection E as <-. split; [done|]. intros E. apply Hn. cbn. unfold count_where.
    unfold resolved_rubric in E. cbn in E. by rewrite E.
  - intros [E Hn]. exists x.1.1. split.
    + apply elem_of_remove_dups, list_elem_of_fmap.
      destruct (resolved_rubric since d x.1.1) as [|s rows] eqn:Er; [done|].
      assert (s ∈ resolved_rubric since d x.1.1) as Hs by (rewrite Er; by left).
      unfold resolved_rubric, of_project in Hs. apply list_elem_of_In, List.filter_In in Hs as [Hs _].
      apply List.filter_In in Hs as [Hs Hp]. exists s. split; [symmetry; by apply Z.eqb_eq|by apply list_elem_of_In].
    + cbn zeta. destruct (Z.eqb_spec (RoleComparison.n (comparison_of (of_project x.1.1 (in_window since d)))) 0) as [Hz|];
        [|by rewrite <- E]. destruct Hn. apply length_zero_iff_nil. cbn in Hz. unfold count_where in Hz. unfold resolved_rubric. lia.
Qed.

(** Too few cases never fail a role. *)
Lemma disabled_enough p role c : RoleComparison.n c = RoleComparison.n_llm c ->
  RoleEval.disabled (evaluate_role p role c) = true -> AUTO_DISABLE_MIN_N <= RoleComparison.n c.
Proof.
  intros En. unfold evaluate_role. cbv zeta. rewrite <- En. change AUTO_DISABLE_MIN_LLM_N with AUTO_DISABLE_MIN_N.
  destruct (Z.leb_spec AUTO_DISABLE_MIN_N (RoleComparison.n c)) as [|Hlt]; [done|].
  cbn [andb]. by rewrite (proj2 (Z.ltb_lt _ _) Hlt).
Qed.

(** The writes of a run, and what it does when it ends. *)
Definition judged (since : Z) (d : db) (e : effect) : Prop :=
  exists now p, e = Wrote (switch_off now (verdict since d p)) /\ RoleEval.disabled (verdict since d p) = true /\
    is_enabled p "coldstart" d = true /\ 50 <= Z.of_nat (length (resolved_rubric since d p)).

Lemma run_spec w :
  let since := Service.clock (st w) - EVAL_WINDOW_DAYS * US_PER_DAY in
  let d := Service.store (st w) in
  let '(w', r) := run w in
  exists tr, trace w' = trace w ++ tr /\ Service.store (st w') = replayed tr d /\ Forall (judged since d) tr /\
    no_re_enable d (Service.store (st w')) /\
    match r with
    | Ok _ => forall x, x ∈ role_comparisons since d -> RoleEval.disabled (evaluated x) = true ->
                is_enabled x.1.1 x.1.2 (Service.store (st w')) = false
    | Raise _ => True
    end.
Proof.
  cbv zeta. set (since := Service.clock (st w) - EVAL_WINDOW_DAYS * US_PER_DAY). set (d := Service.store (st w)).
  unfold run, mbind at 1, M_bind at 1, read at 1. unfold query, reached, mbind at 1, M_bind at 1.
  destruct (outage _); [cbn; exists []; by rewrite app_nil_r|].
  unfold read. cbn [st]. change (Service.store (Service.called _ _)) with d. fold since.
  set (w1 := mk_world _ _). set (l := pysorted comparison_leb (role_comparisons since d)).
  pose proof (evaluate_all_spec l w1) as Hl. unfold mbind, M_bind.
  destruct (forM evaluate_one l w1) as [w2 r2]. destruct Hl as (tr & Ht & Hs & Hf & Hn & Hr).
  assert (Forall (judged since d) tr) as Hj.
  { eapply Forall_impl; [exact Hf|]. intros e (x & Hx & now & -> & Hd & He).
    apply elem_of_pysorted, elem_of_comparisons in Hx as [Ex _].
    exists now, x.1.1. rewrite Ex in Hd, He |- *. cbn in Hd, He |- *. split_and!; [done|done|exact He|].
    by apply disabled_enough in Hd. }
  destruct r2 as [es|err]; cbn; exists tr; (split_and!; [exact Ht|exact Hs|exact Hj|exact Hn|]); [|done].
  destruct Hr as [_ Hoff]. intros x Hx Hd. apply Hoff; [by apply elem_of_pysorted|exact Hd].
Qed.

(** C21. The kill switch: wherever the night's evaluation stops, all it has written is
    switches of the cold-start role set off, each for a project whose role was on,
    that has at least fifty resolved rubric suggestions in the window, and that its
    own suggestions alone make fail the criteria; no switch is turned on.  A run that
    ends has the role off in every project that fails them. *)
Theorem kill_switch_sound w :
  let since := Service.clock (st w) - EVAL_WINDOW_DAYS * US_PER_DAY in
  let d := Service.store (st w) in
  let '(w', r) := run w in
  let d' := Service.store (st w') in
  (exists tr, trace w' = trace w ++ tr /\ d' = replayed tr d /\
     Forall (fun e => exists now p, e = Wrote (switch_off now (verdict since d p)) /\
       RoleEval.disabled (verdict since d p) = true /\ is_enabled p "coldstart" d = true /\
       50 <= Z.of_nat (length (resolved_rubric since d p))) tr) /\
  no_re_enable d d' /\
  match r with
  | Ok _ => forall p, resolved_rubric since d p <> [] -> RoleEval.disabled (verdict since d p) = true ->
              is_enabled p "coldstart" d' = false
  | Raise _ => True
  end.
Proof.
  pose proof (run_spec w) as Hw. cbv zeta in *. destruct (run w) as [w' r].
  destruct Hw as (tr & Ht & Hs & Hj & Hn & Hr). split_and!; [by exists tr|done|]. destruct r as [es|err]; [|done].
  intros p Hp Hd. refine (Hr (p, "coldstart", comparison_of (of_project p (in_window _ _))) _ Hd).
  by apply elem_of_comparisons.
Qed.
End Job.
End Eval.

(** ** A project whose rubric is mostly wrong *)

Section Example.
#[local] Existing Instance toy_vectors.
#[local] Instance square_pow : Libm := {| math_exp := id; math_log := id; math_log1p := id; float_pow x _ := (x * x)%F |}.

Definition rubric_case (outcome : string) : Database.SugRow.t :=
  SugRow.mk 1 10 3 None (u "si001") f1 None None [] (u "rubric+m;v1") true None None None None outcome (Some 100) 100.
Definition fifty_wrong : db :=
  Db.with_suggestion (list_to_map (imap (fun i o => (Z.of_nat i, rubric_case o))
                     (repeat "accepted" 10 ++ repeat "corrected" 50))) empty_db.
Definition night (clock : Z) (d : db) : service := Service.mk d clock 0 true None LlmQueue.empty_queue [] LlmState.starting.
Definition evaluate (clock : Z) (d : db) : service * option (list (string * Z)) :=
  let '(w, r) := run Z.succ (fun _ => None) (mk_world (night clock d) []) in
  (st w, match r with Ok (_, gauge) => Some gauge | Raise _ => None end).

Example switched_off :
  let '(s, gauge) := evaluate 1000 fifty_wrong in
  is_enabled 1 "coldstart" (Service.store s) = false /\ is_enabled 1 "explainer" (Service.store s) = true /\
  gauge = Some [("explainer", 0); ("extractor", 0); ("judge", 0); ("coldstart", 1)].
Proof. vm_compute. done. Qed.

(** The gauge is said to count the projects whose role the evaluation has switched
    off.  It counts those it finds failing tonight: a role that is off makes no
    suggestion, so once the window has passed the gauge reads zero while the role
    is still off. *)
Lemma gauge_forgets :
  let '(s, _) := evaluate 1000 fifty_wrong in
  let '(s', gauge) := evaluate (40 * US_PER_DAY) (Service.store s) in
  is_enabled 1 "coldstart" (Service.store s') = false /\
  gauge = Some [("explainer", 0); ("extractor", 0); ("judge", 0); ("coldstart", 0)].
Proof. vm_compute. done. Qed.
End Example.
