(* ===== verification/Nightly.v ===== *)
(** * The night

    The trigger of the nightly timer in [service.py]: a retrain request, the daily
    report of the day that ended, the orphan reaper, the evaluation of the language
    model; each in its own [try].  What a night does to the store follows from what
    its steps write. *)

From S2P Require Import Prelude PyFloat PyStr PyJson PyTime Features Decision LlmQueue Retrain Ingest LlmEngine Database.
From S2P Require Import Retrieval Knowledge LabelLog LlmStores TestStats StoreOps StoreInv Emit RouteHandlers LlmEval.
From Stdlib Require Import ZArith Lia.

#[local] Open Scope string_scope.
#[local] Open Scope list_scope.
#[local] Open Scope Z_scope.

Section Night.
Context `{PgVector, Libm} (tick : Z -> Z) (outage : nat -> option pyexn).
(** The sidecar's master switch, the grace of the configuration, the served models. *)
Context (sidecar_enabled : bool) (grace_days : Z) (emb_model_ver : option ustr).
Abbreviation M := (M service effect).

(** [try: m except Exception: log]. *)
Definition swallowed {A} (m : M A) : M unit := attempt m;; mret tt.

(** [MetricsDailyJob.run]: a fetch, and one transaction per row. *)
Definition metrics_job (day : Z) : M unit :=
  suggestions ← query tick outage (fetch_suggestions_for_day day);
  forM (fun m => write tick outage (fun _ => UpsertDailyMetrics m) (fun _ d => Ok (upsert_daily_metrics m d, tt)))
    (aggregate_daily TAU_AUTO emb_model_ver suggestions);;
  mret tt.

(** [_reap_orphan_label_events] and [_run_llm_eval] of an unbound service do nothing. *)
Definition _reap_orphan_label_events : M unit :=
  b ← is_bound;
  if b : bool then
    swallowed (write tick outage (fun now => Reap now grace_days)
                 (fun now d => Ok (reap_orphan_label_events now grace_days d)))
  else mret tt.

Definition _run_llm_eval : M unit :=
  b ← is_bound;
  if sidecar_enabled && b then swallowed (LlmEval.run tick outage) else mret tt.

Definition _trigger : M unit :=
  request_retrain REASON_NIGHTLY;;
  b ← is_bound;
  (if b : bool then
     swallowed (now ← read Service.clock; metrics_job (day_number now - 1))
   else mret tt);;
  _reap_orphan_label_events;;
  _run_llm_eval.

(** ** The writes of a night *)

Definition night_op (o : op) : Prop :=
  match o with
  | UpsertDailyMetrics _ => True
  | Reap _ grace => grace = grace_days
  | SetRoleState _ _ role on _ _ => role = "coldstart" /\ on = false
  | _ => False
  end.

Lemma replays_attempt {A} Q (m : M A) : replays Q m -> replays Q (attempt m).
Proof.
  intros Hm w. destruct (Hm w) as (tr & Ht & Hs & Hc & HQ). exists tr. unfold attempt.
  by destruct (m w) as [w' [a|e]].
Qed.
Lemma replays_swallowed {A} Q (m : M A) : replays Q m -> replays Q (swallowed m).
Proof. intros Hm. apply replays_bind; [by apply replays_attempt|intros _; apply replays_ret]. Qed.

Lemma replays_metrics day : replays night_op (metrics_job day).
Proof.
  unfold metrics_job. apply replays_bind; [apply replays_query|intros ss].
  apply replays_bind; [|intros _; apply replays_ret]. apply replays_forM. intros m. by apply replays_write.
Qed.
Lemma replays_reap : replays night_op _reap_orphan_label_events.
Proof.
  unfold _reap_orphan_label_events. apply replays_bind; [apply replays_read|intros []]; [|apply replays_ret].
  by apply replays_swallowed, replays_write.
Qed.

(** The evaluation writes nothing but its verdicts. *)
Lemma replays_any_eval : replays (fun _ => True) (LlmEval.run tick outage).
Proof.
  unfold LlmEval.run. apply replays_bind; [apply replays_read|intros now].
  apply replays_bind; [apply replays_query|intros cs]. apply replays_bind; [|intros es; apply replays_ret].
  apply replays_forM. intros x. unfold evaluate_one. cbv zeta. destruct (RoleEval.disabled _); [|apply replays_ret].
  apply replays_bind; [apply replays_query|intros []]; [|apply replays_ret].
  apply replays_bind; [by apply replays_write|intros _; apply replays_ret].
Qed.
Lemma replays_eval : replays night_op (LlmEval.run tick outage).
Proof.
  intros w. destruct (replays_any_eval w) as (tr & Ht & Hs & Hc & _). exists tr. split_and!; [done..|].
  pose proof (run_spec tick outage w) as Hw. cbv zeta in Hw. destruct (LlmEval.run tick outage w) as [w' r].
  destruct Hw as (tr' & Ht' & _ & Hj & _). cbn in Ht. rewrite Ht in Ht'. apply app_inv_head in Ht' as ->.
  eapply Forall_impl; [exact Hj|]. intros e (now & p & -> & _). cbn. split; [|done].
  exact (f_equal snd (evaluated_key (p, "coldstart", _))).
Qed.

Lemma replays_night : replays night_op _trigger.
Proof.
  unfold _trigger. apply replays_bind; [apply replays_retrain|intros _]. apply replays_bind; [apply replays_read|intros b].
  apply replays_bind; [|intros _; apply replays_bind; [apply replays_reap|intros _]].
  - destruct b; [|apply replays_ret]. apply replays_swallowed, replays_bind; [apply replays_read|intros now; apply replays_metrics].
  - unfold _run_llm_eval. apply replays_bind; [apply replays_read|intros b2].
    destruct (_ && _); [|apply replays_ret]. by apply replays_swallowed, replays_eval.
Qed.

(** No step ends the night early. *)
Definition ends {A} (m : M A) : Prop := forall w, exists a, (m w).2 = Ok a.
Lemma ends_bind {A B} (m : M A) (k : A -> M B) : ends m -> (forall a, ends (k a)) -> ends (m ≫= k).
Proof.
  intros Hm Hk w. destruct (Hm w) as [a E]. unfold mbind, M_bind. destruct (m w) as [w' r]. cbn in E. subst r. apply Hk.
Qed.
Lemma ends_swallowed {A} (m : M A) : ends (swallowed m).
Proof. intros w. unfold swallowed, attempt, mbind, M_bind. destruct (m w) as [w' [a|e]]; by exists tt. Qed.
Lemma ends_ret {A} (a : A) : ends (mret a).
Proof. intros w. by exists a. Qed.
Lemma ends_read {A} (f : service -> A) : ends (read f).
Proof. intros w. by eexists. Qed.

Lemma night_ends : ends _trigger.
Proof.
  unfold _trigger, _reap_orphan_label_events, _run_llm_eval, is_bound.
  apply ends_bind; [by intros w; eexists|intros _]. apply ends_bind; [apply ends_read|intros b].
  apply ends_bind; [destruct b; [apply ends_swallowed|apply ends_ret]|intros _].
  apply ends_bind; [apply ends_bind; [apply ends_read|intros []; [apply ends_swallowed|apply ends_ret]]|intros _].
  apply ends_bind; [apply ends_read|intros b2]. destruct (_ && _); [apply ends_swallowed|apply ends_ret].
Qed.

(** One retrain is asked for. *)
Definition writes_only (e : effect) : Prop := requested e = None.
Lemma only_query {A} (f : db -> A) : only writes_only (query tick outage f).
Proof. intros w. exists []. unfold query, reached. rewrite app_nil_r. by destruct (outage _). Qed.
Lemma only_write {A} (o : Z -> op) (f : Z -> db -> result (db * A)) : only writes_only (write tick outage o f).
Proof.
  intros w. unfold write, reached. destruct (outage _); cbn; [exists []; by rewrite app_nil_r|].
  destruct (f _ _) as [[d a]|e]; cbn; [|exists []; by rewrite app_nil_r]. eexists. split; [done|].
  split; [by constructor|done].
Qed.
Lemma only_swallowed {A} (m : M A) : only writes_only m -> only writes_only (swallowed m).
Proof. intros Hm. apply only_bind; [by apply only_attempt|intros _; apply only_ret]. Qed.
Lemma only_eval : only writes_only (LlmEval.run tick outage).
Proof.
  apply only_bind; [apply only_read|intros now]. apply only_bind; [apply only_query|intros cs].
  apply only_bind; [|intros es; apply only_ret]. apply only_forM. intros x _. unfold evaluate_one. cbv zeta.
  destruct (RoleEval.disabled _); [|apply only_ret]. apply only_bind; [apply only_query|intros []]; [|apply only_ret].
  apply only_bind; [apply only_write|intros _; apply only_ret].
Qed.
Lemma only_metrics day : only writes_only (metrics_job day).
Proof.
  apply only_bind; [apply only_query|intros ss]. apply only_bind; [|intros _; apply only_ret].
  apply only_forM. intros m _. apply only_write.
Qed.

Lemma retrain_once w : omap requested (trace (_trigger w).1) = omap requested (trace w) ++ [REASON_NIGHTLY].
Proof.
  unfold _trigger. erewrite bind_ok by reflexivity.
  match goal with |- context [(?m ≫= ?k) ?w0] => assert (only writes_only (m ≫= k)) as Hm; [|destruct (Hm w0) as (tr & Ht & Hf & _)] end.
  - apply only_bind; [apply only_read|intros b].
    apply only_bind; [destruct b; [|apply only_ret]; apply only_swallowed, only_bind; [apply only_read|intros; apply only_metrics]|intros _].
    unfold _reap_orphan_label_events, _run_llm_eval.
    apply only_bind; [apply only_bind; [apply only_read|intros []; [apply only_swallowed, only_write|apply only_ret]]|intros _].
    apply only_bind; [apply only_read|intros b2]. destruct (_ && _); [apply only_swallowed, only_eval|apply only_ret].
  - rewrite Ht, omap_app, (omap_none requested tr) by exact Hf. cbn [trace]. rewrite omap_app. cbn. by rewrite app_nil_r.
Qed.

(** What a night leaves alone: everything but the reports, the switches and the
    label log, which only shrinks. *)
Record nocturnal (d d' : db) : Prop := {
  noct_items : Db.test_item d' = Db.test_item d;
  noct_signatures : Db.failure_signature d' = Db.failure_signature d;
  noct_modes : Db.failure_mode d' = Db.failure_mode d;
  noct_members : Db.mode_membership d' = Db.mode_membership d;
  noct_suggestions : Db.suggestion d' = Db.suggestion d;
  noct_groups : Db.launch_group d' = Db.launch_group d;
  noct_log : Db.label_event d' ⊆ Db.label_event d;
  noct_switches : no_re_enable d d'
}.

#[local] Instance nocturnal_preorder : PreOrder nocturnal.
Proof.
  split; [by intros d; split|]. intros d1 d2 d3 [] []. split; try (by etrans). intros p role Hp. auto.
Qed.

Lemma night_op_nocturnal o d : night_op o -> nocturnal d (exec o d).
Proof.
  intros Ho. destruct o; try done; cbn [exec].
  - unfold reap_orphan_label_events. destruct (_ <=? 0); (split; try done; [..|by intros q r]). cbn. apply map_filter_subseteq.
  - split; try done. by intros q r.
  - destruct Ho as [-> ->]. split; try done. intros q r. unfold is_enabled. cbn.
    destruct (decide ((q, r) = (p, "coldstart"))) as [[= -> ->]|Hne].
    + by rewrite lookup_insert_eq.
    + by rewrite lookup_insert_ne by congruence.
Qed.

Lemma nocturnal_run ops d : Forall night_op ops -> nocturnal d (fold_left (fun d o => exec o d) ops d).
Proof.
  intros Ho. revert d. induction Ho as [|o ops Ho _ IH]; intros d; [done|]. cbn.
  etrans; [by apply night_op_nocturnal|apply IH].
Qed.

(** C22. A night ends and does no harm: whatever store calls fail, the trigger returns,
    the retrain it asked for first is with the scheduler, and the store it leaves is
    the one it found with a history of reports, reaping and switches made to it: no
    item, signature, failure mode, membership, suggestion or group changes, no label
    is added and no role is switched on. *)
Theorem night_is_safe w l :
  history l (Service.store (st w)) ->
  let '(w', r) := _trigger w in
  let d := Service.store (st w) in
  let d' := Service.store (st w') in
  r = Ok tt /\ nocturnal d d' /\
  Service.scheduler (st w') = (fun sc => Scheduler.request sc REASON_NIGHTLY) <$> Service.scheduler (st w) /\
  exists l', history (l ++ l') d' /\ integrity d' /\ Forall night_op l'.*1 /\ omap requested (trace w') = omap requested (trace w) ++ [REASON_NIGHTLY].
Proof.
  intros Hh. destruct (replays_night w) as (tr & Ht & Hs & Hc & HQ). destruct (night_ends w) as [[] Hr].
  pose proof (retrain_once w) as Ho. destruct (_trigger w) as [w' r]. cbn [fst snd] in *. subst r.
  rewrite Ht, omap_app in Ho. apply app_inv_head in Ho. unfold asked in Hc. rewrite Ho in Hc.
  pose proof (wanted_writes _ _ HQ) as HQ'.
  unfold replayed in Hs. pose proof (replay_history l _ (omap wrote tr) Hh) as Hrep. rewrite replay_store, <- Hs in Hrep.
  split_and!; [done|rewrite Hs; by apply nocturnal_run|exact Hc|].
  exists (replay (Service.store (st w)) (omap wrote tr)).1. rewrite replay_ops.
  split_and!; [done|by eapply history_integrity|done|by rewrite Ht, omap_app, Ho].
Qed.
End Night.

(** ** A night of two tenants *)

Section Example.
#[local] Existing Instances toy_vectors square_pow.

Definition evening : service := Service.mk (replay empty_db two_tenants).2 (40 * US_PER_DAY) 0 true (Some Scheduler.init) LlmQueue.empty_queue [] LlmState.starting.
(** The second store call of the night is refused. *)
Definition rough_night : Emit.M service effect unit :=
  _trigger Z.succ (fun n => if Nat.eqb n 1 then Some (OtherError "OperationalError") else None) true 30 None.

(** The reaper's call is the one refused; the evaluation still runs. *)
Example rough_night_ends :
  let '(w, r) := rough_night (mk_world evening []) in
  r = Ok tt /\ Service.calls (st w) = 3%nat /\ Scheduler.pending <$> Service.scheduler (st w) = Some (Some REASON_NIGHTLY) /\
  omap wrote (trace w) = [].
Proof. vm_compute. done. Qed.

Lemma night_is_safe_witness :
  let d' := Service.store (st (rough_night (mk_world evening [])).1) in
  nocturnal (Service.store evening) d' /\ integrity d'.
Proof.
  pose proof (night_is_safe Z.succ (fun n => if Nat.eqb n 1 then Some (OtherError "OperationalError") else None) true 30 None
                (mk_world evening []) _ two_tenants_history) as Hn.
  unfold rough_night. destruct (_trigger _ _ _ _ _ _) as [w' r]. destruct Hn as (_ & Hn & _ & l' & _ & Hi & _).
  exact (conj Hn Hi).
Defined.
End Example.
