(* ===== verification/LlmRoles.v ===== *)
(** * Roles and the application of their answers

    The cold-start rubric ([llm/rubric.py], [llm/roles/coldstart.py]), the judge
    ([llm/roles/judge.py]) and what a validated answer does to the suggestions
    ([llm/apply.py], [PgLlmApplier] of [llm/wiring.py]).  Prompt text is not
    modelled; [strip_rule_ids] (a chain of regular expressions) is an argument. *)

From S2P Require Import Prelude PyFloat PyStr PyInt PyJson Decision LlmSchema LlmEngine.
From Stdlib Require Import ZArith Lia.

#[local] Open Scope string_scope.
#[local] Open Scope list_scope.
#[local] Open Scope Z_scope.

(** ** The rubric *)

(** A row of the table; [when], the prompt line, is prompt text only. *)
Module RubricRule.
Record t := mk { label : string; confidence : string; name : string }.
End RubricRule.

Definition RUBRIC : list (string * RubricRule.t) :=
  [("R1", RubricRule.mk "pb" "high" "Check failed on the app's answer");
   ("R2", RubricRule.mk "ab" "med" "Setup or test data failed");
   ("R3", RubricRule.mk "ab" "high" "Element not found on the page");
   ("R4", RubricRule.mk "ab" "high" "Test code did not build");
   ("R5", RubricRule.mk "ab" "med" "Empty value inside test code");
   ("R6", RubricRule.mk "si" "high" "Could not reach the service");
   ("R7", RubricRule.mk "si" "high" "Gateway returned an error");
   ("R8", RubricRule.mk "si" "med" "Runner ran out of space or memory");
   ("R9", RubricRule.mk "pb" "med" "App rejected a valid request");
   ("R10", RubricRule.mk "pb" "high" "App failed with a server error");
   ("R11", RubricRule.mk "pb" "low" "App answered too slowly");
   ("R12", RubricRule.mk "nd" "high" "Passed when run again");
   ("R13", RubricRule.mk "si" "med" "Rate limit or quota reached");
   ("R14", RubricRule.mk "ab" "low" "Parallel runs clashed")].

Definition RUBRIC_LABEL : list (string * string) := (fun kr => (kr.1, RubricRule.label kr.2)) <$> RUBRIC.
Definition RUBRIC_NAME : list (string * string) := (fun kr => (kr.1, RubricRule.name kr.2)) <$> RUBRIC.

Definition CONFIDENCE_SCORE : list (string * pyfloat) :=
  Eval vm_compute in [("low", dec 46 100); ("med", dec 55 100); ("high", dec 65 100)].

(** A dict with ASCII keys read with a text key. *)
Definition uget {A} (k : ustr) (d : list (string * A)) : option A :=
  dget k ((fun kv => (u kv.1, kv.2)) <$> d).

Definition rubric_rule_name (rule_id : option ustr) : string :=
  match rule_id with
  | None => ""
  | Some r => if bool_decide (r = []) || bool_decide (r = u "none") then ""
              else default "" (uget r RUBRIC_NAME)
  end.

(** ** Cold start *)

Module ColdStart.
Definition schema : schema := obj_schema
  [("label", enum_schema (jstr <$> ["pb"; "ab"; "si"; "nd"]));
   ("confidence", enum_schema (jstr <$> ["low"; "med"; "high"]));
   ("rubric_rule_matched", enum_schema (jstr <$> (RUBRIC.*1 ++ ["none"])));
   ("reason", str_schema 300)]
  ["label"; "confidence"; "rubric_rule_matched"; "reason"].

(** [RUBRIC_LABEL.get(rule) == output.get("label")] for a text rule. *)
Definition post_validate (output : json) : bool :=
  let d := fields_of output in
  match jget "rubric_rule_matched" d with
  | JStr rule =>
      if bool_decide (rule = []) || bool_decide (rule = u "none") then true
      else match uget rule RUBRIC_LABEL with
           | Some l => py_eq (jget "label" d) (jstr l)
           | None => py_eq JNull (jget "label" d)
           end
  | v => if truthy v then py_eq JNull (jget "label" d) else true
  end.
End ColdStart.

(** ** Judge *)

(** [choice.split("_", 1)[1]]. *)
Fixpoint after_underscore (s : ustr) : option ustr :=
  match s with
  | [] => None
  | c :: s' => if (c =? 95)%N then Some s' else after_underscore s'
  end.

Fixpoint ustarts (p s : ustr) : bool :=
  match p, s with
  | [], _ => true
  | x :: p', y :: s' => (x =? y)%N && ustarts p' s'
  | _ :: _, [] => false
  end.

Module Judge.
Definition choice_name (i : nat) : string := "candidate_" +:+ str_of_Z (Z.of_nat i + 1).

(** [_schema_for_k]. *)
Definition schema_for_k (k : nat) : schema := obj_schema
  [("choice", enum_schema (jstr <$> ((choice_name <$> seq 0 k) ++ ["none"; "abstain"])));
   ("reason", str_schema 300)]
  ["choice"; "reason"].

Definition post_validate (n_candidates : nat) (output : json) : bool :=
  match jget "choice" (fields_of output) with
  | JStr choice =>
      if bool_decide (choice = u "none") || bool_decide (choice = u "abstain") then true
      else if ustarts (u "candidate_") choice then
        match after_underscore choice with
        | Some rest => match int_text rest with
                       | Some idx => (1 <=? idx) && (idx <=? Z.of_nat n_candidates)
                       | None => false
                       end
        | None => false
        end
      else false
  | _ => false
  end.
End Judge.

(** ** The suggestion writes *)

(** The [SuggestionOps] calls an application makes, in order. *)
Inductive op :=
  | SetExplanation (project_id suggestion_id : Z) (explanation : ustr)
  | AnnotateJudge (project_id item_id : Z) (chosen_item_id : option Z) (patch : json)
  | InsertColdstart (project_id item_id launch_id : Z) (predicted_label : string) (confidence : pyfloat)
      (model_ver : string) (features : json).

Definition as_text (j : json) : result ustr := match j with JStr s => Ok s | _ => Raise TypeError end.

Definition apply_explainer (project_id suggestion_id : Z) (output : dict) : result (list op) :=
  e ← jindex "explanation" output ≫= as_text;
  Ok [SetExplanation project_id suggestion_id e].

Definition opt_int (o : option Z) : json := match o with Some z => JInt z | None => JNull end.

Definition apply_judge (project_id item_id : Z) (candidates : list Z) (output : dict)
    (model prompt_hash : string) : result (list op) :=
  choice ← jindex "choice" output ≫= as_text;
  if bool_decide (choice = u "abstain") then Ok []
  else
    chosen ← (if bool_decide (choice = u "none") then Ok None
              else
                rest ← match after_underscore choice with Some r => Ok r | None => Raise IndexError end;
                idx ← match int_text rest with Some i => Ok i | None => Raise ValueError end;
                id ← py_index candidates (idx - 1);
                Ok (Some id));
    Ok [AnnotateJudge project_id item_id chosen
          (JObj [("judge", JObj [("choice", JStr choice); ("chosen_item_id", opt_int chosen);
                                 ("model", jstr model); ("prompt_hash", jstr prompt_hash)])])].

Section Coldstart.
(** [strip_rule_ids] of the rubric. *)
Context (strip_rule_ids : option ustr -> ustr).

Definition apply_coldstart (project_id item_id launch_id : Z) (output : dict)
    (group_locator model_tag : string) (new_suggestion_id : Z) : result (list op) :=
  rule ← jindex "rubric_rule_matched" output ≫= as_text;
  model_bucket ← jindex "confidence" output ≫= as_text;
  let bucket := match uget rule RUBRIC with Some r => u (RubricRule.confidence r) | None => model_bucket end in
  confidence ← match uget bucket CONFIDENCE_SCORE with Some f => Ok f | None => Raise (KeyError "confidence") end;
  let features := JObj [("coldstart", JObj [
    ("rule", JStr rule); ("rule_name", jstr (rubric_rule_name (Some rule)));
    ("confidence", JStr bucket); ("model_confidence", JStr model_bucket)])] in
  let insert := InsertColdstart project_id item_id launch_id group_locator confidence
                  ("rubric+" +:+ model_tag) features in
  let reason := strip_rule_ids (match jget "reason" output with JStr s => Some s | _ => None end) in
  Ok (insert :: match reason with [] => [] | _ => [SetExplanation project_id new_suggestion_id reason] end).

(** [PgLlmApplier.__call__]: [suggestion_id], [candidates] and [launch_id] are
  what it reads of the role's input. *)
Definition applier (role : string) (project_id item_id : Z) (suggestion_id : option Z)
    (candidates : list Z) (launch_id : Z) (model_tag : string) (new_suggestion_id : Z)
    (res : role_result) : result (list op) :=
  match RoleResult.output res with
  | None => Ok []
  | Some output =>
      let output := fields_of output in
      if bool_decide (role ∈ ["explainer"; "abstain_explainer"]) then
        match suggestion_id with
        | Some sid => apply_explainer project_id sid output
        | None => Ok []
        end
      else if bool_decide (role = "judge") then
        apply_judge project_id item_id candidates output model_tag (RoleResult.prompt_hash res)
      else if bool_decide (role = "coldstart") then
        label ← jindex "label" output ≫= as_text;
        apply_coldstart project_id item_id launch_id output (default_locator (of_u label)) model_tag
          new_suggestion_id
      else Ok []
  end.
End Coldstart.

(** ** Lemmas *)

Lemma uget_u {A} k (d : list (string * A)) : uget (u k) d = dget k d.
Proof.
  unfold uget. induction d as [|[k' v] d IH]; [done|]. csimpl.
  destruct (decide (k = k')) as [->|Hne]; [by rewrite decide_True|].
  rewrite decide_False; [done|]. intros E. by apply u_inj in E.
Qed.

Lemma dget_fmap {A B} (f : A -> B) k (d : list (string * A)) :
  dget k ((fun kr => (kr.1, f kr.2)) <$> d) = f <$> dget k d.
Proof. induction d as [|[k' v] d IH]; [done|]. csimpl. by destruct (decide (k = k')). Qed.

Lemma jget_Some k d x : dget k d = Some x -> jget k d = x /\ jindex k d = Ok x.
Proof. unfold jget, dgetd, jindex. by intros ->. Qed.

(** A required key of an accepted object carries a value its schema accepts. *)
Lemma obj_field v props req k sub :
  is_valid v (obj_schema props req) = true -> bool_decide (k ∈ req) = true -> dget k props = Some sub ->
  exists x, dget k (fields_of v) = Some x /\ is_valid x sub = true.
Proof.
  intros (d & -> & Hreq & _ & Hsub)%obj_valid Hk%bool_decide_eq_true_1 Hp%dget_elem.
  destruct (proj2 (dget_is_Some k d) (Hreq k Hk)) as [x Hx].
  exists x. split; [done|]. by eapply Hsub.
Qed.

Definition rubric_row_ok (kr : string * RubricRule.t) : Prop :=
  RubricRule.label kr.2 ∈ ["pb"; "ab"; "si"; "nd"] /\ RubricRule.confidence kr.2 ∈ ["low"; "med"; "high"] /\
  kr.1 <> "" /\ kr.1 <> "none" /\ RubricRule.name kr.2 <> "".

Lemma rubric_rows : Forall rubric_row_ok RUBRIC.
Proof. repeat constructor; simpl; try discriminate; set_solver. Qed.

Lemma score_in_band b : b ∈ ["low"; "med"; "high"] ->
  exists c, dget b CONFIDENCE_SCORE = Some c /\ fle TAU_SUGGEST c = true /\ flt c TAU_AUTO = true.
Proof. intros Hb. elem_cases Hb; eexists; (split; [reflexivity|split; vm_compute; reflexivity]). Qed.

(** The post-validation of a schema-valid answer is agreement with the table. *)
Lemma coldstart_post_validate_iff d rule label :
  dget "rubric_rule_matched" d = Some (jstr rule) -> dget "label" d = Some (jstr label) ->
  rule <> "" ->
  ColdStart.post_validate (JObj d) = true <->
  rule = "none" \/ exists r, dget rule RUBRIC = Some r /\ RubricRule.label r = label.
Proof.
  intros Hr Hl Hne. apply jget_Some in Hr as [Hr _]. apply jget_Some in Hl as [Hl _].
  unfold ColdStart.post_validate, fields_of. rewrite Hr, Hl. unfold jstr at 1. cbv beta iota.
  rewrite bool_decide_eq_false_2 by (intros E; apply (u_inj rule ""%string) in E; done). simpl orb.
  destruct (decide (rule = "none")) as [->|Hnn]; [by split; [left|]|].
  rewrite bool_decide_eq_false_2 by (intros E; by apply u_inj in E).
  rewrite uget_u. unfold RUBRIC_LABEL. rewrite dget_fmap.
  destruct (dget rule RUBRIC) as [r|]; simpl fmap; cbv iota.
  - rewrite py_eq_jstr, bool_decide_eq_true. naive_solver.
  - split; [done|]. intros [?|(r & [=] & _)]; done.
Qed.

Lemma choice_name_parts i :
  ustarts (u "candidate_") (u (Judge.choice_name i)) = true /\
  after_underscore (u (Judge.choice_name i)) = Some (u (str_of_Z (Z.of_nat i + 1))) /\
  Judge.choice_name i <> "none" /\ Judge.choice_name i <> "abstain".
Proof. unfold Judge.choice_name. rewrite u_app. split_and!; try done. Qed.

(** ** What a validated answer does *)

(** A cold-start answer that passed the schema and the post-validation is
    always applied, and stays in the suggest band: exactly one suggestion is
    inserted, with the locator of a base label, a confidence at least the suggest
    floor and strictly below the automatic one, and provenance [rubric+<model>].
    Under a claimed rule the label is the rule's own and the confidence is the
    rule's canonical bucket, whatever bucket the model rated itself; the
    explanation is written only when a reason survives the cleaning, on the
    suggestion just inserted. *)
Theorem coldstart_valid_output_applies (strip_rule_ids : option ustr -> ustr)
    (pid item launch sid : Z) (tag : string) (output : json) (res : role_result)
    (Hout : RoleResult.output res = Some output)
    (Hvalid : is_valid output ColdStart.schema = true)
    (Hpost : ColdStart.post_validate output = true) :
  exists label rule bucket conf features explanation,
    applier strip_rule_ids "coldstart" pid item None [] launch tag sid res =
      Ok (InsertColdstart pid item launch (default_locator label) conf ("rubric+" +:+ tag) features :: explanation) /\
    jget "label" (fields_of output) = jstr label /\ label ∈ ["pb"; "ab"; "si"; "nd"] /\
    jget "rubric_rule_matched" (fields_of output) = jstr rule /\
    dget bucket CONFIDENCE_SCORE = Some conf /\
    fle TAU_SUGGEST conf = true /\ flt conf TAU_AUTO = true /\
    (rule = "none" /\ jget "confidence" (fields_of output) = jstr bucket \/
     exists r, dget rule RUBRIC = Some r /\ RubricRule.label r = label /\ RubricRule.confidence r = bucket) /\
    (explanation = [] \/ exists reason, reason <> [] /\ explanation = [SetExplanation pid sid reason]).
Proof.
  assert (exists d, output = JObj d) as [d ->] by (apply obj_valid in Hvalid as (d & -> & _); eauto).
  destruct (obj_field _ _ _ "label" _ Hvalid eq_refl eq_refl) as (? & Hl & (label & Hlab & ->)%enum_valid).
  destruct (obj_field _ _ _ "confidence" _ Hvalid eq_refl eq_refl) as (? & Hc & (model & Hmod & ->)%enum_valid).
  destruct (obj_field _ _ _ "rubric_rule_matched" _ Hvalid eq_refl eq_refl) as (? & Hr & (rule & Hrule & ->)%enum_valid).
  change (fields_of (JObj d)) with d in *.
  assert (rule <> "") as Hne by (intros ->; by apply (bool_decide_eq_true_1 (¬ ("" ∈ RUBRIC.*1 ++ ["none"]))) in Hrule).
  pose proof (proj1 (coldstart_post_validate_iff d rule label Hr Hl Hne) Hpost) as Hagree.
  set (bucket := match dget rule RUBRIC with Some r => RubricRule.confidence r | None => model end).
  assert (bucket ∈ ["low"; "med"; "high"]) as Hbucket.
  { unfold bucket. destruct (dget rule RUBRIC) as [r|] eqn:E; [|done].
    apply dget_elem in E. pose proof (proj1 (Forall_forall _ _) rubric_rows _ E) as (_ & Hb & _). exact Hb. }
  destruct (score_in_band _ Hbucket) as (conf & Hconf & Hlo & Hhi).
  apply jget_Some in Hl as [Hl1 Hl2]. apply jget_Some in Hc as [Hc1 Hc2]. apply jget_Some in Hr as [Hr1 Hr2].
  set (reason := strip_rule_ids (match jget "reason" d with JStr s => Some s | _ => None end)).
  eexists label, rule, bucket, conf, _, (match reason with [] => [] | _ => [SetExplanation pid sid reason] end).
  split_and!; try done.
  - unfold applier. rewrite Hout. simpl fields_of.
    do 2 rewrite (bool_decide_eq_false_2 _) by (set_solver).
    rewrite bool_decide_eq_true_2 by done.
    rewrite Hl2. simpl. rewrite of_u_u. unfold apply_coldstart. rewrite Hr2, Hc2. simpl.
    rewrite !uget_u.
    replace (match dget rule RUBRIC with Some r => u (RubricRule.confidence r) | None => u model end) with (u bucket)
      by (unfold bucket; by destruct (dget rule RUBRIC)).
    rewrite uget_u, Hconf. simpl. reflexivity.
  - destruct Hagree as [->|(r & Hr & Hrl)]; [left; done|right].
    exists r. split_and!; [done|done|]. unfold bucket. by rewrite Hr.
  - destruct reason as [|c s]; [by left|]. right. by exists (c :: s).
Qed.

(** A judge answer accepted by the schema built for the K candidates of the
    call is always applicable: the post-validation accepts it, and applying it
    never raises.  Abstaining writes nothing; [none] annotates with no chosen
    item; naming the i-th candidate annotates with that candidate's own id.  No
    other kind of write exists. *)
Theorem judge_valid_output_applies (pid item : Z) (candidates : list Z) (output : json) (model hash : string)
    (Hvalid : is_valid output (Judge.schema_for_k (length candidates)) = true) :
  Judge.post_validate (length candidates) output = true /\
  exists choice, jget "choice" (fields_of output) = jstr choice /\
    (choice = "abstain" /\ apply_judge pid item candidates (fields_of output) model hash = Ok [] \/
     exists chosen,
       (choice = "none" /\ chosen = None \/
        exists i id, candidates !! i = Some id /\ choice = Judge.choice_name i /\ chosen = Some id) /\
       apply_judge pid item candidates (fields_of output) model hash =
         Ok [AnnotateJudge pid item chosen
               (JObj [("judge", JObj [("choice", jstr choice); ("chosen_item_id", opt_int chosen);
                                      ("model", jstr model); ("prompt_hash", jstr hash)])])]).
Proof.
  destruct (obj_field _ _ _ "choice" _ Hvalid eq_refl eq_refl) as (? & Hc & (choice & Hin & ->)%enum_valid).
  apply jget_Some in Hc as [Hget Hidx]. unfold Judge.post_validate, apply_judge. rewrite Hget, Hidx.
  cbn [mbind result_bind as_text jstr].
  apply elem_of_app in Hin as [(i & -> & Hi)%list_elem_of_fmap|Hin].
  - apply elem_of_seq in Hi. destruct (choice_name_parts i) as (Hst & Hun & Hnn & Hna).
    destruct (lookup_lt_is_Some_2 candidates i) as [id Hid]; [lia|].
    rewrite !bool_decide_eq_false_2 by (intros E; by apply u_inj in E).
    rewrite Hst, Hun, int_text_str_of_Z. cbn [mbind result_bind orb]. split; [apply andb_true_iff; lia|].
    exists (Judge.choice_name i). split; [done|]. right. exists (Some id). split; [right; eauto|].
    rewrite int_text_str_of_Z. cbn [mbind result_bind].
    replace (Z.of_nat i + 1 - 1) with (Z.of_nat i) by lia. by rewrite (py_index_nat _ _ _ Hid).
  - elem_cases Hin.
    + split; [done|]. exists "none". split; [done|]. right. exists None. split; [by left|done].
    + split; [done|]. exists "abstain". split; [done|]. by left.
Qed.

Definition coldstart_answer : json :=
  JObj [("label", jstr "si"); ("confidence", jstr "high"); ("rubric_rule_matched", jstr "R8");
        ("reason", jstr "The runner ran out of disk.")].
Definition judge_answer : json := JObj [("choice", jstr "candidate_2"); ("reason", jstr "Same stack.")].

Lemma coldstart_valid_output_applies_witness :
  exists conf features explanation,
    applier (default []) "coldstart" 1 2 None [] 3 "qwen" 4 (RoleResult.mk OOk (Some coldstart_answer) false "h") =
      Ok (InsertColdstart 1 2 3 (default_locator "si") conf ("rubric+qwen") features :: explanation) /\
    flt conf TAU_AUTO = true.
Proof.
  destruct (coldstart_valid_output_applies (default []) 1 2 3 4 "qwen" coldstart_answer
              (RoleResult.mk OOk (Some coldstart_answer) false "h") eq_refl eq_refl eq_refl)
    as (label & rule & bucket & conf & features & ex & Happ & Hl & _ & _ & _ & _ & Hhi & _).
  exists conf, features, ex. split; [|exact Hhi]. apply (u_inj "si" label) in Hl || idtac.
  assert (label = "si") as -> by (injection Hl as Hl; symmetry; by apply u_inj). exact Happ.
Defined.

Lemma judge_valid_output_applies_witness :
  Judge.post_validate 3 judge_answer = true.
Proof. exact (proj1 (judge_valid_output_applies 1 2 [10; 11; 12] judge_answer "qwen" "h" eq_refl)). Defined.
