(* ===== verification/Grounding.v ===== *)
(** * Grounding of an answer in its evidence

    The explainer and extractor roles ([llm/roles/explainer.py], [extractor.py]) over
    what all roles share ([llm/roles/base.py]): the fact block, the excerpt the model
    is shown, and the post-validation that keeps an answer to text found there.  The
    wording of the prompts and the rendering of the fact block in them are arguments. *)

From S2P Require Import Prelude PyFloat PyStr PyInt PyJson Regex RegexTheory PyText UrlCodec JsonText Hashing Drain Sanitizer Excerpt Breaker LlmSchema LlmEngine LlmRoles.
From Stdlib Require Import ZArith NArith Ascii Lia.

#[local] Open Scope string_scope.
#[local] Open Scope list_scope.
#[local] Open Scope Z_scope.

(** ** What the roles share *)

Definition _TOP_FRAMES_CAP : nat := 8.
Definition _TEMPLATE_IDS_CAP : nat := 12.
Definition _STATUS_CODES_CAP : nat := 8.
Definition _ARRAY_CAPS : list (string * nat) :=
  [("top_frames", _TOP_FRAMES_CAP); ("template_ids", _TEMPLATE_IDS_CAP); ("error_templates", _TEMPLATE_IDS_CAP);
   ("status_codes", _STATUS_CODES_CAP); ("exception_chain", _TOP_FRAMES_CAP)].
Definition EXCERPT_SLICE_TOKENS : Z := 2200.
Definition JUDGE_EXCERPT_SLICE_TOKENS : Z := 800.

Section Evidence.
Context `{!Unicode}.

Fixpoint _sanitize_leaf (value : json) : json :=
  match value with
  | JStr s => JStr (sanitize s)
  | JList l => JList (_sanitize_leaf <$> l)
  | JObj d => JObj ((fun kv => (kv.1, _sanitize_leaf kv.2)) <$> d)
  | v => v
  end.

Definition cap_value (key : string) (value : json) : json :=
  match value, dget key _ARRAY_CAPS with
  | JList l, Some n => JList (take n l)
  | v, _ => v
  end.
Definition _cap_arrays (fact_block : dict) : dict := (fun kv => (kv.1, cap_value kv.1 kv.2)) <$> fact_block.

Fixpoint _collect_strings (value : json) : list ustr :=
  match value with
  | JStr s => [s]
  | JList l => l ≫= _collect_strings
  | JObj d => d ≫= (fun kv => _collect_strings kv.2)
  | _ => []
  end.

(** The sanitized facts, which [json.dumps] renders, and their texts. *)
Definition prepare_fact_block (fact_block : dict) : dict * list ustr :=
  let sanitized := (fun kv => (kv.1, _sanitize_leaf kv.2)) <$> _cap_arrays fact_block in
  (sanitized, _collect_strings (JObj sanitized)).

(** The envelope and the text in it; [middle_out] always returns. *)
Definition build_untrusted_excerpt (raw_excerpt nonce : ustr) (slice_tokens : Z) : ustr * ustr :=
  let truncated := default [] (middle_out (sanitize raw_excerpt) slice_tokens) in
  (wrap_untrusted truncated nonce, truncated).

(** ** Texts in a role's input *)

Definition jtexts (l : list ustr) : json := JList (JStr <$> l).
Definition text_of (j : json) : ustr := match j with JStr s => s | _ => [] end.
Definition texts_of (j : json) : list ustr := match j with JList l => text_of <$> l | _ => [] end.
Definition jpair (p : ustr * ustr) : json := jtexts [p.1; p.2].
Definition pair_of (j : json) : ustr * ustr := match texts_of j with [a; b] => (a, b) | _ => ([], []) end.
Definition pairs_of (j : json) : list (ustr * ustr) := match j with JList l => pair_of <$> l | _ => [] end.
Definition has (k : string) (d : dict) : bool := bool_decide (is_Some (dget k d)).

(** ** The explainers *)

Definition pattern_of (s : ustr) : pattern :=
  match parse s with Some (r, n) => mk_pattern (mk_flags false false) n r | None => mk_pattern (mk_flags false false) 0 RFail end.
Definition _TAMPER_RE : pattern := Eval vm_compute in compile_i "ignore (previous|all)|as an ai".
Definition _QUOTED_RE : pattern := Eval vm_compute in compile (DQ +:+ "([^" +:+ DQ +:+ "]*)" +:+ DQ).
Definition _QUOTE_CLIP_RE : pattern := Eval vm_compute in pattern_of (u "(?:\s*(?:\.\.\.|" ++ [8230%N] ++ u "))+\s*$").

Definition _trim_clip_marker (line : ustr) : ustr := rstrip_ws (re_sub _QUOTE_CLIP_RE (const []) line).

Definition _displayable (quote : ustr) (pairs : list (ustr * ustr)) (unsanitized : ustr) : option ustr :=
  if bool_decide (quote = []) then None
  else if ucontains quote unsanitized then Some quote
  else (fun p => ustrip p.2) <$> head (List.filter (fun p => ucontains quote p.1) pairs).

(** [any(needle in hay for hay in corpus)]. *)
Definition in_texts (needle : ustr) (corpus : list ustr) : bool := existsb (ucontains needle) corpus.
Definition _in_corpus (needle : json) (corpus : list ustr) : result bool :=
  match needle, corpus with
  | JStr s, _ => Ok (in_texts s corpus)
  | _, [] => Ok false
  | _, _ => Raise TypeError
  end.

Definition shown_line (pairs : list (ustr * ustr)) (unsanitized : ustr) (facts : list ustr) (line : json) : option json :=
  match line with
  | JStr s =>
      if in_texts s facts then Some line
      else match _displayable s pairs unsanitized with Some (c :: t) => Some (JStr (c :: t)) | _ => None end
  | v => Some v
  end.
Definition _showable_lines (lines : json) (pairs : list (ustr * ustr)) (unsanitized : ustr)
    (allow_facts : list ustr) : json :=
  match lines with JList l => JList (omap (shown_line pairs unsanitized allow_facts) l) | v => v end.

(** [for x in value]. *)
Definition jiter (value : json) : result (list json) :=
  match value with
  | JList l => Ok l
  | JStr s => Ok ((fun c => JStr [c]) <$> s)
  | JObj d => Ok ((fun k => JStr (key_text k)) <$> d.*1)
  | _ => Raise TypeError
  end.

(** The first entry that is not grounded ends the loop. *)
Fixpoint all_in_corpus (l : list json) (corpus : list ustr) : result bool :=
  match l with
  | [] => Ok true
  | x :: l' => b ← _in_corpus x corpus; if b : bool then all_in_corpus l' corpus else Ok false
  end.
Definition field_grounded (k : string) (output : dict) (corpus : list ustr) : result bool :=
  l ← jiter (dgetd k (JList []) output); all_in_corpus l corpus.

Definition trim_field (k : string) (output : dict) : dict :=
  match dget k output with
  | Some (JList l) => dset k (JList ((fun j => match j with JStr s => JStr (_trim_clip_marker s) | v => v end) <$> l)) output
  | _ => output
  end.

Definition show_field (gate : bool) (k : string) (pairs : list (ustr * ustr)) (unsanitized : ustr)
    (facts : list ustr) (output : dict) : dict :=
  match dget k output with
  | Some v => if gate then dset k (_showable_lines v pairs unsanitized facts) output else output
  | None => output
  end.

Definition SCHEMA_VER : Z := 2.

(** [None]: rejected; otherwise the answer as the checks leave it. *)
Definition explainer_checks (output inp : dict) : result (option dict) :=
  let corpus := texts_of (jget "_corpus" inp) in
  let corpus_log := from_option texts_of corpus (dget "_corpus_log" inp) in
  let corpus_facts := from_option texts_of corpus (dget "_corpus_facts" inp) in
  let gate := has "_sanitize_pairs" inp in
  let unsanitized := text_of (jget "_unsanitized" inp) in
  let pairs := pairs_of (jget "_sanitize_pairs" inp) in
  explanation ← as_text (dgetd "explanation" (JStr []) output);
  if re_found _TAMPER_RE explanation then Ok None
  else
    let output := trim_field "quoted_log_lines" output in
    lines_ok ← field_grounded "quoted_log_lines" output corpus_log;
    if negb lines_ok then Ok None
    else
      values_ok ← field_grounded "quoted_fact_values" output corpus_facts;
      if negb values_ok then Ok None
      else
        let output := show_field gate "quoted_log_lines" pairs unsanitized [] output in
        let output := trim_field "quoted_lines" output in
        legacy_ok ← field_grounded "quoted_lines" output corpus;
        if negb legacy_ok then Ok None
        else
          let output := show_field gate "quoted_lines" pairs unsanitized corpus_facts output in
          let prose_ok := forallb (fun m => in_texts m corpus && (negb gate || in_texts m corpus_facts || ucontains m unsanitized))
                            (re_findall _QUOTED_RE explanation) in
          if negb prose_ok then Ok None
          else Ok (Some (if has "quoted_lines" output then output else dset "schema_ver" (JInt SCHEMA_VER) output)).

(** The corpora join the input; facts and envelope go into the prompt. *)
Definition _prepare_grounding (inp : dict) (nonce : ustr) : dict * ustr * dict :=
  let '(facts, fact_leaves) := prepare_fact_block (fields_of (jget "fact_block" inp)) in
  let unsanitized := text_of (jget "log_excerpt" inp) in
  let '(block, corpus_text) := build_untrusted_excerpt unsanitized nonce EXCERPT_SLICE_TOKENS in
  let inp := dset "_corpus" (jtexts (corpus_text :: fact_leaves)) inp in
  let inp := dset "_corpus_log" (jtexts [corpus_text]) inp in
  let inp := dset "_corpus_facts" (jtexts fact_leaves) inp in
  let inp := dset "_unsanitized" (JStr unsanitized) inp in
  let inp := dset "_sanitize_pairs" (JList (jpair <$> sanitized_line_pairs unsanitized)) inp in
  (facts, block, inp).
End Evidence.

Definition list_schema (items : schema) (n : Z) : schema :=
  mk_schema None (Some [TArray]) None (Some n) (Some items) [] [] true.
Definition text_schema : schema := mk_schema None (Some [TString]) None None None [] [] true.

Module Explainer.
Definition schema : schema := obj_schema
  [("explanation", str_schema 700); ("quoted_log_lines", list_schema text_schema 2);
   ("quoted_fact_values", list_schema text_schema 2)]
  ["explanation"; "quoted_log_lines"; "quoted_fact_values"].
End Explainer.

Module Extractor.
Definition FAILING_LAYERS : list string := ["test_code"; "app_code"; "infrastructure"; "environment"].
Definition ERROR_CLASSES : list string :=
  ["assertion"; "timeout"; "connection"; "http_4xx"; "http_5xx"; "null_reference"; "not_found"; "permission";
   "data_format"; "resource_exhausted"; "config"; "concurrency"; "other"].
Definition schema : schema := obj_schema
  [("root_exception", mk_schema None (Some [TString; TNull]) (Some 200) None None [] [] true);
   ("wrapper_chain", list_schema (str_schema 200) 8);
   ("failing_layer", enum_schema (jstr <$> FAILING_LAYERS));
   ("error_class", enum_schema (jstr <$> ERROR_CLASSES));
   ("components", list_schema (str_schema 80) 5)]
  ["root_exception"; "wrapper_chain"; "failing_layer"; "error_class"; "components"].
Definition _COMPONENT_RE : pattern := Eval vm_compute in compile "^[A-Za-z0-9_.\-/]{2,80}$".
End Extractor.

Section Roles.
Context `{!Unicode, !XXHash, !PyRepr}.

(** ** The extractor *)

Definition sorted_ids (template_ids : list Z) : list Z := pysorted Z.leb template_ids.
Definition extractor_template_hash (exception_fp : Z) (template_ids : list Z) : Z :=
  xxh3_64_signed (str_of_Z exception_fp +:+ "#" +:+ str_join "|" (str_of_Z <$> sorted_ids template_ids)).

Definition component_ok (c : json) : result bool :=
  s ← as_text c; Ok (bool_decide (is_Some (re_match Extractor._COMPONENT_RE s))).
Fixpoint components_kept (l : list json) : result (list json) :=
  match l with
  | [] => Ok []
  | c :: l' => b ← component_ok c; rest ← components_kept l'; Ok (if b : bool then c :: rest else rest)
  end.

(** [root is None], or it is in the corpus. *)
Definition root_in_corpus (root : json) (corpus : list ustr) : result bool :=
  match root with JNull => Ok true | _ => _in_corpus root corpus end.

Definition extractor_checks (output inp : dict) : result (option dict) :=
  let corpus := texts_of (jget "_corpus" inp) in
  root_ok ← root_in_corpus (jget "root_exception" output) corpus;
  if negb root_ok then Ok None
  else
    chain_ok ← field_grounded "wrapper_chain" output corpus;
    if negb chain_ok then Ok None
    else
      components ← jiter (dgetd "components" (JList []) output);
      kept ← components_kept components;
      Ok (Some (dset "components" (JList kept) output)).

(** ** The roles *)

(** The wording of a prompt: its name, the facts, the input, the envelope. *)
Context (wording : string -> dict -> dict -> ustr -> string * string).

(** The bytes that are hashed; stored text holds no surrogate. *)
Definition utf8_text (s : ustr) : string := String.string_of_list_ascii (ascii_of_N <$> (s ≫= utf8_char)).

(** The engine rejects a body that breaks a check; a schema-valid one never raises. *)
Definition amended (r : result (option dict)) : option json :=
  match r with Ok (Some d) => Some (JObj d) | _ => None end.

Definition explainer_prompt (name : string) (inp : dict) (nonce : string) : (string * string) * dict :=
  let '(facts, block, inp) := _prepare_grounding inp (u nonce) in (wording name facts inp block, inp).

Definition ExplainerRole : Role.t := {|
  Role.name := "explainer"; Role.ttl_days := 90; Role.num_predict := 512; Role.negative_ttl_days := None;
  Role.free_text_fields := ["explanation"];
  Role.schema_for := fun _ => Explainer.schema;
  Role.content_key := fun inp =>
    utf8_text (py_str (jget "mode_id" inp) ++ u "|" ++ py_str (jget "error_hash" inp) ++ u "|" ++ py_str (jget "match_signals" inp));
  Role.build_prompt := explainer_prompt "explainer";
  Role.post_validate := fun output inp => amended (explainer_checks (fields_of output) inp);
  Role.template_hash := fun _ => None |}.

Definition AbstainExplainerRole : Role.t := {|
  Role.name := "explainer"; Role.ttl_days := 90; Role.num_predict := 384; Role.negative_ttl_days := None;
  Role.free_text_fields := ["explanation"];
  Role.schema_for := fun _ => Explainer.schema;
  Role.content_key := fun inp =>
    utf8_text (u "abstain|" ++ py_str (jget "error_hash" inp) ++ u "|" ++ py_str (jget "reason_code" inp) ++ u "|"
               ++ py_str (dgetd "candidate_key" (JStr []) inp));
  Role.build_prompt := explainer_prompt "abstain_explainer";
  Role.post_validate := fun output inp => amended (explainer_checks (fields_of output) inp);
  Role.template_hash := fun _ => None |}.

Definition extractor_prompt (inp : dict) (nonce : string) : (string * string) * dict :=
  let '(facts, fact_leaves) := prepare_fact_block (fields_of (jget "fact_block" inp)) in
  let '(block, corpus_text) := build_untrusted_excerpt (text_of (jget "log_excerpt" inp)) (u nonce) EXCERPT_SLICE_TOKENS in
  let inp := dset "_corpus" (jtexts (corpus_text :: fact_leaves)) inp in
  (wording "extractor" facts inp block, inp).

Definition z_of (j : json) : Z := default 0 (as_int j).
Definition zs_of (j : json) : list Z := match j with JList l => z_of <$> l | _ => [] end.

Definition ExtractorRole : Role.t := {|
  Role.name := "extractor"; Role.ttl_days := 90; Role.num_predict := 300; Role.negative_ttl_days := Some 7;
  Role.free_text_fields := [];
  Role.schema_for := fun _ => Extractor.schema;
  Role.content_key := fun inp => utf8_text (default [] (middle_out (sanitize (text_of (jget "log_excerpt" inp))) 2200));
  Role.build_prompt := extractor_prompt;
  Role.post_validate := fun output inp => amended (extractor_checks (fields_of output) inp);
  Role.template_hash := fun inp => Some (extractor_template_hash (z_of (jget "exception_fp" inp)) (zs_of (jget "template_ids" inp))) |}.

(** The rubric's and the judge's prompts leave their input as it is. *)
Definition plain_prompt (name excerpt_key : string) (slice_tokens : Z) (inp : dict) (nonce : string) : (string * string) * dict :=
  let facts := (prepare_fact_block (fields_of (jget "fact_block" inp))).1 in
  let block := (build_untrusted_excerpt (text_of (jget excerpt_key inp)) (u nonce) slice_tokens).1 in
  (wording name facts inp block, inp).

Definition ColdStartRole (sha256_hex : string -> string) : Role.t := {|
  Role.name := "coldstart"; Role.ttl_days := 90; Role.num_predict := 384; Role.negative_ttl_days := None;
  Role.free_text_fields := ["reason"];
  Role.schema_for := fun _ => ColdStart.schema;
  Role.content_key := fun inp =>
    utf8_text (py_str (jget "error_hash" inp) ++ u "|") +:+
    sha256_hex (utf8_text (default [] (middle_out (sanitize (text_of (jget "log_excerpt" inp))) 2200)));
  Role.build_prompt := plain_prompt "coldstart" "log_excerpt" EXCERPT_SLICE_TOKENS;
  Role.post_validate := fun output _ => if ColdStart.post_validate output then Some output else None;
  Role.template_hash := fun _ => None |}.

Definition candidates_of (inp : dict) : list dict := match jget "candidates" inp with JList l => fields_of <$> l | _ => [] end.
Definition candidate_part (c : dict) : ustr := py_str (jget "id" c) ++ u ":" ++ py_str (jget "label" c).

Definition JudgeRole : Role.t := {|
  Role.name := "judge"; Role.ttl_days := 14; Role.num_predict := 320; Role.negative_ttl_days := None;
  Role.free_text_fields := ["reason"];
  Role.schema_for := fun inp => Judge.schema_for_k (length (candidates_of inp));
  Role.content_key := fun inp =>
    utf8_text (ujoin (u "|") (py_str (jget "query_error_hash" inp) :: (candidate_part <$> candidates_of inp)));
  Role.build_prompt := plain_prompt "judge" "query_excerpt" JUDGE_EXCERPT_SLICE_TOKENS;
  Role.post_validate := fun output inp =>
    if Judge.post_validate (length (candidates_of inp)) output then Some output else None;
  Role.template_hash := fun _ => None |}.
End Roles.

(** ** Lemmas *)

Lemma texts_of_jtexts l : texts_of (jtexts l) = l.
Proof. unfold texts_of, jtexts. induction l; csimpl; by f_equal. Qed.

Lemma pairs_of_jpairs l : pairs_of (JList (jpair <$> l)) = l.
Proof. unfold pairs_of. induction l as [|[a b] l IH]; csimpl; by f_equal. Qed.

Lemma head_elem {A} (l : list A) x : head l = Some x -> x ∈ l.
Proof. destruct l; [done|]. intros [= ->]. by left. Qed.

Lemma factor_trans a b c : factor a b -> factor b c -> factor a c.
Proof. intros (x & y & ->) (x' & y' & ->). exists (x' ++ x), (y ++ y'). by rewrite <- !app_assoc. Qed.

Lemma factor_join sep x l : x ∈ l -> factor x (ujoin sep l).
Proof.
  intros Hx. induction l as [|y l IH]; [by apply elem_of_nil in Hx|].
  destruct l as [|z l].
  - apply list_elem_of_singleton in Hx as ->. apply factor_refl.
  - rewrite ujoin_cons. apply elem_of_cons in Hx as [->|Hx]; [by exists [], (sep ++ ujoin sep (z :: l))|].
    eapply factor_trans; [by apply IH|]. exists (y ++ sep), []. by rewrite app_nil_r, <- app_assoc.
Qed.

Lemma factor_line x s : x ∈ lines s -> factor x s.
Proof. intros Hx. apply (factor_join [LF_]) in Hx. unfold lines in Hx. by rewrite ujoin_usplit in Hx. Qed.

Lemma ulstrip_suffix p s : exists t, s = t ++ ulstrip p s.
Proof.
  induction s as [|c s [t IH]]; [by exists []|]. simpl. destruct (p c); [|by exists []].
  exists (c :: t). simpl. by f_equal.
Qed.

Lemma factor_strip s : factor (ustrip s) s.
Proof.
  unfold ustrip, ustrip_by. destruct (ulstrip_suffix uspace s) as [t E].
  destruct (urstrip_prefix uspace (ulstrip uspace s)) as (t' & E' & _). exists t, t'. by rewrite <- E', <- E.
Qed.

Lemma in_texts_spec s l : in_texts s l = true <-> exists hay, hay ∈ l /\ factor s hay.
Proof.
  unfold in_texts. rewrite existsb_iff. split; intros (h & Hin & Hf); exists h; split; try done; by apply ucontains_spec.
Qed.

Lemma all_in_corpus_texts l corpus : all_in_corpus (JStr <$> l) corpus = Ok (forallb (fun s => in_texts s corpus) l).
Proof.
  induction l as [|s l IH]; [done|]. cbn [fmap list_fmap all_in_corpus _in_corpus forallb].
  destruct (in_texts s corpus); [exact IH|done].
Qed.

Lemma field_grounded_texts k output corpus l : dget k output = Some (jtexts l) ->
  field_grounded k output corpus = Ok (forallb (fun s => in_texts s corpus) l).
Proof. intros Hk. unfold field_grounded, dgetd. rewrite Hk. apply all_in_corpus_texts. Qed.

Lemma field_grounded_absent k output corpus : dget k output = None -> field_grounded k output corpus = Ok true.
Proof. intros Hk. unfold field_grounded, dgetd. by rewrite Hk. Qed.

(** A list a schema accepts. *)
Lemma list_valid v s n : is_valid v (list_schema s n) = true ->
  exists l, v = JList l /\ Z.of_nat (length l) <= n /\ Forall (fun x => is_valid x s = true) l.
Proof.
  rewrite is_valid_iff. intros [(k & Hk & Ht) Hv]. apply list_elem_of_singleton in Hk as ->.
  destruct v as [| | | | |l|]; try done. destruct Hv as [Hn Hl]. exists l. split_and!; [done|by apply Hn|].
  apply Forall_forall. intros x Hx. apply is_valid_iff. by apply Hl.
Qed.

Lemma text_valid v : is_valid v text_schema = true -> exists t, v = JStr t.
Proof.
  rewrite is_valid_iff. intros [(k & Hk & Ht) _]. apply list_elem_of_singleton in Hk as ->.
  destruct v as [| | | |t| |]; try done. by exists t.
Qed.

Lemma texts_valid (P : json -> Prop) l : (forall v, P v -> exists t, v = JStr t) -> Forall P l -> exists ts, JList l = jtexts ts.
Proof.
  intros HP Hl. unfold jtexts. induction Hl as [|x l Hx _ [ts IH]]; [by exists []|].
  destruct (HP x Hx) as [t ->]. injection IH as ->. by exists (t :: ts).
Qed.

Section Laws.
Context `{!Unicode}.

(** What is displayed for a quote can be read in the log. *)
Lemma displayed_found q log t : _displayable q (sanitized_line_pairs log) log = Some t -> factor t log.
Proof.
  unfold _displayable. destruct (bool_decide _); [done|]. destruct (ucontains q log) eqn:E.
  { intros [= <-]. by apply ucontains_spec. }
  intros ([s line] & Hp & ->)%fmap_Some. apply head_elem in Hp. apply filterb_elem in Hp as [Hp _].
  unfold sanitized_line_pairs in Hp. apply list_elem_of_fmap in Hp as (line' & [= -> ->] & Hl).
  apply filterb_elem in Hl as [Hl _]. eapply factor_trans; [apply factor_strip|]. by apply factor_line.
Qed.

(** The evidence a prepared input holds: the log, what of it the model was shown,
    the texts of the facts. *)
Record evidence (inp : dict) (log seen : ustr) (leaves : list ustr) : Prop := {
  ev_corpus : dget "_corpus" inp = Some (jtexts (seen :: leaves));
  ev_log : dget "_corpus_log" inp = Some (jtexts [seen]);
  ev_facts : dget "_corpus_facts" inp = Some (jtexts leaves);
  ev_raw : dget "_unsanitized" inp = Some (JStr log);
  ev_pairs : dget "_sanitize_pairs" inp = Some (JList (jpair <$> sanitized_line_pairs log))
}.

Definition log_of (inp : dict) : ustr := text_of (jget "log_excerpt" inp).
Definition leaves_of (inp : dict) : list ustr := (prepare_fact_block (fields_of (jget "fact_block" inp))).2.
Definition seen_of (inp : dict) : ustr := default [] (middle_out (sanitize (log_of inp)) EXCERPT_SLICE_TOKENS).

Lemma prepare_evidence inp nonce : evidence (_prepare_grounding inp nonce).2 (log_of inp) (seen_of inp) (leaves_of inp).
Proof.
  unfold _prepare_grounding, leaves_of, seen_of. destruct (prepare_fact_block _) as [facts leaves]. cbn.
  split; repeat (rewrite dget_dset_eq || rewrite dget_dset_ne by done); done.
Qed.

Lemma jget_other k k' v d : k <> k' -> jget k (dset k' v d) = jget k d.
Proof. intros Hk. unfold jget, dgetd. by rewrite dget_dset_ne. Qed.

Lemma prepare_keeps inp nonce k : k = "log_excerpt" \/ k = "fact_block" ->
  jget k (_prepare_grounding inp nonce).2 = jget k inp.
Proof.
  intros Hk. unfold _prepare_grounding, build_untrusted_excerpt. destruct (prepare_fact_block _) as [facts leaves]. cbn [snd].
  destruct Hk as [-> | ->]; by rewrite !jget_other.
Qed.

(** A schema-valid answer of an explainer. *)
Lemma explainer_shape d : is_valid (JObj d) Explainer.schema = true ->
  exists text quotes values, dget "explanation" d = Some (JStr text) /\ dget "quoted_log_lines" d = Some (jtexts quotes) /\
    dget "quoted_fact_values" d = Some (jtexts values) /\ dget "quoted_lines" d = None.
Proof.
  intros Hv.
  destruct (obj_field _ _ _ "explanation" _ Hv eq_refl eq_refl) as (? & He & (text & -> & _)%str_valid).
  destruct (obj_field _ _ _ "quoted_log_lines" _ Hv eq_refl eq_refl) as (? & Hq & (ql & -> & _ & Hql)%list_valid).
  destruct (obj_field _ _ _ "quoted_fact_values" _ Hv eq_refl eq_refl) as (? & Hf & (fl & -> & _ & Hfl)%list_valid).
  apply texts_valid in Hql as [quotes Eq]; [|apply text_valid]. apply texts_valid in Hfl as [values Ef]; [|apply text_valid].
  rewrite Eq in Hq. rewrite Ef in Hf. exists text, quotes, values. split_and!; try done.
  apply obj_valid in Hv as (d' & [= <-] & _ & Hk & _).
  destruct (dget "quoted_lines" d) as [x|] eqn:E; [|done]. exfalso.
  assert ("quoted_lines" ∈ d.*1) as Hin by (apply dget_is_Some; eauto).
  apply Hk in Hin. by apply (bool_decide_eq_true_1 (¬ _)) in Hin.
Qed.

(** The quotes of an answer, as they are stored. *)
Definition shown_quotes (log : ustr) (quotes : list ustr) : list json :=
  omap (shown_line (sanitized_line_pairs log) log []) (JStr <$> (_trim_clip_marker <$> quotes)).

(** Everything an accepted answer refers to. *)
Definition accepted (log seen : ustr) (leaves : list ustr) (text : ustr) (quotes values : list ustr) : bool :=
  negb (re_found _TAMPER_RE text)
  && forallb (fun s => in_texts s [seen]) (_trim_clip_marker <$> quotes)
  && forallb (fun s => in_texts s leaves) values
  && forallb (fun m => in_texts m (seen :: leaves) && (in_texts m leaves || ucontains m log)) (re_findall _QUOTED_RE text).

Lemma trim_texts k d l : dget k d = Some (jtexts l) -> trim_field k d = dset k (jtexts (_trim_clip_marker <$> l)) d.
Proof.
  intros Hk. unfold trim_field. rewrite Hk. unfold jtexts. do 2 f_equal. rewrite <- !list_fmap_compose.
  by apply list_fmap_ext.
Qed.

Lemma trim_absent k d : dget k d = None -> trim_field k d = d.
Proof. intros Hk. unfold trim_field. by rewrite Hk. Qed.

Lemma show_some k pairs log facts v d : dget k d = Some v ->
  show_field true k pairs log facts d = dset k (_showable_lines v pairs log facts) d.
Proof. intros Hk. unfold show_field. by rewrite Hk. Qed.

Lemma show_none gate k pairs log facts d : dget k d = None -> show_field gate k pairs log facts d = d.
Proof. intros Hk. unfold show_field. by rewrite Hk. Qed.

(** The checks on a schema-valid answer, in one step: they never raise. *)
Lemma explainer_checks_eq inp log seen leaves d text quotes values : evidence inp log seen leaves ->
  dget "explanation" d = Some (JStr text) -> dget "quoted_log_lines" d = Some (jtexts quotes) ->
  dget "quoted_fact_values" d = Some (jtexts values) -> dget "quoted_lines" d = None ->
  explainer_checks d inp = Ok (if accepted log seen leaves text quotes values then
    Some (dset "schema_ver" (JInt SCHEMA_VER) (dset "quoted_log_lines" (JList (shown_quotes log quotes))
            (dset "quoted_log_lines" (jtexts (_trim_clip_marker <$> quotes)) d))) else None).
Proof.
  intros [Hc Hl Hf Hr Hp] He Hq Hv Hn. 
  assert (dgetd "explanation" (JStr []) d = JStr text) as He' by (unfold dgetd; by rewrite He).
  assert (has "_sanitize_pairs" inp = true) as Hgate by (unfold has; rewrite Hp; by apply bool_decide_eq_true_2).
  unfold explainer_checks, accepted. rewrite Hgate.
  rewrite (proj1 (jget_Some _ _ _ Hc)), (proj1 (jget_Some _ _ _ Hr)), (proj1 (jget_Some _ _ _ Hp)), Hl, Hf, He'.
  cbn [from_option as_text mbind result_bind text_of].
  rewrite !texts_of_jtexts, pairs_of_jpairs. destruct (re_found _ text); [done|].
  rewrite (trim_texts _ _ _ Hq). set (d1 := dset _ _ d).
  assert (dget "quoted_log_lines" d1 = Some (jtexts (_trim_clip_marker <$> quotes))) as Hq1 by apply dget_dset_eq.
  assert (dget "quoted_fact_values" d1 = Some (jtexts values)) as Hv1 by (unfold d1; by rewrite dget_dset_ne).
  assert (dget "quoted_lines" d1 = None) as Hn1 by (unfold d1; by rewrite dget_dset_ne).
  clearbody d1. rewrite (field_grounded_texts _ _ _ _ Hq1), (field_grounded_texts _ _ _ _ Hv1). cbn [mbind result_bind negb andb].
  destruct (forallb _ (_trim_clip_marker <$> quotes)); [|done]. cbn [mbind result_bind negb andb].
  destruct (forallb _ values); [|done]. cbn [mbind result_bind negb andb].
  rewrite (show_some _ _ _ _ _ _ Hq1).
  set (d2 := dset "quoted_log_lines" (_showable_lines _ _ _ _) d1).
  assert (dget "quoted_lines" d2 = None) as Hn2 by (unfold d2; by rewrite dget_dset_ne).
  rewrite trim_absent, field_grounded_absent by done. cbn [mbind result_bind negb].
  rewrite show_none by done. unfold has. rewrite Hn2. cbn [negb orb].
  destruct (forallb _ (re_findall _ text)); [|done]. done.
Qed.

(** ** What an accepted answer refers to *)

(** A text found in one of the facts the model was given. *)
Definition in_a_fact (leaves : list ustr) (q : ustr) : Prop := exists leaf, leaf ∈ leaves /\ factor q leaf.

(** An explanation whose every reference can be looked up. *)
Definition found_in (log : ustr) (leaves : list ustr) (d : dict) : Prop :=
  (exists quotes, dget "quoted_log_lines" d = Some (jtexts quotes) /\ Forall (fun q => q <> [] /\ factor q log) quotes) /\
  (exists values, dget "quoted_fact_values" d = Some (jtexts values) /\ Forall (in_a_fact leaves) values) /\
  (exists text, dget "explanation" d = Some (JStr text) /\ re_found _TAMPER_RE text = false /\
     Forall (fun q => factor q log \/ in_a_fact leaves q) (re_findall _QUOTED_RE text)).

Lemma forallb_elem {A} (P : A -> bool) l : forallb P l = true -> Forall (fun x => P x = true) l.
Proof. intros Hl. apply Forall_forall. intros x Hx. apply (proj1 (forallb_forall P l) Hl). by apply list_elem_of_In. Qed.

Lemma shown_quotes_found log quotes : exists shown, JList (shown_quotes log quotes) = jtexts shown /\
  Forall (fun q => q <> [] /\ factor q log) shown.
Proof.
  unfold shown_quotes, jtexts. induction (_trim_clip_marker <$> quotes) as [|q l [shown [E Hs]]]; [by exists []|].
  injection E as E. csimpl. cbn [shown_line in_texts existsb]. rewrite E.
  destruct (_displayable q _ log) as [[|c t]|] eqn:Ed; [by exists shown| |by exists shown].
  exists ((c :: t) :: shown). split; [done|]. constructor; [|done]. split; [done|]. by eapply displayed_found.
Qed.

Lemma explainer_sound d inp nonce v : is_valid (JObj d) Explainer.schema = true ->
  amended (explainer_checks d (_prepare_grounding inp nonce).2) = Some v ->
  exists d', v = JObj d' /\ found_in (log_of inp) (leaves_of inp) d'.
Proof.
  intros (text & quotes & values & He & Hq & Hf & Hn)%explainer_shape.
  rewrite (explainer_checks_eq _ _ _ _ _ _ _ _ (prepare_evidence inp nonce) He Hq Hf Hn).
  destruct (accepted _ _ _ _ _ _) eqn:Ea; [|done]. intros [= <-]. eexists. split; [done|].
  unfold accepted in Ea. rewrite !andb_true_iff, negb_true_iff in Ea. destruct Ea as [[[Ht _] Hv] Hp].
  destruct (shown_quotes_found (log_of inp) quotes) as (shown & -> & Hs). split_and!.
  - exists shown. split; [|done]. rewrite dget_dset_ne by done. apply dget_dset_eq.
  - exists values. split; [by rewrite !dget_dset_ne by done|].
    eapply Forall_impl; [by apply forallb_elem|]. intros x Hx. by apply in_texts_spec.
  - exists text. split; [by rewrite !dget_dset_ne by done|]. split; [done|].
    eapply Forall_impl; [by apply forallb_elem|]. intros x Hx. apply andb_true_iff in Hx as [_ Hx].
    apply orb_true_iff in Hx as [Hx|Hx]; [right; by apply in_texts_spec|left; by apply ucontains_spec].
Qed.

Context `{!XXHash, !PyRepr} (wording : string -> dict -> dict -> ustr -> string * string).

Lemma explainer_prompt_input name inp nonce :
  (explainer_prompt wording name inp nonce).2 = (_prepare_grounding inp (u nonce)).2.
Proof. unfold explainer_prompt. by destruct (_prepare_grounding inp (u nonce)) as [[facts block] inp']. Qed.

(** The roles that explain. *)
Definition explains (r : role) : Prop := r = ExplainerRole wording \/ r = AbstainExplainerRole wording.

Lemma explains_prompt r inp nonce : explains r -> (Role.build_prompt r inp nonce).2 = (_prepare_grounding inp (u nonce)).2.
Proof. intros [-> | ->]; apply explainer_prompt_input. Qed.

Lemma explains_prepared r inp inp' : explains r -> prepared r inp inp' ->
  log_of inp' = log_of inp /\ leaves_of inp' = leaves_of inp.
Proof.
  intros Hr Hp. induction Hp as [|inp' nonce _ [IH1 IH2]]; [done|]. rewrite explains_prompt by done.
  unfold log_of, leaves_of in *. rewrite !prepare_keeps by auto. done.
Qed.

Lemma explains_checked r inp v : explains r -> checked r (Role.schema_for r inp) inp v ->
  exists d, v = JObj d /\ found_in (log_of inp) (leaves_of inp) d.
Proof.
  intros Hr (parsed & inp' & nonce & Hp & Hv & Hpv). destruct (explains_prepared _ _ _ Hr Hp) as [<- <-].
  rewrite explains_prompt in Hpv by done.
  assert (is_valid parsed Explainer.schema = true) as Hv' by (by destruct Hr as [-> | ->]).
  assert (amended (explainer_checks (fields_of parsed) (_prepare_grounding inp' (u nonce)).2) = Some v) as Hpv'
    by (by destruct Hr as [-> | ->]).
  assert (exists d, parsed = JObj d) as [d ->] by (apply obj_valid in Hv' as (d & -> & _); eauto).
  by apply explainer_sound in Hpv'.
Qed.

(** Marking a cut keeps every field but the narrative. *)
Lemma marked_keeps d fields k : k <> "truncated" -> k ∉ fields ->
  dget k (fields_of (_mark_truncated (JObj d) fields)) = dget k d.
Proof. intros Hk Hf. unfold _mark_truncated. cbn [fields_of]. rewrite dget_dset_ne by done. by apply mark_fields_unmarked. Qed.

Lemma truncated_free r v fin k : k ∉ Role.free_text_fields r -> k ∉ _truncated_fields r v fin.
Proof. intros Hk Hin. apply Hk. unfold _truncated_fields in Hin. by apply filterb_elem in Hin as [Hin _]. Qed.

(** ** The extractor's answers *)

Definition component_shape (c : ustr) : Prop := is_Some (re_match Extractor._COMPONENT_RE c).

(** An extraction whose names occur in the evidence. *)
Definition extracted_from (seen : ustr) (leaves : list ustr) (d : dict) : Prop :=
  (dget "root_exception" d = Some JNull \/
   exists root, dget "root_exception" d = Some (JStr root) /\ in_a_fact (seen :: leaves) root) /\
  (exists chain, dget "wrapper_chain" d = Some (jtexts chain) /\ Forall (in_a_fact (seen :: leaves)) chain) /\
  (exists parts, dget "components" d = Some (jtexts parts) /\ Forall component_shape parts) /\
  (exists layer, dget "failing_layer" d = Some (jstr layer) /\ layer ∈ Extractor.FAILING_LAYERS) /\
  (exists cls, dget "error_class" d = Some (jstr cls) /\ cls ∈ Extractor.ERROR_CLASSES).

Lemma null_text_valid v n :
  is_valid v (mk_schema None (Some [TString; TNull]) (Some n) None None [] [] true) = true -> v = JNull \/ exists t, v = JStr t.
Proof.
  rewrite is_valid_iff. intros [(k & Hk & Ht) _].
  apply elem_of_cons in Hk as [->|Hk]; [|apply list_elem_of_singleton in Hk as ->]; destruct v; try done; eauto.
Qed.

Lemma components_kept_texts l : exists parts, components_kept (JStr <$> l) = Ok (JStr <$> parts) /\ Forall component_shape parts.
Proof.
  induction l as [|c l (parts & IH & Hp)]; [by exists []|]. rewrite fmap_cons. cbn [components_kept component_ok as_text mbind result_bind].
  rewrite IH. cbn [mbind result_bind].
  destruct (bool_decide _) eqn:E; [|by exists parts]. exists (c :: parts). split; [done|].
  constructor; [by apply bool_decide_eq_true_1 in E|done].
Qed.

Lemma in_corpus_fact q corpus : in_texts q corpus = true -> in_a_fact corpus q.
Proof. intros Hq. by apply in_texts_spec. Qed.

Lemma root_grounded root corpus : root = JNull \/ (exists t, root = JStr t) ->
  root_in_corpus root corpus = Ok (match root with JStr s => in_texts s corpus | _ => true end).
Proof. by intros [-> | [t ->]]. Qed.

(** No extraction reads as the mark of a failure: the schema is closed. *)
Lemma extraction_unmarked d : is_valid (JObj d) Extractor.schema = true -> dget _NEGATIVE_MARKER d = None.
Proof.
  intros (d' & [= <-] & _ & Hclosed & _)%obj_valid. apply eq_None_not_Some. intros Hin%dget_is_Some%Hclosed.
  apply (bool_decide_eq_true_2 _) in Hin. by vm_compute in Hin.
Qed.

Lemma extractor_sound d inp seen leaves v : is_valid (JObj d) Extractor.schema = true ->
  dget "_corpus" inp = Some (jtexts (seen :: leaves)) ->
  amended (extractor_checks d inp) = Some v ->
  exists d', v = JObj d' /\ extracted_from seen leaves d' /\ dget _NEGATIVE_MARKER d' = None.
Proof.
  intros Hv Hc. pose proof (extraction_unmarked _ Hv) as Hneg.
  destruct (obj_field _ _ _ "root_exception" _ Hv eq_refl eq_refl) as (root & Hr & Hroot%null_text_valid).
  destruct (obj_field _ _ _ "wrapper_chain" _ Hv eq_refl eq_refl) as (? & Hw & (wl & -> & _ & Hwl)%list_valid).
  destruct (obj_field _ _ _ "components" _ Hv eq_refl eq_refl) as (? & Hk & (kl & -> & _ & Hkl)%list_valid).
  destruct (obj_field _ _ _ "failing_layer" _ Hv eq_refl eq_refl) as (? & Hfl & (layer & Hl & ->)%enum_valid).
  destruct (obj_field _ _ _ "error_class" _ Hv eq_refl eq_refl) as (? & Hec & (cls & He & ->)%enum_valid).
  change (fields_of (JObj d)) with d in *.
  assert (forall n x, is_valid x (str_schema n) = true -> exists t, x = JStr t) as Htext by (intros n x (t & -> & _)%str_valid; eauto).
  apply texts_valid in Hwl as [chain Ew]; [|apply Htext]. apply texts_valid in Hkl as [comps Ek]; [|apply Htext].
  rewrite Ew in Hw. rewrite Ek in Hk. destruct (components_kept_texts comps) as (parts & Hparts & Hshape).
  unfold extractor_checks. rewrite (proj1 (jget_Some _ _ _ Hc)), (proj1 (jget_Some _ _ _ Hr)), texts_of_jtexts.
  set (answer := dset "components" (JList (JStr <$> parts)) d).
  assert (dget "root_exception" answer = Some root) as Hr' by (unfold answer; by rewrite dget_dset_ne).
  rewrite (root_grounded _ _ Hroot). cbn [mbind result_bind].
  destruct (match root with JStr s => in_texts s _ | _ => true end) eqn:Eroot; [|done]. cbn [negb].
  rewrite (field_grounded_texts _ _ _ _ Hw). cbn [mbind result_bind].
  destruct (forallb _ chain) eqn:Ech; [|done]. cbn [negb]. unfold dgetd. rewrite Hk.
  change (jiter (default (JList []) (Some (jtexts comps)))) with (@Ok (list json) (JStr <$> comps)).
  cbn [mbind result_bind]. rewrite Hparts. cbn [mbind result_bind]. intros [= <-]. exists answer. split; [done|].
  split; [|unfold answer; by rewrite dget_dset_ne]. split_and!.
  - destruct Hroot as [-> | [t ->]]; [by left|right]. exists t. split; [done|]. by apply in_corpus_fact.
  - exists chain. split; [unfold answer; by rewrite dget_dset_ne|]. eapply Forall_impl; [by apply forallb_elem|]. intros q Hq. by apply in_corpus_fact.
  - exists parts. split; [apply dget_dset_eq|done].
  - exists layer. split; [unfold answer; by rewrite dget_dset_ne|done].
  - exists cls. split; [unfold answer; by rewrite dget_dset_ne|done].
Qed.

Lemma extractor_prompt_input inp nonce : (extractor_prompt wording inp nonce).2 =
  dset "_corpus" (jtexts (seen_of inp :: leaves_of inp)) inp.
Proof. unfold extractor_prompt, build_untrusted_excerpt, seen_of, leaves_of, log_of. by destruct (prepare_fact_block _). Qed.

Lemma extractor_prepared inp inp' : prepared (ExtractorRole wording) inp inp' ->
  seen_of inp' = seen_of inp /\ leaves_of inp' = leaves_of inp.
Proof.
  intros Hp. induction Hp as [|inp' nonce _ [IH1 IH2]]; [done|]. cbn [Role.build_prompt ExtractorRole].
  rewrite extractor_prompt_input. unfold seen_of, leaves_of, log_of in *. by rewrite !jget_other.
Qed.

Lemma extractor_checked inp v : checked (ExtractorRole wording) Extractor.schema inp v ->
  exists d, v = JObj d /\ extracted_from (seen_of inp) (leaves_of inp) d /\ dget _NEGATIVE_MARKER d = None.
Proof.
  intros (parsed & inp' & nonce & Hp & Hv & Hpv). destruct (extractor_prepared _ _ Hp) as [<- <-].
  cbn [Role.build_prompt Role.post_validate ExtractorRole] in Hpv. rewrite extractor_prompt_input in Hpv.
  assert (exists d, parsed = JObj d) as [d ->] by (apply obj_valid in Hv as (d & -> & _); eauto).
  eapply extractor_sound; [exact Hv| |exact Hpv]. apply dget_dset_eq.
Qed.

(** A prompt leaves the hash of the template set as it was. *)
Lemma extractor_template_kept inp inp' : prepared (ExtractorRole wording) inp inp' ->
  Role.template_hash (ExtractorRole wording) inp' = Role.template_hash (ExtractorRole wording) inp.
Proof.
  intros Hp. induction Hp as [|inp' nonce _ <-]; [done|]. cbn [Role.template_hash Role.build_prompt ExtractorRole].
  rewrite extractor_prompt_input. by rewrite !jget_other.
Qed.

(** What a run of the extractor answers: checked against the evidence, unmarked (it
    has no narrative to cut), for the template set it was asked about. *)
Lemma extractor_answered e inp k v inp' : answered e (ExtractorRole wording) inp k v inp' ->
  Role.template_hash (ExtractorRole wording) inp' = Role.template_hash (ExtractorRole wording) inp /\
  exists d, v = JObj d /\ extracted_from (seen_of inp) (leaves_of inp) d /\ dget _NEGATIVE_MARKER d = None.
Proof.
  intros Ha. split; [by apply extractor_template_kept, (answered_prepared e _ _ k v)|].
  destruct (answered_checked _ _ _ _ _ _ Ha) as (v0 & fin & -> & Hc). by apply extractor_checked.
Qed.

(** ** Properties *)

(** C30. An explanation can be looked up: when a run of an explainer answers without
    the cache, every log line the answer quotes is a non-empty part of the item's
    own log as it was before sanitizing, every fact value it quotes is part of a text
    of the fact block, and the narrative the model wrote holds no tampering phrase
    and no quoted passage that is in neither; the answer is the one so checked, or
    that one with its narrative clipped and flagged as truncated. *)
Theorem explainer_answers_grounded bp e r p i inp w (Hr : explains r) :
  let '(res, _) := run bp e r p i inp w in
  RoleResult.outcome res = OOk -> RoleResult.cache_hit res = false ->
  exists d d0, RoleResult.output res = Some (JObj d) /\ found_in (log_of inp) (leaves_of inp) d0 /\
    (d = d0 \/ dget "truncated" d = Some (JBool true)) /\
    forall k, k <> "explanation" -> k <> "truncated" -> dget k d = dget k d0.
Proof.
  destruct (run _ _ _ _ _ _ _) as [res w'] eqn:Erun. intros Ho Hhit.
  destruct (fresh_answer _ _ _ _ _ _ _ _ _ Erun Ho Hhit) as (v & Hv & v0 & fin & Hmark & Hc & _).
  destruct (explains_checked _ _ _ Hr Hc) as (d0 & -> & Hf).
  destruct Hmark as [-> | ->]; [exists d0, d0; split_and!; auto|].
  eexists _, d0. split_and!; [exact Hv|done|right; apply dget_dset_eq|].
  intros k Hk Ht. apply marked_keeps; [done|]. apply truncated_free. destruct Hr as [-> | ->]; set_solver.
Qed.

(** An extraction names only what is in the evidence: when a run of the extractor
    answers without the cache, the root exception (if any) and every wrapper occur in
    the excerpt the model was shown or in the fact block, every component is a bare
    identifier, and the layer and the class that feed the model's columns are
    members of their enumerations. *)
Theorem extractor_answers_grounded bp e p i inp w :
  let '(res, _) := run bp e (ExtractorRole wording) p i inp w in
  RoleResult.outcome res = OOk -> RoleResult.cache_hit res = false ->
  exists d, RoleResult.output res = Some (JObj d) /\ extracted_from (seen_of inp) (leaves_of inp) d.
Proof.
  destruct (run _ _ _ _ _ _ _) as [res w'] eqn:Erun. intros Ho Hhit.
  destruct (fresh_answer _ _ _ _ _ _ _ _ _ Erun Ho Hhit) as (v & Hv & v0 & fin & Hmark & Hc & _).
  destruct (extractor_checked _ _ Hc) as (d0 & -> & Hf & _).
  destruct Hmark as [-> | ->]; [by exists d0|].
  eexists. split; [exact Hv|]. unfold extracted_from in *. cbn [_mark_truncated _truncated_fields Role.free_text_fields ExtractorRole List.filter fold_left fields_of].
  by rewrite !dget_dset_ne.
Qed.
End Laws.

(** ** An explained failure *)

Module Example.
#[local] Instance no_tables : Unicode := ascii_unicode.
#[local] Instance a_hash : XXHash := toy_hash.
#[local] Instance a_repr : PyRepr := {| float_repr := fun _ => u "0.5"; container_repr := fun _ => [] |}.
Definition plain_words (name : string) (facts inp : dict) (block : ustr) : string * string := (name, "").

(** A log with a line that sanitizing rewrites. *)
Definition log_text : ustr := u "system: boot" ++ [LF_] ++ u "java.io.IOException: Connection refused".
Definition failure (log : ustr) : dict :=
  [("mode_id", JInt 5); ("error_hash", JInt 9); ("match_signals", jstr "hash");
   ("fact_block", JObj [("exception", jstr "java.io.IOException")]); ("log_excerpt", JStr log)].

(** The model quotes the line as it saw it. *)
Definition as_seen : ustr := Eval vm_compute in u "system" ++ _ROLE_COLON ++ u " boot".
Definition explanation_text : ustr := Eval vm_compute in u ("It says " +:+ DQ +:+ "Connection refused" +:+ DQ +:+ ".").
Definition explained : dict :=
  [("explanation", JStr explanation_text); ("quoted_log_lines", jtexts [as_seen]);
   ("quoted_fact_values", jtexts [u "IOException"])].
Definition extracted : dict :=
  [("root_exception", jstr "java.io.IOException"); ("wrapper_chain", JList []); ("failing_layer", jstr "infrastructure");
   ("error_class", jstr "connection"); ("components", JList [jstr "db-1"; jstr "could not connect"])].
Definition says (d : dict) (_ : nat) : Chat.reply := Chat.Response (Chat.mk_response (Some (JObj d)) false 12 (Some "stop")).

Definition explained_as (log : ustr) (w : LlmEngine.world) : role_result * LlmEngine.world :=
  run default_params (wenv (says explained)) (ExplainerRole plain_words) 1 2 (failure log) w.

(** The stored quote is the line of the log. *)
Example shown_as_in_the_log :
  jget "quoted_log_lines" (fields_of (default JNull (RoleResult.output (explained_as log_text wworld).1))) = jtexts [u "system: boot"].
Proof. vm_compute. reflexivity. Qed.

Lemma explainer_answers_grounded_witness :
  exists d d0, RoleResult.output (run default_params (wenv (says explained)) (ExplainerRole plain_words) 1 2 (failure log_text) wworld).1 = Some (JObj d) /\
    found_in log_text [u "java.io.IOException"] d0 /\ (d = d0 \/ dget "truncated" d = Some (JBool true)).
Proof.
  pose proof (explainer_answers_grounded plain_words default_params (wenv (says explained)) (ExplainerRole plain_words) 1 2
                (failure log_text) wworld (or_introl eq_refl)) as Hg.
  destruct (run default_params (wenv (says explained)) (ExplainerRole plain_words) 1 2 (failure log_text) wworld) as [res w'] eqn:E.
  assert (RoleResult.outcome res = OOk /\ RoleResult.cache_hit res = false) as [Ho Hh].
  { apply (f_equal (fun x => (RoleResult.outcome x.1, RoleResult.cache_hit x.1))) in E. vm_compute in E.
    by injection E as -> ->. }
  destruct (Hg Ho Hh) as (d & d0 & Hd & Hf & Ht & _). exists d, d0. split_and!; [exact Hd|exact Hf|exact Ht].
Defined.

Lemma extractor_answers_grounded_witness :
  exists d, RoleResult.output (run default_params (wenv (says extracted)) (ExtractorRole plain_words) 1 2 (failure log_text) wworld).1 = Some (JObj d) /\
    extracted_from (seen_of (failure log_text)) (leaves_of (failure log_text)) d.
Proof.
  pose proof (extractor_answers_grounded plain_words default_params (wenv (says extracted)) 1 2 (failure log_text) wworld) as Hg.
  destruct (run default_params (wenv (says extracted)) (ExtractorRole plain_words) 1 2 (failure log_text) wworld) as [res w'] eqn:E.
  assert (RoleResult.outcome res = OOk /\ RoleResult.cache_hit res = false) as [Ho Hh].
  { apply (f_equal (fun x => (RoleResult.outcome x.1, RoleResult.cache_hit x.1))) in E. vm_compute in E.
    by injection E as -> ->. }
  exact (Hg Ho Hh).
Defined.

(** The key of a cached explanation does not name the log: another item with the
    same mode, hash and signals is answered with a quote its own log does not hold,
    and no check is made. *)
Lemma cached_quote_of_another_log :
  let w := (explained_as log_text wworld).2 in
  let res := (explained_as (u "Connection refused by host") w).1 in
  RoleResult.cache_hit res = true /\
  jget "quoted_log_lines" (fields_of (default JNull (RoleResult.output res))) = jtexts [u "system: boot"] /\
  ucontains (u "system: boot") (u "Connection refused by host") = false.
Proof. vm_compute. split_and!; reflexivity. Qed.
End Example.
