(* ===== verification/Worker.v ===== *)
(** * The sidecar's worker

    What happens to a job of the queue: [LlmSidecar._process] and [probe] of
    [llm/manager.py], the fact loader and the applier of [llm/wiring.py] over the reads
    of [db/repositories/suggestion_ops.py], and the engine of [llm/engine.py] with the
    tables for its cache and its event log.  A call of the store may fail at any
    point; the circuit keeps what it has learnt. *)

From S2P Require Import Prelude PyFloat PyStr PyInt PyFmt PyJson Regex PyText JsonText PyTime Hashing Drain Sanitizer Excerpt.
From S2P Require Import Features Decision Breaker LlmQueue LlmSchema LlmEngine LlmRoles Grounding Retrain Ingest Models Database.
From S2P Require Import Retrieval Knowledge LabelLog LlmStores TestStats StoreOps StoreInv Emit RouteHandlers LlmEval Nightly.
From Stdlib Require Import ZArith Lia.

#[local] Open Scope string_scope.
#[local] Open Scope list_scope.
#[local] Open Scope Z_scope.

(** ** Facts *)

(** [PgLlmFacts.load_signature]: the signature and the item's launch. *)
Definition load_signature (p i : Z) (d : db) : option (SigIn.t * Z) :=
  match Db.failure_signature d !! (p, i), Db.test_item d !! (p, i) with
  | Some s, Some r => Some (SigRow.data s, ItemRow.launch_id r)
  | _, _ => None
  end.

Definition _ABSTAIN_GATE : list (string * string) :=
  [("gbm_below_suggest", "model probability stayed below the suggest threshold");
   ("gbm_boilerplate_only_neighbor", "the nearest neighbour shared no structural evidence (boilerplate guard)");
   ("no_confident_rule", "no rule or model matched with enough confidence")].
Definition _abstain_gate_sentence (reason : json) : string :=
  default "no candidate cleared the decision gates" (uget (Grounding.text_of reason) _ABSTAIN_GATE).

Definition _fact_block (sig : SigIn.t) : dict :=
  [("exception", JStr (SigIn.exc_text sig)); ("top_frames", jtexts (take 8 (SigIn.top_frames sig)));
   ("status_codes", jtexts (take 8 (SigIn.status_codes sig)))].
Definition _log_excerpt (sig : SigIn.t) : ustr :=
  unlines (List.filter (fun s => negb (bool_decide (s = []))) [SigIn.msg_text sig; SigIn.frames_text sig]).

(** [value or fallback]. *)
Definition jor (value fallback : json) : json := if truthy value then value else fallback.
Definition jlist (value : json) : list json := match value with JList l => l | _ => [] end.

(** [dict.fromkeys]: the first occurrences. *)
Definition distinct (l : list ustr) : list ustr :=
  fold_left (fun acc x => if bool_decide (x ∈ acc) then acc else acc ++ [x]) l [].

(** Comparison of texts by code points. *)
Fixpoint text_leb (a b : ustr) : bool :=
  match a, b with
  | [], _ => true
  | _ :: _, [] => false
  | x :: a', y :: b' => if (x =? y)%N then text_leb a' b' else (x <? y)%N
  end.

Section Facts.
Context `{!PyRepr} (py_float : json -> result pyfloat).

(** [c["similarity"]] of a candidate with a label. *)
Definition cand_line (c : dict) : result ustr :=
  s ← jindex "similarity" c;
  Ok (u "cosine " ++ py_str s ++ u " label " ++ py_str (jget "label" c)).
Definition labelled_refs (payload : dict) : list dict :=
  List.filter (fun c => truthy (jget "label" c)) (fields_of <$> jlist (jor (jget "candidates" payload) (JList []))).

(** The labels of the pool, counted in the order they come. *)
Definition pool_counts (pool : list (option ustr * option ustr * option string)) : list (ustr * Z) :=
  fold_left (fun acc row => match row.1.1 with
                            | Some (c :: s) => dset (c :: s) (dgetd (c :: s) 0 acc + 1) acc
                            | _ => acc
                            end) pool [].
Definition pool_line (nl : ustr * Z) : ustr := u (str_of_Z nl.2) ++ u "x " ++ nl.1.

Definition _explainer_input (sig : SigIn.t) (fact_block : dict) (excerpt : ustr)
    (sug : option (Z * SugRow.t)) : option dict :=
  match sug with
  | None => None
  | Some (sid, s) =>
      if bool_decide (SugRow.predicted_label s = u "ti") then None
      else Some
        [("mode_title", JStr (SugRow.predicted_label s)); ("mode_label", JStr (SugRow.predicted_label s));
         ("mode_support", JInt 0); ("mode_purity", JFloat f0);
         ("match_signals", dgetd "match_signals" (jstr "matched") (SugRow.features s));
         ("fact_block", JObj fact_block); ("log_excerpt", JStr excerpt);
         ("mode_id", JInt (default 0 (SugRow.matched_mode_id s))); ("error_hash", JInt (SigIn.error_hash sig));
         ("suggestion_id", JInt sid)]
  end.

(** Given the exact-hash pool; an abstain without evidence is not explained. *)
Definition _abstain_explainer_input (sig : SigIn.t) (excerpt : ustr) (payload : dict)
    (pool : list (option ustr * option ustr * option string)) : result (option dict) :=
  let reason := jget "abstain_reason" payload in
  let refs := labelled_refs payload in
  confidence ← py_float (jor (jget "confidence" payload) (JFloat f0));
  cand_lines ← rmapM cand_line refs;
  let counts := pool_counts pool in
  let pool_lines := pool_line <$> counts in
  let labels := distinct (((fun c => Grounding.text_of (jget "label" c)) <$> refs) ++ counts.*1) in
  match cand_lines, pool_lines, labels with
  | [], [], _ | _, _, [] => Ok None
  | _, _, first :: others =>
      let conflict := match others with
                      | [] => u "only weak same-label evidence: " ++ first
                      | _ => u "evidence splits across labels: " ++ ujoin (u ", ") labels
                      end in
      let code := jor reason (jstr "no_confident_rule") in
      Ok (Some
        [("error_hash", JInt (SigIn.error_hash sig)); ("reason_code", code);
         ("candidate_key", JStr (ujoin (u "|") cand_lines ++ u "#" ++ ujoin (u "|") (pysorted text_leb pool_lines)));
         ("fact_block", JObj
            [("decision", jstr "abstain: analyzer declined to choose a defect type"); ("reason_code", code);
             ("blocking_gate", jstr (_abstain_gate_sentence reason)); ("confidence", jstr (fmt_fixed 3 confidence));
             ("suggest_threshold", jstr (fmt_fixed 2 TAU_SUGGEST)); ("top_candidates", jtexts cand_lines);
             ("exact_hash_pool", jtexts pool_lines); ("label_conflict", JStr conflict)]);
         ("log_excerpt", JStr excerpt); ("suggestion_id", jget "suggestion_id" payload)])
  end.

Definition _extractor_input (sig : SigIn.t) (fact_block : dict) (excerpt : ustr) : dict :=
  [("fact_block", JObj fact_block); ("log_excerpt", JStr excerpt); ("exception_fp", JInt (SigIn.exception_fp sig));
   ("template_ids", JList (JInt <$> SigIn.template_ids sig))].

Definition _coldstart_input (sig : SigIn.t) (launch : Z) (fact_block : dict) (excerpt : ustr) (payload : dict) : dict :=
  [("error_hash", JInt (SigIn.error_hash sig)); ("fact_block", JObj fact_block); ("log_excerpt", JStr excerpt);
   ("launch_id", jor (jget "launch_id" payload) (JInt launch));
   ("group_locator", dgetd "group_locator" (jstr "ti001") payload)].

(** A candidate with its own facts. *)
Definition judge_candidate (ref : dict) (sig : SigIn.t) : result dict :=
  id ← jindex "id" ref; label ← jindex "label" ref; similarity ← jindex "similarity" ref;
  Ok [("id", id); ("label", label); ("similarity", similarity); ("exc_chain", JStr (SigIn.exc_text sig));
      ("templates", JStr (ujoin (u ", ") ((fun t => u (str_of_Z t)) <$> take 5 (SigIn.template_ids sig))));
      ("frames", JStr (ujoin (u ", ") (take 5 (SigIn.top_frames sig))))].

Definition _judge_input (sig : SigIn.t) (fact_block : dict) (excerpt : ustr) (candidates : list dict) : option dict :=
  if (length candidates <? 2)%nat then None
  else Some [("query_error_hash", JInt (SigIn.error_hash sig)); ("fact_block", JObj fact_block);
             ("query_excerpt", JStr excerpt); ("candidates", JList (JObj <$> candidates))].
End Facts.

Section Worker.
Context `{!PgVector, !Unicode, !XXHash, !PyRepr, !Heapq}.
Context (tick : Z -> Z) (outage : nat -> option pyexn).
(** The circuit's parameters, the model server and the clock, the wording of the
    prompts, [float(value)], the cleaning of a rubric's reason. *)
Context (bp : CircuitBreaker.params) (e : env).
Context (wording : string -> dict -> dict -> ustr -> string * string) (py_float : json -> result pyfloat).
Context (strip_rule_ids : option ustr -> ustr).
Abbreviation M := (M service effect).
Abbreviation query := (query tick outage).
Abbreviation write := (write tick outage).

(** ** The fact loader *)

Definition COLD_LABEL_EVENTS : Z := 50.
(** [_make_is_cold]: a failing count is not cold. *)
Definition is_cold (p : Z) : M bool :=
  b ← is_bound;
  if b : bool then
    n ← attempt (query (count_events_since None (Some p)));
    mret (match n with Some n => n <? COLD_LABEL_EVENTS | None => false end)
  else mret true.

Fixpoint judge_candidates (p : Z) (refs : list dict) : M (list dict) :=
  match refs with
  | [] => mret []
  | ref :: refs' =>
      id ← of_result (jindex "id" ref ≫= py_int);
      sig ← query (load_signature p id);
      found ← (match sig with
               | None => mret []
               | Some (s, _) => c ← of_result (judge_candidate ref s); mret [c]
               end);
      rest ← judge_candidates p refs';
      mret (found ++ rest)
  end.

Definition load_facts (role : string) (p i : Z) (payload : dict) : M (option dict) :=
  sig ← query (load_signature p i);
  match sig with
  | None => mret None
  | Some (sig, launch) =>
      let fact_block := _fact_block sig in
      let excerpt := _log_excerpt sig in
      if bool_decide (role = "explainer") then
        sug ← query (latest_suggestion p i); mret (_explainer_input sig fact_block excerpt sug)
      else if bool_decide (role = "abstain_explainer") then
        if bool_decide (jget "suggestion_id" payload = JNull) then mret None
        else
          (* an unusable confidence raises before the pool is read *)
          of_result (py_float (jor (jget "confidence" payload) (JFloat f0)));;
          of_result (rmapM cand_line (labelled_refs payload));;
          pool ← (if SigIn.error_hash sig =? 0 then mret [] else query (hash_pool p (SigIn.error_hash sig) i 10));
          of_result (_abstain_explainer_input py_float sig excerpt payload pool)
      else if bool_decide (role = "extractor") then mret (Some (_extractor_input sig fact_block excerpt))
      else if bool_decide (role = "coldstart") then
        cold ← is_cold p;
        mret (if cold : bool then Some (_coldstart_input sig launch fact_block excerpt payload) else None)
      else if bool_decide (role = "judge") then
        candidates ← judge_candidates p (fields_of <$> jlist (jor (jget "candidates" payload) (JList [])));
        mret (_judge_input sig fact_block excerpt candidates)
      else mret None
  end.

(** ** The engine over the tables *)

(** The parts of a run that reach no store; the circuit and the turns taken stay
    whatever happens next. *)
Definition with_model {A} (f : LlmEngine.world -> A * LlmEngine.world) : M A := fun w =>
  let s := st w in
  let l := Service.llm s in
  let '(a, lw) := f (LlmEngine.mk_world (LlmState.circuit l) [] [] (LlmState.turns l) (LlmState.readings l)) in
  (mk_world (Service.with_llm (LlmState.mk (LlmState.available l) (LlmState.reason l) (w_breaker lw) (w_calls lw) (w_ticks lw)) s)
     (trace w), Ok a).

(** The attempts the circuit allowed, up to the truncation screen: what they ended
    with, and the input they left. *)
Definition ask_model (r : Role.t) (inp : dict) (w : LlmEngine.world)
    : (outcome_t * option json * option Z * dict) * LlmEngine.world :=
  let s := Role.schema_for r inp in
  let '(a, inp, w) := _attempt bp e r inp s 7 (Role.num_predict r) w in
  let '(a, inp, w) := if bool_decide (at_outcome a ∈ [OSchemaFail; OValidationFail])
                      then _attempt bp e r inp s 8 (Role.num_predict r) w else (a, inp, w) in
  match at_outcome a, at_output a with
  | OOk, Some output =>
      let '(output, inp, w) := _resolve_truncation bp e r inp s output (at_finish a) w in
      ((OOk, Some output, at_latency a, inp), w)
  | o, output => ((o, output, at_latency a, inp), w)
  end.

Definition produce (r : Role.t) (inp : dict) (w : LlmEngine.world)
    : (outcome_t * option json * option Z * dict) * LlmEngine.world :=
  let '(now, w) := if decide (CircuitBreaker.state (w_breaker w) = OPEN) then LlmEngine.tick e w else (f0, w) in
  let '(b, allowed, _) := allow (w_breaker w) now in
  let w := set_breaker w b in
  if negb allowed then ((OBreakerOpen, None, None, inp), w) else ask_model r inp w.

Definition record_call (r : Role.t) (p i : Z) (hash : string) (o : outcome_t) (output : option json) (hit : bool)
    (latency : option Z) : M role_result :=
  let row := AuditIn.mk p i (Role.name r) (Env.model e) hash hit (outcome_name o)
               (if decide (o = OOk) then output else None) latency in
  write (fun now => RecordCall now row) (fun now d => record now row d);;
  mret (RoleResult.mk o output hit hash).

Definition read_cache (p : Z) (key : string) (ttl_days : Z) : M (option json) :=
  write (fun now => CacheHit now p key ttl_days) (fun now d => Ok (LlmStores.get_fresh now p key ttl_days d)).
Definition fill_cache (p : Z) (key : string) (r : Role.t) (output : json) (template_hash : option Z) : M unit :=
  write (fun now => CachePut now p key (Role.name r) (Env.model e) output template_hash)
    (fun now d => Ok (LlmStores.put now p key (Role.name r) (Env.model e) output template_hash d, tt)).

Definition generate_on_store (r : Role.t) (p i : Z) (inp : dict) : M role_result :=
  let key := cache_key_of e r inp in
  '(o, output, latency, inp') ← with_model (produce r inp);
  (match o, output with
   | OOk, Some body => fill_cache p key r body (Role.template_hash r inp')
   | _, _ => if bool_decide (o ∈ _CACHEABLE_FAILURES) && bool_decide (is_Some (Role.negative_ttl_days r))
             then fill_cache p key r (negative_payload o) None else mret tt
   end);;
  record_call r p i (prompt_hash_of e r inp) o output false latency.

Definition engine_run (r : Role.t) (p i : Z) (inp : dict) : M role_result :=
  let hash := prompt_hash_of e r inp in
  let key := cache_key_of e r inp in
  cached ← read_cache p key (Role.ttl_days r);
  if is_negative cached then
    row ← (match Role.negative_ttl_days r with None => mret None | Some ttl => read_cache p key ttl end);
    if is_negative row then record_call r p i hash OValidationFail None true (Some 0)
    else generate_on_store r p i inp
  else match cached with
       | Some output => record_call r p i hash OOk (Some output) true (Some 0)
       | None => generate_on_store r p i inp
       end.

(** ** The applier *)

(** The row updates of [PgSuggestionOps]. *)
Definition perform (o : LlmRoles.op) : M unit :=
  match o with
  | LlmRoles.SetExplanation p sid text =>
      write (fun _ => StoreOps.SetExplanation p sid text) (fun _ d => Ok (set_explanation p sid text d, tt))
  | LlmRoles.AnnotateJudge p i _ patch =>
      write (fun _ => StoreOps.AnnotateJudge p i (fields_of patch)) (fun _ d => Ok (annotate_judge p i (fields_of patch) d, tt))
  | LlmRoles.InsertColdstart p i launch label confidence model_ver features =>
      write (fun now => StoreOps.InsertColdstart now p i launch (u label) confidence (u model_ver) (fields_of features))
        (fun now d => Ok ((insert_coldstart now p i launch (u label) confidence (u model_ver) (fields_of features) d).1, tt))
  end.

(** [int(x)] of an optional field. *)
Definition opt_id (j : json) : result (option Z) := match j with JNull => Ok None | v => z ← py_int v; Ok (Some z) end.

(** The preparation of a prompt leaves the fields it reads alone; the suggestion an
    insertion returns is the next of its sequence. *)
Definition apply_result (role : string) (p i : Z) (inp : dict) (res : role_result) : M unit :=
  sid ← of_result (opt_id (jget "suggestion_id" inp));
  launch ← of_result (py_int (jor (jget "launch_id" inp) (JInt 0)));
  new ← read (fun s => Db.next_suggestion (Service.store s));
  ops ← of_result (applier strip_rule_ids role p i sid ((fun c => z_of (jget "id" c)) <$> candidates_of inp) launch
                     (Env.model e) new res);
  forM perform ops;;
  mret tt.

(** ** The facade *)

Definition roles : list (string * Role.t) :=
  [("explainer", ExplainerRole wording); ("abstain_explainer", AbstainExplainerRole wording);
   ("extractor", ExtractorRole wording); ("judge", JudgeRole wording); ("coldstart", ColdStartRole wording (Env.sha256_hex e))].

Definition _process (job : LLMJob.t) : M unit :=
  let '(LLMJob.mk role p i payload) := job in
  available ← read (fun s => LlmState.available (Service.llm s));
  if negb available then mret tt
  else
    on ← query (LlmStores.is_enabled p role);
    if negb on then mret tt
    else
      r ← of_result (match dget role roles with Some r => Ok r | None => Raise (KeyError role) end);
      loaded ← load_facts role p i payload;
      match loaded with
      | None => mret tt
      | Some inp =>
          res ← engine_run r p i inp;
          if bool_decide (RoleResult.outcome res = OOk) then apply_result role p i inp res else mret tt
      end.

(** [LlmQueue._safe_process] and [drain_once]. *)
Definition _safe_process (job : LLMJob.t) : M unit := swallowed (_process job).
Definition work_once : M bool := fun w =>
  match LlmQueue.drain_once (Service.jobs (st w)) with
  | (_, None) => (w, Ok false)
  | (q, Some job) =>
      let w := mk_world (Service.with_jobs q [] (st w)) (trace w) in
      (_ ← _safe_process job; mret true) w
  end.

(** [probe]: three attempts, the first answer or the last error; what is reachable
    and what it serves. *)
Fixpoint _probe_once (attempts : list (result (bool * bool))) : option (bool * bool) :=
  match attempts with
  | [] => None
  | Ok answer :: _ => Some answer
  | Raise _ :: rest => _probe_once rest
  end.
Definition probe (enabled : bool) (attempts : list (result (bool * bool))) (l : LlmState.t) : bool * LlmState.t :=
  let set available reason := LlmState.mk available reason (LlmState.circuit l) (LlmState.turns l) (LlmState.readings l) in
  if negb enabled then (false, set false (LlmState.reason l))
  else match _probe_once (take 3 attempts) with
       | None | Some (false, _) => (false, set false (Some "unreachable"))
       | Some (true, false) => (false, set false (Some "model_missing"))
       | Some (true, true) => (true, set true None)
       end.

Definition health (enabled : bool) (l : LlmState.t) : dict :=
  [("enabled", JBool enabled); ("available", JBool (LlmState.available l)); ("model", jstr (Env.model e));
   ("reason", match LlmState.reason l with Some r => jstr r | None => JNull end);
   ("breaker_state", if enabled then jstr (state_value (CircuitBreaker.state (LlmState.circuit l))) else JNull)].

(** ** What a job writes *)

Definition in_suggest_band (confidence : pyfloat) : Prop :=
  fle TAU_SUGGEST confidence = true /\ flt confidence TAU_AUTO = true.

(** A write of a job about the project: the cache, the call log, an explanation, a
    verdict of the judge, a provisional suggestion of the rubric, whose confidence is
    stored as a [real]. *)
Definition llm_op (p : Z) (o : StoreOps.op) : Prop :=
  match o with
  | CacheHit _ q _ _ | CachePut _ q _ _ _ _ _ | StoreOps.SetExplanation q _ _ => q = p
  | RecordCall _ a => AuditIn.project_id a = p
  | StoreOps.AnnotateJudge q _ patch => q = p /\ patch.*1 = ["judge"]
  | StoreOps.InsertColdstart _ q _ _ _ c ver _ => q = p /\ in_suggest_band (to_real c) /\ starts ver (u "rubric+") = true
  | _ => False
  end.

(** The row update behind a call of [SuggestionOps]. *)
Definition role_op (p : Z) (o : LlmRoles.op) : Prop :=
  match o with
  | LlmRoles.SetExplanation q _ _ => q = p
  | LlmRoles.AnnotateJudge q _ _ patch => q = p /\ (fields_of patch).*1 = ["judge"]
  | LlmRoles.InsertColdstart q _ _ _ c ver _ => q = p /\ in_suggest_band (to_real c) /\ starts (u ver) (u "rubric+") = true
  end.

Lemma scores_in_band b c : uget b CONFIDENCE_SCORE = Some c -> in_suggest_band (to_real c).
Proof.
  intros Hb. apply dget_elem in Hb. assert (Forall (fun kv => in_suggest_band (to_real kv.2)) CONFIDENCE_SCORE) as Hall.
  { unfold in_suggest_band. repeat apply Forall_cons_2; [..|apply Forall_nil_2]; split; vm_compute; reflexivity. }
  apply list_elem_of_fmap in Hb as (kv & [= _ ->] & Hin). exact (proj1 (Forall_forall _ _) Hall _ Hin).
Qed.


Lemma result_bind_inv {A B} (m : result A) (k : A -> result B) b : m ≫= k = Ok b -> exists a, m = Ok a /\ k a = Ok b.
Proof. destruct m as [a|err]; [eauto|done]. Qed.

Lemma applier_ops role p i sid cands launch tag new res ops :
  applier strip_rule_ids role p i sid cands launch tag new res = Ok ops -> Forall (role_op p) ops.
Proof.
  unfold applier. destruct (RoleResult.output res) as [output|]; [|by intros [= <-]].
  destruct (bool_decide (role ∈ _)).
  { destruct sid as [s|]; [|by intros [= <-]]. unfold apply_explainer. intros (t & _ & [= <-])%result_bind_inv. by repeat constructor. }
  destruct (bool_decide (role = "judge")).
  { unfold apply_judge. intros (choice & _ & Hj)%result_bind_inv. destruct (bool_decide _); [by injection Hj as <-|].
    apply result_bind_inv in Hj as (chosen & _ & [= <-]). by repeat constructor. }
  destruct (bool_decide (role = "coldstart")); [|by intros [= <-]].
  intros (label & _ & Hc)%result_bind_inv. unfold apply_coldstart in Hc.
  apply result_bind_inv in Hc as (rule & _ & Hc). apply result_bind_inv in Hc as (bucket & _ & Hc).
  apply result_bind_inv in Hc as (c & Hconf & Hc). injection Hc as <-.
  destruct (uget _ CONFIDENCE_SCORE) as [f|] eqn:Ef; [|done]. injection Hconf as ->.
  constructor; [split_and!; [done|by eapply scores_in_band|..]|].
  - apply starts_spec. rewrite u_app. eauto.
  - destruct (strip_rule_ids _); by repeat constructor.
Qed.

Lemma replays_with_model {A} Q (f : LlmEngine.world -> A * LlmEngine.world) : replays Q (with_model f).
Proof. apply replays_silent. intros w. unfold with_model. by destruct (f _). Qed.

#[local] Ltac follow :=
  repeat first
    [ apply replays_ret | apply replays_read | apply replays_of_result | apply replays_query | apply replays_with_model
    | apply replays_attempt | apply replays_bind; [|intros ?]
    | match goal with
      | |- replays _ (match ?x with _ => _ end) => destruct x eqn:?
      | |- replays _ (if ?x then _ else _) => destruct x eqn:?
      end ].

Lemma replays_facts Q role p i payload : replays Q (load_facts role p i payload).
Proof.
  assert (forall refs, replays Q (judge_candidates p refs)) as Hj by (intros refs; induction refs; cbn [judge_candidates]; follow; done).
  unfold load_facts, is_cold. follow. apply Hj.
Qed.

Lemma replays_record r p i hash o output hit latency : replays (llm_op p) (record_call r p i hash o output hit latency).
Proof. unfold record_call. apply replays_bind; [|intros; apply replays_ret]. by apply replays_write. Qed.
Lemma replays_read_cache p key ttl : replays (llm_op p) (read_cache p key ttl).
Proof. by apply replays_write. Qed.
Lemma replays_fill_cache p key r output th : replays (llm_op p) (fill_cache p key r output th).
Proof. by apply replays_write. Qed.

Lemma replays_engine r p i inp : replays (llm_op p) (engine_run r p i inp).
Proof.
  assert (replays (llm_op p) (generate_on_store r p i inp)) as Hg.
  { unfold generate_on_store. apply replays_bind; [apply replays_with_model|intros [[[o output] latency] inp']].
    apply replays_bind; [|intros; apply replays_record]. follow; apply replays_fill_cache. }
  unfold engine_run. apply replays_bind; [apply replays_read_cache|intros cached].
  destruct (is_negative cached); [apply replays_bind; [|intros row]|].
  - destruct (Role.negative_ttl_days r); [apply replays_read_cache|apply replays_ret].
  - destruct (is_negative row); [apply replays_record|done].
  - destruct cached; [apply replays_record|done].
Qed.

Lemma replays_perform p ops : Forall (role_op p) ops -> replays (llm_op p) (forM perform ops).
Proof.
  induction 1 as [|o ops Ho _ IH]; [apply replays_ret|]. cbn [forM]. apply replays_bind; [|intros ?].
  - destruct o; cbn [perform role_op] in *; by apply replays_write.
  - apply replays_bind; [done|intros ?]. apply replays_ret.
Qed.

Lemma replays_known_result {A B} Q (r : result A) (k : A -> M B) :
  (forall a, r = Ok a -> replays Q (k a)) -> replays Q (of_result r ≫= k).
Proof. intros Hk. destruct r as [a|err]; [by apply (Hk a)|by apply (replays_of_result Q (Raise err))]. Qed.

Lemma replays_apply role p i inp res : replays (llm_op p) (apply_result role p i inp res).
Proof.
  unfold apply_result. apply replays_bind; [apply replays_of_result|intros sid].
  apply replays_bind; [apply replays_of_result|intros launch]. apply replays_bind; [apply replays_read|intros new].
  apply replays_known_result. intros ops Hops%applier_ops.
  apply replays_bind; [by apply replays_perform|intros; apply replays_ret].
Qed.

Lemma replays_process job : replays (llm_op (LLMJob.project_id job)) (_process job).
Proof.
  destruct job as [role p i payload]. cbn [_process LLMJob.project_id]. apply replays_bind; [apply replays_read|intros available].
  destruct (negb available); [apply replays_ret|]. apply replays_bind; [apply replays_query|intros on].
  destruct (negb on); [apply replays_ret|]. apply replays_bind; [apply replays_of_result|intros r].
  apply replays_bind; [apply replays_facts|intros [inp|]]; [|apply replays_ret].
  apply replays_bind; [apply replays_engine|intros res]. destruct (bool_decide _); [apply replays_apply|apply replays_ret].
Qed.

(** ** What a job leaves alone *)

(** The same decision: only the explanation, the mark of the model and the judge's
    verdict may differ. *)
Definition same_decision (s s' : SugRow.t) : Prop :=
  SugRow.project_id s' = SugRow.project_id s /\ SugRow.item_id s' = SugRow.item_id s /\
  SugRow.launch_id s' = SugRow.launch_id s /\ SugRow.group_id s' = SugRow.group_id s /\
  SugRow.predicted_label s' = SugRow.predicted_label s /\ SugRow.confidence s' = SugRow.confidence s /\
  SugRow.matched_mode_id s' = SugRow.matched_mode_id s /\ SugRow.matched_item_id s' = SugRow.matched_item_id s /\
  SugRow.model_ver s' = SugRow.model_ver s /\ SugRow.method s' = SugRow.method s /\
  SugRow.abstain_reason s' = SugRow.abstain_reason s /\ SugRow.source s' = SugRow.source s /\
  SugRow.outcome s' = SugRow.outcome s /\ SugRow.outcome_ts s' = SugRow.outcome_ts s /\
  SugRow.created_at s' = SugRow.created_at s /\
  forall k, k <> "judge" -> dget k (SugRow.features s') = dget k (SugRow.features s).

#[local] Instance same_decision_preorder : PreOrder same_decision.
Proof.
  split; [intros s; by split_and!|]. intros s1 s2 s3 H12 H23. unfold same_decision in *.
  destruct_and!. split_and!; try congruence. intros k Hk.
  match goal with H1 : forall k, _ -> dget k (SugRow.features s2) = _, H2 : forall k, _ -> dget k (SugRow.features s3) = _ |- _ =>
    by rewrite H2, H1 end.
Qed.

(** A provisional suggestion of the rubric. *)
Definition provisional (p : Z) (s : SugRow.t) : Prop :=
  SugRow.project_id s = p /\ in_suggest_band (SugRow.confidence s) /\ is_rubric s = true /\
  SugRow.method s = Some "coldstart".

Lemma provisional_same p s s' : same_decision s s' -> provisional p s -> provisional p s'.
Proof.
  unfold same_decision, provisional, is_rubric. intros Hs (Hp & Hb & Hr & Hm). destruct_and!.
  split_and!; [congruence|unfold in_suggest_band in *; congruence|congruence|congruence].
Qed.

(** Decisions and what they rest on stay; new suggestions are provisional ones. *)
Record assisted (p : Z) (d d' : db) : Prop := {
  as_items : Db.test_item d' = Db.test_item d;
  as_signatures : Db.failure_signature d' = Db.failure_signature d;
  as_modes : Db.failure_mode d' = Db.failure_mode d;
  as_members : Db.mode_membership d' = Db.mode_membership d;
  as_groups : Db.launch_group d' = Db.launch_group d;
  as_log : Db.label_event d' = Db.label_event d;
  as_history : Db.test_history_stats d' = Db.test_history_stats d;
  as_switches : Db.llm_role_state d' = Db.llm_role_state d;
  as_kept : forall id s, Db.suggestion d !! id = Some s -> exists s', Db.suggestion d' !! id = Some s' /\ same_decision s s';
  as_new : forall id s', Db.suggestion d' !! id = Some s' -> Db.suggestion d !! id = None -> provisional p s'
}.

Lemma assisted_refl p d : assisted p d d.
Proof. split; try done; intros id s Hs; [by exists s|by rewrite Hs]. Qed.

#[local] Instance assisted_preorder p : PreOrder (assisted p).
Proof.
  split; [intros d; apply assisted_refl|].
  intros d1 d2 d3 H12 H23. split; try (etrans; [apply H23|apply H12]).
  - intros id s Hs. destruct (as_kept _ _ _ H12 id s Hs) as (s2 & Hs2 & E2).
    destruct (as_kept _ _ _ H23 id s2 Hs2) as (s3 & Hs3 & E3). exists s3. split; [done|by etrans].
  - intros id s3 Hs3 Hn. destruct (Db.suggestion d2 !! id) as [s2|] eqn:E2; [|by eapply as_new].
    destruct (as_kept _ _ _ H23 id s2 E2) as (s3' & Hs3' & E3). rewrite Hs3 in Hs3'. injection Hs3' as <-.
    eapply provisional_same; [exact E3|]. by eapply (as_new _ _ _ H12).
Qed.

(** A row update of existing suggestions that keeps their decisions. *)
Lemma assisted_update p id f d : (forall s, same_decision s (f s)) ->
  assisted p d (Db.with_suggestion (alter f id (Db.suggestion d)) d).
Proof.
  intros Hf. split; try done; cbn.
  - intros j s Hs. destruct (decide (j = id)) as [->|Hne].
    + exists (f s). by rewrite lookup_alter_eq, Hs.
    + exists s. by rewrite lookup_alter_ne.
  - intros j s Hs Hn. destruct (decide (j = id)) as [->|Hne].
    + by rewrite lookup_alter_eq, Hn in Hs.
    + rewrite lookup_alter_ne in Hs by done. congruence.
Qed.

Lemma patched_decision patch s : patch.*1 = ["judge"] -> same_decision s (patched patch s).
Proof.
  intros Hp. destruct patch as [|[k v] [|? ?]]; try done. injection Hp as ->.
  unfold same_decision. cbn. split_and!; try done. intros k' Hk. by rewrite dget_dset_ne.
Qed.

Lemma llm_op_assisted p o d : llm_op p o -> sequences d -> assisted p d (exec o d).
Proof.
  intros Ho Hs. destruct o; try done; cbn [exec].
  - apply assisted_update. intros s. destruct (_ =? _); [|done]. by split_and!.
  - destruct Ho as [-> Hp]. unfold annotate_judge. destruct (latest_suggestion p i d) as [[id s]|]; [|apply assisted_refl].
    apply assisted_update. intros s'. by apply patched_decision.
  - destruct Ho as (-> & Hb & Hv). split; try done; cbn.
    + intros id s Hid. exists s. split; [|done]. rewrite lookup_insert_ne; [done|]. intros <-.
      pose proof (seq_suggestions d Hs (Db.next_suggestion d) (mk_is_Some _ _ Hid)). lia.
    + intros id s' Hid Hn. destruct (decide (id = Db.next_suggestion d)) as [->|Hne].
      * rewrite lookup_insert_eq in Hid. injection Hid as <-. split; [reflexivity|split; [exact Hb|split; [exact Hv|reflexivity]]].
      * rewrite lookup_insert_ne in Hid by done. congruence.
  - unfold LlmStores.get_fresh, bump_hits. destruct (_ !! _) as [r|]; [|apply assisted_refl]. destruct (_ <=? _); [|apply assisted_refl].
    split; try done; cbn; intros id s Hid; [by exists s|congruence].
  - split; try done; cbn; intros id s Hid; [by exists s|congruence].
  - unfold record. destruct (_ && _); [|apply assisted_refl]. split; try done; cbn; intros id s Hid; [by exists s|congruence].
Qed.

Lemma llm_op_about p q o : llm_op p o -> touches o q -> q = p.
Proof. destruct o; cbn; naive_solver. Qed.

Lemma llm_ops p ops l d : history l d -> Forall (llm_op p) ops ->
  let d' := fold_left (fun d o => exec o d) ops d in
  assisted p d d' /\ forall q, q <> p -> view q d' = view q d.
Proof.
  intros Hh Hf. revert l d Hh. induction Hf as [|o ops Ho _ IH]; intros l d Hh; [split; [apply assisted_refl|done]|].
  pose proof (int_sequences d (history_integrity l d Hh)) as Hs.
  destruct (IH _ _ (history_write _ _ o Hh)) as [Ha Hv]. cbn. split.
  - etrans; [by apply (llm_op_assisted p o d)|exact Ha].
  - intros q Hq. rewrite Hv by done. apply write_isolation; [done|]. intros Ht. by apply (llm_op_about p q o) in Ht.
Qed.

(** Whatever happens in it, the worker survives a job. *)
Lemma survives job w : (_safe_process job w).2 = Ok tt.
Proof. unfold _safe_process. destruct (ends_swallowed (_process job) w) as [[] E]. exact E. Qed.

Lemma swallowed_world {A} (m : M A) w : (swallowed m w).1 = (m w).1.
Proof. unfold swallowed, attempt, mbind, M_bind. by destruct (m w) as [w' [a|err]]. Qed.

(** A job whose role is off, or that finds no model, writes nothing. *)
Lemma switched_off_silent job w :
  let p := LLMJob.project_id job in
  LlmState.available (Service.llm (st w)) = false \/
  LlmStores.is_enabled p (LLMJob.role job) (Service.store (st w)) = false ->
  let w' := (_safe_process job w).1 in
  trace w' = trace w /\ Service.store (st w') = Service.store (st w) /\ Service.llm (st w') = Service.llm (st w).
Proof.
  destruct job as [role p i payload]. cbn [LLMJob.project_id LLMJob.role]. intros Hoff. cbv zeta.
  unfold _safe_process. rewrite swallowed_world. cbn [_process]. erewrite bind_ok by reflexivity.
  destruct (LlmState.available _) eqn:Ea; [|done]. destruct Hoff as [Hoff|Hoff]; [done|]. cbn [negb].
  unfold mbind, M_bind, RouteHandlers.query, reached, read. destruct (outage _); [done|]. cbn. by rewrite Hoff.
Qed.

(** C27. The sidecar assists and never decides: whatever calls fail, the worker
    survives a job; what the job has written are cache rows, the call, explanations,
    the judge's verdict and provisional suggestions of the rubric inside the suggest
    band, all about the job's project; every other suggestion keeps its label,
    confidence, evidence and outcome, and items, signatures, modes, memberships,
    groups, labels and switches are as they were; the store keeps its history and
    integrity, and no other project sees a change.  A job of a role that is switched
    off for the project, or that finds no model, writes nothing. *)
Theorem sidecar_assists job w l : history l (Service.store (st w)) ->
  let p := LLMJob.project_id job in
  let '(w', r) := _safe_process job w in
  let d := Service.store (st w) in
  let d' := Service.store (st w') in
  r = Ok tt /\ assisted p d d' /\
  (exists l', history (l ++ l') d' /\ Forall (llm_op p) l'.*1 /\ integrity d') /\
  (forall q, q <> p -> view q d' = view q d) /\
  (LlmState.available (Service.llm (st w)) = false \/ LlmStores.is_enabled p (LLMJob.role job) d = false ->
   trace w' = trace w /\ d' = d).
Proof.
  intros Hh. cbv zeta. pose proof (survives job w) as Hr. pose proof (switched_off_silent job w) as Hoff.
  assert (replays (llm_op (LLMJob.project_id job)) (_safe_process job)) as Hw by (apply replays_swallowed, replays_process).
  destruct (replays_history _ _ w l Hw Hh) as (l' & Hh' & Hq & Hi & Hd).
  destruct (llm_ops _ _ l _ Hh Hq) as [Ha Hv]. rewrite <- Hd in Ha, Hv.
  cbv zeta in Hoff. destruct (_safe_process job w) as [w' r]. cbn [fst snd] in *.
  split_and!; [done|done|by exists l'|done|]. intros H'. destruct (Hoff H') as (? & ? & _). done.
Qed.

(** ** The engine over the tables is the engine *)

(** A generation neither reads nor writes the cache and the log. *)
Definition bare (lw : LlmEngine.world) : LlmEngine.world := LlmEngine.mk_world (w_breaker lw) [] [] (w_calls lw) (w_ticks lw).
Definition over (lw lw1 : LlmEngine.world) : LlmEngine.world :=
  LlmEngine.mk_world (w_breaker lw1) (w_cache lw) (w_events lw) (w_calls lw1) (w_ticks lw1).
Definition blind {A} (f : LlmEngine.world -> A * LlmEngine.world) : Prop :=
  forall lw, f lw = let '(a, lw1) := f (bare lw) in (a, over lw lw1).

Lemma blind_attempt r inp s seed n : blind (_attempt bp e r inp s seed n).
Proof.
  intros lw. unfold _attempt. cbn [bare w_calls]. destruct (Role.build_prompt r inp _) as [[sys usr] inp1].
  destruct (Env.chat e _ _) as [|resp]; [by destruct lw|]. destruct lw. cbn. by repeat case_match.
Qed.

Lemma blind_resolve r inp s v fin : blind (_resolve_truncation bp e r inp s v fin).
Proof.
  intros lw. unfold _resolve_truncation. destruct (_truncated_fields r v fin); [by destruct lw|].
  rewrite (blind_attempt r inp s 7 _ lw). destruct (_attempt _ _ _ _ _ _ _ (bare lw)) as [[a inp1] lw1].
  by repeat case_match.
Qed.

Lemma over_over lw lw1 lw2 : over (over lw lw1) lw2 = over lw lw2.
Proof. done. Qed.
Lemma bare_over lw lw1 : bare (over lw lw1) = bare lw1.
Proof. done. Qed.

Lemma blind_bind {A B} (f : LlmEngine.world -> A * LlmEngine.world) (k : A -> LlmEngine.world -> B * LlmEngine.world) :
  blind f -> (forall a, blind (k a)) -> blind (fun lw => let '(a, lw1) := f lw in k a lw1).
Proof.
  intros Hf Hk lw. cbv beta. rewrite (Hf lw). destruct (f (bare lw)) as [a lw1]. rewrite (Hk a (over lw lw1)), (Hk a lw1).
  rewrite bare_over. by destruct (k a (bare lw1)) as [b lw2].
Qed.

Lemma blind_ret {A} (a : A) : blind (fun lw => (a, lw)).
Proof. by intros []. Qed.
Lemma blind_if {A} (b : bool) (f g : LlmEngine.world -> A * LlmEngine.world) : blind f -> blind g -> blind (fun lw => if b then f lw else g lw).
Proof. by destruct b. Qed.

(** The circuit is asked; the clock is read when it is open. *)
Lemma blind_allow {A} (k : bool -> LlmEngine.world -> A * LlmEngine.world) : (forall b, blind (k b)) ->
  blind (fun w => let '(now, w) := if decide (CircuitBreaker.state (w_breaker w) = OPEN) then LlmEngine.tick e w else (f0, w) in
                  let '(b, allowed, _) := allow (w_breaker w) now in k allowed (set_breaker w b)).
Proof.
  intros Hk. apply blind_bind; [intros []; cbn; by destruct (decide _)|]. intros now lw. cbn [bare w_breaker].
  destruct (allow (w_breaker lw) now) as [[b allowed] ch]. exact (Hk allowed (set_breaker lw b)).
Qed.

Lemma blind_produce r inp : blind (produce r inp).
Proof.
  apply (blind_allow (fun allowed w => if negb allowed then ((OBreakerOpen, None, None, inp), w) else ask_model r inp w)).
  intros allowed. apply blind_if; [apply blind_ret|]. unfold ask_model. cbv zeta.
  apply (blind_bind (_attempt bp e r inp (Role.schema_for r inp) 7 (Role.num_predict r))); [apply blind_attempt|intros [a inp1]].
  apply (blind_bind (fun w => if bool_decide (at_outcome a ∈ [OSchemaFail; OValidationFail])
                      then _attempt bp e r inp1 (Role.schema_for r inp) 8 (Role.num_predict r) w else (a, inp1, w)));
    [apply blind_if; [apply blind_attempt|apply blind_ret]|intros [a2 inp2]].
  destruct (at_outcome a2), (at_output a2); try apply blind_ret.
  apply (blind_bind (_resolve_truncation bp e r inp2 _ _ _)); [apply blind_resolve|intros [out inp3]; apply blind_ret].
Qed.

(** [LlmEngine.generate], in two steps. *)
Lemma generate_produce r p i inp lw : generate bp e r p i inp lw =
  let '((o, output, latency, inp'), lw1) := produce r inp lw in
  let key := cache_key_of e r inp in
  let store body th := set_cache lw1 (LlmEngine.put (w_cache lw1) (Env.now e) p key (Role.name r) (Env.model e) body th) in
  let lw2 := match o, output with
             | OOk, Some body => store body (Role.template_hash r inp')
             | _, _ => if bool_decide (o ∈ _CACHEABLE_FAILURES) && bool_decide (is_Some (Role.negative_ttl_days r))
                       then store (negative_payload o) None else lw1
             end in
  LlmEngine._finish r p i (prompt_hash_of e r inp) o output false latency lw2.
Proof.
  unfold generate, produce, ask_model.
  destruct (if decide _ then _ else _) as [now lw0]. destruct (allow _ now) as [[b allowed] ch].
  destruct allowed; cbn [negb]; [|done].
  destruct (_attempt _ _ _ _ _ 7 _ _) as [[a inp1] lw1]. destruct (if bool_decide (at_outcome a ∈ _) then _ else _) as [[a2 inp2] lw2].
  destruct (at_outcome a2), (at_output a2); try done.
  by destruct (_resolve_truncation _ _ _ _ _ _ _ lw2) as [[out inp3] lw3].
Qed.

(** A database that answers, in one instant. *)
Record calm : Prop := { calm_up : forall n, outage n = None; calm_now : forall c, tick c = Env.now e }.

(** The service's tables and circuit are the engine's world. *)
Record mirrors (s : service) (lw : LlmEngine.world) : Prop := {
  mi_cache : cache_of_store (Service.store s) (w_cache lw);
  mi_circuit : LlmState.circuit (Service.llm s) = w_breaker lw;
  mi_turns : LlmState.turns (Service.llm s) = w_calls lw;
  mi_readings : LlmState.readings (Service.llm s) = w_ticks lw
}.

(** The call log of the store. *)
Definition call_log (s : service) : gmap Z AuditRow.t * Z := (Db.llm_event (Service.store s), Db.next_audit (Service.store s)).

(** A step that ends in a world mirroring [lw], with the log as it was. *)
Definition steps_to {A} (m : M A) (w : Emit.world service effect) (a : A) (lw : LlmEngine.world) : Prop :=
  exists w', m w = (w', Ok a) /\ mirrors (st w') lw /\ call_log (st w') = call_log (st w).

Lemma steps_bind {A B} (m : M A) (k : A -> M B) w a lw res (P : Emit.world service effect -> Prop) :
  steps_to m w a lw ->
  (forall w', mirrors (st w') lw -> call_log (st w') = call_log (st w) -> exists w'', k a w' = (w'', res) /\ P w'') ->
  exists w'', (m ≫= k) w = (w'', res) /\ P w''.
Proof.
  intros (w' & E & Hm & Hl) Hk. destruct (Hk w' Hm Hl) as (w'' & E' & HP). exists w''. split; [|done].
  unfold mbind, M_bind. by rewrite E.
Qed.

Section Calm.
Hypothesis Hcalm : calm.

Lemma write_calm {A} (o : Z -> StoreOps.op) (run : Z -> db -> result (db * A)) w d a :
  run (Env.now e) (Service.store (st w)) = Ok (d, a) ->
  write o run w = (mk_world (Service.with_store d (Service.called (Env.now e) (st w))) (trace w ++ [Wrote (o (Env.now e))]), Ok a).
Proof.
  intros Hrun. unfold RouteHandlers.write, reached. rewrite (calm_up Hcalm), (calm_now Hcalm). cbn [st Service.store Service.called].
  by rewrite Hrun.
Qed.

Lemma read_cache_steps p key ttl w lw : mirrors (st w) lw ->
  let '(c, out) := LlmEngine.get_fresh (w_cache lw) (Env.now e) p key ttl in
  steps_to (read_cache p key ttl) w out (set_cache lw c).
Proof.
  intros [Hc Hb Ht Hr]. destruct (get_fresh_refines (Env.now e) p key ttl _ _ Hc) as [Hc' Ho].
  destruct (LlmEngine.get_fresh _ _ _ _ _) as [c out]. cbn [fst snd] in *.
  destruct (LlmStores.get_fresh (Env.now e) p key ttl (Service.store (st w))) as [d o'] eqn:E. cbn [fst snd] in *. subst o'.
  eexists. split; [apply write_calm; by rewrite E|]. split; [by split|]. cbn. unfold call_log. cbn.
  unfold LlmStores.get_fresh, bump_hits in E. destruct (_ !! _) as [row|]; [|by injection E as <- _].
  destruct (_ <=? _); by injection E as <- _.
Qed.

Lemma fill_cache_steps p key r body th w lw : mirrors (st w) lw ->
  steps_to (fill_cache p key r body th) w tt
    (set_cache lw (LlmEngine.put (w_cache lw) (Env.now e) p key (Role.name r) (Env.model e) body th)).
Proof.
  intros [Hc Hb Ht Hr]. eexists. split; [by apply write_calm|]. split; [|done]. split; try done. cbn. by apply put_refines.
Qed.

Lemma with_model_steps {A} (f : LlmEngine.world -> A * LlmEngine.world) w lw : blind f -> mirrors (st w) lw ->
  let '(a, lw1) := f lw in steps_to (with_model f) w a lw1.
Proof.
  intros Hf [Hc Hb Ht Hr]. rewrite (Hf lw). unfold steps_to, with_model. rewrite Hb, Ht, Hr. unfold bare.
  destruct (f _) as [a lw1]. eexists. split; [done|]. by split.
Qed.

(** The row of an event. *)
Definition audit_of (ev : Event.t) : AuditIn.t :=
  AuditIn.mk (Event.e_project ev) (Event.e_item ev) (Event.e_role ev) (Env.model e) (Event.e_hash ev) (Event.e_hit ev)
    (outcome_name (Event.e_outcome ev)) (Event.e_output ev) (Event.e_latency ev).

(** The run recorded: its result, its world, and one more row of the log. *)
Definition recorded (w w' : Emit.world service effect) (lw lw' : LlmEngine.world) : Prop :=
  mirrors (st w') lw' /\ exists ev, w_events lw' = w_events lw ++ [ev] /\
    call_log (st w') = (<[(call_log (st w)).2 := audit_row (Env.now e) (audit_of ev)]> (call_log (st w)).1, (call_log (st w)).2 + 1).

Lemma record_call_steps r p i hash o output hit latency w lw : Role.name r ∈ AUDIT_ROLES -> mirrors (st w) lw ->
  let '(res, lw') := LlmEngine._finish r p i hash o output hit latency lw in
  exists w', record_call r p i hash o output hit latency w = (w', Ok res) /\ recorded w w' lw lw'.
Proof.
  intros Hrole [Hc Hb Ht Hr]. unfold LlmEngine._finish, record_call.
  set (row := AuditIn.mk _ _ _ _ _ _ _ _ _).
  assert (exists id d, record (Env.now e) row (Service.store (st w)) = Ok (d, id) /\
    d = Db.with_next_audit (Db.next_audit (Service.store (st w)) + 1)
          (Db.with_llm_event (<[Db.next_audit (Service.store (st w)) := audit_row (Env.now e) row]> (Db.llm_event (Service.store (st w))))
             (Service.store (st w)))) as (id & d & Erec & ->).
  { unfold record. rewrite !bool_decide_eq_true_2; [eauto|by destruct o; apply (bool_decide_eq_true_1 (_ ∈ AUDIT_OUTCOMES))|done]. }
  eexists. split.
  - unfold mbind, M_bind. by rewrite (write_calm _ _ _ _ _ Erec).
  - split; [by split|]. eexists. split; [done|]. done.
Qed.

Lemma recorded_from w w1 w' lw lw1 lw' : call_log (st w1) = call_log (st w) -> w_events lw1 = w_events lw ->
  recorded w1 w' lw1 lw' -> recorded w w' lw lw'.
Proof. intros Hl He [Hm (ev & Hev & Hlog)]. split; [done|]. exists ev. by rewrite <- He, <- Hl. Qed.

Lemma blind_events {A} (f : LlmEngine.world -> A * LlmEngine.world) lw : blind f -> w_events (f lw).2 = w_events lw.
Proof. intros Hf. rewrite (Hf lw). by destruct (f (bare lw)). Qed.

Lemma generate_refines r p i inp w lw : Role.name r ∈ AUDIT_ROLES -> mirrors (st w) lw ->
  let '(res, lw') := generate bp e r p i inp lw in
  exists w', generate_on_store r p i inp w = (w', Ok res) /\ recorded w w' lw lw'.
Proof.
  intros Hrole Hm. rewrite generate_produce.
  pose proof (with_model_steps _ _ _ (blind_produce r inp) Hm) as Hp. pose proof (blind_events _ lw (blind_produce r inp)) as Hev.
  destruct (produce r inp lw) as [[[[o output] latency] inp'] lw1]. cbn [snd] in Hev. cbv zeta.
  match goal with |- context [LlmEngine._finish _ _ _ _ _ _ _ _ ?x] => set (lw2 := x) end.
  assert (w_events lw2 = w_events lw) as Hev2 by (rewrite <- Hev; unfold lw2; by repeat case_match).
  destruct (LlmEngine._finish _ _ _ _ _ _ _ _ lw2) as [res lw'] eqn:Ef.
  unfold generate_on_store. cbv zeta. eapply (steps_bind _ _ _ _ _ _ _ Hp). intros w1 Hm1 Hl1. cbv beta iota.
  assert (steps_to (match o, output with
     | OOk, Some body => fill_cache p (cache_key_of e r inp) r body (Role.template_hash r inp')
     | _, _ => if bool_decide (o ∈ _CACHEABLE_FAILURES) && bool_decide (is_Some (Role.negative_ttl_days r))
               then fill_cache p (cache_key_of e r inp) r (negative_payload o) None else mret tt
     end) w1 tt lw2) as Hfill.
  { assert (forall body th, steps_to (fill_cache p (cache_key_of e r inp) r body th) w1 tt
      (set_cache lw1 (LlmEngine.put (w_cache lw1) (Env.now e) p (cache_key_of e r inp) (Role.name r) (Env.model e) body th))) as Hput
      by (intros; by apply fill_cache_steps).
    assert (steps_to (mret tt) w1 tt lw1) as Hskip by (exists w1; by split_and!).
    unfold lw2. destruct o, output; try (destruct (_ && _)); done. }
  eapply (steps_bind _ _ _ _ _ _ _ Hfill). intros w2 Hm2 Hl2.
  pose proof (record_call_steps r p i (prompt_hash_of e r inp) o output false latency w2 lw2 Hrole Hm2) as Hrec.
  rewrite Ef in Hrec. destruct Hrec as (w' & Hw' & Hr'). exists w'. split; [done|].
  eapply recorded_from; [|exact Hev2|exact Hr']. congruence.
Qed.

(** The engine over the tables is the engine: when the database answers, in one
    instant, a run
    over the service's tables and circuit gives the result of [LlmEngine.run] on the
    cache and circuit they hold, leaves tables and circuit that hold the cache and
    circuit it leaves, and appends to the call log the one row of its event. *)
Theorem engine_refines r p i inp w lw : Role.name r ∈ AUDIT_ROLES -> mirrors (st w) lw ->
  let '(res, lw') := LlmEngine.run bp e r p i inp lw in
  exists w', engine_run r p i inp w = (w', Ok res) /\ recorded w w' lw lw'.
Proof.
  intros Hrole Hm. unfold LlmEngine.run, engine_run. cbv zeta.
  pose proof (read_cache_steps p (cache_key_of e r inp) (Role.ttl_days r) w lw Hm) as Hread.
  destruct (LlmEngine.get_fresh _ _ p _ (Role.ttl_days r)) as [c cached].
  assert (forall w1 lw1, mirrors (st w1) lw1 -> call_log (st w1) = call_log (st w) -> w_events lw1 = w_events lw ->
    let '(res, lw') := generate bp e r p i inp lw1 in
    exists w', generate_on_store r p i inp w1 = (w', Ok res) /\ recorded w w' lw lw') as Hgen.
  { intros w1 lw1 Hm1 Hl1 He1. pose proof (generate_refines r p i inp w1 lw1 Hrole Hm1) as Hg.
    destruct (generate bp e r p i inp lw1) as [res lw']. destruct Hg as (w' & E & Hr). exists w'. split; [done|]. by eapply recorded_from. }
  assert (forall o output w1 lw1, mirrors (st w1) lw1 -> call_log (st w1) = call_log (st w) -> w_events lw1 = w_events lw ->
    let '(res, lw') := LlmEngine._finish r p i (prompt_hash_of e r inp) o output true (Some 0) lw1 in
    exists w', record_call r p i (prompt_hash_of e r inp) o output true (Some 0) w1 = (w', Ok res) /\ recorded w w' lw lw') as Hfin.
  { intros o output w1 lw1 Hm1 Hl1 He1. pose proof (record_call_steps r p i (prompt_hash_of e r inp) o output true (Some 0) w1 lw1 Hrole Hm1) as Hf.
    destruct (LlmEngine._finish _ _ _ _ _ _ _ _ lw1) as [res lw']. destruct Hf as (w' & E & Hr). exists w'. split; [done|]. by eapply recorded_from. }
  destruct (is_negative cached) eqn:Eneg.
  - unfold _fresh_negative_outcome. destruct (Role.negative_ttl_days r) as [ttl|].
    + destruct Hread as (w1 & E1 & Hm1 & Hl1). rewrite (bind_ok _ _ _ _ _ E1), Eneg.
      pose proof (read_cache_steps p (cache_key_of e r inp) ttl w1 _ Hm1) as Hread2.
      destruct (LlmEngine.get_fresh _ _ p _ ttl) as [c2 row].
      destruct Hread2 as (w2 & E2 & Hm2 & Hl2). rewrite (bind_ok _ _ _ _ _ E2).
      destruct (is_negative row); [apply Hfin|apply Hgen]; done || congruence.
    + destruct Hread as (w1 & E1 & Hm1 & Hl1). rewrite (bind_ok _ _ _ _ _ E1), Eneg.
      erewrite bind_ok by reflexivity. by apply Hgen.
  - destruct Hread as (w1 & E1 & Hm1 & Hl1). rewrite (bind_ok _ _ _ _ _ E1), Eneg.
    destruct cached; [by apply Hfin|by apply Hgen].
Qed.
End Calm.

(** ** The extractor's answers at feature time *)

Definition _EXTRACTOR_TTL_DAYS : Z := 90.

(** A miss, a failed read and a negative row all give the unknown columns. *)
Definition layer_and_class (out : option json) : option (json * json) :=
  match out with
  | Some body =>
      if negb (truthy body) || is_negative (Some body) then None
      else Some (jor (jget "failing_layer" (fields_of body)) (jstr LLM_UNKNOWN),
                 jor (jget "error_class" (fields_of body)) (jstr LLM_UNKNOWN))
  | None => None
  end.
Definition extractor_lookup (p exception_fp : Z) (template_ids : list Z) : M (option (json * json)) :=
  let thash := extractor_template_hash exception_fp template_ids in
  out ← attempt (reached tick outage (fun now =>
          read (fun s => LlmStores.get_extractor_by_template now p thash _EXTRACTOR_TTL_DAYS (Service.store s))));
  mret (layer_and_class (default None out)).

Lemma sorted_ids_perm ids ids' : ids ≡ₚ ids' -> sorted_ids ids = sorted_ids ids'.
Proof. intros Hp. apply pysorted_perm_unique; [lia|lia|done|]. intros x y _ _. lia. Qed.

Lemma created_total a b : created_leb a b = false -> created_leb b a = true.
Proof. unfold created_leb. rewrite !leb_desc. lia. Qed.
Lemma created_trans a b c : created_leb a b = true -> created_leb b c = true -> created_leb a c = true.
Proof. unfold created_leb. rewrite !leb_desc. lia. Qed.

(** The newest row of a template set is the one the lookup finds. *)
Lemma newest_extraction now p th ttl k row d :
  Db.llm_cache d !! k = Some row -> is_extractor_of p th k row = true -> now - days ttl <= CacheRow.c_created row ->
  (forall k' row', Db.llm_cache d !! k' = Some row' -> is_extractor_of p th k' row' = true -> k' <> k ->
     CacheRow.c_created row' < CacheRow.c_created row) ->
  LlmStores.get_extractor_by_template now p th ttl d = Some (CacheRow.c_output row).
Proof.
  intros Hk Hx Hfresh Hnew. unfold LlmStores.get_extractor_by_template. set (rows := rows_of _ _).
  assert (forall k' row', (k', row') ∈ rows -> Db.llm_cache d !! k' = Some row' /\ is_extractor_of p th k' row' = true) as Hrows.
  { intros k' row' Hin. apply elem_of_rows in Hin as [Hl Hb]. by apply andb_true_iff in Hb as [Hb _]. }
  assert ((k, row) ∈ rows) as Hin.
  { apply elem_of_rows. split; [done|]. rewrite Hx. by apply Z.leb_le. }
  pose proof (pysorted_sorted created_leb created_total created_trans rows) as Hs.
  rewrite <- (elem_of_pysorted created_leb) in Hin.
  destruct (pysorted created_leb rows) as [|[k' row'] rest] eqn:E; [by apply elem_of_nil in Hin|]. cbn.
  assert ((k', row') ∈ rows) as [Hk' Hx']%Hrows by (rewrite <- (elem_of_pysorted created_leb), E; by left).
  destruct (decide (k' = k)) as [->|Hne]; [by simplify_eq|]. exfalso.
  apply elem_of_cons in Hin as [[= <- _]|Hin]; [done|]. apply StronglySorted_inv in Hs as [_ Hall].
  apply (proj1 (Forall_forall _ _) Hall) in Hin. unfold created_leb in Hin. rewrite leb_desc in Hin. cbn in Hin.
  specialize (Hnew _ _ Hk' Hx' Hne). lia.
Qed.

(** The cache's newest row is no newer than [t]. *)
Definition aged (t : Z) (d : db) : Prop :=
  forall k row, Db.llm_cache d !! k = Some row -> CacheRow.c_created row <= t.

Lemma write_ok {A} (o : Z -> StoreOps.op) (run : Z -> db -> result (db * A)) w w' a : write o run w = (w', Ok a) ->
  let now := tick (Service.clock (st w)) in
  run now (Service.store (st w)) = Ok (Service.store (st w'), a) /\ Service.clock (st w') = now.
Proof.
  unfold RouteHandlers.write, reached. destruct (outage _); [done|]. cbn [st Service.store Service.called].
  destruct (run _ _) as [[d x]|]; [|done]. by intros [= <- <-].
Qed.

(** Reading the cache counts the read; no row becomes newer. *)
Lemma read_cache_aged p key ttl w w' out t : read_cache p key ttl w = (w', Ok out) -> aged t (Service.store (st w)) ->
  aged t (Service.store (st w')) /\ Service.clock (st w') = tick (Service.clock (st w)).
Proof.
  intros [Hrun Hclock]%write_ok Ht. split; [|done]. unfold LlmStores.get_fresh, bump_hits in Hrun.
  destruct (Db.llm_cache _ !! _) as [row|] eqn:E; [|by injection Hrun as <- _].
  destruct (_ <=? _); injection Hrun as <- _; [|done]. intros k row'. cbn.
  rewrite lookup_insert_Some. intros [[<- <-]|[_ Hk]]; [by apply (Ht _ _ E)|by eapply Ht].
Qed.

(** A stored body is the newest row of the cache from then on. *)
Lemma fill_cache_newest p key r body th w w' : fill_cache p key r body th w = (w', Ok tt) ->
  (forall c, c < tick c) -> aged (Service.clock (st w)) (Service.store (st w)) ->
  exists row, Db.llm_cache (Service.store (st w')) !! (p, key) = Some row /\ CacheRow.c_output row = body /\
    CacheRow.c_role row = Role.name r /\ CacheRow.c_template row = th /\ Service.clock (st w) < CacheRow.c_created row /\
    forall k row', Db.llm_cache (Service.store (st w')) !! k = Some row' -> k <> (p, key) -> CacheRow.c_created row' < CacheRow.c_created row.
Proof.
  intros [Hrun _]%write_ok Htick Ht. injection Hrun as Hd. rewrite <- Hd. cbn.
  eexists. rewrite lookup_insert_eq. split_and!; [done..|apply Htick|].
  intros k row' Hk Hne. rewrite lookup_insert_ne in Hk by done. pose proof (Ht _ _ Hk). pose proof (Htick (Service.clock (st w))). cbn. lia.
Qed.

Lemma with_model_ok {A} (f : LlmEngine.world -> A * LlmEngine.world) w w' a : with_model f w = (w', Ok a) ->
  (exists lw lw', f lw = (a, lw')) /\ Service.store (st w') = Service.store (st w) /\ Service.clock (st w') = Service.clock (st w).
Proof. unfold with_model. destruct (f _) as [x lw] eqn:E. intros [= <- <-]. split; [by eexists _, lw|done]. Qed.

(** What an answer's template set is filed under. *)
Lemma produce_answered r inp lw out latency inp' lw1 : produce r inp lw = ((OOk, out, latency, inp'), lw1) ->
  exists v inp'' k, out = Some v /\ answered e r inp k v inp'' /\ Role.template_hash r inp' = Role.template_hash r inp''.
Proof.
  intros Hp. pose proof (generate_produce r 0 0 inp lw) as Hg. rewrite Hp in Hg. cbv zeta in Hg.
  destruct (generate bp e r 0 0 inp lw) as [res lw'] eqn:Eg. apply generate_spec in Eg as (_ & _ & _ & _ & _ & Hgen).
  unfold LlmEngine._finish in Hg. injection Hg as -> ->. unfold generated in Hgen. cbn in Hgen.
  destruct Hgen as (v & inp'' & -> & Ha & Hput). exists v, inp'', (w_calls lw). split_and!; [done|done|].
  specialize (Hput (0, cache_key_of e r inp)). rewrite decide_True in Hput by done.
  unfold LlmEngine.put in Hput. cbn in Hput. rewrite dget_dset_eq in Hput. cbn in Hput. by injection Hput.
Qed.

(** A fresh answer is the newest row of the cache, filed under its template set. *)
Lemma generated_newest r p i inp w w1 res : generate_on_store r p i inp w = (w1, Ok res) -> RoleResult.outcome res = OOk ->
  (forall c, c < tick c) -> aged (Service.clock (st w)) (Service.store (st w)) ->
  exists v inp' k key row, RoleResult.output res = Some v /\ answered e r inp k v inp' /\
    Db.llm_cache (Service.store (st w1)) !! (p, key) = Some row /\ CacheRow.c_output row = v /\
    CacheRow.c_role row = Role.name r /\ CacheRow.c_template row = Role.template_hash r inp' /\ Service.clock (st w) < CacheRow.c_created row /\
    forall k row', Db.llm_cache (Service.store (st w1)) !! k = Some row' -> k <> (p, key) -> CacheRow.c_created row' < CacheRow.c_created row.
Proof.
  unfold generate_on_store. cbv zeta. intros (w2 & [[[o out] latency] inp'] & ((lw & lw' & Hprod) & Hs & Hc)%with_model_ok & Hrun)%bind_ok_inv Hok Htick Ht.
  cbv beta iota in Hrun. apply bind_ok_inv in Hrun as (w3 & [] & Hfill & Hrec).
  unfold record_call in Hrec. apply bind_ok_inv in Hrec as (w4 & id & [Hrec _]%write_ok & Hres).
  injection Hres as -> <-. cbn in Hok. subst o.
  destruct (produce_answered _ _ _ _ _ _ _ Hprod) as (v & inp'' & k & -> & Ha & Hth). rewrite <- Hs, <- Hc in Ht.
  destruct (fill_cache_newest _ _ _ _ _ _ _ Hfill Htick Ht) as (row & Hrow). rewrite Hth, Hc in Hrow.
  assert (Db.llm_cache (Service.store (st w1)) = Db.llm_cache (Service.store (st w3))) as Hsame.
  { unfold record in Hrec. destruct (_ && _); [|done]. by injection Hrec as <- _. }
  exists v, inp'', k, (cache_key_of e r inp), row. rewrite Hsame. by split_and!; try apply Hrow.
Qed.

(** A run that misses the cache generates, no earlier than it was called. *)
Lemma engine_run_fresh r p i inp w w1 res : engine_run r p i inp w = (w1, Ok res) -> RoleResult.cache_hit res = false ->
  (forall c, c < tick c) -> aged (Service.clock (st w)) (Service.store (st w)) ->
  exists w0, generate_on_store r p i inp w0 = (w1, Ok res) /\
    aged (Service.clock (st w0)) (Service.store (st w0)) /\ Service.clock (st w) <= Service.clock (st w0).
Proof.
  intros Hrun Hhit Htick Ht. unfold engine_run in Hrun. cbv zeta in Hrun.
  assert (forall t, t <= Service.clock (st w) -> t < tick (Service.clock (st w))) as Hlater
    by (intros t Hle; pose proof (Htick (Service.clock (st w))); lia).
  apply bind_ok_inv in Hrun as (wa & cached & Hread & Hrun). destruct (read_cache_aged _ _ _ _ _ _ _ Hread Ht) as [Ha Hca].
  assert (forall o out lat wx, record_call r p i (prompt_hash_of e r inp) o out true lat wx <> (w1, Ok res)) as Hnohit.
  { intros o out lat wx. unfold record_call. intros (wy & id & _ & [= _ Hres])%bind_ok_inv. by rewrite <- Hres in Hhit. }
  assert (aged (Service.clock (st wa)) (Service.store (st wa))) as Ha'.
  { intros k row Hk. pose proof (Ha _ _ Hk). rewrite Hca. pose proof (Hlater (CacheRow.c_created row)). lia. }
  assert (Service.clock (st w) <= Service.clock (st wa)) as Hle by (rewrite Hca; pose proof (Hlater (Service.clock (st w))); lia).
  destruct (is_negative cached).
  - apply bind_ok_inv in Hrun as (wb & row & Hread2 & Hrun).
    destruct (Role.negative_ttl_days r) as [ttl|].
    + destruct (read_cache_aged _ _ _ _ _ _ _ Hread2 Ha') as [Hb Hcb].
      destruct (is_negative row); [by apply Hnohit in Hrun|]. exists wb. pose proof (Htick (Service.clock (st wa))).
      split_and!; [done| |lia]. intros k row' Hk. pose proof (Hb _ _ Hk). lia.
    + injection Hread2 as <- <-. exists wa. split_and!; [exact Hrun|done|done].
  - destruct cached; [by apply Hnohit in Hrun|]. by exists wa.
Qed.

Lemma layer_and_class_of d layer cls : dget _NEGATIVE_MARKER d = None ->
  dget "failing_layer" d = Some (jstr layer) -> layer ∈ Extractor.FAILING_LAYERS ->
  dget "error_class" d = Some (jstr cls) -> cls ∈ Extractor.ERROR_CLASSES -> layer_and_class (Some (JObj d)) = Some (jstr layer, jstr cls).
Proof.
  intros Hn Hl Hlin Hc Hcin. unfold layer_and_class, is_negative, fields_of. rewrite Hn, (proj1 (jget_Some _ _ _ Hl)), (proj1 (jget_Some _ _ _ Hc)).
  destruct d as [|kv d]; [done|]. cbn [truthy negb orb]. unfold jor.
  assert (forall t l, forallb (fun t => truthy (jstr t)) l = true -> t ∈ l -> truthy (jstr t) = true) as Hall
    by (intros t l Hl' Hin; exact (proj1 (Forall_forall _ _) (forallb_elem (fun t => truthy (jstr t)) _ Hl') t Hin)).
  by rewrite (Hall layer Extractor.FAILING_LAYERS eq_refl Hlin), (Hall cls Extractor.ERROR_CLASSES eq_refl Hcin).
Qed.

(** A lookup the database answers. *)
Lemma extractor_lookup_answer p fp ids w : outage (Service.calls (st w)) = None ->
  (extractor_lookup p fp ids w).2 = Ok (layer_and_class (LlmStores.get_extractor_by_template (tick (Service.clock (st w))) p
    (extractor_template_hash fp ids) _EXTRACTOR_TTL_DAYS (Service.store (st w)))).
Proof. intros Hup. unfold extractor_lookup, mbind, M_bind, attempt, reached. rewrite Hup. done. Qed.

Lemma template_reads_cache now p th ttl d d' : Db.llm_cache d = Db.llm_cache d' ->
  LlmStores.get_extractor_by_template now p th ttl d = LlmStores.get_extractor_by_template now p th ttl d'.
Proof. unfold LlmStores.get_extractor_by_template. by intros ->. Qed.

Lemma signature_template sig facts excerpt ids : ids ≡ₚ SigIn.template_ids sig ->
  Role.template_hash (ExtractorRole wording) (_extractor_input sig facts excerpt) =
    Some (extractor_template_hash (SigIn.exception_fp sig) ids).
Proof.
  intros Hids. transitivity (Some (extractor_template_hash (SigIn.exception_fp sig) (z_of <$> (JInt <$> SigIn.template_ids sig)))); [done|].
  rewrite <- list_fmap_compose, (list_fmap_id (SigIn.template_ids sig) : z_of ∘ JInt <$> _ = _).
  unfold extractor_template_hash. by rewrite (sorted_ids_perm _ _ Hids).
Qed.

(** C29. What the extractor wrote is what the features read: after a run of the
    extractor on an item's signature that asked the model and was answered, the lookup
    of the item's fingerprint and template set -- its ids in any order, at any time
    inside the window, from the cache the run left -- gives the answer's layer and
    class, whatever older rows the cache holds. *)
Theorem extractor_lookup_roundtrip p i sig facts excerpt w w1 w2 res ids :
  (forall c, c < tick c) -> aged (Service.clock (st w)) (Service.store (st w)) ->
  engine_run (ExtractorRole wording) p i (_extractor_input sig facts excerpt) w = (w1, Ok res) ->
  RoleResult.outcome res = OOk -> RoleResult.cache_hit res = false ->
  Db.llm_cache (Service.store (st w2)) = Db.llm_cache (Service.store (st w1)) -> outage (Service.calls (st w2)) = None ->
  tick (Service.clock (st w2)) <= Service.clock (st w) + days _EXTRACTOR_TTL_DAYS -> ids ≡ₚ SigIn.template_ids sig ->
  exists d layer cls, RoleResult.output res = Some (JObj d) /\
    dget "failing_layer" d = Some (jstr layer) /\ layer ∈ Extractor.FAILING_LAYERS /\
    dget "error_class" d = Some (jstr cls) /\ cls ∈ Extractor.ERROR_CLASSES /\
    (extractor_lookup p (SigIn.exception_fp sig) ids w2).2 = Ok (Some (jstr layer, jstr cls)).
Proof.
  intros Htick Ht Hrun Hok Hhit Hsame Hup Hwin Hids. set (inp := _extractor_input sig facts excerpt) in *.
  destruct (engine_run_fresh _ _ _ _ _ _ _ Hrun Hhit Htick Ht) as (w0 & Hgen & Ht0 & Hle).
  destruct (generated_newest _ _ _ _ _ _ _ Hgen Hok Htick Ht0)
    as (v & inp' & k & key & row & Hout & (Hth & d & -> & Hf & Hneg)%extractor_answered & Hrow & Hbody & Hrole & Htmpl & Hnew & Hall).
  destruct Hf as (_ & _ & _ & (layer & Hl & Hlin) & (cls & Hc & Hcin)).
  exists d, layer, cls. split_and!; try done.
  rewrite (extractor_lookup_answer _ _ _ _ Hup), (template_reads_cache _ _ _ _ _ _ Hsame).
  rewrite (newest_extraction _ p _ _ (p, key) row); [|done| |lia|intros; by eapply Hall].
  - rewrite Hbody. by rewrite (layer_and_class_of d layer cls).
  - unfold is_extractor_of. cbn [fst]. rewrite Z.eqb_refl, Hrole, Htmpl, Hth, (signature_template sig facts excerpt ids Hids : Role.template_hash _ inp = _). by rewrite !bool_decide_eq_true_2.
Qed.
End Worker.

(** ** A worker at work *)

Module Example.
#[local] Existing Instances toy_vectors sorted_heapq.
#[local] Instance no_tables : Unicode := ascii_unicode.
#[local] Instance a_hash : XXHash := toy_hash.
#[local] Instance a_repr : PyRepr := {| float_repr := fun _ => u "0.5"; container_repr := fun _ => [] |}.
Definition plain_words (name : string) (facts inp : dict) (block : ustr) : string * string := (name, "").
Definition float_only (j : json) : result pyfloat := match j with JFloat f => Ok f | _ => Raise TypeError end.
Definition answered (_ : nat) : option pyexn := None.

(** Items 20 and 21 of project 2 fail alike; the first was labelled by hand, the
    second has a suggestion the analyzer was sure of. *)
Definition failing (i : Z) : SigIn.t :=
  SigIn.mk 2 i 11 12 [u "App.run"] [13] (u "TypeError") (u "boom at App.run") (u "App.run") [] [u "500"] None 0 None.
Definition stored_test (i launch : Z) (label : option ustr) : TestItemIn.t :=
  TestItemIn.mk i 2 launch (u "nightly") launch (Some 77) (Some (u "t")) (u "test") None false label 0 None.
Definition sure : SuggestionRow.t :=
  SuggestionRow.mk 2 21 4 None (u "pb001") (dec 9 10) None (Some 20) [] (u "gbm:1") false None (Some "gbm") None None.
Definition two_failures : list StoreOps.op :=
  [UpsertItems 8 [stored_test 20 3 (Some (u "pb001")); stored_test 21 4 (Some (u "ti001"))];
   UpsertSignatures [failing 20; failing 21]; WriteSuggestion 9 sure].
Definition served (ops : list StoreOps.op) : service :=
  Service.mk (replay empty_db ops).2 100 0 true None empty_queue [] (LlmState.mk true None (initial default_params) 0 0).

Definition says (d : dict) (_ : nat) : Chat.reply := Chat.Response (Chat.mk_response (Some (JObj d)) false 12 (Some "stop")).
Definition rubric_says : dict :=
  [("label", jstr "si"); ("confidence", jstr "low"); ("rubric_rule_matched", jstr "R8"); ("reason", jstr "The runner ran out of disk.")].
Definition judge_says : dict := [("choice", jstr "candidate_1"); ("reason", jstr "Same stack.")].
Definition working (answer : dict) (job : LLMJob.t) (s : service) : Emit.world service effect * result unit :=
  _safe_process Z.succ answered default_params (wenv (says answer)) plain_words float_only (default []) job (mk_world s []).

Definition cold_job : LLMJob.t := LLMJob.mk "coldstart" 2 21 [("launch_id", JInt 4)].
Definition refs : json :=
  JList [JObj [("id", JInt 20); ("label", jstr "pb001"); ("similarity", JFloat (dec 9 10))];
         JObj [("id", JInt 21); ("label", jstr "ab001"); ("similarity", JFloat (dec 8 10))]].
Definition judge_job : LLMJob.t := LLMJob.mk "judge" 2 21 [("candidates", refs)].
Definition abstain_job : LLMJob.t := LLMJob.mk "abstain_explainer" 2 21
  [("suggestion_id", JInt 1); ("abstain_reason", jstr "no_confident_rule"); ("confidence", JFloat (dec 4 10))].

(** The rubric's answer becomes one provisional suggestion with its reason, next to
    the suggestion there was. *)
Example coldstart_on_the_store :
  (fun ks => (ks.1, SugRow.predicted_label ks.2, SugRow.explanation ks.2, SugRow.llm_used ks.2))
    <$> map_to_list (Db.suggestion (Service.store (st (working rubric_says cold_job (served two_failures)).1))) =
  [(2, u "si001", Some (u "The runner ran out of disk."), true); (1, u "pb001", None, false)].
Proof. vm_compute. reflexivity. Qed.

Lemma sidecar_assists_witness :
  let d' := Service.store (st (working rubric_says cold_job (served two_failures)).1) in
  assisted 2 (Service.store (served two_failures)) d' /\ view 1 d' = view 1 (Service.store (served two_failures)).
Proof.
  unfold working.
  pose proof (sidecar_assists Z.succ answered default_params (wenv (says rubric_says)) plain_words float_only (default [])
                cold_job (mk_world (served two_failures) []) (replay empty_db two_failures).1
                (replay_history [] empty_db two_failures history_nil)) as Hs.
  destruct (_safe_process _ _ _ _ _ _ _ cold_job _) as [w' r]. destruct Hs as (_ & Ha & _ & Hv & _).
  split; [exact Ha|]. by apply (Hv 1).
Defined.

Lemma engine_refines_witness :
  let e := wenv (says rubric_says) in
  let s := served two_failures in
  exists w' res lw', LlmEngine.run default_params e (ColdStartRole plain_words (Env.sha256_hex e)) 2 21 [] wworld = (res, lw') /\
    engine_run (fun _ => 1000) answered default_params e (ColdStartRole plain_words (Env.sha256_hex e)) 2 21 [] (mk_world s []) = (w', Ok res) /\
    recorded e (mk_world s []) w' wworld lw'.
Proof.
  cbv zeta.
  pose proof (engine_refines (fun _ => 1000) answered default_params (wenv (says rubric_says))
                ltac:(by split)
                (ColdStartRole plain_words (Env.sha256_hex (wenv (says rubric_says)))) 2 21 [] (mk_world (served two_failures) []) wworld) as He.
  destruct (LlmEngine.run _ _ _ _ _ _ wworld) as [res lw']. destruct He as (w' & E & Hr).
  - apply (bool_decide_eq_true_1 ("coldstart" ∈ AUDIT_ROLES)). reflexivity.
  - split; try reflexivity. intros k. by vm_compute.
  - exists w', res, lw'. split_and!; [reflexivity|exact E|exact Hr].
Defined.

(** The extractor's turn on item 21, and the lookup with its template ids. *)
Definition extraction_says : dict :=
  [("root_exception", JNull); ("wrapper_chain", JList []); ("failing_layer", jstr "infrastructure");
   ("error_class", jstr "timeout"); ("components", JList [jstr "App"])].
Definition extraction : Emit.world service effect * result role_result :=
  engine_run Z.succ answered default_params (wenv (says extraction_says)) (ExtractorRole plain_words) 2 21
    (_extractor_input (failing 21) [] (u "boom at App.run")) (mk_world (served two_failures) []).

Lemma extractor_lookup_roundtrip_witness :
  exists layer cls, (extractor_lookup Z.succ answered 2 (SigIn.exception_fp (failing 21)) [13] extraction.1).2 = Ok (Some (jstr layer, jstr cls)) /\
    layer ∈ Extractor.FAILING_LAYERS /\ cls ∈ Extractor.ERROR_CLASSES.
Proof.
  assert (forall k row, Db.llm_cache (Service.store (served two_failures)) !! k = Some row -> CacheRow.c_created row <= 100) as Hold
    by (intros k row Hk; by vm_compute in Hk).
  assert (exists res, extraction.2 = Ok res /\ RoleResult.outcome res = OOk /\ RoleResult.cache_hit res = false) as (res & E & Hok & Hhit)
    by (eexists; by vm_compute).
  assert (Service.clock (st extraction.1) <= 200) as Hclock by (by vm_compute).
  rewrite (surjective_pairing extraction) in E. destruct extraction as [w1 r] eqn:Erun. cbn in E. subst r. cbn [fst] in *.
  destruct (extractor_lookup_roundtrip Z.succ answered default_params (wenv (says extraction_says)) plain_words 2 21 (failing 21) []
    (u "boom at App.run") (mk_world (served two_failures) []) w1 w1 res [13])
    as (d & layer & cls & _ & _ & Hl & _ & Hc & Hlook);
    [intros c; apply Z.lt_succ_diag_r|exact Hold|exact Erun|exact Hok|exact Hhit|done|done| |done|by exists layer, cls].
  etrans; [by apply Z.succ_le_mono in Hclock|by vm_compute].
Defined.

(** The judge's verdict lands on the item's latest suggestion, an automatic one too. *)
Lemma judge_annotates_sure :
  let s := Service.store (st (working judge_says judge_job (served two_failures)).1) in
  (fun r => (fle TAU_AUTO (SugRow.confidence r), dget "judge" (SugRow.features r) ≫= (fun v => dget "chosen_item_id" (fields_of v))))
    <$> Db.suggestion s !! 1 = Some (true, Some (JInt 20)).
Proof. vm_compute. reflexivity. Qed.

(** Switching the explainer off leaves the abstain explainer on, which calls the
    model and logs its call as the explainer's. *)
Lemma switch_misses_abstain :
  let s := served (two_failures ++ [SetRoleState 10 2 "explainer" false None None]) in
  let w := (working [("explanation", jstr "Labels conflict."); ("quoted_log_lines", JList []); ("quoted_fact_values", JList [])]
              abstain_job s).1 in
  LlmStores.is_enabled 2 "explainer" (Service.store s) = false /\
  LlmState.turns (Service.llm (st w)) = 1%nat /\
  (fun a => (AuditRow.role a.2, AuditRow.outcome a.2)) <$> map_to_list (Db.llm_event (Service.store (st w))) = [("explainer", "ok")].
Proof. vm_compute. done. Qed.
End Example.
