(* ===== verification/Suggest.v ===== *)
(** * The suggest reply

    The rendering half of [core/analysis.py]: which rows a decision becomes, in
    which order and band, the judge's promotion, the cold-start fallback, and the
    [search] reply.  The clock and the wire envelope are arguments. *)

From S2P Require Import Prelude PyFloat PyStr PyFmt PyJson Models Features Decision.
From Stdlib Require Import ZArith Lia Ascii.

#[local] Open Scope string_scope.
#[local] Open Scope list_scope.
#[local] Open Scope Z_scope.

Definition SUGGEST_BELOW_FLOOR : pyfloat := Eval vm_compute in dec 30 100.
Definition SUGGEST_BELOW_MAX : Z := 2.
Definition SUGGEST_BELOW_MAX_CAP : Z := 3.
Definition SUGGEST_MAX : Z := 3.
Definition SEARCH_COS_THRESHOLD : pyfloat := Eval vm_compute in dec 75 100.
Definition BAND_AUTO : string := "auto".
Definition BAND_SUGGEST : string := "suggest".
Definition BAND_BELOW_SUGGEST : string := "below_suggest".

Definition _DECLINE_NARRATION : list (string * string) :=
  [("gbm_below_suggest", "model probability stayed below the suggest threshold");
   ("gbm_boilerplate_only_neighbor",
    "the nearest neighbour shared no structural evidence (boilerplate guard)");
   ("no_confident_rule", "no rule or model matched with enough confidence")].

Definition _provenance (label_source : option string) (is_auto_analyzed : bool) : string :=
  if is_auto_analyzed || bool_decide (label_source = Some "ai_suggested") then "auto-analyzed"
  else if bool_decide (label_source = Some "rp" \/ label_source = Some "human") then "human-confirmed"
  else if bool_decide (label_source = Some "seed") then "seed"
  else "unlabeled".

(** The engine's operator knobs the rendering reads. *)
Module Knobs.
Record t := mk {
  suggest_max : Z;
  suggest_below_enabled : bool;
  suggest_below_max : Z;
  emb_model_tag : string
}.
End Knobs.

(** [TestItemInfo], with the log ids of its logs. *)
Module TestItemInfo.
Record t := mk {
  testItemId : Z; clusterId : Z; launchId : Z; launchName : string; launchNumber : Z;
  project : Z; numberOfLogLines : Z; minShouldMatch : Z; log_ids : list Z
}.
End TestItemInfo.
Abbreviation item_info := TestItemInfo.t.

(** The tuple [(issueType, relevantItem, matchScore, esScore, provenance)]. *)
Module SugRow.
Record t := mk { issue_type : string; rel : Z; score : pyfloat; es : pyfloat; prov : string }.
End SugRow.
Abbreviation sug_row := SugRow.t.

Module SuggestAnalysisResult.
Record t := mk {
  project : Z; testItem : Z; testItemLogId : Z; launchId : Z; launchName : string; launchNumber : Z;
  issueType : string; relevantItem : Z; relevantLogId : Z; isMergedLog : bool; matchScore : pyfloat;
  resultPosition : Z; esScore : pyfloat; esPosition : Z;
  modelFeatureNames : option string; modelFeatureValues : option string; modelInfo : string;
  usedLogLines : Z; minShouldMatch : Z; processedTime : pyfloat; methodName : string; clusterId : Z
}.
End SuggestAnalysisResult.
Abbreviation sug_result := SuggestAnalysisResult.t.

(** ** Candidates of the reply *)

(** [x or 0.0] on an optional score. *)
Definition or_zero (o : option pyfloat) : pyfloat :=
  match o with Some x => if is_zero x then f0 else x | None => f0 end.

Definition cap1 (x : pyfloat) : pyfloat := pymin2 f1 x.

Definition own_row (d : DecisionResult.t) : list sug_row :=
  match DecisionResult.relevant_item_id d with
  | Some rel =>
      if decide (DecisionResult.label d = "ti") then []
      else [SugRow.mk (DecisionResult.issue_type d) rel (DecisionResult.confidence d) f0
              (if decide (DecisionResult.method d = METHOD_KB) then "kb-mode"
               else _provenance (DecisionResult.relevant_label_source d)
                      (DecisionResult.relevant_is_auto_analyzed d))]
  | None => []
  end.

Definition has_rel (i : Z) (rows : list sug_row) : bool := existsb (fun r => i =? SugRow.rel r) rows.

Definition add_candidate (result : list sug_row) (c : Candidate.t) : list sug_row :=
  match Candidate.item_id c, Candidate.issue_type c with
  | Some i, Some it =>
      if has_rel i result then result
      else result ++ [SugRow.mk it i (cap1 (or_zero (Candidate.cosine c))) (Candidate.rrf_score c)
                        (_provenance (Candidate.label_source c) false)]
  | _, _ => result
  end.

Definition _suggestion_candidates (d : DecisionResult.t) (stage_c : list Candidate.t) : list sug_row :=
  fold_left add_candidate stage_c (own_row d).

(** [next((i for i, c in enumerate(l) if p(c)), None)]. *)
Fixpoint find_index {A} (p : A -> bool) (l : list A) : option nat :=
  match l with
  | [] => None
  | x :: l' => if p x then Some O else S <$> find_index p l'
  end.

Definition _reorder_for_judge (candidates : list sug_row) (judge_verdict : option (list (string * json)))
    (is_auto : bool) : list sug_row :=
  match judge_verdict with
  | None | Some [] => candidates
  | Some v =>
      if is_auto then candidates
      else
        let chosen := jget "chosen_item_id" v in
        match chosen with
        | JNull => candidates
        | _ =>
            match find_index (fun c => py_eq (JInt (SugRow.rel c)) chosen) candidates with
            | None | Some O => candidates
            | Some idx =>
                match candidates !! idx with
                | Some c => c :: take idx candidates ++ drop (S idx) candidates
                | None => candidates
                end
            end
        end
  end.

Definition _row_band (d : DecisionResult.t) (rel_item : Z) (score : pyfloat) : string :=
  if (score <? TAU_SUGGEST)%F then BAND_BELOW_SUGGEST
  else if decide (DecisionResult.action d = ACTION_AUTO /\ DecisionResult.relevant_item_id d = Some rel_item)
  then BAND_AUTO
  else BAND_SUGGEST.

(** ** Selection *)

Definition row_cap (r : sug_row) : pyfloat := cap1 (SugRow.score r).

(** The declined argmax group's row for the dock. *)
Definition declined_row (d : DecisionResult.t) (used : list Z) : option sug_row :=
  match argmax_key (DecisionResult.probs d) with
  | None => None
  | Some declined_grp =>
      match List.find (fun c =>
              match Candidate.item_id c, Candidate.issue_type c with
              | Some i, Some it => negb (bool_decide (i ∈ used)) && negb (bool_decide (it = ""))
                                   && bool_decide (base_group (Some it) = Some declined_grp)
              | _, _ => false
              end) (DecisionResult.stage_c d) with
      | Some c =>
          match Candidate.item_id c, Candidate.issue_type c with
          | Some i, Some it =>
              Some (SugRow.mk it i (DecisionResult.confidence d) (Candidate.rrf_score c)
                      (_provenance (Candidate.label_source c) false))
          | _, _ => None
          end
      | None => None
      end
  end.

Definition dock_cap (k : Knobs.t) : Z :=
  Z.max 0 (Z.min (Knobs.suggest_below_max k) SUGGEST_BELOW_MAX_CAP).

(** The proxy of the reply's strength: the confidence, else the top cosine. *)
Definition reply_proxy (d : DecisionResult.t) : pyfloat :=
  if is_zero (DecisionResult.confidence d) then
    match DecisionResult.stage_c d with
    | c :: _ => cap1 (or_zero (Candidate.cosine c))
    | [] => DecisionResult.confidence d
    end
  else DecisionResult.confidence d.

Definition reply_floor (k : Knobs.t) : pyfloat :=
  if Knobs.suggest_below_enabled k then SUGGEST_BELOW_FLOOR else TAU_SUGGEST.

(** The bands of the ordered candidates, under the caps of the reply. *)
Definition split_bands (k : Knobs.t) (d : DecisionResult.t) (candidates : list sug_row)
      : list sug_row * list sug_row :=
  let real_all := List.filter (fun r => (TAU_SUGGEST <=? row_cap r)%F) candidates in
    let real := slice_to (Knobs.suggest_max k) real_all in
    let below := if Knobs.suggest_below_enabled k
                 then List.filter (fun r => (row_cap r <? TAU_SUGGEST)%F) candidates else [] in
    let below :=
      if Knobs.suggest_below_enabled k
         && bool_decide (DecisionResult.abstain_reason d = Some "gbm_below_suggest")
         && negb (bool_decide (DecisionResult.probs d = []))
         && (SUGGEST_BELOW_FLOOR <=? DecisionResult.confidence d)%F
         && (DecisionResult.confidence d <? TAU_SUGGEST)%F
      then below ++ option_list (declined_row d (SugRow.rel <$> (real ++ below)))
      else below in
    let below := slice_to (dock_cap k) below in
    let real := if negb (bool_decide (below = [])) && bool_decide (DecisionResult.label d = "ti")
                then slice_to (Z.max 0 (Knobs.suggest_max k - Z.of_nat (length below))) real_all
                else real in
    (real, below).

(** The endorsed rows and the dock rows, in reply order. *)
Definition select_rows (k : Knobs.t) (d : DecisionResult.t) (verdict : option (list (string * json)))
    : list sug_row * list sug_row :=
  let floor := reply_floor k in
  if (reply_proxy d <? floor)%F then ([], [])
  else
    let candidates := List.filter (fun r => (floor <=? row_cap r)%F)
                        (_suggestion_candidates d (DecisionResult.stage_c d)) in
    match candidates with
    | [] => ([], [])
    | _ =>
        let candidates := _reorder_for_judge candidates verdict
                            (bool_decide (DecisionResult.action d = ACTION_AUTO)) in
        split_bands k d candidates
    end.

(** ** Rendering *)

Definition semi (l : list string) : string := str_join ";" l.

Definition _model_info (k : Knobs.t) (d : DecisionResult.t) : string :=
  let mode := match DecisionResult.matched_mode_id d with Some m => str_of_Z m | None => "none" end in
  let gbm := if decide (DecisionResult.method d = METHOD_GBM) then DecisionResult.model_version d else None in
  "analyzer-ng;gbm=" +:+ str_or gbm "none" +:+ ";emb=" +:+ Knobs.emb_model_tag k +:+ ";kb_mode=" +:+ mode.

(** The optional trailing tokens of a row. *)
Definition row_extra (d : DecisionResult.t) (n_real rank : nat) (band : string) (r : sug_row) : string :=
  (if negb (bool_decide (DecisionResult.label d = "ti"))
      && bool_decide (DecisionResult.relevant_item_id d = Some (SugRow.rel r))
      && (f0 <? DecisionResult.confidence d)%F
   then ";conf=" +:+ fmt_fixed 4 (DecisionResult.confidence d) else "") +:+
  (match base_group (Some (SugRow.issue_type r)) with
   | Some g => match calibrated_label_prob d g with
               | Some p => ";plabel=" +:+ fmt_fixed 4 p
               | None => ""
               end
   | None => ""
   end) +:+
  (match dgetd (default "" (DecisionResult.abstain_reason d)) "" _DECLINE_NARRATION with
   | EmptyString => ""
   | why => if bool_decide (band = BAND_BELOW_SUGGEST) && Nat.eqb rank n_real
            then ";ek=decline;why=" +:+ why else ""
   end).

Definition pct (score : pyfloat) : pyfloat := py_round 2 (cap1 score * of_Z 100)%F.

Definition render_row (k : Knobs.t) (info : item_info) (is_merged : bool) (elapsed : pyfloat)
    (d : DecisionResult.t) (n_real rank : nat) (r : sug_row) : sug_result :=
  let band := _row_band d (SugRow.rel r) (row_cap r) in
  let log_id := default 0 (head (TestItemInfo.log_ids info)) in
  {| SuggestAnalysisResult.project := TestItemInfo.project info;
     SuggestAnalysisResult.testItem := TestItemInfo.testItemId info;
     SuggestAnalysisResult.testItemLogId := log_id;
     SuggestAnalysisResult.launchId := TestItemInfo.launchId info;
     SuggestAnalysisResult.launchName := TestItemInfo.launchName info;
     SuggestAnalysisResult.launchNumber := TestItemInfo.launchNumber info;
     SuggestAnalysisResult.issueType := SugRow.issue_type r;
     SuggestAnalysisResult.relevantItem := SugRow.rel r;
     SuggestAnalysisResult.relevantLogId := 0;
     SuggestAnalysisResult.isMergedLog := is_merged;
     SuggestAnalysisResult.matchScore := pct (SugRow.score r);
     SuggestAnalysisResult.resultPosition := Z.of_nat rank;
     SuggestAnalysisResult.esScore := py_round 6 (SugRow.es r);
     SuggestAnalysisResult.esPosition := Z.of_nat rank;
     SuggestAnalysisResult.modelFeatureNames := Some (semi feature_names);
     SuggestAnalysisResult.modelFeatureValues :=
       Some (semi (fmt_fixed 6 <$> to_vector (DecisionResult.features d)));
     SuggestAnalysisResult.modelInfo :=
       _model_info k d +:+ ";ng=1;band=" +:+ band +:+ ";src=" +:+ SugRow.prov r
         +:+ row_extra d n_real rank band r;
     SuggestAnalysisResult.usedLogLines := TestItemInfo.numberOfLogLines info;
     SuggestAnalysisResult.minShouldMatch := TestItemInfo.minShouldMatch info;
     SuggestAnalysisResult.processedTime := py_round 4 elapsed;
     SuggestAnalysisResult.methodName :=
       if decide (DecisionResult.action d = ACTION_AUTO) then "auto_analysis" else "suggestion";
     SuggestAnalysisResult.clusterId := TestItemInfo.clusterId info |}.

Definition _render_suggestions (k : Knobs.t) (info : item_info) (is_merged : bool) (d : DecisionResult.t)
    (elapsed : pyfloat) (verdict : option (list (string * json))) : list sug_result :=
  let '(real, below) := select_rows k d verdict in
  imap (render_row k info is_merged elapsed d (length real)) (real ++ below).

(** ** The cold-start fallback *)

(** The first match of [(?:^|;)src=([^;]+)]. *)
Fixpoint until_semi (s : string) : string :=
  match s with
  | EmptyString => EmptyString
  | String c s' => if decide (c = ";"%char) then EmptyString else String c (until_semi s')
  end.

Definition src_at (s : string) : option string :=
  if startswith s "src=" then
    match until_semi (sdrop 4 s) with
    | EmptyString => None
    | v => Some v
    end
  else None.

Fixpoint src_search (s : string) : option string :=
  match s with
  | EmptyString => None
  | String c s' => if decide (c = ";"%char)
                   then match src_at s' with Some v => Some v | None => src_search s' end
                   else src_search s'
  end.

Definition _row_provenance (row : sug_result) : string :=
  let s := SuggestAnalysisResult.modelInfo row in
  match (match src_at s with Some v => Some v | None => src_search s end) with
  | Some v => v
  | None => "unlabeled"
  end.

(** A row of [latest_rubric_provisional]. *)
Module RubricRow.
Record t := mk {
  confidence : option pyfloat; explanation : option string; model_ver : option string;
  predicted_label : option string
}.
End RubricRow.

Definition _rubric_provisional_suggestions (coldstart_on : bool) (provisional : option RubricRow.t)
    (info : item_info) (is_merged : bool) (elapsed : pyfloat) : list sug_result :=
  if negb coldstart_on then []
  else match provisional with
  | None => []
  | Some row =>
      let log_id := default 0 (head (TestItemInfo.log_ids info)) in
      let confidence := or_zero (RubricRow.confidence row) in
      let explanation := str_strip (default "" (RubricRow.explanation row)) in
      [{| SuggestAnalysisResult.project := TestItemInfo.project info;
          SuggestAnalysisResult.testItem := TestItemInfo.testItemId info;
          SuggestAnalysisResult.testItemLogId := log_id;
          SuggestAnalysisResult.launchId := TestItemInfo.launchId info;
          SuggestAnalysisResult.launchName := TestItemInfo.launchName info;
          SuggestAnalysisResult.launchNumber := TestItemInfo.launchNumber info;
          SuggestAnalysisResult.issueType := str_or (RubricRow.predicted_label row) "ti";
          SuggestAnalysisResult.relevantItem := TestItemInfo.testItemId info;
          SuggestAnalysisResult.relevantLogId := log_id;
          SuggestAnalysisResult.isMergedLog := is_merged;
          SuggestAnalysisResult.matchScore := pct confidence;
          SuggestAnalysisResult.resultPosition := 0;
          SuggestAnalysisResult.esScore := f0;
          SuggestAnalysisResult.esPosition := 0;
          SuggestAnalysisResult.modelFeatureNames := None;
          SuggestAnalysisResult.modelFeatureValues := None;
          SuggestAnalysisResult.modelInfo :=
            "coldstart_rubric;" +:+ default "" (RubricRow.model_ver row) +:+ ";why=" +:+ explanation;
          SuggestAnalysisResult.usedLogLines := TestItemInfo.numberOfLogLines info;
          SuggestAnalysisResult.minShouldMatch := TestItemInfo.minShouldMatch info;
          SuggestAnalysisResult.processedTime := py_round 4 elapsed;
          SuggestAnalysisResult.methodName := "coldstart_rubric";
          SuggestAnalysisResult.clusterId := TestItemInfo.clusterId info |}]
  end.

Definition vouched (r : sug_result) : bool :=
  (TAU_SUGGEST * of_Z 100 <=? SuggestAnalysisResult.matchScore r)%F
  && negb (bool_decide (_row_provenance r = "unlabeled")).

Definition _maybe_rubric_fallback (coldstart_on : bool) (provisional : option RubricRow.t)
    (out : list sug_result) (info : item_info) (is_merged : bool) (elapsed : pyfloat) : list sug_result :=
  if existsb vouched out then out
  else out ++ _rubric_provisional_suggestions coldstart_on provisional info is_merged elapsed.

(** ** The [search] reply *)

Module SearchLogInfo.
Record t := mk { logId : Z; testItemId : Z; matchScore : pyfloat }.
End SearchLogInfo.

Definition search_row (c : Candidate.t) : option SearchLogInfo.t :=
  match Candidate.item_id c with
  | None => None
  | Some i =>
      let cos := or_zero (Candidate.cosine c) in
      let fts_hit := (f0 <? or_zero (Candidate.lex_score c))%F in
      if (SEARCH_COS_THRESHOLD <=? cos)%F || fts_hit
      then Some (SearchLogInfo.mk (match Candidate.relevant_log_id c with Some z => z | None => 0 end) i (pct cos))
      else None
  end.

Definition search_reply (cands : list Candidate.t) : list SearchLogInfo.t := omap search_row cands.

(** ** Lemmas *)

Definition PROVENANCES : list string := ["kb-mode"; "auto-analyzed"; "human-confirmed"; "seed"; "unlabeled"].

(** Where a row's item comes from: a retrieved candidate, or the decision's answer. *)
Definition row_source (d : DecisionResult.t) (l : list Candidate.t) (r : sug_row) : Prop :=
  SugRow.prov r ∈ PROVENANCES /\
  ((exists c, c ∈ l /\ Candidate.item_id c = Some (SugRow.rel r)) \/
   DecisionResult.label d <> "ti" /\ DecisionResult.relevant_item_id d = Some (SugRow.rel r)).

Lemma provenance_in l b : _provenance l b ∈ PROVENANCES.
Proof. unfold _provenance. destruct (_ || _); [set_solver|]. repeat case_bool_decide; set_solver. Qed.

Lemma has_rel_iff i rows : has_rel i rows = true <-> i ∈ SugRow.rel <$> rows.
Proof.
  unfold has_rel. rewrite existsb_exists. rewrite list_elem_of_fmap. split.
  - intros (r & Hr & He%Z.eqb_eq). exists r. by rewrite list_elem_of_In.
  - intros (r & He & Hr%list_elem_of_In). exists r. split; [done|]. by apply Z.eqb_eq.
Qed.

Lemma own_row_spec d r : r ∈ own_row d ->
  DecisionResult.label d <> "ti" /\ DecisionResult.relevant_item_id d = Some (SugRow.rel r) /\
  SugRow.issue_type r = DecisionResult.issue_type d /\ SugRow.score r = DecisionResult.confidence d.
Proof.
  unfold own_row. destruct (DecisionResult.relevant_item_id d) as [i|]; [|by intros ?%elem_of_nil].
  case_decide; [by intros ?%elem_of_nil|]. by intros ->%list_elem_of_singleton.
Qed.

Lemma own_row_NoDup d : NoDup (SugRow.rel <$> own_row d).
Proof.
  unfold own_row. destruct (DecisionResult.relevant_item_id d); [case_decide|]; csimpl;
    try apply NoDup_nil_2; apply NoDup_singleton.
Qed.

Lemma add_candidate_NoDup rows c :
  NoDup (SugRow.rel <$> rows) -> NoDup (SugRow.rel <$> add_candidate rows c).
Proof.
  intros Hnd. unfold add_candidate. destruct (Candidate.item_id c) as [i|]; [|done].
  destruct (Candidate.issue_type c) as [it|]; [|done]. destruct (has_rel i rows) eqn:E; [done|].
  rewrite fmap_app. apply NoDup_app. split_and!; [done| |apply NoDup_singleton].
  intros x Hx ->%list_elem_of_singleton. simpl in Hx. apply has_rel_iff in Hx. congruence.
Qed.

Lemma candidates_NoDup d l : NoDup (SugRow.rel <$> _suggestion_candidates d l).
Proof.
  unfold _suggestion_candidates. generalize (own_row_NoDup d). generalize (own_row d).
  induction l as [|c l IH]; intros rows Hnd; simpl; [done|]. by apply IH, add_candidate_NoDup.
Qed.

Lemma find_index_spec {A} (p : A -> bool) l i :
  find_index p l = Some i -> exists x, l !! i = Some x /\ p x = true.
Proof.
  revert i. induction l as [|y l IH]; intros i; simpl; [done|].
  destruct (p y) eqn:E; [intros [= <-]; eauto|].
  intros (j & Hj & ->)%fmap_Some. apply IH in Hj as (x & Hx & Hp). eauto.
Qed.

Lemma move_front_perm {A} (l : list A) i x : l !! i = Some x -> x :: take i l ++ drop (S i) l ≡ₚ l.
Proof. intros Hx. rewrite Permutation_middle. by rewrite take_drop_middle. Qed.

Lemma reorder_cases cands v a :
  _reorder_for_judge cands v a = cands \/
  a = false /\ exists i x, cands !! i = Some x /\
    _reorder_for_judge cands v a = x :: take i cands ++ drop (S i) cands.
Proof.
  unfold _reorder_for_judge. destruct v as [[|kv v]|]; [by left| |by left].
  destruct a; [by left|]. destruct (jget _ _); try by left.
  all: destruct (find_index _ _) as [[|i]|]; try by left.
  all: destruct (cands !! S i) eqn:E; [right; eauto|by left].
Qed.

Lemma reorder_perm cands v a : _reorder_for_judge cands v a ≡ₚ cands.
Proof.
  destruct (reorder_cases cands v a) as [->|(_ & i & x & Hx & ->)]; [done|]. by apply move_front_perm.
Qed.

Lemma declined_row_spec d used r : declined_row d used = Some r ->
  SugRow.rel r ∉ used /\ SugRow.score r = DecisionResult.confidence d /\
  base_group (Some (SugRow.issue_type r)) = argmax_key (DecisionResult.probs d) /\
  SugRow.prov r ∈ PROVENANCES /\
  exists c, c ∈ DecisionResult.stage_c d /\ Candidate.item_id c = Some (SugRow.rel r).
Proof.
  unfold declined_row. destruct (argmax_key _) as [g|]; [|done].
  destruct (List.find _ _) as [c|] eqn:Hf; [|done]. apply find_Some_elem in Hf as [Hin Hc].
  destruct (Candidate.item_id c) as [i|] eqn:Hi; [|done].
  destruct (Candidate.issue_type c) as [it|]; [|done]. intros [= <-]. bprop.
  split_and!; [done..|apply provenance_in|]. eauto.
Qed.

Lemma cap1_below x : (x <? TAU_SUGGEST)%F = true -> cap1 x = x.
Proof.
  intros Hx. unfold cap1, pymin2. assert (x <? f1 = true)%F as ->; [|done].
  apply (flt_trans _ _ _ Hx). reflexivity.
Qed.

Lemma filter_sublist {A} (p : A -> bool) l : List.filter p l `sublist_of` l.
Proof. induction l as [|x l IH]; simpl; [done|]. destruct (p x); by constructor. Qed.

Lemma NoDup_sublist {A B} (f : A -> B) l1 l2 :
  l1 `sublist_of` l2 -> NoDup (f <$> l2) -> NoDup (f <$> l1).
Proof.
  intros Hs. assert (forall y, y ∈ f <$> l1 -> y ∈ f <$> l2) as Hsub.
  { intros y (x & -> & Hx)%list_elem_of_fmap. apply list_elem_of_fmap_2.
    eapply elem_of_submseteq; [exact Hx|]. by apply sublist_submseteq. }
  induction Hs as [|x l1 l2 Hs IH|x l1 l2 Hs IH]; csimpl in *; [done|..].
  - intros [Hx Hnd]%NoDup_cons. apply NoDup_cons. split.
    + intros (z & Hz & Hin)%list_elem_of_fmap. apply Hx. rewrite Hz. apply list_elem_of_fmap_2.
      eapply elem_of_submseteq; [exact Hin|]. by apply sublist_submseteq.
    + apply IH; [|done]. intros y (z & -> & Hz)%list_elem_of_fmap. apply list_elem_of_fmap_2.
      eapply elem_of_submseteq; [exact Hz|]. by apply sublist_submseteq.
  - intros [_ Hnd]%NoDup_cons. apply IH; [|done].
    intros y (z & -> & Hz)%list_elem_of_fmap. apply list_elem_of_fmap_2.
    eapply elem_of_submseteq; [exact Hz|]. by apply sublist_submseteq.
Qed.

Lemma sublist_elem {A} (l1 l2 : list A) x : l1 `sublist_of` l2 -> x ∈ l1 -> x ∈ l2.
Proof. intros Hs Hx. eapply elem_of_submseteq; [exact Hx|]. by apply sublist_submseteq. Qed.

(** What the selection guarantees. *)
Record selected (k : Knobs.t) (d : DecisionResult.t) (real below : list sug_row) : Prop := {
  sel_distinct : NoDup (SugRow.rel <$> real ++ below);
  sel_real : forall r, r ∈ real -> (TAU_SUGGEST <=? row_cap r)%F = true;
  sel_below : forall r, r ∈ below -> (row_cap r <? TAU_SUGGEST)%F = true /\ (reply_floor k <=? row_cap r)%F = true;
  sel_off : Knobs.suggest_below_enabled k = false -> below = [];
  sel_real_len : 0 <= Knobs.suggest_max k -> Z.of_nat (length real) <= Knobs.suggest_max k;
  sel_below_len : Z.of_nat (length below) <= dock_cap k;
  sel_budget : DecisionResult.label d = "ti" -> below <> [] ->
    Z.of_nat (length real + length below) <= Z.max (Knobs.suggest_max k) (Z.of_nat (length below));
  sel_source : forall r, r ∈ real ++ below -> row_source d (DecisionResult.stage_c d) r
}.

Lemma selected_nil k d : selected k d [] [].
Proof.
  split; simpl; try done; try (by intros ? ?%elem_of_nil); try lia.
  - apply NoDup_nil_2.
  - unfold dock_cap. lia.
Qed.

Lemma own_row_source d l r : r ∈ own_row d -> row_source d l r.
Proof.
  intros Hr. pose proof (own_row_spec _ _ Hr) as (Hl & Hi & _ & _). split; [|by right].
  unfold own_row in Hr. rewrite Hi in Hr. rewrite decide_False in Hr by done.
  apply list_elem_of_singleton in Hr as ->. simpl. case_decide; [set_solver|apply provenance_in].
Qed.

Lemma add_candidate_source d l rows c r : c ∈ l ->
  (forall r, r ∈ rows -> row_source d l r) -> r ∈ add_candidate rows c -> row_source d l r.
Proof.
  intros Hc Hrows. unfold add_candidate.
  destruct (Candidate.item_id c) as [i|] eqn:Ei; [|auto]. destruct (Candidate.issue_type c); [|auto].
  destruct (has_rel i rows); [auto|]. intros [?| ->%list_elem_of_singleton]%elem_of_app; [auto|].
  split; [apply provenance_in|]. left. by exists c.
Qed.

Lemma candidates_source d l r : r ∈ _suggestion_candidates d l -> row_source d l r.
Proof.
  unfold _suggestion_candidates.
  assert (forall cs rows, (forall c, c ∈ cs -> c ∈ l) -> (forall r, r ∈ rows -> row_source d l r) ->
    r ∈ fold_left add_candidate cs rows -> row_source d l r) as Hgen.
  { induction cs as [|c cs IH]; intros rows Hcs Hrows; simpl; [auto|].
    apply IH; [intros; apply Hcs; by right|]. intros r'. apply add_candidate_source; [|done]. apply Hcs. by left. }
  apply Hgen; [done|]. intros r'. apply own_row_source.
Qed.

Lemma NoDup_fmap_inj {A B} (f : A -> B) (l : list A) x y :
  NoDup (f <$> l) -> x ∈ l -> y ∈ l -> f x = f y -> x = y.
Proof.
  intros Hnd (i & Hi)%list_elem_of_lookup (j & Hj)%list_elem_of_lookup He.
  assert (i = j) as ->; [|congruence]. eapply (NoDup_lookup (f <$> l)); [done|..].
  - rewrite list_lookup_fmap, Hi. reflexivity.
  - rewrite list_lookup_fmap, Hj, He. reflexivity.
Qed.

Section Bands.
Context (k : Knobs.t) (d : DecisionResult.t) (cands : list sug_row).
Hypothesis Hnd : NoDup (SugRow.rel <$> cands).
Hypothesis Hfloor : forall r, r ∈ cands -> (reply_floor k <=? row_cap r)%F = true.
Hypothesis Hsource : forall r, r ∈ cands -> row_source d (DecisionResult.stage_c d) r.

Definition endorsed : list sug_row := List.filter (fun r => (TAU_SUGGEST <=? row_cap r)%F) cands.
Definition dock : list sug_row :=
  if Knobs.suggest_below_enabled k then List.filter (fun r => (row_cap r <? TAU_SUGGEST)%F) cands else [].
Definition kept : list sug_row := slice_to (Knobs.suggest_max k) endorsed.
Definition declined : option sug_row :=
  if Knobs.suggest_below_enabled k
     && bool_decide (DecisionResult.abstain_reason d = Some "gbm_below_suggest")
     && negb (bool_decide (DecisionResult.probs d = []))
     && (SUGGEST_BELOW_FLOOR <=? DecisionResult.confidence d)%F
     && (DecisionResult.confidence d <? TAU_SUGGEST)%F
  then declined_row d (SugRow.rel <$> (kept ++ dock)) else None.

Lemma split_bands_unfold :
  exists real below, split_bands k d cands = (real, below) /\
    below = slice_to (dock_cap k) (dock ++ option_list declined) /\
    real `sublist_of` kept /\
    (DecisionResult.label d = "ti" -> below <> [] ->
     Z.of_nat (length real) <= Z.max 0 (Knobs.suggest_max k - Z.of_nat (length below))).
Proof.
  eexists _, _. split; [reflexivity|].
  assert (forall b : bool, (if b then dock ++ option_list (declined_row d (SugRow.rel <$> (kept ++ dock))) else dock)
    = dock ++ option_list (if b then declined_row d (SugRow.rel <$> (kept ++ dock)) else None)) as Hb.
  { intros []; [done|]. by rewrite app_nil_r. }
  cbv zeta. fold endorsed dock kept. rewrite Hb. fold declined. split_and!; [done|..].
  - destruct (_ && _); [|done]. unfold kept, slice_to.
    set (n := length (take _ (dock ++ _))). unfold slice_at.
    rewrite (proj2 (Z.ltb_ge (Z.max 0 _) 0)) by lia.
    destruct (Z.ltb_spec (Knobs.suggest_max k) 0).
    + replace (Z.to_nat _) with O by lia. simpl. apply sublist_nil_l.
    + replace (Z.to_nat (Z.max 0 (Knobs.suggest_max k - Z.of_nat n)))
        with (Z.to_nat (Knobs.suggest_max k) - n)%nat by lia.
      replace (take (Z.to_nat (Knobs.suggest_max k) - n) endorsed)
        with (take (Z.to_nat (Knobs.suggest_max k) - n) (take (Z.to_nat (Knobs.suggest_max k)) endorsed))
        by (rewrite take_take; f_equal; lia).
      apply sublist_take.
  - intros Hl Hne. rewrite (bool_decide_eq_false_2 (_ = [])) by done. rewrite (bool_decide_eq_true_2 (_ = "ti")) by done.
    apply slice_to_length. lia.
Qed.

Lemma declined_spec r : declined = Some r ->
  SugRow.rel r ∉ SugRow.rel <$> kept ++ dock /\
  (row_cap r <? TAU_SUGGEST)%F = true /\ (reply_floor k <=? row_cap r)%F = true /\
  Knobs.suggest_below_enabled k = true /\ row_source d (DecisionResult.stage_c d) r.
Proof.
  unfold declined. destruct (_ && _) eqn:E; [|done]. bprop. intros Hr.
  apply declined_row_spec in Hr as (Hni & Hs & _ & Hpr & Hc). unfold row_cap, reply_floor. rewrite Hs.
  destruct (Knobs.suggest_below_enabled k) eqn:Hk; [|done]. rewrite cap1_below by done.
  split_and!; [done..|]. split; [done|by left].
Qed.

Lemma split_bands_selected : let '(real, below) := split_bands k d cands in selected k d real below.
Proof using All.
  destruct split_bands_unfold as (real & below & -> & Hb & Hr & Hti).
  assert (forall r, r ∈ endorsed -> r ∈ cands /\ (TAU_SUGGEST <=? row_cap r)%F = true) as He.
  { intros r Hr'. by apply filterb_elem in Hr'. }
  assert (forall r, r ∈ dock -> r ∈ cands /\ (row_cap r <? TAU_SUGGEST)%F = true) as Hd.
  { intros r. unfold dock. destruct (Knobs.suggest_below_enabled k); [by intros ?%filterb_elem|by intros ?%elem_of_nil]. }
  assert (forall r, r ∈ real -> r ∈ kept /\ r ∈ endorsed) as Hreal.
  { intros r Hr'. apply (sublist_elem _ _ _ Hr) in Hr'. split; [done|]. eapply sublist_elem; [apply slice_to_sublist|exact Hr']. }
  assert (forall r, r ∈ below -> r ∈ dock \/ declined = Some r) as Hbelow.
  { intros r Hr'. subst below. apply (sublist_elem _ _ _ (slice_to_sublist _ _)) in Hr'.
    apply elem_of_app in Hr' as [?|Hr']; [by left|right]. destruct declined; [|by apply elem_of_nil in Hr'].
    by apply list_elem_of_singleton in Hr' as ->. }
  split.
  - rewrite fmap_app. apply NoDup_app. split_and!.
    + eapply NoDup_sublist; [|exact Hnd]. etrans; [exact Hr|]. etrans; [apply slice_to_sublist|apply filter_sublist].
    + intros x (r1 & -> & H1)%list_elem_of_fmap (r2 & He2 & H2)%list_elem_of_fmap.
      destruct (Hreal _ H1) as [Hk1 He1]. destruct (Hbelow _ H2) as [H2'|H2'].
      * assert (r1 = r2) as -> by (eapply NoDup_fmap_inj; [exact Hnd|by apply He|by apply Hd|done]).
        destruct (He _ He1) as [_ Ht1], (Hd _ H2') as [_ Ht2]. apply flt_not_fle in Ht2. congruence.
      * apply declined_spec in H2' as (Hni & _). apply Hni. rewrite <- He2. apply list_elem_of_fmap_2.
        apply elem_of_app. by left.
    + subst below. eapply NoDup_sublist; [apply slice_to_sublist|]. rewrite fmap_app. apply NoDup_app. split_and!.
      * unfold dock. destruct (Knobs.suggest_below_enabled k); [|apply NoDup_nil_2].
        eapply NoDup_sublist; [apply filter_sublist|done].
      * intros x Hx Hx'. destruct declined eqn:E; [|by apply elem_of_nil in Hx'].
        apply list_elem_of_singleton in Hx' as ->. apply declined_spec in E as (Hni & _). apply Hni.
        rewrite fmap_app, elem_of_app. by right.
      * destruct declined; [apply NoDup_singleton|apply NoDup_nil_2].
  - intros r Hr'. by apply He, Hreal.
  - intros r [Hr'|Hr']%Hbelow; [|apply declined_spec in Hr'; tauto].
    destruct (Hd _ Hr') as [Hc Hlt]. split; [done|by apply Hfloor].
  - intros Hoff. destruct below as [|r below']; [done|]. destruct (Hbelow r) as [Hr'|Hr']; [by left| |].
    + unfold dock in Hr'. rewrite Hoff in Hr'. by apply elem_of_nil in Hr'.
    + apply declined_spec in Hr'. destruct Hr' as (_ & _ & _ & Hon & _). congruence.
  - intros Hsm. apply sublist_length in Hr. pose proof (slice_to_length _ endorsed Hsm) as Hl. unfold kept in Hr. lia.
  - subst below. apply slice_to_length. unfold dock_cap. lia.
  - intros Hl Hne. specialize (Hti Hl Hne). lia.
  - intros r [Hr'|Hr']%elem_of_app; [by apply Hsource, He, Hreal|].
    apply Hbelow in Hr' as [Hr'|Hr']; [by apply Hsource, Hd|]. apply declined_spec in Hr'. tauto.
Qed.
End Bands.

Lemma select_rows_selected k d v : let '(real, below) := select_rows k d v in selected k d real below.
Proof.
  unfold select_rows. cbv zeta. destruct (_ <? _)%F; [apply selected_nil|].
  set (l := List.filter _ _). assert (l = l) as Hl by done. unfold l at 2 in Hl.
  destruct l as [|r0 l'] eqn:E; [apply selected_nil|]. rewrite <- E in *.
  pose proof (reorder_perm l v (bool_decide (DecisionResult.action d = ACTION_AUTO))) as Hp.
  apply split_bands_selected.
  - rewrite Hp.
    eapply (NoDup_sublist SugRow.rel); [|apply (candidates_NoDup d (DecisionResult.stage_c d))].
    rewrite Hl. apply filter_sublist.
  - intros r Hr. rewrite Hp, Hl in Hr. by apply filterb_elem in Hr as [_ ?].
  - intros r Hr. rewrite Hp, Hl in Hr. apply filterb_elem in Hr as [Hr _]. by apply candidates_source.
Qed.

Lemma find_index_None {A} (p : A -> bool) l x : find_index p l = None -> x ∈ l -> p x = false.
Proof.
  induction l as [|y l IH]; simpl; [by intros _ ?%elem_of_nil|].
  destruct (p y) eqn:E; [done|]. intros Hn [->|Hx]%elem_of_cons; [done|].
  apply IH; [|done]. by destruct (find_index p l).
Qed.

Lemma reorder_promotes cands v i :
  jget "chosen_item_id" v = JInt i -> i ∈ SugRow.rel <$> cands ->
  SugRow.rel <$> head (_reorder_for_judge cands (Some v) false) = Some i.
Proof.
  intros Hv (r & -> & Hr)%list_elem_of_fmap. unfold _reorder_for_judge.
  destruct v as [|kv v]; [done|]. rewrite Hv. cbv iota.
  destruct (find_index _ _) as [[|j]|] eqn:E.
  - apply find_index_spec in E as (x & Hx & He%Z.eqb_eq). destruct cands as [|y cands]; [done|].
    simpl in Hx. injection Hx as ->. simpl. by rewrite He.
  - apply find_index_spec in E as (x & Hx & He%Z.eqb_eq). rewrite Hx. simpl. by rewrite He.
  - eapply find_index_None in E; [|exact Hr]. simpl in E. by rewrite Z.eqb_refl in E.
Qed.

(** ** The reply *)

(** The shape of every suggest reply, for a non-negative cap: its rows are
    numbered from 0 in order and name pairwise distinct history items, all taken
    from the retrieved candidates or from the decision's own answer; the endorsed
    rows come first, at most [suggest_max] of them and each at or above the
    suggest floor; the dock rows follow, below it, at most three of them, none
    when the dock is off; on an abstained reply the dock takes its slots from the
    shared budget; and a row is banded [auto] exactly when it is the automatic
    decision's own answer, [below_suggest] exactly in the dock. *)
Theorem suggest_reply_shape (k : Knobs.t) (info : item_info) (merged : bool) (d : DecisionResult.t)
    (elapsed : pyfloat) (v : option (list (string * json))) (Hmax : 0 <= Knobs.suggest_max k) :
  let out := _render_suggestions k info merged d elapsed v in
  (forall i r, out !! i = Some r -> SuggestAnalysisResult.resultPosition r = Z.of_nat i) /\
  NoDup (SuggestAnalysisResult.relevantItem <$> out) /\
  exists real below, selected k d real below /\
    out = imap (render_row k info merged elapsed d (length real)) (real ++ below) /\
    Z.of_nat (length real) <= Knobs.suggest_max k /\ Z.of_nat (length below) <= SUGGEST_BELOW_MAX_CAP /\
    (forall r, r ∈ real -> _row_band d (SugRow.rel r) (row_cap r) =
       if decide (DecisionResult.action d = ACTION_AUTO /\ DecisionResult.relevant_item_id d = Some (SugRow.rel r))
       then BAND_AUTO else BAND_SUGGEST) /\
    (forall r, r ∈ below -> _row_band d (SugRow.rel r) (row_cap r) = BAND_BELOW_SUGGEST).
Proof.
  cbv zeta. unfold _render_suggestions. pose proof (select_rows_selected k d v) as Hs.
  destruct (select_rows k d v) as [real below]. split_and!.
  - intros i r (x & Hx & ->)%list_lookup_imap_Some. done.
  - assert (forall n l, SuggestAnalysisResult.relevantItem <$> imap (fun i => render_row k info merged elapsed d n (i)) l
              = SugRow.rel <$> l) as Hrel.
    { intros n l. apply list_eq. intros i.
      rewrite !list_lookup_fmap, list_lookup_imap. by destruct (l !! i). }
    rewrite Hrel. apply (sel_distinct _ _ _ _ Hs).
  - exists real, below. split_and!; [done|done|by apply (sel_real_len _ _ _ _ Hs)| | |].
    + pose proof (sel_below_len _ _ _ _ Hs) as Hb. unfold dock_cap, SUGGEST_BELOW_MAX_CAP in *. lia.
    + intros r Hr. unfold _row_band. rewrite fle_not_flt; [done|]. by apply (sel_real _ _ _ _ Hs).
    + intros r Hr. unfold _row_band. by rewrite (proj1 (sel_below _ _ _ _ Hs r Hr)).
Qed.

(** The judge can only promote: a verdict permutes the candidates by moving
    the row of its chosen item to the front and keeping the others' order, does
    nothing when it chose none or an absent item, and never touches the reply of
    an automatic decision. *)
Theorem judge_only_promotes (k : Knobs.t) (d : DecisionResult.t) (cands : list sug_row)
    (v : option (list (string * json))) (a : bool) :
  (_reorder_for_judge cands v a = cands \/
   exists l1 x l2, cands = l1 ++ x :: l2 /\ _reorder_for_judge cands v a = x :: l1 ++ l2) /\
  (forall kv i, v = Some kv -> jget "chosen_item_id" kv = JInt i -> a = false ->
     i ∈ SugRow.rel <$> cands -> SugRow.rel <$> head (_reorder_for_judge cands v a) = Some i) /\
  (DecisionResult.action d = ACTION_AUTO -> select_rows k d v = select_rows k d None).
Proof.
  split_and!.
  - destruct (reorder_cases cands v a) as [?|(_ & i & x & Hx & ->)]; [by left|right].
    exists (take i cands), x, (drop (S i) cands). split; [|done]. by rewrite take_drop_middle.
  - intros kv i -> Hv -> Hi. by apply reorder_promotes.
  - intros Ha. unfold select_rows. cbv zeta. rewrite (bool_decide_eq_true_2 _ Ha).
    assert (forall l, _reorder_for_judge l v true = _reorder_for_judge l None true) as Hv.
    { intros l. destruct (reorder_cases l v true) as [->|[[=] _]]. done. }
    destruct (_ <? _)%F; [done|]. destruct (List.filter _ _); [done|]. by rewrite Hv.
Qed.

(** ** The provenance token *)

Definition is_semi (c : ascii) : bool := bool_decide (c = ";"%char).
Definition no_semi (s : string) : Prop := sany is_semi s = false.

Lemma src_search_skip a s : no_semi a -> src_search (a +:+ s) = src_search s.
Proof.
  unfold no_semi. induction a as [|c a IH]; [done|]. simpl. intros [Hc Ha]%orb_false_iff.
  unfold is_semi in Hc. apply bool_decide_eq_false_1 in Hc.
  change (String.append (String c a) s) with (String c (a +:+ s)). simpl. rewrite decide_False by done. by apply IH.
Qed.

(** The token ends at the first separator. *)
Definition ends_token (e : string) : Prop := e = "" \/ exists e', e = String ";"%char e'.

Lemma until_semi_app p e : no_semi p -> ends_token e -> until_semi (p +:+ e) = p.
Proof.
  unfold no_semi. intros Hp He. induction p as [|c p IH].
  - destruct He as [->|[e' ->]]; reflexivity.
  - simpl in Hp. apply orb_false_iff in Hp as [Hc Hp].
    unfold is_semi in Hc. apply bool_decide_eq_false_1 in Hc.
    change (String c p +:+ e) with (String c (p +:+ e)). simpl. rewrite decide_False by done. by rewrite IH.
Qed.

Lemma ends_token_app a b : ends_token a -> ends_token b -> ends_token (a +:+ b).
Proof. intros [->|[a' ->]] Hb; [done|]. right. by exists (a' +:+ b). Qed.

Lemma row_extra_ends d n rank band r : ends_token (row_extra d n rank band r).
Proof.
  unfold row_extra. apply ends_token_app; [|apply ends_token_app].
  - destruct (_ && _); [right; eexists; reflexivity|by left].
  - destruct (base_group _); [|by left]. destruct (calibrated_label_prob _ _); [right; eexists; reflexivity|by left].
  - destruct (dgetd _ _ _); [by left|]. destruct (_ && _); [right; eexists; reflexivity|by left].
Qed.

(** The tags the service puts in front of the token hold no separator. *)
Definition clean_tags (k : Knobs.t) (d : DecisionResult.t) : Prop :=
  no_semi (Knobs.emb_model_tag k) /\ no_semi (default "" (DecisionResult.model_version d)).

Lemma no_semi_str_of_Z z : no_semi (str_of_Z z).
Proof.
  apply sany_str_of_Z; [|done]. intros n Hn.
  assert (n ∈ [0;1;2;3;4;5;6;7;8;9]%N) as Hin by (rewrite !elem_of_cons; lia). by elem_cases Hin.
Qed.

Lemma provenance_token l b : no_semi (_provenance l b) /\ _provenance l b <> "".
Proof. unfold _provenance. destruct (_ || _); [done|]. repeat case_bool_decide; done. Qed.

Lemma no_semi_app a b : no_semi a -> no_semi b -> no_semi (a +:+ b).
Proof. unfold no_semi. intros Ha Hb. by rewrite sany_app, Ha, Hb. Qed.

Lemma src_search_field f s : src_at (f +:+ s) = None -> no_semi f -> src_search (";" +:+ (f +:+ s)) = src_search s.
Proof.
  intros Hn Hf. change (match src_at (f +:+ s) with Some v => Some v | None => src_search (f +:+ s) end = src_search s).
  rewrite Hn. by apply src_search_skip.
Qed.

Lemma src_search_src p e : no_semi p -> p <> "" -> ends_token e ->
  src_search (";" +:+ ("src=" +:+ (p +:+ e))) = Some p.
Proof.
  intros Hp Hne He. pose proof (until_semi_app p e Hp He) as Hu. destruct p as [|c p]; [done|].
  change (match (match until_semi (String c p +:+ e) with EmptyString => None | v => Some v end) with
          | Some v => Some v | None => src_search ("src=" +:+ (String c p +:+ e)) end = Some (String c p)).
  by rewrite Hu.
Qed.

Lemma rendered_provenance k info merged elapsed d n rank r :
  clean_tags k d -> no_semi (SugRow.prov r) -> SugRow.prov r <> "" ->
  _row_provenance (render_row k info merged elapsed d n rank r) = SugRow.prov r.
Proof.
  intros [Htag Hver] Hp Hne. unfold _row_provenance, render_row. cbv zeta. cbn [SuggestAnalysisResult.modelInfo].
  set (band := _row_band _ _ _). unfold _model_info. cbv zeta.
  set (gbm := str_or _ "none"). set (mode := match DecisionResult.matched_mode_id d with Some m => _ | None => _ end).
  set (extra := row_extra d n rank band r).
  assert (no_semi gbm) as Hgbm.
  { unfold gbm, str_or. destruct (decide (DecisionResult.method d = METHOD_GBM)); [|done].
    destruct (DecisionResult.model_version d) as [v|]; [|done]. simpl in Hver. by case_decide. }
  assert (no_semi mode) as Hmode.
  { unfold mode. destruct (DecisionResult.matched_mode_id d); [apply no_semi_str_of_Z|done]. }
  assert (no_semi band) as Hband.
  { unfold band, _row_band. destruct (_ <? _)%F; [done|]. by case_decide. }
  transitivity (match src_search ("analyzer-ng" +:+ (";" +:+ (("gbm=" +:+ gbm) +:+ (";" +:+ (("emb=" +:+ Knobs.emb_model_tag k)
    +:+ (";" +:+ (("kb_mode=" +:+ mode) +:+ (";" +:+ ("ng=1" +:+ (";" +:+ (("band=" +:+ band) +:+ (";" +:+
      ("src=" +:+ (SugRow.prov r +:+ extra))))))))))))))
    with Some v => v | None => "unlabeled" end); [by rewrite !sapp_assoc|].
  rewrite src_search_skip by done.
  rewrite !src_search_field by (try reflexivity; by apply no_semi_app).
  rewrite src_search_src; [done|done|done|]. apply row_extra_ends.
Qed.

Lemma source_token d l r : row_source d l r -> no_semi (SugRow.prov r) /\ SugRow.prov r <> "".
Proof. intros [Hp _]. by elem_cases Hp. Qed.

(** A row is grounded: displayed at or above the floor, from a labelled source. *)
Definition grounded (r : sug_row) : bool :=
  (TAU_SUGGEST * of_Z 100 <=? pct (SugRow.score r))%F && negb (bool_decide (SugRow.prov r = "unlabeled")).

Lemma rendered_vouched k info merged elapsed d n l :
  clean_tags k d -> (forall r, r ∈ l -> row_source d (DecisionResult.stage_c d) r) ->
  existsb vouched (imap (render_row k info merged elapsed d n) l) = existsb grounded l.
Proof.
  intros Hc. assert (forall m, (forall r, r ∈ l -> row_source d (DecisionResult.stage_c d) r) ->
     existsb vouched (imap (fun i => render_row k info merged elapsed d n (m + i)%nat) l) = existsb grounded l) as Hgen.
  { induction l as [|r l IH]; intros m Hl; [done|]. rewrite imap_cons. simpl. f_equal.
    - unfold vouched, grounded. destruct (source_token d _ r (Hl r ltac:(by left))) as [Hp Hne].
      by rewrite rendered_provenance.
    - rewrite <- (IH (S m)) by (intros; apply Hl; by right). f_equal. apply imap_ext.
      intros i x _. unfold compose. by replace (m + S i)%nat with (S m + i)%nat by lia. }
  intros Hl. exact (Hgen 0%nat Hl).
Qed.

(** The cold-start hypothesis never displaces a grounded answer: with
    separator-free model tags, a reply with one row displayed at or above the
    suggest floor from a labelled source is returned as it is; otherwise the
    reply keeps all its rows in order and gains at most one, after them, about
    the queried item itself and only while the role is on.  The gate reads each
    row's provenance back from the text it was rendered into, exactly. *)
Theorem rubric_never_displaces (k : Knobs.t) (info : item_info) (merged : bool) (d : DecisionResult.t)
    (elapsed : pyfloat) (v : option (list (string * json))) (on : bool) (prov : option RubricRow.t)
    (Htags : clean_tags k d) :
  let '(real, below) := select_rows k d v in
  let out := _render_suggestions k info merged d elapsed v in
  let final := _maybe_rubric_fallback on prov out info merged elapsed in
  (existsb grounded (real ++ below) = true -> final = out) /\
  (existsb grounded (real ++ below) = false ->
     exists extra, final = out ++ extra /\ (length extra <= 1)%nat /\
       (extra <> [] <-> on = true /\ prov <> None) /\
       forall r, r ∈ extra -> SuggestAnalysisResult.relevantItem r = TestItemInfo.testItemId info /\
         SuggestAnalysisResult.methodName r = "coldstart_rubric").
Proof.
  pose proof (select_rows_selected k d v) as Hs. unfold _render_suggestions.
  destruct (select_rows k d v) as [real below] eqn:E. cbv zeta. unfold _maybe_rubric_fallback.
  rewrite rendered_vouched by (try done; apply (sel_source _ _ _ _ Hs)).
  split; intros ->; [done|]. eexists. split; [reflexivity|]. unfold _rubric_provisional_suggestions.
  destruct on; simpl; [|split_and!; [lia|naive_solver|by intros ? ?%elem_of_nil]].
  destruct prov as [row|]; [|split_and!; [simpl; lia|naive_solver|by intros ? ?%elem_of_nil]].
  split_and!; [simpl; lia|naive_solver|]. by intros r ->%list_elem_of_singleton.
Qed.

(** ** Concrete replies *)

Definition wcand (i : Z) (it : string) (cos : pyfloat) (src : option string) : Candidate.t :=
  {| Candidate.item_id := Some i; Candidate.mode_id := None; Candidate.dense_rank := None;
     Candidate.sparse_rank := None; Candidate.rrf_score := f0; Candidate.cosine := Some cos;
     Candidate.lex_score := None; Candidate.jaccard_templates := f0; Candidate.issue_type := Some it;
     Candidate.label_source := src; Candidate.label_ts := None; Candidate.same_test_case := false;
     Candidate.same_error_hash := false; Candidate.same_exception_fp := false; Candidate.msg_text := "";
     Candidate.exc_text := ""; Candidate.launch_distance := None; Candidate.launch_id := None;
     Candidate.launch_name := None; Candidate.mode_status := None; Candidate.mode_purity := None;
     Candidate.mode_support := None; Candidate.matched_by := None; Candidate.relevant_log_id := None |}.

(** An abstention whose model leaned to [pb] at 0.35, below the floor. *)
Definition wabstain : DecisionResult.t :=
  mk_result {| env_features := [];
               env_stage_c := [wcand 7 "ab001" (dec 95 100) None; wcand 8 "pb001" (dec 90 100) None];
               env_tau_auto := TAU_AUTO |} "ti" "ti" (dec 35 100) METHOD_GBM
    (with_reason "gbm_below_suggest" (gbm_kw [("pb", dec 6 10); ("ab", dec 4 10)] (Some "gbm-1") (dec 35 100))).
Definition wknobs : Knobs.t := Knobs.mk 1 true 2 "e5".
Definition winfo : item_info := TestItemInfo.mk 42 0 1 "nightly" 3 5 20 80 [100].

Example wabstain_reply : let '(real, below) := select_rows wknobs wabstain None in
  SugRow.rel <$> real = [] /\ SugRow.rel <$> below = [8].
Proof. vm_compute. done. Qed.

Lemma suggest_reply_shape_witness :
  NoDup (SuggestAnalysisResult.relevantItem <$> _render_suggestions wknobs winfo false wabstain f0 None).
Proof.
  refine (proj1 (proj2 (suggest_reply_shape wknobs winfo false wabstain f0 None _))).
  apply (bool_decide_eq_true_1 (0 <= Knobs.suggest_max wknobs)). reflexivity.
Defined.

Lemma rubric_never_displaces_witness :
  clean_tags wknobs wabstain /\ exists extra, _maybe_rubric_fallback true (Some (RubricRow.mk (Some (dec 65 100)) None None (Some "si001")))
    (_render_suggestions wknobs winfo false wabstain f0 None) winfo false f0 =
    _render_suggestions wknobs winfo false wabstain f0 None ++ extra.
Proof.
  assert (clean_tags wknobs wabstain) as Ht by (split; reflexivity). split; [exact Ht|].
  pose proof (rubric_never_displaces wknobs winfo false wabstain f0 None true
    (Some (RubricRow.mk (Some (dec 65 100)) None None (Some "si001"))) Ht) as Hr.
  destruct (select_rows wknobs wabstain None) as [real below] eqn:E. cbv zeta in Hr. destruct Hr as [_ Hr].
  assert (existsb grounded (real ++ below) = false) as Hg.
  { assert (existsb grounded ((select_rows wknobs wabstain None).1 ++ (select_rows wknobs wabstain None).2) = false) as Hx
      by (vm_compute; reflexivity).
    by rewrite E in Hx. }
  destruct (Hr Hg) as (extra & He & _). exists extra. exact He.
Defined.

(** The percentage is rounded before it is compared: a labelled dock row just
    under the floor displays 45.0 and counts as a vouched suggestion, so the
    hypothesis is withheld though every row of the reply is [below_suggest]. *)
Lemma rounded_dock_row_vouched :
  let r := SugRow.mk "pb001" 9 (dec 449999 1000000) f0 "human-confirmed" in
  _row_band wabstain (SugRow.rel r) (row_cap r) = BAND_BELOW_SUGGEST /\ grounded r = true.
Proof. vm_compute. done. Qed.
