(* ===== verification/Analyze.v ===== *)
(** * The analysis engine

    The deciding half of [core/analysis.py]: the canonical identity of the query
    item, the scoped inputs of a decision, the fan-out of a launch, the early
    per-item pass, and the writes and sidecar jobs each of them makes.  The
    stores are an interface over an abstract state; a route is a computation of
    the trace monad, so partial runs and the order of calls are visible.  Reads
    are taken to succeed; every write may raise. *)

From S2P Require Import Prelude PyFloat PyStr PyFmt PyJson Models Features Decision Grouping Scope Hashing Suggest Emit.
From Stdlib Require Import ZArith Lia Ascii.

#[local] Open Scope string_scope.
#[local] Open Scope list_scope.
#[local] Open Scope Z_scope.

Definition TOP_K : Z := 20.
Definition STAGE_C_RETRIEVE_K : Z := 60.
Definition MSG_SALIENT_TERMS : nat := 24.
Definition KB_CANDIDATE_SCORE : pyfloat := Eval vm_compute in dec 70 100.
Definition ANALYZE_SCOPED_ROUTES : list string := ["analyze"; "analyze_item_early"].

(** ** Data *)

(** The signature of an analysis; [template_ids] are the ids of its template
    hashes. *)
Module SignatureResult.
Record t := mk {
  exception_fp : Z; error_hash : Z; template_ids : list Z; frames : list string;
  status_codes : list string; msg_text : string; exc_classes : list string;
  has_stacktrace : bool; is_assertion : bool; is_merged_small_logs : bool; signature_text : string
}.
End SignatureResult.

Module ItemAnalysis.
Record t := mk {
  item_id : Z; launch_id : Z; launch_number : Z; launch_items : Z; project : Z;
  test_case_hash : Z;               (* 0 when the item has none *)
  signature : SignatureResult.t;
  emb : option (list pyfloat); emb_model_ver : Z; log_count : Z;
  log_ids : list Z; clean_msg : string
}.
End ItemAnalysis.
Abbreviation analysis := ItemAnalysis.t.

Module StoredSignature.
Record t := mk {
  exception_fp : Z; error_hash : Z; top_frames : list string; template_ids : list Z;
  exc_text : string; msg_text : string; status_codes : list string
}.
End StoredSignature.

Module SignatureIn.
Record t := mk {
  project_id : Z; item_id : Z; stored : StoredSignature.t; frames_text : string; tmpl_text : string;
  emb : option (list pyfloat); emb_model_ver : Z
}.
End SignatureIn.

Module QueryIdentity.
Record t := mk {
  exception_fp : Z; error_hash : Z; template_ids : list Z; top_frames : list string;
  status_codes : list string; msg_text : string; exception_names : list string
}.
End QueryIdentity.

Module QuerySignature.
Record t := mk {
  exception_fp : Z; error_hash : Z; top_frames : list string; template_ids : list Z;
  salient_terms : list string; exception_names : list string; emb : option (list pyfloat);
  emb_model_ver : Z; test_case_hash : option Z; launch_id : Z; launch_number : Z
}.
End QuerySignature.

(** A row of [find_hash_matches]. *)
Module HashRow.
Record t := mk {
  item_id : Z; launch_id : Z; launch_name : option string; issue_type : string;
  issue_type_group : option string; label_source : option string; label_ts : option Z;
  is_auto_analyzed : bool; exception_fp : option Z; status_codes : list string; msg_text : option string
}.
End HashRow.

(** A row of [get_test_history]. *)
Module TestHistory.
Record t := mk { flakiness_score : option pyfloat; window_runs : Z; window_failures : Z; window_flips : Z }.
End TestHistory.

Module SeedMode.
Record t := mk { mode_key : string; prior_label : string; prior_confidence : pyfloat }.
End SeedMode.

Module ModeMatch.
Record t := mk { mode_id : Z; score : pyfloat; matched_by : string }.
End ModeMatch.

Module SuggestionIn.
Record t := mk {
  project_id : Z; item_id : Z; launch_id : Z; group_id : option Z; predicted_label : string;
  confidence : pyfloat; matched_mode_id : option Z; matched_item_id : option Z;
  features : list (string * pyfloat); model_ver : string; explanation : option string;
  method : method_t; abstain_reason : option string; source : option string
}.
End SuggestionIn.

Module AnalysisResult.
Record t := mk { testItem : Z; issueType : string; relevantItem : Z }.
End AnalysisResult.

Module ClusterInfo.
Record t := mk { clusterId : Z; clusterMessage : string; logIds : list Z; itemIds : list Z }.
End ClusterInfo.

Module Launch.
Record t := mk {
  project : Z; launchId : Z; launchName : string; previousLaunchId : Z; analyzerMode : option string;
  analyses : list analysis       (* what the pipeline builds for its items *)
}.
End Launch.

(** A candidate reference carried to the sidecar. *)
Record cand_ref := mk_ref { ref_id : option Z; ref_label : string; ref_similarity : pyfloat }.

Inductive payload :=
  | PEmpty
  | PAbstain (suggestion_id : Z) (abstain_reason : option string) (confidence : pyfloat) (candidates : list cand_ref)
  | PColdstart (launch_id : Z)
  | PJudge (candidates : list cand_ref).

(** The calls of a route, in order; [EDecide] is the call of [decide] itself. *)
Inductive event :=
  | EPersistSignature (s : SignatureIn.t)
  | ESeedCopy (project : Z) (mode_key : string)
  | EDecide (item : Z) (inputs : DecisionInputs.t) (d : DecisionResult.t)
  | EGroup (project launch fingerprint size : Z) (si_prior : pyfloat) (dominant : bool)
  | ESuggestion (s : SuggestionIn.t)
  | EIssueType (project item : Z) (issue_type : string)
  | EMembers (project mode : Z) (members : list (Z * pyfloat * string)) (emb_ver : option Z)
  | EEnqueue (role : string) (project item : Z) (p : payload).

(** ** The stores *)

Class Stores (St : Type) := {
  now : St -> Z;
  get_signature : St -> Z -> Z -> option StoredSignature.t;
  find_hash_matches : St -> Z -> Z -> list HashRow.t;
  match_modes : St -> Z -> QuerySignature.t -> list Candidate.t;
  find_candidates : St -> Z -> QuerySignature.t -> Z -> list Z -> list Candidate.t;
  item_launch_names : St -> Z -> list Z -> list (Z * string);
  error_hash_seen : St -> Z -> Z -> Z -> bool;
  get_test_history : St -> Z -> Z -> option TestHistory.t;
  test_case_first_seen : St -> Z -> Z -> option Z;
  latest_judge : St -> Z -> Z -> option (list (string * json));
  latest_rubric_provisional : St -> Z -> Z -> option RubricRow.t;
  upsert_signature : SignatureIn.t -> St -> St * result unit;
  ensure_seed_mode : Z -> SeedMode.t -> St -> St * result Z;
  upsert_launch_group : Z -> Z -> Z -> Z -> pyfloat -> bool -> St -> St * result Z;
  write_suggestion : SuggestionIn.t -> St -> St * result Z;
  update_issue_type : Z -> Z -> string -> St -> St * result unit;
  add_members : Z -> Z -> list (Z * pyfloat * string) -> option Z -> St -> St * result unit;
  enqueue : string -> Z -> Z -> payload -> St -> St * result unit
}.

(** The engine's collaborators and knobs. *)
Module Engine.
Record t (St : Type) := mk {
  seed_match : option (list string -> string -> option SeedMode.t);  (* the seed catalogue *)
  predictor : option (St -> list (string * pyfloat) -> Z -> option GbmDecision.t);
  extractor_features : option (St -> Z -> Z -> list Z -> option (string * string));
  sidecar_enabled : bool;
  coldstart_enabled : bool;          (* the role's own flag *)
  judge_tau : pyfloat;
  auto_min_prob : pyfloat;
  burst_si_share : pyfloat;
  time_decay : pyfloat;
  early_item_analysis : bool;
  early_label_policy : string;
  early_gbm_pb_min : pyfloat;
  model_tag : string
}.
Arguments seed_match {St}. Arguments predictor {St}. Arguments extractor_features {St}.
Arguments sidecar_enabled {St}. Arguments coldstart_enabled {St}. Arguments judge_tau {St}. Arguments auto_min_prob {St}.
Arguments burst_si_share {St}. Arguments time_decay {St}. Arguments early_item_analysis {St}.
Arguments early_label_policy {St}. Arguments early_gbm_pb_min {St}. Arguments model_tag {St}.
End Engine.

(** ** Pure helpers *)

Definition HTTP_terms (codes : list string) : list string := (fun c => "HTTP_" +:+ c) <$> codes.

Definition opt_hash (h : Z) : option Z := if h =? 0 then None else Some h.

Definition identity_of_stored (s : StoredSignature.t) : QueryIdentity.t :=
  QueryIdentity.mk (StoredSignature.exception_fp s) (StoredSignature.error_hash s)
    (StoredSignature.template_ids s) (StoredSignature.top_frames s) (StoredSignature.status_codes s)
    (StoredSignature.msg_text s) (split_ws (StoredSignature.exc_text s)).

Definition identity_of_signature (s : SignatureResult.t) : QueryIdentity.t :=
  QueryIdentity.mk (SignatureResult.exception_fp s) (SignatureResult.error_hash s)
    (SignatureResult.template_ids s) (SignatureResult.frames s) (SignatureResult.status_codes s)
    (SignatureResult.msg_text s) (SignatureResult.exc_classes s).

Definition signature_in (project : Z) (rep : analysis) : SignatureIn.t :=
  let sig := ItemAnalysis.signature rep in
  SignatureIn.mk project (ItemAnalysis.item_id rep)
    (StoredSignature.mk (SignatureResult.exception_fp sig) (SignatureResult.error_hash sig)
       (SignatureResult.frames sig) (SignatureResult.template_ids sig)
       (str_join " " (SignatureResult.exc_classes sig)) (SignatureResult.msg_text sig)
       (SignatureResult.status_codes sig))
    (str_join " " (SignatureResult.frames sig)) "" (ItemAnalysis.emb rep) (ItemAnalysis.emb_model_ver rep).

Definition _query_from_identity (i : QueryIdentity.t) (rep : analysis) (launch_id launch_number : Z)
    : QuerySignature.t :=
  QuerySignature.mk (QueryIdentity.exception_fp i) (QueryIdentity.error_hash i) (QueryIdentity.top_frames i)
    (QueryIdentity.template_ids i)
    (QueryIdentity.exception_names i ++ take MSG_SALIENT_TERMS (split_ws (QueryIdentity.msg_text i))
       ++ HTTP_terms (QueryIdentity.status_codes i))
    (QueryIdentity.exception_names i) (ItemAnalysis.emb rep) (ItemAnalysis.emb_model_ver rep)
    (opt_hash (ItemAnalysis.test_case_hash rep)) launch_id launch_number.

(** Whether a route keeps a candidate. *)
Definition keeps (route : string) (mode : option string) (q : ScopeQuery.t) (sc : ScopeCandidate.t) : bool :=
  if bool_decide (route ∈ ANALYZE_SCOPED_ROUTES) then in_analyze_scope mode q sc else passes_base sc.

Definition row_scope (row : HashRow.t) : ScopeCandidate.t :=
  ScopeCandidate.mk (HashRow.launch_id row) (default "" (HashRow.launch_name row))
    (Some (default "" (HashRow.issue_type_group row))) true.

Definition match_of_row (row : HashRow.t) : HashMatch.t :=
  {| HashMatch.item_id := HashRow.item_id row; HashMatch.issue_type := HashRow.issue_type row;
     HashMatch.issue_type_group := default "" (HashRow.issue_type_group row);
     HashMatch.label_source := HashRow.label_source row; HashMatch.label_ts := HashRow.label_ts row;
     HashMatch.confidence := src_weight (HashRow.label_source row);
     HashMatch.is_auto_analyzed := HashRow.is_auto_analyzed row;
     HashMatch.exception_fp := default 0 (HashRow.exception_fp row);
     HashMatch.status_codes := HashRow.status_codes row;
     HashMatch.msg_tokens := list_to_set (split_ws (default "" (HashRow.msg_text row))) |}.

Definition scoped_hash_matches (route : string) (mode : option string) (q : ScopeQuery.t) (self : Z)
    (rows : list HashRow.t) : list HashMatch.t :=
  match_of_row <$> List.filter (fun row => negb (HashRow.item_id row =? self)
                                           && keeps route mode q (row_scope row)) rows.

Definition cand_group (c : Candidate.t) : string :=
  sfilter isalpha (stake 2 (default "" (Candidate.issue_type c))).

Definition cand_scope (names : list (Z * string)) (c : Candidate.t) : ScopeCandidate.t :=
  ScopeCandidate.mk (default 0 (Candidate.launch_id c))
    (dgetd (default 0 (Candidate.item_id c)) "" names) (Some (cand_group c))
    (bool_decide (is_Some (Candidate.issue_type c))).

Definition route_boost (route : string) (mode : option string) (q : ScopeQuery.t) (sc : ScopeCandidate.t) : pyfloat :=
  if bool_decide (route ∈ ANALYZE_SCOPED_ROUTES) then analyze_boost mode q sc LAUNCH_BOOST
  else suggest_boost mode q sc LAUNCH_BOOST.

(** [scored.sort(key=..., reverse=True)] on pairs of a number and a candidate. *)
Definition scored_lt (a b : pyfloat * Candidate.t) : bool :=
  if (a.1 =? b.1)%F then default 0 (Candidate.item_id a.2) <? default 0 (Candidate.item_id b.2)
  else (a.1 <? b.1)%F.
Definition scored_before (a b : pyfloat * Candidate.t) : bool := negb (scored_lt a b).

Definition rank_stage_c (route : string) (mode : option string) (q : ScopeQuery.t)
    (names : list (Z * string)) (cands : list Candidate.t) : list Candidate.t :=
  let items := List.filter (fun c => bool_decide (is_Some (Candidate.item_id c))) cands in
  let scoped := List.filter (fun c => keeps route mode q (cand_scope names c)) items in
  let scored := (fun c => ((Candidate.rrf_score c * route_boost route mode q (cand_scope names c))%F, c)) <$> scoped in
  slice_to TOP_K (snd <$> pysorted scored_before scored).

(** [_age_days] of the engine. *)
Definition stage_c_age_days (ts : option Z) (now : Z) : pyfloat :=
  match ts with
  | None => of_Z 3650
  | Some t => pymax2 f0 (fquot (total_seconds (now - t)) (of_Z 86400))
  end.

Definition with_mode (d : DecisionResult.t) (m : option Z) : DecisionResult.t :=
  {| DecisionResult.label := DecisionResult.label d; DecisionResult.issue_type := DecisionResult.issue_type d;
     DecisionResult.confidence := DecisionResult.confidence d; DecisionResult.method := DecisionResult.method d;
     DecisionResult.action := DecisionResult.action d; DecisionResult.abstain_reason := DecisionResult.abstain_reason d;
     DecisionResult.relevant_item_id := DecisionResult.relevant_item_id d; DecisionResult.matched_mode_id := m;
     DecisionResult.features := DecisionResult.features d; DecisionResult.probs := DecisionResult.probs d;
     DecisionResult.model_version := DecisionResult.model_version d; DecisionResult.stage_c := DecisionResult.stage_c d;
     DecisionResult.relevant_label_source := DecisionResult.relevant_label_source d;
     DecisionResult.relevant_is_auto_analyzed := DecisionResult.relevant_is_auto_analyzed d;
     DecisionResult.calibrated_max_prob := DecisionResult.calibrated_max_prob d |}.

(** The match to record and the decision with the mode stamped on it. *)
Definition _resolve_mode_match (d : DecisionResult.t) (kb_candidates : list Candidate.t)
    (seed_mode_id : option Z) (seed : option SeedSignal.t) : DecisionResult.t * option ModeMatch.t :=
  match DecisionResult.matched_mode_id d with
  | Some m =>
      (d, Some match List.find (fun c => bool_decide (Candidate.mode_id c = Some m)) kb_candidates with
               | Some c => ModeMatch.mk m (KBMatch.score_mode (score_kb_candidate c))
                             (str_or (Candidate.matched_by c) "vector")
               | None => ModeMatch.mk m f1 "vector"
               end)
  | None =>
      match seed_mode_id with
      | Some m => (with_mode d (Some m),
                   Some (ModeMatch.mk m (match seed with Some s => SeedSignal.confidence s | None => f1 end) "lexical"))
      | None =>
          match best_kb_match kb_candidates with
          | Some (kbm, cand) =>
              match Candidate.mode_id cand with
              | Some m => if (KB_CANDIDATE_SCORE <=? KBMatch.score_mode kbm)%F
                          then (with_mode d (Some m),
                                Some (ModeMatch.mk m (KBMatch.score_mode kbm) (str_or (Candidate.matched_by cand) "vector")))
                          else (d, None)
              | None => (d, None)
              end
          | None => (d, None)
          end
      end
  end.

(** ** Routes *)

Section Routes.
Context {St : Type} `{!Stores St, !Libm} {vec : Type} `{!Numpy vec} (eng : Engine.t St).
Abbreviation M := (Emit.M St event).
Abbreviation group := (LaunchGroup.t vec).

(** Best effort: an exception is logged and forgotten. *)
Definition quietly (m : M unit) : M unit := _ ← Emit.attempt m; mret ().

Definition _persist_recomputed_signature (project : Z) (rep : analysis) : M unit :=
  if decide (SignatureResult.signature_text (ItemAnalysis.signature rep) = "") then mret ()
  else quietly (call (EPersistSignature (signature_in project rep)) (upsert_signature (signature_in project rep))).

Definition _resolve_identity (project : Z) (rep : analysis) : M QueryIdentity.t :=
  stored ← read (fun s => get_signature s project (ItemAnalysis.item_id rep));
  match stored with
  | Some s => mret (identity_of_stored s)
  | None =>
      _ ← _persist_recomputed_signature project rep;
      mret (identity_of_signature (ItemAnalysis.signature rep))
  end.

(** [match_and_seed], and the pure match when materializing the copy raises. *)
Definition _seed_signal (project : Z) (sig : SignatureResult.t) : M (option SeedSignal.t * option Z) :=
  match Engine.seed_match eng with
  | None => mret (None, None)
  | Some matcher =>
      match matcher (SignatureResult.exc_classes sig) (SignatureResult.msg_text sig) with
      | None => mret (None, None)
      | Some mode =>
          let signal := SeedSignal.mk (SeedMode.prior_label mode) (SeedMode.prior_confidence mode) in
          copy ← Emit.attempt (call (ESeedCopy project (SeedMode.mode_key mode)) (ensure_seed_mode project mode));
          mret (Some signal, copy)
      end
  end.

Definition _stage_c (project : Z) (q : QuerySignature.t) (scope_q : ScopeQuery.t) (mode : option string)
    (self_item_id : Z) (route : string) : M (list Candidate.t * list pyfloat) :=
  cands ← read (fun s => find_candidates s project q STAGE_C_RETRIEVE_K [self_item_id]);
  names ← read (fun s => item_launch_names s project (omap Candidate.item_id cands));
  let ordered := rank_stage_c route mode scope_q names cands in
  t ← read now;
  mret (ordered, (fun c => stage_c_age_days (Candidate.label_ts c) t) <$> ordered).

Definition _feature_ctx (s : St) (rep : analysis) (g : group) (total_failures : Z) : FeatureContext.t :=
  let sig := ItemAnalysis.signature rep in
  let tch := opt_hash (ItemAnalysis.test_case_hash rep) in
  let llm := match Engine.extractor_features eng with
             | Some f => f s (ItemAnalysis.project rep) (SignatureResult.exception_fp sig) (SignatureResult.template_ids sig)
             | None => None
             end in
  let stats := tch ≫= get_test_history s (ItemAnalysis.project rep) in
  let first_seen := tch ≫= test_case_first_seen s (ItemAnalysis.project rep) in
  {| FeatureContext.candidates := []; FeatureContext.candidate_ages_days := [];
     FeatureContext.kb_best := None; FeatureContext.seed := None;
     FeatureContext.flakiness_score := stats ≫= TestHistory.flakiness_score;
     FeatureContext.window_runs := default 0 (TestHistory.window_runs <$> stats);
     FeatureContext.window_failures := default 0 (TestHistory.window_failures <$> stats);
     FeatureContext.window_flips := default 0 (TestHistory.window_flips <$> stats);
     FeatureContext.test_age_days := (fun t => stage_c_age_days (Some t) (now s)) <$> first_seen;
     FeatureContext.group_size := Z.of_nat (length (LaunchGroup.members g));
     FeatureContext.launch_failures := total_failures;
     FeatureContext.launch_items := ItemAnalysis.launch_items rep;
     FeatureContext.si_prior := LaunchGroup.si_prior g;
     FeatureContext.item_log_count := ItemAnalysis.log_count rep;
     FeatureContext.has_stacktrace := SignatureResult.has_stacktrace sig;
     FeatureContext.is_assertion := SignatureResult.is_assertion sig;
     FeatureContext.is_merged_small_logs := SignatureResult.is_merged_small_logs sig;
     FeatureContext.exception_count := Z.of_nat (length (SignatureResult.exc_classes sig));
     FeatureContext.llm_failing_layer := default LLM_UNKNOWN (fst <$> llm);
     FeatureContext.llm_error_class := default LLM_UNKNOWN (snd <$> llm);
     FeatureContext.query_status_codes := []; FeatureContext.query_msg_tokens := ∅;
     FeatureContext.top1_status_codes := []; FeatureContext.top1_msg_tokens := ∅;
     FeatureContext.has_hash_top1 := false; FeatureContext.hash_gate_blocked := false;
     FeatureContext.time_decay_per_day := Engine.time_decay eng |}.

Definition _decide (project : Z) (scope_q : ScopeQuery.t) (mode : option string) (rep : analysis) (g : group)
    (total_failures : Z) (route : string) : M (DecisionResult.t * option ModeMatch.t) :=
  let self := ItemAnalysis.item_id rep in
  ident ← _resolve_identity project rep;
  let q := _query_from_identity ident rep (ItemAnalysis.launch_id rep) (ItemAnalysis.launch_number rep) in
  rows ← read (fun s => if QueryIdentity.exception_fp ident =? 0 then []
                        else find_hash_matches s project (QueryIdentity.error_hash ident));
  let hash_matches := scoped_hash_matches route mode scope_q self rows in
  kb_candidates ← read (fun s => match_modes s project q);
  '(seed, seed_mode_id) ← _seed_signal project (ItemAnalysis.signature rep);
  '(stage_c, ages) ← _stage_c project q scope_q mode self route;
  ctx ← read (fun s => _feature_ctx s rep g total_failures);
  predict ← read (fun s => (fun p features => p s features project) <$> Engine.predictor eng);
  t ← read now;
  let inputs := {|
    DecisionInputs.exception_fp := QueryIdentity.exception_fp ident;
    DecisionInputs.hash_matches := hash_matches;
    DecisionInputs.query_status_codes := QueryIdentity.status_codes ident;
    DecisionInputs.query_msg_tokens := list_to_set (split_ws (QueryIdentity.msg_text ident));
    DecisionInputs.kb_candidates := kb_candidates;
    DecisionInputs.seed := seed;
    DecisionInputs.stage_c := stage_c;
    DecisionInputs.stage_c_ages_days := ages;
    DecisionInputs.feature_ctx := Some ctx;
    DecisionInputs.gbm_predict := predict |} in
  let '(d, mm) := _resolve_mode_match (decide_inputs inputs t (Engine.auto_min_prob eng)) kb_candidates seed_mode_id seed in
  _ ← tell (EDecide self inputs d);
  mret (d, mm).

Definition _model_ver (d : DecisionResult.t) : string :=
  let tail := ";fs=" +:+ str_of_Z FEATURE_SCHEMA_VER +:+ ";emb=" +:+ Engine.model_tag eng in
  if decide (DecisionResult.method d = METHOD_GBM)
  then str_or (DecisionResult.model_version d) "gbm" +:+ tail
  else "rule_cold" +:+ tail.

Definition _stage_a_explanation (d : DecisionResult.t) : option string :=
  if decide (DecisionResult.method d = METHOD_HASH) then
    (fun rel =>
       "Inherited from item " +:+ str_of_Z rel +:+ " (" +:+
       (if human_source (DecisionResult.relevant_label_source d) then "human-labeled " else "") +:+
       DecisionResult.issue_type d +:+ ", same error_hash, discriminant gate passed).")
      <$> DecisionResult.relevant_item_id d
  else None.

Definition suggestion_in (project item_id launch_id : Z) (group_id : option Z) (d : DecisionResult.t)
    (source : option string) : SuggestionIn.t :=
  SuggestionIn.mk project item_id launch_id group_id (DecisionResult.issue_type d) (DecisionResult.confidence d)
    (DecisionResult.matched_mode_id d) (DecisionResult.relevant_item_id d) (DecisionResult.features d)
    (_model_ver d) (_stage_a_explanation d) (DecisionResult.method d) (DecisionResult.abstain_reason d) source.

Definition _write_suggestion (project item_id launch_id : Z) (group_id : option Z) (d : DecisionResult.t)
    (source : option string) : M Z :=
  let s := suggestion_in project item_id launch_id group_id d source in
  call (ESuggestion s) (write_suggestion s).

Definition _record_membership (project : Z) (item_ids : list Z) (mm : option ModeMatch.t) (rep : analysis) : M unit :=
  match mm with
  | None => mret ()
  | Some m =>
      match item_ids with
      | [] => mret ()
      | _ =>
          let emb_ver := match ItemAnalysis.emb rep with Some _ => Some (ItemAnalysis.emb_model_ver rep) | None => None end in
          let members := (fun i => (i, ModeMatch.score m, ModeMatch.matched_by m)) <$> item_ids in
          quietly (call (EMembers project (ModeMatch.mode_id m) members emb_ver)
                     (add_members project (ModeMatch.mode_id m) members emb_ver))
      end
  end.

(** [list(decision.stage_c)[:3]] as references; the judge's also need an item id. *)
Definition ref_of (need_id : bool) (c : Candidate.t) : option cand_ref :=
  match Candidate.issue_type c with
  | None => None
  | Some it => if need_id && bool_decide (Candidate.item_id c = None) then None
               else Some (mk_ref (Candidate.item_id c) it (py_round 3 (cap1 (or_zero (Candidate.cosine c)))))
  end.
Definition _abstain_candidates (d : DecisionResult.t) : list cand_ref :=
  omap (ref_of false) (take 3 (DecisionResult.stage_c d)).
Definition _judge_candidates (d : DecisionResult.t) : list cand_ref :=
  omap (ref_of true) (take 3 (DecisionResult.stage_c d)).

Definition job (role : string) (project item : Z) (p : payload) : M unit :=
  call (EEnqueue role project item p) (enqueue role project item p).

Definition _enqueue_llm (project item_id launch_id : Z) (d : DecisionResult.t) (candidates : option (list cand_ref))
    (suggestion_id : option Z) : M unit :=
  if negb (Engine.sidecar_enabled eng) then mret ()
  else quietly (
    _ ← job "extractor" project item_id PEmpty;
    if decide (DecisionResult.label d = "ti") then
      _ ← match suggestion_id with
          | Some sid => job "abstain_explainer" project item_id
                          (PAbstain sid (DecisionResult.abstain_reason d) (DecisionResult.confidence d) (_abstain_candidates d))
          | None => mret ()
          end;
      job "coldstart" project item_id (PColdstart launch_id)
    else if decide (DecisionResult.method d = METHOD_HASH) then mret ()
    else if (TAU_SUGGEST <=? DecisionResult.confidence d)%F then
      _ ← job "explainer" project item_id PEmpty;
      match candidates with
      | Some refs => if (DecisionResult.confidence d <? Engine.judge_tau eng)%F && (2 <=? Z.of_nat (length refs))
                     then job "judge" project item_id (PJudge refs) else mret ()
      | None => mret ()
      end
    else mret ()).

(** ** Grouping a launch *)

Definition stored_of (project : Z) (s : St) (a : analysis) : option StoredSignature.t :=
  get_signature s project (ItemAnalysis.item_id a).

Definition group_item (project : Z) (s : St) (a : analysis) : GroupItem.t :=
  let sig := ItemAnalysis.signature a in
  {| GroupItem.item_id := ItemAnalysis.item_id a;
     GroupItem.exception_fp := SignatureResult.exception_fp sig;
     GroupItem.error_hash := match stored_of project s a with
                             | Some st => StoredSignature.error_hash st
                             | None => SignatureResult.error_hash sig
                             end;
     GroupItem.emb := ItemAnalysis.emb a;
     GroupItem.has_stacktrace := SignatureResult.has_stacktrace sig;
     GroupItem.log_count := ItemAnalysis.log_count a;
     GroupItem.template_ids := SignatureResult.template_ids sig |}.

Definition _group (project launch_id : Z) (analyses : list analysis) (s : St) : list group :=
  group_launch (group_item project s <$> analyses) THETA_GROUP (Engine.burst_si_share eng) BURST_N
    (Some (fun h => negb (error_hash_seen s project h launch_id))).

(** The full discriminant of an item: hash, status codes, message tokens. *)
Definition discriminant : Type := Z * gset string * gset string.
Definition discriminant_of (project : Z) (s : St) (a : analysis) : discriminant :=
  match stored_of project s a with
  | Some st => (StoredSignature.error_hash st, list_to_set (StoredSignature.status_codes st),
                list_to_set (split_ws (StoredSignature.msg_text st)))
  | None => let sig := ItemAnalysis.signature a in
            (SignatureResult.error_hash sig, list_to_set (SignatureResult.status_codes sig),
             list_to_set (split_ws (SignatureResult.msg_text sig)))
  end.

(** [{a.item.testItemId: f(a) for a in analyses}]. *)
Definition by_item {B} (f : analysis -> B) (analyses : list analysis) : list (Z * B) :=
  fold_left (fun d a => dset (ItemAnalysis.item_id a) (f a) d) analyses [].

Definition _canonical_discriminants (project : Z) (analyses : list analysis) (s : St) : list (Z * discriminant) :=
  by_item (discriminant_of project s) analyses.

Definition _scope_query (l : Launch.t) : ScopeQuery.t :=
  ScopeQuery.mk (Launch.project l) (Launch.launchId l) (Launch.launchName l) (Launch.previousLaunchId l).

Definition dindex {B} (i : Z) (d : list (Z * B)) : M B :=
  of_result (match dget i d with Some x => Ok x | None => Raise (KeyError "item") end).

(** The decision is applied: the automatic band, and not an abstention. *)
Definition applies_auto (d : DecisionResult.t) : bool :=
  bool_decide (DecisionResult.action d = ACTION_AUTO) && negb (bool_decide (DecisionResult.label d = "ti")).

Definition apply_label (project item : Z) (d : DecisionResult.t) : M AnalysisResult.t :=
  _ ← call (EIssueType project item (DecisionResult.issue_type d)) (update_issue_type project item (DecisionResult.issue_type d));
  mret (AnalysisResult.mk item (DecisionResult.issue_type d) (default 0 (DecisionResult.relevant_item_id d))).

(** One member: whether it keeps the group's decision, and its reply row. *)
Definition analyze_member (l : Launch.t) (by_id : list (Z * analysis)) (disc : list (Z * discriminant))
    (g : group) (rep : analysis) (group_id : Z) (d : DecisionResult.t) (mm : option ModeMatch.t)
    (total_failures : Z) (member : GroupItem.t) : M (option Z * option AnalysisResult.t) :=
  let project := Launch.project l in
  let item := GroupItem.item_id member in
  '(md, inherits) ←
    (if decide (dget item disc = dget (ItemAnalysis.item_id rep) disc) then mret (d, Some item)
     else
       m_ana ← dindex item by_id;
       '(md, m_mode) ← _decide project (_scope_query l) (Launch.analyzerMode l) m_ana g total_failures "analyze";
       _ ← _record_membership project [item] m_mode m_ana;
       mret (md, None));
  sid ← _write_suggestion project item (Launch.launchId l) (Some group_id) md None;
  _ ← _enqueue_llm project item (Launch.launchId l) md None (Some sid);
  if applies_auto md then r ← apply_label project item md; mret (inherits, Some r)
  else mret (inherits, None).

Definition analyze_group (l : Launch.t) (by_id : list (Z * analysis)) (disc : list (Z * discriminant))
    (total_failures : Z) (g : group) : M (list AnalysisResult.t) :=
  let project := Launch.project l in
  representative ← of_result (match LaunchGroup.representative g with
                              | Some r => Ok r | None => Raise (OtherError "AssertionError") end);
  rep ← dindex (GroupItem.item_id representative) by_id;
  '(d, mm) ← _decide project (_scope_query l) (Launch.analyzerMode l) rep g total_failures "analyze";
  let size := Z.of_nat (length (LaunchGroup.members g)) in
  let dominant := (f0 <? LaunchGroup.si_prior g)%F in
  group_id ← call (EGroup project (Launch.launchId l) (fingerprint g) size (LaunchGroup.si_prior g) dominant)
               (upsert_launch_group project (Launch.launchId l) (fingerprint g) size (LaunchGroup.si_prior g) dominant);
  rows ← forM (analyze_member l by_id disc g rep group_id d mm total_failures) (LaunchGroup.members g);
  _ ← _record_membership project (omap fst rows) mm rep;
  mret (omap snd rows).

Definition _analyze_launch (l : Launch.t) : M (list AnalysisResult.t) :=
  let analyses := Launch.analyses l in
  groups ← read (_group (Launch.project l) (Launch.launchId l) analyses);
  disc ← read (_canonical_discriminants (Launch.project l) analyses);
  rows ← forM (analyze_group l (by_item id analyses) disc (Z.of_nat (length analyses))) groups;
  mret (concat rows).

Definition analyze (launches : list Launch.t) : M (list AnalysisResult.t) :=
  rows ← forM _analyze_launch launches; mret (concat rows).

(** ** The early per-item pass *)

Definition _singleton_group (rep : analysis) : group :=
  let sig := ItemAnalysis.signature rep in
  let gi := {| GroupItem.item_id := ItemAnalysis.item_id rep;
               GroupItem.exception_fp := SignatureResult.exception_fp sig;
               GroupItem.error_hash := SignatureResult.error_hash sig;
               GroupItem.emb := ItemAnalysis.emb rep;
               GroupItem.has_stacktrace := SignatureResult.has_stacktrace sig;
               GroupItem.log_count := ItemAnalysis.log_count rep;
               GroupItem.template_ids := [] |} in
  LaunchGroup.mk [gi] None ∅ (Some gi) f0.

Definition early_applies (d : DecisionResult.t) : bool :=
  let policy := Engine.early_label_policy eng in
  let allows_deterministic := bool_decide (policy ∈ ["kb_inherit_only"; "kb_inherit_and_pb"]) in
  let pb_gbm_applies :=
    bool_decide (policy = "kb_inherit_and_pb") && bool_decide (DecisionResult.method d = METHOD_GBM)
    && bool_decide (DecisionResult.label d = "pb") && (Engine.early_gbm_pb_min eng <=? DecisionResult.confidence d)%F in
  bool_decide (DecisionResult.action d = ACTION_AUTO)
  && negb (bool_decide (DecisionResult.label d ∈ ["ti"; "si"]))
  && (bool_decide (DecisionResult.method d ∈ [METHOD_HASH; METHOD_KB]) && allows_deterministic || pb_gbm_applies).

Definition early_item (l : Launch.t) (rep : analysis) : M (option AnalysisResult.t) :=
  let project := Launch.project l in
  let item := ItemAnalysis.item_id rep in
  if decide (SignatureResult.signature_text (ItemAnalysis.signature rep) = "") then mret None
  else
    '(d, mm) ← _decide project (_scope_query l) (Launch.analyzerMode l) rep (_singleton_group rep) 1 "analyze_item_early";
    _ ← _record_membership project [item] mm rep;
    sid ← _write_suggestion project item (Launch.launchId l) None d (Some "early");
    _ ← _enqueue_llm project item (Launch.launchId l) d None (Some sid);
    if early_applies d then r ← apply_label project item d; mret (Some r) else mret None.

Definition analyze_item_early (launches : list Launch.t) : M (list AnalysisResult.t) :=
  if negb (Engine.early_item_analysis eng) then mret []
  else
    rows ← forM (fun l => rs ← forM (early_item l) (Launch.analyses l); mret (omap id rs)) launches;
    mret (concat rows).

(** ** Suggest *)

(** [prev] is the previous launch of the request, [elapsed] the route's timer. *)
Definition suggest (k : Knobs.t) (info : item_info) (mode : option string) (prev : Z) (rep : analysis)
    (elapsed : pyfloat) : M (list sug_result) :=
  let project := TestItemInfo.project info in
  let item := TestItemInfo.testItemId info in
  let merged := SignatureResult.is_merged_small_logs (ItemAnalysis.signature rep) in
  if decide (SignatureResult.signature_text (ItemAnalysis.signature rep) = "") then mret []
  else
    '(d, mm) ← _decide project (ScopeQuery.mk project (TestItemInfo.launchId info) (TestItemInfo.launchName info) prev)
                 mode rep (_singleton_group rep) 1 "suggest";
    _ ← _record_membership project [item] mm rep;
    sid ← _write_suggestion project item (TestItemInfo.launchId info) None d None;
    verdict ← read (fun s => if Engine.sidecar_enabled eng then latest_judge s project item else None);
    provisional ← read (fun s => latest_rubric_provisional s project item);
    let out := _render_suggestions k info merged d elapsed verdict in
    let out := _maybe_rubric_fallback (Engine.sidecar_enabled eng && Engine.coldstart_enabled eng) provisional
                 out info merged elapsed in
    _ ← _enqueue_llm project item (TestItemInfo.launchId info) d (Some (_judge_candidates d)) (Some sid);
    mret out.
End Routes.

(** ** Cluster ids *)

Definition INT53_MASK : Z := Z.shiftl 1 53 - 1.

Section Cluster.
Context `{!XXHash}.

Definition cluster_key (project launch_id error_hash : Z) (for_update : bool) : string :=
  if for_update then str_of_Z project +:+ ":" +:+ str_of_Z launch_id +:+ ":" +:+ str_of_Z error_hash
  else str_of_Z project +:+ ":" +:+ str_of_Z error_hash.

Definition _cluster_id (project launch_id error_hash : Z) (for_update : bool) : Z :=
  Z.land (xxh3_64_unsigned (cluster_key project launch_id error_hash for_update)) INT53_MASK.

(** The newline character. *)
Definition LF : ascii := "010".
Definition LFs : string := String LF EmptyString.
Definition CLUSTER_MSG_LINES : nat := 5.

Definition _cluster_message (rep : analysis) : string :=
  let lines := List.filter (fun ln => negb (bool_decide (str_strip ln = "")))
                 (split_char LF (ItemAnalysis.clean_msg rep)) in
  str_join LFs (take CLUSTER_MSG_LINES lines).

Context {St : Type} `{!Stores St} {vec : Type} `{!Numpy vec, !Libm} (eng : Engine.t St).

Definition cluster_of (project launch_id : Z) (for_update : bool) (by_id : list (Z * analysis))
    (g : LaunchGroup.t vec) : M St event ClusterInfo.t :=
  representative ← of_result (match LaunchGroup.representative g with
                              | Some r => Ok r | None => Raise (OtherError "AssertionError") end);
  rep ← dindex (GroupItem.item_id representative) by_id;
  members ← forM (fun m => a ← dindex (GroupItem.item_id m) by_id; mret (GroupItem.item_id m, ItemAnalysis.log_ids a))
              (LaunchGroup.members g);
  mret (ClusterInfo.mk (_cluster_id project launch_id (GroupItem.error_hash representative) for_update)
          (_cluster_message rep) (concat members.*2) members.*1).

Definition cluster (project launch_id : Z) (for_update : bool) (analyses : list analysis)
    : M St event (list ClusterInfo.t) :=
  groups ← read (_group eng project launch_id analyses);
  forM (cluster_of project launch_id for_update (by_item id analyses)) groups.
End Cluster.

(** ** Where the engine writes *)

(** A preorder on states that every write about the projects stays in. *)
Class Frame {St : Type} `{!Stores St} (ps : list Z) (R : St -> St -> Prop) := {
  frame_preorder :: PreOrder R;
  frame_signature : forall s x, SignatureIn.project_id s ∈ ps -> R x (upsert_signature s x).1;
  frame_seed : forall p m x, p ∈ ps -> R x (ensure_seed_mode p m x).1;
  frame_group : forall p launch fp n prior dom x, p ∈ ps -> R x (upsert_launch_group p launch fp n prior dom x).1;
  frame_suggestion : forall s x, SuggestionIn.project_id s ∈ ps -> R x (write_suggestion s x).1;
  frame_label : forall p i l x, p ∈ ps -> R x (update_issue_type p i l x).1;
  frame_members : forall p m ms ver x, p ∈ ps -> R x (add_members p m ms ver x).1;
  frame_job : forall role p i pl x, p ∈ ps -> R x (enqueue role p i pl x).1
}.

(** One write of the engine about a project, whether it succeeds or not. *)
Inductive writes {St : Type} `{!Stores St} (ps : list Z) : St -> St -> Prop :=
  | w_signature s x : SignatureIn.project_id s ∈ ps -> writes ps x (upsert_signature s x).1
  | w_seed p m x : p ∈ ps -> writes ps x (ensure_seed_mode p m x).1
  | w_group p launch fp n prior dom x : p ∈ ps -> writes ps x (upsert_launch_group p launch fp n prior dom x).1
  | w_suggestion s x : SuggestionIn.project_id s ∈ ps -> writes ps x (write_suggestion s x).1
  | w_label p i l x : p ∈ ps -> writes ps x (update_issue_type p i l x).1
  | w_members p m ms ver x : p ∈ ps -> writes ps x (add_members p m ms ver x).1
  | w_job role p i pl x : p ∈ ps -> writes ps x (enqueue role p i pl x).1.

(** The states such writes lead to: the least frame. *)
Definition reaches {St : Type} `{!Stores St} (ps : list Z) : St -> St -> Prop := rtc (writes ps).

#[export] Instance reaches_frame {St : Type} `{!Stores St} ps : Frame ps (reaches (St := St) ps).
Proof. split; [apply _|intros; by apply rtc_once; constructor..]. Qed.

Lemma reaches_least {St : Type} `{!Stores St} ps (R : St -> St -> Prop) `{!Frame ps R} s s' : reaches ps s s' -> R s s'.
Proof. induction 1 as [s|s s1 s2 Hw _ IH]; [reflexivity|]. etrans; [|exact IH]. by destruct Hw; apply Frame0. Qed.

(** Staying within reach of a state is a frame too. *)
#[export] Instance within_reach_frame {St : Type} `{!Stores St} ps (s0 : St) :
  Frame ps (keeping (reaches ps s0)).
Proof. split; [apply _|intros; intros Hreach; by eapply rtc_r; [exact Hreach|constructor]..]. Qed.

Section Framed.
Context {St : Type} `{!Stores St, !Libm} {vec : Type} `{!Numpy vec} (eng : Engine.t St).
Context (ps : list Z) (R : St -> St -> Prop) `{!Frame ps R}.
Implicit Types p : Z.

(** A call of a store is a write of the frame. *)
#[local] Ltac framed := apply moves_call; intros x;
  first [ by apply frame_signature | by apply frame_seed | by apply frame_group | by apply frame_suggestion
        | by apply frame_label | by apply frame_members | by apply frame_job ].
#[local] Hint Extern 2 (moves _ (call _ _)) => framed : moving.

Lemma moves_quietly (m : M St event unit) : moves R m -> moves R (quietly m).
Proof. intros Hm. unfold quietly. solve_moves. Qed.
#[local] Hint Resolve moves_quietly : moving.

Lemma moves_identity p rep : p ∈ ps -> moves R (_resolve_identity p rep).
Proof. intros Hp. unfold _resolve_identity, _persist_recomputed_signature. solve_moves. Qed.
Lemma moves_seed p sig : p ∈ ps -> moves R (_seed_signal eng p sig).
Proof. intros Hp. unfold _seed_signal. solve_moves. Qed.
Lemma moves_stage_c p q sq mode self route : moves R (_stage_c p q sq mode self route).
Proof. unfold _stage_c. solve_moves. Qed.
#[local] Hint Resolve moves_identity moves_seed moves_stage_c : moving.

Lemma moves_decide p sq mode rep (g : LaunchGroup.t vec) total route : p ∈ ps ->
  moves R (_decide eng p sq mode rep g total route).
Proof. intros Hp. unfold _decide. solve_moves. Qed.
Lemma moves_suggestion p i launch g d source : p ∈ ps -> moves R (_write_suggestion eng p i launch g d source).
Proof. intros Hp. unfold _write_suggestion. solve_moves. Qed.
Lemma moves_membership p items mm rep : p ∈ ps -> moves R (_record_membership p items mm rep).
Proof. intros Hp. unfold _record_membership. solve_moves. Qed.
Lemma moves_job role p i pl : p ∈ ps -> moves R (job role p i pl).
Proof. intros Hp. unfold job. solve_moves. Qed.
#[local] Hint Resolve moves_decide moves_suggestion moves_membership moves_job : moving.

Lemma moves_enqueue p i launch d cands sid : p ∈ ps -> moves R (_enqueue_llm eng p i launch d cands sid).
Proof. intros Hp. unfold _enqueue_llm. solve_moves. Qed.
Lemma moves_label p i d : p ∈ ps -> moves R (apply_label p i d).
Proof. intros Hp. unfold apply_label. solve_moves. Qed.
Lemma moves_dindex {B} i (d : list (Z * B)) : moves R (dindex i d).
Proof. unfold dindex. solve_moves. Qed.
#[local] Hint Resolve moves_enqueue moves_label moves_dindex : moving.

Lemma moves_member l by_id disc (g : LaunchGroup.t vec) rep gid d mm total member : Launch.project l ∈ ps ->
  moves R (analyze_member eng l by_id disc g rep gid d mm total member).
Proof. intros Hp. unfold analyze_member. solve_moves. Qed.
#[local] Hint Resolve moves_member : moving.
Lemma moves_group l by_id disc total (g : LaunchGroup.t vec) : Launch.project l ∈ ps ->
  moves R (analyze_group eng l by_id disc total g).
Proof. intros Hp. unfold analyze_group. solve_moves. Qed.
#[local] Hint Resolve moves_group : moving.
Lemma moves_launch l : Launch.project l ∈ ps -> moves R (_analyze_launch (vec := vec) eng l).
Proof. intros Hp. unfold _analyze_launch. solve_moves. Qed.
Lemma moves_early l rep : Launch.project l ∈ ps -> moves R (early_item (vec := vec) eng l rep).
Proof. intros Hp. unfold early_item. solve_moves. Qed.
#[local] Hint Resolve moves_launch moves_early : moving.

(** The routes of the engine, about the projects of the request. *)
Lemma moves_analyze launches : Launch.project <$> launches ⊆ ps -> moves R (analyze (vec := vec) eng launches).
Proof.
  intros Hp. unfold analyze. apply moves_bind; [apply _| |intros; apply moves_ret, _].
  apply moves_forM; [apply _|]. intros l Hl. apply moves_launch, Hp, list_elem_of_fmap. by exists l.
Qed.
End Framed.

(** ** What the calls say *)

Definition sugg_id (e : event) : option Z :=
  match e with ESuggestion s => Some (SuggestionIn.item_id s) | _ => None end.
Definition label_of (e : event) : option (Z * string) :=
  match e with EIssueType _ i t => Some (i, t) | _ => None end.
Definition reply_label (a : AnalysisResult.t) : Z * string := (AnalysisResult.testItem a, AnalysisResult.issueType a).

(** Calls that neither store a suggestion nor apply a label. *)
Definition background (e : event) : Prop := sugg_id e = None /\ label_of e = None.

(** The calls that record groups, memberships and signatures. *)
Definition auxiliary (e : event) : Prop :=
  match e with EDecide _ _ _ | ESuggestion _ | EIssueType _ _ _ | EEnqueue _ _ _ _ => False | _ => True end.

Lemma auxiliary_background tr : Forall auxiliary tr -> Forall background tr.
Proof. intros Ht. eapply Forall_impl; [exact Ht|]. by intros []. Qed.

Lemma background_suggs tr : Forall background tr -> omap sugg_id tr = [] /\ omap label_of tr = [].
Proof. intros Ht. split; apply omap_none; (eapply Forall_impl; [exact Ht|]); by intros e []. Qed.

(** *** The evidence of a decision *)

Section Evidence.
Context {St : Type} `{!Stores St}.

(** What the stores promise of the items they offer as evidence: they are labelled
    items of the project, and none the caller left out. *)
Class EvidenceLaws (labelled_item : St -> Z -> Z -> Prop) : Prop := {
  hash_row_labelled s p h row :
    row ∈ find_hash_matches s p h -> labelled_item s p (HashRow.item_id row);
  candidate_labelled s p q k excluded c i :
    c ∈ find_candidates s p q k excluded -> Candidate.item_id c = Some i -> labelled_item s p i /\ i ∉ excluded
}.

(** The identity an item is decided by: its stored signature's when there is one. *)
Definition identity_at (project : Z) (s : St) (rep : analysis) : QueryIdentity.t :=
  match get_signature s project (ItemAnalysis.item_id rep) with
  | Some x => identity_of_stored x
  | None => identity_of_signature (ItemAnalysis.signature rep)
  end.

(** The inputs of a decision are the store's answers about the item: its identity
    read in [s], the hash matches and modes of the project in [s1], and in [s2] the
    candidates other than the item itself, ranked by the route's scope. *)
Definition evidence_at (route : string) (mode : option string) (q : ScopeQuery.t) (project : Z) (rep : analysis)
    (s s1 s2 : St) (inputs : DecisionInputs.t) : Prop :=
  let self := ItemAnalysis.item_id rep in
  let ident := identity_at project s rep in
  let query := _query_from_identity ident rep (ItemAnalysis.launch_id rep) (ItemAnalysis.launch_number rep) in
  let cands := find_candidates s2 project query STAGE_C_RETRIEVE_K [self] in
  DecisionInputs.exception_fp inputs = QueryIdentity.exception_fp ident /\
  DecisionInputs.hash_matches inputs =
    scoped_hash_matches route mode q self
      (if QueryIdentity.exception_fp ident =? 0 then [] else find_hash_matches s1 project (QueryIdentity.error_hash ident)) /\
  DecisionInputs.kb_candidates inputs = match_modes s1 project query /\
  DecisionInputs.stage_c inputs =
    rank_stage_c route mode q (item_launch_names s2 project (omap Candidate.item_id cands)) cands /\
  DecisionInputs.stage_c_ages_days inputs =
    (fun c => stage_c_age_days (Candidate.label_ts c) (now s2)) <$> DecisionInputs.stage_c inputs.

(** Evidence of others: every label a decision may rest on is that of another item,
    labelled, of the project, that the route's scope keeps; at most [TOP_K] of them
    feed the model. *)
Definition of_others (labelled_item : St -> Z -> Z -> Prop) (route : string) (mode : option string) (q : ScopeQuery.t)
    (project self : Z) (s1 s2 : St) (inputs : DecisionInputs.t) : Prop :=
  (forall h, h ∈ DecisionInputs.hash_matches inputs ->
     HashMatch.item_id h <> self /\ labelled_item s1 project (HashMatch.item_id h) /\
     exists row, h = match_of_row row /\ keeps route mode q (row_scope row) = true) /\
  (forall c, c ∈ DecisionInputs.stage_c inputs -> exists i, Candidate.item_id c = Some i /\
     i <> self /\ labelled_item s2 project i /\
     exists ids, keeps route mode q (cand_scope (item_launch_names s2 project ids) c) = true) /\
  Z.of_nat (length (DecisionInputs.stage_c inputs)) <= TOP_K /\
  length (DecisionInputs.stage_c_ages_days inputs) = length (DecisionInputs.stage_c inputs).

Lemma rank_stage_c_sound route mode q names cands :
  Z.of_nat (length (rank_stage_c route mode q names cands)) <= TOP_K /\
  forall c, c ∈ rank_stage_c route mode q names cands ->
    c ∈ cands /\ is_Some (Candidate.item_id c) /\ keeps route mode q (cand_scope names c) = true.
Proof.
  unfold rank_stage_c. split; [by apply slice_to_length|]. intros c Hc.
  eapply elem_of_sublist in Hc; [|apply slice_to_sublist].
  apply list_elem_of_fmap in Hc as ((b & c') & -> & Hc). rewrite elem_of_pysorted in Hc.
  apply list_elem_of_fmap in Hc as (c0 & [= -> ->] & Hc). apply filterb_elem in Hc as [Hc Hk].
  apply filterb_elem in Hc as [Hc Hid]. by apply bool_decide_eq_true in Hid.
Qed.

(** The stores' promise carries over to what a decision gets. *)
Lemma evidence_of_others labelled_item `{!EvidenceLaws labelled_item} route mode q project rep s s1 s2 inputs :
  evidence_at route mode q project rep s s1 s2 inputs ->
  of_others labelled_item route mode q project (ItemAnalysis.item_id rep) s1 s2 inputs.
Proof.
  intros (_ & Hh & _ & Hc & Ha). split_and!.
  - rewrite Hh. intros h (row & -> & Hrow)%list_elem_of_fmap.
    apply filterb_elem in Hrow as [Hin [Hself Hk]%andb_true_iff]. split_and!; [|..|by exists row].
    + by apply negb_true_iff, Z.eqb_neq in Hself.
    + destruct (_ =? 0); [by apply elem_of_nil in Hin|]. by eapply hash_row_labelled.
  - rewrite Hc. intros c (Hin & [i Hi] & Hk)%rank_stage_c_sound. exists i.
    destruct (candidate_labelled _ _ _ _ _ _ _ Hin Hi) as [Hl Hx]. split_and!; [done| |done|by eexists].
    intros ->. apply Hx. by left.
  - rewrite Hc. apply rank_stage_c_sound.
  - by rewrite Ha, length_fmap.
Qed.
End Evidence.

Lemma with_mode_id d : d = with_mode d (DecisionResult.matched_mode_id d).
Proof. by destruct d. Qed.

Lemma resolve_mode_stamps d kb sid seed :
  exists m, (_resolve_mode_match d kb sid seed).1 = with_mode d m.
Proof.
  unfold _resolve_mode_match.
  repeat case_match; simpl; eauto using with_mode_id.
Qed.

Section RouteLaws.
Context {St : Type} `{!Stores St, !Libm} {vec : Type} `{!Numpy vec} (eng : Engine.t St).
Abbreviation M := (Emit.M St event).

Lemma quietly_spec (Q : event -> Prop) (m : M unit) :
  only Q m -> emits (quietly m) (fun tr r => Forall Q tr /\ r = Ok tt).
Proof.
  intros Hm. unfold quietly. eapply emits_bind_ret; [by apply attempt_total|].
  by intros tr r [Ht [o ->]].
Qed.

Lemma quietly_only (Q : event -> Prop) (m : M unit) : only Q m -> only Q (quietly m).
Proof. intros Hm. eapply emits_conseq; [by apply quietly_spec|]. by intros tr r [? _]. Qed.

(** ** A decision *)

(** [d] is what [decide] returns on the inputs, up to the mode stamped on it. *)
Definition decides (now : Z) (tau_auto : pyfloat) (inputs : DecisionInputs.t) (d : DecisionResult.t) : Prop :=
  exists m, d = with_mode (decide_inputs inputs now tau_auto) m.

(** The decision on an item is [decide] on its evidence, in states the run reached
    one after the other by its own writes. *)
Definition decided (route : string) (mode : option string) (q : ScopeQuery.t) (ps : list Z) (project : Z) (s0 : St)
    (rep : analysis) (inputs : DecisionInputs.t) (d : DecisionResult.t) : Prop :=
  exists s s1 s2, reaches ps s0 s /\ reaches ps s s1 /\ reaches ps s1 s2 /\
    evidence_at route mode q project rep s s1 s2 inputs /\ decides (now s2) (Engine.auto_min_prob eng) inputs d.

(** What a decision calls: background work, and the decision on the item itself. *)
Definition decision_ok (route : string) (mode : option string) (q : ScopeQuery.t) (ps : list Z) (project : Z) (s0 : St)
    (rep : analysis) (e : event) : Prop :=
  match e with
  | EDecide i inputs d => i = ItemAnalysis.item_id rep /\ decided route mode q ps project s0 rep inputs d
  | EPersistSignature _ | ESeedCopy _ _ => True
  | _ => False
  end.

Lemma resolve_identity_only Q project rep :
  (forall s, Q (EPersistSignature s)) -> only Q (_resolve_identity (St:=St) project rep).
Proof.
  intros HQ. unfold _resolve_identity, _persist_recomputed_signature. solve_only.
Qed.

Lemma resolve_identity_Ok project rep (w : world St event) :
  (_resolve_identity project rep w).2 = Ok (identity_at project (st w) rep).
Proof.
  unfold _resolve_identity, identity_at, mbind, M_bind, read. destruct (get_signature _ _ _); [done|].
  unfold _persist_recomputed_signature. destruct (decide _); [done|].
  unfold quietly, attempt, call, mbind, M_bind. by destruct (upsert_signature _ _) as [x [[]|e]].
Qed.

Lemma seed_signal_only Q project sig :
  (forall p k, Q (ESeedCopy p k)) -> only Q (_seed_signal eng project sig).
Proof. intros HQ. unfold _seed_signal. solve_only. Qed.

Lemma seed_signal_Ok project sig (w : world St event) : exists x, (_seed_signal eng project sig w).2 = Ok x.
Proof.
  unfold _seed_signal. destruct (Engine.seed_match eng) as [matcher|]; [|by eexists].
  destruct (matcher _ _); [|by eexists]. unfold attempt, call, mbind, M_bind.
  destruct (ensure_seed_mode _ _ _) as [x [a|e]]; by eexists.
Qed.

Lemma decide_spec ps s0 project sq mode rep (g : LaunchGroup.t vec) total route : project ∈ ps ->
  emits_on (reaches ps s0) (_decide eng project sq mode rep g total route) (fun tr r =>
    Forall (decision_ok route mode sq ps project s0 rep) tr /\
    forall dm, r = Ok dm -> exists inputs, EDecide (ItemAnalysis.item_id rep) inputs dm.1 ∈ tr).
Proof.
  intros Hp w Hw. set (D := decision_ok _ _ _ _ _ _ _). set (sig := ItemAnalysis.signature rep).
  pose proof (moves_identity ps (reaches ps) project rep Hp w) as Hr1.
  destruct (resolve_identity_only D project rep (fun _ => I) w) as (t1 & Ht1 & HD1 & _).
  pose proof (resolve_identity_Ok project rep w) as HO1.
  destruct (_resolve_identity project rep w) as [w1 r1] eqn:E1. cbn in Hr1, Ht1, HO1. subst r1.
  pose proof (moves_seed eng ps (reaches ps) project sig Hp w1) as Hr2.
  destruct (seed_signal_only D project sig (fun _ _ => I) w1) as (t2 & Ht2 & HD2 & _).
  destruct (seed_signal_Ok project sig w1) as [[seed sid] HO2].
  destruct (_seed_signal eng project sig w1) as [w2 r2] eqn:E2. cbn in Hr2, Ht2, HO2. subst r2.
  unfold _decide. rewrite (bind_ok _ _ _ _ _ E1). cbv beta zeta. rewrite !bind_read.
  rewrite (bind_ok _ _ _ _ _ E2). cbv beta iota.
  unfold _stage_c, read, mbind, M_bind, mret, M_ret, tell. cbv zeta beta iota.
  match goal with |- context [_resolve_mode_match ?d ?k _ _] => destruct (resolve_mode_stamps d k sid seed) as [m Hm] end.
  destruct (_resolve_mode_match _ _ _ _) as [d mm]. cbn in Hm |- *.
  split; [by do 2 (etrans; [eassumption|])|]. eexists. split; [by rewrite Ht2, Ht1, <- !(assoc_L (++))|]. split.
  - apply Forall_app. split; [done|]. apply Forall_app. split; [done|]. constructor; [|done].
    split; [done|]. exists (st w), (st w1), (st w2). split_and!; [done..| |by exists m]. by split_and!.
  - intros dm [= <-]. eexists. apply elem_of_app. right. apply elem_of_app. right. by left.
Qed.

Lemma membership_spec project ids mm rep :
  emits (_record_membership (St:=St) project ids mm rep) (fun tr r => Forall auxiliary tr /\ r = Ok tt).
Proof.
  unfold _record_membership. destruct mm as [m|]; [|apply emits_ret; by split].
  destruct ids; [apply emits_ret; by split|]. apply quietly_spec. by apply only_call.
Qed.

Definition enqueued (e : event) : Prop := match e with EEnqueue _ _ _ _ => True | _ => False end.

Lemma enqueue_llm_spec project item launch d refs sid :
  emits (_enqueue_llm eng project item launch d refs sid)
    (fun tr r => Forall enqueued tr /\ (Engine.sidecar_enabled eng = false -> tr = []) /\ r = Ok tt).
Proof.
  unfold _enqueue_llm. destruct (Engine.sidecar_enabled eng) eqn:E; simpl; [|by apply emits_ret].
  eapply emits_conseq; [apply (quietly_spec enqueued)|by intros tr r [? ->]].
  unfold job. solve_only; by apply only_ret.
Qed.
(** ** Storing a decision and applying it *)

(** The tail all three routes share: store the suggestion, queue the sidecar's
  jobs, and apply the label when [ap] says so. *)
Definition recorded {A} (project item launch : Z) (gid : option Z) (d : DecisionResult.t) (src : option string)
    (ap : bool) (k : option AnalysisResult.t -> A) (tr : list event) (r : result A) : Prop :=
  let s := ESuggestion (suggestion_in eng project item launch gid d src) in
  (tr = [] /\ exists e, r = Raise e) \/
  exists enq, Forall enqueued enq /\ (Engine.sidecar_enabled eng = false -> enq = []) /\
    ((tr = s :: enq /\ ap = true /\ exists e, r = Raise e) \/
     (tr = s :: enq /\ ap = false /\ r = Ok (k None)) \/
     (tr = s :: enq ++ [EIssueType project item (DecisionResult.issue_type d)] /\ ap = true /\
      r = Ok (k (Some (AnalysisResult.mk item (DecisionResult.issue_type d)
                         (default 0 (DecisionResult.relevant_item_id d))))))).

Lemma record_spec {A} project item launch gid d src refs ap (k : option AnalysisResult.t -> A) :
  emits (sid ← _write_suggestion eng project item launch gid d src;
         _ ← _enqueue_llm eng project item launch d refs (Some sid);
         if (ap : bool) then r ← apply_label (St:=St) project item d; mret (k (Some r)) else mret (k None))
    (recorded project item launch gid d src ap k).
Proof.
  intros w. unfold _write_suggestion, call, mbind, M_bind. unfold recorded.
  destruct (write_suggestion _ _) as [s1 [sid|e]]; simpl.
  2: { exists []. rewrite app_nil_r. split; [done|]. left. eauto. }
  destruct (enqueue_llm_spec project item launch d refs (Some sid)
              (mk_world s1 (trace w ++ [ESuggestion (suggestion_in eng project item launch gid d src)])))
    as (enq & Ht & Henq & Hoff & Hr).
  destruct (_enqueue_llm _ _ _ _ _ _ _ _) as [w2 r2]. simpl in *. subst r2.
  destruct ap; simpl.
  - unfold apply_label, call, mbind, M_bind. destruct (update_issue_type _ _ _ _) as [s3 [[]|e]]; simpl.
    + exists (ESuggestion (suggestion_in eng project item launch gid d src) :: enq ++
               [EIssueType project item (DecisionResult.issue_type d)]).
      rewrite Ht. split; [by rewrite <- !(assoc_L (++))|]. right. exists enq. split_and!; [done..|]. by right; right.
    + exists (ESuggestion (suggestion_in eng project item launch gid d src) :: enq).
      rewrite Ht. split; [by rewrite <- !(assoc_L (++))|]. right. exists enq. split_and!; [done..|]. left. eauto.
  - exists (ESuggestion (suggestion_in eng project item launch gid d src) :: enq).
    rewrite Ht. split; [by rewrite <- !(assoc_L (++))|]. right. exists enq. split_and!; [done..|]. by right; left.
Qed.

Lemma enqueued_background tr : Forall enqueued tr -> Forall background tr.
Proof. intros Ht. eapply Forall_impl; [exact Ht|]. by intros []. Qed.

(** What a successful tail leaves in the trace. *)
Lemma recorded_Ok {A} project item launch gid d src ap (k : option AnalysisResult.t -> A) tr x :
  recorded project item launch gid d src ap k tr (Ok x) ->
  omap sugg_id tr = [item] /\
  exists row, x = k row /\ omap label_of tr = reply_label <$> option_list row /\ (row = None <-> ap = false).
Proof.
  intros [[_ [e [=]]]|(enq & Henq & _ & [(_ & _ & e & [=])|[(-> & -> & [= ->])|(-> & -> & [= ->])]])];
    apply enqueued_background, background_suggs in Henq as [Hs Hl]; csimpl;
    rewrite ?omap_app, ?Hs, ?Hl; (split; [done|]); eexists; split_and!; done.
Qed.

(** Whatever happened, every call of the tail is one of these. *)
Lemma recorded_calls {A} project item launch gid d src ap (k : option AnalysisResult.t -> A) tr r e :
  recorded project item launch gid d src ap k tr r -> e ∈ tr ->
  let s := ESuggestion (suggestion_in eng project item launch gid d src) in
  e = s \/ enqueued e \/ (e = EIssueType project item (DecisionResult.issue_type d) /\ ap = true /\ s ∈ tr).
Proof.
  intros [[-> _]|(enq & Henq & _ & [(-> & Ha & _)|[(-> & Ha & _)|(-> & Ha & _)]])] He; simpl;
    rewrite ?elem_of_cons, ?elem_of_app in He; [by apply elem_of_nil in He|..].
  1-2: destruct He as [->|He]; [by left|]; right; left; by eapply Forall_forall.
  destruct He as [->|[He|He]]; [by left| |].
  - right; left; by eapply Forall_forall.
  - apply list_elem_of_singleton in He as ->. right; right. split_and!; [done..|]. by left.
Qed.
(** ** A launch *)

Section Launch.
Variables (l : Launch.t) (disc : list (Z * discriminant)) (s0 : St).
Let project := Launch.project l.
Let here : St -> Prop := reaches [project] s0.

(** [d] was decided before, for an item with the canonical discriminant of [i]. *)
Definition justified (pre : list event) (i : Z) (d : DecisionResult.t) : Prop :=
  exists owner inputs, EDecide owner inputs d ∈ pre /\ dget owner disc = dget i disc.

(** A call of the launch and what it rests on, among the calls before it. *)
Definition backed (pre : list event) (e : event) : Prop :=
  match e with
  | EDecide i inputs d => exists rep, rep ∈ Launch.analyses l /\ ItemAnalysis.item_id rep = i /\
    decided "analyze" (Launch.analyzerMode l) (_scope_query l) [project] project s0 rep inputs d
  | ESuggestion s => exists d gid, justified pre (SuggestionIn.item_id s) d /\
    s = suggestion_in eng project (SuggestionIn.item_id s) (Launch.launchId l) (Some gid) d None
  | EIssueType p i t => exists d gid, p = project /\ t = DecisionResult.issue_type d /\ justified pre i d /\
    applies_auto d = true /\
    ESuggestion (suggestion_in eng project i (Launch.launchId l) (Some gid) d None) ∈ pre
  | _ => True
  end.

Lemma justified_mono t1 t2 i d : t1 ⊆ t2 -> justified t1 i d -> justified t2 i d.
Proof. intros Hs (o & x & Ho & Hd). exists o, x. auto. Qed.

Lemma backed_mono t1 t2 e : t1 ⊆ t2 -> backed t1 e -> backed t2 e.
Proof.
  intros Hs. destruct e; simpl; try done.
  - intros (d & gid & Hj & E). exists d, gid. split; [by eapply justified_mono|done].
  - intros (d & gid & Hp & Ht & Hj & Ha & Hin). exists d, gid. split_and!; try done; [by eapply justified_mono|auto].
Qed.

Lemma decision_ok_grounded rep t pre : rep ∈ Launch.analyses l ->
  Forall (decision_ok "analyze" (Launch.analyzerMode l) (_scope_query l) [project] project s0 rep) t ->
  Forall background t /\ grounded backed pre t.
Proof.
  intros Hrep Ht. split; [by eapply Forall_impl; [exact Ht|]; intros []|].
  apply (grounded_free _ backed_mono). eapply Forall_impl; [exact Ht|]. intros []; try done. intros [-> Hd]. by exists rep.
Qed.

Lemma auxiliary_grounded pre t : Forall auxiliary t -> grounded backed pre t.
Proof. intros Ht. apply (grounded_free _ backed_mono). eapply Forall_impl; [exact Ht|]. by intros []. Qed.

Lemma recorded_grounded {A} item gid d ap (k : option AnalysisResult.t -> A) pre tr r :
  justified pre item d -> (ap = true -> applies_auto d = true) ->
  recorded project item (Launch.launchId l) (Some gid) d None ap k tr r -> grounded backed pre tr.
Proof.
  intros Hj Hap [[-> _]|(enq & Henq & _ & Hcase)]; [done|].
  assert (grounded backed (pre ++ [ESuggestion (suggestion_in eng project item (Launch.launchId l) (Some gid) d None)]) enq)
    as Hq by (apply (grounded_free _ backed_mono); eapply Forall_impl; [exact Henq|]; by intros []).
  assert (backed pre (ESuggestion (suggestion_in eng project item (Launch.launchId l) (Some gid) d None))) as Hs
    by (by exists d, gid).
  destruct Hcase as [(-> & _)|[(-> & _)|(-> & Ha & _)]]; [by split..|].
  split; [done|]. apply grounded_app. split; [done|]. split; [|done]. exists d, gid.
  split_and!; try done; [by eapply justified_mono; [|exact Hj]; set_solver|auto|set_solver].
Qed.

Lemma dindex_spec {B} i (d : list (Z * B)) :
  emits_on here (dindex i d) (fun tr r => tr = [] /\ forall b, r = Ok b -> dget i d = Some b).
Proof.
  apply emits_keeping; [unfold dindex; solve_moves|]. unfold dindex. apply emits_of_result. split; [done|].
  by destruct (dget i d); intros ? [= ->].
Qed.

Lemma membership_here ids mm rep :
  emits_on here (_record_membership project ids mm rep) (fun tr r => Forall auxiliary tr /\ r = Ok tt).
Proof.
  apply emits_keeping; [|apply membership_spec]. apply moves_membership with (ps := [project]); [apply _|by left].
Qed.

Section Member.
Variables (by_id : list (Z * analysis)) (g : LaunchGroup.t vec) (rep : analysis) (gid : Z)
(d : DecisionResult.t) (mm : option ModeMatch.t) (total : Z).
Hypothesis Hby : forall i a, dget i by_id = Some a -> ItemAnalysis.item_id a = i /\ a ∈ Launch.analyses l.

(** The group's decision has been made. *)
Definition made (pre : list event) : Prop := exists inputs, EDecide (ItemAnalysis.item_id rep) inputs d ∈ pre.

Lemma made_mono t1 t2 : t1 ⊆ t2 -> made t1 -> made t2.
Proof. intros Hs [x Hx]. exists x. auto. Qed.

(** A member with another discriminant is decided on its own. *)
Lemma own_decision_spec item :
  emits_on here (m_ana ← dindex item by_id;
     '(md, m_mode) ← _decide eng project (_scope_query l) (Launch.analyzerMode l) m_ana g total "analyze";
     _ ← _record_membership project [item] m_mode m_ana;
     mret (md, @None Z))
  (fun tr r => Forall background tr /\ (forall pre, grounded backed pre tr) /\
     forall x, r = Ok x -> exists inputs, EDecide item inputs x.1 ∈ tr).
Proof.
  eapply emits_on_bind with (Q := fun a tr r => forall H : ItemAnalysis.item_id a = item /\ a ∈ Launch.analyses l,
    Forall background tr /\ (forall pre, grounded backed pre tr) /\ forall x, r = Ok x -> exists inputs, EDecide item inputs x.1 ∈ tr);
    [apply dindex_spec| | |].
  - intros a. eapply emits_on_bind with (Q := fun dm tr r => Forall auxiliary tr /\ forall x, r = Ok x -> x = (dm.1, @None Z));
      [apply decide_spec; by left| | |].
    + intros [md mo]. eapply emits_on_bind_ret; [apply membership_here|]. intros tr r [Ht ->]. split; [done|]. by intros x [= <-].
    + intros tr e [Ht _] [_ Ha]. split_and!; [by eapply (decision_ok_grounded a tr [])|intros pre; by eapply decision_ok_grounded|done].
    + intros t1 dm t2 r [H1 Hd] [H2 Hx] [Hi Ha]. split_and!.
      * apply Forall_app. split; [by eapply (decision_ok_grounded a t1 [])|by apply auxiliary_background].
      * intros pre. apply grounded_app. split; [by eapply decision_ok_grounded|by apply auxiliary_grounded].
      * intros x Hr. destruct (Hd dm eq_refl) as [inputs Hin]. exists inputs. rewrite (Hx x Hr). simpl.
        apply elem_of_app. left. by rewrite <- Hi.
  - intros tr e [-> _]. split_and!; [constructor|done|done].
  - intros t1 a t2 r [-> Ha] HQ. apply HQ. by apply Hby, Ha.
Qed.

(** Which decision a member gets, and why it is its own. *)
Lemma member_choice_spec item :
  emits_on here (if decide (dget item disc = dget (ItemAnalysis.item_id rep) disc) then mret (d, Some item)
     else
       m_ana ← dindex item by_id;
       '(md, m_mode) ← _decide eng project (_scope_query l) (Launch.analyzerMode l) m_ana g total "analyze";
       _ ← _record_membership project [item] m_mode m_ana;
       mret (md, None))
  (fun tr r => Forall background tr /\ (forall pre, grounded backed pre tr) /\
   forall pre x, made pre -> r = Ok x -> justified (pre ++ tr) item x.1).
Proof.
  destruct (decide _) as [Heq|_].
  - apply emits_on_ret. split_and!; [constructor|done|]. intros pre x [inputs Hin] [= <-].
    exists (ItemAnalysis.item_id rep), inputs. split; [apply elem_of_app; by left|done].
  - eapply emits_on_conseq; [apply own_decision_spec|]. intros tr r (Hb & Hg & Hx). split_and!; [done..|].
    intros pre x _ Hr. destruct (Hx x Hr) as [inputs Hin]. exists item, inputs. split; [apply elem_of_app; by right|done].
Qed.

Definition member_result (item : Z) (tr : list event) (r : result (option Z * option AnalysisResult.t)) : Prop :=
  (forall pre, made pre -> grounded backed pre tr) /\
  forall x, r = Ok x -> omap sugg_id tr = [item] /\ omap label_of tr = reply_label <$> option_list x.2.

Lemma member_spec m :
  emits_on here (analyze_member eng l by_id disc g rep gid d mm total m) (member_result (GroupItem.item_id m)).
Proof.
  unfold analyze_member. fold project. set (item := GroupItem.item_id m).
  eapply emits_on_bind with (Q := fun mi tr r => recorded project item (Launch.launchId l) (Some gid) mi.1 None
  (applies_auto mi.1) (fun row => (mi.2, row)) tr r); [apply (member_choice_spec item)| | |].
  - intros [md inh]. simpl. apply emits_keeping.
    2: { apply (record_spec project item (Launch.launchId l) (Some gid) md None None
           (applies_auto md) (fun row => (inh, row))). }
    assert (project ∈ [project]) as Hp by (by left).
    apply moves_bind; [apply _|by apply moves_suggestion with (ps := [project]); [apply _|]|intros sid].
    apply moves_bind; [apply _|by apply moves_enqueue with (ps := [project]); [apply _|]|intros _].
    destruct (applies_auto md); [|apply moves_ret, _].
    apply moves_bind; [apply _|by apply moves_label with (ps := [project]); [apply _|]|intros row]. apply moves_ret, _.
  - intros tr e (_ & Hg & _). by split.
  - intros t1 [md inh] t2 r (Hb & Hg & Hj) Hrec. simpl in *. split.
    + intros pre Hpre. apply grounded_app. split; [done|].
      eapply recorded_grounded; [by eapply (Hj pre (md, inh))|done|exact Hrec].
    + intros x ->. apply recorded_Ok in Hrec as (Hs & row & -> & Hl & _). apply background_suggs in Hb as [Hb1 Hb2].
      by rewrite !omap_app, Hb1, Hb2.
Qed.
End Member.

(** The members of a group, one after the other. *)
Lemma members_spec rep d (ms : list GroupItem.t) tr r :
  loops (fun m => member_result rep d (GroupItem.item_id m)) ms tr r ->
  (forall pre, made rep d pre -> grounded backed pre tr) /\
  forall xs, r = Ok xs -> omap sugg_id tr = GroupItem.item_id <$> ms /\
                        omap label_of tr = reply_label <$> omap snd xs.
Proof.
  intros Hl. unshelve epose proof (loops_collect (fun tr => forall pre, made rep d pre -> grounded backed pre tr)
    sugg_id label_of (fun m => [GroupItem.item_id m]) (fun x => reply_label <$> option_list x.2)
    _ _ _ _ _ _ _ Hl) as [Hk Hr]; [done| |by intros|].
  { intros t1 t2 H1 H2 pre Hpre. apply grounded_app. split; [auto|]. apply H2. eapply made_mono; [|exact Hpre]. set_solver. }
  split; [exact Hk|].
  intros xs Hxs. destruct (Hr xs Hxs) as [-> ->]. split; [by rewrite bind_single_fmap|].
  clear. induction xs as [|[inh [row|]] xs IH]; csimpl; by rewrite ?IH.
Qed.

Definition group_result (g : LaunchGroup.t vec) (tr : list event) (r : result (list AnalysisResult.t)) : Prop :=
  (forall pre, grounded backed pre tr) /\
  forall rows, r = Ok rows -> omap sugg_id tr = GroupItem.item_id <$> LaunchGroup.members g /\
                            omap label_of tr = reply_label <$> rows.

(** The members of [g] and the membership record, once the group is stored. *)
Lemma group_tail_spec by_id (g : LaunchGroup.t vec) rep gid d mm total
  (Hby : forall i a, dget i by_id = Some a -> ItemAnalysis.item_id a = i /\ a ∈ Launch.analyses l) :
  emits_on here (rows ← forM (analyze_member eng l by_id disc g rep gid d mm total) (LaunchGroup.members g);
       _ ← _record_membership project (omap fst rows) mm rep;
       mret (omap snd rows))
  (fun tr r => (forall pre, made rep d pre -> grounded backed pre tr) /\
     forall rows, r = Ok rows -> omap sugg_id tr = GroupItem.item_id <$> LaunchGroup.members g /\
                                 omap label_of tr = reply_label <$> rows).
Proof.
  eapply emits_on_bind with (P := loops (fun m => member_result rep d (GroupItem.item_id m)) (LaunchGroup.members g))
  (Q := fun rows tr r => Forall auxiliary tr /\ r = Ok (omap snd rows)).
  - apply emits_on_forM. intros m _. by apply member_spec.
  - intros rows. eapply emits_on_bind_ret; [apply membership_here|]. by intros tr r [Ht ->].
  - intros tr e Hl. apply members_spec in Hl as [Hk _]. by split.
  - intros t1 rows t2 r Hl [Ha ->]. apply members_spec in Hl as [Hk Hl]. destruct (Hl rows eq_refl) as [Hs Hlab]. split.
    + intros pre Hpre. apply grounded_app. split; [auto|by apply auxiliary_grounded].
    + intros ? [= <-]. apply auxiliary_background, background_suggs in Ha as [Hb1 Hb2].
      by rewrite !omap_app, Hb1, Hb2, Hs, Hlab, !app_nil_r.
Qed.

Lemma group_spec by_id total (g : LaunchGroup.t vec)
  (Hby : forall i a, dget i by_id = Some a -> ItemAnalysis.item_id a = i /\ a ∈ Launch.analyses l) :
  emits_on here (analyze_group eng l by_id disc total g) (group_result g).
Proof.
  unfold analyze_group. fold project.
  eapply emits_on_bind with (P := fun tr _ => tr = []) (Q := fun _ => group_result g);
  [by apply emits_keeping; [solve_moves|apply emits_of_result]| | |by intros ? ? ? ? ->].
  2: { intros tr e ->. by split. }
  intros representative. eapply emits_on_bind with (Q := fun a tr r => a ∈ Launch.analyses l -> group_result g tr r);
  [apply dindex_spec| |by intros tr e [-> _]; split|].
  2: { intros t1 a t2 r [-> Ha] HQ. apply HQ, (Hby _ _ (Ha a eq_refl)). }
  intros rep. eapply emits_on_bind with (Q := fun dm tr r => (forall pre, made rep dm.1 pre -> grounded backed pre tr) /\
    forall rows, r = Ok rows -> omap sugg_id tr = GroupItem.item_id <$> LaunchGroup.members g /\
                            omap label_of tr = reply_label <$> rows); [apply decide_spec; by left| | |].
  - intros [d mm]. set (grp := EGroup _ _ _ _ _ _).
    eapply emits_on_bind with (P := fun tr _ => tr = [] \/ tr = [grp]).
    + apply emits_keeping; [|apply emits_call; auto]. apply moves_call. intros x.
      apply (frame_group (Frame := within_reach_frame [project] s0)). by left.
    + intros gid. by apply group_tail_spec.
    + by intros tr e [->| ->]; (split; [|done]); repeat constructor.
    + intros t1 gid t2 r Ht1 [Hk Hr]. split.
      * intros pre Hpre. apply grounded_app. split; [by destruct Ht1 as [->| ->]|]. apply Hk.
        eapply made_mono; [|exact Hpre]. set_solver.
      * intros rows Hrows. destruct (Hr rows Hrows). by destruct Ht1 as [->| ->].
  - intros tr e [Ht _] Hrep. split; [|done]. intros pre. by eapply decision_ok_grounded.
  - intros t1 [d mm] t2 r [H1 Hd] [Hk Hr] Hrep. simpl in *. destruct (Hd _ eq_refl) as [inputs Hin]. simpl in Hin. split.
    + intros pre. apply grounded_app. split; [by eapply decision_ok_grounded|]. apply Hk. exists inputs.
      apply elem_of_app. by right.
    + intros rows Hrows. destruct (decision_ok_grounded rep t1 [] Hrep H1) as [[Hs Hl]%background_suggs _].
      destruct (Hr rows Hrows) as [Hs' Hl']. by rewrite !omap_app, Hs, Hl, Hs', Hl'.
Qed.

Lemma groups_spec (gs : list (LaunchGroup.t vec)) tr r :
  loops group_result gs tr r ->
  grounded backed [] tr /\
  forall rows, r = Ok rows -> omap sugg_id tr = GroupItem.item_id <$> all_members gs /\
                              omap label_of tr = reply_label <$> concat rows.
Proof.
  intros Hl. unshelve epose proof (loops_collect (fun tr => forall pre, grounded backed pre tr) sugg_id label_of
      (fun g => GroupItem.item_id <$> LaunchGroup.members g) (fun b => reply_label <$> b)
      _ _ _ _ _ _ _ Hl) as [Hk Hr]; [done|intros t1 t2 H1 H2 pre; apply grounded_app; by split|by intros|].
  split; [apply Hk|].
  intros rows Hrows. destruct (Hr rows Hrows) as [-> ->]. clear. unfold all_members. split.
  - induction gs as [|g gs IH]; csimpl; [done|]. by rewrite fmap_app, IH.
  - induction rows as [|b rows IH]; csimpl; [done|]. by rewrite fmap_app, IH.
Qed.
End Launch.

(** An entry of the dict of a launch's analyses is one of them, under its own id. *)
Lemma by_item_own (a_s : list analysis) i a :
  dget i (by_item id a_s) = Some a -> ItemAnalysis.item_id a = i /\ a ∈ a_s.
Proof.
  set (P := fun ka : Z * analysis => ItemAnalysis.item_id ka.2 = ka.1 /\ ka.2 ∈ a_s).
  assert (forall l d, l ⊆ a_s -> Forall P d -> Forall P (fold_left (fun d a => dset (ItemAnalysis.item_id a) (id a) d) l d)) as Hall.
  { induction l as [|x l IH]; intros d Hs Hd; [done|]. apply IH; [set_solver|].
    apply dset_Forall; [|done]. split; [done|]. apply Hs. by left. }
  intros Ha%dget_elem. apply (proj1 (Forall_forall _ _) (Hall a_s [] ltac:(done) (Forall_nil_2 _)) _ Ha).
Qed.

(** C5. The launch fan-out, whatever fails on the way.  Every stored suggestion
  is, verbatim, a decision made earlier in the same run for an item with the
  same canonical discriminant (error hash, status codes, message tokens), so
  a representative's verdict never reaches a near miss; a label is applied only
  after a suggestion that stores its decision, in the automatic band and not an
  abstention.  Every decision is on an item of the launch and is [decide] on the
  answers of the store in states the run reached by its own writes: labels of
  other, labelled items of the project inside the analyze scope, never the
  item itself.  When the run completes, every item of the launch has exactly one
  suggestion, and the reply lists exactly the applied labels. *)
Theorem analyze_launch_fanout labelled_item `{!EvidenceLaws labelled_item} (l : Launch.t) (w : world St event) :
  let p := Launch.project l in
  let disc := _canonical_discriminants p (Launch.analyses l) (st w) in
  exists tr, trace (_analyze_launch eng l w).1 = trace w ++ tr /\
    (forall pre e post, tr = pre ++ e :: post -> backed l disc (st w) pre e) /\
    (forall i inputs d, EDecide i inputs d ∈ tr -> exists s1 s2, reaches [p] (st w) s1 /\ reaches [p] s1 s2 /\
       of_others labelled_item "analyze" (Launch.analyzerMode l) (_scope_query l) p i s1 s2 inputs) /\
    forall out, (_analyze_launch eng l w).2 = Ok out ->
      omap sugg_id tr ≡ₚ ItemAnalysis.item_id <$> Launch.analyses l /\
      omap label_of tr = reply_label <$> out.
Proof.
  intros p disc. set (gs := _group eng (Launch.project l) (Launch.launchId l) (Launch.analyses l) (st w)).
  assert (emits_on (reaches [p] (st w)) (rows ← forM (analyze_group eng l (by_item id (Launch.analyses l)) disc
                                (Z.of_nat (length (Launch.analyses l)))) gs; mret (concat rows))
            (fun tr r => grounded (backed l disc (st w)) [] tr /\ forall out, r = Ok out ->
               omap sugg_id tr = GroupItem.item_id <$> all_members gs /\ omap label_of tr = reply_label <$> out)) as Hgs.
  { eapply emits_on_bind_ret; [apply emits_on_forM; intros g _; apply group_spec, by_item_own|].
    intros tr r Hl. apply groups_spec in Hl as [Hk Hr]. split; [done|].
    destruct r as [rows|e]; intros out [= <-]. by apply Hr. }
  destruct (Hgs w ltac:(unfold reaches; reflexivity)) as (_ & tr & Ht & Hk & Hr). exists tr.
  assert (forall pre e post, tr = pre ++ e :: post -> backed l disc (st w) pre e) as Hb
    by (intros pre e post ->; by apply grounded_split in Hk).
  split_and!; [exact Ht|exact Hb| |].
  - intros i inputs d (pre & post & Hin)%list_elem_of_split.
    destruct (Hb _ _ _ Hin) as (rep & _ & <- & s & s1 & s2 & Hs & Hs1 & Hs2 & Hev & _).
    exists s1, s2. split_and!; [by etrans|done|by eapply evidence_of_others].
  - intros out Hout. destruct (Hr out Hout) as [-> ->]. split; [|done].
    unfold gs, _group. rewrite group_launch_members, <- list_fmap_compose. done.
Qed.

(** ** The early pass *)

Section Early.
Variables (launches : list Launch.t) (s0 : St).
Let ps : list Z := Launch.project <$> launches.
Let here : St -> Prop := reaches ps s0.

(** A call of the early pass over [l] and what it rests on, among the calls before it. *)
Definition early_backed (l : Launch.t) (pre : list event) (e : event) : Prop :=
  match e with
  | EDecide i inputs d => exists rep, rep ∈ Launch.analyses l /\ ItemAnalysis.item_id rep = i /\
      decided "analyze_item_early" (Launch.analyzerMode l) (_scope_query l) ps (Launch.project l) s0 rep inputs d
  | ESuggestion s => exists d inputs, EDecide (SuggestionIn.item_id s) inputs d ∈ pre /\
      s = suggestion_in eng (Launch.project l) (SuggestionIn.item_id s) (Launch.launchId l) None d (Some "early")
  | EIssueType p i t => exists d inputs, EDecide i inputs d ∈ pre /\ p = Launch.project l /\
      t = DecisionResult.issue_type d /\
      ESuggestion (suggestion_in eng p i (Launch.launchId l) None d (Some "early")) ∈ pre /\
      DecisionResult.action d = ACTION_AUTO /\
      DecisionResult.label d <> "ti" /\ DecisionResult.label d <> "si" /\
      ((DecisionResult.method d = METHOD_HASH \/ DecisionResult.method d = METHOD_KB) /\
       Engine.early_label_policy eng ∈ ["kb_inherit_only"; "kb_inherit_and_pb"] \/
       DecisionResult.method d = METHOD_GBM /\ DecisionResult.label d = "pb" /\
       Engine.early_label_policy eng = "kb_inherit_and_pb" /\
       (Engine.early_gbm_pb_min eng <=? DecisionResult.confidence d)%F = true)
  | _ => True
  end.

(** A call of the pass over some of the launches. *)
Definition early_ok (pre : list event) (e : event) : Prop := exists l, l ∈ launches /\ early_backed l pre e.

Lemma early_backed_mono l t1 t2 e : t1 ⊆ t2 -> early_backed l t1 e -> early_backed l t2 e.
Proof.
  intros Hs. destruct e; simpl; try done.
  - intros (d & i & Hd & E). exists d, i. auto.
  - intros (d & i & Hd & Hp & Ht & Hin & Hrest). exists d, i. split_and!; auto; apply Hrest.
Qed.

Lemma early_ok_mono t1 t2 e : t1 ⊆ t2 -> early_ok t1 e -> early_ok t2 e.
Proof. intros Hs (l & Hl & He). exists l. split; [done|]. by eapply early_backed_mono. Qed.

(** The policy the code evaluates is the one stated above. *)
Lemma early_applies_spec d : early_applies eng d = true ->
  DecisionResult.action d = ACTION_AUTO /\ DecisionResult.label d <> "ti" /\ DecisionResult.label d <> "si" /\
  ((DecisionResult.method d = METHOD_HASH \/ DecisionResult.method d = METHOD_KB) /\
   Engine.early_label_policy eng ∈ ["kb_inherit_only"; "kb_inherit_and_pb"] \/
   DecisionResult.method d = METHOD_GBM /\ DecisionResult.label d = "pb" /\
   Engine.early_label_policy eng = "kb_inherit_and_pb" /\
   (Engine.early_gbm_pb_min eng <=? DecisionResult.confidence d)%F = true).
Proof.
  unfold early_applies. rewrite !andb_true_iff, orb_true_iff, !andb_true_iff, negb_true_iff.
  rewrite !bool_decide_eq_true, bool_decide_eq_false. intros [[Ha Hl] Hm].
  rewrite !elem_of_cons in Hl. split_and!; [done|tauto|tauto|].
  destruct Hm as [[Hm Hp]|[[[Hp Hg] Hpb] Hmin]]; [left|right; done].
  split; [|done]. rewrite !elem_of_cons, elem_of_nil in Hm. tauto.
Qed.

Definition early_signed (rep : analysis) : bool :=
  negb (bool_decide (SignatureResult.signature_text (ItemAnalysis.signature rep) = "")).

Section Item.
Variables (l : Launch.t) (Hl : l ∈ launches).
#[local] Lemma early_project : Launch.project l ∈ ps.
Proof using Hl. apply list_elem_of_fmap. by exists l. Qed.

Lemma early_decision_grounded rep t pre : rep ∈ Launch.analyses l ->
  Forall (decision_ok "analyze_item_early" (Launch.analyzerMode l) (_scope_query l) ps (Launch.project l) s0 rep) t ->
  Forall background t /\ grounded early_ok pre t.
Proof using Hl.
  intros Hrep Ht. split; [by eapply Forall_impl; [exact Ht|]; intros []|].
  apply (grounded_free _ early_ok_mono). eapply Forall_impl; [exact Ht|]. intros e He. exists l. split; [done|].
  destruct e; try done. destruct He as [-> Hd]. by exists rep.
Qed.

Lemma early_free_grounded pre t : Forall (fun e => auxiliary e \/ enqueued e) t -> grounded early_ok pre t.
Proof using Hl.
  intros Ht. apply (grounded_free _ early_ok_mono). eapply Forall_impl; [exact Ht|]. intros e He. exists l.
  split; [done|]. by destruct e, He.
Qed.

Lemma recorded_early {A} item d inputs (k : option AnalysisResult.t -> A) pre tr r :
  EDecide item inputs d ∈ pre ->
  recorded (Launch.project l) item (Launch.launchId l) None d (Some "early") (early_applies eng d) k tr r ->
  grounded early_ok pre tr.
Proof using Hl.
  intros Hin [[-> _]|(enq & Henq & _ & Hcase)]; [done|].
  set (s := ESuggestion (suggestion_in eng (Launch.project l) item (Launch.launchId l) None d (Some "early"))) in *.
  assert (grounded early_ok (pre ++ [s]) enq) as Hq
    by (apply early_free_grounded; eapply Forall_impl; [exact Henq|auto]).
  assert (early_ok pre s) as Hs by (exists l; split; [done|]; by exists d, inputs).
  destruct Hcase as [(-> & _)|[(-> & _)|(-> & Ha & _)]]; [by split..|].
  split; [done|]. apply grounded_app. split; [done|]. split; [|done]. exists l. split; [done|].
  exists d, inputs. split_and!; [set_solver|done|done|set_solver|by apply early_applies_spec..].
Qed.

Lemma early_item_spec rep : rep ∈ Launch.analyses l ->
  emits_on here (early_item (vec := vec) eng l rep) (fun tr r => (forall pre, grounded early_ok pre tr) /\
    forall o, r = Ok o ->
    omap sugg_id tr = (if early_signed rep then [ItemAnalysis.item_id rep] else []) /\
    omap label_of tr = reply_label <$> option_list o).
Proof using Hl.
  intros Hrep. unfold early_item, early_signed. destruct (decide _) as [Hempty|Hsig].
  { rewrite bool_decide_eq_true_2 by done. apply emits_on_ret. split; [done|]. by intros o [= <-]. }
  rewrite bool_decide_eq_false_2 by done. simpl. set (item := ItemAnalysis.item_id rep).
  set (rec := fun d : DecisionResult.t => recorded (Launch.project l) item (Launch.launchId l) None d (Some "early")
                (early_applies eng d) (fun o => o)).
  eapply emits_on_bind with (Q := fun dm tr r => exists t1 t2, tr = t1 ++ t2 /\ Forall auxiliary t1 /\ rec dm.1 t2 r);
    [apply decide_spec, early_project| | |].
  - intros [d mm]. eapply emits_on_bind with (P := fun tr r => Forall auxiliary tr /\ r = Ok tt) (Q := fun _ => rec d).
    + apply emits_keeping; [apply moves_membership with (ps := ps); [apply _|apply early_project]|apply membership_spec].
    + intros _. apply emits_keeping.
      2: exact (record_spec (Launch.project l) item (Launch.launchId l) None d (Some "early") None
           (early_applies eng d) (fun o => o)).
      apply moves_bind; [apply _|apply moves_suggestion with (ps := ps); [apply _|apply early_project]|intros sid].
      apply moves_bind; [apply _|apply moves_enqueue with (ps := ps); [apply _|apply early_project]|intros _].
      destruct (early_applies eng d); [|apply moves_ret, _].
      apply moves_bind; [apply _|apply moves_label with (ps := ps); [apply _|apply early_project]|intros row]. apply moves_ret, _.
    + by intros tr e [_ ?].
    + intros t1 [] t2 r [H1 _] H2. by exists t1, t2.
  - intros tr e [Ht _]. split; [|done]. intros pre. by eapply early_decision_grounded.
  - intros t1 [d mm] t2 r [H1 Hd] (ta & tb & -> & Ha & Hrec). simpl in Hrec.
    destruct (Hd _ eq_refl) as [inputs Hin]. simpl in Hin. split.
    + intros pre. apply grounded_app. split; [by eapply early_decision_grounded|].
      apply grounded_app. split; [apply early_free_grounded; eapply Forall_impl; [exact Ha|]; auto|].
      eapply (recorded_early _ _ inputs), Hrec. rewrite !elem_of_app. by left; right.
    + intros o ->. apply recorded_Ok in Hrec as (Hs & row & -> & Hlab & _).
      destruct (early_decision_grounded rep t1 [] Hrep H1) as [[H1s H1l]%background_suggs _].
      apply auxiliary_background, background_suggs in Ha as [Has Hal].
      by rewrite !omap_app, H1s, H1l, Has, Hal, Hs, Hlab.
Qed.

Lemma early_launch_spec :
  emits_on here (rs ← forM (early_item (vec := vec) eng l) (Launch.analyses l); mret (omap id rs))
    (fun tr r => (forall pre, grounded early_ok pre tr) /\ forall rows, r = Ok rows ->
      omap sugg_id tr = ItemAnalysis.item_id <$> List.filter early_signed (Launch.analyses l) /\
      omap label_of tr = reply_label <$> rows).
Proof using Hl.
  eapply emits_on_bind_ret; [apply emits_on_forM; intros rep Hrep; by apply early_item_spec|].
  intros tr r Hloop. unshelve epose proof (loops_collect (fun tr => forall pre, grounded early_ok pre tr) sugg_id label_of
      (fun rep => if early_signed rep then [ItemAnalysis.item_id rep] else []) (fun o => reply_label <$> option_list o)
      _ _ _ _ _ _ _ Hloop) as [Hk Hr]; [done|intros t1 t2 H1 H2 pre; apply grounded_app; by split|by intros|].
  split; [exact Hk|]. destruct r as [rs|e]; [|done]. intros rows [= <-]. destruct (Hr rs eq_refl) as [-> ->]. clear. split.
  - induction (Launch.analyses l) as [|a a_s IH]; csimpl; [done|]. rewrite IH. by destruct (early_signed a).
  - induction rs as [|[row|] rs IH]; csimpl; by rewrite ?IH.
Qed.
End Item.

Lemma early_launches_spec :
  emits_on here (rows ← forM (fun l => rs ← forM (early_item (vec := vec) eng l) (Launch.analyses l); mret (omap id rs)) launches;
                 mret (concat rows))
    (fun tr r => grounded early_ok [] tr /\ forall out, r = Ok out ->
      omap label_of tr = reply_label <$> out /\
      omap sugg_id tr = launches ≫= (fun l => ItemAnalysis.item_id <$> List.filter early_signed (Launch.analyses l))).
Proof.
  eapply emits_on_bind_ret; [apply emits_on_forM; intros l Hl; by apply early_launch_spec|].
  intros tr r Hloop. unshelve epose proof (loops_collect (fun tr => forall pre, grounded early_ok pre tr) sugg_id label_of
      (fun l => ItemAnalysis.item_id <$> List.filter early_signed (Launch.analyses l)) (fun rows => reply_label <$> rows)
      _ _ _ _ _ _ _ Hloop) as [Hk Hr]; [done|intros t1 t2 H1 H2 pre; apply grounded_app; by split|by intros|].
  split; [apply Hk|]. destruct r as [rs|e]; [|done]. intros out [= <-]. destruct (Hr rs eq_refl) as [-> ->].
  split; [|done]. clear. induction rs as [|b rs IH]; csimpl; [done|]. by rewrite fmap_app, IH.
Qed.
End Early.

(** C6. The early per-item pass.  Switched off it does nothing at all.  Switched
  on, it stores one suggestion, marked as early, for each item with a
  signature, and applies a label only after it, for the decision it stores, in the
  automatic band, neither an abstention nor a system issue, and only when the
  policy allows it: an inherited or knowledge-base verdict under either
  non-empty policy, a product-bug prediction of the model under the wider
  policy and above its own bar.  Every decision is on an item of its launch and on
  the store's answers about it.  The reply lists exactly the applied labels.

  The method's docstring and the feature's page say that every decision of the
  model is demoted to a suggestion; the code applies the product-bug ones above. *)
Theorem early_pass_policy (launches : list Launch.t) (w : world St event) :
  let run := analyze_item_early (vec := vec) eng launches w in
  (Engine.early_item_analysis eng = false -> run = (w, Ok [])) /\
  exists tr, trace run.1 = trace w ++ tr /\
    (forall pre e post, tr = pre ++ e :: post ->
       exists l, l ∈ launches /\ early_backed launches (st w) l pre e) /\
    forall out, run.2 = Ok out ->
      omap label_of tr = reply_label <$> out /\
      (Engine.early_item_analysis eng = true ->
       omap sugg_id tr = launches ≫= (fun l => ItemAnalysis.item_id <$> List.filter early_signed (Launch.analyses l))).
Proof.
  intros run. unfold run, analyze_item_early. split; [by intros ->|].
  destruct (Engine.early_item_analysis eng); simpl.
  2: { exists []. rewrite app_nil_r. split_and!; [done|by intros [|? ?] ? ?|]. by intros out [= <-]. }
  destruct (early_launches_spec launches (st w) w ltac:(unfold reaches; reflexivity)) as (_ & tr & Ht & Hk & Hr).
  exists tr. split_and!; [done|intros pre e post ->; exact (grounded_split _ [] _ _ _ Hk)|].
  intros out Hout. destruct (Hr out Hout). by split.
Qed.

(** Why: a product bug the model is sure enough of is applied, not demoted. *)
Lemma confident_pb_applied d :
  Engine.early_label_policy eng = "kb_inherit_and_pb" -> DecisionResult.method d = METHOD_GBM ->
  DecisionResult.label d = "pb" -> DecisionResult.action d = ACTION_AUTO ->
  (Engine.early_gbm_pb_min eng <=? DecisionResult.confidence d)%F = true -> early_applies eng d = true.
Proof.
  intros Hp Hm Hl Ha Hc. unfold early_applies. rewrite Hp, Hm, Hl, Ha, Hc. reflexivity.
Qed.

(** ** Suggest *)

(** The tail of [suggest]: store the decision, read the sidecar's rows, render,
  queue the sidecar's jobs. *)
Definition suggested (k : Knobs.t) (info : item_info) (rep : analysis) (elapsed : pyfloat) (d : DecisionResult.t)
    (tr : list event) (r : result (list sug_result)) : Prop :=
  let s := ESuggestion (suggestion_in eng (TestItemInfo.project info) (TestItemInfo.testItemId info)
                          (TestItemInfo.launchId info) None d None) in
  (tr = [] /\ exists e, r = Raise e) \/
  exists enq verdict provisional, tr = s :: enq /\ Forall enqueued enq /\
    (Engine.sidecar_enabled eng = false -> enq = [] /\ verdict = None) /\
    let merged := SignatureResult.is_merged_small_logs (ItemAnalysis.signature rep) in
    r = Ok (_maybe_rubric_fallback (Engine.sidecar_enabled eng && Engine.coldstart_enabled eng) provisional
              (_render_suggestions k info merged d elapsed verdict) info merged elapsed).

(** The scope of a suggest request: its own launch. *)
Definition suggest_scope (info : item_info) (prev : Z) : ScopeQuery.t :=
  ScopeQuery.mk (TestItemInfo.project info) (TestItemInfo.launchId info) (TestItemInfo.launchName info) prev.

Lemma suggest_spec s0 k info mode prev rep elapsed
    (Hsig : SignatureResult.signature_text (ItemAnalysis.signature rep) <> "") :
  let p := TestItemInfo.project info in
  emits_on (reaches [p] s0) (suggest (vec := vec) eng k info mode prev rep elapsed) (fun tr r =>
    exists t1 t2, tr = t1 ++ t2 /\
      Forall (fun e => decision_ok "suggest" mode (suggest_scope info prev) [p] p s0 rep e \/ auxiliary e) t1 /\
      (t2 = [] /\ (exists e, r = Raise e) \/
       exists d inputs, EDecide (ItemAnalysis.item_id rep) inputs d ∈ t1 /\ suggested k info rep elapsed d t2 r)).
Proof.
  intros p. assert (p ∈ [p]) as Hp by (by left). unfold suggest. rewrite decide_False by done.
  fold (suggest_scope info prev). fold p.
  eapply emits_on_bind with (Q := fun dm tr r => exists t1 t2, tr = t1 ++ t2 /\ Forall auxiliary t1 /\
      suggested k info rep elapsed dm.1 t2 r); [by apply decide_spec| | |].
  - intros [d mm]. eapply emits_on_bind with (P := fun tr r => Forall auxiliary tr /\ r = Ok tt)
      (Q := fun _ => suggested k info rep elapsed d); [| |by intros tr e [_ ?]|].
    + apply emits_keeping; [by apply moves_membership with (ps := [p]); [apply _|]|apply membership_spec].
    + intros _. apply emits_keeping.
      { apply moves_bind; [apply _|by apply moves_suggestion with (ps := [p]); [apply _|]|intros sid].
        do 2 (apply moves_bind; [apply _|apply moves_read, _|intros ?]).
        apply moves_bind; [apply _|by apply moves_enqueue with (ps := [p]); [apply _|]|intros _]. apply moves_ret, _. }
      intros w. unfold _write_suggestion, call, mbind, M_bind. unfold suggested. fold p.
      destruct (write_suggestion _ _) as [s1 [sid|e]]; simpl.
      2: { exists []. rewrite app_nil_r. split; [done|]. left. eauto. }
      set (ws := mk_world s1 _).
      destruct (enqueue_llm_spec p (TestItemInfo.testItemId info) (TestItemInfo.launchId info)
                d (Some (_judge_candidates d)) (Some sid) ws) as (enq & Ht & Henq & Hoff & Hr).
      destruct (_enqueue_llm _ _ _ _ _ _ _ _) as [w2 r2]. simpl in *. subst r2.
      eexists (_ :: enq). split; [unfold mret, M_ret; simpl; by rewrite Ht, <- (assoc_L (++))|]. right. eexists enq, _, _.
      split_and!; [done|done| |reflexivity]. intros Hs. split; [auto|]. by rewrite Hs.
    + intros t1 [] t2 r [H1 _] H2. by exists t1, t2.
  - intros tr e [Ht _]. exists tr, []. rewrite app_nil_r. split_and!; [done| |left; eauto].
    eapply Forall_impl; [exact Ht|]. auto.
  - intros t1 [d mm] t2 r [H1 Hd] (ta & tb & -> & Ha & Hs). exists (t1 ++ ta), tb.
    split_and!; [by rewrite (assoc_L (++))| |right].
    + apply Forall_app. split; (eapply Forall_impl; [eassumption|]); auto.
    + destruct (Hd _ eq_refl) as [inputs Hin]. exists d, inputs. split; [apply elem_of_app; by left|done].
Qed.

(** C7. The suggest route only suggests.  It never applies a label; an item
  without a signature is answered with nothing, stores nothing and decides
  nothing; any other completed call stores exactly one suggestion, the
  decision made in this call, and answers with the rendering of that same
  decision.  Every decision of the call is about the item asked for and is
  [decide] on the answers of the store, in the scope of the item's own launch:
  its evidence is labels of other, labelled items of the project.  The sidecar
  is asked only after that suggestion is stored, and not at all when it is off. *)
Theorem suggest_route labelled_item `{!EvidenceLaws labelled_item} k info mode prev rep elapsed (w : world St event) :
  let run := suggest (vec := vec) eng k info mode prev rep elapsed w in
  let merged := SignatureResult.is_merged_small_logs (ItemAnalysis.signature rep) in
  let p := TestItemInfo.project info in
  let self := ItemAnalysis.item_id rep in
  exists tr, trace run.1 = trace w ++ tr /\ omap label_of tr = [] /\
    (SignatureResult.signature_text (ItemAnalysis.signature rep) = "" -> tr = [] /\ run.2 = Ok []) /\
    (forall i x d, EDecide i x d ∈ tr -> i = self /\ exists s s1 s2,
       reaches [p] (st w) s /\ reaches [p] s s1 /\ reaches [p] s1 s2 /\
       evidence_at "suggest" mode (suggest_scope info prev) p rep s s1 s2 x /\
       of_others labelled_item "suggest" mode (suggest_scope info prev) p self s1 s2 x /\
       decides (now s2) (Engine.auto_min_prob eng) x d) /\
    (Engine.sidecar_enabled eng = false -> Forall (fun e => ~ enqueued e) tr) /\
    forall out, run.2 = Ok out -> SignatureResult.signature_text (ItemAnalysis.signature rep) <> "" ->
      exists pre d x verdict provisional post,
        tr = pre ++ ESuggestion (suggestion_in eng p (TestItemInfo.testItemId info)
                                   (TestItemInfo.launchId info) None d None) :: post /\
        EDecide self x d ∈ pre /\ Forall (fun e => ~ enqueued e /\ sugg_id e = None) pre /\
        Forall enqueued post /\
        out = _maybe_rubric_fallback (Engine.sidecar_enabled eng && Engine.coldstart_enabled eng) provisional
                (_render_suggestions k info merged d elapsed verdict) info merged elapsed.
Proof.
  intros run merged p self.
  destruct (decide (SignatureResult.signature_text (ItemAnalysis.signature rep) = "")) as [He|Hsig].
  { exists []. unfold run, suggest. rewrite decide_True by done. rewrite app_nil_r.
    split_and!; try done; [by intros i x d ?%elem_of_nil]. }
  destruct (suggest_spec (st w) k info mode prev rep elapsed Hsig w ltac:(unfold reaches; reflexivity))
    as (_ & tr & Ht & t1 & t2 & -> & H1 & H2).
  fold run p in Ht, H1, H2. exists (t1 ++ t2).
  assert (Forall (fun e => ~ enqueued e /\ sugg_id e = None) t1) as Hpre.
  { eapply Forall_impl; [exact H1|]. intros []; simpl; tauto. }
  assert (Forall (fun e => label_of e = None) t1) as Hlab1.
  { eapply Forall_impl; [exact H1|]. intros []; simpl; tauto. }
  assert (t2 = [] /\ (exists e, run.2 = Raise e) \/
          exists d inputs, EDecide self inputs d ∈ t1 /\
            exists enq verdict provisional, t2 = ESuggestion (suggestion_in eng p
                (TestItemInfo.testItemId info) (TestItemInfo.launchId info) None d None) :: enq /\ Forall enqueued enq /\
              (Engine.sidecar_enabled eng = false -> enq = [] /\ verdict = None) /\
              run.2 = Ok (_maybe_rubric_fallback (Engine.sidecar_enabled eng && Engine.coldstart_enabled eng)
                provisional (_render_suggestions k info merged d elapsed verdict) info merged elapsed)) as Hcase.
  { destruct H2 as [?|(d & x & Hin & [?|Hs])]; [by left|by left|]. right. by exists d, x. }
  assert (Forall (fun e => (enqueued e /\ Engine.sidecar_enabled eng = true) \/ exists s, e = ESuggestion s) t2) as Hpost.
  { destruct Hcase as [[-> _]|(d & x & _ & enq & v & pr & -> & Henq & Hoff & _)]; [constructor|].
    constructor; [eauto|]. destruct (Engine.sidecar_enabled eng); [|by rewrite (proj1 (Hoff eq_refl))].
    eapply Forall_impl; [exact Henq|]. auto. }
  assert (forall e, e ∈ t2 -> (enqueued e /\ Engine.sidecar_enabled eng = true) \/ exists s, e = ESuggestion s) as Hpost'
    by (apply Forall_forall; exact Hpost).
  clear H2. split_and!; [done| |done| | |].
  - rewrite omap_app. rewrite (omap_none label_of t1) by done. apply omap_none.
    eapply Forall_impl; [exact Hpost|]. by intros [] [[? _]|[? [=]]].
  - intros i x d [Hin|Hin]%elem_of_app; [|by destruct (Hpost' _ Hin) as [[? _]|[? [=]]]].
    apply (proj1 (Forall_forall _ _) H1) in Hin as [(-> & s & s1 & s2 & Hs & Hs1 & Hs2 & Hev & Hd)|[]].
    split; [done|]. exists s, s1, s2. split_and!; [done..|by eapply evidence_of_others|done].
  - intros Hoff. apply Forall_app. split.
    + eapply Forall_impl; [exact Hpre|]. by intros e [? _].
    + eapply Forall_impl; [exact Hpost|]. intros e [[_ Hon]|[s ->]]; [congruence|simpl; tauto].
  - intros out Hout _. destruct Hcase as [[_ [e He]]|(d & x & Hin & enq & v & pr & -> & Henq & _ & Hrun)]; [congruence|].
    exists t1, d, x, v, pr, enq. split_and!; try done. congruence.
Qed.
End RouteLaws.

(** ** Clusters *)

Lemma by_item_app {B} (f : analysis -> B) l a :
  by_item f (l ++ [a]) = dset (ItemAnalysis.item_id a) (f a) (by_item f l).
Proof. unfold by_item. by rewrite fold_left_app. Qed.

(** The dict of a launch's analyses knows every item, and its own analysis when
    ids are distinct. *)
Lemma by_item_known (l : list analysis) a : a ∈ l -> is_Some (dget (ItemAnalysis.item_id a) (by_item id l)).
Proof.
  induction l as [|x l IH] using rev_ind; [by intros ?%elem_of_nil|].
  rewrite by_item_app. intros [Ha%IH| ->%list_elem_of_singleton]%elem_of_app.
  - apply dget_is_Some, elem_of_dset_keys. right. by apply dget_is_Some.
  - by rewrite dget_dset_eq.
Qed.

Lemma by_item_lookup (l : list analysis) a :
  NoDup (ItemAnalysis.item_id <$> l) -> a ∈ l -> dget (ItemAnalysis.item_id a) (by_item id l) = Some a.
Proof.
  intros Hnd Ha. destruct (by_item_known l a Ha) as [b Hb]. rewrite Hb. f_equal.
  apply by_item_own in Hb as [Hb Hin]. by eapply NoDup_fmap_elem_inj.
Qed.

Section ClusterLaws.
Context `{!XXHash} {St : Type} `{!Stores St} {vec : Type} `{!Numpy vec, !Libm} (eng : Engine.t St).

Lemma cluster_id_range project launch h fu : 0 <= _cluster_id project launch h fu < 2 ^ 53.
Proof.
  unfold _cluster_id, INT53_MASK. change (Z.shiftl 1 53 - 1) with (Z.ones 53).
  rewrite Z.land_ones by lia. apply Z.mod_pos_bound. lia.
Qed.

Lemma dindex_Ok {B} i (d : list (Z * B)) b (w : world St event) : dget i d = Some b -> dindex i d w = (w, Ok b).
Proof. unfold dindex, of_result. by intros ->. Qed.

(** The logs of the item with id [i]. *)
Definition logs_at (by_id : list (Z * analysis)) (i : Z) : list Z :=
  default [] (ItemAnalysis.log_ids <$> dget i by_id).

Lemma cluster_of_spec project launch fu by_id (g : LaunchGroup.t vec) (w : world St event) :
  (forall m, m ∈ LaunchGroup.members g -> is_Some (dget (GroupItem.item_id m) by_id)) ->
  (exists r, LaunchGroup.representative g = Some r /\ r ∈ LaunchGroup.members g) ->
  exists c, cluster_of project launch fu by_id g w = (w, Ok c) /\
    ClusterInfo.itemIds c = GroupItem.item_id <$> LaunchGroup.members g /\
    ClusterInfo.logIds c = LaunchGroup.members g ≫= (fun m => logs_at by_id (GroupItem.item_id m)) /\
    exists r, r ∈ LaunchGroup.members g /\ ClusterInfo.clusterId c = _cluster_id project launch (GroupItem.error_hash r) fu.
Proof.
  intros Hby (r & Hr & Hin). unfold cluster_of. rewrite Hr. destruct (Hby r Hin) as [rep Hrep].
  rewrite (bind_ok _ _ w w r eq_refl), (bind_ok _ _ w w rep (dindex_Ok _ _ _ _ Hrep)).
  erewrite bind_ok; [|apply (forM_pure _ (fun m => (GroupItem.item_id m, logs_at by_id (GroupItem.item_id m))))].
  2: { intros m [a Ha]%Hby. rewrite (bind_ok _ _ w w a (dindex_Ok _ _ _ _ Ha)). unfold logs_at. by rewrite Ha. }
  eexists. split; [reflexivity|]. simpl. split_and!.
  - by rewrite <- list_fmap_compose.
  - rewrite <- list_fmap_compose. apply concat_fmap.
  - by exists r.
Qed.

(** The cluster route is total and read-only: from any state it answers,
  without a write and without raising, with clusters whose items are a
  permutation of the launch's items; when item ids are distinct their log ids
  are exactly the launch's log ids.  Every cluster has a member and an id in
  the 53-bit range a JSON number carries exactly. *)
Theorem cluster_route_total project launch fu (analyses : list analysis) (w : world St event) :
  exists cs, cluster (vec := vec) eng project launch fu analyses w = (w, Ok cs) /\
    cs ≫= ClusterInfo.itemIds ≡ₚ ItemAnalysis.item_id <$> analyses /\
    (NoDup (ItemAnalysis.item_id <$> analyses) ->
     cs ≫= ClusterInfo.logIds ≡ₚ analyses ≫= ItemAnalysis.log_ids) /\
    Forall (fun c => ClusterInfo.itemIds c <> [] /\ 0 <= ClusterInfo.clusterId c < 2 ^ 53) cs.
Proof.
  unfold cluster, read. unfold mbind at 1, M_bind at 1. simpl.
  set (gs := _group eng project launch analyses (st w)). set (by_id := by_item id analyses).
  assert (forall m, m ∈ all_members gs -> exists a, a ∈ analyses /\ m = group_item project (st w) a) as Hmem.
  { intros m. unfold gs, _group. rewrite group_launch_members. intros (a & -> & Ha)%list_elem_of_fmap. by exists a. }
  assert (forall m, m ∈ all_members gs -> is_Some (dget (GroupItem.item_id m) by_id)) as Hknown.
  { intros m (a & Ha & ->)%Hmem. by apply by_item_known. }
  assert (forall g, g ∈ gs -> forall m, m ∈ LaunchGroup.members g -> m ∈ all_members gs) as Hsub.
  { intros g Hg m Hm. apply list_elem_of_bind. by exists g. }
  assert (exists f, forall g, g ∈ gs -> cluster_of project launch fu by_id g w = (w, Ok (f g)) /\
            ClusterInfo.itemIds (f g) = GroupItem.item_id <$> LaunchGroup.members g /\
            ClusterInfo.logIds (f g) = LaunchGroup.members g ≫= (fun m => logs_at by_id (GroupItem.item_id m)) /\
            ClusterInfo.itemIds (f g) <> [] /\ 0 <= ClusterInfo.clusterId (f g) < 2 ^ 53) as [f Hf].
  { exists (fun g => match (cluster_of project launch fu by_id g w).2 with Ok c => c | Raise _ => ClusterInfo.mk 0 "" [] [] end).
    intros g Hg. destruct (cluster_of_spec project launch fu by_id g w) as (c & Hc & Hi & Hl & r & Hr & Hid).
    - eauto.
    - by apply (group_launch_represented _ _ _ _ _ _ Hg).
    - rewrite Hc. simpl. split; [done|]. split; [done|]. split; [done|].
      split; [|rewrite Hid; apply cluster_id_range]. rewrite Hi. by destruct (LaunchGroup.members g); [apply elem_of_nil in Hr|]. }
  exists (f <$> gs). split_and!.
  - apply forM_pure. intros g Hg. by apply Hf.
  - rewrite (bind_fmap_bind f _ LaunchGroup.members (fun m => [GroupItem.item_id m])).
    2: { intros g Hg. rewrite (proj1 (proj2 (Hf g Hg))). by rewrite bind_single_fmap. }
    rewrite bind_single_fmap. unfold gs at 1. fold (all_members (_group eng project launch analyses (st w))).
    unfold _group. rewrite group_launch_members, <- list_fmap_compose. done.
  - intros Hnd. rewrite (bind_fmap_bind f _ LaunchGroup.members (fun m => logs_at by_id (GroupItem.item_id m))).
    2: { intros g Hg. apply (Hf g Hg). }
    fold (all_members gs). unfold gs, _group. rewrite group_launch_members.
    rewrite <- (concat_fmap _ (_ <$> analyses)), <- list_fmap_compose, <- concat_fmap. apply reflexive_eq. f_equal.
    apply list_fmap_ext. intros i a Ha%list_elem_of_lookup_2. unfold compose, logs_at. simpl.
    unfold by_id. by rewrite (by_item_lookup analyses a Hnd Ha).
  - apply Forall_fmap, Forall_forall. intros g Hg. apply (Hf g Hg).
Qed.
End ClusterLaws.

(** ** Identity *)

Section Identity.
Context {St : Type} `{!Stores St}.

(** A stored signature reads back as the identity it was written from. *)
Lemma identity_of_persisted project rep :
  Forall word (SignatureResult.exc_classes (ItemAnalysis.signature rep)) ->
  identity_of_stored (SignatureIn.stored (signature_in project rep)) =
  identity_of_signature (ItemAnalysis.signature rep).
Proof.
  intros Hw. unfold identity_of_stored, identity_of_signature, signature_in. cbn. by rewrite split_join_words.
Qed.

(** One item, one identity.  Resolving the identity of an item never raises;
  and once a resolution has read or written a stored signature, resolving the
  same item again answers the same identity and writes nothing, provided the
  store returns what was upserted and class names are words. *)
Theorem identity_roundtrip project rep (w w' : world St event) i
    (Hstore : forall s (x x' : St), upsert_signature s x = (x', Ok tt) ->
       get_signature x' (SignatureIn.project_id s) (SignatureIn.item_id s) = Some (SignatureIn.stored s))
    (Hwords : Forall word (SignatureResult.exc_classes (ItemAnalysis.signature rep)))
    (Hrun : _resolve_identity project rep w = (w', i))
    (Hkept : get_signature (st w) project (ItemAnalysis.item_id rep) <> None \/ trace w' <> trace w) :
  (exists id, i = Ok id) /\ _resolve_identity project rep w' = (w', i).
Proof.
  unfold _resolve_identity in *. unfold mbind, M_bind, read in *.
  destruct (get_signature (st w) project (ItemAnalysis.item_id rep)) as [s|] eqn:Hget.
  { injection Hrun as <- <-. rewrite Hget. split; [by eexists|done]. }
  destruct Hkept as [?|Htr]; [done|].
  unfold _persist_recomputed_signature in Hrun. destruct (decide _) as [He|Hne].
  { injection Hrun as <- <-. done. }
  unfold quietly, attempt, call, mbind, M_bind in Hrun.
  destruct (upsert_signature _ _) as [x' [[]|e]] eqn:Hup; injection Hrun as <- <-; [|done].
  apply Hstore in Hup. cbn in Hup |- *. rewrite Hup. split; [by eexists|].
  unfold mret, M_ret. f_equal. f_equal. exact (identity_of_persisted project rep Hwords).
Qed.
End Identity.

(** ** Witness: a store that keeps signatures in a list *)

Definition demo_lookup (x : list SignatureIn.t) (p i : Z) : option StoredSignature.t :=
  SignatureIn.stored <$> List.find (fun s => (SignatureIn.project_id s =? p) && (SignatureIn.item_id s =? i)) x.

#[local] Instance demo_stores : Stores (list SignatureIn.t) := {|
    now := fun _ => 0; get_signature := demo_lookup; find_hash_matches := fun _ _ _ => [];
    match_modes := fun _ _ _ => []; find_candidates := fun _ _ _ _ _ => []; item_launch_names := fun _ _ _ => [];
    error_hash_seen := fun _ _ _ _ => false; get_test_history := fun _ _ _ => None;
    test_case_first_seen := fun _ _ _ => None; latest_judge := fun _ _ _ => None;
    latest_rubric_provisional := fun _ _ _ => None;
    upsert_signature := fun s x => (s :: x, Ok tt);
    ensure_seed_mode := fun _ _ x => (x, Raise (OtherError "down"));
    upsert_launch_group := fun _ _ _ _ _ _ x => (x, Ok 1);
    write_suggestion := fun _ x => (x, Ok 7);
    update_issue_type := fun _ _ _ x => (x, Ok tt);
    add_members := fun _ _ _ _ x => (x, Ok tt);
    enqueue := fun _ _ _ _ x => (x, Ok tt)
  |}.

Definition demo_signature : SignatureResult.t :=
  SignatureResult.mk 11 12 [13] ["App.run"] ["500"] "boom" ["TypeError"; "IOError"] true false false "TypeError boom".
Definition demo_analysis : analysis := ItemAnalysis.mk 5 1 1 1 2 0 demo_signature None 0 1 [9] "boom".

Lemma identity_roundtrip_witness :
  let w' := (_resolve_identity 2 demo_analysis (mk_world (@nil SignatureIn.t) [])).1 in
  (_resolve_identity 2 demo_analysis w').1 = w'.
Proof.
  intros w'.
  assert (forall s (x x' : list SignatureIn.t), upsert_signature s x = (x', Ok tt) ->
       get_signature x' (SignatureIn.project_id s) (SignatureIn.item_id s) = Some (SignatureIn.stored s)) as Hlaw.
  { intros s x x' [= <-]. cbn. unfold demo_lookup. cbn. by rewrite !Z.eqb_refl. }
  destruct (identity_roundtrip 2 demo_analysis (mk_world (@nil SignatureIn.t) []) w'
              (_resolve_identity 2 demo_analysis (mk_world (@nil SignatureIn.t) [])).2 Hlaw) as [_ H].
  - by repeat constructor.
  - reflexivity.
  - right. vm_compute. discriminate.
  - rewrite H. reflexivity.
Defined.
