(* ===== verification/Wiring.v ===== *)
(** * The engine on the store

    [service.py] and the [bind] of [core/handlers.py] hand the analysis engine the
    repositories and the sidecar's queue.  [Frame] is what the engine needs of them
    for its effects to stay inside some projects; every route keeps a frame.  Then
    the wired stores: the repositories over the service's store, one transaction per
    call, any of which the database may refuse; and the queue behind the sidecar's
    switches.  They are a frame, so a route is a sequence of repository writes about
    its own projects.

    The engine's text is a string of characters below 256. *)

From S2P Require Import Prelude PyFloat PyStr PyJson PyTime Drain LlmQueue Ingest LlmEngine Models Features Decision Grouping Scope Hashing.
From S2P Require Import Database Retrieval Knowledge HybridSearch TestStats StoreOps StoreInv RouteHandlers.
From S2P Require Import Suggest Analyze Emit.
From Stdlib Require Import ZArith Lia.

#[local] Open Scope string_scope.
#[local] Open Scope list_scope.
#[local] Open Scope Z_scope.

Section Routes.
Context {St : Type} `{!Stores St, !Libm, !XXHash} {vec : Type} `{!Numpy vec} (eng : Engine.t St).

(** The deciding routes, and the projects each is about. *)
Inductive engine_route (ps : list Z) : forall {A}, M St event A -> Prop :=
  | r_analyze launches : Launch.project <$> launches ⊆ ps -> engine_route ps (analyze (vec := vec) eng launches)
  | r_early launches : Launch.project <$> launches ⊆ ps -> engine_route ps (analyze_item_early (vec := vec) eng launches)
  | r_suggest k info mode prev rep elapsed : TestItemInfo.project info ∈ ps ->
      engine_route ps (suggest (vec := vec) eng k info mode prev rep elapsed)
  | r_cluster project launch for_update analyses : project ∈ ps ->
      engine_route ps (cluster (vec := vec) eng project launch for_update analyses).

Lemma route_framed ps (R : St -> St -> Prop) `{!Frame ps R} {A} (m : M St event A) : engine_route ps m -> moves R m.
Proof.
  destruct 1 as [launches Hp|launches Hp|k info mode prev rep elapsed Hp|project launch upd analyses Hp].
  - by apply moves_analyze with (ps := ps).
  - unfold analyze_item_early. destruct (negb _); [solve_moves|].
    apply moves_bind; [apply _| |intros; apply moves_ret, _]. apply moves_forM; [apply _|]. intros l Hl.
    apply moves_bind; [apply _| |intros; apply moves_ret, _]. apply moves_forM; [apply _|]. intros a _.
    apply moves_early with (ps := ps); [done|]. apply Hp, list_elem_of_fmap. by exists l.
  - unfold suggest. cbv zeta. destruct (decide _); [solve_moves|].
    apply moves_bind; [apply _|by apply moves_decide with (ps := ps)|]. intros [d mm].
    apply moves_bind; [apply _|by apply moves_membership with (ps := ps)|intros _].
    apply moves_bind; [apply _|by apply moves_suggestion with (ps := ps)|intros sid].
    apply moves_bind; [apply _|solve_moves|intros verdict]. apply moves_bind; [apply _|solve_moves|intros provisional].
    apply moves_bind; [apply _|by apply moves_enqueue with (ps := ps)|intros _]. solve_moves.
  - unfold cluster, cluster_of, dindex. solve_moves.
Qed.
End Routes.

(** ** The repositories as the engine sees them *)

Definition texts (l : list string) : list ustr := u <$> l.

Definition stored_signature (s : SigIn.t) : StoredSignature.t :=
  StoredSignature.mk (SigIn.exception_fp s) (SigIn.error_hash s) (of_u <$> SigIn.top_frames s) (SigIn.template_ids s)
    (of_u (SigIn.exc_text s)) (of_u (SigIn.msg_text s)) (of_u <$> SigIn.status_codes s).

Definition sig_row (s : SignatureIn.t) : SigIn.t :=
  let i := SignatureIn.stored s in
  SigIn.mk (SignatureIn.project_id s) (SignatureIn.item_id s) (StoredSignature.exception_fp i)
    (StoredSignature.error_hash i) (texts (StoredSignature.top_frames i)) (StoredSignature.template_ids i)
    (u (StoredSignature.exc_text i)) (u (StoredSignature.msg_text i)) (u (SignatureIn.frames_text s))
    (u (SignatureIn.tmpl_text s)) (texts (StoredSignature.status_codes i)) (SignatureIn.emb s)
    (SignatureIn.emb_model_ver s) None.

Definition hash_row (r : HashMatchRow.t) : HashRow.t :=
  HashRow.mk (HashMatchRow.item_id r) (HashMatchRow.launch_id r) (Some (of_u (HashMatchRow.launch_name r)))
    (of_u (default [] (HashMatchRow.issue_type r))) (of_u <$> HashMatchRow.group r) (HashMatchRow.label_source r)
    (HashMatchRow.label_ts r) (HashMatchRow.is_auto_analyzed r) (Some (HashMatchRow.exception_fp r))
    (of_u <$> HashMatchRow.status_codes r) (Some (of_u (HashMatchRow.msg_text r))).

Definition query_of (q : QuerySignature.t) : Query.t :=
  Query.mk (QuerySignature.exception_fp q) (QuerySignature.error_hash q) (QuerySignature.template_ids q)
    (texts (QuerySignature.salient_terms q)) (texts (QuerySignature.exception_names q)) (QuerySignature.emb q)
    (QuerySignature.emb_model_ver q) (QuerySignature.test_case_hash q) (Some (QuerySignature.launch_number q)).

Definition history_row (r : HistRow.t) : TestHistory.t :=
  TestHistory.mk (Some (HistRow.flakiness_score r)) (HistRow.window_runs r) (HistRow.window_failures r)
    (HistRow.window_flips r).

(** The render reads a verdict by its keys; it has none in another JSON value. *)
Definition verdict_of (v : json) : option (list (string * json)) := match v with JObj d => Some d | _ => None end.

Definition rubric_row (s : Database.SugRow.t) : RubricRow.t :=
  RubricRow.mk (Some (Database.SugRow.confidence s)) (of_u <$> Database.SugRow.explanation s) (Some (of_u (Database.SugRow.model_ver s)))
    (Some (of_u (Database.SugRow.predicted_label s))).

Definition method_name (m : method_t) : string :=
  match m with METHOD_HASH => "hash" | METHOD_KB => "kb" | METHOD_GBM => "gbm" | METHOD_RULE_COLD => "rule_cold" end.

Definition suggestion_row (s : SuggestionIn.t) : SuggestionRow.t :=
  SuggestionRow.mk (SuggestionIn.project_id s) (SuggestionIn.item_id s) (SuggestionIn.launch_id s)
    (SuggestionIn.group_id s) (u (SuggestionIn.predicted_label s)) (SuggestionIn.confidence s)
    (SuggestionIn.matched_mode_id s) (SuggestionIn.matched_item_id s)
    ((fun kv => (kv.1, JFloat kv.2)) <$> SuggestionIn.features s) (u (SuggestionIn.model_ver s)) false
    (u <$> SuggestionIn.explanation s) (Some (method_name (SuggestionIn.method s))) (SuggestionIn.abstain_reason s)
    (SuggestionIn.source s).

(** [ensure_project_copy]: the copy starts as a candidate. *)
Definition mode_in (p : Z) (m : SeedMode.t) (title : ustr) : ModeIn.t :=
  ModeIn.mk p "candidate" (Some (u (SeedMode.prior_label m))) (Some "seed") None None [] [] (Some title) None.

Definition ref_json (r : cand_ref) : json :=
  JObj [("id", match ref_id r with Some i => JInt i | None => JNull end); ("label", JStr (u (ref_label r)));
        ("similarity", JFloat (ref_similarity r))].
Definition payload_dict (p : payload) : list (string * json) :=
  match p with
  | PEmpty => []
  | PAbstain sid reason confidence refs =>
      [("suggestion_id", JInt sid); ("abstain_reason", match reason with Some r => JStr (u r) | None => JNull end);
       ("confidence", JFloat confidence); ("candidates", JList (ref_json <$> refs))]
  | PColdstart launch => [("launch_id", JInt launch)]
  | PJudge refs => [("candidates", JList (ref_json <$> refs))]
  end.

(** ** The wired stores *)

(** The sidecar's switches: the master switch, each role's flag, the queue's size. *)
Module Sidecar.
Record t := mk { enabled : bool; role_enabled : string -> bool; queue_max : Z }.
End Sidecar.

Section Wired.
Context `{PgVector, PgSearch, Heapq}.
(** The clock at the next transaction, and the calls the database refuses. *)
Context (tick : Z -> Z) (outage : nat -> option pyexn).
Context (sidecar : Sidecar.t) (title_of : string -> ustr).

(** One transaction. *)
Definition transact {A} (run : Z -> db -> result (db * A)) (s : service) : service * result A :=
  let now := tick (Service.clock s) in
  match outage (Service.calls s) with
  | Some e => (Service.called now s, Raise e)
  | None => match run now (Service.store s) with
            | Ok (d, a) => (Service.with_store d (Service.called now s), Ok a)
            | Raise e => (Service.called now s, Raise e)
            end
  end.

(** [LlmSidecar.enqueue]. *)
Definition sidecar_enqueue (role : string) (p i : Z) (pl : list (string * json)) (s : service) : service * result unit :=
  if negb (Sidecar.enabled sidecar) then (s, Ok tt)
  else if negb (Sidecar.role_enabled sidecar role) then (s, Ok tt)
  else
    let o := LlmQueue.enqueue (Sidecar.queue_max sidecar) (Service.jobs s) (LLMJob.mk role p i pl) in
    (Service.with_jobs (after o) (drops o) s, value o).

#[export] Instance pg_stores : Stores service := {|
  now := Service.clock;
  get_signature s p i := stored_signature <$> Retrieval.get_signatures p [i] (Service.store s) !! i;
  find_hash_matches s p h := hash_row <$> Retrieval.find_hash_matches p h 10 (Service.store s);
  match_modes s p q := Knowledge.match_modes p (query_of q) 10 (Service.store s);
  find_candidates s p q k excluded :=
    HybridSearch.find_candidates p (query_of q) k (Filters.mk excluded [] None []) (Service.store s);
  item_launch_names s p ids :=
    (fun kv => (kv.1, of_u kv.2)) <$> map_to_list (Retrieval.item_launch_names p ids (Service.store s));
  error_hash_seen s p h launch := Retrieval.error_hash_seen p h launch (Service.store s);
  get_test_history s p tch := history_row <$> TestStats.get_test_history p [tch] (Service.store s) !! tch;
  test_case_first_seen s p tch := Retrieval.test_case_first_seen p tch (Service.store s);
  latest_judge s p i := Retrieval.latest_judge (Service.clock s) p i (Service.store s) ≫= verdict_of;
  latest_rubric_provisional s p i := rubric_row <$> Retrieval.latest_rubric_provisional p i (Service.store s);
  upsert_signature x := transact (fun _ d => Ok (Retrieval.upsert_signatures [sig_row x] d, tt));
  ensure_seed_mode p m := transact (fun _ d => Knowledge.ensure_seed_mode p (SeedMode.mode_key m)
                                                 (mode_in p m (title_of (SeedMode.mode_key m))) d);
  upsert_launch_group p launch fp n prior dom :=
    transact (fun _ d => Ok (Retrieval.upsert_launch_group p launch fp n prior dom d));
  write_suggestion x := transact (fun now d => Ok (Retrieval.write_suggestion now (suggestion_row x) d));
  update_issue_type p i l :=
    transact (fun _ d => Ok ((Retrieval.update_issue_type p i (Some (u l)) true d).1, tt));
  add_members p m ms ver :=
    transact (fun now d => '(d, _) ← Knowledge.add_members now p m ms ver d; Ok (d, tt));
  enqueue role p i pl := sidecar_enqueue role p i (payload_dict pl)
|}.

(** A labelled item of the project: one with a label, and not to be investigated. *)
Definition labelled_item (s : service) (p i : Z) : Prop :=
  exists r, Db.test_item (Service.store s) !! (p, i) = Some r /\ labelled (ItemRow.issue_type r) = true.

(** The repositories keep the promise the engine's decisions rest on. *)
#[export] Instance pg_evidence : EvidenceLaws labelled_item.
Proof.
  split.
  - intros s p h row (x & -> & Hx)%list_elem_of_fmap. unfold Retrieval.find_hash_matches in Hx.
    apply list_elem_of_fmap in Hx as ([[i sg] r] & -> & Hin). unfold limited in Hin.
    apply elem_of_take in Hin as (n & Hin%list_elem_of_lookup_2 & _). apply elem_of_pysorted, joined_in in Hin as (_ & Hr & HP).
    apply andb_true_iff in HP as [_ HP]. by exists r.
  - intros s p q k excluded c i Hc Hi. apply (find_candidates_item _ _ _ _ _ _ _ Hc Hi).
Qed.
End Wired.

(** ** What a route leaves *)

Section Effects.
Context `{PgVector, PgSearch, Heapq}.
Context (tick : Z -> Z) (outage : nat -> option pyexn) (sidecar : Sidecar.t) (title_of : string -> ustr).
Hypothesis Hmax : 1 <= Sidecar.queue_max sidecar.

(** The engine's writes, about some projects: it adds rows and relabels items. *)
Definition engine_op (ps : list Z) (o : op) : Prop :=
  match o with
  | UpsertSignatures sigs => Forall (fun s => SigIn.project_id s ∈ ps) sigs
  | EnsureSeedMode p _ _ | UpsertLaunchGroup p _ _ _ _ _ | UpdateIssueType p _ (Some _) true | AddMembers _ p _ _ _ => p ∈ ps
  | WriteSuggestion _ s => SuggestionRow.project_id s ∈ ps
  | _ => False
  end.

Definition written (Q : op -> Prop) (d d' : db) : Prop := exists ops, d' = fold_left (fun d o => exec o d) ops d /\ Forall Q ops.

(** The queue stays well-formed, and a new job is about the projects. *)
Definition queued (ps : list Z) (q q' : queue) : Prop :=
  queue_inv (Sidecar.queue_max sidecar) q ->
  queue_inv (Sidecar.queue_max sidecar) q' /\
  forall j, j ∈ ejob <$> LlmQueue.heap q' -> j ∈ ejob <$> LlmQueue.heap q \/ LLMJob.project_id j ∈ ps.

Record drift (ps : list Z) (s s' : service) : Prop := {
  drift_store : written (engine_op ps) (Service.store s) (Service.store s');
  drift_queue : queued ps (Service.jobs s) (Service.jobs s');
  drift_rest : Service.bound s' = Service.bound s /\ Service.scheduler s' = Service.scheduler s
}.

Lemma written_refl Q d : written Q d d.
Proof. by exists []. Qed.
Lemma written_one (Q : op -> Prop) o d : Q o -> written Q d (exec o d).
Proof. intros HQ. exists [o]. split; [done|by constructor]. Qed.
Lemma written_trans Q d1 d2 d3 : written Q d1 d2 -> written Q d2 d3 -> written Q d1 d3.
Proof.
  intros (o1 & -> & Ho1) (o2 & -> & Ho2). exists (o1 ++ o2). by rewrite fold_left_app, Forall_app.
Qed.

#[export] Instance drift_preorder ps : PreOrder (drift ps).
Proof.
  split.
  - intros s. split; [apply written_refl|intros Hq; by split; [|left]|done].
  - intros s1 s2 s3 [W12 Q12 [B12 S12]] [W23 Q23 [B23 S23]]. split.
    + by eapply written_trans.
    + intros Hq. destruct (Q12 Hq) as [I2 J2]. destruct (Q23 I2) as [I3 J3]. split; [done|].
      intros j [Hj|]%J3; [by apply J2|by right].
    + by rewrite B23, S23.
Qed.

(** A transaction is one write, or none. *)
Lemma transact_drift ps {A} (o : Z -> op) (run : Z -> db -> result (db * A)) s :
  (forall now d, exec (o now) d = committed fst d (run now d)) -> (forall now, engine_op ps (o now)) ->
  drift ps s (transact tick outage run s).1.
Proof.
  intros Hrun Ho. unfold transact. destruct (outage _); [by split; [apply written_refl|intros Hq; split; [|left]|]|].
  destruct (run _ (Service.store s)) as [[d a]|e] eqn:E; [|by split; [apply written_refl|intros Hq; split; [|left]|]].
  split; [|intros Hq; by split; [|left]|done]. cbn.
  specialize (Hrun (tick (Service.clock s)) (Service.store s)). rewrite E in Hrun. cbn in Hrun. subst d.
  by apply written_one.
Qed.

Lemma enqueue_raises q job e : value (LlmQueue.enqueue (Sidecar.queue_max sidecar) q job) = Raise e ->
  after (LlmQueue.enqueue (Sidecar.queue_max sidecar) q job) = q.
Proof.
  unfold LlmQueue.enqueue, push_locked, _reject_or_evict_locked.
  destruct (_ <=? _); [|by destruct (LLMJob.priority job)].
  destruct (worst_priority _) as [w|]; [|done]. destruct (oldest_worst _ _) as [[i en]|]; [|done].
  destruct (LLMJob.priority job) as [p|]; [|done]. by destruct (w <? p).
Qed.

Lemma sidecar_drift ps role p i pl s : p ∈ ps -> drift ps s (sidecar_enqueue sidecar role p i pl s).1.
Proof.
  intros Hp. unfold sidecar_enqueue. destruct (negb _); [done|]. destruct (negb _); [done|].
  set (job := LLMJob.mk role p i pl). split; [apply written_refl| |done]. intros Hq. cbn.
  destruct (value (LlmQueue.enqueue (Sidecar.queue_max sidecar) (Service.jobs s) job)) as [[]|e] eqn:E.
  - destruct (enqueue_inv (Sidecar.queue_max sidecar) (Service.jobs s) job Hmax Hq E) as [Hi (lost & Hl & _)].
    split; [done|]. intros j Hj. assert (j ∈ job :: (ejob <$> LlmQueue.heap (Service.jobs s))) as Hin
      by (rewrite Hl; by apply elem_of_app; left).
    apply elem_of_cons in Hin as [->|Hin]; [by right|by left].
  - rewrite (enqueue_raises _ _ _ E). by split; [|left].
Qed.
#[local] Instance wired : Stores service := pg_stores tick outage sidecar title_of.

(** The wired stores are a frame. *)
#[export] Instance service_frame ps : Frame ps (drift ps).
Proof.
  split; intros; cbn.
  - apply _.
  - apply (transact_drift ps (fun _ => UpsertSignatures [sig_row s])); [done|]. intros _. cbn. by repeat constructor.
  - by apply (transact_drift ps (fun _ => EnsureSeedMode p (SeedMode.mode_key m) (mode_in p m (title_of (SeedMode.mode_key m))))).
  - by apply (transact_drift ps (fun _ => UpsertLaunchGroup p launch fp n prior dom)).
  - by apply (transact_drift ps (fun now => WriteSuggestion now (suggestion_row s))).
  - by apply (transact_drift ps (fun _ => UpdateIssueType p i (Some (u l)) true)).
  - apply (transact_drift ps (fun now => AddMembers now p m ms ver)); [|done]. intros now d. cbn.
    by destruct (Knowledge.add_members _ _ _ _ _ _) as [[]|].
  - by apply sidecar_drift.
Qed.

(** What the engine's writes leave alone. *)
Definition additive (d d' : db) : Prop :=
  Db.label_event d' = Db.label_event d /\ Db.suggestion d ⊆ Db.suggestion d' /\
  dom (Db.test_item d') = dom (Db.test_item d).

#[local] Instance additive_preorder : PreOrder additive.
Proof.
  split; [by intros d|]. intros d1 d2 d3 (L12 & S12 & I12) (L23 & S23 & I23).
  split_and!; [by rewrite L23|by etrans|by rewrite I23].
Qed.

Lemma engine_op_additive ps o d : engine_op ps o -> sequences d -> additive d (exec o d).
Proof.
  intros Ho Hs. destruct o; try done; cbn [exec].
  - unfold Retrieval.update_issue_type. destruct (Db.test_item d !! (p, i)) as [r|] eqn:E; [|done]. cbn.
    split_and!; [done|done|]. cbn. rewrite dom_insert_lookup_L; [done|by eexists].
  - split_and!; [done| |done]. cbn. apply insert_subseteq. apply eq_None_not_Some. intros Hn.
    apply (seq_suggestions d Hs) in Hn. lia.
  - unfold Knowledge.ensure_seed_mode. destruct (check_mode _ _); [|done]. by destruct (seeded _ _ _).
  - unfold Knowledge.add_members. destruct members as [|x ms]; [done|]. destruct (forallb _ _); [|done].
    destruct (Db.failure_mode d !! _); [|done]. by destruct emb_ver.
Qed.

Lemma engine_op_about ps o p : engine_op ps o -> touches o p -> p ∈ ps.
Proof.
  destruct o; cbn; try done; try (by intros ? ->).
  - intros Hf (s & -> & Hin)%list_elem_of_fmap. by apply (proj1 (Forall_forall _ _) Hf).
  - destruct issue_type, is_auto; try done. by intros ? ->.
Qed.

Lemma engine_ops ps ops l d : history l d -> Forall (engine_op ps) ops ->
  let d' := fold_left (fun d o => exec o d) ops d in
  additive d d' /\ forall p, p ∉ ps -> view p d' = view p d.
Proof.
  intros Hh Hf. revert l d Hh. induction Hf as [|o ops Ho _ IH]; intros l d Hh; [done|].
  pose proof (int_sequences d (history_integrity l d Hh)) as Hs.
  destruct (IH _ _ (history_write _ _ o Hh)) as [Ha Hv]. cbn. split.
  - etrans; [by apply (engine_op_additive ps o d)|exact Ha].
  - intros p Hp. rewrite Hv by done. apply write_isolation; [done|]. by intros Ht%(engine_op_about ps).
Qed.

Context `{!Libm, !XXHash} {vec : Type} `{!Numpy vec}.

(** C20. The engine on the real stores: whatever its transactions meet, a deciding
    route leaves the store it found with a sequence of its own writes made to it --
    signatures, seed copies, groups, suggestions, automatic labels and memberships of
    the projects of its request -- so the store keeps its history and integrity; no
    label event, suggestion or item is lost or replaced, no other project sees a
    change, and the sidecar's queue stays within its bound, with new jobs about
    those projects only. *)
Theorem engine_on_the_store (eng : Analyze.Engine.t service) ps {A} (m : M service event A) w l :
  engine_route (vec := vec) eng ps m -> history l (Service.store (st w)) ->
  let s := st w in
  let s' := st (m w).1 in
  exists l', history (l ++ l') (Service.store s') /\ Forall (engine_op ps) l'.*1 /\ integrity (Service.store s') /\
    additive (Service.store s) (Service.store s') /\
    (forall p, p ∉ ps -> view p (Service.store s') = view p (Service.store s)) /\
    queued ps (Service.jobs s) (Service.jobs s').
Proof.
  intros Hm Hh. cbv zeta. destruct (route_framed eng ps (drift ps) m Hm w) as [(ops & Hd & Ho) Hq _].
  pose proof (replay_history l _ ops Hh) as Hr. rewrite replay_store, <- Hd in Hr.
  destruct (engine_ops ps ops l _ Hh Ho) as [Ha Hv]. rewrite <- Hd in Ha, Hv.
  exists (replay (Service.store (st w)) ops).1. rewrite replay_ops.
  split_and!; [done|done|by eapply history_integrity|done..].
Qed.
End Effects.

(** ** A launch, analyzed on a store *)

Section Example.
#[local] Existing Instances toy_vectors toy_search sorted_heapq demo_libm toy_hash demo_numpy.

Definition calm (_ : nat) : option pyexn := None.
Definition both_on : Sidecar.t := Sidecar.mk true (fun role => negb (bool_decide (role = "coldstart"))) 2.
Definition plain_title (key : string) : ustr := u key.
#[local] Instance demo_wired : Stores service := pg_stores Z.succ calm both_on plain_title.

Definition plain_engine : Analyze.Engine.t service :=
  Analyze.Engine.mk service None None None true false (dec 75 100) (dec 85 100) (dec 4 10) (dec 5 1000) true
    "kb_inherit_only" (dec 9 10) "none".

(** Item 20 of project 2 was labelled a product bug by hand; item 21 fails with the
    same signature in the next launch. *)
Definition failing (i : Z) : SigIn.t :=
  SigIn.mk 2 i 11 12 [u "App.run"] [13] (u "TypeError") (u "boom") (u "App.run") [] [u "500"] None 0 None.
Definition stored_test (i launch : Z) (label : option ustr) : TestItemIn.t :=
  TestItemIn.mk i 2 launch (u "nightly") launch (Some 77) (Some (u "t")) (u "test") None false label 0 None.
Definition labelled_then_failing : list op :=
  [UpsertItems 8 [stored_test 20 3 (Some (u "pb001")); stored_test 21 4 (Some (u "ti001"))];
   UpsertSignatures [failing 20; failing 21];
   AppendEvent 9 (LabelLog.LabelEventIn.mk 2 20 (Some (u "ti001")) (u "pb001") "human_ui" None);
   AppendEvent 9 (LabelLog.LabelEventIn.mk 1 10 None (u "ab001") "human_ui" None)].
Definition failed_again : analysis :=
  ItemAnalysis.mk 21 4 4 1 2 77 (SignatureResult.mk 11 12 [13] ["App.run"] ["500"] "boom" ["TypeError"] true false false "TypeError boom")
    None 0 1 [9] "boom".
Definition next_launch : Launch.t :=
  Launch.mk 2 4 "nightly" 3 (Some "ALL")
    [failed_again].
Definition before : service :=
  Service.mk (replay empty_db labelled_then_failing).2 100 0 true None empty_queue [] LlmState.starting.
Definition analyzed : world service event * result (list AnalysisResult.t) :=
  analyze (vec := pyfloat) plain_engine [next_launch] (mk_world before []).

(** The new item inherits the human label of the old one, in the reply, in its row
    and in a suggestion that names its evidence. *)
Example inherits_on_the_store :
  let d := Service.store (st analyzed.1) in
  analyzed.2 = Ok [AnalysisResult.mk 21 "pb001" 20] /\
  ItemRow.issue_type <$> Db.test_item d !! (2, 21) = Some (Some (u "pb001")) /\
  (fun ks => (ks.1, Database.SugRow.item_id ks.2, Database.SugRow.matched_item_id ks.2, Database.SugRow.method ks.2))
    <$> map_to_list (Db.suggestion d) = [(1, 21, Some 20, Some "hash")] /\
  ((fun e => LLMJob.role (ejob e)) <$> LlmQueue.heap (Service.jobs (st analyzed.1))) = ["extractor"].
Proof. vm_compute. done. Qed.

Lemma analyze_launch_fanout_witness :
  let run := _analyze_launch (vec := pyfloat) plain_engine next_launch (mk_world before []) in
  omap sugg_id (trace run.1) ≡ₚ [21] /\
  forall i inputs d, EDecide i inputs d ∈ trace run.1 -> exists s1 s2,
    of_others labelled_item "analyze" (Some "ALL") (_scope_query next_launch) 2 i s1 s2 inputs.
Proof.
  destruct (analyze_launch_fanout (vec := pyfloat) plain_engine labelled_item next_launch (mk_world before []))
    as (tr & Ht & _ & Hev & Hr).
  cbv zeta. rewrite Ht. split.
  - destruct (Hr [AnalysisResult.mk 21 "pb001" 20]) as [Hs _]; [vm_compute; reflexivity|exact Hs].
  - intros i inputs d Hin. destruct (Hev i inputs d Hin) as (s1 & s2 & _ & _ & H). by exists s1, s2.
Defined.

(** The same item, asked for on its own. *)
Definition asked : item_info := TestItemInfo.mk 21 0 4 "nightly" 4 2 0 0 [].

Lemma suggest_route_witness :
  let run := suggest (vec := pyfloat) plain_engine (Knobs.mk 3 true 2 "none") asked (Some "ALL") 3 failed_again f0
               (mk_world before []) in
  omap label_of (trace run.1) = [] /\
  forall i x d, EDecide i x d ∈ trace run.1 -> i = 21 /\
    exists s1 s2, of_others labelled_item "suggest" (Some "ALL") (suggest_scope asked 3) 2 21 s1 s2 x.
Proof.
  destruct (suggest_route (vec := pyfloat) plain_engine labelled_item (Knobs.mk 3 true 2 "none") asked (Some "ALL") 3
              failed_again f0 (mk_world before [])) as (tr & Ht & Hl & _ & Hev & _).
  cbv zeta. rewrite Ht. split; [exact Hl|]. intros i x d Hin.
  destruct (Hev i x d Hin) as [Hi (s & s1 & s2 & _ & _ & _ & _ & H & _)]. split; [exact Hi|]. by exists s1, s2.
Defined.

Lemma engine_on_the_store_witness :
  let s' := st (analyze (vec := pyfloat) plain_engine [next_launch] (mk_world before [])).1 in
  Db.label_event (Service.store s') = Db.label_event (Service.store before) /\
  view 1 (Service.store s') = view 1 (Service.store before) /\ queued both_on [2] (Service.jobs before) (Service.jobs s').
Proof.
  destruct (engine_on_the_store Z.succ calm both_on plain_title ltac:(done) plain_engine [2]
              (analyze (vec := pyfloat) plain_engine [next_launch]) (mk_world before [])
              (replay empty_db labelled_then_failing).1) as (l' & _ & _ & _ & (He & _) & Hv & Hq).
  - apply r_analyze. cbn. set_solver.
  - exact (replay_history [] empty_db labelled_then_failing history_nil).
  - refine (conj He (conj (Hv 1 _) Hq)). apply not_elem_of_cons. split; [done|apply not_elem_of_nil].
Defined.
End Example.
