(* ===== verification/SeedModes.v ===== *)
(** * The packaged seed catalogue

    The tree [yaml.safe_load] returns for [seeds/seed_modes.yaml]: fifty failure
    modes in priority order, each with its rules and its prior.  Non-ASCII text is
    written in UTF-8 and decoded. *)

From S2P Require Import Prelude PyFloat PyStr PyJson UrlCodec.

#[local] Open Scope string_scope.

Definition text (s : string) : json := JStr (utf8_decode (u s)).
Definition texts (l : list string) : json := JList (text <$> l).

(** [{label: ..., confidence: ...}]. *)
Definition prior_of (label : string) (confidence : pyfloat) : json :=
  JObj [("label", text label); ("confidence", JFloat confidence)].

(** One entry, its fields in the order of the file. *)
Definition entry (key title : string) (rules : list (string * list string)) (label : string) (confidence : pyfloat)
    (rationale : string) : json :=
  JObj [("mode_key", text key); ("title", text title); ("rules", JObj ((fun r => (r.1, texts r.2)) <$> rules));
        ("prior", prior_of label confidence); ("rationale", text rationale)].

Definition seed_modes : json :=
  JObj [("version", JInt 1); ("modes", JList [
    entry "oom_java" "Out of memory (JVM/Python)"
      [("exc_re", ["java\.lang\.OutOfMemoryError"; "^MemoryError$"]); ("kw", ["outofmemoryerror"; "gc overhead limit"])]
      "si" (dec 8 10) "Heap exhaustion is an environment/resource issue, rarely the test's logic.";
    entry "oom_killed_container" "Container OOM-killed (exit 137)"
      [("msg_re", ["exit code 137"; "OOMKilled"; "Killed\s+process"]); ("kw", ["oom-killed"; "exit status 137"])]
      "si" (dec 85 100) "cgroup kill = infrastructure sizing, not test or product logic.";
    entry "stack_overflow" "Stack overflow"
      [("exc_re", ["java\.lang\.StackOverflowError"; "^RecursionError$"])]
      "pb" (dec 5 10) "Usually runaway recursion in product code; sometimes test fixtures.";
    entry "disk_full" "Disk full / no space left"
      [("msg_re", ["[Nn]o space left on device"; "DiskFull"]); ("kw", ["disk quota exceeded"])]
      "si" (dec 9 10) "Storage exhaustion on the runner is purely environmental.";
    entry "too_many_open_files" "Too many open files"
      [("msg_re", ["[Tt]oo many open files"]); ("kw", ["emfile"])]
      "si" (dec 75 100) "ulimit/leak on the agent; environment-dominated.";
    entry "conn_refused" "Connection refused"
      [("exc_re", ["ConnectException"; "ConnectionRefusedError"]); ("msg_re", ["[Cc]onnection refused"])]
      "si" (dec 75 100) "Target service down/unreachable — infra or deployment issue.";
    entry "conn_reset" "Connection reset / broken pipe"
      [("msg_re", ["[Cc]onnection reset by peer"; "[Bb]roken pipe"; "ECONNRESET"])]
      "si" (dec 7 10) "Transient network/service instability.";
    entry "conn_timeout" "Connection/read timeout"
      [("exc_re", ["SocketTimeoutException"; "ReadTimeout(Error)?$"; "ConnectTimeout"]); ("msg_re", ["[Tt]imed? ?out (waiting for )?connection"; "read timed out"])]
      "si" (dec 65 100) "Network/service latency; occasionally an undersized test timeout (ab).";
    entry "dns_resolution" "DNS resolution failure"
      [("exc_re", ["UnknownHostException"; "gaierror"]); ("msg_re", ["[Nn]ame or service not known"; "getaddrinfo failed"; "NXDOMAIN"])]
      "si" (dec 85 100) "Name resolution is environment config, never test logic.";
    entry "tls_cert" "TLS/certificate error"
      [("exc_re", ["SSLHandshakeException"; "SSLError"; "CertificateException"]); ("msg_re", ["certificate verify failed"; "PKIX path building failed"; "self[- ]signed certificate"])]
      "si" (dec 8 10) "Cert/truststore problems are environment configuration.";
    entry "port_in_use" "Port already in use"
      [("exc_re", ["BindException"]); ("msg_re", ["[Aa]ddress already in use"; "EADDRINUSE"])]
      "si" (dec 8 10) "Runner port collision — parallelism/environment issue.";
    entry "proxy_gateway" "Proxy / gateway error"
      [("msg_re", ["502 Bad Gateway"; "504 Gateway Time-?out"; "ProxyError"])]
      "si" (dec 75 100) "Intermediary failure between test and system under test.";
    entry "http_5xx" "HTTP 5xx server error"
      [("msg_re", ["\b(HTTP|status( code)?)[ :=]*5\d\d\b"; "Internal Server Error"; "Service Unavailable"])]
      "si" (dec 6 10) "Server-side failure; could be product bug, but bursts are usually systemic.";
    entry "http_401_403" "HTTP 401/403 auth failure"
      [("msg_re", ["\b(HTTP|status( code)?)[ :=]*40[13]\b"; "Unauthorized"; "Forbidden"])]
      "ab" (dec 55 100) "Expired test credentials/tokens are the common cause.";
    entry "http_404" "HTTP 404 not found"
      [("msg_re", ["\b(HTTP|status( code)?)[ :=]*404\b"; "Not Found"])]
      "ab" (dec 45 100) "Often stale endpoint/fixture in the test; sometimes a real routing bug.";
    entry "http_429" "HTTP 429 rate limit / quota"
      [("msg_re", ["\b429\b"; "[Rr]ate limit"; "quota exceeded"; "Too Many Requests"])]
      "si" (dec 75 100) "Throttling by shared services — environmental capacity.";
    entry "db_pool_exhausted" "DB connection pool exhausted"
      [("msg_re", ["[Cc]onnection pool.*(exhaust|timeout)"; "HikariPool.*timed? ?out"; "too many clients already"; "QueuePool limit"])]
      "si" (dec 75 100) "Pool sizing/leaks under load — systemic.";
    entry "db_deadlock" "Deadlock / lock timeout"
      [("msg_re", ["[Dd]eadlock (found|detected)"; "LockAcquisitionException"; "lock wait timeout exceeded"; "could not obtain lock"])]
      "pb" (dec 5 10) "Concurrency bugs in product code, sometimes test data collisions.";
    entry "db_conn_failed" "Database connection failure"
      [("exc_re", ["SQLTransientConnectionException"; "OperationalError"]); ("msg_re", ["(database|db).*(connection (refused|failed))"; "FATAL:\s+(the )?database"; "password authentication failed"])]
      "si" (dec 75 100) "DB unreachable/misconfigured — environment.";
    entry "db_migration_failed" "Schema migration failed"
      [("msg_re", ["[Ff]lyway.*(failed|error)"; "liquibase.*(failed|error)"; "alembic.*(error|failed)"; "migration.*failed"])]
      "si" (dec 7 10) "Migration/environment drift blocks the whole run.";
    entry "kafka_rabbit" "Kafka/RabbitMQ connectivity"
      [("msg_re", ["kafka.*(timeout|not available|disconnect)"; "TimeoutException.*kafka"; "(rabbitmq|amqp).*(refused|unreachable|timeout)"]); ("kw", ["broker not available"; "leader not available"])]
      "si" (dec 75 100) "Message broker availability is infrastructural.";
    entry "redis_conn" "Redis connectivity"
      [("exc_re", ["JedisConnectionException"; "RedisConnectionError"]); ("msg_re", ["redis.*(refused|timeout|unreachable)"; "MISCONF Redis"])]
      "si" (dec 75 100) "Cache layer availability — infra.";
    entry "wd_stale_element" "StaleElementReferenceException"
      [("exc_re", ["StaleElementReferenceException"])]
      "ab" (dec 8 10) "Classic race between DOM refresh and test — test synchronization bug.";
    entry "wd_no_such_element" "NoSuchElementException (locator)"
      [("exc_re", ["NoSuchElementException"]); ("msg_re", ["[Uu]nable to (locate|find) element"])]
      "ab" (dec 65 100) "Broken/changed locator most often; occasionally a real missing UI element.";
    entry "wd_not_interactable" "ElementNotInteractable / ClickIntercepted"
      [("exc_re", ["ElementNotInteractableException"; "ElementClickInterceptedException"]); ("msg_re", ["element not interactable"; "Other element would receive the click"])]
      "ab" (dec 7 10) "Timing/overlay handling in the test.";
    entry "wd_wait_timeout" "Explicit wait timeout"
      [("exc_re", ["org\.openqa\.selenium\.TimeoutException"; "selenium\.common\.exceptions\.TimeoutException"]); ("msg_re", ["[Ee]xpected condition failed.*wait"; "Waited \d+ seconds for"])]
      "ab" (dec 6 10) "Waits/synchronization tuned wrong; sometimes genuine slowness (si).";
    entry "wd_session" "WebDriver session error"
      [("exc_re", ["WebDriverException"; "SessionNotCreatedException"; "NoSuchSessionException"]); ("msg_re", ["invalid session id"; "session deleted because of page crash"; "chrome not reachable"])]
      "si" (dec 7 10) "Browser/driver infrastructure crashed, not the test's assertions.";
    entry "wd_driver_mismatch" "ChromeDriver/browser version mismatch"
      [("msg_re", ["[Tt]his version of ChromeDriver only supports"; "session not created.*version"; "unsupported browser version"])]
      "si" (dec 85 100) "Grid/agent image out of date — environment.";
    entry "browser_console" "Browser console errors assertion"
      [("msg_re", ["console error(s)? (found|detected)"; "severe.*console"; "js console.*error"])]
      "pb" (dec 5 10) "Tests asserting a clean console usually surface real front-end errors.";
    entry "assertion_java" "JUnit/TestNG assertion failure"
      [("exc_re", ["java\.lang\.AssertionError"; "org\.junit\.ComparisonFailure"; "AssertionFailedError"]); ("msg_re", ["expected:.*but was"])]
      "pb" (dec 4 10) "Functional mismatch — pb-leaning, but stale expectations are common; low confidence.";
    entry "assertion_pytest" "pytest assertion failure"
      [("exc_re", ["^AssertionError$"]); ("msg_re", ["^assert\b"; "AssertionError:"])]
      "pb" (dec 4 10) "As above, for Python.";
    entry "assertion_js" "chai/jest expect failure"
      [("msg_re", ["expect\(.*\)\.to"; "expect\(received\)"; "AssertionError \[ERR_ASSERTION\]"; "jest.*expect"]); ("kw", ["expected value to be"])]
      "pb" (dec 4 10) "As above, for JS.";
    entry "snapshot_mismatch" "Snapshot/visual mismatch"
      [("msg_re", ["[Ss]napshot.*(mismatch|does not match|obsolete)"; "toMatchSnapshot"; "screenshot comparison failed"; "pixel difference"])]
      "ab" (dec 5 10) "Snapshots drift with intended UI changes as often as with real bugs.";
    entry "soft_assert_bundle" "Multiple soft-assert failures"
      [("msg_re", ["[Ss]oft ?assert"; "The following asserts failed"])]
      "pb" (dec 4 10) "Aggregated functional mismatches.";
    entry "npe_undefined" "NullPointerException / undefined access"
      [("exc_re", ["java\.lang\.NullPointerException"]); ("msg_re", ["TypeError: Cannot read propert(y|ies) of (undefined|null)"; "'NoneType' object (has no attribute|is not)"])]
      "pb" (dec 55 100) "Null-safety bugs are usually product-side, sometimes fixture gaps.";
    entry "illegal_state" "IllegalState/IllegalArgument"
      [("exc_re", ["java\.lang\.IllegalStateException"; "java\.lang\.IllegalArgumentException"; "^ValueError$"])]
      "pb" (dec 45 100) "Contract violations lean product, but tests pass bad args too.";
    entry "index_key_error" "IndexOutOfBounds / KeyError"
      [("exc_re", ["IndexOutOfBoundsException"; "ArrayIndexOutOfBoundsException"; "^KeyError$"; "^IndexError$"])]
      "pb" (dec 5 10) "Boundary bugs; test-data shape mismatches also occur.";
    entry "class_not_found" "ClassNotFound / NoClassDefFound / ImportError"
      [("exc_re", ["ClassNotFoundException"; "NoClassDefFoundError"; "ModuleNotFoundError"; "^ImportError$"])]
      "ab" (dec 6 10) "Classpath/packaging of the test run — automation/config, not product logic.";
    entry "file_not_found" "File not found"
      [("exc_re", ["FileNotFoundException"; "FileNotFoundError"]); ("msg_re", ["No such file or directory"])]
      "ab" (dec 55 100) "Missing fixtures/paths in the test environment.";
    entry "permission_denied" "Permission denied (fs/os)"
      [("exc_re", ["AccessDeniedException"; "PermissionError"]); ("msg_re", ["[Pp]ermission denied"; "EACCES"])]
      "si" (dec 7 10) "Filesystem/user permissions on the agent.";
    entry "encoding_error" "Encoding/serialization error"
      [("exc_re", ["UnicodeDecodeError"; "JsonParseException"; "JsonMappingException"; "JSONDecodeError"; "SerializationException"])]
      "pb" (dec 45 100) "Contract/format drift between components; sometimes bad test data.";
    entry "compile_error" "Compilation/build error"
      [("msg_re", ["COMPILATION ERROR"; "cannot find symbol"; "SyntaxError:"; "error TS\d+"; "BUILD FAILED"])]
      "ab" (dec 75 100) "The test code/build is broken before any product behavior is exercised.";
    entry "dependency_resolution" "Dependency resolution failure (maven/npm/pip)"
      [("msg_re", ["Could not resolve dependencies"; "Could not transfer artifact"; "npm ERR!.*(404|ETIMEDOUT|ERESOLVE)"; "No matching distribution found"; "ResolutionImpossible"])]
      "si" (dec 7 10) "Registry/proxy availability or lockfile drift — environmental.";
    entry "docker_testcontainers" "Docker/testcontainers failure"
      [("exc_re", ["ContainerLaunchException"]); ("msg_re", ["Could not find a valid Docker environment"; "(pull access denied|manifest unknown|toomanyrequests)"; "error during connect: .*docker"])]
      "si" (dec 8 10) "Container runtime/registry issues on the agent.";
    entry "ci_agent_lost" "CI agent lost / job cancelled"
      [("msg_re", ["(agent|node|runner).*(disconnect|went offline|lost)"; "job was cancell?ed"; "received SIGTERM"; "The operation was canceled"])]
      "si" (dec 85 100) "Executor infrastructure died mid-run.";
    entry "env_config_missing" "Missing env var / configuration"
      [("msg_re", ["environment variable.*(not set|missing|is required)"; "Missing required (property|configuration)"; "Could not resolve placeholder"]); ("kw", ["config not found"])]
      "ab" (dec 6 10) "Run configuration gap in the automation setup.";
    entry "generic_timeout" "Generic test timeout"
      [("msg_re", ["[Tt]est timed out after"; "TimeoutError(?!.*selenium)"; "exceeded timeout of \d+"; "DeadlineExceeded"])]
      "ab" (dec 5 10) "Timeout budget vs genuine slowness — ambiguous, mild ab lean.";
    entry "flaky_retry_passed" "Flaky: failed then passed on retry"
      [("msg_re", ["(passed|succeeded) (on|after) retry"; "Flaky ?[Tt]est"; "retr(y|ies).*succe"])]
      "nd" (dec 7 10) "Retry-passed is the canonical no-defect signal.";
    entry "concurrent_mod" "ConcurrentModification / race"
      [("exc_re", ["ConcurrentModificationException"; "RaceConditionError"]); ("msg_re", ["optimistic lock(ing)? (failed|exception)"])]
      "pb" (dec 55 100) "Concurrency defects in product code.";
    entry "auth_token_expired" "Auth token/session expired"
      [("msg_re", ["token (is )?expired"; "JWT expired"; "session (has )?expired"; "invalid_grant"])]
      "ab" (dec 6 10) "Test credentials lifecycle — automation maintenance."])].
