(* ===== verification/Seeds.v ===== *)
(** * The seed knowledge base

    [seeds/catalog.py] - building and validating the catalogue from the tree a YAML
    loader returns, and the first-match classifier - and [seeds/loader.py], which
    gives a project its copy of a matched mode.  The YAML loader and the reading of
    the packaged file are arguments.  A pattern is accepted when [Regex] parses
    it. *)

From S2P Require Import Prelude PyFloat PyStr PyJson Regex RegexTheory PyText JsonText PyNum LlmSchema Database Retrieval Knowledge StoreOps SeedModes.
From Stdlib Require Import ZArith Lia.

Import Db (failure_mode, next_mode).

#[local] Open Scope string_scope.
#[local] Open Scope list_scope.

(** ** The catalogue *)

Definition SeedCatalogError : pyexn := OtherError "SeedCatalogError".
Definition EXPECTED_MODE_COUNT : nat := 50.
Definition VALID_LABELS : list string := ["pb"; "ab"; "si"; "nd"].
Definition _MSG_FLAGS : flags := mk_flags true true.

Module SeedMode.
Record t := mk {
  mode_key : json; title : json; prior_label : string; prior_confidence : pyfloat; rationale : json;
  exc_re : list pattern; msg_re : list pattern; kw : list ustr
}.
End SeedMode.

Module SeedCatalog.
Record t := mk { modes : list SeedMode.t; _by_key : list (json * SeedMode.t) }.
End SeedCatalog.

(** The entry of a dict under an equal key, and an assignment to it. *)
Definition same_key (k : json) (e : json * SeedMode.t) : bool := py_eq e.1 k.
Definition put_key (k : json) (m : SeedMode.t) (d : list (json * SeedMode.t)) : list (json * SeedMode.t) :=
  if existsb (same_key k) d then (fun e => if same_key k e then (e.1, m) else e) <$> d else d ++ [(k, m)].

(** [SeedCatalog(modes)]: a key that cannot be hashed raises. *)
Definition make_catalog (modes : list SeedMode.t) : result SeedCatalog.t :=
  if forallb (fun m => hashable (SeedMode.mode_key m)) modes
  then Ok (SeedCatalog.mk modes (fold_left (fun d m => put_key (SeedMode.mode_key m) m d) modes []))
  else Raise TypeError.

Definition get (c : SeedCatalog.t) (key : json) : result SeedMode.t :=
  if hashable key then
    match find (same_key key) (SeedCatalog._by_key c) with
    | Some e => Ok e.2
    | None => Raise (KeyError "mode_key")
    end
  else Raise TypeError.

Section Match.
Context `{!Unicode}.

(** [SeedMode.matches]. *)
Definition matches (m : SeedMode.t) (exc_classes : list ustr) (msg_haystack kw_haystack : ustr) : bool :=
  existsb (fun pat => existsb (re_found pat) exc_classes) (SeedMode.exc_re m)
  || existsb (fun pat => re_found pat msg_haystack) (SeedMode.msg_re m)
  || existsb (fun kw => ucontains kw kw_haystack) (SeedMode.kw m).

Definition present (s : ustr) : bool := negb (bool_decide (s = [])).
Definition joined (parts : list ustr) : ustr := ujoin [LF_] (List.filter present parts).

Definition msg_haystack (msg_text : ustr) (template_texts : list ustr) : ustr := joined (msg_text :: template_texts).
Definition kw_haystack (exc_classes : list ustr) (msg_text : ustr) (template_texts : list ustr) : ustr :=
  ulower (joined ((msg_text :: template_texts) ++ List.filter present exc_classes)).

(** [SeedCatalog.match]. *)
Definition match_ (c : SeedCatalog.t) (exc_classes : list ustr) (msg_text : ustr) (template_texts : list ustr)
    : option SeedMode.t :=
  let exc := List.filter present exc_classes in
  find (fun m => matches m exc (msg_haystack msg_text template_texts) (kw_haystack exc_classes msg_text template_texts))
    (SeedCatalog.modes c).
End Match.

(** ** Loading *)

Definition _compile (fl : flags) (p : json) : result pattern :=
  match p with
  | JStr s => match parse s with Some (r, n) => Ok (mk_pattern fl n r) | None => Raise SeedCatalogError end
  | _ => Raise TypeError
  end.

Definition required {A} (ok : bool) (e : pyexn) (k : result A) : result A := if ok then k else Raise e.

(** [tuple(_compile(...) for p in rules.get(group, []))]. *)
Definition rule_group (rules : json) (group : string) (fl : flags) : result (list pattern) :=
  ps ← py_get rules group (JList []);
  ps ← py_iter ps;
  rmapM (_compile fl) ps.

Section Load.
Context `{!Unicode, !PyRepr}.

Definition keyword (k : json) : ustr := ulower (py_str k).
Definition keywords (rules : json) : result (list ustr) :=
  ks ← py_get rules "kw" (JList []);
  ks ← py_iter ks;
  Ok (list_fmap _ _ keyword ks).

Definition label_ok (label : json) : bool := existsb (fun l => py_eq label (jstr l)) VALID_LABELS.
Definition text_of (j : json) : string := match j with JStr s => of_u s | _ => "" end.

Definition _build_mode (raw : json) : result SeedMode.t :=
  match raw with
  | JObj d =>
      match dget "mode_key" d, dget "prior" d with
      | Some mode_key, Some prior =>
          label ← py_get prior "label" JNull;
          required (hashable label) TypeError
            (required (label_ok label) SeedCatalogError
              (confidence ← py_get prior "confidence" (JFloat f0);
               confidence ← py_float confidence;
               required ((f0 <? confidence)%F && (confidence <=? f1)%F) SeedCatalogError
                 (let rules := if truthy (jget "rules" d) then jget "rules" d else JObj [] in
                  exc_re ← rule_group rules "exc_re" (mk_flags false false);
                  msg_re ← rule_group rules "msg_re" _MSG_FLAGS;
                  kw ← keywords rules;
                  match exc_re, msg_re, kw with
                  | [], [], [] => Raise SeedCatalogError
                  | _, _, _ => Ok (SeedMode.mk mode_key (dgetd "title" (jstr "") d) (text_of label) confidence
                                     (dgetd "rationale" (jstr "") d) exc_re msg_re kw)
                  end)))
      | _, _ => Raise SeedCatalogError
      end
  | _ => Raise SeedCatalogError
  end.

(** [sorted] of keys: two keys of different kinds do not compare. *)
Definition is_text (j : json) : bool := match j with JStr _ => true | _ => false end.
Definition is_number (j : json) : bool := match j with JBool _ | JInt _ | JFloat _ => true | _ => false end.
Fixpoint distinct (l : list json) : list json :=
  match l with [] => [] | x :: l' => if existsb (py_eq x) l' then distinct l' else x :: distinct l' end.
Definition sortable (l : list json) : bool := (length l <=? 1)%nat || forallb is_text l || forallb is_number l.

(** What is raised over the keys that occur more than once. *)
Definition duplicates (keys : list json) : list json := List.filter (fun k => (1 <? py_count k keys)%nat) keys.
Definition refuse_duplicates (dups : list json) : result SeedCatalog.t :=
  if forallb hashable dups && sortable (distinct dups) then Raise SeedCatalogError else Raise TypeError.

(** [load_catalog], from the tree of the YAML text on. *)
Definition load_data (data : json) : result SeedCatalog.t :=
  match data with
  | JObj d =>
      match dget "modes" d with
      | Some entries =>
          raws ← py_iter entries;
          modes ← rmapM _build_mode raws;
          match duplicates (SeedMode.mode_key <$> modes) with
          | [] => make_catalog modes
          | dups => refuse_duplicates dups
          end
      | None => Raise SeedCatalogError
      end
  | _ => Raise SeedCatalogError
  end.

(** The YAML loader, and the text of the packaged file. *)
Context (safe_load : ustr -> result json) (resource : ustr).

Definition load_catalog (text : option ustr) : result SeedCatalog.t :=
  data ← safe_load (default resource text);
  load_data data.

Definition default_catalog : result SeedCatalog.t :=
  catalog ← load_catalog None;
  required (length (SeedCatalog.modes catalog) =? EXPECTED_MODE_COUNT)%nat SeedCatalogError (Ok catalog).
End Load.

(** ** A project's copy *)

Module SeedHit.
Record t := mk { mode_key : string; mode_id : Z; label : string; confidence : pyfloat }.
End SeedHit.

(** [SeedKB]: the catalogue, and whether there is a store. *)
Module SeedKB.
Record t := mk { _catalog : SeedCatalog.t; has_store : bool }.
End SeedKB.

(** What the driver passes to a text column; keys and titles are texts. *)
Definition text_param (j : json) : result ustr := match j with JStr s => Ok s | _ => Raise TypeError end.

Section Loader.
Context `{!Unicode, !PgVector}.

Definition seed_match (kb : SeedKB.t) : list ustr -> ustr -> list ustr -> option SeedMode.t := match_ (SeedKB._catalog kb).

(** The copy starts as a candidate; its centroid comes with its first items. *)
Definition copy_of (project : Z) (mode : SeedMode.t) (title : ustr) : ModeIn.t :=
  ModeIn.mk project "candidate" (Some (u (SeedMode.prior_label mode))) (Some "seed") None None [] [] (Some title) None.

Definition ensure_project_copy (kb : SeedKB.t) (project : Z) (mode : SeedMode.t) (d : db) : result (db * Z) :=
  required (SeedKB.has_store kb) (OtherError "RuntimeError")
    (key ← text_param (SeedMode.mode_key mode);
     title ← text_param (SeedMode.title mode);
     ensure_seed_mode project (of_u key) (copy_of project mode title) d).

Definition match_and_seed (kb : SeedKB.t) (project : Z) (exc_classes : list ustr) (msg_text : ustr)
    (template_texts : list ustr) (d : db) : result (db * option SeedHit.t) :=
  match match_ (SeedKB._catalog kb) exc_classes msg_text template_texts with
  | None => Ok (d, None)
  | Some mode =>
      '(d', mode_id) ← ensure_project_copy kb project mode d;
      Ok (d', Some (SeedHit.mk (text_of (SeedMode.mode_key mode)) mode_id (SeedMode.prior_label mode)
                      (SeedMode.prior_confidence mode)))
  end.
End Loader.

(** [load_seed_kb]. *)
Definition load_seed_kb `{!Unicode, !PyRepr} (safe_load : ustr -> result json) (resource : ustr) (has_store : bool)
    : result SeedKB.t :=
  catalog ← default_catalog safe_load resource;
  Ok (SeedKB.mk catalog has_store).

(** Representations for the examples. *)
Definition seed_repr : PyRepr := {| float_repr _ := u "0.5"; container_repr _ := u "[...]" |}.

(** ** What the classifier answers *)

Section MatchLaws.
Context `{!Unicode}.

(** A rule of the mode fires: a pattern in an exception class, a message pattern in
    the message or a template, a keyword in any of them. *)
Definition fires (m : SeedMode.t) (exc : list ustr) (msg : ustr) (tt_ : list ustr) : Prop :=
  (exists pat c, pat ∈ SeedMode.exc_re m /\ c ∈ exc /\ c <> [] /\ re_found pat c = true)
  \/ (exists pat, pat ∈ SeedMode.msg_re m /\ re_found pat (msg_haystack msg tt_) = true)
  \/ (exists k, k ∈ SeedMode.kw m /\ factor k (kw_haystack exc msg tt_)).

Lemma present_iff s : present s = true <-> s <> [].
Proof. unfold present. by rewrite negb_true_iff, bool_decide_eq_false. Qed.

Lemma matches_fires m exc msg tt_ :
  matches m (List.filter present exc) (msg_haystack msg tt_) (kw_haystack exc msg tt_) = true <-> fires m exc msg tt_.
Proof.
  unfold matches, fires. rewrite !orb_true_iff, !existsb_iff. setoid_rewrite existsb_iff.
  setoid_rewrite filterb_elem. setoid_rewrite present_iff. setoid_rewrite ucontains_spec.
  split; [intros [[Hx|Hx]|Hx]; [left|right; left; exact Hx|right; right; exact Hx]
         |intros [Hx|[Hx|Hx]]; [left; left|left; right; exact Hx|right; exact Hx]].
  - destruct Hx as (pat & Hp & c & [Hc Hn] & Hf). by exists pat, c.
  - destruct Hx as (pat & c & Hp & Hc & Hn & Hf). exists pat. split; [done|]. by exists c.
Qed.

(** The first mode of a list a rule of which fires. *)
Lemma find_first {A} (f : A -> bool) l :
  match find f l with
  | Some x => exists i, l !! i = Some x /\ f x = true /\ forall j y, (j < i)%nat -> l !! j = Some y -> f y = false
  | None => forall x, x ∈ l -> f x = false
  end.
Proof.
  induction l as [|a l IH]; simpl; [set_solver|]. destruct (f a) eqn:E.
  { exists O. split_and!; [done..|]. intros j y Hj. lia. }
  destruct (find f l) as [x|].
  - destruct IH as (i & Hi & Hx & Hlt). exists (S i). split_and!; [done..|].
    intros [|j] y Hj Hy; simpl in Hy; [by simplify_eq|]. apply (Hlt j); [lia|done].
  - intros x [->|Hx]%elem_of_cons; [done|]. by apply IH.
Qed.

(** The classifier answers by priority.  [SeedCatalog.match] returns the first
    mode of the catalogue with a rule that fires on the failure - no mode listed
    before it has one - and answers nothing exactly when no rule of any mode fires. *)
Theorem first_match_wins (c : SeedCatalog.t) (exc : list ustr) (msg : ustr) (tt_ : list ustr) :
  match match_ c exc msg tt_ with
  | Some m => exists i, SeedCatalog.modes c !! i = Some m /\ fires m exc msg tt_
                /\ forall j m', (j < i)%nat -> SeedCatalog.modes c !! j = Some m' -> ~ fires m' exc msg tt_
  | None => forall m, m ∈ SeedCatalog.modes c -> ~ fires m exc msg tt_
  end.
Proof.
  unfold match_. set (f := fun m => matches m _ _ _). pose proof (find_first f (SeedCatalog.modes c)) as Hf.
  assert (forall m, f m = false -> ~ fires m exc msg tt_) as Hno.
  { intros m Hm Hm2. apply matches_fires in Hm2. by subst f; simpl in Hm; rewrite Hm2 in Hm. }
  destruct (find _ _) as [m|]; [|naive_solver].
  destruct Hf as (i & Hi & Hm & Hlt). exists i. split_and!; [done|by apply matches_fires|eauto].
Qed.
End MatchLaws.

(** ** What a catalogue that loads is *)

Section LoadLaws.
Context `{!Unicode, !PyRepr}.

(** A rule group of an entry, pattern by pattern. *)
Definition compiled (fl : flags) (p : json) (pat : pattern) : Prop :=
  exists s r n, p = JStr s /\ parse s = Some (r, n) /\ pat = mk_pattern fl n r.
Definition group_of (rules : list (string * json)) (group : string) (fl : flags) (pats : list pattern) : Prop :=
  exists ps, py_iter (dgetd group (JList []) rules) = Ok ps /\ Forall2 (compiled fl) ps pats.

(** The mode an entry of the file describes, and that it is in order: a label of the
    four, a confidence above 0 and at most 1, rules that compile, one at least. *)
Record describes (raw : json) (m : SeedMode.t) : Prop := mk_describes {
  entry_fields : list (string * json); entry_prior : list (string * json); entry_rules : list (string * json);
  is_entry : raw = JObj entry_fields;
  its_key : dget "mode_key" entry_fields = Some (SeedMode.mode_key m);
  its_title : dgetd "title" (jstr "") entry_fields = SeedMode.title m;
  its_rationale : dgetd "rationale" (jstr "") entry_fields = SeedMode.rationale m;
  its_prior : dget "prior" entry_fields = Some (JObj entry_prior);
  its_label : jget "label" entry_prior = jstr (SeedMode.prior_label m);
  label_valid : SeedMode.prior_label m ∈ VALID_LABELS;
  its_confidence : py_float (dgetd "confidence" (JFloat f0) entry_prior) = Ok (SeedMode.prior_confidence m);
  confidence_valid : (f0 <? SeedMode.prior_confidence m)%F && (SeedMode.prior_confidence m <=? f1)%F = true;
  its_rules : (if truthy (jget "rules" entry_fields) then jget "rules" entry_fields else JObj []) = JObj entry_rules;
  its_exc : group_of entry_rules "exc_re" (mk_flags false false) (SeedMode.exc_re m);
  its_msg : group_of entry_rules "msg_re" _MSG_FLAGS (SeedMode.msg_re m);
  its_kw : exists ks, py_iter (dgetd "kw" (JList []) entry_rules) = Ok ks /\ SeedMode.kw m = keyword <$> ks;
  has_rule : SeedMode.exc_re m <> [] \/ SeedMode.msg_re m <> [] \/ SeedMode.kw m <> []
}.

Lemma compile_iff fl p pat : _compile fl p = Ok pat <-> compiled fl p pat.
Proof.
  unfold compiled. split.
  - destruct p as [| | | |s| |]; try done. simpl. destruct (parse s) as [[r n]|] eqn:E; [|done]. intros [= <-].
    by exists s, r, n.
  - intros (s & r & n & -> & E & ->). simpl. by rewrite E.
Qed.

Lemma rmapM_Ok {A B} (f : A -> result B) l ys : rmapM f l = Ok ys <-> Forall2 (fun x y => f x = Ok y) l ys.
Proof.
  revert ys. induction l as [|x l IH]; intros ys; simpl.
  - split; [intros [= <-]; constructor|]. by inversion 1.
  - split.
    + intros (y & Hy & (ys' & Hys & [= <-])%result_bind_Ok)%result_bind_Ok. constructor; [done|]. by apply IH.
    + inversion 1 as [|? y ? ys' Hy Hys]; subst. rewrite Hy. cbn [mbind result_bind]. apply IH in Hys. by rewrite Hys.
Qed.

Lemma rule_group_iff rules group fl pats : rule_group (JObj rules) group fl = Ok pats <-> group_of rules group fl pats.
Proof.
  unfold rule_group, group_of. cbn [py_get mbind result_bind]. split.
  - intros (ps & Hp & Hps%rmapM_Ok)%result_bind_Ok. exists ps. split; [done|].
    eapply Forall2_impl; [exact Hps|]. intros x y Hxy. by apply compile_iff in Hxy.
  - intros (ps & Hp & Hps). rewrite Hp. cbn [mbind result_bind]. apply rmapM_Ok.
    eapply Forall2_impl; [exact Hps|]. intros x y Hxy. by apply compile_iff.
Qed.

Lemma label_ok_iff j : label_ok j = true <-> exists l, l ∈ VALID_LABELS /\ j = jstr l.
Proof.
  unfold label_ok. rewrite existsb_iff. split; intros (l & Hl & E); exists l; (split; [done|]).
  - destruct j; simpl in E; try done; try (by destruct (as_int _)). by apply bool_decide_eq_true in E as ->.
  - subst j. by rewrite py_eq_jstr, bool_decide_eq_true.
Qed.
Lemma required_Ok {A} b e (k : result A) a : required b e k = Ok a <-> b = true /\ k = Ok a.
Proof. by destruct b; simpl; naive_solver. Qed.

Lemma nonempty_groups {A B C D} (a : list A) (b : list B) (c : list C) (r : result D) x :
  match a, b, c with [], [], [] => Raise SeedCatalogError | _, _, _ => r end = Ok x
  <-> (a <> [] \/ b <> [] \/ c <> []) /\ r = Ok x.
Proof. destruct a, b, c; naive_solver. Qed.

Lemma py_get_Ok j k dflt v : py_get j k dflt = Ok v <-> exists d, j = JObj d /\ v = dgetd k dflt d.
Proof. destruct j; simpl; naive_solver. Qed.

(** [_build_mode] accepts exactly the entries in order, and builds the mode they
    describe. *)
Lemma build_mode_iff raw m : _build_mode raw = Ok m <-> describes raw m.
Proof.
  split.
  - destruct raw as [| | | | | |d]; try done. cbn [_build_mode].
    destruct (dget "mode_key" d) as [key|] eqn:Ek; [|done]. destruct (dget "prior" d) as [prior|] eqn:Ep; [|done].
    intros (label & (pr & -> & El)%py_get_Ok & [_ [(l & Hl & ->)%label_ok_iff Hc]%required_Ok]%required_Ok)%result_bind_Ok.
    apply result_bind_Ok in Hc as (c0 & Ec0 & (c & Ec & [Hr Hb]%required_Ok)%result_bind_Ok).
    cbn [py_get] in Ec0. injection Ec0 as <-.
    cbv zeta in Hb. remember (if truthy _ then _ else _) as rules eqn:Eru in Hb.
    apply result_bind_Ok in Hb as (exc & He & (msg & Hm & (kw & Hk & [Hne [= <-]]%nonempty_groups)%result_bind_Ok)%result_bind_Ok).
    assert (exists r, rules = JObj r) as [r Er].
    { unfold rule_group in He. apply result_bind_Ok in He as (? & (r & -> & _)%py_get_Ok & _). by exists r. }
    rewrite Er in Eru, He, Hm, Hk. apply rule_group_iff in He, Hm.
    unfold keywords in Hk. cbn [py_get mbind result_bind] in Hk. apply result_bind_Ok in Hk as (ks & Hks & [= <-]).
    refine (mk_describes _ _ d pr r _ _ _ _ _ _ _ _ _ _ _ _ _ _); cbn; try done.
    + rewrite of_u_u. by symmetry.
    + by rewrite of_u_u.
    + by exists ks.
  - intros [d pr r -> Hk Ht Hra Hp Hl Hv Hc Hcv Hru He Hm (ks & Hks & Hkw) Hne]. cbn [_build_mode]. rewrite Hk, Hp.
    apply result_bind_Ok. exists (jstr (SeedMode.prior_label m)). split; [by rewrite <- Hl|].
    apply required_Ok. split; [done|]. apply required_Ok. split; [apply label_ok_iff; eauto|].
    cbn [py_get mbind result_bind]. rewrite Hc. cbn [mbind result_bind]. apply required_Ok. split; [done|].
    cbv zeta. rewrite Hru. apply rule_group_iff in He, Hm. rewrite He. cbn [mbind result_bind]. rewrite Hm.
    cbn [mbind result_bind]. unfold keywords. cbn [py_get mbind result_bind]. rewrite Hks. cbn [mbind result_bind].
    apply nonempty_groups. rewrite <- (Hkw : _ = list_fmap _ _ keyword ks). split; [done|].
    rewrite Ht, Hra. cbn [text_of jstr]. rewrite of_u_u. by destruct m.
Qed.

(** Text keys: equal when they are the same text. *)
Lemma py_eq_text a s : py_eq a (JStr s) = true <-> a = JStr s.
Proof.
  destruct a; simpl; try done. rewrite bool_decide_eq_true. naive_solver.
Qed.
Lemma py_eq_text_l a s : py_eq (JStr s) a = true <-> a = JStr s.
Proof. destruct a; simpl; try done. rewrite bool_decide_eq_true. naive_solver. Qed.

Definition entry_at (s : ustr) (d : list (json * SeedMode.t)) : option (json * SeedMode.t) := find (same_key (JStr s)) d.

Lemma find_app {A} (f : A -> bool) l1 l2 : find f (l1 ++ l2) = match find f l1 with Some x => Some x | None => find f l2 end.
Proof. induction l1 as [|x l1 IH]; simpl; [done|]. by destruct (f x). Qed.

Lemma entry_put_eq s m d : entry_at s (put_key (JStr s) m d) = Some (JStr s, m).
Proof.
  unfold entry_at, put_key. destruct (existsb _ _) eqn:E.
  - induction d as [|e d IH]; [done|]. csimpl. destruct (same_key (JStr s) e) eqn:Es.
    + unfold same_key in Es |- *. cbn [fst]. rewrite Es. apply py_eq_text in Es. by rewrite Es.
    + rewrite Es. apply IH. simpl in E. by rewrite Es in E.
  - rewrite find_app. replace (find _ d) with (@None (json * SeedMode.t)).
    + simpl. unfold same_key. simpl. by rewrite bool_decide_eq_true_2.
    + symmetry. destruct (find _ d) as [e|] eqn:Ef; [|done]. apply List.find_some in Ef as [He Es].
      exfalso. apply not_true_iff_false in E. apply E, existsb_exists. eauto.
Qed.

Lemma entry_put_ne s k m d : k <> JStr s -> entry_at s (put_key k m d) = entry_at s d.
Proof.
  intros Hk. assert (same_key (JStr s) (k, m) = false) as Hf.
  { apply not_true_iff_false. unfold same_key. cbn. by intros ->%py_eq_text. }
  unfold entry_at, put_key. destruct (existsb _ _).
  - induction d as [|e d IH]; [done|]. csimpl. destruct (same_key (JStr s) e) eqn:Es.
    + assert (same_key k e = false) as ->.
      { apply not_true_iff_false. unfold same_key in *. apply py_eq_text in Es. rewrite Es.
        by intros ->%py_eq_text_l. }
      by rewrite Es.
    + destruct (same_key k e); [|by rewrite Es]. unfold same_key in Es |- *. cbn [fst]. by rewrite Es.
  - rewrite find_app. cbn [find]. rewrite Hf. by destruct (find _ d).
Qed.

Definition index (ms : list SeedMode.t) (d : list (json * SeedMode.t)) : list (json * SeedMode.t) :=
  fold_left (fun d m => put_key (SeedMode.mode_key m) m d) ms d.

Lemma index_keeps s ms d : Forall (fun m => SeedMode.mode_key m <> JStr s) ms -> entry_at s (index ms d) = entry_at s d.
Proof.
  intros Hms. revert d. induction Hms as [|m ms Hm _ IH]; intros d; [done|]. unfold index in *. simpl. rewrite IH.
  by apply entry_put_ne.
Qed.

Lemma index_last s l1 m l2 d : SeedMode.mode_key m = JStr s -> Forall (fun m => SeedMode.mode_key m <> JStr s) l2 ->
  entry_at s (index (l1 ++ m :: l2) d) = Some (JStr s, m).
Proof.
  intros Hm Hl. unfold index. rewrite fold_left_app. simpl. fold (index l2). rewrite Hm.
  etrans; [by apply index_keeps|]. apply entry_put_eq.
Qed.

(** No key occurs twice, for text keys. *)
Lemma duplicates_nil keys : duplicates keys = [] -> forall k1 s k2, keys = k1 ++ JStr s :: k2 -> JStr s ∉ k2.
Proof.
  intros Hd k1 s k2 Hk Hin. assert (JStr s ∈ duplicates keys) as Hx; [|by rewrite Hd in Hx; set_solver].
  apply filterb_elem. split; [subst; set_solver|]. apply Nat.ltb_lt. unfold py_count. subst keys.
  rewrite List.filter_app, length_app. cbn [List.filter py_eq]. rewrite bool_decide_eq_true_2 by done. cbn [length].
  assert (JStr s ∈ List.filter (fun y => py_eq y (JStr s)) k2) as Hf by (apply filterb_elem; by rewrite py_eq_text).
  destruct (List.filter _ k2); [set_solver|]. cbn [length]. lia.
Qed.

Lemma NoDup_no_duplicates keys : Forall (fun k => is_text k = true) keys -> NoDup keys -> duplicates keys = [].
Proof.
  intros Ht Hn. destruct (duplicates keys) as [|k l] eqn:E; [done|]. exfalso.
  assert (k ∈ duplicates keys) as [Hk Hc%Nat.ltb_lt]%filterb_elem by (rewrite E; set_solver).
  rewrite Forall_forall in Ht. specialize (Ht k Hk). destruct k as [| | | |s| |]; try done.
  apply list_elem_of_split in Hk as (k1 & k2 & ->). apply NoDup_app in Hn as (_ & H1 & [H2 _]%NoDup_cons).
  assert (forall l, JStr s ∉ l -> List.filter (fun y => py_eq y (JStr s)) l = []) as Hno.
  { intros l' Hl'. destruct (List.filter _ l') as [|x r] eqn:Ef; [done|]. exfalso. apply Hl'.
    assert (x ∈ List.filter (fun y => py_eq y (JStr s)) l') as [Hx ->%py_eq_text]%filterb_elem by (rewrite Ef; set_solver). done. }
  revert Hc. unfold py_count. rewrite List.filter_app. cbn [List.filter]. rewrite (Hno k2) by done.
  rewrite (Hno k1) by (intros Hk; apply (H1 _ Hk); set_solver).
  destruct (py_eq _ _); simpl; lia.
Qed.

(** The entries of a file. *)
Definition entries_of (data : json) (raws : list json) : Prop :=
  exists d es, data = JObj d /\ dget "modes" d = Some es /\ py_iter es = Ok raws.

Lemma load_data_inv data c : load_data data = Ok c <->
  exists raws ms, entries_of data raws /\ rmapM _build_mode raws = Ok ms
    /\ duplicates (SeedMode.mode_key <$> ms) = [] /\ make_catalog ms = Ok c.
Proof.
  unfold entries_of. split.
  - destruct data as [| | | | | |d]; try done. cbn [load_data]. destruct (dget "modes" d) as [es|] eqn:Ee; [|done].
    intros (raws & Hraws & (ms & Hms & Hc)%result_bind_Ok)%result_bind_Ok. exists raws, ms.
    destruct (duplicates _) eqn:Ed; [by split_and!; [eexists _, _|..]|]. unfold refuse_duplicates in Hc.
    by destruct (_ && _).
  - intros (raws & ms & (d & es & -> & He & Hr) & Hms & Hd & Hc). cbn [load_data]. rewrite He, Hr.
    cbn [mbind result_bind]. rewrite Hms. cbn [mbind result_bind]. by rewrite Hd.
Qed.

Lemma make_catalog_Ok ms c : make_catalog ms = Ok c -> c = SeedCatalog.mk ms (index ms []).
Proof. unfold make_catalog. by destruct (forallb _ _); [intros [= <-]|]. Qed.

Lemma keys_unique ms (i j : nat) mi mj s : duplicates (SeedMode.mode_key <$> ms) = [] ->
  ms !! i = Some mi -> ms !! j = Some mj -> SeedMode.mode_key mi = JStr s -> SeedMode.mode_key mj = JStr s -> i = j.
Proof.
  intros Hd. assert (forall a b ma mb, (a < b)%nat -> ms !! a = Some ma -> ms !! b = Some mb ->
    SeedMode.mode_key ma = JStr s -> SeedMode.mode_key mb = JStr s -> False) as Hlt.
  { intros a b ma mb Hab Ha Hb Ka Kb. pose proof (take_drop_middle ms a ma Ha) as E.
    apply (f_equal (fmap SeedMode.mode_key)) in E. rewrite fmap_app, fmap_cons, Ka in E.
    apply (duplicates_nil _ Hd _ _ _ (eq_sym E)). apply list_elem_of_fmap. exists mb. split; [done|].
    apply list_elem_of_lookup. exists (b - S a)%nat. rewrite list.lookup_drop. by replace (S a + (b - S a))%nat with b by lia. }
  intros Hi Hj Ki Kj. destruct (Nat.lt_total i j) as [Hij|[->|Hij]]; [..|]; naive_solver.
Qed.

(** A mode is found under its text key. *)
Lemma indexed_get ms m s : duplicates (SeedMode.mode_key <$> ms) = [] -> m ∈ ms -> SeedMode.mode_key m = JStr s ->
  get (SeedCatalog.mk ms (index ms [])) (JStr s) = Ok m.
Proof.
  intros Hd (l1 & l2 & ->)%list_elem_of_split Hk. unfold get. cbn [hashable SeedCatalog._by_key].
  fold (entry_at s (index (l1 ++ m :: l2) [])). rewrite index_last; [done..|]. apply Forall_forall. intros m' Hm' Hk'.
  rewrite fmap_app, fmap_cons, Hk in Hd. apply (duplicates_nil _ Hd _ _ _ eq_refl). apply list_elem_of_fmap. eauto.
Qed.

Lemma loaded_get data c m s : load_data data = Ok c -> m ∈ SeedCatalog.modes c -> SeedMode.mode_key m = JStr s ->
  get c (JStr s) = Ok m.
Proof. intros (_ & ms & _ & _ & Hd & ->%make_catalog_Ok)%load_data_inv. by apply indexed_get. Qed.

(** The catalogue loads exactly when it is in order.  If [load_catalog] accepts a
    file, its modes are, in the order of the file, those its entries describe - each
    with a label of the four, a confidence above 0 and at most 1, patterns that
    compile and at least one rule - no key occurs twice, and [get] finds each mode
    under its key; and a file all of whose entries are in order, under distinct text
    keys, is accepted. *)
Theorem catalogue_loads_exactly (data : json) :
  (forall c, load_data data = Ok c ->
     exists raws, entries_of data raws /\ Forall2 describes raws (SeedCatalog.modes c)
       /\ (forall i j mi mj s, SeedCatalog.modes c !! i = Some mi -> SeedCatalog.modes c !! j = Some mj ->
             SeedMode.mode_key mi = JStr s -> SeedMode.mode_key mj = JStr s -> i = j)
       /\ (forall m s, m ∈ SeedCatalog.modes c -> SeedMode.mode_key m = JStr s -> get c (JStr s) = Ok m))
  /\ (forall raws ms, entries_of data raws -> Forall2 describes raws ms ->
        Forall (fun m => is_text (SeedMode.mode_key m) = true) ms -> NoDup (SeedMode.mode_key <$> ms) ->
        exists c, load_data data = Ok c /\ SeedCatalog.modes c = ms).
Proof.
  split.
  - intros c (raws & ms & He & Hms & Hd & ->%make_catalog_Ok)%load_data_inv. exists raws. cbn. split_and!; [done|..].
    + eapply Forall2_impl; [by apply rmapM_Ok|]. intros x y. apply build_mode_iff.
    + intros i j mi mj s. by apply keys_unique.
    + intros m s Hm Hk. by eapply indexed_get.
  - intros raws ms He Hms Ht Hn. exists (SeedCatalog.mk ms (index ms [])). split; [|done]. apply load_data_inv.
    exists raws, ms. split_and!; [done|..].
    + apply rmapM_Ok. eapply Forall2_impl; [exact Hms|]. intros x y. apply build_mode_iff.
    + apply NoDup_no_duplicates; [|done]. by apply Forall_fmap.
    + unfold make_catalog. rewrite (proj2 (forallb_forall _ _)); [done|]. intros m Hm%list_elem_of_In.
      rewrite Forall_forall in Ht. specialize (Ht m Hm). by destruct (SeedMode.mode_key m).
Qed.
End LoadLaws.

(** ** The packaged catalogue *)

(** One failure per mode, in the order of the catalogue: exception classes, message. *)
Definition samples : list (list string * string) := [
  (["MemoryError"], "");
  ([], "OOMKilled");
  (["RecursionError"], "");
  ([], "DiskFull");
  ([], "emfile");
  (["ConnectException"], "");
  ([], "ECONNRESET");
  (["ReadTimeout"], "");
  (["gaierror"], "");
  (["SSLError"], "");
  ([], "EADDRINUSE");
  ([], "ProxyError");
  ([], "HTTP555");
  ([], "HTTP401");
  ([], "HTTP404");
  ([], "429");
  ([], "QueuePool limit");
  ([], "Deadlock found");
  ([], "FATAL: database");
  ([], "Flywayfailed");
  ([], "kafkatimeout");
  ([], "redisrefused");
  (["StaleElementReferenceException"], "");
  (["NoSuchElementException"], "");
  ([], "element not interactable");
  ([], "Waited 5 seconds for");
  (["WebDriverException"], "");
  ([], "session not createdversion");
  ([], "severeconsole");
  ([], "expected:but was");
  ([], "assert");
  ([], "jestexpect");
  ([], "toMatchSnapshot");
  ([], "Softassert");
  (["java.lang.NullPointerException"], "");
  (["ValueError"], "");
  (["KeyError"], "");
  (["ImportError"], "");
  (["FileNotFoundError"], "");
  ([], "EACCES");
  (["JSONDecodeError"], "");
  ([], "error TS5");
  ([], "npm ERR!404");
  ([], "pull access denied");
  ([], "agentdisconnect");
  ([], "Missing required property");
  ([], "TimeoutError");
  ([], "FlakyTest");
  (["RaceConditionError"], "");
  ([], "JWT expired")].

Section Packaged.
Context `{!Unicode, !PyRepr}.

(** The place of the mode that classifies a failure. *)
Definition winner (c : SeedCatalog.t) (x : list string * string) : option nat :=
  let exc := u <$> x.1 in
  fst <$> list_find (fun m => matches m (List.filter present exc) (msg_haystack (u x.2) []) (kw_haystack exc (u x.2) []) = true)
            (SeedCatalog.modes c).

Definition loads_and_sorts (data : json) (k : nat) (probes : list (list string * string)) : bool :=
  match load_data data with
  | Ok c => (length (SeedCatalog.modes c) =? k)%nat && bool_decide ((winner c <$> probes) = Some <$> seq 0 k)
  | Raise _ => false
  end.

Lemma packaged_catalogue : loads_and_sorts seed_modes EXPECTED_MODE_COUNT samples = true.
Proof. vm_compute. reflexivity. Qed.

Lemma find_list_find {A} (f : A -> bool) l : find f l = snd <$> list_find (fun x => f x = true) l.
Proof.
  induction l as [|x l IH]; [done|]. cbn [find list_find]. destruct (f x) eqn:E.
  - by rewrite decide_True.
  - rewrite decide_False by (by apply not_true_iff_false). rewrite IH. by destruct (list_find _ l) as [[i y]|].
Qed.

Lemma winner_match c exc msg i m : winner c (exc, msg) = Some i -> SeedCatalog.modes c !! i = Some m ->
  match_ c (u <$> exc) (u msg) [] = Some m.
Proof.
  unfold winner, match_. cbn [fst snd]. rewrite find_list_find. set (L := list_find _ _). destruct L as [[j y]|] eqn:E; [|done].
  intros [= <-] Hm. subst L. apply list_find_Some in E as (E & _). simpl. congruence.
Qed.

(** The packaged catalogue is sound and has no dead mode.  If the YAML loader
    returns the packaged tree for the packaged file, start-up loads exactly fifty
    modes, and each of them is the answer to some failure: no mode is shadowed by
    the modes listed before it. *)
Theorem default_catalogue_live (safe_load : ustr -> result json) (resource : ustr) :
  safe_load resource = Ok seed_modes ->
  exists c, default_catalog safe_load resource = Ok c /\ length (SeedCatalog.modes c) = EXPECTED_MODE_COUNT
    /\ forall m, m ∈ SeedCatalog.modes c -> exists exc msg, match_ c exc msg [] = Some m.
Proof.
  intros Hy. pose proof packaged_catalogue as Hp. unfold loads_and_sorts in Hp.
  destruct (load_data seed_modes) as [c|] eqn:El; [|done]. apply andb_true_iff in Hp as [Hl%Nat.eqb_eq Hw%bool_decide_eq_true].
  exists c. split_and!; [|done|].
  - unfold default_catalog, load_catalog. cbn [default]. unfold default. rewrite Hy. cbn [mbind result_bind].
    rewrite El. cbn [mbind result_bind]. by rewrite Hl.
  - intros m (i & Hi)%list_elem_of_lookup. assert (i < EXPECTED_MODE_COUNT)%nat as Hlt by (rewrite <- Hl; by eapply lookup_lt_Some).
    assert ((winner c <$> samples) !! i = Some (Some i)) as Hwi by (rewrite Hw, list_lookup_fmap, lookup_seq_lt by done; done).
    rewrite list_lookup_fmap in Hwi. apply fmap_Some in Hwi as ([exc msg] & _ & Hwi).
    exists (u <$> exc), (u msg). by eapply winner_match.
Qed.
End Packaged.

Lemma default_catalogue_live_witness :
  exists c, @default_catalog ascii_unicode seed_repr (fun _ => Ok seed_modes) [] = Ok c
    /\ length (SeedCatalog.modes c) = EXPECTED_MODE_COUNT
    /\ forall m, m ∈ SeedCatalog.modes c -> exists exc msg, @match_ ascii_unicode c exc msg [] = Some m.
Proof. exact (@default_catalogue_live ascii_unicode seed_repr (fun _ => Ok seed_modes) [] eq_refl). Defined.

(** ** What the loader accepts, and what is shadowed *)

Section Showcase.
#[local] Existing Instances ascii_unicode seed_repr.

(** A catalogue of one entry. *)
Definition one_entry (prior rules : json) : json :=
  JObj [("modes", JList [JObj [("mode_key", jstr "npe"); ("rules", rules); ("prior", prior)]])].
Definition or_empty (r : result SeedCatalog.t) : SeedCatalog.t := match r with Ok c => c | Raise _ => SeedCatalog.mk [] [] end.
Definition plain_prior : json := JObj [("label", jstr "pb"); ("confidence", JFloat (dec 1 2))].

(** A catalogue of one mode, found by a keyword. *)
Definition npe_kb : SeedKB.t :=
  SeedKB.mk (or_empty (load_data (one_entry plain_prior (JObj [("kw", JList [jstr "nullpointer"])])))) true.

(** A rule group written as a text instead of a list is read character by character:
    it is accepted, and matches nearly everything. *)
Example scalar_rule_accepted :
  match load_data (one_entry plain_prior (JObj [("exc_re", jstr "NullPointerException")])) with
  | Ok c => text_of ∘ SeedMode.mode_key <$> match_ c [u "Foo"] [] []
  | Raise _ => None
  end = Some "npe".
Proof. by vm_compute. Qed.

(** A prior that is no mapping escapes the catalogue's own error. *)
Example prior_shape_escapes : load_data (one_entry (jstr "si") (JObj [("kw", JList [jstr "x"])])) = Raise AttributeError.
Proof. by vm_compute. Qed.

(** The keyword [config not found] of [env_config_missing] cannot decide: [http_404],
    listed before it, matches [Not Found] whatever its case. *)
Example config_keyword_shadowed :
  match load_data seed_modes with
  | Ok c => text_of ∘ SeedMode.mode_key <$> match_ c [] (u "config not found: settings.yaml") []
  | Raise _ => None
  end = Some "http_404".
Proof. by vm_compute. Qed.
End Showcase.

(** ** A project's copy of a mode *)

Section SeedingLaws.
Context `{!Unicode, !PgVector}.

Definition is_copy (p : Z) (key : string) (k : Z * Z) (m : ModeRow.t) : bool :=
  (k.1 =? p)%Z && bool_decide (ModeRow.seed_key m = Some key).
Lemma seeded_copies p key d : seeded p key d = head ((fun x => x.1.2) <$> rows_of (is_copy p key) (failure_mode d)).
Proof. unfold seeded, is_copy. by destruct (rows_of _ _) as [|[k r] l]. Qed.

Lemma seeded_insert p key row d : seeded p key d = None -> ModeRow.seed_key row = Some key ->
  seeded p key (insert_mode p row d).1 = Some (next_mode d).
Proof.
  intros Hno Hk. rewrite seeded_copies in Hno |- *. destruct (rows_of _ (failure_mode (_ _).1)) as [|[[q i] r] l] eqn:E.
  - assert ((p, next_mode d, row) ∈ rows_of (is_copy p key)
              (failure_mode (insert_mode p row d).1)) as Hin.
    { apply elem_of_rows. unfold is_copy. cbn. rewrite lookup_insert_eq, Z.eqb_refl, bool_decide_eq_true_2 by done. done. }
    rewrite E in Hin. set_solver.
  - assert ((q, i, r) ∈ rows_of (is_copy p key)
              (failure_mode (insert_mode p row d).1)) as Hin by (rewrite E; set_solver).
    apply elem_of_rows in Hin as [Hl Hc]. unfold is_copy in Hc. cbn in Hl, Hc. apply andb_true_iff in Hc as [Hq Hs]. cbn in Hq. apply Z.eqb_eq in Hq. subst q. cbn.
    destruct (decide (i = next_mode d)) as [->|Hne]; [done|]. rewrite lookup_insert_ne in Hl by congruence.
    exfalso. destruct (rows_of _ (failure_mode d)) as [|x y] eqn:Er; [|done].
    assert ((p, i, r) ∈ rows_of (is_copy p key) (failure_mode d)) as Hin.
    { apply elem_of_rows. split; [done|]. unfold is_copy. cbn. by rewrite Z.eqb_refl. }
    rewrite Er in Hin. set_solver.
Qed.

Lemma seeded_row p key d i : seeded p key d = Some i ->
  exists r, failure_mode d !! (p, i) = Some r /\ ModeRow.seed_key r = Some key.
Proof.
  rewrite seeded_copies. destruct (rows_of _ _) as [|[[q j] r] l] eqn:E; [done|]. intros [= <-].
  assert ((q, j, r) ∈ rows_of (is_copy p key) (failure_mode d)) as Hin
    by (rewrite E; set_solver).
  apply elem_of_rows in Hin as [Hl [Hq Hs]%andb_true_iff]. cbn in *. apply Z.eqb_eq in Hq as ->.
  apply bool_decide_eq_true in Hs. by exists r.
Qed.

Lemma seeded_same p key d d' : failure_mode d' = failure_mode d -> seeded p key d' = seeded p key d.
Proof. unfold seeded. by intros ->. Qed.

(** The statement finds the copy that is there, or adds one; afterwards there is one. *)
Lemma ensure_seed_spec p key mode d d' i : ensure_seed_mode p key mode d = Ok (d', i) ->
  seeded p key d' = Some i
  /\ match seeded p key d with
     | Some j => i = j /\ failure_mode d' = failure_mode d
     | None => i = next_mode d /\ failure_mode d' = <[(p, i) := fresh_mode mode (Some key)]> (failure_mode d)
     end.
Proof.
  unfold ensure_seed_mode. destruct (check_mode _ _); [|done].
  rewrite (seeded_same p key d (add_projects [p] d)) by done. destruct (seeded p key d) as [j|] eqn:E; intros [= <- <-].
  - split; [|done]. by rewrite (seeded_same p key d).
  - split; [|done]. exact (seeded_insert p key (fresh_mode mode (Some key)) (add_projects [p] d) E eq_refl).
Qed.

Lemma match_and_seed_hit kb p exc msg tt_ d d' hit : match_and_seed kb p exc msg tt_ d = Ok (d', Some hit) ->
  exists m key title i, match_ (SeedKB._catalog kb) exc msg tt_ = Some m /\ SeedKB.has_store kb = true
    /\ SeedMode.mode_key m = JStr key /\ SeedMode.title m = JStr title
    /\ ensure_seed_mode p (of_u key) (copy_of p m title) d = Ok (d', i)
    /\ hit = SeedHit.mk (of_u key) i (SeedMode.prior_label m) (SeedMode.prior_confidence m).
Proof.
  unfold match_and_seed. destruct (match_ _ _ _ _) as [m|]; [|done].
  intros ([d1 i] & He & [= -> <-])%result_bind_Ok. unfold ensure_project_copy in He.
  apply required_Ok in He as [Hs (key & Hk & (title & Ht & He)%result_bind_Ok)%result_bind_Ok].
  unfold text_param in Hk, Ht. destruct (SeedMode.mode_key m) eqn:Ek; try done. destruct (SeedMode.title m) eqn:Et; try done.
  injection Hk as ->. injection Ht as ->. by exists m, key, title, i.
Qed.

(** A project gets one copy of a catalogue mode.  Seeding the copy of a matched
    mode is one write of the store, about that project; the hit names a mode of the
    project under the catalogue's key.  A copy that was there is left as it is; a
    new one starts as a candidate with the prior's label, no support and no purity,
    and every other mode stays as it was.  Seeding again answers the same hit and
    changes no mode. *)
Theorem seeding_idempotent (kb : SeedKB.t) (p : Z) (exc : list ustr) (msg : ustr) (tt_ : list ustr) (d d' : db)
    (hit : SeedHit.t) :
  match_and_seed kb p exc msg tt_ d = Ok (d', Some hit) ->
  exists m mode row, match_ (SeedKB._catalog kb) exc msg tt_ = Some m
    /\ SeedHit.label hit = SeedMode.prior_label m /\ SeedHit.confidence hit = SeedMode.prior_confidence m
    /\ d' = exec (EnsureSeedMode p (SeedHit.mode_key hit) mode) d
    /\ failure_mode d' !! (p, SeedHit.mode_id hit) = Some row /\ ModeRow.seed_key row = Some (SeedHit.mode_key hit)
    /\ (failure_mode d' = failure_mode d
        \/ row = fresh_mode mode (Some (SeedHit.mode_key hit)) /\ ModeRow.status row = "candidate"
           /\ ModeRow.label row = Some (u (SeedMode.prior_label m)) /\ ModeRow.support row = 0%Z
           /\ failure_mode d' = <[(p, SeedHit.mode_id hit) := row]> (failure_mode d))
    /\ exists d'', match_and_seed kb p exc msg tt_ d' = Ok (d'', Some hit) /\ failure_mode d'' = failure_mode d'.
Proof.
  intros (m & key & title & i & Hm & Hst & Hk & Ht & He & ->)%match_and_seed_hit. cbn.
  destruct (ensure_seed_spec _ _ _ _ _ _ He) as [Hs Hd]. destruct (seeded_row _ _ _ _ Hs) as (row & Hr & Hrk).
  exists m, (copy_of p m title), row. split_and!; [done..| |done|done| |].
  - cbn [exec]. by rewrite He.
  - destruct (seeded p (of_u key) d) as [j|]; [by left; destruct Hd|right]. destruct Hd as [-> Hd].
    rewrite Hd, lookup_insert_eq in Hr. injection Hr as <-. by rewrite Hd.
  - unfold match_and_seed, ensure_project_copy. rewrite Hm, Hst, Hk, Ht. cbn [required text_param mbind result_bind].
    destruct (ensure_seed_mode p (of_u key) (copy_of p m title) d') as [[d'' j]|e] eqn:E2.
    + destruct (ensure_seed_spec _ _ _ _ _ _ E2) as [_ H2]. rewrite Hs in H2. destruct H2 as [-> H2].
      cbn [mbind result_bind]. by exists d''.
    + unfold ensure_seed_mode in E2. by destruct (seeded _ _ _).
Qed.
End SeedingLaws.

Lemma seeding_idempotent_witness :
  let seed := @match_and_seed ascii_unicode toy_vectors npe_kb 2 [u "NullPointerException"] (u "x") [] in
  exists d' d'' hit, seed empty_db = Ok (d', Some hit) /\ seed d' = Ok (d'', Some hit) /\ failure_mode d'' = failure_mode d'.
Proof.
  intros seed.
  assert (match seed empty_db with Ok (_, Some _) => true | _ => false end = true) as Hs by (vm_compute; reflexivity).
  destruct (seed empty_db) as [[d' [hit|]]|e] eqn:E; [|done..].
  destruct (@seeding_idempotent ascii_unicode toy_vectors npe_kb 2 [u "NullPointerException"] (u "x") [] empty_db d' hit E)
    as (m & mode & row & _ & _ & _ & _ & _ & _ & _ & d'' & H2 & H3).
  by exists d', d'', hit.
Defined.
