(* ===== verification/SeedWiring.v ===== *)
(** * The engine over the seed catalogue

    [Analyze] takes the seed classifier as a function and the copies' titles come to
    [Wiring] as an argument; here both are the catalogue of [Seeds], and the engine's
    seed signal is [SeedKB.match_and_seed]. *)

From S2P Require Import Prelude PyFloat PyStr PyJson Regex LlmQueue Signature Database SeedModes PyNum Retrieval Knowledge HybridSearch StoreOps Features.
From S2P Require Import LlmEngine Seeds RouteHandlers Suggest Analyze Wiring Emit.
From Stdlib Require Import ZArith Lia.

#[local] Open Scope string_scope.
#[local] Open Scope list_scope.

(** ** The engine over the catalogue *)

Section EngineSeeds.
Context `{!Unicode, !PgVector, !PgSearch, !Heapq}.

(** The engine's view of a mode and of the catalogue, and the titles of the copies. *)
Definition engine_mode (m : Seeds.SeedMode.t) : Analyze.SeedMode.t :=
  Analyze.SeedMode.mk (Seeds.text_of (Seeds.SeedMode.mode_key m)) (Seeds.SeedMode.prior_label m) (Seeds.SeedMode.prior_confidence m).
Definition engine_matcher (kb : SeedKB.t) (exc_classes : list string) (msg_text : string) : option Analyze.SeedMode.t :=
  engine_mode <$> match_ (SeedKB._catalog kb) (u <$> exc_classes) (u msg_text) [].
Definition title_of (kb : SeedKB.t) (key : string) : ustr :=
  match get (SeedKB._catalog kb) (jstr key) with
  | Ok m => match Seeds.SeedMode.title m with JStr t => t | _ => [] end
  | Raise _ => []
  end.

(** Text keys and titles, each mode found under its key. *)
Definition keyed (c : SeedCatalog.t) : Prop := forall m, m ∈ SeedCatalog.modes c ->
  exists key title, Seeds.SeedMode.mode_key m = jstr key /\ Seeds.SeedMode.title m = JStr title /\ get c (jstr key) = Ok m.

Definition seed_signal_of (m : Seeds.SeedMode.t) : SeedSignal.t :=
  SeedSignal.mk (Seeds.SeedMode.prior_label m) (Seeds.SeedMode.prior_confidence m).

Lemma match_in c exc msg tt_ m : match_ c exc msg tt_ = Some m -> m ∈ SeedCatalog.modes c.
Proof. unfold match_. intros Hf. apply List.find_some in Hf as [Hin _]. by apply list_elem_of_In. Qed.

Lemma seed_by_key kb p exc msg tt_ m d : keyed (SeedKB._catalog kb) -> SeedKB.has_store kb = true ->
  match_ (SeedKB._catalog kb) exc msg tt_ = Some m ->
  exists key, Seeds.SeedMode.mode_key m = jstr key /\
    match Knowledge.ensure_seed_mode p key (mode_in p (engine_mode m) (title_of kb key)) d with
    | Ok (d', i) => match_and_seed kb p exc msg tt_ d
                    = Ok (d', Some (SeedHit.mk key i (Seeds.SeedMode.prior_label m) (Seeds.SeedMode.prior_confidence m)))
    | Raise e => match_and_seed kb p exc msg tt_ d = Raise e
    end.
Proof.
  intros Hk Hs Hm. destruct (Hk m (match_in _ _ _ _ _ Hm)) as (key & title & Ek & Et & Eg). exists key. split; [done|].
  unfold match_and_seed, ensure_project_copy, title_of. rewrite Hm, Hs, Ek, Et, Eg, Et.
  cbn [required text_param mbind result_bind jstr Seeds.text_of]. rewrite of_u_u.
  change (mode_in p (engine_mode m) title) with (copy_of p m title).
  by destruct (Knowledge.ensure_seed_mode _ _ _ _) as [[d' i]|e].
Qed.

(** The copy's status and source pass the table's checks. *)
Lemma copy_made p key mode d : ModeIn.status mode = "candidate" -> ModeIn.label_source mode = Some "seed" ->
  exists d' i, Knowledge.ensure_seed_mode p key mode d = Ok (d', i).
Proof.
  intros Hs Hl. unfold Knowledge.ensure_seed_mode. rewrite Hs, Hl. replace (check_mode _ _) with true by done.
  destruct (seeded _ _ _) as [i|]; [by eexists _, _|]. unfold insert_mode. by eexists _, _.
Qed.

(** The engine seeds as the loader does.  Over the real store and a catalogue of
    text keys, the seed signal of a decision is [match_and_seed] in one transaction:
    no match leaves the service as it was and gives no signal; a match gives the
    prior of the first matching mode, and, when the database answers, the mode of the
    project's copy, with the copy the only change; when it does not, the signal alone
    and no change of the store. *)
Theorem engine_seeds_by_the_loader (tick : Z -> Z) (outage : nat -> option pyexn) (sidecar : Sidecar.t)
    (kb : SeedKB.t) (eng : Engine.t service) (p : Z) (sig : SignatureResult.t) (w : world service event) :
  let stores := pg_stores tick outage sidecar (title_of kb) in
  let exc := u <$> SignatureResult.exc_classes sig in
  let msg := u (SignatureResult.msg_text sig) in
  let s := st w in
  Engine.seed_match eng = Some (engine_matcher kb) -> keyed (SeedKB._catalog kb) -> SeedKB.has_store kb = true ->
  match match_ (SeedKB._catalog kb) exc msg [] with
  | None => _seed_signal eng p sig w = (w, Ok (None, None))
            /\ match_and_seed kb p exc msg [] (Service.store s) = Ok (Service.store s, None)
  | Some m =>
      exists w', match outage (Service.calls s), match_and_seed kb p exc msg [] (Service.store s) with
      | None, Ok (d', Some hit) =>
          _seed_signal eng p sig w = (w', Ok (Some (seed_signal_of m), Some (SeedHit.mode_id hit)))
          /\ Service.store (st w') = d' /\ trace w' = trace w ++ [ESeedCopy p (SeedHit.mode_key hit)]
          /\ Service.jobs (st w') = Service.jobs s
      | Some _, _ =>
          _seed_signal eng p sig w = (w', Ok (Some (seed_signal_of m), None))
          /\ Service.store (st w') = Service.store s /\ trace w' = trace w /\ Service.jobs (st w') = Service.jobs s
      | None, _ => False
      end
  end.
Proof.
  intros stores exc msg s He Hk Hs. destruct (match_ _ exc msg []) as [m|] eqn:Em.
  - destruct (seed_by_key kb p exc msg [] m (Service.store s) Hk Hs Em) as (key & Ek & Hseed).
    assert (SeedMode.mode_key (engine_mode m) = key) as Ekey by (cbn; rewrite Ek; apply of_u_u).
    destruct (copy_made p key (mode_in p (engine_mode m) (title_of kb key)) (Service.store s)) as (d' & i & Ec); [done..|].
    rewrite Ec in Hseed. unfold _seed_signal. rewrite He. unfold engine_matcher. fold exc msg. rewrite Em.
    cbn [fmap option_fmap option_map]. unfold Emit.attempt, call, mbind, M_bind.
    change (ensure_seed_mode p (engine_mode m) (st w)) with
      (transact tick outage (fun _ => Knowledge.ensure_seed_mode p (SeedMode.mode_key (engine_mode m))
         (mode_in p (engine_mode m) (title_of kb (SeedMode.mode_key (engine_mode m))))) s).
    rewrite Ekey. unfold transact. destruct (outage (Service.calls s)) as [e|].
    + by eexists.
    + rewrite Ec, Hseed. by eexists.
  - split; [|by unfold match_and_seed; rewrite Em].
    unfold _seed_signal. rewrite He. unfold engine_matcher. fold exc msg. by rewrite Em.
Qed.
End EngineSeeds.

(** ** The packaged catalogue behind the engine *)

Section Example.
#[local] Existing Instances ascii_unicode seed_repr toy_vectors toy_search sorted_heapq.

Definition plainly_keyed (m : Seeds.SeedMode.t) : bool :=
  bool_decide (Seeds.SeedMode.mode_key m = jstr (Seeds.text_of (Seeds.SeedMode.mode_key m)))
  && is_text (Seeds.SeedMode.title m).

Lemma keyed_loaded data c : load_data data = Ok c -> forallb plainly_keyed (SeedCatalog.modes c) = true -> keyed c.
Proof.
  intros Hl Hf m Hm. rewrite forallb_forall in Hf. apply list_elem_of_In in Hm as Hin.
  specialize (Hf m Hin). apply andb_true_iff in Hf as [Hk%bool_decide_eq_true Ht].
  destruct (Seeds.SeedMode.title m) as [| | | |title| |] eqn:Et; try done.
  exists (Seeds.text_of (Seeds.SeedMode.mode_key m)), title. split_and!; [done..|]. by eapply loaded_get.
Qed.

Definition packaged : SeedCatalog.t := or_empty (load_data seed_modes).
Definition packaged_kb : SeedKB.t := SeedKB.mk packaged true.

Lemma keyed_or_empty data : forallb plainly_keyed (SeedCatalog.modes (or_empty (load_data data))) = true ->
  keyed (or_empty (load_data data)).
Proof.
  destruct (load_data data) as [c|e] eqn:El; intros Hf; [by apply (keyed_loaded data)|].
  intros m Hm. by apply not_elem_of_nil in Hm.
Qed.

Lemma packaged_keyed : keyed packaged.
Proof. apply keyed_or_empty. vm_compute. reflexivity. Qed.

Lemma npe_keyed : keyed (SeedKB._catalog npe_kb).
Proof. apply keyed_or_empty. vm_compute. reflexivity. Qed.

Definition seeding_engine : Analyze.Engine.t service :=
  Analyze.Engine.mk service (Some (engine_matcher npe_kb)) None None true false (dec 75 100) (dec 85 100) (dec 4 10)
    (dec 5 1000) true "kb_inherit_only" (dec 9 10) "none".
Definition null_pointer : SignatureResult.t :=
  SignatureResult.mk 11 12 [13%Z] [] [] "x" ["NullPointerException"] true false false "NullPointerException x".
Definition fresh_service : service := Service.mk empty_db 100 0 true None empty_queue [] LlmState.starting.
Definition seeded_signal : world service event * result (option SeedSignal.t * option Z) :=
  @_seed_signal service (pg_stores Z.succ calm both_on (title_of npe_kb)) seeding_engine 2 null_pointer
    (mk_world fresh_service []).

Lemma engine_seeds_by_the_loader_witness :
  exists d' hit, match_and_seed npe_kb 2 [u "NullPointerException"] (u "x") [] empty_db = Ok (d', Some hit)
    /\ Service.store (st seeded_signal.1) = d' /\ trace seeded_signal.1 = [ESeedCopy 2 (SeedHit.mode_key hit)].
Proof.
  pose proof (engine_seeds_by_the_loader Z.succ calm both_on npe_kb seeding_engine 2 null_pointer
                (mk_world fresh_service []) eq_refl npe_keyed eq_refl) as Hw.
  cbv zeta in Hw.
  change (u <$> SignatureResult.exc_classes null_pointer) with [u "NullPointerException"] in Hw.
  change (u (SignatureResult.msg_text null_pointer)) with (u "x") in Hw.
  change (Service.store (st (mk_world fresh_service []))) with empty_db in Hw.
  assert (is_Some (match_ (SeedKB._catalog npe_kb) [u "NullPointerException"] (u "x") [])) as [m Em] by (vm_compute; by eexists).
  rewrite Em in Hw. destruct Hw as (w' & Hw). unfold calm in Hw.
  destruct (match_and_seed _ _ _ _ _ _) as [[d' [hit|]]|e]; [|by destruct Hw..].
  destruct Hw as (Hr & Hs & Ht & _). exists d', hit. replace seeded_signal with (w', Ok (Some (seed_signal_of m), Some (SeedHit.mode_id hit))) by exact (eq_sym Hr). by split_and!.
Defined.
End Example.
