(* ===== verification/EarlyReplay.v ===== *)
(** * The offline replay of the early pass

    [ml/early_replay.py] rewrites a stored feature snapshot into what the early pass,
    which sees an item as a group of one, would have seen, scores both with the
    shipped model and reports how often the answer changes; and
    [tools/replay-early-aa/replay.py] selects the snapshots.  The theorem is that the
    rewriting is the extractor's own answer for the group of one. *)

From S2P Require Import Prelude PyFloat FloatQuot PyStr PyFmt PyJson Features Decision Database Retrieval.
From S2P Require Import Grouping Analyze.
From Stdlib Require Import ZArith Lia.

Import Db (suggestion).

#[local] Open Scope string_scope.
#[local] Open Scope list_scope.

(** ** One row *)

Module ReplayRecord.
Record t := mk { item_id : Z; finish_label : string; finish_conf : pyfloat; early_label : string; early_conf : pyfloat }.
End ReplayRecord.

Definition band (confidence : pyfloat) : string :=
  if (TAU_AUTO <=? confidence)%F then "auto" else if (TAU_SUGGEST <=? confidence)%F then "suggest" else "abstain".

Definition label_flipped (r : ReplayRecord.t) : bool :=
  negb (bool_decide (ReplayRecord.finish_label r = ReplayRecord.early_label r)).
Definition band_changed (r : ReplayRecord.t) : bool :=
  negb (bool_decide (band (ReplayRecord.finish_conf r) = band (ReplayRecord.early_conf r))).

Section Replay.
Context `{!Libm}.

(** [math.log1p(1) / math.log1p(200)]. *)
Definition SIZE_ONE_POINT : pyfloat := fquot (math_log1p (of_Z 1)) (math_log1p (of_Z 200)).

Definition SINGLETON_OVERRIDES : list (string * pyfloat) :=
  [("group_dominance", f1); ("co_failure_group_size", SIZE_ONE_POINT); ("launch_fail_fraction", f0); ("si_prior", f0)].

(** [out.update(SINGLETON_OVERRIDES)]. *)
Definition singletonize (features : list (string * pyfloat)) : list (string * pyfloat) :=
  fold_left (fun out kv => dset kv.1 kv.2 out) SINGLETON_OVERRIDES features.

Definition replay_row (predict : list (string * pyfloat) -> Z -> option GbmDecision.t) (project_id item_id : Z)
    (features : list (string * pyfloat)) : option ReplayRecord.t :=
  match predict features project_id, predict (singletonize features) project_id with
  | Some finish, Some early =>
      Some (ReplayRecord.mk item_id (GbmDecision.label finish) (GbmDecision.max_prob finish)
              (GbmDecision.label early) (GbmDecision.max_prob early))
  | _, _ => None
  end.
End Replay.

(** ** The report *)

(** [Counter(keys)], and [dict(counter.most_common())]. *)
Definition counter (keys : list string) : list (string * Z) := fold_left (fun c k => dset k (dgetd k 0 c + 1)%Z c) keys [].
Definition most_common (c : list (string * Z)) : list (string * Z) := pysorted (fun a b => (b.2 <=? a.2)%Z) c.

Definition flip_pair (r : ReplayRecord.t) : string := ReplayRecord.finish_label r +:+ "->" +:+ ReplayRecord.early_label r.
Definition band_pair (r : ReplayRecord.t) : string :=
  band (ReplayRecord.finish_conf r) +:+ "->" +:+ band (ReplayRecord.early_conf r).
Definition conf_delta (r : ReplayRecord.t) : pyfloat := fabs (ReplayRecord.finish_conf r - ReplayRecord.early_conf r)%F.

Definition rate (part : Z) (n : Z) : json := JFloat (py_round 4 (int_quot part n)).
Definition counts (keys : list string) : json := JObj ((fun kv => (kv.1, JInt kv.2)) <$> most_common (counter keys)).

Definition aggregate (records : list ReplayRecord.t) : list (string * json) :=
  match records with
  | [] => [("n", JInt 0)]
  | r0 :: rest =>
      let n := ilen records in
      let flips := List.filter label_flipped records in
      let band_moves := List.filter band_changed records in
      [("n", JInt n);
       ("label_flip_rate", rate (ilen flips) n);
       ("label_flips_by_pair", counts (flip_pair <$> flips));
       ("band_change_rate", rate (ilen band_moves) n);
       ("band_changes_by_pair", counts (band_pair <$> band_moves));
       ("mean_abs_conf_delta", JFloat (py_round 4 (fquot (py_sum (conf_delta <$> records)) (of_Z n))));
       ("max_abs_conf_delta", JFloat (py_round 4 (fold_left pymax2 (conf_delta <$> rest) (conf_delta r0))))]
  end.

(** The snapshots the tool replays: model decisions of the launch-finish pass, newest
    first. *)
Definition replayed (s : SugRow.t) : bool :=
  bool_decide (SugRow.method s = Some "gbm") && negb (bool_decide (SugRow.source s = Some "early"))
  && negb (bool_decide (SugRow.features s = [])).
Definition replay_rows (project limit : Z) (d : db) : list (Z * list (string * json)) :=
  (fun ks => (SugRow.item_id ks.2, SugRow.features ks.2))
    <$> limited (fun a b => leb_of (desc a.1 b.1)) limit
          (rows_of (fun _ s => (SugRow.project_id s =? project)%Z && replayed s) (suggestion d)).

(** ** The rewriting is the early pass's snapshot *)

(** The context of the same item as a group of one, mid-launch. *)
Definition singleton_context (ctx : FeatureContext.t) : FeatureContext.t :=
  match ctx with
  | FeatureContext.mk a b c d e f g h i _ _ _ _ n o p q r s t0 u0 v w x y z aa =>
      FeatureContext.mk a b c d e f g h i 1 1 0 f0 n o p q r s t0 u0 v w x y z aa
  end.

Definition GROUP_COLUMNS : list string := ["group_dominance"; "co_failure_group_size"; "launch_fail_fraction"; "si_prior"].

(** Snapshots that agree outside the launch-context columns. *)
Definition agree (a b : list (string * pyfloat)) : Prop := forall k, k ∉ GROUP_COLUMNS -> dget k a = dget k b.

Lemma dget_dset_dec {K V} `{EqDecision K} (k k' : K) (v : V) d : dget k' (dset k v d) = if decide (k = k') then Some v else dget k' d.
Proof. case_decide; [subst; apply dget_dset_eq|by apply dget_dset_ne]. Qed.

Lemma agree_dset k v a b : agree a b -> agree (dset k v a) (dset k v b).
Proof. intros Hab k' Hk. rewrite !dget_dset_dec. case_decide; [done|by apply Hab]. Qed.
Lemma agree_dset_l k v a b : k ∈ GROUP_COLUMNS -> agree a b -> agree (dset k v a) b.
Proof. intros Hk Hab k' Hk'. rewrite dget_dset_ne by (intros ->; done). by apply Hab. Qed.
Lemma agree_dset_r k v a b : k ∈ GROUP_COLUMNS -> agree a b -> agree a (dset k v b).
Proof. intros Hk Hab k' Hk'. rewrite dget_dset_ne by (intros ->; done). by apply Hab. Qed.
Lemma agree_refl a : agree a a.
Proof. by intros k _. Qed.

#[local] Hint Resolve agree_dset agree_refl : agree.

Lemma agree_onehot a b prefix levels value : agree a b -> agree (_set_onehot a prefix levels value) (_set_onehot b prefix levels value).
Proof.
  unfold _set_onehot. generalize (if decide (value ∈ levels) then value else LLM_UNKNOWN). intros active.
  revert a b. induction levels as [|l levels IH]; intros a b Hab; simpl; [done|]. apply IH. by apply agree_dset.
Qed.

(** A column is one of the four. *)
Ltac in_group := apply (bool_decide_eq_true_1 (_ ∈ GROUP_COLUMNS)); vm_compute; reflexivity.

Section Agree.
Context `{!Libm}.

Lemma agree_item ctx a b : agree a b -> agree (item_features ctx a) (item_features ctx b).
Proof. intros Hab. unfold item_features. cbv zeta. repeat apply agree_dset. case_match; [by apply agree_dset|done]. Qed.

Lemma agree_discriminant ctx a b : agree a b -> agree (discriminant_features ctx a) (discriminant_features ctx b).
Proof.
  intros Hab. unfold discriminant_features. cbv zeta. apply agree_dset.
  destruct (best_neighbour ctx) as [[tokens source]|]; repeat apply agree_dset;
    (case_match; repeat apply agree_dset; done).
Qed.

Lemma agree_context ctx a : agree (context_features ctx a) (context_features (singleton_context ctx) a).
Proof.
  destruct ctx. unfold context_features, singleton_context.
  cbn [FeatureContext.flakiness_score FeatureContext.window_runs FeatureContext.window_failures FeatureContext.window_flips
       FeatureContext.group_size FeatureContext.launch_failures FeatureContext.launch_items FeatureContext.si_prior].
  cbv zeta.
  apply agree_dset_r; [in_group|]. apply agree_dset_l; [in_group|].
  case_decide; (try (apply agree_dset_l; [in_group|])); (apply agree_dset_r; [in_group|]);
    (case_decide; [apply agree_dset_l; [in_group|]|]); apply agree_dset_l; try in_group; apply agree_dset_r; try in_group;
    apply agree_refl.
Qed.
End Agree.

Lemma assoc_ext {K V} `{EqDecision K} (a b : list (K * V)) : a.*1 = b.*1 -> NoDup a.*1 -> (forall k, dget k a = dget k b) -> a = b.
Proof.
  revert b. induction a as [|[k v] a IH]; intros [|[k' v'] b] Hk Hn Hd; simplify_eq/=; [done|].
  apply NoDup_cons in Hn as [Hni Hn]. pose proof (Hd k') as Hv. simpl in Hv. rewrite !decide_True in Hv by done. injection Hv as ->.
  f_equal. apply IH; [done..|]. intros k. destruct (decide (k = k')) as [->|Hne].
  - destruct (dget k' a) as [x|] eqn:Ea; [apply dget_elem in Ea; destruct Hni; apply list_elem_of_fmap; by exists (k', x)|].
    destruct (dget k' b) as [x|] eqn:Eb; [|done]. apply dget_elem in Eb. destruct Hni.
    match goal with E : a.*1 = b.*1 |- _ => rewrite E end. apply list_elem_of_fmap. by exists (k', x).
  - specialize (Hd k). simpl in Hd. by rewrite !decide_False in Hd.
Qed.

Section Singleton.
Context `{!Libm}.

(** The retrieval stages leave a column they do not write. *)
Ltac peel := cbv zeta; rewrite ?dget_dset_ne by discriminate.
Notation FRACTION := "launch_fail_fraction" (only parsing).

Lemma mass_frame ctx cands values : dget FRACTION (mass_features ctx cands values) = dget FRACTION values.
Proof.
  unfold mass_features. destruct (history_mass ctx cands) as [mass total]. destruct (f0 <? total)%F; [|done].
  unfold BASE_LABELS. cbn [fold_left]. by peel.
Qed.

Lemma candidate_frame ctx values : dget FRACTION (candidate_features ctx values) = dget FRACTION values.
Proof.
  unfold candidate_features. destruct (FeatureContext.candidates ctx) as [|c rest]; [done|]. cbv zeta.
  rewrite mass_frame. peel. unfold label_features. cbv zeta.
  destruct (base_group _) as [b|]; [case_decide|]; by peel.
Qed.

Lemma kb_seed_frame ctx values : dget FRACTION (seed_features ctx (kb_features ctx values)) = dget FRACTION values.
Proof.
  assert (dget FRACTION (kb_features ctx values) = dget FRACTION values) as <-.
  { unfold kb_features. destruct (FeatureContext.kb_best ctx); [by peel|done]. }
  unfold seed_features. destruct (FeatureContext.seed ctx) as [s|]; [|done]. cbv zeta.
  destruct (base_group _) as [b|]; by peel.
Qed.

Lemma item_frame ctx k values : k ∈ GROUP_COLUMNS -> dget k (item_features ctx values) = dget k values.
Proof. intros Hk. unfold item_features. elem_cases Hk; destruct (FeatureContext.test_age_days ctx); by peel. Qed.

Lemma onehots_frame k values value1 value2 : k ∈ GROUP_COLUMNS ->
  dget k (_set_onehot (_set_onehot values "llm_failing_layer" FAILING_LAYER_LEVELS value1)
            "llm_error_class" ERROR_CLASS_LEVELS value2) = dget k values.
Proof.
  intros Hk. rewrite !set_onehot_frame; [done|..]; intros lvl _; elem_cases Hk; by intros [=].
Qed.

Lemma tail_frame ctx k values : k ∈ GROUP_COLUMNS ->
  dget k (discriminant_features ctx (_set_onehot (_set_onehot (item_features ctx values) "llm_failing_layer"
            FAILING_LAYER_LEVELS (FeatureContext.llm_failing_layer ctx)) "llm_error_class" ERROR_CLASS_LEVELS
            (FeatureContext.llm_error_class ctx))) = dget k values.
Proof.
  intros Hk. rewrite discriminant_features_frame by (elem_cases Hk; set_solver).
  rewrite onehots_frame by done. by apply item_frame.
Qed.

(** A number strictly between 0 and 1 is its own clamp. *)
Lemma clamp_inside x : (f0 <? x)%F = true -> (x <? f1)%F = true -> _clamp01 x = x.
Proof.
  intros Hl Hh. assert (clamp01 x = x) as E by (unfold clamp01, pymax2, pymin2; by rewrite Hh, Hl).
  destruct x as [ |[]| |]; first [discriminate|exact E].
Qed.

Lemma singletonize_agree a : agree (singletonize a) a.
Proof. unfold singletonize. cbn [fold_left SINGLETON_OVERRIDES fst snd]. do 4 (apply agree_dset_l; [in_group|]). apply agree_refl. Qed.

Lemma singletonize_value k a : k ∈ GROUP_COLUMNS -> dget k (singletonize a) = dget k SINGLETON_OVERRIDES.
Proof. intros Hk. unfold singletonize. elem_cases Hk; cbn [fold_left SINGLETON_OVERRIDES fst snd]; rewrite ?dget_dset_ne by discriminate;
  by rewrite dget_dset_eq. Qed.

Lemma dset_group k v (a : list (string * pyfloat)) : k ∈ GROUP_COLUMNS -> a.*1 = feature_names -> (dset k v a).*1 = feature_names.
Proof.
  intros Hk Ha. rewrite dset_keys; [done|]. rewrite Ha. apply (bool_decide_eq_true_1 (_ ∈ feature_names)).
  elem_cases Hk; by vm_compute.
Qed.

Lemma singletonize_keys a : a.*1 = feature_names -> (singletonize a).*1 = feature_names.
Proof.
  intros Ha. unfold singletonize. cbn [fold_left SINGLETON_OVERRIDES fst snd].
  by do 4 (apply dset_group; [in_group|]).
Qed.

(** The launch-context columns of a group of one, mid-launch. *)
Lemma singleton_columns ctx k a : (f0 <? SIZE_ONE_POINT)%F = true -> (SIZE_ONE_POINT <? f1)%F = true ->
  dget "launch_fail_fraction" a = Some f0 -> k ∈ GROUP_COLUMNS ->
  dget k (context_features (singleton_context ctx) a) = dget k SINGLETON_OVERRIDES.
Proof.
  intros Hl Hh Hf Hk. destruct ctx. unfold context_features, singleton_context.
  cbn [FeatureContext.flakiness_score FeatureContext.window_runs FeatureContext.window_failures FeatureContext.window_flips
       FeatureContext.group_size FeatureContext.launch_failures FeatureContext.launch_items FeatureContext.si_prior].
  cbv zeta. rewrite (decide_True (P := (0 < 1)%Z)) by lia.
  rewrite (decide_False (P := (0 < 0)%Z)) by lia.
  assert (_clamp01 (fquot (math_log1p (of_Z (Z.max 0 1))) (math_log1p (of_Z 200))) = SIZE_ONE_POINT) as ->
    by (by apply clamp_inside).
  elem_cases Hk; rewrite ?dget_dset_ne by discriminate; rewrite ?dget_dset_eq; try done.
  case_decide; destruct flakiness_score; rewrite ?dget_dset_ne by discriminate; by rewrite Hf.
Qed.

(** Only [context_features] looks at the launch. *)
Definition retrieval_stage (ctx : FeatureContext.t) (values : list (string * pyfloat)) : list (string * pyfloat) :=
  seed_features ctx (kb_features ctx (candidate_features ctx values)).
Definition early_tail (ctx : FeatureContext.t) (values : list (string * pyfloat)) : list (string * pyfloat) :=
  discriminant_features ctx (_set_onehot (_set_onehot (item_features ctx values) "llm_failing_layer"
    FAILING_LAYER_LEVELS (FeatureContext.llm_failing_layer ctx)) "llm_error_class" ERROR_CLASS_LEVELS
    (FeatureContext.llm_error_class ctx)).

Lemma extract_stages ctx : extract_features ctx = early_tail ctx (context_features ctx (retrieval_stage ctx FEATURE_DEFAULTS)).
Proof. done. Qed.

Lemma singleton_stages ctx : extract_features (singleton_context ctx)
  = early_tail ctx (context_features (singleton_context ctx) (retrieval_stage ctx FEATURE_DEFAULTS)).
Proof. rewrite extract_stages. by destruct ctx. Qed.

(** The replay scores what the early pass would have seen.  Rewriting a stored
    snapshot of a launch-finish decision gives, column by column, the snapshot the
    extractor makes of the same item as a group of one whose launch has no item
    count yet: the four launch-context columns are the constants, and every other
    column - logs, history, retrieval - is untouched, whatever the launch was.  The
    mathematics library need only put the size-1 point between 0 and 1. *)
Theorem singleton_replay_exact (ctx : FeatureContext.t) :
  (f0 <? SIZE_ONE_POINT)%F = true -> (SIZE_ONE_POINT <? f1)%F = true ->
  singletonize (extract_features ctx) = extract_features (singleton_context ctx).
Proof.
  intros Hl Hh. destruct (extract_features_inv ctx) as [Hk1 _].
  destruct (extract_features_inv (singleton_context ctx)) as [Hk2 _].
  apply assoc_ext.
  - by rewrite Hk2, singletonize_keys.
  - rewrite singletonize_keys by done. apply feature_names_NoDup.
  - intros k. destruct (decide (k ∈ GROUP_COLUMNS)) as [Hk|Hk].
    + rewrite singletonize_value, singleton_stages by done. unfold early_tail. rewrite tail_frame by done.
      symmetry. apply singleton_columns; [done..| |done]. unfold retrieval_stage. by rewrite kb_seed_frame, candidate_frame.
    + rewrite (singletonize_agree _ _ Hk), singleton_stages, extract_stages. revert k Hk. unfold early_tail.
      apply agree_discriminant, agree_onehot, agree_onehot, agree_item, agree_context.
Qed.
End Singleton.

Definition plain_libm : Libm := {| math_exp := id; math_log := id; math_log1p := id; float_pow x _ := x |}.
Lemma singleton_replay_exact_witness :
  let libm := plain_libm in
  @singletonize libm (@extract_features libm (@empty_context libm)) = @extract_features libm (singleton_context (@empty_context libm)).
Proof. exact (@singleton_replay_exact plain_libm (@empty_context plain_libm) eq_refl eq_refl). Defined.

(** The early pass decides with that context: one member, one failure, no burst, and
    no item count in the launch. *)
Lemma early_feature_context {St vec} `{!Analyze.Stores St} (eng : Analyze.Engine.t St) (s : St) rep
    (g g' : Grouping.LaunchGroup.t vec) (n : Z) :
  length (Grouping.LaunchGroup.members g) = 1%nat -> Grouping.LaunchGroup.si_prior g = f0 ->
  Analyze.ItemAnalysis.launch_items rep = 0%Z ->
  Analyze._feature_ctx eng s rep g 1 = singleton_context (Analyze._feature_ctx eng s rep g' n).
Proof. intros Hl Hp Hi. unfold Analyze._feature_ctx, singleton_context. cbv zeta. by rewrite Hl, Hp, Hi. Qed.

(** ** The report accounts for every row *)

Definition total (c : list (string * Z)) : Z := foldr (fun kv n => (kv.2 + n)%Z) 0%Z c.

Lemma counter_total keys : total (counter keys) = ilen keys.
Proof.
  unfold counter, ilen. assert (forall c, total (fold_left (fun c k => dset k (dgetd k 0 c + 1)%Z c) keys c)
    = (total c + Z.of_nat (length keys))%Z) as Hc; [|by rewrite Hc].
  induction keys as [|k keys IH]; intros c; simpl; [lia|]. rewrite IH.
  pose proof (sum_dset (fun z : Z => z) 0%Z k (dgetd k 0 c + 1)%Z c eq_refl) as Hs. cbv beta in Hs. unfold total. lia.
Qed.

Lemma most_common_total c : total (most_common c) = total c.
Proof.
  assert (forall a b, a ≡ₚ b -> total a = total b) as Hp.
  { unfold total. induction 1; simpl; lia. }
  apply Hp. apply pysorted_perm.
Qed.

(** The flips and the band moves are counted once each, under the pair they make, and
    the rates are fractions of all the rows. *)
Theorem report_accounts (records : list ReplayRecord.t) : records <> [] ->
  let flips := List.filter label_flipped records in
  exists pairs bands : list (string * Z),
    dget "n" (aggregate records) = Some (JInt (ilen records))
    /\ dget "label_flips_by_pair" (aggregate records) = Some (JObj ((fun kv => (kv.1, JInt kv.2)) <$> pairs))
    /\ total pairs = ilen flips
    /\ dget "band_changes_by_pair" (aggregate records) = Some (JObj ((fun kv => (kv.1, JInt kv.2)) <$> bands))
    /\ total bands = ilen (List.filter band_changed records)
    /\ dget "label_flip_rate" (aggregate records) = Some (JFloat (py_round 4 (int_quot (ilen flips) (ilen records))))
    /\ in01 (int_quot (ilen flips) (ilen records)) = true.
Proof.
  intros Hne flips. destruct records as [|r0 rest]; [done|]. set (records := r0 :: rest) in *.
  exists (most_common (counter (flip_pair <$> flips))), (most_common (counter (band_pair <$> List.filter band_changed records))).
  split_and!; try done.
  - rewrite most_common_total, counter_total. unfold ilen. by rewrite length_fmap.
  - rewrite most_common_total, counter_total. unfold ilen. by rewrite length_fmap.
  - apply int_quot_in01; unfold ilen; [|subst records; simpl; lia]. subst flips.
    pose proof (List.filter_length_le label_flipped records). lia.
Qed.

Lemma report_accounts_witness :
  let r := ReplayRecord.mk 1 "pb" (dec 8 10) "ab" (dec 6 10) in
  exists pairs : list (string * Z),
    dget "label_flips_by_pair" (aggregate [r; r]) = Some (JObj ((fun kv => (kv.1, JInt kv.2)) <$> pairs)) /\ total pairs = 2%Z.
Proof.
  intros r. destruct (report_accounts [r; r] ltac:(done)) as (pairs & bands & _ & Hp & Ht & _). by exists pairs.
Defined.
