(* ===== verification/Migrate.v ===== *)
(** * The migration runner

    [db/migrate.py]: discovering the migration files, splitting a script into
    statements, the ledger with its checksums, and one run under the advisory lock;
    and the runs of several containers that start at once, as a transition system.
    The server's effect of a statement, the digest and the contents of the migrations
    directory are arguments. *)

From S2P Require Import Prelude PyStr Regex PyText UrlCodec PyInt.
From Stdlib Require Import ZArith NArith Lia.

#[local] Open Scope string_scope.
#[local] Open Scope list_scope.
#[local] Open Scope Z_scope.

(** ** Files *)

Definition MigrationError : pyexn := OtherError "MigrationError".
Definition UnicodeDecodeError : pyexn := OtherError "UnicodeDecodeError".
Definition NO_TRANSACTION_MARKER : ustr := u "-- analyzer:no-transaction".
Definition _FILENAME_RE : pattern := compile "^(\d+)_.+\.sql$".

Module Migration.
Record t := mk { version : Z; filename : ustr; checksum : ustr; sql : ustr; no_transaction : bool }.
End Migration.

(** [data.replace(b"\r\n", b"\n")]. *)
Fixpoint normalize_bytes (data : list N) : list N :=
  match data with
  | c :: ((d :: rest) as data') =>
      if ((c =? 13) && (d =? 10))%N then 10%N :: normalize_bytes rest else c :: normalize_bytes data'
  | _ => data
  end.

(** [bytes.decode("utf-8")]: an undecodable byte raises. *)
Definition utf8_strict (data : list N) : result ustr :=
  let text := utf8_decode data in
  if bool_decide (utf8_encode text = Some data) then Ok text else Raise UnicodeDecodeError.

(** The line boundaries of [str.splitlines]. *)
Definition boundary (c : N) : bool :=
  ((10 <=? c) && (c <=? 13) || (28 <=? c) && (c <=? 30) || (c =? 133) || (c =? 8232) || (c =? 8233))%N.
Fixpoint splitlines_from (cur : ustr) (s : ustr) : list ustr :=
  match s with
  | [] => match cur with [] => [] | _ => [cur] end
  | c :: s' =>
      if boundary c then
        cur :: match s' with
               | d :: s'' => if ((c =? 13) && (d =? 10))%N then splitlines_from [] s'' else splitlines_from [] s'
               | [] => []
               end
      else splitlines_from (cur ++ [c]) s'
  end.
Definition splitlines : ustr -> list ustr := splitlines_from [].

Fixpoint marker_in (lines : list ustr) : bool :=
  match lines with
  | [] => false
  | line :: rest =>
      let stripped := ustrip line in
      if bool_decide (stripped = NO_TRANSACTION_MARKER) then true
      else if negb (bool_decide (stripped = [])) && negb (starts stripped (u "--")) then false
      else marker_in rest
  end.
Definition _has_no_transaction_marker (text : ustr) : bool := marker_in (splitlines text).

(** ** Statements *)

Inductive mode := Plain | Quoted | Dollar (tag : ustr).

Definition QUOTE : N := 39%N.
Definition DASH : N := 45%N.
Definition DOLLAR : N := 36%N.
Definition SEMI : N := 59%N.
Definition LF : N := 10%N.

Definition tag_char (c : N) : bool := adigit c || aalpha c || (c =? 95)%N.
Fixpoint take_tag (s : ustr) : ustr * ustr :=
  match s with
  | c :: s' => if tag_char c then let '(t, r) := take_tag s' in (c :: t, r) else ([], s)
  | [] => ([], [])
  end.
(** [_DOLLAR_TAG_RE.match(sql_text, i)] at a dollar, from the text after it. *)
Definition dollar_tag (after : ustr) : option ustr :=
  let '(name, rest) := take_tag after in
  match rest with c :: _ => if (c =? DOLLAR)%N then Some (DOLLAR :: name ++ [DOLLAR]) else None | [] => None end.

(** From the next line break on. *)
Fixpoint skip_comment (s : ustr) : ustr :=
  match s with [] => [] | c :: s' => if (c =? LF)%N then s else skip_comment s' end.

Definition flush (buffer : ustr) : list ustr := match ustrip buffer with [] => [] | statement => [statement] end.

(** The loop, on the text from position [i] on. *)
Fixpoint split_loop (fuel : nat) (m : mode) (buffer : ustr) (s : ustr) : list ustr :=
  match fuel with
  | O => []
  | S fuel =>
      match s with
      | [] => flush buffer
      | c :: s' =>
          match m with
          | Dollar tag =>
              if starts s tag then split_loop fuel Plain (buffer ++ tag) (drop (length tag) s)
              else split_loop fuel m (buffer ++ [c]) s'
          | Quoted =>
              if (c =? QUOTE)%N then
                match s' with
                | d :: s'' => if (d =? QUOTE)%N then split_loop fuel Quoted (buffer ++ [QUOTE; QUOTE]) s''
                              else split_loop fuel Plain (buffer ++ [c]) s'
                | [] => split_loop fuel Plain (buffer ++ [c]) s'
                end
              else split_loop fuel Quoted (buffer ++ [c]) s'
          | Plain =>
              if (c =? DASH)%N && starts s' [DASH] then split_loop fuel Plain buffer (skip_comment s)
              else if (c =? QUOTE)%N then split_loop fuel Quoted (buffer ++ [c]) s'
              else match (if (c =? DOLLAR)%N then dollar_tag s' else None) with
                   | Some tag => split_loop fuel (Dollar tag) (buffer ++ tag) (drop (length tag) s)
                   | None =>
                       if (c =? SEMI)%N then flush buffer ++ split_loop fuel Plain [] s'
                       else split_loop fuel Plain (buffer ++ [c]) s'
                   end
          end
      end
  end.
Definition split_statements (sql_text : ustr) : list ustr := split_loop (S (length sql_text)) Plain [] sql_text.

(** ** Discovery *)

Definition name_leb (a b : ustr * list N) : bool := text_leb a.1 b.1.
Definition version_leb (a b : Migration.t) : bool := Migration.version a <=? Migration.version b.

Definition endswith (s suffix : ustr) : bool := bool_decide (drop (length s - length suffix) s = suffix).

Section Discover.
Context `{!Unicode} (sha256_hex : list N -> ustr).

Definition compute_checksum (data : list N) : ustr := sha256_hex (normalize_bytes data).

Definition read_migration (file : ustr * list N) : result Migration.t :=
  match re_match _FILENAME_RE file.1 with
  | None => Raise MigrationError
  | Some m =>
      text ← utf8_strict (normalize_bytes file.2);
      version ← match int_text (gref 1 m) with Some v => Ok v | None => Raise ValueError end;
      Ok (Migration.mk version file.1 (compute_checksum file.2) text (_has_no_transaction_marker text))
  end.

Fixpoint duplicated (l : list Migration.t) : bool :=
  match l with
  | a :: ((b :: _) as l') => (Migration.version a =? Migration.version b) || duplicated l'
  | _ => false
  end.

(** [discover_migrations]; [files] is the directory: names and contents.  A gap in
    the versions is only logged. *)
Definition discover_migrations (files : list (ustr * list N)) : result (list Migration.t) :=
  migrations ← rmapM read_migration (pysorted name_leb (List.filter (fun f => endswith f.1 (u ".sql")) files));
  let migrations := pysorted version_leb migrations in
  if duplicated migrations then Raise MigrationError else Ok migrations.
End Discover.

(** ** The ledger and one run *)

Module LedgerRow.
Record t := mk { filename : ustr; checksum : ustr; duration_ms : Z }.
End LedgerRow.

(** The database as the runner sees it: [schema_migrations], if it exists, and the
    rest. *)
Record migdb (S : Type) := mk_db { ledger : option (gmap Z LedgerRow.t); objects : S }.
Arguments mk_db {S}. Arguments ledger {S}. Arguments objects {S}.

Definition row_of (m : Migration.t) (duration_ms : Z) : LedgerRow.t :=
  LedgerRow.mk (Migration.filename m) (Migration.checksum m) duration_ms.

Definition _verify_applied (applied : gmap Z LedgerRow.t) (migrations : list Migration.t) : result unit :=
  if forallb (fun kr => match list_find (fun m => Migration.version m = kr.1) migrations with
                        | Some (_, m) => bool_decide (Migration.checksum m = LedgerRow.checksum kr.2)
                        | None => false
                        end) (map_to_list applied)
  then Ok tt else Raise MigrationError.

Definition select_pending (applied : gset Z) (migrations : list Migration.t) : list Migration.t :=
  pysorted version_leb (List.filter (fun m => negb (bool_decide (Migration.version m ∈ applied))) migrations).

(** [ledger_gaps]: the versions from 1 on that nobody has. *)
Definition ledger_gaps (applied : gset Z) (migrations : list Migration.t) : list Z :=
  let universe := applied ∪ list_to_set (Migration.version <$> migrations) in
  match elements universe with
  | [] => []
  | v :: vs => List.filter (fun x => negb (bool_decide (x ∈ universe))) (seqZ 1 (fold_left Z.max vs v))
  end.

Section Run.
Context {S : Type}.
(** The server: a statement changes the database or is refused and changes nothing;
    and the time a script takes. *)
Context (exec_sql : ustr -> S -> option S) (took : Z -> Z).

(** Statement by statement, up to the first one refused. *)
Fixpoint run_statements (l : list ustr) (s : S) : S * bool :=
  match l with
  | [] => (s, true)
  | x :: l' => match exec_sql x s with Some s' => run_statements l' s' | None => (s, false) end
  end.

(** The ledger row; a version that is there already violates the primary key. *)
Definition record_row (m : Migration.t) (t : gmap Z LedgerRow.t) : option (gmap Z LedgerRow.t) :=
  match t !! Migration.version m with
  | Some _ => None
  | None => Some (<[Migration.version m := row_of m (took (Migration.version m))]> t)
  end.

(** [_apply_one]: in autocommit what ran stays; in a transaction all of it or none. *)
Definition _apply_one (m : Migration.t) (t : gmap Z LedgerRow.t) (s : S) : gmap Z LedgerRow.t * S * bool :=
  let '(s', ok) := run_statements (split_statements (Migration.sql m)) s in
  match ok, record_row m t with
  | true, Some t' => (t', s', true)
  | _, _ => (t, if Migration.no_transaction m then s' else s, false)
  end.

Fixpoint apply_pending (pending : list Migration.t) (t : gmap Z LedgerRow.t) (s : S)
    : gmap Z LedgerRow.t * S * list Z * bool :=
  match pending with
  | [] => (t, s, [], true)
  | m :: rest =>
      match _apply_one m t s with
      | (t', s', true) => let '(t2, s2, done_, ok) := apply_pending rest t' s' in (t2, s2, Migration.version m :: done_, ok)
      | (t', s', false) => (t', s', [], false)
      end
  end.

(** The critical section, for the files found: the ledger is made if it is not there,
    the recorded checksums are verified, the pending files run in order. *)
Definition run_migrations (migrations : list Migration.t) (d : migdb S) : migdb S * result (list Z) :=
  let t := default ∅ (ledger d) in
  match _verify_applied t migrations with
  | Raise e => (mk_db (Some t) (objects d), Raise e)
  | Ok _ =>
      let '(t', s', done_, ok) := apply_pending (select_pending (dom t) migrations) t (objects d) in
      (mk_db (Some t') s', if ok then Ok done_ else Raise MigrationError)
  end.

Definition apply_migrations `{!Unicode} (sha256_hex : list N -> ustr) (files : list (ustr * list N)) (d : migdb S)
    : migdb S * result (list Z) :=
  match discover_migrations sha256_hex files with
  | Raise e => (d, Raise e)
  | Ok migrations => run_migrations migrations d
  end.
End Run.

(** ** What the splitter does, by tokens

    A script is a sequence of tokens: ordinary characters, literals in single quotes
    (an inner quote is written twice), dollar-quoted bodies, line comments and
    semicolons. *)

Inductive token :=
  | TChar (c : N)
  | TQuote (body : ustr)
  | TDollar (name body : ustr)
  | TComment (text : ustr)
  | TSemi.

Definition tag (name : ustr) : ustr := DOLLAR :: name ++ [DOLLAR].
Definition doubled (body : ustr) : ustr := body ≫= (fun c => if (c =? QUOTE)%N then [QUOTE; QUOTE] else [c]).

Definition written (t : token) : ustr :=
  match t with
  | TChar c => [c]
  | TQuote body => [QUOTE] ++ doubled body ++ [QUOTE]
  | TDollar name body => tag name ++ body ++ tag name
  | TComment text => [DASH; DASH] ++ text
  | TSemi => [SEMI]
  end.
Definition script (ts : list token) : ustr := ts ≫= written.

(** The delimiter first ends where the token does. *)
Definition closes (name body : ustr) : Prop :=
  forall i, (i < length body)%nat -> starts (drop i (body ++ tag name)) (tag name) = false.

(** A token is what its text says, before the text that follows it. *)
Definition token_ok (t : token) (rest : ustr) : Prop :=
  match t with
  | TChar c => c <> SEMI /\ c <> QUOTE /\ c <> DOLLAR /\ (c = DASH -> head rest <> Some DASH)
  | TQuote body => head rest <> Some QUOTE
  | TDollar name body => Forall (fun c => tag_char c = true) name /\ closes name body
  | TComment text => LF ∉ text /\ (rest = [] \/ head rest = Some LF)
  | TSemi => True
  end.
Fixpoint well_formed_script (ts : list token) : Prop :=
  match ts with [] => True | t :: ts' => token_ok t (script ts') /\ well_formed_script ts' end.

(** The statements: what is between semicolons, without the comments, stripped, the
    empty ones left out. *)
Fixpoint statements_from (buffer : ustr) (ts : list token) : list ustr :=
  match ts with
  | [] => flush buffer
  | TSemi :: ts' => flush buffer ++ statements_from [] ts'
  | TComment _ :: ts' => statements_from buffer ts'
  | t :: ts' => statements_from (buffer ++ written t) ts'
  end.

Lemma starts_app s p : starts (p ++ s) p = true.
Proof. unfold starts. rewrite take_app_length. by apply bool_decide_eq_true. Qed.

Lemma starts_prefix s p x : starts s p = true -> starts (s ++ x) p = true.
Proof.
  unfold starts. rewrite !bool_decide_eq_true. intros E. rewrite take_app_le; [done|].
  pose proof (f_equal length E) as El. rewrite length_take in El. lia.
Qed.

Lemma starts_false_app s p x : (length p <= length s)%nat -> starts s p = false -> starts (s ++ x) p = false.
Proof. unfold starts. intros Hl. by rewrite take_app_le by done. Qed.

Lemma tag_length name : length (tag name) = (2 + length name)%nat.
Proof. unfold tag. simpl. rewrite length_app. simpl. lia. Qed.

Lemma skip_comment_text text rest : LF ∉ text -> (rest = [] \/ head rest = Some LF) -> skip_comment (text ++ rest) = rest.
Proof.
  intros Ht Hr. induction text as [|c text IH]; simpl.
  - destruct rest as [|c rest]; [done|]. by destruct Hr as [|[= ->]].
  - apply not_elem_of_cons in Ht as [Hc Ht]. destruct (N.eqb_spec c LF) as [->|]; [done|]. by apply IH.
Qed.

Lemma take_tag_app name rest : Forall (fun c => tag_char c = true) name -> tag_char (hd 0%N rest) = false \/ rest = [] ->
  take_tag (name ++ rest) = (name, rest).
Proof.
  intros Hn Hr. induction Hn as [|c name Hc _ IH]; simpl.
  - destruct rest as [|c rest]; [done|]. destruct Hr as [Hr|]; [|done]. simpl in *. by rewrite Hr.
  - by rewrite Hc, IH.
Qed.

Lemma dollar_tag_app name rest : Forall (fun c => tag_char c = true) name ->
  dollar_tag (name ++ [DOLLAR] ++ rest) = Some (tag name).
Proof. intros Hn. unfold dollar_tag. rewrite take_tag_app by (try done; by left). done. Qed.

(** Inside a literal, and inside a dollar-quoted body. *)
Lemma split_quoted body rest : head rest <> Some QUOTE -> forall fuel buffer,
  (length (doubled body) + 1 + length rest < fuel)%nat ->
  exists fuel', (length rest < fuel')%nat /\
    split_loop fuel Quoted buffer (doubled body ++ QUOTE :: rest) = split_loop fuel' Plain (buffer ++ doubled body ++ [QUOTE]) rest.
Proof.
  intros Hr. induction body as [|c body IH]; intros fuel buffer Hf.
  - destruct fuel as [|fuel]; [lia|]. exists fuel. simpl in Hf. split; [lia|]. cbn [doubled mbind list_bind app split_loop].
    rewrite N.eqb_refl. destruct rest as [|d rest]; [done|]. destruct (N.eqb_spec d QUOTE) as [->|]; [done|]. done.
  - destruct fuel as [|fuel]; [lia|]. cbn [doubled mbind list_bind] in *. fold (doubled body) in *.
    change (body ≫= _) with (doubled body) in *. destruct (N.eqb_spec c QUOTE) as [->|Hc].
    + rewrite length_app in Hf. simpl in Hf. destruct (IH fuel (buffer ++ [QUOTE; QUOTE])) as (fuel' & Hf' & E); [lia|].
      exists fuel'. split; [done|]. simpl. rewrite E. by rewrite <- !(assoc_L (++)).
    + rewrite length_app in Hf. simpl in Hf. destruct (IH fuel (buffer ++ [c])) as (fuel' & Hf' & E); [lia|].
      exists fuel'. split; [done|]. cbn [app split_loop]. rewrite (proj2 (N.eqb_neq c QUOTE)) by done. rewrite E.
      by rewrite <- !(assoc_L (++)).
Qed.

Lemma split_dollar name body rest : forall fuel buffer, closes name body ->
  (length body + length (tag name) + length rest < fuel)%nat ->
  exists fuel', (length rest < fuel')%nat /\
    split_loop fuel (Dollar (tag name)) buffer (body ++ tag name ++ rest)
    = split_loop fuel' Plain (buffer ++ body ++ tag name) rest.
Proof.
  pose proof (tag_length name) as Ht.
  induction body as [|c body IH]; intros fuel buffer Hc Hf; (destruct fuel as [|fuel]; [lia|]); cbn [length] in Hf.
  - exists fuel. split; [lia|].
    assert (exists d s', tag name ++ rest = d :: s') as (d & s' & E) by (by eexists _, _).
    cbn [app]. rewrite E. cbn [split_loop]. rewrite <- E. rewrite starts_app. by rewrite drop_app_length.
  - destruct (IH fuel (buffer ++ [c])) as (fuel' & Hf' & E).
    { intros i Hi. apply (Hc (S i)). simpl. lia. }
    { lia. }
    exists fuel'. split; [done|]. cbn [app split_loop].
    assert (starts (c :: body ++ tag name ++ rest) (tag name) = false) as ->.
    { pose proof (Hc O ltac:(simpl; lia)) as H0. rewrite drop_0 in H0.
      replace (c :: body ++ tag name ++ rest) with (((c :: body) ++ tag name) ++ rest) by (by rewrite <- !(assoc_L (++))).
      apply starts_false_app; [rewrite length_app; lia|done]. }
    rewrite E. by rewrite <- !(assoc_L (++)).
Qed.


Lemma split_tokens ts : well_formed_script ts -> forall fuel buffer, (length (script ts) < fuel)%nat ->
  split_loop fuel Plain buffer (script ts) = statements_from buffer ts.
Proof.
  induction ts as [|t ts IH]; intros Hw fuel buffer Hf; (destruct fuel as [|fuel]; [lia|]); [done|].
  destruct Hw as [Ht Hw]. cbn [script mbind list_bind] in *. change (ts ≫= written) with (script ts) in *.
  rewrite length_app in Hf. destruct t as [c|body|name body|text|]; cbn [written statements_from] in *.
  - destruct Ht as (Hs & Hq & Hd & Hdash). cbn [app split_loop].
    rewrite (proj2 (N.eqb_neq c QUOTE)), (proj2 (N.eqb_neq c DOLLAR)), (proj2 (N.eqb_neq c SEMI)) by done.
    replace ((c =? DASH)%N && starts (script ts) [DASH]) with false; [apply IH; [done|simpl in Hf; lia]|].
    destruct (N.eqb_spec c DASH) as [->|]; [|done]. symmetry. unfold starts. apply bool_decide_eq_false.
    specialize (Hdash eq_refl). by destruct (script ts) as [|d rest]; [|intros [= ->]].
  - rewrite <- (assoc_L (++)). cbn [app split_loop]. replace (QUOTE =? DASH)%N with false by done. rewrite N.eqb_refl.
    cbn [andb]. rewrite <- (assoc_L (++)). cbn [app]. rewrite !length_app in Hf. cbn [length] in Hf.
    destruct (split_quoted body (script ts) Ht fuel (buffer ++ [QUOTE])) as (fuel' & Hf' & E); [lia|].
    rewrite E, IH by done. by rewrite <- !(assoc_L (++)).
  - destruct Ht as [Hn Hc]. rewrite <- !(assoc_L (++)). unfold tag at 1. cbn [app split_loop].
    replace (DOLLAR =? DASH)%N with false by done. replace (DOLLAR =? QUOTE)%N with false by done.
    rewrite N.eqb_refl. cbn [andb]. rewrite <- !(assoc_L (++)). rewrite dollar_tag_app by done.
    change (DOLLAR :: name ++ [DOLLAR] ++ body ++ tag name ++ script ts)
      with (DOLLAR :: (name ++ [DOLLAR] ++ (body ++ tag name ++ script ts))).
    replace (DOLLAR :: name ++ [DOLLAR] ++ body ++ tag name ++ script ts) with (tag name ++ (body ++ tag name ++ script ts))
      by (unfold tag at 1; cbn [app]; by rewrite <- !(assoc_L (++))).
    rewrite drop_app_length. rewrite !length_app in Hf. pose proof (tag_length name).
    destruct (split_dollar name body (script ts) fuel (buffer ++ tag name) Hc) as (fuel' & Hf' & E); [lia|].
    rewrite E, IH by done. by rewrite <- !(assoc_L (++)).
  - cbn [app split_loop]. rewrite N.eqb_refl. cbn [andb]. replace (starts (DASH :: text ++ script ts) [DASH]) with true by (symmetry; exact (starts_app (text ++ script ts) [DASH])). cbn [skip_comment].
    replace (DASH =? LF)%N with false by done. destruct Ht as [Ht Hr]. rewrite skip_comment_text by done.
    apply IH; [done|]. simpl in Hf. lia.
  - cbn [app split_loop]. simpl in Hf. f_equal. apply IH; [done|]. lia.
Qed.

(** C33. Splitting a script finds its statements.  However a script is made of
    ordinary characters, quoted literals, dollar-quoted bodies, line comments and
    semicolons, [split_statements] returns the stripped, non-empty stretches between
    the semicolons that are tokens of their own: those inside a literal, a body or a
    comment never split, and comments are dropped. *)
Theorem split_statements_exact (ts : list token) : well_formed_script ts ->
  split_statements (script ts) = statements_from [] ts.
Proof. intros Hw. unfold split_statements. apply split_tokens; [done|lia]. Qed.

Definition chars (s : string) : list token := TChar <$> u s.
Definition demo_script : list token :=
  chars "SELECT " ++ [TQuote (u "it's; ok")] ++ [TSemi] ++ chars " DO " ++ [TDollar (u "f") (u "BEGIN; END;")] ++ chars " x"
  ++ [TComment (u " a; comment")] ++ [TChar LF; TSemi; TSemi].

(** Well-formedness is decidable. *)
Definition token_okb (t : token) (rest : ustr) : bool :=
  match t with
  | TChar c => negb (c =? SEMI)%N && negb (c =? QUOTE)%N && negb (c =? DOLLAR)%N
               && (negb (c =? DASH)%N || negb (bool_decide (head rest = Some DASH)))
  | TQuote body => negb (bool_decide (head rest = Some QUOTE))
  | TDollar name body => forallb tag_char name
                         && forallb (fun i => negb (starts (drop i (body ++ tag name)) (tag name))) (seq 0 (length body))
  | TComment text => negb (bool_decide (LF ∈ text)) && (bool_decide (rest = []) || bool_decide (head rest = Some LF))
  | TSemi => true
  end.
Fixpoint well_formedb (ts : list token) : bool :=
  match ts with [] => true | t :: ts' => token_okb t (script ts') && well_formedb ts' end.

Lemma token_okb_sound t rest : token_okb t rest = true -> token_ok t rest.
Proof.
  destruct t as [c|body|name body|text|]; cbn [token_okb token_ok]; rewrite ?andb_true_iff, ?orb_true_iff, ?negb_true_iff.
  - intros [[[H1 H2] H3] H4]. apply N.eqb_neq in H1, H2, H3. split_and!; [done..|]. intros ->.
    destruct H4 as [H4|H4]; [by rewrite N.eqb_refl in H4|by apply bool_decide_eq_false in H4].
  - by intros H1%bool_decide_eq_false.
  - intros [H1 H2]. split; [by apply Forall_forall; intros c Hc%list_elem_of_In; apply (proj1 (forallb_forall _ _) H1)|].
    intros i Hi. rewrite forallb_forall in H2. apply negb_true_iff, H2, List.in_seq. lia.
  - intros [H1%bool_decide_eq_false [H2|H2]]; apply bool_decide_eq_true in H2; auto.
  - done.
Qed.

Lemma well_formedb_sound ts : well_formedb ts = true -> well_formed_script ts.
Proof.
  induction ts as [|t ts IH]; [done|]. cbn [well_formedb well_formed_script]. rewrite andb_true_iff.
  intros [Ht Hw]. split; [by apply token_okb_sound|by apply IH].
Qed.

Lemma split_statements_exact_witness :
  split_statements (script demo_script) = [u "SELECT 'it''s; ok'"; u "DO $f$BEGIN; END;$f$ x"].
Proof. refine (split_statements_exact demo_script (well_formedb_sound _ _)). vm_compute. reflexivity. Defined.

(** ** One run *)

Definition versions (l : list Migration.t) : list Z := Migration.version <$> l.

Lemma version_leb_total x y : version_leb x y = false -> version_leb y x = true.
Proof. unfold version_leb. rewrite Z.leb_gt, Z.leb_le. lia. Qed.
Lemma version_leb_trans x y z : version_leb x y = true -> version_leb y z = true -> version_leb x z = true.
Proof. unfold version_leb. rewrite !Z.leb_le. lia. Qed.

(** Discovered versions are strictly increasing. *)
Definition older (a b : Migration.t) : Prop := Migration.version a < Migration.version b.

Lemma strictly_sorted l : StronglySorted (fun a b => version_leb a b = true) l -> duplicated l = false -> StronglySorted older l.
Proof.
  induction 1 as [|a l Hl IH Ha]; intros Hd; [constructor|]. destruct l as [|b l]; [repeat constructor|].
  cbn [duplicated] in Hd. apply orb_false_iff in Hd as [Hab Hd]. specialize (IH Hd). constructor; [done|].
  apply Z.eqb_neq in Hab. pose proof (Forall_inv Ha) as Hb. unfold version_leb in Hb. apply Z.leb_le in Hb.
  apply StronglySorted_inv in IH as [_ IH]. constructor; [unfold older; lia|].
  eapply Forall_impl; [exact IH|]. unfold older. intros x. lia.
Qed.

Lemma older_NoDup l : StronglySorted older l -> NoDup (versions l).
Proof.
  induction 1 as [|a l Hl IH Ha]; [constructor|]. cbn. constructor; [|done].
  intros (b & E & Hb)%list_elem_of_fmap. rewrite Forall_forall in Ha. specialize (Ha b Hb). unfold older in Ha. lia.
Qed.

Lemma discovered_sorted `{!Unicode} sha files ms : discover_migrations sha files = Ok ms -> StronglySorted older ms.
Proof.
  unfold discover_migrations. intros (l & _ & H1)%result_bind_Ok.
  destruct (duplicated (pysorted version_leb l)) eqn:E; [done|]. injection H1 as <-.
  apply strictly_sorted; [|done]. apply pysorted_sorted; [exact version_leb_total|exact version_leb_trans].
Qed.

Lemma find_version l m : NoDup (versions l) -> m ∈ l ->
  exists i, list_find (fun x => Migration.version x = Migration.version m) l = Some (i, m).
Proof.
  intros Hn Hm. destruct (list_find (fun x => Migration.version x = Migration.version m) l) as [[i x]|] eqn:E.
  - exists i. apply list_find_Some in E as (Hi & Hv & _). do 2 f_equal.
    apply (NoDup_fmap_elem_inj Migration.version l); [done|by apply list_elem_of_lookup_2 in Hi|done|done].
  - apply list_find_None in E. rewrite Forall_forall in E. by destruct (E m Hm).
Qed.

Definition released (ms : list Migration.t) (t : gmap Z LedgerRow.t) : Prop :=
  forall v r, t !! v = Some r -> exists m, m ∈ ms /\ Migration.version m = v /\ Migration.checksum m = LedgerRow.checksum r.

Lemma verify_iff ms t : NoDup (versions ms) -> _verify_applied t ms = Ok tt <-> released ms t.
Proof.
  intros Hn. unfold _verify_applied, released. destruct (forallb _ _) eqn:E.
  - split; [intros _|done]. intros v r Hr. rewrite forallb_forall in E. specialize (E (v, r)).
    rewrite <- list_elem_of_In, elem_of_map_to_list in E. specialize (E Hr). cbn in E.
    destruct (list_find _ ms) as [[i m]|] eqn:Ef; [|done]. apply list_find_Some in Ef as (Hi & Hv & _).
    apply bool_decide_eq_true in E. exists m. split_and!; [by apply list_elem_of_lookup_2 in Hi|done|done].
  - split; [done|]. intros Hr. apply not_true_iff_false in E. destruct E. apply forallb_forall.
    intros [v r] Hin%list_elem_of_In. apply elem_of_map_to_list in Hin. destruct (Hr v r Hin) as (m & Hm & <- & Hc).
    cbn. destruct (find_version ms m Hn Hm) as (i & ->). by apply bool_decide_eq_true.
Qed.

Lemma pending_sorted l : StronglySorted older l -> pysorted version_leb l = l.
Proof.
  induction 1 as [|a l Hl IH Ha]; [done|]. cbn [pysorted]. rewrite IH. destruct l as [|b l]; [done|]. cbn [sort_insert].
  pose proof (Forall_inv Ha) as Hb. unfold older in Hb. unfold version_leb. by rewrite (proj2 (Z.leb_le _ _)) by lia.
Qed.

Lemma filter_sorted {A} (R : A -> A -> Prop) (f : A -> bool) l : StronglySorted R l -> StronglySorted R (List.filter f l).
Proof.
  induction 1 as [|a l Hl IH Ha]; [constructor|]. simpl. destruct (f a); [|done]. constructor; [done|].
  rewrite Forall_forall in *. intros x [Hx _]%filterb_elem. by apply Ha.
Qed.

(** What is pending: exactly the files whose version is not recorded, in order. *)
Lemma pending_filter applied ms : StronglySorted older ms ->
  select_pending applied ms = List.filter (fun m => negb (bool_decide (Migration.version m ∈ applied))) ms.
Proof. intros Hs. unfold select_pending. by apply pending_sorted, filter_sorted. Qed.

Lemma pending_elem applied ms m : StronglySorted older ms -> m ∈ select_pending applied ms <-> m ∈ ms /\ Migration.version m ∉ applied.
Proof. intros Hs. rewrite pending_filter, filterb_elem, negb_true_iff, bool_decide_eq_false by done. done. Qed.

Lemma pending_older applied ms : StronglySorted older ms -> StronglySorted older (select_pending applied ms).
Proof. intros Hs. rewrite pending_filter by done. by apply filter_sorted. Qed.

Section RunLaws.
Context {S : Type} (exec_sql : ustr -> S -> option S) (took : Z -> Z).

(** A script that runs to its end, and several. *)
Definition effect (m : Migration.t) (s : S) : option S :=
  match run_statements exec_sql (split_statements (Migration.sql m)) s with (s', true) => Some s' | _ => None end.
Fixpoint effects (l : list Migration.t) (s : S) : option S :=
  match l with [] => Some s | m :: l' => s' ← effect m s; effects l' s' end.

Definition recorded (l : list Migration.t) (t : gmap Z LedgerRow.t) : gmap Z LedgerRow.t :=
  fold_left (fun t m => <[Migration.version m := row_of m (took (Migration.version m))]> t) l t.

Lemma apply_one_spec m t s : t !! Migration.version m = None ->
  _apply_one exec_sql took m t s =
  match effect m s with
  | Some s' => (<[Migration.version m := row_of m (took (Migration.version m))]> t, s', true)
  | None => (t, if Migration.no_transaction m then (run_statements exec_sql (split_statements (Migration.sql m)) s).1 else s, false)
  end.
Proof.
  intros Hn. unfold _apply_one, effect, record_row. rewrite Hn. by destruct (run_statements _ _ s) as [s' []].
Qed.

Lemma recorded_lookup l t v : NoDup (versions l) ->
  recorded l t !! v = match list_find (fun m => Migration.version m = v) l with
                      | Some (_, m) => Some (row_of m (took v))
                      | None => t !! v
                      end.
Proof.
  revert t. induction l as [|m l IH]; intros t Hn; [done|]. apply NoDup_cons in Hn as [Hm Hn]. cbn [recorded fold_left].
  fold (recorded l (<[Migration.version m := row_of m (took (Migration.version m))]> t)). rewrite IH by done. cbn [list_find].
  case_decide as Hv.
  - subst v. destruct (list_find _ l) as [[i x]|] eqn:E; [|by rewrite lookup_insert_eq].
    apply list_find_Some in E as (Hi & Hx & _). destruct Hm. apply list_elem_of_fmap. exists x. split; [done|].
    by apply list_elem_of_lookup_2 in Hi.
  - destruct (list_find _ l) as [[i x]|]; [done|]. by rewrite lookup_insert_ne.
Qed.

Lemma recorded_dom l t : dom (recorded l t) = dom t ∪ list_to_set (versions l).
Proof.
  revert t. induction l as [|m l IH]; intros t; cbn; [set_solver|]. fold (recorded l (<[Migration.version m := row_of m (took (Migration.version m))]> t)).
  rewrite IH, dom_insert_L. set_solver.
Qed.

Lemma apply_pending_spec pending t s : NoDup (versions pending) -> (forall m, m ∈ pending -> t !! Migration.version m = None) ->
  exists done_ rest s1, pending = done_ ++ rest /\ effects done_ s = Some s1 /\
    ((rest = [] /\ apply_pending exec_sql took pending t s = (recorded done_ t, s1, versions done_, true))
     \/ exists m rest' s', rest = m :: rest' /\ effect m s1 = None /\ (Migration.no_transaction m = false -> s' = s1)
          /\ apply_pending exec_sql took pending t s = (recorded done_ t, s', versions done_, false)).
Proof.
  revert t s. induction pending as [|m pending IH]; intros t s Hn Ht.
  { exists [], [], s. split_and!; [done..|]. by left. }
  apply NoDup_cons in Hn as [Hm Hn]. cbn [apply_pending]. rewrite apply_one_spec by (apply Ht; set_solver).
  destruct (effect m s) as [s2|] eqn:E.
  - destruct (IH (<[Migration.version m := row_of m (took (Migration.version m))]> t) s2 Hn) as (done_ & rest & s1 & -> & He & Hr).
    { intros x Hx. rewrite lookup_insert_ne; [apply Ht; set_solver|]. intros Hv. apply Hm, list_elem_of_fmap. by exists x. }
    exists (m :: done_), rest, s1. split_and!; [done|cbn; by rewrite E|].
    destruct Hr as [[-> Hr]|(m' & rest' & s' & -> & Hf & Hs & Hr)]; [left|right; exists m', rest', s']; rewrite Hr; by split_and!.
  - exists [], (m :: pending), s. split_and!; [done..|]. right. eexists m, pending, _. split_and!; [done..| |done].
    by intros ->.
Qed.

Lemma released_recorded ms l t : NoDup (versions l) -> (forall m, m ∈ l -> m ∈ ms) -> released ms t -> released ms (recorded l t).
Proof.
  intros Hn Hl Ht v r. rewrite recorded_lookup by done. destruct (list_find _ l) as [[i m]|] eqn:E; [|apply Ht].
  intros [= <-]. apply list_find_Some in E as (Hi & Hv & _). exists m. split_and!; [|done|done].
  apply Hl. by apply list_elem_of_lookup_2 in Hi.
Qed.

Lemma pending_fresh applied ms (t : gmap Z LedgerRow.t) m : StronglySorted older ms -> applied = dom t -> m ∈ select_pending applied ms ->
  t !! Migration.version m = None.
Proof. intros Hs -> [_ Hm]%pending_elem; [|done]. by apply not_elem_of_dom. Qed.

Lemma filter_all_false {A} (f : A -> bool) l : (forall x, x ∈ l -> f x = false) -> List.filter f l = [].
Proof.
  intros Hf. destruct (List.filter f l) as [|x r] eqn:E; [done|].
  assert (x ∈ List.filter f l) as [Hx Ht]%filterb_elem by (rewrite E; by left). by rewrite Hf in Ht.
Qed.

(** After some of the pending files are recorded, the others are pending. *)
Lemma pending_rest applied ms done_ rest : StronglySorted older ms -> select_pending applied ms = done_ ++ rest ->
  select_pending (applied ∪ list_to_set (versions done_)) ms = rest.
Proof.
  intros Hs E. pose proof (pending_older applied ms Hs) as Hp. rewrite E in Hp. rewrite pending_filter in E |- * by done.
  set (f := fun m => negb (bool_decide (Migration.version m ∈ applied ∪ list_to_set (versions done_)))).
  assert (List.filter f ms = List.filter f (List.filter (fun m => negb (bool_decide (Migration.version m ∈ applied))) ms)) as ->.
  { clear E Hp. clear Hs. induction ms as [|m ms IH]; [done|]. simpl. destruct (decide (Migration.version m ∈ applied)) as [Hm|Hm].
    - rewrite (bool_decide_eq_true_2 (_ ∈ applied)) by done. simpl.
      assert (f m = false) as -> by (unfold f; by rewrite bool_decide_eq_true_2 by set_solver). done.
    - rewrite (bool_decide_eq_false_2 (_ ∈ applied)) by done. simpl. destruct (f m); by rewrite IH. }
  assert (forall m, m ∈ done_ ++ rest -> Migration.version m ∉ applied) as Hna.
  { intros m Hm. rewrite <- E in Hm. by apply filterb_elem in Hm as [_ Hm%negb_true_iff%bool_decide_eq_false]. }
  rewrite E, List.filter_app. apply older_NoDup in Hp. unfold versions in Hp. rewrite fmap_app in Hp.
  apply NoDup_app in Hp as (_ & Hd & _). rewrite filter_all_false.
  - simpl. assert (forall m, m ∈ rest -> f m = true) as Hr.
    { intros m Hm. unfold f. apply negb_true_iff, bool_decide_eq_false. intros [Hv|Hv]%elem_of_union.
      - by apply (Hna m); [set_solver|].
      - apply elem_of_list_to_set in Hv. apply (Hd _ Hv), list_elem_of_fmap. by exists m. }
    clear -Hr. induction rest as [|m rest IH]; [done|]. simpl. rewrite Hr by set_solver. f_equal. apply IH. set_solver.
  - intros m Hm. unfold f. rewrite bool_decide_eq_true_2; [done|]. apply elem_of_union. right. apply elem_of_list_to_set, list_elem_of_fmap. by exists m.
Qed.

(** C32. A run applies the pending files once.  Under the lock, with the files found in
    version order: if a recorded file is missing or changed, nothing but the ledger's
    creation happens; if every script runs, exactly the files the ledger did not have
    - those that close a gap included - have run, in version order, and are recorded
    with their checksums, and a second run does nothing; if one fails, the files
    before it have run and are recorded, a transactional one leaves no trace, and the
    next run starts with it. *)
Theorem migrations_apply_once (ms : list Migration.t) (d : migdb S) : StronglySorted older ms ->
  let t := default ∅ (ledger d) in
  let pending := select_pending (dom t) ms in
  let '(d', r) := run_migrations exec_sql took ms d in
  match r with
  | Ok vs => released ms t /\ vs = versions pending /\ effects pending (objects d) = Some (objects d')
             /\ ledger d' = Some (recorded pending t) /\ (forall m, m ∈ ms -> is_Some (recorded pending t !! Migration.version m))
             /\ run_migrations exec_sql took ms d' = (d', Ok [])
  | Raise e => e = MigrationError /\
      ((~ released ms t /\ d' = mk_db (Some t) (objects d))
       \/ exists done_ m rest s, pending = done_ ++ m :: rest /\ effects done_ (objects d) = Some s /\ effect m s = None
            /\ ledger d' = Some (recorded done_ t) /\ (Migration.no_transaction m = false -> objects d' = s)
            /\ released ms (recorded done_ t) /\ select_pending (dom (recorded done_ t)) ms = m :: rest)
  end.
Proof.
  intros Hs t pending. pose proof (older_NoDup ms Hs) as Hn. unfold run_migrations. fold t.
  destruct (_verify_applied t ms) as [[]|e] eqn:Ev; cycle 1.
  { assert (e = MigrationError) as -> by (unfold _verify_applied in Ev; by destruct (forallb _ _); simplify_eq).
    split; [done|]. left. split; [|done]. intros Hr%verify_iff; [congruence|done]. }
  apply verify_iff in Ev; [|done]. fold pending. pose proof (pending_older (dom t) ms Hs) as Hp. fold pending in Hp.
  pose proof (older_NoDup _ Hp) as Hpn.
  destruct (apply_pending_spec pending t (objects d) Hpn) as (done_ & rest & s1 & E & He & Hr).
  { intros m Hm. by apply (pending_fresh (dom t) ms). }
  assert (forall m, m ∈ done_ -> m ∈ ms) as Hin.
  { intros m Hm. assert (m ∈ pending) as Hx by (rewrite E; set_solver). by apply pending_elem in Hx as []. }
  assert (NoDup (versions done_)) as Hdn.
  { rewrite E in Hpn. unfold versions in Hpn. rewrite fmap_app in Hpn. by apply NoDup_app in Hpn as []. }
  pose proof (released_recorded ms done_ t Hdn Hin Ev) as Hrel.
  pose proof (pending_rest (dom t) ms done_ rest Hs E) as Hrest. rewrite <- recorded_dom in Hrest.
  destruct Hr as [[-> Hr]|(m & rest' & s' & -> & Hf & Hx & Hr)]; rewrite Hr; cbn [objects ledger].
  - rewrite app_nil_r in E. rewrite <- E in *. split_and!; [done..| |].
    + intros m Hm. apply elem_of_dom. rewrite recorded_dom. destruct (decide (Migration.version m ∈ dom t)); [set_solver|].
      apply elem_of_union. right. apply elem_of_list_to_set, list_elem_of_fmap. exists m. split; [done|]. by apply pending_elem.
    + unfold run_migrations. cbn [ledger objects default]. unfold default. rewrite (proj2 (verify_iff ms _ Hn)) by done. cbv beta delta [id]. by rewrite Hrest.
  - split; [done|]. right. exists done_, m, rest', s1. by split_and!.
Qed.
End RunLaws.

(** ** Containers that start at once

    Every starter found the same files.  A starter waits for the advisory lock; the one
    that gets it verifies the ledger, applies its pending files one by one and unlocks.
    It may crash anywhere - the server then rolls back an open transaction and releases
    the lock - also half-way through a script that runs outside a transaction.
    [applied] is the history of the files recorded since the first start. *)

Inductive phase := Waiting | Holding (pending : list Migration.t) | Done | Failed | Crashed.

Record starts_t (S : Type) := mk_starts { base : migdb S; lock : option nat; phases : gmap nat phase; applied : list Migration.t }.
Arguments mk_starts {S}. Arguments base {S}. Arguments lock {S}. Arguments phases {S}. Arguments applied {S}.

Section Starts.
Context {S : Type} (exec_sql : ustr -> S -> option S) (took : Z -> Z) (ms : list Migration.t).
Implicit Types x y : starts_t S.

Definition table x : gmap Z LedgerRow.t := default ∅ (ledger (base x)).

Inductive start_step : starts_t S -> starts_t S -> Prop :=
  | start_enter x p :
      phases x !! p = Some Waiting -> lock x = None -> _verify_applied (table x) ms = Ok tt ->
      start_step x (mk_starts (mk_db (Some (table x)) (objects (base x))) (Some p)
                      (<[p := Holding (select_pending (dom (table x)) ms)]> (phases x)) (applied x))
  | start_refused x p :
      phases x !! p = Some Waiting -> lock x = None -> _verify_applied (table x) ms <> Ok tt ->
      start_step x (mk_starts (mk_db (Some (table x)) (objects (base x))) None (<[p := Failed]> (phases x)) (applied x))
  | start_apply x p m rest t' s' :
      phases x !! p = Some (Holding (m :: rest)) -> _apply_one exec_sql took m (table x) (objects (base x)) = (t', s', true) ->
      start_step x (mk_starts (mk_db (Some t') s') (lock x) (<[p := Holding rest]> (phases x)) (applied x ++ [m]))
  | start_fail x p m rest t' s' :
      phases x !! p = Some (Holding (m :: rest)) -> _apply_one exec_sql took m (table x) (objects (base x)) = (t', s', false) ->
      start_step x (mk_starts (mk_db (Some t') s') None (<[p := Failed]> (phases x)) (applied x))
  | start_leave x p :
      phases x !! p = Some (Holding []) ->
      start_step x (mk_starts (base x) None (<[p := Done]> (phases x)) (applied x))
  | start_crash x p pending :
      phases x !! p = Some (Holding pending) ->
      start_step x (mk_starts (base x) None (<[p := Crashed]> (phases x)) (applied x))
  | start_crash_waiting x p :
      phases x !! p = Some Waiting ->
      start_step x (mk_starts (base x) (lock x) (<[p := Crashed]> (phases x)) (applied x))
  | start_crash_within x p m rest k :
      phases x !! p = Some (Holding (m :: rest)) -> Migration.no_transaction m = true ->
      start_step x (mk_starts (mk_db (Some (table x))
                                 (run_statements exec_sql (take k (split_statements (Migration.sql m))) (objects (base x))).1)
                      None (<[p := Crashed]> (phases x)) (applied x)).

Definition cold (d : migdb S) (ps : list nat) : starts_t S := mk_starts d None (list_to_map ((fun p => (p, Waiting)) <$> ps)) [].

(** What every reachable state keeps. *)
Record starts_inv (d : migdb S) x : Prop := {
  inv_table : table x = recorded took (applied x) (default ∅ (ledger d));
  inv_order : select_pending (dom (default ∅ (ledger d))) ms = applied x ++ select_pending (dom (table x)) ms;
  inv_holder p pending : phases x !! p = Some (Holding pending) ->
    lock x = Some p /\ ledger (base x) = Some (table x) /\ pending = select_pending (dom (table x)) ms /\ released ms (table x);
  inv_done p : phases x !! p = Some Done -> select_pending (dom (table x)) ms = [];
  inv_lock p : lock x = Some p -> exists pending, phases x !! p = Some (Holding pending);
  inv_objects : Forall (fun m => Migration.no_transaction m = false) ms ->
    effects exec_sql (applied x) (objects d) = Some (objects (base x))
}.

Lemma cold_inv d ps : starts_inv d (cold d ps).
Proof.
  assert (forall p f, phases (cold d ps) !! p = Some f -> f = Waiting) as Hw.
  { intros p f Hp. apply elem_of_list_to_map_2, list_elem_of_fmap in Hp as (q & [= -> ->] & _). done. }
  split; try done; [intros p pending Hp%Hw|intros p Hp%Hw]; done.
Qed.

Lemma effects_snoc l m s s1 : effects exec_sql l s = Some s1 -> effects exec_sql (l ++ [m]) s = effect exec_sql m s1.
Proof.
  revert s. induction l as [|a l IH]; intros s; cbn [effects app].
  - intros [= <-]. by destruct (effect exec_sql m s).
  - destruct (effect exec_sql a s) as [s2|]; [|done]. apply IH.
Qed.

Lemma recorded_snoc l m t : recorded took (l ++ [m]) t = <[Migration.version m := row_of m (took (Migration.version m))]> (recorded took l t).
Proof. unfold recorded. by rewrite fold_left_app. Qed.

Hypothesis Hs : StronglySorted older ms.

(** The other starters do not hold the lock. *)
Lemma holder_unique d x p q pending pending' : starts_inv d x ->
  phases x !! p = Some (Holding pending) -> phases x !! q = Some (Holding pending') -> p = q.
Proof. intros Hx Hp%(inv_holder _ _ Hx) Hq%(inv_holder _ _ Hx). destruct Hp as [Hp _], Hq as [Hq _]. congruence. Qed.

(** A step that gives up the lock and records nothing. *)
Lemma inv_release d x p f (o : S) l : starts_inv d x -> (forall pending, f <> Holding pending) ->
  (f = Done -> select_pending (dom (table x)) ms = []) ->
  default ∅ l = table x -> (forall q pending, phases x !! q = Some (Holding pending) -> q = p) ->
  (Forall (fun m => Migration.no_transaction m = false) ms -> o = objects (base x)) ->
  starts_inv d (mk_starts (mk_db l o) None (<[p := f]> (phases x)) (applied x)).
Proof.
  intros Hx Hf Hd Hl Hh Ho. destruct Hx as [It Io Ih Id Il Iobj]. split; unfold table in *; cbn in *; rewrite ?Hl; try done.
  - intros q pending Hq. destruct (decide (p = q)) as [->|Hne].
    + rewrite lookup_insert_eq in Hq. injection Hq as ->. by destruct (Hf pending).
    + rewrite lookup_insert_ne in Hq by done. by destruct Hne; symmetry; apply (Hh q pending).
  - intros q Hq. destruct (decide (p = q)) as [->|Hne].
    + rewrite lookup_insert_eq in Hq. injection Hq as ->. by apply Hd.
    + rewrite lookup_insert_ne in Hq by done. by apply (Id q).
  - intros Ht. rewrite (Ho Ht). by apply Iobj.
Qed.

(** The lock's holder is the only starter inside. *)
Lemma inv_alone d x p pending : starts_inv d x -> phases x !! p = Some (Holding pending) ->
  forall q pending', phases x !! q = Some (Holding pending') -> q = p.
Proof. intros Hx Hp q pending' Hq. by apply (holder_unique d x q p pending' pending). Qed.

Lemma inv_crash d x p pending (o : S) l f : starts_inv d x -> phases x !! p = Some (Holding pending) ->
  (f = Crashed \/ f = Failed \/ f = Done /\ pending = []) -> default ∅ l = table x ->
  (Forall (fun m => Migration.no_transaction m = false) ms -> o = objects (base x)) ->
  starts_inv d (mk_starts (mk_db l o) None (<[p := f]> (phases x)) (applied x)).
Proof.
  intros Hx Hp Hf Hl Ho. apply inv_release; [done| | |done|by eapply inv_alone|done].
  - intros p'. destruct Hf as [->|[->|[-> _]]]; done.
  - intros ->. destruct Hf as [?|[?|[_ ->]]]; [done..|]. by destruct (inv_holder _ _ Hx _ _ Hp) as (_ & _ & <- & _).
Qed.

Lemma inv_enter d x p : starts_inv d x -> phases x !! p = Some Waiting -> lock x = None -> _verify_applied (table x) ms = Ok tt ->
  starts_inv d (mk_starts (mk_db (Some (table x)) (objects (base x))) (Some p)
                  (<[p := Holding (select_pending (dom (table x)) ms)]> (phases x)) (applied x)).
Proof.
  intros Hx Hp Hk Hv. apply verify_iff in Hv; [|by apply older_NoDup]. destruct Hx as [It Io Ih Id Il Iobj].
  split; unfold table in *; cbn in *; try done.
  - intros q pending Hq. destruct (decide (p = q)) as [->|Hne].
    + rewrite lookup_insert_eq in Hq. by injection Hq as <-.
    + rewrite lookup_insert_ne in Hq by done. destruct (Ih _ _ Hq) as [Hl _]. congruence.
  - intros q Hq. destruct (decide (p = q)) as [->|Hne]; [by rewrite lookup_insert_eq in Hq|].
    rewrite lookup_insert_ne in Hq by done. by apply (Id q).
  - intros q [= ->]. eexists. by rewrite lookup_insert_eq.
Qed.

Lemma default_Some {A} (a b : A) : default a (Some b) = b.
Proof. done. Qed.

(** One file applied: the history and the ledger grow by it. *)
Lemma inv_apply d x p m rest t' s' : starts_inv d x -> phases x !! p = Some (Holding (m :: rest)) ->
  _apply_one exec_sql took m (table x) (objects (base x)) = (t', s', true) ->
  starts_inv d (mk_starts (mk_db (Some t') s') (lock x) (<[p := Holding rest]> (phases x)) (applied x ++ [m])).
Proof.
  intros Hx Hp Ha. pose proof (inv_alone d x p _ Hx Hp) as Halone.
  destruct Hx as [It Io Ih Id Il Iobj]. destruct (Ih _ _ Hp) as (Hk & Hl & Hpend & Hrel). symmetry in Hpend.
  assert (m ∈ select_pending (dom (table x)) ms) as Hm by (rewrite Hpend; by left).
  rewrite apply_one_spec in Ha by (by apply (pending_fresh (dom (table x)) ms)).
  destruct (effect exec_sql m _) as [s1|] eqn:Eff; [|done]. injection Ha as <- <-.
  pose proof (pending_rest (dom (table x)) ms [m] rest Hs Hpend) as Hrest. cbn in Hrest.
  rewrite (union_empty_r_L {[Migration.version m]}) in Hrest.
  assert (dom (<[Migration.version m := row_of m (took (Migration.version m))]> (table x)) = dom (table x) ∪ {[Migration.version m]}) as Hdom
    by (rewrite dom_insert_L; apply union_comm_L).
  split; unfold table in *; cbn [base ledger objects lock phases applied]; rewrite ?default_Some.
  - rewrite recorded_snoc. by rewrite <- It.
  - rewrite Io, <- app_assoc. by rewrite Hdom, Hrest, Hpend.
  - intros q pending Hq. destruct (decide (p = q)) as [->|Hne].
    + rewrite lookup_insert_eq in Hq. injection Hq as <-. rewrite Hdom, Hrest. split_and!; [done..|].
      apply (released_recorded took ms [m]); [apply NoDup_singleton| |done]. intros y ->%list_elem_of_singleton. by apply pending_elem in Hm as [].
    + rewrite lookup_insert_ne in Hq by done. by destruct Hne; symmetry; apply (Halone q pending).
  - intros q Hq. destruct (decide (p = q)) as [->|Hne]; [by rewrite lookup_insert_eq in Hq|].
    rewrite lookup_insert_ne in Hq by done. pose proof (Id q Hq). congruence.
  - intros q Hq. exists rest. assert (p = q) as -> by congruence. by rewrite lookup_insert_eq.
  - intros Ht. rewrite (effects_snoc _ m _ _ (Iobj Ht)). done.
Qed.

Lemma starts_inv_step d x y : starts_inv d x -> start_step x y -> starts_inv d y.
Proof.
  intros Hx Hy. pose proof Hx as [It Io Ih Id Il Iobj]. inversion Hy; subst; clear Hy.
  - by apply inv_enter.
  - apply inv_release; try done. intros q pending Hq. destruct (Ih _ _ Hq) as [Hk _]. congruence.
  - by eapply inv_apply.
  - destruct (Ih _ _ H) as (_ & _ & E & _). symmetry in E.
    assert (m ∈ select_pending (dom (table x)) ms) as Hm by (rewrite E; by left).
    rewrite apply_one_spec in H0 by (by apply (pending_fresh (dom (table x)) ms)).
    destruct (effect exec_sql m _) eqn:Eff; [done|]. injection H0 as <- <-.
    eapply inv_crash; [done|exact H|by right; left|done|]. intros Ht. rewrite Forall_forall in Ht.
    apply pending_elem in Hm as [Hm _]; [|done]. by rewrite (Ht m Hm).
  - destruct (base x) as [l o] eqn:Eb. eapply inv_crash; [done|exact H|by right; right| |].
    all: unfold table; by rewrite Eb.
  - destruct (base x) as [l o] eqn:Eb. eapply inv_crash; [done|exact H|by left| |].
    all: unfold table; by rewrite Eb.
  - split; unfold table in *; cbn [base ledger objects lock phases applied]; try done.
    + intros q pending Hq. destruct (decide (p = q)) as [->|Hne]; [by rewrite lookup_insert_eq in Hq|].
      rewrite lookup_insert_ne in Hq by done. by apply Ih.
    + intros q Hq. destruct (decide (p = q)) as [->|Hne]; [by rewrite lookup_insert_eq in Hq|].
      rewrite lookup_insert_ne in Hq by done. by apply (Id q).
    + intros q Hq. destruct (Il q Hq) as [pending Hp]. exists pending. rewrite lookup_insert_ne; [done|]. intros ->. congruence.
  - eapply inv_crash; [done|exact H|by left|done|]. intros Ht. rewrite Forall_forall in Ht.
    destruct (Ih _ _ H) as (_ & _ & E & _). assert (m ∈ ms) as Hm; [|by rewrite (Ht m Hm) in H0].
    assert (m ∈ select_pending (dom (table x)) ms) as Hm by (rewrite <- E; by left). by apply pending_elem in Hm as [].
Qed.

Lemma starts_inv_reachable d ps x : rtc start_step (cold d ps) x -> starts_inv d x.
Proof.
  intros Hx. assert (forall y, starts_inv d y -> rtc start_step y x -> starts_inv d x) as H; [|by apply (H (cold d ps)), Hx; apply cold_inv].
  clear Hx. intros y Hy Hyx. induction Hyx as [|y z x Hyz _ IH]; [done|]. by eapply IH, starts_inv_step.
Qed.

(** Nobody waits for ever on a lock nobody holds: a starter that has not ended, or the
    one it waits for, has a step of its own. *)
Lemma starts_progress d x p f : starts_inv d x -> phases x !! p = Some f -> f = Waiting \/ (exists pending, f = Holding pending) ->
  exists y q g, start_step x y /\ phases y = <[q := g]> (phases x) /\ g <> Crashed.
Proof.
  intros Hx Hp Hf.
  assert (forall q pending, phases x !! q = Some (Holding pending) ->
    exists y q g, start_step x y /\ phases y = <[q := g]> (phases x) /\ g <> Crashed) as Hh.
  { intros q [|m rest] Hq; [by do 3 eexists; split; [by eapply start_leave|]|].
    destruct (_apply_one exec_sql took m (table x) (objects (base x))) as [[t' s'] []] eqn:E;
      do 3 eexists; (split; [by (eapply start_apply + eapply start_fail)|done]). }
  destruct Hf as [->|[pending ->]]; [|by eapply Hh].
  destruct (lock x) as [q|] eqn:Ek; [destruct (inv_lock _ _ Hx q Ek) as [pending Hq]; by eapply Hh|].
  destruct (_verify_applied (table x) ms) as [[]|e] eqn:Hv; do 3 eexists.
  - split; [by apply (start_enter x p)|done].
  - split; [apply (start_refused x p); [done..|]; by rewrite Hv|done].
Qed.

(** A starter alone goes through the steps of [run_migrations]. *)
Lemma apply_is_steps p pending : forall x vs t s, phases x !! p = Some (Holding pending) ->
  apply_pending exec_sql took pending (table x) (objects (base x)) = (t, s, vs, true) ->
  exists y, rtc start_step x y /\ phases y !! p = Some (Holding []) /\ base y = mk_db (if pending then ledger (base x) else Some t) s
    /\ table y = t /\ applied y = applied x ++ pending.
Proof.
  induction pending as [|m rest IH]; intros x vs t s Hp Ha; cbn [apply_pending] in Ha.
  - injection Ha as <- <- <-. exists x. split_and!; [apply rtc_refl|done| |done|by rewrite app_nil_r]. by destruct (base x).
  - destruct (_apply_one _ _ m _ _) as [[t' s'] []] eqn:E; [|done].
    destruct (apply_pending exec_sql took rest t' s') as [[[t2 s2] vs'] ok] eqn:E2. injection Ha as -> -> <- ->.
    destruct (IH (mk_starts (mk_db (Some t') s') (lock x) (<[p := Holding rest]> (phases x)) (applied x ++ [m])) vs' t s)
      as (y & Hy & Hyp & Hb & Ht & Hap); [cbn; by rewrite lookup_insert_eq|done|].
    exists y. split_and!; [|done| |done|by rewrite Hap; cbn; rewrite <- app_assoc].
    + eapply rtc_l; [by eapply start_apply|done].
    + rewrite Hb. destruct rest; [|done]. cbn in E2 |- *. by injection E2 as <- _ _.
Qed.

Lemma run_is_steps x p d' vs : phases x !! p = Some Waiting -> lock x = None ->
  run_migrations exec_sql took ms (base x) = (d', Ok vs) ->
  exists y, rtc start_step x y /\ base y = d' /\ lock y = None /\ phases y !! p = Some Done
    /\ applied y = applied x ++ select_pending (dom (table x)) ms.
Proof.
  intros Hp Hk. unfold run_migrations. fold (table x). destruct (_verify_applied (table x) ms) as [[]|e] eqn:Ev; [|done].
  destruct (apply_pending _ _ _ _ _) as [[[t s] vs'] []] eqn:Ea; [|done]. intros [= <- <-].
  set (x1 := mk_starts (mk_db (Some (table x)) (objects (base x))) (Some p)
               (<[p := Holding (select_pending (dom (table x)) ms)]> (phases x)) (applied x)).
  destruct (apply_is_steps p (select_pending (dom (table x)) ms) x1 vs' t s) as (y & Hy & Hyp & Hb & Ht & Hap);
    [cbn; by rewrite lookup_insert_eq|done|].
  exists (mk_starts (base y) None (<[p := Done]> (phases y)) (applied y)). split_and!; [|cbn|done| |done].
  - eapply rtc_l; [by apply start_enter|]. eapply rtc_r; [exact Hy|by apply start_leave].
  - rewrite Hb. f_equal. destruct (select_pending _ _) in Ea |- *; [|done]. cbn in Ea |- *. by injection Ea as -> _ _.
  - cbn. by rewrite lookup_insert_eq.
Qed.
End Starts.

(** C31. Containers that start at once against one database.  Whatever the interleaving
    and wherever any of them crashes: at most one is inside the critical section; the
    files recorded since are, in version order, an initial part of those the first
    ledger did not have, so none is recorded twice; the ledger is exactly theirs; if
    no file runs outside a transaction, so are the objects; a starter that ends well
    leaves nothing pending; and as long as one has not ended, one can go on. *)
Theorem cold_starts_converge {S} (exec_sql : ustr -> S -> option S) (took : Z -> Z) `{!Unicode} (sha : list N -> ustr) files ms d ps
    (x : starts_t S) :
  discover_migrations sha files = Ok ms -> rtc (start_step exec_sql took ms) (cold d ps) x ->
  let pending := select_pending (dom (default ∅ (ledger d))) ms in
  (forall p q l l', phases x !! p = Some (Holding l) -> phases x !! q = Some (Holding l') -> p = q)
  /\ pending = applied x ++ select_pending (dom (table x)) ms /\ NoDup (versions (applied x))
  /\ table x = recorded took (applied x) (default ∅ (ledger d))
  /\ (Forall (fun m => Migration.no_transaction m = false) ms -> effects exec_sql (applied x) (objects d) = Some (objects (base x)))
  /\ (forall p, phases x !! p = Some Done -> applied x = pending /\ forall m, m ∈ ms -> is_Some (table x !! Migration.version m))
  /\ (forall p f, phases x !! p = Some f -> f = Waiting \/ (exists l, f = Holding l) ->
        exists y q g, start_step exec_sql took ms x y /\ phases y = <[q := g]> (phases x) /\ g <> Crashed).
Proof.
  intros Hs%discovered_sorted Hx%starts_inv_reachable pending; [|done]. pose proof Hx as [It Io Ih Id Il Iobj]. split_and!; try done.
  - intros p q l l' Hp Hq. by eapply holder_unique.
  - assert (NoDup (versions pending)) as Hn by (by apply older_NoDup, pending_older).
    unfold pending in Hn. rewrite Io in Hn. unfold versions in Hn. rewrite fmap_app in Hn. by apply NoDup_app in Hn as [].
  - intros p Hp. specialize (Id p Hp). split; [unfold pending; by rewrite Io, Id, app_nil_r|]. intros m Hm.
    apply elem_of_dom. destruct (decide (Migration.version m ∈ dom (table x))) as [|Hd]; [done|].
    assert (m ∈ select_pending (dom (table x)) ms) as Hin by (by apply pending_elem). rewrite Id in Hin. by apply not_elem_of_nil in Hin.
  - intros p f. by eapply starts_progress.
Qed.

(** *** On concrete files *)

Definition toy_server (x : ustr) (s : list ustr) : option (list ustr) :=
  if bool_decide (x = u "BAD") then None else Some (s ++ [x]).
Definition toy_files : list (ustr * list N) :=
  [(u "0003_c.sql", u "C; -- third" ++ [LF]); (u "README.md", []); (u "0001_a.sql", u "A1; A2"); (u "0002_b.sql", u "BAD")].
Definition toy_found (files : list (ustr * list N)) : list Migration.t :=
  match @discover_migrations ascii_unicode (take 4) files with Ok ms => ms | Raise _ => [] end.
Definition toy_db : migdb (list ustr) := mk_db (Some {[1 := LedgerRow.mk (u "0001_a.sql") (u "A1; ") 7]}) [].

Example toy_order : Migration.version <$> toy_found toy_files = [1; 2; 3].
Proof. vm_compute. reflexivity. Qed.

Lemma toy_sorted : StronglySorted older (toy_found toy_files).
Proof. repeat (constructor; [|repeat constructor]). constructor. Qed.

(** The second file fails: it is recorded as little as the third, and still pending. *)
Lemma migrations_apply_once_witness : StronglySorted older (toy_found toy_files) /\
  exists d' done_ m rest s, run_migrations toy_server Z.succ (toy_found toy_files) toy_db = (d', Raise MigrationError)
    /\ select_pending {[1]} (toy_found toy_files) = done_ ++ m :: rest /\ effects toy_server done_ [] = Some s /\ effect toy_server m s = None
    /\ (Migration.no_transaction m = false -> objects d' = s).
Proof.
  split; [exact toy_sorted|]. pose proof (migrations_apply_once toy_server Z.succ (toy_found toy_files) toy_db toy_sorted) as H.
  cbv zeta in H. destruct (run_migrations _ _ _ _) as [d' r] eqn:E. exists d'.
  assert (r = Raise MigrationError) as -> by (change r with (d', r).2; rewrite <- E; vm_compute; reflexivity).
  destruct H as (_ & [[Hr _]|(done_ & m & rest & s & Hp & He & Hm & _ & Ho & _)]).
  - destruct Hr. apply verify_iff; [by apply older_NoDup, toy_sorted|]. vm_compute. reflexivity.
  - exists done_, m, rest, s. split_and!; [done| |done..]. rewrite <- Hp. vm_compute. reflexivity.
Defined.

(** Two starters, the first at its second file. *)
Definition two_files : list (ustr * list N) := [(u "0002_b.sql", u "B"); (u "0001_a.sql", u "A1; A2")].
Definition empty_db : migdb (list ustr) := mk_db None [].
Definition two_starters : starts_t (list ustr) :=
  mk_starts (mk_db (Some (recorded Z.succ (take 1 (toy_found two_files)) ∅)) [u "A1"; u "A2"]) (Some 0%nat)
    (<[0%nat := Holding (drop 1 (toy_found two_files))]> (<[0%nat := Holding (toy_found two_files)]> (phases (cold empty_db [0%nat; 1%nat]))))
    (take 1 (toy_found two_files)).

Definition one_entered : starts_t (list ustr) :=
  mk_starts (mk_db (Some ∅) []) (Some 0%nat) (<[0%nat := Holding (toy_found two_files)]> (phases (cold empty_db [0%nat; 1%nat]))) [].

Lemma step_to {S} (exec_sql : ustr -> S -> option S) took ms x y y' :
  start_step exec_sql took ms x y -> y = y' -> start_step exec_sql took ms x y'.
Proof. by intros H <-. Qed.

Lemma two_starters_reached : rtc (start_step toy_server Z.succ (toy_found two_files)) (cold empty_db [0%nat; 1%nat]) two_starters.
Proof.
  apply (rtc_l _ _ one_entered).
  { eapply step_to; [apply (start_enter _ _ _ _ 0%nat)|]; vm_compute; reflexivity. }
  eapply rtc_l; [|apply rtc_refl]. eapply step_to; [eapply (start_apply _ _ _ one_entered 0%nat)|]; vm_compute; reflexivity.
Qed.

Lemma cold_starts_converge_witness :
  @discover_migrations ascii_unicode (take 4) two_files = Ok (toy_found two_files)
  /\ rtc (start_step toy_server Z.succ (toy_found two_files)) (cold empty_db [0%nat; 1%nat]) two_starters
  /\ exists y q g, start_step toy_server Z.succ (toy_found two_files) two_starters y /\ phases y = <[q := g]> (phases two_starters) /\ g <> Crashed.
Proof.
  assert (@discover_migrations ascii_unicode (take 4) two_files = Ok (toy_found two_files)) as Hd by (vm_compute; reflexivity).
  split_and!; [exact Hd|exact two_starters_reached|].
  destruct (@cold_starts_converge _ toy_server Z.succ ascii_unicode (take 4) two_files (toy_found two_files) empty_db
              [0%nat; 1%nat] two_starters Hd two_starters_reached) as (_ & _ & _ & _ & _ & _ & Hp).
  apply (Hp 1%nat Waiting); [reflexivity|by left].
Defined.
