(* ===== verification/Bootstrap.v ===== *)
(** * Database bootstrap

    [db/startup.py]: finding or creating the target database, the checks of the server,
    and the exit codes of the service's start.  The database server - whether a
    connection comes about, what its queries answer - the connection-string library
    and the schema's DDL are the argument [Server]; the migrations are those of
    [Migrate]. *)

From S2P Require Import Prelude PyStr Regex PyText UrlCodec PyInt Config Migrate.
From Stdlib Require Import ZArith NArith Lia.

#[local] Open Scope string_scope.
#[local] Open Scope list_scope.
#[local] Open Scope Z_scope.

Definition EXIT_FATAL : Z := 3.
Definition EXIT_CONNECT : Z := 4.
Definition EXIT_MIGRATION : Z := 5.
Definition _INVALID_CATALOG_NAME : ustr := u "3D000".
Definition MIN_SERVER_VERSION_NUM : Z := 160000.
Definition MIN_PGVECTOR_VERSION : list Z := [0; 8; 0].

Definition FATAL_PGVECTOR_MISSING : ustr := u ("FATAL: pgvector is not installed on this PostgreSQL server. analyzer-ng requires "
  +:+ "the 'vector' extension (>= 0.8). Use the pgvector/pgvector:pg16 image or install "
  +:+ "the postgresql-16-pgvector package, then restart.").

(** ** Errors and effects *)

Inductive boot_exn :=
  | BootstrapError (message : ustr) (exit_code : Z)
  | OtherExn (e : pyexn).

Inductive boot (A : Type) := Done_ (a : A) | Failed_ (e : boot_exn).
Arguments Done_ {A} a. Arguments Failed_ {A} e.

(** A computation on the world, which may raise. *)
Definition act (W A : Type) : Type := W -> W * boot A.
#[export] Instance act_ret {W} : MRet (act W) := fun A a w => (w, Done_ a).
#[export] Instance act_bind {W} : MBind (act W) := fun A B f m w =>
  match m w with (w, Done_ a) => f a w | (w, Failed_ e) => (w, Failed_ e) end.
Definition throw {W A} (e : boot_exn) : act W A := fun w => (w, Failed_ e).
(** A query answers or raises [psycopg.Error]. *)
Definition DbError : pyexn := OtherError "psycopg.Error".
Definition query (W A : Type) : Type := W -> W * option A.
Definition ask {W A} (q : query W A) : act W A := fun w =>
  match q w with (w, Some a) => (w, Done_ a) | (w, None) => (w, Failed_ (OtherExn DbError)) end.
Definition lift {W A} (r : result A) : act W A := match r with Ok a => mret a | Raise e => throw (OtherExn e) end.
Definition attempt {W A} (m : W -> W * result A) : act W A := fun w => let '(w, r) := m w in lift r w.
Definition tell {W} (f : W -> W) : act W unit := fun w => (f w, Done_ tt).
(** [try: m finally: f], for an [f] that does not raise. *)
Definition finally {W A} (m : act W A) (f : W -> W) : act W A := fun w => let '(w, r) := m w in (f w, r).

(** An [OperationalError] of [psycopg.connect]. *)
Module ConnectError.
Record t := mk { sqlstate : option ustr; text : ustr }.
End ConnectError.

Inductive creation := Created | DuplicateDatabase | InsufficientPrivilege | CreateRaised.

(** The outside: connections, the queries of the bootstrap, and what else it calls. *)
Class Server (W : Type) := {
  connect : ustr -> W -> W * option ConnectError.t;
  sleep : W -> W;
  db_exists : ustr -> query W bool;
  create_database : ustr -> W -> W * creation;
  lock_creation : W -> W;
  unlock_creation : W -> W;
  lock_migrations : W -> W;
  unlock_migrations : W -> W;
  server_version_num : query W ustr;
  vector_extension : query W (option (option ustr * option ustr));
  ensure_schema_and_extensions : ustr -> query W unit;
  conninfo_to_dict : ustr -> option (list (ustr * option ustr));
  make_conninfo : list (ustr * ustr) -> ustr;
  text_repr : ustr -> ustr
}.

(** ** The decisions *)

Definition _is_missing_database (exc : ConnectError.t) (dbname : option ustr) : bool :=
  match dbname with
  | None => false
  | Some dbname =>
      if bool_decide (ConnectError.sqlstate exc = Some _INVALID_CATALOG_NAME) then true
      else ucontains (u "database " ++ [34%N] ++ dbname ++ [34%N] ++ u " does not exist") (ConnectError.text exc)
  end.

(** [str.isdigit] and [int] on the digits of a token; beyond ASCII both are tables. *)
Class Digits := { wide_digit : N -> bool; wide_int : ustr -> option Z }.

Section Versions.
Context `{!Digits}.
Definition isdigit (c : N) : bool := if is_ascii c then adigit c else wide_digit c.
Definition int_digits (s : ustr) : result Z :=
  match (if forallb is_ascii s then int_text s else wide_int s) with Some z => Ok z | None => Raise ValueError end.

Fixpoint version_parts (tokens : list ustr) : result (list Z) :=
  match tokens with
  | [] => Ok []
  | token :: rest =>
      match List.filter isdigit token with
      | [] => Ok []
      | digits => n ← int_digits digits; ns ← version_parts rest; Ok (n :: ns)
      end
  end.
Definition _parse_version (version : ustr) : result (list Z) := version_parts (usplit 46%N version).
End Versions.

(** [<] on tuples. *)
Fixpoint tuple_lt (a b : list Z) : bool :=
  match a, b with
  | _, [] => false
  | [], _ :: _ => true
  | x :: a', y :: b' => if x =? y then tuple_lt a' b' else x <? y
  end.

(** ** The bootstrap *)

Section Boot.
Context {W : Type} `{!Server W, !Unicode, !UrlTables, !Digits}.

Definition fatal {A} (message : ustr) : act W A := throw (BootstrapError message EXIT_FATAL).

Definition _maintenance_dsn (dsn : ustr) : act W (ustr * ustr) :=
  params ← ask (fun w => (w, conninfo_to_dict dsn));
  match default None (dget (u "dbname") params) with
  | Some ((_ :: _) as target_db) =>
      let params := dset (u "dbname") (Some (u "postgres")) params in
      mret (make_conninfo (omap (fun kv => pair kv.1 <$> kv.2) params), target_db)
  | _ =>
      safe ← lift (redact_dsn dsn);
      fatal (u "cannot determine target database name from DSN " ++ text_repr safe)
  end.

Definition unreachable {A} (attempts : nat) (last_error : option ConnectError.t) : act W A :=
  throw (BootstrapError (u "could not connect to PostgreSQL after " ++ u (str_of_Z (Z.of_nat attempts)) ++ u " attempts: "
                         ++ match last_error with Some e => ConnectError.text e | None => u "None" end) EXIT_CONNECT).

(** The attempts that are left; the pause is between attempts only. *)
Fixpoint connect_loop (dsn : ustr) (attempts again : nat) (last_error : option ConnectError.t) : act W unit :=
  match again with
  | O => unreachable attempts last_error
  | S again => fun w =>
      match connect dsn w with
      | (w, None) => (w, Done_ tt)
      | (w, Some e) => connect_loop dsn attempts again (Some e) (if again then w else sleep w)
      end
  end.
Definition connect_with_retries (dsn : ustr) (attempts : nat) : act W unit := connect_loop dsn attempts attempts None.

Definition _target_database_absent (connect_error : ConnectError.t) (maintenance_dsn target_db : ustr) : act W (option bool) := fun w =>
  match connect maintenance_dsn w with
  | (w, Some _) => (w, Done_ (if _is_missing_database connect_error (Some target_db) then Some true else None))
  | (w, None) => (present ← ask (db_exists target_db); mret (Some (negb present))) w
  end.

Definition _create_database (maintenance_dsn target_db : ustr) (attempts : nat) : act W unit :=
  _ ← connect_with_retries maintenance_dsn attempts;
  _ ← tell lock_creation;
  finally
    (present ← ask (db_exists target_db);
     if present : bool then mret tt
     else fun w =>
       match create_database target_db w with
       | (w, Created) | (w, DuplicateDatabase) => (w, Done_ tt)
       | (w, InsufficientPrivilege) =>
           fatal (u "role lacks CREATEDB to create database " ++ text_repr target_db
                  ++ u ". Grant CREATEDB, or pre-create the database (db/bootstrap/create_role_and_db.sql) and start with ANALYZER_PG_CREATE_DB=false") w
       | (w, CreateRaised) => throw (OtherExn DbError) w
       end)
    unlock_creation.

Fixpoint ensure_loop (dsn maintenance_dsn target_db : ustr) (create_db : bool) (attempts again : nat) (last_error : option ConnectError.t) : act W unit :=
  match again with
  | O => unreachable attempts last_error
  | S again => fun w =>
      match connect dsn w with
      | (w, None) => (w, Done_ tt)
      | (w, Some e) =>
          (absent ← _target_database_absent e maintenance_dsn target_db;
           match absent with
           | Some true =>
               if create_db then
                 _ ← _create_database maintenance_dsn target_db attempts;
                 ensure_loop dsn maintenance_dsn target_db create_db attempts again (Some e)
               else fatal (u "target database " ++ text_repr target_db
                           ++ u " does not exist and ANALYZER_PG_CREATE_DB=false; create it out of band (see db/bootstrap/create_role_and_db.sql)")
           | _ => _ ← (if again then mret tt else tell sleep); ensure_loop dsn maintenance_dsn target_db create_db attempts again (Some e)
           end) w
      end
  end.

Definition ensure_database (dsn : ustr) (create_db : bool) (attempts : nat) : act W unit :=
  '(maintenance_dsn, target_db) ← _maintenance_dsn dsn;
  ensure_loop dsn maintenance_dsn target_db create_db attempts attempts None.

Definition check_server_and_extensions : act W unit :=
  version_row ← ask server_version_num;
  num ← lift (match int_text version_row with Some z => Ok z | None => Raise ValueError end);
  if num <? MIN_SERVER_VERSION_NUM then
    fatal (u "FATAL: PostgreSQL 16+ required (found server_version_num=" ++ u (str_of_Z num) ++ u ")")
  else
    row ← ask vector_extension;
    match row with
    | None => fatal FATAL_PGVECTOR_MISSING
    | Some (default_version, installed_version) =>
        match (if truthy installed_version then installed_version else default_version) with
        | None => throw (OtherExn AttributeError)
        | Some version_str =>
            version ← lift (_parse_version version_str);
            if tuple_lt version MIN_PGVECTOR_VERSION then
              fatal (u "FATAL: pgvector " ++ version_str ++ u " is too old; analyzer-ng requires the 'vector' extension (>= 0.8.0). Upgrade pgvector (pgvector/pgvector:pg16), then restart.")
            else mret tt
        end
    end.

Definition _connect_and_check (dsn : ustr) (create_db : bool) (attempts : nat) : act W unit :=
  _ ← ensure_database dsn create_db attempts; check_server_and_extensions.

(** The migrations that run under the lock. *)
Definition bootstrap_and_migrate (apply_migrations : W -> W * result (list Z)) (dsn schema : ustr) (create_db : bool) (attempts : nat) : act W (list Z) :=
  _ ← _connect_and_check dsn create_db attempts;
  _ ← tell lock_migrations;
  finally (_ ← ask (ensure_schema_and_extensions schema); attempt apply_migrations) unlock_migrations.

Definition bootstrap (dsn schema : ustr) (create_db : bool) (attempts : nat) : act W unit :=
  _ ← _connect_and_check dsn create_db attempts;
  _ ← tell lock_migrations;
  finally (ask (ensure_schema_and_extensions schema)) unlock_migrations.

Definition bootstrap_and_migrate_or_exit (apply_migrations : W -> W * result (list Z)) (dsn schema : ustr) (create_db : bool) (attempts : nat) (w : W)
    : W * exit_or (list Z) :=
  match bootstrap_and_migrate apply_migrations dsn schema create_db attempts w with
  | (w, Done_ applied) => (w, Returned applied)
  | (w, Failed_ (BootstrapError _ code)) => (w, SystemExit code)
  | (w, Failed_ (OtherExn e)) => (w, if bool_decide (e = MigrationError) then SystemExit EXIT_MIGRATION else Uncaught e)
  end.
End Boot.

(** ** The trace of a start *)

Inductive event := Connected (dsn : ustr) | Refused (dsn : ustr) | Slept | LockC | UnlockC | LockM | UnlockM.

(** The same server, with a record of what it was asked. *)
Section Traced.
Context {W : Type} `{!Server W}.

Definition note (e : event) (f : W -> W) (x : W * list event) : W * list event := (f x.1, x.2 ++ [e]).
Definition silent {A} (q : W -> W * A) (x : W * list event) : (W * list event) * A := let '(w, r) := q x.1 in ((w, x.2), r).

Definition traced : Server (W * list event) := {|
  connect dsn x := let '(w, r) := connect dsn x.1 in ((w, x.2 ++ [match r with None => Connected dsn | Some _ => Refused dsn end]), r);
  sleep := note Slept sleep;
  db_exists db := silent (db_exists db);
  create_database db := silent (create_database db);
  lock_creation := note LockC lock_creation;
  unlock_creation := note UnlockC unlock_creation;
  lock_migrations := note LockM lock_migrations;
  unlock_migrations := note UnlockM unlock_migrations;
  server_version_num := silent server_version_num;
  vector_extension := silent vector_extension;
  ensure_schema_and_extensions schema := silent (ensure_schema_and_extensions schema);
  conninfo_to_dict := conninfo_to_dict;
  make_conninfo := make_conninfo;
  text_repr := text_repr |}.
End Traced.

Definition is_lock (e : event) : bool := match e with LockC | UnlockC | LockM | UnlockM => true | _ => false end.
Definition locks (tr : list event) : list event := List.filter is_lock tr.
Definition attempted (e : event) : bool := match e with Connected _ | Refused _ => true | _ => false end.
Definition connections (tr : list event) : nat := length (List.filter attempted tr).

(** The creation lock is taken and given up, some number of times. *)
Inductive paired : list event -> Prop :=
  | paired_nil : paired []
  | paired_more l : paired l -> paired (LockC :: UnlockC :: l).

Lemma paired_app a b : paired a -> paired b -> paired (a ++ b).
Proof. induction 1; intros Hb; [done|]. constructor. auto. Qed.

Lemma locks_app a b : locks (a ++ b) = locks a ++ locks b.
Proof. apply List.filter_app. Qed.
Lemma connections_app a b : connections (a ++ b) = (connections a + connections b)%nat.
Proof. unfold connections. by rewrite List.filter_app, length_app. Qed.

(** At most [k] connections, and every lock given back. *)
Definition tidy (k : nat) (tr : list event) : Prop := paired (locks tr) /\ (connections tr <= k)%nat.
Lemma tidy_nil k : tidy k [].
Proof. split; [constructor|]. unfold connections. simpl. lia. Qed.
Lemma tidy_app j k a b : tidy j a -> tidy k b -> tidy (j + k) (a ++ b).
Proof. intros [Ha Hj] [Hb Hk]. split; [rewrite locks_app; by apply paired_app|rewrite connections_app; lia]. Qed.
Lemma tidy_le j k a : (j <= k)%nat -> tidy j a -> tidy k a.
Proof. intros Hle [Ha Hj]. split; [done|lia]. Qed.

Definition fine {A} (k : nat) (r : boot A) (tr : list event) : Prop :=
  tidy k tr /\
  match r with
  | Done_ _ => True
  | Failed_ (BootstrapError _ code) => code = EXIT_FATAL \/ code = EXIT_CONNECT
  | Failed_ (OtherExn e) => e <> MigrationError
  end.

Section Shadow.
Context {W : Type} `{!Server W, !Unicode, !UrlTables, !Digits}.
#[local] Existing Instance traced.

(** The traced computation [m'] does what [m] does, and its trace satisfies [P]. *)
Definition shadows {A} (m' : act (W * list event) A) (m : act W A) (P : boot A -> list event -> Prop) : Prop :=
  forall w tr, exists tr', m' (w, tr) = (let '(w', r) := m w in ((w', tr ++ tr'), r)) /\ P (m w).2 tr'.

Lemma shadows_ret {A} (a : A) k : shadows (mret a) (mret a) (fine k).
Proof. intros w tr. exists []. split; [cbn; by rewrite app_nil_r|]. split; [apply tidy_nil|done]. Qed.

Lemma shadows_throw {A} e k : (match e with BootstrapError _ c => c = EXIT_FATAL \/ c = EXIT_CONNECT | OtherExn e => e <> MigrationError end) ->
  shadows (A := A) (throw e) (throw e) (fine k).
Proof. intros He w tr. exists []. split; [cbn; by rewrite app_nil_r|]. split; [apply tidy_nil|exact He]. Qed.

Lemma shadows_fatal {A} m k : shadows (A := A) (fatal m) (fatal m) (fine k).
Proof. apply shadows_throw. by left. Qed.

Lemma shadows_ask {A} (q : query W A) k : shadows (ask (silent q)) (ask q) (fine k).
Proof.
  intros w tr. exists []. unfold ask, silent. cbn [fst snd]. destruct (q w) as [w' [a|]]; (split; [by rewrite app_nil_r|]); (split; [apply tidy_nil|done]).
Qed.

Lemma shadows_lift {A} (r : result A) k : (forall e, r = Raise e -> e <> MigrationError) -> shadows (lift r) (lift r) (fine k).
Proof. intros Hr. destruct r as [a|e]; [apply shadows_ret|]. apply shadows_throw. by apply Hr. Qed.

Lemma shadows_bind {A B} (m' : act (W * list event) A) m (f' : A -> act (W * list event) B) f j k :
  shadows m' m (fine j) -> (forall a, shadows (f' a) (f a) (fine k)) -> shadows (m' ≫= f') (m ≫= f) (fine (j + k)).
Proof.
  intros Hm Hf w tr. destruct (Hm w tr) as (tr1 & E1 & T1). unfold mbind, act_bind. rewrite E1.
  destruct (m w) as [w1 [a|e]]; cbn [snd] in *.
  - destruct (Hf a w1 (tr ++ tr1)) as (tr2 & E2 & T2). rewrite E2. exists (tr1 ++ tr2). rewrite app_assoc. split; [done|].
    destruct T1 as [T1 _], T2 as [T2 Hr]. split; [by apply tidy_app|done].
  - exists tr1. split; [done|]. destruct T1 as [T1 Hr]. split; [|by destruct e]. eapply tidy_le; [|done]. lia.
Qed.

Lemma shadows_weaken {A} (m' : act (W * list event) A) m j k : (j <= k)%nat -> shadows m' m (fine j) -> shadows m' m (fine k).
Proof. intros Hle Hm w tr. destruct (Hm w tr) as (t & E & Ht & Hr). exists t. split; [done|]. split; [by eapply tidy_le|done]. Qed.

(** One attempt, before the rest of the loop. *)
Lemma shadows_connect {A} dsn (ok' : act (W * list event) A) ok (no' : ConnectError.t -> act (W * list event) A) no k :
  shadows ok' ok (fine k) -> (forall e, shadows (no' e) (no e) (fine k)) ->
  shadows (fun x => match connect dsn x with (x, None) => ok' x | (x, Some e) => no' e x end)
          (fun w => match connect dsn w with (w, None) => ok w | (w, Some e) => no e w end) (fine (S k)).
Proof.
  intros Hok Hno w tr. cbn [connect traced fst snd]. destruct (connect dsn w) as [w1 [e|]]; cbn [fst snd].
  - destruct (Hno e w1 (tr ++ [Refused dsn])) as (t & E & Ht & Hr). exists ([Refused dsn] ++ t). rewrite app_assoc. split; [exact E|].
    split; [|done]. change (S k) with (1 + k)%nat. apply tidy_app; [split; [constructor|unfold connections; simpl; lia]|done].
  - destruct (Hok w1 (tr ++ [Connected dsn])) as (t & E & Ht & Hr). exists ([Connected dsn] ++ t). rewrite app_assoc. split; [exact E|].
    split; [|done]. change (S k) with (1 + k)%nat. apply tidy_app; [split; [constructor|unfold connections; simpl; lia]|done].
Qed.

Lemma shadows_sleep {A} (b : bool) (m' : act (W * list event) A) m k : shadows m' m (fine k) ->
  shadows (fun x => m' (if b then x else sleep x)) (fun w => m (if b then w else sleep w)) (fine k).
Proof.
  intros Hm w tr. destruct b; [apply Hm|]. cbn [sleep traced]. unfold note. cbn [fst snd].
  destruct (Hm (sleep w) (tr ++ [Slept])) as (t & E & Ht & Hr). exists ([Slept] ++ t). rewrite app_assoc. split; [exact E|].
  split; [|done]. change k with (0 + k)%nat. apply tidy_app; [split; [constructor|unfold connections; simpl; lia]|done].
Qed.

Lemma connect_loop_shadows dsn attempts again : forall last_error,
  shadows (connect_loop dsn attempts again last_error) (connect_loop dsn attempts again last_error) (fine again).
Proof.
  induction again as [|n IH]; intros last_error; cbn [connect_loop]; [apply shadows_throw; by right|].
  apply (shadows_connect dsn (fun x => (x, Done_ tt)) (fun w => (w, Done_ tt)) (fun e x => connect_loop dsn attempts n (Some e) (if n then x else sleep x))
           (fun e w => connect_loop dsn attempts n (Some e) (if n then w else sleep w)) n); [exact (shadows_ret tt n)|].
  intros e. destruct n as [|n].
  - exact (shadows_sleep true _ _ _ (IH (Some e))).
  - exact (shadows_sleep false _ _ _ (IH (Some e))).
Qed.

Lemma absent_shadows e mdsn db : shadows (_target_database_absent e mdsn db) (_target_database_absent e mdsn db) (fine 1).
Proof.
  apply (shadows_connect mdsn
    (present ← ask (db_exists db); mret (Some (negb present))) (present ← ask (db_exists db); mret (Some (negb present)))
    (fun _ x => (x, Done_ (if _is_missing_database e (Some db) then Some true else None)))
    (fun _ w => (w, Done_ (if _is_missing_database e (Some db) then Some true else None))) 0).
  - apply (shadows_bind _ _ _ _ 0 0); [apply shadows_ask|]. intros a. apply shadows_ret.
  - intros _. exact (shadows_ret _ 0).
Qed.

(** What happens between taking the creation lock and giving it up is silent. *)
Definition quiet {A} (m' : act (W * list event) A) (m : act W A) : Prop :=
  forall w tr, m' (w, tr) = (let '(w', r) := m w in ((w', tr), r)) /\ fine 0 (m w).2 [].

Lemma quiet_locked {A} (m' : act (W * list event) A) m : quiet m' m ->
  shadows (_ ← tell lock_creation; finally m' unlock_creation) (_ ← tell lock_creation; finally m unlock_creation) (fine 0).
Proof.
  intros Hm w tr. exists [LockC; UnlockC]. unfold mbind, act_bind, tell, finally. cbn [lock_creation traced]. unfold note at 1. cbn [fst snd].
  destruct (Hm (lock_creation w) (tr ++ [LockC])) as [E [_ Hr]]. rewrite E. destruct (m (lock_creation w)) as [w1 r]. cbn [fst snd] in *.
  split; [cbn [unlock_creation traced]; unfold note; cbn [fst snd]; by rewrite <- app_assoc|]. split; [|done]. split; [repeat constructor|by vm_compute].
Qed.

Lemma create_shadows mdsn db attempts : shadows (_create_database mdsn db attempts) (_create_database mdsn db attempts) (fine attempts).
Proof.
  unfold _create_database. apply (shadows_weaken _ _ (attempts + 0)); [lia|]. apply shadows_bind; [apply connect_loop_shadows|]. intros _.
  apply quiet_locked. intros w tr. unfold mbind, act_bind, ask, silent. cbn [db_exists traced fst snd].
  assert (forall k r, (r = Done_ tt \/ (exists m, r = Failed_ (BootstrapError m EXIT_FATAL)) \/ r = Failed_ (OtherExn DbError)) ->
    fine (A := unit) k r []) as Hf.
  { intros k r [->|[[m ->]| ->]]; (split; [apply tidy_nil|]); [done|by left|done]. }
  unfold silent. cbn [fst snd]. destruct (db_exists db w) as [w1 [[]|]]; cbn [fst snd].
  - split; [done|]. apply Hf. by left.
  - cbn [create_database traced]. unfold silent. cbn [fst snd]. destruct (create_database db w1) as [w2 []]; cbn [fst snd];
      (split; [done|]); apply Hf; eauto.
  - split; [done|]. apply Hf. auto.
Qed.

Lemma ensure_loop_shadows dsn mdsn db create attempts again : forall last_error,
  shadows (ensure_loop dsn mdsn db create attempts again last_error) (ensure_loop dsn mdsn db create attempts again last_error)
          (fine (again * (attempts + 2))).
Proof.
  induction again as [|n IH]; intros last_error; [apply shadows_throw; by right|]. cbn [Nat.mul ensure_loop].
  apply (shadows_weaken _ _ (S (1 + (attempts + n * (attempts + 2))))); [lia|].
  set (no' := fun e => absent ← _target_database_absent e mdsn db; match absent with
    | Some true => if create then _ ← _create_database mdsn db attempts; ensure_loop dsn mdsn db create attempts n (Some e)
                   else fatal (u "target database " ++ text_repr (Server := traced) db
                           ++ u " does not exist and ANALYZER_PG_CREATE_DB=false; create it out of band (see db/bootstrap/create_role_and_db.sql)")
    | _ => _ ← (if n then mret tt else tell (sleep (Server := traced))); ensure_loop dsn mdsn db create attempts n (Some e) end).
  set (no := fun e => absent ← _target_database_absent e mdsn db; match absent with
    | Some true => if create then _ ← _create_database mdsn db attempts; ensure_loop dsn mdsn db create attempts n (Some e)
                   else fatal (u "target database " ++ text_repr db
                           ++ u " does not exist and ANALYZER_PG_CREATE_DB=false; create it out of band (see db/bootstrap/create_role_and_db.sql)")
    | _ => _ ← (if n then mret tt else tell (sleep (Server := Server0))); ensure_loop dsn mdsn db create attempts n (Some e) end).
  apply (shadows_connect dsn (fun x => (x, Done_ tt)) (fun w => (w, Done_ tt)) no' no (1 + (attempts + n * (attempts + 2)))); [exact (shadows_ret tt _)|]. intros e.
  apply shadows_bind; [apply absent_shadows|]. intros absent.
  assert (shadows (_ ← (if n then mret tt else tell (sleep (Server := traced))); ensure_loop dsn mdsn db create attempts n (Some e))
            (_ ← (if n then mret tt else tell (sleep (Server := Server0))); ensure_loop dsn mdsn db create attempts n (Some e))
            (fine (attempts + n * (attempts + 2)))) as Hpause.
  { apply shadows_weaken with (n * (attempts + 2))%nat; [lia|]. destruct n as [|n].
    - exact (shadows_sleep true _ _ _ (IH (Some e))).
    - exact (shadows_sleep false _ _ _ (IH (Some e))). }
  destruct absent as [[]|]; [|exact Hpause..]. destruct create; [|apply shadows_fatal].
  apply shadows_bind; [apply create_shadows|]. intros _. apply IH.
Qed.

Lemma ensure_shadows dsn create attempts :
  shadows (ensure_database dsn create attempts) (ensure_database dsn create attempts) (fine (attempts * (attempts + 2))).
Proof.
  unfold ensure_database. apply (shadows_weaken _ _ (0 + attempts * (attempts + 2))); [lia|]. apply shadows_bind.
  - unfold _maintenance_dsn. apply (shadows_bind _ _ _ _ 0 0); [exact (shadows_ask (fun w => (w, conninfo_to_dict dsn)) 0)|].
    intros params. destruct (default None _) as [[|c db]|]; [|apply shadows_ret|].
    all: apply (shadows_bind _ _ _ _ 0 0); [|intros safe; apply shadows_fatal].
    all: apply shadows_lift; intros ex; unfold redact_dsn, url_netloc; repeat case_match; by intros [= <-].
  - intros [mdsn db]. apply ensure_loop_shadows.
Qed.

Lemma version_raises tokens e : version_parts tokens = Raise e -> e = ValueError.
Proof.
  induction tokens as [|t ts IH]; cbn [version_parts]; [done|]. destruct (List.filter isdigit t); [done|]. unfold int_digits.
  destruct (if forallb _ _ then _ else _); cbn [mbind result_bind]; [|by intros [= <-]].
  destruct (version_parts ts); cbn [mbind result_bind]; [done|]. intros [= ->]. by apply IH.
Qed.

Lemma check_shadows : shadows check_server_and_extensions check_server_and_extensions (fine 0).
Proof.
  unfold check_server_and_extensions. apply (shadows_bind _ _ _ _ 0 0); [apply shadows_ask|]. intros row.
  apply (shadows_bind _ _ _ _ 0 0); [apply shadows_lift; intros e; by destruct (int_text row) as [|]; intros [= <-]|]. intros num.
  destruct (num <? MIN_SERVER_VERSION_NUM); [apply shadows_fatal|].
  apply (shadows_bind _ _ _ _ 0 0); [apply shadows_ask|]. intros [[dv iv]|]; [|apply shadows_fatal].
  destruct (if truthy iv then iv else dv) as [v|]; [|by apply shadows_throw].
  apply (shadows_bind _ _ _ _ 0 0); [apply shadows_lift; by intros e ->%version_raises|]. intros ver.
  destruct (tuple_lt ver MIN_PGVECTOR_VERSION); [apply shadows_fatal|apply shadows_ret].
Qed.

Lemma connect_and_check_shadows dsn create attempts :
  shadows (_connect_and_check dsn create attempts) (_connect_and_check dsn create attempts) (fine (attempts * (attempts + 2))).
Proof.
  apply (shadows_weaken _ _ (attempts * (attempts + 2) + 0)); [lia|]. apply shadows_bind; [apply ensure_shadows|].
  intros _. apply check_shadows.
Qed.
End Shadow.


(** ** Waiting for the server *)

Section Waiting.
Context {W : Type} `{!Server W, !Unicode, !UrlTables, !Digits} (dsn mdsn db : ustr).

(** [n] attempts in a row find no database and no reason to create it. *)
Inductive down : nat -> W -> W -> Prop :=
  | down_0 w : down 0 w w
  | down_S n w w1 e w2 a w' : connect dsn w = (w1, Some e) -> _target_database_absent e mdsn db w1 = (w2, Done_ a) -> a <> Some true ->
      down n (sleep w2) w' -> down (S n) w w'.

(** A server that comes up within the attempts is found. *)
Lemma ensure_waits create attempts again : forall n w w' w'' last_error, down n w w' -> connect dsn w' = (w'', None) -> (n < again)%nat ->
  ensure_loop dsn mdsn db create attempts again last_error w = (w'', Done_ tt).
Proof.
  induction again as [|m IH]; intros n w w' w'' last_error Hd Hc Hn; [lia|]. cbn [ensure_loop].
  destruct Hd as [w|n w w1 e w2 a w' C1 C2 Ha Hd]; [by rewrite Hc|]. rewrite C1. unfold mbind, act_bind. rewrite C2.
  destruct m as [|m]; [lia|]. destruct a as [[]|]; [done|..]; cbn [tell]; unfold tell; eapply IH; try done; lia.
Qed.
End Waiting.

(** What the checks let through. *)
Lemma check_passes {W} `{!Server W, !Unicode, !UrlTables, !Digits} (w w' : W) : check_server_and_extensions w = (w', Done_ tt) ->
  exists w1 text num dv iv version ver, server_version_num w = (w1, Some text) /\ int_text text = Some num /\ MIN_SERVER_VERSION_NUM <= num
    /\ vector_extension w1 = (w', Some (Some (dv, iv))) /\ Some version = (if truthy iv then iv else dv)
    /\ _parse_version version = Ok ver /\ tuple_lt ver MIN_PGVECTOR_VERSION = false.
Proof.
  unfold check_server_and_extensions, mbind, act_bind, ask. destruct (server_version_num w) as [w1 [text|]] eqn:E1; [|done].
  destruct (int_text text) as [num|] eqn:E2; cbn [lift]; [|done]. unfold mret, act_ret.
  destruct (Z.ltb_spec num MIN_SERVER_VERSION_NUM) as [|Hn]; [done|].
  destruct (vector_extension w1) as [w2 [[[dv iv]|]|]] eqn:E3; [|done..].
  destruct (if truthy iv then iv else dv) as [version|] eqn:E4; [|done].
  destruct (_parse_version version) as [ver|] eqn:E5; cbn [lift]; [|done]. unfold mret, act_ret.
  destruct (tuple_lt ver MIN_PGVECTOR_VERSION) eqn:E6; [done|]. intros [= <-]. by exists w1, text, num, dv, iv, version, ver.
Qed.

(** ** On a concrete server *)

Section Concrete.
#[local] Instance ascii_text : Unicode := ascii_unicode.
#[local] Instance plain_urls : UrlTables := {| netloc_refused := fun _ => true |}.
#[local] Instance ascii_digits : Digits := {| wide_digit := fun _ => false; wide_int := fun _ => None |}.

(** A server that has its maintenance database, and the target once it is created. *)
#[local] Instance fresh_server : Server bool := {|
  connect dsn w := (w, if negb w && bool_decide (dsn = u "target") then Some (ConnectError.mk None (u "FATAL")) else None);
  sleep w := w; db_exists _ w := (w, Some w); create_database _ _ := (true, Created);
  lock_creation w := w; unlock_creation w := w; lock_migrations w := w; unlock_migrations w := w;
  server_version_num w := (w, Some (u "160004")); vector_extension w := (w, Some (Some (Some (u "0.8.0"), None)));
  ensure_schema_and_extensions _ w := (w, Some tt);
  conninfo_to_dict _ := Some [(u "dbname", Some (u "analyzer"))]; make_conninfo _ := u "maintenance"; text_repr s := s |}.

Example missing_database_created :
  bootstrap_and_migrate_or_exit (fun w => (w, Ok [1; 2])) (u "target") (u "analyzer") true 30 false = (true, Returned [1; 2]).
Proof. vm_compute. reflexivity. Qed.

(** Created on the last attempt, the database is not connected to. *)
Example created_too_late :
  bootstrap_and_migrate_or_exit (fun w => (w, Ok [1; 2])) (u "target") (u "analyzer") true 1 false = (true, SystemExit EXIT_CONNECT).
Proof. vm_compute. reflexivity. Qed.

Example not_created :
  bootstrap_and_migrate_or_exit (fun w => (w, Ok [1; 2])) (u "target") (u "analyzer") false 30 false = (false, SystemExit EXIT_FATAL).
Proof. vm_compute. reflexivity. Qed.

Example versions_parsed : _parse_version <$> [u "0.8.1"; u "0.7.4"; u "0.8.0-dev"; u "v1"] = Ok <$> [[0; 8; 1]; [0; 7; 4]; [0; 8; 0]; [1]].
Proof. vm_compute. reflexivity. Qed.

(** A version of two numbers is below the minimum it names. *)
Example two_numbers_too_old : (fun v => tuple_lt v MIN_PGVECTOR_VERSION) <$> _parse_version (u "0.8") = Ok true.
Proof. vm_compute. reflexivity. Qed.
End Concrete.
