(* ===== verification/Warmup.v ===== *)
(** * Warming the extractor's cache

    [llm/warmup.py] with the tool around it ([tools/warm-extractor-cache/warm.py]): which
    template sets of a project have no fresh extraction, and the engine's run over
    them.  Arguments, printing and the pause between calls are not modelled. *)

From S2P Require Import Prelude PyFloat PyStr Regex PyText PyJson JsonText PyTime Hashing Drain.
From S2P Require Import Breaker LlmQueue LlmEngine LlmRoles Grounding Ingest Models Database.
From S2P Require Import Retrieval Knowledge LlmStores StoreOps Emit RouteHandlers Worker.
From Stdlib Require Import ZArith Lia.

#[local] Open Scope string_scope.
#[local] Open Scope list_scope.
#[local] Open Scope Z_scope.

Import Db (llm_cache, failure_signature, test_item).

Module TemplateSet.
Record t := mk { template_hash : Z; exception_fp : Z; template_ids : list Z; item_id : Z }.
End TemplateSet.

(** ** The two queries *)

Abbreviation setkey := (Z * list Z)%type.

(** [GROUP BY ...], with the largest id of each group. *)
Definition add_member (groups : list (setkey * Z)) (ki : setkey * Z) : list (setkey * Z) :=
  dset ki.1 (match dget ki.1 groups with Some m => Z.max m ki.2 | None => ki.2 end) groups.
Definition newest_by_set (members : list (setkey * Z)) : list (setkey * Z) := fold_left add_member members [].

(** The signatures of the project whose item is there. *)
Definition replayable (p : Z) (d : db) (k : Z * Z) (s : SigRow.t) : bool :=
  (k.1 =? p) && bool_decide (is_Some (test_item d !! k)).
Definition member_of (ks : (Z * Z) * SigRow.t) : setkey * Z :=
  ((SigIn.exception_fp (SigRow.data ks.2), SigIn.template_ids (SigRow.data ks.2)), ks.1.2).
Definition item_desc (a b : setkey * Z) : bool := leb_of (desc a.2 b.2).
Definition TEMPLATE_SETS (p : Z) (d : db) : list (setkey * Z) :=
  pysorted item_desc (newest_by_set (member_of <$> rows_of (replayable p d) (failure_signature d))).

Definition fresh_extraction (now p ttl_days : Z) (k : Z * string) (r : CacheRow.t) : bool :=
  (k.1 =? p) && bool_decide (CacheRow.c_role r = "extractor") && bool_decide (is_Some (CacheRow.c_template r))
  && (now - days ttl_days <=? CacheRow.c_created r).
Definition FRESH_EXTRACTOR_HASHES (now p ttl_days : Z) (d : db) : list Z :=
  omap (fun kr => CacheRow.c_template kr.2) (rows_of (fresh_extraction now p ttl_days) (llm_cache d)).

(** ** The selection *)

Section Warmup.
Context `{!XXHash}.

Definition bounded (limit : option Z) (n : nat) : bool := match limit with Some l => l <=? Z.of_nat n | None => false end.

(** The rows that are left, the hashes seen, the number of sets found. *)
Fixpoint stale_loop (fresh : gset Z) (limit : option Z) (seen : gset Z) (found : nat) (rows : list (setkey * Z)) : list TemplateSet.t :=
  match rows with
  | [] => []
  | ((fp, ids), item) :: rest =>
      if bounded limit found then []
      else
        let thash := extractor_template_hash fp ids in
        if bool_decide (thash ∈ fresh) || bool_decide (thash ∈ seen) then stale_loop fresh limit seen found rest
        else TemplateSet.mk thash fp ids item :: stale_loop fresh limit ({[thash]} ∪ seen) (S found) rest
  end.
Definition stale_template_sets (rows : list (setkey * Z)) (fresh_hashes : list Z) (limit : option Z) : list TemplateSet.t :=
  stale_loop (list_to_set fresh_hashes) limit ∅ 0 rows.

Definition _enumerate (now p : Z) (limit : option Z) (d : db) : list TemplateSet.t :=
  stale_template_sets (TEMPLATE_SETS p d) (FRESH_EXTRACTOR_HASHES now p _EXTRACTOR_TTL_DAYS d) limit.

(** ** Laws *)

Definition hash_of (r : setkey * Z) : Z := extractor_template_hash r.1.1 r.1.2.
Definition set_of (r : setkey * Z) : TemplateSet.t := TemplateSet.mk (hash_of r) r.1.1 r.1.2 r.2.

Lemma stale_loop_spec fresh rows : forall seen found,
  let out := stale_loop fresh None seen found rows in
  NoDup (TemplateSet.template_hash <$> out) /\ (forall th, th ∈ TemplateSet.template_hash <$> out -> th ∉ fresh /\ th ∉ seen)
  /\ (forall r, r ∈ rows -> hash_of r ∈ fresh \/ hash_of r ∈ seen \/ hash_of r ∈ TemplateSet.template_hash <$> out)
  /\ (forall ts, ts ∈ out -> exists r before after, rows = before ++ r :: after /\ ts = set_of r
        /\ forall r', r' ∈ before -> hash_of r' <> hash_of r).
Proof.
  induction rows as [|[[fp ids] item] rows IH]; intros seen found out.
  - split_and!; [constructor|intros th Hx; by apply elem_of_nil in Hx..].
  - subst out. cbn [stale_loop bounded]. set (th := extractor_template_hash fp ids).
    destruct (bool_decide (th ∈ fresh) || bool_decide (th ∈ seen)) eqn:E.
    + assert (th ∈ fresh \/ th ∈ seen) as Hth by (apply orb_true_iff in E as [E|E]; apply bool_decide_eq_true in E; auto).
      destruct (IH seen found) as (Hn & Hf & Hc & Hr). split_and!; [done|done| |].
      * intros r [->|Hin]%elem_of_cons; [unfold hash_of; cbn; fold th; tauto|by apply Hc].
      * intros ts Hts. pose proof (Hf (TemplateSet.template_hash ts) ltac:(apply list_elem_of_fmap; eauto)) as [Hnf Hns].
        destruct (Hr ts Hts) as (r & b & a & -> & -> & Hb).
        exists r, (((fp, ids), item) :: b), a. split_and!; [done|done|]. intros r' [->|Hr']%elem_of_cons; [|by apply Hb].
        unfold set_of in Hnf, Hns. cbn in Hnf, Hns. change (hash_of (fp, ids, item)) with th. intros Heq. rewrite <- Heq in *. tauto.
    + apply orb_false_iff in E as [E1%bool_decide_eq_false E2%bool_decide_eq_false].
      destruct (IH ({[th]} ∪ seen) (S found)) as (Hn & Hf & Hc & Hr). split_and!.
      * rewrite fmap_cons. constructor; [|done]. intros Hin. destruct (Hf _ Hin) as [_ Hs]. set_solver.
      * intros x Hx. rewrite fmap_cons in Hx. apply elem_of_cons in Hx as [->|Hx]; [done|]. destruct (Hf _ Hx). set_solver.
      * intros r [->|Hin]%elem_of_cons; [right; right; rewrite fmap_cons; by left|].
        destruct (Hc r Hin) as [|[Hs|]]; [by left| |right; right; rewrite fmap_cons; by right].
        apply elem_of_union in Hs as [->%elem_of_singleton|]; [right; right; rewrite fmap_cons; by left|auto].
      * intros ts [->|Hts]%elem_of_cons.
        { exists ((fp, ids), item), [], rows. split_and!; [done|done|]. intros r' Hr'. by apply elem_of_nil in Hr'. }
        pose proof (Hf (TemplateSet.template_hash ts) ltac:(apply list_elem_of_fmap; eauto)) as [_ Hns].
        destruct (Hr ts Hts) as (r & b & a & -> & -> & Hb). exists r, (((fp, ids), item) :: b), a. split_and!; [done|done|].
        intros r' [->|Hr']%elem_of_cons; [|by apply Hb]. unfold set_of in Hns. cbn in Hns.
        change (hash_of (fp, ids, item)) with th. intros Heq. rewrite <- Heq in Hns. set_solver.
Qed.

(** The order of the rows is the order of the sets. *)
Definition no_newer (a b : TemplateSet.t) : Prop := TemplateSet.item_id b <= TemplateSet.item_id a.
Definition newer (a b : TemplateSet.t) : Prop := TemplateSet.item_id b < TemplateSet.item_id a.

Lemma stale_loop_sorted fresh rows : StronglySorted (fun a b => item_desc a b = true) rows ->
  forall seen found, StronglySorted no_newer (stale_loop fresh None seen found rows).
Proof.
  induction 1 as [|[[fp ids] item] rows Hs IH Hall]; intros seen found; [constructor|]. cbn [stale_loop bounded].
  destruct (_ || _); [apply IH|]. constructor; [apply IH|]. apply Forall_forall. intros ts Hts.
  destruct (stale_loop_spec fresh rows ({[extractor_template_hash fp ids]} ∪ seen) (S found)) as (_ & _ & _ & Hr).
  destruct (Hr ts Hts) as (r & b & a & E & -> & _). rewrite Forall_forall in Hall.
  specialize (Hall r ltac:(rewrite E; apply elem_of_app; right; by left)). unfold item_desc in Hall. rewrite leb_desc in Hall. by apply Z.leb_le in Hall.
Qed.

Lemma strictly_newer out : StronglySorted no_newer out -> NoDup (TemplateSet.template_hash <$> out) ->
  (forall a b, a ∈ out -> b ∈ out -> TemplateSet.item_id a = TemplateSet.item_id b -> TemplateSet.template_hash a = TemplateSet.template_hash b) ->
  StronglySorted newer out.
Proof.
  induction 1 as [|a out Hs IH Hall]; intros Hn Hfun; [constructor|]. rewrite fmap_cons in Hn. apply NoDup_cons in Hn as [Ha Hn]. constructor.
  - apply IH; [done|]. intros x y Hx Hy. apply Hfun; by right.
  - rewrite Forall_forall in Hall |- *. intros b Hb. specialize (Hall b Hb). unfold newer, no_newer in *.
    destruct (decide (TemplateSet.item_id b = TemplateSet.item_id a)) as [E|]; [|lia]. destruct Ha. apply list_elem_of_fmap. exists b.
    split; [|done]. apply Hfun; [by left|by right|done].
Qed.

(** A limit cuts the list. *)
Lemma stale_loop_limit fresh l rows : forall seen found,
  stale_loop fresh (Some l) seen found rows = take (Z.to_nat l - found) (stale_loop fresh None seen found rows).
Proof.
  induction rows as [|[[fp ids] item] rows IH]; intros seen found; [by destruct (Z.to_nat l - found)%nat|]. cbn [stale_loop bounded].
  destruct (Z.leb_spec l (Z.of_nat found)) as [Hl|Hl].
  - replace (Z.to_nat l - found)%nat with O by lia. by rewrite take_0.
  - destruct (_ || _); [apply IH|]. replace (Z.to_nat l - found)%nat with (S (Z.to_nat l - S found)) by lia. cbn [take firstn]. by rewrite IH.
Qed.

(** What grouping gives: each group once, with its largest item. *)
Definition largest (members : list (setkey * Z)) (k : setkey) (o : option Z) : Prop :=
  match o with
  | Some m => (k, m) ∈ members /\ forall i, (k, i) ∈ members -> i <= m
  | None => forall i, (k, i) ∉ members
  end.

Lemma newest_by_set_spec members : NoDup (newest_by_set members).*1 /\ forall k, largest members k (dget k (newest_by_set members)).
Proof.
  unfold newest_by_set. induction members as [|[k i] members IH] using rev_ind.
  - split; [constructor|]. intros k j Hj. by apply elem_of_nil in Hj.
  - rewrite fold_left_app. cbn [fold_left]. destruct IH as [Hn Hg]. set (g := fold_left add_member members []) in *.
    unfold add_member. cbn [fst snd]. split; [by apply dset_NoDup|]. intros k'.
    assert (forall j, (k', j) ∈ members ++ [(k, i)] <-> (k', j) ∈ members \/ k' = k /\ j = i) as Hin
      by (intros j; rewrite elem_of_app, list_elem_of_singleton; naive_solver).
    specialize (Hg k'). destruct (decide (k = k')) as [->|Hne].
    + rewrite dget_dset_eq. cbn [largest]. destruct (dget k' g) as [m|]; cbn [largest] in Hg.
      * destruct Hg as [Hm Hmax]. split; [rewrite Hin; destruct (Z.max_spec m i) as [[_ ->]|[_ ->]]; auto|].
        intros j [Hj%Hmax|[_ ->]]%Hin; lia.
      * split; [apply Hin; auto|]. intros j [Hj|[_ ->]]%Hin; [by apply Hg in Hj|lia].
    + rewrite dget_dset_ne by done. destruct (dget k' g) as [m|]; cbn [largest] in *.
      * destruct Hg as [Hm Hmax]. split; [apply Hin; auto|]. intros j [Hj|[-> _]]%Hin; [by apply Hmax|done].
      * intros j [Hj|[-> _]]%Hin; [by apply (Hg j)|done].
Qed.

Lemma item_desc_total x y : item_desc x y = false -> item_desc y x = true.
Proof. unfold item_desc. rewrite !leb_desc. lia. Qed.
Lemma item_desc_trans x y z : item_desc x y = true -> item_desc y z = true -> item_desc x z = true.
Proof. unfold item_desc. rewrite !leb_desc. lia. Qed.

(** The rows of the first query: per template set its newest replayable item, the
    newest first. *)
Definition has_set (p : Z) (d : db) (fp : Z) (ids : list Z) (i : Z) : Prop :=
  exists s, failure_signature d !! (p, i) = Some s /\ is_Some (test_item d !! (p, i))
    /\ SigIn.exception_fp (SigRow.data s) = fp /\ SigIn.template_ids (SigRow.data s) = ids.

Lemma grouped_members p d fp ids i :
  ((fp, ids), i) ∈ member_of <$> rows_of (replayable p d) (failure_signature d) <-> has_set p d fp ids i.
Proof.
  rewrite list_elem_of_fmap. split.
  - intros ([[q j] s] & E & [Hs Hr]%elem_of_rows). unfold member_of in E. cbn in E. injection E as -> -> ->.
    unfold replayable in Hr. cbn in Hr. apply andb_true_iff in Hr as [Hq%Z.eqb_eq Hr%bool_decide_eq_true]. subst q. by exists s.
  - intros (s & Hs & Hi & <- & <-). exists ((p, i), s). split; [done|]. apply elem_of_rows. split; [done|].
    unfold replayable. cbn. rewrite Z.eqb_refl. by apply bool_decide_eq_true.
Qed.

Lemma template_sets_spec p d : StronglySorted (fun a b => item_desc a b = true) (TEMPLATE_SETS p d) /\
  forall fp ids i, ((fp, ids), i) ∈ TEMPLATE_SETS p d <-> has_set p d fp ids i /\ forall j, has_set p d fp ids j -> j <= i.
Proof.
  destruct (newest_by_set_spec (member_of <$> rows_of (replayable p d) (failure_signature d))) as [Hn Hl].
  set (g := newest_by_set _) in *. split.
  - exact (pysorted_sorted item_desc item_desc_total item_desc_trans g).
  - intros fp ids i. unfold TEMPLATE_SETS. fold g. rewrite elem_of_pysorted. specialize (Hl (fp, ids)).
    rewrite <- (grouped_members p d). setoid_rewrite <- (grouped_members p d). split.
    + intros Hin. rewrite (elem_dget _ _ _ Hn Hin) in Hl. exact Hl.
    + intros [Hin Hmax]. destruct (dget (fp, ids) g) as [m|] eqn:E; [|by apply Hl in Hin].
      destruct Hl as [Hm Hmm]. apply dget_elem. rewrite E. f_equal. apply Hmm in Hin. apply Hmax in Hm. lia.
Qed.

Lemma fresh_spec now p ttl d th : th ∈ FRESH_EXTRACTOR_HASHES now p ttl d <->
  exists key r, llm_cache d !! (p, key) = Some r /\ CacheRow.c_role r = "extractor" /\ CacheRow.c_template r = Some th
    /\ now - days ttl <= CacheRow.c_created r.
Proof.
  unfold FRESH_EXTRACTOR_HASHES. rewrite list_elem_of_omap. split.
  - intros ([[q key] r] & [Hr Hf]%elem_of_rows & Ht). unfold fresh_extraction in Hf. cbn in Hf, Ht.
    rewrite !andb_true_iff in Hf. destruct Hf as [[[Hq%Z.eqb_eq Hrole%bool_decide_eq_true] _] Hc%Z.leb_le]. subst q. by exists key, r.
  - intros (key & r & Hr & Hrole & Ht & Hc). exists ((p, key), r). split; [|done]. apply elem_of_rows. split; [done|].
    unfold fresh_extraction. cbn. rewrite Z.eqb_refl, Ht. rewrite !bool_decide_eq_true_2 by done. by apply Z.leb_le.
Qed.

(** A replayable item with that hash. *)
Definition replays_as (p : Z) (d : db) (th i : Z) : Prop := exists fp ids, extractor_template_hash fp ids = th /\ has_set p d fp ids i.
Definition is_fresh (now p : Z) (d : db) (th : Z) : Prop := th ∈ FRESH_EXTRACTOR_HASHES now p _EXTRACTOR_TTL_DAYS d.

(** C36. The warm-up finds what the features miss.  Without a limit, the enumeration
    lists each hash of the project that some item - whose signature and row are both
    there - has and no fresh extractor row of the project has, once, with the newest
    such item as its representative and that item's own template set, the newest
    first; with a limit it lists the first so many; and a set whose extraction is
    stored now is not listed while it is fresh. *)
Theorem warmup_exact (now p : Z) (d : db) :
  let out := _enumerate now p None d in
  NoDup (TemplateSet.template_hash <$> out) /\ StronglySorted newer out
  /\ (forall th i, (exists ts, ts ∈ out /\ TemplateSet.template_hash ts = th /\ TemplateSet.item_id ts = i) <->
        replays_as p d th i /\ ~ is_fresh now p d th /\ forall j, replays_as p d th j -> j <= i)
  /\ (forall ts, ts ∈ out -> has_set p d (TemplateSet.exception_fp ts) (TemplateSet.template_ids ts) (TemplateSet.item_id ts)
        /\ TemplateSet.template_hash ts = extractor_template_hash (TemplateSet.exception_fp ts) (TemplateSet.template_ids ts))
  /\ (forall l, _enumerate now p (Some l) d = take (Z.to_nat l) out)
  /\ (forall now' key model output th, now' <= now + days _EXTRACTOR_TTL_DAYS ->
        forall ts, ts ∈ _enumerate now' p None (LlmStores.put now p key "extractor" model output (Some th) d) -> TemplateSet.template_hash ts <> th).
Proof.
  cbv zeta. destruct (template_sets_spec p d) as [Hsort Hrows].
  destruct (stale_loop_spec (list_to_set (FRESH_EXTRACTOR_HASHES now p _EXTRACTOR_TTL_DAYS d)) (TEMPLATE_SETS p d) ∅ 0) as (Hn & Hf & Hc & Hr).
  assert (forall th i, replays_as p d th i -> exists r, r ∈ TEMPLATE_SETS p d /\ hash_of r = th /\ i <= r.2) as Hrep.
  { intros th i (fp & ids & <- & Hs).
    destruct (newest_by_set_spec (member_of <$> rows_of (replayable p d) (failure_signature d))) as [_ Hl]. specialize (Hl (fp, ids)).
    destruct (dget (fp, ids) _) as [m|] eqn:E; [|apply grouped_members in Hs; by apply Hl in Hs]. destruct Hl as [Hm Hmax].
    exists ((fp, ids), m). split_and!; [|done|by apply Hmax, grouped_members]. unfold TEMPLATE_SETS. rewrite elem_of_pysorted. by apply dget_elem. }
  assert (forall r, r ∈ TEMPLATE_SETS p d -> replays_as p d (hash_of r) r.2) as Hback.
  { intros [[fp ids] i] Hin%Hrows. exists fp, ids. split; [done|]. by destruct Hin. }
  assert (forall ts, ts ∈ stale_loop (list_to_set (FRESH_EXTRACTOR_HASHES now p _EXTRACTOR_TTL_DAYS d)) None ∅ 0 (TEMPLATE_SETS p d) ->
    exists r, ts = set_of r /\ r ∈ TEMPLATE_SETS p d /\ forall r', r' ∈ TEMPLATE_SETS p d -> hash_of r' = hash_of r -> r'.2 <= r.2) as Hfirst.
  { intros ts Hts. destruct (Hr ts Hts) as (r & b & a & Erows & -> & Hb). exists r. rewrite Erows in Hsort |- *. split_and!; [done| |].
    - apply elem_of_app. right. by left.
    - intros r' [Hr'|[->|Hr']%elem_of_cons]%elem_of_app Hh; [by apply Hb in Hr'|done|].
      apply StronglySorted_app_1_r, StronglySorted_inv in Hsort as [_ Hall]. rewrite Forall_forall in Hall.
      apply Hall in Hr'. unfold item_desc in Hr'. rewrite leb_desc in Hr'. lia. }
  assert (forall ts, ts ∈ stale_loop (list_to_set (FRESH_EXTRACTOR_HASHES now p _EXTRACTOR_TTL_DAYS d)) None ∅ 0 (TEMPLATE_SETS p d) ->
    has_set p d (TemplateSet.exception_fp ts) (TemplateSet.template_ids ts) (TemplateSet.item_id ts)
    /\ TemplateSet.template_hash ts = extractor_template_hash (TemplateSet.exception_fp ts) (TemplateSet.template_ids ts)) as Hown.
  { intros ts Hts. destruct (Hfirst ts Hts) as ([[fp ids] i] & -> & Hin & _). split; [|done]. by apply Hrows in Hin as []. }
  split_and!; [exact Hn| | |exact Hown| |].
  - apply strictly_newer; [by apply stale_loop_sorted|exact Hn|]. intros a b [(sa & Ea & _ & Ha1 & Ha2) ->]%Hown [(sb & Eb & _ & Hb1 & Hb2) ->]%Hown E.
    rewrite E, Eb in Ea. injection Ea as ->. by rewrite <- Ha1, <- Ha2, <- Hb1, <- Hb2.
  - intros th i. split.
    + intros (ts & Hts & <- & <-). destruct (Hf _ ltac:(apply list_elem_of_fmap; eauto)) as [Hnf _].
      destruct (Hfirst ts Hts) as (r & -> & Hin & Hmax). cbn.
      split_and!; [by apply Hback|intros Hfr; apply Hnf; cbn; by apply elem_of_list_to_set|].
      intros j (r' & Hr' & Hh & Hj)%Hrep. specialize (Hmax r' Hr' Hh). lia.
    + intros (Hrp & Hnf & Hmax). destruct (Hrep th i Hrp) as (r & Hin & <- & Hi).
      destruct (Hc r Hin) as [Hx|[Hx|Hx]]; [by apply elem_of_list_to_set in Hx|by apply elem_of_empty in Hx|].
      apply list_elem_of_fmap in Hx as (ts & Eh & Hts). exists ts. split_and!; [done|done|].
      destruct (Hfirst ts Hts) as (r' & -> & Hin' & Hge). cbn in *. specialize (Hge r Hin Eh).
      specialize (Hback r' Hin'). rewrite <- Eh in Hback. specialize (Hmax r'.2 Hback). lia.
  - intros l. unfold _enumerate, stale_template_sets. rewrite stale_loop_limit. by rewrite Nat.sub_0_r.
  - intros now' key model output th Hnow ts Hts Eh. unfold _enumerate, stale_template_sets in Hts.
    match type of Hts with context [stale_loop ?f None ?s ?n ?r] => destruct (stale_loop_spec f r s n) as (_ & Hf' & _) end.
    destruct (Hf' (TemplateSet.template_hash ts) ltac:(apply list_elem_of_fmap; eauto)) as [Hx _]. apply Hx, elem_of_list_to_set, fresh_spec.
    rewrite Eh. exists key. eexists. cbn. rewrite lookup_insert_eq. split; [done|]. cbn. split_and!; [done|done|lia].
Qed.
End Warmup.

(** ** The tool *)

Section Tool.
Context `{!PgVector, !Unicode, !XXHash, !PyRepr, !Heapq}.
Context (tick : Z -> Z) (outage : nat -> option pyexn) (bp : CircuitBreaker.params) (e : env).
Context (wording : string -> dict -> dict -> ustr -> string * string) (py_float : json -> result pyfloat).
Abbreviation M := (M service effect).

(** One outcome per set, and whether the circuit opened. *)
Fixpoint warm_loop (p : Z) (stale : list TemplateSet.t) : M (list string * bool) :=
  match stale with
  | [] => mret ([], false)
  | ts :: rest =>
      inp ← load_facts tick outage py_float "extractor" p (TemplateSet.item_id ts) [];
      match inp with
      | None => r ← warm_loop p rest; mret ("skipped_no_facts" :: r.1, r.2)
      | Some inp =>
          res ← engine_run tick outage bp e (ExtractorRole wording) p (TemplateSet.item_id ts) inp;
          let o := RoleResult.outcome res in
          if bool_decide (o = OBreakerOpen) then mret ([outcome_name o], true)
          else r ← warm_loop p rest; mret (outcome_name o :: r.1, r.2)
      end
  end.

(** [main]: the exit code and the outcomes; [probe] is what the model server answers. *)
Definition warm_main (p limit : Z) (dry_run : bool) (probe : bool * bool) : M (Z * list string) :=
  stale ← reached tick outage (fun now => read (fun s => _enumerate now p (Some limit) (Service.store s)));
  if dry_run then mret (0, [])
  else match stale with
       | [] => mret (0, [])
       | _ => if negb (probe.1 && probe.2) then mret (2, [])
              else r ← warm_loop p stale; mret (if r.2 : bool then 1 else 0, r.1)
       end.
End Tool.

(** ** At work *)

Module WarmExample.
#[local] Existing Instances toy_vectors sorted_heapq.
#[local] Instance no_tables : Unicode := ascii_unicode.
#[local] Instance a_hash : XXHash := toy_hash.
#[local] Instance a_repr : PyRepr := {| float_repr := fun _ => u "0.5"; container_repr := fun _ => [] |}.

(** Item 22 fails with the text of item 20 and another template. *)
Definition another_template : SigIn.t :=
  SigIn.mk 2 22 11 12 [u "App.run"] [14] (u "TypeError") (u "boom at App.run") (u "App.run") [] [u "500"] None 0 None.
Definition three_failures : list StoreOps.op :=
  Example.two_failures ++ [UpsertItems 9 [Example.stored_test 22 5 None]; UpsertSignatures [another_template]].
Definition extractor_says : dict :=
  [("root_exception", JNull); ("wrapper_chain", JList []); ("failing_layer", jstr "infrastructure"); ("error_class", jstr "other"); ("components", JList [])].
Definition warmed (s : service) : Emit.world service effect * result (Z * list string) :=
  warm_main Z.succ Example.answered default_params (wenv (Example.says extractor_says)) Example.plain_words Example.float_only
    2 200 false (true, true) (mk_world s []).

Example sets_listed : TemplateSet.item_id <$> _enumerate 10 2 None (Service.store (Example.served three_failures)) = [22; 21].
Proof. vm_compute. reflexivity. Qed.

Example one_set_warmed :
  let w := warmed (Example.served Example.two_failures) in
  w.2 = Ok (0, ["ok"]) /\ _enumerate 2000 2 None (Service.store (st w.1)) = [].
Proof. vm_compute. done. Qed.

(** Both calls end well, the second as a cache hit; its template set stays without an
    extraction, however often the warm-up runs. *)
Lemma hit_never_heals :
  let w := warmed (Example.served three_failures) in
  let again := warmed (st w.1) in
  w.2 = Ok (0, ["ok"; "ok"]) /\ again.2 = Ok (0, ["ok"])
  /\ TemplateSet.item_id <$> _enumerate 2000 2 None (Service.store (st w.1)) = [21]
  /\ TemplateSet.item_id <$> _enumerate 2000 2 None (Service.store (st again.1)) = [21].
Proof. vm_compute. done. Qed.
End WarmExample.
