(* ===== verification/Client.v ===== *)
(** * The client of the model server

    [llm/client.py]: the requests of the two dialects, how a reply is read, the probe
    and the warm-up call.  What travels is JSON; whether a call comes back with a
    decoded body, or not at all - a network error, a time-out, a status other than
    success, a body that is not JSON - is the server's choice. *)

From S2P Require Import Prelude PyFloat PyStr Regex RegexTheory PyText PyJson UrlCodec JsonText PyNum.
From S2P Require Import Breaker LlmQueue LlmSchema LlmEngine Worker.
From Stdlib Require Import ZArith Lia.

#[local] Open Scope string_scope.
#[local] Open Scope list_scope.
#[local] Open Scope Z_scope.

Definition LlmTransportError : pyexn := OtherError "LlmTransportError".

Module ChatResponse.
Record t := mk { content : ustr; tool_calls : json; latency_ms : Z; finish_reason : json }.
End ChatResponse.

Module ProbeResult.
Record t := mk { reachable : bool; model_present : bool; version : json }.
End ProbeResult.

Module OllamaClient.
Record t := mk { base_url : ustr; model : ustr; api : ustr; num_ctx : Z }.
End OllamaClient.
Abbreviation client := OllamaClient.t.

Definition SLASH : N := 47%N.
Definition make_client (base_url model api : ustr) (num_ctx : Z) : client :=
  OllamaClient.mk (urstrip (N.eqb SLASH) base_url) model api num_ctx.

(** ** The leading think block *)

Section Strip.
Context `{!Unicode}.

(** With [re.DOTALL] the dot is any character. *)
Definition _THINK_BLOCK_RE : pattern := compile "^\s*<think>[\s\S]*?</think>\s*".

(** [sub] with an empty replacement and a count of one. *)
Definition _strip_think (text : ustr) : ustr :=
  match scan _THINK_BLOCK_RE false [] text with
  | Some (gap, _, st) => gap ++ m_suf st
  | None => text
  end.

Definition _is_qwen3 (model : ustr) : bool := bool_decide (take 5 (ulower model) = u "qwen3").
End Strip.

(** ** Reading JSON the way the code does *)

(** [x.get], [x[k]] and [x[0]] of what [json.loads] returns. *)
Definition obj_of (j : json) : result (list (string * json)) := match j with JObj d => Ok d | _ => Raise AttributeError end.
Definition item_of (k : string) (j : json) : result json := match j with JObj d => jindex k d | _ => Raise TypeError end.
Definition first_of (j : json) : result json :=
  match j with
  | JList (x :: _) => Ok x
  | JList [] | JStr [] => Raise IndexError
  | JStr (c :: _) => Ok (JStr [c])
  | JObj _ => Raise (KeyError "0")
  | _ => Raise TypeError
  end.

(** ** Requests and replies *)

Section Client.
Context `{!Unicode, !PyRepr}.
Context (get : string -> option json) (post : string -> json -> option json).
(** What [time.monotonic] says before and after a call. *)
Context (started finished : pyfloat).

Definition message (role : string) (content : ustr) : json := JObj [("role", jstr role); ("content", JStr content)].

Definition native_body (c : client) (messages : list json) (schema : option json) (num_predict seed : Z) : json :=
  JObj ([("model", JStr (OllamaClient.model c)); ("messages", JList messages); ("think", JBool false); ("stream", JBool false);
         ("options", JObj [("num_ctx", JInt (OllamaClient.num_ctx c)); ("num_predict", JInt num_predict); ("temperature", JInt 0); ("seed", JInt seed)])]
        ++ match schema with Some s => [("format", s)] | None => [] end).

Definition openai_body (c : client) (messages : list json) (schema : option json) (num_predict seed : Z) : json :=
  JObj ([("model", JStr (OllamaClient.model c)); ("messages", JList messages); ("temperature", JInt 0); ("seed", JInt seed); ("max_tokens", JInt num_predict)]
        ++ match schema with
           | Some s => [("response_format", JObj [("type", jstr "json_schema");
                           ("json_schema", JObj [("name", jstr "role_output"); ("schema", s); ("strict", JBool true)])])]
           | None => []
           end).

Definition latency : result Z := py_int (JFloat (fmul (fsub finished started) (of_Z 1000))).

Definition _post_native (c : client) (messages : list json) (schema : option json) (num_predict seed : Z) : result ChatResponse.t :=
  match post "/api/chat" (native_body c messages schema num_predict seed) with
  | None => Raise LlmTransportError
  | Some payload =>
      latency_ms ← latency;
      d ← obj_of payload;
      match jget "message" d with
      | JObj m =>
          match dget "content" m with
          | Some content => mret (ChatResponse.mk (_strip_think (py_str content)) (jget "tool_calls" m) latency_ms (jget "done_reason" d))
          | None => Raise LlmTransportError
          end
      | _ => Raise LlmTransportError
      end
  end.

(** [except (..., ValueError, KeyError, IndexError)]. *)
Definition as_transport {A} (r : result A) : result A :=
  match r with Raise (ValueError | KeyError _ | IndexError) => Raise LlmTransportError | _ => r end.

Definition text_or_empty (j : json) : json := if truthy j then j else JStr [].

Definition _post_openai (c : client) (messages : list json) (schema : option json) (num_predict seed : Z) : result ChatResponse.t :=
  match post "/v1/chat/completions" (openai_body c messages schema num_predict seed) with
  | None => Raise LlmTransportError
  | Some payload =>
      picked ← as_transport (choices ← item_of "choices" payload; choice_obj ← first_of choices; choice ← item_of "message" choice_obj; mret (choice_obj, choice));
      latency_ms ← latency;
      choice ← obj_of picked.2;
      choice_obj ← obj_of picked.1;
      mret (ChatResponse.mk (_strip_think (py_str (text_or_empty (jget "content" choice)))) (jget "tool_calls" choice) latency_ms (jget "finish_reason" choice_obj))
  end.

Definition is_openai (c : client) : bool := bool_decide (OllamaClient.api c = u "openai").

Definition post_messages (c : client) (messages : list json) (schema : option json) (num_predict seed : Z) : result ChatResponse.t :=
  if is_openai c then _post_openai c messages schema num_predict seed else _post_native c messages schema num_predict seed.

Definition system_prompt (c : client) (system : ustr) : ustr :=
  if _is_qwen3 (OllamaClient.model c) then system ++ [10%N] ++ u "/no_think" else system.

Definition chat (c : client) (system user : ustr) (schema : json) (num_predict seed : Z) : result ChatResponse.t :=
  post_messages c [message "system" (system_prompt c system); message "user" user] (Some schema) num_predict seed.

Definition warmup (c : client) : result unit := _ ← post_messages c [message "user" (u "ping")] None 1 7; mret tt.

(** ** The probe *)

(** [self._model in names or the tagged name in names]. *)
Definition model_listed (c : client) (names : list json) : bool :=
  bool_decide (JStr (OllamaClient.model c) ∈ names) || bool_decide (JStr (OllamaClient.model c ++ u ":latest") ∈ names).

Definition absent : ProbeResult.t := ProbeResult.mk false false JNull.

(** The names of a listing: an entry that is no object raises; so does a name no set can hold. *)
Definition native_names (tags : json) : result (list json) :=
  d ← obj_of tags;
  models ← py_iter (dgetd "models" (JList []) d);
  rmapM (fun m => e ← obj_of m; let name := jget "name" e in if hashable name then Ok name else Raise TypeError) models.
Definition openai_names (listing : json) : result (list json) :=
  d ← obj_of listing;
  data ← py_iter (dgetd "data" (JList []) d);
  rmapM (fun m => e ← obj_of m; Ok (JStr (py_str (dgetd "id" (JStr []) e)))) data.

Definition probe (c : client) : result ProbeResult.t :=
  if is_openai c then
    match get "/v1/models" with
    | None => Ok absent
    | Some listing => names ← openai_names listing; mret (ProbeResult.mk true (model_listed c names) JNull)
    end
  else
    match get "/api/version" with
    | None => Ok absent
    | Some ver =>
        v ← obj_of ver;
        let version := jget "version" v in
        match get "/api/tags" with
        | None => Ok absent
        | Some tags => names ← native_names tags; mret (ProbeResult.mk true (model_listed c names) version)
        end
    end.
End Client.

(** ** How the think pattern matches *)

Section StripLaws.
Context `{!Unicode}.
Notation fl := (mk_flags false false).

Definition step (c : N) (s : ustr) (st : mst) : mst := mk_mst (c :: m_pre st) s (m_caps st).

(** One round of a repeated character class. *)
Lemma rep_class_step g neg items st :
  matches fl (Rep g 0 None (Cls neg items)) st =
  match m_suf st with
  | c :: s =>
      if cls_matches fl neg items c
      then let more := matches fl (Rep g 0 None (Cls neg items)) (step c s st) in if g then more ++ [st] else st :: more
      else [st]
  | [] => [st]
  end.
Proof.
  destruct st as [pre suf caps]. unfold step. cbn [matches m_suf m_pre m_caps Nat.add].
  set (m := eat (cls_matches fl neg items)). destruct suf as [|c s]; [by destruct g|].
  change (length (c :: s)) with (S (length s)). cbn [rep_loop pred fmap option_fmap option_map].
  assert (m (mk_mst pre (c :: s) caps) = if cls_matches fl neg items c then [mk_mst (c :: pre) s caps] else []) as -> by done.
  destruct (cls_matches fl neg items c); [|by destruct g]. cbn [mbind list_bind m_suf]. rewrite app_nil_r.
  change (length (c :: s)) with (S (length s)). rewrite (proj2 (Nat.ltb_lt _ _)) by lia. by destruct g.
Qed.

(** A literal word, then the rest. *)
Definition word (w : ustr) (r : re) : re := foldr (fun c r => Cat (chr c) r) r w.
Fixpoint read (w : ustr) (st : mst) : option mst :=
  match w with
  | [] => Some st
  | a :: w => match m_suf st with c :: s => if (a =? c)%N then read w (step c s st) else None | [] => None end
  end.
Lemma matches_word w r : forall st, matches fl (word w r) st = match read w st with Some st' => matches fl r st' | None => [] end.
Proof.
  induction w as [|a w IH]; intros st; [done|]. cbn [word foldr read]. fold (word w r). cbn [matches chr]. unfold eat, chr. cbn [matches]. unfold eat.
  destruct (m_suf st) as [|c s]; [done|]. unfold cls_matches. cbn [existsb item_matches f_icase xorb]. rewrite orb_false_r.
  change (xorb false ?b) with b. destruct (a =? c)%N; cbn; [|done]. unfold step. by rewrite IH, app_nil_r.
Qed.
Lemma read_spec w : forall st, read w st = if starts (m_suf st) w then Some (mk_mst (rev (take (length w) (m_suf st)) ++ m_pre st) (drop (length w) (m_suf st)) (m_caps st)) else None.
Proof.
  induction w as [|a w IH]; intros [pre suf caps]; [by cbn; rewrite ?drop_0|]. cbn [read m_suf].
  destruct suf as [|c s]; [done|]. unfold starts. cbn [length take firstn drop skipn m_pre m_caps].
  destruct (N.eqb_spec a c) as [->|Hne].
  - rewrite IH. unfold step, starts. cbn [m_suf m_pre m_caps rev]. rewrite <- app_assoc. cbn [app].
    replace (bool_decide (c :: take (length w) s = c :: w)) with (bool_decide (take (length w) s = w)); [done|].
    apply bool_decide_ext. split; congruence.
  - rewrite bool_decide_eq_false_2 by congruence. done.
Qed.

Definition ws : re := Cls false [CSpace false].
Lemma ws_char c : cls_matches fl false [CSpace false] c = uspace c.
Proof. unfold cls_matches. cbn. by destruct (uspace c). Qed.
Lemma any_char c : cls_matches fl false [CSpace false; CSpace true] c = true.
Proof. unfold cls_matches. cbn. by destruct (uspace c). Qed.

(** Leading white space is gone over in one way if what follows cannot start with it. *)
Lemma leading_ws (K : mst -> list mst) : (forall c s pre caps, uspace c = true -> K (mk_mst pre (c :: s) caps) = []) ->
  forall s pre caps, exists pre', matches fl (Rep true 0 None ws) (mk_mst pre s caps) ≫= K = K (mk_mst pre' (ulstrip uspace s) caps).
Proof.
  intros HK. induction s as [|c s IH]; intros pre caps; unfold ws; rewrite rep_class_step; cbn [m_suf ulstrip].
  - exists pre. cbn. by rewrite app_nil_r.
  - rewrite ws_char. destruct (uspace c) eqn:E; [|exists pre; cbn; by rewrite app_nil_r].
    cbn zeta. rewrite bind_app. cbn [mbind list_bind]. rewrite (HK c s pre caps E), !app_nil_r. apply (IH (c :: pre) caps).
Qed.

(** Trailing white space is taken as far as it goes. *)
Lemma trailing_ws s : forall pre caps, m_suf <$> head (matches fl (Rep true 0 None ws) (mk_mst pre s caps)) = Some (ulstrip uspace s).
Proof.
  induction s as [|c s IH]; intros pre caps; unfold ws; rewrite rep_class_step; cbn [m_suf ulstrip]; [done|].
  rewrite ws_char. destruct (uspace c); [|done]. cbn zeta. specialize (IH (c :: pre) caps). unfold ws in IH.
  unfold step. cbn [m_pre m_caps]. by destruct (matches fl _ _).
Qed.

(** What follows the first closing tag. *)
Definition THINK : ustr := u "<think>".
Definition CLOSE : ustr := u "</think>".
Fixpoint after_close (s : ustr) : option ustr :=
  if starts s CLOSE then Some (drop (length CLOSE) s) else match s with [] => None | _ :: s' => after_close s' end.

Lemma first_close s : forall pre caps,
  m_suf <$> head (matches fl (Rep false 0 None (Cls false [CSpace false; CSpace true])) (mk_mst pre s caps) ≫= matches fl (word CLOSE (Rep true 0 None ws)))
  = ulstrip uspace <$> after_close s.
Proof.
  induction s as [|c s IH]; intros pre caps; rewrite rep_class_step; cbn [m_suf after_close].
  - cbn [mbind list_bind]. rewrite app_nil_r, matches_word, read_spec. cbn [m_suf m_pre m_caps]. by destruct (starts [] CLOSE) eqn:E.
  - rewrite any_char. cbn zeta. cbn [mbind list_bind]. rewrite matches_word, read_spec. cbn [m_suf m_pre m_caps].
    destruct (starts (c :: s) CLOSE); [|apply (IH (c :: pre) caps)].
    pose proof (trailing_ws (drop (length CLOSE) (c :: s)) (rev (take (length CLOSE) (c :: s)) ++ pre) caps) as Ht.
    destruct (matches fl (Rep true 0 None ws) _); [done|]. exact Ht.
Qed.

(** The block, read by hand. *)
Definition without_think (text : ustr) : ustr :=
  let t := ulstrip uspace text in
  if starts t THINK then match after_close (drop (length THINK) t) with Some rest => ulstrip uspace rest | None => text end else text.

Lemma all_kept {A} (l : list A) (f : A -> bool) : head (List.filter (fun x => negb false || f x) l) = head l.
Proof. by destruct l. Qed.

Lemma think_shape : p_re _THINK_BLOCK_RE = Cat (Ast Bos) (Cat (Rep true 0 None ws)
  (word THINK (Cat (Rep false 0 None (Cls false [CSpace false; CSpace true])) (word CLOSE (Rep true 0 None ws))))).
Proof. vm_compute. reflexivity. Qed.

Lemma not_at_start s : forall c pre, scan _THINK_BLOCK_RE false (c :: pre) s = None.
Proof.
  assert (forall c pre s, match_at _THINK_BLOCK_RE false (c :: pre) s = None) as Hat.
  { intros c pre s'. unfold match_at. rewrite think_shape. change (p_flags _THINK_BLOCK_RE) with fl. by cbn. }
  induction s as [|d s IH]; intros c pre; cbn [scan]; rewrite Hat; [done|]. by rewrite IH.
Qed.

Lemma strip_think_exact text : _strip_think text = without_think text.
Proof.
  unfold _strip_think, without_think.
  set (K := matches fl (word THINK (Cat (Rep false 0 None (Cls false [CSpace false; CSpace true])) (word CLOSE (Rep true 0 None ws))))).
  assert (m_suf <$> match_at _THINK_BLOCK_RE false [] text =
    if starts (ulstrip uspace text) THINK then ulstrip uspace <$> after_close (drop (length THINK) (ulstrip uspace text)) else None) as Hm.
  { unfold match_at. rewrite think_shape. change (p_flags _THINK_BLOCK_RE) with fl.
    rewrite all_kept.
    assert (forall r, matches fl (Cat (Ast Bos) r) (here [] text) = matches fl r (here [] text)) as -> by (intros r; cbn; by rewrite app_nil_r).
    match goal with |- context [head ?l] => change l with (matches fl (Rep true 0 None ws) (here [] text) ≫= K) end. unfold here.
    destruct (leading_ws K) with (s := text) (pre := @nil N) (caps := @nil (nat * ustr)) as [pre' Hws].
    { intros c s pre caps Hc. unfold K. rewrite matches_word, read_spec. cbn [m_suf]. destruct (starts (c :: s) THINK) eqn:E; [|done].
      apply starts_spec in E as [r [= -> _]]. by vm_compute in Hc. }
    rewrite Hws. unfold K. rewrite matches_word, read_spec. cbn [m_suf m_pre m_caps]. destruct (starts (ulstrip uspace text) THINK); [|done]. apply first_close. }
  destruct (match_at _THINK_BLOCK_RE false [] text) as [st|] eqn:E.
  - assert (scan _THINK_BLOCK_RE false [] text = Some ([], match_of text [] st, st)) as -> by (destruct text; cbn [scan]; by rewrite E).
    cbn in Hm. destruct (starts _ _); [|done]. destruct (after_close _); [|done]. by injection Hm.
  - assert (scan _THINK_BLOCK_RE false [] text = None) as -> by (destruct text; cbn [scan]; rewrite E; [done|by rewrite not_at_start]).
    cbn in Hm. destruct (starts _ _); [|done]. by destruct (after_close _).
Qed.
End StripLaws.

(** ** What a turn is read as *)

Section ReplyLaws.
Context `{!Unicode, !PyRepr}.
Context (get : string -> option json) (post : string -> json -> option json) (started finished : pyfloat).
Notation chat := (chat post started finished).

(** The text, the tool calls and the stop reason a body holds, as its dialect writes
    them. *)
Definition turn (c : client) (payload : json) (text : ustr) (calls finish : json) : Prop :=
  exists (d m : dict), payload = JObj d /\
  if is_openai c then
    exists (ch : dict) (rest : list json), dget "choices" d = Some (JList (JObj ch :: rest)) /\ dget "message" ch = Some (JObj m)
      /\ text = py_str (text_or_empty (jget "content" m)) /\ calls = jget "tool_calls" m /\ finish = jget "finish_reason" ch
  else
    exists x, jget "message" d = JObj m /\ dget "content" m = Some x
      /\ text = py_str x /\ calls = jget "tool_calls" m /\ finish = jget "done_reason" d.

(** A body of the right shape with the answer missing. *)
Definition incomplete (c : client) (payload : json) : Prop :=
  exists d : dict, payload = JObj d /\
  if is_openai c then
    match dget "choices" d with
    | None | Some (JList []) | Some (JStr []) | Some (JObj _) => True
    | Some (JList (JObj ch :: _)) => dget "message" ch = None
    | _ => False
    end
  else match jget "message" d with JObj m => dget "content" m = None | _ => True end.

Definition path (c : client) : string := if is_openai c then "/v1/chat/completions" else "/api/chat".
Definition body (c : client) (messages : list json) (schema : option json) (num_predict seed : Z) : json :=
  if is_openai c then openai_body c messages schema num_predict seed else native_body c messages schema num_predict seed.

(** The two messages of a turn. *)
Definition conversation (c : client) (system user : ustr) : list json :=
  [message "system" (system_prompt c system); message "user" user].

#[local] Ltac shaped E := right; split; [by eauto|intros (d0 & Hd & Hi); injection Hd as <-; rewrite E in Hi; first [done|congruence]].

Lemma read_reply c messages schema np seed payload ms : latency started finished = Ok ms ->
  post (path c) (body c messages schema np seed) = Some payload ->
  match post_messages post started finished c messages schema np seed with
  | Ok r => exists text calls finish, turn c payload text calls finish /\ r = ChatResponse.mk (_strip_think text) calls ms finish
  | Raise e => (e = LlmTransportError /\ incomplete c payload) \/ ((e = AttributeError \/ e = TypeError) /\ ~ incomplete c payload)
  end.
Proof.
  intros Hms. unfold post_messages, path, body, turn, incomplete. destruct (is_openai c).
  - intros Hp. unfold _post_openai. rewrite Hp, Hms. destruct payload as [| | | | | |d]; try (right; naive_solver).
    unfold item_of at 2, jindex. cbn [as_transport]. destruct (dget "choices" d) as [ch|] eqn:Ed; [|left; split; [done|]; exists d; by rewrite Ed].
    destruct ch as [| | | |[|x s]|[|x l]|dd]; cbn; try shaped Ed; try (left; split; [done|]; exists d; by rewrite Ed).
    destruct x as [| | | | | |ch]; cbn; try shaped Ed.
    unfold jindex. destruct (dget "message" ch) as [m|] eqn:Em; cbn; [|left; split; [done|]; exists d; by rewrite Ed].
    destruct m as [| | | | | |m]; cbn; try shaped Ed.
    eexists _, _, _. split; [|reflexivity]. exists d, m. split; [done|]. exists ch, l. done.
  - intros Hp. unfold _post_native. rewrite Hp, Hms. destruct payload as [| | | | | |d]; try (right; naive_solver).
    cbn. destruct (jget "message" d) as [| | | | | |m] eqn:Em; try (left; split; [done|]; exists d; by rewrite Em).
    destruct (dget "content" m) as [x|] eqn:Ex; [|left; split; [done|]; exists d; by rewrite Em].
    eexists _, _, _. split; [|reflexivity]. exists d, m. split; [done|]. by exists x.
Qed.

Lemma turn_functional c payload t1 c1 f1 t2 c2 f2 : turn c payload t1 c1 f1 -> turn c payload t2 c2 f2 -> t1 = t2 /\ c1 = c2 /\ f1 = f2.
Proof.
  intros (d & m & -> & H1) (d' & m' & Hd & H2). injection Hd as <-. destruct (is_openai c).
  - destruct H1 as (ch & r & E & Em & -> & -> & ->), H2 as (ch' & r' & E' & Em' & -> & -> & ->).
    rewrite E in E'. injection E' as <- _. rewrite Em in Em'. by injection Em' as <-.
  - destruct H1 as (x & E & Ex & -> & -> & ->), H2 as (x' & E' & Ex' & -> & -> & ->).
    rewrite E in E'. injection E' as <-. rewrite Ex in Ex'. by injection Ex' as <-.
Qed.

Lemma turn_complete c payload t cs f : turn c payload t cs f -> ~ incomplete c payload.
Proof.
  intros (d & m & -> & Ht) (d' & Hd & Hi). injection Hd as <-. destruct (is_openai c).
  - destruct Ht as (ch & r & E & Em & _). rewrite E in Hi. congruence.
  - destruct Ht as (x & E & Ex & _). rewrite E in Hi. congruence.
Qed.

Lemma turn_reply c messages schema np seed payload ms text calls finish : latency started finished = Ok ms ->
  post (path c) (body c messages schema np seed) = Some payload -> turn c payload text calls finish ->
  post_messages post started finished c messages schema np seed = Ok (ChatResponse.mk (_strip_think text) calls ms finish).
Proof.
  intros Hms Hp (d & m & -> & Ht). unfold post_messages, path, body in *. destruct (is_openai c).
  - unfold _post_openai. rewrite Hp, Hms. destruct Ht as (ch & rest & Ed & Em & -> & -> & ->).
    unfold item_of, jindex. rewrite Ed. cbn. unfold jindex. by rewrite Em.
  - unfold _post_native. rewrite Hp, Hms. destruct Ht as (x & Em & Ex & -> & -> & ->). cbn. by rewrite Em, Ex.
Qed.

(** The answer after a think block: everything up to the first closing tag is gone. *)
Lemma after_close_first mid answer : ucontains CLOSE mid = false -> after_close (mid ++ CLOSE ++ answer) = Some answer.
Proof.
  induction mid as [|c mid IH]; intros Hc; [done|]. cbn [ucontains] in Hc. apply orb_false_iff in Hc as [Hs Hc].
  cbn [app after_close]. destruct (starts (c :: mid ++ CLOSE ++ answer) CLOSE) eqn:E; [|by apply IH].
  apply starts_spec in E as [r E]. exfalso. change (c :: mid ++ CLOSE ++ answer) with ((c :: mid) ++ CLOSE ++ answer) in E.
  destruct (decide (length (c :: mid) < length CLOSE)%nat) as [Hl|Hl].
  - assert ((CLOSE ++ r) !! length (c :: mid) = Some 60%N) as Hat by (rewrite <- E, lookup_app_r, Nat.sub_diag by lia; done).
    rewrite lookup_app_l in Hat by done. cbn [length] in Hl, Hat. remember (length mid) as n.
    do 8 (destruct n as [|n]; [by vm_compute in Hat|]). vm_compute in Hl. lia.
  - apply not_true_iff_false in Hs. apply Hs. unfold starts. apply bool_decide_eq_true.
    apply (f_equal (take (length CLOSE))) in E. rewrite take_app_le in E by lia. by rewrite take_app_length in E.
Qed.

Lemma think_dropped before mid answer : Forall (fun c => uspace c = true) before -> ucontains CLOSE mid = false ->
  without_think (before ++ THINK ++ mid ++ CLOSE ++ answer) = ulstrip uspace answer.
Proof.
  intros Hb Hm. unfold without_think. assert (ulstrip uspace (before ++ THINK ++ mid ++ CLOSE ++ answer) = THINK ++ mid ++ CLOSE ++ answer) as ->
    by (induction Hb as [|c b Hc _ IH]; [done|cbn [app ulstrip]; by rewrite Hc]).
  rewrite (proj2 (starts_spec _ _)) by eauto. by rewrite drop_app_length, after_close_first.
Qed.

(** A turn as the dialect's server writes it. *)
Definition payload_of (c : client) (text : ustr) (calls finish : json) : json :=
  let m := JObj [("role", jstr "assistant"); ("content", JStr text); ("tool_calls", calls)] in
  if is_openai c then JObj [("choices", JList [JObj [("message", m); ("finish_reason", finish)]])]
  else JObj [("message", m); ("done_reason", finish)].

Lemma payload_turn c text calls finish : turn c (payload_of c text calls finish) text calls finish.
Proof.
  unfold turn, payload_of. destruct (is_openai c); eexists _, _; (split; [reflexivity|]).
  - eexists _, _. split_and!; try reflexivity. by destruct text.
  - by eexists.
Qed.

(** C35. The client reads exactly the model's answer.  In either dialect a chat turn
    comes back with the text, the tool calls and the stop reason the body holds, the
    text without its leading think block; it is a transport failure - the one kind
    the circuit counts - exactly when the server gave no decoded body or the body
    lacks the answer; anything else is a body of another shape.  What a server of the
    dialect writes is read back as written, behind a think block too, whatever
    the block says. *)
Theorem answer_read_back (c : client) (system user : ustr) (schema : json) (np seed ms : Z) :
  latency started finished = Ok ms ->
  let reply := chat c system user schema np seed in
  let sent := post (path c) (body c (conversation c system user) (Some schema) np seed) in
  (forall r, reply = Ok r <-> exists payload text calls finish, sent = Some payload /\ turn c payload text calls finish
      /\ r = ChatResponse.mk (without_think text) calls ms finish)
  /\ (reply = Raise LlmTransportError <-> sent = None \/ exists payload, sent = Some payload /\ incomplete c payload)
  /\ (forall e, reply = Raise e -> e = LlmTransportError \/ e = AttributeError \/ e = TypeError)
  /\ forall before mid answer calls finish, Forall (fun x => uspace x = true) before -> ucontains CLOSE mid = false ->
      starts (ulstrip uspace answer) THINK = false ->
      (sent = Some (payload_of c answer calls finish) -> reply = Ok (ChatResponse.mk answer calls ms finish))
      /\ (sent = Some (payload_of c (before ++ THINK ++ mid ++ CLOSE ++ answer) calls finish) ->
           reply = Ok (ChatResponse.mk (ulstrip uspace answer) calls ms finish)).
Proof.
  intros Hms reply sent.
  assert (sent = None -> reply = Raise LlmTransportError) as Hnone.
  { subst reply sent. unfold Client.chat, path, body, post_messages, conversation. destruct (is_openai c).
    - unfold _post_openai. by intros ->.
    - unfold _post_native. by intros ->. }
  assert (forall payload, sent = Some payload -> match reply with
    | Ok r => exists text calls finish, turn c payload text calls finish /\ r = ChatResponse.mk (without_think text) calls ms finish
    | Raise e => (e = LlmTransportError /\ incomplete c payload) \/ ((e = AttributeError \/ e = TypeError) /\ ~ incomplete c payload) end) as Hsome.
  { intros payload Hp. pose proof (read_reply _ _ _ _ _ _ _ Hms Hp) as Hr. change (post_messages _ _ _ _ _ _ _ _) with reply in Hr.
    destruct reply; [|exact Hr]. destruct Hr as (t & cs & f & Ht & ->). exists t, cs, f. by rewrite strip_think_exact. }
  assert (forall payload text calls finish, sent = Some payload -> turn c payload text calls finish ->
    reply = Ok (ChatResponse.mk (without_think text) calls ms finish)) as Hturn.
  { intros payload t cs f Hp Ht. rewrite <- strip_think_exact. exact (turn_reply _ _ _ _ _ _ _ _ _ _ Hms Hp Ht). }
  destruct sent as [payload|] eqn:Hs; [|rewrite (Hnone eq_refl); naive_solver]. specialize (Hsome _ eq_refl). split_and!.
  - intros r. split; [|intros (p & t & cs & f & [= <-] & Ht & ->); by apply (Hturn payload)].
    intros Hr. rewrite Hr in Hsome. destruct Hsome as (t & cs & f & Ht & ->). by exists payload, t, cs, f.
  - split; [|intros [|(p & [= <-] & Hi)]; [done|]].
    + intros Hr. rewrite Hr in Hsome. right. exists payload. naive_solver.
    + destruct reply as [r|e]; [|naive_solver]. destruct Hsome as (t & cs & f & Ht & _). by apply turn_complete in Ht.
  - intros e Hr. rewrite Hr in Hsome. naive_solver.
  - intros before mid answer calls finish Hb Hm Ha. split; intros [= ->].
    + rewrite (Hturn _ _ _ _ eq_refl (payload_turn c answer calls finish)). unfold without_think. by rewrite Ha.
    + rewrite <- (think_dropped before mid answer Hb Hm). exact (Hturn _ _ _ _ eq_refl (payload_turn c _ calls finish)).
Qed.
End ReplyLaws.

(** ** The engine's side *)

Section EngineSide.
Context `{!Unicode, !PyRepr}.
Context (loads : ustr -> result json) (as_dict : schema -> json).

(** The engine compares the stop reason with an ASCII word. *)
Definition stop_of (finish : json) : option string :=
  match finish with JStr s => if forallb is_ascii s then Some (of_u s) else None | _ => None end.

(** What [_attempt] makes of a turn: a response, a transport failure, or - [None] - an
    exception it does not catch. *)
Definition to_reply (r : result ChatResponse.t) : option Chat.reply :=
  match r with
  | Ok r =>
      let parsed := match loads (ChatResponse.content r) with Ok j => Some j | Raise _ => None end in
      Some (Chat.Response (Chat.mk_response parsed (truthy (ChatResponse.tool_calls r)) (ChatResponse.latency_ms r) (stop_of (ChatResponse.finish_reason r))))
  | Raise e => if decide (e = LlmTransportError) then Some Chat.Transport else None
  end.

(** The engine's request through the client. *)
Definition ask (post : string -> json -> option json) (started finished : pyfloat) (c : client) (r : Chat.request) : option Chat.reply :=
  to_reply (chat post started finished c (key_text (Chat.system r)) (key_text (Chat.user r)) (as_dict (Chat.req_schema r)) (Chat.req_num_predict r) (Chat.seed r)).

(** The dialect does not matter to the engine: servers that write the same turns give
    it the same replies. *)
Lemma dialects_interchangeable post post' started finished c c' ms : latency started finished = Ok ms ->
  (forall messages s np seed, exists text calls finish,
     post (path c) (body c messages s np seed) = Some (payload_of c text calls finish)
     /\ post' (path c') (body c' messages s np seed) = Some (payload_of c' text calls finish)) ->
  OllamaClient.model c = OllamaClient.model c' ->
  forall r, ask post started finished c r = ask post' started finished c' r.
Proof.
  intros Hms Hp Hm r. unfold ask, chat, system_prompt. rewrite <- Hm. set (msgs := [message "system" _; _]).
  destruct (Hp msgs (Some (as_dict (Chat.req_schema r))) (Chat.req_num_predict r) (Chat.seed r)) as (t & cs & f & H1 & H2).
  by rewrite (turn_reply _ _ _ _ _ _ _ _ _ _ _ _ _ Hms H1 (payload_turn c t cs f)), (turn_reply _ _ _ _ _ _ _ _ _ _ _ _ _ Hms H2 (payload_turn c' t cs f)).
Qed.

(** A body of another shape crashes the job instead of counting as a failure. *)
Lemma odd_payload_escapes post started finished c r ms : latency started finished = Ok ms ->
  post (path c) (body c (conversation c (key_text (Chat.system r)) (key_text (Chat.user r))) (Some (as_dict (Chat.req_schema r))) (Chat.req_num_predict r) (Chat.seed r)) = Some (JList []) ->
  ask post started finished c r = None.
Proof.
  intros Hms Hp. unfold ask, chat. pose proof (read_reply _ _ _ _ _ _ _ _ _ _ Hms Hp) as Hr. unfold conversation in Hr.
  destruct (post_messages _ _ _ _ _ _ _ _) as [x|e].
  - destruct Hr as (t & cs & f & (d & m & Hd & _) & _). done.
  - cbn. destruct Hr as [[_ (d & Hd & _)]|[[-> | ->] _]]; done.
Qed.
End EngineSide.

(** ** The probe *)

Section ProbeLaws.
Context `{!PyRepr}.
Context (get : string -> option json).

Lemma rmapM_ok {A B} (f : A -> result B) g l : (forall x, x ∈ l -> f x = Ok (g x)) -> rmapM f l = Ok (g <$> l).
Proof.
  induction l as [|x l IH]; intros Hf; [done|]. cbn [rmapM fmap list_fmap]. rewrite (Hf x) by by left. cbn.
  by rewrite IH by (intros y Hy; apply Hf; by right).
Qed.

(** A native server that lists its models. *)
Lemma native_probe c v d entries : is_openai c = false -> get "/api/version" = Some (JObj v) -> get "/api/tags" = Some (JObj d) ->
  dget "models" d = Some (JList (JObj <$> entries)) -> (forall e, e ∈ entries -> hashable (jget "name" e) = true) ->
  probe get c = Ok (ProbeResult.mk true (model_listed c (jget "name" <$> entries)) (jget "version" v)).
Proof.
  intros Ha Hv Ht Hm Hh. unfold probe. rewrite Ha, Hv, Ht. cbn. unfold native_names. cbn. unfold dgetd. rewrite Hm. cbn.
  erewrite (rmapM_ok _ (fun m => match m with JObj e => jget "name" e | _ => JNull end)); cbn.
  - by rewrite <- list_fmap_compose.
  - intros m (e & -> & He)%list_elem_of_fmap. cbn. by rewrite Hh.
Qed.

(** An unreachable server is an answer, not an exception. *)
Lemma unreachable_answers c : get (if is_openai c then "/v1/models" else "/api/version") = None -> probe get c = Ok absent.
Proof. unfold probe. destruct (is_openai c); by intros ->. Qed.
End ProbeLaws.

Definition probed (r : ProbeResult.t) : bool * bool := (ProbeResult.reachable r, ProbeResult.model_present r).

(** So the facade's three attempts are one: whatever the later ones would find. *)
Lemma outage_not_retried `{!PyRepr} down c later : down (if is_openai c then "/v1/models" else "/api/version") = None ->
  Worker._probe_once ((probed <$> probe down c) :: later) = Some (false, false).
Proof. intros Hd. by rewrite unreachable_answers. Qed.

(** ** At work *)

Module ClientExample.
#[local] Existing Instance ascii_unicode.
#[local] Instance a_repr : PyRepr := {| float_repr := fun _ => u "0.5"; container_repr := fun _ => [] |}.

Definition qwen : client := make_client (u "http://llm:11434/") (u "Qwen3:4b") (u "ollama") 4096.
Definition vllm : client := make_client (u "http://llm:8000") (u "granite") (u "openai") 4096.
Definition thinking : ustr := u "  <think>a < b</think> {}".
Definition served (c : client) (p : string) (_ : json) : option json :=
  if bool_decide (p = path c) then Some (payload_of c thinking JNull (jstr "stop")) else None.

Example prompts : OllamaClient.base_url qwen = u "http://llm:11434" /\ system_prompt qwen (u "s") = u "s" ++ [10%N] ++ u "/no_think" /\ system_prompt vllm (u "s") = u "s".
Proof. vm_compute. done. Qed.

Definition content_of (c : client) : result ustr :=
  ChatResponse.content <$> chat (served c) (of_Z 1) (of_Z 2) c (u "s") (u "q") (JObj []) 10 7.
Example both_read :
  content_of qwen = Ok (u "{}") /\ content_of vllm = Ok (u "{}").
Proof. vm_compute. done. Qed.

Lemma answer_read_back_witness :
  let sent := served qwen (path qwen) (body qwen (conversation qwen (u "s") (u "q")) (Some (JObj [])) 10 7) in
  sent = Some (payload_of qwen (u "  " ++ THINK ++ u "a < b" ++ CLOSE ++ u " {}") JNull (jstr "stop"))
  /\ chat (served qwen) (of_Z 1) (of_Z 2) qwen (u "s") (u "q") (JObj []) 10 7 = Ok (ChatResponse.mk (u "{}") JNull 1000 (jstr "stop")).
Proof.
  split; [vm_compute; reflexivity|].
  destruct (answer_read_back (served qwen) (of_Z 1) (of_Z 2) qwen (u "s") (u "q") (JObj []) 10 7 1000) as (_ & _ & _ & Hr); [vm_compute; reflexivity|].
  destruct (Hr (u "  ") (u "a < b") (u " {}") JNull (jstr "stop")) as [_ Ht];
    [apply Forall_forall; intros x Hx; vm_compute in Hx; by set_unfold in Hx; naive_solver|vm_compute; reflexivity..|].
  exact (Ht eq_refl).
Defined.
End ClientExample.
