(* ===== verification/TaskContext.v ===== *)
(** * The context of a task

    [core/observability.py] and [core/cancellation.py]: the context variables a worker
    binds around each message - the fields of its log lines, the cancel flag and the
    deadline of the watchdog - and [_JsonFormatter] of [main.py], which reads them; and [StoreBase._conn] of
    [db/repositories/_common.py], which gives the statements of a task its deadline.  A
    [with] block is a function of the body it runs. *)

From S2P Require Import Prelude PyFloat PyStr PyInt PyJson UrlCodec JsonText Dispatch.
From Stdlib Require Import ZArith Lia.

#[local] Open Scope string_scope.
#[local] Open Scope list_scope.
#[local] Open Scope Z_scope.

(** The context variables of a thread; an event is its number. *)
Module Context.
Record t := mk {
  correlation_id_var : option ustr; routing_key_var : option ustr; project_var : option Z;
  _cancel_var : option nat; _deadline_var : option pyfloat
}.
Definition empty : t := mk None None None None None.
Definition with_request (cid rk : option ustr) (pid : option Z) (c : t) : t := mk cid rk pid (_cancel_var c) (_deadline_var c).
Definition with_watchdog (event : option nat) (deadline : option pyfloat) (c : t) : t :=
  mk (correlation_id_var c) (routing_key_var c) (project_var c) event deadline.
End Context.
Abbreviation context := Context.t.

(** The thread with its surroundings: the events that are set, the timers that run,
    each to set its event; readings of the clock and generated ids still to come. *)
Record thread := mk_thread { vars : context; events : gset nat; timers : gset nat; clock : list pyfloat; uuids : list ustr }.
Definition with_vars (c : context) (t : thread) : thread := mk_thread c (events t) (timers t) (clock t) (uuids t).

(** A block of code on the thread. *)
Definition block (A : Type) : Type := thread -> thread * result A.

(** ** The log context *)

Definition fresh_uuid (t : thread) : ustr * thread :=
  match uuids t with
  | x :: rest => (x, mk_thread (vars t) (events t) (timers t) (clock t) rest)
  | [] => ([], t)
  end.

(** [correlation_id or str(uuid.uuid4())]. *)
Definition effective_id (correlation_id : option ustr) (t : thread) : ustr * thread :=
  match correlation_id with Some ((_ :: _) as c) => (c, t) | _ => fresh_uuid t end.

Definition bind_request {A} (correlation_id routing_key : option ustr) (body : ustr -> block A) : block A := fun t =>
  let '(effective, t) := effective_id correlation_id t in
  let before := vars t in
  let '(t', r) := body effective (with_vars (Context.with_request (Some effective) routing_key None before) t) in
  (with_vars (Context.with_request (Context.correlation_id_var before) (Context.routing_key_var before) (Context.project_var before) (vars t')) t', r).

Definition set_project (project : option Z) (t : thread) : thread :=
  with_vars (Context.with_request (Context.correlation_id_var (vars t)) (Context.routing_key_var (vars t)) project (vars t)) t.

Definition text_field (name : string) (v : option ustr) : list (string * json) :=
  match v with Some ((_ :: _) as s) => [(name, JStr s)] | _ => [] end.
Definition current_log_fields (c : context) : list (string * json) :=
  text_field "correlation_id" (Context.correlation_id_var c) ++ text_field "routing_key" (Context.routing_key_var c)
  ++ match Context.project_var c with Some p => [("project", JInt p)] | None => [] end.

(** A log record, as the formatter sees it. *)
Module LogRecord.
Record t := mk { ts : ustr; levelname : ustr; name : ustr; message : ustr; duration_ms : option Z; exc : option ustr }.
End LogRecord.
Definition log_payload (app_version : ustr) (c : context) (r : LogRecord.t) : list (string * json) :=
  let payload := [("ts", JStr (LogRecord.ts r)); ("level", JStr (LogRecord.levelname r)); ("logger", JStr (LogRecord.name r));
                  ("msg", JStr (LogRecord.message r)); ("app_version", JStr app_version)] in
  let payload := fold_left (fun d kv => dset kv.1 kv.2 d) (current_log_fields c) payload in
  let payload := match LogRecord.duration_ms r with Some ms => dset "duration_ms" (JInt ms) payload | None => payload end in
  match LogRecord.exc r with Some e => dset "exc" (JStr e) payload | None => payload end.
Definition format_record `{!PyRepr} (app_version : ustr) (c : context) (r : LogRecord.t) : ustr := dumps (JObj (log_payload app_version c r)).

(** ** The watchdog *)

Definition monotonic (t : thread) : pyfloat * thread :=
  match clock t with
  | x :: rest => (x, mk_thread (vars t) (events t) (timers t) rest (uuids t))
  | [] => (f0, t)
  end.

(** [not timeout or timeout <= 0]. *)
Definition disabled (timeout : option pyfloat) : bool := match timeout with None => true | Some t => feq t f0 || fle t f0 end.

(** [threading.Event()]: a new object, which nothing has set and no timer is to set. *)
Definition new_event (t : thread) : nat := fresh (events t ∪ timers t).

(** Armed for [budget] seconds, and as [finally] leaves it. *)
Definition arm (event : nat) (budget : pyfloat) (t : thread) : thread :=
  let '(now, t') := monotonic (mk_thread (vars t) (events t) ({[event]} ∪ timers t) (clock t) (uuids t)) in
  with_vars (Context.with_watchdog (Some event) (Some (fadd now budget)) (vars t)) t'.
Definition disarm (event : nat) (before : context) (t : thread) : thread :=
  mk_thread (Context.with_watchdog (Context._cancel_var before) (Context._deadline_var before) (vars t))
    (events t) (timers t ∖ {[event]}) (clock t) (uuids t).

Definition task_watchdog {A} (timeout : option pyfloat) (body : option nat -> block A) : block A := fun t =>
  match timeout with
  | Some budget =>
      if disabled timeout then body None t
      else let event := new_event t in
           let '(t', r) := body (Some event) (arm event budget t) in (disarm event (vars t) t', r)
  | None => body None t
  end.

Definition raise_if_cancelled : block unit := fun t =>
  match Context._cancel_var (vars t) with
  | Some event => (t, if bool_decide (event ∈ events t) then Raise TaskTimeout else Ok tt)
  | None => (t, Ok tt)
  end.

Definition remaining_budget (t : thread) : option pyfloat * thread :=
  match Context._deadline_var (vars t) with
  | None => (None, t)
  | Some deadline => let '(now, t) := monotonic t in (Some (fsub deadline now), t)
  end.

(** [max(1, int(remaining * 1000))]; [int] refuses NaN and infinities. *)
Definition statement_timeout_ms : block (option Z) := fun t =>
  match remaining_budget t with
  | (None, t) => (t, Ok None)
  | (Some remaining, t) => (t, ms ← py_int (JFloat (fmul remaining (of_Z 1000))); Ok (Some (Z.max 1 ms)))
  end.

(** ** A pooled connection *)

(** Its settings at the server, and whether it still takes statements. *)
Record session := mk_session { statement_timeout : Z; autocommit : bool; usable : bool }.
Definition execute_set (ms : Z) (s : session) : session * result unit :=
  if usable s then (mk_session ms (autocommit s) true, Ok tt) else (s, Raise (OtherError "OperationalError")).
Definition with_autocommit (b : bool) (s : session) : session := mk_session (statement_timeout s) b (usable s).

Definition _conn {A} (body : session -> thread -> thread * session * result A) (s : session) (t : thread) : thread * session * result A :=
  let prior := autocommit s in
  let s := with_autocommit true s in
  match statement_timeout_ms t with
  | (t, Raise e) => (t, s, Raise e)
  | (t, Ok budget_ms) =>
      match (match budget_ms with Some ms => execute_set ms s | None => (s, Ok tt) end) with
      | (s, Raise e) => (t, s, Raise e)
      | (s, Ok _) =>
          let '(t, s, r) := body s t in
          let s := match budget_ms with Some _ => (execute_set 0 s).1 | None => s end in
          (t, with_autocommit prior s, r)
      end
  end.

(** ** A message on the thread *)

(** What [WorkerPool] knows: the watchdog's budget, the retries and their delays. *)
Module Policy.
Record t := mk { task_timeout : option pyfloat; max_retries : Z; retry_delays : list pyfloat }.
End Policy.

(** How work on a message ends; what each ending is answered with is [Dispatch]'s. *)
Inductive ending (A : Type) :=
  | Answered (reply : A)
  | Ignored                             (* an unknown routing key *)
  | Failed (exc : pyexn) (retried : Z)
  | Abandoned.                          (* the pool stops during a wait *)
Arguments Answered {A} reply. Arguments Ignored {A}. Arguments Failed {A} exc retried. Arguments Abandoned {A}.

Section Message.
Context {A : Type} (policy : Policy.t).
(** [Dispatcher.process] on the message, and whether the pool is told to stop during
    the wait before an attempt. *)
Context (process : block A) (stop : Z -> bool).

(** The [with task_watchdog(...)] block: a handler that overran has failed. *)
Definition attempt_once : block A := task_watchdog (Policy.task_timeout policy) (fun cancel_event t =>
  let '(t, r) := process t in
  (t, reply ← r;
      match cancel_event with
      | Some event => if bool_decide (event ∈ events t) then Raise TaskTimeout else Ok reply
      | None => Ok reply
      end)).

(** [while True], with the retries that remain; a delay that is not there raises out
    of the handler of the exception. *)
Fixpoint attempts (again : nat) (attempt : Z) (t : thread) : thread * result (ending A) :=
  let '(t, r) := attempt_once t in
  match r with
  | Ok reply => (t, Ok (Answered reply))
  | Raise exc =>
      if decide (exc = UnknownRoutingKey) then (t, Ok Ignored)
      else if decide (exc ∈ _NON_RETRYABLE) then (t, Ok (Failed exc attempt))
      else match again with
           | O => (t, Ok (Failed exc attempt))
           | S again =>
               match py_index (Policy.retry_delays policy) (Z.min attempt (Z.of_nat (length (Policy.retry_delays policy)) - 1)) with
               | Raise e => (t, Raise e)
               | Ok _ => if stop (attempt + 1) then (t, Ok Abandoned) else attempts again (attempt + 1) t
               end
           end
  end.

(** [_process_bound]: the start is timed, then the attempts. *)
Definition _process_bound : block (ending A) := fun t =>
  let '(_, t) := monotonic t in attempts (Z.to_nat (Policy.max_retries policy)) 0 t.
End Message.

(** [_process]: the log context is bound around all attempts of a message. *)
Definition _process {A} (policy : Policy.t) (correlation_id routing_key : option ustr) (process : block A) (stop : Z -> bool)
    : block (ending A) :=
  bind_request correlation_id routing_key (fun _ => _process_bound policy process stop).

(** ** Laws *)

Lemma effective_id_vars cid t : vars (effective_id cid t).2 = vars t.
Proof. destruct cid as [[|]|]; [|done|]; unfold effective_id, fresh_uuid; by destruct (uuids t). Qed.

(** A message's block runs bound to it, and what it did to the log fields is undone. *)
Definition bound (cid rk : option ustr) (t : thread) : thread :=
  with_vars (Context.with_request (Some (effective_id cid t).1) rk None (vars t)) (effective_id cid t).2.
Lemma bind_request_eq {A} cid rk (body : ustr -> block A) t :
  let r := body (effective_id cid t).1 (bound cid rk t) in
  bind_request cid rk body t = (with_vars (Context.with_request (Context.correlation_id_var (vars t)) (Context.routing_key_var (vars t))
    (Context.project_var (vars t)) (vars r.1)) r.1, r.2).
Proof.
  pose proof (effective_id_vars cid t) as Hv. unfold bound, bind_request. cbv zeta.
  destruct (effective_id cid t) as [x t1]. cbn [fst snd] in *. rewrite Hv. by destruct (body _ _).
Qed.

(** The handler starts in [t0] under an event of its own: new, unset, with a timer to set
    it; and under the deadline that the budget gives from now on.  Nothing else of the
    thread changes. *)
Definition opens (budget : pyfloat) (t : thread) (event : nat) (t0 : thread) : Prop :=
  event ∉ events t ∪ timers t /\ event ∉ events t0 /\ timers t0 = {[event]} ∪ timers t /\
  vars t0 = Context.with_watchdog (Some event) (Some (fadd (monotonic t).1 budget)) (vars t).

(** Its timer is cancelled, and flag and deadline are what they were. *)
Definition closes (t : thread) (event : nat) (t1 t2 : thread) : Prop :=
  event ∉ timers t2 /\ timers t2 = timers t1 ∖ {[event]} /\
  vars t2 = Context.with_watchdog (Context._cancel_var (vars t)) (Context._deadline_var (vars t)) (vars t1).

(** One attempt from [t]: the handler runs once, between the opening and the closing of
    its watchdog, and its outcome counts, unless the flag is set by then. *)
Definition tried {A} (budget : pyfloat) (process : block A) (t t2 : thread) (out : result A) : Prop :=
  exists event t0, opens budget t event t0 /\ closes t event (process t0).1 t2 /\
    out = match (process t0).2 with
          | Ok a => if bool_decide (event ∈ events (process t0).1) then Raise TaskTimeout else Ok a
          | Raise e => Raise e
          end.

Lemma monotonic_keeps t : vars (monotonic t).2 = vars t /\ events (monotonic t).2 = events t /\ timers (monotonic t).2 = timers t.
Proof. unfold monotonic. by destruct (clock t). Qed.

Lemma started_bound cid rk t : let t0 := (monotonic (bound cid rk t)).2 in
  vars t0 = Context.mk (Some (effective_id cid t).1) rk None (Context._cancel_var (vars t)) (Context._deadline_var (vars t))
  /\ events t0 = events t /\ timers t0 = timers t.
Proof.
  cbv zeta. destruct (monotonic_keeps (bound cid rk t)) as (-> & -> & ->). split; [done|]. unfold bound. cbn.
  destruct cid as [[|]|]; [|done|]; cbn; unfold fresh_uuid; by destruct (uuids t).
Qed.

Lemma arm_opens budget t : opens budget t (new_event t) (arm (new_event t) budget t).
Proof.
  pose proof (is_fresh (events t ∪ timers t)) as Hf. fold (new_event t) in Hf. unfold opens, arm, monotonic. cbn.
  destruct (clock t); cbn; split_and!; set_solver.
Qed.

Lemma attempt_once_tried {A} policy budget (process : block A) t : Policy.task_timeout policy = Some budget -> disabled (Some budget) = false ->
  tried budget process t (attempt_once policy process t).1 (attempt_once policy process t).2.
Proof.
  intros Hb Hd. exists (new_event t), (arm (new_event t) budget t). split; [apply arm_opens|].
  unfold attempt_once, task_watchdog. rewrite Hb, Hd. destruct (process (arm _ _ _)) as [t1 r]. unfold closes. cbn.
  split; [|by destruct r]. split_and!; [set_solver|done..].
Qed.

(** The attempts at a message, from the [k]th on with [again] retries: each starts from
    the thread the one before it left; one that fails with an error that may pass is
    followed by the next, unless the pool stops, and the last one gives the ending. *)
Inductive series {A} (budget : pyfloat) (process : block A) (stop : Z -> bool) : nat -> Z -> thread -> thread -> ending A -> Prop :=
  | series_answered again k t t2 a : tried budget process t t2 (Ok a) -> series budget process stop again k t t2 (Answered a)
  | series_ignored again k t t2 : tried budget process t t2 (Raise UnknownRoutingKey) -> series budget process stop again k t t2 Ignored
  | series_failed again k t t2 e : tried budget process t t2 (Raise e) -> e <> UnknownRoutingKey -> e ∈ _NON_RETRYABLE \/ again = O ->
      series budget process stop again k t t2 (Failed e k)
  | series_abandoned again k t t2 e : tried budget process t t2 (Raise e) -> e ∉ _NON_RETRYABLE -> stop (k + 1) = true ->
      series budget process stop (S again) k t t2 Abandoned
  | series_again again k t t2 e t' r : tried budget process t t2 (Raise e) -> e ∉ _NON_RETRYABLE -> stop (k + 1) = false ->
      series budget process stop again (k + 1) t2 t' r -> series budget process stop (S again) k t t' r.

Lemma attempts_series {A} policy budget (process : block A) stop again :
  Policy.task_timeout policy = Some budget -> disabled (Some budget) = false -> Policy.retry_delays policy <> [] ->
  forall k t, 0 <= k -> exists t' r, attempts policy process stop again k t = (t', Ok r) /\ series budget process stop again k t t' r.
Proof.
  intros Hb Hd Hds. induction again as [|again IH]; intros k t Hk.
  all: pose proof (attempt_once_tried policy budget process t Hb Hd) as Ht; cbn [attempts].
  all: destruct (attempt_once policy process t) as [t2 [a|exc]]; cbn [fst snd] in Ht; [by eexists _, _; split; [|eapply series_answered]|].
  all: destruct (decide (exc = UnknownRoutingKey)) as [->|Hne]; [by eexists _, _; split; [|eapply series_ignored]|].
  all: destruct (decide (exc ∈ _NON_RETRYABLE)) as [Hn|Hn]; [by eexists _, _; split; [|eapply series_failed; [exact Ht|exact Hne|left]]|].
  - by eexists _, _; split; [|eapply series_failed; [exact Ht|exact Hne|right]].
  - destruct (py_index_retry _ k Hds Hk) as [d ->]. destruct (stop (k + 1)) eqn:Es; [by eexists _, _; split; [|eapply series_abandoned]|].
    destruct (IH (k + 1) t2) as (t' & r & E & Hs); [lia|]. exists t', r. split; [done|]. by eapply series_again.
Qed.

(** After any attempts the flag and the deadline are what they were. *)
Definition same_watch (t t' : thread) : Prop :=
  Context._cancel_var (vars t') = Context._cancel_var (vars t) /\ Context._deadline_var (vars t') = Context._deadline_var (vars t).

Lemma tried_same_watch {A} budget (process : block A) t t2 out : tried budget process t t2 out -> same_watch t t2.
Proof. intros (event & t0 & _ & (_ & _ & Hv) & _). unfold same_watch. by rewrite Hv. Qed.

Lemma series_same_watch {A} budget (process : block A) stop again k t t' r : series budget process stop again k t t' r -> same_watch t t'.
Proof.
  induction 1 as [????? Ht|???? Ht|????? Ht|????? Ht|??????? Ht _ _ _ [IH1 IH2]]; apply tried_same_watch in Ht; [done..|].
  destruct Ht as [H1 H2]. split; congruence.
Qed.

(** Zero would mean "no limit" to the server. *)
Lemma statement_timeout_positive t t' ms : statement_timeout_ms t = (t', Ok (Some ms)) -> 1 <= ms.
Proof.
  unfold statement_timeout_ms. destruct (remaining_budget t) as [[r|] t1]; [|done].
  intros [= _ H]. apply result_bind_Ok in H as (z & _ & [= <-]). lia.
Qed.

(** A connection goes back to the pool as it came, unless it broke; while the body
    runs under a watchdog its statements have a positive limit, and every statement
    commits on its own. *)
Lemma conn_restores {A} (body : session -> thread -> thread * session * result A) s t :
  usable s = true -> statement_timeout s = 0 ->
  let '(t', s', r) := _conn body s t in
  (exists e, statement_timeout_ms t = (t', Raise e))
  \/ exists s0 t0, r = (body s0 t0).2 /\ autocommit s0 = true
      /\ (statement_timeout s0 = 0 <-> Context._deadline_var (vars t) = None) /\ 0 <= statement_timeout s0
      /\ autocommit s' = autocommit s
      /\ (usable (body s0 t0).1.2 = true -> usable s' = true)
      /\ (usable (body s0 t0).1.2 = true -> Context._deadline_var (vars t) <> None -> statement_timeout s' = 0).
Proof.
  intros Hu Hs. unfold _conn. destruct (statement_timeout_ms t) as [t0 [[ms|]|e]] eqn:E; [| |left; by exists e].
  - pose proof (statement_timeout_positive _ _ _ E) as Hpos. unfold execute_set, with_autocommit. cbn. rewrite Hu.
    destruct (body (mk_session ms true true) t0) as [[t' s'] r] eqn:Eb. right. exists (mk_session ms true true), t0. rewrite Eb. cbn.
    assert (Context._deadline_var (vars t) <> None) as Hd by (intros Hn; unfold statement_timeout_ms, remaining_budget in E; by rewrite Hn in E).
    split_and!; [done|done|split; [lia|done]|lia|done| |]; by intros ->.
  - assert (Context._deadline_var (vars t) = None) as Hd.
    { unfold statement_timeout_ms, remaining_budget in E. destruct (Context._deadline_var (vars t)); [|done].
      destruct (monotonic t). by destruct (py_int _). }
    destruct (body (with_autocommit true s) t0) as [[t' s'] r] eqn:Eb. right. exists (with_autocommit true s), t0. rewrite Eb. cbn.
    split_and!; try done. lia.
Qed.

(** C37. A worker thread carries nothing from one message to the next.  Whatever a
    message's handler does - it may set the project, start watchdogs of its own, or
    raise - its first attempt starts with the message's correlation id (a generated one
    when it has none), its routing key and no project, and each attempt at it starts
    under a flag of its own, new and unset, with a timer to set it, and a deadline the
    whole budget away from then; no exception comes out, the last attempt gives the
    ending; each attempt's timer is cancelled when it ends; and the thread's log
    fields, cancel flag and deadline are afterwards those from before the message.  So
    after any number of messages the context is the one the thread started with. *)
Theorem tasks_do_not_leak {A} policy budget (tasks : list (option ustr * option ustr * block A * (Z -> bool))) t :
  Policy.task_timeout policy = Some budget -> disabled (Some budget) = false -> Policy.retry_delays policy <> [] ->
  let run t x := _process policy x.1.1.1 x.1.1.2 x.1.2 x.2 t in
  vars (fold_left (fun t x => (run t x).1) tasks t) = vars t
  /\ forall x t, exists t0 t' r, (run t x).2 = Ok r /\ vars (run t x).1 = vars t
       /\ vars t0 = Context.mk (Some (effective_id x.1.1.1 t).1) x.1.1.2 None (Context._cancel_var (vars t)) (Context._deadline_var (vars t))
       /\ events t0 = events t /\ timers t0 = timers t
       /\ series budget x.1.2 x.2 (Z.to_nat (Policy.max_retries policy)) 0 t0 t' r
       /\ events (run t x).1 = events t' /\ timers (run t x).1 = timers t'.
Proof.
  intros Hb Hd Hds run. assert (forall x t, exists t0 t' r, (run t x).2 = Ok r /\ vars (run t x).1 = vars t
       /\ vars t0 = Context.mk (Some (effective_id x.1.1.1 t).1) x.1.1.2 None (Context._cancel_var (vars t)) (Context._deadline_var (vars t))
       /\ events t0 = events t /\ timers t0 = timers t
       /\ series budget x.1.2 x.2 (Z.to_nat (Policy.max_retries policy)) 0 t0 t' r
       /\ events (run t x).1 = events t' /\ timers (run t x).1 = timers t') as Hone.
  { intros [[[cid rk] process] stop] t1. unfold run, _process. cbn [fst snd]. rewrite bind_request_eq.
    destruct (started_bound cid rk t1) as (Hv & He & Ht). unfold _process_bound.
    destruct (monotonic (bound cid rk t1)) as [now t0]. cbn [snd] in Hv, He, Ht.
    destruct (attempts_series policy budget process stop (Z.to_nat (Policy.max_retries policy)) Hb Hd Hds 0 t0) as (t' & r & -> & Hs); [done|].
    exists t0, t', r. destruct (series_same_watch _ _ _ _ _ _ _ _ Hs) as [H1 H2]. rewrite Hv in H1, H2. cbn in H1, H2. cbn.
    split_and!; try done. unfold Context.with_request. rewrite H1, H2. by destruct (vars t1). }
  split; [|exact Hone]. revert t. induction tasks as [|x tasks IH]; intros t; [done|]. cbn [fold_left].
  rewrite IH. by destruct (Hone x t) as (_ & _ & _ & _ & Hv & _).
Qed.

(** ** At work *)

Module TaskExample.
(** Three handlers: one sets the project, the second finds its flag set, the third sets
    the project and fails. *)
Definition sets_project : block unit := fun t => (set_project (Some 7) t, Ok tt).
Definition overruns : block unit := fun t =>
  raise_if_cancelled (mk_thread (vars t) (match Context._cancel_var (vars t) with Some e => {[e]} | None => ∅ end) (timers t) (clock t) (uuids t)).
Definition stumbles : block unit := fun t => (set_project (Some 8) t, Raise (OtherError "OperationalError")).
Definition idle : thread := mk_thread Context.empty ∅ ∅ (of_Z <$> [5; 6; 7; 8; 9; 10; 11; 12; 13]) [u "generated"].
Definition ten_minutes : Policy.t := Policy.mk (Some (of_Z 600)) 2 default_retry_delays.
Definition never (_ : Z) : bool := false.
Definition three_tasks : list (option ustr * option ustr * block unit * (Z -> bool)) :=
  [(Some (u "c-1"), Some (u "index"), sets_project, never); (None, Some (u "analyze"), overruns, never);
   (Some (u "c-3"), Some (u "suggest"), stumbles, never)].

Example overrun_fails : (_process ten_minutes None (Some (u "analyze")) overruns never idle).2 = Ok (Failed TaskTimeout 0).
Proof. vm_compute. reflexivity. Qed.
Example three_attempts : (_process ten_minutes None (Some (u "suggest")) stumbles never idle).2 = Ok (Failed (OtherError "OperationalError") 2).
Proof. vm_compute. reflexivity. Qed.

(** A spent budget still leaves a limit. *)
Example spent_budget :
  (statement_timeout_ms (mk_thread (Context.with_watchdog (Some 0%nat) (Some (of_Z 5)) Context.empty) ∅ ∅ [of_Z 9] [])).2
  = Ok (Some 1).
Proof. vm_compute. reflexivity. Qed.

#[local] Instance a_repr : PyRepr := {| float_repr := fun _ => u "0.5"; container_repr := fun _ => [] |}.
Example log_line :
  log_payload (u "1.0") (Context.mk (Some (u "c-1")) None (Some 7) None None) (LogRecord.mk (u "T") (u "INFO") (u "n") (u "hi") (Some 3) None)
  = [("ts", jstr "T"); ("level", jstr "INFO"); ("logger", jstr "n"); ("msg", jstr "hi"); ("app_version", jstr "1.0");
     ("correlation_id", jstr "c-1"); ("project", JInt 7); ("duration_ms", JInt 3)].
Proof. vm_compute. reflexivity. Qed.

Lemma tasks_do_not_leak_witness :
  vars (fold_left (fun t x => (_process ten_minutes x.1.1.1 x.1.1.2 x.1.2 x.2 t).1) three_tasks idle) = Context.empty.
Proof.
  destruct (tasks_do_not_leak ten_minutes (of_Z 600) three_tasks idle) as [Hv _]; [done|by vm_compute|done|]. exact Hv.
Defined.
End TaskExample.
