(* ===== verification/Connect.v ===== *)
(** * Connections to the broker

    [AmqpConnection] of [amqp/client.py] - connecting with back-off, the capability
    exchange with its redeclaration, the queues - and the thread of [Consumer] in
    [amqp/consumer.py] with its life cycle.  What a delivery does once it is read is
    [AmqpPool]. *)

From S2P Require Import Prelude PyFloat PyStr PyText PyJson.
From Stdlib Require Import ZArith Lia Relations.

#[local] Open Scope string_scope.
#[local] Open Scope list_scope.
#[local] Open Scope Z_scope.

Definition ONE_MINUTE : Z := 60.
Definition _MAX_BACKOFF : Z := ONE_MINUTE.
Definition _PRECONDITION_TYPE_MISMATCH : ustr := u "PRECONDITION_FAILED - inequivalent arg 'type' for exchange".

(** The settings that matter here. *)
Module Settings.
Record t := mk {
  amqp_exchange_name : ustr; amqp_initial_retry_interval : Z; amqp_max_retry_time : Z; amqp_backoff_factor : Z;
  analyzer_index : bool; analyzer_priority : Z; analyzer_log_search : bool; analyzer_suggest : bool; analyzer_cluster : bool
}.
End Settings.
Abbreviation settings := Settings.t.

(** What a broker call raises. *)
Inductive broker_exn :=
  | AmqpConnectionError                           (* the service's own: gave up connecting *)
  | ChannelClosedByBroker (code : Z) (text : option ustr)
  | AMQPConnectionError_                          (* pika's: the connection is lost *)
  | OtherBrokerError.
Inductive answer (A : Type) := Fine (a : A) | Broke (e : broker_exn).
Arguments Fine {A} a. Arguments Broke {A} e.

Record connection := mk_connection { number : nat }.

(** The broker and the clock. *)
Class Broker (W : Type) := {
  monotonic : W -> W * pyfloat;
  sleep : Z -> W -> W;
  dial : W -> W * option connection;                         (* None: raised *)
  is_closed : connection -> W -> bool;
  close_connection : connection -> W -> W;
  exchange_declare : connection -> ustr -> list (string * json) -> W -> W * answer unit;
  exchange_delete : connection -> ustr -> W -> W * answer unit;
  queue_declare : connection -> ustr -> W -> W * answer unit;
  queue_bind : connection -> ustr -> ustr -> W -> W * answer unit
}.

(** [AmqpConnection]. *)
Module AmqpConnection.
Record t := mk { _connection : option connection; _exchange_declared_at : pyfloat }.
Definition fresh : t := mk None f0.
End AmqpConnection.
Abbreviation amqp := AmqpConnection.t.

Section Connect.
Context {W : Type} `{!Broker W} (cfg : settings) (app_version : ustr).

Definition M (A : Type) : Type := amqp * W -> (amqp * W) * answer A.
#[local] Instance M_ret : MRet M := fun A a s => (s, Fine a).
#[local] Instance M_bind : MBind M := fun A B k m s => let '(s, r) := m s in match r with Fine a => k a s | Broke e => (s, Broke e) end.
Definition call {A} (f : W -> W * answer A) : M A := fun s => let '(w, r) := f s.2 in ((s.1, w), r).

(** ** Back-off *)

Definition next_interval (interval : Z) : Z := Z.min (interval * Settings.amqp_backoff_factor cfg) _MAX_BACKOFF.
Definition given_up (start now : pyfloat) : bool := fle (of_Z (Settings.amqp_max_retry_time cfg)) (fsub now start).

(** [None]: the fuel is spent. *)
Fixpoint connect_loop (fuel : nat) (start : pyfloat) (interval : Z) (w : W) : W * option (answer connection) :=
  match fuel with
  | O => (w, None)
  | S fuel =>
      match dial w with
      | (w, Some c) => (w, Some (Fine c))
      | (w, None) =>
          let '(w, now) := monotonic w in
          if given_up start now then (w, Some (Broke AmqpConnectionError))
          else connect_loop fuel start (next_interval interval) (sleep interval w)
      end
  end.
Definition _connect_with_retry (fuel : nat) (w : W) : W * option (answer connection) :=
  let '(w, start) := monotonic w in connect_loop fuel start (Settings.amqp_initial_retry_interval cfg) w.

(** ** The connection, made when it is needed *)

Context (fuel : nat).

(** The [connection] property; the fuel stands for what [connects_or_gives_up] shows
    to be enough. *)
Definition connected : M connection := fun s =>
  let reconnect :=
    match _connect_with_retry fuel s.2 with
    | (w, Some (Fine c)) => ((AmqpConnection.mk (Some c) f0, w), Fine c)
    | (w, Some (Broke e)) => ((s.1, w), Broke e)
    | (w, None) => ((s.1, w), Broke OtherBrokerError)
    end in
  match AmqpConnection._connection s.1 with
  | Some c => if is_closed c s.2 then reconnect else (s, Fine c)
  | None => reconnect
  end.

Definition close : M unit := fun s =>
  let w := match AmqpConnection._connection s.1 with
           | Some c => if is_closed c s.2 then s.2 else close_connection c s.2
           | None => s.2
           end in
  ((AmqpConnection.fresh, w), Fine tt).

(** ** Topology *)

Definition _exchange_arguments : list (string * json) :=
  [("analyzer", JStr (Settings.amqp_exchange_name cfg)); ("analyzer_index", JBool (Settings.analyzer_index cfg));
   ("analyzer_priority", JInt (Settings.analyzer_priority cfg)); ("analyzer_log_search", JBool (Settings.analyzer_log_search cfg));
   ("analyzer_suggest", JBool (Settings.analyzer_suggest cfg)); ("analyzer_cluster", JBool (Settings.analyzer_cluster cfg)); ("version", JStr app_version)].

(** [with self.connection.channel() as channel: ...]. *)
Definition _do_declare_exchange : M unit := c ← connected; call (exchange_declare c (Settings.amqp_exchange_name cfg) _exchange_arguments).
Definition delete_exchange : M unit := c ← connected; call (exchange_delete c (Settings.amqp_exchange_name cfg)).

Definition other_type (e : broker_exn) : bool :=
  match e with
  | ChannelClosedByBroker code text => (code =? 406) && ucontains _PRECONDITION_TYPE_MISMATCH (default [] text)
  | _ => false
  end.

Definition read_clock : M pyfloat := fun s => let '(w, now) := monotonic s.2 in ((s.1, w), Fine now).
Definition declared_at (t : pyfloat) : M unit := fun s => ((AmqpConnection.mk (AmqpConnection._connection s.1) t, s.2), Fine tt).

Definition ensure_exchange (update_interval : Z) : M unit :=
  now ← read_clock;
  at_ ← (fun s => (s, Fine (AmqpConnection._exchange_declared_at s.1)));
  if negb (feq at_ f0) && flt (fsub now at_) (of_Z update_interval) then mret tt
  else
    (fun s => match _do_declare_exchange s with
              | (s, Fine _) => (s, Fine tt)
              | (s, Broke e) => if other_type e then (_ ← delete_exchange; _do_declare_exchange) s else (s, Broke e)
              end) ≫= fun _ => t ← read_clock; declared_at t.

Definition declare_and_bind_queue (queue_name : ustr) : M unit :=
  c ← connected; _ ← call (queue_declare c queue_name); call (queue_bind c (Settings.amqp_exchange_name cfg) queue_name).
(** What a consumer sets up before it consumes. *)
Definition subscribe (queue_name : ustr) : M unit :=
  _ ← ensure_exchange ONE_MINUTE; _ ← connected; declare_and_bind_queue queue_name.
Definition declare_dlq (dlq_name : ustr) : M unit := c ← connected; call (queue_declare c dlq_name).
End Connect.

(** ** Laws of the back-off *)

Section Timed.
Context {W : Type} `{!Broker W} (cfg : settings).
(** The seconds of the world: nothing turns them back, a sleep takes its time, and two
    readings of the clock that far apart are told apart. *)
Context (time : W -> Z).
Hypothesis dial_takes : forall w, time w <= time (dial w).1.
Hypothesis reading_takes : forall w, time w <= time (monotonic w).1.
Hypothesis sleep_takes : forall i w, time w + i <= time (sleep i w).
Hypothesis clock_tells : forall w0 w, time w0 + Settings.amqp_max_retry_time cfg <= time w ->
  given_up cfg (monotonic w0).2 (monotonic w).2 = true.

(** What the first [n] sleeps take together. *)
Fixpoint slept (n : nat) (interval : Z) : Z := match n with O => 0 | S n => interval + slept n (next_interval cfg interval) end.

Lemma slept_at_least n : forall i, 1 <= i -> 1 <= Settings.amqp_backoff_factor cfg -> Z.of_nat n <= slept n i.
Proof.
  induction n as [|n IH]; intros i Hi Hf; [done|]. cbn [slept].
  assert (1 <= next_interval cfg i) as Hn by (unfold next_interval, _MAX_BACKOFF, ONE_MINUTE; nia). specialize (IH _ Hn Hf). lia.
Qed.

Lemma connect_loop_ends n w0 : forall i w, time w0 + Settings.amqp_max_retry_time cfg <= time w + slept n i ->
  exists w' r, connect_loop cfg (S n) (monotonic w0).2 i w = (w', Some r) /\
    match r with Fine c => exists v, (dial v).2 = Some c | Broke e => e = AmqpConnectionError end.
Proof.
  induction n as [|n IH]; intros i w Hw; cbn [connect_loop slept] in *;
    pose proof (dial_takes w) as Hd; destruct (dial w) as [w1 [c|]] eqn:Ed; cbn [fst] in Hd;
    try (eexists _, _; split; [reflexivity|]; exists w; by rewrite Ed);
    pose proof (reading_takes w1) as Hr; destruct (monotonic w1) as [w2 now] eqn:Em; cbn [fst] in Hr.
  - assert (given_up cfg (monotonic w0).2 now = true) as ->; [|by eexists _, _].
    change now with (w2, now).2. rewrite <- Em. apply clock_tells. lia.
  - destruct (given_up cfg _ now); [by eexists _, _|].
    pose proof (sleep_takes i w2). destruct (IH (next_interval cfg i) (sleep i w2)) as (w' & r & E & Hc); [lia|].
    cbn [connect_loop] in E. by exists w', r.
Qed.

(** Connecting ends, with a connection or by giving up, whatever the broker does; a
    second per attempt is always enough, and the settings say how few it takes. *)
Lemma connects_or_gives_up n w : 1 <= Settings.amqp_initial_retry_interval cfg -> 1 <= Settings.amqp_backoff_factor cfg ->
  Settings.amqp_max_retry_time cfg <= slept n (Settings.amqp_initial_retry_interval cfg) \/ Settings.amqp_max_retry_time cfg <= Z.of_nat n ->
  exists w' r, _connect_with_retry cfg (S n) w = (w', Some r) /\
    match r with Fine c => exists v, (dial v).2 = Some c | Broke e => e = AmqpConnectionError end.
Proof.
  intros Hi Hf Hn. unfold _connect_with_retry. pose proof (reading_takes w) as Hr. pose proof (slept_at_least n _ Hi Hf).
  destruct (connect_loop_ends n w (Settings.amqp_initial_retry_interval cfg) (monotonic w).1) as (w' & r & E & Hc); [lia|].
  destruct (monotonic w) as [w1 start]. cbn [fst snd] in *. by exists w', r.
Qed.
End Timed.

(** Within the last minute, the exchange is left alone. *)
Lemma exchange_throttled {W} `{!Broker W} cfg ver fuel interval (a : amqp) w :
  let now := (monotonic w).2 in
  feq (AmqpConnection._exchange_declared_at a) f0 = false -> flt (fsub now (AmqpConnection._exchange_declared_at a)) (of_Z interval) = true ->
  ensure_exchange cfg ver fuel interval (a, w) = ((a, (monotonic w).1), Fine tt).
Proof.
  cbv zeta. intros H1 H2. unfold ensure_exchange, mbind, M_bind, read_clock. cbn [fst snd]. destruct (monotonic w) as [w1 now]. cbn [fst snd] in *.
  by rewrite H1, H2.
Qed.

(** ** The consumer's thread *)

Inductive phase := Top | Connecting | Consuming | Ended.
Inductive stopper := NotCalled | Joining | Gone.

(** [_channel] is kept with whether it is open; [scheduled]: [stop_consuming] waits to
    be run by the loop of that channel; [cancelled]: the broker has cancelled the
    subscription. *)
Module Consumer.
Record t := mk { at_ : phase; stop : bool; _channel : option bool; scheduled : bool; cancelled : bool; alive : bool; caller : stopper; delivered : nat }.
Definition started : t := mk Top false None false false false NotCalled 0.
End Consumer.
Abbreviation consumer := Consumer.t.
Import Consumer (at_, stop, _channel, scheduled, cancelled, alive, caller, delivered).

Definition shut (channel : option bool) : option bool := (fun _ => false) <$> channel.

(** Leaving the loop, or going round it, after a failure: the connection is closed
    before the next round. *)
Definition after_failure (c : consumer) : consumer :=
  Consumer.mk (if stop c then Ended else Top) (stop c) (if stop c then _channel c else shut (_channel c)) false false false (caller c) (delivered c).

(** [start_consuming] runs as long as the channel has a consumer: it returns when
    [stop_consuming] was run, and also when the broker cancelled the subscription. *)
Inductive thread_step : consumer -> consumer -> Prop :=
  | check_stop c : at_ c = Top ->
      thread_step c (Consumer.mk (if stop c then Ended else Connecting) (stop c) (_channel c) (scheduled c) (cancelled c) (if stop c then false else alive c) (caller c) (delivered c))
  | set_up c : at_ c = Connecting -> thread_step c (Consumer.mk Consuming (stop c) (Some true) false false true (caller c) (delivered c))
  | failed c : at_ c = Connecting \/ at_ c = Consuming -> thread_step c (after_failure c)
  | deliver c : at_ c = Consuming -> _channel c = Some true ->
      thread_step c (Consumer.mk Consuming (stop c) (_channel c) (scheduled c) (cancelled c) true (caller c) (S (delivered c)))
  | returned c : at_ c = Consuming -> scheduled c = true \/ cancelled c = true ->
      thread_step c (Consumer.mk Ended (stop c) (_channel c) false (cancelled c) false (caller c) (delivered c)).

(** [basic.cancel] from the broker: the queue was deleted, or its node is gone. *)
Inductive broker_step : consumer -> consumer -> Prop :=
  | broker_cancels c : at_ c = Consuming ->
      broker_step c (Consumer.mk Consuming (stop c) (_channel c) (scheduled c) true (alive c) (caller c) (delivered c)).

(** [stop]: the flag, a callback on an open channel, the wait, and the connection
    closed. *)
Inductive stop_step : consumer -> consumer -> Prop :=
  | stop_called c : caller c = NotCalled ->
      stop_step c (Consumer.mk (at_ c) true (_channel c) (bool_decide (_channel c = Some true)) (cancelled c) (alive c) Joining (delivered c))
  | joined c : caller c = Joining -> at_ c = Ended -> stop_step c (Consumer.mk Ended (stop c) (shut (_channel c)) (scheduled c) (cancelled c) (alive c) Gone (delivered c))
  | timed_out c : caller c = Joining -> stop_step c (Consumer.mk (at_ c) (stop c) (shut (_channel c)) (scheduled c) (cancelled c) (alive c) Gone (delivered c)).

Definition consumer_step (c c' : consumer) : Prop := thread_step c c' \/ broker_step c c' \/ stop_step c c'.
Definition consumer_reachable (c : consumer) : Prop := rtc consumer_step Consumer.started c.

Record consumer_inv (c : consumer) : Prop := {
  inv_alive : alive c = true <-> at_ c = Consuming;
  inv_stop : stop c = true <-> caller c <> NotCalled;
  inv_ended : at_ c = Ended -> stop c = true \/ cancelled c = true;
  inv_scheduled : scheduled c = true -> stop c = true;
  inv_channel : _channel c = Some true -> at_ c = Consuming \/ at_ c = Ended
}.

Lemma shut_closed o : shut o <> Some true.
Proof. by destruct o. Qed.

Lemma consumer_step_inv c c' : consumer_step c c' -> consumer_inv c -> consumer_inv c'.
Proof.
  intros Hs [Ha Hst He Hsc Hch]. pose proof (shut_closed (_channel c)) as Hcl. destruct Hs as [Ht|[Ht|Ht]].
  - destruct Ht as [c Hc|c Hc|c Hc|c Hc Ho|c Hc Ho]; unfold after_failure; constructor; cbn; destruct (stop c) eqn:E, (scheduled c) eqn:E', (at_ c) eqn:E'';
      intuition congruence.
  - destruct Ht as [c Hc]; constructor; cbn; destruct (stop c) eqn:E, (scheduled c) eqn:E', (at_ c) eqn:E''; intuition congruence.
  - destruct Ht as [c Hc|c Hc Hd|c Hc]; constructor; cbn; rewrite ?bool_decide_eq_true; destruct (stop c) eqn:E, (scheduled c) eqn:E', (at_ c) eqn:E'';
      intuition congruence.
Qed.

Lemma consumer_reachable_inv c : consumer_reachable c -> consumer_inv c.
Proof.
  intros Hr. assert (consumer_inv Consumer.started) as H0 by (constructor; cbn; naive_solver).
  revert H0. unfold consumer_reachable in Hr. induction Hr as [|x y z Hs _ IH]; [done|]. intros Hx. apply IH. by eapply consumer_step_inv.
Qed.

(** How far a stopping thread is from its end. *)
Definition rounds_left (p : phase) : nat := match p with Connecting => 2 | Top | Consuming => 1 | Ended => 0 end.

Lemma stop_is_final c c' : consumer_step c c' -> stop c = true -> stop c' = true /\ (rounds_left (at_ c') <= rounds_left (at_ c))%nat.
Proof.
  intros [Ht|[Ht|Ht]] Hs; destruct Ht; unfold after_failure; cbn; rewrite ?Hs; (split; [done|]); cbn; try lia;
    match goal with H : at_ _ = _ |- _ => rewrite ?H | _ => idtac end; cbn; lia.
Qed.

(** A thread that has ended stays ended. *)
Lemma ended_is_final c c' : rtc consumer_step c c' -> at_ c = Ended -> at_ c' = Ended /\ delivered c' = delivered c.
Proof.
  induction 1 as [|x y z Hxy _ IH]; intros Hx; [done|].
  assert (at_ y = Ended /\ delivered y = delivered x) as [Hy <-]; [|by apply IH].
  destruct Hxy as [Ht|[Ht|Ht]]; destruct Ht; cbn; intuition congruence.
Qed.

(** A consumer told to stop while it was consuming, or after it ended. *)
Definition told (c : consumer) : Prop :=
  stop c = true /\ caller c <> NotCalled /\ (at_ c = Ended \/ at_ c = Consuming /\ scheduled c = true) /\ (caller c = Gone -> _channel c <> Some true).

Lemma told_step c c' : consumer_step c c' -> told c -> told c' /\ (caller c = Gone -> caller c' = Gone /\ delivered c' = delivered c).
Proof.
  intros Hs (Hst & Hn & Ha & Hg). pose proof (shut_closed (_channel c)) as Hcl.
  destruct Hs as [Ht|[Ht|Ht]]; [destruct Ht as [c Hc|c Hc|c Hc|c Hc Ho|c Hc Ho]|destruct Ht as [c Hc]|destruct Ht as [c Hc|c Hc Hd|c Hc]];
    unfold told, after_failure; cbn; rewrite ?Hst; intuition congruence.
Qed.

(** C39. Stopping a consumer.  A consumer reports itself alive exactly while it consumes;
    its thread ends only when it is told to stop or the broker has cancelled its
    subscription, and an ended thread never consumes again.  From the moment it is told
    to stop it never goes round its loop again.  Told while it is consuming, it ends
    its loop and goes on with nothing else, and once the caller is back - because the
    thread ended, or because the wait ran out - no message is delivered any more. *)
Theorem consumer_stop_honoured (c : consumer) : consumer_reachable c ->
  (alive c = true <-> at_ c = Consuming)
  /\ (at_ c = Ended -> (stop c = true \/ cancelled c = true) /\
        forall c', rtc consumer_step c c' -> at_ c' = Ended /\ delivered c' = delivered c)
  /\ (stop c = true -> forall c', rtc consumer_step c c' -> stop c' = true /\ (rounds_left (at_ c') <= rounds_left (at_ c))%nat)
  /\ (caller c = NotCalled -> at_ c = Consuming -> _channel c = Some true ->
      forall c1 c2, stop_step c c1 -> rtc consumer_step c1 c2 ->
        (at_ c2 = Ended \/ at_ c2 = Consuming /\ exists c', thread_step c2 c' /\ at_ c' = Ended)
        /\ (caller c2 = Gone -> forall c3, rtc consumer_step c2 c3 -> delivered c3 = delivered c2)).
Proof.
  intros Hr. destruct (consumer_reachable_inv c Hr) as [Ha Hst He Hsc Hch]. split_and!; [done| | |].
  - intros Hc. split; [by apply He|]. intros c' Hrt. by apply ended_is_final.
  - intros Hs c' Hrt. clear -Hs Hrt. induction Hrt as [|x y z Hxy _ IH]; [done|].
    destruct (stop_is_final x y Hxy Hs) as [Hy Hle]. destruct (IH Hy). split; [done|lia].
  - intros Hn Hc Ho c1 c2 Hstop Hrt.
    assert (told c1) as H1 by (destruct Hstop; try congruence; unfold told; cbn; rewrite Ho, bool_decide_eq_true_2; naive_solver).
    assert (told c2) as H2 by (clear -H1 Hrt; induction Hrt as [|x y z Hxy _ IH]; [done|]; apply IH; by apply (told_step x)).
    split.
    + destruct H2 as (Hs2 & _ & [|[Hc2 Hsc2]] & _); [by left|]. right. split; [done|].
      eexists. split; [apply returned; by auto|done].
    + intros Hg c3 Hrt3. clear -H2 Hg Hrt3. induction Hrt3 as [|x y z Hxy _ IH]; [done|].
      destruct (told_step x y Hxy H2) as [Hy Hd]. destruct (Hd Hg) as [Hg' <-]. by apply IH.
Qed.

(** A subscription the broker cancels ends the thread as a stop would: nobody told it
    to stop, and nothing ever consumes its queue again. *)
Lemma cancelled_is_not_resumed : exists c, consumer_reachable c /\ stop c = false /\ caller c = NotCalled /\ at_ c = Ended
  /\ forall c', rtc consumer_step c c' -> at_ c' = Ended /\ delivered c' = delivered c.
Proof.
  exists (Consumer.mk Ended false (Some true) false true false NotCalled 0).
  split_and!; [|done..|intros c' Hc; by apply ended_is_final]. unfold consumer_reachable, Consumer.started.
  eapply rtc_l; [left; by apply check_stop|]. cbn.
  eapply rtc_l; [left; by apply set_up|]. cbn.
  eapply rtc_l; [right; left; by apply broker_cancels|]. cbn.
  eapply rtc_l; [left; apply returned; by auto|]. reflexivity.
Qed.

(** A consumer that is between two connections when it is told so is not interrupted:
    it connects, and consumes while its caller believes it stopped. *)
Lemma stop_can_be_missed : exists c c', consumer_reachable c /\ stop c = true /\ caller c = Gone
  /\ thread_step c c' /\ at_ c' = Consuming /\ delivered c' = S (delivered c).
Proof.
  exists (Consumer.mk Consuming true (Some true) false false true Gone 0). eexists. split_and!; [|done|done|by apply deliver|done|done].
  unfold consumer_reachable, Consumer.started.
  eapply rtc_l; [left; by apply check_stop|]. cbn.
  eapply rtc_l; [right; right; by apply stop_called|]. cbn.
  eapply rtc_l; [right; right; by apply timed_out|]. cbn.
  eapply rtc_l; [left; by apply set_up|]. cbn. reflexivity.
Qed.

(** ** At work *)

Module ConnectExample.
Definition consuming : consumer := Consumer.mk Consuming false (Some true) false false true NotCalled 0.
Definition stopping : consumer := Consumer.mk Consuming true (Some true) true false true Joining 0.
Lemma consuming_reachable : consumer_reachable consuming.
Proof.
  unfold consumer_reachable, Consumer.started. eapply rtc_l; [left; by apply check_stop|]. cbn. eapply rtc_l; [left; by apply set_up|]. reflexivity.
Qed.

Lemma consumer_stop_honoured_witness :
  consumer_reachable consuming /\ stop_step consuming stopping /\ exists c', thread_step stopping c' /\ at_ c' = Ended.
Proof.
  assert (stop_step consuming stopping) as Hs by exact (stop_called consuming eq_refl).
  split_and!; [exact consuming_reachable|exact Hs|].
  destruct (consumer_stop_honoured consuming consuming_reachable) as (_ & _ & _ & Hh).
  destruct (Hh eq_refl eq_refl eq_refl stopping stopping Hs (rtc_refl _ _)) as [[He|[_ He]] _]; [discriminate He|exact He].
Defined.

(** A broker in memory: its exchanges with their types, the seconds gone, whether it
    answers, and what it was asked. *)
Record broker := mk_broker { exchanges : list (ustr * ustr); seconds : Z; up_from : Z; asked : list string }.
Definition log (what : string) (b : broker) : broker := mk_broker (exchanges b) (seconds b) (up_from b) (asked b ++ [what]).
#[export] Instance toy_broker : Broker broker := {|
  monotonic := fun b => (b, of_Z (seconds b));
  sleep := fun i b => mk_broker (exchanges b) (seconds b + i) (up_from b) (asked b);
  dial := fun b => (log "dial" b, if up_from b <=? seconds b then Some (mk_connection 1) else None);
  is_closed := fun _ _ => false;
  close_connection := fun _ b => log "close" b;
  exchange_declare := fun _ name _ b =>
    match dget name (exchanges b) with
    | Some kind => if bool_decide (kind = u "fanout") then (log "declare" b, Fine tt)
                   else (log "refused" b, Broke (ChannelClosedByBroker 406 (Some (_PRECONDITION_TYPE_MISMATCH ++ u " 'analyzer'"))))
    | None => (mk_broker ((name, u "fanout") :: exchanges b) (seconds b) (up_from b) (asked b ++ ["declare"]), Fine tt)
    end;
  exchange_delete := fun _ name b => (mk_broker (List.filter (fun x => negb (bool_decide (x.1 = name))) (exchanges b)) (seconds b) (up_from b) (asked b ++ ["delete"]), Fine tt);
  queue_declare := fun _ _ b => (log "queue" b, Fine tt);
  queue_bind := fun _ _ _ b => (log "bind" b, Fine tt)
|}.
Definition defaults : settings := Settings.mk (u "analyzer") 1 300 2 true 1 true true true.
Definition with_legacy (up : Z) : broker := mk_broker [(u "analyzer", u "direct")] 1000 up [].

(** An exchange of another type is replaced. *)
Example legacy_replaced :
  let r := ensure_exchange defaults (u "1.0") 11 ONE_MINUTE (AmqpConnection.fresh, with_legacy 1003) in
  asked r.1.2 = ["dial"; "dial"; "dial"; "refused"; "delete"; "declare"] /\ exchanges r.1.2 = [(u "analyzer", u "fanout")] /\ r.2 = Fine tt.
Proof. vm_compute. done. Qed.

(** With the default settings eleven attempts are all there are. *)
Example eleven_attempts :
  let r := _connect_with_retry defaults 11 (with_legacy 5000) in
  r.2 = Some (Broke AmqpConnectionError) /\ length (asked r.1) = 11%nat /\ seconds r.1 = 1303.
Proof. vm_compute. done. Qed.
Example ten_sleeps : Settings.amqp_max_retry_time defaults <= slept defaults 10 (Settings.amqp_initial_retry_interval defaults).
Proof. vm_compute. discriminate. Qed.
End ConnectExample.
