(* ===== verification/Lifecycle.v ===== *)
(** * The life of the process

    [AnalyzerService.start] and [shutdown] of [service.py] and [run] of [main.py]: the
    parts that are started and stopped, in which order, and what a failing one stops;
    the signal handler; the health provider with the routes of [api/http.py] over it;
    and the small pieces of start-up: the version file, the embedder that may be
    missing, the pool probes of [db/pool.py]. *)

From S2P Require Import Prelude PyFloat PyStr PyText PyJson UrlCodec JsonText Emit Dispatch.
From Stdlib Require Import ZArith Lia.

#[local] Open Scope string_scope.
#[local] Open Scope list_scope.
#[local] Open Scope Z_scope.

(** ** Starting and stopping *)

(** The calls on the parts, and the readiness flag. *)
Inductive part_op :=
  | HttpStart | Bootstrapped | PoolOpened | SeedsLoaded
  | PublisherStart | WorkersStart | ConsumerStart (name : string) | Probe | SidecarStart | TimerStart | SetReady
  | ClearReady | ConsumerStop (name : string) | WorkersShutdown | TimerStop | SchedulerStop | SidecarStop | PublisherShutdown
  | HttpShutdown | PoolClosed.

Section Lifecycle.
(** What each call raises, if anything; the optional parts: the sidecar with its
    switch, the retrainer. *)
Context (outcome : part_op -> option pyexn) (sidecar : option bool) (retrainer : bool).
(** The state is [_ready]. *)
Abbreviation M := (M bool part_op).

Definition perform (o : part_op) : M unit := fun w =>
  (mk_world (st w) (trace w ++ [o]), match outcome o with Some e => Raise e | None => Ok tt end).
(** The flags cannot fail. *)
Definition set_ready (o : part_op) (b : bool) : M unit := fun w => (mk_world b (trace w ++ [o]), Ok tt).

Definition consumer_names : list string := ["all"; "train"].

Definition sidecar_enabled : bool := default false sidecar.

Definition _start_sidecar : M unit := if sidecar_enabled then attempt (perform Probe);; perform SidecarStart else mret tt.
Definition _start_retrain_timer : M unit :=
  if retrainer then perform TimerStart else mret tt.

Definition start : M unit :=
  perform PublisherStart;;
  perform WorkersStart;;
  forM (fun n => perform (ConsumerStart n)) consumer_names;;
  _start_sidecar;;
  _start_retrain_timer;;
  set_ready SetReady true.

(** [timer]: [_retrain_timer] is there, as [start] leaves it with a retrainer. *)
Definition shutdown (timer : bool) : M unit :=
  set_ready ClearReady false;;
  forM (fun n => perform (ConsumerStop n)) consumer_names;;
  perform WorkersShutdown;;
  (if timer then perform TimerStop else mret tt);;
  perform SchedulerStop;;
  (if bool_decide (is_Some sidecar) then perform SidecarStop else mret tt);;
  perform PublisherShutdown.

(** [try: m finally: f]. *)
Definition try_finally {A} (m : M A) (f : M unit) : M A := fun w =>
  let '(w, r) := m w in let '(w, r') := f w in (w, match r' with Raise e => Raise e | Ok _ => r end).

Definition cleanup : M unit := shutdown retrainer;; (perform HttpShutdown;; perform PoolClosed).

Definition wait_then_stop (waiting : result unit) : M Z := try_finally (of_result waiting) cleanup;; mret 0.

(** [run]: [waiting] is what the wait for the shutdown event ends with. *)
Definition run (waiting : result unit) : M Z :=
  perform HttpStart;;
  perform Bootstrapped;;
  perform PoolOpened;;
  perform SeedsLoaded;;
  start;;
  wait_then_stop waiting.

(** ** Laws *)

(** Without a failing call: what interrupted the wait, else 0. *)
Definition exit_of (waiting : result unit) : result Z := match waiting with Ok _ => Ok 0 | Raise e => Raise e end.

(** Every call in its order; the probe and the flags cannot stop it. *)
Definition start_ops : list part_op :=
  [PublisherStart; WorkersStart; ConsumerStart "all"; ConsumerStart "train"]
  ++ (if sidecar_enabled then [Probe; SidecarStart] else []) ++ (if retrainer then [TimerStart] else []) ++ [SetReady].
Definition shutdown_ops (timer : bool) : list part_op :=
  [ClearReady; ConsumerStop "all"; ConsumerStop "train"; WorkersShutdown] ++ (if timer then [TimerStop] else []) ++ [SchedulerStop]
  ++ (if bool_decide (is_Some sidecar) then [SidecarStop] else []) ++ [PublisherShutdown].
Definition run_ops : list part_op :=
  [HttpStart; Bootstrapped; PoolOpened; SeedsLoaded] ++ start_ops ++ shutdown_ops retrainer ++ [HttpShutdown; PoolClosed].

Definition failure (o : part_op) : option pyexn := match o with Probe | SetReady | ClearReady => None | _ => outcome o end.
(** The calls up to the first that fails, and its exception. *)
Fixpoint upto (l : list part_op) : list part_op * option pyexn :=
  match l with
  | [] => ([], None)
  | o :: l => match failure o with Some e => ([o], Some e) | None => (o :: (upto l).1, (upto l).2) end
  end.

(** A step does these calls, until one fails. *)
Definition does {A} (m : M A) (l : list part_op) : Prop := forall w,
  trace (m w).1 = trace w ++ (upto l).1 /\ match (upto l).2 with Some e => (m w).2 = Raise e | None => exists a, (m w).2 = Ok a end.

Lemma upto_app l l' : upto (l ++ l') = match (upto l).2 with Some e => ((upto l).1, Some e) | None => ((upto l).1 ++ (upto l').1, (upto l').2) end.
Proof.
  induction l as [|o l IH]; [cbn; by destruct (upto l')|]. cbn [app upto]. destruct (failure o) as [e|]; [done|]. cbn [fst snd].
  rewrite IH. by destruct (upto l).2.
Qed.

Lemma does_bind {A B} (m : M A) (k : A -> M B) l l' : does m l -> (forall a, does (k a) l') -> does (m ≫= k) (l ++ l').
Proof.
  intros Hm Hk w. destruct (Hm w) as [Ht Hr]. unfold mbind, M_bind. rewrite upto_app. destruct (m w) as [w1 r]. cbn [fst snd] in *.
  destruct (upto l).2 as [e|]; cbn [fst snd]; [by rewrite Hr|]. destruct Hr as [a ->]. destruct (Hk a w1) as [Ht' Hr'].
  split; [by rewrite Ht', Ht, <- app_assoc|exact Hr'].
Qed.

Lemma does_perform o : failure o = outcome o -> does (perform o) [o].
Proof. intros Hf w. cbn [upto]. rewrite Hf. unfold perform. cbn. destruct (outcome o); cbn; eauto. Qed.
Lemma does_flag o b : failure o = None -> does (set_ready o b) [o].
Proof. intros Hf w. cbn [upto]. rewrite Hf. cbn. eauto. Qed.
Lemma does_ret {A} (a : A) : does (mret a) [].
Proof. intros w. cbn. rewrite app_nil_r. eauto. Qed.
Lemma does_probe : does (attempt (perform Probe)) [Probe].
Proof. intros w. cbn. unfold attempt, perform. cbn. destruct (outcome Probe); cbn; eauto. Qed.

Lemma does_names (op : string -> part_op) l : (forall n, failure (op n) = outcome (op n)) -> does (forM (fun n => perform (op n)) l) (op <$> l).
Proof.
  intros Hf. induction l as [|n l IH]; [apply does_ret|]. cbn [forM fmap list_fmap]. apply (does_bind _ _ [op n]); [by apply does_perform|intros b].
  rewrite <- (app_nil_r (op <$> l)). apply does_bind; [exact IH|intros bs; apply does_ret].
Qed.
Lemma does_if b o : failure o = outcome o -> does (if b : bool then perform o else mret tt) (if b then [o] else []).
Proof. intros Hf. destruct b; [by apply does_perform|apply does_ret]. Qed.

Lemma does_start : does start start_ops.
Proof.
  unfold start. apply (does_bind _ _ [PublisherStart]); [by apply does_perform|intros _]. apply (does_bind _ _ [WorkersStart]); [by apply does_perform|intros _].
  apply (does_bind _ _ [ConsumerStart "all"; ConsumerStart "train"]); [|intros _].
  { by apply (does_names ConsumerStart). }
  apply does_bind; [|intros _; apply does_bind; [|intros _; by apply does_flag]].
  - unfold _start_sidecar. destruct sidecar_enabled; [|apply does_ret]. apply (does_bind _ _ [Probe]); [apply does_probe|intros _; by apply does_perform].
  - by apply does_if.
Qed.

Lemma does_shutdown timer : does (shutdown timer) (shutdown_ops timer).
Proof.
  unfold shutdown. apply (does_bind _ _ [ClearReady]); [by apply does_flag|intros _].
  apply (does_bind _ _ [ConsumerStop "all"; ConsumerStop "train"]); [by apply (does_names ConsumerStop)|intros _].
  apply (does_bind _ _ [WorkersShutdown]); [by apply does_perform|intros _]. apply does_bind; [by apply does_if|intros _].
  apply (does_bind _ _ [SchedulerStop]); [by apply does_perform|intros _]. apply does_bind; [by apply does_if|intros _]. by apply does_perform.
Qed.

Lemma does_cleanup : does cleanup (shutdown_ops retrainer ++ [HttpShutdown; PoolClosed]).
Proof.
  unfold cleanup. apply does_bind; [apply does_shutdown|intros _]. apply (does_bind _ _ [HttpShutdown]); [by apply does_perform|intros _]. by apply does_perform.
Qed.

(** Only the two flags change readiness. *)
Definition calm {A} (m : M A) : Prop := forall w, st (m w).1 = st w.
Lemma calm_perform o : calm (perform o).
Proof. done. Qed.
Lemma calm_ret {A} (a : A) : calm (mret a).
Proof. done. Qed.
Lemma calm_attempt {A} (m : M A) : calm m -> calm (attempt m).
Proof. intros Hm w. unfold attempt. specialize (Hm w). destruct (m w) as [w' []]; exact Hm. Qed.
Lemma calm_bind {A B} (m : M A) (k : A -> M B) : calm m -> (forall a, calm (k a)) -> calm (m ≫= k).
Proof. intros Hm Hk w. unfold mbind, M_bind. specialize (Hm w). destruct (m w) as [w' [a|]]; cbn in *; [by rewrite Hk|done]. Qed.
Lemma calm_names (op : string -> part_op) l : calm (forM (fun n => perform (op n)) l).
Proof. induction l as [|n l IH]; [done|]. cbn [forM]. apply calm_bind; [done|intros b]. by apply calm_bind. Qed.
#[local] Hint Resolve calm_perform calm_ret calm_attempt calm_bind calm_names : calm.
#[local] Ltac calming := repeat first [apply calm_bind; [|intros ?]|apply calm_names|apply calm_attempt|apply calm_perform|apply calm_ret|case_match].

(** An exception leaves readiness as it was; afterwards the service is not ready. *)
Definition late {A} (m : M A) : Prop := forall w e, (m w).2 = Raise e -> st (m w).1 = st w.
Definition downs {A} (m : M A) : Prop := forall w, st (m w).1 = false.
Lemma late_bind {A B} (m : M A) (k : A -> M B) : calm m -> (forall a, late (k a)) -> late (m ≫= k).
Proof. intros Hm Hk w e. unfold mbind, M_bind. specialize (Hm w). destruct (m w) as [w' [a|]]; cbn in *; [rewrite <- Hm; apply Hk|done]. Qed.
Lemma downs_bind {A B} (m : M A) (k : A -> M B) : downs m -> (forall a, calm (k a)) -> downs (m ≫= k).
Proof. intros Hm Hk w. unfold mbind, M_bind. specialize (Hm w). destruct (m w) as [w' [a|]]; cbn in *; [by rewrite Hk|done]. Qed.

Lemma late_start : late start.
Proof.
  unfold start, _start_sidecar, _start_retrain_timer. repeat (apply late_bind; [calming|intros _]). done.
Qed.
Lemma downs_cleanup : downs cleanup.
Proof. unfold cleanup, shutdown. apply downs_bind; [apply downs_bind; [done|intros _; calming]|intros _; calming]. Qed.

(** Calls in order, and what they end with if none fails. *)
Definition ends_with {A} (m : M A) (l : list part_op) (r : result A) : Prop := forall w,
  trace (m w).1 = trace w ++ (upto l).1 /\ (m w).2 = match (upto l).2 with Some e => Raise e | None => r end.
Lemma ordered_bind {A B} (m : M A) (k : A -> M B) l l' r : does m l -> (forall a, ends_with (k a) l' r) -> ends_with (m ≫= k) (l ++ l') r.
Proof.
  intros Hm Hk w. destruct (Hm w) as [Ht Hr]. unfold mbind, M_bind. rewrite upto_app. destruct (m w) as [w1 r1]. cbn [fst snd] in *.
  destruct (upto l).2 as [e|]; cbn [fst snd]; [by rewrite Hr|]. destruct Hr as [a ->]. destruct (Hk a w1) as [Ht' Hr'].
  split; [by rewrite Ht', Ht, <- app_assoc|exact Hr'].
Qed.

Lemma wait_and_clean waiting : ends_with (wait_then_stop waiting)
  (shutdown_ops retrainer ++ [HttpShutdown; PoolClosed]) (exit_of waiting).
Proof.
  intros w. destruct (does_cleanup w) as [Ht Hr]. unfold wait_then_stop, mbind, M_bind, try_finally, of_result.
  destruct (cleanup w) as [w1 r1]. cbn [fst snd] in *.
  destruct (upto _).2 as [e|]; [subst r1; done|]. destruct Hr as [a ->]. by destruct waiting.
Qed.

Lemma tail_down waiting : downs (wait_then_stop waiting).
Proof.
  unfold wait_then_stop. apply downs_bind; [|done]. intros w. pose proof (downs_cleanup w) as Hd. unfold try_finally, of_result. by destruct (cleanup w).
Qed.

Definition settles {A} (m : M A) : Prop := forall w, st w = false -> st (m w).1 = false.
Lemma settles_bind {A B} (m : M A) (k : A -> M B) : calm m -> (forall a, settles (k a)) -> settles (m ≫= k).
Proof. intros Hm Hk w Hw. unfold mbind, M_bind. specialize (Hm w). destruct (m w) as [w' [a|]]; cbn in *; [apply Hk|]; congruence. Qed.

Lemma run_settles waiting : settles (run waiting).
Proof.
  unfold run. do 4 (apply settles_bind; [done|intros _]). intros w Hw. unfold mbind, M_bind at 1.
  pose proof (late_start w) as Hl. destruct (start w) as [w' [a|e]]; [apply tail_down|]. exact (eq_trans (Hl e eq_refl) Hw).
Qed.

(** The life of the process.  Whatever the calls raise, [run] makes them in this
    order and stops at the first that fails, whose exception it ends with; only the
    model server's probe may fail without effect.  If none fails it ends with 0, or
    with what interrupted the wait - after the whole shutdown.  The service reports
    itself ready only between the last call of the start and the first of the
    shutdown, and not when the process ends. *)
Theorem run_in_order (waiting : result unit) :
  let '(w, r) := run waiting (mk_world false []) in
  trace w = (upto run_ops).1
  /\ r = match (upto run_ops).2 with Some e => Raise e | None => exit_of waiting end
  /\ st w = false.
Proof.
  assert (ends_with (run waiting) run_ops (exit_of waiting)) as He.
  { unfold run, run_ops. cbn [app]. do 4 (apply (ordered_bind _ _ [_]); [by apply does_perform|intros _]).
    apply ordered_bind; [apply does_start|intros _; apply wait_and_clean]. }
  pose proof (run_settles waiting (mk_world false []) eq_refl) as Hs. destruct (He (mk_world false [])) as [Ht Hr]. by destruct (run waiting _).
Qed.
End Lifecycle.

(** ** Signals *)

(** The handler: what it leaves of the counter and the shutdown event, and whether it
    leaves the process at once. *)
Definition on_signal (s : Z * bool) : (Z * bool) * option Z :=
  let count := s.1 + 1 in
  if 2 <=? count then ((count, s.2), Some 130) else ((count, true), None).

(** ** The version, the embedder, the pool *)

Definition read_app_version (candidates : list (option ustr)) : ustr :=
  match omap (fun text => match ustrip_by uspace <$> text with Some [] | None => None | s => s end) candidates with
  | text :: _ => text
  | [] => u "0.0.0"
  end.

(** [_resolve_embedder]: the state is cached; an injected embedder is taken as it is; a
    load that raises leaves the service lexical only.  An embedder is its tag. *)
Definition EmbedderState : Type := option ustr * Z * ustr.
Definition _resolve_embedder (EMB_MODEL_VERSION : Z) (injected : option ustr) (load : result ustr) (cached : option EmbedderState) : EmbedderState :=
  match cached with
  | Some s => s
  | None =>
      match (match injected with Some e => Some e | None => match load with Ok e => Some e | Raise _ => None end end) with
      | Some tag => (Some tag, EMB_MODEL_VERSION, tag)
      | None => (None, 0, u "none")
      end
  end.
(** What the service reports: [None] without an embedder. *)
Definition reported_emb (s : EmbedderState) : option ustr := s.1.1 ≫= fun _ => Some s.2.

(** [check_pg] and [pool_in_use] of a pool, or of none. *)
Definition check_pg (pool : option (result unit)) : bool := match pool with Some (Ok _) => true | _ => false end.
Definition pool_in_use (stats : option (result (list (string * Z)))) : Z :=
  match stats with Some (Ok d) => dgetd "pool_size" 0 d - dgetd "pool_available" 0 d | _ => 0 end.

(** ** The health provider *)

Import ProcessingItem (routing_key, correlation_id, send_time).

Module Provider.
Record t := mk {
  version : ustr; emb_model_ver : option ustr; gbm_model_ver : option ustr; is_ready : bool;
  consumers : list (string * bool);              (* name, alive *)
  pool : option (result unit);                   (* SELECT 1 on it *)
  running : list item;
  daily : option (result json);                  (* metrics_summary of the store *)
  llm : option (bool * json)                     (* the sidecar: enabled, its health *)
}.
End Provider.
Import Provider (version, emb_model_ver, gbm_model_ver, is_ready, consumers, pool, running, daily, llm).
Abbreviation provider := Provider.t.

(** [live or injected]. *)
Definition gbm_version_of (live injected : option ustr) : option ustr := match live with Some (_ :: _) => live | _ => injected end.

Definition amqp_ok (p : provider) : bool := forallb snd (consumers p).
Definition pg_ok (p : provider) : bool := check_pg (pool p).
Definition running_task (i : item) : json :=
  JObj [("routing_key", JStr (key_text (routing_key i))); ("correlation_id", JStr (key_text (correlation_id i))); ("send_time", match send_time i with Some t => JFloat t | None => JNull end)].
Definition thread_status (name status : string) (tasks : list json) : json :=
  JObj [("name", jstr name); ("status", jstr status); ("running_tasks", JObj [("number", JInt (Z.of_nat (length tasks))); ("tasks", JList tasks)])].
Definition thread_statuses (p : provider) : json :=
  JList (((fun c => thread_status c.1 (if c.2 : bool then "alive" else "dead") []) <$> consumers p) ++ [thread_status "workers" "alive" (running_task <$> running p)]).
Definition metrics_summary (p : provider) : json := match daily p with Some (Ok j) => j | _ => JNull end.
Definition llm_health (p : provider) : json := match llm p with Some (true, h) => h | _ => JObj [("enabled", JBool false)] end.

(** ** The routes *)

Definition opt_str (o : option ustr) : json := match o with Some s => JStr s | None => JNull end.

Definition root (p : provider) : Z * json :=
  if negb (pg_ok p) then (503, JObj [("status", jstr "PostgreSQL is not healthy")])
  else (200, JObj [("status", jstr "healthy"); ("threads", thread_statuses p)]).

Definition health_route (p : provider) : Z * json :=
  let ready := is_ready p in
  (if ready then 200 else 503,
   JObj [("live", JBool true); ("ready", JBool ready); ("pg", JBool (pg_ok p)); ("amqp", JBool (amqp_ok p)); ("emb_model_ver", opt_str (emb_model_ver p));
         ("gbm_model_ver", opt_str (gbm_model_ver p)); ("version", JStr (version p)); ("metrics", metrics_summary p); ("llm", llm_health p)]).

(** Neither route raises, whatever the database does: their answers say what failed. *)
Lemma routes_answer p :
  ((root p).1 = 200 <-> exists x, pool p = Some (Ok x)) /\ ((root p).1 <> 200 -> (root p).1 = 503)
  /\ ((health_route p).1 = 200 <-> is_ready p = true) /\ ((health_route p).1 <> 200 -> (health_route p).1 = 503)
  /\ exists d, (health_route p).2 = JObj d /\ jget "pg" d = JBool (pg_ok p) /\ (jget "amqp" d = JBool true <-> forall c, c ∈ consumers p -> c.2 = true)
     /\ (forall e, daily p = Some (Raise e) -> jget "metrics" d = JNull).
Proof.
  split_and!.
  - unfold root, pg_ok, check_pg. destruct (pool p) as [[[]|]|]; cbn; naive_solver.
  - unfold root. destruct (pg_ok p); cbn; lia.
  - unfold health_route. destruct (is_ready p); cbn; naive_solver lia.
  - unfold health_route. destruct (is_ready p); cbn; lia.
  - eexists. split; [reflexivity|]. split_and!; [done| |].
    + unfold jget, dgetd. cbn. unfold amqp_ok. change (JBool (forallb snd (consumers p)) = JBool true <-> forall c, c ∈ consumers p -> c.2 = true). split.
      * intros [= H] c Hc. rewrite forallb_forall in H. apply H. by apply list_elem_of_In.
      * intros H. f_equal. apply forallb_forall. intros c Hc. apply H. by apply list_elem_of_In.
    + intros e He. cbn. unfold metrics_summary. by rewrite He.
Qed.

(** A signal asks for a shutdown; the second one leaves at once. *)
Lemma two_signals flag : on_signal (0, flag) = ((1, true), None) /\ (on_signal (on_signal (0, flag)).1).2 = Some 130.
Proof. done. Qed.

(** ** At work *)

Module LifecycleExample.
(** The broker is away when the publisher starts: nothing after it is tried, the pool
    stays open. *)
Example broker_away :
  let r := run (fun o => match o with PublisherStart => Some (OtherError "AmqpConnectionError") | _ => None end) None true (Ok tt) (mk_world false []) in
  trace r.1 = [HttpStart; Bootstrapped; PoolOpened; SeedsLoaded; PublisherStart] /\ r.2 = Raise (OtherError "AmqpConnectionError").
Proof. vm_compute. done. Qed.

(** The model server is away: the service starts without it. *)
Example model_away :
  let r := run (fun o => match o with Probe => Some (OtherError "boom") | _ => None end) (Some true) true (Ok tt) (mk_world false []) in
  trace r.1 = run_ops (Some true) true /\ r.2 = Ok 0.
Proof. vm_compute. done. Qed.

Example no_embedder : _resolve_embedder 8 None (Raise (OtherError "OSError")) None = (None, 0, u "none") /\ reported_emb (None, 0, u "none") = None.
Proof. done. Qed.

Example version_file : read_app_version [None; Some (u " "); Some (u " 1.2.3" ++ [10%N])] = u "1.2.3" /\ read_app_version [None] = u "0.0.0".
Proof. vm_compute. done. Qed.
End LifecycleExample.
