(* ===== verification/RpMigrate.v ===== *)
(** * Replaying launches into another instance

    [tools/rp-migrate/migrate.py]: the API client's retry after a refused token and
    its paging, the item tree of a launch, pruning of passed subtrees, the defect
    types, the replay of one launch and of its defects, and the selection.  The two
    servers are operations; arguments, the environment file and printing are not
    modelled. *)

From S2P Require Import Prelude PyFloat PyStr PyText PyJson UrlCodec JsonText PyNum Regex Emit.
From Stdlib Require Import ZArith Lia Relations.

#[local] Open Scope string_scope.
#[local] Open Scope list_scope.
#[local] Open Scope Z_scope.

Definition DEFAULT_ISSUE_LOCATORS : list ustr := u <$> ["pb001"; "ab001"; "si001"; "nd001"; "ti001"].
Definition BATCH_DEFECTS : nat := 20.
Definition PAGE_SIZE : Z := 200.

(** ** The client *)

(** One request through [_send]: the status and body of an attempt, and whether a new
    login succeeds. *)
Section Send.
Context {W : Type} (attempt : W -> W * (Z * json)) (login : W -> W * bool).
Definition _send (w : W) : W * (Z * json) :=
  let '(w1, r) := attempt w in
  if r.1 =? 401 then let '(w2, again) := login w1 in if again then attempt w2 else (w2, r) else (w1, r).
End Send.

(** [get], [post] and [put]: an error status raises, with the status in its text. *)
Definition HttpError (status : Z) : pyexn := OtherError ("RuntimeError " +:+ str_of_Z status).
Definition checked (r : Z * json) : result json := if 400 <=? r.1 then Raise (HttpError r.1) else Ok r.2.

(** [paged]: the pages of a listing, each with its content and the total it claims. *)
Definition page_of (data : json) : result (list json * Z) :=
  content ← py_get data "content" (JList []);
  rows ← py_iter content;
  page ← py_get data "page" (JObj []);
  total ← py_get page "totalPages" (JInt 1);
  match total with JInt n => Ok (rows, n) | _ => Raise TypeError end.
Fixpoint paged (fuel : nat) (get : Z -> result json) (page : Z) : option (result (list json)) :=
  match fuel with
  | O => None
  | S fuel =>
      match (data ← get page; page_of data) with
      | Raise e => Some (Raise e)
      | Ok (content, total) =>
          if (total <=? page) || bool_decide (content = []) then Some (Ok content)
          else match paged fuel get (page + 1) with
               | Some (Ok rest) => Some (Ok (content ++ rest))
               | other => other
               end
      end
  end.

(** [_items_filtered]: the second order is tried when the first is rejected. *)
Definition _items_filtered {A} (listing : string -> result A) : result A :=
  match listing "id,ASC" with
  | Raise e =>
      if bool_decide (e = HttpError 400) then listing "startTime,ASC" else Raise e
  | r => r
  end.

(** ** Items *)

(** An item of the source: its id, its parent, and the object it came in. *)
Module Item.
Record t := mk { id : Z; parent : option Z; fields : list (string * json) }.
End Item.
Abbreviation item := Item.t.
Import Item (id, parent, fields).
Definition has_children (it : item) : bool := truthy (jget "hasChildren" (fields it)).

(** The issue of an item: its locator, its comment, whether the analyzer is to ignore it. *)
Module Issue.
Record t := mk { issueType : json; comment : json; ignoreAnalyzer : bool }.
End Issue.

(** A defect type of a project's settings. *)
Module Subtype.
Record t := mk { locator : ustr; group : ustr; longName : ustr; shortName : option ustr; color : option ustr }.
End Subtype.
Abbreviation subtype := Subtype.t.

(** [items.sort(key=id)]. *)
Definition id_leb (a b : item) : bool := id a <=? id b.

Section Tree.
(** What the listing of a parent's children answers. *)
Context (children_of : Z -> result (list item)).

(** The stack is kept with its top first.  [None]: the fuel is spent. *)
Definition add_child (acc : list item * list item * gset Z) (child : item) : list item * list item * gset Z :=
  let '(items, frontier, seen) := acc in
  if bool_decide (id child ∈ seen) then acc
  else (items ++ [child], if has_children child then child :: frontier else frontier, {[id child]} ∪ seen).
Fixpoint walk (fuel : nat) (items frontier : list item) (seen : gset Z) : option (result (list item)) :=
  match fuel with
  | O => None
  | S fuel =>
      match frontier with
      | [] => Some (Ok items)
      | p :: frontier =>
          match children_of (id p) with
          | Raise e => Some (Raise e)
          | Ok children => let '(items, frontier, seen) := fold_left add_child children (items, frontier, seen) in walk fuel items frontier seen
          end
      end
  end.
Definition items_of_launch (fuel : nat) (listed : result (list item)) : option (result (list item)) :=
  match listed with
  | Raise e => Some (Raise e)
  | Ok items =>
      match walk fuel items (rev (List.filter has_children items)) (list_to_set (id <$> items)) with
      | Some (Ok items) => Some (Ok (pysorted id_leb items))
      | other => other
      end
  end.
End Tree.

(** ** Helpers *)

Section Text.
(** [datetime.fromisoformat] of a text in milliseconds, the rendering of one, and
    [str.upper]. *)
Context `{!PyRepr, !Unicode} (from_iso : ustr -> option Z) (iso : Z -> ustr) (upper : ustr -> ustr).

Definition norm_ts (value : json) : result Z :=
  match value with
  | JNull => Ok 0
  | JInt _ | JFloat _ | JBool _ => py_int value
  | _ => Ok (default 0 (from_iso (py_str value)))
  end.

Definition or_text (j : json) : json := if truthy j then j else JStr [].

Definition or_list (j : json) : json := if truthy j then j else JList [].

Definition clean_attribute (a : json) : result (list json) :=
  system ← py_get a "system" JNull;
  if truthy system then Ok []
  else value ← py_get a "value" (JStr []); key ← py_get a "key" JNull;
       Ok [JObj (("value", value) :: if truthy key then [("key", key)] else [])].
Definition clean_attributes (attrs : json) : result json :=
  l ← py_iter (or_list attrs); cleaned ← rmapM clean_attribute l; Ok (JList (mjoin cleaned)).

(** ** Passed subtrees *)

Definition passed (it : item) : result bool :=
  match or_text (jget "status" (fields it)) with
  | JStr s => Ok (bool_decide (upper s = u "PASSED"))
  | _ => Raise AttributeError
  end.
Definition children_in (items : list item) (p : option Z) : list item := List.filter (fun it => bool_decide (parent it = p)) items.

(** The set of kept ids, and whether the item is in it.  Depth is at most the number
    of items. *)
Fixpoint visit (fuel : nat) (items : list item) (keep : gset Z) (it : item) : result (gset Z * bool) :=
  match fuel with
  | O => Ok (keep, false)
  | S fuel =>
      kc ← (fix children (l : list item) (keep : gset Z) (kept_child : bool) : result (gset Z * bool) :=
              match l with
              | [] => Ok (keep, kept_child)
              | c :: l => r ← visit fuel items keep c; children l r.1 (r.2 || kept_child)
              end) (children_in items (Some (id it))) keep false;
      if kc.2 : bool then Ok ({[id it]} ∪ kc.1, true)
      else p ← passed it; if p : bool then Ok (kc.1, false) else Ok ({[id it]} ∪ kc.1, true)
  end.
Fixpoint visit_all (fuel : nat) (items : list item) (roots : list item) (keep : gset Z) : result (gset Z) :=
  match roots with
  | [] => Ok keep
  | r :: roots => k ← visit fuel items keep r; visit_all fuel items roots k.1
  end.
Definition drop_passed (items : list item) : result (list item) :=
  keep ← visit_all (S (length items)) items (children_in items None) ∅;
  Ok (List.filter (fun it => bool_decide (id it ∈ keep)) items).

(** ** The replay of a launch *)

(** The requests of the target, and the reads of the source made on the way. *)
Class Servers (St : Type) := {
  post_launch : json -> St -> St * result ustr;
  post_item : option ustr -> json -> St -> St * result ustr;
  finish_item : ustr -> json -> St -> St * result unit;
  finish_launch : ustr -> json -> St -> St * result unit;
  logs_of_item : Z -> St -> St * result (list json);
  get_bytes : json -> St -> St * result ustr;
  post_file : json -> ustr -> St -> St * result Z;                (* the status *)
  post_log : json -> St -> St * result unit;
  resolve_uuid : ustr -> St -> St * result Z;
  put_issues : list json -> St -> St * result unit;
  launch_exists : json -> Z -> St -> St * result bool;
  create_subtype : ustr -> ustr -> ustr -> ustr -> St -> St * result ustr
}.

Inductive request :=
  | LaunchStarted (uuid : ustr)
  | ItemStarted (i : Z) (parent_uuid : option ustr) (uuid : ustr)
  | LogsListed (i : Z) (logs : list json)
  | LogSent (file : bool) (body : json)
  | ItemFinished (uuid : ustr)
  | LaunchFinished (uuid : ustr)
  | IssuesPut (chunk : list json)
  | SubtypeCreated (group name locator : ustr).

Section Replay.
Context {St : Type} `{!Servers St}.
Abbreviation M := (M St request).

(** A request, recorded with its answer when it succeeds. *)
Definition sent {A} (f : St -> St * result A) (ev : A -> request) : M A := fun w =>
  let '(s, r) := f (st w) in (mk_world s (trace w ++ match r with Ok a => [ev a] | Raise _ => [] end), r).
Definition asked {A} (f : St -> St * result A) : M A := fun w => let '(s, r) := f (st w) in (mk_world s (trace w), r).

Definition cut_name (j : json) : result json :=
  match j with JStr s => Ok (JStr (take 1024 s)) | JList l => Ok (JList (take 1024 l)) | _ => Raise TypeError end.
Definition field (it : item) (k : string) (dflt : json) : json := dgetd k dflt (fields it).
Definition clean_parameter (p : json) : result json :=
  k ← py_get p "key" (JStr []); v ← py_get p "value" (JStr []); Ok (JObj [("key", k); ("value", v)]).
Definition when (b : bool) (kv : string * json) : list (string * json) := if b then [kv] else [].

Definition item_body (luuid : ustr) (it : item) : result json :=
  name ← cut_name (field it "name" (JStr []));
  start ← norm_ts (field it "startTime" JNull);
  attrs ← clean_attributes (field it "attributes" JNull);
  let params := field it "parameters" JNull in
  ps ← (if truthy params then l ← py_iter params; ps ← rmapM clean_parameter l; Ok [("parameters", JList ps)] else Ok []);
  Ok (JObj ([("name", name); ("startTime", JStr (iso start)); ("type", field it "type" (jstr "STEP")); ("launchUuid", JStr luuid);
             ("description", or_text (field it "description" JNull)); ("attributes", attrs)]
       ++ ps ++ when (truthy (field it "codeRef" JNull)) ("codeRef", field it "codeRef" JNull)
       ++ when (bool_decide (field it "hasStats" JNull = JBool false)) ("hasStats", JBool false)
       ++ when (truthy (field it "retry" JNull) || truthy (field it "retryOf" JNull)) ("retry", JBool true))).

Definition log_body (luuid item_uuid : ustr) (log : list (string * json)) : result json :=
  let time := let t := jget "logTime" log in if truthy t then t else jget "time" log in
  ms ← norm_ts time;
  level ← (match (let l := jget "level" log in if truthy l then l else jstr "INFO") with JStr s => Ok (JStr (ulower s)) | _ => Raise AttributeError end);
  Ok (JObj [("launchUuid", JStr luuid); ("itemUuid", JStr item_uuid); ("time", JStr (iso ms)); ("message", dgetd "message" (JStr []) log); ("level", level)]).

Definition with_file (b : json) (name : ustr) : json :=
  match b with JObj d => JObj (d ++ [("file", JObj [("name", JStr name)])]) | _ => b end.

(** The multipart upload: did the server take it? *)
Definition send_file (body binary : json) (blob : ustr) : M bool := fun w =>
  match post_file (with_file body (u "attachment-" ++ py_str binary)) blob (st w) with
  | (s, Ok status) => (mk_world s (trace w ++ if status <? 400 then [LogSent true body] else []), Ok (status <? 400))
  | (s, Raise e) => (mk_world s (trace w), Raise e)
  end.
Definition upload (body binary : json) : M bool := blob ← asked (get_bytes binary); send_file body binary blob.

(** [replay_log]: an attachment that does not go through leaves the text. *)
Definition replay_log (luuid item_uuid : ustr) (transfer_attachments : bool) (log : json) : M unit :=
  match log with
  | JObj d =>
      body ← of_result (log_body luuid item_uuid d);
      binary ← of_result (py_get (let b := jget "binaryContent" d in if truthy b then b else JObj []) "id" JNull);
      uploaded ← (if transfer_attachments && truthy binary then attempt (upload body binary) else mret (Some false));
      if bool_decide (uploaded = Some true) then mret tt else sent (post_log body) (fun _ => LogSent false body)
  | _ => raise AttributeError
  end.

Definition issue_of_item (it : item) : result (option Issue.t) :=
  match (let i := field it "issue" JNull in if truthy i then i else JObj []) with
  | JObj d => Ok (if truthy (jget "issueType" d) then Some (Issue.mk (jget "issueType" d) (or_text (jget "comment" d)) (truthy (jget "ignoreAnalyzer" d))) else None)
  | _ => Raise AttributeError
  end.

(** [uuid_of.get(parent)] for a parent that is there. *)
Definition parent_uuid (uuids : list (Z * ustr)) (it : item) : option ustr := match (parent it ≫= fun p => if p =? 0 then None else dget p uuids) with Some [] => None | up => up end.

Fixpoint replay_items (luuid : ustr) (transfer_attachments : bool) (items : list item) (uuids : list (Z * ustr)) (issues : list (Z * Issue.t))
    : M (list (Z * ustr) * list (Z * Issue.t)) :=
  match items with
  | [] => mret (uuids, issues)
  | it :: items =>
      body ← of_result (item_body luuid it);
      let up := parent_uuid uuids it in
      uuid ← sent (post_item up body) (fun x => ItemStarted (id it) up x);
      issue ← of_result (issue_of_item it);
      logs ← sent (logs_of_item (id it)) (LogsListed (id it));
      forM (replay_log luuid uuid transfer_attachments) logs;;
      replay_items luuid transfer_attachments items (dset (id it) uuid uuids) (match issue with Some i => dset (id it) i issues | None => issues end)
  end.

(** [norm_ts(endTime) or norm_ts(startTime)]. *)
Definition end_or_start (it : item) : result Z :=
  e ← norm_ts (field it "endTime" JNull); if e =? 0 then norm_ts (field it "startTime" JNull) else Ok e.
Definition finish_body (luuid : ustr) (it : item) : result json :=
  ms ← end_or_start it;
  Ok (JObj ([("endTime", JStr (iso ms)); ("launchUuid", JStr luuid)] ++ when (truthy (field it "status" JNull)) ("status", field it "status" JNull))).
Fixpoint finish_items (luuid : ustr) (uuids : list (Z * ustr)) (items : list item) : M unit :=
  match items with
  | [] => mret tt
  | it :: items =>
      body ← of_result (finish_body luuid it);
      let uuid := default [] (dget (id it) uuids) in
      sent (finish_item uuid body) (fun _ => ItemFinished uuid);;
      finish_items luuid uuids items
  end.

Definition launch_body (launch : item) : result json :=
  start ← norm_ts (field launch "startTime" JNull);
  attrs ← clean_attributes (field launch "attributes" JNull);
  Ok (JObj [("name", field launch "name" (JStr (u "launch " ++ u (str_of_Z (id launch))))); ("startTime", JStr (iso start)); ("mode", field launch "mode" (jstr "DEFAULT"));
            ("description", or_text (field launch "description" JNull)); ("attributes", attrs)]).

Definition migrate_launch (transfer_attachments : bool) (launch : item) (items : list item) : M (ustr * list (Z * ustr) * list (Z * Issue.t)) :=
  body ← of_result (launch_body launch);
  luuid ← sent (post_launch body) LaunchStarted;
  maps ← replay_items luuid transfer_attachments items [] [];
  finish_items luuid maps.1 (rev items);;
  ms ← of_result (end_or_start launch);
  sent (finish_launch luuid (JObj [("endTime", JStr (iso ms))])) (fun _ => LaunchFinished luuid);;
  mret (luuid, maps.1, maps.2).

(** ** The defects *)

Definition locator_text (j : json) : ustr := match j with JStr s => s | _ => [] end.
Definition target_of (locators : list (ustr * ustr)) (i : Issue.t) : ustr := dgetd (locator_text (Issue.issueType i)) (locator_text (Issue.issueType i)) locators.
Definition stays_ti (target : ustr) : bool := starts (ulower target) (u "ti").
Definition update_body (dst_id : Z) (target : ustr) (i : Issue.t) : json :=
  JObj [("testItemId", JInt dst_id);
        ("issue", JObj [("issueType", JStr target); ("comment", Issue.comment i); ("ignoreAnalyzer", JBool (Issue.ignoreAnalyzer i)); ("autoAnalyzed", JBool false)])].

Fixpoint collect_updates (uuids : list (Z * ustr)) (locators : list (ustr * ustr)) (issues : list (Z * Issue.t)) (applied : list (Z * ustr)) (updates : list json)
    : M (list (Z * ustr) * list json) :=
  match issues with
  | [] => mret (applied, updates)
  | (src_id, i) :: issues =>
      let target := target_of locators i in
      if stays_ti target then collect_updates uuids locators issues applied updates
      else
        uuid ← of_result (match dget src_id uuids with Some x => Ok x | None => Raise (KeyError (str_of_Z src_id)) end);
        dst_id ← asked (resolve_uuid uuid);
        collect_updates uuids locators issues (dset dst_id target applied) (updates ++ [update_body dst_id target i])
  end.

(** [range(0, len(updates), BATCH_DEFECTS)]. *)
Fixpoint chunks (fuel : nat) (l : list json) : list (list json) :=
  match fuel, l with
  | S fuel, _ :: _ => take BATCH_DEFECTS l :: chunks fuel (drop BATCH_DEFECTS l)
  | _, _ => []
  end.
Definition replay_defects (uuids : list (Z * ustr)) (issues : list (Z * Issue.t)) (locators : list (ustr * ustr)) : M (list (Z * ustr)) :=
  r ← collect_updates uuids locators issues [] [];
  forM (fun c => sent (put_issues c) (fun _ => IssuesPut c)) (chunks (length r.2) r.2);;
  mret r.1.

(** ** Defect types *)

(** [(group, longName.strip().lower())]. *)
Definition type_key (t : subtype) : ustr * ustr := (Subtype.group t, ulower (ustrip (Subtype.longName t))).
(** The settings by locator, as [flat] lays them out. *)
Definition flat (types : list subtype) : list (ustr * subtype) := fold_left (fun d t => dset (Subtype.locator t) t d) types [].

Fixpoint sync_loop (src_types : list (ustr * subtype)) (custom : list ustr) (dst_by_name : list ((ustr * ustr) * ustr)) (mapping : list (ustr * ustr))
    : M (list (ustr * ustr)) :=
  match custom with
  | [] => mret mapping
  | loc :: custom =>
      match dget loc src_types with
      | None => sync_loop src_types custom dst_by_name (dset loc loc mapping)
      | Some t =>
          match dget (type_key t) dst_by_name with
          | Some there => sync_loop src_types custom dst_by_name (dset loc there mapping)
          | None =>
              new_loc ← sent (create_subtype (Subtype.group t) (Subtype.longName t)
                                (default (upper (take 4 (Subtype.longName t))) (Subtype.shortName t)) (default (u "#777777") (Subtype.color t)))
                             (fun l => SubtypeCreated (Subtype.group t) (Subtype.longName t) l);
              let target := match new_loc with [] => loc | _ => new_loc end in
              sync_loop src_types custom (dset (type_key t) target dst_by_name) (dset loc target mapping)
          end
      end
  end.
Definition sync_defect_types (src_types dst_types : list subtype) (needed : list ustr) : M (list (ustr * ustr)) :=
  let builtin := List.filter (fun l => bool_decide (l ∈ DEFAULT_ISSUE_LOCATORS)) needed in
  let custom := List.filter (fun l => negb (bool_decide (l ∈ DEFAULT_ISSUE_LOCATORS))) needed in
  let mapping := fold_left (fun d l => dset l l d) builtin [] in
  match custom with
  | [] => mret mapping
  | _ =>
      let dst_by_name := fold_left (fun d lt => dset (type_key lt.2) lt.1 d) (flat dst_types) [] in
      sync_loop (flat src_types) (pysorted text_leb custom) dst_by_name mapping
  end.

(** ** Selection, and the run *)

Definition filter_by_name (launches : list item) (name : option ustr) : list item :=
  match name with
  | Some ((_ :: _) as n) => List.filter (fun la => bool_decide (or_text (field la "name" JNull) = JStr n)) launches
  | _ => launches
  end.
Definition last_n {A} (n : Z) (l : list A) : list A := drop (length l - Z.to_nat n) l.
Definition resolve_skip_defects (launches : list item) (explicit : list Z) (skip_last : Z) : gset Z :=
  list_to_set explicit ∪ (if 0 <? skip_last then list_to_set (id <$> last_n skip_last launches) else ∅).

(** The launches one after the other; what is left to replay afterwards. *)
Fixpoint migrate_all (transfer_attachments skip_all : bool) (skip : gset Z) (items_by_launch : Z -> list item) (launches : list item)
    (pending : list (list (Z * ustr) * list (Z * Issue.t))) : M (list (list (Z * ustr) * list (Z * Issue.t))) :=
  match launches with
  | [] => mret pending
  | la :: launches =>
      start ← of_result (norm_ts (field la "startTime" JNull));
      there ← asked (launch_exists (field la "name" (JStr [])) start);
      if there : bool then migrate_all transfer_attachments skip_all skip items_by_launch launches pending
      else
        r ← migrate_launch transfer_attachments la (items_by_launch (id la));
        let replay := negb skip_all && negb (bool_decide (id la ∈ skip)) && negb (bool_decide (r.2 = [])) in
        migrate_all transfer_attachments skip_all skip items_by_launch launches (if replay then pending ++ [(r.1.2, r.2)] else pending)
  end.
Fixpoint replay_all (locators : list (ustr * ustr)) (pending : list (list (Z * ustr) * list (Z * Issue.t))) (applied : list (Z * ustr)) : M (list (Z * ustr)) :=
  match pending with
  | [] => mret applied
  | p :: pending => a ← replay_defects p.1 p.2 locators; replay_all locators pending (fold_left (fun d kv => dset kv.1 kv.2 d) a applied)
  end.
End Replay.
End Text.

(** ** Laws of the replay *)

Section ReplayLaws.
Context `{!PyRepr, !Unicode} (from_iso : ustr -> option Z) (iso : Z -> ustr) (upper : ustr -> ustr).
Context {St : Type} `{!Servers St}.

Definition started (e : request) : option (Z * option ustr * ustr) := match e with ItemStarted i up x => Some (i, up, x) | _ => None end.
Lemma emits_sent {A} (f : St -> St * result A) ev (P : list request -> result A -> Prop) :
  (forall a, P [ev a] (Ok a)) -> (forall e, P [] (Raise e)) -> emits (sent f ev) P.
Proof. intros Ha He w. unfold sent. destruct (f (st w)) as [s [a|e]]; eexists; (split; [reflexivity|]); [apply Ha|apply He]. Qed.
Lemma emits_asked {A} (f : St -> St * result A) (P : list request -> result A -> Prop) : (forall r, P [] r) -> emits (Ev := request) (asked f) P.
Proof. intros Hr w. exists []. unfold asked. destruct (f (st w)) as [s r]. split; [by rewrite app_nil_r|apply Hr]. Qed.

(** The body of a log goes out once, with its attachment or without it. *)
Definition logged (luuid x : ustr) (log : json) (e : request) : Prop :=
  exists d body file, log = JObj d /\ log_body from_iso iso luuid x d = Ok body /\ e = LogSent file body.

Lemma upload_emits body binary : emits (attempt (upload (St := St) body binary)) (fun tr r =>
  r = Ok (Some true) /\ tr = [LogSent true body] \/ exists o, r = Ok o /\ o <> Some true /\ tr = []).
Proof.
  intros w. unfold attempt, upload, mbind, M_bind, asked. destruct (get_bytes binary (st w)) as [s [blob|e]];
    [|exists []; rewrite app_nil_r; split; [done|right; by exists None]].
  unfold send_file. destruct (post_file _ _ _) as [s2 [status|e]]; [|exists []; rewrite app_nil_r; split; [done|right; by exists None]].
  destruct (status <? 400); eexists; (split; [reflexivity|]); [by left|right; by exists (Some false)].
Qed.

Lemma replay_log_emits luuid x ta log : emits (replay_log from_iso iso (St := St) luuid x ta log) (fun tr r =>
  match r with Ok _ => exists e, tr = [e] /\ logged luuid x log e | Raise _ => tr = [] end).
Proof.
  destruct log as [| | | | | |d]; try (by apply emits_raise). unfold replay_log.
  apply emits_known; [intros body Eb|done]. apply emits_known; [intros binary _|done].
  assert (forall file, logged luuid x (JObj d) (LogSent file body)) as Hl by (intros file; by exists d, body, file).
  eapply emits_bind with (P := fun tr r => r = Ok (Some true) /\ tr = [LogSent true body] \/ exists o, r = Ok o /\ o <> Some true /\ tr = [])
    (Q := fun o tr r => match r with Ok _ => if bool_decide (o = Some true) then tr = [] else tr = [LogSent false body] | Raise _ => o <> Some true /\ tr = [] end).
  - destruct (_ && _); [apply upload_emits|]. apply emits_ret. right. by exists (Some false).
  - intros o. case_bool_decide; [by apply emits_ret|by apply emits_sent].
  - intros tr e [[? _]|(o & ? & _)]; done.
  - intros t1 o t2 r [[[= ->] ->]|(o' & [= <-] & Ho & ->)]; destruct r as [[]|e].
    + intros ->. by eexists.
    + by intros [? _].
    + rewrite bool_decide_eq_false_2 by done. intros ->. by eexists.
    + by intros [_ ->].
Qed.

Lemma replay_logs_emits luuid x ta logs : emits (forM (replay_log from_iso iso (St := St) luuid x ta) logs) (fun tr r =>
  match r with Ok _ => Forall2 (logged luuid x) logs tr | Raise _ => Forall2 (logged luuid x) (take (length tr) logs) tr end).
Proof.
  induction logs as [|log logs IH]; [apply emits_ret; constructor|]. cbn [forM].
  set (all := fun A tr (r : result A) => match r with
    | Ok _ => Forall2 (logged luuid x) logs tr | Raise _ => Forall2 (logged luuid x) (take (length tr) logs) tr end).
  apply emits_bind with (P := fun tr r => match r with Ok _ => exists e, tr = [e] /\ logged luuid x log e | Raise _ => tr = [] end)
    (Q := fun _ => all _); [apply replay_log_emits| |by intros tr e ->|].
  - intros b. apply emits_bind with (P := all _) (Q := fun _ tr r => tr = [] /\ exists bs, r = Ok bs);
      [exact IH|intros bs; apply emits_ret; by eauto|done|].
    intros t1 bs t2 r H1 [-> [bs' ->]]. by rewrite app_nil_r.
  - intros t1 b t2 r (e & -> & He) H2. destruct r; cbn; by constructor.
Qed.

(** The names given to the items. *)
Definition named (uuids : list (Z * ustr)) (items : list item) (xs : list ustr) : list (Z * ustr) :=
  fold_left (fun d ix => dset ix.1 ix.2 d) (zip (id <$> items) xs) uuids.

(** The items opened one after the other, when the server names them [xs] and the map
    of names is [uu] in the end: each under its parent's name, then the logs the source
    lists of it, in that order. *)
Inductive opened (luuid : ustr) (uu : list (Z * ustr)) : list item -> list ustr -> list request -> Prop :=
  | opened_nil : opened luuid uu [] [] []
  | opened_cons it items x xs logs sent_logs tr : Forall2 (logged luuid x) logs sent_logs -> opened luuid uu items xs tr ->
      opened luuid uu (it :: items) (x :: xs) (ItemStarted (id it) (parent_uuid uu it) x :: LogsListed (id it) logs :: sent_logs ++ tr).

(** The beginning of the next item. *)
Definition begun (luuid : ustr) (uu : list (Z * ustr)) (rest : list item) (tr : list request) : Prop :=
  tr = [] \/ exists it rest' x, rest = it :: rest' /\
    (tr = [ItemStarted (id it) (parent_uuid uu it) x] \/
     exists logs sent_logs, tr = ItemStarted (id it) (parent_uuid uu it) x :: LogsListed (id it) logs :: sent_logs /\
       Forall2 (logged luuid x) (take (length sent_logs) logs) sent_logs).

(** The order the code counts on: ids ascend, and a parent's is the smaller one. *)
Definition by_id (items : list item) : Prop :=
  StronglySorted (fun a b => id a < id b) items /\ forall it p, it ∈ items -> parent it = Some p -> p < id it.

Lemma by_id_cons it items : by_id (it :: items) -> by_id items /\ (forall x, x ∈ items -> id it < id x) /\ forall p, parent it = Some p -> p < id it.
Proof.
  intros [Hs Hp]. apply StronglySorted_inv in Hs as [Hs Hall]. rewrite Forall_forall in Hall. split_and!; [split; [done|]|done|].
  - intros x p Hx. apply Hp. by right.
  - intros p. apply Hp. by left.
Qed.

Lemma dget_named p items : forall uuids xs, (forall x, x ∈ items -> id x <> p) -> dget p (named uuids items xs) = dget p uuids.
Proof.
  unfold named. induction items as [|it items IH]; intros uuids [|x xs] Hp; [done..|]. cbn [fmap list_fmap zip zip_with fold_left fst snd].
  fold (zip (id <$> items) xs). rewrite IH by (intros y Hy; apply Hp; by right). apply dget_dset_ne. apply Hp. by left.
Qed.

(** Names given to later items are nobody's parent's. *)
Lemma parent_named it items uuids x xs : by_id (it :: items) -> parent_uuid (named uuids (it :: items) (x :: xs)) it = parent_uuid uuids it.
Proof.
  intros (_ & Hlt & Hp)%by_id_cons. change (named uuids (it :: items) (x :: xs)) with (named (dset (id it) x uuids) items xs).
  unfold parent_uuid. destruct (parent it) as [p|] eqn:E; [|done]. cbn [mbind option_bind]. specialize (Hp p eq_refl).
  rewrite dget_named by (intros y Hy; specialize (Hlt y Hy); lia). by rewrite dget_dset_ne by lia.
Qed.

Definition replayed (luuid : ustr) (uuids : list (Z * ustr)) (items : list item) (tr : list request) (r : result (list (Z * ustr) * list (Z * Issue.t))) : Prop :=
  match r with
  | Ok (uu, _) => exists xs, uu = named uuids items xs /\ opened luuid uu items xs tr
  | Raise _ => exists complete rest xs opening tail, items = complete ++ rest /\ tr = opening ++ tail /\
      opened luuid (named uuids complete xs) complete xs opening /\ begun luuid (named uuids complete xs) rest tail
  end.

(** A failure before the first item is complete. *)
Lemma replayed_early luuid uuids items tr e : begun luuid uuids items tr -> replayed luuid uuids items tr (Raise e).
Proof. intros Hb. exists [], items, [], [], tr. split_and!; [done|done|constructor|done]. Qed.

(** One more item in front. *)
Lemma replayed_next luuid uuids it items x logs sent_logs tr r : by_id (it :: items) -> Forall2 (logged luuid x) logs sent_logs ->
  replayed luuid (dset (id it) x uuids) items tr r ->
  replayed luuid uuids (it :: items) (ItemStarted (id it) (parent_uuid uuids it) x :: LogsListed (id it) logs :: sent_logs ++ tr) r.
Proof.
  intros Hid Hl. destruct r as [[uu issues]|e]; cbn [replayed].
  - intros (xs & -> & Ho). exists (x :: xs). split; [done|]. rewrite <- (parent_named it items uuids x xs Hid). by constructor.
  - intros (complete & rest & xs & opening & tail & -> & -> & Ho & Hb).
    exists (it :: complete), rest, (x :: xs), (ItemStarted (id it) (parent_uuid uuids it) x :: LogsListed (id it) logs :: sent_logs ++ opening), tail.
    split_and!; [done|cbn; by rewrite (assoc_L (++))| |done].
    rewrite <- (parent_named it complete uuids x xs); [by constructor|].
    destruct Hid as [Hs Hp]. split; [rewrite app_comm_cons in Hs; by apply StronglySorted_app_1_l in Hs|].
    intros y p Hy. apply Hp. rewrite app_comm_cons. apply elem_of_app. by left.
Qed.

Lemma replay_items_spec luuid ta items : by_id items -> forall uuids issues,
  emits (replay_items from_iso iso (St := St) luuid ta items uuids issues) (replayed luuid uuids items).
Proof.
  induction items as [|it items IH]; intros Hid uuids issues; cbn [replay_items].
  { apply emits_ret. exists []. split; [done|constructor]. }
  pose proof (proj1 (by_id_cons _ _ Hid)) as Hid'. set (up := parent_uuid uuids it).
  apply emits_known; [intros body _|intros e _; apply replayed_early; by left].
  assert (forall x tr e, (tr = [] \/ exists logs sent_logs, tr = LogsListed (id it) logs :: sent_logs /\ Forall2 (logged luuid x) (take (length sent_logs) logs) sent_logs) ->
    replayed luuid uuids (it :: items) (ItemStarted (id it) up x :: tr) (Raise e)) as Hlate.
  { intros x tr e Htr. apply replayed_early. right. exists it, items, x. split; [done|].
    destruct Htr as [-> | (logs & sl & -> & Hsl)]; [by left|right]. by exists logs, sl. }
  apply emits_bind with (P := fun tr r => tr = match r with Ok x => [ItemStarted (id it) up x] | Raise _ => [] end)
    (Q := fun x tr r => replayed luuid uuids (it :: items) (ItemStarted (id it) up x :: tr) r);
    [by apply emits_sent| |intros tr e ->; apply replayed_early; by left|by intros t1 x t2 r ->].
  intros x. apply emits_known; [intros issue _|intros e _; apply Hlate; by left].
  apply emits_bind with (P := fun tr r => tr = match r with Ok logs => [LogsListed (id it) logs] | Raise _ => [] end)
    (Q := fun logs tr r => replayed luuid uuids (it :: items) (ItemStarted (id it) up x :: LogsListed (id it) logs :: tr) r);
    [by apply emits_sent| |intros tr e ->; apply Hlate; by left|by intros t1 logs t2 r ->].
  intros logs. apply emits_bind with (P := fun tr r => match r with
      Ok _ => Forall2 (logged luuid x) logs tr | Raise _ => Forall2 (logged luuid x) (take (length tr) logs) tr end)
    (Q := fun _ => replayed luuid (dset (id it) x uuids) items); [apply replay_logs_emits|intros _; by apply IH| |].
  - intros tr e Htr. apply Hlate. right. by exists logs, tr.
  - intros t1 a t2 r Ht1 Ht2. by apply replayed_next.
Qed.

Lemma names_back items : forall uuids xs, by_id items -> length xs = length items ->
  (fun it => default [] (dget (id it) (named uuids items xs))) <$> items = xs.
Proof.
  induction items as [|it items IH]; intros uuids [|x xs] Hb Hl; try done. apply by_id_cons in Hb as (Hb & Hlt & _).
  change (named uuids (it :: items) (x :: xs)) with (named (dset (id it) x uuids) items xs). cbn [fmap list_fmap]. f_equal; [|apply IH; [done|by injection Hl]].
  rewrite dget_named by (intros y Hy; specialize (Hlt y Hy); lia). by rewrite dget_dset_eq.
Qed.

Lemma finish_spec luuid uuids items :
  emits (finish_items from_iso iso (St := St) luuid uuids items) (fun tr r =>
    let all := ItemFinished <$> ((fun it => default [] (dget (id it) uuids)) <$> items) in
    (exists n, tr = take n all) /\ (r = Ok tt -> tr = all)).
Proof.
  induction items as [|it items IH]; cbn [finish_items].
  { apply emits_ret. split; [by exists 0%nat|done]. }
  apply emits_bind with (P := fun tr _ => tr = []) (Q := fun _ tr r =>
    let all := ItemFinished <$> ((fun it => default [] (dget (id it) uuids)) <$> it :: items) in (exists n, tr = take n all) /\ (r = Ok tt -> tr = all));
    [by apply emits_of_result| |intros tr e ->; split; [by exists 0%nat|done]|by intros t1 a t2 r ->].
  intros body. set (x := default [] _).
  apply emits_bind with (P := fun tr r => tr = match r with Ok _ => [ItemFinished x] | Raise _ => [] end) (Q := fun _ tr r =>
    let all := ItemFinished <$> ((fun it => default [] (dget (id it) uuids)) <$> items) in (exists n, tr = take n all) /\ (r = Ok tt -> tr = all));
    [by apply emits_sent|intros _; exact IH|intros tr e ->; split; [by exists 0%nat|done]|].
  intros t1 a t2 r -> [[n Hn] Hr]. split; [exists (S n)|intros Hok]; cbn [app fmap list_fmap take firstn]; f_equal; [exact Hn|by apply Hr].
Qed.

Lemma fmap_rev {A B} (f : A -> B) l : f <$> rev l = rev (f <$> l).
Proof. induction l as [|x l IH]; [done|]. cbn [rev]. by rewrite fmap_app, IH. Qed.

(** What a replay asks of the target, by its end: all of it; or nothing; or the launch
    with some of its items; or all its items and the end of some. *)
Definition in_order (items : list item) (tr : list request) (r : result (ustr * list (Z * ustr) * list (Z * Issue.t))) : Prop :=
  match r with
  | Ok (luuid, uuids, _) => exists xs opening, length xs = length items /\ uuids = named [] items xs
      /\ opened luuid uuids items xs opening
      /\ tr = LaunchStarted luuid :: opening ++ (ItemFinished <$> rev xs) ++ [LaunchFinished luuid]
  | Raise _ => tr = [] \/ exists luuid,
      (exists complete rest xs opening tail, items = complete ++ rest /\ tr = LaunchStarted luuid :: opening ++ tail
         /\ opened luuid (named [] complete xs) complete xs opening /\ begun luuid (named [] complete xs) rest tail)
      \/ exists xs opening n, opened luuid (named [] items xs) items xs opening
         /\ tr = LaunchStarted luuid :: opening ++ take n (ItemFinished <$> rev xs)
  end.

Lemma opened_length luuid uu items xs tr : opened luuid uu items xs tr -> length xs = length items.
Proof. by induction 1; cbn; f_equal. Qed.

Lemma finishing luuid items xs opening issues (launch : item) : by_id items -> opened luuid (named [] items xs) items xs opening ->
  emits (finish_items from_iso iso (St := St) luuid (named [] items xs) (rev items);;
         ms ← of_result (end_or_start from_iso launch);
         sent (finish_launch luuid (JObj [("endTime", JStr (iso ms))])) (fun _ => LaunchFinished luuid);;
         mret (luuid, named [] items xs, issues))
    (fun tr r => in_order items (LaunchStarted luuid :: opening ++ tr) r).
Proof.
  intros Hb Ho. pose proof (opened_length _ _ _ _ _ Ho) as Hl.
  assert ((fun it => default [] (dget (id it) (named [] items xs))) <$> rev items = rev xs) as Hn by (by rewrite fmap_rev, names_back).
  assert (forall n e, in_order items (LaunchStarted luuid :: opening ++ take n (ItemFinished <$> rev xs)) (Raise e)) as Hfail
    by (intros n e; right; exists luuid; right; by exists xs, opening, n).
  assert (forall e, in_order items (LaunchStarted luuid :: opening ++ (ItemFinished <$> rev xs)) (Raise e)) as Hall.
  { intros e. rewrite <- (firstn_all (ItemFinished <$> rev xs)). apply Hfail. }
  eapply emits_bind with (Q := fun _ tr r => in_order items (LaunchStarted luuid :: opening ++ (ItemFinished <$> rev xs) ++ tr) r);
    [apply finish_spec| |rewrite Hn; intros tr e [[n ->] _]; apply Hfail|rewrite Hn; intros t1 [] t2 r [_ Ht1]; by rewrite (Ht1 eq_refl)].
  intros _. apply emits_known; [intros ms _|intros e _; rewrite app_nil_r; apply Hall].
  eapply emits_bind with (P := fun tr r => tr = match r with Ok _ => [LaunchFinished luuid] | Raise _ => [] end)
    (Q := fun _ tr r => tr = [] /\ r = Ok (luuid, named [] items xs, issues)); [by apply emits_sent|by intros _; apply emits_ret| |].
  - intros tr e ->. rewrite app_nil_r. apply Hall.
  - intros t1 a t2 r -> [-> ->]. rewrite app_nil_r. by exists xs, opening.
Qed.

(** C38. A launch is replayed in order.  The target is asked to start the launch, then its
    items in the order of their ids, each under the name its parent was given, and
    right after each item one log of the item's own for each that the source lists of
    it, in that order; only when all are there are they finished, children before their
    parents, and the launch last.  If a request fails, what was asked until then is the
    beginning of that order: nothing is finished unless every item is complete, and the
    launch not at all. *)
Theorem migrate_in_order (ta : bool) (launch : item) (items : list item) w : by_id items ->
  exists tr, trace (migrate_launch from_iso iso (St := St) ta launch items w).1 = trace w ++ tr /\
  in_order items tr (migrate_launch from_iso iso (St := St) ta launch items w).2.
Proof.
  intros Hb. revert w. change (emits (migrate_launch from_iso iso (St := St) ta launch items) (in_order items)). unfold migrate_launch.
  apply emits_known; [intros body _|intros e _; by left].
  apply emits_bind with (P := fun tr r => tr = match r with Ok x => [LaunchStarted x] | Raise _ => [] end)
    (Q := fun luuid tr r => in_order items (LaunchStarted luuid :: tr) r); [by apply emits_sent| |intros tr e ->; by left|by intros t1 a t2 r ->].
  intros luuid w. destruct (replay_items_spec luuid ta items Hb [] [] w) as (opening & Ht & Hrep).
  destruct (replay_items from_iso iso luuid ta items [] [] w) as [w1 [[uu issues]|e]] eqn:E; cbn [fst snd replayed] in *.
  - rewrite (bind_ok _ _ _ _ _ E). cbn [fst snd]. destruct Hrep as (xs & -> & Ho).
    destruct (finishing luuid items xs opening issues launch Hb Ho w1) as (tr & Htr & Hin).
    exists (opening ++ tr). split; [by rewrite Htr, Ht, <- app_assoc|exact Hin].
  - assert (forall B (k : _ -> Emit.M St request B), (replay_items from_iso iso luuid ta items [] [] ≫= k) w = (w1, Raise e)) as -> by (intros; unfold mbind, M_bind; by rewrite E).
    exists opening. split; [done|]. right. exists luuid. left.
    destruct Hrep as (complete & rest & xs & op & tail & -> & -> & Ho & Hbg). by exists complete, rest, xs, op, tail.
Qed.
End ReplayLaws.

(** ** Laws of the pruning *)

Section PruneLaws.
Context (upper : ustr -> ustr) (items : list item).
Notation passed := (passed upper).

(** A descendant, or the item itself; one that is not passed is under it; the items the
    pruning gets to. *)
Inductive below : item -> item -> Prop :=
  | below_refl a : below a a
  | below_child a c d : c ∈ items -> parent c = Some (id a) -> below c d -> below a d.
Definition live (a : item) : Prop := exists d, below a d /\ passed d = Ok false.
Definition rooted (a : item) : Prop := exists r, r ∈ items /\ parent r = None /\ below r a.

Hypothesis ascending : by_id items.
Hypothesis texts : forall it, it ∈ items -> exists b, passed it = Ok b.

Definition deeper (a : item) : nat := length (List.filter (fun x => id a <? id x) items).

Lemma children_deeper a c : c ∈ children_in items (Some (id a)) -> (deeper c < deeper a)%nat.
Proof.
  intros [Hc Hp%bool_decide_eq_true]%filterb_elem. pose proof (proj2 ascending c _ Hc Hp) as Hlt. unfold deeper.
  clear texts ascending. induction items as [|x l IH]; [by apply elem_of_nil in Hc|]. cbn [List.filter].
  assert (forall m n, (m <= n)%nat -> (m < S n)%nat) as Hle by lia.
  assert (length (List.filter (fun x => (id c <? id x)%Z) l) <= length (List.filter (fun x => (id a <? id x)%Z) l))%nat as Hmono.
  { clear -Hlt. induction l as [|y l IH]; [done|]. cbn [List.filter]. destruct (Z.ltb_spec (id c) (id y)), (Z.ltb_spec (id a) (id y)); cbn; lia. }
  apply elem_of_cons in Hc as [->|Hc].
  - rewrite Z.ltb_irrefl, (proj2 (Z.ltb_lt _ _) Hlt). cbn. lia.
  - specialize (IH Hc). destruct (Z.ltb_spec (id c) (id x)), (Z.ltb_spec (id a) (id x)); cbn; lia.
Qed.

Lemma live_cases a : live a <-> passed a = Ok false \/ exists c, c ∈ children_in items (Some (id a)) /\ live c.
Proof.
  split.
  - intros (d & Hb & Hd). inversion Hb as [|? c ? Hc Hp Hcd]; subst; [by left|]. right. exists c. split; [|by exists d].
    apply filterb_elem. split; [done|]. by apply bool_decide_eq_true.
  - intros [Hp|(c & [Hc Hp%bool_decide_eq_true]%filterb_elem & d & Hb & Hd)]; [exists a; split; [constructor|done]|].
    exists d. split; [by apply (below_child _ c)|done].
Qed.

(** What a visit leaves in the set. *)
Definition marks (a : item) (i : Z) : Prop := exists d, below a d /\ id d = i /\ live d.
Definition visited (keep : gset Z) (a : item) (r : result (gset Z * bool)) : Prop :=
  exists keep' b, r = Ok (keep', b) /\ (forall i, i ∈ keep' <-> i ∈ keep \/ marks a i) /\ (b = true <-> live a).

Lemma marks_cases a i : marks a i <-> (i = id a /\ live a) \/ exists c, c ∈ children_in items (Some (id a)) /\ marks c i.
Proof.
  split.
  - intros (d & Hb & Hi & Hl). inversion Hb as [|? c ? Hc Hp Hcd]; subst; [by left|]. right. exists c. split; [|by exists d].
    apply filterb_elem. split; [done|]. by apply bool_decide_eq_true.
  - intros [[-> Hl]|(c & [Hc Hp%bool_decide_eq_true]%filterb_elem & d & Hb & Hi & Hl)]; [exists a; by split_and!; [constructor| |]|].
    exists d. by split_and!; [apply (below_child _ c)| |].
Qed.

Lemma visit_spec fuel : forall keep a, a ∈ items -> (deeper a < fuel)%nat -> visited keep a (visit upper fuel items keep a).
Proof.
  induction fuel as [|fuel IH]; intros keep a Ha Hf; [lia|]. cbn [visit].
  match goal with |- context [?f (children_in items (Some (id a))) keep false] => set (loop := f) end.
  assert (forall l keep kept, (forall c, c ∈ l -> c ∈ children_in items (Some (id a))) ->
    exists keep' b, loop l keep kept = Ok (keep', b) /\ (forall i, i ∈ keep' <-> i ∈ keep \/ exists c, c ∈ l /\ marks c i)
      /\ (b = true <-> kept = true \/ exists c, c ∈ l /\ live c)) as Hloop.
  { clear keep. induction l as [|c l IHl]; intros keep kept Hl.
    - exists keep, kept. split_and!; [done|intros i; split; [by left|intros [|(c & Hc & _)]; [done|by apply elem_of_nil in Hc]]|].
      split; [by left|intros [|(c & Hc & _)]; [done|by apply elem_of_nil in Hc]].
    - assert (c ∈ children_in items (Some (id a))) as Hc by (apply Hl; by left). pose proof (children_deeper a c Hc).
      apply filterb_elem in Hc as [Hc _]. destruct (IH keep c Hc ltac:(lia)) as (k1 & b1 & E1 & Hk1 & Hb1).
      destruct (IHl k1 (b1 || kept) ltac:(intros; apply Hl; by right)) as (k2 & b2 & E2 & Hk2 & Hb2).
      exists k2, b2. split_and!.
      + change (loop (c :: l) keep kept) with (r ← visit upper fuel items keep c; loop l r.1 (r.2 || kept)). rewrite E1. exact E2.
      + intros i. rewrite Hk2, Hk1. setoid_rewrite elem_of_cons. naive_solver.
      + rewrite Hb2, orb_true_iff, Hb1. setoid_rewrite elem_of_cons. naive_solver. }
  destruct (Hloop (children_in items (Some (id a))) keep false ltac:(done)) as (k & b & E & Hk & Hb). rewrite E. cbn [mbind result_bind fst snd].
  assert (forall i, marks a i <-> (i = id a /\ live a) \/ exists c, c ∈ children_in items (Some (id a)) /\ marks c i) as Hm by apply marks_cases.
  pose proof (live_cases a) as Hlive. set (L := exists c, c ∈ children_in items (Some (id a)) /\ live c) in *.
  assert (b = true <-> L) as Hb' by (rewrite Hb; intuition discriminate). clear Hb. destruct b.
  - assert (live a) as Hla by (apply Hlive; right; by apply Hb'). exists ({[id a]} ∪ k), true. split_and!; [done| |tauto].
    intros i. rewrite elem_of_union, elem_of_singleton, Hk, Hm. tauto.
  - assert (~ L) as HL by (intros Hl%Hb'; discriminate). destruct (texts a Ha) as [p Hp]. rewrite Hp in *. cbn [mbind result_bind]. destruct p.
    + assert (~ live a) as Hla by (rewrite Hlive; intros [|]; [discriminate|by apply HL]). exists k, false. split_and!; [done| |intuition discriminate].
      intros i. rewrite Hk, Hm. tauto.
    + assert (live a) as Hla by (apply Hlive; by left). exists ({[id a]} ∪ k), true. split_and!; [done| |tauto].
      intros i. rewrite elem_of_union, elem_of_singleton, Hk, Hm. tauto.
Qed.

Lemma visit_all_spec roots : forall keep, (forall r, r ∈ roots -> r ∈ items) ->
  exists keep', visit_all upper (S (length items)) items roots keep = Ok keep'
  /\ forall i, i ∈ keep' <-> i ∈ keep \/ exists r, r ∈ roots /\ marks r i.
Proof.
  induction roots as [|r roots IH]; intros keep Hin.
  - exists keep. split; [done|]. intros i. split; [by left|]. intros [|(r & Hr & _)]; [done|by apply elem_of_nil in Hr].
  - assert (deeper r < S (length items))%nat as Hd by (unfold deeper; pose proof (List.filter_length_le (fun x => id r <? id x) items); lia).
    destruct (visit_spec (S (length items)) keep r ltac:(apply Hin; by left) Hd) as (k & b & E & Hk & _).
    destruct (IH k ltac:(intros; apply Hin; by right)) as (k' & E' & Hk'). exists k'. split.
    + cbn [visit_all]. rewrite E. exact E'.
    + intros i. rewrite Hk', Hk. setoid_rewrite elem_of_cons. naive_solver.
Qed.

Lemma below_items a d : below a d -> a ∈ items -> d ∈ items.
Proof. induction 1; auto. Qed.

(** The pruning keeps, in their order, exactly the items it reaches that have an item
    not passed at or under them; so what it keeps comes with its ancestors. *)
Lemma drop_passed_exact : exists kept, drop_passed upper items = Ok kept /\ sublist kept items
  /\ forall it, it ∈ kept <-> it ∈ items /\ rooted it /\ live it.
Proof.
  destruct (visit_all_spec (children_in items None) ∅) as (keep & E & Hkeep); [by intros r [Hr _]%filterb_elem|].
  unfold drop_passed. rewrite E. eexists. split; [reflexivity|]. split.
  { clear. induction items as [|x l IH]; [constructor|]. cbn [List.filter]. destruct (bool_decide _); by constructor. }
  intros it. rewrite filterb_elem, bool_decide_eq_true, Hkeep. split.
  - intros [Hit [Hn|(r & [Hr Hp%bool_decide_eq_true]%filterb_elem & d & Hb & Hi & Hl)]]; [set_solver|].
    assert (d = it) as ->; [|split_and!; [done|by exists r|done]].
    pose proof (below_items r d Hb Hr) as Hd. destruct ascending as [Hs _]. clear -Hs Hd Hit Hi.
    induction Hs as [|x l Hs IH Hall]; [by apply elem_of_nil in Hd|]. rewrite Forall_forall in Hall.
    apply elem_of_cons in Hd as [->|Hd], Hit as [->|Hit]; [done|specialize (Hall _ Hit); lia|specialize (Hall _ Hd); lia|by apply IH].
  - intros (Hit & (r & Hr & Hp & Hb) & Hl). split; [done|]. right. exists r. split; [apply filterb_elem; by rewrite bool_decide_eq_true|by exists it].
Qed.
End PruneLaws.

(** ** Laws of the item tree *)

Section TreeLaws.
Context (children_of : Z -> result (list item)).
Definition ids (l : list item) : gset Z := list_to_set (id <$> l).
Definition covered (seen : gset Z) (x : item) : Prop := forall cs, children_of (id x) = Ok cs -> forall c, c ∈ cs -> id c ∈ seen.

(** The children not seen before come at the end, and those with children on top. *)
Lemma add_children cs : forall items frontier seen, exists new,
  fold_left add_child cs (items, frontier, seen) = (items ++ new, rev (List.filter has_children new) ++ frontier, ids new ∪ seen)
  /\ NoDup (id <$> new) /\ (forall x, x ∈ new -> x ∈ cs /\ id x ∉ seen) /\ forall c, c ∈ cs -> id c ∈ ids new ∪ seen.
Proof.
  induction cs as [|c cs IH]; intros items frontier seen; cbn [fold_left].
  { exists []. split_and!; [by rewrite app_nil_r; f_equal; unfold ids; set_solver|constructor|..]; by intros x ?%elem_of_nil. }
  unfold add_child at 2. destruct (bool_decide (id c ∈ seen)) eqn:E.
  - apply bool_decide_eq_true in E. destruct (IH items frontier seen) as (new & -> & Hn & Hx & Hc). exists new. split_and!; [done|done| |].
    + intros x Hin. destruct (Hx x Hin). split; [by right|done].
    + intros d [->|Hd]%elem_of_cons; [set_solver|by apply Hc].
  - apply bool_decide_eq_false in E.
    destruct (IH (items ++ [c]) (if has_children c then c :: frontier else frontier) ({[id c]} ∪ seen)) as (new & -> & Hn & Hx & Hc). exists (c :: new). split_and!.
    + f_equal; [f_equal|].
      * by rewrite <- app_assoc.
      * cbn [List.filter]. destruct (has_children c); [|done]. cbn [rev]. by rewrite <- app_assoc.
      * unfold ids. cbn [fmap list_fmap list_to_set]. set_solver.
    + cbn [fmap list_fmap]. constructor; [|done]. intros (x & Hxc & Hin)%list_elem_of_fmap. destruct (Hx x Hin) as [_ Hns]. set_solver.
    + intros x [->|Hin]%elem_of_cons; [split; [by left|done]|]. destruct (Hx x Hin) as [? Hns]. split; [by right|set_solver].
    + intros d [->|Hd]%elem_of_cons; unfold ids; cbn [fmap list_fmap list_to_set]; [set_solver|]. specialize (Hc d Hd). unfold ids in Hc. set_solver.
Qed.

Lemma size_ids l : NoDup (id <$> l) -> size (ids l) = length l.
Proof. intros Hn. unfold ids. rewrite size_list_to_set by done. by rewrite length_fmap. Qed.

(** All the ids there are. *)
Context (U : gset Z).
Hypothesis finite : forall p cs c, children_of p = Ok cs -> c ∈ cs -> id c ∈ U.

Lemma walk_spec fuel : forall items frontier seen, seen = ids items ->
  (forall x, x ∈ items -> has_children x = true -> x ∈ frontier \/ covered seen x) ->
  (size (U ∖ seen) + length frontier < fuel)%nat ->
  exists r, walk children_of fuel items frontier seen = Some r /\ forall all, r = Ok all ->
    exists more, all = items ++ more /\ forall x, x ∈ all -> has_children x = true -> covered (ids all) x.
Proof.
  induction fuel as [|fuel IH]; intros items frontier seen Hseen Hinv Hf; [lia|]. cbn [walk]. destruct frontier as [|p frontier].
  { eexists. split; [reflexivity|]. intros all [= <-]. exists []. split; [by rewrite app_nil_r|]. intros x Hx Hc.
    destruct (Hinv x Hx Hc) as [Hn|Hcov]; [by apply elem_of_nil in Hn|by subst seen]. }
  destruct (children_of (id p)) as [cs|e] eqn:E; [|eexists; split; [reflexivity|done]].
  destruct (add_children cs items frontier seen) as (new & -> & Hn & Hx & Hc).
  assert (ids (items ++ new) = ids new ∪ seen) as Hids by (subst seen; unfold ids; rewrite fmap_app, list_to_set_app_L; set_solver).
  destruct (IH (items ++ new) (rev (List.filter has_children new) ++ frontier) (ids new ∪ seen)) as (r & Er & Hr).
  - done.
  - intros x Hin Hch. apply elem_of_app in Hin as [Hin|Hin].
    + destruct (Hinv x Hin Hch) as [[->|Hfr]%elem_of_cons|Hcov].
      * right. intros cs' Ecs c Hcc. rewrite E in Ecs. injection Ecs as <-. by apply Hc.
      * left. apply elem_of_app. by right.
      * right. intros cs' Ecs c Hcc. apply elem_of_union. right. by apply (Hcov cs').
    + left. apply elem_of_app. left. apply list_elem_of_In, in_rev. rewrite rev_involutive. by apply list_elem_of_In, filterb_elem.
  - assert (size (U ∖ (ids new ∪ seen)) + length new <= size (U ∖ seen))%nat as Hsize.
    { rewrite <- (size_ids new Hn). rewrite <- size_union.
      - apply subseteq_size. intros i Hi. apply elem_of_union in Hi as [Hi|Hi]; [set_solver|]. apply elem_of_difference. unfold ids in Hi.
        apply elem_of_list_to_set, list_elem_of_fmap in Hi as (x & -> & Hin). destruct (Hx x Hin) as [Hcs Hns]. split; [by apply (finite (id p) cs)|done].
      - set_solver. }
    rewrite length_app, length_rev. pose proof (List.filter_length_le has_children new). cbn [length] in Hf. lia.
  - exists r. split; [exact Er|]. intros all Ha. destruct (Hr all Ha) as (more & -> & Hcov). exists (new ++ more). split; [by rewrite app_assoc|done].
Qed.

(** With fuel for every id and every parent of the listing, fetching the tree ends;
    what it returns, in ascending order of the ids, has every item of the listing, and
    with an item that has children all of them. *)
Lemma tree_complete fuel listed : (size U + length listed < fuel)%nat ->
  exists r, items_of_launch children_of fuel (Ok listed) = Some r /\ forall all, r = Ok all ->
    StronglySorted (fun a b => id_leb a b = true) all /\ (forall x, x ∈ listed -> x ∈ all)
    /\ forall x, x ∈ all -> has_children x = true -> covered (ids all) x.
Proof.
  intros Hf. unfold items_of_launch.
  destruct (walk_spec fuel listed (rev (List.filter has_children listed)) (ids listed)) as (r & E & Hr); [done| | |].
  - intros x Hx Hc. left. apply list_elem_of_In, in_rev. rewrite rev_involutive. by apply list_elem_of_In, filterb_elem.
  - rewrite length_rev. pose proof (List.filter_length_le has_children listed). assert (size (U ∖ ids listed) <= size U)%nat by (apply subseteq_size; set_solver). lia.
  - unfold ids in E at 1. rewrite E. destruct r as [all|e]; [|by eexists]. destruct (Hr all eq_refl) as (more & -> & Hcov). eexists. split; [reflexivity|].
    intros all [= <-]. split_and!.
    + apply pysorted_sorted; unfold id_leb; intros *; lia.
    + intros x Hx. apply elem_of_pysorted, elem_of_app. by left.
    + intros x Hx%elem_of_pysorted Hc cs Ecs c Hcc. specialize (Hcov x Hx Hc cs Ecs c Hcc). unfold ids in *.
      apply elem_of_list_to_set in Hcov. apply elem_of_list_to_set. apply list_elem_of_fmap in Hcov as (y & -> & Hy). apply list_elem_of_fmap. exists y. split; [done|by apply elem_of_pysorted].
Qed.
End TreeLaws.

(** ** Paging, batches, defect types *)

(** A listing whose claimed totals stay below a bound comes to its end. *)
Lemma paged_ends get N : (forall p rows total, (data ← get p; page_of data) = Ok (rows, total) -> total <= N) ->
  forall fuel page, (Z.to_nat (N - page) < fuel)%nat -> exists r, paged fuel get page = Some r.
Proof.
  intros HN. induction fuel as [|fuel IH]; intros page Hf; [lia|]. cbn [paged].
  destruct (data ← get page; page_of data) as [[rows total]|e] eqn:E; [|by eexists]. pose proof (HN _ _ _ E).
  destruct (Z.leb_spec total page); [by eexists|]. cbn [orb]. destruct (bool_decide _); [by eexists|].
  destruct (IH (page + 1)) as [r ->]; [lia|]. destruct r; by eexists.
Qed.

(** The batches are the updates, in order, none empty and none too large. *)
Lemma chunks_exact l : forall fuel, (length l <= fuel)%nat ->
  concat (chunks fuel l) = l /\ forall c, c ∈ chunks fuel l -> (0 < length c <= BATCH_DEFECTS)%nat.
Proof.
  intros fuel. revert l. induction fuel as [|fuel IH]; intros l Hl.
  - destruct l; [|cbn in Hl; lia]. split; [done|]. intros c Hc. by apply elem_of_nil in Hc.
  - destruct l as [|x l]; [split; [done|]; intros c Hc; by apply elem_of_nil in Hc|]. cbn [chunks].
    destruct (IH (drop BATCH_DEFECTS (x :: l))) as [Hc Hs]; [rewrite length_drop; unfold BATCH_DEFECTS; cbn [length] in *; lia|]. split.
    + cbn [concat]. by rewrite Hc, take_drop.
    + intros c [->|Hin]%elem_of_cons; [rewrite length_take; unfold BATCH_DEFECTS; cbn [length]; lia|by apply Hs].
Qed.

Section TypeLaws.
Context `{!Unicode} (upper : ustr -> ustr) {St : Type} `{!Servers St}.

Definition maps_all (custom : list ustr) (before after : list (ustr * ustr)) : Prop :=
  (forall l, l ∈ custom \/ is_Some (dget l before) -> is_Some (dget l after)) /\ forall l, l ∉ custom -> dget l after = dget l before.

Lemma maps_step loc x custom before after : maps_all custom (dset loc x before) after -> maps_all (loc :: custom) before after.
Proof.
  intros [Hs He]. split.
  - intros l Hl. apply Hs. destruct (decide (l = loc)) as [->|Hne]; [right; by rewrite dget_dset_eq|].
    destruct Hl as [[->|Hl]%elem_of_cons|Hl]; [done|by left|right; by rewrite dget_dset_ne].
  - intros l Hl. apply not_elem_of_cons in Hl as [Hne Hl]. rewrite He by done. by rewrite dget_dset_ne.
Qed.

Lemma sync_maps src custom : forall names before w after, (sync_loop upper (St := St) src custom names before w).2 = Ok after -> maps_all custom before after.
Proof.
  induction custom as [|loc custom IH]; intros names before w after; cbn [sync_loop].
  { intros [= <-]. split; [intros l [Hl|Hl]; [by apply elem_of_nil in Hl|done]|done]. }
  destruct (dget loc src) as [t|]; [|intros Ha; eapply maps_step, IH, Ha].
  destruct (dget (type_key t) names) as [there|]; [intros Ha; eapply maps_step, IH, Ha|].
  unfold mbind, M_bind, sent. destruct (create_subtype _ _ _ _ _) as [s [new_loc|e]]; [|done]. intros Ha. eapply maps_step, IH, Ha.
Qed.

Lemma builtin_identity (l : list ustr) : forall (before : list (ustr * ustr)) (x : ustr), dget x (fold_left (fun d y => dset y y d) l before) = if bool_decide (x ∈ l) then Some x else dget x before.
Proof.
  induction l as [|y l IH]; intros before x; cbn [fold_left]; [done|]. rewrite IH. destruct (decide (x ∈ l)) as [Hl|Hl].
  - rewrite !bool_decide_eq_true_2 by (done || by right). done.
  - rewrite (bool_decide_eq_false_2 (x ∈ l)) by done. destruct (decide (y = x)) as [->|Hne].
    + rewrite dget_dset_eq. by rewrite bool_decide_eq_true_2 by (by left).
    + rewrite dget_dset_ne by done. rewrite bool_decide_eq_false_2; [done|]. by intros [->|]%elem_of_cons.
Qed.

(** Every locator that is needed has a target, the built-in ones their own. *)
Lemma types_synced src dst needed w mapping : (sync_defect_types upper (St := St) src dst needed w).2 = Ok mapping ->
  forall l, l ∈ needed -> is_Some (dget l mapping) /\ (l ∈ DEFAULT_ISSUE_LOCATORS -> dget l mapping = Some l).
Proof.
  unfold sync_defect_types. set (builtin := List.filter (fun l => bool_decide (l ∈ DEFAULT_ISSUE_LOCATORS)) needed) in *. set (custom := List.filter (fun l => negb (bool_decide (l ∈ DEFAULT_ISSUE_LOCATORS))) needed) in *.
  intros Hm l Hl. assert (l ∈ DEFAULT_ISSUE_LOCATORS -> l ∈ builtin) as Hb by (intros; apply filterb_elem; split; [done|by apply bool_decide_eq_true]).
  assert (l ∉ DEFAULT_ISSUE_LOCATORS -> l ∈ custom) as Hc by (intros; apply filterb_elem; split; [done|by rewrite bool_decide_eq_false_2]).
  assert (maps_all custom (fold_left (fun d y => dset y y d) builtin []) mapping) as [Hs He].
  { destruct custom as [|c custom'] eqn:E; [injection Hm as <-; split; [intros x [Hx|Hx]; [by apply elem_of_nil in Hx|done]|done]|].
    apply sync_maps in Hm as [Hs He]. split; intros x; [specialize (Hs x)|specialize (He x)]; by rewrite elem_of_pysorted in *. }
  destruct (decide (l ∈ DEFAULT_ISSUE_LOCATORS)) as [Hd|Hd].
  - assert (dget l mapping = Some l) as E; [|by rewrite E].
    rewrite He; [by rewrite builtin_identity, bool_decide_eq_true_2 by auto|]. intros [_ Hn]%filterb_elem. by rewrite bool_decide_eq_true_2 in Hn.
  - split; [|done]. apply Hs. left. auto.
Qed.
End TypeLaws.

(** ** At work *)

Module RpExample.
#[local] Existing Instance ascii_unicode.
#[local] Instance a_repr : PyRepr := {| float_repr := fun _ => u "0.5"; container_repr := fun _ => [] |}.
Definition no_iso (_ : ustr) : option Z := None.
Definition show (ms : Z) : ustr := u (str_of_Z ms).

(** A target that numbers what it is asked to start, and fails from a given number on. *)
Record target := mk_target { launches : list json; next : Z; fails_at : Z }.
Definition numbered (s : target) : target * result ustr :=
  if fails_at s <=? next s then (s, Raise (HttpError 500)) else (mk_target (launches s) (next s + 1) (fails_at s), Ok (u (str_of_Z (next s)))).
Definition name_of (b : json) : json := match b with JObj d => jget "name" d | _ => JNull end.
#[local] Instance toy_servers : Servers target := {|
  post_launch := fun b s => let '(s, r) := numbered s in (mk_target (name_of b :: launches s) (next s) (fails_at s), r);
  post_item := fun _ _ => numbered;
  finish_item := fun _ _ s => (s, Ok tt);
  finish_launch := fun _ _ s => (s, Ok tt);
  logs_of_item := fun _ s => (s, Ok [JObj [("message", jstr "boom"); ("level", jstr "ERROR")]]);
  get_bytes := fun _ s => (s, Ok []);
  post_file := fun _ _ s => (s, Ok 413);
  post_log := fun _ s => (s, Ok tt);
  resolve_uuid := fun _ s => (s, Ok 1);
  put_issues := fun _ s => (s, Ok tt);
  launch_exists := fun n _ s => (s, Ok (bool_decide (n ∈ launches s)));
  create_subtype := fun _ _ _ _ s => (s, Ok (u "ab_new"))
|}.
Definition node (i : Z) (p : option Z) (status : string) : item := Item.mk i p [("name", jstr "x"); ("status", jstr status); ("issue", JObj [("issueType", jstr "pb001")])].
Definition a_launch : item := Item.mk 9 None [("name", jstr "nightly"); ("startTime", JInt 1000)].
Definition tree : list item := [node 1 None "FAILED"; node 2 (Some 1) "FAILED"; node 3 (Some 1) "PASSED"].
Definition run_on (s : target) : Emit.world target request * result (ustr * list (Z * ustr) * list (Z * Issue.t)) :=
  migrate_launch no_iso show true a_launch tree (mk_world s []).

Lemma tree_by_id : by_id tree.
Proof.
  split.
  - repeat constructor; by repeat constructor.
  - intros it p Hit Hp. unfold tree in Hit. set_unfold in Hit. destruct Hit as [->|[->|[->|[]]]]; cbn in Hp; try discriminate; injection Hp as <-; cbn; lia.
Qed.

(** Of a log, the item it is sent for. *)
Definition outline (e : request) : request :=
  match e with LogSent file (JObj d) => LogSent file (jget "itemUuid" d) | LogsListed i logs => LogsListed i ((fun _ => JNull) <$> logs) | _ => e end.
Example replayed_tree :
  outline <$> trace (run_on (mk_target [] 0 9)).1 =
  [LaunchStarted (u "0"); ItemStarted 1 None (u "1"); LogsListed 1 [JNull]; LogSent false (jstr "1");
   ItemStarted 2 (Some (u "1")) (u "2"); LogsListed 2 [JNull]; LogSent false (jstr "2");
   ItemStarted 3 (Some (u "1")) (u "3"); LogsListed 3 [JNull]; LogSent false (jstr "3");
   ItemFinished (u "3"); ItemFinished (u "2"); ItemFinished (u "1"); LaunchFinished (u "0")].
Proof. vm_compute. reflexivity. Qed.

Example pruned : drop_passed (fmap uupper_char) tree = Ok [node 1 None "FAILED"; node 2 (Some 1) "FAILED"].
Proof. vm_compute. reflexivity. Qed.

Lemma migrate_in_order_witness :
  by_id tree /\ exists tr, trace (run_on (mk_target [] 0 9)).1 = tr /\ in_order no_iso show tree tr (run_on (mk_target [] 0 9)).2.
Proof.
  split; [exact tree_by_id|].
  destruct (migrate_in_order no_iso show true a_launch tree (mk_world (mk_target [] 0 9) []) tree_by_id) as (tr & Ht & Ho).
  exists tr. split; [exact Ht|exact Ho].
Defined.

(** A launch whose replay was interrupted is taken for done: the next run asks for
    nothing, not even for its defects. *)
Lemma interrupted_is_skipped :
  let first := migrate_all no_iso show true false ∅ (fun _ => tree) [a_launch] [] (mk_world (mk_target [] 0 2) []) in
  let again := migrate_all no_iso show true false ∅ (fun _ => tree) [a_launch] [] (mk_world (mk_target (launches (st first.1)) 2 99) []) in
  first.2 = Raise (HttpError 500) /\ omap started (trace first.1) = [(1, None, u "1")]
  /\ trace again.1 = [] /\ again.2 = Ok [].
Proof. vm_compute. done. Qed.
End RpExample.
