(* ===== verification/FeaturesMeta.v ===== *)
(** * What the inspector says about the features

    [inspector/backend/features_meta.py]: the table of feature names, labels and
    definitions, with its lookup, against the registry of [Features]. *)

From S2P Require Import Prelude PyFloat PyStr Features.
From Stdlib Require Import ZArith Lia Ascii.

#[local] Open Scope string_scope.
#[local] Open Scope list_scope.
#[local] Open Scope Z_scope.

Module FeatureMeta.
Record t := mk { index : Z; key : string; label : string; definition : string; range : string; default : pyfloat; group : string }.
End FeatureMeta.
#[export] Instance feature_meta_eq_dec : EqDecision FeatureMeta.t.
Proof. solve_decision. Defined.
Notation FM := FeatureMeta.mk.

(** A word between double quotes; text beyond ASCII is in UTF-8. *)
Definition quoted (s : string) : string := String (ascii_of_nat 34) s +:+ String (ascii_of_nat 34) EmptyString.

Definition FEATURE_DEFS : list FeatureMeta.t := [
    FM 0 "top1_cosine" "cosine similarity to best match"
      "cosine of best Stage-C candidate" "[0,1]" f0 "retrieval";
    FM 1 "top1_rrf" "fused retrieval score of best match"
      "RRF (reciprocal-rank fusion) score of top1, post-boost" "[0,~0.05]" f0 "retrieval";
    FM 2 "top1_jaccard" "template overlap with best match"
      "template-set Jaccard vs top1" "[0,1]" f0 "retrieval";
    FM 3 "margin_cos" "similarity gap to runner-up match"
      "top1_cosine - top2_cosine" "[0,1]" f0 "retrieval";
    FM 4 "mean_top5_cosine" "average similarity of top-5 matches"
      "mean cosine of top-5" "[0,1]" f0 "retrieval";
    FM 5 "n_candidates" "how many candidates were retrieved"
      "len(candidates)/20" "[0,1]" f0 "retrieval";
    FM 6 "label_hist_entropy" "label disagreement among candidates"
      "Shannon entropy of candidate labels / ln 4; 1 = maximally mixed" "[0,1]" f1 "retrieval";
    FM 7 "top1_label_frac" "candidates agreeing with best match's label"
      "fraction of candidates sharing top1's label" "[0,1]" f0 "retrieval";
    FM 8 "same_test_case_top1" "best match is the same test"
      "top1 has same test_case_hash" "{0,1}" f0 "retrieval";
    FM 9 "same_error_hash_top1" "best match has identical error hash"
      "top1 error_hash equal" "{0,1}" f0 "retrieval";
    FM 10 "same_exception_fp_top1" "best match has same exception fingerprint"
      "top1 exception_fp equal" "{0,1}" f0 "retrieval";
    FM 11 "recency_top1" "how recent the best match is"
      "decay(age_days(top1)); 1 = labeled today" "(0,1]" f0 "retrieval";
    FM 12 "src_weight_top1" "trust in best match's label source"
      "label-source weight of top1 (human > auto)" "[0.3,1]" f0 "retrieval";
    FM 13 "hist_pb" "history vote for Product Bug"
      "weighted candidate mass for pb" "[0,1]" f0 "history";
    FM 14 "hist_ab" "history vote for Automation Bug"
      "weighted candidate mass for ab" "[0,1]" f0 "history";
    FM 15 "hist_si" "history vote for System Issue"
      "weighted candidate mass for si" "[0,1]" f0 "history";
    FM 16 "hist_nd" "history vote for No Defect"
      "weighted candidate mass for nd" "[0,1]" f0 "history";
    FM 17 "kb_top1_score" "match score of best KB failure-mode"
      "best score_mode (§6.2)" "[0,1]" f0 "kb";
    FM 18 "kb_purity" "label consistency of matched KB mode"
      "purity of best mode" "[0,1]" f0 "kb";
    FM 19 "kb_support" "evidence volume behind matched KB mode"
      "log1p(support)/log1p(1000)" "[0,1]" f0 "kb";
    FM 20 "kb_same_fp" "KB mode shares this exception fingerprint"
      "exception_fp in best mode fps" "{0,1}" f0 "kb";
    FM 21 "kb_prior_conf" "confidence of the matched seed rule"
      "prior confidence of matched seed mode" "[0,1]" f0 "kb";
    FM 22 "seed_pb" "seed rule says Product Bug"
      "one-hot matched seed prior=pb" "{0,1}" f0 "kb";
    FM 23 "seed_ab" "seed rule says Automation Bug"
      "one-hot matched seed prior=ab" "{0,1}" f0 "kb";
    FM 24 "seed_si" "seed rule says System Issue"
      "one-hot matched seed prior=si" "{0,1}" f0 "kb";
    FM 25 "seed_nd" "seed rule says No Defect"
      "one-hot matched seed prior=nd" "{0,1}" f0 "kb";
    FM 26 "flakiness_score" "how flaky this test has been"
      "1 - p(same outcome as previous run), 30d" "[0,1]" half "history";
    FM 27 "test_fail_rate_30d" "test's failure rate, last 30 days"
      "failures/runs, 30d" "[0,1]" half "history";
    FM 28 "flips_30d" "pass/fail flips, last 30 days"
      "log1p(pass<->fail flips)/log1p(20)" "[0,1]" f0 "history";
    FM 29 "co_failure_group_size" "how many failures share this signature"
      "log1p(group size)/log1p(200)" "[0,1]" f0 "grouping";
    FM 30 "group_dominance" "group's share of launch failures"
      "group size / launch failures" "(0,1]" f0 "grouping";
    FM 31 "launch_fail_fraction" "fraction of launch items failing"
      "launch failures / launch items" "[0,1]" f0 "grouping";
    FM 32 "si_prior" "launch-wide burst prior (si)"
      "burst prior from §5: many simultaneous look-alike failures suggest a system issue" "[0,0.9]" f0 "grouping";
    FM 33 "test_age_days" "how old this test is"
      "log1p(min(days,365))/log1p(365)" "[0,1]" f0 "history";
    FM 34 "item_log_count" "how many logs survived filtering"
      "surviving logs / 20" "[0,1]" f0 "signal";
    FM 35 "has_stacktrace" "failure carries a stack trace"
      "1 = a stack trace was detected in the logs (§1.3)" "{0,1}" f0 "signal";
    FM 36 "is_assertion" "failure is an assertion error"
      "1 = the primary exception is an assertion (§3.4)" "{0,1}" f0 "signal";
    FM 37 "is_merged_small_logs" "many small logs merged into one"
      "1 = small logs were merged into one document before analysis (§3.4)" "{0,1}" f0 "signal";
    FM 38 "exception_count" "distinct exceptions in the logs"
      "min(len(exceptions),5)/5" "[0,1]" f0 "signal";
    FM 39 "llm_failing_layer" "LLM: which layer failed"
      "Layer where the failure sits according to the LLM extractor, as a code; 0 = unknown or LLM off (spec 04 §4.2)." "{0,1,2,3,4}" f0 "llm";
    FM 40 "llm_error_class" "LLM: extracted error class"
      "Error class according to the LLM extractor, as a code; 0 = unknown or LLM off (spec 04 §4.2)." "{0..13}" f0 "llm";
    FM 41 "status_codes_present" "has status codes to compare"
      "1 = this failure's text contains unmasked status codes (e.g. HTTP codes), so agreement can be checked at all." "{0,1}" f0 "discriminant";
    FM 42 "status_codes_match_top1" "status codes match best match"
      "1 = this failure and the best match carry exactly the same set of status codes." "{0,1}" f0 "discriminant";
    FM 43 "identifier_jaccard_top1" "shared identifiers with best match"
      ("Overlap of identifier tokens (class names, endpoints, test names) with the best match, 0 to 1 (identifier-token Jaccard). 0 can mean " +:+ quoted "nothing to compare" +:+ " — see " +:+ quoted "has identifiers to compare" +:+ ".") "[0,1]" f0 "discriminant";
    FM 44 "hash_gate_blocked" "exact match found but rejected"
      "1 = an identical error ID (error_hash) existed, but the safety gate rejected inheriting its label because unmasked details disagreed (status codes / identifiers). A warning sign for look-alike traps." "{0,1}" f0 "discriminant";
    FM 45 "identifiers_present" "has identifiers to compare"
      ("1 = this failure's message contains identifier tokens, so " +:+ quoted "shared identifiers" +:+ " 0 means real disagreement, not missing data (v4, 2026-07-18b).") "{0,1}" f0 "discriminant";
    FM 46 "ident_jaccard_source" "where the identifier neighbour came from"
      "Where the identifier comparison's neighbour came from: 1.0 = exact-hash match, 0.5 = closest history candidate (Stage C), 0 = no neighbour (v5, 2026-07-20)." "{0,0.5,1}" f0 "discriminant"].

(** [{key: i for i, key, *_ in FEATURE_DEFS}]: of two rows with a key the later counts. *)
Definition FEATURE_INDEX : list (string * Z) :=
  fold_left (fun d m => dset (FeatureMeta.key m) (FeatureMeta.index m) d) FEATURE_DEFS [].

Definition describe (key : string) : FeatureMeta.t :=
  match List.find (fun m => bool_decide (FeatureMeta.key m = key)) FEATURE_DEFS with
  | Some m => m
  | None => FM (-1) key key "(unknown feature — not in schema)" "?" f0 "other"
  end.

(** ** The table against the registry *)

(** A name of the index has its row: the one [describe] finds, under its number. *)
Lemma describe_indexed key i : dget key FEATURE_INDEX = Some i ->
  describe key ∈ FEATURE_DEFS /\ FeatureMeta.key (describe key) = key /\ FeatureMeta.index (describe key) = i.
Proof.
  intros Hi. assert (forallb (fun kv => bool_decide (describe kv.1 ∈ FEATURE_DEFS) &&
    bool_decide (FeatureMeta.key (describe kv.1) = kv.1) && (FeatureMeta.index (describe kv.1) =? kv.2)) FEATURE_INDEX = true)
    as Hall by (by vm_compute).
  rewrite forallb_forall in Hall. specialize (Hall (key, i)). rewrite <- list_elem_of_In in Hall.
  apply dget_elem in Hi. specialize (Hall Hi). cbn [fst snd] in Hall.
  apply andb_true_iff in Hall as [[H1%bool_decide_eq_true H2%bool_decide_eq_true]%andb_true_iff H3%Z.eqb_eq]. done.
Qed.

(** The table describes 47 names, the snapshot has 64 columns: the one-hot columns of
    the two categoricals have no row, and the two rows there are for them name no
    column; what follows them has a number that is not its column's. *)
Lemma table_against_registry :
  length FEATURE_DEFS = 47%nat /\ length feature_names = 64%nat
  /\ List.filter (fun k => negb (bool_decide (k ∈ FEATURE_INDEX.*1))) feature_names
     = (FeatureDef.name <$> _onehot_defs "llm_failing_layer" FAILING_LAYER_LEVELS ++ _onehot_defs "llm_error_class" ERROR_CLASS_LEVELS)
  /\ List.filter (fun k => negb (bool_decide (k ∈ feature_names))) FEATURE_INDEX.*1 = ["llm_failing_layer"; "llm_error_class"]
  /\ take 39 feature_names = take 39 (FeatureMeta.key <$> FEATURE_DEFS)
  /\ dget "status_codes_present" FEATURE_INDEX = Some 41 /\ feature_names !! 39%nat = Some "status_codes_present".
Proof. by vm_compute. Qed.
