(* ===== verification/Inspector.v ===== *)
(** * The journey of an item, as the inspector shows it

    [inspector/backend/payloads.py] with [reconstruct.py]: which suggestion of an item
    is shown, with what stage, band and method, when an explanation is carried over
    from an older row, and the retrieval run again.  A view reads the tables of
    [Database] and writes nothing; a payload is a record with the keys of the
    dictionary, without its links into the ReportPortal UI. *)

From S2P Require Import Prelude PyFloat FloatQuot PyStr Regex PyText PyJson PyInt JsonText PyNum PyTime DrainStore Ingest LlmEngine Database Retrieval Knowledge HybridSearch Features FeaturesMeta.
From Stdlib Require Import ZArith Lia.

#[local] Open Scope string_scope.
#[local] Open Scope list_scope.
#[local] Open Scope Z_scope.

Import Db (drain, test_item, failure_signature, failure_mode, label_event, suggestion, launch_group, llm_event, llm_role_state).

Definition LABEL_GROUPS : list string := ["pb"; "ab"; "si"; "nd"; "ti"].
Definition TAU_SUGGEST : pyfloat := Eval vm_compute in dec 45 100.
Definition TAU_AUTO : pyfloat := Eval vm_compute in dec 75 100.
Definition _GROUP_MEMBER_CAP : Z := 60.

Definition _grp (label : option ustr) : string :=
  match label with
  | None | Some [] => "none"
  | Some l => default "other" (List.find (fun g => starts l (u g)) LABEL_GROUPS)
  end.

(** [str(v)] of an int or nothing. *)
Definition _s (v : option Z) : option ustr := (fun z => u (str_of_Z z)) <$> v.
Definition _iso (t : Z) : string := isoformat_utc t.
(** [v or 0.0]. *)
Definition or_zero (x : pyfloat) : pyfloat := if is_zero x then f0 else x.

Definition band_of (confidence : pyfloat) : string :=
  if (TAU_AUTO <=? confidence)%F then "auto" else if (TAU_SUGGEST <=? confidence)%F then "suggest" else "abstain".

(** ** Carrying an explanation over *)

Definition _IGNORED_FEATURES : list string :=
  ["judge"; "test_age_days"; "recency_top1"; "hist_pb"; "hist_ab"; "hist_si"; "hist_nd"].
Definition compared (d : list (string * json)) : list (string * json) :=
  List.filter (fun kv => negb (bool_decide (kv.1 ∈ _IGNORED_FEATURES))) d.

Module Key.
Record t := mk {
  predicted_label : ustr; abstain_reason : option string; matched_item_id : option ustr; model_ver : ustr;
  confidence : ustr; features : list (string * json)
}.
End Key.

(** Python's equality of two such tuples. *)
Definition key_eq (a b : Key.t) : bool :=
  bool_decide (Key.predicted_label a = Key.predicted_label b) &&
  bool_decide (Key.abstain_reason a = Key.abstain_reason b) &&
  bool_decide (Key.matched_item_id a = Key.matched_item_id b) &&
  bool_decide (Key.model_ver a = Key.model_ver b) &&
  bool_decide (Key.confidence a = Key.confidence b) &&
  py_eq (JObj (Key.features a)) (JObj (Key.features b)).

Module Carried.
Record t := mk { explanation : ustr; llm_used : bool; carried_from_suggestion_id : Z; carried_from : string }.
End Carried.

Section Carry.
Context `{PgVector, PyRepr}.

(** A row's [confidence], as the driver reads it. *)
Definition confidence (s : SugRow.t) : pyfloat := read_real (SugRow.confidence s).

Definition _decision_key (s : SugRow.t) : Key.t :=
  Key.mk (SugRow.predicted_label s) (SugRow.abstain_reason s) (_s (SugRow.matched_item_id s)) (SugRow.model_ver s)
    (float_repr (confidence s)) (compared (SugRow.features s)).

Definition _carried_explanation (latest explained : option (Z * SugRow.t)) : option Carried.t :=
  match latest, explained with
  | Some (_, l), Some (id, e) =>
      let text := ustrip (default [] (SugRow.explanation e)) in
      if bool_decide (text = []) then None
      else if negb (key_eq (_decision_key l) (_decision_key e)) then None
      else Some (Carried.mk text (SugRow.llm_used e) id (_iso (SugRow.created_at e)))
  | _, _ => None
  end.

Definition _coldstart_block (features : list (string * json)) : option json :=
  match dget "coldstart" features with Some (JObj d) => Some (JObj d) | _ => None end.

Definition _is_below_band_abstain (row : option SugRow.t) : bool :=
  match row with
  | None => false
  | Some s => if is_rubric s then false else (or_zero (confidence s) <? TAU_SUGGEST)%F
  end.
End Carry.

(** ** The decision *)

Module FeatureRow.
Record t := mk { meta : FeatureMeta.t; value : pyfloat }.
End FeatureRow.

(** A value [float] refuses is skipped; an overflow is not caught. *)
Fixpoint numeric (features : list (string * json)) : result (list (string * pyfloat)) :=
  match features with
  | [] => Ok []
  | (k, v) :: fs =>
      match py_float v with
      | Ok x => rest ← numeric fs; Ok ((k, x) :: rest)
      | Raise e => if bool_decide (e = TypeError \/ e = ValueError) then numeric fs else Raise e
      end
  end.

(** [rows.sort(key=abs, reverse=True)]: equal magnitudes keep their order. *)
Definition magnitude_desc (a b : FeatureRow.t) : bool := (fabs (FeatureRow.value b) <=? fabs (FeatureRow.value a))%F.

Definition in_table (kx : string * pyfloat) : bool := bool_decide (is_Some (dget kx.1 FEATURE_INDEX)).

Definition _feature_rows (features : list (string * json)) : result (list FeatureRow.t * list (string * pyfloat)) :=
  xs ← numeric features;
  Ok (pysorted magnitude_desc ((fun kx => FeatureRow.mk (describe kx.1) kx.2) <$> List.filter in_table xs),
      List.filter (fun kx => negb (in_table kx)) xs).

(** [extras or None]. *)
Definition or_none {A} (l : list A) : option (list A) := match l with [] => None | _ => Some l end.

Module ModeInfo.
Record t := mk {
  mode_id : Z; status : string; label : option ustr; label_group : string; title : option ustr; purity : pyfloat;
  support : Z; seed_key : option string
}.
End ModeInfo.

Module Matching.
Record t := mk {
  has_suggestion : bool; stage : string; stage_label : string; stage_note : string; suggestion_id : option Z;
  matched_item_id : option ustr; matched_mode_id : option ustr; matched_mode : option ModeInfo.t
}.
End Matching.

Module Hypothesis_.
Record t := mk {
  suggestion_id : Z; predicted_label : ustr; predicted_group : string; confidence : pyfloat; model_ver : ustr;
  explanation : option ustr; created_at : string; coldstart : option json; source_role_enabled : bool;
  source_role_reason : option string
}.
End Hypothesis_.

Module Classical.
Record t := mk {
  predicted_label : ustr; predicted_group : string; confidence : pyfloat; band : string; model_ver : ustr;
  features : list FeatureRow.t; feature_count : Z; feature_total : Z; extra_snapshot : option (list (string * pyfloat));
  explanation : option ustr; llm_used : bool
}.
End Classical.

Module Block.
Record t := mk {
  predicted_label : ustr; predicted_group : string; confidence : pyfloat; band : string; model_ver : ustr;
  coldstart : option json; judge : option json; method : string; abstain_reason : option string;
  source : option string; llm_used : bool; explanation : option ustr; outcome : string; outcome_ts : option string;
  created_at : string; features : list FeatureRow.t; feature_count : Z; extra_snapshot : option (list (string * pyfloat));
  feature_total : Z;
  (* added by the journey *)
  explanation_carried_from : option (Z * string); rubric_hypothesis : option Hypothesis_.t;
  coldstart_provisional : bool; classical : option Classical.t
}.
Definition with_explanation (c : Carried.t) (b : t) : t :=
  mk (predicted_label b) (predicted_group b) (confidence b) (band b) (model_ver b) (coldstart b) (judge b) (method b)
    (abstain_reason b) (source b) (Carried.llm_used c) (Some (Carried.explanation c)) (outcome b) (outcome_ts b)
    (created_at b) (features b) (feature_count b) (extra_snapshot b) (feature_total b)
    (Some (Carried.carried_from_suggestion_id c, Carried.carried_from c)) (rubric_hypothesis b)
    (coldstart_provisional b) (classical b).
Definition with_hypothesis (h : Hypothesis_.t) (b : t) : t :=
  mk (predicted_label b) (predicted_group b) (confidence b) (band b) (model_ver b) (coldstart b) (judge b) (method b)
    (abstain_reason b) (source b) (llm_used b) (explanation b) (outcome b) (outcome_ts b) (created_at b) (features b)
    (feature_count b) (extra_snapshot b) (feature_total b) (explanation_carried_from b) (Some h)
    (coldstart_provisional b) (classical b).
Definition with_classical (c : option Classical.t) (b : t) : t :=
  mk (predicted_label b) (predicted_group b) (confidence b) (band b) (model_ver b) (coldstart b) (judge b) (method b)
    (abstain_reason b) (source b) (llm_used b) (explanation b) (outcome b) (outcome_ts b) (created_at b) (features b)
    (feature_count b) (extra_snapshot b) (feature_total b) (explanation_carried_from b) (rubric_hypothesis b) true c.
End Block.

Definition feature_total : Z := Z.of_nat (length FEATURE_DEFS).
Definition to_investigate : ustr := u "ti".

Section View.
Context `{PgVector, PgSearch, PyRepr}.

(** [if matched_item is not None ... elif ...]. *)
Definition stage_of (s : SugRow.t) : string * string * string :=
  let abstained := bool_decide (SugRow.predicted_label s = to_investigate) || (or_zero (confidence s) <? TAU_SUGGEST)%F in
  match SugRow.matched_item_id s, SugRow.matched_mode_id s with
  | Some i, _ => ("A", "Stage A — exact hash inherit",
      "Item inherited its label from a prior item (" +:+ str_of_Z i +:+ ") with the same error_hash (Stage A short-circuit).")
  | None, Some m => ("AB", "Stage A/B — KB mode match", "Matched knowledge-base failure mode #" +:+ str_of_Z m +:+ ".")
  | None, None =>
      if abstained then ("abstain", "Abstained", "No stage produced a confident match; item left as 'ti'.")
      else ("C", "Stage C — hybrid retrieval + GBM", "Decision came from Stage-C hybrid retrieval scored by the GBM.")
  end.

Definition mode_info (p m : Z) (r : ModeRow.t) : ModeInfo.t :=
  ModeInfo.mk m (ModeRow.status r) (ModeRow.label r) (_grp (ModeRow.label r)) (ModeRow.title r)
    (read_real (ModeRow.purity r)) (ModeRow.support r) (ModeRow.seed_key r).

(** The stored method, or what the stage and the model version say. *)
Definition method_of (s : SugRow.t) (stage : string) : string :=
  match SugRow.method s with
  | Some (String _ _ as m) => m
  | _ =>
      if bool_decide (stage = "A") then "hash"
      else if bool_decide (stage = "AB") then "kb"
      else if is_rubric s then "coldstart"
      else if bool_decide (head (usplit 59%N (SugRow.model_ver s)) = Some (u "rule_cold")) then "rule_cold"
      else "gbm"
  end.

Definition no_suggestion : Matching.t :=
  Matching.mk false "none" "No suggestion recorded" "" None None None None.

Definition _matching_decision (p : Z) (sug : option (Z * SugRow.t)) (d : db) : result (Matching.t * option Block.t) :=
  match sug with
  | None => Ok (no_suggestion, None)
  | Some (id, s) =>
      let '(stage, stage_label, stage_note) := stage_of s in
      let mode := SugRow.matched_mode_id s ≫= (fun m => mode_info p m <$> failure_mode d !! (p, m)) in
      let matching := Matching.mk true stage stage_label stage_note (Some id) (_s (SugRow.matched_item_id s))
                        (_s (SugRow.matched_mode_id s)) mode in
      '(rows, extras) ← _feature_rows (SugRow.features s);
      let conf := or_zero (confidence s) in
      Ok (matching, Some (Block.mk (SugRow.predicted_label s) (_grp (Some (SugRow.predicted_label s))) conf (band_of conf)
        (SugRow.model_ver s) (dget "coldstart" (SugRow.features s)) (dget "judge" (SugRow.features s)) (method_of s stage)
        (SugRow.abstain_reason s) (SugRow.source s) (SugRow.llm_used s) (SugRow.explanation s) (SugRow.outcome s)
        (_iso <$> SugRow.outcome_ts s) (_iso (SugRow.created_at s)) rows (Z.of_nat (length rows)) (or_none extras)
        feature_total None None false None))
  end.

(** ** The latest row, and what older rows add to it *)

Definition has_text (s : SugRow.t) : bool := match SugRow.explanation s with Some (_ :: _) => true | _ => false end.

Definition carry (p i : Z) (sug : Z * SugRow.t) (d : db) (b : Block.t) : Block.t :=
  if blank (default [] (SugRow.explanation sug.2)) then
    match _carried_explanation (Some sug) (latest_where p i has_text d) with
    | Some c => Block.with_explanation c b
    | None => b
    end
  else b.

Definition resurface (p i : Z) (s : SugRow.t) (d : db) (b : Block.t) : Block.t :=
  if _is_below_band_abstain (Some s) then
    match latest_where p i is_rubric d with
    | Some (id, r) =>
        let role := llm_role_state d !! (p, "coldstart") in
        Block.with_hypothesis (Hypothesis_.mk id (SugRow.predicted_label r) (_grp (Some (SugRow.predicted_label r)))
          (or_zero (confidence r)) (SugRow.model_ver r) (SugRow.explanation r) (_iso (SugRow.created_at r))
          (_coldstart_block (SugRow.features r)) (default true (RoleStateRow.enabled <$> role))
          (role ≫= RoleStateRow.reason)) b
    | None => b
    end
  else b.

Definition classical_of (s : SugRow.t) : result Classical.t :=
  let c := or_zero (confidence s) in
  '(rows, extras) ← _feature_rows (SugRow.features s);
  Ok (Classical.mk (SugRow.predicted_label s) (_grp (Some (SugRow.predicted_label s))) c (band_of c) (SugRow.model_ver s)
        rows (Z.of_nat (length rows)) feature_total (or_none extras) (SugRow.explanation s) (SugRow.llm_used s)).

Definition provisional (p i : Z) (s : SugRow.t) (d : db) (b : Block.t) : result Block.t :=
  if is_rubric s then
    match latest_where p i (fun s => negb (is_rubric s)) d with
    | Some (_, c) => c ← classical_of c; Ok (Block.with_classical (Some c) b)
    | None => Ok (Block.with_classical None b)
    end
  else Ok b.

(** The matching and decision blocks of [item_journey]. *)
Definition decision_blocks (p i : Z) (d : db) : result (Matching.t * option Block.t) :=
  let sug := latest_suggestion p i d in
  '(m, block) ← _matching_decision p sug d;
  match sug, block with
  | Some (id, s), Some b =>
      b ← provisional p i s d (resurface p i s d (carry p i (id, s) d b));
      Ok (m, Some b)
  | _, _ => Ok (m, block)
  end.
End View.

(** ** The clock and the compared features

    Two snapshots are alike when they differ in ignored columns only. *)

(** Membership of the table of ignored columns, by evaluation. *)
Ltac ignored := apply (bool_decide_eq_true_1 (_ ∈ _IGNORED_FEATURES)); vm_compute; reflexivity.

Definition settled (d : list (string * pyfloat)) : list (string * pyfloat) :=
  List.filter (fun kv => negb (bool_decide (kv.1 ∈ _IGNORED_FEATURES))) d.
Inductive alike (a b : list (string * pyfloat)) : Prop := Alike (_ : settled a = settled b).
Lemma alike_settled a b : alike a b -> settled a = settled b.
Proof. by intros []. Qed.

#[export] Instance alike_equivalence : Equivalence alike.
Proof.
  split; [done|by intros a b []|]. intros a b c [E1] [E2]. constructor. congruence.
Qed.

Lemma settled_dset k v d :
  settled (dset k v d) = if decide (k ∈ _IGNORED_FEATURES) then settled d else dset k v (settled d).
Proof.
  unfold settled. induction d as [|[k' v'] d IH]; cbn [dset List.filter fst].
  - destruct (decide (k ∈ _)) as [Hk|Hk]; [by rewrite bool_decide_true|by rewrite bool_decide_false].
  - destruct (decide (k = k')) as [<-|Hne]; cbn [List.filter fst].
    + destruct (decide (k ∈ _)) as [Hk|Hk]; [by rewrite bool_decide_true|].
      rewrite bool_decide_false by done. cbn. by rewrite decide_True.
    + rewrite IH. destruct (decide (k ∈ _)); destruct (bool_decide (k' ∈ _)); cbn; try done. by rewrite decide_False.
Qed.

#[export] Instance dset_alike k v : Proper (alike ==> alike) (dset k v).
Proof. intros a b [E]. constructor. rewrite !settled_dset. by rewrite E. Qed.

Lemma dset_ignored k v d : k ∈ _IGNORED_FEATURES -> alike (dset k v d) d.
Proof. intros Hk. constructor. rewrite settled_dset. by rewrite decide_True. Qed.

#[export] Instance set_onehot_alike : Proper (alike ==> eq ==> eq ==> eq ==> alike) _set_onehot.
Proof.
  intros a b E ? prefix -> ? levels -> ? value ->. unfold _set_onehot.
  generalize (if decide (value ∈ levels) then value else LLM_UNKNOWN). intros active. revert a b E.
  induction levels as [|l levels IH]; intros a b E; [done|]. cbn [fold_left]. apply IH. by rewrite E.
Qed.

Section Clock.
Context `{!Libm}.

(** The inputs of the extractor that move with the clock. *)
Definition with_clock (ages : list pyfloat) (age : option pyfloat) (per_day : pyfloat) (c : FeatureContext.t) : FeatureContext.t := {|
  FeatureContext.candidates := FeatureContext.candidates c; FeatureContext.candidate_ages_days := ages;
  FeatureContext.kb_best := FeatureContext.kb_best c; FeatureContext.seed := FeatureContext.seed c;
  FeatureContext.flakiness_score := FeatureContext.flakiness_score c; FeatureContext.window_runs := FeatureContext.window_runs c;
  FeatureContext.window_failures := FeatureContext.window_failures c; FeatureContext.window_flips := FeatureContext.window_flips c;
  FeatureContext.test_age_days := age; FeatureContext.group_size := FeatureContext.group_size c;
  FeatureContext.launch_failures := FeatureContext.launch_failures c; FeatureContext.launch_items := FeatureContext.launch_items c;
  FeatureContext.si_prior := FeatureContext.si_prior c; FeatureContext.item_log_count := FeatureContext.item_log_count c;
  FeatureContext.has_stacktrace := FeatureContext.has_stacktrace c; FeatureContext.is_assertion := FeatureContext.is_assertion c;
  FeatureContext.is_merged_small_logs := FeatureContext.is_merged_small_logs c;
  FeatureContext.exception_count := FeatureContext.exception_count c;
  FeatureContext.llm_failing_layer := FeatureContext.llm_failing_layer c;
  FeatureContext.llm_error_class := FeatureContext.llm_error_class c;
  FeatureContext.query_status_codes := FeatureContext.query_status_codes c;
  FeatureContext.query_msg_tokens := FeatureContext.query_msg_tokens c;
  FeatureContext.top1_status_codes := FeatureContext.top1_status_codes c;
  FeatureContext.top1_msg_tokens := FeatureContext.top1_msg_tokens c;
  FeatureContext.has_hash_top1 := FeatureContext.has_hash_top1 c; FeatureContext.hash_gate_blocked := FeatureContext.hash_gate_blocked c;
  FeatureContext.time_decay_per_day := per_day |}.

(** The history votes are all ignored. *)
Lemma mass_ignored c cands d : alike (mass_features c cands d) d.
Proof.
  unfold mass_features. destruct (history_mass c cands) as [mass total]. destruct (_ <? total)%F; [|done].
  unfold BASE_LABELS. cbn [fold_left]. rewrite !dset_ignored by ignored. done.
Qed.

#[export] Instance label_features_alike cands top1 : Proper (alike ==> alike) (label_features cands top1).
Proof. intros a b E. unfold label_features. cbv zeta. destruct (base_group _); [case_decide|]; by rewrite E. Qed.

Lemma candidate_features_alike ages age per_day c a b : alike a b ->
  alike (candidate_features (with_clock ages age per_day c) a) (candidate_features c b).
Proof.
  intros E. unfold candidate_features. cbn [FeatureContext.candidates with_clock].
  destruct (FeatureContext.candidates c) as [|top1 rest]; [done|]. cbv zeta. rewrite !mass_ignored.
  apply dset_alike. rewrite !(dset_ignored "recency_top1") by ignored. by rewrite E.
Qed.

#[export] Instance kb_features_alike c : Proper (alike ==> alike) (kb_features c).
Proof. intros a b E. unfold kb_features. case_match; [|done]. cbv zeta. by rewrite E. Qed.
#[export] Instance seed_features_alike c : Proper (alike ==> alike) (seed_features c).
Proof. intros a b E. unfold seed_features. case_match; [|done]. cbv zeta. case_match; by rewrite E. Qed.
#[export] Instance context_features_alike c : Proper (alike ==> alike) (context_features c).
Proof. intros a b E. unfold context_features. cbv zeta. repeat case_match; by rewrite E. Qed.
#[export] Instance discriminant_features_alike c : Proper (alike ==> alike) (discriminant_features c).
Proof. intros a b E. unfold discriminant_features. cbv zeta. repeat case_match; by rewrite E. Qed.

Lemma item_features_alike ages age per_day c a b : alike a b ->
  alike (item_features (with_clock ages age per_day c) a) (item_features c b).
Proof.
  intros E. unfold item_features. cbn [FeatureContext.test_age_days with_clock FeatureContext.item_log_count FeatureContext.has_stacktrace
    FeatureContext.is_assertion FeatureContext.is_merged_small_logs FeatureContext.exception_count]. cbv zeta.
  assert (forall o (x : list (string * pyfloat)), alike (match o with
      | Some d => dset "test_age_days" (_clamp01 (fquot (math_log1p (pymin2 (pymax2 f0 d) (of_Z 365))) (math_log1p (of_Z 365)))) x
      | None => x end) x) as Hage.
  { intros [d|] x; [|done]. apply dset_ignored. ignored. }
  by rewrite !Hage, E.
Qed.

(** Whatever the ages, the age of the test and the decay, the columns that are
    compared do not move. *)
Lemma clock_moves_ignored_only ages age per_day c : alike (extract_features (with_clock ages age per_day c)) (extract_features c).
Proof.
  unfold extract_features. cbv zeta.
  change (discriminant_features (with_clock ages age per_day c)) with (discriminant_features c).
  change (context_features (with_clock ages age per_day c)) with (context_features c).
  change (seed_features (with_clock ages age per_day c)) with (seed_features c).
  change (kb_features (with_clock ages age per_day c)) with (kb_features c).
  cbn [FeatureContext.llm_failing_layer FeatureContext.llm_error_class with_clock].
  apply discriminant_features_alike. do 2 (apply set_onehot_alike; [|done..]). apply item_features_alike.
  apply context_features_alike, seed_features_alike, kb_features_alike. by apply candidate_features_alike.
Qed.
End Clock.

(** ** When an explanation is carried over *)

Lemma py_eq_obj d d' : py_eq (JObj d) (JObj d') = true <->
  length d = length d' /\ Forall (fun kv => exists v, dget kv.1 d' = Some v /\ py_eq kv.2 v = true) d.
Proof.
  cbn [py_eq]. rewrite andb_true_iff, Nat.eqb_eq. apply and_iff_compat_l.
  induction d as [|[k v] d IH]; [by split|]. rewrite Forall_cons, andb_true_iff, IH. cbn [fst snd].
  apply and_iff_compat_r. destruct (dget k d') as [w|]; split; [by exists w|by intros (? & [= <-] & ?)|done|by intros (? & ? & ?)].
Qed.

Lemma dget_compared k d : k ∉ _IGNORED_FEATURES -> dget k (compared d) = dget k d.
Proof.
  intros Hk. induction d as [|[k' v] d IH]; [done|]. unfold compared in *. cbn [List.filter dget fst].
  destruct (bool_decide (k' ∈ _)) eqn:E; cbn [negb dget]; [|by rewrite IH].
  apply bool_decide_eq_true in E. rewrite decide_False; [done|]. by intros ->.
Qed.

Lemma _s_inj a b : _s a = _s b -> a = b.
Proof.
  destruct a as [x|], b as [y|]; cbn; try done. intros [= E%u_inj]. f_equal. by apply (inj pretty).
Qed.

Section CarryLaws.
Context `{PgVector, PgSearch, PyRepr}.

(** Everything an explanation can speak of is the same on both rows. *)
Record same_decision (s e : SugRow.t) : Prop := {
  sd_label : SugRow.predicted_label s = SugRow.predicted_label e;
  sd_reason : SugRow.abstain_reason s = SugRow.abstain_reason e;
  sd_item : SugRow.matched_item_id s = SugRow.matched_item_id e;
  sd_model : SugRow.model_ver s = SugRow.model_ver e;
  sd_confidence : float_repr (confidence s) = float_repr (confidence e);
  sd_features : forall k v, (k, v) ∈ SugRow.features s -> k ∉ _IGNORED_FEATURES ->
                exists v', dget k (SugRow.features e) = Some v' /\ py_eq v v' = true
}.

Lemma key_eq_same s e : key_eq (_decision_key s) (_decision_key e) = true -> same_decision s e.
Proof.
  unfold key_eq. rewrite !andb_true_iff, !bool_decide_eq_true, py_eq_obj. cbn.
  intros (((((Hl & Hr) & Hi) & Hm) & Hc) & _ & Hf). apply _s_inj in Hi. constructor; [done..|].
  intros k v Hin Hk. rewrite Forall_forall in Hf. rewrite <- (dget_compared k) by done. apply (Hf (k, v)).
  apply filterb_elem. split; [done|]. apply negb_true_iff. by apply bool_decide_eq_false.
Qed.

Lemma carried_same l id e c : _carried_explanation (Some l) (Some (id, e)) = Some c ->
  same_decision l.2 e /\ c = Carried.mk (ustrip (default [] (SugRow.explanation e))) (SugRow.llm_used e) id (_iso (SugRow.created_at e))
  /\ Carried.explanation c <> [].
Proof.
  destruct l as [n s]. unfold _carried_explanation. cbv zeta. case_bool_decide as Ht; [done|].
  destruct (key_eq _ _) eqn:Ek; [|done]. intros [= <-]. cbn. split; [by apply key_eq_same|done].
Qed.

(** The fields of a block that tell the decision itself. *)
Definition tells (b : Block.t) (s : SugRow.t) : Prop :=
  Block.predicted_label b = SugRow.predicted_label s /\ Block.confidence b = or_zero (confidence s)
  /\ Block.band b = band_of (or_zero (confidence s)) /\ Block.model_ver b = SugRow.model_ver s
  /\ Block.abstain_reason b = SugRow.abstain_reason s /\ Block.method b = method_of s (stage_of s).1.1
  /\ Block.outcome b = SugRow.outcome s.

(** Where the explanation of a block is from. *)
Definition explained (p i : Z) (d : db) (s : SugRow.t) (b : Block.t) : Prop :=
  match Block.explanation_carried_from b with
  | None => Block.explanation b = SugRow.explanation s /\ Block.llm_used b = SugRow.llm_used s
  | Some (src, t) =>
      blank (default [] (SugRow.explanation s)) = true /\
      exists e, suggestion d !! src = Some e /\ SugRow.project_id e = p /\ SugRow.item_id e = i
        /\ Block.explanation b = Some (ustrip (default [] (SugRow.explanation e)))
        /\ ustrip (default [] (SugRow.explanation e)) <> [] /\ Block.llm_used b = SugRow.llm_used e
        /\ t = _iso (SugRow.created_at e) /\ same_decision s e /\ is_rubric s = is_rubric e
  end.

Lemma matching_tells p id s d m b : _matching_decision p (Some (id, s)) d = Ok (m, Some b) ->
  tells b s /\ Block.explanation b = SugRow.explanation s /\ Block.llm_used b = SugRow.llm_used s
  /\ Block.explanation_carried_from b = None /\ Block.rubric_hypothesis b = None /\ Block.classical b = None
  /\ Block.coldstart_provisional b = false /\ Matching.suggestion_id m = Some id /\ Matching.stage m = (stage_of s).1.1.
Proof.
  unfold _matching_decision, tells. destruct (stage_of s) as [[stage label] note]. cbn [mbind result_bind].
  destruct (_feature_rows _) as [[rows extras]|e]; [|done]. intros [= <- <-]. by split_and!.
Qed.

Lemma carry_explained p i id s d b : tells b s -> Block.explanation b = SugRow.explanation s ->
  Block.llm_used b = SugRow.llm_used s -> Block.explanation_carried_from b = None ->
  tells (carry p i (id, s) d b) s /\ explained p i d s (carry p i (id, s) d b)
  /\ Block.rubric_hypothesis (carry p i (id, s) d b) = Block.rubric_hypothesis b
  /\ Block.classical (carry p i (id, s) d b) = Block.classical b.
Proof.
  intros Ht He Hl Hc. unfold carry. cbn [snd]. destruct (blank _) eqn:Eb.
  2: { split_and!; [done| |done..]. unfold explained. by rewrite Hc. }
  destruct (_carried_explanation _ _) as [c|] eqn:Ec.
  2: { split_and!; [done| |done..]. unfold explained. by rewrite Hc. }
  split_and!; [done| |done..]. unfold explained. cbn. split; [done|].
  destruct (latest_where p i has_text d) as [[src e]|] eqn:El; [|done].
  apply carried_same in Ec as (Hs & -> & Hne). apply latest_where_in in El as (Hin & Hp & Hi & _).
  exists e. cbn in *. split_and!; [done..|]. unfold is_rubric. by rewrite (sd_model _ _ Hs).
Qed.

(** What the resurfaced rubric leaves of a block. *)
Lemma resurface_keeps p i d s b : tells b s -> explained p i d s b -> Block.rubric_hypothesis b = None -> Block.classical b = None ->
  let b' := resurface p i s d b in
  tells b' s /\ explained p i d s b' /\ Block.classical b' = None
  /\ (Block.rubric_hypothesis b' <> None -> is_rubric s = false /\ (Block.confidence b' <? TAU_SUGGEST)%F = true).
Proof.
  intros Ht He Hh Hc. cbv zeta. unfold resurface.
  destruct (_is_below_band_abstain (Some s)) eqn:Ea; [|by rewrite Hh].
  destruct (latest_where p i is_rubric d) as [[rid r]|]; [|by rewrite Hh].
  split_and!; [done..|]. intros _. cbn. destruct Ht as (_ & -> & _).
  unfold _is_below_band_abstain in Ea. by destruct (is_rubric s).
Qed.

Lemma explained_confidence p i d s b src t e : (forall x y, float_repr x = float_repr y -> x = y) ->
  explained p i d s b -> Block.explanation_carried_from b = Some (src, t) -> suggestion d !! src = Some e -> confidence s = confidence e.
Proof.
  intros Hrepr He Ec Hin. unfold explained in He. rewrite Ec in He.
  destruct He as (_ & e' & Hin' & _ & _ & _ & _ & _ & _ & Hs & _). assert (e' = e) as -> by congruence.
  by apply Hrepr, (sd_confidence _ _ Hs).
Qed.

(** C28. What the journey of an item shows as its decision is the latest suggestion of
    that item: label, confidence, band, model, reason, method and outcome are that
    row's, whatever older rows are shown beside it.  Its explanation is the row's own;
    only when the row has none is a text carried over, with its source named, and then
    from a suggestion of the same project and item that decided the same - label,
    abstain reason, matched item, model version, the exact confidence, and every
    feature that does not move with the clock - so never between a rubric row and a
    classical one.  An older rubric is shown only beside a classical decision under the
    suggestion threshold, and a classical decision only beside a rubric. *)
Theorem shown_decision_honest (p i : Z) (d : db) (m : Matching.t) (b : Block.t) :
  (forall x y, float_repr x = float_repr y -> x = y) -> decision_blocks p i d = Ok (m, Some b) ->
  exists id s, latest_suggestion p i d = Some (id, s) /\ Matching.suggestion_id m = Some id
  /\ tells b s /\ explained p i d s b
  /\ (forall src t e, Block.explanation_carried_from b = Some (src, t) -> suggestion d !! src = Some e -> confidence s = confidence e)
  /\ (Block.rubric_hypothesis b <> None -> is_rubric s = false /\ (Block.confidence b <? TAU_SUGGEST)%F = true)
  /\ (Block.classical b <> None -> is_rubric s = true).
Proof.
  intros Hrepr. unfold decision_blocks. destruct (latest_suggestion p i d) as [[id s]|] eqn:El; [|by intros [= <- <-]].
  destruct (_matching_decision p (Some (id, s)) d) as [[m' [b0|]]|e] eqn:Em; cbn [mbind result_bind]; [|by intros [= <- <-]|done].
  pose proof (matching_tells _ _ _ _ _ _ Em) as (Ht & He & Hl & Hc & Hh & Hcl & _ & Hid & _).
  destruct (carry_explained p i id s d b0 Ht He Hl Hc) as (Ht1 & He1 & Hh1 & Hcl1).
  destruct (resurface_keeps p i d s _ Ht1 He1) as (Ht2 & He2 & Hcl2 & Hh2); [by rewrite Hh1|by rewrite Hcl1|].
  set (b2 := resurface p i s d _) in *. unfold provisional. destruct (is_rubric s) eqn:Er.
  - intros E. assert (m' = m /\ exists c, b = Block.with_classical c b2) as [-> [c ->]].
    { destruct (latest_where p i _ d) as [[cid c]|]; cbn [mbind result_bind] in E; [|injection E as <- <-; by split; [|exists None]].
      destruct (classical_of c) as [c'|e]; cbn [mbind result_bind] in E; [|done]. injection E as <- <-. by split; [|exists (Some c')]. }
    exists id, s. split_and!; [done..| |by intros Hn; destruct (Hh2 Hn)|done].
    intros src t e. by apply (explained_confidence p i d s b2).
  - intros [= -> <-]. exists id, s. split_and!; [done..| |by rewrite Er|by rewrite Hcl2].
    intros src t e. by apply (explained_confidence p i d s b2).
Qed.
End CarryLaws.

(** ** A decision made again later *)

Definition json_features (fs : list (string * pyfloat)) : list (string * json) := (fun kv => (kv.1, JFloat kv.2)) <$> fs.

Lemma compared_json fs : compared (json_features fs) = json_features (settled fs).
Proof.
  unfold compared, json_features, settled. induction fs as [|[k v] fs IH]; [done|]. cbn.
  destruct (bool_decide _); cbn; by rewrite IH.
Qed.

Lemma compared_app a b : compared (a ++ b) = compared a ++ compared b.
Proof. apply List.filter_app. Qed.

Lemma compared_judge js : Forall (fun kv => kv.1 = "judge") js -> compared js = [].
Proof. induction 1 as [|[k v] js E _ IH]; [done|]. cbn in E. subst k. done. Qed.

Lemma py_eq_numbers fs : NoDup fs.*1 -> Forall (fun kv => is_nan kv.2 = false) fs ->
  py_eq (JObj (json_features fs)) (JObj (json_features fs)) = true.
Proof.
  intros Hnd Hall. apply py_eq_obj. split; [done|]. apply Forall_forall. intros [k v] Hin.
  unfold json_features in Hin. apply list_elem_of_fmap in Hin as ([k' x] & [= -> ->] & Hin). exists (JFloat x). split.
  - cbn. apply elem_dget; [unfold json_features; by rewrite <- list_fmap_compose|]. apply list_elem_of_fmap. by exists (k', x).
  - cbn. rewrite Forall_forall in Hall. specialize (Hall _ Hin). cbn in Hall. by apply feq_fle; split; apply fle_refl.
Qed.

Section Again.
Context `{PgVector, PgSearch, PyRepr, Libm}.

Lemma snapshot_comparable c : NoDup (settled (extract_features c)).*1 /\ Forall (fun kv => is_nan kv.2 = false) (settled (extract_features c)).
Proof.
  destruct (extract_features_inv c) as [Hk Hall].
  assert (sublist (settled (extract_features c)) (extract_features c)) as Hs.
  { unfold settled. clear. induction (extract_features c) as [|x l IH]; [constructor|]. cbn [List.filter].
    destruct (negb _); [by apply sublist_skip|by apply sublist_cons]. }
  split.
  - apply (sublist_NoDup _ feature_names); [apply feature_names_NoDup|]. rewrite <- Hk. by apply fmap_sublist.
  - apply Forall_forall. intros kv Hin. rewrite Forall_forall in Hall. specialize (Hall kv (proj1 (proj1 (filterb_elem _ _ _) Hin))).
    destruct kv as [k v]. unfold feat_ok, in01 in Hall. cbn [fst snd] in *.
    destruct v; [done..| |done]. by destruct (decide (k = _)).
Qed.

(** A decision made again, with the same evidence and outcome but at another time -
    other ages of the candidates and of the test, even another decay - and whatever
    the judge has annotated on either row, keeps its explanation: the journey of the
    item shows the older row's text and names its source. *)
Theorem explanation_survives_the_clock (p i : Z) (d : db) (b : Block.t) (l e : SugRow.t) (n id : Z)
    (c : FeatureContext.t) (ages : list pyfloat) (age : option pyfloat) (per_day : pyfloat) (jl je : list (string * json)) :
  latest_where p i has_text d = Some (id, e) ->
  Forall (fun kv => kv.1 = "judge") jl -> Forall (fun kv => kv.1 = "judge") je ->
  SugRow.features e = json_features (extract_features c) ++ je ->
  SugRow.features l = json_features (extract_features (with_clock ages age per_day c)) ++ jl ->
  SugRow.predicted_label l = SugRow.predicted_label e -> SugRow.abstain_reason l = SugRow.abstain_reason e ->
  SugRow.matched_item_id l = SugRow.matched_item_id e -> SugRow.model_ver l = SugRow.model_ver e ->
  SugRow.confidence l = SugRow.confidence e ->
  blank (default [] (SugRow.explanation l)) = true -> blank (default [] (SugRow.explanation e)) = false ->
  carry p i (n, l) d b
  = Block.with_explanation (Carried.mk (ustrip (default [] (SugRow.explanation e))) (SugRow.llm_used e) id (_iso (SugRow.created_at e))) b.
Proof.
  intros He Hjl Hje Fe Fl El Er Ei Em Ec Hb Hne. unfold carry. cbn [snd]. rewrite Hb, He. unfold _carried_explanation. cbv zeta.
  rewrite bool_decide_false by (intros E; unfold blank in Hne; by rewrite E in Hne).
  assert (key_eq (_decision_key l) (_decision_key e) = true) as ->; [|done].
  unfold key_eq, _decision_key, confidence. cbn. rewrite Fe, Fl, El, Er, Ei, Em, Ec, !bool_decide_true by done.
  rewrite !compared_app, (compared_judge jl), (compared_judge je), !app_nil_r, !compared_json by done.
  rewrite (alike_settled _ _ (clock_moves_ignored_only ages age per_day c)).
  destruct (snapshot_comparable c) as [Hnd Hall]. exact (py_eq_numbers _ Hnd Hall).
Qed.
End Again.

(** ** Concrete journeys *)

Section Example.
#[local] Existing Instance toy_vectors.
#[local] Existing Instance toy_search.

(** A rendering that tells floats apart, as [repr] does. *)
#[local] Instance spelled : PyRepr := {|
  float_repr x := match x with
                  | S754_zero s => [0; N.b2n s] | S754_infinity s => [1; N.b2n s] | S754_nan => [2]
                  | S754_finite s m e => [3; N.b2n s; Npos m; Z.to_N e; Z.to_N (- e)]
                  end%N;
  container_repr _ := [] |}.

Lemma spelled_inj x y : float_repr x = float_repr y -> x = y.
Proof.
  assert (forall a b, N.b2n a = N.b2n b -> a = b) as Hb by (by intros [] []).
  destruct x, y; cbn; try done; intros E; try (injection E as E%Hb; by subst).
  injection E as Es%Hb Em Ep En. assert (e = e0) by lia. by subst.
Qed.

Definition decided (at_ : Z) (label : string) (confidence age : pyfloat) (model : string) (text : option string) (d : db) : db :=
  (write_suggestion at_ (SuggestionRow.mk 1 10 3 None (u label) confidence None None
     [("top1_cosine", JFloat f1); ("test_age_days", JFloat age)] (u model) false (u <$> text) (Some "gbm") None None) d).1.

(** Explained once, decided again: the same at another age of the test, and then with
    another confidence; and a rubric under a decision that is below the band. *)
Definition again (confidence : pyfloat) : db :=
  decided 5 "pb001" confidence half "gbm-7" None (decided 1 "pb001" half f0 "gbm-7" (Some " because ") empty_db).
Definition resurfaced : db :=
  decided 9 "ti" (dec 3 10) f0 "gbm-7" None (decided 7 "si001" half f0 "rubric+m" (Some "R6") empty_db).

Definition shown_text (d : db) : option (option ustr * option Z * option Z) :=
  match decision_blocks 1 10 d with
  | Ok (_, Some b) => Some (Block.explanation b, fst <$> Block.explanation_carried_from b, Hypothesis_.suggestion_id <$> Block.rubric_hypothesis b)
  | _ => None
  end.
Example texts_shown : (shown_text <$> [again half; again f1; resurfaced])
  = [Some (Some (u "because"), Some 1, None); Some (None, None, None); Some (None, None, Some 1)].
Proof. by vm_compute. Qed.

Lemma shown_decision_honest_witness : exists m b id s, decision_blocks 1 10 (again half) = Ok (m, Some b)
  /\ latest_suggestion 1 10 (again half) = Some (id, s) /\ tells b s /\ explained 1 10 (again half) s b.
Proof.
  destruct (decision_blocks 1 10 (again half)) as [[m [b|]]|e] eqn:E; [|by vm_compute in E..].
  destruct (shown_decision_honest 1 10 (again half) m b spelled_inj E) as (id & s & Hl & _ & Ht & He & _).
  exists m, b, id, s. by split_and!.
Defined.

#[local] Instance flat_libm : Libm := {| math_exp := id; math_log := id; math_log1p := id; float_pow x _ := x |}.

Definition snapshot_row (features : list (string * pyfloat)) (text : option string) (at_ : Z) (judge : list (string * json)) : SuggestionRow.t :=
  SuggestionRow.mk 1 10 3 None (u "pb001") half None None (json_features features ++ judge) (u "gbm-7") false (u <$> text) (Some "gbm") None None.
Definition older := snapshot_row (extract_features empty_context) (Some "because") 1 [].
Definition fresh :=
  snapshot_row (extract_features (with_clock [] (Some f1) f1 empty_context)) None 5 [("judge", JObj [("verdict", JNull)])].
Definition twice : db := (write_suggestion 5 fresh (write_suggestion 1 older empty_db).1).1.

Definition fresh_block : Block.t :=
  Block.mk (u "pb001") "pb" half "suggest" (u "gbm-7") None None "gbm" None None false None "pending" None (_iso 5) [] 0 None
    feature_total None None false None.

Lemma explanation_survives_the_clock_witness :
  Block.explanation (carry 1 10 (2, pending 5 fresh) twice fresh_block) = Some (u "because").
Proof.
  rewrite (explanation_survives_the_clock 1 10 twice fresh_block (pending 5 fresh) (pending 1 older) 2 1 empty_context [] (Some f1) f1
    [("judge", JObj [("verdict", JNull)])] []); try reflexivity; repeat constructor.
Defined.
End Example.
