(* ===== verification/InspectorViews.v ===== *)
(** * The inspector's views of a project

    [inspector/backend/payloads.py]: the other blocks of an item's journey - its
    templates, its group with the members shown, its feedback - the retrieval run again
    ([reconstruct.py]), the groups of a launch, the fingerprint space with its
    conflicts, the maturity of a project and its counters.  Views are reads of the
    tables of [Database]; links are left out. *)

From S2P Require Import Prelude PyFloat FloatQuot PyStr Regex PyText PyJson PyInt JsonText PyTime DrainStore Ingest LlmEngine Database Retrieval Knowledge HybridSearch LabelLog Models Inspector.
From Stdlib Require Import ZArith Lia.

#[local] Open Scope string_scope.
#[local] Open Scope list_scope.
#[local] Open Scope Z_scope.

Import Db (drain, test_item, failure_signature, failure_mode, label_event, suggestion, launch_group, llm_event, llm_role_state).

(** ** The blocks of a journey *)

(** A template of the signature, or the note that its row is missing. *)
Definition templates_block (p : Z) (ids : list Z) (d : db) : list (Z * option TemplateRow.t) :=
  (fun t => (t, Tables.log_template (drain d) !! (p, t))) <$> ids.

Definition launch_size (p launch : Z) (d : db) : Z :=
  count (fun k r => (k.1 =? p) && (ItemRow.launch_id r =? launch)) (test_item d).

(** [ORDER BY (fingerprint = ...) DESC, member_count DESC LIMIT 1]; without a signature
    the largest group. *)
Definition group_leb (hash : option Z) (a b : Z * Z * GroupRow.t) : bool :=
  let same x := Z.b2z (bool_decide (hash = Some (GroupRow.fingerprint x.2))) in
  leb_of (then_by (desc (same a) (same b)) (desc (GroupRow.member_count a.2) (GroupRow.member_count b.2))).
Definition group_of_item (p launch : Z) (hash : option Z) (d : db) : option (Z * GroupRow.t) :=
  (fun kg => (kg.1.2, kg.2)) <$>
  head (pysorted (group_leb hash) (rows_of (fun k g => (k.1 =? p) && (GroupRow.launch_id g =? launch)) (launch_group d))).

Module Member.
Record t := mk {
  item_id : Z; item_name : ustr; issue_type : option ustr; label_group : string; is_auto_analyzed : bool; is_self : bool
}.
End Member.
Definition member_of (p self i : Z) (d : db) : option Member.t :=
  (fun r => let x := ItemRow.data r in
     Member.mk i (TestItemIn.item_name x) (TestItemIn.issue_type x) (_grp (TestItemIn.issue_type x))
       (TestItemIn.is_auto_analyzed x) (i =? self)) <$> test_item d !! (p, i).

(** The items with a suggestion of the group, and those with its fingerprint. *)
Definition suggested_in (p launch group : Z) (d : db) : gset Z :=
  list_to_set (omap (fun ks => let s := ks.2 in
    if (SugRow.project_id s =? p) && (SugRow.launch_id s =? launch) && bool_decide (SugRow.group_id s = Some group)
       && bool_decide (is_Some (test_item d !! (p, SugRow.item_id s)))
    then Some (SugRow.item_id s) else None) (map_to_list (suggestion d))).
Definition fingerprinted (p launch hash : Z) (d : db) : gset Z :=
  list_to_set ((fun x => x.1.1) <$> joined p (fun _ s r => (ItemRow.launch_id r =? launch) && (hash_of s =? hash)) d).

(** [ORDER BY (item_id = ...) DESC, item_id LIMIT 60]. *)
Definition self_first (self a b : Z) : bool := leb_of (then_by (desc (Z.b2z (a =? self)) (Z.b2z (b =? self))) (a ?= b)).
Definition group_members (p launch self group : Z) (g : GroupRow.t) (d : db) : list Member.t :=
  omap (fun i => member_of p self i d)
    (limited (self_first self) _GROUP_MEMBER_CAP
       (elements (suggested_in p launch group d ∪ fingerprinted p launch (GroupRow.fingerprint g) d))).

Module GroupBlock.
Record t := mk {
  group_id : Z; fingerprint : ustr; member_count : Z; dominant : bool; si_prior : pyfloat; launch_failed_count : Z;
  members : list Member.t; member_shown : Z
}.
End GroupBlock.

Module Feedback.
Record t := mk {
  event_id : Z; old_label : option ustr; new_label : ustr; old_group : string; new_group : string;
  source : string; suggestion_id : option Z; ts : string
}.
End Feedback.
Definition feedback_row (e : Z * EventRow.t) : Feedback.t :=
  Feedback.mk e.1 (EventRow.old_label e.2) (EventRow.new_label e.2) (_grp (EventRow.old_label e.2)) (_grp (Some (EventRow.new_label e.2)))
    (EventRow.source e.2) (EventRow.suggestion_id e.2) (_iso (EventRow.ts e.2)).
Definition feedback (p i : Z) (d : db) : list Feedback.t := feedback_row <$> limited event_leb 50 (events_of p i d).

(** [_item_llm]: the newest twenty calls about the item, and the switches. *)
Definition call_leb (a b : Z * AuditRow.t) : bool :=
  leb_of (then_by (desc (AuditRow.created_at a.2) (AuditRow.created_at b.2)) (desc a.1 b.1)).
Definition item_calls (p i : Z) (d : db) : list (Z * AuditRow.t) :=
  limited call_leb 20 (rows_of (fun _ a => (AuditRow.project_id a =? p) && (AuditRow.item_id a =? i)) (llm_event d)).
Definition role_states (p : Z) (d : db) : list (string * RoleStateRow.t) :=
  (fun kr => (kr.1.2, kr.2)) <$> rows_of (fun k _ => k.1 =? p) (llm_role_state d).

Module Recon.
Record t := mk {
  item_id : Z; is_self : bool; sparse_rank : option Z; dense_rank : option Z; lex_score : option pyfloat;
  cosine : option pyfloat; rrf_score : pyfloat; jaccard_templates : pyfloat; error_hash : ustr; exception_fp : ustr;
  issue_type : option ustr; launch_id : Z; launch_number : Z; is_auto_analyzed : bool; label_source : option string;
  mode_id : option Z
}.
End Recon.

Module Journey.
Record t := mk {
  item : TestItemIn.t; label_group : string; signature : option SigIn.t; templates : list (Z * option TemplateRow.t);
  grouping : option GroupBlock.t; matching : Matching.t; reconstruction : option (list Recon.t * bool);
  decision : option Block.t; feedback : list Feedback.t; llm : list (Z * AuditRow.t) * list (string * RoleStateRow.t)
}.
End Journey.

Section Reconstruct.
Context `{PgVector, PgSearch, PyRepr}.

(** [reconstruct_stage_b]: the stored texts as the query; a vector that has not 384
    numbers is taken as none. *)
Definition salient (s : SigIn.t) : ustr :=
  ustrip (ujoin [32%N] (List.filter (fun t => negb (bool_decide (t = []))) [ustrip (SigIn.exc_text s); ustrip (SigIn.msg_text s)])).
Definition stored_vector (s : SigIn.t) : option (list pyfloat) :=
  match SigIn.emb s with Some e => if (length e =? _DIMS)%nat then Some e else None | None => None end.
Definition recon_query (s : SigIn.t) : Query.t :=
  Query.mk (SigIn.exception_fp s) (SigIn.error_hash s) (SigIn.template_ids s) [salient s] [ustrip (SigIn.exc_text s)]
    (stored_vector s) (SigIn.emb_model_ver s) None None.

Definition recon_candidate (p self : Z) (q : Query.t) (d : db) (h : Hit.t) : option Recon.t :=
  let i := Hit.item_id h in
  match failure_signature d !! (p, i), test_item d !! (p, i) with
  | Some s, Some r =>
      let x := ItemRow.data r in
      Some (Recon.mk i (i =? self) (Hit.sparse_rank h) (Hit.dense_rank h) (read_real <$> Hit.lex_score h) (Hit.cosine h) (rrf_float h)
        (read_real (array_jaccard (SigIn.template_ids (SigRow.data s)) (Query.template_ids q)))
        (u (str_of_Z (hash_of s))) (u (str_of_Z (SigIn.exception_fp (SigRow.data s)))) (TestItemIn.issue_type x)
        (TestItemIn.launch_id x) (TestItemIn.launch_number x) (TestItemIn.is_auto_analyzed x)
        (EventRow.source <$> latest_event p i d) (member_mode_id p i d))
  | _, _ => None
  end.
Definition reconstruct_stage_b (p k : Z) (s : SigIn.t) (d : db) : list Recon.t * bool :=
  let q := recon_query s in
  (omap (recon_candidate p (SigIn.item_id s) q d) (hits (evidence_rows p d) q k),
   match SigIn.emb s with Some (_ :: _) => negb (SigIn.emb_model_ver s =? 0) | _ => false end).

Definition item_journey (p i : Z) (d : db) : result (option Journey.t) :=
  match test_item d !! (p, i) with
  | None => Ok None
  | Some r =>
      let x := ItemRow.data r in
      let sig := SigRow.data <$> failure_signature d !! (p, i) in
      let launch := TestItemIn.launch_id x in
      let grouping := (fun kg : Z * GroupRow.t => let '(gid, g) := kg in
        let members := group_members p launch i gid g d in
        GroupBlock.mk gid (u (str_of_Z (GroupRow.fingerprint g))) (GroupRow.member_count g) (GroupRow.dominant g)
          (read_real (GroupRow.si_prior g)) (launch_size p launch d) members (Z.of_nat (length members)))
        <$> group_of_item p launch (SigIn.error_hash <$> sig) d in
      '(matching, decision) ← decision_blocks p i d;
      Ok (Some (Journey.mk x (_grp (TestItemIn.issue_type x)) sig
        (match sig with Some s => templates_block p (SigIn.template_ids s) d | None => [] end) grouping matching
        ((fun s => reconstruct_stage_b p 20 s d) <$> sig) decision (feedback p i d) (item_calls p i d, role_states p d)))
  end.
End Reconstruct.

(** ** The fingerprint space *)

(** A member's label as the SQL groups it; [ti] and no group do not count. *)
Definition nonti_group (issue_type : option ustr) : option ustr :=
  match issue_type ≫= issue_type_group with
  | Some g => if bool_decide (g = u "ti") then None else Some g
  | None => None
  end.
(** [count(DISTINCT issue_type_group) FILTER (...)]. *)
Definition distinct_nonti (labels : list (option ustr)) : Z :=
  Z.of_nat (size (list_to_set (omap nonti_group labels) : gset ustr)).

(** [_label_breakdown]: a [Counter], most frequent first, then by locator. *)
Definition tally (labels : list (option ustr)) : list (option ustr * Z) :=
  fold_left (fun c l => dset l (dgetd l 0 c + 1) c) labels [].
(** [kv[0] or '\uffff']: no label comes last. *)
Definition label_key (l : option ustr) : ustr := match l with None | Some [] => [65535%N] | Some t => t end.
Definition breakdown_leb (a b : option ustr * Z) : bool :=
  if a.2 =? b.2 then text_leb (label_key a.1) (label_key b.1) else b.2 <? a.2.
Definition _label_breakdown (labels : list (option ustr)) : list (option ustr * string * Z) :=
  (fun ln => (ln.1, _grp ln.1, ln.2)) <$> pysorted breakdown_leb (tally labels).

Definition members_of_hash (p h : Z) (d : db) : list (Z * SigRow.t * ItemRow.t) := joined p (fun _ s _ => hash_of s =? h) d.
Definition labels_of_hash (p h : Z) (d : db) : list (option ustr) := (fun x => ItemRow.issue_type x.2) <$> members_of_hash p h d.

Module HashSummary.
Record t := mk {
  error_hash : Z; member_count : Z; distinct_fp : Z; embedded_count : Z; labels : list (option ustr * string * Z);
  distinct_nonti : Z; is_conflict : bool
}.
End HashSummary.
(** A row of [signatures]. *)
Definition hash_summary (p h : Z) (d : db) : HashSummary.t :=
  let ms := members_of_hash p h d in
  let n := distinct_nonti (labels_of_hash p h d) in
  HashSummary.mk h (Z.of_nat (length ms))
    (Z.of_nat (size (list_to_set ((fun x => SigIn.exception_fp (SigRow.data x.1.2)) <$> ms) : gset Z)))
    (Z.of_nat (length (List.filter (fun x => bool_decide (is_Some (SigIn.emb (SigRow.data x.1.2)))) ms)))
    (_label_breakdown (labels_of_hash p h d)) n (1 <? n).

(** [signatures] without a search text: [ORDER BY member_count DESC, error_hash LIMIT OFFSET]. *)
Definition summary_leb (a b : HashSummary.t) : bool :=
  leb_of (then_by (desc (HashSummary.member_count a) (HashSummary.member_count b)) (HashSummary.error_hash a ?= HashSummary.error_hash b)).
Definition hashes_of (p : Z) (d : db) : list Z :=
  elements (list_to_set ((fun x => hash_of x.1.2) <$> joined p (fun _ _ _ => true) d) : gset Z).
Definition signatures (p : Z) (conflicts_only : bool) (limit offset : Z) (d : db) : list HashSummary.t :=
  take (Z.to_nat limit) (skipn (Z.to_nat offset) (pysorted summary_leb
    (List.filter (fun s => negb conflicts_only || HashSummary.is_conflict s) ((fun h => hash_summary p h d) <$> hashes_of p d)))).
Definition conflict_hashes (p : Z) (d : db) : Z :=
  Z.of_nat (length (List.filter (fun h => 1 <? distinct_nonti (labels_of_hash p h d)) (hashes_of p d))).

(** [signature_hash]: the conflict by the groups the page paints. *)
Definition painted (labels : list (option ustr)) : gset string :=
  list_to_set (List.filter (fun g => negb (bool_decide (g ∈ ["ti"; "none"]))) (_grp <$> labels)).
Definition detail_conflict (p h : Z) (d : db) : bool := 1 <? Z.of_nat (size (painted (labels_of_hash p h d))).

(** ** The groups of a launch *)

Module Node.
Record t := mk { item_id : Z; launch_id : Z; group_id : option Z; error_hash : option ustr }.
End Node.
(** [{(launch_id, str(fingerprint)): group_id}]: of two groups with a key the later row counts. *)
Definition fp_to_group (groups : list (Z * GroupRow.t)) : list (Z * ustr * Z) :=
  fold_left (fun m g => dset (GroupRow.launch_id g.2, u (str_of_Z (GroupRow.fingerprint g.2))) g.1 m) groups [].
Definition node (m : list (Z * ustr * Z)) (p i : Z) (r : ItemRow.t) (d : db) : Node.t :=
  let eh := (fun s => u (str_of_Z (hash_of s))) <$> failure_signature d !! (p, i) in
  Node.mk i (ItemRow.launch_id r) (eh ≫= (fun h => dget (ItemRow.launch_id r, h) m)) eh.

(** ** Counters and maturity *)

Definition GBM_MIN_EVENTS : Z := 50.
Definition CALIB_MIN_EVENTS : Z := 300.
Definition _HUMAN_SOURCES : list string := ["rp"; "human"; "rp_defect_update"; "human_ui"; "analyzer_suggestion_accepted"].

Definition events_of_project (p : Z) (d : db) : list (Z * EventRow.t) := rows_of (fun _ e => EventRow.project_id e =? p) (label_event d).
Definition human_events (p : Z) (d : db) : Z :=
  Z.of_nat (length (List.filter (fun e => bool_decide (EventRow.source e.2 ∈ _HUMAN_SOURCES)) (events_of_project p d))).
(** [new_label IS NOT NULL AND new_label <> 'ti']; the column is never NULL. *)
Definition labels_item (e : EventRow.t) : bool := negb (bool_decide (EventRow.new_label e = to_investigate)).
(** Per distinct item. *)
Definition labeled_items (p : Z) (d : db) : Z :=
  Z.of_nat (size (list_to_set ((fun e => EventRow.item_id e.2) <$> List.filter (fun e => labels_item e.2) (events_of_project p d)) : gset Z)).
Definition stage (labeled : Z) : string :=
  if CALIB_MIN_EVENTS <=? labeled then "hot" else if GBM_MIN_EVENTS <=? labeled then "warm" else "cold".

Module Maturity.
Record t := mk { stage : string; labeled_items : Z; label_events : Z; human_events : Z; modes_confirmed : Z;
                 modes_candidate : Z; modes_seed : Z; modes_total : Z; signatures : Z; embedded : Z }.
End Maturity.
Definition modes_with (p : Z) (status : string) (d : db) : Z :=
  count (fun k m => (k.1 =? p) && bool_decide (ModeRow.status m = status)) (failure_mode d).
Definition embedded (p : Z) (d : db) : Z :=
  count (fun k s => (k.1 =? p) && bool_decide (is_Some (SigIn.emb (SigRow.data s)))) (failure_signature d).
Definition _maturity (p : Z) (d : db) : Maturity.t :=
  let n := labeled_items p d in
  Maturity.mk (stage n) n (Z.of_nat (length (events_of_project p d))) (human_events p d) (modes_with p "confirmed" d)
    (modes_with p "candidate" d) (modes_with p "seed" d) (count (fun k _ => k.1 =? p) (failure_mode d))
    (count (fun k _ => k.1 =? p) (failure_signature d)) (embedded p d).

Module Summary.
Record t := mk { suggestions : Z; accepted : Z; corrected : Z; ignored : Z; abstains : Z; pending : Z; llm_used : Z }.
End Summary.
Definition counted (p : Z) (P : SugRow.t -> bool) (d : db) : Z := count (fun _ s => (SugRow.project_id s =? p) && P s) (suggestion d).
Definition with_outcome (o : string) (s : SugRow.t) : bool := bool_decide (SugRow.outcome s = o).
Definition summary (p : Z) (d : db) : Summary.t :=
  Summary.mk (counted p (fun _ => true) d) (counted p (with_outcome "accepted") d) (counted p (with_outcome "corrected") d)
    (counted p (with_outcome "ignored") d) (counted p (fun s => bool_decide (SugRow.predicted_label s = to_investigate)) d)
    (counted p (with_outcome "pending") d) (counted p SugRow.llm_used d).

(** ** The members of a group *)

Lemma length_omap_le {A B} (f : A -> option B) (l : list A) : (length (omap f l) <= length l)%nat.
Proof. induction l as [|y l IH]; [done|]. csimpl. destruct (f y); csimpl; lia. Qed.

(** The item itself is never cut off by the cap, and comes first. *)
Lemma members_keep_self p launch self group g d r : test_item d !! (p, self) = Some r ->
  self ∈ suggested_in p launch group d ∪ fingerprinted p launch (GroupRow.fingerprint g) d ->
  exists m rest, group_members p launch self group g d = m :: rest /\ Member.item_id m = self /\ Member.is_self m = true
  /\ (length rest < 60)%nat.
Proof.
  intros Hr Hin. unfold group_members, limited. set (ids := elements _).
  pose proof (pysorted_sorted (self_first self)) as Hsort.
  assert (self ∈ pysorted (self_first self) ids) as Hs by (apply elem_of_pysorted; unfold ids; by apply elem_of_elements).
  assert (forall a b, self_first self a b = false -> self_first self b a = true) as Htot.
  { intros a b. unfold self_first, desc, then_by, leb_of. destruct (a =? self), (b =? self); cbn; try done;
    rewrite (Z.compare_antisym a b); by destruct (a ?= b). }
  assert (forall a b c, self_first self a b = true -> self_first self b c = true -> self_first self a c = true) as Htr.
  { intros a b c. unfold self_first, desc, then_by, leb_of. destruct (a =? self), (b =? self), (c =? self); cbn; try done;
    destruct (Z.compare_spec a b), (Z.compare_spec b c), (Z.compare_spec a c); try done; intros; lia. }
  specialize (Hsort Htot Htr ids).
  destruct (pysorted (self_first self) ids) as [|x l] eqn:E; [by apply elem_of_nil in Hs|].
  assert (x = self) as ->.
  { apply elem_of_cons in Hs as [->|Hs]; [done|]. apply StronglySorted_inv in Hsort as [_ Hall].
    rewrite Forall_forall in Hall. specialize (Hall _ Hs). unfold self_first, desc, then_by, leb_of in Hall.
    rewrite Z.eqb_refl in Hall. destruct (Z.eqb_spec x self); [done|]. by destruct (x ?= self). }
  change (Z.to_nat _GROUP_MEMBER_CAP) with (S 59). cbn [take omap list_omap]. unfold member_of at 1. rewrite Hr. cbn.
  eexists _, _. split_and!; [reflexivity|done|cbn; by rewrite Z.eqb_refl|].
  eapply Nat.le_lt_trans; [apply length_omap_le|]. rewrite length_take. lia.
Qed.

(** ** The conflict of a fingerprint, in the list and on its page *)

(** A locator the way the service makes it: two letters of a base group or [ti], and
    then no lower-case letter. *)
Definition locator (l : ustr) : Prop :=
  exists g rest, g ∈ LABEL_GROUPS /\ l = u g ++ rest /\ match rest with c :: _ => ((97 <=? c) && (c <=? 122))%N = false | [] => True end.

Lemma leading_az_app g rest : g ∈ LABEL_GROUPS -> match rest with c :: _ => ((97 <=? c) && (c <=? 122))%N = false | [] => True end ->
  leading_az (u g ++ rest) = u g.
Proof.
  intros Hg Hr. assert (leading_az rest = []) as E by (destruct rest as [|c r]; [done|]; cbn; by rewrite Hr).
  unfold LABEL_GROUPS in Hg. repeat (apply elem_of_cons in Hg as [->|Hg]; [cbn; by rewrite E|]). by apply elem_of_nil in Hg.
Qed.

Lemma grp_locator g rest : g ∈ LABEL_GROUPS -> _grp (Some (u g ++ rest)) = g.
Proof.
  intros Hg. unfold LABEL_GROUPS in Hg.
  repeat (apply elem_of_cons in Hg as [->|Hg]; [by vm_compute|]). by apply elem_of_nil in Hg.
Qed.

(** Of a locator the two groups are one; no label has no group. *)
Lemma groups_agree l : locator l -> nonti_group (Some l) = (if bool_decide (_grp (Some l) = "ti") then None else Some (u (_grp (Some l))))
  /\ _grp (Some l) ∈ LABEL_GROUPS.
Proof.
  intros (g & rest & Hg & -> & Hr). unfold nonti_group. cbn [mbind option_bind]. unfold issue_type_group.
  rewrite leading_az_app, grp_locator by done. split; [|done].
  assert (u g <> []) as Hne by (intros E; by elem_cases Hg). destruct (u g) as [|c t] eqn:E; [done|]. rewrite <- E.
  f_equal; try done. destruct (bool_decide (g = "ti")) eqn:Eg.
  - apply bool_decide_eq_true in Eg as ->. by rewrite bool_decide_true.
  - apply bool_decide_eq_false in Eg. rewrite bool_decide_false; [done|]. intros Eu. apply Eg. by apply u_inj.
Qed.

Lemma size_map_u (X : gset string) : size (set_map u X : gset ustr) = size X.
Proof.
  induction X as [|x X Hx IH] using set_ind_L; [by rewrite set_map_empty, !size_empty|].
  rewrite set_map_union_L, set_map_singleton_L, !size_union, !size_singleton, IH; [done|set_solver|].
  intros y ->%elem_of_singleton (z & E%u_inj & Hz)%elem_of_map. by subst.
Qed.

Lemma painted_groups ls : (forall l, Some l ∈ ls -> locator l) ->
  (set_map u (painted ls) : gset ustr) = list_to_set (omap nonti_group ls).
Proof.
  intros Hloc. apply set_eq. intros x. unfold painted. rewrite elem_of_map. setoid_rewrite elem_of_list_to_set.
  rewrite list_elem_of_omap. split.
  - intros (g & -> & [(o & -> & Ho)%list_elem_of_fmap Hg%negb_true_iff%bool_decide_eq_false]%filterb_elem).
    exists o. split; [done|]. destruct o as [l|]; [|set_solver]. destruct (groups_agree l (Hloc l Ho)) as [-> _].
    by rewrite bool_decide_false by set_solver.
  - intros ([l|] & Ho & E); [|done]. destruct (groups_agree l (Hloc l Ho)) as [Eg Hg]. rewrite Eg in E.
    case_bool_decide as Hti; [done|]. injection E as <-. exists (_grp (Some l)). split; [done|]. apply filterb_elem.
    split; [by apply list_elem_of_fmap_2|]. apply negb_true_iff, bool_decide_eq_false. intros [Hn|[Hn|[]%elem_of_nil]%elem_of_cons]%elem_of_cons; [done|].
    rewrite Hn in Hg. unfold LABEL_GROUPS in Hg. repeat (apply elem_of_cons in Hg as [Hg|Hg]; [discriminate|]). by apply elem_of_nil in Hg.
Qed.

(** For labels written as the service writes them, the two views of the fingerprint
    space agree: the row of the list and the page of a hash count the same number of
    distinct labels, so they flag the same hashes as conflicts, and the conflict
    filter of the list shows exactly those. *)
Theorem conflict_views_agree (p h : Z) (d : db) :
  (forall l, Some l ∈ labels_of_hash p h d -> locator l) ->
  Z.of_nat (size (painted (labels_of_hash p h d))) = HashSummary.distinct_nonti (hash_summary p h d)
  /\ detail_conflict p h d = HashSummary.is_conflict (hash_summary p h d).
Proof.
  intros Hloc. assert (Z.of_nat (size (painted (labels_of_hash p h d))) = distinct_nonti (labels_of_hash p h d)) as E.
  2: { split; [done|]. unfold detail_conflict. by rewrite E. }
  unfold distinct_nonti. by rewrite <- painted_groups, size_map_u.
Qed.

(** ** Groups of a launch *)

(** A node is in a group of its own launch whose fingerprint is the node's hash. *)
Lemma node_in_its_group groups p i r d gid : Node.group_id (node (fp_to_group groups) p i r d) = Some gid ->
  exists g s, (gid, g) ∈ groups /\ failure_signature d !! (p, i) = Some s /\ GroupRow.launch_id g = ItemRow.launch_id r
  /\ GroupRow.fingerprint g = hash_of s.
Proof.
  unfold node. cbn. destruct (failure_signature d !! (p, i)) as [s|]; [|done]. cbn.
  assert (forall m k v, dget k (fold_left (fun m (g : Z * GroupRow.t) => dset (GroupRow.launch_id g.2, u (str_of_Z (GroupRow.fingerprint g.2))) g.1 m) groups m) = Some v ->
    dget k m = Some v \/ exists g, (v, g) ∈ groups /\ k = (GroupRow.launch_id g, u (str_of_Z (GroupRow.fingerprint g)))) as Hin.
  { induction groups as [|[j g] gs IH]; intros m k v E; [by left|]. cbn [fold_left] in E.
    apply IH in E as [E|(g' & Hg & ->)]; [|right; exists g'; by split; [right|]].
    destruct (decide ((GroupRow.launch_id g, u (str_of_Z (GroupRow.fingerprint g))) = k)) as [<-|Hne].
    - rewrite dget_dset_eq in E. injection E as <-. right. exists g. by split; [left|].
    - rewrite dget_dset_ne in E by done. by left. }
  intros [E|(g & Hg & [= El Ef])]%Hin; [done|]. exists g, s. split_and!; [done|done|done|].
  apply u_inj in Ef. by apply (inj pretty) in Ef.
Qed.

(** ** The retrieval run again *)

Section ReconLaws.
Context `{PgVector, PgSearch}.

(** Two queries with the same texts, vector and version rank the same rows. *)
Lemma hits_by_texts rows q q' k : ujoin [32%N] (Query.salient_terms q) = ujoin [32%N] (Query.salient_terms q') ->
  ujoin [32%N] (Query.exception_names q) = ujoin [32%N] (Query.exception_names q') ->
  query_vec q = query_vec q' -> Query.emb_model_ver q = Query.emb_model_ver q' -> hits rows q k = hits rows q' k.
Proof. intros E1 E2 E3 E4. unfold hits, sparse, dense. by rewrite E1, E2, E3, E4. Qed.

(** What the page shows are stored, labelled items of the project, each once and at
    most [k]. *)
Lemma recon_is_evidence p k s d : 0 <= k ->
  let rs := (reconstruct_stage_b p k s d).1 in
  Z.of_nat (length rs) <= k /\ NoDup (Recon.item_id <$> rs)
  /\ forall c, c ∈ rs -> exists g r, failure_signature d !! (p, Recon.item_id c) = Some g /\ test_item d !! (p, Recon.item_id c) = Some r
     /\ labelled (ItemRow.issue_type r) = true /\ Recon.issue_type c = ItemRow.issue_type r
     /\ (Recon.is_self c = true <-> Recon.item_id c = SigIn.item_id s).
Proof.
  intros Hk. cbv zeta. unfold reconstruct_stage_b. cbn [fst]. set (q := recon_query s).
  assert (forall h c, recon_candidate p (SigIn.item_id s) q d h = Some c -> Recon.item_id c = Hit.item_id h) as Hid.
  { intros h c. unfold recon_candidate. cbv zeta. destruct (failure_signature d !! _); [|done]. destruct (test_item d !! _); [|done].
    by intros [= <-]. }
  split_and!.
  - etransitivity; [apply Nat2Z.inj_le, length_omap_le|]. unfold hits, limited. rewrite length_take. lia.
  - apply (sublist_NoDup _ (Hit.item_id <$> hits (evidence_rows p d) q k)); [apply hits_NoDup, joined_NoDup|].
    induction (hits (evidence_rows p d) q k) as [|h hs IH]; [constructor|]. csimpl.
    destruct (recon_candidate p (SigIn.item_id s) q d h) as [c|] eqn:E; csimpl; [|by constructor].
    rewrite (Hid h c E). by constructor.
  - intros c (h & Hh & E)%list_elem_of_omap. rewrite (Hid h c E). unfold evidence_rows in Hh.
    apply hit_of_rows in Hh as (g & r & Hg & Hr & HP). exists g, r. unfold recon_candidate in E. cbv zeta in E.
    rewrite Hg, Hr in E. injection E as <-. split_and!; [done..|]. cbn. apply Z.eqb_eq.
Qed.

(** It is the matcher's table exactly when the texts it searches are the matcher's. *)
Lemma recon_is_the_matchers p k s q d : ujoin [32%N] (Query.salient_terms q) = salient s ->
  ujoin [32%N] (Query.exception_names q) = ustrip (SigIn.exc_text s) -> Query.emb q = stored_vector s ->
  Query.emb_model_ver q = SigIn.emb_model_ver s ->
  Some <$> (Recon.item_id <$> (reconstruct_stage_b p k s d).1) = Candidate.item_id <$> _stage_b p q k (Filters.mk [] [] None []) d.
Proof.
  intros E1 E2 E3 E4. unfold reconstruct_stage_b, _stage_b. cbn [fst].
  rewrite (hits_by_texts _ (recon_query s) q); [|by rewrite E1|by rewrite E2|unfold query_vec; by rewrite E3|by rewrite E4].
  induction (hits (evidence_rows p d) q k) as [|h hs IH]; [done|]. csimpl. unfold recon_candidate at 1, candidate_of_hit at 1. cbv zeta.
  destruct (failure_signature d !! (p, Hit.item_id h)) as [g|]; [|done].
  destruct (test_item d !! (p, Hit.item_id h)) as [r|]; [|done]. csimpl. cbn [admitted List.filter].
  f_equal. exact IH.
Qed.
End ReconLaws.

(** ** A fingerprint with two labels *)

Section Example.
#[local] Existing Instance toy_vectors.
#[local] Existing Instance toy_search.

(** Two stored items with one hash and the given labels. *)
Definition two_labels (a b : string) : db :=
  upsert_signatures [stored_sig 1 "NPE" f1; stored_sig 2 "NPE" f1]
    (upsert_items 8 [stored_item 1 30 a; stored_item 2 31 b] empty_db).

Lemma conflict_views_agree_witness :
  (forall l, Some l ∈ labels_of_hash 1 6 (two_labels "pb001" "ab_custom") -> locator l)
  /\ detail_conflict 1 6 (two_labels "pb001" "ab_custom") = HashSummary.is_conflict (hash_summary 1 6 (two_labels "pb001" "ab_custom")).
Proof.
  assert (forall l, Some l ∈ labels_of_hash 1 6 (two_labels "pb001" "ab_custom") -> locator l) as Hloc.
  { intros l Hl. assert (labels_of_hash 1 6 (two_labels "pb001" "ab_custom") ≡ₚ [Some (u "pb001"); Some (u "ab_custom")]) as Hp
      by (apply (bool_decide_eq_true_1 (_ ≡ₚ _)); by vm_compute).
    rewrite Hp in Hl.
    apply elem_of_cons in Hl as [[= ->]|Hl]; [exists "pb", (u "001"); split_and!; [by left|done|done]|].
    apply elem_of_cons in Hl as [[= ->]|[]%elem_of_nil]. exists "ab", (u "_custom"). split_and!; [by right; left|done|done]. }
  split; [exact Hloc|]. exact (proj2 (conflict_views_agree 1 6 _ Hloc)).
Defined.

(** Two labels outside the base groups are two for the list and one for the page. *)
Lemma foreign_labels_split : let d := two_labels "xx1" "yy1" in
  HashSummary.is_conflict (hash_summary 1 6 d) = true /\ detail_conflict 1 6 d = false.
Proof. by vm_compute. Qed.

(** Moving an item back to "to investigate" makes it count as labelled: the event's
    label is the locator [ti001], and only the bare [ti] is left out. *)
Lemma to_investigate_counts_as_labelled :
  exists d, append_event 3 (LabelEventIn.mk 1 10 (Some (u "pb001")) (u "ti001") "rp_defect_update" None) (add_projects [1] empty_db) = Ok d
  /\ Maturity.labeled_items (_maturity 1 d.1) = 1.
Proof. eexists. split; [vm_compute; reflexivity|]. by vm_compute. Qed.
End Example.
