(* ===== verification/Shown.v ===== *)
(** * What the inspector shows against what was decided

    The decision blocks of [Inspector] for the rows the engine writes: the method, the
    stage and the band shown, against the decision of [Decision]; the query of the
    reconstruction against the matcher's; the constants the inspector keeps by hand. *)

From S2P Require Import Trainer.
From S2P Require Import Prelude PyFloat FloatQuot PyStr Regex PyText PyJson JsonText Models Features Decision LlmQueue Seeds Ingest LlmEngine Database Retrieval Knowledge HybridSearch Analyze Wiring Inspector InspectorViews.
From Stdlib Require Import ZArith Lia.

#[local] Open Scope string_scope.
#[local] Open Scope list_scope.
#[local] Open Scope Z_scope.

(** The values re-declared in the inspector are the service's. *)
Lemma constants_in_step : Inspector.TAU_SUGGEST = Decision.TAU_SUGGEST /\ Inspector.TAU_AUTO = Decision.TAU_AUTO
  /\ InspectorViews.GBM_MIN_EVENTS = Trainer.GBM_MIN_EVENTS /\ InspectorViews.CALIB_MIN_EVENTS = Trainer.CALIB_MIN_EVENTS.
Proof. done. Qed.

(** ** A row of the engine *)

Definition action_name (a : action_t) : string :=
  match a with ACTION_AUTO => "auto" | ACTION_SUGGEST => "suggest" | ACTION_ABSTAIN => "abstain" end.

Section Shown.
Context `{PgVector, PgSearch, PyRepr, Libm}.

(** The row [write_suggestion] inserts for a decision. *)
Definition row_of (eng : Engine.t db) (now p i launch : Z) (group : option Z) (source : option string) (r : DecisionResult.t) : Database.SugRow.t :=
  pending now (suggestion_row (suggestion_in eng p i launch group r source)).

(** The confidence the driver reads back is a number on the same side of both
    thresholds. *)
Definition reads_back (c : pyfloat) : Prop :=
  let x := read_real (to_real c) in
  is_nan x = false /\ (Decision.TAU_AUTO <=? x)%F = (Decision.TAU_AUTO <=? c)%F
  /\ (Decision.TAU_SUGGEST <=? x)%F = (Decision.TAU_SUGGEST <=? c)%F.

Lemma band_of_or_zero x : band_of (or_zero x) = band_of x.
Proof. unfold or_zero. destruct (is_zero x) eqn:E; [|done]. by destruct x as [[]|[]| |[]]. Qed.

Lemma band_of_row c : reads_back c -> band_of (or_zero (read_real (to_real c))) = band_of c.
Proof. intros (_ & E1 & E2). rewrite band_of_or_zero. unfold band_of. change Inspector.TAU_AUTO with Decision.TAU_AUTO.
  change Inspector.TAU_SUGGEST with Decision.TAU_SUGGEST. by rewrite E1, E2. Qed.

(** The order of the thresholds, and being under the lower one. *)
Lemma tau_order c : (Decision.TAU_SUGGEST <=? c)%F = false -> (Decision.TAU_AUTO <=? c)%F = false.
Proof.
  intros E. destruct (Decision.TAU_AUTO <=? c)%F eqn:E2; [|done]. rewrite <- E. symmetry.
  by apply (fle_trans _ Decision.TAU_AUTO).
Qed.
Lemma below_suggest x : is_nan x = false -> (or_zero x <? Inspector.TAU_SUGGEST)%F = negb (Decision.TAU_SUGGEST <=? x)%F.
Proof.
  intros Hn. unfold or_zero. destruct (is_zero x) eqn:E; [by destruct x as [[]|[]| |[]]|].
  change Decision.TAU_SUGGEST with Inspector.TAU_SUGGEST. destruct (Inspector.TAU_SUGGEST <=? x)%F eqn:El; cbn [negb].
  - by apply fle_not_flt.
  - destruct (x <? Inspector.TAU_SUGGEST)%F eqn:Ef; [done|]. by rewrite (not_flt_fle x Inspector.TAU_SUGGEST) in El.
Qed.

(** What each path of the decision fixes of the row. *)
Lemma decided_shape inputs t tau : exists l it c me kw,
  decide_inputs inputs t tau = mk_result (decide_env inputs tau) l it c me kw
  /\ match me with
     | METHOD_HASH => kw_short_circuit kw = true /\ is_Some (kw_relevant_item_id kw) /\ c = STAGE_A_CONFIDENCE
     | METHOD_KB => kw_short_circuit kw = true /\ kw_relevant_item_id kw = None /\ is_Some (kw_matched_mode_id kw)
     | METHOD_GBM => kw_short_circuit kw = false
     | METHOD_RULE_COLD => kw_short_circuit kw = false /\ kw_relevant_item_id kw = None
     end.
Proof.
  unfold decide_inputs. destruct (stage_a_inherit _ _ _ _ _) as [m|].
  { do 5 eexists. split; [reflexivity|]. cbn. split_and!; [done|by eexists|done]. }
  set (env := decide_env inputs tau). set (model_or_cold := match _ ≫= _ with Some gbm => _ | None => _ end).
  assert (exists l it c me kw, model_or_cold = mk_result env l it c me kw
    /\ ((me = METHOD_GBM /\ kw_short_circuit kw = false)
        \/ (me = METHOD_RULE_COLD /\ kw_short_circuit kw = false /\ kw_relevant_item_id kw = None))) as Hmc.
  { unfold model_or_cold. destruct (_ ≫= _) as [gbm|].
    - destruct (gbm_result_shape gbm env (DecisionInputs.query_msg_tokens inputs)) as (l & it & c & kw & -> & Hs & _).
      do 5 eexists. split; [reflexivity|by left].
    - unfold cold_result. destruct (DecisionInputs.seed inputs) as [sd|]; [destruct (_ <=? _)%F|];
      do 5 eexists; (split; [reflexivity|by right]). }
  destruct Hmc as (l & it & c & me & kw & -> & Hmc).
  destruct (best_kb_match _) as [[kb cand]|]; [destruct (kb_short_circuit kb)|].
  { do 5 eexists. split; [reflexivity|]. cbn. split_and!; [done|done|by eexists]. }
  all: do 5 eexists; split; [reflexivity|]; by destruct Hmc as [[-> ?]|(-> & ? & ?)].
Qed.

(** The stage the inspector names, by the two references of the row. *)
Definition stage_by_references (r : DecisionResult.t) : string :=
  match DecisionResult.relevant_item_id r, DecisionResult.matched_mode_id r with
  | Some _, _ => "A"
  | None, Some _ => "AB"
  | None, None => if bool_decide (DecisionResult.issue_type r = "ti") || negb (Decision.TAU_SUGGEST <=? DecisionResult.confidence r)%F
                  then "abstain" else "C"
  end.

Lemma stamped d kbc sid seed : let r := (_resolve_mode_match d kbc sid seed).1 in
  DecisionResult.method r = DecisionResult.method d /\ DecisionResult.confidence r = DecisionResult.confidence d
  /\ DecisionResult.action r = DecisionResult.action d /\ DecisionResult.label r = DecisionResult.label d
  /\ DecisionResult.relevant_item_id r = DecisionResult.relevant_item_id d
  /\ (is_Some (DecisionResult.matched_mode_id d) -> is_Some (DecisionResult.matched_mode_id r)).
Proof.
  cbv zeta. unfold _resolve_mode_match. destruct (DecisionResult.matched_mode_id d) as [m|] eqn:E; cbn; rewrite ?E; [done|].
  destruct sid as [m|]; cbn; [by split_and!; [..|eexists]|].
  destruct (best_kb_match kbc) as [[kbm cand]|]; cbn; rewrite ?E; [|done].
  destruct (Candidate.mode_id cand) as [m|]; cbn; rewrite ?E; [|done].
  destruct (_ <=? _)%F; cbn; rewrite ?E; [by split_and!; [..|eexists]|done].
Qed.

Lemma stage_of_row (eng : Engine.t db) now p i launch group source r : reads_back (DecisionResult.confidence r) ->
  (stage_of (row_of eng now p i launch group source r)).1.1 = stage_by_references r.
Proof.
  intros (Hn & _ & E2). unfold stage_of, stage_by_references. set (row := row_of eng now p i launch group source r).
  change (Database.SugRow.matched_item_id row) with (DecisionResult.relevant_item_id r).
  change (Database.SugRow.matched_mode_id row) with (DecisionResult.matched_mode_id r).
  change (Database.SugRow.predicted_label row) with (u (DecisionResult.issue_type r)).
  change (confidence row) with (read_real (to_real (DecisionResult.confidence r))).
  destruct (DecisionResult.relevant_item_id r); [done|]. destruct (DecisionResult.matched_mode_id r); [done|].
  set (x := read_real (to_real _)) in *. rewrite below_suggest, E2 by done.
  rewrite (bool_decide_ext (u (DecisionResult.issue_type r) = to_investigate) (DecisionResult.issue_type r = "ti"))
    by (split; [apply u_inj|by intros ->]).
  by destruct (_ || _).
Qed.

(** For the row of any decision of the engine, with the default automatic threshold:
    the inspector shows the method that decided; a hash inherit as Stage A and a
    knowledge-base match as Stage A/B; and the band is the action taken, except for an
    abstention whose probability is not below the suggestion threshold, and for a
    knowledge-base match should its confidence be below the automatic one.  The stage
    is told from the references of the row alone: every decision with a neighbour reads
    as Stage A, the model's too. *)
Theorem shown_against_decided (eng : Engine.t db) (now p i launch id : Z) (group : option Z) (source : option string) (d : db)
    (inputs : DecisionInputs.t) (t : Z) (kbc : list Candidate.t) (sid : option Z) (seed : option SeedSignal.t)
    (m : Matching.t) (b : Block.t) :
  let r := (_resolve_mode_match (decide_inputs inputs t Decision.TAU_AUTO) kbc sid seed).1 in
  reads_back (DecisionResult.confidence r) ->
  _matching_decision p (Some (id, row_of eng now p i launch group source r)) d = Ok (m, Some b) ->
  Block.method b = method_name (DecisionResult.method r)
  /\ Matching.stage m = stage_by_references r
  /\ (DecisionResult.method r = METHOD_HASH -> Matching.stage m = "A" /\ Block.band b = "auto")
  /\ (DecisionResult.method r = METHOD_KB -> Matching.stage m = "AB")
  /\ (Block.band b = action_name (DecisionResult.action r)
      \/ (DecisionResult.label r = "ti" /\ DecisionResult.action r = ACTION_ABSTAIN
          /\ (Decision.TAU_SUGGEST <=? DecisionResult.confidence r)%F = true)
      \/ (DecisionResult.method r = METHOD_KB /\ DecisionResult.action r = ACTION_AUTO
          /\ (Decision.TAU_AUTO <=? DecisionResult.confidence r)%F = false)).
Proof.
  cbv zeta. set (r := (_resolve_mode_match _ _ _ _).1). intros Hread Em.
  pose proof (stamped (decide_inputs inputs t Decision.TAU_AUTO) kbc sid seed) as (Hme & Hc & Ha & Hl & Hrel & Hmode). fold r in Hme, Hc, Ha, Hl, Hrel, Hmode.
  destruct (matching_tells _ _ _ _ _ _ Em) as ((_ & _ & Hband & _ & _ & Hmeth & _) & _ & _ & _ & _ & _ & _ & _ & Hst).
  change (confidence (row_of eng now p i launch group source r)) with (read_real (to_real (DecisionResult.confidence r))) in Hband.
  rewrite band_of_row in Hband by done. rewrite stage_of_row in Hst by done.
  assert (Block.method b = method_name (DecisionResult.method r)) as Hm by (rewrite Hmeth; unfold method_of; cbn; by destruct (DecisionResult.method r)).
  destruct (decided_shape inputs t Decision.TAU_AUTO) as (l & it & c & me & kw & E & Hk).
  rewrite E in Hme, Hc, Ha, Hl, Hrel, Hmode. cbn in Hme, Hc, Hl, Hrel, Hmode. rewrite mk_result_action in Ha.
  rewrite Hm, Hst, Hme, Hband, Hc, Ha, Hl. split_and!; [done|done|..].
  - intros ->. destruct Hk as (_ & [x Hx] & ->). unfold stage_by_references. by rewrite Hrel, Hx.
  - intros ->. destruct Hk as (_ & Hx & Hs). unfold stage_by_references. rewrite Hrel, Hx.
    by destruct (Hmode Hs) as [y ->].
  - unfold _band_action, band_of. change Inspector.TAU_AUTO with Decision.TAU_AUTO. change Inspector.TAU_SUGGEST with Decision.TAU_SUGGEST.
    change (env_tau_auto (decide_env inputs Decision.TAU_AUTO)) with Decision.TAU_AUTO. case_decide as Hti.
    + destruct (Decision.TAU_SUGGEST <=? c)%F eqn:E2; [by (right; left)|]. left.
      by rewrite (tau_order c E2).
    + destruct (kw_short_circuit kw) eqn:Es; cbn [orb]; [|left; by destruct (_ <=? _)%F; [|destruct (_ <=? _)%F]].
      destruct me; [destruct Hk as (_ & _ & ->); by left| |done|by destruct Hk].
      destruct (Decision.TAU_AUTO <=? c)%F; [by left|by (right; right)].
Qed.
End Shown.

(** ** Concrete rows *)

Section Example.
#[local] Existing Instance toy_vectors.
#[local] Existing Instance toy_search.
#[local] Instance plain_repr : PyRepr := {| float_repr _ := []; container_repr _ := [] |}.
#[local] Instance plain_libm : Libm := {| math_exp := id; math_log := id; math_log1p := id; float_pow x _ := x |}.

Definition plain_engine : Engine.t db :=
  Engine.mk db None None None true false (dec 75 100) (dec 85 100) (dec 4 10) f0 false "off" f0 "none".

(** One neighbour with another hash, and the model's answer. *)
Definition neighbour_inputs (c : Candidate.t) (p : pyfloat) : DecisionInputs.t := {|
  DecisionInputs.exception_fp := 42; DecisionInputs.hash_matches := []; DecisionInputs.query_status_codes := [];
  DecisionInputs.query_msg_tokens := {["Session.userId"]}; DecisionInputs.kb_candidates := []; DecisionInputs.seed := None;
  DecisionInputs.stage_c := [c]; DecisionInputs.stage_c_ages_days := [f1]; DecisionInputs.feature_ctx := None;
  DecisionInputs.gbm_predict := Some (fun _ => Some (GbmDecision.mk "pb" p [] "gbm-7")) |}.

(** A neighbour that shares nothing with the failure but its words in general. *)
Definition far_neighbour : Candidate.t := {|
  Candidate.item_id := Some 7; Candidate.mode_id := None; Candidate.dense_rank := None;
  Candidate.sparse_rank := None; Candidate.rrf_score := f0; Candidate.cosine := None;
  Candidate.lex_score := None; Candidate.jaccard_templates := f0;
  Candidate.issue_type := Some "pb001"; Candidate.label_source := Some "rp";
  Candidate.label_ts := None; Candidate.same_test_case := false;
  Candidate.same_error_hash := false; Candidate.same_exception_fp := false;
  Candidate.msg_text := "boom"; Candidate.exc_text := ""; Candidate.launch_distance := None;
  Candidate.launch_id := None; Candidate.launch_name := None;
  Candidate.mode_status := None; Candidate.mode_purity := None; Candidate.mode_support := None;
  Candidate.matched_by := None; Candidate.relevant_log_id := None |}.

Definition decided (inputs : DecisionInputs.t) : DecisionResult.t :=
  (_resolve_mode_match (decide_inputs inputs 0 Decision.TAU_AUTO) [] None None).1.
Definition shown (inputs : DecisionInputs.t) : option (string * string * string) :=
  match _matching_decision 1 (Some (5, row_of plain_engine 9 1 10 3 None None (decided inputs))) empty_db with
  | Ok (m, Some b) => Some (Matching.stage m, Block.method b, Block.band b)
  | _ => None
  end.

(** The model's decision reads as an exact-hash inherit. *)
Lemma model_reads_as_hash_inherit : DecisionResult.method (decided (neighbour_inputs demo_neighbour (dec 8 10))) = METHOD_GBM
  /\ shown (neighbour_inputs demo_neighbour (dec 8 10)) = Some ("A", "gbm", "auto").
Proof. by vm_compute. Qed.

(** An abstention reads as a suggestion, and no older rubric is shown beside it. *)
Lemma abstention_reads_as_suggestion : let r := decided (neighbour_inputs far_neighbour half) in
  DecisionResult.action r = ACTION_ABSTAIN /\ DecisionResult.abstain_reason r = Some "gbm_boilerplate_only_neighbor"
  /\ shown (neighbour_inputs far_neighbour half) = Some ("abstain", "gbm", "suggest")
  /\ _is_below_band_abstain (Some (row_of plain_engine 9 1 10 3 None None r)) = false.
Proof. by vm_compute. Qed.

Lemma shown_against_decided_witness : exists m b,
  _matching_decision 1 (Some (5, row_of plain_engine 9 1 10 3 None None (decided (neighbour_inputs demo_neighbour (dec 8 10))))) empty_db = Ok (m, Some b)
  /\ Block.method b = method_name (DecisionResult.method (decided (neighbour_inputs demo_neighbour (dec 8 10)))).
Proof.
  assert (reads_back (DecisionResult.confidence (decided (neighbour_inputs demo_neighbour (dec 8 10))))) as Hr by (vm_compute; done).
  unfold decided in *.
  destruct (_matching_decision _ _ _) as [[m [b|]]|e] eqn:E; [|by vm_compute in E..].
  exists m, b. split; [done|].
  exact (proj1 (shown_against_decided plain_engine 9 1 10 3 5 None None empty_db (neighbour_inputs demo_neighbour (dec 8 10)) 0 [] None None m b Hr E)).
Defined.

(** The page searches other words than the matcher did: the codes are missing, and a
    long message is not cut. *)
Definition coded : SigIn.t := SigIn.mk 1 10 5 6 [] [11] (u "NPE") (u "down") [] [] [u "503"] None 0 None.
Lemma reconstruction_searches_other_words rep launch n :
  ujoin [32%N] (Query.salient_terms (query_of (_query_from_identity (identity_of_stored (stored_signature coded)) rep launch n)))
  = u "NPE down HTTP_503" /\ salient coded = u "NPE down".
Proof. by vm_compute. Qed.
End Example.
